(* ===== verification/_CoqProject ===== *)
-Q . S2P
Prelude.v
Abi.v
Topic.v
SubscriptionList.v
Queues.v
EventQueue.v
Ipc.v
IpcProps.v
IpcCalls.v
Clocks.v
Scheduler.v
SchedulerProps.v
Bytes.v
Ranges.v
VirtAlloc.v
PageMap.v
Args.v
ProcessMem.v
Elf.v
Process.v
Syscall.v
SyscallProps.v
SyscallRepeat.v
SyscallMem.v
Interrupt.v
InterruptProps.v
InterruptEnds.v
Net.v
NetPackets.v
Dns.v
Dhcp.v
NetDaemon.v
TcpHandler.v
TcpProps.v
NetDaemonProps.v
Services.v
DiskCursor.v
Rtc.v
Console.v
LibIpc.v
LibIpcProps.v
PortIo.v
Ata.v
Pci.v
Ne2k.v
Rtl8139.v
VgaBuffer.v
Acpi.v
IoApic.v
Boot.v
DiskImage.v
Heap.v
UserLib.v
Smp.v
Idt.v
Ps2.v
UserCalls.v
UserIpc.v
SysLog.v
Uart.v
KernelRandom.v
KernelSpace.v
Calibrate.v
KernelStart.v
Processor.v
Trampoline.v
SyscallReturn.v
