(* ===== verification/Prelude.v ===== *)
(** * A verification library of the D7 operating system

    D7 is an operating system for x86-64 in Rust: a kernel with message-passing IPC (src/src),
    libraries shared with the processes (src/libs), and drivers and daemons that run as processes
    (src/modules).  This library translates the code into executable definitions and proves what
    makes it correct.  A Rust function [Type::method] is the definition [Type_method] or
    [method]; the comments of each file name the source files.

    ** Conventions

    A function that can panic returns an [outcome]: [Ret] a value or [Panic] with the message; a
    Rust [Result] is a [result].  State is passed explicitly.  Integers are [Z] with their
    wrap-around written out ([wrap64], [wrap16], ...) where the source can leave their width;
    bytes are integers below 256.  Hash maps and sets are [gmap] and [gset]; where the source
    iterates over one, the order is any permutation ([HashOrder]).  The kernel is built with
    overflow checks, so an overflow there panics; libraries and modules are not, and wrap.  The
    tools of the host are built with the checks.

    What is not part of the repository is a parameter: crates ([pinecone], [allogator], [x86_64],
    [tcpstate], [lru], [chrono], Unicode tables) are type classes with the operations that are
    used and the documented laws that are relied on; hardware, random numbers and the time are
    arguments.  Every class of laws has an instance, and every main theorem with hypotheses a witness
    that applies it to concrete values.

    ** The kernel

    - Prelude: outcomes, results, ordered keys, hash order, machine integers, tactics, hints.
    - Abi: identifiers, flags, error codes and messages (libs/d7abi).
    - Topic, SubscriptionList, EventQueue, Ipc: topics and filters, the sorted subscription
      table, mailboxes, and the IPC manager with the kernel services (src/ipc, src/services,
      src/initrd.rs).  IpcProps has the invariant [mg_wf]; IpcCalls the calls as a state machine
      against any scheduler that satisfies [EventSinkLaws].
    - Queues, Clocks, Scheduler: wait conditions and run queues, time, the process table
      (src/multitasking, src/time.rs, src/smp/sleep.rs).  Queues is an instance of
      [EventSinkLaws].  SchedulerProps has the invariant [sched_wf] and the state machine of
      scheduler and IPC manager together.
    - Bytes, Ranges, VirtAlloc, PageMap: byte order, the boot memory map, virtual and DMA
      allocation, and the page-table walker (src/memory).
    - Args, ProcessMem, Elf, Process: program arguments, access to process memory, program
      images, creation of a process (src/multitasking, src/util/elf_parser.rs,
      libs/libd7/src/env.rs).  They use page tables and frames through [PageTables] and
      [PhysAlloc].
    - Syscall: the system calls, in a monad with state, panics and early return
      (src/syscall/mod.rs).  SyscallProps is a logic of triples for it, SyscallRepeat the calls that
      block and are repeated, SyscallMem what calls copy.
    - Interrupt: the interrupt handler and the interrupt controller (src/interrupt/handler.rs,
      src/driver/pic.rs), with InterruptProps and InterruptEnds.

    ** Libraries, daemons and drivers

    - LibIpc, LibIpcProps: messages in user programs (libs/libd7/src/ipc): a program is a tree of
      system calls, run against the IPC manager.
    - Net, NetPackets, Dns, Dhcp: the packet formats (libs/d7net).
    - NetDaemon, TcpHandler, TcpProps, NetDaemonProps: the network daemon (modules/daemon_net).
      The packet dispatch uses the TCP sockets through [TcpLayer]; the sockets use the protocol
      through [TcpStack].
    - Services: the service daemon.  DiskCursor: disk access of the FAT daemon.  Rtc: the clock
      driver.  Console: key codes, key maps and consoles.
    - UserCalls, UserIpc: the system calls as the library makes them, in registers and memory
      (libs/libd7/src/syscall.rs), and that through the kernel of Syscall they do what LibIpc
      takes them to do.  UserLib: time, addresses and TCP sockets of programs (libs/libd7/src).
    - PortIo: programs of port accesses over a [Device], for the drivers that follow.  Each has a
      class of laws for its hardware, an abstract state the device shows, and an instance.
    - Ata, Pci, Ne2k, Rtl8139, Ps2: the drivers of disks, of the PCI bus, of two network cards and
      of the keyboard (modules/driver_*, libs/d7pci).
    - SysLog: the kernel log on its way to the console (src/syslog.rs, modules/daemon_syslog).

    ** Start of the machine and kernel hardware

    - Boot, DiskImage: the loader (libs/d7boot), the tools that make the disk (libs/d7initrd,
      libs/elf2bin), and the RAM disk the kernel finds (src/initrd.rs).
    - Heap: the physical allocator's front, the kernel heap and the heap of processes
      (src/memory/phys, src/memory/rust_heap.rs, libs/libd7/src/allocator.rs).
    - Idt: the descriptor tables as bytes that the processor decodes (src/interrupt).
    - Acpi, IoApic, Smp: the tables of the firmware, interrupt routing and the start of the other
      processors, which is a step relation over shared memory (src/driver, src/smp).
    - VgaBuffer, Uart: text and serial output (src/driver).  KernelRandom: processor features and
      random numbers (src/cpuid.rs, src/random.rs).
    - KernelSpace: the set-up of memory and the address space of the kernel, read through an
      [mmu] (src/memory/mod.rs, src/memory/paging/mod.rs).  Calibrate: the interval timer and the
      clocks measured with it (src/driver/pit.rs, src/smp/sleep.rs).
    - KernelStart: the end of the main function, which starts the first process (src/main.rs).
    - Processor, Trampoline, SyscallReturn: the assembly through which every interrupt of a process
      goes (src/asm_misc/process_common.asm, the naked function of src/interrupt/handler.rs), as
      listings run on a processor with registers, page tables and memory; then with the kernel of
      Interrupt as the function it calls.

    ** What the theorems show

    - Safety: the IPC manager never panics in any history of permitted calls ([ipc_never_panics]),
      nor does the kernel of scheduler and IPC manager except with the panic of a process that
      cannot be created ([kernel_never_panics]); memory calls for user addresses never
      panic and never map a frame that is not allocated ([dynamic_memory_safe]); every caller of
      a socket is answered once ([tcp_answers_once]); memory of the kernel heap and of the heap of
      a process is disjoint from what is in use ([heap_alloc_fresh], [user_heap_disjoint]); in every
      interleaving of the processors at start-up each finds a stack ([smp_hand_over]), which it
      may lose again ([smp_stack_lost]).
    - Progress: an interrupt ends when the hardware lets it ([interrupt_ends]) and resumes the
      running process ([interrupt_resumes_running]); events, ticks and terminations wake exactly who waits
      ([give_wakes_exactly], [terminate_wakes_waiters], [termination_releases]); a request over
      the user library is answered in any interleaving ([request_answered]); start-up ends in the
      first process ([first_process_runs]).
    - Functional behaviour on every branch: system calls, process creation, program loading,
      memory allocation, publishing, address configuration and resolution; after start-up the
      kernel finds every address mapped as meant, and no other ([kernel_memory_exact]); the
      assembly of an interrupt saves the registers of a process and resumes the process that the
      kernel returns with exactly its own ([interrupt_exact]), and the first process starts at its
      entry point ([daemon_enters]).
    - Refinement: page tables are finite maps ([page_map_refines]), event queues bounded FIFOs
      ([event_queue_fifo]), free lists partitions of the address space ([virt_partition]), a
      console the end of the text ([console_shows_tail], [vga_shows_text]); message calls through
      registers, memory and kernel are calls of the IPC manager ([message_calls_refine]); a system
      call goes from the registers of the process to the kernel and back ([call_returns]); the
      console gets what the kernel logs ([log_reaches_console]).
    - Errors: every answer of the kernel is decoded as it was meant ([user_understands_kernel]);
      the disk driver refuses exactly the requests its assertions exclude ([ata_read_exact]).
    - Round trips: messages, arguments, packets, disk contents, key codes, and the disk image from
      the tool that makes it to the kernel that reads it ([image_boots]).
    - Hardware: the bus scan finds the devices there are ([pci_scan_exact]), drivers move frames
      and sectors, one by one, as they are ([ata_write_read], [ne2k_delivers_frames], [rtl8139_sends_packet]),
      the keyboard starts ([keyboard_starts]), interrupts reach their handlers ([idt_dispatches],
      [ioapic_routes_all]), and the clocks are measured within bounds ([clocks_calibrated]).
    - What the code does not do as it means to is stated as a theorem of its own, for instance
      [early_acknowledge_panics], [compression_loop], [read_across_panics],
      [ata_pauses_not_awaited].

    ** Fuel

    The chain of repeated system calls ([handle_repeat_syscall]) and the loops in which the
    interrupt handler waits ([poll]: for the keyboard controller, and for a lock) run on fuel;
    [interrupt_ends] shows that enough of it gives a result that more does not change, and when no
    fuel is enough.  Reading
    a DNS name need not end ([compression_loop]); [dns_resolved] gives the fuel that the messages
    of a server need.  The options of a DHCP message run on the number of bytes, the rounds of a
    disk read on the bytes wanted ([read_fuel]).  The clock driver waits for the chip, and
    [rtc_reads_time] shows that one round is enough when the chip is idle.  A key that is mapped
    to another key runs on fuel, as a cyclic key map does not end.  Loops of drivers that poll run
    on fuel, and their theorems ask for more than the number of polls the device may be busy for;
    the scan of the buses has the number of buses.  The assembly has no loops, and runs on one unit
    of fuel for each of its lines ([code_fuel]), with which [interrupt_exact] reaches its end.

    ** Not modelled

    Time is read once per interrupt, where the code reads it where it is used.  The TLB,
    CR3 (outside Processor), locks (outside Smp the kernel runs on one processor, and it masks interrupts while it holds
    one) and log output are outside the model, and so are:
    - the assembly stages of the boot loader and the start-up code of the other processors, which
      change the mode of the processor: machine code;
    - the first part of the main function of the kernel, which calls the initialisation of the
      modelled parts in order; the exception handlers that print and halt;
    - the data kept per processor, and the copy of the start-up code of the other processors;
    - signatures of programs, the FAT file system, the TCP protocol, the AML interpreter, the buddy
      and block allocators and the JSON parser: third-party crates, which are parameters where the
      modelled code calls them;
    - the colours of the console daemon, the formatting of text and log records;
    - the programs that build and run the system on the host, apart from the disk tools. *)

From stdpp Require Import base gmap list strings sorting.
From Stdlib Require Import ZArith Lia.
From Stdlib Require OrderedTypeEx.

(** ** Outcomes: the value a Rust function returns, or the message it panics with *)

Inductive outcome (A : Type) : Type :=
| Ret (a : A)
| Panic (why : string).
Arguments Ret {A} a.
Arguments Panic {A} why.

#[global] Instance outcome_ret : MRet outcome := @Ret.
#[global] Instance outcome_bind : MBind outcome :=
  λ A B f m, match m with Ret a => f a | Panic w => Panic w end.
#[global] Instance outcome_fmap : FMap outcome :=
  λ A B f m, match m with Ret a => Ret (f a) | Panic w => Panic w end.

(** The call did not panic. *)
Definition returns {A} (m : outcome A) : Prop := ∃ a, m = Ret a.

(** Rust's [Result]. *)
Inductive result (A E : Type) : Type :=
| Ok (a : A)
| Err (e : E).
Arguments Ok {A E} a.
Arguments Err {A E} e.

Definition result_map {A B E} (f : A → B) (r : result A E) : result B E :=
  match r with Ok a => Ok (f a) | Err e => Err e end.
Definition result_map_err {A E F} (f : E → F) (r : result A E) : result A F :=
  match r with Ok a => Ok a | Err e => Err (f e) end.

(** [assert!], [Option::expect] and [Option::unwrap]. *)
Definition rassert (b : bool) (msg : string) : outcome unit :=
  if b then Ret tt else Panic msg.

Definition expect {A} (o : option A) (msg : string) : outcome A :=
  match o with Some a => Ret a | None => Panic msg end.

Definition unwrap {A} (o : option A) : outcome A :=
  expect o "called `Option::unwrap()` on a `None` value".

Lemma outcome_bind_ret {A B} (m : outcome A) (f : A → outcome B) b :
  m ≫= f = Ret b ↔ ∃ a, m = Ret a ∧ f a = Ret b.
Proof. destruct m; cbn; naive_solver. Qed.

Lemma rassert_ret b msg : rassert b msg = Ret tt ↔ b = true.
Proof. destruct b; cbn; naive_solver. Qed.

Lemma expect_ret {A} (o : option A) msg a : expect o msg = Ret a ↔ o = Some a.
Proof. destruct o; cbn; naive_solver. Qed.

Lemma returns_ret {A} (a : A) : returns (Ret a).
Proof. by exists a. Qed.

Create HintDb d7 discriminated.
#[export] Hint Resolve returns_ret : d7.

(** Turns every hypothesis [m ≫= f = Ret b] into the chain of its successful steps. *)
Ltac outcome_inv :=
  repeat match goal with
  | H : _ ≫= _ = Ret _ |- _ =>
      let a := fresh "a" in let Ha := fresh "Hm" in
      apply outcome_bind_ret in H as (a & Ha & H)
  | H : rassert _ _ = Ret ?u |- _ => destruct u; apply rassert_ret in H
  | H : expect _ _ = Ret _ |- _ => apply expect_ret in H
  | H : unwrap _ = Ret _ |- _ => apply expect_ret in H
  | H : Ret _ = Ret _ |- _ => injection H as H
  | H : Panic _ = Ret _ |- _ => discriminate H
  | p : (_ * _)%type |- _ => destruct p
  end.

(** ** Machine integers *)

Open Scope Z_scope.

Definition u64_size : Z := 2 ^ 64.
Definition u64_max : Z := u64_size - 1.

(** The two overflow behaviours of the build: the kernel crate has
    [overflow-checks = true] in its release profile and panics, the library crates wrap. *)
Definition add64 (a b : Z) : outcome Z :=
  if a + b <? u64_size then Ret (a + b) else Panic "attempt to add with overflow".
Definition sub64 (a b : Z) : outcome Z :=
  if b <=? a then Ret (a - b) else Panic "attempt to subtract with overflow".
Definition mul64 (a b : Z) : outcome Z :=
  if a * b <? u64_size then Ret (a * b) else Panic "attempt to multiply with overflow".
Definition wrap64 (z : Z) : Z := z mod u64_size.

Definition is_u64 (z : Z) : Prop := 0 ≤ z < u64_size.

Lemma u64_size_eq : u64_size = 18446744073709551616.
Proof. reflexivity. Qed.

Lemma add64_ret a b c : add64 a b = Ret c ↔ a + b < u64_size ∧ c = a + b.
Proof. unfold add64. destruct (Z.ltb_spec (a + b) u64_size); naive_solver lia. Qed.

Lemma sub64_ret a b c : sub64 a b = Ret c ↔ b ≤ a ∧ c = a - b.
Proof. unfold sub64. destruct (Z.leb_spec b a); naive_solver lia. Qed.

Lemma mul64_ret a b c : mul64 a b = Ret c ↔ a * b < u64_size ∧ c = a * b.
Proof. unfold mul64. destruct (Z.ltb_spec (a * b) u64_size); naive_solver lia. Qed.

Lemma add64_small a b : a + b < u64_size → add64 a b = Ret (a + b).
Proof. intros. by apply add64_ret. Qed.

Lemma sub64_small a b : b ≤ a → sub64 a b = Ret (a - b).
Proof. intros. by apply sub64_ret. Qed.

Lemma mul64_small a b : a * b < u64_size → mul64 a b = Ret (a * b).
Proof. intros. by apply mul64_ret. Qed.

Lemma wrap64_small z : is_u64 z → wrap64 z = z.
Proof. apply Z.mod_small. Qed.

Lemma elem_of_concat {B} (l : list (list B)) x : x ∈ concat l ↔ ∃ y, y ∈ l ∧ x ∈ y.
Proof. setoid_rewrite list_elem_of_In. apply in_concat. Qed.

(** ** Iteration order of hash tables

    [hashbrown] promises no order for the elements of a set or the keys of a map.  The order is
    a parameter: every theorem holds for each order that lists the elements once. *)

Class HashOrder := {
  hash_order : ∀ {A} `{Countable A}, gset A → list A;
  hash_order_perm : ∀ {A} `{Countable A} (X : gset A), hash_order X ≡ₚ elements X;
}.

#[global] Instance elements_order : HashOrder | 100 :=
  {| hash_order := λ A _ _ X, elements X; hash_order_perm := λ A _ _ X, reflexivity _ |}.

Section hash_order.
Context `{HO : HashOrder}.
Context {A : Type} `{Countable A}.
Implicit Types X : gset A.

Lemma elem_of_hash_order x X : x ∈ hash_order X ↔ x ∈ X.
Proof. rewrite hash_order_perm. apply elem_of_elements. Qed.

Lemma NoDup_hash_order X : NoDup (hash_order X).
Proof. rewrite hash_order_perm. apply NoDup_elements. Qed.

Lemma hash_order_empty : hash_order (∅ : gset A) = [].
Proof. apply Permutation_nil. by rewrite hash_order_perm, elements_empty. Qed.

End hash_order.

(** ** Vectors *)

(** [Vec::insert] and [Vec::remove], for an index in range. *)
Definition vec_insert {A} (i : nat) (x : A) (l : list A) : list A :=
  take i l ++ x :: drop i l.
Definition vec_remove {A} (i : nat) (l : list A) : list A :=
  take i l ++ drop (S i) l.

Lemma vec_insert_perm {A} i (x : A) l : vec_insert i x l ≡ₚ x :: l.
Proof.
  unfold vec_insert. rewrite <- Permutation_middle. by rewrite take_drop.
Qed.

Lemma vec_remove_perm {A} i (x : A) l : l !! i = Some x → l ≡ₚ x :: vec_remove i l.
Proof.
  intros Hi. unfold vec_remove. rewrite <- (take_drop_middle l i x Hi) at 1.
  by rewrite Permutation_middle.
Qed.

(** [slice::binary_search_by]: the loop of the standard library, on the half-open window
    [left, left + size). *)
Fixpoint bsearch_loop {A} (cmp : A → comparison) (l : list A) (fuel left right : nat)
    : nat + nat :=
  match fuel with
  | O => inr left
  | S fuel =>
      if Nat.ltb left right then
        let mid := (left + (right - left) / 2)%nat in
        match l !! mid with
        | None => inr left
        | Some x =>
            match cmp x with
            | Lt => bsearch_loop cmp l fuel (S mid) right
            | Gt => bsearch_loop cmp l fuel left mid
            | Eq => inl mid
            end
        end
      else inr left
  end.

Definition binary_search_by {A} (cmp : A → comparison) (l : list A) : nat + nat :=
  bsearch_loop cmp l (S (length l)) 0 (length l).

Arguments binary_search_by : simpl never.

Section binary_search.
Context {A : Type} (cmp : A → comparison) (l : list A).

(** The list is partitioned by [cmp]: first the [Lt]s, then the [Eq]s, then the [Gt]s. *)
Definition cmp_sorted : Prop :=
  ∀ i j x y, l !! i = Some x → l !! j = Some y → (i < j)%nat →
    (cmp y = Lt → cmp x = Lt) ∧ (cmp x = Gt → cmp y = Gt).

Hypothesis Hsorted : cmp_sorted.

Definition below (i : nat) : Prop := ∀ j x, (j < i)%nat → l !! j = Some x → cmp x = Lt.
Definition above (i : nat) : Prop := ∀ j x, (i ≤ j)%nat → l !! j = Some x → cmp x = Gt.

Lemma bsearch_loop_spec fuel left right :
  (right - left < fuel)%nat → (left ≤ right ≤ length l)%nat →
  below left → above right →
  match bsearch_loop cmp l fuel left right with
  | inl i => ∃ x, l !! i = Some x ∧ cmp x = Eq
  | inr i => (i ≤ length l)%nat ∧ below i ∧ above i
  end.
Proof.
  revert left right. induction fuel as [|fuel IH]; intros left right Hf Hr Hb Ha; [lia|].
  cbn [bsearch_loop]. destruct (Nat.ltb_spec left right) as [Hlt|Hge].
  2: { assert (left = right) as -> by lia. repeat split; [lia|done|done]. }
  set (mid := (left + (right - left) / 2)%nat).
  assert (left ≤ mid < right)%nat as Hmid.
  { unfold mid. pose proof (Nat.div_lt (right - left) 2). lia. }
  destruct (lookup_lt_is_Some_2 l mid) as [x Hx]; [lia|]. rewrite Hx.
  destruct (cmp x) eqn:Hc.
  - by exists x.
  - apply IH; [lia|lia| |done].
    intros j y Hj Hy. destruct (decide (j = mid)) as [->|]; [congruence|].
    destruct (Hsorted j mid y x Hy Hx) as [H1 _]; [lia|auto].
  - apply IH; [lia|lia|done|].
    intros j y Hj Hy. destruct (decide (j = mid)) as [->|]; [congruence|].
    destruct (Hsorted mid j x y Hx Hy) as [_ H1]; [lia|auto].
Qed.

(** A miss returns the only position that keeps the order, a hit returns an equal element. *)
Lemma binary_search_by_spec :
  match binary_search_by cmp l with
  | inl i => ∃ x, l !! i = Some x ∧ cmp x = Eq
  | inr i => (i ≤ length l)%nat ∧ below i ∧ above i
  end.
Proof.
  apply bsearch_loop_spec; [lia|lia| |].
  - intros j x Hj. lia.
  - intros j x Hj Hl. apply lookup_lt_Some in Hl. lia.
Qed.

End binary_search.

(** ** Total orders, as [#[derive(Ord)]] builds them *)

Class CmpLaws {A} (cmp : A → A → comparison) : Prop := {
  cmp_eq : ∀ x y, cmp x y = Eq ↔ x = y;
  cmp_antisym : ∀ x y, cmp y x = CompOpp (cmp x y);
  cmp_trans : ∀ x y z, cmp x y = Lt → cmp y z = Lt → cmp x z = Lt;
}.

(** Tuples and structs compare field by field. *)
Definition lex_cmp {A B} (ca : A → A → comparison) (cb : B → B → comparison)
    (x y : A * B) : comparison :=
  match ca x.1 y.1 with Eq => cb x.2 y.2 | c => c end.

Definition bool_cmp (a b : bool) : comparison :=
  match a, b with false, true => Lt | true, false => Gt | _, _ => Eq end.

#[global] Instance Z_cmp_laws : CmpLaws Z.compare.
Proof.
  split.
  - intros. apply Z.compare_eq_iff.
  - intros. apply Z.compare_antisym.
  - intros x y z. rewrite !Z.compare_lt_iff. lia.
Qed.

#[global] Instance bool_cmp_laws : CmpLaws bool_cmp.
Proof. split; [intros [] [] | intros [] [] | intros [] [] []]; by cbn. Qed.

#[global] Instance string_cmp_laws : CmpLaws String.compare.
Proof.
  split.
  - intros x y. split; [apply String.compare_eq_iff|intros ->].
    pose proof (String.compare_antisym y y) as H. by destruct (String.compare y y).
  - intros. apply String.compare_antisym.
  - intros x y z. rewrite !OrderedTypeEx.String_as_OT.cmp_lt.
    apply OrderedTypeEx.String_as_OT.lt_trans.
Qed.

#[global] Instance lex_cmp_laws {A B} (ca : A → A → comparison) (cb : B → B → comparison) :
  CmpLaws ca → CmpLaws cb → CmpLaws (lex_cmp ca cb).
Proof.
  intros La Lb. split.
  - intros [a b] [a' b']. unfold lex_cmp; cbn.
    pose proof (cmp_eq (CmpLaws := La) a a'). pose proof (cmp_eq (CmpLaws := Lb) b b').
    destruct (ca a a'); naive_solver.
  - intros [a b] [a' b']. unfold lex_cmp; cbn. rewrite (cmp_antisym (CmpLaws := La) a a').
    destruct (ca a a'); cbn; [apply Lb|done|done].
  - intros [a b] [a' b'] [a'' b'']. unfold lex_cmp; cbn.
    destruct (ca a a') eqn:E1, (ca a' a'') eqn:E2; intros H1 H2; try discriminate;
      repeat match goal with
      | E : ca _ _ = Eq |- _ => apply (cmp_eq (CmpLaws := La)) in E as ->
      end; rewrite ?E1, ?E2.
    + pose proof (proj2 (cmp_eq (CmpLaws := La) a'' a'') eq_refl) as ->. by eapply cmp_trans.
    + done.
    + done.
    + by rewrite (cmp_trans (CmpLaws := La) a a' a'').
Qed.

Section strongly_sorted.
Context {A : Type}.
Implicit Types (R : A → A → Prop) (l : list A).

Lemma strongly_sorted_lookup (R : A → A → Prop) l i j x y :
  StronglySorted R l → l !! i = Some x → l !! j = Some y → (i < j)%nat → R x y.
Proof.
  intros Hs. revert i j. induction Hs as [|a l Hs IH Hf]; intros i j Hi Hj Hij; [done|].
  destruct i as [|i], j as [|j]; [lia| |lia|].
  - injection Hi as ->. rewrite Forall_forall in Hf. apply Hf.
    apply list_elem_of_lookup. eauto.
  - apply (IH i j); [done|done|lia].
Qed.

Lemma strongly_sorted_app (R : A → A → Prop) l1 l2 :
  StronglySorted R (l1 ++ l2) ↔
  StronglySorted R l1 ∧ StronglySorted R l2 ∧ (∀ x y, x ∈ l1 → y ∈ l2 → R x y).
Proof.
  induction l1 as [|a l1 IH]; cbn.
  { split; [|naive_solver]. intros H. split_and!; [constructor|done|].
    intros x y Hx. by apply not_elem_of_nil in Hx. }
  split.
  - intros H. apply StronglySorted_inv in H as [H1 H2]. apply IH in H1 as (H1 & H3 & H4).
    rewrite Forall_app in H2. destruct H2 as [H2 H2']. split_and!; [by constructor|done|].
    intros x y [->|Hx]%elem_of_cons Hy; [|auto]. rewrite Forall_forall in H2'. auto.
  - intros (H1 & H2 & H3). apply StronglySorted_inv in H1 as [H1 H4].
    constructor.
    + apply IH. split_and!; [done|done|]. intros x y Hx. apply H3. by constructor.
    + rewrite Forall_app. split; [done|]. apply Forall_forall. intros y. apply H3.
      by constructor.
Qed.

Lemma strongly_sorted_filter (R : A → A → Prop) (P : A → Prop) `{!∀ x, Decision (P x)} l :
  StronglySorted R l → StronglySorted R (filter P l).
Proof.
  induction 1 as [|a l Hs IH Hf]; [constructor|]. rewrite filter_cons. case_decide; [|done].
  constructor; [done|]. rewrite Forall_forall in *. intros x.
  rewrite list_elem_of_filter. naive_solver.
Qed.

Lemma filter_all (P : A → Prop) `{!∀ x, Decision (P x)} l :
  (∀ x, x ∈ l → P x) → filter P l = l.
Proof.
  induction l as [|a l IH]; intros Hl; [done|].
  rewrite filter_cons, decide_True, IH by set_solver. done.
Qed.

Lemma filter_none (P : A → Prop) `{!∀ x, Decision (P x)} l :
  (∀ x, x ∈ l → ¬ P x) → filter P l = [].
Proof.
  induction l as [|a l IH]; intros Hl; [done|].
  rewrite filter_cons, decide_False by set_solver. apply IH. set_solver.
Qed.

End strongly_sorted.

Section sorted_vec.
Context {A K : Type} (cmp : K → K → comparison) `{!CmpLaws cmp} (key : A → K).

(** Strictly increasing keys. *)
Definition key_lt (x y : A) : Prop := cmp (key x) (key y) = Lt.

Lemma sorted_cmp_sorted l v :
  StronglySorted key_lt l → cmp_sorted (λ x, cmp (key x) v) l.
Proof.
  intros Hs i j x y Hi Hj Hij.
  pose proof (strongly_sorted_lookup _ _ _ _ _ _ Hs Hi Hj Hij) as Hxy. unfold key_lt in Hxy.
  split; intros H.
  - by eapply cmp_trans.
  - assert (cmp v (key x) = Lt) as Hv.
    { rewrite (cmp_antisym (key x) v), H. done. }
    rewrite (cmp_antisym v (key y)). by rewrite (cmp_trans _ _ _ Hv Hxy).
Qed.

(** Inserting at the position a missed search returns keeps the keys increasing. *)
Lemma bsearch_insert_sorted l x i :
  StronglySorted key_lt l →
  binary_search_by (λ y, cmp (key y) (key x)) l = inr i →
  StronglySorted key_lt (vec_insert i x l).
Proof.
  intros Hs Hb. pose proof (binary_search_by_spec _ l (sorted_cmp_sorted l (key x) Hs)) as H.
  rewrite Hb in H. destruct H as (Hi & Hlo & Hhi).
  unfold vec_insert. rewrite <- (take_drop i l) in Hs.
  apply strongly_sorted_app in Hs as (Hs1 & Hs2 & Hs12).
  assert (∀ y, y ∈ take i l → key_lt y x) as Hlo'.
  { intros y Hy. apply list_elem_of_lookup in Hy as [j Hj].
    apply lookup_take_Some in Hj as [Hj Hji]. by apply (Hlo j). }
  assert (∀ y, y ∈ drop i l → key_lt x y) as Hhi'.
  { intros y Hy. apply list_elem_of_lookup in Hy as [j Hj]. rewrite lookup_drop in Hj.
    unfold key_lt. rewrite (cmp_antisym (key y) (key x)).
    specialize (Hhi (i + j)%nat y ltac:(lia) Hj). cbn in Hhi. by rewrite Hhi. }
  apply strongly_sorted_app. split_and!; [done| |].
  - constructor; [done|]. apply Forall_forall. intros y Hy. auto.
  - intros y z Hy [->|Hz]%elem_of_cons; auto.
Qed.

Lemma bsearch_miss l v :
  StronglySorted key_lt l → (∀ y, y ∈ l → key y ≠ v) →
  ∃ i, binary_search_by (λ y, cmp (key y) v) l = inr i.
Proof.
  intros Hs Hn. pose proof (binary_search_by_spec _ l (sorted_cmp_sorted l v Hs)) as H.
  destruct (binary_search_by _ l) as [i|i]; [|eauto].
  destruct H as (x & Hx & Hc). apply cmp_eq in Hc. exfalso.
  apply (Hn x); [|done]. apply list_elem_of_lookup. eauto.
Qed.

Lemma bsearch_hit l v i :
  StronglySorted key_lt l → binary_search_by (λ y, cmp (key y) v) l = inl i →
  ∃ x, l !! i = Some x ∧ key x = v.
Proof.
  intros Hs Hb. pose proof (binary_search_by_spec _ l (sorted_cmp_sorted l v Hs)) as H.
  rewrite Hb in H. destruct H as (x & Hx & Hc). exists x. split; [done|]. by apply cmp_eq.
Qed.

End sorted_vec.
