(* ===== verification/Abi.v ===== *)
(** * Abi: the types shared by the kernel and the processes (libs/d7abi)

    Identifiers are [u64] newtypes; the crate is built without overflow checks, so the [next]
    functions wrap, except [ProcessId::next], which asserts. *)

From stdpp Require Import base gmap list strings.
From Stdlib Require Import ZArith Lia.
From S2P Require Import Prelude.
Open Scope Z_scope.

(** ** Identifiers *)

Abbreviation ProcessId := Z (only parsing).
Abbreviation SubscriptionId := Z (only parsing).
Abbreviation AcknowledgeId := Z (only parsing).
Abbreviation byte := Z (only parsing).

Definition ProcessId_first : ProcessId := 1.

Definition ProcessId_from_u64 (value : Z) : outcome ProcessId :=
  if value =? 0 then Panic "Zero ProcessId" else Ret value.

Definition ProcessId_next (self : ProcessId) : outcome ProcessId :=
  _ ← rassert (negb (self =? u64_max)) "Kernel process id has no successor";
  if wrap64 (self + 1) =? 0 then Panic "Overflow" else Ret (wrap64 (self + 1)).

Lemma ProcessId_next_ret p : 0 < p < u64_max → ProcessId_next p = Ret (p + 1).
Proof.
  intros Hp. unfold ProcessId_next. destruct (Z.eqb_spec p u64_max); [lia|]. cbn.
  rewrite wrap64_small by (unfold is_u64, u64_max in *; lia).
  by destruct (Z.eqb_spec (p + 1) 0); [lia|].
Qed.

Definition SubscriptionId_next (self : SubscriptionId) : SubscriptionId := wrap64 (self + 1).
Definition AcknowledgeId_next (self : AcknowledgeId) : AcknowledgeId := wrap64 (self + 1).

(** ** Messages *)

Record Message := {
  topic : string;
  data : list byte;
  ack_id : option AcknowledgeId;
}.

Definition Message_needs_response (self : Message) : bool :=
  match ack_id self with Some _ => true | None => false end.

(** ** Flag sets (bitflags): [from_bits] rejects unknown bits, [contains] tests all bits *)

Definition flags_from_bits (all bits : Z) : option Z :=
  if Z.land bits (Z.lnot all) =? 0 then Some bits else None.
Definition flags_contains (self flag : Z) : bool := Z.land self flag =? flag.

Definition SubscriptionFlags_PREFIX : Z := Z.shiftl 1 0.
Definition SubscriptionFlags_RELIABLE : Z := Z.shiftl 1 1.
Definition SubscriptionFlags_PIPE : Z :=
  Z.lor (Z.lor (Z.shiftl 1 2) SubscriptionFlags_PREFIX) SubscriptionFlags_RELIABLE.
Definition SubscriptionFlags_all : Z :=
  Z.lor (Z.lor SubscriptionFlags_PREFIX SubscriptionFlags_RELIABLE) SubscriptionFlags_PIPE.
Definition SubscriptionFlags_from_bits : Z → option Z := flags_from_bits SubscriptionFlags_all.

Definition MemoryProtectionFlags_READ : Z := Z.shiftl 1 0.
Definition MemoryProtectionFlags_WRITE : Z := Z.shiftl 1 1.
Definition MemoryProtectionFlags_EXECUTE : Z := Z.shiftl 1 2.
Definition MemoryProtectionFlags_all : Z :=
  Z.lor (Z.lor MemoryProtectionFlags_READ MemoryProtectionFlags_WRITE)
    MemoryProtectionFlags_EXECUTE.
Definition MemoryProtectionFlags_from_bits : Z → option Z :=
  flags_from_bits MemoryProtectionFlags_all.

Lemma flags_contains_lor self a b :
  flags_contains self (Z.lor a b) = true → flags_contains self a = true.
Proof.
  unfold flags_contains. rewrite !Z.eqb_eq. intros H.
  apply Z.bits_inj'. intros n Hn. rewrite Z.land_spec.
  apply (f_equal (fun z => Z.testbit z n)) in H. rewrite Z.land_spec, Z.lor_spec in H.
  destruct (Z.testbit self n), (Z.testbit a n), (Z.testbit b n); cbn in *; congruence.
Qed.

(** A pipe subscription is a reliable one; it is also a prefix one. *)
Lemma pipe_is_reliable self :
  flags_contains self SubscriptionFlags_PIPE = true →
  flags_contains self SubscriptionFlags_RELIABLE = true.
Proof.
  intros H. apply (flags_contains_lor _ _ (Z.lor (Z.shiftl 1 2) SubscriptionFlags_PREFIX)).
  by rewrite Z.lor_comm.
Qed.

(** ** System calls *)

Inductive SyscallNumber :=
| SC_exit | SC_get_pid | SC_debug_print | SC_exec | SC_random | SC_sched_yield
| SC_sched_sleep_ns | SC_ipc_subscribe | SC_ipc_unsubscribe | SC_ipc_publish | SC_ipc_deliver
| SC_ipc_deliver_reply | SC_ipc_receive | SC_ipc_acknowledge | SC_ipc_select
| SC_kernel_log_read | SC_irq_set_handler | SC_mmap_physical | SC_dma_allocate | SC_dma_free
| SC_mem_alloc | SC_mem_dealloc.

#[global] Instance SyscallNumber_eq_dec : EqDecision SyscallNumber.
Proof. solve_decision. Defined.

Definition SyscallNumber_discriminant (sc : SyscallNumber) : Z :=
  match sc with
  | SC_exit => 0x00 | SC_get_pid => 0x01 | SC_debug_print => 0x02 | SC_exec => 0x30
  | SC_random => 0x40 | SC_sched_yield => 0x50 | SC_sched_sleep_ns => 0x51
  | SC_ipc_subscribe => 0x70 | SC_ipc_unsubscribe => 0x71 | SC_ipc_publish => 0x72
  | SC_ipc_deliver => 0x73 | SC_ipc_deliver_reply => 0x74 | SC_ipc_receive => 0x75
  | SC_ipc_acknowledge => 0x76 | SC_ipc_select => 0x77 | SC_kernel_log_read => 0x80
  | SC_irq_set_handler => 0x84 | SC_mmap_physical => 0x90 | SC_dma_allocate => 0x92
  | SC_dma_free => 0x93 | SC_mem_alloc => 0x94 | SC_mem_dealloc => 0x95
  end.

Definition SyscallNumber_list : list SyscallNumber :=
  [ SC_exit; SC_get_pid; SC_debug_print; SC_exec; SC_random; SC_sched_yield;
    SC_sched_sleep_ns; SC_ipc_subscribe; SC_ipc_unsubscribe; SC_ipc_publish; SC_ipc_deliver;
    SC_ipc_deliver_reply; SC_ipc_receive; SC_ipc_acknowledge; SC_ipc_select;
    SC_kernel_log_read; SC_irq_set_handler; SC_mmap_physical; SC_dma_allocate; SC_dma_free;
    SC_mem_alloc; SC_mem_dealloc ].

(** The derived [TryFrom<u64>]: the constructor whose discriminant is [n]. *)
Definition SyscallNumber_try_from (n : Z) : option SyscallNumber :=
  list_find (λ sc, SyscallNumber_discriminant sc = n) SyscallNumber_list ≫= λ p, Some p.2.

Inductive SyscallErrorCode :=
| unknown | unsupported | out_of_memory | empty_list_argument | too_large | would_block
| ipc_invalid_topic | ipc_filter_exclusion | ipc_delivery_no_target | ipc_delivery_target_full
| ipc_delivery_target_nack | ipc_unsubscribed | ipc_re_acknowledge | ipc_pipe_reserved
| ipc_pipe_sender_terminated | ipc_permission_error | invalid_utf8 | ptr_unaligned
| mmap_invalid_protection_flags | mmap_incorrect_alignment | mmap_permission_error.

Definition SyscallErrorCode_into (e : SyscallErrorCode) : Z :=
  match e with
  | unknown => 0 | unsupported => 1 | out_of_memory => 2 | empty_list_argument => 3
  | too_large => 4 | would_block => 5 | ipc_invalid_topic => 6 | ipc_filter_exclusion => 7
  | ipc_delivery_no_target => 8 | ipc_delivery_target_full => 9
  | ipc_delivery_target_nack => 10 | ipc_unsubscribed => 11 | ipc_re_acknowledge => 12
  | ipc_pipe_reserved => 13 | ipc_pipe_sender_terminated => 14 | ipc_permission_error => 15
  | invalid_utf8 => 16 | ptr_unaligned => 17 | mmap_invalid_protection_flags => 18
  | mmap_incorrect_alignment => 19 | mmap_permission_error => 20
  end.

(** ** Process results.  The saved interrupt frame and the page-fault code are types of the
    [x86_64] crate, and stay type parameters. *)

Inductive ProcessError (Frame PfCode : Type) : Type :=
| DivideByZero (f : Frame)
| PageFault (f : Frame) (addr : Z) (code : PfCode)
| Interrupt (n : byte) (f : Frame)
| InterruptWithCode (n : byte) (f : Frame) (code : Z)
| SyscallNumberError (n : Z)
| SyscallArgument
| Pointer (addr : Z)
| ChainedTermination.
Arguments DivideByZero {_ _}. Arguments PageFault {_ _}. Arguments Interrupt {_ _}.
Arguments InterruptWithCode {_ _}. Arguments SyscallNumberError {_ _}.
Arguments SyscallArgument {_ _}. Arguments Pointer {_ _}. Arguments ChainedTermination {_ _}.

Inductive ProcessResult (Frame PfCode : Type) : Type :=
| Completed (code : Z)
| Failed (e : ProcessError Frame PfCode).
Arguments Completed {_ _}. Arguments Failed {_ _}.

Lemma SyscallNumber_try_from_discriminant sc :
  SyscallNumber_try_from (SyscallNumber_discriminant sc) = Some sc.
Proof. by destruct sc. Qed.

Lemma SyscallNumber_try_from_Some n sc :
  SyscallNumber_try_from n = Some sc → n = SyscallNumber_discriminant sc.
Proof.
  unfold SyscallNumber_try_from. rewrite bind_Some. intros ([i sc'] & Hf & [= <-]).
  apply list_find_Some in Hf as (_ & Hn & _). done.
Qed.
