(* ===== verification/Topic.v ===== *)
(** * Topic: topic names, prefixes and filters (src/ipc/topic.rs)

    A Rust [String] is a [string] of its UTF-8 bytes.  Names are checked byte by byte: every byte
    of a multi-byte character is at least 128 and fails the check, as the character does. *)

From stdpp Require Import base gmap list strings.
From Stdlib Require Import ZArith Lia Ascii.
From S2P Require Import Prelude Abi.

(** ** String operations the source uses *)

Definition is_empty (s : string) : bool :=
  match s with EmptyString => true | _ => false end.

(** [s.starts_with(p)], with [p] a string. *)
Definition starts_with (s p : string) : bool := String.prefix p s.

Fixpoint last_char (s : string) : option ascii :=
  match s with
  | EmptyString => None
  | String c EmptyString => Some c
  | String _ s => last_char s
  end.

(** [s.ends_with(c)], with [c] a character. *)
Definition ends_with (s : string) (c : ascii) : bool :=
  match last_char s with Some d => Ascii.eqb c d | None => false end.

Definition ascii_between (lo hi c : ascii) : bool :=
  (N.leb (N_of_ascii lo) (N_of_ascii c) && N.leb (N_of_ascii c) (N_of_ascii hi))%bool.

Definition is_ascii_alphanumeric (c : ascii) : bool :=
  (ascii_between "0" "9" c || ascii_between "A" "Z" c || ascii_between "a" "z" c)%bool.

Definition topic_char (c : ascii) : bool :=
  (is_ascii_alphanumeric c || Ascii.eqb c "_" || Ascii.eqb c "/")%bool.

(** The loop over [s.chars()] of both constructors. *)
Fixpoint topic_chars (s : string) : bool :=
  match s with
  | EmptyString => true
  | String c s => if negb (topic_char c) then false else topic_chars s
  end.

(** ** Topics, prefixes, filters *)

Record Topic := MkTopic { topic_str : string }.
Record TopicPrefix := MkTopicPrefix { prefix_str : string }.

Definition Topic_new (s : string) : option Topic :=
  if is_empty s then None
  else if (starts_with s "/" || ends_with s "/")%bool then None
  else if negb (topic_chars s) then None
  else Some (MkTopic s).

Definition TopicPrefix_new (s : string) : option TopicPrefix :=
  if is_empty s then None
  else if starts_with s "/" then None
  else if negb (topic_chars s) then None
  else Some (MkTopicPrefix s).

Inductive TopicFilter :=
| Exact (t : Topic)
| Prefix (p : TopicPrefix).

(** [None] is [Err(Error::InvalidTopic)]. *)
Definition TopicFilter_try_new (filter : string) (exact : bool) : option TopicFilter :=
  if exact then t ← Topic_new filter; Some (Exact t)
  else p ← TopicPrefix_new filter; Some (Prefix p).

Definition TopicFilter_contains_filter (self other : TopicFilter) : bool :=
  match self with
  | Exact a =>
      match other with
      | Exact b => String.eqb (topic_str a) (topic_str b)
      | Prefix b => starts_with (topic_str a) (prefix_str b)
      end
  | Prefix a =>
      match other with
      | Exact b => starts_with (topic_str b) (prefix_str a)
      | Prefix b =>
          (starts_with (prefix_str a) (prefix_str b)
           || starts_with (prefix_str b) (prefix_str a))%bool
      end
  end.

Definition TopicFilter_matches (self : TopicFilter) (other : Topic) : bool :=
  match self with
  | Exact a => String.eqb (topic_str a) (topic_str other)
  | Prefix a => starts_with (topic_str other) (prefix_str a)
  end.

(** The derived [Ord]: variants in order of declaration, then the string. *)
Definition TopicFilter_key (f : TopicFilter) : bool * string :=
  match f with
  | Exact t => (false, topic_str t)
  | Prefix p => (true, prefix_str p)
  end.

Definition TopicFilter_cmp (f g : TopicFilter) : comparison :=
  lex_cmp bool_cmp String.compare (TopicFilter_key f) (TopicFilter_key g).

#[global] Instance Topic_eq_dec : EqDecision Topic.
Proof. solve_decision. Defined.
#[global] Instance TopicPrefix_eq_dec : EqDecision TopicPrefix.
Proof. solve_decision. Defined.
#[global] Instance TopicFilter_eq_dec : EqDecision TopicFilter.
Proof. solve_decision. Defined.

#[global] Instance TopicFilter_cmp_laws : CmpLaws TopicFilter_cmp.
Proof.
  unfold TopicFilter_cmp. split; intros.
  - rewrite cmp_eq. destruct x as [[]|[]], y as [[]|[]]; cbn; naive_solver.
  - apply cmp_antisym.
  - by eapply cmp_trans.
Qed.

(** What the constructors accept: the grammar of the doc comments. *)
Definition name_ok (s : string) : Prop :=
  s ≠ EmptyString ∧ starts_with s "/" = false ∧ topic_chars s = true.

Definition topic_ok (t : Topic) : Prop :=
  name_ok (topic_str t) ∧ ends_with (topic_str t) "/" = false.

Definition filter_ok (f : TopicFilter) : Prop :=
  match f with Exact t => topic_ok t | Prefix p => name_ok (prefix_str p) end.

(** ** Lemmas *)

Lemma string_app_cons c a b : String c a +:+ b = String c (a +:+ b).
Proof. reflexivity. Qed.

Lemma string_app_assoc (a b c : string) : (a +:+ b) +:+ c = a +:+ (b +:+ c).
Proof. induction a as [|x a IH]; [done|]. rewrite !string_app_cons. by f_equal. Qed.

Lemma starts_with_append p r : starts_with (p +:+ r) p = true.
Proof.
  unfold starts_with. induction p as [|c p IH]; [by destruct r|].
  rewrite string_app_cons. cbn. destruct (Ascii.ascii_dec c c); [done|congruence].
Qed.

Lemma starts_with_spec s p : starts_with s p = true ↔ ∃ r, s = p +:+ r.
Proof.
  split; [|intros [r ->]; apply starts_with_append].
  unfold starts_with. revert s. induction p as [|c p IH]; intros s; cbn; [by eauto|].
  destruct s as [|d s]; [done|]. cbn. destruct (Ascii.ascii_dec c d) as [->|]; [|done].
  intros [r ->]%IH. by exists r.
Qed.

Lemma starts_with_refl s : starts_with s s = true.
Proof.
  unfold starts_with. induction s as [|c s IH]; [done|]. cbn.
  destruct (Ascii.ascii_dec c c); [done|congruence].
Qed.

Lemma starts_with_trans a b c :
  starts_with a b = true → starts_with b c = true → starts_with a c = true.
Proof.
  rewrite !starts_with_spec. intros [r ->] [r' ->]. exists (r' +:+ r).
  apply string_app_assoc.
Qed.

(** Two prefixes of one name are comparable. *)
Lemma starts_with_comparable t a b :
  starts_with t a = true → starts_with t b = true →
  starts_with a b = true ∨ starts_with b a = true.
Proof.
  unfold starts_with. revert a b.
  induction t as [|c t IH]; intros [|x a] [|y b]; cbn; try (by auto).
  destruct (Ascii.ascii_dec x c) as [->|]; [|done].
  destruct (Ascii.ascii_dec y c) as [->|]; [|done].
  intros H1 H2. destruct (Ascii.ascii_dec c c); [|congruence]. by apply IH.
Qed.

Lemma topic_chars_append a b :
  topic_chars (a +:+ b) = (topic_chars a && topic_chars b)%bool.
Proof.
  induction a as [|c a IH]; [done|]. rewrite string_app_cons. cbn. by destruct (topic_char c).
Qed.

Lemma last_char_append a c : last_char (a +:+ String c EmptyString) = Some c.
Proof. induction a as [|x [|y a] IH]; [done|done|]. rewrite !string_app_cons in *. done. Qed.

Lemma starts_with_slash_append a b :
  a ≠ EmptyString → starts_with (a +:+ b) "/" = starts_with a "/".
Proof. destruct a as [|c a]; [done|]. intros _. rewrite string_app_cons. cbn. by destruct a, b. Qed.

Lemma is_empty_false s : s ≠ EmptyString → is_empty s = false.
Proof. by destruct s. Qed.

Lemma Topic_new_spec s t : Topic_new s = Some t ↔ topic_str t = s ∧ topic_ok t.
Proof.
  unfold Topic_new, topic_ok, name_ok, starts_with. destruct t as [u]; cbn.
  destruct (decide (s = EmptyString)) as [->|Hne]; [cbn; naive_solver|].
  rewrite is_empty_false by done.
  destruct (String.prefix "/" s) eqn:E1, (ends_with s "/") eqn:E2, (topic_chars s) eqn:E3; cbn;
    split; intros H; destruct_and?; simplify_eq; split_and?; (done || congruence).
Qed.

Lemma TopicPrefix_new_spec s p :
  TopicPrefix_new s = Some p ↔ prefix_str p = s ∧ name_ok (prefix_str p).
Proof.
  unfold TopicPrefix_new, name_ok, starts_with. destruct p as [u]; cbn.
  destruct (decide (s = EmptyString)) as [->|Hne]; [cbn; naive_solver|].
  rewrite is_empty_false by done.
  destruct (String.prefix "/" s) eqn:E1, (topic_chars s) eqn:E3; cbn;
    split; intros H; destruct_and?; simplify_eq; split_and?; (done || congruence).
Qed.

Lemma TopicFilter_try_new_ok s exact f : TopicFilter_try_new s exact = Some f → filter_ok f.
Proof.
  unfold TopicFilter_try_new. destruct exact; rewrite bind_Some.
  - intros (t & Ht & [= <-]). by apply Topic_new_spec in Ht as [_ ?].
  - intros (p & Hp & [= <-]). by apply TopicPrefix_new_spec in Hp as [_ ?].
Qed.

(** Every prefix is a prefix of some valid topic name. *)
Definition extend (p : string) : Topic := MkTopic (p +:+ "a").

Lemma extend_ok p : name_ok p → topic_ok (extend p).
Proof.
  intros (H1 & H2 & H3). unfold topic_ok, name_ok, extend; cbn [topic_str]. split_and!.
  - by destruct p.
  - by rewrite starts_with_slash_append.
  - by rewrite topic_chars_append, H3.
  - unfold ends_with. by rewrite last_char_append.
Qed.

Lemma extend_matches p q :
  starts_with p q = true → TopicFilter_matches (Prefix (MkTopicPrefix q)) (extend p) = true.
Proof.
  intros H. unfold extend; cbn [TopicFilter_matches topic_str prefix_str].
  eapply starts_with_trans; [apply starts_with_append|done].
Qed.

Lemma contains_filter_sym f g :
  TopicFilter_contains_filter f g = TopicFilter_contains_filter g f.
Proof.
  destruct f as [[a]|[a]], g as [[b]|[b]]; cbn; [|done|done|apply orb_comm].
  apply String.eqb_sym.
Qed.

Lemma matches_both_contains f g t :
  TopicFilter_matches f t = true → TopicFilter_matches g t = true →
  TopicFilter_contains_filter f g = true.
Proof.
  destruct f as [[a]|[a]], g as [[b]|[b]], t as [t]; cbn; rewrite ?String.eqb_eq.
  - congruence.
  - by intros ->.
  - by intros ? ->.
  - intros H1 H2. rewrite orb_true_iff. destruct (starts_with_comparable _ _ _ H1 H2); auto.
Qed.

Lemma contains_matches_both f g :
  filter_ok f → filter_ok g → TopicFilter_contains_filter f g = true →
  ∃ t, topic_ok t ∧ TopicFilter_matches f t = true ∧ TopicFilter_matches g t = true.
Proof.
  destruct f as [[a]|[a]], g as [[b]|[b]]; cbn; intros Hf Hg Hc.
  - apply String.eqb_eq in Hc as ->. exists (MkTopic b). cbn. by rewrite String.eqb_refl.
  - exists (MkTopic a). cbn. by rewrite String.eqb_refl.
  - exists (MkTopic b). cbn. by rewrite String.eqb_refl.
  - apply orb_true_iff in Hc as [Hc|Hc].
    + exists (extend a). split; [by apply extend_ok|].
      split; apply (extend_matches _ _); [apply starts_with_refl|done].
    + exists (extend b). split; [by apply extend_ok|].
      split; apply (extend_matches _ _); [done|apply starts_with_refl].
Qed.

(** ** Properties *)

(** For two filters a subscriber can construct, [contains_filter] holds exactly when some
    valid topic is matched by both: the conflict test of the subscription list neither misses a
    common topic nor reports one that cannot be published. *)
Theorem contains_filter_overlap s e f s' e' g
    (Hf : TopicFilter_try_new s e = Some f) (Hg : TopicFilter_try_new s' e' = Some g) :
  TopicFilter_contains_filter f g = true ↔
  ∃ n t, Topic_new n = Some t ∧
    TopicFilter_matches f t = true ∧ TopicFilter_matches g t = true.
Proof.
  apply TopicFilter_try_new_ok in Hf, Hg. split.
  - intros Hc. destruct (contains_matches_both f g Hf Hg Hc) as ([n] & Ht & Hm).
    exists n, (MkTopic n). split; [by apply Topic_new_spec|done].
  - intros (n & t & _ & Hm & Hm'). by apply (matches_both_contains f g t).
Qed.

Lemma contains_filter_overlap_witness :
  ∃ n t, Topic_new n = Some t ∧
    TopicFilter_matches (Prefix (MkTopicPrefix "net/")) t = true ∧
    TopicFilter_matches (Exact (MkTopic "net/arp")) t = true.
Proof.
  apply (contains_filter_overlap "net/" false _ "net/arp" true _); vm_compute; reflexivity.
Defined.
