(* ===== verification/SubscriptionList.v ===== *)
(** * SubscriptionList: the sorted table of subscriptions (src/ipc/list.rs)

    [targets] holds (filter, reliable, id), kept sorted for binary search.  Reliable subscriptions
    are exclusive: [insert] refuses a filter that shares a topic with another one when either of
    the two is reliable. *)

From stdpp Require Import base gmap list strings sorting.
From Stdlib Require Import ZArith Lia.
From S2P Require Import Prelude Abi Topic.
Open Scope Z_scope.

Abbreviation target := (TopicFilter * bool * SubscriptionId)%type (only parsing).

Record SubscriptionList := {
  targets : list (TopicFilter * bool * SubscriptionId);
  next_subscription_id : SubscriptionId;
}.

Definition SubscriptionList_new : SubscriptionList :=
  {| targets := []; next_subscription_id := 0 |}.

(** The derived order of the tuples. *)
Definition target_cmp : target → target → comparison :=
  lex_cmp (lex_cmp TopicFilter_cmp bool_cmp) Z.compare.

(** The scan of [conflicts]. *)
Fixpoint SubscriptionList_conflicts (ts : list target) (filter : TopicFilter) (reliable : bool)
    : bool :=
  match ts with
  | [] => false
  | (f, r, _) :: ts =>
      if ((reliable && TopicFilter_contains_filter filter f)
          || (r && TopicFilter_contains_filter f filter))%bool
      then true else SubscriptionList_conflicts ts filter reliable
  end.

Definition SubscriptionList_insert (self : SubscriptionList) (filter : TopicFilter)
    (reliable : bool) : option SubscriptionId * SubscriptionList :=
  if SubscriptionList_conflicts (targets self) filter reliable then (None, self)
  else
    let id := next_subscription_id self in
    let value := (filter, reliable, id) in
    let index := match binary_search_by (λ t, target_cmp t value) (targets self) with
                 | inl i => i
                 | inr i => i
                 end in
    (Some id,
     {| targets := vec_insert index value (targets self);
        next_subscription_id := SubscriptionId_next (next_subscription_id self) |}).

Definition SubscriptionList_remove (self : SubscriptionList) (subscription : SubscriptionId)
    : SubscriptionList :=
  {| targets := filter (λ t : target, subscription ≠ t.2) (targets self);
     next_subscription_id := next_subscription_id self |}.

Definition SubscriptionList_find_all (self : SubscriptionList) (t : Topic) (reliable : bool)
    : gset SubscriptionId :=
  list_to_set
    (omap (λ '(f, r, id),
       if (eqb r reliable && TopicFilter_matches f t)%bool then Some id else None)
     (targets self)).

(** ** The invariant *)

(** Two subscriptions, one of them reliable, share no topic. *)
Definition exclusive (ts : list target) : Prop :=
  ∀ f r i g s j, (f, r, i) ∈ ts → (g, s, j) ∈ ts → i ≠ j → r = true →
    TopicFilter_contains_filter f g = false.

Record sl_wf (sl : SubscriptionList) : Prop := {
  wf_sorted : StronglySorted (key_lt target_cmp id) (targets sl);
  wf_nodup : NoDup (targets sl).*2;
  wf_ids : ∀ f r i, (f, r, i) ∈ targets sl → 0 ≤ i < next_subscription_id sl;
  wf_next : is_u64 (next_subscription_id sl);
  wf_filters : ∀ f r i, (f, r, i) ∈ targets sl → filter_ok f;
  wf_exclusive : exclusive (targets sl);
}.

(** The ids in use. *)
Definition sl_ids (sl : SubscriptionList) : gset SubscriptionId :=
  list_to_set (targets sl).*2.

#[global] Instance target_cmp_laws : CmpLaws target_cmp.
Proof. unfold target_cmp. apply _. Qed.

(** ** Lemmas *)

Lemma elem_of_sl_ids sl i : i ∈ sl_ids sl ↔ ∃ f r, (f, r, i) ∈ targets sl.
Proof.
  unfold sl_ids. rewrite elem_of_list_to_set, list_elem_of_fmap. split.
  - intros ([[f r] j] & -> & H). eauto.
  - intros (f & r & H). by exists (f, r, i).
Qed.

Lemma target_unique sl f r g s i :
  sl_wf sl → (f, r, i) ∈ targets sl → (g, s, i) ∈ targets sl → f = g ∧ r = s.
Proof.
  intros Hwf H1 H2. apply list_elem_of_lookup in H1 as [a Ha], H2 as [b Hb].
  assert (a = b) as ->.
  { eapply NoDup_lookup; [apply (wf_nodup _ Hwf)|..]; rewrite list_lookup_fmap.
    - by rewrite Ha.
    - by rewrite Hb. }
  rewrite Ha in Hb. by simplify_eq.
Qed.

Lemma conflicts_spec ts f r :
  SubscriptionList_conflicts ts f r = true ↔
  ∃ g s j, (g, s, j) ∈ ts ∧ (r = true ∨ s = true) ∧ TopicFilter_contains_filter f g = true.
Proof.
  induction ts as [|[[g s] j] ts IH]; cbn [SubscriptionList_conflicts].
  { split; [done|]. intros (? & ? & ? & H & _). by apply not_elem_of_nil in H. }
  rewrite (contains_filter_sym g f), <- andb_orb_distrib_l.
  destruct ((r || s) && TopicFilter_contains_filter f g)%bool eqn:Hc.
  - apply andb_true_iff in Hc as [Hrs Hc]. apply orb_true_iff in Hrs.
    split; [intros _|done]. exists g, s, j. split; [by constructor|auto].
  - rewrite IH. split; intros (g' & s' & j' & Hin & Hrs & Hc').
    + exists g', s', j'. split; [by constructor|auto].
    + apply elem_of_cons in Hin as [[= -> -> ->]|Hin]; [|by exists g', s', j'].
      apply orb_true_iff in Hrs. by rewrite Hrs, Hc' in Hc.
Qed.

Lemma find_all_spec sl t r i :
  i ∈ SubscriptionList_find_all sl t r ↔
  ∃ f, (f, r, i) ∈ targets sl ∧ TopicFilter_matches f t = true.
Proof.
  unfold SubscriptionList_find_all. rewrite elem_of_list_to_set, list_elem_of_omap. split.
  - intros ([[f s] j] & Hin & H). destruct (eqb s r) eqn:E1, (TopicFilter_matches f t) eqn:E2;
      cbn in H; simplify_eq. apply eqb_prop in E1 as ->. eauto.
  - intros (f & Hin & Hm). exists (f, r, i). by rewrite Hm, eqb_reflx.
Qed.

Lemma sl_new_wf : sl_wf SubscriptionList_new.
Proof.
  split; cbn.
  - constructor.
  - constructor.
  - intros ??? H. by apply not_elem_of_nil in H.
  - unfold is_u64. rewrite u64_size_eq. lia.
  - intros ??? H. by apply not_elem_of_nil in H.
  - intros ?????? H. by apply not_elem_of_nil in H.
Qed.

Lemma insert_targets sl f r id sl' :
  SubscriptionList_insert sl f r = (Some id, sl') →
  id = next_subscription_id sl ∧ SubscriptionList_conflicts (targets sl) f r = false ∧
  targets sl' ≡ₚ (f, r, id) :: targets sl ∧
  next_subscription_id sl' = SubscriptionId_next (next_subscription_id sl).
Proof.
  unfold SubscriptionList_insert. destruct (SubscriptionList_conflicts _ _ _) eqn:Hc; [done|].
  intros H. simplify_eq/=. split_and!; [done|done| |done]. apply vec_insert_perm.
Qed.

Lemma insert_none sl f r :
  (SubscriptionList_insert sl f r).1 = None ↔
  SubscriptionList_conflicts (targets sl) f r = true.
Proof. unfold SubscriptionList_insert. by destruct (SubscriptionList_conflicts _ _ _). Qed.

Lemma insert_refused sl f r sl' :
  SubscriptionList_insert sl f r = (None, sl') → sl' = sl.
Proof.
  unfold SubscriptionList_insert. destruct (SubscriptionList_conflicts _ _ _); naive_solver.
Qed.

Lemma next_id_bound sl :
  sl_wf sl → next_subscription_id sl < u64_max →
  SubscriptionId_next (next_subscription_id sl) = next_subscription_id sl + 1.
Proof.
  intros Hwf Hlt. unfold SubscriptionId_next. apply wrap64_small.
  pose proof (wf_next _ Hwf). unfold is_u64, u64_max in *. lia.
Qed.

Lemma insert_wf sl f r id sl' :
  sl_wf sl → filter_ok f → next_subscription_id sl < u64_max →
  SubscriptionList_insert sl f r = (Some id, sl') → sl_wf sl'.
Proof.
  intros Hwf Hf Hlt Hi. pose proof (insert_targets _ _ _ _ _ Hi) as (-> & Hc & Hp & Hn).
  rewrite (next_id_bound _ Hwf Hlt) in Hn.
  assert (∀ g s j, (g, s, j) ∈ targets sl → j ≠ next_subscription_id sl) as Hfresh.
  { intros g s j Hin. pose proof (wf_ids _ Hwf _ _ _ Hin). lia. }
  assert (∀ x, x ∈ targets sl' ↔ x = (f, r, next_subscription_id sl) ∨ x ∈ targets sl) as Hin.
  { intros x. rewrite Hp. apply elem_of_cons. }
  assert (∀ g s j, (g, s, j) ∈ targets sl → r = true ∨ s = true →
    TopicFilter_contains_filter f g = false) as Hnc.
  { intros g s j Hgs Hrs. destruct (TopicFilter_contains_filter f g) eqn:E; [|done].
    rewrite <- Hc. symmetry. apply conflicts_spec. naive_solver. }
  split.
  - unfold SubscriptionList_insert in Hi. rewrite Hc in Hi. simplify_eq/=.
    destruct (bsearch_miss target_cmp id (targets sl) (f, r, next_subscription_id sl))
      as [i Hb]; [apply Hwf| |].
    + intros [[g s] j] Hy [=]. by eapply Hfresh.
    + cbn in Hb. rewrite Hb.
      apply (bsearch_insert_sorted target_cmp id); [apply Hwf|done].
  - rewrite Hp. cbn. constructor; [|apply Hwf]. intros ([[g s] j] & E & Hy)%list_elem_of_fmap.
    cbn in E. by eapply Hfresh.
  - intros g s j [H|H]%Hin; simplify_eq; rewrite Hn.
    + pose proof (wf_next _ Hwf). unfold is_u64 in *. lia.
    + pose proof (wf_ids _ Hwf _ _ _ H). lia.
  - rewrite Hn. pose proof (wf_next _ Hwf). unfold is_u64, u64_max in *. lia.
  - intros g s j [H|H]%Hin; [by simplify_eq|by eapply wf_filters].
  - intros g s j g' s' j' [H|H]%Hin [H'|H']%Hin Hne Hs; simplify_eq.
    + eapply Hnc; eauto.
    + rewrite contains_filter_sym. eapply Hnc; eauto.
    + by eapply (wf_exclusive _ Hwf).
Qed.

Lemma remove_spec sl i x : x ∈ targets (SubscriptionList_remove sl i) ↔ x ∈ targets sl ∧ x.2 ≠ i.
Proof. cbn. rewrite list_elem_of_filter. naive_solver. Qed.

Lemma remove_wf sl i : sl_wf sl → sl_wf (SubscriptionList_remove sl i).
Proof.
  intros Hwf. split.
  - by apply strongly_sorted_filter, Hwf.
  - cbn. eapply sublist_NoDup; [apply (wf_nodup _ Hwf)|].
    apply fmap_sublist, sublist_filter.
  - intros f r j [H _]%remove_spec. apply (wf_ids _ Hwf _ _ _ H).
  - apply Hwf.
  - intros f r j [H _]%remove_spec. by eapply wf_filters.
  - intros f r j g s k [H _]%remove_spec [H' _]%remove_spec. by eapply (wf_exclusive _ Hwf).
Qed.

(** At most one subscription takes part in the deliveries of a topic with a reliable one. *)
Lemma find_all_exclusive sl t r i j :
  sl_wf sl → i ∈ SubscriptionList_find_all sl t true → j ∈ SubscriptionList_find_all sl t r →
  i = j.
Proof.
  intros Hwf (f & Hf & Hm)%find_all_spec (g & Hg & Hm')%find_all_spec.
  destruct (decide (i = j)) as [|Hne]; [done|].
  pose proof (wf_exclusive _ Hwf _ _ _ _ _ _ Hf Hg Hne eq_refl) as Hc.
  by rewrite (matches_both_contains f g t Hm Hm') in Hc.
Qed.

Lemma find_all_reliable_singleton sl t i :
  sl_wf sl → i ∈ SubscriptionList_find_all sl t true →
  SubscriptionList_find_all sl t true = {[i]} ∧ SubscriptionList_find_all sl t false = ∅.
Proof.
  intros Hwf Hi. split; apply set_eq; intros j.
  - rewrite elem_of_singleton. split; [|by intros ->].
    intros Hj. symmetry. by eapply find_all_exclusive.
  - split; [|set_solver]. intros Hj. exfalso.
    pose proof (find_all_exclusive _ _ _ _ _ Hwf Hi Hj) as <-.
    apply find_all_spec in Hi as (f & Hf & _), Hj as (g & Hg & _).
    by destruct (target_unique _ _ _ _ _ _ Hwf Hf Hg).
Qed.

#[global] Arguments sl_ids : simpl never.
#[global] Arguments SubscriptionList_remove : simpl never.
#[global] Arguments SubscriptionList_insert : simpl never.
#[global] Arguments SubscriptionList_find_all : simpl never.

(** ** Histories of a list *)

Inductive sl_reach : SubscriptionList → Prop :=
| reach_new : sl_reach SubscriptionList_new
| reach_insert sl s exact f r id sl' :
    sl_reach sl → TopicFilter_try_new s exact = Some f →
    next_subscription_id sl < u64_max →
    SubscriptionList_insert sl f r = (Some id, sl') → sl_reach sl'
| reach_remove sl i : sl_reach sl → sl_reach (SubscriptionList_remove sl i).

Lemma sl_reach_wf sl : sl_reach sl → sl_wf sl.
Proof.
  induction 1.
  - apply sl_new_wf.
  - eapply insert_wf; [done| |done|done]. by eapply TopicFilter_try_new_ok.
  - by apply remove_wf.
Qed.

(** ** Properties *)

(** In every list built by [insert] and [remove], a topic with a reliable subscriber has
    exactly that subscriber: the reliable matches are a singleton and there is no unreliable
    one.  This is the condition the delivery code asserts. *)
Theorem reliable_exclusive sl t i
    (Hr : sl_reach sl) (Hi : i ∈ SubscriptionList_find_all sl t true) :
  SubscriptionList_find_all sl t true = {[i]} ∧ SubscriptionList_find_all sl t false = ∅.
Proof. apply find_all_reliable_singleton; [by apply sl_reach_wf|done]. Qed.

Lemma reliable_exclusive_witness :
  let sl := (SubscriptionList_insert SubscriptionList_new (Exact (MkTopic "a")) true).2 in
  SubscriptionList_find_all sl (MkTopic "a") true = {[0]}
  ∧ SubscriptionList_find_all sl (MkTopic "a") false = ∅.
Proof.
  intros sl. apply (reliable_exclusive sl (MkTopic "a") 0).
  - apply (reach_insert SubscriptionList_new "a" true (Exact (MkTopic "a")) true 0);
      [constructor|vm_compute; reflexivity..].
  - apply (bool_decide_unpack _). vm_compute. exact I.
Defined.

(** [insert] refuses a filter exactly when a stored subscription can receive a common valid
    topic and one of the two is reliable; otherwise it returns the fresh id, stores exactly the
    new subscription, and keeps the list sorted for its binary search. *)
Theorem insert_decides sl s e f r
    (Hr : sl_reach sl) (Hf : TopicFilter_try_new s e = Some f)
    (Hn : next_subscription_id sl < u64_max) :
  let (res, sl') := SubscriptionList_insert sl f r in
  match res with
  | None => sl' = sl ∧ ∃ g q i t, (g, q, i) ∈ targets sl ∧ (r = true ∨ q = true) ∧ topic_ok t ∧
      TopicFilter_matches f t = true ∧ TopicFilter_matches g t = true
  | Some i => i = next_subscription_id sl ∧ targets sl' ≡ₚ (f, r, i) :: targets sl ∧ sl_wf sl' ∧
      (∀ g q j t, (g, q, j) ∈ targets sl → r = true ∨ q = true →
        TopicFilter_matches f t = true → TopicFilter_matches g t = false)
  end.
Proof.
  pose proof (sl_reach_wf sl Hr) as Hwf. apply TopicFilter_try_new_ok in Hf.
  destruct (SubscriptionList_insert sl f r) as [[i|] sl'] eqn:Hi.
  - destruct (insert_targets _ _ _ _ _ Hi) as (Hid & Hcf & Hp & _).
    split_and!; [done|done|by eapply insert_wf|].
    intros g q j t Hg Hq Hm. destruct (TopicFilter_matches g t) eqn:E; [|done].
    rewrite <- Hcf. symmetry. apply conflicts_spec. exists g, q, j.
    split_and!; [done|done|by apply (matches_both_contains f g t)].
  - assert (SubscriptionList_conflicts (targets sl) f r = true) as Hcf.
    { apply insert_none. by rewrite Hi. }
    split; [by eapply insert_refused|].
    apply conflicts_spec in Hcf as (g & q & j & Hg & Hq & Hc).
    destruct (contains_matches_both f g Hf (wf_filters _ Hwf _ _ _ Hg) Hc) as (t & ? & ? & ?).
    by exists g, q, j, t.
Qed.

Lemma insert_decides_witness :
  let sl := (SubscriptionList_insert SubscriptionList_new (Exact (MkTopic "a")) false).2 in
  sl = sl ∧ ∃ g q i t, (g, q, i) ∈ targets sl ∧ (true = true ∨ q = true) ∧ topic_ok t ∧
    TopicFilter_matches (Prefix (MkTopicPrefix "a")) t = true ∧ TopicFilter_matches g t = true.
Proof.
  intros sl.
  apply (insert_decides sl "a" false (Prefix (MkTopicPrefix "a")) true);
    [|vm_compute; reflexivity..].
  apply (reach_insert SubscriptionList_new "a" true (Exact (MkTopic "a")) false 0);
    [constructor|vm_compute; reflexivity..].
Defined.
