(* ===== verification/Queues.v ===== *)
(** * Queues: wait conditions and the scheduler queues
    (src/multitasking/waitfor.rs, src/multitasking/queues.rs)

    A blocked process owns one wait id in [waiting].  The trigger tables [wait_sleeping],
    [wait_process] and [wait_event] hold wait ids; the first trigger consumes the id and makes the
    process runnable, and stale ids left in other tables are ignored. *)

From stdpp Require Import base gmap list strings sorting.
From Stdlib Require Import ZArith Lia.
From S2P Require Import Prelude Abi.
Open Scope Z_scope.

Abbreviation BSPInstant := Z (only parsing).
Abbreviation ExplicitEventId := Z (only parsing).
Abbreviation WaitId := Z (only parsing).

(** ** Wait conditions *)

Inductive WaitFor :=
| WaitNone
| Time (t : BSPInstant)
| Process (p : ProcessId)
| Event (e : ExplicitEventId)
| FirstOf (l : list WaitFor).

(** [WaitFor::new_event_id]: the counter [NEXT_EVENT] is threaded explicitly. *)
Definition WaitFor_new_event_id (next_event : Z) : ExplicitEventId * Z :=
  (next_event, wrap64 (next_event + 1)).

(** The loop of [reduce] over the alternatives. *)
Fixpoint reduce_loop (l new_se : list WaitFor) (earliest : option BSPInstant)
    : outcome (list WaitFor * option BSPInstant) :=
  match l with
  | [] => Ret (new_se, earliest)
  | WaitNone :: _ => Panic "None in FirstOf"
  | Time instant :: l =>
      match earliest with
      | Some e =>
          if instant <? e then reduce_loop l new_se (Some instant)
          else reduce_loop l new_se earliest
      | None => reduce_loop l new_se (Some instant)
      end
  | FirstOf _ :: _ => Panic "NESTED FirstOf in reduce"
  | other :: l => reduce_loop l (new_se ++ [other]) earliest
  end.

Definition WaitFor_reduce (self : WaitFor) : outcome WaitFor :=
  match self with
  | FirstOf subevents =>
      '(new_se, earliest) ← reduce_loop subevents [] None;
      let new_se := match earliest with Some e => new_se ++ [Time e] | None => new_se end in
      match new_se with
      | [] => Ret WaitNone
      | [w] => Ret w
      | _ => Ret (FirstOf new_se)
      end
  | other => Ret other
  end.

(** ** Queues *)

Record Queues := {
  running : list ProcessId;
  waiting : gmap WaitId ProcessId;
  next_waitid : WaitId;
  wait_sleeping : list (BSPInstant * WaitId);
  wait_process : gmap ProcessId (gset WaitId);
  wait_event : gmap ExplicitEventId (gset WaitId);
}.

Definition Queues_new : Queues :=
  {| running := []; waiting := ∅; next_waitid := 0; wait_sleeping := [];
     wait_process := ∅; wait_event := ∅ |}.

Definition set_running (r : list ProcessId) (q : Queues) : Queues :=
  {| running := r; waiting := waiting q; next_waitid := next_waitid q;
     wait_sleeping := wait_sleeping q; wait_process := wait_process q;
     wait_event := wait_event q |}.
Definition set_waiting (m : gmap WaitId ProcessId) (n : WaitId) (q : Queues) : Queues :=
  {| running := running q; waiting := m; next_waitid := n;
     wait_sleeping := wait_sleeping q; wait_process := wait_process q;
     wait_event := wait_event q |}.
Definition set_sleeping (s : list (BSPInstant * WaitId)) (q : Queues) : Queues :=
  {| running := running q; waiting := waiting q; next_waitid := next_waitid q;
     wait_sleeping := s; wait_process := wait_process q; wait_event := wait_event q |}.
Definition set_wait_process (m : gmap ProcessId (gset WaitId)) (q : Queues) : Queues :=
  {| running := running q; waiting := waiting q; next_waitid := next_waitid q;
     wait_sleeping := wait_sleeping q; wait_process := m; wait_event := wait_event q |}.
Definition set_wait_event (m : gmap ExplicitEventId (gset WaitId)) (q : Queues) : Queues :=
  {| running := running q; waiting := waiting q; next_waitid := next_waitid q;
     wait_sleeping := wait_sleeping q; wait_process := wait_process q; wait_event := m |}.

Definition Queues_process_exists (self : Queues) (pid : ProcessId) : bool :=
  (bool_decide (pid ∈ running self)
   || existsb (Z.eqb pid) (map_to_list (waiting self)).*2)%bool.

Definition process_done (qs : Queues) (current p : ProcessId) : bool :=
  (negb (current =? p) && negb (Queues_process_exists qs p))%bool.

(** The loop over the alternatives shared by [reduce_queues] and [try_resolve_immediate]. *)
Fixpoint first_done (qs : Queues) (current : ProcessId) (l : list WaitFor) : option ProcessId :=
  match l with
  | [] => None
  | Process p :: l =>
      if process_done qs current p then Some p else first_done qs current l
  | _ :: l => first_done qs current l
  end.

Definition WaitFor_try_resolve_immediate (self : WaitFor) (qs : Queues) (current : ProcessId)
    : result ProcessId WaitFor :=
  match self with
  | Process p => if process_done qs current p then Ok p else Err self
  | FirstOf subevents =>
      match first_done qs current subevents with Some p => Ok p | None => Err self end
  | _ => Err self
  end.

Definition WaitFor_reduce_queues (self : WaitFor) (qs : Queues) (current : ProcessId)
    : outcome WaitFor :=
  match self with
  | Process p => if process_done qs current p then Ret WaitNone else WaitFor_reduce self
  | FirstOf subevents =>
      match first_done qs current subevents with
      | Some _ => Ret WaitNone
      | None => WaitFor_reduce self
      end
  | _ => WaitFor_reduce self
  end.

Definition Queues_create_wait (self : Queues) (pid : ProcessId) : outcome (WaitId * Queues) :=
  let wait_id := next_waitid self in
  n ← add64 (next_waitid self) 1;
  Ret (wait_id, set_waiting (<[wait_id := pid]> (waiting self)) n self).

Definition Queues_trigger_wait (self : Queues) (wait_id : WaitId) : Queues :=
  match waiting self !! wait_id with
  | Some pid =>
      set_running (pid :: running self)
        (set_waiting (delete wait_id (waiting self)) (next_waitid self) self)
  | None => self
  end.

(** [for wait_id in wait_ids { self.trigger_wait(wait_id) }] *)
Definition trigger_all (ws : list WaitId) (q : Queues) : Queues :=
  foldl Queues_trigger_wait q ws.

Fixpoint p_index_vecdeque (v : list (BSPInstant * WaitId)) (t : BSPInstant) : nat :=
  match v with
  | [] => 0
  | (k, _) :: v => if t <? k then 0 else S (p_index_vecdeque v t)
  end.

Definition Queues_give_inner (self : Queues) (s : WaitFor) (wait_id : WaitId) : outcome Queues :=
  match s with
  | Time instant =>
      let i := p_index_vecdeque (wait_sleeping self) instant in
      Ret (set_sleeping (vec_insert i (instant, wait_id) (wait_sleeping self)) self)
  | Process wait_for_pid =>
      let old := default ∅ (wait_process self !! wait_for_pid) in
      Ret (set_wait_process (<[wait_for_pid := {[wait_id]} ∪ old]> (wait_process self)) self)
  | Event event_id =>
      let old := default ∅ (wait_event self !! event_id) in
      Ret (set_wait_event (<[event_id := {[wait_id]} ∪ old]> (wait_event self)) self)
  | WaitNone => Panic "WaitFor::None inside of WaitFor::FirstOf"
  | FirstOf _ => Panic "Nested WaitFor::FirstOf"
  end.

(** [for target in targets { self.give_inner(target, wait_id) }] *)
Fixpoint give_all (self : Queues) (targets : list WaitFor) (wait_id : WaitId) : outcome Queues :=
  match targets with
  | [] => Ret self
  | t :: targets => q ← Queues_give_inner self t wait_id; give_all q targets wait_id
  end.

Definition Queues_give (self : Queues) (pid : ProcessId) (s : WaitFor) : outcome Queues :=
  s ← WaitFor_reduce_queues s self pid;
  match s with
  | WaitNone => Ret (set_running (running self ++ [pid]) self)
  | _ =>
      '(wait_id, q) ← Queues_create_wait self pid;
      match s with
      | FirstOf targets => give_all q targets wait_id
      | _ => Queues_give_inner q s wait_id
      end
  end.

Definition Queues_take (self : Queues) : option ProcessId * Queues :=
  match running self with
  | [] => (None, self)
  | pid :: rest => (Some pid, set_running rest self)
  end.

(** The [while let] loop of [on_tick], over the sleeping queue. *)
Fixpoint on_tick_loop (sleeping : list (BSPInstant * WaitId)) (now : BSPInstant) (self : Queues)
    : Queues :=
  match sleeping with
  | [] => self
  | (wakeup, wait_id) :: rest =>
      if wakeup <=? now then
        on_tick_loop rest now (Queues_trigger_wait (set_sleeping rest self) wait_id)
      else self
  end.

Definition Queues_on_tick (self : Queues) (now : BSPInstant) : Queues :=
  on_tick_loop (wait_sleeping self) now self.

Definition Queues_next_wakeup (self : Queues) : option BSPInstant :=
  fst <$> head (wait_sleeping self).

(** [remove] of the first occurrence, then [break]. *)
Fixpoint remove_first (pid : ProcessId) (l : list ProcessId) : list ProcessId :=
  match l with
  | [] => []
  | p :: l => if p =? pid then l else p :: remove_first pid l
  end.

Section ops.
Context `{HO : HashOrder}.

Definition Queues_on_process_over (self : Queues) (completed : ProcessId) : Queues :=
  let q := set_running (remove_first completed (running self)) self in
  match wait_process q !! completed with
  | Some wait_ids =>
      trigger_all (hash_order wait_ids)
        (set_wait_process (delete completed (wait_process q)) q)
  | None => q
  end.

Definition Queues_on_explicit_event (self : Queues) (event_id : ExplicitEventId) : Queues :=
  match wait_event self !! event_id with
  | Some wait_ids =>
      trigger_all (hash_order wait_ids)
        (set_wait_event (delete event_id (wait_event self)) self)
  | None => self
  end.

End ops.

(** ** Lemmas on wait conditions *)

(** The meaning of a condition: which times are due, which processes have completed and which
    events have fired. *)
Inductive holds (due completed fired : Z → Prop) : WaitFor → Prop :=
| holds_none : holds due completed fired WaitNone
| holds_time t : due t → holds due completed fired (Time t)
| holds_process p : completed p → holds due completed fired (Process p)
| holds_event e : fired e → holds due completed fired (Event e)
| holds_first w l : w ∈ l → holds due completed fired w → holds due completed fired (FirstOf l).

Section holds.
Context (due completed fired : Z → Prop).
Context (due_mono : ∀ t t', t ≤ t' → due t' → due t).
Abbreviation H := (holds due completed fired).

Lemma holds_time_iff t : H (Time t) ↔ due t.
Proof. split; [by inversion 1|by constructor]. Qed.

Lemma holds_first_iff l : H (FirstOf l) ↔ ∃ w, w ∈ l ∧ H w.
Proof. split; [inversion 1; eauto|]. intros (w & ? & ?). by econstructor. Qed.

Lemma holds_first_cons w l : H (FirstOf (w :: l)) ↔ H w ∨ H (FirstOf l).
Proof. rewrite !holds_first_iff. setoid_rewrite elem_of_cons. naive_solver. Qed.

Lemma holds_first_nil : ¬ H (FirstOf []).
Proof. rewrite holds_first_iff. intros (w & Hw & _). by apply not_elem_of_nil in Hw. Qed.

Lemma holds_first_app l l' : H (FirstOf (l ++ l')) ↔ H (FirstOf l) ∨ H (FirstOf l').
Proof.
  induction l as [|w l IH]; cbn; [|rewrite !holds_first_cons, IH; tauto].
  split; [auto|]. intros [Hn|?]; [by apply holds_first_nil in Hn|done].
Qed.

Definition earliest_due (e : option BSPInstant) : Prop :=
  match e with Some t => due t | None => False end.

Lemma reduce_loop_holds l acc e acc' e' :
  reduce_loop l acc e = Ret (acc', e') →
  (H (FirstOf acc') ∨ earliest_due e') ↔
  (H (FirstOf acc) ∨ earliest_due e ∨ H (FirstOf l)).
Proof.
  revert acc e. induction l as [|w l IH]; intros acc e Hr.
  { cbn in Hr. simplify_eq. pose proof holds_first_nil. tauto. }
  destruct w as [|t|p|ev|l']; cbn in Hr; try discriminate.
  - rewrite holds_first_cons, holds_time_iff. destruct e as [t'|].
    + destruct (Z.ltb_spec t t') as [Hlt|Hge]; apply IH in Hr; rewrite Hr; cbn.
      * pose proof (due_mono t t' ltac:(lia)). tauto.
      * pose proof (due_mono t' t ltac:(lia)). tauto.
    + apply IH in Hr. rewrite Hr. cbn. tauto.
  - apply IH in Hr. rewrite Hr, holds_first_app, !holds_first_cons.
    pose proof holds_first_nil. tauto.
  - apply IH in Hr. rewrite Hr, holds_first_app, !holds_first_cons.
    pose proof holds_first_nil. tauto.
Qed.

Lemma WaitFor_reduce_holds w w' :
  w ≠ FirstOf [] → WaitFor_reduce w = Ret w' → H w' ↔ H w.
Proof.
  destruct w as [| | | |l]; cbn; try (by intros _ [= <-]).
  intros Hne Hr. apply outcome_bind_ret in Hr as ([acc e] & Hl & Hr).
  pose proof (reduce_loop_holds _ _ _ _ _ Hl) as Hh. cbn in Hh.
  assert (H (FirstOf (match e with Some e => acc ++ [Time e] | None => acc end))
    ↔ H (FirstOf l)) as Hi.
  { pose proof holds_first_nil. destruct e as [t|]; [|cbn in Hh; tauto].
    rewrite holds_first_app, holds_first_cons, holds_time_iff. cbn in Hh. tauto. }
  clear Hh. assert (match e with Some e => acc ++ [Time e] | None => acc end ≠ []) as Hnil.
  { intros Hnil. destruct e as [t|]; [by destruct acc|]. subst acc.
    destruct l as [|w l]; [done|]. clear -Hl. revert Hl.
    assert (∀ l acc e, acc ≠ [] ∨ e ≠ None → reduce_loop l acc e ≠ Ret ([], None)) as Hgen.
    { clear. induction l as [|w l IH]; intros acc e Hacc; cbn; [naive_solver|].
      destruct w; try done.
      - destruct e; [case_match|]; apply IH; naive_solver.
      - apply IH. left. by destruct acc.
      - apply IH. left. by destruct acc. }
    cbn. destruct w; try done; intros Hl; by eapply Hgen in Hl; [|naive_solver]. }
  destruct (match e with Some e => acc ++ [Time e] | None => acc end) as [|w [|w2 r]];
    [done| |]; simplify_eq; rewrite <- Hi, ?holds_first_cons.
  - pose proof holds_first_nil. tauto.
  - done.
Qed.

End holds.

(** [reduce] panics exactly on the alternatives the doc comment excludes. *)
Definition plain (w : WaitFor) : Prop :=
  match w with WaitNone | FirstOf _ => False | _ => True end.

Lemma reduce_loop_returns l acc e :
  Forall plain l → returns (reduce_loop l acc e).
Proof.
  revert acc e. induction l as [|w l IH]; intros acc e Hl; cbn; [eauto with d7|].
  inversion_clear Hl. destruct w; try done; [|by apply IH|by apply IH].
  destruct e; [case_match|]; by apply IH.
Qed.

Lemma reduce_loop_plain l acc e acc' e' :
  reduce_loop l acc e = Ret (acc', e') → Forall plain acc → Forall plain acc'.
Proof.
  revert acc e. induction l as [|w l IH]; intros acc e Hr Hacc; cbn in Hr; [by simplify_eq|].
  destruct w; try done.
  - destruct e; [case_match|]; by eapply IH.
  - eapply IH; [done|]. rewrite Forall_app. by repeat constructor.
  - eapply IH; [done|]. rewrite Forall_app. by repeat constructor.
Qed.

Lemma WaitFor_reduce_returns l : Forall plain l → returns (WaitFor_reduce (FirstOf l)).
Proof.
  intros Hl. destruct (reduce_loop_returns l [] None Hl) as [[acc e] He].
  unfold WaitFor_reduce. rewrite He. cbn.
  destruct (match e with Some e => acc ++ [Time e] | None => acc end) as [|w [|w' r]];
    eauto with d7.
Qed.

(** The shape [give] relies on: [None], one plain condition, or several plain ones. *)
Definition reduced (w : WaitFor) : Prop :=
  match w with FirstOf l => l ≠ [] ∧ Forall plain l | _ => True end.

Lemma WaitFor_reduce_reduced w w' : WaitFor_reduce w = Ret w' → reduced w'.
Proof.
  destruct w as [| | | |l]; cbn; try (by intros [= <-]).
  intros Hr. apply outcome_bind_ret in Hr as ([acc e] & Hl & Hr).
  assert (Forall plain (match e with Some e => acc ++ [Time e] | None => acc end)) as Hp.
  { apply reduce_loop_plain in Hl; [|done]. destruct e; [|done].
    rewrite Forall_app. by repeat constructor. }
  destruct (match e with Some e => acc ++ [Time e] | None => acc end) as [|w [|w2 r]];
    simplify_eq; [done| |done].
  inversion_clear Hp. by destruct w'.
Qed.

Lemma reduce_queues_reduced w q pid w' :
  WaitFor_reduce_queues w q pid = Ret w' → reduced w'.
Proof.
  unfold WaitFor_reduce_queues. intros H.
  destruct w; repeat case_match; simplify_eq; try done; by eapply WaitFor_reduce_reduced.
Qed.

(** ** Lemmas on the queues *)

(** Every process the queues know, with multiplicity. *)
Definition procs (q : Queues) : list ProcessId := running q ++ (map_to_list (waiting q)).*2.

(** The three things that can wake a process. *)
Inductive trigger := OnTick (now : BSPInstant) | OnOver (p : ProcessId) | OnEvent (e : ExplicitEventId).

(** The trigger consumes wait id [w]. *)
Definition triggered (t : trigger) (q : Queues) (w : WaitId) : Prop :=
  match t with
  | OnTick now => ∃ x, (x, w) ∈ wait_sleeping q ∧ x ≤ now
  | OnOver p => ∃ ws, wait_process q !! p = Some ws ∧ w ∈ ws
  | OnEvent e => ∃ ws, wait_event q !! e = Some ws ∧ w ∈ ws
  end.

(** The trigger satisfies the condition [s]. *)
Definition fires (t : trigger) : WaitFor → Prop :=
  match t with
  | OnTick now => holds (λ x, x ≤ now) (λ _, False) (λ _, False)
  | OnOver p => holds (λ _, False) (λ p', p' = p) (λ _, False)
  | OnEvent e => holds (λ _, False) (λ _, False) (λ e', e' = e)
  end.

Definition registered (q : Queues) (w : WaitId) : Prop := ∃ t, triggered t q w.

Definition wakes_before (x y : BSPInstant * WaitId) : Prop := x.1 ≤ y.1.

Record qs_wf (q : Queues) : Prop := {
  qs_next : 0 ≤ next_waitid q < u64_size;
  qs_ids : ∀ w p, waiting q !! w = Some p → 0 ≤ w < next_waitid q;
  qs_reg_ids : ∀ w, registered q w → 0 ≤ w < next_waitid q;
  qs_registered : ∀ w p, waiting q !! w = Some p → registered q w;
  qs_sorted : StronglySorted wakes_before (wait_sleeping q);
  qs_nodup : NoDup (procs q);
}.

Lemma elem_of_procs q p :
  p ∈ procs q ↔ p ∈ running q ∨ ∃ w, waiting q !! w = Some p.
Proof.
  unfold procs. rewrite elem_of_app, list_elem_of_fmap. f_equiv. split.
  - intros ([w p'] & -> & Hw%elem_of_map_to_list). eauto.
  - intros (w & Hw). exists (w, p). by rewrite elem_of_map_to_list.
Qed.

Lemma process_exists_procs q p : Queues_process_exists q p = true ↔ p ∈ procs q.
Proof.
  unfold Queues_process_exists, procs. rewrite orb_true_iff, bool_decide_eq_true, elem_of_app.
  f_equiv. rewrite existsb_exists. split.
  - intros (x & Hx & <-%Z.eqb_eq). by apply list_elem_of_In.
  - intros Hp. exists p. split; [by apply list_elem_of_In|apply Z.eqb_refl].
Qed.

Lemma trigger_wait_procs q w : procs (Queues_trigger_wait q w) ≡ₚ procs q.
Proof.
  unfold Queues_trigger_wait. destruct (waiting q !! w) as [p|] eqn:Hw; [|done].
  unfold procs; cbn. rewrite <- (map_to_list_delete _ _ _ Hw). cbn.
  by rewrite Permutation_middle.
Qed.

Lemma trigger_all_procs ws q : procs (trigger_all ws q) ≡ₚ procs q.
Proof.
  revert q. induction ws as [|w ws IH]; intros q; [done|]. cbn.
  unfold trigger_all in IH. by rewrite IH, trigger_wait_procs.
Qed.

(** Triggering only moves processes: the tables and the id counter stay. *)
Definition same_tables (q q' : Queues) : Prop :=
  next_waitid q' = next_waitid q ∧ wait_sleeping q' = wait_sleeping q ∧
  wait_process q' = wait_process q ∧ wait_event q' = wait_event q.

Lemma trigger_wait_tables q w : same_tables q (Queues_trigger_wait q w).
Proof. unfold Queues_trigger_wait. by destruct (waiting q !! w). Qed.

Lemma trigger_all_tables ws q : same_tables q (trigger_all ws q).
Proof.
  revert q. induction ws as [|w ws IH]; intros q; [done|]. cbn.
  pose proof (trigger_wait_tables q w). pose proof (IH (Queues_trigger_wait q w)).
  unfold same_tables, trigger_all in *. intuition congruence.
Qed.

Lemma trigger_wait_waiting q w w' :
  waiting (Queues_trigger_wait q w) !! w' = if decide (w' = w) then None else waiting q !! w'.
Proof.
  unfold Queues_trigger_wait. destruct (waiting q !! w) as [p|] eqn:Hw; cbn.
  - case_decide; subst; [by rewrite lookup_delete_eq|by rewrite lookup_delete_ne].
  - case_decide; by subst.
Qed.

Lemma trigger_all_waiting ws q w' :
  waiting (trigger_all ws q) !! w' = if decide (w' ∈ ws) then None else waiting q !! w'.
Proof.
  revert q. induction ws as [|w ws IH]; intros q; [done|]. cbn.
  unfold trigger_all in IH. rewrite IH, trigger_wait_waiting.
  repeat case_decide; set_solver.
Qed.

(** The woken processes go to the front, latest first; the others keep their order. *)
Lemma trigger_all_running ws q :
  NoDup ws →
  running (trigger_all ws q) = reverse (omap (λ w, waiting q !! w) ws) ++ running q.
Proof.
  revert q. induction ws as [|w ws IH]; intros q Hnd; [done|].
  apply NoDup_cons in Hnd as [Hw Hnd].
  change (trigger_all (w :: ws) q) with (trigger_all ws (Queues_trigger_wait q w)).
  rewrite IH by done.
  assert (omap (λ w', waiting (Queues_trigger_wait q w) !! w') ws
    = omap (λ w', waiting q !! w') ws) as ->.
  { clear -Hw. induction ws as [|w' ws IH]; [done|]. cbn.
    rewrite trigger_wait_waiting, decide_False by set_solver. by rewrite IH by set_solver. }
  change (omap (λ w, waiting q !! w) (w :: ws)) with
    (match waiting q !! w with
     | Some p => p :: omap (λ w, waiting q !! w) ws
     | None => omap (λ w, waiting q !! w) ws
     end).
  unfold Queues_trigger_wait.
  destruct (waiting q !! w) as [p|]; [|done]. by rewrite reverse_cons, <- (assoc_L (++)).
Qed.

Lemma trigger_all_keeps_running ws q p : p ∈ running q → p ∈ running (trigger_all ws q).
Proof.
  revert q. induction ws as [|w ws IH]; intros q Hp; [done|]. cbn. apply IH.
  unfold Queues_trigger_wait. destruct (waiting q !! w); cbn; [by right|done].
Qed.

Lemma trigger_all_wakes ws q w p :
  waiting q !! w = Some p → w ∈ ws → p ∈ running (trigger_all ws q).
Proof.
  revert q. induction ws as [|w' ws IH]; intros q Hw Hin; [by apply not_elem_of_nil in Hin|].
  cbn. destruct (decide (w = w')) as [<-|Hne].
  - apply trigger_all_keeps_running. unfold Queues_trigger_wait. rewrite Hw. cbn. by left.
  - apply IH; [|set_solver]. by rewrite trigger_wait_waiting, decide_False.
Qed.

(** A reduction of the tables that only drops triggers of consumed ids keeps the invariant. *)
Lemma qs_wf_shrink q q' :
  qs_wf q → next_waitid q' = next_waitid q →
  (∀ w p, waiting q' !! w = Some p → waiting q !! w = Some p) →
  (∀ w, registered q' w → registered q w) →
  (∀ w p, waiting q' !! w = Some p → registered q w → registered q' w) →
  StronglySorted wakes_before (wait_sleeping q') → NoDup (procs q') → qs_wf q'.
Proof.
  intros [Hn Hi Hri Hr Hs Hnd] En Hw Hreg Hkeep Hs' Hnd'.
  split; rewrite ?En; eauto.
Qed.

Lemma p_index_insert_sorted l t w :
  StronglySorted wakes_before l →
  StronglySorted wakes_before (vec_insert (p_index_vecdeque l t) (t, w) l).
Proof.
  induction 1 as [|[k v] l Hs IH Hf]; [by repeat constructor|]. cbn.
  destruct (Z.ltb_spec t k) as [Hlt|Hge]; unfold vec_insert in *; cbn in *.
  - rewrite Forall_forall in Hf.
    constructor; [constructor; [done|by apply Forall_forall]|].
    constructor; [unfold wakes_before; cbn; lia|].
    apply Forall_forall. intros x Hx. apply Hf in Hx. unfold wakes_before in *. cbn in *. lia.
  - constructor; [done|]. pose proof (vec_insert_perm (p_index_vecdeque l t) (t, w) l) as Hp.
    unfold vec_insert in Hp. rewrite Hp. constructor; [unfold wakes_before; cbn; lia|done].
Qed.

Lemma fires_reduce t w w' :
  w ≠ FirstOf [] → WaitFor_reduce w = Ret w' → fires t w' ↔ fires t w.
Proof.
  intros Hne Hr. destruct t; cbn; eapply WaitFor_reduce_holds; [lia|done|done|done..].
Qed.

Lemma fires_reduce_queues t s q pid s' :
  s ≠ FirstOf [] → s' ≠ WaitNone → WaitFor_reduce_queues s q pid = Ret s' →
  fires t s' ↔ fires t s.
Proof.
  intros Hne Hn Hr. unfold WaitFor_reduce_queues in Hr.
  destruct s; repeat case_match; simplify_eq; by eapply fires_reduce.
Qed.

Lemma fires_first t l : fires t (FirstOf l) ↔ ∃ w, w ∈ l ∧ fires t w.
Proof. destruct t; apply holds_first_iff. Qed.

(** [entry(k).or_default().insert(w)] *)
Lemma table_insert_spec (m : gmap Z (gset WaitId)) k k' w w' :
  (∃ ws, <[k := {[w]} ∪ default ∅ (m !! k)]> m !! k' = Some ws ∧ w' ∈ ws) ↔
  (∃ ws, m !! k' = Some ws ∧ w' ∈ ws) ∨ (w' = w ∧ k = k').
Proof.
  destruct (decide (k = k')) as [<-|Hne].
  - rewrite lookup_insert_eq. split.
    + intros (ws & [= <-] & [->%elem_of_singleton|Hw]%elem_of_union); [by right|left].
      destruct (m !! k) as [ws|]; cbn in Hw; [eauto|set_solver].
    + intros [(ws & -> & Hw)|[-> _]]; eexists; (split; [done|]); set_solver.
  - rewrite lookup_insert_ne by done. naive_solver.
Qed.

Ltac other_trigger := split; [by left|]; intros [?|[_ Hf]]; [done|inversion Hf; done].

Lemma give_inner_spec q s w :
  plain s → ∃ q', Queues_give_inner q s w = Ret q' ∧
    running q' = running q ∧ waiting q' = waiting q ∧ next_waitid q' = next_waitid q ∧
    (StronglySorted wakes_before (wait_sleeping q) →
     StronglySorted wakes_before (wait_sleeping q')) ∧
    (∀ t w', triggered t q' w' ↔ triggered t q w' ∨ (w' = w ∧ fires t s)).
Proof.
  destruct s as [|x|p|e|l]; try done; intros _; eexists; (split; [done|]);
    split_and!; try done; cbn; [apply p_index_insert_sorted|intros [now|p'|e'] w'; cbn..];
    try other_trigger.
  - setoid_rewrite holds_time_iff. setoid_rewrite vec_insert_perm.
    setoid_rewrite elem_of_cons. split; [intros (y & [?|?] & ?); simplify_eq; eauto|].
    intros [(y & ? & ?)|[-> ?]]; eauto.
  - rewrite table_insert_spec. do 2 f_equiv. split; [by constructor|by inversion 1].
  - rewrite table_insert_spec. do 2 f_equiv. split; [by constructor|by inversion 1].
Qed.

Lemma give_all_spec l q w :
  Forall plain l → ∃ q', give_all q l w = Ret q' ∧
    running q' = running q ∧ waiting q' = waiting q ∧ next_waitid q' = next_waitid q ∧
    (StronglySorted wakes_before (wait_sleeping q) →
     StronglySorted wakes_before (wait_sleeping q')) ∧
    (∀ t w', triggered t q' w' ↔ triggered t q w' ∨ (w' = w ∧ fires t (FirstOf l))).
Proof.
  revert q. induction l as [|s l IH]; intros q Hl.
  { exists q. split_and!; try done. intros t w'. rewrite fires_first. set_solver. }
  inversion_clear Hl as [|?? Hs Hl'].
  destruct (give_inner_spec q s w Hs) as (q1 & E1 & Hr1 & Hw1 & Hn1 & Hs1 & Ht1).
  destruct (IH q1 Hl') as (q2 & E2 & Hr2 & Hw2 & Hn2 & Hs2 & Ht2).
  exists q2. cbn. rewrite E1. cbn. split_and!; [done|congruence|congruence|congruence|auto|].
  intros t w'. rewrite Ht2, Ht1, !fires_first. setoid_rewrite elem_of_cons. naive_solver.
Qed.

#[global] Instance WaitNone_dec (s : WaitFor) : Decision (s = WaitNone).
Proof. destruct s; first [by left | by right]. Defined.

(** What [give] does once the condition is reduced to [s']. *)
Lemma give_spec q pid s s' :
  qs_wf q → WaitFor_reduce_queues s q pid = Ret s' →
  (next_waitid q < u64_max ∨ s' = WaitNone) →
  ∃ q', Queues_give q pid s = Ret q' ∧
    (∀ t w, triggered t q' w ↔
      triggered t q w ∨ (s' ≠ WaitNone ∧ w = next_waitid q ∧ fires t s')) ∧
    (StronglySorted wakes_before (wait_sleeping q') ∧ next_waitid q ≤ next_waitid q' < u64_size) ∧
    ((s' = WaitNone ∧ running q' = running q ++ [pid] ∧ waiting q' = waiting q ∧
      next_waitid q' = next_waitid q) ∨
     (s' ≠ WaitNone ∧ running q' = running q ∧ next_waitid q' = next_waitid q + 1 ∧
      waiting q' = <[next_waitid q := pid]> (waiting q))).
Proof.
  intros Hwf Hr Hn. unfold Queues_give. rewrite Hr. cbn.
  pose proof (reduce_queues_reduced _ _ _ _ Hr) as Hred.
  pose proof (qs_next _ Hwf) as Hnext. pose proof (qs_sorted _ Hwf) as Hs.
  destruct (decide (s' = WaitNone)) as [->|Hne].
  { eexists. split; [done|]. split; [intros [] w; cbn; naive_solver|].
    split; [split; [done|cbn; lia]|]. by left. }
  destruct Hn as [Hn|]; [|done].
  assert (Queues_create_wait q pid = Ret (next_waitid q,
    set_waiting (<[next_waitid q := pid]> (waiting q)) (next_waitid q + 1) q)) as Hc.
  { unfold Queues_create_wait. rewrite (proj2 (add64_ret _ 1 (next_waitid q + 1))); [done|].
    unfold u64_max in Hn. lia. }
  set (q0 := set_waiting _ _ _) in Hc.
  assert (∀ t w, triggered t q0 w ↔ triggered t q w) as Ht0 by (by intros []).
  assert (∃ q', match s' with
      | FirstOf targets => give_all q0 targets (next_waitid q)
      | _ => Queues_give_inner q0 s' (next_waitid q)
      end = Ret q' ∧
    running q' = running q0 ∧ waiting q' = waiting q0 ∧ next_waitid q' = next_waitid q0 ∧
    (StronglySorted wakes_before (wait_sleeping q0) →
     StronglySorted wakes_before (wait_sleeping q')) ∧
    (∀ t w', triggered t q' w' ↔ triggered t q0 w' ∨ (w' = next_waitid q ∧ fires t s')))
    as (q' & E & Hrun & Hwt & Hnx & Hso & Ht).
  { destruct s' as [| | | |l]; try done; try by apply give_inner_spec.
    apply give_all_spec. apply Hred. }
  exists q'. split; [destruct s'; try done; by rewrite Hc|].
  split; [intros t w; rewrite Ht, Ht0; naive_solver|].
  split; [split; [auto|rewrite Hnx; cbn; unfold u64_max in Hn; lia]|].
  right. by rewrite Hrun, Hwt, Hnx.
Qed.

(** A reduced condition is [None] or can be fired by some trigger. *)
Lemma reduced_fires s : reduced s → s ≠ WaitNone → ∃ t, fires t s.
Proof.
  assert (∀ w, plain w → ∃ t, fires t w) as Hp.
  { intros [|x|p|e|l] Hw; try done.
    - exists (OnTick x). by constructor.
    - exists (OnOver p). by constructor.
    - exists (OnEvent e). by constructor. }
  destruct s as [| | | |l]; try (by intros; apply Hp).
  intros [Hne Hl] _. destruct l as [|w l]; [done|]. inversion_clear Hl.
  destruct (Hp w) as [t Ht]; [done|]. exists t. apply fires_first. exists w. set_solver.
Qed.

(** The two ways [give] succeeds. *)
Lemma give_cases q pid s q' :
  qs_wf q → Queues_give q pid s = Ret q' →
  ∃ s', WaitFor_reduce_queues s q pid = Ret s' ∧
    (∀ t w, triggered t q' w ↔
      triggered t q w ∨ (s' ≠ WaitNone ∧ w = next_waitid q ∧ fires t s')) ∧
    (StronglySorted wakes_before (wait_sleeping q') ∧ next_waitid q ≤ next_waitid q' < u64_size) ∧
    ((s' = WaitNone ∧ running q' = running q ++ [pid] ∧ waiting q' = waiting q ∧
      next_waitid q' = next_waitid q) ∨
     (s' ≠ WaitNone ∧ running q' = running q ∧ next_waitid q' = next_waitid q + 1 ∧
      waiting q' = <[next_waitid q := pid]> (waiting q))).
Proof.
  intros Hwf Hg. pose proof Hg as Hg0. unfold Queues_give in Hg.
  apply outcome_bind_ret in Hg as (s' & Hr & Hg). exists s'. split; [done|].
  assert (next_waitid q < u64_max ∨ s' = WaitNone) as Hn.
  { destruct (decide (s' = WaitNone)) as [->|Hne]; [by right|left].
    destruct s'; try done; outcome_inv; unfold Queues_create_wait in *; outcome_inv;
      match goal with H : add64 _ _ = _ |- _ => apply add64_ret in H end;
      unfold u64_max; lia. }
  destruct (give_spec q pid s s' Hwf Hr Hn) as (q2 & E & Hrest).
  by assert (q2 = q') as -> by congruence.
Qed.

Lemma give_wf q pid s q' :
  qs_wf q → pid ∉ procs q → Queues_give q pid s = Ret q' →
  qs_wf q' ∧ procs q' ≡ₚ pid :: procs q.
Proof.
  intros Hwf Hpid Hg.
  destruct (give_cases q pid s q' Hwf Hg) as (s' & Hr & Ht & [Hs Hnx] & Hcases).
  pose proof (reduce_queues_reduced _ _ _ _ Hr) as Hred.
  destruct Hwf as [Hn0 Hi Hri Hreg _ Hnd].
  assert (procs q' ≡ₚ pid :: procs q) as Hp.
  { unfold procs. destruct Hcases as [(_ & -> & -> & _)|(_ & -> & _ & ->)].
    - rewrite <- (assoc_L (++)). symmetry. apply (Permutation_middle (running q)).
    - rewrite map_to_list_insert; [cbn; by rewrite <- Permutation_middle|].
      destruct (waiting q !! next_waitid q) eqn:Hw; [apply Hi in Hw; lia|done]. }
  split; [|done]. split; [lia| | | |done|rewrite Hp; by constructor].
  - intros w p Hw. destruct Hcases as [(_ & _ & E' & ->)|(_ & _ & -> & E')];
      rewrite E' in Hw; [eauto|].
    apply lookup_insert_Some in Hw as [[<- _]|[_ Hw]]; [lia|]. apply Hi in Hw. lia.
  - intros w [t [Hw|(Hne & -> & _)]%Ht].
    + specialize (Hri w (ex_intro _ t Hw)). lia.
    + destruct Hcases as [(? & _)|(_ & _ & -> & _)]; [done|lia].
  - intros w p Hw. destruct Hcases as [(_ & _ & E' & _)|(Hne & _ & _ & E')];
      rewrite E' in Hw.
    + destruct (Hreg w p Hw) as [t ?]. exists t. apply Ht. by left.
    + apply lookup_insert_Some in Hw as [[<- _]|[_ Hw]].
      * destruct (reduced_fires s' Hred Hne) as [t ?]. exists t. apply Ht. by right.
      * destruct (Hreg w p Hw) as [t ?]. exists t. apply Ht. by left.
Qed.

(** On a sorted queue the loop of [on_tick] triggers the due ids, in order, and keeps the rest. *)
Lemma on_tick_loop_filter l now q :
  StronglySorted wakes_before l → wait_sleeping q = l →
  on_tick_loop l now q =
  trigger_all (filter (λ x, x.1 ≤ now) l).*2 (set_sleeping (filter (λ x, now < x.1) l) q).
Proof.
  intros Hs. revert q. induction Hs as [|[t w] l Hs IH Hf]; intros q Hq; cbn [on_tick_loop].
  { destruct q. cbn in *. by subst. }
  rewrite !filter_cons. cbn [fst]. destruct (Z.leb_spec t now) as [Hle|Hgt].
  - rewrite decide_True, decide_False by lia.
    rewrite IH by (unfold Queues_trigger_wait; by case_match). cbn.
    unfold trigger_all. f_equal. unfold Queues_trigger_wait; cbn. by destruct (waiting q !! w).
  - rewrite decide_False, decide_True by lia. rewrite Forall_forall in Hf.
    rewrite filter_none, filter_all.
    + destruct q. cbn in *. by subst.
    + intros x Hx. apply Hf in Hx. unfold wakes_before in Hx. cbn in Hx. lia.
    + intros x Hx. apply Hf in Hx. unfold wakes_before in Hx. cbn in Hx. lia.
Qed.

Lemma elem_of_remove_first p p' l :
  NoDup l → p' ∈ remove_first p l ↔ p' ∈ l ∧ p' ≠ p.
Proof.
  induction 1 as [|x l Hx Hnd IH]; cbn; [set_solver|].
  destruct (Z.eqb_spec x p) as [->|Hne]; set_solver.
Qed.

Lemma elem_of_remove_first_ne p p' l : p' ≠ p → p' ∈ remove_first p l ↔ p' ∈ l.
Proof.
  intros Hne. induction l as [|x l IH]; cbn; [done|].
  destruct (Z.eqb_spec x p); set_solver.
Qed.

Lemma remove_first_sublist p l : sublist (remove_first p l) l.
Proof.
  induction l as [|x l IH]; cbn; [done|].
  destruct (Z.eqb_spec x p); [by constructor|by constructor].
Qed.

Section triggers.
Context `{HO : HashOrder}.

Definition apply_trigger (t : trigger) (q : Queues) : Queues :=
  match t with
  | OnTick now => Queues_on_tick q now
  | OnOver p => Queues_on_process_over q p
  | OnEvent e => Queues_on_explicit_event q e
  end.

Definition running_after (t : trigger) (q : Queues) : list ProcessId :=
  match t with OnOver p => remove_first p (running q) | _ => running q end.

(** Each entry point consumes exactly the triggered ids, and forgets no other trigger. *)
Record trigger_form (t : trigger) (q : Queues) (ws : list WaitId) (q0 : Queues) : Prop := {
  tf_apply : apply_trigger t q = trigger_all ws q0;
  tf_ids : ∀ w, w ∈ ws ↔ triggered t q w;
  tf_waiting : waiting q0 = waiting q;
  tf_next : next_waitid q0 = next_waitid q;
  tf_running : running q0 = running_after t q;
  tf_shrink : ∀ t' w, triggered t' q0 w → triggered t' q w;
  tf_keep : ∀ t' w, ¬ triggered t q w → triggered t' q w → triggered t' q0 w;
  tf_sorted : StronglySorted wakes_before (wait_sleeping q0);
}.

Lemma tick_form now q :
  qs_wf q → ∃ ws q0, trigger_form (OnTick now) q ws q0.
Proof.
  intros Hwf. pose proof (qs_sorted _ Hwf) as Hs.
  eexists _, _. split.
  - apply on_tick_loop_filter; done.
  - intros w. cbn. rewrite list_elem_of_fmap. split.
    + intros ([x w'] & -> & [Hx Hin]%list_elem_of_filter). eauto.
    + intros (x & Hin & Hx). exists (x, w). by rewrite list_elem_of_filter.
  - done.
  - done.
  - done.
  - intros [n|p|e] w; cbn; [|done..]. intros (x & [_ ?]%list_elem_of_filter & ?). eauto.
  - intros [n|p|e] w; cbn; [|done..]. intros Hn (x & Hin & Hx). exists x. split; [|done].
    apply list_elem_of_filter. split; [|done]. cbn. destruct (decide (x ≤ now)); [|lia].
    exfalso. eauto.
  - by apply strongly_sorted_filter.
Qed.

(** A table entry is removed as a whole. *)
Lemma table_delete_shrink (m : gmap Z (gset WaitId)) k k' w :
  (∃ ws, delete k m !! k' = Some ws ∧ w ∈ ws) → ∃ ws, m !! k' = Some ws ∧ w ∈ ws.
Proof. intros (ws & [_ ?]%lookup_delete_Some & ?). eauto. Qed.

Lemma table_delete_keep (m : gmap Z (gset WaitId)) k k' w :
  ¬ (∃ ws, m !! k = Some ws ∧ w ∈ ws) → (∃ ws, m !! k' = Some ws ∧ w ∈ ws) →
  ∃ ws, delete k m !! k' = Some ws ∧ w ∈ ws.
Proof.
  intros Hn (ws & Hk & Hw). exists ws. rewrite lookup_delete_Some. naive_solver.
Qed.

Lemma over_form p q : qs_wf q → ∃ ws q0, trigger_form (OnOver p) q ws q0.
Proof.
  intros Hwf. pose proof (qs_sorted _ Hwf) as Hs.
  destruct (wait_process q !! p) as [wids|] eqn:Hp.
  - exists (hash_order wids), (set_wait_process (delete p (wait_process q))
      (set_running (remove_first p (running q)) q)).
    split; try done.
    + cbn. unfold Queues_on_process_over. cbn. by rewrite Hp.
    + intros w. rewrite elem_of_hash_order. cbn. rewrite Hp. naive_solver.
    + intros [] w; cbn; [done|apply table_delete_shrink|done].
    + intros [] w; cbn; [done|apply table_delete_keep|done].
  - exists [], (set_running (remove_first p (running q)) q). split; try done.
    + cbn. unfold Queues_on_process_over. cbn. by rewrite Hp.
    + intros w. cbn. rewrite Hp. set_solver.
Qed.

Lemma event_form e q : qs_wf q → ∃ ws q0, trigger_form (OnEvent e) q ws q0.
Proof.
  intros Hwf. pose proof (qs_sorted _ Hwf) as Hs.
  destruct (wait_event q !! e) as [wids|] eqn:He.
  - exists (hash_order wids), (set_wait_event (delete e (wait_event q)) q).
    split; try done.
    + cbn. unfold Queues_on_explicit_event. by rewrite He.
    + intros w. rewrite elem_of_hash_order. cbn. rewrite He. naive_solver.
    + intros [] w; cbn; [done|done|apply table_delete_shrink].
    + intros [] w; cbn; [done|done|apply table_delete_keep].
  - exists [], q. split; try done.
    + cbn. unfold Queues_on_explicit_event. by rewrite He.
    + intros w. cbn. rewrite He. set_solver.
Qed.

Lemma has_form t q : qs_wf q → ∃ ws q0, trigger_form t q ws q0.
Proof. destruct t; [apply tick_form|apply over_form|apply event_form]. Qed.

Lemma apply_trigger_waiting t q w p :
  qs_wf q →
  waiting (apply_trigger t q) !! w = Some p ↔ waiting q !! w = Some p ∧ ¬ triggered t q w.
Proof.
  intros Hwf. destruct (has_form t q Hwf) as (ws & q0 & F).
  rewrite (tf_apply _ _ _ _ F), trigger_all_waiting, (tf_waiting _ _ _ _ F).
  rewrite <- (tf_ids _ _ _ _ F). case_decide; naive_solver.
Qed.

Lemma apply_trigger_procs t q :
  qs_wf q →
  procs (apply_trigger t q) ≡ₚ running_after t q ++ (map_to_list (waiting q)).*2.
Proof.
  intros Hwf. destruct (has_form t q Hwf) as (ws & q0 & F).
  rewrite (tf_apply _ _ _ _ F), trigger_all_procs. unfold procs.
  by rewrite (tf_running _ _ _ _ F), (tf_waiting _ _ _ _ F).
Qed.

Lemma running_after_sublist t q : sublist (running_after t q) (running q).
Proof. destruct t; [done|apply remove_first_sublist|done]. Qed.

Lemma apply_trigger_nodup t q : qs_wf q → NoDup (procs (apply_trigger t q)).
Proof.
  intros Hwf. rewrite apply_trigger_procs by done. eapply sublist_NoDup; [apply (qs_nodup _ Hwf)|].
  apply sublist_app; [apply running_after_sublist|done].
Qed.

(** A trigger leaves every other id in the tables it was in. *)
Lemma apply_trigger_keep t t' q w :
  qs_wf q → ¬ triggered t q w → triggered t' q w → triggered t' (apply_trigger t q) w.
Proof.
  intros Hwf Hn Ht. destruct (has_form t q Hwf) as (ws & q0 & F).
  pose proof (tf_keep _ _ _ _ F _ _ Hn Ht) as Hk. rewrite (tf_apply _ _ _ _ F).
  destruct (trigger_all_tables ws q0) as (_ & E1 & E2 & E3).
  destruct t'; cbn in *; by rewrite ?E1, ?E2, ?E3.
Qed.

Lemma apply_trigger_wf t q : qs_wf q → qs_wf (apply_trigger t q).
Proof.
  intros Hwf. pose proof (apply_trigger_nodup t q Hwf) as Hnd.
  pose proof (λ w p, proj1 (apply_trigger_waiting t q w p Hwf)) as Hw.
  destruct (has_form t q Hwf) as (ws & q0 & F).
  assert (∀ t' w, triggered t' (apply_trigger t q) w ↔ triggered t' q0 w) as Ht.
  { intros t' w. rewrite (tf_apply _ _ _ _ F).
    destruct (trigger_all_tables ws q0) as (_ & E1 & E2 & E3).
    destruct t'; cbn; by rewrite ?E1, ?E2, ?E3. }
  destruct (trigger_all_tables ws q0) as (E0 & E1 & _ & _).
  rewrite <- (tf_apply _ _ _ _ F) in E0, E1.
  apply (qs_wf_shrink q); [done| | | | |by rewrite E1; apply (tf_sorted _ _ _ _ F)|done].
  - by rewrite E0, (tf_next _ _ _ _ F).
  - by intros w p [H _]%Hw.
  - intros w [t' H%Ht]. exists t'. by eapply tf_shrink.
  - intros w p [_ Hn]%Hw [t' H]. exists t'. apply Ht. by eapply tf_keep.
Qed.

(** Who is runnable after a trigger. *)
Lemma apply_trigger_running t q p :
  qs_wf q → p ∈ running (apply_trigger t q) ↔
    p ∈ running_after t q ∨ ∃ w, waiting q !! w = Some p ∧ triggered t q w.
Proof.
  intros Hwf. pose proof (apply_trigger_nodup t q Hwf) as Hnd.
  destruct (has_form t q Hwf) as (ws & q0 & F). split.
  - intros Hp. assert (p ∈ procs (apply_trigger t q)) as Hin by (apply elem_of_procs; by left).
    rewrite (apply_trigger_procs t q Hwf), elem_of_app, list_elem_of_fmap in Hin.
    destruct Hin as [?|([w p'] & -> & Hw%elem_of_map_to_list)]; [by left|right; cbn in *].
    exists w. split; [done|]. rewrite <- (tf_ids _ _ _ _ F).
    destruct (decide (w ∈ ws)) as [|Hn]; [done|exfalso].
    rewrite (tf_ids _ _ _ _ F) in Hn.
    apply NoDup_app in Hnd as (_ & Hd & _). apply (Hd p' Hp), list_elem_of_fmap.
    exists (w, p'). split; [done|]. apply elem_of_map_to_list.
    by apply apply_trigger_waiting.
  - rewrite (tf_apply _ _ _ _ F). intros [Hp|(w & Hw & Ht)].
    + apply trigger_all_keeps_running. by rewrite (tf_running _ _ _ _ F).
    + apply (trigger_all_wakes _ _ w); [by rewrite (tf_waiting _ _ _ _ F)|].
      by apply (tf_ids _ _ _ _ F).
Qed.

End triggers.

(** ** Histories of the queues *)

Section history.
Context `{HO : HashOrder}.

Inductive qs_step : Queues → Queues → Prop :=
| step_give q pid s q' :
    pid ∉ procs q → Queues_give q pid s = Ret q' → qs_step q q'
| step_take q pid q' : Queues_take q = (Some pid, q') → qs_step q q'
| step_trigger q t : qs_step q (apply_trigger t q).

Inductive qs_reach : Queues → Prop :=
| qs_reach_new : qs_reach Queues_new
| qs_reach_step q q' : qs_reach q → qs_step q q' → qs_reach q'.

Lemma qs_new_wf : qs_wf Queues_new.
Proof.
  split; cbn.
  - by split.
  - by intros w p H.
  - intros w [[] H]; cbn in H; set_solver.
  - by intros w p H.
  - constructor.
  - constructor.
Qed.

Lemma take_procs q pid q' : Queues_take q = (Some pid, q') → procs q = pid :: procs q'.
Proof.
  unfold Queues_take, procs. destruct (running q) as [|p r]; intros; by simplify_eq/=.
Qed.

Lemma take_wf q pid q' : qs_wf q → Queues_take q = (Some pid, q') → qs_wf q'.
Proof.
  intros Hwf Ht. pose proof (take_procs _ _ _ Ht) as Hp. pose proof (qs_nodup _ Hwf) as Hnd.
  rewrite Hp in Hnd. apply NoDup_cons in Hnd as [_ Hnd].
  unfold Queues_take in Ht. destruct (running q) as [|p r]; simplify_eq/=.
  by apply (qs_wf_shrink q); [..|apply Hwf|].
Qed.

Lemma qs_reach_wf q : qs_reach q → qs_wf q.
Proof.
  induction 1 as [|q q' _ IH Hs]; [apply qs_new_wf|]. destruct Hs as [? ? ? ? Hn Hg|? ? ? Ht|].
  - by apply give_wf in Hg as [? _].
  - by eapply take_wf.
  - by apply apply_trigger_wf.
Qed.

End history.

#[global] Arguments procs : simpl never.
#[global] Arguments Queues_give : simpl never.

(** ** Interface to the code that raises events

    The IPC manager only needs these promises of the scheduler. *)

Class EventSink (S : Type) := {
  on_explicit_event : S → ExplicitEventId → S;
  runnable : S → ProcessId → Prop;
  blocked_on : S → ExplicitEventId → ProcessId → Prop;
}.

(** The promises hold in the states that satisfy [ok], and keep them there. *)
Class EventSinkLaws (S : Type) `{EventSink S} (ok : S → Prop) : Prop := {
  event_ok : ∀ s e, ok s → ok (on_explicit_event s e);
  event_wakes : ∀ s e p, ok s → blocked_on s e p → runnable (on_explicit_event s e) p;
  event_runnable : ∀ s e p, ok s → runnable s p → runnable (on_explicit_event s e) p;
  event_blocked : ∀ s e e' p, ok s → blocked_on s e' p →
    blocked_on (on_explicit_event s e) e' p ∨ runnable (on_explicit_event s e) p;
}.

#[global] Instance Queues_EventSink `{HO : HashOrder} : EventSink Queues := {|
  on_explicit_event := Queues_on_explicit_event;
  runnable q p := p ∈ running q;
  blocked_on q e p := ∃ w, waiting q !! w = Some p ∧ triggered (OnEvent e) q w;
|}.

#[global] Instance Queues_EventSinkLaws `{HO : HashOrder} : EventSinkLaws Queues qs_wf.
Proof.
  split; cbn.
  - intros q e. apply (apply_trigger_wf (OnEvent e)).
  - intros q e p Hwf (w & Hw & Ht). apply (apply_trigger_running (OnEvent e)); eauto.
  - intros q e p Hwf Hp. apply (apply_trigger_running (OnEvent e)); [done|by left].
  - intros q e e' p Hwf (w & Hw & Ht). destruct (wait_event q !! e) as [ws|] eqn:He.
    + destruct (decide (w ∈ ws)).
      * right. apply (apply_trigger_running (OnEvent e)); [done|]. right. exists w. cbn.
        split; [done|]. by exists ws.
      * left. exists w. split.
        { apply (apply_trigger_waiting (OnEvent e)); [done|]. cbn. naive_solver. }
        { apply (apply_trigger_keep (OnEvent e) (OnEvent e')); [done| |done]. cbn. naive_solver. }
    + left. exists w. unfold Queues_on_explicit_event. by rewrite He.
Qed.

(** ** Properties *)

(** In every history of the queues (processes given back while they are not queued, taken,
    and woken by ticks, terminations and events) no process is queued twice: a process that
    [take] returns is in no queue afterwards, and every process that is still blocked has a
    trigger that can wake it. *)
Theorem never_returned_twice `{HO : HashOrder} q pid q'
    (Hr : qs_reach q) (Ht : Queues_take q = (Some pid, q')) :
  NoDup (procs q) ∧ Queues_process_exists q' pid = false ∧
  (∀ w p, waiting q' !! w = Some p → ∃ t, triggered t q' w).
Proof.
  pose proof (qs_reach_wf q Hr) as Hwf. pose proof (take_wf _ _ _ Hwf Ht) as Hwf'.
  pose proof (qs_nodup _ Hwf) as Hnd. split_and!; [done| |apply (qs_registered _ Hwf')].
  rewrite (take_procs _ _ _ Ht) in Hnd. apply NoDup_cons in Hnd as [Hn _].
  destruct (Queues_process_exists q' pid) eqn:E; [|done].
  by apply process_exists_procs in E.
Qed.

Lemma never_returned_twice_witness :
  NoDup (procs (set_running [7] Queues_new)) ∧
  Queues_process_exists Queues_new 7 = false ∧
  (∀ w p, waiting Queues_new !! w = Some p → ∃ t, triggered t Queues_new w).
Proof.
  apply (never_returned_twice (set_running [7] Queues_new) 7 Queues_new).
  - eapply qs_reach_step; [apply qs_reach_new|].
    apply (step_give _ 7 WaitNone); [|reflexivity].
    rewrite elem_of_procs. intros [H|[w H]]; [by apply not_elem_of_nil in H|done].
  - reflexivity.
Defined.

(** A process given with condition [s] is runnable after a trigger exactly when the
    condition had already been met when it was given or the trigger satisfies one of its
    alternatives: no wake-up is lost, and none is spurious. *)
Theorem give_wakes_exactly `{HO : HashOrder} q pid s q' t
    (Hwf : qs_wf q) (Hpid : pid ∉ procs q) (Hg : Queues_give q pid s = Ret q')
    (Hne : s ≠ FirstOf []) (Ht : t ≠ OnOver pid) :
  pid ∈ running (apply_trigger t q') ↔
  WaitFor_reduce_queues s q pid = Ret WaitNone ∨ fires t s.
Proof.
  destruct (give_wf _ _ _ _ Hwf Hpid Hg) as [Hwf' _].
  destruct (give_cases _ _ _ _ Hwf Hg) as (s' & Hr & Htr & _ & Hcases).
  rewrite (apply_trigger_running _ _ _ Hwf'), Hr.
  assert (∀ l, pid ∈ match t with OnOver p => remove_first p l | _ => l end ↔ pid ∈ l) as Hra.
  { intros l. destruct t as [|p|]; [done| |done]. apply elem_of_remove_first_ne. congruence. }
  replace (running_after t q') with
    (match t with OnOver p => remove_first p (running q') | _ => running q' end)
    by (by destruct t).
  rewrite Hra. destruct Hcases as [(-> & Hrun & _)|(Hn & Hrun & _ & Hw)].
  { rewrite Hrun. set_solver. }
  assert (fires t s' ↔ fires t s) as <- by (by eapply fires_reduce_queues).
  rewrite Hrun, Hw. rewrite elem_of_procs in Hpid. split.
  - intros [?|(w & Hlk & Htw)]; [tauto|]. right.
    apply lookup_insert_Some in Hlk as [[<- _]|[_ Hlk]]; [|by exfalso; eauto].
    apply Htr in Htw as [Htw|?]; [|tauto].
    pose proof (qs_reg_ids _ Hwf _ (ex_intro _ t Htw)). lia.
  - intros [?|Hf]; [congruence|]. right. exists (next_waitid q).
    rewrite lookup_insert_eq. split; [done|]. apply Htr. by right.
Qed.

Lemma give_wakes_exactly_witness :
  9 ∈ running (apply_trigger (OnEvent 4)
    {| running := []; waiting := {[0 := 9]}; next_waitid := 1; wait_sleeping := [(50, 0)];
       wait_process := ∅; wait_event := {[4 := {[0]}]} |}) ↔
  WaitFor_reduce_queues (FirstOf [Event 4; Time 50]) Queues_new 9 = Ret WaitNone ∨
  fires (OnEvent 4) (FirstOf [Event 4; Time 50]).
Proof.
  apply (give_wakes_exactly Queues_new 9 (FirstOf [Event 4; Time 50])).
  - apply qs_new_wf.
  - rewrite elem_of_procs. intros [H|[w H]]; [by apply not_elem_of_nil in H|done].
  - vm_compute. reflexivity.
  - discriminate.
  - discriminate.
Defined.

(** Each trigger (clock tick, termination, event) is exact: the blocked processes that
    become runnable are those whose wait id it triggers, all others stay blocked under the same
    id, ticks and events lose no process, a termination removes only the completed process, and
    after a tick nothing due is left in the sleeping queue. *)
Theorem trigger_exact `{HO : HashOrder} t q (Hwf : qs_wf q) :
  let q' := apply_trigger t q in
  qs_wf q' ∧
  (∀ w p, waiting q' !! w = Some p ↔ waiting q !! w = Some p ∧ ¬ triggered t q w) ∧
  (∀ w p, waiting q !! w = Some p → triggered t q w → p ∈ running q') ∧
  match t with
  | OnOver p => ∀ p', p' ∈ procs q → p' ≠ p → p' ∈ procs q'
  | OnEvent _ => procs q' ≡ₚ procs q
  | OnTick now => procs q' ≡ₚ procs q ∧ ∀ x w, (x, w) ∈ wait_sleeping q' → now < x
  end.
Proof.
  cbn. split_and!.
  - by apply apply_trigger_wf.
  - intros w p. by apply apply_trigger_waiting.
  - intros w p ? ?. apply apply_trigger_running; eauto.
  - pose proof (apply_trigger_procs t q Hwf) as Hp. destruct t as [now|p|e]; [|clear Hp|done].
    + split; [done|]. intros x w. cbn. unfold Queues_on_tick.
      rewrite on_tick_loop_filter by (done || apply Hwf).
      destruct (trigger_all_tables (filter (λ x, x.1 ≤ now) (wait_sleeping q)).*2
        (set_sleeping (filter (λ x, now < x.1) (wait_sleeping q)) q)) as (_ & -> & _).
      by intros [? _]%list_elem_of_filter.
    + intros p' Hp' Hne. rewrite (apply_trigger_procs _ _ Hwf). revert Hp'. unfold procs.
      rewrite !elem_of_app. intros [?|?]; [left|by right]. cbn.
      by apply elem_of_remove_first_ne.
Qed.

Lemma trigger_exact_witness :
  let q' := apply_trigger (OnTick 5) Queues_new in
  qs_wf q' ∧
  (∀ w p, waiting q' !! w = Some p ↔
    waiting Queues_new !! w = Some p ∧ ¬ triggered (OnTick 5) Queues_new w) ∧
  (∀ w p, waiting Queues_new !! w = Some p → triggered (OnTick 5) Queues_new w →
    p ∈ running q') ∧
  procs q' ≡ₚ procs Queues_new ∧ ∀ x w, (x, w) ∈ wait_sleeping q' → 5 < x.
Proof. apply (trigger_exact (OnTick 5) Queues_new). apply qs_new_wf. Defined.

(** [reduce] accepts every non-empty list of plain alternatives, returns a condition in the
    form [give] accepts, and the result is met in exactly the same situations as the original:
    keeping only the earliest of several times changes nothing. *)
Theorem reduce_preserves_meaning l (Hne : l ≠ []) (Hl : Forall plain l) :
  ∃ w, WaitFor_reduce (FirstOf l) = Ret w ∧ reduced w ∧ w ≠ WaitNone ∧
    ∀ now completed fired,
      holds (λ t, t ≤ now) completed fired w ↔ holds (λ t, t ≤ now) completed fired (FirstOf l).
Proof.
  destruct (WaitFor_reduce_returns l Hl) as [w Hw]. exists w.
  assert (∀ due completed fired, (∀ t t', t ≤ t' → due t' → due t) →
    holds due completed fired w ↔ holds due completed fired (FirstOf l)) as Hh.
  { intros. eapply WaitFor_reduce_holds; [done|congruence|done]. }
  split_and!; [done|by eapply WaitFor_reduce_reduced| |intros; apply Hh; lia].
  intros ->. destruct (proj1 (holds_first_iff _ _ _ l)
    (proj1 (Hh (λ _, False) (λ _, False) (λ _, False) ltac:(done)) (holds_none _ _ _)))
    as (w & Hin & Hw'). rewrite Forall_forall in Hl. apply Hl in Hin.
  by destruct Hw'.
Qed.

Lemma reduce_preserves_meaning_witness :
  ∃ w, WaitFor_reduce (FirstOf [Time 5; Event 1; Time 3]) = Ret w ∧ reduced w ∧ w ≠ WaitNone ∧
    ∀ now completed fired,
      holds (λ t, t ≤ now) completed fired w ↔
      holds (λ t, t ≤ now) completed fired (FirstOf [Time 5; Event 1; Time 3]).
Proof.
  apply (reduce_preserves_meaning [Time 5; Event 1; Time 3]); [discriminate|].
  repeat constructor.
Defined.
