(* ===== verification/EventQueue.v ===== *)
(** * EventQueue: bounded message queues with a wake-up event (src/ipc/event_queue.rs)

    The refinement relates a queue to a bounded FIFO: the items accepted, in order, are the items
    popped followed by the items still stored. *)

From stdpp Require Import base gmap list strings.
From Stdlib Require Import ZArith Lia.
From S2P Require Import Prelude Abi Queues.
Open Scope Z_scope.

Record EventQueue (T : Type) := {
  queue : list T;
  event : option ExplicitEventId;
  limit : nat;
}.
Arguments queue {T} _.
Arguments event {T} _.
Arguments limit {T} _.

Section event_queue.
Context {T : Type}.
Implicit Types q : EventQueue T.

Definition EventQueue_new (limit : nat) : EventQueue T :=
  {| queue := []; event := None; limit := limit |}.

Definition EventQueue_is_empty (self : EventQueue T) : bool :=
  match queue self with [] => true | _ => false end.

Definition EventQueue_push (self : EventQueue T) (item : T)
    : result (option ExplicitEventId) unit * EventQueue T :=
  if (limit self <=? length (queue self))%nat then (Err tt, self)
  else (Ok (event self),
        {| queue := queue self ++ [item]; event := None; limit := limit self |}).

Definition EventQueue_pop (self : EventQueue T) : option T * EventQueue T :=
  match queue self with
  | [] => (None, self)
  | x :: rest => (Some x, {| queue := rest; event := event self; limit := limit self |})
  end.

Definition EventQueue_take_event (self : EventQueue T) : option ExplicitEventId * EventQueue T :=
  (event self, {| queue := queue self; event := None; limit := limit self |}).

Definition EventQueue_get_event (self : EventQueue T) (next_event : Z)
    : ExplicitEventId * EventQueue T * Z :=
  match event self with
  | Some e => (e, self, next_event)
  | None =>
      let (e, next_event) := WaitFor_new_event_id next_event in
      (e, {| queue := queue self; event := Some e; limit := limit self |}, next_event)
  end.

Definition EventQueue_pop_or_event (self : EventQueue T) (next_event : Z)
    : result T ExplicitEventId * EventQueue T * Z :=
  match EventQueue_pop self with
  | (Some x, q) => (Ok x, q, next_event)
  | (None, q) =>
      let '(e, q, next_event) := EventQueue_get_event q next_event in
      (Err e, q, next_event)
  end.

Definition EventQueue_wait_for (self : EventQueue T) (next_event : Z)
    : WaitFor * EventQueue T * Z :=
  if EventQueue_is_empty self then
    let '(e, q, next_event) := EventQueue_get_event self next_event in
    (Event e, q, next_event)
  else (WaitNone, self, next_event).

Definition EventQueue_into_iter (self : EventQueue T) : list T := queue self.

(** ** Invariant *)

(** An event is armed only while the queue is empty. *)
Record eq_wf q : Prop := {
  eq_bound : (length (queue q) ≤ limit q)%nat;
  eq_armed : ∀ e, event q = Some e → queue q = [];
}.

Lemma eq_new_wf n : eq_wf (EventQueue_new n).
Proof. split; cbn; [lia|done]. Qed.

Lemma push_spec q x :
  eq_wf q →
  match EventQueue_push q x with
  | (Ok e, q') => queue q' = queue q ++ [x] ∧ e = event q ∧ event q' = None ∧
      limit q' = limit q ∧ eq_wf q'
  | (Err _, q') => q' = q ∧ (limit q ≤ length (queue q))%nat
  end.
Proof.
  intros Hwf. unfold EventQueue_push.
  destruct (Nat.leb_spec (limit q) (length (queue q))); [done|]. split_and!; try done.
  split; cbn; [rewrite length_app; cbn; lia|done].
Qed.

Lemma get_event_spec q n :
  queue q = [] → eq_wf q →
  ∃ e q' n', EventQueue_get_event q n = (e, q', n') ∧ queue q' = [] ∧ event q' = Some e ∧
    limit q' = limit q ∧ eq_wf q'.
Proof.
  intros Hq Hwf. unfold EventQueue_get_event. destruct (event q) as [e|] eqn:He.
  - by exists e, q, n.
  - eexists _, _, _. split; [reflexivity|]. split_and!; try done.
    split; cbn; rewrite ?Hq; cbn; [lia|done].
Qed.

Lemma pop_or_event_spec q n :
  eq_wf q →
  match EventQueue_pop_or_event q n with
  | (Ok x, q', n') => queue q = x :: queue q' ∧ limit q' = limit q ∧ event q' = None ∧
      event q = None ∧ n' = n ∧ eq_wf q'
  | (Err e, q', _) => queue q = [] ∧ queue q' = [] ∧ event q' = Some e ∧ limit q' = limit q ∧
      eq_wf q'
  end.
Proof.
  intros Hwf. unfold EventQueue_pop_or_event, EventQueue_pop.
  destruct (queue q) as [|x r] eqn:Hq.
  - destruct (get_event_spec q n Hq Hwf) as (e & q' & n' & -> & ?). tauto.
  - assert (event q = None) as He.
    { destruct (event q) eqn:E; [|done]. by rewrite (eq_armed _ Hwf _ E) in Hq. }
    cbn. rewrite He. split_and!; try done. pose proof (eq_bound _ Hwf). rewrite Hq in *.
    split; cbn in *; [lia|done].
Qed.

Lemma wait_for_spec q n :
  eq_wf q →
  match EventQueue_wait_for q n with
  | (WaitNone, q', n') => q' = q ∧ n' = n ∧ queue q ≠ []
  | (Event e, q', _) => queue q = [] ∧ queue q' = [] ∧ event q' = Some e ∧
      limit q' = limit q ∧ eq_wf q'
  | _ => False
  end.
Proof.
  intros Hwf. unfold EventQueue_wait_for, EventQueue_is_empty.
  destruct (queue q) as [|x r] eqn:Hq; [|done].
  destruct (get_event_spec q n Hq Hwf) as (e & q' & n' & -> & ?). tauto.
Qed.

(** ** Refinement of a bounded FIFO *)

Inductive eq_call := CPush (x : T) | CPop | CWait.

(** One call: the accepted item, the popped item and the raised event, if any. *)
Definition eq_run (c : eq_call) (st : EventQueue T * Z)
    : option T * option T * option ExplicitEventId * (EventQueue T * Z) :=
  let (q, n) := st in
  match c with
  | CPush x =>
      match EventQueue_push q x with
      | (Ok e, q) => (Some x, None, e, (q, n))
      | (Err _, q) => (None, None, None, (q, n))
      end
  | CPop =>
      let '(r, q, n) := EventQueue_pop_or_event q n in
      (None, match r with Ok x => Some x | Err _ => None end, None, (q, n))
  | CWait => let '(_, q, n) := EventQueue_wait_for q n in (None, None, None, (q, n))
  end.

Fixpoint eq_trace (cs : list eq_call) (st : EventQueue T * Z)
    : list T * list T * (EventQueue T * Z) :=
  match cs with
  | [] => ([], [], st)
  | c :: cs =>
      let '(i, o, _, st) := eq_run c st in
      let '(ins, outs, st) := eq_trace cs st in
      (option_list i ++ ins, option_list o ++ outs, st)
  end.

Lemma eq_run_fifo c q n :
  eq_wf q →
  let '(i, o, _, (q', _)) := eq_run c (q, n) in
  queue q ++ option_list i = option_list o ++ queue q' ∧ limit q' = limit q ∧ eq_wf q'.
Proof.
  intros Hwf. destruct c as [x| |]; cbn.
  - pose proof (push_spec q x Hwf) as H. destruct (EventQueue_push q x) as [[e|] q']; cbn.
    + naive_solver.
    + destruct H as [-> _]. by rewrite app_nil_r.
  - pose proof (pop_or_event_spec q n Hwf) as H.
    destruct (EventQueue_pop_or_event q n) as [[[x|e] q'] n']; cbn.
    + destruct H as (-> & ? & _ & _ & _ & ?). by rewrite app_nil_r.
    + destruct H as (-> & -> & _ & ? & ?). done.
  - pose proof (wait_for_spec q n Hwf) as H.
    destruct (EventQueue_wait_for q n) as [[[] q'] n']; try done.
    + destruct H as (-> & _). by rewrite app_nil_r.
    + destruct H as (-> & -> & _ & ? & ?). done.
Qed.

Lemma eq_trace_fifo cs q n :
  eq_wf q →
  let '(ins, outs, (q', _)) := eq_trace cs (q, n) in
  queue q ++ ins = outs ++ queue q' ∧ limit q' = limit q ∧ eq_wf q'.
Proof.
  revert q n. induction cs as [|c cs IH]; intros q n Hwf; cbn [eq_trace];
    [by rewrite app_nil_r|].
  pose proof (eq_run_fifo c q n Hwf) as H. destruct (eq_run c (q, n)) as [[[i o] e] [q1 n1]].
  destruct H as (H & Hl & Hwf1). pose proof (IH q1 n1 Hwf1) as H'.
  destruct (eq_trace cs (q1, n1)) as [[ins outs] [q2 n2]]. destruct H' as (H' & Hl' & Hwf2).
  split_and!; [|congruence|done].
  by rewrite (assoc_L (++)), H, <- (assoc_L (++)), H', (assoc_L (++)).
Qed.

End event_queue.
Arguments eq_call : clear implicits.

(** ** Properties *)

(** An [EventQueue] is a bounded FIFO: over any sequence of pushes, pops and waits from a
    new queue, the accepted items are, in order, those popped followed by those still stored,
    and never more than the limit are stored; a consumer that was told to wait is signalled by
    the next push, which is accepted and returns exactly the armed event. *)
Theorem event_queue_fifo {T} (cs : list (eq_call T)) lim n (Hlim : (0 < lim)%nat) :
  let '(accepted, popped, (q, n')) := eq_trace cs (EventQueue_new lim, n) in
  accepted = popped ++ queue q ∧ (length (queue q) ≤ lim)%nat ∧
  ∀ e, event q = Some e → ∀ x,
    EventQueue_push q x = (Ok (Some e), {| queue := [x]; event := None; limit := lim |}).
Proof.
  pose proof (eq_trace_fifo cs (EventQueue_new lim) n (eq_new_wf lim)) as H.
  destruct (eq_trace cs (EventQueue_new lim, n)) as [[ins outs] [q n']].
  destruct H as (H & Hl & Hwf). cbn in H, Hl. split_and!; [done|by rewrite <- Hl; apply Hwf|].
  intros e He x. unfold EventQueue_push. rewrite (eq_armed _ Hwf e He), Hl, He.
  by destruct lim; [lia|].
Qed.

Lemma event_queue_fifo_witness :
  let '(accepted, popped, (q, n')) :=
    eq_trace [CPush 1; CPush 2; CPop; CPush 3; CPop; CWait] (EventQueue_new 2, 0) in
  accepted = popped ++ queue q ∧ (length (queue q) ≤ 2)%nat ∧
  ∀ e, event q = Some e → ∀ x,
    EventQueue_push q x = (Ok (Some e), {| queue := [x]; event := None; limit := 2 |}).
Proof.
  apply (event_queue_fifo [CPush 1; CPush 2; CPop; CPush 3; CPop; CWait] 2 0). lia.
Defined.
