(* ===== verification/Ipc.v ===== *)
(** * Ipc: the IPC manager and the kernel services
    (src/ipc/result.rs, src/ipc/mod.rs, src/services/mod.rs, src/services/initrd.rs,
    src/initrd.rs)

    The global event counter is threaded through the operations that may create an event.  The
    serialiser [pinecone] is a parameter; the scheduler is any [EventSink]. *)

From stdpp Require Import base gmap list strings.
From Stdlib Require Import ZArith Lia.
From S2P Require Import Prelude Abi Topic SubscriptionList Queues EventQueue.
Open Scope Z_scope.

(** ** Results *)

Inductive SubscriptionError := Exclusion.
Inductive DeliveryError := NoSubscriber | QueueFull | NegativeAcknowledgement.
Inductive PermissionError := NotOwner | NoAccess.

Inductive IpcError :=
| InvalidTopic
| Unsubscribed
| ReAcknowledge
| PipeReserved
| PipeSenderTerminated
| Subscription (e : SubscriptionError)
| Delivery (e : DeliveryError)
| Permission (e : PermissionError).

#[global] Instance DeliveryError_eq_dec : EqDecision DeliveryError.
Proof. solve_decision. Defined.

Definition SubscriptionError_code (e : SubscriptionError) : SyscallErrorCode :=
  match e with Exclusion => ipc_filter_exclusion end.

Definition DeliveryError_code (e : DeliveryError) : SyscallErrorCode :=
  match e with
  | NoSubscriber => ipc_delivery_no_target
  | QueueFull => ipc_delivery_target_full
  | NegativeAcknowledgement => ipc_delivery_target_nack
  end.

Definition PermissionError_code (e : PermissionError) : SyscallErrorCode := ipc_permission_error.

Definition IpcError_code (e : IpcError) : SyscallErrorCode :=
  match e with
  | InvalidTopic => ipc_invalid_topic
  | Unsubscribed => ipc_unsubscribed
  | ReAcknowledge => ipc_re_acknowledge
  | PipeReserved => ipc_pipe_reserved
  | PipeSenderTerminated => ipc_pipe_sender_terminated
  | Subscription e => SubscriptionError_code e
  | Delivery e => DeliveryError_code e
  | Permission e => PermissionError_code e
  end.

Record IpcResult (A : Type) := MkIpcResult {
  ipc_value : result A IpcError;
  ipc_events : gset ExplicitEventId;
}.
Arguments MkIpcResult {A} _ _.
Arguments ipc_value {A} _.
Arguments ipc_events {A} _.

Definition IpcResult_new {A} (v : result A IpcError) : IpcResult A := MkIpcResult v ∅.
Definition IpcResult_success {A} (v : A) : IpcResult A := MkIpcResult (Ok v) ∅.
Definition IpcResult_error {A} (e : IpcError) : IpcResult A := MkIpcResult (Err e) ∅.
Definition IpcResult_with_event {A} (self : IpcResult A) (e : ExplicitEventId) : IpcResult A :=
  MkIpcResult (ipc_value self) ({[e]} ∪ ipc_events self).
Definition IpcResult_with_events {A} (self : IpcResult A) (es : gset ExplicitEventId)
    : IpcResult A :=
  MkIpcResult (ipc_value self) (es ∪ ipc_events self).
Definition IpcResult_map {A B} (f : A → B) (self : IpcResult A) : IpcResult B :=
  MkIpcResult (result_map f (ipc_value self)) (ipc_events self).

Section consume.
Context `{HO : HashOrder} {S : Type} `{!EventSink S}.

Definition IpcResult_consume_events {A} (self : IpcResult A) (sched : S)
    : result A IpcError * S :=
  (ipc_value self, foldl on_explicit_event sched (hash_order (ipc_events self))).

End consume.

(** ** Mailboxes *)

Inductive PipeMode := PipeNone | NotConnected | ConnectedTo (pid : ProcessId) | Disconnected.

#[global] Instance PipeMode_eq_dec : EqDecision PipeMode.
Proof. solve_decision. Defined.

Definition MAILBOX_BUFFER_LIMIT : nat := 100.

Record Mailbox := { mb_queue : EventQueue Message; pipe_mode : PipeMode }.

Definition Mailbox_new (pipe_mode : PipeMode) : Mailbox :=
  {| mb_queue := EventQueue_new MAILBOX_BUFFER_LIMIT; pipe_mode := pipe_mode |}.

Definition set_pipe_mode (p : PipeMode) (mb : Mailbox) : Mailbox :=
  {| mb_queue := mb_queue mb; pipe_mode := p |}.
Definition set_mb_queue (q : EventQueue Message) (mb : Mailbox) : Mailbox :=
  {| mb_queue := q; pipe_mode := pipe_mode mb |}.

Definition Mailbox_push_unreliable (self : Mailbox) (message : Message)
    : outcome (option ExplicitEventId * Mailbox) :=
  _ ← rassert (bool_decide (pipe_mode self = PipeNone)) "matches!(self.pipe_mode, PipeMode::None)";
  let (r, q) := EventQueue_push (mb_queue self) message in
  Ret (match r with Ok v => v | Err _ => None end, set_mb_queue q self).

Definition Mailbox_push_reliable (self : Mailbox) (message : Message)
    : outcome (result (option ExplicitEventId) DeliveryError * Mailbox) :=
  _ ← rassert (negb (bool_decide (pipe_mode self = NotConnected)))
        "!matches!(self.pipe_mode, PipeMode::NotConnected)";
  let (r, q) := EventQueue_push (mb_queue self) message in
  Ret (match r with Ok v => Ok v | Err _ => Err QueueFull end, set_mb_queue q self).

Definition Mailbox_pop_or_event (self : Mailbox) (next_event : Z)
    : result Message ExplicitEventId * Mailbox * Z :=
  let '(r, q, n) := EventQueue_pop_or_event (mb_queue self) next_event in
  (r, set_mb_queue q self, n).

(** ** The manager *)

Inductive Deliver := DeliverProcess (e : ExplicitEventId) | DeliverKernel.

Record Manager := {
  subscriptions : SubscriptionList;
  mailboxes : gmap SubscriptionId (option Mailbox);
  waiting_for_delivery : gmap AcknowledgeId (ExplicitEventId * ProcessId);
  delivery_result : gmap ProcessId (result unit DeliveryError);
  next_acknowledge_id : AcknowledgeId;
  process_subscriptions : gmap ProcessId (gset SubscriptionId);
}.

Definition Manager_new : Manager :=
  {| subscriptions := SubscriptionList_new; mailboxes := ∅; waiting_for_delivery := ∅;
     delivery_result := ∅; next_acknowledge_id := 0; process_subscriptions := ∅ |}.

Definition set_subscriptions (l : SubscriptionList) (m : Manager) : Manager :=
  {| subscriptions := l; mailboxes := mailboxes m;
     waiting_for_delivery := waiting_for_delivery m; delivery_result := delivery_result m;
     next_acknowledge_id := next_acknowledge_id m;
     process_subscriptions := process_subscriptions m |}.
Definition set_mailboxes (b : gmap SubscriptionId (option Mailbox)) (m : Manager) : Manager :=
  {| subscriptions := subscriptions m; mailboxes := b;
     waiting_for_delivery := waiting_for_delivery m; delivery_result := delivery_result m;
     next_acknowledge_id := next_acknowledge_id m;
     process_subscriptions := process_subscriptions m |}.
Definition set_waiting_for_delivery (w : gmap AcknowledgeId (ExplicitEventId * ProcessId))
    (m : Manager) : Manager :=
  {| subscriptions := subscriptions m; mailboxes := mailboxes m;
     waiting_for_delivery := w; delivery_result := delivery_result m;
     next_acknowledge_id := next_acknowledge_id m;
     process_subscriptions := process_subscriptions m |}.
Definition set_delivery_result (d : gmap ProcessId (result unit DeliveryError)) (m : Manager)
    : Manager :=
  {| subscriptions := subscriptions m; mailboxes := mailboxes m;
     waiting_for_delivery := waiting_for_delivery m; delivery_result := d;
     next_acknowledge_id := next_acknowledge_id m;
     process_subscriptions := process_subscriptions m |}.
Definition set_next_acknowledge_id (a : AcknowledgeId) (m : Manager) : Manager :=
  {| subscriptions := subscriptions m; mailboxes := mailboxes m;
     waiting_for_delivery := waiting_for_delivery m; delivery_result := delivery_result m;
     next_acknowledge_id := a; process_subscriptions := process_subscriptions m |}.
Definition set_process_subscriptions (p : gmap ProcessId (gset SubscriptionId)) (m : Manager)
    : Manager :=
  {| subscriptions := subscriptions m; mailboxes := mailboxes m;
     waiting_for_delivery := waiting_for_delivery m; delivery_result := delivery_result m;
     next_acknowledge_id := next_acknowledge_id m; process_subscriptions := p |}.

(** [*mailboxes.get_mut(&sub) = Some(mb)] *)
Definition put_mailbox (sub : SubscriptionId) (mb : Mailbox) (m : Manager) : Manager :=
  set_mailboxes (<[sub := Some mb]> (mailboxes m)) m.

Definition Manager_process_owns (self : Manager) (pid : ProcessId) (sub : SubscriptionId) : bool :=
  match process_subscriptions self !! pid with
  | Some subs => bool_decide (sub ∈ subs)
  | None => false
  end.

Definition Manager_verify_process_owns (self : Manager) (pid : ProcessId) (sub : SubscriptionId)
    : result unit PermissionError :=
  if Manager_process_owns self pid sub then Ok tt else Err NotOwner.

Definition Manager_subscribe (self : Manager) (pid : ProcessId) (filter : TopicFilter)
    (reliable pipe : bool) : result SubscriptionId SubscriptionError * Manager :=
  match SubscriptionList_insert (subscriptions self) filter reliable with
  | (Some id, l) =>
      let m := set_subscriptions l self in
      let m := put_mailbox id (Mailbox_new (if pipe then NotConnected else PipeNone)) m in
      let old := default ∅ (process_subscriptions m !! pid) in
      (Ok id,
       set_process_subscriptions (<[pid := {[id]} ∪ old]> (process_subscriptions m)) m)
  | (None, l) => (Err Exclusion, set_subscriptions l self)
  end.

Definition Manager_kernel_subscribe (self : Manager) (filter : TopicFilter)
    : result SubscriptionId SubscriptionError * Manager :=
  match SubscriptionList_insert (subscriptions self) filter true with
  | (Some id, l) =>
      let m := set_subscriptions l self in
      (Ok id, set_mailboxes (<[id := None]> (mailboxes m)) m)
  | (None, l) => (Err Exclusion, set_subscriptions l self)
  end.

(** The loop of [_force_unsubscribe] over the queued messages. *)
Fixpoint release_loop (msgs : list Message) (self : Manager) (events : gset ExplicitEventId)
    : outcome (gset ExplicitEventId * Manager) :=
  match msgs with
  | [] => Ret (events, self)
  | msg :: msgs =>
      match ack_id msg with
      | Some a =>
          '(ev, pid) ← unwrap (waiting_for_delivery self !! a);
          let m := set_waiting_for_delivery (delete a (waiting_for_delivery self)) self in
          let m := set_delivery_result (<[pid := Err NoSubscriber]> (delivery_result m)) m in
          release_loop msgs m ({[ev]} ∪ events)
      | None => release_loop msgs self events
      end
  end.

Definition Manager__force_unsubscribe (self : Manager) (subscription : SubscriptionId)
    : outcome (IpcResult unit * Manager) :=
  let m := set_subscriptions (SubscriptionList_remove (subscriptions self) subscription) self in
  o ← unwrap (mailboxes m !! subscription);
  let m := set_mailboxes (delete subscription (mailboxes m)) m in
  mailbox ← expect o "Kernel cannot unsubscribe";
  '(events, m) ← release_loop (EventQueue_into_iter (mb_queue mailbox)) m ∅;
  Ret (IpcResult_with_events (IpcResult_success tt) events, m).

Definition Manager_unsubscribe (self : Manager) (pid : ProcessId) (subscription : SubscriptionId)
    : outcome (IpcResult unit * Manager) :=
  match Manager_verify_process_owns self pid subscription with
  | Err e => Ret (IpcResult_error (Permission e), self)
  | Ok _ =>
      subs ← unwrap (process_subscriptions self !! pid);
      let m := set_process_subscriptions
        (<[pid := subs ∖ {[subscription]}]> (process_subscriptions self)) self in
      Manager__force_unsubscribe m subscription
  end.

(** [self.mailboxes.get_mut(&sub).unwrap().as_mut().expect(msg)] *)
Definition mailbox_mut (self : Manager) (sub : SubscriptionId) (msg : string) : outcome Mailbox :=
  o ← unwrap (mailboxes self !! sub); expect o msg.

Section operations.
Context `{HO : HashOrder}.

(** The loop of [publish] over the subscriptions. *)
Fixpoint publish_loop (subs : list SubscriptionId) (self : Manager) (t : Topic)
    (data : list byte) (events : gset ExplicitEventId)
    : outcome (gset ExplicitEventId * Manager) :=
  match subs with
  | [] => Ret (events, self)
  | sub :: subs =>
      mailbox ← mailbox_mut self sub "Cannot send unreliable messages to the kernel";
      '(ev, mailbox) ← Mailbox_push_unreliable mailbox
        {| topic := topic_str t; data := data; ack_id := None |};
      publish_loop subs (put_mailbox sub mailbox self) t data
        (match ev with Some e => {[e]} ∪ events | None => events end)
  end.

Definition Manager_publish (self : Manager) (t : Topic) (data : list byte)
    : outcome (IpcResult unit * Manager) :=
  '(events, m) ← publish_loop
    (hash_order (SubscriptionList_find_all (subscriptions self) t false)) self t data ∅;
  Ret (IpcResult_with_events (IpcResult_success tt) events, m).

Definition trigger_set (trigger : option ExplicitEventId) : gset ExplicitEventId :=
  match trigger with Some e => {[e]} | None => ∅ end.

(** The guard shared by the reliable deliveries: [None] when nobody subscribes, the only
    subscriber otherwise. *)
Definition reliable_target (self : Manager) (t : Topic) : outcome (option SubscriptionId) :=
  let all := SubscriptionList_find_all (subscriptions self) t true in
  let count := size all in
  if (count =? 0)%nat then Ret None
  else
    _ ← rassert (count =? 1)%nat "Multiple targets selected for reliable delivery";
    sub ← unwrap (head (hash_order all));
    Ret (Some sub).

(** The pipe check of [deliver]: the new mode, or the error. *)
Definition pipe_accept (mode : PipeMode) (pid : ProcessId) : result PipeMode IpcError :=
  match mode with
  | PipeNone => Ok PipeNone
  | NotConnected => Ok (ConnectedTo pid)
  | ConnectedTo c_pid => if negb (c_pid =? pid) then Err PipeReserved else Ok (ConnectedTo c_pid)
  | Disconnected => Err PipeReserved
  end.

(** [deliver] to a mailbox of a process. *)
Definition deliver_process (self : Manager) (pid : ProcessId) (sub : SubscriptionId)
    (mailbox : Mailbox) (message : Message) (a : AcknowledgeId) (next_event : Z)
    : outcome (IpcResult Deliver * Manager * Z) :=
  match pipe_accept (pipe_mode mailbox) pid with
  | Err e => Ret (IpcResult_error e, self, next_event)
  | Ok mode =>
      '(r, mailbox) ← Mailbox_push_reliable (set_pipe_mode mode mailbox) message;
      let m := put_mailbox sub mailbox self in
      match r with
      | Ok trigger =>
          let (sender_wakeup_id, next_event) := WaitFor_new_event_id next_event in
          let m := set_waiting_for_delivery
            (<[a := (sender_wakeup_id, pid)]> (waiting_for_delivery m)) m in
          Ret (IpcResult_with_events (IpcResult_success (DeliverProcess sender_wakeup_id))
                 (trigger_set trigger), m, next_event)
      | Err error => Ret (IpcResult_error (Delivery error), m, next_event)
      end
  end.

Definition Manager_deliver_reply (self : Manager) (pid : ProcessId) (t : Topic)
    (data : list byte) : outcome (IpcResult unit * Manager) :=
  target ← reliable_target self t;
  match target with
  | None => Ret (IpcResult_error (Delivery NoSubscriber), self)
  | Some sub =>
      o ← unwrap (mailboxes self !! sub);
      match o with
      | Some mailbox =>
          _ ← rassert (bool_decide (pipe_mode mailbox = PipeNone))
                "TODO: Error: reply to pipe not allowed";
          '(r, mailbox) ← Mailbox_push_reliable mailbox
            {| topic := topic_str t; data := data; ack_id := None |};
          let m := put_mailbox sub mailbox self in
          match r with
          | Ok trigger =>
              Ret (IpcResult_with_events (IpcResult_success tt) (trigger_set trigger), m)
          | Err error => Ret (IpcResult_error (Delivery error), m)
          end
      | None => Panic "Cannot deliver_reply to the kernel"
      end
  end.

(** [encoded] is the outcome of the serialiser on the reply data. *)
Definition Manager_kernel_deliver_reply (self : Manager) (t : Topic)
    (encoded : option (list byte)) : outcome (result unit DeliveryError * Manager) :=
  target ← reliable_target self t;
  match target with
  | None => Ret (Err NoSubscriber, self)
  | Some sub =>
      let m := set_next_acknowledge_id (AcknowledgeId_next (next_acknowledge_id self)) self in
      mailbox ← mailbox_mut m sub "Kernel cannot reply to itself";
      _ ← rassert (bool_decide (pipe_mode mailbox = PipeNone))
            "matches!(mailbox.pipe_mode, PipeMode::None)";
      d ← unwrap encoded;
      '(r, mailbox) ← Mailbox_push_reliable mailbox
        {| topic := topic_str t; data := d; ack_id := None |};
      let m := put_mailbox sub mailbox m in
      match r with
      | Err e => Ret (Err e, m)
      | Ok trigger =>
          _ ← rassert (bool_decide (trigger = None))
                "Kernel reply delivery must not cause events";
          Ret (Ok tt, m)
      end
  end.

Definition Manager_delivery_complete (self : Manager) (pid : ProcessId) : bool :=
  bool_decide (is_Some (delivery_result self !! pid)).

Definition Manager_after_delivery (self : Manager) (pid : ProcessId)
    : outcome (IpcResult unit * Manager) :=
  r ← expect (delivery_result self !! pid) "No such delivery in after_delivery";
  let m := set_delivery_result (delete pid (delivery_result self)) self in
  Ret (match r with
       | Ok _ => IpcResult_success tt
       | Err e => IpcResult_error (Delivery e)
       end, m).

Definition Manager_waiting_for (self : Manager) (subscription : SubscriptionId) (next_event : Z)
    : outcome (WaitFor * Manager * Z) :=
  o ← expect (mailboxes self !! subscription)
        "Attempt to check_available from an unsubscribed topic";
  mailbox ← expect o "The kernel cannot manually check for events";
  let '(w, q, n) := EventQueue_wait_for (mb_queue mailbox) next_event in
  Ret (w, put_mailbox subscription (set_mb_queue q mailbox) self, n).

Definition Manager_receive (self : Manager) (pid : ProcessId) (subscription : SubscriptionId)
    (next_event : Z) : outcome (IpcResult (result Message ExplicitEventId) * Manager * Z) :=
  match Manager_verify_process_owns self pid subscription with
  | Err e => Ret (IpcResult_error (Permission e), self, next_event)
  | Ok _ =>
      match mailboxes self !! subscription with
      | None => Ret (IpcResult_error Unsubscribed, self, next_event)
      | Some o =>
          mailbox ← expect o "The kernel cannot manually receive events";
          let '(r, mailbox, n) := Mailbox_pop_or_event mailbox next_event in
          Ret (IpcResult_success r, put_mailbox subscription mailbox self, n)
      end
  end.

Definition Manager_acknowledge (self : Manager) (_subscription : SubscriptionId)
    (a : AcknowledgeId) (positive : bool) : outcome (IpcResult unit * Manager) :=
  '(ev, pid) ← expect (waiting_for_delivery self !! a) "Attempt to re-acknowledge a message";
  let m := set_waiting_for_delivery (delete a (waiting_for_delivery self)) self in
  let m := set_delivery_result
    (<[pid := if positive then Ok tt else Err NegativeAcknowledgement]> (delivery_result m)) m in
  Ret (IpcResult_with_event (IpcResult_success tt) ev, m).

(** ** Process termination and kernel publishing *)

Section scheduler.
Context {S : Type} `{!EventSink S}.

(** The loop over the subscriptions of the process. *)
Fixpoint unsubscribe_loop (subs : list SubscriptionId) (self : Manager) (sched : S)
    : outcome (Manager * S) :=
  match subs with
  | [] => Ret (self, sched)
  | sub :: subs =>
      '(r, m) ← Manager__force_unsubscribe self sub;
      let (v, sched) := IpcResult_consume_events r sched in
      match v with
      | Ok _ => unsubscribe_loop subs m sched
      | Err _ => Panic "called `Result::unwrap()` on an `Err` value"
      end
  end.

(** The body of the loop over the mailboxes, for one of them. *)
Definition disconnect (sub : SubscriptionId) (self : Manager) (sched : S) (pid : ProcessId)
    : Manager * S :=
  match mailboxes self !! sub with
  | Some (Some mailbox) =>
      if bool_decide (pipe_mode mailbox = ConnectedTo pid) then
        let mailbox := set_pipe_mode Disconnected mailbox in
        let (ev, q) := EventQueue_take_event (mb_queue mailbox) in
        (put_mailbox sub (set_mb_queue q mailbox) self,
         match ev with Some e => on_explicit_event sched e | None => sched end)
      else (self, sched)
  | _ => (self, sched)
  end.

Fixpoint disconnect_loop (subs : list SubscriptionId) (self : Manager) (sched : S)
    (pid : ProcessId) : Manager * S :=
  match subs with
  | [] => (self, sched)
  | sub :: subs =>
      let (m, sched) := disconnect sub self sched pid in
      disconnect_loop subs m sched pid
  end.

Definition Manager_on_process_over (self : Manager) (sched : S) (pid : ProcessId)
    : outcome (Manager * S) :=
  '(m, sched) ← match process_subscriptions self !! pid with
    | Some subs =>
        unsubscribe_loop (hash_order subs)
          (set_process_subscriptions (delete pid (process_subscriptions self)) self) sched
    | None => Ret (self, sched)
    end;
  Ret (disconnect_loop (hash_order (dom (mailboxes m))) m sched pid).

(** [encoded] is the outcome of the serialiser on the message. *)
Definition kernel_publish (self : Manager) (sched : S) (name : string)
    (encoded : option (list byte)) : outcome (Manager * S) :=
  data ← unwrap encoded;
  t ← expect (Topic_new name) "Invalid topic name";
  '(r, m) ← Manager_publish self t data;
  let (v, sched) := IpcResult_consume_events r sched in
  match v with Ok _ => Ret (m, sched) | Err _ => Panic "Publish failed" end.

End scheduler.

(** ** Kernel services *)

Record FileEntry := { file_name : string; file_size : Z; file_offset : Z }.

Record InitRD := { files : gmap string FileEntry; slice : list byte }.

(** [&rd.slice[start..start + len]], with its bound check. *)
Definition initrd_read (rd : InitRD) (name : string) : outcome (option (list byte)) :=
  match files rd !! name with
  | None => Ret None
  | Some entry =>
      let start := file_offset entry in
      let len := file_size entry in
      stop ← add64 start len;
      _ ← rassert (stop <=? Z.of_nat (length (slice rd))) "range end index out of range";
      Ret (Some (take (Z.to_nat len) (drop (Z.to_nat start) (slice rd))))
  end.

(** The serialiser, at the types the services use. *)
Class Pinecone := {
  pinecone_from_bytes : list byte → option (string * string);
  pinecone_to_vec : list byte → option (list byte);
}.

Context `{PC : Pinecone} (rd : InitRD).

(** The functions a kernel subscription can be registered with. *)
Inductive Service := InitrdRead.

Definition services_initrd_read (manager : Manager) (pid : ProcessId) (message : Message)
    : outcome (result unit DeliveryError * Manager) :=
  '(reply_to, path) ← expect (pinecone_from_bytes (data message))
    "Invalid message: TODO: just reply client error";
  match Topic_new reply_to with
  | None => Ret (Err NegativeAcknowledgement, manager)
  | Some reply_to =>
      d ← initrd_read rd path;
      match d with
      | None => Ret (Err NegativeAcknowledgement, manager)
      | Some d => Manager_kernel_deliver_reply manager reply_to (pinecone_to_vec d)
      end
  end.

Definition run_service (s : Service) :=
  match s with InitrdRead => services_initrd_read end.

Definition services_incoming (services : gmap SubscriptionId Service) (manager : Manager)
    (pid : ProcessId) (sub : SubscriptionId) (message : Message)
    : outcome (IpcResult unit * Manager) :=
  service ← expect (services !! sub) "No such subscription for the kernel services";
  _ ← expect (ack_id message) "Incoming messages must be reliable";
  '(r, m) ← run_service service manager pid
    {| topic := topic message; data := data message; ack_id := None |};
  Ret (IpcResult_new (match r with Ok u => Ok u | Err e => Err (Delivery e) end), m).

Definition services_register (services : gmap SubscriptionId Service) (manager : Manager)
    (filter : TopicFilter) (service : Service)
    : outcome (gmap SubscriptionId Service * Manager) :=
  match Manager_kernel_subscribe manager filter with
  | (Ok sub, m) => Ret (<[sub := service]> services, m)
  | (Err _, _) => Panic "Could not register a service"
  end.

Definition services_register_exact (services : gmap SubscriptionId Service) (manager : Manager)
    (filter : string) (service : Service) : outcome (gmap SubscriptionId Service * Manager) :=
  f ← expect (TopicFilter_try_new filter true) "Invalid filter";
  services_register services manager f service.

Definition services_init (services : gmap SubscriptionId Service) (manager : Manager)
    : outcome (gmap SubscriptionId Service * Manager) :=
  services_register_exact services manager "initrd/read" InitrdRead.

Definition Manager_deliver (services : gmap SubscriptionId Service) (self : Manager)
    (pid : ProcessId) (t : Topic) (data : list byte) (next_event : Z)
    : outcome (IpcResult Deliver * Manager * Z) :=
  target ← reliable_target self t;
  match target with
  | None => Ret (IpcResult_error (Delivery NoSubscriber), self, next_event)
  | Some sub =>
      let a := next_acknowledge_id self in
      let m := set_next_acknowledge_id (AcknowledgeId_next a) self in
      let message := {| topic := topic_str t; data := data; ack_id := Some a |} in
      o ← unwrap (mailboxes m !! sub);
      match o with
      | Some mailbox => deliver_process m pid sub mailbox message a next_event
      | None =>
          '(r, m) ← services_incoming services m pid sub message;
          Ret (IpcResult_map (λ _, DeliverKernel) r, m, next_event)
      end
  end.

End operations.
