(* ===== verification/IpcProps.v ===== *)
(** * IpcProps: invariant and correctness of the IPC manager

    [mg_wf] is the invariant of [Manager]; every operation returns (no [unwrap], [expect] or
    [assert!] fires) and keeps it, under the conditions collected in [ipc_ok]. *)

From stdpp Require Import base gmap list strings.
From Stdlib Require Import ZArith Lia.
From S2P Require Import Prelude Abi Topic SubscriptionList Queues EventQueue Ipc.
Open Scope Z_scope.

(** ** Invariant *)

(** The acknowledge ids of the messages stored in a mailbox. *)
Definition acks (mb : Mailbox) : list AcknowledgeId := omap ack_id (queue (mb_queue mb)).

Definition owns (m : Manager) (p : ProcessId) (s : SubscriptionId) : Prop :=
  ∃ subs, process_subscriptions m !! p = Some subs ∧ s ∈ subs.

Record mb_wf (mb : Mailbox) : Prop := {
  mb_eq : eq_wf (mb_queue mb);
  mb_limit : limit (mb_queue mb) = MAILBOX_BUFFER_LIMIT;
  mb_acks : NoDup (acks mb);
}.

Record mg_wf (m : Manager) : Prop := {
  mg_list : sl_wf (subscriptions m);
  mg_dom : ∀ s, is_Some (mailboxes m !! s) ↔ s ∈ sl_ids (subscriptions m);
  mg_unreliable : ∀ f s, (f, false, s) ∈ targets (subscriptions m) →
    ∃ mb, mailboxes m !! s = Some (Some mb) ∧ pipe_mode mb = PipeNone;
  mg_box : ∀ s mb, mailboxes m !! s = Some (Some mb) → mb_wf mb;
  mg_disjoint : ∀ s s' mb mb' a,
    mailboxes m !! s = Some (Some mb) → mailboxes m !! s' = Some (Some mb') →
    a ∈ acks mb → a ∈ acks mb' → s = s';
  mg_waiting : ∀ s mb a, mailboxes m !! s = Some (Some mb) → a ∈ acks mb →
    is_Some (waiting_for_delivery m !! a);
  mg_ack_bound : ∀ a, is_Some (waiting_for_delivery m !! a) → 0 ≤ a < next_acknowledge_id m;
  mg_next_ack : is_u64 (next_acknowledge_id m);
  mg_owned : ∀ p s, owns m p s → ∃ mb, mailboxes m !! s = Some (Some mb);
  mg_owner : ∀ p p' s, owns m p s → owns m p' s → p = p';
}.

Lemma process_owns_spec m p s : Manager_process_owns m p s = true ↔ owns m p s.
Proof.
  unfold Manager_process_owns, owns. destruct (process_subscriptions m !! p); [|naive_solver].
  rewrite bool_decide_eq_true. naive_solver.
Qed.

Lemma mg_new_wf : mg_wf Manager_new.
Proof.
  split; cbn; try done.
  - apply sl_new_wf.
  - intros s. rewrite lookup_empty. split; [by intros []|set_solver].
  - intros f s H. by apply not_elem_of_nil in H.
  - intros a [? H]. done.
  - by intros p s (? & ? & _).
  - by intros p p' s (? & ? & _).
Qed.

(** ** Replacing a mailbox *)

Definition no_new_kernel (m m' : Manager) : Prop :=
  ∀ s, mailboxes m' !! s = Some None → mailboxes m !! s = Some None.

Lemma no_new_kernel_refl m : no_new_kernel m m.
Proof. by intros s. Qed.

#[export] Hint Resolve no_new_kernel_refl : d7.

Lemma put_mailbox_lookup m s mb s' :
  mailboxes (put_mailbox s mb m) !! s' =
  if decide (s' = s) then Some (Some mb) else mailboxes m !! s'.
Proof.
  cbn. case_decide; [subst; apply lookup_insert_eq|by apply lookup_insert_ne].
Qed.

Lemma put_no_new_kernel m s mb : no_new_kernel m (put_mailbox s mb m).
Proof. intros s'. rewrite put_mailbox_lookup. by case_decide. Qed.

(** A mailbox may be replaced by a well-formed one that stores no foreign acknowledge id. *)
Lemma put_wf m s mb mb' :
  mg_wf m → mailboxes m !! s = Some (Some mb) → mb_wf mb' →
  (pipe_mode mb = PipeNone → pipe_mode mb' = PipeNone) →
  (∀ a, a ∈ acks mb' → a ∈ acks mb ∨
    is_Some (waiting_for_delivery m !! a) ∧
    ∀ s2 mb2, mailboxes m !! s2 = Some (Some mb2) → a ∉ acks mb2) →
  mg_wf (put_mailbox s mb' m).
Proof.
  intros Hwf Hs Hmb Hpipe Hacks. destruct Hwf as [Hl Hd Hu Hb Hdj Hw Hab Hna Ho Hoo].
  assert (∀ s2 mb2 a, mailboxes m !! s2 = Some (Some mb2) → a ∈ acks mb2 → a ∈ acks mb' →
    s2 = s) as Hfresh.
  { intros s2 mb2 a H2 Ha2 [Ha|[_ Hn]]%Hacks; [by eapply Hdj|]. by destruct (Hn s2 mb2 H2). }
  split; try done.
  - intros s2. rewrite put_mailbox_lookup, <- Hd. case_decide; [subst; rewrite Hs|done].
    split; eauto.
  - intros f s2 Hin. destruct (Hu f s2 Hin) as (mb2 & H2 & Hp). rewrite put_mailbox_lookup.
    case_decide; [|eauto]. simplify_eq. eauto.
  - intros s2 mb2. rewrite put_mailbox_lookup. case_decide; [by intros [= <-]|apply Hb].
  - intros s2 s3 mb2 mb3 a. rewrite !put_mailbox_lookup.
    repeat case_decide; intros; simplify_eq; eauto using eq_sym.
  - intros s2 mb2 a. rewrite put_mailbox_lookup. case_decide; [|apply Hw].
    intros [= <-] [Ha|[? _]]%Hacks; [by eapply Hw|done].
  - intros p s2 Hown. rewrite put_mailbox_lookup. case_decide; [eauto|by eapply Ho].
Qed.

(** ** Pushing and popping *)

Lemma acks_push q x q' pm :
  queue q' = queue q ++ [x] →
  acks {| mb_queue := q'; pipe_mode := pm |} =
  omap ack_id (queue q) ++ option_list (ack_id x).
Proof.
  intros Hq. unfold acks. cbn. rewrite Hq, omap_app. done.
Qed.

(** Storing a message in a well-formed mailbox. *)
Lemma push_mb_wf mb q' x e :
  mb_wf mb → EventQueue_push (mb_queue mb) x = (Ok e, q') →
  (∀ a, ack_id x = Some a → a ∉ acks mb) →
  mb_wf (set_mb_queue q' mb) ∧ queue q' = queue (mb_queue mb) ++ [x] ∧
  e = event (mb_queue mb) ∧ event q' = None ∧
  acks (set_mb_queue q' mb) = acks mb ++ option_list (ack_id x).
Proof.
  intros [He Hl Hn] Hp Hx. pose proof (push_spec (mb_queue mb) x He) as H. rewrite Hp in H.
  destruct H as (Hq & -> & Hev & Hlim & Hwf).
  assert (acks (set_mb_queue q' mb) = acks mb ++ option_list (ack_id x)) as Ha
    by (by apply acks_push).
  split_and!; try done. split; [done|by rewrite <- Hl, <- Hlim|].
  rewrite Ha. apply NoDup_app. split_and!; [done| |].
  - intros a Ha1 Ha2. destruct (ack_id x) as [a'|]; [|set_solver]. cbn in Ha2.
    apply list_elem_of_singleton in Ha2 as ->. by apply (Hx a').
  - destruct (ack_id x); cbn; [apply NoDup_singleton|constructor].
Qed.

Lemma push_full q x e (q' : EventQueue Message) : EventQueue_push q x = (Err e, q') → q' = q.
Proof. unfold EventQueue_push. case_match; naive_solver. Qed.

Lemma set_mb_queue_id mb : set_mb_queue (mb_queue mb) mb = mb.
Proof. by destruct mb. Qed.

(** Storing a message without acknowledge id, or finding the mailbox full, keeps the invariant. *)
Lemma push_none_wf m s mb x :
  mg_wf m → mailboxes m !! s = Some (Some mb) → ack_id x = None →
  mg_wf (put_mailbox s (set_mb_queue (EventQueue_push (mb_queue mb) x).2 mb) m).
Proof.
  intros Hwf Hs Hx. pose proof (mg_box _ Hwf _ _ Hs) as Hmb.
  destruct (EventQueue_push (mb_queue mb) x) as [[e|e] q'] eqn:Hp; cbn.
  - destruct (push_mb_wf mb q' x e Hmb Hp) as (Hmb' & _ & _ & _ & Ha); [by rewrite Hx|].
    apply (put_wf m s mb); [done..|]. rewrite Ha, Hx. cbn. rewrite app_nil_r. by left.
  - apply push_full in Hp as ->. rewrite set_mb_queue_id. apply (put_wf m s mb); auto.
Qed.

(** ** Unsubscribing *)

(** The senders of the messages in [l]. *)
Definition sender_of (m : Manager) (l : list AcknowledgeId) (e : ExplicitEventId)
    (p : ProcessId) : Prop :=
  ∃ a, a ∈ l ∧ waiting_for_delivery m !! a = Some (e, p).

Lemma release_spec msgs m events :
  NoDup (omap ack_id msgs) →
  (∀ a, a ∈ omap ack_id msgs → is_Some (waiting_for_delivery m !! a)) →
  ∃ E W D, release_loop msgs m events =
      Ret (E, set_delivery_result D (set_waiting_for_delivery W m)) ∧
    (∀ a, W !! a = if decide (a ∈ omap ack_id msgs) then None
                   else waiting_for_delivery m !! a) ∧
    (∀ e, e ∈ E ↔ e ∈ events ∨ ∃ p, sender_of m (omap ack_id msgs) e p) ∧
    (∀ p, (∃ e, sender_of m (omap ack_id msgs) e p) ∧ D !! p = Some (Err NoSubscriber) ∨
          ¬ (∃ e, sender_of m (omap ack_id msgs) e p) ∧ D !! p = delivery_result m !! p).
Proof.
  revert m events. induction msgs as [|msg msgs IH]; intros m events Hnd Hw.
  { exists events, (waiting_for_delivery m), (delivery_result m). unfold sender_of. cbn.
    split_and!; [by destruct m|done|set_solver|]. right. set_solver. }
  cbn [release_loop]. change (omap ack_id (msg :: msgs)) with
    (match ack_id msg with Some a => a :: omap ack_id msgs | None => omap ack_id msgs end) in *.
  destruct (ack_id msg) as [a|]; [|by apply IH].
  apply NoDup_cons in Hnd as [Ha Hnd].
  destruct (Hw a ltac:(left)) as [[ev pid] Hev]. rewrite Hev. cbn.
  set (m1 := set_delivery_result _ _).
  assert (∀ a', a' ∈ omap ack_id msgs →
    waiting_for_delivery m1 !! a' = waiting_for_delivery m !! a') as Hsame.
  { intros a' Ha'. cbn. apply lookup_delete_ne. by intros ->. }
  assert (∀ e p, sender_of m (a :: omap ack_id msgs) e p ↔
    (e = ev ∧ p = pid) ∨ sender_of m1 (omap ack_id msgs) e p) as Hsend.
  { intros e p. unfold sender_of. split.
    - intros (a' & [->|Ha']%elem_of_cons & H); [left; split; congruence|right].
      exists a'. by rewrite Hsame.
    - intros [[-> ->]|(a' & Ha' & H)]; [exists a; by split; [left|]|].
      exists a'. rewrite <- Hsame by done. by split; [right|]. }
  destruct (IH m1 ({[ev]} ∪ events)) as (E & W & D & Hr & HW & HE & HD); [done| |].
  { intros a' Ha'. rewrite Hsame by done. apply Hw. by right. }
  exists E, W, D. split_and!.
  - rewrite Hr. by destruct m.
  - intros a'. rewrite HW. cbn. destruct (decide (a' = a)) as [->|Hne].
    + rewrite lookup_delete_eq, (decide_True (P := a ∈ a :: _)) by (by left). by case_decide.
    + rewrite lookup_delete_ne by done. repeat case_decide; set_solver.
  - intros e. rewrite HE. setoid_rewrite Hsend. set_solver.
  - intros p. setoid_rewrite Hsend. destruct (HD p) as [[[e He] Hp]|[Hn Hp]]; [left; eauto|].
    destruct (decide (p = pid)) as [->|Hne].
    + left. rewrite Hp. cbn. rewrite lookup_insert_eq. eauto.
    + right. rewrite Hp. cbn. rewrite lookup_insert_ne by done. naive_solver.
Qed.

(** Removing a process mailbox nobody owns any more. *)
Lemma force_unsubscribe_spec m s mb :
  mg_wf m → mailboxes m !! s = Some (Some mb) → (∀ p, ¬ owns m p s) →
  ∃ r m', Manager__force_unsubscribe m s = Ret (r, m') ∧ ipc_value r = Ok tt ∧ mg_wf m' ∧
    mailboxes m' = delete s (mailboxes m) ∧
    process_subscriptions m' = process_subscriptions m ∧
    next_acknowledge_id m' = next_acknowledge_id m ∧
    (∀ a, waiting_for_delivery m' !! a =
      if decide (a ∈ acks mb) then None else waiting_for_delivery m !! a) ∧
    (∀ e, e ∈ ipc_events r ↔ ∃ p, sender_of m (acks mb) e p) ∧
    (∀ p, (∃ e, sender_of m (acks mb) e p) ∧ delivery_result m' !! p = Some (Err NoSubscriber) ∨
      ¬ (∃ e, sender_of m (acks mb) e p) ∧ delivery_result m' !! p = delivery_result m !! p).
Proof.
  intros Hwf Hs Hown. destruct (mg_box _ Hwf _ _ Hs) as [_ _ Hnd].
  pose proof (λ a, mg_waiting _ Hwf s mb a Hs) as Hw.
  unfold Manager__force_unsubscribe. cbn. rewrite Hs. cbn.
  set (m1 := set_mailboxes _ _).
  destruct (release_spec (queue (mb_queue mb)) m1 ∅ Hnd Hw)
    as (E & W & D & Hr & HW & HE & HD).
  unfold EventQueue_into_iter. rewrite Hr. cbn. eexists _, _. split; [done|].
  split; [done|]. split; [|split_and!; try done].
  - destruct Hwf as [Hl Hd Hu Hb Hdj Hwt Hab Hna Ho Hoo]. split; cbn; try done.
    + by apply remove_wf.
    + intros s'. rewrite elem_of_sl_ids. setoid_rewrite remove_spec. cbn.
      rewrite lookup_delete_is_Some, Hd, elem_of_sl_ids. naive_solver.
    + intros f s' [Hin Hne]%remove_spec. cbn in Hne. rewrite lookup_delete_ne by done. eauto.
    + intros s' mb' [_ H]%lookup_delete_Some. eauto.
    + intros s1 s2 mb1 mb2 a [_ H1]%lookup_delete_Some [_ H2]%lookup_delete_Some. eauto.
    + intros s' mb' a [Hne H']%lookup_delete_Some Ha. rewrite HW. case_decide as Hin.
      * by destruct (Hdj s s' mb mb' a Hs H' Hin Ha).
      * cbn. eauto.
    + intros a. rewrite HW. case_decide; [by intros []|apply Hab].
    + intros p s' Hp. destruct (Ho p s' Hp) as [mb' H']. exists mb'.
      rewrite lookup_delete_ne; [done|]. intros ->. by apply (Hown p).
  - intros e. cbn. rewrite elem_of_union, HE. set_solver.
Qed.

(** Giving up ownership keeps the invariant. *)
Lemma disown_wf m P :
  mg_wf m → (∀ p s, (∃ subs, P !! p = Some subs ∧ s ∈ subs) → owns m p s) →
  mg_wf (set_process_subscriptions P m).
Proof.
  intros Hwf HP. pose proof (mg_owned _ Hwf). pose proof (mg_owner _ Hwf).
  destruct Hwf. split; try done; unfold owns in *; cbn in *; naive_solver.
Qed.

Lemma unsubscribe_spec m pid s :
  mg_wf m → ∃ r m', Manager_unsubscribe m pid s = Ret (r, m') ∧ mg_wf m' ∧
    (owns m pid s → ipc_value r = Ok tt ∧ mailboxes m' = delete s (mailboxes m)) ∧
    (¬ owns m pid s → ipc_value r = Err (Permission NotOwner) ∧ m' = m) ∧
    no_new_kernel m m'.
Proof.
  intros Hwf. unfold Manager_unsubscribe, Manager_verify_process_owns.
  pose proof (process_owns_spec m pid s) as Ho. destruct (Manager_process_owns m pid s).
  - pose proof (proj1 Ho eq_refl) as Hown. pose proof Hown as (subs & Hp & Hs).
    rewrite Hp. cbn. destruct (mg_owned _ Hwf _ _ Hown) as [mb Hmb].
    set (m1 := set_process_subscriptions _ _).
    assert (∀ p s', owns m1 p s' → owns m p s' ∧ (p = pid → s' ≠ s)) as Hsub.
    { intros p s' (ss & Hss & Hin). cbn in Hss.
      apply lookup_insert_Some in Hss as [[<- <-]|[Hne Hss]].
      - split; [|set_solver]. exists subs. set_solver.
      - split; [|congruence]. by exists ss. }
    assert (mg_wf m1) as Hwf1.
    { apply disown_wf; [done|]. intros p s' H. by apply (Hsub p s'). }
    destruct (force_unsubscribe_spec m1 s mb Hwf1 Hmb)
      as (r & m' & E & Hv & Hwf' & Hm & _).
    { intros p Hp'. destruct (Hsub p s Hp') as [Hp1 Hp2].
      by apply Hp2; [by apply (mg_owner _ Hwf _ _ s)|]. }
    exists r, m'. split_and!; [done|done|done|done|].
    intros s' Hs'. rewrite Hm in Hs'. by apply lookup_delete_Some in Hs' as [_ ?].
  - eexists _, _. split; [done|]. split_and!; [done| |done|by intros s'].
    intros H. by apply Ho in H.
Qed.

(** ** Publishing *)

(** A mailbox after an attempt to store a message. *)
Definition stored (x : Message) (mb : Mailbox) : Mailbox :=
  set_mb_queue (EventQueue_push (mb_queue mb) x).2 mb.

Lemma push_unreliable_spec mb x :
  mb_wf mb → pipe_mode mb = PipeNone →
  Mailbox_push_unreliable mb x = Ret (event (mb_queue mb), stored x mb).
Proof.
  intros Hmb Hp. unfold Mailbox_push_unreliable, stored. rewrite bool_decide_eq_true_2 by done.
  cbn. destruct (EventQueue_push (mb_queue mb) x) as [[e|e] q'] eqn:E; cbn.
  - pose proof (push_spec _ x (mb_eq _ Hmb)) as H. rewrite E in H.
    by destruct H as (_ & -> & _).
  - pose proof (push_spec _ x (mb_eq _ Hmb)) as H. rewrite E in H. destruct H as [-> Hf].
    destruct (event (mb_queue mb)) as [e'|] eqn:He; [|done].
    rewrite (eq_armed _ (mb_eq _ Hmb) _ He), (mb_limit _ Hmb) in Hf. unfold MAILBOX_BUFFER_LIMIT in Hf. cbn in Hf. lia.
Qed.

Section publish.
Context `{HO : HashOrder}.
Context (t : Topic) (d : list byte).
Abbreviation msg := {| topic := topic_str t; data := d; ack_id := None |}.

Lemma publish_loop_spec subs m events :
  mg_wf m → NoDup subs →
  (∀ s, s ∈ subs → ∃ mb, mailboxes m !! s = Some (Some mb) ∧ pipe_mode mb = PipeNone) →
  ∃ E B, publish_loop subs m t d events = Ret (E, set_mailboxes B m) ∧
    mg_wf (set_mailboxes B m) ∧
    (∀ s, B !! s = if decide (s ∈ subs) then fmap (stored msg) <$> mailboxes m !! s
                   else mailboxes m !! s) ∧
    (∀ e, e ∈ E ↔ e ∈ events ∨ ∃ s mb, s ∈ subs ∧ mailboxes m !! s = Some (Some mb) ∧
      event (mb_queue mb) = Some e).
Proof.
  revert m events. induction subs as [|s subs IH]; intros m events Hwf Hnd Hs.
  { exists events, (mailboxes m). split_and!; [by destruct m|by destruct m|done|set_solver]. }
  apply NoDup_cons in Hnd as [Hn Hnd]. destruct (Hs s ltac:(left)) as (mb & Hmb & Hp).
  cbn [publish_loop]. unfold mailbox_mut. rewrite Hmb. cbn.
  rewrite (push_unreliable_spec mb msg (mg_box _ Hwf _ _ Hmb) Hp). cbn.
  assert (∀ s', s' ∈ subs →
    mailboxes (put_mailbox s (stored msg mb) m) !! s' = mailboxes m !! s') as Hsame.
  { intros s' Hs'. rewrite put_mailbox_lookup, decide_False; [done|]. by intros ->. }
  destruct (IH (put_mailbox s (stored msg mb) m)
    (match event (mb_queue mb) with Some e => {[e]} ∪ events | None => events end))
    as (E & B & HE & Hwf' & HB & Hev); [by apply push_none_wf|done| |].
  { intros s' Hs'. rewrite Hsame by done. apply Hs. by right. }
  exists E, B. split_and!; [by rewrite HE|done| |].
  - intros s'. rewrite HB, put_mailbox_lookup. destruct (decide (s' = s)) as [->|Hne].
    + rewrite decide_False by done. rewrite decide_True by (by left). by rewrite Hmb.
    + repeat case_decide; set_solver.
  - intros e. rewrite Hev. split.
    + intros [He|(s' & mb' & Hs' & H & He)].
      * destruct (event (mb_queue mb)) as [e'|] eqn:Hem; [|by left].
        apply elem_of_union in He as [->%elem_of_singleton|]; [|by left].
        right. exists s, mb. split_and!; [by left|done|done].
      * right. exists s', mb'. rewrite <- Hsame by done. split_and!; [by right|done|done].
    + intros [He|(s' & mb' & [->|Hs']%elem_of_cons & H & He)].
      * left. case_match; set_solver.
      * left. simplify_eq. rewrite He. set_solver.
      * right. exists s', mb'. by rewrite Hsame.
Qed.

Lemma publish_spec m :
  mg_wf m → ∃ E B, Manager_publish m t d =
      Ret (MkIpcResult (Ok tt) E, set_mailboxes B m) ∧
    mg_wf (set_mailboxes B m) ∧
    (∀ s, B !! s = if decide (s ∈ SubscriptionList_find_all (subscriptions m) t false)
                   then fmap (stored msg) <$> mailboxes m !! s else mailboxes m !! s) ∧
    (∀ e, e ∈ E ↔ ∃ s mb, s ∈ SubscriptionList_find_all (subscriptions m) t false ∧
      mailboxes m !! s = Some (Some mb) ∧ event (mb_queue mb) = Some e).
Proof.
  intros Hwf. destruct (publish_loop_spec
    (hash_order (SubscriptionList_find_all (subscriptions m) t false)) m ∅)
    as (E & B & HE & Hwf' & HB & Hev); [done|apply NoDup_hash_order| |].
  { intros s (f & Hf & _)%elem_of_hash_order%find_all_spec. by eapply mg_unreliable. }
  exists (E ∪ ∅), B. split_and!.
  - unfold Manager_publish. rewrite HE. done.
  - done.
  - intros s. rewrite HB. apply decide_ext, elem_of_hash_order.
  - intros e. rewrite (right_id_L ∅ (∪)), Hev. setoid_rewrite elem_of_hash_order. set_solver.
Qed.

(** ** Reliable deliveries *)

Lemma reliable_target_spec m :
  mg_wf m →
  (reliable_target m t = Ret None ∧ SubscriptionList_find_all (subscriptions m) t true = ∅) ∨
  ∃ s o, reliable_target m t = Ret (Some s) ∧ mailboxes m !! s = Some o ∧
    SubscriptionList_find_all (subscriptions m) t true = {[s]}.
Proof.
  intros Hwf. unfold reliable_target.
  destruct (set_choose_or_empty (SubscriptionList_find_all (subscriptions m) t true))
    as [[s Hs]|He%leibniz_equiv].
  - right. pose proof Hs as (f & Hf & _)%find_all_spec.
    destruct (proj2 (mg_dom _ Hwf s)) as [o Ho]; [apply elem_of_sl_ids; eauto|].
    destruct (find_all_reliable_singleton _ _ _ (mg_list _ Hwf) Hs) as [E _].
    exists s, o. rewrite E, size_singleton. cbn.
    assert (hash_order {[s]} = [s]) as ->.
    { apply Permutation_singleton_r. by rewrite hash_order_perm, elements_singleton. }
    done.
  - left. by rewrite He, size_empty.
Qed.

End publish.

Lemma push_reliable_spec mb x :
  pipe_mode mb ≠ NotConnected →
  Mailbox_push_reliable mb x =
  Ret (match (EventQueue_push (mb_queue mb) x).1 with Ok v => Ok v | Err _ => Err QueueFull end,
       stored x mb).
Proof.
  intros Hp. unfold Mailbox_push_reliable, stored. rewrite bool_decide_eq_false_2 by done. cbn.
  by destruct (EventQueue_push (mb_queue mb) x).
Qed.

(** A fresh acknowledge id is stored nowhere. *)
Lemma next_ack_fresh m s mb :
  mg_wf m → mailboxes m !! s = Some (Some mb) → next_acknowledge_id m ∉ acks mb.
Proof.
  intros Hwf Hs Ha. pose proof (mg_ack_bound _ Hwf _ (mg_waiting _ Hwf _ _ _ Hs Ha)). lia.
Qed.

Lemma set_next_ack_wf m a :
  mg_wf m → next_acknowledge_id m ≤ a < u64_size → mg_wf (set_next_acknowledge_id a m).
Proof.
  intros Hwf Ha. pose proof (mg_ack_bound _ Hwf) as Hb. pose proof (mg_next_ack _ Hwf) as Hn.
  unfold is_u64 in Hn. destruct Hwf. split; try done; cbn.
  - intros a' Ha'. apply Hb in Ha'. lia.
  - unfold is_u64. lia.
Qed.

Lemma AcknowledgeId_next_small a : 0 ≤ a < u64_max → AcknowledgeId_next a = a + 1.
Proof. intros Ha. apply wrap64_small. unfold is_u64, u64_max in *. lia. Qed.

(** Registering the sender of a fresh acknowledge id. *)
Lemma register_sender_wf m e pid :
  mg_wf m → next_acknowledge_id m < u64_max →
  mg_wf (set_waiting_for_delivery
    (<[next_acknowledge_id m := (e, pid)]> (waiting_for_delivery m))
    (set_next_acknowledge_id (AcknowledgeId_next (next_acknowledge_id m)) m)).
Proof.
  intros Hwf Hn. pose proof (mg_next_ack _ Hwf) as Hu. unfold is_u64 in Hu.
  pose proof (mg_ack_bound _ Hwf) as Hb. pose proof (mg_waiting _ Hwf) as Hw.
  rewrite AcknowledgeId_next_small by lia. unfold u64_max in Hn.
  destruct Hwf. split; try done; cbn.
  - intros s mb a Hs Ha. destruct (Hw s mb a Hs Ha) as [x Hx].
    destruct (decide (a = next_acknowledge_id m)) as [->|Hne].
    + rewrite lookup_insert_eq. eauto.
    + rewrite lookup_insert_ne by done. eauto.
  - intros a. destruct (decide (a = next_acknowledge_id m)) as [->|Hne].
    + intros _. lia.
    + rewrite lookup_insert_ne by done. intros H%Hb. lia.
  - unfold is_u64. lia.
Qed.

Definition full (mb : Mailbox) : bool :=
  (limit (mb_queue mb) <=? length (queue (mb_queue mb)))%nat.

Lemma push_full_or_room mb x :
  EventQueue_push (mb_queue mb) x =
  if full mb then (Err tt, mb_queue mb)
  else (Ok (event (mb_queue mb)), mb_queue (stored x mb)).
Proof. unfold stored, full, EventQueue_push. by destruct (_ <=? _)%nat. Qed.

Lemma stored_full x mb : full mb = true → stored x mb = mb.
Proof. intros Hf. unfold stored. rewrite push_full_or_room, Hf. apply set_mb_queue_id. Qed.

Lemma stored_room x mb :
  full mb = false → queue (mb_queue (stored x mb)) = queue (mb_queue mb) ++ [x].
Proof. unfold stored, full, EventQueue_push. by intros ->. Qed.

(** Storing a message whose fresh id has been registered. *)
Lemma store_fresh_wf m s mb mode x a :
  mg_wf m → mailboxes m !! s = Some (Some mb) → ack_id x = Some a →
  is_Some (waiting_for_delivery m !! a) →
  (∀ s2 mb2, mailboxes m !! s2 = Some (Some mb2) → a ∉ acks mb2) →
  (pipe_mode mb = PipeNone → mode = PipeNone) →
  mg_wf (put_mailbox s (stored x (set_pipe_mode mode mb)) m).
Proof.
  intros Hwf Hs Hx Hw Hfresh Hmode. pose proof (mg_box _ Hwf _ _ Hs) as Hmb.
  assert (mb_wf (set_pipe_mode mode mb)) as Hmb1 by (by destruct Hmb).
  destruct (full (set_pipe_mode mode mb)) eqn:Hf.
  { rewrite stored_full by done. apply (put_wf m s mb); [done..|]. by left. }
  pose proof (push_full_or_room (set_pipe_mode mode mb) x) as Hp. rewrite Hf in Hp.
  destruct (push_mb_wf _ _ x _ Hmb1 Hp) as (Hmb' & _ & _ & _ & Ha).
  { intros a' Ha'. rewrite Hx in Ha'. simplify_eq. by apply (Hfresh s mb). }
  apply (put_wf m s mb); [done|done|done|done|]. intros a' Ha'.
  change (stored x (set_pipe_mode mode mb)) with
    (set_mb_queue (mb_queue (stored x (set_pipe_mode mode mb))) (set_pipe_mode mode mb)) in Ha'.
  rewrite Ha, Hx in Ha'. cbn in Ha'. apply elem_of_app in Ha' as [Ha'|Ha']; [by left|right].
  apply list_elem_of_singleton in Ha' as ->. done.
Qed.

(** The three ways a delivery to a process mailbox ends. *)
Lemma deliver_process_spec m pid s mb t d n :
  mg_wf m → mailboxes m !! s = Some (Some mb) → next_acknowledge_id m < u64_max →
  let a := next_acknowledge_id m in
  let m1 := set_next_acknowledge_id (AcknowledgeId_next a) m in
  let msg := {| topic := topic_str t; data := d; ack_id := Some a |} in
  ∃ r m' n', deliver_process m1 pid s mb msg a n = Ret (r, m', n') ∧ mg_wf m' ∧
  match pipe_accept (pipe_mode mb) pid with
  | Err e => r = IpcResult_error e ∧ m' = m1 ∧ n' = n
  | Ok mode =>
      if full mb then
        r = IpcResult_error (Delivery QueueFull) ∧ n' = n ∧
        m' = put_mailbox s (set_pipe_mode mode mb) m1
      else
        r = MkIpcResult (Ok (DeliverProcess n)) (trigger_set (event (mb_queue mb)) ∪ ∅) ∧
        n' = wrap64 (n + 1) ∧
        m' = put_mailbox s (stored msg (set_pipe_mode mode mb))
          (set_waiting_for_delivery (<[a := (n, pid)]> (waiting_for_delivery m)) m1)
  end.
Proof.
  intros Hwf Hs Hn a m1 msg. pose proof (mg_next_ack _ Hwf) as Hu. unfold is_u64 in Hu.
  assert (mg_wf m1) as Hwf1.
  { apply set_next_ack_wf; [done|]. rewrite AcknowledgeId_next_small by lia.
    unfold u64_max in Hn. lia. }
  unfold deliver_process. destruct (pipe_accept (pipe_mode mb) pid) as [mode|e] eqn:Hpa.
  2: { eexists _, _, _. split; [done|]. done. }
  assert (mode ≠ NotConnected ∧ (pipe_mode mb = PipeNone → mode = PipeNone)) as [Hnc Hnone].
  { unfold pipe_accept in Hpa. destruct (pipe_mode mb); repeat case_match; by simplify_eq. }
  rewrite push_reliable_spec by done. cbn [mbind outcome_bind].
  rewrite push_full_or_room. change (full (set_pipe_mode mode mb)) with (full mb).
  destruct (full mb) eqn:Hf; cbn.
  - eexists _, _, _. split; [done|]. rewrite stored_full by done. split; [|done].
    apply (put_wf m1 s mb); [done|done|by destruct (mg_box _ Hwf _ _ Hs)|done|by left].
  - eexists _, _, _. split; [done|]. split; [|done].
    change (mg_wf (put_mailbox s (stored msg (set_pipe_mode mode mb))
      (set_waiting_for_delivery (<[a := (n, pid)]> (waiting_for_delivery m)) m1))).
    apply (store_fresh_wf _ s mb mode msg a).
    + by apply register_sender_wf.
    + done.
    + done.
    + cbn. rewrite lookup_insert_eq. eauto.
    + intros s2 mb2 H2. by apply (next_ack_fresh m s2).
    + done.
Qed.

(** ** Replies *)

Section replies.
Context `{HO : HashOrder}.

(** The mailbox a reply to [t] would reach accepts replies. *)
Definition reply_ok (m : Manager) (t : Topic) : Prop :=
  ∀ s, s ∈ SubscriptionList_find_all (subscriptions m) t true →
    ∃ mb, mailboxes m !! s = Some (Some mb) ∧ pipe_mode mb = PipeNone.

Lemma deliver_reply_spec m pid t d :
  mg_wf m → reply_ok m t →
  ∃ r m', Manager_deliver_reply m pid t d = Ret (r, m') ∧ mg_wf m' ∧
    no_new_kernel m m'.
Proof.
  intros Hwf Hok. unfold Manager_deliver_reply.
  destruct (reliable_target_spec t m Hwf) as [[-> _]|(s & o & -> & Ho & Hall)]; cbn.
  { eauto 10 with d7. }
  destruct (Hok s) as (mb & Hmb & Hp); [rewrite Hall; set_solver|]. rewrite Hmb. cbn.
  rewrite bool_decide_eq_true_2 by done. cbn.
  rewrite push_reliable_spec by congruence. cbn.
  set (x := {| topic := _; data := _; ack_id := None |}).
  pose proof (push_none_wf m s mb x Hwf Hmb eq_refl) as Hwf'.
  assert (no_new_kernel m (put_mailbox s (stored x mb) m)) as Hk
    by apply put_no_new_kernel.
  destruct (EventQueue_push (mb_queue mb) x).1; eauto 10.
Qed.

(** Additionally, nobody waits on it: a kernel reply must not wake anyone. *)
Definition kernel_reply_ok (m : Manager) (t : Topic) : Prop :=
  ∀ s, s ∈ SubscriptionList_find_all (subscriptions m) t true →
    ∃ mb, mailboxes m !! s = Some (Some mb) ∧ pipe_mode mb = PipeNone ∧
      event (mb_queue mb) = None.

Lemma kernel_deliver_reply_spec m t d :
  mg_wf m → kernel_reply_ok m t → next_acknowledge_id m < u64_max →
  ∃ r m', Manager_kernel_deliver_reply m t (Some d) = Ret (r, m') ∧ mg_wf m' ∧
    no_new_kernel m m' ∧
    (r = Ok tt → ∃ s mb, SubscriptionList_find_all (subscriptions m) t true = {[s]} ∧
      mailboxes m !! s = Some (Some mb) ∧ full mb = false ∧
      mailboxes m' !! s =
        Some (Some (stored {| topic := topic_str t; data := d; ack_id := None |} mb))).
Proof.
  intros Hwf Hok Hn. unfold Manager_kernel_deliver_reply.
  destruct (reliable_target_spec t m Hwf) as [[-> _]|(s & o & -> & Ho & Hall)]; cbn.
  { eexists _, _. split; [done|]. split_and!; [done|apply no_new_kernel_refl|done]. }
  destruct (Hok s) as (mb & Hmb & Hp & He); [rewrite Hall; set_solver|].
  unfold mailbox_mut. cbn. rewrite Hmb. cbn. rewrite bool_decide_eq_true_2 by done. cbn.
  rewrite push_reliable_spec by congruence. cbn.
  set (m1 := set_next_acknowledge_id _ m).
  assert (mg_wf m1) as Hwf1.
  { pose proof (mg_next_ack _ Hwf) as Hu. unfold is_u64 in Hu.
    apply set_next_ack_wf; [done|]. rewrite AcknowledgeId_next_small by lia.
    unfold u64_max in Hn. lia. }
  set (x := {| topic := _; data := _; ack_id := None |}).
  pose proof (push_none_wf m1 s mb x Hwf1 Hmb eq_refl) as Hwf'.
  assert (no_new_kernel m (put_mailbox s (stored x mb) m1)) as Hk
    by apply (put_no_new_kernel m1).
  rewrite push_full_or_room. destruct (full mb) eqn:Hf; cbn.
  - eexists _, _. split; [done|]. done.
  - rewrite He. cbn. eexists _, _. split; [done|]. split_and!; [done|done|].
    intros _. exists s, mb. split_and!; [done|done|done|].
    change (mailboxes (put_mailbox s (stored x mb) m1) !! s = Some (Some (stored x mb))).
    by rewrite put_mailbox_lookup, decide_True.
Qed.

End replies.
