(* ===== verification/IpcCalls.v ===== *)
(** * IpcCalls: the calls of the IPC manager as a state machine

    Specifications of the remaining operations, process termination against any scheduler that
    satisfies the [EventSink] laws, and the theorems over sequences of calls. *)

From stdpp Require Import base gmap list strings.
From Stdlib Require Import ZArith Lia.
From S2P Require Import Prelude Abi Topic SubscriptionList Queues EventQueue Ipc IpcProps.
Open Scope Z_scope.

(** ** Receiving *)

(** What popping leaves in a mailbox. *)
Definition popped (mb : Mailbox) (n : Z) : Mailbox := (Mailbox_pop_or_event mb n).1.2.

Lemma pop_mb_wf mb n :
  mb_wf mb → mb_wf (popped mb n) ∧ pipe_mode (popped mb n) = pipe_mode mb ∧
    acks (popped mb n) ⊆ acks mb.
Proof.
  intros [He Hl Hn]. pose proof (pop_or_event_spec (mb_queue mb) n He) as H.
  unfold popped, Mailbox_pop_or_event.
  destruct (EventQueue_pop_or_event (mb_queue mb) n) as [[[x|e] q] n']; cbn.
  - destruct H as (Hq & Hlim & Hev & _ & _ & Hwf).
    assert (acks mb = option_list (ack_id x) ++ acks (set_mb_queue q mb)) as Ha.
    { unfold acks. cbn. rewrite Hq. cbn. by destruct (ack_id x). }
    split_and!; [|done|rewrite Ha; set_solver]. split; cbn; [done|congruence|].
    rewrite Ha in Hn. by apply NoDup_app in Hn as (_ & _ & ?).
  - destruct H as (Hq & Hq' & Hev & Hlim & Hwf).
    assert (acks (set_mb_queue q mb) = []) as Ha by (unfold acks; cbn; by rewrite Hq').
    split_and!; [|done|rewrite Ha; set_solver]. split; cbn; [done|congruence|].
    rewrite Ha. constructor.
Qed.

Lemma pop_wf m s mb n :
  mg_wf m → mailboxes m !! s = Some (Some mb) → mg_wf (put_mailbox s (popped mb n) m).
Proof.
  intros Hwf Hs. destruct (pop_mb_wf mb n (mg_box _ Hwf _ _ Hs)) as (? & Hp & Ha).
  apply (put_wf m s mb); [done|done|done|congruence|]. left. by apply Ha.
Qed.

Lemma receive_spec m pid s n :
  mg_wf m →
  (Manager_receive m pid s n = Ret (IpcResult_error (Permission NotOwner), m, n) ∧
    ¬ owns m pid s) ∨
  ∃ mb r n', owns m pid s ∧ mailboxes m !! s = Some (Some mb) ∧
    Mailbox_pop_or_event mb n = (r, popped mb n, n') ∧
    Manager_receive m pid s n = Ret (IpcResult_success r, put_mailbox s (popped mb n) m, n').
Proof.
  intros Hwf. unfold Manager_receive, Manager_verify_process_owns.
  pose proof (process_owns_spec m pid s) as Ho. destruct (Manager_process_owns m pid s).
  - right. pose proof (proj1 Ho eq_refl) as Hown. destruct (mg_owned _ Hwf _ _ Hown) as [mb Hmb].
    rewrite Hmb. cbn. unfold popped. destruct (Mailbox_pop_or_event mb n) as [[r mb'] n'] eqn:E.
    by exists mb, r, n'; rewrite E.
  - left. split; [done|]. intros H. by apply Ho in H.
Qed.

Lemma waiting_for_spec m s mb n :
  mg_wf m → mailboxes m !! s = Some (Some mb) →
  ∃ w m' n', Manager_waiting_for m s n = Ret (w, m', n') ∧ mg_wf m' ∧
    no_new_kernel m m' ∧
    match w with
    | WaitNone => queue (mb_queue mb) ≠ []
    | Event e => ∃ mb', mailboxes m' !! s = Some (Some mb') ∧ event (mb_queue mb') = Some e
    | _ => False
    end.
Proof.
  intros Hwf Hs. unfold Manager_waiting_for. rewrite Hs. cbn.
  destruct (mg_box _ Hwf _ _ Hs) as [He Hl Hn].
  pose proof (wait_for_spec (mb_queue mb) n He) as H.
  destruct (EventQueue_wait_for (mb_queue mb) n) as [[w q] n']. eexists _, _, _.
  split; [done|]. split; [|split; [apply put_no_new_kernel|]].
  - destruct w; try done.
    + destruct H as (-> & _ & _). rewrite set_mb_queue_id.
      apply (put_wf m s mb); [done|done|done|done|by left].
    + destruct H as (Hq & Hq' & Hev & Hlim & Hq'').
      assert (acks (set_mb_queue q mb) = []) as Ha by (unfold acks; cbn; by rewrite Hq').
      apply (put_wf m s mb); [done|done| |done|rewrite Ha; set_solver].
      split; cbn; [done|congruence|rewrite Ha; constructor].
  - destruct w; try done; [tauto|]. exists (set_mb_queue q mb).
    rewrite put_mailbox_lookup, decide_True by done. split; [done|]. cbn. tauto.
Qed.

(** ** Acknowledging *)

Definition stored_ack (m : Manager) (a : AcknowledgeId) : Prop :=
  ∃ s mb, mailboxes m !! s = Some (Some mb) ∧ a ∈ acks mb.

Lemma acknowledge_spec m s a positive e p :
  waiting_for_delivery m !! a = Some (e, p) →
  ∃ m', Manager_acknowledge m s a positive = Ret (MkIpcResult (Ok tt) ({[e]} ∪ ∅), m') ∧
    mailboxes m' = mailboxes m ∧ waiting_for_delivery m' = delete a (waiting_for_delivery m) ∧
    delivery_result m' =
      <[p := if positive then Ok tt else Err NegativeAcknowledgement]> (delivery_result m) ∧
    (mg_wf m → ¬ stored_ack m a → mg_wf m').
Proof.
  intros Ha. unfold Manager_acknowledge. rewrite Ha. cbn. eexists. split; [done|].
  split_and!; try done. intros Hwf Hn. pose proof (mg_waiting _ Hwf) as Hw.
  pose proof (mg_ack_bound _ Hwf) as Hb. destruct Hwf. split; try done; cbn.
  - intros s' mb a' Hs' Ha'. rewrite lookup_delete_ne; [by eapply Hw|].
    intros ->. apply Hn. by exists s', mb.
  - intros a' [_ H]%lookup_delete_is_Some. by apply Hb.
Qed.

Lemma after_delivery_spec m p r :
  delivery_result m !! p = Some r →
  ∃ m', Manager_after_delivery m p =
      Ret (match r with Ok _ => IpcResult_success tt | Err e => IpcResult_error (Delivery e) end,
           m') ∧
    mailboxes m' = mailboxes m ∧ delivery_result m' = delete p (delivery_result m) ∧
    (mg_wf m → mg_wf m').
Proof.
  intros Hr. unfold Manager_after_delivery. rewrite Hr. cbn. eexists. split; [done|].
  split_and!; try done. by intros [].
Qed.

(** ** Subscribing *)

Lemma mb_new_wf mode : mb_wf (Mailbox_new mode).
Proof. split; [apply eq_new_wf|done|constructor]. Qed.

(** The list accepted [f]; the entry of its id is set to [o]. *)
Lemma insert_mailbox_wf m f reliable id l o P :
  mg_wf m → filter_ok f → next_subscription_id (subscriptions m) < u64_max →
  SubscriptionList_insert (subscriptions m) f reliable = (Some id, l) →
  (∀ mb, o = Some mb → mb_wf mb ∧ acks mb = []) →
  (reliable = false → ∃ mb, o = Some mb ∧ pipe_mode mb = PipeNone) →
  (∀ p s, (∃ subs, P !! p = Some subs ∧ s ∈ subs) → owns m p s ∨ (s = id ∧ ∃ mb, o = Some mb)) →
  (∀ p p', (∃ subs, P !! p = Some subs ∧ id ∈ subs) → (∃ subs, P !! p' = Some subs ∧ id ∈ subs) →
    p = p') →
  mg_wf (set_process_subscriptions P
    (set_mailboxes (<[id := o]> (mailboxes m)) (set_subscriptions l m))).
Proof.
  intros Hwf Hf Hn Hi Ho Hrel HP HP1.
  pose proof (insert_wf _ _ _ _ _ (mg_list _ Hwf) Hf Hn Hi) as Hl'.
  destruct (insert_targets _ _ _ _ _ Hi) as (Hid & _ & Hperm & _).
  destruct Hwf as [Hl Hd Hu Hb Hdj Hw Hab Hna Hown Howner].
  assert (mailboxes m !! id = None) as Hfresh.
  { destruct (mailboxes m !! id) eqn:E; [|done].
    pose proof (proj1 (Hd id) ltac:(eauto)) as (g & q & Hg)%elem_of_sl_ids.
    pose proof (wf_ids _ Hl _ _ _ Hg). lia. }
  assert (∀ s mb, <[id := o]> (mailboxes m) !! s = Some (Some mb) →
    (acks mb = [] ∧ mb_wf mb) ∨ mailboxes m !! s = Some (Some mb)) as Hlk.
  { intros s mb [[_ ->]|[_ ?]]%lookup_insert_Some; [left|by right]. by destruct (Ho mb). }
  split; cbn; try done.
  - intros s. rewrite elem_of_sl_ids. setoid_rewrite Hperm. setoid_rewrite elem_of_cons.
    rewrite lookup_insert_is_Some, Hd, elem_of_sl_ids. split.
    + intros [<-|[_ (g & q & ?)]]; eauto.
    + intros (g & q & [?|?]); [left; by simplify_eq|].
      destruct (decide (id = s)); [by left|right; eauto].
  - intros g s. rewrite Hperm, elem_of_cons. intros [?|Hg]; simplify_eq.
    + destruct (Hrel eq_refl) as (mb & -> & ?). exists mb. by rewrite lookup_insert_eq.
    + destruct (Hu g s Hg) as (mb & Hmb & ?). exists mb. rewrite lookup_insert_ne; [done|].
      congruence.
  - intros s mb [[_ ?]|?]%Hlk; [done|by eapply Hb].
  - intros s s' mb mb' a [[E _]|H]%Hlk [[E' _]|H']%Hlk; rewrite ?E, ?E';
      [set_solver..|by eapply Hdj].
  - intros s mb a [[-> _]|H]%Hlk; [set_solver|by eapply Hw].
  - intros p s [H|(-> & mb & ->)]%HP.
    + destruct (Hown p s H) as [mb Hmb]. exists mb. rewrite lookup_insert_ne; [done|congruence].
    + exists mb. apply lookup_insert_eq.
  - intros p p' s H H'. destruct (decide (s = id)) as [->|Hne]; [by apply HP1|].
    apply HP in H as [H|[? _]]; [|done]. apply HP in H' as [H'|[? _]]; [|done].
    by eapply Howner.
Qed.

Lemma subscribe_spec m pid f reliable pipe :
  mg_wf m → filter_ok f → next_subscription_id (subscriptions m) < u64_max →
  (pipe = true → reliable = true) →
  mg_wf (Manager_subscribe m pid f reliable pipe).2 ∧
  no_new_kernel m (Manager_subscribe m pid f reliable pipe).2.
Proof.
  intros Hwf Hf Hn Hpr. unfold Manager_subscribe.
  destruct (SubscriptionList_insert (subscriptions m) f reliable) as [[id|] l] eqn:Hi; cbn.
  2: { apply insert_refused in Hi as ->. destruct m. split; [done|apply no_new_kernel_refl]. }
  destruct (insert_targets _ _ _ _ _ Hi) as (Hid & _).
  assert (∀ o, mailboxes m !! id ≠ Some o) as Hfresh.
  { intros o Ho. pose proof (proj1 (mg_dom _ Hwf id) ltac:(eauto)) as (g & q & Hg)%elem_of_sl_ids.
    pose proof (wf_ids _ (mg_list _ Hwf) _ _ _ Hg). lia. }
  assert (∀ p, ¬ owns m p id) as Hno.
  { intros p Hp. destruct (mg_owned _ Hwf _ _ Hp) as [mb Hmb]. by apply (Hfresh (Some mb)). }
  pose proof (table_insert_spec (process_subscriptions m) pid) as Htab.
  split.
  - apply (insert_mailbox_wf m f reliable id l
      (Some (Mailbox_new (if pipe then NotConnected else PipeNone)))); [done..| | | |].
    + intros mb [= <-]. split; [apply mb_new_wf|done].
    + intros ->. eexists. split; [done|]. destruct pipe; [by discriminate Hpr|done].
    + intros p s [H|[-> _]]%Htab; [by left|right; eauto].
    + intros p p' [H|[_ <-]]%Htab [H'|[_ <-]]%Htab; try done;
        (by destruct (Hno p)) || (by destruct (Hno p')) || (by destruct (Hno pid)).
  - intros s Hs. cbn in Hs. by apply lookup_insert_Some in Hs as [[_ ?]|[_ ?]].
Qed.

Lemma kernel_subscribe_spec m f id m' :
  mg_wf m → filter_ok f → next_subscription_id (subscriptions m) < u64_max →
  Manager_kernel_subscribe m f = (Ok id, m') →
  mg_wf m' ∧ mailboxes m' = <[id := None]> (mailboxes m).
Proof.
  intros Hwf Hf Hn. unfold Manager_kernel_subscribe.
  destruct (SubscriptionList_insert (subscriptions m) f true) as [[i|] l] eqn:Hi; [|done].
  intros [= <- <-]. split; [|done].
  assert (∀ p s, owns m p s → owns m p s ∨ (s = i ∧ ∃ mb, @None Mailbox = Some mb)) by auto.
  pose proof (insert_mailbox_wf m f true i l None (process_subscriptions m)) as H'.
  apply H'; try done. intros p p' Hp Hp'. by apply (mg_owner _ Hwf p p' i).
Qed.

(** ** Events and the scheduler *)

Section sink.
Context `{HO : HashOrder} {S : Type} `{!EventSink S} {ok : S → Prop} `{!EventSinkLaws S ok}.
Implicit Types sched : S.

(** Nothing runnable is lost, and a blocked process stays blocked or becomes runnable. *)
Record sink_le sched sched' : Prop := {
  le_ok : ok sched';
  le_runnable : ∀ p, runnable sched p → runnable sched' p;
  le_blocked : ∀ e p, blocked_on sched e p → blocked_on sched' e p ∨ runnable sched' p;
}.

Lemma sink_le_refl sched : ok sched → sink_le sched sched.
Proof. split; auto. Qed.

Lemma sink_le_trans s1 s2 s3 : sink_le s1 s2 → sink_le s2 s3 → sink_le s1 s3.
Proof.
  intros [H1 H2 H3] [H4 H5 H6]. split; [done|auto|].
  intros e p Hb. destruct (H3 e p Hb); [auto|right; auto].
Qed.

Lemma sink_le_event sched e : ok sched → sink_le sched (on_explicit_event sched e).
Proof. split; [by apply event_ok|by intros; apply event_runnable|by intros; apply event_blocked]. Qed.

Lemma events_spec es sched :
  ok sched →
  let sched' := foldl on_explicit_event sched es in
  sink_le sched sched' ∧ ∀ e p, e ∈ es → blocked_on sched e p → runnable sched' p.
Proof.
  revert sched. induction es as [|e es IH]; intros sched Hok; cbn.
  { split; [by apply sink_le_refl|set_solver]. }
  pose proof (sink_le_event sched e Hok) as Hle.
  destruct (IH (on_explicit_event sched e)) as [Hle' Hw]; [apply Hle|].
  split; [by eapply sink_le_trans|]. intros e' p [->|Hin]%elem_of_cons Hb.
  - apply (le_runnable _ _ Hle'). by apply event_wakes.
  - destruct (le_blocked _ _ Hle e' p Hb) as [Hb'|Hr]; [by eapply Hw|].
    by apply (le_runnable _ _ Hle').
Qed.

Lemma consume_spec {A} (r : IpcResult A) sched :
  ok sched →
  ∃ sched', IpcResult_consume_events r sched = (ipc_value r, sched') ∧ sink_le sched sched' ∧
    ∀ e p, e ∈ ipc_events r → blocked_on sched e p → runnable sched' p.
Proof.
  intros Hok. destruct (events_spec (hash_order (ipc_events r)) sched Hok) as [Hle Hw].
  eexists. split; [done|]. split; [done|]. intros e p He. apply Hw.
  by apply elem_of_hash_order.
Qed.

(** ** Process termination *)

Lemma unsubscribe_loop_spec subs m sched :
  mg_wf m → ok sched → NoDup subs →
  (∀ s, s ∈ subs → ∃ mb, mailboxes m !! s = Some (Some mb)) →
  (∀ s p, s ∈ subs → ¬ owns m p s) →
  ∃ m' sched', unsubscribe_loop subs m sched = Ret (m', sched') ∧ mg_wf m' ∧
    sink_le sched sched' ∧
    (∀ s, mailboxes m' !! s = if decide (s ∈ subs) then None else mailboxes m !! s) ∧
    process_subscriptions m' = process_subscriptions m ∧
    (∀ p, delivery_result m !! p = Some (Err NoSubscriber) →
      delivery_result m' !! p = Some (Err NoSubscriber)) ∧
    (∀ s mb e p, s ∈ subs → mailboxes m !! s = Some (Some mb) → sender_of m (acks mb) e p →
      delivery_result m' !! p = Some (Err NoSubscriber) ∧
      (blocked_on sched e p → runnable sched' p)).
Proof.
  revert m sched. induction subs as [|s subs IH]; intros m sched Hwf Hok Hnd Hbox Hown.
  { exists m, sched. split_and!; try done; [by apply sink_le_refl|set_solver]. }
  apply NoDup_cons in Hnd as [Hs Hnd]. destruct (Hbox s ltac:(left)) as [mb Hmb].
  destruct (force_unsubscribe_spec m s mb Hwf Hmb) as
    (r & m1 & Hr & Hv & Hwf1 & Hm1 & Hps & _ & Hw1 & Hev & Hdr);
    [intros p; apply Hown; by left|].
  destruct (consume_spec r sched Hok) as (sched1 & Hc & Hle & Hwake).
  assert (∀ s', s' ≠ s → mailboxes m1 !! s' = mailboxes m !! s') as Hm1'.
  { intros s' Hne. rewrite Hm1. by apply lookup_delete_ne. }
  destruct (IH m1 sched1) as (m' & sched' & Hl & Hwf' & Hle' & Hbx & Hps' & Hmono & Hsend).
  - done.
  - apply Hle.
  - done.
  - intros s' Hs'. rewrite Hm1' by (by intros ->). apply Hbox. by right.
  - intros s' p Hs' Hp. apply (Hown s' p); [by right|]. unfold owns in *. by rewrite <- Hps.
  - exists m', sched'. cbn [unsubscribe_loop]. rewrite Hr. cbn [mbind outcome_bind].
    rewrite Hc, Hv.
    assert (∀ p, delivery_result m !! p = Some (Err NoSubscriber) ∨
      (∃ e, sender_of m (acks mb) e p) → delivery_result m' !! p = Some (Err NoSubscriber))
      as Hns.
    { intros p Hp. apply Hmono. destruct (Hdr p) as [[_ ->]|[Hn ->]]; [done|tauto]. }
    split_and!; [done|done|by eapply sink_le_trans| |congruence|eauto|].
    + intros s'. rewrite Hbx. destruct (decide (s' = s)) as [->|Hne].
      * rewrite decide_False by done. rewrite decide_True by (by left).
        rewrite Hm1. apply lookup_delete_eq.
      * rewrite Hm1' by done. repeat case_decide; set_solver.
    + intros s' mb' e p [->|Hin]%elem_of_cons Hmb' Hse.
      * simplify_eq. split; [eauto|]. intros Hb. apply (le_runnable _ _ Hle').
        apply (Hwake e p); [|done]. apply Hev. eauto.
      * assert (sender_of m1 (acks mb') e p) as Hse'.
        { destruct Hse as (a & Ha & Hwa). exists a. split; [done|]. rewrite Hw1.
          case_decide as Ha'; [|done]. exfalso.
          by rewrite (mg_disjoint _ Hwf s s' mb mb' a Hmb Hmb' Ha' Ha) in Hs. }
        destruct (Hsend s' mb' e p) as [Hd Hb']; [done|rewrite Hm1'; [done|by intros ->]|done|].
        split; [done|]. intros Hb.
        destruct (le_blocked _ _ Hle e p Hb) as [?|?]; [auto|]. by apply (le_runnable _ _ Hle').
Qed.

(** A mailbox after the termination of [pid]. *)
Definition disconnected (pid : ProcessId) (mb : Mailbox) : Mailbox :=
  if bool_decide (pipe_mode mb = ConnectedTo pid) then
    set_mb_queue (EventQueue_take_event (mb_queue mb)).2 (set_pipe_mode Disconnected mb)
  else mb.

Lemma disconnected_wf pid mb :
  mb_wf mb → mb_wf (disconnected pid mb) ∧ acks (disconnected pid mb) = acks mb ∧
    (pipe_mode mb = PipeNone → pipe_mode (disconnected pid mb) = PipeNone).
Proof.
  intros [[Hb Ha] Hl Hn]. unfold disconnected. case_bool_decide as Hp; [|by split_and!].
  split_and!; [|done|congruence]. split; [|done|done]. by split.
Qed.

Lemma disconnect_spec s m sched pid :
  mg_wf m → ok sched →
  let '(m', sched') := disconnect s m sched pid in
  mg_wf m' ∧ sink_le sched sched' ∧
  m' = set_mailboxes (mailboxes m') m ∧
  (∀ s', mailboxes m' !! s' = if decide (s' = s) then fmap (disconnected pid) <$> mailboxes m !! s
                              else mailboxes m !! s') ∧
  (∀ mb e p, mailboxes m !! s = Some (Some mb) → pipe_mode mb = ConnectedTo pid →
    event (mb_queue mb) = Some e → blocked_on sched e p → runnable sched' p).
Proof.
  intros Hwf Hok. unfold disconnect.
  assert (mailboxes m !! s ≠ None → fmap (disconnected pid) <$> mailboxes m !! s = mailboxes m !! s →
    ∀ s', mailboxes m !! s' = if decide (s' = s)
      then fmap (disconnected pid) <$> mailboxes m !! s else mailboxes m !! s') as Hsame.
  { intros _ E s'. case_decide; [by subst|done]. }
  destruct (mailboxes m !! s) as [[mb|]|] eqn:Hs.
  - pose proof (mg_box _ Hwf _ _ Hs) as Hmb.
    destruct (disconnected_wf pid mb Hmb) as (Hmb' & Ha & Hp).
    case_bool_decide as Hpm.
    + assert (disconnected pid mb = set_mb_queue (EventQueue_take_event (mb_queue mb)).2
        (set_pipe_mode Disconnected mb)) as Ed.
      { unfold disconnected. by rewrite bool_decide_eq_true_2. }
      cbn in Ed |- *. rewrite <- Ed. split_and!.
      * apply (put_wf m s mb); [done|done|done|done|]. intros a. rewrite Ha. by left.
      * case_match; [by apply sink_le_event|by apply sink_le_refl].
      * by destruct m.
      * intros s'. apply put_mailbox_lookup.
      * intros ? e p [= <-] _ -> Hb. by apply event_wakes.
    + split_and!; [done|by apply sink_le_refl|by destruct m| |congruence].
      apply Hsame; [done|]. cbn. unfold disconnected. by rewrite bool_decide_eq_false_2.
  - split_and!; [done|by apply sink_le_refl|by destruct m|by apply Hsame|done].
  - split_and!; [done|by apply sink_le_refl|by destruct m| |done].
    intros s'. case_decide; [by subst|done].
Qed.

Lemma disconnect_loop_spec subs m sched pid :
  mg_wf m → ok sched → NoDup subs →
  let '(m', sched') := disconnect_loop subs m sched pid in
  mg_wf m' ∧ sink_le sched sched' ∧ m' = set_mailboxes (mailboxes m') m ∧
  (∀ s, mailboxes m' !! s = if decide (s ∈ subs) then fmap (disconnected pid) <$> mailboxes m !! s
                            else mailboxes m !! s) ∧
  (∀ s mb e p, s ∈ subs → mailboxes m !! s = Some (Some mb) → pipe_mode mb = ConnectedTo pid →
    event (mb_queue mb) = Some e → blocked_on sched e p → runnable sched' p).
Proof.
  revert m sched. induction subs as [|s subs IH]; intros m sched Hwf Hok Hnd; cbn.
  { split_and!; [done|by apply sink_le_refl|by destruct m|done|set_solver]. }
  apply NoDup_cons in Hnd as [Hs Hnd]. pose proof (disconnect_spec s m sched pid Hwf Hok) as H.
  destruct (disconnect s m sched pid) as [m1 sched1].
  destruct H as (Hwf1 & Hle & Hm1 & Hb1 & Hw1).
  pose proof (IH m1 sched1 Hwf1 (le_ok _ _ Hle) Hnd) as H.
  destruct (disconnect_loop subs m1 sched1 pid) as [m2 sched2].
  destruct H as (Hwf2 & Hle2 & Hm2 & Hb2 & Hw2).
  split_and!; [done|by eapply sink_le_trans|rewrite Hm2, Hm1; by destruct m| |].
  - intros s'. rewrite Hb2, !Hb1. repeat case_decide; set_solver.
  - intros s' mb e p [->|Hin]%elem_of_cons Hmb Hp He Hbl.
    + apply (le_runnable _ _ Hle2). by eapply Hw1.
    + destruct (le_blocked _ _ Hle e p Hbl) as [?|?]; [|by apply (le_runnable _ _ Hle2)].
      eapply Hw2; [done| |done..]. rewrite Hb1, decide_False; [done|]. by intros ->.
Qed.

Lemma on_process_over_spec m sched pid :
  mg_wf m → ok sched →
  ∃ m' sched', Manager_on_process_over m sched pid = Ret (m', sched') ∧ mg_wf m' ∧
    sink_le sched sched' ∧ (∀ s, ¬ owns m' pid s) ∧
    (∀ s, owns m pid s → mailboxes m' !! s = None) ∧
    (∀ s, ¬ owns m pid s → mailboxes m' !! s = fmap (disconnected pid) <$> mailboxes m !! s) ∧
    (∀ s mb e p, owns m pid s → mailboxes m !! s = Some (Some mb) → sender_of m (acks mb) e p →
      delivery_result m' !! p = Some (Err NoSubscriber) ∧
      (blocked_on sched e p → runnable sched' p)) ∧
    (∀ s mb e p, ¬ owns m pid s → mailboxes m !! s = Some (Some mb) →
      pipe_mode mb = ConnectedTo pid → event (mb_queue mb) = Some e →
      blocked_on sched e p → runnable sched' p).
Proof.
  intros Hwf Hok. set (subs := default ∅ (process_subscriptions m !! pid)).
  set (m0 := set_process_subscriptions (delete pid (process_subscriptions m)) m).
  assert (∀ s, s ∈ subs ↔ owns m pid s) as Hsubs.
  { intros s. unfold owns, subs. destruct (process_subscriptions m !! pid); set_solver. }
  assert (mg_wf m0) as Hwf0.
  { apply disown_wf; [done|]. intros p s (ss & Hss & ?).
    apply lookup_delete_Some in Hss as [_ ?]. by exists ss. }
  assert (∀ p s, s ∈ subs → ¬ owns m0 p s) as Hno.
  { intros p s Hs%Hsubs (ss & Hss & Hin). cbn in Hss.
    apply lookup_delete_Some in Hss as [Hne Hss]. apply Hne.
    apply (mg_owner _ Hwf _ _ s); [done|by exists ss]. }
  destruct (unsubscribe_loop_spec (hash_order subs) m0 sched)
    as (m1 & sched1 & E1 & Hwf1 & Hle1 & Hb1 & Hps1 & _ & Hs1); [done|done| | | |].
  { apply NoDup_hash_order. }
  { intros s Hs%elem_of_hash_order%Hsubs. by apply (mg_owned _ Hwf pid). }
  { intros s p Hs%elem_of_hash_order. by apply Hno. }
  pose proof (disconnect_loop_spec (hash_order (dom (mailboxes m1))) m1 sched1 pid
    Hwf1 (le_ok _ _ Hle1) (NoDup_hash_order _)) as H2.
  assert (Manager_on_process_over m sched pid =
    Ret (disconnect_loop (hash_order (dom (mailboxes m1))) m1 sched1 pid)) as Er.
  { unfold Manager_on_process_over. subst subs m0.
    destruct (process_subscriptions m !! pid) as [ss|] eqn:Ep; cbn [from_option id] in E1.
    - rewrite E1. done.
    - assert (delete pid (process_subscriptions m) = process_subscriptions m) as Ed
        by (by apply delete_id).
      rewrite Ed in E1. assert (hash_order (∅ : gset SubscriptionId) = []) as Eh.
      { apply Permutation_nil_r. by rewrite hash_order_perm, elements_empty. }
      cbn in E1. rewrite Eh in E1. cbn in E1. injection E1 as <- <-. by destruct m. }
  destruct (disconnect_loop _ m1 sched1 pid) as [m2 sched2].
  destruct H2 as (Hwf2 & Hle2 & Hm2 & Hb2 & Hw2).
  exists m2, sched2. split_and!; [done|done|by eapply sink_le_trans| | | | |].
  - intros s (ss & Hss & _). rewrite Hm2 in Hss. cbn in Hss. rewrite Hps1 in Hss.
    cbn in Hss. by apply lookup_delete_Some in Hss as [? _].
  - intros s Hs. rewrite Hb2, Hb1.
    rewrite (decide_True (P := s ∈ hash_order subs)) by (by apply elem_of_hash_order, Hsubs).
    by case_decide.
  - intros s Hs. rewrite Hb2, Hb1.
    rewrite (decide_False (P := s ∈ hash_order subs)) by (by rewrite elem_of_hash_order, Hsubs).
    case_decide as Hd; [done|]. rewrite elem_of_hash_order, not_elem_of_dom, Hb1 in Hd.
    rewrite decide_False in Hd by (by rewrite elem_of_hash_order, Hsubs).
    cbn in Hd |- *. by rewrite Hd.
  - intros s mb e p Hs Hmb Hse. destruct (Hs1 s mb e p) as [Hd Hr];
      [by apply elem_of_hash_order, Hsubs|done|done|].
    split; [by rewrite Hm2|]. intros Hbl. apply (le_runnable _ _ Hle2). auto.
  - intros s mb e p Hs Hmb Hp He Hbl.
    assert (mailboxes m1 !! s = Some (Some mb)) as Hmb1.
    { rewrite Hb1, decide_False; [done|]. by rewrite elem_of_hash_order, Hsubs. }
    destruct (le_blocked _ _ Hle1 e p Hbl); [|by apply (le_runnable _ _ Hle2)].
    eapply Hw2; [|done..]. apply elem_of_hash_order, elem_of_dom. eauto.
Qed.

Lemma kernel_publish_spec m sched name t d :
  mg_wf m → ok sched → Topic_new name = Some t →
  ∃ m' sched', kernel_publish m sched name (Some d) = Ret (m', sched') ∧ mg_wf m' ∧
    sink_le sched sched' ∧ no_new_kernel m m' ∧
    process_subscriptions m' = process_subscriptions m ∧
    delivery_result m' = delivery_result m.
Proof.
  intros Hwf Hok Ht. unfold kernel_publish. cbn. rewrite Ht. cbn.
  destruct (publish_spec t d m Hwf) as (E & B & -> & Hwf' & HB & _). cbn.
  destruct (events_spec (hash_order E) sched Hok) as [Hle _].
  eexists _, _. split; [done|]. split_and!; [done|done| |done|done].
  intros s. cbn. rewrite HB. case_decide; [|done]. by destruct (mailboxes m !! s) as [[mb|]|].
Qed.

Lemma on_process_over_kernel m m' sched sched' pid :
  mg_wf m → ok sched → Manager_on_process_over m sched pid = Ret (m', sched') →
  no_new_kernel m m'.
Proof.
  intros Hwf Hok E. destruct (on_process_over_spec m sched pid Hwf Hok)
    as (m2 & sched2 & E2 & _ & _ & _ & Ho & Hno & _).
  rewrite E in E2. injection E2 as <- <-.
  intros s Hs. destruct (Manager_process_owns m pid s) eqn:Eo.
  - apply process_owns_spec in Eo. by rewrite Ho in Hs.
  - rewrite Hno in Hs by (rewrite <- process_owns_spec; by rewrite Eo).
    by destruct (mailboxes m !! s) as [[mb|]|].
Qed.

End sink.

(** ** The calls *)

Inductive ipc_call :=
| CSubscribe (pid : ProcessId) (filter : string) (flags : Z)
| CUnsubscribe (pid : ProcessId) (s : SubscriptionId)
| CPublish (t : Topic) (d : list byte)
| CDeliver (pid : ProcessId) (t : Topic) (d : list byte)
| CDeliverReply (pid : ProcessId) (t : Topic) (d : list byte)
| CAfterDelivery (pid : ProcessId)
| CWaitingFor (s : SubscriptionId)
| CReceive (pid : ProcessId) (s : SubscriptionId)
| CAcknowledge (s : SubscriptionId) (a : AcknowledgeId) (positive : bool)
| CProcessOver (pid : ProcessId).

Section calls.
Context `{HO : HashOrder} `{PC : Pinecone} (rd : InitRD).
Context {S : Type} `{!EventSink S} {ok : S → Prop} `{!EventSinkLaws S ok}.
Context (services : gmap SubscriptionId Service).

Abbreviation state := (Manager * Z * S)%type.

Definition finish {A} (r : IpcResult A) (m : Manager) (n : Z) (sched : S) : state :=
  (m, n, (IpcResult_consume_events r sched).2).

(** One call, with its events relayed to the scheduler. *)
Definition ipc_run (c : ipc_call) (st : state) : outcome state :=
  let '(m, n, sched) := st in
  match c with
  | CSubscribe pid filter flags =>
      match SubscriptionFlags_from_bits flags with
      | None => Ret st
      | Some flags =>
          match TopicFilter_try_new filter (negb (flags_contains flags SubscriptionFlags_PREFIX)) with
          | None => Ret st
          | Some f =>
              Ret ((Manager_subscribe m pid f (flags_contains flags SubscriptionFlags_RELIABLE)
                     (flags_contains flags SubscriptionFlags_PIPE)).2, n, sched)
          end
      end
  | CUnsubscribe pid s => '(r, m) ← Manager_unsubscribe m pid s; Ret (finish r m n sched)
  | CPublish t d => '(r, m) ← Manager_publish m t d; Ret (finish r m n sched)
  | CDeliver pid t d =>
      '(r, m, n) ← Manager_deliver rd services m pid t d n; Ret (finish r m n sched)
  | CDeliverReply pid t d => '(r, m) ← Manager_deliver_reply m pid t d; Ret (finish r m n sched)
  | CAfterDelivery pid => '(r, m) ← Manager_after_delivery m pid; Ret (finish r m n sched)
  | CWaitingFor s => '(_, m, n) ← Manager_waiting_for m s n; Ret (m, n, sched)
  | CReceive pid s => '(r, m, n) ← Manager_receive m pid s n; Ret (finish r m n sched)
  | CAcknowledge s a positive =>
      '(r, m) ← Manager_acknowledge m s a positive; Ret (finish r m n sched)
  | CProcessOver pid => '(m, sched) ← Manager_on_process_over m sched pid; Ret (m, n, sched)
  end.

(** A request the kernel service can answer. *)
Definition request_ok (m : Manager) (d : list byte) : Prop :=
  ∃ reply path, pinecone_from_bytes d = Some (reply, path) ∧ returns (initrd_read rd path) ∧
    (∀ file, is_Some (pinecone_to_vec file)) ∧
    ∀ t, Topic_new reply = Some t → kernel_reply_ok m t.

(** The callers' side of each call. *)
Definition ipc_ok (m : Manager) (c : ipc_call) : Prop :=
  match c with
  | CSubscribe _ _ _ => next_subscription_id (subscriptions m) < u64_max
  | CDeliver _ t d =>
      next_acknowledge_id m + 1 < u64_max ∧
      ∀ s, s ∈ SubscriptionList_find_all (subscriptions m) t true →
        mailboxes m !! s = Some None → request_ok m d
  | CDeliverReply _ t _ => reply_ok m t
  | CAfterDelivery pid => is_Some (delivery_result m !! pid)
  | CWaitingFor s => ∃ mb, mailboxes m !! s = Some (Some mb)
  | CAcknowledge _ a _ => is_Some (waiting_for_delivery m !! a) ∧ ¬ stored_ack m a
  | _ => True
  end.

Record ipc_inv (st : state) : Prop := {
  inv_mg : mg_wf st.1.1;
  inv_sink : ok st.2;
  inv_services : ∀ s, mailboxes st.1.1 !! s = Some None → is_Some (services !! s);
}.

Lemma finish_inv {A} (r : IpcResult A) m m' n n' sched :
  ipc_inv (m, n, sched) → mg_wf m' →
  no_new_kernel m m' →
  ipc_inv (finish r m' n' sched).
Proof.
  intros [Hmg Hsink Hsv] Hwf Hk. cbn in *.
  destruct (consume_spec r sched Hsink) as (sched' & E & Hle & _).
  unfold finish. rewrite E. split; cbn; [done|apply Hle|auto].
Qed.

Lemma service_spec m pid t d a s :
  mg_wf m → next_acknowledge_id m < u64_max → request_ok m d → is_Some (services !! s) →
  ∃ r m', services_incoming rd services m pid s
      {| topic := topic_str t; data := d; ack_id := Some a |} = Ret (r, m') ∧
    mg_wf m' ∧ no_new_kernel m m'.
Proof.
  intros Hwf Hn (reply & path & Hd & [file Hf] & Hv & Hr) [sv Hsv].
  unfold services_incoming. rewrite Hsv. destruct sv. cbn. unfold services_initrd_read. cbn.
  rewrite Hd. cbn. destruct (Topic_new reply) as [rt|] eqn:Ht; cbn; [|eauto 10 with d7].
  rewrite Hf. cbn. destruct file as [file|]; cbn; [|eauto 10 with d7].
  destruct (Hv file) as [v ->].
  destruct (kernel_deliver_reply_spec m rt v Hwf (Hr rt eq_refl) Hn)
    as (r & m' & -> & Hwf' & Hk & _). cbn. eauto 10.
Qed.

Lemma deliver_spec m pid t d n sched :
  ipc_inv (m, n, sched) → ipc_ok m (CDeliver pid t d) →
  ∃ r m' n', Manager_deliver rd services m pid t d n = Ret (r, m', n') ∧ mg_wf m' ∧
    no_new_kernel m m'.
Proof.
  intros [Hwf _ Hsv] [Hn Hreq]. cbn in Hwf, Hsv. unfold Manager_deliver.
  destruct (reliable_target_spec t m Hwf) as [[-> _]|(s & o & -> & Ho & Hall)]; cbn.
  { eauto 10 with d7. }
  rewrite Ho. cbn. destruct o as [mb|].
  - destruct (deliver_process_spec m pid s mb t d n Hwf Ho) as (r & m' & n' & -> & Hwf' & Hc);
      [lia|]. eexists _, _, _. split; [done|]. split; [done|].
    destruct (pipe_accept (pipe_mode mb) pid); [|destruct Hc as (_ & -> & _); by intros s'].
    destruct (full mb); destruct Hc as (_ & _ & ->); intros s' Hs';
      by apply put_no_new_kernel in Hs'.
  - set (m1 := set_next_acknowledge_id _ m).
    assert (next_acknowledge_id m1 = next_acknowledge_id m + 1) as Hn1.
    { pose proof (mg_next_ack _ Hwf) as [? _]. apply AcknowledgeId_next_small. lia. }
    assert (mg_wf m1) as Hwf1.
    { apply set_next_ack_wf; [done|]. unfold m1 in Hn1. cbn in Hn1. rewrite Hn1.
      unfold u64_max in Hn. lia. }
    destruct (service_spec m1 pid t d (next_acknowledge_id m) s)
      as (r & m' & -> & Hwf' & Hk); [done|lia| |by apply Hsv|].
    { apply (Hreq s); [rewrite Hall; set_solver|done]. }
    cbn. eexists _, _, _. split; [done|]. by split.
Qed.

(** Every permitted call returns and keeps the invariant. *)
Lemma ipc_run_inv c st :
  ipc_inv st → ipc_ok st.1.1 c → ∃ st', ipc_run c st = Ret st' ∧ ipc_inv st'.
Proof.
  destruct st as [[m n] sched]. intros Hinv Hok. pose proof Hinv as [Hwf Hs Hsv].
  cbn in Hwf, Hs, Hsv, Hok.
  destruct c as [pid filter flags|pid s|t d|pid t d|pid t d|pid|s|pid s|s a pos|pid]; cbn.
  - destruct (SubscriptionFlags_from_bits flags) as [fl|]; [|eauto].
    destruct (TopicFilter_try_new filter _) as [f|] eqn:Hf; [|eauto].
    apply TopicFilter_try_new_ok in Hf. eexists. split; [done|].
    destruct (subscribe_spec m pid f (flags_contains fl SubscriptionFlags_RELIABLE)
      (flags_contains fl SubscriptionFlags_PIPE) Hwf Hf Hok (pipe_is_reliable fl)) as [? Hk].
    split; cbn; [done|done|]. intros s Hs'. by apply Hsv, Hk.
  - destruct (unsubscribe_spec m pid s Hwf) as (r & m' & -> & Hwf' & _ & _ & Hk).
    cbn. eexists. split; [done|]. by eapply finish_inv.
  - destruct (publish_spec t d m Hwf) as (E & B & -> & Hwf' & HB & _).
    cbn. eexists. split; [done|]. eapply finish_inv; [done|done|].
    intros s. cbn. rewrite HB. case_decide; [|done].
    by destruct (mailboxes m !! s) as [[mb|]|].
  - destruct (deliver_spec m pid t d n sched Hinv Hok) as (r & m' & n' & -> & Hwf' & Hk).
    cbn. eexists. split; [done|]. by eapply finish_inv.
  - destruct (deliver_reply_spec m pid t d Hwf Hok) as (r & m' & -> & Hwf' & Hk).
    cbn. eexists. split; [done|]. by eapply finish_inv.
  - destruct Hok as [r Hr]. destruct (after_delivery_spec m pid r Hr) as (m' & -> & Hm & _ & Hwf').
    cbn. eexists. split; [done|]. eapply finish_inv; [done|auto|].
    intros s. by rewrite Hm.
  - destruct Hok as [mb Hmb].
    destruct (waiting_for_spec m s mb n Hwf Hmb) as (w & m' & n' & -> & Hwf' & Hk & _).
    cbn. eexists. split; [done|]. split; cbn; [done|done|]. intros s' Hs'. by apply Hsv, Hk.
  - destruct (receive_spec m pid s n Hwf) as [[-> _]|(mb & r & n' & _ & Hmb & _ & ->)]; cbn;
      (eexists; split; [done|]).
    + eapply finish_inv; [done|done|apply no_new_kernel_refl].
    + eapply finish_inv; [done|by apply pop_wf|apply put_no_new_kernel].
  - destruct Hok as [[[e p] Ha] Hns].
    destruct (acknowledge_spec m s a pos e p Ha) as (m' & -> & Hm & _ & _ & Hwf').
    cbn. eexists. split; [done|]. eapply finish_inv; [done|auto|]. intros s'. by rewrite Hm.
  - destruct (on_process_over_spec m sched pid Hwf Hs) as (m' & sched' & E & Hwf' & Hle & _).
    pose proof (on_process_over_kernel _ _ _ _ _ Hwf Hs E) as Hk. rewrite E.
    cbn. eexists. split; [done|]. split; cbn; [done|apply Hle|].
    intros s Hs'. by apply Hsv, Hk.
Qed.

(** ** Histories *)

Inductive ipc_reach : state → Prop :=
| reach_boot m n sched :
    services_init ∅ Manager_new = Ret (services, m) → ok sched → ipc_reach (m, n, sched)
| reach_call c st st' :
    ipc_reach st → ipc_ok st.1.1 c → ipc_run c st = Ret st' → ipc_reach st'.

Lemma boot_inv m n sched :
  services_init ∅ Manager_new = Ret (services, m) → ok sched → ipc_inv (m, n, sched).
Proof.
  unfold services_init, services_register_exact, services_register. intros H Hok.
  apply outcome_bind_ret in H as (f & Hf & H). apply expect_ret, TopicFilter_try_new_ok in Hf.
  destruct (Manager_kernel_subscribe Manager_new f) as [[sub|] m'] eqn:Hs; [|done].
  destruct (kernel_subscribe_spec Manager_new f sub m' mg_new_wf Hf) as [Hwf Hm]; [done|done|].
  injection H as Hsv <-. split; cbn; [done|done|]. intros s. rewrite Hm.
  intros [[<- _]|[_ H']]%lookup_insert_Some; [rewrite <- Hsv, lookup_insert_eq; eauto|done].
Qed.

Lemma ipc_reach_inv st : ipc_reach st → ipc_inv st.
Proof.
  induction 1 as [m n sched Hi Hok|c st st' _ IH Hok Hr]; [by apply boot_inv|].
  destruct (ipc_run_inv c st IH Hok) as (st2 & E & ?). congruence.
Qed.

End calls.

(** ** The round trip of a reliable message *)

(** [k] consecutive [receive] calls, and the messages they return. *)
Fixpoint receive_all (k : nat) (m : Manager) (pid : ProcessId) (s : SubscriptionId) (n : Z)
    : outcome (list Message * Manager * Z) :=
  match k with
  | O => Ret ([], m, n)
  | S k =>
      '(r, m, n) ← Manager_receive m pid s n;
      match ipc_value r with
      | Ok (Ok x) => '(xs, m, n) ← receive_all k m pid s n; Ret (x :: xs, m, n)
      | _ => Ret ([], m, n)
      end
  end.

Lemma receive_all_spec xs m pid s n mb :
  mg_wf m → owns m pid s → mailboxes m !! s = Some (Some mb) → queue (mb_queue mb) = xs →
  ∃ mb' n', receive_all (length xs) m pid s n = Ret (xs, put_mailbox s mb' m, n') ∧
    mg_wf (put_mailbox s mb' m) ∧ queue (mb_queue mb') = [] ∧ pipe_mode mb' = pipe_mode mb.
Proof.
  revert m n mb. induction xs as [|x xs IH]; intros m n mb Hwf Hown Hmb Hq;
    cbn [receive_all length].
  { exists mb, n. unfold put_mailbox. rewrite insert_id by done. by destruct m. }
  destruct (receive_spec m pid s n Hwf) as [[_ ?]|(mb2 & r & n' & _ & Hmb2 & Hpop & ->)]; [done|].
  simplify_eq. cbn [mbind outcome_bind ipc_value IpcResult_success].
  pose proof (pop_or_event_spec (mb_queue mb) n (mb_eq _ (mg_box _ Hwf _ _ Hmb))) as Hp.
  unfold Mailbox_pop_or_event in Hpop.
  destruct (EventQueue_pop_or_event (mb_queue mb) n) as [[[y|e] q'] n2]; simplify_eq;
    [|destruct Hp as (Hp & _); congruence].
  destruct Hp as (Hp & _). rewrite Hq in Hp. injection Hp as <- Hqs.
  assert (popped mb n = set_mb_queue q' mb) as Hpo by congruence.
  destruct (IH (put_mailbox s (popped mb n) m) n' (popped mb n)) 
    as (mb' & n3 & E & Hwf' & ? & Hpm).
  - by apply pop_wf.
  - done.
  - by rewrite put_mailbox_lookup, decide_True.
  - by rewrite Hpo.
  - assert (put_mailbox s mb' (put_mailbox s (popped mb n) m) = put_mailbox s mb' m) as Epp.
    { unfold put_mailbox. cbn. by rewrite insert_insert_eq. }
    rewrite Epp in E, Hwf'. exists mb', n3. rewrite E. cbn. split_and!; [done|done|done|].
    by rewrite Hpm, Hpo.
Qed.

(** ** Properties *)

(** C2: from boot on, every permitted call of the IPC manager returns: no [unwrap], [expect],
    [assert!] or [panic!] of the manager, its mailboxes or the kernel service is reached, and the
    invariant of the manager holds afterwards.  [ipc_ok] lists what the callers must respect. *)
Theorem ipc_never_panics `{HO : HashOrder} `{PC : Pinecone} rd
    {S} `{!EventSink S} {ok : S → Prop} `{!EventSinkLaws S ok}
    services (st : Manager * Z * S) c
    (Hr : ipc_reach (ok := ok) rd services st) (Hok : ipc_ok rd st.1.1 c) :
  ∃ st', ipc_run rd services c st = Ret st' ∧ mg_wf st'.1.1.
Proof.
  destruct (ipc_run_inv rd services c st (ipc_reach_inv rd services st Hr) Hok)
    as (st' & E & Hinv). exists st'. split; [done|apply Hinv].
Qed.

(** A stand-in for the serialiser, used to evaluate examples. *)
Definition example_pinecone : Pinecone :=
  {| pinecone_from_bytes _ := None; pinecone_to_vec d := Some d |}.

Definition example_services : gmap SubscriptionId Service := {[0 := InitrdRead]}.

Definition example_manager : Manager :=
  (Manager_kernel_subscribe Manager_new (Exact (MkTopic "initrd/read"))).2.

Lemma ipc_never_panics_witness :
  ∃ st', ipc_run (PC := example_pinecone) {| files := ∅; slice := [] |} example_services
    (CPublish (MkTopic "a") [1; 2]) (example_manager, 0, Queues_new) = Ret st' ∧
    mg_wf st'.1.1.
Proof.
  apply (ipc_never_panics (PC := example_pinecone) {| files := ∅; slice := [] |}
    example_services (example_manager, 0, Queues_new) (CPublish (MkTopic "a") [1; 2])).
  - apply reach_boot; [vm_compute; reflexivity|apply qs_new_wf].
  - exact I.
Defined.

(** C10: a reliable message makes the full round trip.  An accepted delivery returns a fresh
    event to wait for; the receiver reads the messages stored before it, in order, and then the
    message itself with its acknowledge id; acknowledging it raises exactly the sender's event,
    wakes the sender if it is blocked on it, and the sender's repeated call reports the
    receiver's answer. *)
Theorem delivery_round_trip `{HO : HashOrder} `{PC : Pinecone} rd
    {S} `{!EventSink S} {ok : S → Prop} `{!EventSinkLaws S ok}
    services m sender receiver t d n s mb mode positive (sched : S)
    (Hwf : mg_wf m) (Hs : SubscriptionList_find_all (subscriptions m) t true = {[s]})
    (Hmb : mailboxes m !! s = Some (Some mb)) (Hown : owns m receiver s)
    (Hpipe : pipe_accept (pipe_mode mb) sender = Ok mode) (Hroom : full mb = false)
    (Hack : next_acknowledge_id m < u64_max) (Hok : ok sched) :
  let a := next_acknowledge_id m in
  ∃ m1 n1 m2 n2 r m3 m4,
    Manager_deliver rd services m sender t d n =
      Ret (MkIpcResult (Ok (DeliverProcess n)) (trigger_set (event (mb_queue mb)) ∪ ∅), m1, n1) ∧
    receive_all (length (queue (mb_queue mb)) + 1) m1 receiver s n1 =
      Ret (queue (mb_queue mb) ++ [{| topic := topic_str t; data := d; ack_id := Some a |}],
           m2, n2) ∧
    Manager_acknowledge m2 s a positive = Ret (r, m3) ∧ ipc_value r = Ok tt ∧
    ipc_events r = {[n]} ∧
    (blocked_on sched n sender → runnable (IpcResult_consume_events r sched).2 sender) ∧
    Manager_after_delivery m3 sender =
      Ret (if positive then IpcResult_success tt
           else IpcResult_error (Delivery NegativeAcknowledgement), m4) ∧
    waiting_for_delivery m4 !! a = None.
Proof.
  intros a.
  destruct (deliver_process_spec m sender s mb t d n Hwf Hmb Hack)
    as (r1 & m1 & n1 & E1 & Hwf1 & Hc).
  rewrite Hpipe, Hroom in Hc. destruct Hc as (-> & Hn1 & Hm1).
  assert (Manager_deliver rd services m sender t d n =
    Ret (MkIpcResult (Ok (DeliverProcess n)) (trigger_set (event (mb_queue mb)) ∪ ∅), m1, n1))
    as Ed.
  { unfold Manager_deliver.
    destruct (reliable_target_spec t m Hwf) as [[_ He]|(s' & o & -> & Ho & Hs')].
    { rewrite He in Hs. set_solver. }
    assert (s' = s) as -> by set_solver. cbn. rewrite Hmb. exact E1. }
  set (msg := {| topic := topic_str t; data := d; ack_id := Some a |}) in *.
  destruct (receive_all_spec (queue (mb_queue mb) ++ [msg]) m1 receiver s n1
    (stored msg (set_pipe_mode mode mb))) as (mb' & n2 & E2 & _).
  { done. }
  { by rewrite Hm1. }
  { by rewrite Hm1, put_mailbox_lookup, decide_True. }
  { by rewrite stored_room. }
  rewrite length_app in E2. cbn in E2.
  destruct (acknowledge_spec (put_mailbox s mb' m1) s a positive n sender)
    as (m3 & E3 & _ & Hw3 & Hd3 & _).
  { rewrite Hm1. cbn. apply lookup_insert_eq. }
  destruct (after_delivery_spec m3 sender
    (if positive then Ok tt else Err NegativeAcknowledgement)) as (m4 & E4 & _ & _ & _).
  { rewrite Hd3. apply lookup_insert_eq. }
  pose proof E4 as E4'. unfold Manager_after_delivery in E4'. outcome_inv.
  eexists m1, n1, _, n2, _, m3, m4. split_and!; [done|done|done|done|set_solver| | |].
  - destruct (consume_spec (MkIpcResult (Ok tt) ({[n]} ∪ ∅)) sched Hok)
      as (sched' & -> & _ & Hwake). apply Hwake. set_solver.
  - rewrite E4. by destruct positive.
  - simplify_eq. cbn. rewrite Hw3. apply lookup_delete_eq.
Qed.

(** Process 2 subscribed to one topic. *)
Definition example_subscribed (reliable pipe : bool) : Manager :=
  (Manager_subscribe Manager_new 2 (Exact (MkTopic "a")) reliable pipe).2.

Definition example_mailbox (mode : PipeMode) : Mailbox :=
  {| mb_queue := {| queue := []; event := None; limit := 100 |}; pipe_mode := mode |}.

Lemma example_subscribed_wf reliable pipe :
  (pipe = true → reliable = true) → mg_wf (example_subscribed reliable pipe).
Proof.
  intros Hp. apply subscribe_spec; [apply mg_new_wf|by vm_compute|done|done].
Qed.

Lemma delivery_round_trip_witness :
  ∃ m1 n1 m2 n2,
    Manager_deliver (PC := example_pinecone) {| files := ∅; slice := [] |} ∅
      (example_subscribed true false) 1 (MkTopic "a") [7] 3 =
      Ret (MkIpcResult (Ok (DeliverProcess 3)) (∅ ∪ ∅), m1, n1) ∧
    receive_all 1 m1 2 0 n1 =
      Ret ([{| topic := "a"; data := [7]; ack_id := Some 0 |}], m2, n2).
Proof.
  destruct (delivery_round_trip (PC := example_pinecone) {| files := ∅; slice := [] |} ∅
    (example_subscribed true false) 1 2 (MkTopic "a") [7] 3 0 (example_mailbox PipeNone)
    PipeNone true Queues_new)
    as (m1 & n1 & m2 & n2 & r & m3 & m4 & E1 & E2 & _).
  - by apply example_subscribed_wf.
  - vm_compute. reflexivity.
  - vm_compute. reflexivity.
  - exists {[0]}. split; [vm_compute; reflexivity|set_solver].
  - reflexivity.
  - reflexivity.
  - reflexivity.
  - apply qs_new_wf.
  - exists m1, n1, m2, n2. exact (conj E1 E2).
Defined.

(** [publish] never fails and is exact: every unreliable subscriber whose filter matches
    gets the message appended unless its mailbox already holds the limit, every other mailbox
    and all other state is unchanged, and the raised events are exactly those the reached
    receivers wait for. *)
Theorem publish_exact `{HO : HashOrder} m t d (Hwf : mg_wf m) :
  let msg := {| topic := topic_str t; data := d; ack_id := None |} in
  let subs := SubscriptionList_find_all (subscriptions m) t false in
  ∃ E B, Manager_publish m t d = Ret (MkIpcResult (Ok tt) E, set_mailboxes B m) ∧
    (∀ s mb, s ∈ subs → mailboxes m !! s = Some (Some mb) →
      B !! s = Some (Some (if full mb then mb else
        {| mb_queue := {| queue := queue (mb_queue mb) ++ [msg]; event := None;
                          limit := MAILBOX_BUFFER_LIMIT |};
           pipe_mode := PipeNone |}))) ∧
    (∀ s, s ∉ subs → B !! s = mailboxes m !! s) ∧
    (∀ e, e ∈ E ↔ ∃ s mb, s ∈ subs ∧ mailboxes m !! s = Some (Some mb) ∧
      event (mb_queue mb) = Some e).
Proof.
  intros msg subs. destruct (publish_spec t d m Hwf) as (E & B & Hp & _ & HB & HE).
  exists E, B. split_and!; [done| |intros s Hs; by rewrite HB, decide_False|done].
  intros s mb Hs Hmb. rewrite HB, decide_True, Hmb by done. cbn. do 2 f_equal.
  pose proof Hs as (f & Hf & _)%find_all_spec.
  destruct (mg_unreliable _ Hwf f s Hf) as (mb' & Hmb' & Hpm). simplify_eq.
  destruct (full mb) eqn:Hfull; [by apply stored_full|].
  unfold stored, EventQueue_push. unfold full in Hfull. rewrite Hfull. cbn.
  unfold set_mb_queue. by rewrite Hpm, (mb_limit _ (mg_box _ Hwf _ _ Hmb)).
Qed.

Lemma publish_exact_witness :
  ∃ E B, Manager_publish (example_subscribed false false) (MkTopic "a") [7] =
    Ret (MkIpcResult (Ok tt) E, set_mailboxes B (example_subscribed false false)).
Proof.
  destruct (publish_exact (example_subscribed false false) (MkTopic "a") [7])
    as (E & B & H & _).
  - by apply example_subscribed_wf.
  - exists E, B. exact H.
Defined.

(** A pipe belongs to its first sender.  Delivering to a pipe is refused with
    [PipeReserved], without touching any mailbox, exactly when another process is connected or
    the connected process has terminated; otherwise the pipe is connected to the sender from
    then on, even when the message itself is refused because the mailbox is full. *)
Theorem pipe_single_sender `{HO : HashOrder} `{PC : Pinecone} rd services m pid t d n s mb
    (Hwf : mg_wf m) (Hs : SubscriptionList_find_all (subscriptions m) t true = {[s]})
    (Hmb : mailboxes m !! s = Some (Some mb)) (Hpipe : pipe_mode mb ≠ PipeNone)
    (Hack : next_acknowledge_id m < u64_max) :
  ∃ r m' n', Manager_deliver rd services m pid t d n = Ret (r, m', n') ∧
    if bool_decide (pipe_mode mb = NotConnected ∨ pipe_mode mb = ConnectedTo pid)
    then (∃ mb', mailboxes m' !! s = Some (Some mb') ∧ pipe_mode mb' = ConnectedTo pid) ∧
         ipc_value r = (if full mb then Err (Delivery QueueFull) else Ok (DeliverProcess n))
    else ipc_value r = Err PipeReserved ∧ ipc_events r = ∅ ∧ mailboxes m' = mailboxes m.
Proof.
  destruct (deliver_process_spec m pid s mb t d n Hwf Hmb Hack) as (r & m' & n' & E & _ & Hc).
  exists r, m', n'. split.
  { unfold Manager_deliver.
    destruct (reliable_target_spec t m Hwf) as [[_ He]|(s' & o & -> & Ho & Hs')].
    { rewrite He in Hs. set_solver. }
    assert (s' = s) as -> by set_solver. cbn. rewrite Hmb. exact E. }
  unfold pipe_accept in Hc. case_bool_decide as Hb.
  - assert (∃ mode, mode = ConnectedTo pid ∧ match pipe_mode mb with
      | NotConnected => Ok (ConnectedTo pid)
      | ConnectedTo c => if negb (c =? pid) then Err PipeReserved else Ok (ConnectedTo c)
      | PipeNone => Ok PipeNone | Disconnected => Err PipeReserved end = Ok mode)
      as (mode & -> & Hm).
    { eexists. split; [done|]. destruct Hb as [->| ->]; [done|]. by rewrite Z.eqb_refl. }
    rewrite Hm in Hc. destruct (full mb); destruct Hc as (-> & _ & ->);
      (split; [|done]); eexists; rewrite put_mailbox_lookup, decide_True by done; done.
  - destruct (pipe_mode mb) as [| |c|] eqn:Hp; [done|tauto| |by destruct Hc as (-> & -> & _)].
    destruct (Z.eqb_spec c pid) as [->|Hne]; [tauto|]. by destruct Hc as (-> & -> & _).
Qed.

Lemma pipe_single_sender_witness :
  ∃ r m' n', Manager_deliver (PC := example_pinecone) {| files := ∅; slice := [] |} ∅
      (example_subscribed true true) 1 (MkTopic "a") [7] 3 = Ret (r, m', n') ∧
    (∃ mb', mailboxes m' !! 0 = Some (Some mb') ∧ pipe_mode mb' = ConnectedTo 1) ∧
    ipc_value r = Ok (DeliverProcess 3).
Proof.
  apply (pipe_single_sender (PC := example_pinecone) {| files := ∅; slice := [] |} ∅
    (example_subscribed true true) 1 (MkTopic "a") [7] 3 0 (example_mailbox NotConnected)).
  - by apply example_subscribed_wf.
  - vm_compute. reflexivity.
  - vm_compute. reflexivity.
  - discriminate.
  - reflexivity.
Defined.

(** When a process terminates, its subscriptions and mailboxes are gone, the sender of every
    message still stored in one of them is told [NoSubscriber] and woken, every pipe it fed is
    disconnected and its waiting reader woken, and no other process is affected: runnable
    processes stay runnable, all other mailboxes are unchanged, the invariant holds. *)
Theorem termination_releases `{HO : HashOrder} {S} `{!EventSink S} {ok : S → Prop}
    `{!EventSinkLaws S ok} m (sched : S) pid (Hwf : mg_wf m) (Hok : ok sched) :
  ∃ m' sched', Manager_on_process_over m sched pid = Ret (m', sched') ∧ mg_wf m' ∧
    (∀ s, ¬ owns m' pid s) ∧ (∀ s, owns m pid s → mailboxes m' !! s = None) ∧
    (∀ s mb a e p, owns m pid s → mailboxes m !! s = Some (Some mb) → a ∈ acks mb →
      waiting_for_delivery m !! a = Some (e, p) →
      delivery_result m' !! p = Some (Err NoSubscriber) ∧
      (blocked_on sched e p → runnable sched' p)) ∧
    (∀ s mb, ¬ owns m pid s → mailboxes m !! s = Some (Some mb) →
      if bool_decide (pipe_mode mb = ConnectedTo pid) then
        (∃ mb', mailboxes m' !! s = Some (Some mb') ∧ pipe_mode mb' = Disconnected ∧
          queue (mb_queue mb') = queue (mb_queue mb)) ∧
        (∀ e p, event (mb_queue mb) = Some e → blocked_on sched e p → runnable sched' p)
      else mailboxes m' !! s = Some (Some mb)) ∧
    (∀ p, runnable sched p → runnable sched' p).
Proof.
  destruct (on_process_over_spec m sched pid Hwf Hok)
    as (m' & sched' & E & Hwf' & Hle & Hno & Ho & Hkeep & Hsend & Hpipe).
  exists m', sched'. split_and!; [done|done|done|done| | |apply Hle].
  - intros s mb a e p Hs Hmb Ha Hw. apply (Hsend s mb e p Hs Hmb). by exists a.
  - intros s mb Hs Hmb. specialize (Hkeep s Hs). rewrite Hmb in Hkeep. cbn in Hkeep.
    unfold disconnected in Hkeep. case_bool_decide as Hp; [|done].
    split; [by eexists|]. intros e p He. by apply (Hpipe s mb e p).
Qed.

Lemma termination_releases_witness :
  ∃ m' sched', Manager_on_process_over (example_subscribed true true) Queues_new 2 =
    Ret (m', sched') ∧ mg_wf m'.
Proof.
  destruct (termination_releases (example_subscribed true true) Queues_new 2)
    as (m' & sched' & E & H & _).
  - by apply example_subscribed_wf.
  - apply qs_new_wf.
  - exists m', sched'. exact (conj E H).
Defined.

(** ** Two histories outside [ipc_ok] *)

Section examples.

Let rd : InitRD := {| files := ∅; slice := [] |}.
#[local] Existing Instance example_pinecone.

(** Process 1 delivers to process 2 and blocks on the returned event. *)
Definition example_delivered : outcome (Manager * Queues) :=
  '(r, m, n) ← Manager_deliver rd ∅ (example_subscribed true false) 1 (MkTopic "a") [7] 0;
  q ← Queues_give Queues_new 1 (Event 0);
  Ret (m, q).

(** The message is acknowledged before it has been received, then process 2 unsubscribes. *)
Definition early_acknowledge : outcome (IpcResult unit * Manager) :=
  '(m, q) ← example_delivered;
  '(r, m) ← Manager_acknowledge m 0 0 true;
  Manager_unsubscribe m 2 0.

(** The message is received but not acknowledged, then process 2 terminates. *)
Definition receive_and_terminate : outcome (Manager * Queues) :=
  '(m, q) ← example_delivered;
  '(r, m, n) ← Manager_receive m 2 0 1;
  Manager_on_process_over m q 2.

End examples.

(** [acknowledge] accepts the id of a message that is still stored in the receiver's
    mailbox; removing that mailbox afterwards panics the kernel, because [_force_unsubscribe]
    expects every stored message to have a waiting sender. *)
Theorem early_acknowledge_panics :
  early_acknowledge = Panic "called `Option::unwrap()` on a `None` value".
Proof. vm_compute. reflexivity. Qed.

(** The sender of a message that was received but not acknowledged is not released when the
    receiver terminates: it stays recorded as waiting, has no delivery result, and is not made
    runnable. *)
Theorem unacknowledged_sender_stuck :
  ∃ m q, receive_and_terminate = Ret (m, q) ∧
    waiting_for_delivery m !! 0 = Some (0, 1) ∧ delivery_result m !! 1 = None ∧
    running q = [] ∧ Queues_process_exists q 1 = true.
Proof. vm_compute. eexists _, _. done. Qed.
