(* ===== verification/Clocks.v ===== *)
(** * Clocks: timestamps and tick conversion (src/time.rs, src/smp/sleep.rs)

    The frequencies measured at boot are the fields of [Clock]; a field that is still zero makes
    the readers panic, as in the source.  The current time is an argument. *)

From stdpp Require Import base strings.
From Stdlib Require Import ZArith Lia.
From S2P Require Import Prelude.
Open Scope Z_scope.

Record Clock := {
  tsc_supports_deadline_mode : bool;
  TSC_FREQ_HZ : Z;
  LAPIC_FREQ_HZ : Z;
}.

Definition tsc_freq_hz (clk : Clock) : outcome Z :=
  _ ← rassert (negb (TSC_FREQ_HZ clk =? 0)) "TSC_FREQ_HZ uninitialized";
  Ret (TSC_FREQ_HZ clk).

Definition lapic_freq_hz (clk : Clock) : outcome Z :=
  _ ← rassert (negb (LAPIC_FREQ_HZ clk =? 0)) "LAPIC_FREQ_HZ uninitialized";
  Ret (LAPIC_FREQ_HZ clk).

Definition freq_hz (clk : Clock) : outcome Z :=
  if tsc_supports_deadline_mode clk then tsc_freq_hz clk else lapic_freq_hz clk.

Definition year_ns : Z := 365 * 24 * 60 * 60 * 1000000000.

Definition ns_to_ticks (clk : Clock) (ns : Z) : outcome Z :=
  _ ← rassert (ns <? year_ns) "Deadlines beyond one year are not allowed";
  if 1000000000 <? ns then
    f ← freq_hz clk;
    mul64 (ns / 1000000) (f / 1000)
  else if 1000000 <? ns then
    f ← freq_hz clk;
    p ← mul64 (ns / 1000) f;
    Ret (p / 1000000)
  else
    f ← freq_hz clk;
    p ← mul64 ns f;
    Ret (p / 1000000000).

(** Division with Rust's zero check. *)
Definition div64 (a b : Z) : outcome Z :=
  if b =? 0 then Panic "attempt to divide by zero" else Ret (a / b).

Definition ticks_to_ns (clk : Clock) (ticks : Z) : outcome Z :=
  _ ← rassert (ticks <? u64_max / 1000000) "ticks < u64::MAX / 1_000_000";
  p ← mul64 ticks 1000000;
  f ← freq_hz clk;
  div64 p (f / 1000).

Definition BSPInstant_add_ticks (self ticks : Z) : outcome Z := add64 self ticks.

Definition BSPInstant_add_ns (clk : Clock) (self ns : Z) : outcome Z :=
  t ← ns_to_ticks clk ns; add64 self t.

Definition BSPInstant_try_ticks_from (self earlier : Z) : option Z :=
  if earlier <=? self then Some (self - earlier) else None.

Definition BSPInstant_ticks_from (self earlier : Z) : outcome Z :=
  expect (BSPInstant_try_ticks_from self earlier) "Timestamps in wrong order".

(** What [set_deadline] programs, and whether it reports [AlreadyExpired]. *)
Inductive TimerWrite := TscDeadline (t : Z) | LapicTicks (t : Z).

Definition set_deadline (clk : Clock) (instant now : Z) : TimerWrite * result unit unit :=
  if tsc_supports_deadline_mode clk then (TscDeadline instant, Ok tt)
  else
    let ticks := default 10 (BSPInstant_try_ticks_from instant now) mod 2 ^ 32 in
    (LapicTicks ticks, if ticks =? 0 then Err tt else Ok tt).

(** ** Lemmas *)

(** A clock whose relevant frequency has been measured. *)
Definition clock_freq (clk : Clock) : Z :=
  if tsc_supports_deadline_mode clk then TSC_FREQ_HZ clk else LAPIC_FREQ_HZ clk.

Lemma freq_hz_ret clk : 0 < clock_freq clk → freq_hz clk = Ret (clock_freq clk).
Proof.
  unfold freq_hz, clock_freq, tsc_freq_hz, lapic_freq_hz. intros Hf.
  destruct (tsc_supports_deadline_mode clk).
  - by destruct (Z.eqb_spec (TSC_FREQ_HZ clk) 0); [lia|].
  - by destruct (Z.eqb_spec (LAPIC_FREQ_HZ clk) 0); [lia|].
Qed.

Lemma div_floor a b : 0 < b → a - b < b * (a / b) ≤ a.
Proof. intros Hb. pose proof (Z.mod_pos_bound a b Hb). pose proof (Z.div_mod a b). lia. Qed.

(** The multiplication of each range, and how much its divisions round down. *)
Lemma ns_to_ticks_cases clk ns :
  0 ≤ ns < year_ns → 0 < clock_freq clk ≤ 5 * 10 ^ 11 →
  ∃ t, ns_to_ticks clk ns = Ret t ∧ 0 ≤ t ∧ t * 10 ^ 9 ≤ ns * clock_freq clk ∧
    (ns - 10 ^ 6) * (clock_freq clk - 1000) < (t + 1) * 10 ^ 9.
Proof.
  intros Hns Hf. unfold year_ns in Hns. unfold ns_to_ticks. rewrite freq_hz_ret by lia.
  destruct (Z.ltb_spec ns year_ns) as [_|H]; [|unfold year_ns in H; lia]. cbn.
  set (f := clock_freq clk) in *.
  destruct (Z.ltb_spec 1000000000 ns); [|destruct (Z.ltb_spec 1000000 ns)].
  - pose proof (div_floor ns 1000000 ltac:(lia)). pose proof (div_floor f 1000 ltac:(lia)).
    set (a := ns / 1000000) in *. set (b := f / 1000) in *.
    assert (0 ≤ a ≤ 31536000000) by lia. assert (0 ≤ b ≤ 500000000) by lia.
    exists (a * b). split; [apply mul64_ret; rewrite u64_size_eq; split; [nia|done]|]. nia.
  - pose proof (div_floor ns 1000 ltac:(lia)). set (a := ns / 1000) in *.
    pose proof (div_floor (a * f) 1000000 ltac:(lia)). set (t := (a * f) / 1000000) in *.
    exists t. rewrite (proj2 (mul64_ret a f (a * f))) by (rewrite u64_size_eq; split; [nia|done]).
    split; [done|]. split; [apply Z.div_pos; nia|]. nia.
  - pose proof (div_floor (ns * f) 1000000000 ltac:(lia)). set (t := (ns * f) / 1000000000) in *.
    exists t. rewrite (proj2 (mul64_ret ns f (ns * f))) by (rewrite u64_size_eq; split; [nia|done]).
    split; [done|]. split; [apply Z.div_pos; nia|]. nia.
Qed.

(** ** Properties *)

(** For every duration below one year and every clock frequency up to 500 GHz the conversion
    to ticks does not overflow; the result never exceeds the exact value, so no deadline is set
    late by rounding, and is short of it by at most a millisecond, a kilohertz of the frequency
    and one tick. *)
Theorem ns_to_ticks_accurate clk ns
    (Hns : 0 ≤ ns < year_ns) (Hf : 0 < clock_freq clk ≤ 5 * 10 ^ 11) :
  ∃ t, ns_to_ticks clk ns = Ret t ∧ 0 ≤ t ∧ t * 10 ^ 9 ≤ ns * clock_freq clk ∧
    (ns - 10 ^ 6) * (clock_freq clk - 1000) < (t + 1) * 10 ^ 9.
Proof. by apply ns_to_ticks_cases. Qed.

Definition example_clock : Clock :=
  {| tsc_supports_deadline_mode := true; TSC_FREQ_HZ := 3000000000; LAPIC_FREQ_HZ := 0 |}.

Lemma ns_to_ticks_accurate_witness :
  ∃ t, ns_to_ticks example_clock 100000000 = Ret t ∧ 0 ≤ t ∧
    t * 10 ^ 9 ≤ 100000000 * 3000000000 ∧
    (100000000 - 10 ^ 6) * (3000000000 - 1000) < (t + 1) * 10 ^ 9.
Proof.
  apply (ns_to_ticks_accurate example_clock 100000000); vm_compute; split; congruence.
Defined.
