(* ===== verification/Scheduler.v ===== *)
(** * Scheduler: process table, run queue and termination (src/multitasking/scheduler.rs)

    The memory of a process and the creation of a process image are parameters; the clock and
    the current time are arguments.  Termination goes through the IPC manager. *)

From stdpp Require Import base gmap list strings.
From Stdlib Require Import ZArith Lia.
From S2P Require Import Prelude Abi Topic SubscriptionList Queues EventQueue Ipc IpcProps.
From S2P Require Import IpcCalls Clocks.
Open Scope Z_scope.

Definition TIME_SLICE_NS : Z := 100000000.
Definition MIN_EXEC_TIME_NS : Z := TIME_SLICE_NS / 10.

Record ProcessSwitchInfo := MkSwitchInfo { si_p4addr : Z; si_stack_pointer : Z; si_pid : ProcessId }.

Inductive ProcessSwitch :=
| SwitchContinue
| SwitchIdle
| Switch (info : ProcessSwitchInfo)
| RepeatSyscall (info : ProcessSwitchInfo).

(** The fields of a process the scheduler reads; [Mem] stands for its memory. *)
Record Process (Mem : Type) := MkProcess {
  p4_addr : Z;
  stack_pointer : Z;
  repeat_syscall : bool;
  process_id : ProcessId;
  process_memory : Mem;
}.
Arguments MkProcess {Mem}.
Arguments p4_addr {Mem} _.
Arguments stack_pointer {Mem} _.
Arguments repeat_syscall {Mem} _.
Arguments process_id {Mem} _.
Arguments process_memory {Mem} _.

Section scheduler.
Context {Mem : Type}.

Abbreviation Proc := (Process Mem).

Definition Process_switch_info (self : Proc) : ProcessSwitchInfo :=
  MkSwitchInfo (p4_addr self) (stack_pointer self) (process_id self).

Record Scheduler := {
  processes : gmap ProcessId Proc;
  queues : Queues;
  sched_running : option ProcessId;
  running_timeslice_end : option BSPInstant;
  next_pid : ProcessId;
}.

Definition set_processes (p : gmap ProcessId Proc) (s : Scheduler) : Scheduler :=
  {| processes := p; queues := queues s; sched_running := sched_running s;
     running_timeslice_end := running_timeslice_end s; next_pid := next_pid s |}.
Definition set_queues (q : Queues) (s : Scheduler) : Scheduler :=
  {| processes := processes s; queues := q; sched_running := sched_running s;
     running_timeslice_end := running_timeslice_end s; next_pid := next_pid s |}.
Definition set_sched_running (r : option ProcessId) (t : option BSPInstant) (s : Scheduler)
    : Scheduler :=
  {| processes := processes s; queues := queues s; sched_running := r;
     running_timeslice_end := t; next_pid := next_pid s |}.
Definition set_next_pid (n : ProcessId) (s : Scheduler) : Scheduler :=
  {| processes := processes s; queues := queues s; sched_running := sched_running s;
     running_timeslice_end := running_timeslice_end s; next_pid := n |}.

Definition Scheduler_new : Scheduler :=
  {| processes := ∅; queues := Queues_new; sched_running := None;
     running_timeslice_end := None; next_pid := ProcessId_first |}.

Definition Scheduler_get_running_pid (self : Scheduler) : option ProcessId := sched_running self.

Definition Scheduler_take_process_by_id (self : Scheduler) (pid : ProcessId)
    : option Proc * Scheduler :=
  (processes self !! pid, set_processes (delete pid (processes self)) self).

Definition Scheduler_give_back_process (self : Scheduler) (process : Proc) : Scheduler :=
  set_processes (<[process_id process := process]> (processes self)) self.

Definition Scheduler_process_by_id (self : Scheduler) (pid : ProcessId) : option Proc :=
  processes self !! pid.

Definition Scheduler_process_count (self : Scheduler) : nat := size (processes self).

(** [create] is [Process::create]: [Err] is [OutOfMemory]. *)
Definition Scheduler_spawn {Elf} (create : ProcessId → list string → Elf → outcome (result Proc unit))
    (self : Scheduler) (args : list string) (elf : Elf)
    : outcome (result ProcessId unit * Scheduler) :=
  let pid := next_pid self in
  n ← ProcessId_next (next_pid self);
  let s := set_next_pid n self in
  r ← create pid args elf;
  match r with
  | Err e => Ret (Err e, s)
  | Ok process =>
      let s := set_processes (<[pid := process]> (processes s)) s in
      q ← Queues_give (queues s) pid WaitNone;
      Ret (Ok pid, set_queues q s)
  end.

Definition Scheduler_store_state (self : Scheduler) (pid : ProcessId) (page_table sp : Z)
    : outcome Scheduler :=
  match processes self !! pid with
  | Some p =>
      _ ← rassert (p4_addr p =? page_table) "???";
      Ret (set_processes (<[pid := MkProcess (p4_addr p) sp (repeat_syscall p) (process_id p)
                                     (process_memory p)]> (processes self)) self)
  | None => Panic "No such process pid"
  end.

(** The process to switch to, by its pending system call. *)
Definition switch_to (process : Proc) : ProcessSwitch :=
  if repeat_syscall process then RepeatSyscall (Process_switch_info process)
  else Switch (Process_switch_info process).

Definition Scheduler_switch (clk : Clock) (now : BSPInstant) (self : Scheduler)
    (schedule : option WaitFor) : outcome (ProcessSwitch * Scheduler) :=
  s ← match schedule, sched_running self with
      | Some w, Some running_pid =>
          q ← Queues_give (queues self) running_pid w; Ret (set_queues q self)
      | _, _ => Ret self
      end;
  match Queues_take (queues s) with
  | (Some pid, q) =>
      t ← ns_to_ticks clk TIME_SLICE_NS;
      slice_end ← BSPInstant_add_ticks now t;
      let s := set_sched_running (Some pid) (Some slice_end) (set_queues q s) in
      process ← expect (processes s !! pid) "Process from queue not running";
      Ret (switch_to process, s)
  | (None, q) => Ret (SwitchIdle, set_sched_running None None (set_queues q s))
  end.

Definition Scheduler_switch_current_or_next (self : Scheduler)
    : outcome (ProcessSwitch * Scheduler) :=
  let s := match sched_running self with
           | None =>
               let (r, q) := Queues_take (queues self) in
               set_sched_running r (running_timeslice_end self) (set_queues q self)
           | Some _ => self
           end in
  match sched_running s with
  | Some pid =>
      process ← expect (processes s !! pid) "self.running does not exist anymore";
      Ret (switch_to process, s)
  | None => Ret (SwitchIdle, s)
  end.

Definition Scheduler_tick (clk : Clock) (now now' : BSPInstant) (self : Scheduler)
    : outcome (ProcessSwitch * Scheduler) :=
  let s := set_queues (Queues_on_tick (queues self) now) self in
  Scheduler_switch clk now' s (Some WaitNone).

Definition Scheduler_next_tick (clk : Clock) (now : BSPInstant) (self : Scheduler)
    : outcome (option BSPInstant) :=
  let wakeup := Queues_next_wakeup (queues self) in
  let wakeup := match running_timeslice_end self with
                | Some slice_end => Some (default slice_end (flip Z.min slice_end <$> wakeup))
                | None => wakeup
                end in
  match wakeup with
  | None => Ret None
  | Some w => m ← BSPInstant_add_ns clk now MIN_EXEC_TIME_NS; Ret (Some (Z.min w m))
  end.

Definition Scheduler_try_resolve_waitfor (self : Scheduler) (waitfor : WaitFor)
    : outcome (result ProcessId WaitFor) :=
  r ← expect (sched_running self) "No process running";
  Ret (WaitFor_try_resolve_immediate waitfor (queues self) r).

Context `{HO : HashOrder}.

Definition Scheduler_on_explicit_event (self : Scheduler) (event_id : ExplicitEventId)
    : Scheduler :=
  set_queues (Queues_on_explicit_event (queues self) event_id) self.

#[global] Instance Scheduler_EventSink : EventSink Scheduler := {|
  on_explicit_event := Scheduler_on_explicit_event;
  runnable s p := p ∈ running (queues s);
  blocked_on s e p := blocked_on (queues s) e p;
|}.

(** [encode] is the serialiser on the [ProcessTerminated] message. *)
Definition Scheduler_terminate {Status} (encode : ProcessId → Status → option (list byte))
    (ipc : Manager) (self : Scheduler) (target : ProcessId) (status : Status)
    : outcome (Manager * Scheduler) :=
  '(m, s) ← match processes self !! target with
    | Some process =>
        let s := set_processes (delete target (processes self)) self in
        let s := set_queues (Queues_on_process_over (queues s) (process_id process)) s in
        '(m, s) ← Manager_on_process_over ipc s (process_id process);
        kernel_publish m s "process/terminated" (encode (process_id process) status)
    | None => Ret (ipc, self)
    end;
  Ret (m, if bool_decide (sched_running s = Some target) then set_sched_running None None s
          else s).

Definition Scheduler_terminate_and_switch {Status}
    (encode : ProcessId → Status → option (list byte)) (clk : Clock) (now : BSPInstant)
    (ipc : Manager) (self : Scheduler) (target : ProcessId) (status : Status)
    : outcome (ProcessSwitch * Manager * Scheduler) :=
  let is_current := bool_decide (sched_running self = Some target) in
  '(m, s) ← Scheduler_terminate encode ipc self target status;
  '(sw, s) ← if is_current then Scheduler_switch clk now s None
             else Scheduler_switch_current_or_next s;
  Ret (sw, m, s).

End scheduler.
Arguments Scheduler : clear implicits.
