(* ===== verification/SchedulerProps.v ===== *)
(** * SchedulerProps: no process is lost, and the scheduler never panics

    The invariant [sched_wf] says that every process of the table is running, queued or blocked,
    exactly once, and that nothing else is.  The last section combines scheduler and IPC manager
    into one state machine. *)

From stdpp Require Import base gmap list strings sorting.
From Stdlib Require Import ZArith Lia.
From S2P Require Import Prelude Abi Topic SubscriptionList Queues EventQueue Ipc IpcProps.
From S2P Require Import IpcCalls Clocks Scheduler.
Open Scope Z_scope.

(** ** Giving a process back *)

(** The conditions [give] accepts. *)
Definition wait_ok (w : WaitFor) : Prop :=
  match w with FirstOf l => Forall plain l | _ => True end.

Lemma reduce_queues_returns w q pid :
  wait_ok w → ∃ w', WaitFor_reduce_queues w q pid = Ret w'.
Proof.
  intros Hw. unfold WaitFor_reduce_queues. destruct w as [| | | |l]; try (by eexists).
  - case_match; by eexists.
  - case_match; [by eexists|]. by apply WaitFor_reduce_returns.
Qed.

Lemma give_returns q pid w :
  qs_wf q → wait_ok w → next_waitid q < u64_max → ∃ q', Queues_give q pid w = Ret q'.
Proof.
  intros Hwf Hw Hn. destruct (reduce_queues_returns w q pid Hw) as [w' Hr].
  destruct (give_spec q pid w w' Hwf Hr) as (q' & E & _); [by left|]. eauto.
Qed.

Lemma give_none_returns q pid : ∃ q', Queues_give q pid WaitNone = Ret q'.
Proof. by eexists. Qed.

Section props.
Context {Mem : Type}.
Implicit Types s : Scheduler Mem.

(** ** Invariant *)

Record sched_wf s : Prop := {
  sw_queues : qs_wf (queues s);
  sw_all : ∀ p, is_Some (processes s !! p) ↔ sched_running s = Some p ∨ p ∈ procs (queues s);
  sw_out : ∀ p, sched_running s = Some p → p ∉ procs (queues s);
  sw_id : ∀ p x, processes s !! p = Some x → process_id x = p;
  sw_next : ∀ p, is_Some (processes s !! p) → 0 < p < next_pid s;
  sw_next_pos : 0 < next_pid s;
}.

Lemma sched_new_wf : sched_wf Scheduler_new.
Proof.
  split; cbn; try done.
  - apply qs_new_wf.
  - intros p. rewrite lookup_empty. split; [by intros []|].
    intros [?|[H|[w H]]%elem_of_procs]; [done|by apply not_elem_of_nil in H|done].
  - intros p [x Hx]. done.
Qed.

(** A clock that has been calibrated, and a time at which adding a slice cannot overflow. *)
Definition clock_ok (clk : Clock) (now : Z) : Prop :=
  0 < clock_freq clk ≤ 5 * 10 ^ 11 ∧ 0 ≤ now < 2 ^ 63.

Lemma slice_returns clk now :
  clock_ok clk now → ∃ t e, ns_to_ticks clk TIME_SLICE_NS = Ret t ∧
    BSPInstant_add_ticks now t = Ret e ∧ now ≤ e.
Proof.
  intros [Hf Hn]. destruct (ns_to_ticks_cases clk TIME_SLICE_NS) as (t & Ht & H0 & Hb & _);
    [unfold TIME_SLICE_NS, year_ns; lia|done|].
  exists t, (now + t). split_and!; [done| |lia]. apply add64_ret.
  rewrite u64_size_eq. unfold TIME_SLICE_NS in Hb. lia.
Qed.

(** After the running process, if any, has been given back. *)
Record sched_idle s : Prop := {
  id_queues : qs_wf (queues s);
  id_all : ∀ p, is_Some (processes s !! p) ↔ p ∈ procs (queues s);
  id_id : ∀ p x, processes s !! p = Some x → process_id x = p;
  id_next : ∀ p, is_Some (processes s !! p) → 0 < p < next_pid s;
  id_next_pos : 0 < next_pid s;
}.

(** Taking the next process from the queues. *)
Lemma take_next clk now s :
  sched_idle s → clock_ok clk now →
  match Queues_take (queues s) with
  | (Some pid, q) => ∃ x t e,
      ns_to_ticks clk TIME_SLICE_NS = Ret t ∧ BSPInstant_add_ticks now t = Ret e ∧ now ≤ e ∧
      processes s !! pid = Some x ∧ process_id x = pid ∧
      ∀ r, sched_wf (set_sched_running (Some pid) r (set_queues q s))
  | (None, q) => q = queues s ∧ running q = [] ∧ ∀ r, sched_wf (set_sched_running None r s)
  end.
Proof.
  intros [Hq Hall Hid Hn Hp] Hclk. destruct (Queues_take (queues s)) as [[pid|] q] eqn:Ht.
  - pose proof (take_procs _ _ _ Ht) as Hpr. pose proof (qs_nodup _ Hq) as Hnd.
    rewrite Hpr in Hnd. apply NoDup_cons in Hnd as [Hni _].
    destruct (slice_returns clk now Hclk) as (t & e & Et & Ee & Hle).
    destruct (proj2 (Hall pid)) as [x Hx]; [rewrite Hpr; by left|].
    exists x, t, e. split_and!; try done; [by eapply Hid|]. intros r.
    split; cbn; try done; [by eapply take_wf| |by intros p [= <-]].
    intros p. rewrite Hall, Hpr, elem_of_cons. naive_solver.
  - unfold Queues_take in Ht. destruct (running (queues s)) eqn:Er; simplify_eq.
    split_and!; [done|done|]. intros r. split; cbn; try done. intros p. rewrite Hall. naive_solver.
Qed.

Lemma switch_idle_spec clk now s :
  sched_idle s → clock_ok clk now → (∀ p, sched_running s = Some p → p ∈ procs (queues s)) →
  ∃ sw s', match Queues_take (queues s) with
    | (Some pid, q) =>
        t ← ns_to_ticks clk TIME_SLICE_NS;
        slice_end ← BSPInstant_add_ticks now t;
        let s := set_sched_running (Some pid) (Some slice_end) (set_queues q s) in
        process ← expect (processes s !! pid) "Process from queue not running";
        Ret (switch_to process, s)
    | (None, q) => Ret (SwitchIdle, set_sched_running None None (set_queues q s))
    end = Ret (sw, s') ∧ sched_wf s' ∧ processes s' = processes s ∧
    sched_running s' = head (running (queues s)) ∧
    match sw with
    | SwitchContinue => False
    | SwitchIdle => sched_running s' = None ∧ running_timeslice_end s' = None ∧
        running (queues s) = []
    | Switch i | RepeatSyscall i => sched_running s' = Some (si_pid i) ∧
        ∃ e, running_timeslice_end s' = Some e ∧ now ≤ e
    end.
Proof.
  intros Hi Hclk _. pose proof (take_next clk now s Hi Hclk) as H.
  unfold Queues_take in *. destruct (running (queues s)) as [|pid r] eqn:Er.
  - destruct H as (_ & _ & Hwf). eexists _, _. split; [done|]. cbn. split_and!; try done.
    destruct s. apply Hwf.
  - destruct H as (x & t & e & Et & Ee & Hle & Hx & Hid & Hwf). rewrite Et. cbn. rewrite Ee. cbn.
    rewrite Hx. cbn. eexists _, _. split; [done|]. split_and!; [apply Hwf|done|done|].
    unfold switch_to. destruct (repeat_syscall x); cbn; rewrite Hid; eauto.
Qed.

(** Giving the running process back. *)
Lemma give_running_idle s w pid q :
  sched_wf s → sched_running s = Some pid → Queues_give (queues s) pid w = Ret q →
  sched_idle (set_queues q s).
Proof.
  intros [Hq Hall Hout Hid Hn Hp] Hr Hg.
  destruct (give_wf _ _ _ _ Hq (Hout _ Hr) Hg) as [Hq' Hpr]. split; cbn; try done.
  intros p. rewrite Hall, Hr, Hpr, elem_of_cons. naive_solver.
Qed.

Lemma not_running_idle s : sched_wf s → sched_running s = None → sched_idle s.
Proof.
  intros [Hq Hall Hout Hid Hn Hp] Hr. split; try done. intros p. rewrite Hall, Hr. naive_solver.
Qed.

Lemma switch_spec clk now s w :
  sched_wf s → clock_ok clk now → wait_ok w → next_waitid (queues s) < u64_max →
  ∃ sw s', Scheduler_switch clk now s (Some w) = Ret (sw, s') ∧ sched_wf s' ∧
    processes s' = processes s ∧
    match sw with
    | SwitchContinue => False
    | SwitchIdle => sched_running s' = None ∧ running_timeslice_end s' = None
    | Switch i | RepeatSyscall i => sched_running s' = Some (si_pid i) ∧
        ∃ e, running_timeslice_end s' = Some e ∧ now ≤ e
    end.
Proof.
  intros Hwf Hclk Hw Hn. unfold Scheduler_switch.
  assert (∃ s1, match sched_running s with
      | Some pid => q ← Queues_give (queues s) pid w; Ret (set_queues q s)
      | None => Ret s
      end = Ret s1 ∧ sched_idle s1 ∧ processes s1 = processes s ∧
      (∀ p, sched_running s1 = Some p → p ∈ procs (queues s1))) as (s1 & E & Hi & Hps & Hr1).
  { destruct (sched_running s) as [pid|] eqn:Hr.
    - destruct (give_returns (queues s) pid w (sw_queues _ Hwf) Hw Hn) as [q Hg].
      rewrite Hg. eexists. split; [done|]. pose proof (give_running_idle _ _ _ _ Hwf Hr Hg) as Hi.
      split_and!; [done|done|]. intros p Hp. apply (id_all _ Hi). apply (sw_all _ Hwf). by left.
    - eexists. split; [done|]. split_and!; [by apply not_running_idle|done|congruence]. }
  rewrite E. cbn [mbind outcome_bind].
  destruct (switch_idle_spec clk now s1 Hi Hclk Hr1) as (sw & s' & E' & Hwf' & Hp' & _ & Hsw).
  exists sw, s'. split_and!; [done|done|congruence|]. by destruct sw; naive_solver.
Qed.

Lemma switch_none_spec clk now s :
  sched_wf s → sched_running s = None → clock_ok clk now →
  ∃ sw s', Scheduler_switch clk now s None = Ret (sw, s') ∧ sched_wf s' ∧
    processes s' = processes s ∧ sw ≠ SwitchContinue.
Proof.
  intros Hwf Hr Hclk.
  destruct (switch_idle_spec clk now s (not_running_idle _ Hwf Hr) Hclk)
    as (sw & s' & E & Hs' & Hp' & _ & Hsw); [congruence|].
  exists sw, s'. split_and!; [exact E|done|done|by intros ->].
Qed.

(** ** Events *)

Context `{HO : HashOrder}.

(** Only the order and the state of the queued processes differ. *)
Record same_but_queues s0 s : Prop := {
  sb_queues : qs_wf (queues s);
  sb_procs : procs (queues s) ≡ₚ procs (queues s0);
  sb_processes : processes s = processes s0;
  sb_running : sched_running s = sched_running s0;
  sb_slice : running_timeslice_end s = running_timeslice_end s0;
  sb_next : next_pid s = next_pid s0;
}.

#[global] Instance Scheduler_EventSinkLaws s0 :
  EventSinkLaws (Scheduler Mem) (same_but_queues s0).
Proof.
  split.
  - intros s e [Hq Hp ? ? ? ?]. split; cbn; try done.
    + by apply (apply_trigger_wf (OnEvent e)).
    + pose proof (apply_trigger_procs (OnEvent e) _ Hq) as Hp'. cbn in Hp'. by rewrite Hp'.
  - intros s e p H. exact (event_wakes (S := Queues) (queues s) e p (sb_queues _ _ H)).
  - intros s e p H. exact (event_runnable (S := Queues) (queues s) e p (sb_queues _ _ H)).
  - intros s e e' p H. exact (event_blocked (S := Queues) (queues s) e e' p (sb_queues _ _ H)).
Qed.

Lemma same_refl s : qs_wf (queues s) → same_but_queues s s.
Proof. by split. Qed.

Lemma same_wf s0 s : sched_wf s0 → same_but_queues s0 s → sched_wf s.
Proof.
  intros [Hq Hall Hout Hid Hn Hpos] [Hq' Hp Hps Hr _ Hnp].
  split; rewrite ?Hps, ?Hr, ?Hnp; try done.
  - intros p. by rewrite Hp.
  - intros p. rewrite Hp. apply Hout.
Qed.

#[global] Instance Scheduler_wf_EventSinkLaws : EventSinkLaws (Scheduler Mem) sched_wf.
Proof.
  split.
  - intros s e Hwf. apply (same_wf s); [done|].
    apply (event_ok (ok := same_but_queues s)), same_refl, Hwf.
  - intros s e p Hwf. apply (event_wakes (ok := same_but_queues s)), same_refl, Hwf.
  - intros s e p Hwf. apply (event_runnable (ok := same_but_queues s)), same_refl, Hwf.
  - intros s e e' p Hwf. apply (event_blocked (ok := same_but_queues s)), same_refl, Hwf.
Qed.

Lemma tick_spec clk now now' s :
  sched_wf s → clock_ok clk now' → next_waitid (queues s) < u64_max →
  ∃ sw s', Scheduler_tick clk now now' s = Ret (sw, s') ∧ sched_wf s' ∧
    processes s' = processes s ∧
    match sw with
    | SwitchContinue => False
    | SwitchIdle => sched_running s' = None ∧ running_timeslice_end s' = None
    | Switch i | RepeatSyscall i => sched_running s' = Some (si_pid i) ∧
        ∃ e, running_timeslice_end s' = Some e ∧ now' ≤ e
    end.
Proof.
  intros Hwf Hclk Hn. pose proof (sw_queues _ Hwf) as Hq.
  pose proof (apply_trigger_wf (OnTick now) _ Hq) as Hq'.
  pose proof (apply_trigger_procs (OnTick now) _ Hq) as Hp. cbn in Hq', Hp.
  assert (next_waitid (Queues_on_tick (queues s) now) = next_waitid (queues s)) as Hnw.
  { unfold Queues_on_tick. rewrite on_tick_loop_filter by (done || apply Hq).
    by destruct (trigger_all_tables (filter (λ x, x.1 ≤ now) (wait_sleeping (queues s))).*2
      (set_sleeping (filter (λ x, now < x.1) (wait_sleeping (queues s))) (queues s)))
      as (-> & _). }
  apply (switch_spec clk now' (set_queues (Queues_on_tick (queues s) now) s) WaitNone);
    [|done|done|by cbn; rewrite Hnw].
  apply (same_wf s); [done|]. by split.
Qed.

(** ** Spawning *)

(** What the scheduler relies on of [Process::create] is that the process it returns has the id it
    was given. *)
Lemma spawn_spec {Elf} (create : ProcessId → list string → Elf → outcome (result (Process Mem) unit))
    s args elf c :
  sched_wf s → next_pid s < u64_max → create (next_pid s) args elf = Ret c →
  (∀ x, c = Ok x → process_id x = next_pid s) →
  ∃ r s', Scheduler_spawn create s args elf = Ret (r, s') ∧ sched_wf s' ∧
    next_waitid (queues s') = next_waitid (queues s) ∧
    match r with
    | Ok pid => pid = next_pid s ∧ processes s !! pid = None ∧ is_Some (processes s' !! pid) ∧
        pid ∈ running (queues s')
    | Err _ => processes s' = processes s
    end.
Proof.
  intros [Hq Hall Hout Hid Hn Hpos] Hmax Hc Hx. unfold Scheduler_spawn.
  rewrite ProcessId_next_ret by lia.
  cbn. rewrite Hc. cbn. destruct c as [x|e].
  2: { eexists _, _. split; [done|]. split; [|done]. split; cbn; try done; [|lia].
       intros p Hp. apply Hn in Hp. lia. }
  assert (processes s !! next_pid s = None) as Hfresh.
  { destruct (processes s !! next_pid s) eqn:E; [|done].
    destruct (Hn (next_pid s)); [eauto|lia]. }
  assert (next_pid s ∉ procs (queues s)) as Hnew.
  { intros Hp. destruct (proj2 (Hall (next_pid s))) as [y Hy]; [by right|congruence]. }
  assert (sched_running s ≠ Some (next_pid s)) as Hnr.
  { intros Hr. destruct (proj2 (Hall (next_pid s))) as [y Hy]; [by left|congruence]. }
  destruct (give_none_returns (queues s) (next_pid s)) as [q Hg]. rewrite Hg. cbn.
  destruct (give_wf _ _ _ _ Hq Hnew Hg) as [Hq' Hpr].
  eexists _, _. split; [done|]. cbn in Hg. injection Hg as <-.
  split; [split; cbn; try done|].
  - intros p. rewrite lookup_insert_is_Some', Hall, Hpr, elem_of_cons. naive_solver.
  - intros p Hr. rewrite Hpr, not_elem_of_cons. split; [congruence|by apply Hout].
  - intros p y [[<- <-]|[_ Hy]]%lookup_insert_Some; [by apply Hx|by eapply Hid].
  - intros p [<-|Hp]%lookup_insert_is_Some'; [lia|]. apply Hn in Hp. lia.
  - lia.
  - split; [done|]. split_and!; [done|done| |set_solver].
    cbn. rewrite lookup_insert_eq. eauto.
Qed.

(** ** Termination *)

(** The scheduler after the events of a termination have been relayed. *)
Lemma terminated_wf s s3 target :
  sched_wf s → sched_running s = Some target →
  same_but_queues (set_queues (Queues_on_process_over (queues s) target)
    (set_processes (delete target (processes s)) s)) s3 →
  sched_running s3 = Some target ∧ sched_wf (set_sched_running None None s3) ∧
  processes s3 = delete target (processes s).
Proof.
  intros [Hq Hall Hout Hid Hn Hpos] Hr [Hq3 Hp3 Hpc3 Hr3 _ Hnp3]. cbn in *.
  pose proof (apply_trigger_procs (OnOver target) _ Hq) as Hp1. cbn in Hp1.
  assert (∀ p, p ∈ procs (Queues_on_process_over (queues s) target) ↔ p ∈ procs (queues s)) as Hpr.
  { intros p. rewrite Hp1. unfold procs. rewrite !elem_of_app. f_equiv.
    destruct (decide (p = target)) as [->|Hne]; [|by apply elem_of_remove_first_ne].
    pose proof (Hout _ Hr) as Ho. unfold procs in Ho. rewrite not_elem_of_app in Ho.
    pose proof (qs_nodup _ Hq) as (Hnd & _ & _)%NoDup_app.
    rewrite elem_of_remove_first by done. tauto. }
  split_and!; [congruence| |done].
  split; cbn; rewrite ?Hpc3, ?Hnp3; try done.
  - intros p. rewrite lookup_delete_is_Some, Hall, Hr, Hp3, Hpr.
    pose proof (Hout _ Hr). naive_solver.
  - intros p y [_ Hy]%lookup_delete_Some. by eapply Hid.
  - intros p [_ Hp]%lookup_delete_is_Some. by apply Hn.
Qed.

(** Terminating the running process. *)
Lemma terminate_spec {Status} (encode : ProcessId → Status → option (list byte)) m s target status :
  sched_wf s → mg_wf m → sched_running s = Some target → (∀ p st, is_Some (encode p st)) →
  ∃ m' s', Scheduler_terminate encode m s target status = Ret (m', s') ∧ mg_wf m' ∧
    sched_wf s' ∧ processes s' = delete target (processes s) ∧ sched_running s' = None ∧
    no_new_kernel m m' ∧ (∀ sub, ¬ owns m' target sub) ∧
    (∀ w p, waiting (queues s) !! w = Some p → triggered (OnOver target) (queues s) w →
      p ∈ running (queues s')) ∧
    (∀ sub mb a e p, owns m target sub → mailboxes m !! sub = Some (Some mb) → a ∈ acks mb →
      waiting_for_delivery m !! a = Some (e, p) → blocked_on (queues s) e p →
      p ∈ running (queues s') ∧ delivery_result m' !! p = Some (Err NoSubscriber)).
Proof.
  intros Hwf Hmg Hr Henc. pose proof Hwf as [Hq Hall Hout Hid Hn Hpos].
  destruct (proj2 (Hall target)) as [x Hx]; [by left|].
  unfold Scheduler_terminate. rewrite Hx, (Hid _ _ Hx). cbn [mbind outcome_bind].
  set (s1 := set_queues _ _).
  pose proof (apply_trigger_wf (OnOver target) _ Hq) as Hq1.
  cbn in Hq1.
  assert (same_but_queues s1 s1) as Hs1 by (by apply same_refl).
  destruct (on_process_over_spec (ok := same_but_queues s1) m s1 target Hmg Hs1)
    as (m2 & s2 & E2 & Hmg2 & Hle2 & Hno2 & _ & _ & Hsend & _).
  pose proof (on_process_over_kernel (ok := same_but_queues s1) _ _ _ _ _ Hmg Hs1 E2) as Hk2.
  rewrite E2. cbn [mbind outcome_bind].
  destruct (Henc target status) as [d ->].
  destruct (kernel_publish_spec (ok := same_but_queues s1) m2 s2 "process/terminated"
    (MkTopic "process/terminated") d Hmg2 (le_ok _ _ Hle2) eq_refl)
    as (m3 & s3 & -> & Hmg3 & Hle3 & Hk3 & Hps3 & Hd3). cbn [mbind outcome_bind].
  destruct (terminated_wf s s3 target Hwf Hr (le_ok _ _ Hle3)) as (Hr3 & Hwf3 & Hpc3).
  rewrite bool_decide_eq_true_2 by done.
  eexists _, _. split; [done|]. split; [done|]. split; [done|].
  cbn. split_and!; [done|done| | | |].
  - intros sub Hsub. by apply Hk2, Hk3.
  - intros sub (ss & Hss & Hin). rewrite Hps3 in Hss. apply (Hno2 sub). by exists ss.
  - intros w p Hw Ht. apply (le_runnable _ _ Hle3), (le_runnable _ _ Hle2). cbn.
    apply (apply_trigger_running (OnOver target)); eauto.
  - intros sub mb a e p Hown Hmb Ha Hwt (w & Hw & Htr).
    destruct (Hsend sub mb e p Hown Hmb ltac:(by exists a)) as [Hd Hwake].
    split; [|by rewrite Hd3]. apply (le_runnable _ _ Hle3).
    assert (triggered (OnOver target) (queues s) w ∨ ¬ triggered (OnOver target) (queues s) w)
      as [Ho|Ho].
    { cbn. destruct (wait_process (queues s) !! target) as [ws|]; [|naive_solver].
      destruct (decide (w ∈ ws)); naive_solver. }
    + apply (le_runnable _ _ Hle2). cbn. apply (apply_trigger_running (OnOver target)); eauto.
    + apply Hwake. cbn. exists w. split.
      * apply (apply_trigger_waiting (OnOver target)); done.
      * by apply (apply_trigger_keep (OnOver target) (OnEvent e)).
Qed.

End props.

(** ** Scheduler and IPC manager together *)

(** [created] is what [Process::create] does with the program, which is given to the new process. *)
Inductive kcall (Mem Elf Status : Type) :=
| KSpawn (created : outcome (result (Process Mem) unit)) (args : list string) (elf : Elf)
| KTick (now now' : BSPInstant)
| KBlock (now : BSPInstant) (w : WaitFor)
| KExit (now : BSPInstant) (status : Status)
| KIpc (c : ipc_call).
Arguments KSpawn {Mem Elf Status}.
Arguments KTick {Mem Elf Status}.
Arguments KBlock {Mem Elf Status}.
Arguments KExit {Mem Elf Status}.
Arguments KIpc {Mem Elf Status}.

(** Every process once, from the invariant. *)
Lemma accounted {Mem} (s : Scheduler Mem) :
  sched_wf s →
  NoDup (option_list (sched_running s) ++ procs (queues s)) ∧
  ∀ p, is_Some (processes s !! p) ↔ p ∈ option_list (sched_running s) ++ procs (queues s).
Proof.
  intros [Hq Hall Hout _ _ _]. split.
  - apply NoDup_app. split_and!; [|intros p Hp|apply Hq].
    + destruct (sched_running s); [apply NoDup_singleton|constructor].
    + destruct (sched_running s) as [r|]; cbn in Hp; [|by apply not_elem_of_nil in Hp].
      apply list_elem_of_singleton in Hp as ->. by apply Hout.
  - intros p. rewrite Hall, elem_of_app. f_equiv. destruct (sched_running s) as [r|]; cbn.
    + rewrite list_elem_of_singleton. naive_solver.
    + split; [done|]. intros H. by apply not_elem_of_nil in H.
Qed.

Section kernel.
Context `{HO : HashOrder} `{PC : Pinecone} (rd : InitRD) {Mem Elf Status : Type}.
Context (encode : ProcessId → Status → option (list byte)).
Context (clk : Clock) (services : gmap SubscriptionId Service).

Abbreviation kstate := (Manager * Z * Scheduler Mem)%type.

(** Starting a process, the timer interrupt, blocking and termination of the running process,
    and the IPC calls. *)
Definition k_run (c : kcall Mem Elf Status) (st : kstate) : outcome kstate :=
  let '(m, n, s) := st in
  match c with
  | KSpawn created args elf =>
      '(_, s) ← Scheduler_spawn (λ _ _ _, created) s args elf; Ret (m, n, s)
  | KTick now now' => '(_, s) ← Scheduler_tick clk now now' s; Ret (m, n, s)
  | KBlock now w => '(_, s) ← Scheduler_switch clk now s (Some w); Ret (m, n, s)
  | KExit now status =>
      match sched_running s with
      | Some pid =>
          '(_, m, s) ← Scheduler_terminate_and_switch encode clk now m s pid status;
          Ret (m, n, s)
      | None => Ret st
      end
  | KIpc c => ipc_run rd services c st
  end.

Definition k_ok (st : kstate) (c : kcall Mem Elf Status) : Prop :=
  let '(m, _, s) := st in
  match c with
  | KSpawn created _ _ =>
      next_pid s < u64_max ∧ ∀ x, created = Ret (Ok x) → process_id x = next_pid s
  | KTick _ now' => clock_ok clk now' ∧ next_waitid (queues s) < u64_max
  | KBlock now w => clock_ok clk now ∧ wait_ok w ∧ next_waitid (queues s) < u64_max
  | KExit now _ => clock_ok clk now
  | KIpc c => ipc_ok rd m c ∧ match c with CProcessOver _ => False | _ => True end
  end.

Abbreviation k_inv := (ipc_inv (ok := @sched_wf Mem) services).

Hypothesis encode_total : ∀ p st, is_Some (encode p st).

Lemma k_inv_sched m n n' s s' : k_inv (m, n, s) → sched_wf s' → k_inv (m, n', s').
Proof. intros [Hm _ Hsv] Hs. by split. Qed.

Lemma exit_spec m n s pid now status :
  k_inv (m, n, s) → sched_running s = Some pid → clock_ok clk now →
  ∃ sw m' s', Scheduler_terminate_and_switch encode clk now m s pid status = Ret (sw, m', s') ∧
    k_inv (m', n, s') ∧ processes s' = delete pid (processes s) ∧ sw ≠ SwitchContinue.
Proof.
  intros [Hm Hs Hsv] Hr Hclk. cbn in Hm, Hs, Hsv.
  destruct (terminate_spec encode m s pid status Hs Hm Hr encode_total)
    as (m' & s1 & E & Hm' & Hs1 & Hp1 & Hr1 & Hk & _).
  destruct (switch_none_spec clk now s1 Hs1 Hr1 Hclk) as (sw & s' & E' & Hs' & Hp' & Hsw).
  unfold Scheduler_terminate_and_switch. rewrite bool_decide_eq_true_2, E by done.
  cbn [mbind outcome_bind]. rewrite E'. cbn [mbind outcome_bind].
  exists sw, m', s'. split_and!; [done| |congruence|done].
  split; cbn; [done|done|]. intros sub Hsub. by apply Hsv, Hk.
Qed.

(** A step panics only when the creation of a process does. *)
Definition k_panics (c : kcall Mem Elf Status) (why : string) : Prop :=
  match c with KSpawn created _ _ => created = Panic why | _ => False end.

Lemma k_run_inv c st :
  k_inv st → k_ok st c →
  match k_run c st with Ret st' => k_inv st' | Panic why => k_panics c why end.
Proof.
  destruct st as [[m n] s]. intros Hinv Hok. pose proof Hinv as [Hm Hs Hsv]. cbn in Hm, Hs, Hsv.
  destruct c as [created args elf|now now'|now w|now status|c]; cbn [k_run k_ok] in *.
  - destruct Hok as [Hn Hid]. destruct created as [c|why].
    + destruct (spawn_spec (λ _ _ _, Ret c) s args elf c Hs Hn eq_refl) as (r & s' & -> & Hs' & _); [naive_solver|].
      cbn. eauto using k_inv_sched.
    + unfold Scheduler_spawn. pose proof (sw_next_pos _ Hs). rewrite ProcessId_next_ret by lia. done.
  - destruct Hok as [Hclk Hn].
    destruct (tick_spec clk now now' s Hs Hclk Hn) as (sw & s' & -> & Hs' & _).
    cbn. eauto using k_inv_sched.
  - destruct Hok as (Hclk & Hw & Hn).
    destruct (switch_spec clk now s w Hs Hclk Hw Hn) as (sw & s' & -> & Hs' & _).
    cbn. eauto using k_inv_sched.
  - destruct (sched_running s) as [pid|] eqn:Hr; [|done].
    destruct (exit_spec m n s pid now status Hinv Hr Hok) as (sw & m' & s' & -> & Hi & _). done.
  - destruct Hok as [Hok _]. by destruct (ipc_run_inv rd services c (m, n, s)) as (st' & -> & ?).
Qed.

Inductive k_reach : kstate → Prop :=
| k_boot m n : services_init ∅ Manager_new = Ret (services, m) → k_reach (m, n, Scheduler_new)
| k_call c st st' : k_reach st → k_ok st c → k_run c st = Ret st' → k_reach st'.

Lemma k_reach_inv st : k_reach st → k_inv st.
Proof.
  induction 1 as [m n Hi|c st st' _ IH Hok Hr].
  - apply boot_inv; [done|apply sched_new_wf].
  - pose proof (k_run_inv c st IH Hok) as Hi. by rewrite Hr in Hi.
Qed.

End kernel.

(** ** Properties *)

(** C1: in every history of the kernel, built from process creation, timer interrupts, blocking,
    termination and IPC calls, a permitted step panics only when it is a spawn and
    [Process::create] itself panics on the program, and each state accounts for every process
    exactly once: it is the running process, or it is in the queues, and the queues hold nothing
    else.  Permitted are a spawn while there are process ids, with a created process that has the
    id it was given; ticks and blocking with a readable clock, a wait that is not nested and while
    there are wait ids; and the IPC calls that [ipc_ok] lists.  The message of a termination can be
    serialised. *)
Theorem kernel_never_panics `{HO : HashOrder} `{PC : Pinecone} rd {Mem Elf Status : Type}
    (encode : ProcessId → Status → option (list byte)) clk services st (c : kcall Mem Elf Status)
    (encode_total : ∀ p st, is_Some (encode p st))
    (Hr : k_reach (Elf := Elf) rd encode clk services st) (Hok : k_ok rd clk st c) :
  match k_run rd encode clk services c st with
  | Ret (m, n, s) => mg_wf m ∧
      NoDup (option_list (sched_running s) ++ procs (queues s)) ∧
      ∀ p, is_Some (processes s !! p) ↔ p ∈ option_list (sched_running s) ++ procs (queues s)
  | Panic why => ∃ args elf, c = KSpawn (Panic why) args elf
  end.
Proof.
  pose proof (k_run_inv rd encode clk services encode_total c st
    (k_reach_inv rd encode clk services encode_total st Hr) Hok) as Hi.
  destruct (k_run rd encode clk services c st) as [[[m n] s]|why].
  - destruct Hi as [Hm Hs _]. split; [done|]. by apply accounted.
  - destruct c as [created args elf| | | |]; try done. cbn in Hi. subst created. by exists args, elf.
Qed.

Definition example_created : outcome (result (Process unit) unit) := Ret (Ok (MkProcess 4096 0 false 1 tt)).

Lemma kernel_never_panics_witness :
  match k_run (PC := example_pinecone) {| files := ∅; slice := [] |}
      (λ _ (_ : unit), Some []) example_clock example_services (KSpawn example_created [] tt)
      (example_manager, 0, Scheduler_new) with
  | Ret (m, n, s) => mg_wf m ∧
      NoDup (option_list (sched_running s) ++ procs (queues s)) ∧
      ∀ p, is_Some (processes s !! p) ↔ p ∈ option_list (sched_running s) ++ procs (queues s)
  | Panic why => ∃ args elf, KSpawn example_created [] tt = KSpawn (Panic why) args elf :> kcall unit unit unit
  end.
Proof.
  apply (kernel_never_panics (PC := example_pinecone) {| files := ∅; slice := [] |}
    (λ _ (_ : unit), Some []) example_clock example_services
    (example_manager, 0, Scheduler_new) (KSpawn example_created [] tt)).
  - intros p st. by exists [].
  - apply k_boot. vm_compute. reflexivity.
  - split; [vm_compute; reflexivity|]. by intros x [= <-].
Defined.

(** C11: terminating the running process removes it from the process table and leaves no
    subscription behind; every process waiting for its completion, and every sender blocked on a
    message stored in one of its mailboxes, becomes runnable, the latter with a [NoSubscriber]
    result; both invariants still hold. *)
Theorem terminate_wakes_waiters `{HO : HashOrder} {Mem Status : Type}
    (encode : ProcessId → Status → option (list byte)) m (s : Scheduler Mem) target status
    (Hs : sched_wf s) (Hm : mg_wf m) (Hr : sched_running s = Some target)
    (encode_total : ∀ p st, is_Some (encode p st)) :
  ∃ m' s', Scheduler_terminate encode m s target status = Ret (m', s') ∧ mg_wf m' ∧
    sched_wf s' ∧ processes s' = delete target (processes s) ∧ sched_running s' = None ∧
    (∀ sub, ¬ owns m' target sub) ∧
    (∀ w p, waiting (queues s) !! w = Some p → triggered (OnOver target) (queues s) w →
      p ∈ running (queues s')) ∧
    (∀ sub mb a e p, owns m target sub → mailboxes m !! sub = Some (Some mb) → a ∈ acks mb →
      waiting_for_delivery m !! a = Some (e, p) → blocked_on (queues s) e p →
      p ∈ running (queues s') ∧ delivery_result m' !! p = Some (Err NoSubscriber)).
Proof.
  destruct (terminate_spec encode m s target status Hs Hm Hr encode_total)
    as (m' & s' & E & H1 & H2 & H3 & H4 & _ & H5 & H6 & H7).
  exists m', s'. done.
Qed.

(** Process 1 running, nothing queued. *)
Definition example_running : Scheduler unit :=
  {| processes := {[1 := MkProcess 4096 0 false 1 tt]}; queues := Queues_new;
     sched_running := Some 1; running_timeslice_end := Some 0; next_pid := 2 |}.

Lemma example_running_wf : sched_wf example_running.
Proof.
  split; cbn.
  - apply qs_new_wf.
  - intros p. rewrite elem_of_procs. cbn.
    assert (¬ (p ∈ ([] : list Z) ∨ ∃ w, (∅ : gmap Z Z) !! w = Some p)).
    { intros [H|[w H]]; [by apply not_elem_of_nil in H|done]. }
    rewrite lookup_singleton_is_Some. naive_solver.
  - intros p [= <-]. rewrite elem_of_procs. intros [H|[w H]]; [by apply not_elem_of_nil in H|done].
  - by intros p x [<- <-]%lookup_singleton_Some.
  - intros p [x [<- _]%lookup_singleton_Some]. lia.
  - lia.
Qed.

Lemma terminate_wakes_waiters_witness :
  ∃ m' s', Scheduler_terminate (λ _ (_ : unit), Some []) Manager_new example_running 1 tt =
    Ret (m', s') ∧ mg_wf m' ∧ sched_wf s' ∧ processes s' = ∅.
Proof.
  destruct (terminate_wakes_waiters (λ _ (_ : unit), Some []) Manager_new example_running 1 tt)
    as (m' & s' & E & H1 & H2 & H3 & _).
  - apply example_running_wf.
  - apply mg_new_wf.
  - reflexivity.
  - intros p st. by exists [].
  - exists m', s'. rewrite H3. split; [exact E|]. split; [exact H1|]. split; [exact H2|].
    vm_compute. reflexivity.
Defined.

(** The next tick is requested in time: there is one whenever a process is running on a time
    slice or sleeping, and it is no later than the end of the slice, than the wake-up time of
    every sleeping entry, and than a tenth of a slice from now. *)
Theorem next_tick_in_time {Mem} clk now (s : Scheduler Mem)
    (Hq : qs_wf (queues s)) (Hclk : clock_ok clk now) :
  ∃ o, Scheduler_next_tick clk now s = Ret o ∧
    (o = None ↔ running_timeslice_end s = None ∧ wait_sleeping (queues s) = []) ∧
    ∀ d, o = Some d →
      (∀ e, running_timeslice_end s = Some e → d ≤ e) ∧
      (∀ t w, (t, w) ∈ wait_sleeping (queues s) → d ≤ t) ∧
      (d - now) * 10 ^ 9 ≤ MIN_EXEC_TIME_NS * clock_freq clk.
Proof.
  destruct Hclk as [Hf Hn]. assert (MIN_EXEC_TIME_NS = 10000000) as Hmin by done.
  destruct (ns_to_ticks_cases clk MIN_EXEC_TIME_NS) as (k & Hk & H0 & Hb & _);
    [rewrite Hmin; unfold year_ns; lia|done|].
  assert (BSPInstant_add_ns clk now MIN_EXEC_TIME_NS = Ret (now + k)) as Ha.
  { unfold BSPInstant_add_ns. rewrite Hk. apply add64_ret. rewrite u64_size_eq.
    rewrite Hmin in Hb. lia. }
  pose proof (qs_sorted _ Hq) as Hs.
  assert (∀ t w, (t, w) ∈ wait_sleeping (queues s) →
    ∃ t0, Queues_next_wakeup (queues s) = Some t0 ∧ t0 ≤ t) as Hsl.
  { unfold Queues_next_wakeup. intros t w Hin. destruct (wait_sleeping (queues s)) as [|[t0 w0] l];
      [by apply not_elem_of_nil in Hin|]. exists t0. split; [done|].
    apply StronglySorted_inv in Hs as [_ Hall]. rewrite Forall_forall in Hall.
    apply elem_of_cons in Hin as [[= -> ->]|Hin]; [lia|]. by apply Hall in Hin. }
  assert (Queues_next_wakeup (queues s) = None ↔ wait_sleeping (queues s) = []) as Hnone.
  { unfold Queues_next_wakeup. by destruct (wait_sleeping (queues s)) as [|[]]. }
  unfold Scheduler_next_tick, flip. rewrite Ha.
  destruct (running_timeslice_end s) as [e|], (Queues_next_wakeup (queues s)) as [t0|];
    cbn -[Z.min Z.pow Z.mul];
    (eexists; split; [reflexivity|]); (split; [naive_solver|]); intros d [= <-];
    (split_and!; [intros ? [= <-]; lia| |lia]); intros t w Hin;
    destruct (Hsl t w Hin) as (t1 & [= <-] & ?); lia.
Qed.

Lemma next_tick_in_time_witness :
  ∃ o, Scheduler_next_tick example_clock 0 example_running = Ret o ∧
    (o = None ↔ running_timeslice_end example_running = None ∧
      wait_sleeping (queues example_running) = []).
Proof.
  destruct (next_tick_in_time example_clock 0 example_running) as (o & E & H & _).
  - apply qs_new_wf.
  - vm_compute. repeat split; congruence.
  - exists o. exact (conj E H).
Defined.

(** Process 1 runs, process 2 is blocked on event 5. *)
Definition example_blocked : outcome (Scheduler unit) :=
  q ← Queues_give Queues_new 2 (Event 5);
  Ret {| processes := {[1 := MkProcess 4096 0 false 1 tt; 2 := MkProcess 8192 0 false 2 tt]};
         queues := q; sched_running := Some 1; running_timeslice_end := Some 0; next_pid := 3 |}.

(** [terminate] on a blocked process leaves its wait id registered: when its event fires the
    dead process is queued, and taking it from the queue panics the kernel. *)
Theorem terminate_blocked_panics :
  (s ← example_blocked;
   '(m, s) ← Scheduler_terminate (λ _ (_ : unit), Some []) Manager_new s 2 tt;
   Scheduler_tick example_clock 0 0 (Scheduler_on_explicit_event s 5)) =
  Panic "Process from queue not running".
Proof. vm_compute. reflexivity. Qed.
