(* ===== verification/Bytes.v ===== *)
(** * Bytes: integers as byte sequences

    [to_le_bytes], [from_le_bytes] and their big-endian versions at any width, with the round
    trips the codecs and memory readers share.  A byte is a [Z] below 256. *)

From stdpp Require Import base list strings.
From Stdlib Require Import ZArith Lia.
From S2P Require Import Prelude.
Open Scope Z_scope.

Definition is_byte (b : Z) : Prop := 0 ≤ b < 256.

#[global] Instance is_byte_dec b : Decision (is_byte b).
Proof. unfold is_byte. apply _. Defined.

(** Concrete byte lists. *)
Ltac all_bytes := apply (bool_decide_unpack _); vm_compute; exact I.

Fixpoint from_le (l : list Z) : Z :=
  match l with [] => 0 | b :: l => b + 256 * from_le l end.

Fixpoint to_le (n : nat) (z : Z) : list Z :=
  match n with O => [] | S n => z mod 256 :: to_le n (z / 256) end.

Definition from_be (l : list Z) : Z := from_le (reverse l).
Definition to_be (n : nat) (z : Z) : list Z := reverse (to_le n z).

Lemma to_le_length n z : length (to_le n z) = n.
Proof. revert z. induction n as [|n IH]; intros z; cbn; [done|by rewrite IH]. Qed.

Lemma to_be_length n z : length (to_be n z) = n.
Proof. unfold to_be. by rewrite length_reverse, to_le_length. Qed.

Lemma to_le_bytes n z : Forall is_byte (to_le n z).
Proof.
  revert z. induction n as [|n IH]; intros z; cbn; constructor; [|done].
  apply Z.mod_pos_bound. lia.
Qed.

Lemma to_be_bytes n z : Forall is_byte (to_be n z).
Proof. apply Forall_reverse, to_le_bytes. Qed.

Lemma from_le_to_le n z : from_le (to_le n z) = z mod 256 ^ Z.of_nat n.
Proof.
  revert z. induction n as [|n IH]; intros z; cbn [to_le from_le].
  { by rewrite Z.mod_1_r. }
  rewrite IH, Nat2Z.inj_succ, Z.pow_succ_r by lia.
  rewrite Z.rem_mul_r by lia. done.
Qed.

Lemma from_be_to_be n z : 0 ≤ z < 256 ^ Z.of_nat n → from_be (to_be n z) = z.
Proof.
  intros Hz. unfold from_be, to_be. rewrite reverse_involutive, from_le_to_le.
  by apply Z.mod_small.
Qed.

Lemma from_le_bound l : Forall is_byte l → 0 ≤ from_le l < 256 ^ Z.of_nat (length l).
Proof.
  induction 1 as [|b l Hb Hl IH]; cbn [from_le length]; [lia|].
  rewrite Nat2Z.inj_succ, Z.pow_succ_r by lia. unfold is_byte in Hb. nia.
Qed.

Lemma to_le_from_le l : Forall is_byte l → to_le (length l) (from_le l) = l.
Proof.
  induction 1 as [|b l Hb Hl IH]; cbn [from_le to_le length]; [done|].
  unfold is_byte in Hb. f_equal.
  - rewrite (Z.mul_comm 256), Z_mod_plus_full. by apply Z.mod_small.
  - transitivity (to_le (length l) (from_le l)); [|done]. f_equal.
    rewrite (Z.mul_comm 256), Z.div_add, (Z.div_small b) by lia. lia.
Qed.

Lemma from_be_bound l : Forall is_byte l → 0 ≤ from_be l < 256 ^ Z.of_nat (length l).
Proof.
  intros Hl. unfold from_be. rewrite <- (length_reverse l).
  apply from_le_bound. by apply Forall_reverse.
Qed.

Lemma to_be_from_be l : Forall is_byte l → to_be (length l) (from_be l) = l.
Proof.
  intros Hl. unfold to_be, from_be. rewrite <- (length_reverse l).
  rewrite to_le_from_le by (by apply Forall_reverse). apply reverse_involutive.
Qed.

(** [&l[a..b]], for a range within bounds. *)
Definition sub_slice {A} (l : list A) (a b : nat) : list A := take (b - a) (drop a l).

(** [&l[a..b]] with the bound check. *)
Definition index_range {A} (l : list A) (a b : nat) : outcome (list A) :=
  if (a <=? b)%nat then
    if (b <=? length l)%nat then Ret (sub_slice l a b)
    else Panic "range end index out of range"
  else Panic "slice index starts after its end".

(** [l[i]] with the bound check. *)
Definition index_at {A} (l : list A) (i : nat) : outcome A :=
  expect (l !! i) "index out of bounds".

Lemma index_range_ret {A} (l : list A) a b :
  (a ≤ b ≤ length l)%nat → index_range l a b = Ret (sub_slice l a b).
Proof.
  intros H. unfold index_range.
  by rewrite (proj2 (Nat.leb_le a b)), (proj2 (Nat.leb_le b (length l))) by lia.
Qed.

Lemma sub_slice_length {A} (l : list A) a b :
  (a ≤ b ≤ length l)%nat → length (sub_slice l a b) = (b - a)%nat.
Proof. intros H. unfold sub_slice. rewrite length_take, length_drop. lia. Qed.

Lemma sub_slice_all {A} (l : list A) b : (length l ≤ b)%nat → sub_slice l 0 b = l.
Proof. intros H. unfold sub_slice. rewrite drop_0, Nat.sub_0_r. by apply take_ge. Qed.

(** Skipping whole prefixes and ending inside the first segment. *)
Lemma sub_slice_app_r {A} (l l' : list A) a b :
  (length l ≤ a)%nat → sub_slice (l ++ l') a b = sub_slice l' (a - length l) (b - length l).
Proof.
  intros H. unfold sub_slice. rewrite drop_app_ge by done. f_equal. lia.
Qed.

Lemma sub_slice_app_l {A} (l l' : list A) a b :
  (a ≤ length l)%nat → (b ≤ length l)%nat → sub_slice (l ++ l') a b = sub_slice l a b.
Proof.
  intros Ha Hb. unfold sub_slice. rewrite drop_app_le by done. rewrite take_app_le; [done|].
  rewrite length_drop. lia.
Qed.

Lemma sub_slice_bytes l a b : Forall is_byte l → Forall is_byte (sub_slice l a b).
Proof. intros H. by apply Forall_take, Forall_drop. Qed.

(** ** UTF-8: [core::str::from_utf8] accepts exactly these byte sequences *)

Definition in_bytes (lo hi b : Z) : bool := (lo <=? b) && (b <=? hi).

Fixpoint utf8_valid (l : list Z) : bool :=
  match l with
  | [] => true
  | a :: l =>
      if in_bytes 0x00 0x7f a then utf8_valid l
      else match l with
      | [] => false
      | b :: l =>
          if in_bytes 0xc2 0xdf a && in_bytes 0x80 0xbf b then utf8_valid l
          else match l with
          | [] => false
          | c :: l =>
              if (((a =? 0xe0) && in_bytes 0xa0 0xbf b) ||
                  (in_bytes 0xe1 0xec a && in_bytes 0x80 0xbf b) ||
                  ((a =? 0xed) && in_bytes 0x80 0x9f b) ||
                  (in_bytes 0xee 0xef a && in_bytes 0x80 0xbf b)) && in_bytes 0x80 0xbf c
              then utf8_valid l
              else match l with
              | [] => false
              | d :: l =>
                  if (((a =? 0xf0) && in_bytes 0x90 0xbf b) ||
                      (in_bytes 0xf1 0xf3 a && in_bytes 0x80 0xbf b) ||
                      ((a =? 0xf4) && in_bytes 0x80 0x8f b)) &&
                     in_bytes 0x80 0xbf c && in_bytes 0x80 0xbf d
                  then utf8_valid l
                  else false
              end
          end
      end
  end.
