(* ===== verification/Ranges.v ===== *)
(** * Ranges: physical memory ranges and the boot memory map
    (src/memory/area.rs, src/memory/map.rs, src/memory/utils.rs, src/memory/constants.rs)

    The map left by the boot loader is a byte buffer.  [PhysAddr::new] belongs to the [x86_64]
    crate and is a parameter; what is relied on is that it accepts addresses below 2^52. *)

From stdpp Require Import base gmap list strings.
From Stdlib Require Import ZArith Lia.
From S2P Require Import Prelude Bytes.
Open Scope Z_scope.

(** ** Constants *)

Definition PAGE_SIZE_BYTES : Z := 0x200000.
Definition MEMORY_RESERVED_BELOW : Z := 0x10000000 + 0x1000000.
Definition HEAP_START : Z := 0x40000000.
Definition HEAP_SIZE : Z := 0x6400000.
Definition MAX_OK_ENTRIES : nat := 20.

(** ** Ranges *)

Record PhysMemoryRange := range { start : Z; stop : Z }.

Definition PhysMemoryRange_contains_address (self : PhysMemoryRange) (ph_addr : Z) : bool :=
  ((start self <=? ph_addr) && (ph_addr <? stop self))%bool.

Definition PhysMemoryRange_can_merge (self other : PhysMemoryRange) : bool :=
  let ss := start self in
  let se := stop self in
  let os := start other in
  let oe := stop other in
  (((ss <=? os) && (os <=? se)) || ((ss <=? oe) && (oe <=? se)))%bool.

Definition PhysMemoryRange_merge (self other : PhysMemoryRange) : outcome PhysMemoryRange :=
  _ ← rassert (PhysMemoryRange_can_merge self other) "self.can_merge(other)";
  Ret (range (Z.min (start self) (start other)) (Z.max (stop self) (stop other))).

Definition PhysMemoryRange_below (self : PhysMemoryRange) (ph_addr : Z) : option PhysMemoryRange :=
  if ph_addr <=? start self then None
  else Some (range (start self) (Z.min (stop self) ph_addr)).

Definition PhysMemoryRange_above (self : PhysMemoryRange) (ph_addr : Z) : option PhysMemoryRange :=
  if stop self <=? ph_addr then None
  else Some (range (Z.max (start self) ph_addr) (stop self)).

(** ** Alignment *)

Definition page_align_u64 (address : Z) (upwards : bool) : outcome Z :=
  if address mod PAGE_SIZE_BYTES =? 0 then Ret address
  else if upwards then
    a ← add64 address PAGE_SIZE_BYTES; sub64 a (address mod PAGE_SIZE_BYTES)
  else sub64 address (address mod PAGE_SIZE_BYTES).

(** ** The table of usable ranges *)

Abbreviation MemoryRanges := (list (option PhysMemoryRange)).

Definition MemoryRanges_new : MemoryRanges := replicate MAX_OK_ENTRIES None.

(** The loop of [write_entry] from index [i] on; [before] are the entries already visited. *)
Fixpoint write_entry_loop (before rest : MemoryRanges) (first_free : option nat) (i : nat)
    (entry : PhysMemoryRange) : outcome MemoryRanges :=
  match rest with
  | [] =>
      f ← expect first_free "No free entries left";
      Ret (<[f := Some entry]> before)
  | Some ok :: rest =>
      if PhysMemoryRange_can_merge ok entry then
        m ← PhysMemoryRange_merge ok entry;
        Ret (before ++ Some m :: rest)
      else write_entry_loop (before ++ [Some ok]) rest first_free (S i) entry
  | None :: rest =>
      write_entry_loop (before ++ [None]) rest
        (match first_free with None => Some i | Some f => Some f end) (S i) entry
  end.

Definition MemoryRanges_write_entry (self : MemoryRanges) (entry : PhysMemoryRange)
    : outcome MemoryRanges :=
  write_entry_loop [] self None 0 entry.

Definition write_opt (self : MemoryRanges) (entry : option PhysMemoryRange)
    : outcome MemoryRanges :=
  match entry with Some e => MemoryRanges_write_entry self e | None => Ret self end.

Definition MemoryRanges_split_and_write_entry (self : MemoryRanges) (entry : PhysMemoryRange)
    : outcome MemoryRanges :=
  match PhysMemoryRange_above entry MEMORY_RESERVED_BELOW with
  | Some ok =>
      self ← write_opt self (PhysMemoryRange_below ok HEAP_START);
      h ← add64 HEAP_START HEAP_SIZE;
      write_opt self (PhysMemoryRange_above ok h)
  | None => Ret self
  end.

Record MemoryInfo := { allocatable : MemoryRanges; max_memory : Z }.

(** One entry of the map: base, size, type and ACPI attributes. *)
Record MapEntry := { e_start : Z; e_size : Z; e_type : Z; e_acpi_data : Z }.

(** [buffer] is the memory from [BOOT_TMP_MMAP_BUFFER] on. *)
Definition read_item (buffer : list Z) (index : nat) : MapEntry :=
  let base := (2 + 24 * index)%nat in
  {| e_start := from_le (sub_slice buffer base (base + 8));
     e_size := from_le (sub_slice buffer (base + 8) (base + 16));
     e_type := from_le (sub_slice buffer (base + 16) (base + 20));
     e_acpi_data := from_le (sub_slice buffer (base + 20) (base + 24)) |}.

Section load.
Context (PhysAddr_new : Z → outcome Z).

Definition page_align (address : Z) (upwards : bool) : outcome Z :=
  a ← page_align_u64 address upwards; PhysAddr_new a.

(** The body of the loop for one entry. *)
Definition load_entry (e : MapEntry) (info : MemoryInfo) : outcome MemoryInfo :=
  e_end ← add64 (e_start e) (e_size e);
  let max_memory := Z.max (max_memory info) e_end in
  let info := {| allocatable := allocatable info; max_memory := max_memory |} in
  s ← PhysAddr_new (e_start e);
  start ← page_align s true;
  t ← PhysAddr_new e_end;
  stop ← page_align t false;
  if start =? stop then Ret info
  else if negb (Z.land (e_acpi_data e) 1 =? 1) then Ret info
  else if ((e_type e =? 1) || (e_type e =? 4))%bool then
    a ← MemoryRanges_split_and_write_entry (allocatable info) (range start stop);
    Ret {| allocatable := a; max_memory := max_memory |}
  else Ret info.

Fixpoint load_entries (es : list MapEntry) (info : MemoryInfo) : outcome MemoryInfo :=
  match es with
  | [] => Ret info
  | e :: es => info ← load_entry e info; load_entries es info
  end.

Definition load_memory_map (buffer : list Z) : outcome MemoryInfo :=
  let entry_count := Z.to_nat (from_le (sub_slice buffer 0 1)) in
  load_entries (read_item buffer <$> seq 0 entry_count)
    {| allocatable := MemoryRanges_new; max_memory := 0 |}.

End load.

(** ** Address sets *)

Definition in_range (a : Z) (r : PhysMemoryRange) : Prop := start r ≤ a < stop r.
Definition range_ok (r : PhysMemoryRange) : Prop := start r < stop r.
Definition in_ranges (a : Z) (rs : MemoryRanges) : Prop := ∃ r, Some r ∈ rs ∧ in_range a r.
Definition ranges_ok (rs : MemoryRanges) : Prop := ∀ r, Some r ∈ rs → range_ok r.

(** No address is in two entries of the table. *)
Definition disjoint_ranges (rs : MemoryRanges) : Prop :=
  ∀ i j r r' a, rs !! i = Some (Some r) → rs !! j = Some (Some r') → i ≠ j →
    in_range a r → in_range a r' → False.

(** The addresses [split_and_write_entry] keeps. *)
Definition kept (a : Z) : Prop :=
  MEMORY_RESERVED_BELOW ≤ a ∧ ¬ (HEAP_START ≤ a < HEAP_START + HEAP_SIZE).

Lemma contains_address_spec r a : PhysMemoryRange_contains_address r a = true ↔ in_range a r.
Proof.
  unfold PhysMemoryRange_contains_address, in_range.
  rewrite andb_true_iff, Z.leb_le, Z.ltb_lt. done.
Qed.

Lemma merge_spec r r' :
  range_ok r → range_ok r' → PhysMemoryRange_can_merge r r' = true →
  ∃ m, PhysMemoryRange_merge r r' = Ret m ∧ range_ok m ∧
    ∀ a, in_range a m ↔ in_range a r ∨ in_range a r'.
Proof.
  intros Hr Hr' Hm. unfold PhysMemoryRange_merge. rewrite Hm. cbn. eexists. split; [done|].
  unfold PhysMemoryRange_can_merge in Hm. unfold range_ok, in_range in *. cbn.
  rewrite orb_true_iff, !andb_true_iff, !Z.leb_le in Hm. split; [lia|]. intros a. lia.
Qed.

Lemma below_spec r p :
  range_ok r →
  match PhysMemoryRange_below r p with
  | Some r' => range_ok r' ∧ ∀ a, in_range a r' ↔ in_range a r ∧ a < p
  | None => ∀ a, in_range a r → p ≤ a
  end.
Proof.
  unfold PhysMemoryRange_below, range_ok, in_range. intros Hr.
  destruct (Z.leb_spec p (start r)); cbn; [lia|]. split; [lia|]. intros a. lia.
Qed.

Lemma above_spec r p :
  range_ok r →
  match PhysMemoryRange_above r p with
  | Some r' => range_ok r' ∧ ∀ a, in_range a r' ↔ in_range a r ∧ p ≤ a
  | None => ∀ a, in_range a r → a < p
  end.
Proof.
  unfold PhysMemoryRange_above, range_ok, in_range. intros Hr.
  destruct (Z.leb_spec (stop r) p); cbn; [lia|]. split; [lia|]. intros a. lia.
Qed.

(** ** Writing an entry *)

(** The table after a successful write: the entry replaces a free slot, or is merged into one
    stored range. *)
Inductive written (rs : MemoryRanges) (e : PhysMemoryRange) : MemoryRanges → Prop :=
| written_free l l' : rs = l ++ None :: l' → written rs e (l ++ Some e :: l')
| written_merged l l' ok m :
    rs = l ++ Some ok :: l' → PhysMemoryRange_can_merge ok e = true →
    PhysMemoryRange_merge ok e = Ret m → written rs e (l ++ Some m :: l').

Lemma write_loop_written before rest ff i e rs' :
  i = length before → (∀ f, ff = Some f → before !! f = Some None) →
  write_entry_loop before rest ff i e = Ret rs' → written (before ++ rest) e rs'.
Proof.
  revert before ff i. induction rest as [|[ok|] rest IH]; intros before ff i Hi Hff Hw; cbn in Hw.
  - outcome_inv. subst ff rs'. specialize (Hff _ eq_refl). rewrite app_nil_r.
    rewrite insert_take_drop by (by eapply lookup_lt_Some).
    apply written_free. symmetry. by apply take_drop_middle.
  - destruct (PhysMemoryRange_can_merge ok e) eqn:Hm.
    + outcome_inv. subst rs'. by apply (written_merged _ _ _ _ ok).
    + rewrite (cons_middle (Some ok)), (assoc_L (++)). apply IH in Hw; [done| |].
      * rewrite length_app. cbn. lia.
      * intros f Hf. by apply lookup_app_l_Some, Hff.
  - rewrite (cons_middle None), (assoc_L (++)). apply IH in Hw; [done| |].
    + rewrite length_app. cbn. lia.
    + intros f Hf. destruct ff as [f'|]; simplify_eq; [by apply lookup_app_l_Some, Hff|].
      by rewrite lookup_app_r, Nat.sub_diag.
Qed.

Lemma write_loop_returns before rest ff i e :
  ranges_ok rest → range_ok e → (is_Some ff ∨ None ∈ rest) →
  ∃ rs', write_entry_loop before rest ff i e = Ret rs'.
Proof.
  revert before ff i. induction rest as [|[ok|] rest IH]; intros before ff i Hok He Hf; cbn.
  - destruct Hf as [[f ->]|Hn]; [by eexists|by apply not_elem_of_nil in Hn].
  - destruct (PhysMemoryRange_can_merge ok e) eqn:Hm.
    + destruct (merge_spec ok e) as (m & -> & _); [apply Hok; by left|done|done|]. by eexists.
    + apply IH; [|done|set_solver]. intros r Hr. apply Hok. by right.
  - apply IH; [|done|left; destruct ff; by eexists]. intros r Hr. apply Hok. by right.
Qed.

Lemma write_entry_written rs e rs' :
  MemoryRanges_write_entry rs e = Ret rs' → written rs e rs'.
Proof. intros Hw. by eapply (write_loop_written []) in Hw. Qed.

(** A write adds exactly the addresses of the entry. *)
Lemma written_spec rs e rs' :
  written rs e rs' → ranges_ok rs → range_ok e →
  ranges_ok rs' ∧ ∀ a, in_ranges a rs' ↔ in_ranges a rs ∨ in_range a e.
Proof.
  intros Hw Hok He. unfold ranges_ok, in_ranges in *. destruct Hw as [l l' ->|l l' ok m -> Hc Hm].
  - setoid_rewrite elem_of_app. setoid_rewrite elem_of_cons.
    setoid_rewrite elem_of_app in Hok. setoid_rewrite elem_of_cons in Hok. split.
    + intros r [?|[[= ->]|?]]; eauto.
    + intros a. split.
      * intros (r & [?|[[= ->]|?]] & Ha); eauto 10.
      * intros [(r & [?|[?|?]] & Ha)|Ha]; simplify_eq; eauto 10.
  - setoid_rewrite elem_of_app. setoid_rewrite elem_of_cons.
    setoid_rewrite elem_of_app in Hok. setoid_rewrite elem_of_cons in Hok.
    destruct (merge_spec ok e) as (m' & Hm' & Hmok & Hin); [eauto|done|done|].
    rewrite Hm in Hm'. injection Hm' as <-. split.
    + intros r [?|[[= ->]|?]]; eauto.
    + intros a. split.
      * intros (r & [?|[[= ->]|?]] & Ha); [eauto 10| |eauto 10].
        apply Hin in Ha as [?|?]; eauto 10.
      * intros [(r & [?|[[= ->]|?]] & Ha)|Ha]; [eauto 10| |eauto 10|];
          (exists m; split; [eauto|]; apply Hin; auto).
Qed.

(** Writing an entry that shares no address with the table keeps the table disjoint. *)
Lemma written_disjoint rs e rs' :
  written rs e rs' → ranges_ok rs → range_ok e → disjoint_ranges rs →
  (∀ a, in_ranges a rs → in_range a e → False) → disjoint_ranges rs'.
Proof.
  intros Hw Hok He Hd Hn.
  assert (∃ i m, rs' = <[i := Some m]> rs ∧ (i < length rs)%nat ∧
    ∀ a, in_range a m → in_range a e ∨ ∃ ok, rs !! i = Some (Some ok) ∧ in_range a ok)
    as (i & m & -> & Hi & Hm).
  { destruct Hw as [l l' ->|l l' ok m -> Hc Hm].
    - exists (length l), e. rewrite insert_app_r_alt, Nat.sub_diag by done. split_and!;
        [done|rewrite length_app; cbn; lia|by left].
    - exists (length l), m. rewrite insert_app_r_alt, Nat.sub_diag by done. split_and!;
        [done|rewrite length_app; cbn; lia|].
      destruct (merge_spec ok e) as (m' & Hm' & _ & Hin); [apply Hok; set_solver|done|done|].
      rewrite Hm in Hm'. injection Hm' as <-. intros a [Ha|Ha]%Hin; [right|by left].
      exists ok. by rewrite lookup_app_r, Nat.sub_diag. }
  assert (∀ j r a, j ≠ i → rs !! j = Some (Some r) → in_range a r → in_range a m → False) as Hx.
  { intros j r a Hji Hr Har [Hae|(ok & Hok' & Hao)]%Hm.
    - apply (Hn a); [|done]. exists r. split; [|done]. apply list_elem_of_lookup. eauto.
    - by eapply (Hd j i). }
  intros j k r r' a Hj Hk Hjk Ha Ha'.
  apply list_lookup_insert_Some in Hj as [(-> & Hr & _)|[Hji Hj]],
    Hk as [(-> & Hr' & _)|[Hki Hk]]; simplify_eq; [|by eapply Hx|by eapply (Hd j k)].
  eapply (Hx k); [|done..]. done.
Qed.

(** ** Free slots *)

Definition free_slots (rs : MemoryRanges) : nat := length (filter (λ o, o = None) rs).

Lemma free_slot_exists rs : (0 < free_slots rs)%nat → None ∈ rs.
Proof.
  unfold free_slots. induction rs as [|[r|] rs IH]; rewrite ?filter_nil, ?filter_cons; cbn.
  - lia.
  - intros H. right. by apply IH.
  - intros _. by left.
Qed.

Lemma written_slots rs e rs' :
  written rs e rs' → (free_slots rs ≤ S (free_slots rs'))%nat.
Proof.
  unfold free_slots. destruct 1 as [l l' ->|l l' ok m -> _ _];
    rewrite !filter_app, !length_app, !filter_cons; repeat case_decide; simplify_eq; cbn; lia.
Qed.

Lemma write_opt_spec rs o :
  ranges_ok rs → (∀ e, o = Some e → range_ok e) → (0 < free_slots rs)%nat →
  ∃ rs', write_opt rs o = Ret rs' ∧ ranges_ok rs' ∧ (free_slots rs ≤ S (free_slots rs'))%nat ∧
    (∀ a, in_ranges a rs' ↔ in_ranges a rs ∨ ∃ e, o = Some e ∧ in_range a e) ∧
    (disjoint_ranges rs → (∀ a e, in_ranges a rs → o = Some e → in_range a e → False) →
     disjoint_ranges rs').
Proof.
  intros Hok Ho Hfree. destruct o as [e|]; cbn.
  - destruct (write_loop_returns [] rs None 0 e Hok) as [rs' Hw];
      [by apply Ho|right; by apply free_slot_exists|].
    exists rs'. pose proof (write_entry_written _ _ _ Hw) as Hwr.
    destruct (written_spec _ _ _ Hwr Hok) as [Hok' Hin]; [by apply Ho|].
    split_and!; [done|done|by eapply written_slots| |].
    + intros a. rewrite Hin. naive_solver.
    + intros Hd Hn. eapply written_disjoint; eauto.
  - exists rs. split_and!; [done|done|lia|naive_solver|done].
Qed.

(** Splitting off the reserved areas. *)
Lemma split_spec rs e :
  ranges_ok rs → range_ok e → (2 ≤ free_slots rs)%nat →
  ∃ rs', MemoryRanges_split_and_write_entry rs e = Ret rs' ∧ ranges_ok rs' ∧
    (free_slots rs ≤ 2 + free_slots rs')%nat ∧
    (∀ a, in_ranges a rs' ↔ in_ranges a rs ∨ in_range a e ∧ kept a) ∧
    (disjoint_ranges rs → (∀ a, in_ranges a rs → in_range a e → False) → disjoint_ranges rs').
Proof.
  intros Hok He Hfree. unfold MemoryRanges_split_and_write_entry.
  pose proof (above_spec e MEMORY_RESERVED_BELOW He) as Ha.
  destruct (PhysMemoryRange_above e MEMORY_RESERVED_BELOW) as [ok|].
  2: { exists rs. split_and!; [done|done|lia| |done]. intros a. split; [by left|].
       intros [?|[Hr [Hk _]]]; [done|]. apply Ha in Hr. lia. }
  destruct Ha as [Hrok Hin].
  pose proof (below_spec ok HEAP_START Hrok) as Hb.
  destruct (write_opt_spec rs (PhysMemoryRange_below ok HEAP_START))
    as (rs1 & -> & Hok1 & Hf1 & Hin1 & Hd1); [done| |lia|].
  { intros r Hr. rewrite Hr in Hb. by destruct Hb. }
  cbn [mbind outcome_bind].
  change (add64 HEAP_START HEAP_SIZE) with (Ret (HEAP_START + HEAP_SIZE)).
  cbn [mbind outcome_bind].
  pose proof (above_spec ok (HEAP_START + HEAP_SIZE) Hrok) as Hu.
  destruct (write_opt_spec rs1 (PhysMemoryRange_above ok (HEAP_START + HEAP_SIZE)))
    as (rs2 & -> & Hok2 & Hf2 & Hin2 & Hd2); [done| |lia|].
  { intros r Hr. rewrite Hr in Hu. by destruct Hu. }
  assert (∀ a, (∃ r, PhysMemoryRange_below ok HEAP_START = Some r ∧ in_range a r) ↔
    in_range a ok ∧ a < HEAP_START) as Hb'.
  { intros a. destruct (PhysMemoryRange_below ok HEAP_START).
    - destruct Hb as [_ Hb]. rewrite <- Hb. naive_solver.
    - split; [naive_solver|]. intros [H1 H2]. apply Hb in H1. lia. }
  assert (∀ a, (∃ r, PhysMemoryRange_above ok (HEAP_START + HEAP_SIZE) = Some r ∧ in_range a r) ↔
    in_range a ok ∧ HEAP_START + HEAP_SIZE ≤ a) as Hu'.
  { intros a. destruct (PhysMemoryRange_above ok (HEAP_START + HEAP_SIZE)).
    - destruct Hu as [_ Hu]. rewrite <- Hu. naive_solver.
    - split; [naive_solver|]. intros [H1 H2]. apply Hu in H1. lia. }
  assert (0 < HEAP_SIZE) as Hpos by done.
  exists rs2. split_and!; [done|done|lia| |].
  - intros a. rewrite Hin2, Hin1, Hb', Hu', Hin. unfold kept.
    destruct (Z.lt_ge_cases a HEAP_START), (Z.lt_ge_cases a (HEAP_START + HEAP_SIZE));
      intuition lia.
  - intros Hd Hn. apply Hd2; [apply Hd1; [done|]|].
    + intros a r Hr Hbr Har. apply (Hn a Hr). apply Hin, Hb'. eauto.
    + intros a r [Hr|Hr]%Hin1 Hur Har.
      * apply (Hn a Hr). apply Hin, Hu'. eauto.
      * apply Hb' in Hr. assert (in_range a ok ∧ HEAP_START + HEAP_SIZE ≤ a) by (apply Hu'; eauto).
        lia.
Qed.

(** ** Loading the map *)

Definition align_up (a : Z) : Z := PAGE_SIZE_BYTES * ((a + PAGE_SIZE_BYTES - 1) / PAGE_SIZE_BYTES).
Definition align_down (a : Z) : Z := PAGE_SIZE_BYTES * (a / PAGE_SIZE_BYTES).

Lemma page_align_spec a upwards :
  0 ≤ a < 2 ^ 63 →
  page_align_u64 a upwards = Ret (if upwards then align_up a else align_down a).
Proof.
  intros Ha. unfold page_align_u64, align_up, align_down, PAGE_SIZE_BYTES.
  pose proof (Z.div_mod a 0x200000 ltac:(lia)) as Hd.
  pose proof (Z.mod_pos_bound a 0x200000 ltac:(lia)) as Hm.
  set (q := a / 0x200000) in *. set (r := a mod 0x200000) in *.
  assert ((a + 0x200000 - 1) / 0x200000 = if r =? 0 then q else q + 1) as Hup.
  { destruct (Z.eqb_spec r 0).
    - symmetry. apply Z.div_unique with (a + 0x200000 - 1 - 0x200000 * q); lia.
    - symmetry. apply Z.div_unique with (r - 1); lia. }
  destruct (Z.eqb_spec r 0) as [Hr|Hr].
  - destruct upwards; [rewrite Hup|]; f_equal; lia.
  - destruct upwards.
    + rewrite Hup. rewrite (proj2 (add64_ret a 0x200000 (a + 0x200000)))
        by (rewrite u64_size_eq; lia). apply sub64_ret. lia.
    + apply sub64_ret. lia.
Qed.

Definition usable (e : MapEntry) : bool :=
  ((Z.land (e_acpi_data e) 1 =? 1) && ((e_type e =? 1) || (e_type e =? 4)))%bool.

(** The whole pages of an entry. *)
Definition frames (e : MapEntry) : PhysMemoryRange :=
  range (align_up (e_start e)) (align_down (e_start e + e_size e)).

(** An entry the loader handles: it lies in the physical address space, and if it is usable it
    spans a page boundary. *)
Definition entry_ok (e : MapEntry) : Prop :=
  0 ≤ e_start e ∧ 0 ≤ e_size e ∧ e_start e + e_size e < 2 ^ 51 ∧
  (usable e = true → start (frames e) ≤ stop (frames e)).

Definition apart (e e' : MapEntry) : Prop :=
  ∀ a, in_range a (frames e) → in_range a (frames e') → False.

Section load_props.
Context (PhysAddr_new : Z → outcome Z).
Hypothesis PhysAddr_new_small : ∀ a, 0 ≤ a < 2 ^ 52 → PhysAddr_new a = Ret a.

Lemma align_bounds a : 0 ≤ a < 2 ^ 51 → 0 ≤ align_down a ≤ align_up a ∧ align_up a < 2 ^ 52.
Proof.
  intros Ha. unfold align_up, align_down, PAGE_SIZE_BYTES.
  pose proof (Z.div_mod a 0x200000 ltac:(lia)). pose proof (Z.mod_pos_bound a 0x200000 ltac:(lia)).
  pose proof (Z.div_mod (a + 0x200000 - 1) 0x200000 ltac:(lia)).
  pose proof (Z.mod_pos_bound (a + 0x200000 - 1) 0x200000 ltac:(lia)).
  lia.
Qed.

Lemma load_entry_spec e info :
  entry_ok e → ranges_ok (allocatable info) →
  (usable e = true → 2 ≤ free_slots (allocatable info))%nat →
  ∃ info', load_entry PhysAddr_new e info = Ret info' ∧ ranges_ok (allocatable info') ∧
    max_memory info' = Z.max (max_memory info) (e_start e + e_size e) ∧
    (free_slots (allocatable info) ≤
      (if usable e then 2 else 0) + free_slots (allocatable info'))%nat ∧
    (∀ a, in_ranges a (allocatable info') ↔
      in_ranges a (allocatable info) ∨ usable e = true ∧ in_range a (frames e) ∧ kept a) ∧
    (disjoint_ranges (allocatable info) →
     (∀ a, in_ranges a (allocatable info) → usable e = true → in_range a (frames e) → False) →
     disjoint_ranges (allocatable info')).
Proof.
  intros (Hs & Hz & Hb & Hfr) Hok Hfree. unfold load_entry.
  rewrite (proj2 (add64_ret _ _ (e_start e + e_size e))) by (rewrite u64_size_eq; lia).
  cbn [mbind outcome_bind]. pose proof (align_bounds (e_start e) ltac:(lia)) as Hb1.
  pose proof (align_bounds (e_start e + e_size e) ltac:(lia)) as Hb2.
  rewrite !PhysAddr_new_small by lia. cbn [mbind outcome_bind]. unfold page_align.
  rewrite !page_align_spec by lia. cbn [mbind outcome_bind].
  rewrite !PhysAddr_new_small by lia. cbn [mbind outcome_bind].
  destruct (Z.eqb_spec (align_up (e_start e)) (align_down (e_start e + e_size e))) as [Heq|Hneq].
  { eexists. split; [done|]. split_and!; try done; [cbn [allocatable]; destruct (usable e); lia|].
    intros a. split; [by left|]. intros [?|(_ & Hr & _)]; [done|].
    unfold in_range, frames in Hr. cbn in Hr. lia. }
  cbn [allocatable]. unfold usable in *.
  destruct (Z.land (e_acpi_data e) 1 =? 1); cbn [negb andb] in *; 
    [|eexists; split_and!; try done; intuition congruence].
  destruct ((e_type e =? 1) || (e_type e =? 4))%bool; 
    [|eexists; split_and!; try done; intuition congruence].
  destruct (split_spec (allocatable info) (frames e)) as (rs' & E & Hok' & Hf' & Hin & Hd);
    [done| |by apply Hfree|].
  { unfold range_ok. specialize (Hfr eq_refl). unfold frames in *. cbn in *. lia. }
  unfold frames in E at 1. rewrite E. cbn [mbind outcome_bind]. eexists. split; [done|].
  split_and!; cbn; [done|done|done| |].
  - intros a. rewrite Hin. naive_solver.
  - intros Hdj Hn. apply Hd; [done|]. intros a Ha. by apply Hn.
Qed.

Definition usable_count (es : list MapEntry) : nat := length (filter (λ e, usable e = true) es).

Lemma load_entries_spec es info :
  Forall entry_ok es → ranges_ok (allocatable info) →
  (2 * usable_count es ≤ free_slots (allocatable info))%nat →
  ∃ info', load_entries PhysAddr_new es info = Ret info' ∧ ranges_ok (allocatable info') ∧
    (∀ a, in_ranges a (allocatable info') ↔ in_ranges a (allocatable info) ∨
      kept a ∧ ∃ e, e ∈ es ∧ usable e = true ∧ in_range a (frames e)) ∧
    (disjoint_ranges (allocatable info) → ForallOrdPairs apart es →
     (∀ a e, in_ranges a (allocatable info) → e ∈ es → in_range a (frames e) → False) →
     disjoint_ranges (allocatable info')).
Proof.
  revert info. induction es as [|e es IH]; intros info Hes Hok Hfree; cbn [load_entries].
  { exists info. split_and!; [done|done| |done]. intros a. split; [by left|].
    intros [?|(_ & e & He & _)]; [done|by apply not_elem_of_nil in He]. }
  inversion_clear Hes as [|?? He Hes'].
  unfold usable_count in *. rewrite filter_cons in Hfree.
  destruct (load_entry_spec e info He Hok) as (i1 & -> & Hok1 & _ & Hf1 & Hin1 & Hd1).
  { intros Hu. rewrite decide_True in Hfree by done. cbn in Hfree. lia. }
  cbn [mbind outcome_bind].
  destruct (IH i1 Hes' Hok1) as (i2 & E & Hok2 & Hin2 & Hd2).
  { destruct (usable e); [rewrite decide_True in Hfree by done|rewrite decide_False in Hfree by done];
      cbn in Hfree; lia. }
  exists i2. split_and!; [done|done| |].
  - intros a. rewrite Hin2, Hin1. split.
    + intros [[?|(? & ? & ?)]|(? & e' & ? & ? & ?)]; [by left| |];
        (right; split; [done|]); [exists e|exists e']; by rewrite elem_of_cons; auto.
    + intros [?|(? & e' & [->|?]%elem_of_cons & ? & ?)]; [by left; left|left; by right|].
      right. split; [done|]. by exists e'.
  - intros Hd Hap Hn. inversion_clear Hap as [|?? Ha1 Ha2].
    apply Hd2; [apply Hd1; [done|]|done|].
    + intros a Ha _. apply (Hn a e Ha). by left.
    + intros a e' [Ha|(_ & Ha & _)]%Hin1 He' Hr; [apply (Hn a e' Ha); [by right|done]|].
      rewrite List.Forall_forall in Ha1.
      apply list_elem_of_In in He'. by apply (Ha1 e' He' a).
Qed.

End load_props.

(** ** Properties *)

(** The memory map is exact.  For a boot map whose entries lie in the physical address space
    and whose usable entries span a page boundary, with at most ten usable entries, loading
    returns, and an address is allocatable exactly when it lies in a whole page of a usable
    entry, above the kernel area and outside the heap; if no two entries share a page, no
    address is in two ranges. *)
Theorem memory_map_exact (PhysAddr_new : Z → outcome Z) buffer
    (PhysAddr_new_small : ∀ a, 0 ≤ a < 2 ^ 52 → PhysAddr_new a = Ret a) :
  let es := read_item buffer <$> seq 0 (Z.to_nat (from_le (sub_slice buffer 0 1))) in
  Forall entry_ok es → (2 * usable_count es ≤ MAX_OK_ENTRIES)%nat →
  ∃ info, load_memory_map PhysAddr_new buffer = Ret info ∧
    (∀ a, in_ranges a (allocatable info) ↔
      kept a ∧ ∃ e, e ∈ es ∧ usable e = true ∧ in_range a (frames e)) ∧
    (ForallOrdPairs apart es → disjoint_ranges (allocatable info)).
Proof.
  intros es Hes Hn.
  assert (∀ r, Some r ∈ MemoryRanges_new → False) as Hnew.
  { intros r [? _]%elem_of_replicate. done. }
  destruct (load_entries_spec PhysAddr_new PhysAddr_new_small es
    {| allocatable := MemoryRanges_new; max_memory := 0 |} Hes) as (info & E & _ & Hin & Hd).
  - intros r Hr. by destruct (Hnew r).
  - cbn [allocatable]. assert (free_slots MemoryRanges_new = MAX_OK_ENTRIES) as -> by reflexivity.
    exact Hn.
  - exists info. split; [exact E|]. split.
    + intros a. rewrite Hin. split; [|by right]. intros [(r & Hr & _)|?]; [|done].
      by destruct (Hnew r).
    + intros Hap. apply Hd; [|done|].
      * intros i j r r' a Hi. exfalso. apply (Hnew r), list_elem_of_lookup. by exists i.
      * intros a e (r & Hr & _). by destruct (Hnew r).
Qed.

(** One usable entry, 0x20000000 to 0x60000000, around the heap. *)
Definition example_map : list Z :=
  [1; 0] ++ to_le 8 0x20000000 ++ to_le 8 0x40000000 ++ to_le 4 1 ++ to_le 4 1.

Definition example_entry : MapEntry :=
  {| e_start := 0x20000000; e_size := 0x40000000; e_type := 1; e_acpi_data := 1 |}.

Lemma memory_map_exact_witness :
  ∃ info, load_memory_map Ret example_map = Ret info ∧
    ∀ a, in_ranges a (allocatable info) ↔
      kept a ∧ ∃ e, e ∈ [example_entry] ∧ usable e = true ∧ in_range a (frames e).
Proof.
  pose proof (memory_map_exact Ret example_map (λ a _, eq_refl)) as H. cbv zeta in H.
  assert (read_item example_map <$> seq 0 (Z.to_nat (from_le (sub_slice example_map 0 1)))
    = [example_entry]) as Hes by (vm_compute; reflexivity).
  rewrite Hes in H. destruct H as (info & E & Hin & _).
  - constructor; [|constructor]. unfold entry_ok. vm_compute. repeat split; congruence.
  - vm_compute. repeat constructor.
  - exists info. exact (conj E Hin).
Defined.

(** A usable entry of one 4 KiB page that contains no whole 2 MiB page. *)
Definition small_map : list Z :=
  [1; 0] ++ to_le 8 0x20001000 ++ to_le 8 0x1000 ++ to_le 4 1 ++ to_le 4 1.

(** The loader only skips an entry without a whole page when its rounded bounds coincide; a
    smaller entry between two page boundaries is stored as a range that ends before it starts. *)
Theorem small_entry_inverted :
  load_memory_map Ret small_map =
  Ret {| allocatable := Some (range 0x20200000 0x20000000) :: replicate 19 None;
         max_memory := 0x20002000 |}.
Proof. vm_compute. reflexivity. Qed.
