(* ===== verification/VirtAlloc.v ===== *)
(** * VirtAlloc: virtual and DMA address allocation
    (src/memory/virt/allocator.rs, src/memory/virt/mod.rs, src/memory/allocators/dma_allocator.rs,
    src/memory/allocators/stack_allocator.rs)

    The free list is the state; the theorems are about the set of free addresses.  Addresses are
    below 2^34, so the additions of the source cannot overflow and [VirtAddr] arithmetic is exact. *)

From stdpp Require Import base gmap list strings sorting.
From Stdlib Require Import ZArith Lia.
From S2P Require Import Prelude Ranges.
Open Scope Z_scope.

Module virt.

Definition START_ADDR : Z := 0x100000000.
Definition END_ADDR : Z := 0x200000000.

Record Block := MkBlock { bstart : Z; bend : Z }.

Definition Block_size_bytes (self : Block) : Z := bend self - bstart self.
Definition Block_size_pages (self : Block) : Z := Block_size_bytes self / PAGE_SIZE_BYTES.

Definition FREE_LIST : list Block := [MkBlock START_ADDR END_ADDR].

(** The loop of [allocate]. *)
Fixpoint allocator_allocate (free_blocks : list Block) (size_pages : Z)
    : outcome (Z * list Block) :=
  match free_blocks with
  | [] => Panic "Out of virtual memory"
  | b :: rest =>
      if size_pages <=? Block_size_pages b then
        if Block_size_pages b =? size_pages then Ret (bstart b, rest)
        else Ret (bstart b, MkBlock (bstart b + size_pages * PAGE_SIZE_BYTES) (bend b) :: rest)
      else '(a, rest) ← allocator_allocate rest size_pages; Ret (a, b :: rest)
  end.

Definition allocator_free (free_blocks : list Block) (start size_pages : Z)
    : outcome (list Block) :=
  match binary_search_by (λ block, Z.compare (bstart block) start) free_blocks with
  | inl _ => Panic "VirtAlloc: Double free"
  | inr index =>
      let stop := start + size_pages * PAGE_SIZE_BYTES in
      match (if (0 <? index)%nat then free_blocks !! (index - 1)%nat else None) with
      | Some p =>
          if bend p =? start then
            Ret (<[(index - 1)%nat := MkBlock (bstart p) (bend p + size_pages * PAGE_SIZE_BYTES)]>
                   free_blocks)
          else
            match free_blocks !! index with
            | Some n =>
                if bstart n =? stop then Ret (<[index := MkBlock start (bend n)]> free_blocks)
                else Ret (vec_insert index (MkBlock start stop) free_blocks)
            | None => Ret (vec_insert index (MkBlock start stop) free_blocks)
            end
      | None =>
          match free_blocks !! index with
          | Some n =>
              if bstart n =? stop then Ret (<[index := MkBlock start (bend n)]> free_blocks)
              else Ret (vec_insert index (MkBlock start stop) free_blocks)
          | None => Ret (vec_insert index (MkBlock start stop) free_blocks)
          end
      end
  end.

Record Allocation := MkAllocation { astart : Z; aend : Z }.

Definition Allocation_size_pages (self : Allocation) : Z :=
  (aend self - astart self) / PAGE_SIZE_BYTES.

Definition allocate (free_blocks : list Block) (size_pages : Z)
    : outcome (Allocation * list Block) :=
  '(start, l) ← allocator_allocate free_blocks size_pages;
  Ret (MkAllocation start (start + size_pages * PAGE_SIZE_BYTES), l).

(** [Drop for Allocation] *)
Definition Allocation_drop (free_blocks : list Block) (self : Allocation)
    : outcome (list Block) :=
  allocator_free free_blocks (astart self) (Allocation_size_pages self).

(** ** Free addresses *)

Definition aligned (z : Z) : Prop := (PAGE_SIZE_BYTES | z).

Definition block_ok (b : Block) : Prop :=
  bstart b < bend b ∧ aligned (bstart b) ∧ aligned (bend b).

Definition before (b b' : Block) : Prop := bend b ≤ bstart b'.

(** Blocks are not empty, page aligned, disjoint and in address order. *)
Record fl_wf (l : list Block) : Prop := {
  fl_blocks : Forall block_ok l;
  fl_sorted : StronglySorted before l;
}.

Definition is_free (l : list Block) (a : Z) : Prop :=
  ∃ b, b ∈ l ∧ bstart b ≤ a < bend b.

Lemma block_pages b :
  block_ok b → bend b = bstart b + Block_size_pages b * PAGE_SIZE_BYTES ∧ 0 < Block_size_pages b.
Proof.
  intros (Hlt & [x Hx] & [y Hy]). unfold Block_size_pages, Block_size_bytes.
  assert (bend b - bstart b = (y - x) * PAGE_SIZE_BYTES) as -> by lia.
  rewrite Z.div_mul by done. unfold PAGE_SIZE_BYTES in *. lia.
Qed.

Lemma fl_init_wf : fl_wf FREE_LIST.
Proof.
  split.
  - constructor; [|constructor]. split_and!; [done|by exists 2048|by exists 4096].
  - repeat constructor.
Qed.

Lemma fl_cons b l : fl_wf (b :: l) ↔ block_ok b ∧ fl_wf l ∧ ∀ b', b' ∈ l → before b b'.
Proof.
  split.
  - intros [Hb Hs]. inversion_clear Hb. apply StronglySorted_inv in Hs as [Hs Hf].
    rewrite Forall_forall in Hf. done.
  - intros (Hb & [Hl Hs] & Hf). split; constructor; try done. by apply Forall_forall.
Qed.

Lemma is_free_cons b l a : is_free (b :: l) a ↔ bstart b ≤ a < bend b ∨ is_free l a.
Proof. unfold is_free. setoid_rewrite elem_of_cons. naive_solver. Qed.

(** First fit: the returned range was free, and exactly it is free no longer. *)
Lemma allocate_spec l n :
  fl_wf l → 0 < n →
  match allocator_allocate l n with
  | Ret (s, l') => fl_wf l' ∧ aligned s ∧
      (∀ a, s ≤ a < s + n * PAGE_SIZE_BYTES → is_free l a) ∧
      (∀ a, is_free l' a ↔ is_free l a ∧ ¬ (s ≤ a < s + n * PAGE_SIZE_BYTES)) ∧
      (∀ b', b' ∈ l' → ∃ b, b ∈ l ∧ bstart b ≤ bstart b' ∧ bend b = bend b') ∧ (∃ b, b ∈ l ∧ s = bstart b)
  | Panic _ => ∀ b, b ∈ l → Block_size_pages b < n
  end.
Proof.
  intros Hwf Hn. induction l as [|b l IH]; cbn [allocator_allocate].
  { intros b Hb. by apply not_elem_of_nil in Hb. }
  apply fl_cons in Hwf as (Hb & Hl & Hord). pose proof (block_pages b Hb) as [Hp Hpos].
  assert (0 < PAGE_SIZE_BYTES) as HP by done.
  destruct (Z.leb_spec n (Block_size_pages b)) as [Hle|Hgt].
  - destruct (Z.eqb_spec (Block_size_pages b) n) as [Heq|Hne].
    + split_and!; [done|apply Hb| | | |].
      * intros a Ha. apply is_free_cons. left. lia.
      * intros a. rewrite is_free_cons. split; [|intros [[?|?] ?]; [lia|done]].
        intros Hf. split; [by right|]. destruct Hf as (b' & Hb' & Ha). apply Hord in Hb'.
        unfold before in Hb'. lia.
      * intros b' Hb'. exists b'. split_and!; [by right|lia|done].
      * exists b. split; [by left|done].
    + split_and!.
      * apply fl_cons. split_and!; [|done|done]. destruct Hb as (_ & Ha1 & Ha2).
        split_and!; cbn; [nia| |done]. apply Z.divide_add_r; [done|by exists n].
      * apply Hb.
      * intros a Ha. apply is_free_cons. left. nia.
      * intros a. rewrite !is_free_cons. cbn. split.
        { intros [Ha|Hf]; [split; [left; nia|lia]|]. split; [by right|].
          destruct Hf as (b' & Hb' & Ha). apply Hord in Hb'. unfold before in Hb'. nia. }
        { intros [[Ha|Ha] Hna]; [left; lia|by right]. }
      * intros b' [->|Hb']%elem_of_cons; [exists b; cbn; split_and!; [by left|nia|done]|].
        exists b'. split_and!; [by right|lia|done].
      * exists b. split; [by left|done].
  - specialize (IH Hl). destruct (allocator_allocate l n) as [[s l']|w]; cbn.
    + destruct IH as (Hwf' & Hal & Hin & Hfr & Hsub & (bs & Hbs & Hs)). split_and!; [|done| | | |].
      * apply fl_cons. split_and!; [done|done|]. intros b' Hb'. destruct (Hsub b' Hb') as (b0 & Hb0 & ? & ?).
        apply Hord in Hb0. unfold before in *. lia.
      * intros a Ha. apply is_free_cons. right. by apply Hin.
      * intros a. rewrite !is_free_cons, Hfr. split; [|tauto].
        intros [Ha|?]; [|tauto]. split; [by left|]. apply Hord in Hbs. unfold before in Hbs. lia.
      * intros b' [->|Hb']%elem_of_cons; [exists b; split_and!; [by left|lia|done]|].
        destruct (Hsub b' Hb') as (b0 & ? & ? & ?). exists b0. split_and!; [by right|done|done].
      * exists bs. split; [by right|done].
    + intros b' [->|Hb']%elem_of_cons; [done|by apply IH].
Qed.

Lemma fl_app l1 l2 :
  fl_wf (l1 ++ l2) ↔ fl_wf l1 ∧ fl_wf l2 ∧ ∀ b b', b ∈ l1 → b' ∈ l2 → before b b'.
Proof.
  split.
  - intros [Hb Hs]. apply Forall_app in Hb as [? ?].
    apply strongly_sorted_app in Hs as (? & ? & ?). done.
  - intros ([? ?] & [? ?] & ?). split; [by apply Forall_app|]. by apply strongly_sorted_app.
Qed.

Lemma is_free_app l1 l2 a : is_free (l1 ++ l2) a ↔ is_free l1 a ∨ is_free l2 a.
Proof. unfold is_free. setoid_rewrite elem_of_app. naive_solver. Qed.

(** Putting one block between two parts of the list. *)
Lemma fl_middle l1 b l2 :
  fl_wf l1 → fl_wf l2 → block_ok b → (∀ x, x ∈ l1 → before x b) → (∀ y, y ∈ l2 → before b y) →
  fl_wf (l1 ++ b :: l2).
Proof.
  intros H1 H2 Hb Hx Hy. apply fl_app. split_and!; [done|by apply fl_cons|].
  intros x y Hin [->|Hin']%elem_of_cons; [by apply Hx|].
  apply Hx in Hin. apply Hy in Hin'. destruct Hb as [Hb _]. unfold before in *. lia.
Qed.

Lemma fl_key_sorted l : fl_wf l → StronglySorted (key_lt Z.compare bstart) l.
Proof.
  induction l as [|b l IH]; intros Hwf; [constructor|]. apply fl_cons in Hwf as (Hb & Hl & Ho).
  constructor; [by apply IH|]. apply Forall_forall. intros b' Hb'. apply Ho in Hb'.
  unfold key_lt, before in *. destruct Hb as [Hb _]. apply Z.compare_lt_iff. lia.
Qed.

(** Where [free] finds its place: everything before ends at or below the range, everything after
    starts at or above its end. *)
Lemma free_position l s n :
  fl_wf l → 0 < n → (∀ a, s ≤ a < s + n * PAGE_SIZE_BYTES → ¬ is_free l a) →
  ∃ i, binary_search_by (λ b, Z.compare (bstart b) s) l = inr i ∧ (i ≤ length l)%nat ∧
    (∀ b, b ∈ take i l → bend b ≤ s) ∧
    (∀ b, b ∈ drop i l → s + n * PAGE_SIZE_BYTES ≤ bstart b).
Proof.
  intros Hwf Hn Hfree. pose proof (fl_key_sorted l Hwf) as Hs.
  assert (∀ b, b ∈ l → block_ok b) as Hok.
  { intros b Hb. destruct Hwf as [Hf _]. rewrite Forall_forall in Hf. auto. }
  assert (0 < n * PAGE_SIZE_BYTES) as Hpos by (unfold PAGE_SIZE_BYTES; lia).
  destruct (bsearch_miss Z.compare bstart l s Hs) as [i Hi].
  { intros b Hb Heq. apply (Hfree s); [lia|]. exists b. split; [done|].
    destruct (Hok b Hb) as [? _]. lia. }
  pose proof (binary_search_by_spec _ l (sorted_cmp_sorted Z.compare bstart l s Hs)) as Hsp.
  rewrite Hi in Hsp. destruct Hsp as (Hil & Hlo & Hhi). exists i. split_and!; [done|done| |].
  - intros b Hb. apply list_elem_of_lookup in Hb as [j Hj].
    apply lookup_take_Some in Hj as [Hj Hji]. pose proof (Hlo j b Hji Hj) as Hc.
    cbn in Hc. rewrite Z.compare_lt_iff in Hc. destruct (Z.le_gt_cases (bend b) s); [done|exfalso].
    apply (Hfree s); [lia|]. exists b. split; [|lia]. apply list_elem_of_lookup. eauto.
  - intros b Hb. apply list_elem_of_lookup in Hb as [j Hj]. rewrite lookup_drop in Hj.
    pose proof (Hhi (i + j)%nat b ltac:(lia) Hj) as Hc.
    cbn in Hc. rewrite Z.compare_gt_iff in Hc.
    destruct (Z.le_gt_cases (s + n * PAGE_SIZE_BYTES) (bstart b)); [done|exfalso].
    assert (b ∈ l) as Hbl by (apply list_elem_of_lookup; eauto).
    apply (Hfree (bstart b)); [lia|]. exists b. split; [done|]. destruct (Hok b Hbl). lia.
Qed.

(** Replacing the element at a position of a split list. *)
Lemma insert_middle {A} (l1 : list A) x y l2 i :
  i = length l1 → <[i := y]> (l1 ++ x :: l2) = l1 ++ y :: l2.
Proof. intros ->. by rewrite insert_app_r_alt, Nat.sub_diag by done. Qed.

Lemma free_spec l s n :
  fl_wf l → aligned s → 0 < n → (∀ a, s ≤ a < s + n * PAGE_SIZE_BYTES → ¬ is_free l a) →
  ∃ l', allocator_free l s n = Ret l' ∧ fl_wf l' ∧
    ∀ a, is_free l' a ↔ is_free l a ∨ s ≤ a < s + n * PAGE_SIZE_BYTES.
Proof.
  intros Hwf Hs Hn Hfree. destruct (free_position l s n Hwf Hn Hfree) as (i & Hi & Hil & Hlo & Hhi).
  unfold allocator_free. rewrite Hi. set (stop := s + n * PAGE_SIZE_BYTES) in *.
  assert (s < stop) as Hpos by (unfold stop, PAGE_SIZE_BYTES; lia).
  assert (aligned stop) as Hst by (apply Z.divide_add_r; [done|by exists n]).
  assert (l = take i l ++ drop i l) as Hsplit by (by rewrite take_drop).
  assert (length (take i l) = i) as Hlen by (rewrite length_take; lia).
  set (l1 := take i l) in *. set (l2 := drop i l) in *. clearbody l1 l2. subst l.
  apply fl_app in Hwf as (Hw1 & Hw2 & Hw12).
  assert (∃ l', (match (l1 ++ l2) !! i with
      | Some nx => if bstart nx =? stop then Ret (<[i := MkBlock s (bend nx)]> (l1 ++ l2))
                   else Ret (vec_insert i (MkBlock s stop) (l1 ++ l2))
      | None => Ret (vec_insert i (MkBlock s stop) (l1 ++ l2))
      end) = Ret l' ∧ fl_wf l' ∧ ∀ a, is_free l' a ↔ is_free (l1 ++ l2) a ∨ s ≤ a < stop) as Hrest.
  { assert (fl_wf (l1 ++ MkBlock s stop :: l2) ∧
      ∀ a, is_free (l1 ++ MkBlock s stop :: l2) a ↔ is_free (l1 ++ l2) a ∨ s ≤ a < stop) as Hins.
    { split; [by apply fl_middle|]. intros a. rewrite !is_free_app, is_free_cons. cbn. tauto. }
    assert (vec_insert i (MkBlock s stop) (l1 ++ l2) = l1 ++ MkBlock s stop :: l2) as Hvi.
    { unfold vec_insert. by rewrite take_app_length', drop_app_length' by done. }
    rewrite Hvi, lookup_app_r, Hlen, Nat.sub_diag by lia.
    destruct l2 as [|nx l2]; cbn; [by eexists|]. destruct (Z.eqb_spec (bstart nx) stop) as [He|];
      [|by eexists]. rewrite insert_middle by done. eexists. split; [done|].
    apply fl_cons in Hw2 as (Hnx & Hw2 & Ho). destruct Hnx as (Hlt & _ & Hae). split.
    - apply fl_middle; try done. split_and!; cbn; [lia|done|done].
    - intros a. rewrite !is_free_app, !is_free_cons. cbn.
      assert (s ≤ a < bend nx ↔ s ≤ a < stop ∨ bstart nx ≤ a < bend nx) by lia. tauto. }
  destruct (Nat.ltb_spec 0 i) as [Hi0|Hi0]; [|done].
  destruct l1 as [|p l1 _] using rev_ind; [cbn in Hlen; lia|].
  rewrite length_app in Hlen. cbn in Hlen. rewrite lookup_app_l by (rewrite length_app; cbn; lia).
  rewrite lookup_app_r by lia. replace (i - 1 - length l1)%nat with 0%nat by lia. cbn [lookup list_lookup].
  destruct (Z.eqb_spec (bend p) s) as [He|]; [|done].
  rewrite <- (assoc_L (++)). cbn [app]. rewrite insert_middle by lia. eexists. split; [done|].
  apply fl_app in Hw1 as (Hw1 & Hp & Hord). apply fl_cons in Hp as ((Hlt & Has & _) & _ & _).
  split.
  - apply fl_middle; [done|done| | |].
    + split_and!; cbn; [lia|done|]. rewrite He. done.
    + intros x Hx. apply (Hord x p); [done|by left].
    + intros y Hy. unfold before. cbn. rewrite He. by apply Hhi.
  - intros a. rewrite !is_free_app, !is_free_cons. cbn.
    assert (bstart p ≤ a < bend p + n * PAGE_SIZE_BYTES ↔
      bstart p ≤ a < bend p ∨ s ≤ a < stop) by (unfold stop; lia). tauto.
Qed.

(** ** Room for an allocation *)

Definition room (l : list Block) (n : Z) : Prop := ∃ b, b ∈ l ∧ n ≤ Block_size_pages b.

Lemma size_pages_add s e n : (e - s) / PAGE_SIZE_BYTES = Block_size_pages (MkBlock (s + n * PAGE_SIZE_BYTES) e) + n.
Proof.
  unfold Block_size_pages, Block_size_bytes. cbn.
  replace (e - s) with ((e - (s + n * PAGE_SIZE_BYTES)) + n * PAGE_SIZE_BYTES) by lia. by rewrite Z.div_add.
Qed.

(** An allocation leaves room for what it did not need. *)
Lemma allocate_room l n m s l' :
  0 ≤ n → 0 < m → room l (n + m) → allocator_allocate l n = Ret (s, l') → room l' m.
Proof.
  intros Hn Hm. revert s l'. induction l as [|b l IH]; intros s l' (b0 & Hb0 & Hr) E; cbn in E; [done|].
  apply elem_of_cons in Hb0 as [->|Hb0].
  - rewrite (proj2 (Z.leb_le _ _)) in E by lia. destruct (Z.eqb_spec (Block_size_pages b) n); [lia|].
    injection E as <- <-. eexists. split; [left|]. pose proof (size_pages_add (bstart b) (bend b) n).
    unfold Block_size_pages at 1, Block_size_bytes in Hr. lia.
  - destruct (n <=? Block_size_pages b).
    + exists b0. split; [|lia]. destruct (_ =? n); injection E as <- <-; [done|by right].
    + apply outcome_bind_ret in E as ([a rest] & E & [= <- <-]).
      destruct (IH a rest) as (b1 & ? & ?); [by exists b0|done|]. exists b1. split; [by right|done].
Qed.

(** Blocks only grow when a range is given back. *)
Lemma replace_room l i (b b' : Block) m :
  l !! i = Some b → Block_size_pages b ≤ Block_size_pages b' → room l m → room (<[i := b']> l) m.
Proof.
  intros Hi Hle (b0 & [j Hj]%list_elem_of_lookup & Hr).
  destruct (decide (j = i)) as [->|Hn].
  - simplify_eq. exists b'. split; [|lia]. apply (list_elem_of_lookup_2 _ i), list_lookup_insert_eq.
    by eapply lookup_lt_Some.
  - exists b0. split; [|done]. apply (list_elem_of_lookup_2 _ j). by rewrite list_lookup_insert_ne by done.
Qed.

Lemma free_room l s n m l' : 0 ≤ n → room l m → allocator_free l s n = Ret l' → room l' m.
Proof.
  intros Hn Hroom. unfold allocator_free. destruct (binary_search_by _ _) as [|i]; [done|].
  assert (∀ b, room (vec_insert i b l) m) as Hins.
  { intros b. destruct Hroom as (b0 & Hb0 & Hr). exists b0. split; [|done]. unfold vec_insert.
    rewrite <- (take_drop i l) in Hb0. set_solver. }
  assert (∀ nx, l !! i = Some nx → bstart nx = s + n * PAGE_SIZE_BYTES → room (<[i := MkBlock s (bend nx)]> l) m) as Hnext.
  { intros nx Hi Hb. apply (replace_room l i nx); [done| |done].
    pose proof (size_pages_add s (bend nx) n) as E. rewrite <- Hb in E. destruct nx as [x y]. cbn in *.
    unfold Block_size_pages at 2, Block_size_bytes. cbn. lia. }
  assert (∀ nx, l !! (i - 1)%nat = Some nx → room (<[(i - 1)%nat := MkBlock (bstart nx) (bend nx + n * PAGE_SIZE_BYTES)]> l) m) as Hprev.
  { intros nx Hi. apply (replace_room l _ nx); [done| |done]. unfold Block_size_pages, Block_size_bytes. cbn.
    replace (bend nx + n * PAGE_SIZE_BYTES - bstart nx) with (bend nx - bstart nx + n * PAGE_SIZE_BYTES) by lia.
    rewrite Z.div_add by done. lia. }
  repeat (case_match; simplify_eq; try done); intros [= <-]; auto; try (apply Hnext; [done|]; by apply Z.eqb_eq).
Qed.

(** ** Live allocations *)

Definition in_alloc (al : Allocation) (a : Z) : Prop := astart al ≤ a < aend al.

Lemma allocate_cases l n :
  fl_wf l → 0 < n →
  match allocate l n with
  | Ret (al, l') => fl_wf l' ∧ aligned (astart al) ∧
      aend al = astart al + n * PAGE_SIZE_BYTES ∧
      (∀ a, in_alloc al a → is_free l a) ∧
      (∀ a, is_free l' a ↔ is_free l a ∧ ¬ in_alloc al a)
  | Panic _ => ∀ b, b ∈ l → Block_size_pages b < n
  end.
Proof.
  intros Hwf Hn. unfold allocate. pose proof (allocate_spec l n Hwf Hn) as Hs.
  destruct (allocator_allocate l n) as [[s l']|w]; cbn; [|done].
  destruct Hs as (? & ? & ? & ? & _). done.
Qed.

(** An allocation of no pages leaves the free list alone and starts where a free block does, so
    dropping it is taken for a double free. *)
Lemma allocate_none l al l' :
  fl_wf l → allocate l 0 = Ret (al, l') →
  l' = l ∧ astart al = aend al ∧ Allocation_drop l al = Panic "VirtAlloc: Double free".
Proof.
  intros Hwf Ha. destruct l as [|b l]; [done|]. pose proof Hwf as (Hb & _ & _)%fl_cons.
  destruct (block_pages b Hb) as [_ Hpos]. unfold allocate in Ha. cbn [allocator_allocate] in Ha.
  rewrite (proj2 (Z.leb_le _ _)), (proj2 (Z.eqb_neq _ _)) in Ha by lia. cbn [mbind outcome_bind] in Ha.
  rewrite Z.mul_0_l, Z.add_0_r in Ha. injection Ha as <- <-. destruct b as [s e]. cbn in *.
  split_and!; [done|done|]. unfold Allocation_drop, allocator_free. cbn [astart].
  pose proof (binary_search_by_spec _ _ (sorted_cmp_sorted Z.compare bstart (MkBlock s e :: l) s
    (fl_key_sorted _ Hwf))) as Hsp.
  destruct (binary_search_by _ _) as [|i]; [done|]. exfalso.
  destruct Hsp as (_ & Hlo & Hhi). destruct i as [|i].
  - specialize (Hhi 0%nat _ (Nat.le_refl _) eq_refl). cbn in Hhi. by rewrite Z.compare_refl in Hhi.
  - specialize (Hlo 0%nat _ (Nat.lt_0_succ _) eq_refl). cbn in Hlo. by rewrite Z.compare_refl in Hlo.
Qed.

(** The free list with the live allocations that hold addresses; an allocation of no pages holds
    none. *)
Inductive va_reach : list Block → list Allocation → Prop :=
| va_init : va_reach FREE_LIST []
| va_allocate l live n al l' :
    va_reach l live → 0 < n → allocate l n = Ret (al, l') → va_reach l' (al :: live)
| va_allocate_none l live al l' :
    va_reach l live → allocate l 0 = Ret (al, l') → va_reach l' live
| va_drop l live1 live2 al l' :
    va_reach l (live1 ++ al :: live2) → Allocation_drop l al = Ret l' →
    va_reach l' (live1 ++ live2).

(** Free list and live allocations divide the address space. *)
Record va_inv (l : list Block) (live : list Allocation) : Prop := {
  va_wf : fl_wf l;
  va_ok : ∀ al, al ∈ live → aligned (astart al) ∧
    ∃ n, 0 < n ∧ aend al = astart al + n * PAGE_SIZE_BYTES;
  va_cover : ∀ a, START_ADDR ≤ a < END_ADDR ↔ is_free l a ∨ ∃ al, al ∈ live ∧ in_alloc al a;
  va_not_free : ∀ al a, al ∈ live → in_alloc al a → ¬ is_free l a;
  va_disjoint : ∀ l1 al l2 al' a, live = l1 ++ al :: l2 → al' ∈ l1 ++ l2 →
    in_alloc al a → in_alloc al' a → False;
}.

Lemma alloc_pages al n :
  aend al = astart al + n * PAGE_SIZE_BYTES → Allocation_size_pages al = n.
Proof.
  intros He. unfold Allocation_size_pages. rewrite He.
  replace (astart al + n * PAGE_SIZE_BYTES - astart al) with (n * PAGE_SIZE_BYTES) by lia.
  by apply Z.div_mul.
Qed.

Lemma va_init_inv : va_inv FREE_LIST [].
Proof.
  split.
  - apply fl_init_wf.
  - intros al H. by apply not_elem_of_nil in H.
  - intros a. unfold is_free, FREE_LIST. split.
    + intros Ha. left. exists (MkBlock START_ADDR END_ADDR). split; [by left|done].
    + intros [(b & ->%list_elem_of_singleton & Ha)|(al & H & _)]; [done|].
      by apply not_elem_of_nil in H.
  - intros al a H. by apply not_elem_of_nil in H.
  - intros l1 al l2 al' a H. by destruct l1.
Qed.

Lemma va_allocate_inv l live n al l' :
  va_inv l live → 0 < n → allocate l n = Ret (al, l') → va_inv l' (al :: live).
Proof.
  intros [Hwf Hok Hcov Hnf Hdj] Hn Ha. unfold allocate in Ha.
  pose proof (allocate_spec l n Hwf Hn) as Hs.
  destruct (allocator_allocate l n) as [[s l1]|]; [|done]. cbn in Ha. simplify_eq.
  destruct Hs as (Hwf' & Hal & Hin & Hfr & _ & _).
  set (al := MkAllocation s (s + n * PAGE_SIZE_BYTES)).
  assert (∀ a, in_alloc al a ↔ s ≤ a < s + n * PAGE_SIZE_BYTES) as Hia by done.
  assert (∀ al' a, al' ∈ live → in_alloc al' a → in_alloc al a → False) as Hsep.
  { intros al' a Hal' Ha' Ha%Hia%Hin. by eapply Hnf. }
  split.
  - done.
  - intros al' [->|?]%elem_of_cons; [|by apply Hok]. split; [done|]. by exists n.
  - intros a. rewrite Hcov, Hfr. setoid_rewrite elem_of_cons. split.
    + intros [Hf|(al' & ? & ?)]; [|right; eauto].
      destruct (decide (s ≤ a)), (decide (a < s + n * PAGE_SIZE_BYTES));
        first [left; split; [done|lia] | right; exists al; split; [by left|apply Hia; lia]].
    + intros [[? _]|(al' & [->|?] & Hin')]; [by left|left; by apply Hin|right; eauto].
  - intros al' a [->|Hal']%elem_of_cons Hin' Hf; apply Hfr in Hf as [Hf Hna]; [done|].
    by eapply Hnf.
  - intros l2 al1 l3 al2 a Hsplit Hal2 H1 H2. destruct l2 as [|x l2]; simplify_eq/=.
    + by eapply (Hsep al2).
    + apply elem_of_cons in Hal2 as [->|Hal2]; [|by eapply Hdj].
      eapply (Hsep al1); [|done|done]. set_solver.
Qed.

Lemma va_drop_spec l live1 live2 al :
  va_inv l (live1 ++ al :: live2) →
  ∃ l', Allocation_drop l al = Ret l' ∧ va_inv l' (live1 ++ live2).
Proof.
  intros [Hwf Hok Hcov Hnf Hdj].
  destruct (Hok al) as (Hal & n & Hn & He); [set_solver|].
  assert (∀ a, in_alloc al a ↔ astart al ≤ a < astart al + n * PAGE_SIZE_BYTES) as Hia.
  { intros a. unfold in_alloc. by rewrite He. }
  destruct (free_spec l (astart al) n Hwf Hal Hn) as (l' & E & Hwf' & Hfr).
  { intros a Ha%Hia. apply (Hnf al); [set_solver|done]. }
  exists l'. unfold Allocation_drop. rewrite (alloc_pages al n He). split; [done|]. split.
  - done.
  - intros al' Hal'. apply Hok. set_solver.
  - intros a. rewrite Hcov, Hfr, <- Hia. split.
    + intros [?|(al' & Hal' & ?)]; [by left; left|].
      apply elem_of_app in Hal' as [?|[->|?]%elem_of_cons]; [right|by left; right|right];
        exists al'; set_solver.
    + intros [[?|?]|(al' & ? & ?)]; [by left|right; exists al; set_solver|].
      right. exists al'. set_solver.
  - intros al' a Hal' Ha Hf. apply Hfr in Hf as [Hf|Hf%Hia].
    + apply (Hnf al' a); [set_solver|done|done].
    + by apply (Hdj live1 al live2 al' a).
  - intros l1 al1 l2 al2 a Hsplit Hal2 H1 H2.
    apply app_eq_inv in Hsplit as [(k & -> & Hk)|(k & -> & Hk)].
    + destruct k as [|x k]; cbn in Hk; [subst live2|injection Hk as <- ->].
      * rewrite app_nil_r in *. apply (Hdj (l1 ++ [al]) al1 l2 al2 a); [|set_solver|done|done].
        by rewrite <- (assoc_L (++)).
      * apply (Hdj l1 al1 (k ++ al :: live2) al2 a); [|set_solver|done|done].
        by rewrite <- (assoc_L (++)).
    + subst live2. apply (Hdj (live1 ++ al :: k) al1 l2 al2 a); [|set_solver|done|done].
      by rewrite <- (assoc_L (++)).
Qed.

Lemma va_reach_inv l live : va_reach l live → va_inv l live.
Proof.
  induction 1 as [|l live n al l' _ IH Hn Ha|l live al l' _ IH Ha|l live1 live2 al l' _ IH Hd].
  - apply va_init_inv.
  - by eapply va_allocate_inv.
  - by destruct (allocate_none _ _ _ (va_wf _ _ IH) Ha) as (-> & _).
  - destruct (va_drop_spec _ _ _ _ IH) as (l2 & E & ?). congruence.
Qed.

(** ** Kernel stacks *)

Record Stack := MkStack { top : Z; bottom : Z }.

(** [alloc_stack] with the pages it maps; the local [virt::Allocation] is dropped on return. *)
Definition alloc_stack (free_blocks : list Block) (size_in_pages : Z)
    : outcome (Stack * list Z * list Block) :=
  _ ← rassert (0 <? size_in_pages) "size_in_pages > 0";
  '(v, l) ← allocate free_blocks (size_in_pages + 1);
  let start_page := astart v + PAGE_SIZE_BYTES in
  let end_page := astart v + size_in_pages * PAGE_SIZE_BYTES in
  let pages := (λ i : nat, start_page + Z.of_nat i * PAGE_SIZE_BYTES) <$>
    seq 0 (Z.to_nat size_in_pages) in
  let stack := MkStack (end_page + PAGE_SIZE_BYTES) start_page in
  _ ← rassert (bottom stack <? top stack) "top > bottom";
  l ← Allocation_drop l v;
  Ret (stack, pages, l).

(** ** Properties *)

(** C26: over every sequence of allocations, of any number of pages, and of drops of allocations
    that hold a page, the free list and the live allocations divide the virtual address space: each
    address is free or in a live allocation, never both, never in two, and dropping any live
    allocation that holds a page succeeds.  An allocation of no pages holds no address and leaves
    the free list as it is; dropping it then panics. *)
Theorem virt_partition l live (Hr : va_reach l live) :
  (∀ a, START_ADDR ≤ a < END_ADDR ↔ is_free l a ∨ ∃ al, al ∈ live ∧ in_alloc al a) ∧
  (∀ al a, al ∈ live → in_alloc al a → ¬ is_free l a) ∧
  (∀ l1 al l2 al' a, live = l1 ++ al :: l2 → al' ∈ l1 ++ l2 →
    in_alloc al a → in_alloc al' a → False) ∧
  (∀ l1 al l2, live = l1 ++ al :: l2 → returns (Allocation_drop l al)) ∧
  (∀ al l', allocate l 0 = Ret (al, l') →
    l' = l ∧ (∀ a, ¬ in_alloc al a) ∧ Allocation_drop l' al = Panic "VirtAlloc: Double free").
Proof.
  pose proof (va_reach_inv l live Hr) as Hinv. pose proof Hinv as [Hwf _ Hcov Hnf Hdj].
  split_and!; [done|done|done| |].
  - intros l1 al l2 ->. destruct (va_drop_spec _ _ _ _ Hinv) as (l' & -> & _). apply returns_ret.
  - intros al l' (-> & He & Hd)%allocate_none; [|done]. split_and!; [done| |done].
    intros a. unfold in_alloc. lia.
Qed.

Lemma virt_partition_witness :
  returns (Allocation_drop [MkBlock (START_ADDR + 3 * PAGE_SIZE_BYTES) END_ADDR]
    (MkAllocation START_ADDR (START_ADDR + 3 * PAGE_SIZE_BYTES))).
Proof.
  apply (virt_partition [MkBlock (START_ADDR + 3 * PAGE_SIZE_BYTES) END_ADDR]
    [MkAllocation START_ADDR (START_ADDR + 3 * PAGE_SIZE_BYTES)]) with (l1 := []) (l2 := []).
  - apply (va_allocate FREE_LIST [] 3); [apply va_init|lia|vm_compute; reflexivity].
  - reflexivity.
Defined.

(** Allocation is first fit and complete: it panics only when no free block is large enough,
    and otherwise returns a page-aligned range that was entirely free and removes exactly it. *)
Theorem virt_allocate_exact l n (Hwf : fl_wf l) (Hn : 0 < n) :
  match allocate l n with
  | Ret (al, l') => fl_wf l' ∧ aligned (astart al) ∧
      aend al = astart al + n * PAGE_SIZE_BYTES ∧
      (∀ a, in_alloc al a → is_free l a) ∧
      (∀ a, is_free l' a ↔ is_free l a ∧ ¬ in_alloc al a)
  | Panic _ => ∀ b, b ∈ l → Block_size_pages b < n
  end.
Proof. by apply allocate_cases. Qed.

Lemma virt_allocate_exact_witness :
  match allocate FREE_LIST 5 with
  | Ret (al, l') => fl_wf l' ∧ aligned (astart al) ∧
      aend al = astart al + 5 * PAGE_SIZE_BYTES ∧
      (∀ a, in_alloc al a → is_free FREE_LIST a) ∧
      (∀ a, is_free l' a ↔ is_free FREE_LIST a ∧ ¬ in_alloc al a)
  | Panic _ => ∀ b, b ∈ FREE_LIST → Block_size_pages b < 5
  end.
Proof. apply (virt_allocate_exact FREE_LIST 5); [apply fl_init_wf|lia]. Defined.

(** An allocation of zero pages cannot be dropped: it shares its start address with a free
    block, which [free] takes for a double free and panics. *)
Theorem zero_pages_panic :
  ('(al, l) ← allocate FREE_LIST 0; Allocation_drop l al) = Panic "VirtAlloc: Double free".
Proof. vm_compute. reflexivity. Qed.

(** Dropped later, when its address is in use, it leaves an empty block in the free list, and then
    the allocation in use cannot be dropped. *)
Theorem zero_pages_corrupt :
  ('(al0, l) ← allocate FREE_LIST 0; '(al1, l) ← allocate l 1; l ← Allocation_drop l al0;
   Allocation_drop l al1) = Panic "VirtAlloc: Double free".
Proof. vm_compute. reflexivity. Qed.

(** The virtual range of a kernel stack is returned to the free list although the stack stays
    mapped: after [alloc_stack] every mapped address is free again, so a later allocation can
    return it. *)
Theorem stack_range_stays_free l n st pages l'
    (Hwf : fl_wf l) (Ha : alloc_stack l n = Ret (st, pages, l')) :
  bottom st < top st ∧ (∀ a, bottom st ≤ a < top st → is_free l' a) ∧
  (∀ a, is_free l' a ↔ is_free l a).
Proof.
  unfold alloc_stack in Ha. outcome_inv. simplify_eq.
  match goal with H : (0 <? n) = true |- _ => apply Z.ltb_lt in H end.
  match goal with H : allocate l (n + 1) = _ |- _ => rename H into Hal end.
  match goal with H : Allocation_drop _ _ = _ |- _ => rename H into Hdrop end.
  pose proof (allocate_spec l (n + 1) Hwf ltac:(lia)) as Hs. unfold allocate in Hal.
  destruct (allocator_allocate l (n + 1)) as [[s lf]|]; [|done]. cbn in Hal.
  injection Hal as <- <-. destruct Hs as (Hwf1 & Hs & Hin & Hfr & _). cbn in *.
  destruct (free_spec lf s (n + 1) Hwf1 Hs ltac:(lia)) as (l2 & E & _ & Hfr2).
  { intros a Ha' Hf. apply Hfr in Hf as [_ Hf]. done. }
  unfold Allocation_drop in Hdrop. rewrite (alloc_pages _ (n + 1)) in Hdrop by done.
  cbn in Hdrop. rewrite E in Hdrop. injection Hdrop as <-.
  assert (0 < PAGE_SIZE_BYTES) by done. split_and!; [nia| |].
  - intros a Ha'. apply Hfr2. right. nia.
  - intros a. rewrite Hfr2, Hfr. split; [intros [[? _]|?]; [done|by apply Hin]|].
    intros Hf. destruct (decide (s ≤ a)), (decide (a < s + (n + 1) * PAGE_SIZE_BYTES));
      first [by right | left; split; [done|lia]].
Qed.

Lemma stack_range_stays_free_witness :
  bottom (MkStack 4299161600 4297064448) < top (MkStack 4299161600 4297064448) ∧
  (∀ a, 4297064448 ≤ a < 4299161600 → is_free FREE_LIST a) ∧
  (∀ a, is_free FREE_LIST a ↔ is_free FREE_LIST a).
Proof.
  apply (stack_range_stays_free FREE_LIST 1 (MkStack 4299161600 4297064448) [4297064448]).
  - apply fl_init_wf.
  - vm_compute. reflexivity.
Defined.

End virt.

Module dma.

Definition DMA_MEMORY_START : Z := 0x40000.
Definition DMA_MEMORY_SIZE : Z := 0x40000.

Definition DMA_BLOCK_SIZE : Z := 0x1000.

Definition round_up_block (s : Z) : outcome Z :=
  s ← add64 s (DMA_BLOCK_SIZE - 1); Ret (s / DMA_BLOCK_SIZE).

Definition DMA_BLOCKS : nat := 64.

Inductive BlockState := Free | Used.

#[global] Instance BlockState_eq_dec : EqDecision BlockState.
Proof. solve_decision. Defined.

(** [Allocator], its [blocks]; [Allocator::new]. *)
Definition Allocator_new : list BlockState := replicate DMA_BLOCKS Free.

Record DMARegion := MkDMARegion { start : Z; size_blocks : nat }.

(** The scan of the blocks of a candidate position. *)
Definition blocks_free (blocks : list BlockState) (start size_blocks : nat) : bool :=
  forallb (λ offset, bool_decide (blocks !! (start + offset)%nat = Some Free))
    (seq 0 size_blocks).

Definition mark_used (blocks : list BlockState) (start size_blocks : nat) : list BlockState :=
  foldl (λ bs offset, <[(start + offset)%nat := Used]> bs) blocks (seq 0 size_blocks).

Definition Allocator_allocate (blocks : list BlockState) (size : Z)
    : outcome (DMARegion * list BlockState) :=
  _ ← rassert (negb (size =? 0)) "size != 0";
  n ← round_up_block size;
  let n := Z.to_nat n in
  if (length blocks <? n)%nat then Panic "Not enough of DMA memory"
  else
    match List.find (λ s, blocks_free blocks s n) (seq 0 (length blocks - n)) with
    | Some s =>
        Ret (MkDMARegion (DMA_MEMORY_START + Z.of_nat s * DMA_BLOCK_SIZE) n,
             mark_used blocks s n)
    | None => Panic "Out of DMA memory"
    end.

(** ** Lemmas *)

(** The constant is the value of its initialiser. *)
Lemma DMA_BLOCKS_value : round_up_block DMA_MEMORY_SIZE = Ret (Z.of_nat DMA_BLOCKS).
Proof. reflexivity. Qed.

Lemma mark_used_lookup blocks s n i :
  (s + n ≤ length blocks)%nat →
  mark_used blocks s n !! i = if decide (s ≤ i < s + n)%nat then Some Used else blocks !! i.
Proof.
  unfold mark_used. induction n as [|n IH]; intros Hlen.
  - rewrite decide_False by lia. done.
  - rewrite seq_S, foldl_app. cbn [foldl].
    set (bs := foldl _ blocks (seq 0 n)) in *.
    assert (length bs = length blocks) as Hl.
    { unfold bs. clear. generalize (seq 0 n). intros l. revert blocks.
      induction l as [|x l IH]; intros blocks; [done|]. cbn. by rewrite IH, length_insert. }
    destruct (decide (i = s + (0 + n))%nat) as [->|Hne].
    + rewrite list_lookup_insert_eq by lia. by rewrite decide_True by lia.
    + rewrite list_lookup_insert_ne by lia. rewrite IH by lia.
      repeat case_decide; first [done|lia].
Qed.

Lemma blocks_free_spec blocks s n :
  blocks_free blocks s n = true ↔ ∀ i, (s ≤ i < s + n)%nat → blocks !! i = Some Free.
Proof.
  unfold blocks_free. rewrite forallb_forall. split.
  - intros H i Hi. specialize (H (i - s)%nat). rewrite bool_decide_eq_true in H.
    replace (s + (i - s))%nat with i in H by lia. apply H, in_seq. lia.
  - intros H o Ho%in_seq. apply bool_decide_eq_true, H. lia.
Qed.

Lemma blocks_used_spec blocks s n :
  (s + n ≤ length blocks)%nat → blocks_free blocks s n = false →
  ∃ i, (s ≤ i < s + n)%nat ∧ blocks !! i = Some Used.
Proof.
  intros Hl. unfold blocks_free. intros Hf.
  assert (¬ Forall (λ o, blocks !! (s + o)%nat = Some Free) (seq 0 n)) as Hn.
  { intros H. apply not_true_iff_false in Hf. apply Hf.
    apply forallb_forall. rewrite Forall_forall in H. intros o Ho.
    apply bool_decide_eq_true, H. by apply list_elem_of_In. }
  apply not_Forall_Exists, Exists_exists in Hn as (o & Ho & Hne); [|solve_decision].
  apply elem_of_seq in Ho. exists (s + o)%nat. split; [lia|].
  destruct (lookup_lt_is_Some_2 blocks (s + o)) as [[] E]; [lia| |done]. done.
Qed.

Lemma find_seq_first (f : nat → bool) k len i :
  List.find f (seq k len) = Some i →
  (k ≤ i < k + len)%nat ∧ f i = true ∧ ∀ j, (k ≤ j < i)%nat → f j = false.
Proof.
  revert k. induction len as [|len IH]; intros k; cbn; [done|].
  destruct (f k) eqn:E; intros H.
  - simplify_eq. split_and!; [lia|lia|done|]. intros; lia.
  - apply IH in H as (? & ? & Hj). split_and!; [lia|lia|done|].
    intros j ?. destruct (decide (j = k)) as [->|]; [done|]. apply Hj. lia.
Qed.

Lemma round_up_block_spec size n :
  0 < size → round_up_block size = Ret (Z.of_nat n) →
  size ≤ Z.of_nat n * DMA_BLOCK_SIZE ∧ (0 < n)%nat.
Proof.
  intros Hs H. unfold round_up_block in H. destruct (add64 _ _) as [s|] eqn:E; [|done].
  apply add64_ret in E as [_ ->]. cbn in H. injection H as H.
  unfold DMA_BLOCK_SIZE in *. change (4096 - 1) with 4095 in H.
  pose proof (Z.div_mod (size + 4095) 4096). pose proof (Z.mod_pos_bound (size + 4095) 4096).
  lia.
Qed.

(** ** Properties *)

(** A DMA allocation returns the lowest run of free blocks that ends before the last block,
    marks exactly that run used, and gives memory inside the DMA area; it panics exactly when
    there is no such run, so the last block of the area is never handed out. *)
Theorem dma_allocate_exact blocks size n
    (Hl : length blocks = DMA_BLOCKS) (Hs : 0 < size)
    (Hn : round_up_block size = Ret (Z.of_nat n)) :
  match Allocator_allocate blocks size with
  | Ret (r, blocks') => ∃ s,
      start r = DMA_MEMORY_START + Z.of_nat s * DMA_BLOCK_SIZE ∧ size_blocks r = n ∧
      size ≤ Z.of_nat n * DMA_BLOCK_SIZE ∧
      (s + n < DMA_BLOCKS)%nat ∧
      (∀ i, (s ≤ i < s + n)%nat → blocks !! i = Some Free) ∧
      (∀ i, blocks' !! i = if decide (s ≤ i < s + n)%nat then Some Used else blocks !! i) ∧
      (∀ s', (s' < s)%nat → ∃ i, (s' ≤ i < s' + n)%nat ∧ blocks !! i = Some Used)
  | Panic _ => ∀ s, (s + n < DMA_BLOCKS)%nat →
      ∃ i, (s ≤ i < s + n)%nat ∧ blocks !! i = Some Used
  end.
Proof.
  destruct (round_up_block_spec size n Hs Hn) as [Hsz Hpos].
  unfold Allocator_allocate. destruct (Z.eqb_spec size 0); [lia|].
  cbn -[Nat.ltb]. rewrite Hn. cbn -[Nat.ltb]. rewrite Nat2Z.id, Hl.
  destruct (Nat.ltb_spec DMA_BLOCKS n); [intros; exfalso; lia|].
  destruct (List.find _ _) as [s|] eqn:Hf.
  - apply find_seq_first in Hf as (Hr & Hfree & Hfirst). rewrite blocks_free_spec in Hfree.
    exists s. cbn. split_and!; [done|done|done|lia|done| |].
    + intros i. apply mark_used_lookup. lia.
    + intros s' ?. apply blocks_used_spec; [lia|]. apply Hfirst. lia.
  - intros s Hr. apply blocks_used_spec; [lia|].
    eapply List.find_none in Hf; [exact Hf|]. apply in_seq. lia.
Qed.

Lemma dma_allocate_exact_witness :
  match Allocator_allocate Allocator_new 5000 with
  | Ret (r, blocks') => ∃ s,
      start r = DMA_MEMORY_START + Z.of_nat s * DMA_BLOCK_SIZE ∧ size_blocks r = 2%nat ∧
      5000 ≤ Z.of_nat 2 * DMA_BLOCK_SIZE ∧
      (s + 2 < DMA_BLOCKS)%nat ∧
      (∀ i, (s ≤ i < s + 2)%nat → Allocator_new !! i = Some Free) ∧
      (∀ i, blocks' !! i = if decide (s ≤ i < s + 2)%nat then Some Used else Allocator_new !! i) ∧
      (∀ s', (s' < s)%nat → ∃ i, (s' ≤ i < s' + 2)%nat ∧ Allocator_new !! i = Some Used)
  | Panic _ => ∀ s, (s + 2 < DMA_BLOCKS)%nat →
      ∃ i, (s ≤ i < s + 2)%nat ∧ Allocator_new !! i = Some Used
  end.
Proof. apply (dma_allocate_exact Allocator_new 5000 2); [reflexivity|lia|reflexivity]. Defined.

End dma.
