(* ===== verification/PageMap.v ===== *)
(** * PageMap: the page-table walker (src/memory/paging/mapper.rs)

    Page tables live in one contiguous area that grows by one 4 KiB table at a time.  The area
    is a map from the address of a table, as the kernel sees it, to its entries.  The entry
    format and the index arithmetic belong to the [x86_64] crate: they are the operations of
    [PagingOps] with the documented behaviour as [PagingLaws], and [amd64_paging] is an instance
    with the bit layout of the architecture. *)

From stdpp Require Import base gmap list strings.
From Stdlib Require Import ZArith Lia.
From S2P Require Import Prelude Ranges.
Open Scope Z_scope.

(** ** The [x86_64] crate *)

Class PagingOps := {
  entry : Type;
  PRESENT : Z; WRITABLE : Z; HUGE_PAGE : Z; NO_EXECUTE : Z;
  entry_new : entry;
  entry_is_unused : entry → bool;
  entry_addr : entry → Z;
  entry_set_addr : Z → Z → outcome entry;
  entry_flags_contains : entry → Z → bool;
  flag_set : Z → Prop;
  p4_index : Z → Z;
  p3_index : Z → Z;
  p2_index : Z → Z;
}.

(** Canonical addresses of 2 MiB pages. *)
Definition page_ok (v : Z) : Prop :=
  (PAGE_SIZE_BYTES | v) ∧ (0 ≤ v < 2 ^ 47 ∨ 2 ^ 64 - 2 ^ 47 ≤ v < 2 ^ 64).

Class PagingLaws `{PagingOps} := {
  flag_set_lor f g : flag_set f → flag_set g → flag_set (Z.lor f g);
  flag_set_bits : flag_set PRESENT ∧ flag_set WRITABLE ∧ flag_set HUGE_PAGE ∧ flag_set NO_EXECUTE;
  flags_bits : ∃ p w h n, Forall (Z.le 0) [p; w; h; n] ∧ NoDup [p; w; h; n] ∧
    PRESENT = 2 ^ p ∧ WRITABLE = 2 ^ w ∧ HUGE_PAGE = 2 ^ h ∧ NO_EXECUTE = 2 ^ n;
  entry_new_unused : entry_is_unused entry_new = true;
  entry_unused_absent e : entry_is_unused e = true → entry_flags_contains e PRESENT = false;
  entry_set_addr_ok a f :
    0 ≤ a < 2 ^ 52 → (0x1000 | a) → flag_set f → Z.land f PRESENT = PRESENT →
    ∃ e, entry_set_addr a f = Ret e ∧ entry_addr e = a ∧ entry_is_unused e = false ∧
      (∀ g, flag_set g → entry_flags_contains e g = (Z.land f g =? g));
  index_inj v w :
    page_ok v → page_ok w → p4_index v = p4_index w → p3_index v = p3_index w →
    p2_index v = p2_index w → v = w;
  p4_index_eq v w : v / 2 ^ 39 = w / 2 ^ 39 → p4_index v = p4_index w;
  p3_index_eq v w : v / 2 ^ 30 = w / 2 ^ 30 → p3_index v = p3_index w;
}.

(** ** Operations *)

Definition MAX_PAGE_TABLES : Z := PAGE_SIZE_BYTES / 0x1000.

Definition frame_addr (base index : Z) : Z := base + 0x1000 * index.

Record PageMap := MkPageMap { phys_addr : Z; table_count : Z }.

Section pagemap.
Context `{PagingOps}.

Abbreviation tables := (gmap Z (gmap Z entry)).

Definition get_entry (t : tables) (base i : Z) : entry := default entry_new (t !! base ≫= (.!! i)).
Definition set_entry (t : tables) (base i : Z) (e : entry) : tables :=
  <[base := <[i := e]> (default ∅ (t !! base))]> t.
Definition zero_table (t : tables) (base : Z) : tables := <[base := ∅]> t.

Definition pt_flags_3 : Z := Z.lor PRESENT WRITABLE.
Definition pt_flags_2 : Z := Z.lor (Z.lor PRESENT WRITABLE) HUGE_PAGE.

Definition PageMap_init (t : tables) (curr_addr phys virt_addr : Z) : outcome (PageMap * tables) :=
  let p4 := frame_addr curr_addr 0 in
  let p3 := frame_addr curr_addr 1 in
  let p2 := frame_addr curr_addr 2 in
  let t := zero_table (zero_table (zero_table t p4) p3) p2 in
  _ ← rassert (virt_addr mod PAGE_SIZE_BYTES =? 0) "called `Result::unwrap()` on an `Err` value";
  e4 ← entry_set_addr (frame_addr phys 1) pt_flags_3;
  let t := set_entry t p4 (p4_index virt_addr) e4 in
  e3 ← entry_set_addr (frame_addr phys 2) pt_flags_3;
  let t := set_entry t p3 (p3_index virt_addr) e3 in
  e2 ← entry_set_addr (frame_addr phys 0) pt_flags_2;
  let t := set_entry t p2 (p2_index virt_addr) e2 in
  Ret (MkPageMap phys 3, t).

Definition opt_addr (e : entry) : option Z :=
  if entry_is_unused e then None else Some (entry_addr e).

(** [PhysAddr - PhysAddr] panics below zero. *)
Definition phys_sub (a b : Z) : outcome Z :=
  unwrap (if b <=? a then Some (a - b) else None).

Definition PageMap_translate (self : PageMap) (t : tables) (curr_addr addr : Z)
    : outcome (option Z) :=
  match opt_addr (get_entry t curr_addr (p4_index addr)) with
  | None => Ret None
  | Some next_addr =>
      offset ← phys_sub next_addr (phys_addr self);
      let p3 := curr_addr + offset in
      match opt_addr (get_entry t p3 (p3_index addr)) with
      | None => Ret None
      | Some next_addr =>
          offset ← phys_sub next_addr (phys_addr self);
          let p2 := curr_addr + offset in
          match opt_addr (get_entry t p2 (p2_index addr)) with
          | None => Ret None
          | Some next_addr =>
              _ ← rassert (entry_flags_contains (get_entry t p2 (p2_index addr)) HUGE_PAGE)
                    "flags().contains(Flags::HUGE_PAGE)";
              Ret (Some next_addr)
          end
      end
  end.

Definition PageMap_unmap (self : PageMap) (t : tables) (curr_addr page : Z) : outcome tables :=
  let offset := curr_addr - phys_addr self in
  let e4 := get_entry t curr_addr (p4_index page) in
  if entry_is_unused e4 then Panic "Unmap nonexistent: P3 missing"
  else
    let p3 := entry_addr e4 + offset in
    let e3 := get_entry t p3 (p3_index page) in
    if entry_is_unused e3 then Panic "Unmap nonexistent: P2 missing"
    else
      let p2 := entry_addr e3 + offset in
      Ret (set_entry t p2 (p2_index page) entry_new).

(** The child table of [base] at [i], created when missing. *)
Definition next_table (self : PageMap) (t : tables) (offset base i : Z)
    : outcome (PageMap * tables * Z) :=
  if entry_is_unused (get_entry t base i) then
    let addr := frame_addr (phys_addr self) (table_count self) in
    c ← add64 (table_count self) 1;
    e ← entry_set_addr addr pt_flags_3;
    Ret (MkPageMap (phys_addr self) c, zero_table (set_entry t base i e) (addr + offset),
         addr + offset)
  else Ret (self, t, entry_addr (get_entry t base i) + offset).

Definition PageMap_map_to (self : PageMap) (t : tables) (curr_addr page frame flags : Z)
    : outcome (PageMap * tables) :=
  let offset := curr_addr - phys_addr self in
  '(self, t, p3) ← next_table self t offset curr_addr (p4_index page);
  '(self, t, p2) ← next_table self t offset p3 (p3_index page);
  e ← entry_set_addr frame (Z.lor flags HUGE_PAGE);
  Ret (self, set_entry t p2 (p2_index page) e).

Definition PageMap_identity_map (self : PageMap) (t : tables) (curr_addr frame flags : Z)
    : outcome (PageMap * tables) :=
  PageMap_map_to self t curr_addr frame frame flags.

Definition PageMap_map_table (self : PageMap) (t : tables) (curr_addr page : Z) (other : PageMap)
    (writable : bool) : outcome (PageMap * tables) :=
  let flags := Z.lor PRESENT NO_EXECUTE in
  let flags := if writable then Z.lor flags WRITABLE else flags in
  _ ← rassert (phys_addr other mod PAGE_SIZE_BYTES =? 0)
        "called `Result::unwrap()` on an `Err` value";
  PageMap_map_to self t curr_addr page (phys_addr other) flags.

(** ** Well-formed table areas *)

(** What the table at a position of the area is for. *)
Inductive role := P4 | P3 (i4 : Z) | P2 (i4 i3 : Z).

#[global] Instance role_eq_dec : EqDecision role.
Proof. solve_decision. Defined.

(** The table a used entry of a table refers to. *)
Definition child (r : role) (i : Z) : option role :=
  match r with P4 => Some (P3 i) | P3 i4 => Some (P2 i4 i) | P2 _ _ => None end.

(** The rights of an entry that refers to a table: the leaf entries alone restrict access. *)
Definition table_entry (e : entry) : Prop :=
  entry_flags_contains e PRESENT = true ∧ entry_flags_contains e WRITABLE = true ∧
  entry_flags_contains e NO_EXECUTE = false.

Record pm_ok (curr : Z) (pm : PageMap) (t : tables) (roles : list role) : Prop := {
  ok_len : table_count pm = Z.of_nat (length roles);
  ok_root : roles !! 0%nat = Some P4;
  ok_nodup : NoDup roles;
  ok_phys : 0 ≤ phys_addr pm ∧ (0x1000 | phys_addr pm);
  ok_unused k r i c : roles !! k = Some r → child r i = Some c →
    entry_is_unused (get_entry t (frame_addr curr (Z.of_nat k)) i) = true → c ∉ roles;
  ok_used k r i c : roles !! k = Some r → child r i = Some c →
    entry_is_unused (get_entry t (frame_addr curr (Z.of_nat k)) i) = false →
    ∃ k', roles !! k' = Some c ∧
      entry_addr (get_entry t (frame_addr curr (Z.of_nat k)) i) =
        frame_addr (phys_addr pm) (Z.of_nat k') ∧
      table_entry (get_entry t (frame_addr curr (Z.of_nat k)) i);
  ok_parent i4 i3 : P2 i4 i3 ∈ roles → P3 i4 ∈ roles;
  ok_leaf k i4 i3 i : roles !! k = Some (P2 i4 i3) →
    entry_is_unused (get_entry t (frame_addr curr (Z.of_nat k)) i) = false →
    entry_flags_contains (get_entry t (frame_addr curr (Z.of_nat k)) i) HUGE_PAGE = true ∧
    entry_flags_contains (get_entry t (frame_addr curr (Z.of_nat k)) i) PRESENT = true;
}.

(** ** Lemmas *)

Lemma get_set_entry t base i e base' i' :
  get_entry (set_entry t base i e) base' i' =
    if decide (base = base' ∧ i = i') then e else get_entry t base' i'.
Proof.
  unfold get_entry, set_entry. destruct (decide (base = base')) as [->|Hb].
  - rewrite lookup_insert_eq. cbn. destruct (decide (i = i')) as [->|Hi].
    + rewrite lookup_insert_eq. by rewrite decide_True.
    + rewrite lookup_insert_ne by done. rewrite decide_False by naive_solver.
      by destruct (t !! base').
  - rewrite lookup_insert_ne by done. by rewrite decide_False by naive_solver.
Qed.

Lemma get_zero_table t base base' i :
  get_entry (zero_table t base) base' i =
    if decide (base = base') then entry_new else get_entry t base' i.
Proof.
  unfold get_entry, zero_table. case_decide as Hb.
  - subst. rewrite lookup_insert_eq. cbn. by rewrite lookup_empty.
  - by rewrite lookup_insert_ne.
Qed.

Lemma frame_addr_inj b k k' :
  frame_addr b (Z.of_nat k) = frame_addr b (Z.of_nat k') → k = k'.
Proof. unfold frame_addr. lia. Qed.

Lemma frame_addr_0 b : frame_addr b (Z.of_nat 0) = b.
Proof. unfold frame_addr. lia. Qed.

Lemma frame_addr_shift p c i : frame_addr p i + (c - p) = frame_addr c i.
Proof. unfold frame_addr. lia. Qed.

Lemma land_lor_r f g : Z.land (Z.lor f g) g = g.
Proof. apply Z.bits_inj'. intros n _. rewrite Z.land_spec, Z.lor_spec. by destruct (Z.testbit f n), (Z.testbit g n). Qed.

Lemma land_lor_has f g h : Z.land f h = h → Z.land (Z.lor f g) h = h.
Proof.
  intros E. apply Z.bits_inj'. intros n _. rewrite Z.land_spec, Z.lor_spec, <- E, Z.land_spec.
  by destruct (Z.testbit f n), (Z.testbit g n), (Z.testbit h n).
Qed.

Lemma land_lor_l f g : Z.land (Z.lor f g) f = f.
Proof. by rewrite Z.lor_comm, land_lor_r. Qed.

Context `{!PagingLaws}.

Lemma pt_flags_3_present : flag_set pt_flags_3 ∧ Z.land pt_flags_3 PRESENT = PRESENT.
Proof. split; [|apply land_lor_l]. apply flag_set_lor; apply flag_set_bits. Qed.

Lemma pt_flags_2_present :
  flag_set pt_flags_2 ∧ Z.land pt_flags_2 PRESENT = PRESENT ∧
  Z.land pt_flags_2 HUGE_PAGE = HUGE_PAGE.
Proof.
  split_and!; [|apply land_lor_has, land_lor_l|apply land_lor_r].
  apply flag_set_lor; [apply flag_set_lor|]; apply flag_set_bits.
Qed.

Lemma land_pow2 f i : 0 ≤ i → (Z.land f (2 ^ i) =? 2 ^ i) = Z.testbit f i.
Proof.
  intros Hi. destruct (Z.testbit f i) eqn:Eb.
  - apply Z.eqb_eq, Z.bits_inj'. intros n Hn. rewrite Z.land_spec, Z.pow2_bits_eqb by done.
    destruct (Z.eqb_spec i n) as [->|]; [by rewrite Eb|by rewrite andb_false_r].
  - apply Z.eqb_neq. intros E%(f_equal (λ z, Z.testbit z i)). by rewrite Z.land_spec, Z.pow2_bits_true, Eb in E by done.
Qed.

(** Which flags a combination has: each is a bit of its own. *)
Lemma flags_apart (w h n : bool) f :
  f = Z.lor (Z.lor (Z.lor PRESENT (if n then NO_EXECUTE else 0)) (if w then WRITABLE else 0)) (if h then HUGE_PAGE else 0) →
  (Z.land f WRITABLE =? WRITABLE) = w ∧ (Z.land f NO_EXECUTE =? NO_EXECUTE) = n.
Proof.
  intros ->. destruct flags_bits as (ip & iw & ih & inx & Hpos & Hnd & -> & -> & -> & ->).
  rewrite !Forall_cons in Hpos. destruct Hpos as (? & ? & ? & ? & _).
  apply NoDup_cons in Hnd as [Hn1 [Hn2 [Hn3 _]%NoDup_cons]%NoDup_cons].
  assert (ip ≠ iw ∧ ip ≠ inx ∧ iw ≠ ih ∧ iw ≠ inx ∧ ih ≠ inx) as (? & ? & ? & ? & ?) by (split_and!; set_solver).
  rewrite !land_pow2, !Z.lor_spec, !(Z.pow2_bits_eqb ip), !(proj2 (Z.eqb_neq ip _)) by done. cbn [orb].
  split; destruct w, h, n; rewrite ?Z.bits_0, ?Z.pow2_bits_eqb, ?Z.eqb_refl, ?orb_false_r by done; try done; cbn [orb].
  all: by rewrite ?(proj2 (Z.eqb_neq _ _)) by congruence.
Qed.

Lemma table_entry_flags e :
  (∀ g, flag_set g → entry_flags_contains e g = (Z.land pt_flags_3 g =? g)) → table_entry e.
Proof.
  intros He. destruct flag_set_bits as (Hp & Hw & _ & Hn). unfold table_entry. rewrite !He by done. split_and!.
  - apply Z.eqb_eq, land_lor_l.
  - apply Z.eqb_eq, land_lor_r.
  - apply (flags_apart true false false). by rewrite !Z.lor_0_r.
Qed.

Definition used_entry (e : entry) : option entry := if entry_is_unused e then None else Some e.

Lemma opt_addr_used e : opt_addr e = entry_addr <$> used_entry e.
Proof. unfold opt_addr, used_entry. by destruct (entry_is_unused e). Qed.

(** What the leaf tables say of a triple of indices. *)
Definition view (curr : Z) (t : tables) (roles : list role) (i4 i3 i2 : Z) : option entry :=
  '(k, _) ← list_find (P2 i4 i3 =.) roles;
  used_entry (get_entry t (frame_addr curr (Z.of_nat k)) i2).

Lemma view_at curr t roles k i4 i3 i2 :
  NoDup roles → roles !! k = Some (P2 i4 i3) →
  view curr t roles i4 i3 i2 = used_entry (get_entry t (frame_addr curr (Z.of_nat k)) i2).
Proof.
  intros Hnd Hk. unfold view.
  assert (list_find (P2 i4 i3 =.) roles = Some (k, P2 i4 i3)) as ->; [|done].
  apply list_find_Some. split_and!; [done|done|]. intros j y Hj Hlt <-.
  rewrite NoDup_alt in Hnd. specialize (Hnd j k _ Hj Hk). lia.
Qed.

Lemma view_none curr t roles i4 i3 i2 : P2 i4 i3 ∉ roles → view curr t roles i4 i3 i2 = None.
Proof.
  intros Hn. unfold view. assert (list_find (P2 i4 i3 =.) roles = None) as ->; [|done].
  apply list_find_None, Forall_forall. intros x Hx <-. done.
Qed.

Lemma translate_view curr pm t roles v :
  pm_ok curr pm t roles →
  PageMap_translate pm t curr v = Ret (entry_addr <$> view curr t roles (p4_index v) (p3_index v) (p2_index v)).
Proof.
  intros Hok. unfold PageMap_translate, phys_sub, opt_addr.
  pose proof (ok_root _ _ _ _ Hok) as H4.
  pose proof (ok_unused _ _ _ _ Hok 0 P4 (p4_index v) _ H4 eq_refl) as Hu.
  pose proof (ok_used _ _ _ _ Hok 0 P4 (p4_index v) _ H4 eq_refl) as Hd.
  rewrite frame_addr_0 in Hu, Hd.
  destruct (entry_is_unused (get_entry t curr (p4_index v))) eqn:E4.
  { rewrite view_none; [done|]. intros ?%(ok_parent _ _ _ _ Hok). by apply Hu. }
  destruct Hd as (k3 & H3 & -> & _); [done|]. clear E4.
  rewrite (proj2 (Z.leb_le _ _)) by (unfold frame_addr; lia). cbn [unwrap expect mbind outcome_bind].
  replace (curr + (frame_addr (phys_addr pm) (Z.of_nat k3) - phys_addr pm))
    with (frame_addr curr (Z.of_nat k3)) by (unfold frame_addr; lia).
  destruct (entry_is_unused (get_entry t (frame_addr curr (Z.of_nat k3)) (p3_index v))) eqn:E3.
  { eapply (ok_unused _ _ _ _ Hok k3 (P3 _)) in E3; [|done|done].
    by rewrite view_none. }
  eapply (ok_used _ _ _ _ Hok k3 (P3 _)) in E3 as (k2 & H2 & -> & _); [|done|done].
  rewrite (proj2 (Z.leb_le _ _)) by (unfold frame_addr; lia). cbn [unwrap expect mbind outcome_bind].
  replace (curr + (frame_addr (phys_addr pm) (Z.of_nat k2) - phys_addr pm))
    with (frame_addr curr (Z.of_nat k2)) by (unfold frame_addr; lia).
  rewrite (view_at _ _ _ k2) by (done || by apply (ok_nodup _ _ _ _ Hok)). unfold used_entry.
  destruct (entry_is_unused _) eqn:E2; [done|].
  by destruct (ok_leaf _ _ _ _ Hok k2 _ _ _ H2 E2) as [-> _].
Qed.

(** The area after a table is added for entry [i] of table [k]. *)
Definition add_table (curr : Z) (t : tables) (n k : nat) (i : Z) (e : entry) : tables :=
  zero_table (set_entry t (frame_addr curr (Z.of_nat k)) i e) (frame_addr curr (Z.of_nat n)).

Lemma add_table_get curr t n k i e j x :
  get_entry (add_table curr t n k i e) (frame_addr curr (Z.of_nat j)) x =
    if decide (j = n) then entry_new
    else if decide (j = k ∧ x = i) then e
    else get_entry t (frame_addr curr (Z.of_nat j)) x.
Proof.
  unfold add_table. rewrite get_zero_table, get_set_entry.
  repeat case_decide; naive_solver eauto using frame_addr_inj.
Qed.

Lemma child_inj r i r' i' c : child r i = Some c → child r' i' = Some c → r = r' ∧ i = i'.
Proof. destruct r, r'; cbn; naive_solver. Qed.

Lemma add_table_ok curr pm t roles k r i c e :
  pm_ok curr pm t roles → roles !! k = Some r → child r i = Some c → c ∉ roles →
  entry_is_unused e = false →
  entry_addr e = frame_addr (phys_addr pm) (Z.of_nat (length roles)) → table_entry e →
  pm_ok curr (MkPageMap (phys_addr pm) (table_count pm + 1))
    (add_table curr t (length roles) k i e) (roles ++ [c]).
Proof.
  intros Hok Hk Hc Hnew Hu Ha Ht. pose proof (lookup_lt_Some _ _ _ Hk) as Hlt.
  assert (∀ j r', (roles ++ [c]) !! j = Some r' →
    (j < length roles ∧ roles !! j = Some r')%nat ∨ (j = length roles ∧ r' = c)) as Hsplit.
  { intros j r' Hj. apply lookup_app_Some in Hj as [Hj|[Hge Hj]].
    - left. split; [by eapply lookup_lt_Some|done].
    - right. apply list_lookup_singleton_Some in Hj. naive_solver lia. }
  assert ((roles ++ [c]) !! length roles = Some c) as Hlast by by apply list_lookup_middle.
  split; cbn.
  - rewrite length_app, (ok_len _ _ _ _ Hok). cbn. lia.
  - apply lookup_app_l_Some, (ok_root _ _ _ _ Hok).
  - apply NoDup_app. split_and!; [apply (ok_nodup _ _ _ _ Hok)| |apply NoDup_singleton]. set_solver.
  - apply (ok_phys _ _ _ _ Hok).
  - intros j r' x c' [[Hj Hr]|[-> ->]]%Hsplit Hc'; rewrite add_table_get.
    + rewrite decide_False by lia. case_decide as Hjk; [congruence|].
      intros Hun [Hin| ->%list_elem_of_singleton]%elem_of_app.
      * by eapply (ok_unused _ _ _ _ Hok j).
      * destruct (child_inj _ _ _ _ _ Hc Hc') as [-> ->].
        apply Hjk. split; [|done]. by eapply NoDup_lookup; [apply (ok_nodup _ _ _ _ Hok)| |].
    + rewrite decide_True by done. intros _ [Hin| ->%list_elem_of_singleton]%elem_of_app.
      * destruct r, c; cbn in Hc, Hc'; simplify_eq/=. by apply (ok_parent _ _ _ _ Hok) in Hin.
      * destruct c; cbn in Hc'; simplify_eq/=.
  - intros j r' x c' [[Hj Hr]|[-> ->]]%Hsplit Hc'; rewrite add_table_get.
    + rewrite decide_False by lia. case_decide as Hjk.
      * destruct Hjk as [-> ->]. intros _. exists (length roles). split; [|done]. congruence.
      * intros Hun. destruct (ok_used _ _ _ _ Hok j r' x c' Hr Hc' Hun) as (k' & ? & ? & ?).
        exists k'. split; [by apply lookup_app_l_Some|done].
    + rewrite decide_True by done. by rewrite entry_new_unused.
  - intros i4 i3 [Hin|Heq%list_elem_of_singleton]%elem_of_app; apply elem_of_app; left.
    + by eapply ok_parent.
    + destruct r; cbn in Hc; simplify_eq/=. by eapply list_elem_of_lookup_2.
  - intros j i4 i3 x [[Hj Hr]|[-> Hr]]%Hsplit; rewrite add_table_get.
    + rewrite decide_False by lia. case_decide as Hjk; [|by eapply ok_leaf].
      destruct Hjk as [-> ->]. destruct r; cbn in Hc; simplify_eq/=; congruence.
    + rewrite decide_True by done. by rewrite entry_new_unused.
Qed.

Lemma add_table_view curr pm t roles k r i c e i4 i3 i2 :
  pm_ok curr pm t roles → roles !! k = Some r → child r i = Some c → c ∉ roles →
  view curr (add_table curr t (length roles) k i e) (roles ++ [c]) i4 i3 i2 =
  view curr t roles i4 i3 i2.
Proof.
  intros Hok Hk Hc Hnew. pose proof (ok_nodup _ _ _ _ Hok) as Hnd.
  assert (NoDup (roles ++ [c])) as Hnd'.
  { apply NoDup_app. split_and!; [done| |apply NoDup_singleton]. set_solver. }
  destruct (decide (P2 i4 i3 ∈ roles)) as [[j Hj]%list_elem_of_lookup|Hn].
  - pose proof (lookup_lt_Some _ _ _ Hj).
    rewrite (view_at _ _ _ j) by (done || by apply lookup_app_l_Some).
    rewrite (view_at curr t _ j) by done. rewrite add_table_get.
    rewrite decide_False by lia. rewrite decide_False; [done|].
    intros [-> ->]. rewrite Hk in Hj. simplify_eq/=.
  - rewrite (view_none curr t) by done. destruct (decide (c = P2 i4 i3)) as [->|Hc'].
    + rewrite (view_at _ _ _ (length roles)) by (done || by apply list_lookup_middle).
      rewrite add_table_get, decide_True by done. unfold used_entry. by rewrite entry_new_unused.
    + apply view_none. rewrite elem_of_app, list_elem_of_singleton. naive_solver.
Qed.

(** The lookup or creation of a child table. *)
Lemma next_table_spec curr pm t roles k r i c :
  pm_ok curr pm t roles → roles !! k = Some r → child r i = Some c →
  frame_addr (phys_addr pm) (table_count pm) < 2 ^ 52 →
  ∃ pm' t' roles' k',
    next_table pm t (curr - phys_addr pm) (frame_addr curr (Z.of_nat k)) i =
      Ret (pm', t', frame_addr curr (Z.of_nat k')) ∧
    pm_ok curr pm' t' roles' ∧ roles' !! k' = Some c ∧ phys_addr pm' = phys_addr pm ∧
    table_count pm ≤ table_count pm' ≤ table_count pm + 1 ∧
    (∀ i4 i3 i2, view curr t' roles' i4 i3 i2 = view curr t roles i4 i3 i2) ∧ roles' ⊆ c :: roles.
Proof.
  intros Hok Hk Hc Hb. unfold next_table. destruct (ok_phys _ _ _ _ Hok) as [Hp Hd].
  pose proof (ok_len _ _ _ _ Hok) as Hlen.
  destruct (entry_is_unused _) eqn:E.
  - pose proof (ok_unused _ _ _ _ Hok k r i c Hk Hc E) as Hnew.
    destruct (entry_set_addr_ok (frame_addr (phys_addr pm) (table_count pm)) pt_flags_3)
      as (e & Es & Ea & Eu & Ef).
    { unfold frame_addr in *. lia. }
    { apply Z.divide_add_r; [done|]. apply Z.divide_factor_l. }
    { apply pt_flags_3_present. }
    { apply pt_flags_3_present. }
    assert (add64 (table_count pm) 1 = Ret (table_count pm + 1)) as ->.
    { apply add64_ret. rewrite u64_size_eq. unfold frame_addr in Hb. lia. }
    cbn [mbind outcome_bind]. rewrite Es. cbn [mbind outcome_bind].
    eexists _, (add_table curr t (length roles) k i e), (roles ++ [c]), (length roles).
    split; [|split; [apply (add_table_ok curr pm t roles k r); (done || congruence || by apply table_entry_flags)|]].
    { rewrite Hlen, frame_addr_shift. done. }
    cbn. split_and!; [by apply list_lookup_middle|done|lia|lia| |set_solver].
    intros. by eapply add_table_view.
  - destruct (ok_used _ _ _ _ Hok k r i c Hk Hc E) as (k' & Hk' & -> & _).
    exists pm, t, roles, k'. split_and!; try done; try lia; [|set_solver].
    by rewrite frame_addr_shift.
Qed.

(** Writing an entry of a leaf table. *)
Lemma set_leaf_ok curr pm t roles k i4 i3 i e :
  pm_ok curr pm t roles → roles !! k = Some (P2 i4 i3) →
  (entry_is_unused e = false → entry_flags_contains e HUGE_PAGE = true ∧ entry_flags_contains e PRESENT = true) →
  pm_ok curr pm (set_entry t (frame_addr curr (Z.of_nat k)) i e) roles.
Proof.
  intros Hok Hk He.
  assert (∀ j r x, roles !! j = Some r → r ≠ P2 i4 i3 →
    get_entry (set_entry t (frame_addr curr (Z.of_nat k)) i e) (frame_addr curr (Z.of_nat j)) x =
    get_entry t (frame_addr curr (Z.of_nat j)) x) as Hget.
  { intros j r x Hj Hr. rewrite get_set_entry. rewrite decide_False; [done|].
    intros [->%frame_addr_inj _]. congruence. }
  split; try apply Hok.
  - intros j r x c Hj Hc. rewrite (Hget j r) by (done || by intros ->). by eapply ok_unused.
  - intros j r x c Hj Hc. rewrite (Hget j r) by (done || by intros ->). by eapply ok_used.
  - intros j a b x Hj. rewrite get_set_entry. case_decide; [done|]. by eapply ok_leaf.
Qed.

Lemma set_leaf_view curr pm t roles k i4 i3 i e j4 j3 j2 :
  pm_ok curr pm t roles → roles !! k = Some (P2 i4 i3) →
  view curr (set_entry t (frame_addr curr (Z.of_nat k)) i e) roles j4 j3 j2 =
    if decide (i4 = j4 ∧ i3 = j3 ∧ i = j2) then used_entry e else view curr t roles j4 j3 j2.
Proof.
  intros Hok Hk. pose proof (ok_nodup _ _ _ _ Hok) as Hnd.
  destruct (decide (P2 j4 j3 ∈ roles)) as [[j Hj]%list_elem_of_lookup|Hn].
  - rewrite !(view_at _ _ _ j) by done. rewrite get_set_entry.
    destruct (decide (frame_addr curr (Z.of_nat k) = _ ∧ _)) as [[->%frame_addr_inj ->]|Hne].
    + rewrite decide_True by naive_solver. done.
    + rewrite decide_False; [done|]. intros (-> & -> & ->).
      apply Hne. split; [|done]. do 2 f_equal. by eapply NoDup_lookup.
  - rewrite !view_none by done. rewrite decide_False; [done|]. intros (-> & -> & _).
    apply Hn. by eapply list_elem_of_lookup_2.
Qed.

(** ** The mapping a page map stands for *)

(** The entry of a page. *)
Definition page_view (curr : Z) (t : tables) (roles : list role) (v : Z) : option entry :=
  view curr t roles (p4_index v) (p3_index v) (p2_index v).

(** [m] gives the frame of every mapped page. *)
Definition denotes (curr : Z) (pm : PageMap) (t : tables) (m : gmap Z Z) : Prop :=
  (∃ roles, pm_ok curr pm t roles ∧
    ∀ v, page_ok v → entry_addr <$> page_view curr t roles v = m !! v).

(** An entry as [map_to] makes it. *)
Definition leaf_entry (frame flags : Z) (e : entry) : Prop :=
  entry_addr e = frame ∧ entry_is_unused e = false ∧
  ∀ g, flag_set g → entry_flags_contains e g = (Z.land flags g =? g).

Lemma denotes_translate curr pm t m v :
  denotes curr pm t m → page_ok v → PageMap_translate pm t curr v = Ret (m !! v).
Proof. intros (roles & Hok & Hv) Hp. rewrite (translate_view _ _ _ _ _ Hok). by rewrite <- Hv. Qed.

Lemma map_to_view curr pm t roles page frame flags :
  pm_ok curr pm t roles → page_ok page → 0 ≤ frame < 2 ^ 52 → (0x1000 | frame) →
  flag_set flags → Z.land flags PRESENT = PRESENT →
  frame_addr (phys_addr pm) (table_count pm + 1) < 2 ^ 52 →
  ∃ pm' t' roles' e, PageMap_map_to pm t curr page frame flags = Ret (pm', t') ∧
    pm_ok curr pm' t' roles' ∧ leaf_entry frame (Z.lor flags HUGE_PAGE) e ∧
    (∀ v, page_ok v → page_view curr t' roles' v = if decide (v = page) then Some e else page_view curr t roles v) ∧
    roles' ⊆ P2 (p4_index page) (p3_index page) :: P3 (p4_index page) :: roles ∧
    phys_addr pm' = phys_addr pm ∧ table_count pm ≤ table_count pm' ≤ table_count pm + 2.
Proof.
  intros Hok Hp Hf Hfd Hfs Hfl Hb. unfold PageMap_map_to.
  destruct (next_table_spec curr pm t roles 0 P4 (p4_index page) _ Hok
    (ok_root _ _ _ _ Hok) eq_refl) as (pm1 & t1 & roles1 & k3 & E1 & Hok1 & Hk3 & Hp1 & Hc1 & Hv1 & Hr1).
  { unfold frame_addr in *. lia. }
  rewrite frame_addr_0 in E1. rewrite E1. cbn [mbind outcome_bind].
  destruct (next_table_spec curr pm1 t1 roles1 k3 _ (p3_index page) _ Hok1 Hk3 eq_refl)
    as (pm2 & t2 & roles2 & k2 & E2 & Hok2 & Hk2 & Hp2 & Hc2 & Hv2 & Hr2).
  { unfold frame_addr in *. lia. }
  rewrite Hp1 in E2. rewrite E2. cbn [mbind outcome_bind].
  destruct (entry_set_addr_ok frame (Z.lor flags HUGE_PAGE)) as (e & -> & Ea & Eu & Ec);
    [done|done| | |].
  { apply flag_set_lor; [done|apply flag_set_bits]. }
  { by apply land_lor_has. }
  cbn [mbind outcome_bind]. eexists _, _, roles2, e. split; [done|].
  split; [|split; [done|split_and!; [|set_solver|congruence|lia|lia]]].
  - eapply set_leaf_ok; [done|done|]. intros _. rewrite !Ec by apply flag_set_bits.
    rewrite !Z.eqb_eq. split; [apply land_lor_r|by apply land_lor_has].
  - intros v Hpv. unfold page_view. rewrite (set_leaf_view _ _ _ _ _ _ _ _ _ _ _ _ Hok2 Hk2), Hv2, Hv1.
    destruct (decide (v = page)) as [->|Hne].
    + rewrite decide_True by done. unfold used_entry. by rewrite Eu.
    + rewrite decide_False; [done|]. intros (? & ? & ?). by rewrite (index_inj page v) in Hne.
Qed.

Lemma map_to_denotes curr pm t m page frame flags :
  denotes curr pm t m → page_ok page → 0 ≤ frame < 2 ^ 52 → (0x1000 | frame) →
  flag_set flags → Z.land flags PRESENT = PRESENT →
  frame_addr (phys_addr pm) (table_count pm + 1) < 2 ^ 52 →
  ∃ pm' t', PageMap_map_to pm t curr page frame flags = Ret (pm', t') ∧
    denotes curr pm' t' (<[page := frame]> m) ∧ phys_addr pm' = phys_addr pm ∧
    table_count pm ≤ table_count pm' ≤ table_count pm + 2.
Proof.
  intros (roles & Hok & Hv) Hp Hf Hfd Hfs Hfl Hb.
  destruct (map_to_view curr pm t roles page frame flags) as (pm' & t' & roles' & e & E & Hok' & (Ea & _) & Hv' & _ & Hp' & Hc');
    [done..|]. exists pm', t'. split_and!; [done| |done|lia|lia]. exists roles'. split; [done|].
  intros v Hpv. rewrite Hv' by done. destruct (decide (v = page)) as [->|Hne].
  - rewrite lookup_insert_eq. cbn. by rewrite Ea.
  - rewrite lookup_insert_ne by done. by apply Hv.
Qed.

Lemma unmap_denotes curr pm t m page :
  denotes curr pm t m → page_ok page → is_Some (m !! page) →
  ∃ t', PageMap_unmap pm t curr page = Ret t' ∧ denotes curr pm t' (delete page m).
Proof.
  intros (roles & Hok & Hv) Hp [f Hm]. rewrite <- Hv in Hm by done. unfold page_view in Hm.
  unfold PageMap_unmap.
  assert (P2 (p4_index page) (p3_index page) ∈ roles) as Hin.
  { destruct (decide (P2 (p4_index page) (p3_index page) ∈ roles)); [done|].
    by rewrite view_none in Hm. }
  pose proof (ok_unused _ _ _ _ Hok 0 P4 (p4_index page) _ (ok_root _ _ _ _ Hok) eq_refl) as Hu.
  pose proof (ok_used _ _ _ _ Hok 0 P4 (p4_index page) _ (ok_root _ _ _ _ Hok) eq_refl) as Hd.
  rewrite frame_addr_0 in Hu, Hd. destruct (entry_is_unused (get_entry t curr _)).
  { exfalso. by apply Hu; [|eapply ok_parent]. }
  destruct Hd as (k3 & H3 & -> & _); [done|]. rewrite frame_addr_shift.
  pose proof (ok_unused _ _ _ _ Hok k3 _ (p3_index page) _ H3 eq_refl) as Hu'.
  pose proof (ok_used _ _ _ _ Hok k3 _ (p3_index page) _ H3 eq_refl) as Hd'.
  destruct (entry_is_unused (get_entry t _ _)); [exfalso; by apply Hu'|].
  destruct Hd' as (k2 & H2 & -> & _); [done|]. rewrite frame_addr_shift.
  eexists. split; [done|]. exists roles. split.
  { eapply set_leaf_ok; [done|done|]. by rewrite entry_new_unused. }
  intros v Hpv. unfold page_view. rewrite (set_leaf_view _ _ _ _ _ _ _ _ _ _ _ _ Hok H2). case_decide as Hi.
  - destruct Hi as (? & ? & ?). rewrite (index_inj page v) by done. rewrite lookup_delete_eq.
    unfold used_entry. by rewrite entry_new_unused.
  - rewrite lookup_delete_ne; [by apply Hv|]. intros ->. naive_solver.
Qed.

Lemma pm_ok_ext curr pm t t' roles :
  (∀ k i, (k < length roles)%nat →
    get_entry t' (frame_addr curr (Z.of_nat k)) i = get_entry t (frame_addr curr (Z.of_nat k)) i) →
  pm_ok curr pm t roles → pm_ok curr pm t' roles.
Proof.
  intros Hg Hok. split; try apply Hok.
  - intros k r i c Hk. rewrite Hg by (by eapply lookup_lt_Some). by eapply ok_unused.
  - intros k r i c Hk. rewrite Hg by (by eapply lookup_lt_Some). by eapply ok_used.
  - intros k i4 i3 i Hk. rewrite Hg by (by eapply lookup_lt_Some). by eapply ok_leaf.
Qed.

Lemma view_ext curr t t' roles i4 i3 i2 :
  (∀ k i, (k < length roles)%nat →
    get_entry t' (frame_addr curr (Z.of_nat k)) i = get_entry t (frame_addr curr (Z.of_nat k)) i) →
  view curr t' roles i4 i3 i2 = view curr t roles i4 i3 i2.
Proof.
  intros Hg. unfold view. destruct (list_find _ roles) as [[k r]|] eqn:E; [|done]. cbn.
  apply list_find_Some in E as [Hk _]. by rewrite Hg by (by eapply lookup_lt_Some).
Qed.

Lemma root_ok curr phys t :
  0 ≤ phys → (0x1000 | phys) → pm_ok curr (MkPageMap phys 1) (zero_table t curr) [P4].
Proof.
  intros Hp Hd.
  assert (∀ i, entry_is_unused (get_entry (zero_table t curr) (frame_addr curr (Z.of_nat 0)) i)
    = true) as Hu.
  { intros i. rewrite get_zero_table, frame_addr_0, decide_True by done. apply entry_new_unused. }
  split; try done.
  - apply NoDup_singleton.
  - intros [|k] r i c ?; simplify_eq/=. intros Hc _. rewrite list_elem_of_singleton. naive_solver.
  - intros [|k] r i c ?; simplify_eq/=. by rewrite Hu.
  - intros i4 i3. by rewrite list_elem_of_singleton.
  - intros [|k] i4 i3 i ?; simplify_eq/=.
Qed.

Lemma init_view t curr phys virt :
  page_ok virt → 0 ≤ phys → frame_addr phys 2 < 2 ^ 52 → (0x1000 | phys) →
  let roles := [P4; P3 (p4_index virt); P2 (p4_index virt) (p3_index virt)] in
  ∃ pm t' e, PageMap_init t curr phys virt = Ret (pm, t') ∧ pm_ok curr pm t' roles ∧
    leaf_entry phys pt_flags_2 e ∧
    (∀ v, page_ok v → page_view curr t' roles v = if decide (v = virt) then Some e else None) ∧
    phys_addr pm = phys ∧ table_count pm = 3.
Proof.
  intros Hv Hp Hb Hd roles. unfold PageMap_init.
  rewrite (proj2 (Z.eqb_eq _ _)) by (apply Z.mod_divide; [done|apply Hv]).
  destruct pt_flags_3_present as [Hf3 Hp3]. destruct pt_flags_2_present as (Hf2 & Hp2 & Hh2).
  assert (∀ k, (0x1000 | frame_addr phys k)) as Hdk.
  { intros k. apply Z.divide_add_r; [done|apply Z.divide_factor_l]. }
  destruct (entry_set_addr_ok (frame_addr phys 1) pt_flags_3) as (e4 & E4 & Ea4 & Eu4 & Ef4);
    [unfold frame_addr in *; lia|done|done|done|].
  destruct (entry_set_addr_ok (frame_addr phys 2) pt_flags_3) as (e3 & E3 & Ea3 & Eu3 & Ef3);
    [unfold frame_addr in *; lia|done|done|done|].
  destruct (entry_set_addr_ok (frame_addr phys 0) pt_flags_2) as (e2 & E2 & Ea2 & Eu2 & Ec2);
    [unfold frame_addr in *; lia|done|done|done|].
  cbn [rassert mbind outcome_bind]. rewrite E4. cbn [mbind outcome_bind]. rewrite E3.
  cbn [mbind outcome_bind]. rewrite E2. cbn [mbind outcome_bind].
  eexists _, _, e2. split; [done|].
  replace (frame_addr phys 0) with phys in Ea2 by (unfold frame_addr; lia).
  set (i4 := p4_index virt). set (i3 := p3_index virt). set (i2 := p2_index virt).
  set (t' := set_entry _ _ i2 e2).
  pose proof (root_ok curr phys t Hp Hd) as Hok0.
  pose proof (add_table_ok curr _ _ _ 0 _ i4 _ e4 Hok0 eq_refl eq_refl ltac:(set_solver) Eu4 Ea4 (table_entry_flags _ Ef4))
    as Hok1.
  pose proof (add_table_ok curr _ _ _ 1 _ i3 _ e3 Hok1 eq_refl eq_refl ltac:(set_solver) Eu3 Ea3 (table_entry_flags _ Ef3))
    as Hok2.
  assert (entry_flags_contains e2 HUGE_PAGE = true ∧ entry_flags_contains e2 PRESENT = true) as Hl.
  { rewrite !Ec2 by apply flag_set_bits. by rewrite !Z.eqb_eq. }
  pose proof (set_leaf_ok curr _ _ _ 2 i4 i3 i2 e2 Hok2 eq_refl (λ _, Hl)) as Hok3.
  cbn [phys_addr table_count app length] in *.
  set (t3 := set_entry _ _ i2 e2) in Hok3.
  assert (∀ k i, (k < 3)%nat →
    get_entry t' (frame_addr curr (Z.of_nat k)) i = get_entry t3 (frame_addr curr (Z.of_nat k)) i)
    as Hg.
  { intros k i Hk. unfold t', t3, add_table.
    repeat rewrite ?get_set_entry, ?get_zero_table. unfold frame_addr. destruct k as [|[|[|k]]]; [..|lia];
      repeat (case_decide; try (exfalso; lia)); done. }
  split; [by eapply pm_ok_ext|]. split; [done|]. split; [|done]. intros v Hpv. unfold page_view, roles.
  rewrite (view_ext _ t3) by done. unfold t3.
  rewrite (set_leaf_view _ _ _ _ 2 i4 i3 _ _ _ _ _ Hok2 eq_refl).
  rewrite (add_table_view _ _ _ [P4; P3 i4] 1 (P3 i4) i3 (P2 i4 i3) _ _ _ _ Hok1)
    by (done || set_solver).
  rewrite (add_table_view _ _ _ [P4] 0 P4 i4 (P3 i4) _ _ _ _ Hok0) by (done || set_solver).
  rewrite (view_none _ _ [P4]) by set_solver. destruct (decide (v = virt)) as [->|Hne].
  - rewrite decide_True by done. unfold used_entry. by rewrite Eu2.
  - rewrite decide_False; [done|]. intros (? & ? & ?). by rewrite (index_inj virt v) in Hne.
Qed.

Lemma init_denotes t curr phys virt :
  page_ok virt → 0 ≤ phys → frame_addr phys 2 < 2 ^ 52 → (0x1000 | phys) →
  ∃ pm t', PageMap_init t curr phys virt = Ret (pm, t') ∧ denotes curr pm t' {[virt := phys]} ∧
    phys_addr pm = phys ∧ table_count pm = 3.
Proof.
  intros Hv Hp Hb Hd. destruct (init_view t curr phys virt) as (pm & t' & e & E & Hok & (Ea & _) & Hw & ? & ?); [done..|].
  exists pm, t'. split_and!; [done| |done|done]. eexists. split; [exact Hok|]. intros v Hpv. rewrite Hw by done.
  destruct (decide (v = virt)) as [->|Hne]; [rewrite lookup_singleton_eq; cbn; by rewrite Ea|by rewrite lookup_singleton_ne].
Qed.

End pagemap.

(** ** The interface to the rest of the kernel *)

(** What the owner of an address space may rely on: lookups agree with a finite map, and [room]
    more mappings fit into the table area. *)
Class PageTables `{PagingOps} (T : Type) := {
  pt_translate : T → Z → outcome (option Z);
  pt_map_to : T → Z → Z → Z → outcome T;
  pt_unmap : T → Z → outcome T;
  pt_denotes : T → gmap Z Z → nat → Prop;
}.

Class PageTablesLaws `{PageTables T} := {
  pt_room_law (t : T) m n n' : pt_denotes t m n → (n' ≤ n)%nat → pt_denotes t m n';
  pt_translate_law (t : T) m n v :
    pt_denotes t m n → page_ok v → pt_translate t v = Ret (m !! v);
  pt_map_to_law (t : T) m n page frame flags :
    pt_denotes t m (S n) → page_ok page → 0 ≤ frame < 2 ^ 52 → (0x1000 | frame) →
    flag_set flags → Z.land flags PRESENT = PRESENT →
    ∃ t', pt_map_to t page frame flags = Ret t' ∧ pt_denotes t' (<[page := frame]> m) n;
  pt_unmap_law (t : T) m n page :
    pt_denotes t m n → page_ok page → is_Some (m !! page) →
    ∃ t', pt_unmap t page = Ret t' ∧ pt_denotes t' (delete page m) n;
}.

(** A page map with the memory of its tables and the address the kernel sees it at. *)
Record AddrSpace `{PagingOps} := MkAddrSpace {
  as_map : PageMap; as_tables : gmap Z (gmap Z entry); as_curr : Z;
}.

#[global] Instance AddrSpace_tables `{PagingOps} : PageTables AddrSpace := {
  pt_translate s v := PageMap_translate (as_map s) (as_tables s) (as_curr s) v;
  pt_map_to s page frame flags :=
    '(pm, t) ← PageMap_map_to (as_map s) (as_tables s) (as_curr s) page frame flags;
    Ret (MkAddrSpace _ pm t (as_curr s));
  pt_unmap s page :=
    t ← PageMap_unmap (as_map s) (as_tables s) (as_curr s) page;
    Ret (MkAddrSpace _ (as_map s) t (as_curr s));
  pt_denotes s m n :=
    denotes (as_curr s) (as_map s) (as_tables s) m ∧
    frame_addr (phys_addr (as_map s)) MAX_PAGE_TABLES ≤ 2 ^ 52 ∧
    table_count (as_map s) + 2 * Z.of_nat n ≤ MAX_PAGE_TABLES;
}.

#[global] Instance AddrSpace_laws `{PagingLaws} : PageTablesLaws (T := AddrSpace).
Proof.
  split.
  - intros s m n n' (? & ? & ?) ?. cbn. split_and!; [done|done|lia].
  - intros s m n v [Hd _] Hv. by apply denotes_translate.
  - intros [pm t curr] m n page frame flags (Hd & Hb & Hr) Hp Hf Hfd Hfs Hfl. cbn in *.
    destruct (map_to_denotes curr pm t m page frame flags) as (pm' & t' & -> & ? & Hp' & ?);
      [done..|unfold frame_addr in *; lia|].
    cbn. eexists. split; [done|]. cbn. split_and!; [done|by rewrite Hp'|lia].
  - intros [pm t curr] m n page (Hd & Hb & Hr) Hp Hm. cbn in *.
    destruct (unmap_denotes curr pm t m page) as (t' & -> & ?); [done..|].
    cbn. eexists. split; [done|]. done.
Qed.

(** ** The entry layout of the architecture *)

Definition addr_mask : Z := 0x000ffffffffff000.

#[global] Instance amd64_paging : PagingOps := {
  entry := Z;
  PRESENT := 1; WRITABLE := 2; HUGE_PAGE := 128; NO_EXECUTE := 2 ^ 63;
  entry_new := 0;
  entry_is_unused e := e =? 0;
  entry_addr e := Z.land e addr_mask;
  entry_set_addr a f := if a mod 0x1000 =? 0 then Ret (Z.lor a f)
    else Panic "assertion failed: addr.is_aligned(Size4KiB::SIZE)";
  entry_flags_contains e f := Z.land e f =? f;
  flag_set f := Z.land f addr_mask = 0;
  p4_index v := v / 2 ^ 39 mod 512;
  p3_index v := v / 2 ^ 30 mod 512;
  p2_index v := v / 2 ^ 21 mod 512;
}.

Lemma amd64_index_inj v w :
  page_ok v → page_ok w → v / 2 ^ 39 mod 512 = w / 2 ^ 39 mod 512 →
  v / 2 ^ 30 mod 512 = w / 2 ^ 30 mod 512 → v / 2 ^ 21 mod 512 = w / 2 ^ 21 mod 512 → v = w.
Proof.
  intros [[a ->] Hv] [[b ->] Hw]. unfold PAGE_SIZE_BYTES in *.
  change (2 ^ 39) with (0x200000 * 2 ^ 18). change (2 ^ 30) with (0x200000 * 2 ^ 9).
  change (2 ^ 21) with 0x200000.
  rewrite <- !Z.div_div, !Z.div_mul by lia. intros. Z.to_euclidean_division_equations. lia.
Qed.

Lemma aligned_masked a : 0 ≤ a < 2 ^ 52 → (0x1000 | a) → Z.land a addr_mask = a.
Proof.
  intros Ha [q ->]. apply Z.bits_inj'. intros n Hn. rewrite Z.land_spec.
  change addr_mask with (Z.shiftl (Z.ones 40) 12). rewrite Z.shiftl_spec by done.
  replace (q * 0x1000) with (Z.shiftl q 12) in * by (by rewrite Z.shiftl_mul_pow2).
  rewrite Z.testbit_ones by lia. destruct (decide (n < 52)).
  - rewrite Z.shiftl_spec by done. destruct (decide (n < 12)).
    + by rewrite Z.testbit_neg_r by lia.
    + rewrite (proj2 (Z.leb_le _ _)), (proj2 (Z.ltb_lt _ _)) by lia. by rewrite andb_true_r.
  - rewrite <- (Z.mod_small (Z.shiftl q 12) (2 ^ 52)) by done.
    by rewrite Z.mod_pow2_bits_high by lia.
Qed.

#[global] Instance amd64_laws : PagingLaws.
Proof.
  split; cbn [entry flag_set PRESENT WRITABLE HUGE_PAGE NO_EXECUTE amd64_paging entry_new
    entry_is_unused entry_addr entry_set_addr entry_flags_contains p4_index p3_index p2_index].
  - intros f g Hf Hg. by rewrite Z.land_comm, Z.land_lor_distr_r, !(Z.land_comm addr_mask), Hf, Hg.
  - done.
  - exists 0, 1, 7, 63. split_and!; [repeat constructor; lia|apply (bool_decide_unpack _); by vm_compute|done..].
  - done.
  - by intros e ->%Z.eqb_eq.
  - intros a f Ha Hal Hf Hp. rewrite (proj2 (Z.eqb_eq _ _)) by (by apply Z.mod_divide).
    eexists. split_and!; [done| | |].
    + rewrite Z.land_comm, Z.land_lor_distr_r, !(Z.land_comm addr_mask), Hf, Z.lor_0_r.
      by apply aligned_masked.
    + apply Z.eqb_neq. intros [_ ->]%Z.lor_eq_0_iff. done.
    + intros g Hg. f_equal. rewrite Z.land_comm, Z.land_lor_distr_r, (Z.land_comm g f).
      rewrite <- (aligned_masked a Ha Hal), (Z.land_comm a), Z.land_assoc, Hg. done.
  - apply amd64_index_inj.
  - intros v w Hvw. by rewrite Hvw.
  - intros v w Hvw. by rewrite Hvw.
Qed.

Lemma page_ok_low n : 0 ≤ n < 2 ^ 26 → page_ok (n * PAGE_SIZE_BYTES).
Proof. intros Hn. split; [by exists n|left]. unfold PAGE_SIZE_BYTES. lia. Qed.

(** ** Properties *)

(** Calls on a page map. *)
Inductive pm_call := CMap (page frame flags : Z) | CUnmap (page : Z).

Section properties.
Context `{PagingLaws}.

Definition pm_run (s : AddrSpace) (c : pm_call) : outcome AddrSpace :=
  match c with
  | CMap page frame flags => pt_map_to s page frame flags
  | CUnmap page => pt_unmap s page
  end.

Fixpoint pm_runs (s : AddrSpace) (cs : list pm_call) : outcome AddrSpace :=
  match cs with [] => Ret s | c :: cs => s ← pm_run s c; pm_runs s cs end.

(** The finite map of the same calls. *)
Definition abs_run (m : gmap Z Z) (c : pm_call) : gmap Z Z :=
  match c with CMap page frame _ => <[page := frame]> m | CUnmap page => delete page m end.

Definition call_ok (m : gmap Z Z) (c : pm_call) : Prop :=
  match c with
  | CMap page frame flags => page_ok page ∧ 0 ≤ frame < 2 ^ 52 ∧ (0x1000 | frame) ∧
      flag_set flags ∧ Z.land flags PRESENT = PRESENT
  | CUnmap page => page_ok page ∧ is_Some (m !! page)
  end.

Fixpoint calls_ok (m : gmap Z Z) (cs : list pm_call) : Prop :=
  match cs with [] => True | c :: cs => call_ok m c ∧ calls_ok (abs_run m c) cs end.

Lemma pm_runs_spec s m cs n :
  pt_denotes s m (length cs + n) → calls_ok m cs →
  ∃ s', pm_runs s cs = Ret s' ∧ pt_denotes s' (foldl abs_run m cs) n.
Proof.
  revert s m. induction cs as [|c cs IH]; intros s m Hd Hc; [by exists s|].
  cbn [pm_runs foldl]. destruct Hc as [Hc Hcs].
  assert (∃ s', pm_run s c = Ret s' ∧ pt_denotes s' (abs_run m c) (length cs + n))
    as (s' & -> & Hd').
  { destruct c as [page frame flags|page]; cbn [pm_run abs_run].
    - destruct Hc as (? & ? & ? & ? & ?). by apply pt_map_to_law.
    - destruct Hc as [? ?]. apply pt_unmap_law; [|done|done].
      destruct Hd as (? & ? & Hd). split_and!; [done|done|]. cbn [length] in Hd. lia. }
  by apply IH.
Qed.

(** C8: a page table behaves as a finite map: after [PageMap::init] and any sequence of
    [map_to] and [unmap] calls, of which each may need two new tables and which all together fit the
    512 tables of the area, and in which only mapped pages are unmapped, looking up any page gives the
    frame the last call for that page left there and the walk does not panic. *)
Theorem page_map_refines tabs curr phys virt cs
    (Hv : page_ok virt) (Hp : 0 ≤ phys) (Hpd : (0x1000 | phys))
    (Hb : frame_addr phys MAX_PAGE_TABLES ≤ 2 ^ 52)
    (Hc : calls_ok {[virt := phys]} cs)
    (Hn : 3 + 2 * Z.of_nat (length cs) ≤ MAX_PAGE_TABLES) :
  ∃ pm t s, PageMap_init tabs curr phys virt = Ret (pm, t) ∧
    pm_runs (MkAddrSpace _ pm t curr) cs = Ret s ∧
    table_count (as_map s) ≤ MAX_PAGE_TABLES ∧
    ∀ v, page_ok v → PageMap_translate (as_map s) (as_tables s) (as_curr s) v =
      Ret (foldl abs_run {[virt := phys]} cs !! v).
Proof.
  destruct (init_denotes tabs curr phys virt) as (pm & t & E & Hd & Hpm & Hcnt);
    [done|done|unfold frame_addr, MAX_PAGE_TABLES in *; cbn in *; lia|done|].
  destruct (pm_runs_spec (MkAddrSpace _ pm t curr) {[virt := phys]} cs 0) as (s & Er & Hs);
    [|done|].
  { cbn. rewrite Hpm, Hcnt, Nat.add_0_r. done. }
  exists pm, t, s. split_and!; [done|done|destruct Hs as (_ & _ & ?); lia|].
  intros v ?. apply denotes_translate; [apply Hs|done].
Qed.

End properties.

Lemma page_map_refines_witness :
  ∃ pm t s, PageMap_init ∅ 0xffff800011000000 0x11000000 0xffff800011000000 = Ret (pm, t) ∧
    pm_runs (MkAddrSpace _ pm t 0xffff800011000000)
      [CMap 0x400000 0x600000 3; CMap 0x10000000000 0x800000 1; CUnmap 0x400000] = Ret s ∧
    table_count (as_map s) ≤ MAX_PAGE_TABLES ∧
    ∀ v, page_ok v → PageMap_translate (as_map s) (as_tables s) (as_curr s) v =
      Ret (foldl abs_run {[0xffff800011000000 := 0x11000000]}
        [CMap 0x400000 0x600000 3; CMap 0x10000000000 0x800000 1; CUnmap 0x400000] !! v).
Proof.
  apply (page_map_refines ∅ 0xffff800011000000 0x11000000 0xffff800011000000).
  - split; [by exists 0x7fffc000088|right; done].
  - lia.
  - by exists 0x11000.
  - vm_compute. discriminate.
  - cbn [calls_ok call_ok abs_run]. split_and!; try done; try lia.
    + by apply (page_ok_low 2).
    + by exists 0x600.
    + by apply (page_ok_low 0x80000).
    + by exists 0x800.
    + by apply (page_ok_low 2).
  - vm_compute. discriminate.
Defined.

(** [map_to] never checks [MAX_PAGE_TABLES]: 255 mappings with distinct top-level indices
    put a table behind the end of the 2 MiB table area. *)
Theorem page_tables_overrun :
  ∃ s, (('(pm, t) ← PageMap_init ∅ 0 0 0;
         pm_runs (MkAddrSpace _ pm t 0)
           ((λ i, CMap (Z.of_nat i * 2 ^ 39) 0x200000 1) <$> seq 1 255)) = Ret s) ∧
    MAX_PAGE_TABLES < table_count (as_map s) ∧
    is_Some (as_tables s !! PAGE_SIZE_BYTES).
Proof.
  set (o := _ ≫= _).
  assert (match o with Ret s => (MAX_PAGE_TABLES <? table_count (as_map s)) &&
    bool_decide (is_Some (as_tables s !! PAGE_SIZE_BYTES)) | Panic _ => false end = true) as Hb
    by (vm_compute; reflexivity).
  destruct o as [s|]; [|done]. exists s. apply andb_true_iff in Hb as [?%Z.ltb_lt ?%bool_decide_eq_true].
  done.
Qed.
