(* ===== verification/Args.v ===== *)
(** * Args: program arguments from [exec] to the new process
    (libs/libd7/src/syscall.rs [exec], the argument decoding of [SC::exec] in
    src/syscall/mod.rs, the stack image of [create_process] in src/multitasking/process.rs and
    libs/libd7/src/env.rs)

    The caller packs the arguments into a buffer, the kernel unpacks them and pushes them onto
    the stack of the new process, which reads them back.  Strings are lists of bytes. *)

From stdpp Require Import base gmap list strings.
From Stdlib Require Import ZArith Lia.
From S2P Require Import Prelude Bytes Ranges.
Open Scope Z_scope.

(** ** The caller: [libd7::syscall::exec] *)

Definition len_u64 (arg : list Z) : list Z := to_le 8 (Z.of_nat (length arg)).

Definition exec_args_raw (args : list (list Z)) : list Z :=
  to_le 8 (Z.of_nat (length args)) ++ concat (len_u64 <$> args) ++ concat args.

(** ** The kernel: decoding *)

(** [try_str!]: the string, or a return to the caller. *)
Definition try_str (slice : list Z) : outcome (option (list Z)) :=
  _ ← rassert (Z.of_nat (length slice) <? 10000) "String length sanity check";
  Ret (if utf8_valid slice then Some slice else None).

(** [&slice[from..][..len]] *)
Definition slice_from_len (slice : list Z) (from len : Z) : outcome (list Z) :=
  if from <=? Z.of_nat (length slice) then
    if len <=? Z.of_nat (length slice) - from then
      Ret (sub_slice slice (Z.to_nat from) (Z.to_nat (from + len)))
    else Panic "range end index out of range for slice"
  else Panic "range start index out of range for slice".

Definition arg_len (slice : list Z) (i : Z) : outcome Z :=
  k ← add64 1 i; k ← mul64 k 8;
  buf ← slice_from_len slice k 8;
  Ret (from_le buf).

(** The loop over [0..argc]; each round reads 8 further bytes of the slice, so the length of
    the slice bounds the number of rounds. *)
Fixpoint exec_args_loop (fuel : nat) (slice : list Z) (i argc cursor : Z) (args : list (list Z))
    : outcome (option (list (list Z))) :=
  if i <? argc then
    len ← arg_len slice i;
    bytes ← slice_from_len slice cursor len;
    s ← try_str bytes;
    match s with
    | None => Ret None
    | Some s =>
        c ← add64 cursor len;
        match fuel with
        | O => Panic "range start index out of range for slice"
        | S fuel => exec_args_loop fuel slice (i + 1) argc c (args ++ [s])
        end
    end
  else Ret (Some args).

(** [None] is the early return with [invalid_utf8]. *)
Definition exec_args (slice : list Z) : outcome (option (list (list Z))) :=
  buf ← slice_from_len slice 0 8;
  let argc := from_le buf in
  k ← add64 1 argc; cursor ← mul64 k 8;
  exec_args_loop (length slice) slice 0 argc cursor [].

(** ** The kernel: the stack of a new process *)

Definition PROCESS_STACK : Z := 0x400000.
Definition PROCESS_STACK_SIZE_PAGES : Z := 2.
Definition stack_size_bytes : Z := PROCESS_STACK_SIZE_PAGES * PAGE_SIZE_BYTES.
Definition PROCESS_STACK_END : Z := PROCESS_STACK + stack_size_bytes.

(** [usize::next_multiple_of(8)] *)
Definition next_multiple_of_8 (n : Z) : Z := (n + 7) / 8 * 8.

Definition total_len (args : list (list Z)) : Z := Z.of_nat (length (concat args)).

Definition args_size_in_memory (args : list (list Z)) : Z :=
  8 + 8 * Z.of_nat (length args) + next_multiple_of_8 (total_len args).

Definition stack_items_fixed : Z := 15 + 1 + 5.

(** Stack contents by offset; bytes never written are zero. *)
Abbreviation stack_mem := (gmap Z Z).

Definition push_u8 (val : Z) (st : stack_mem * Z) : outcome (stack_mem * Z) :=
  let '(mem, top) := st in
  top ← sub64 top 1;
  _ ← rassert (top <? stack_size_bytes) "index out of bounds";
  Ret (<[top := val]> mem, top).

(** [stack_mem[at..].copy_from_slice(bytes)] *)
Fixpoint write_bytes (mem : stack_mem) (at_ : Z) (bytes : list Z) : stack_mem :=
  match bytes with [] => mem | b :: bytes => <[at_ := b]> (write_bytes mem (at_ + 1) bytes) end.

Definition push_u64 (val : Z) (st : stack_mem * Z) : outcome (stack_mem * Z) :=
  let '(mem, top) := st in
  top ← sub64 top 8;
  _ ← rassert (top + 8 <=? stack_size_bytes) "range end index out of range for slice";
  Ret (write_bytes mem top (to_le 8 val), top).

Fixpoint push_all {A} (push : A → stack_mem * Z → outcome (stack_mem * Z)) (vals : list A)
    (st : stack_mem * Z) : outcome (stack_mem * Z) :=
  match vals with [] => Ret st | v :: vals => st ← push v st; push_all push vals st end.

(** [while top % 8 != 0]; seven rounds are enough. *)
Fixpoint align_u64 (fuel : nat) (st : stack_mem * Z) : outcome (stack_mem * Z) :=
  match fuel with
  | O => Ret st
  | S fuel => if st.2 mod 8 =? 0 then Ret st else st ← push_u8 0 st; align_u64 fuel st
  end.

(** [VirtAddr - u64] panics below zero. *)
Definition vaddr_sub (a b : Z) : outcome Z := unwrap (if b <=? a then Some (a - b) else None).

(** The part of [create_process] that builds the stack: its contents and the stack pointer. *)
Definition create_stack (args : list (list Z)) (program_entry_pos : Z)
    : outcome (stack_mem * Z) :=
  process_stack_end ← vaddr_sub PROCESS_STACK_END (args_size_in_memory args);
  process_init_rsp ← vaddr_sub process_stack_end (stack_items_fixed * 8);
  _ ← rassert (args_size_in_memory args + stack_items_fixed <=? stack_size_bytes)
        "Attempting to have too large argv";
  st ← push_u64 (Z.of_nat (length args)) (∅, stack_size_bytes);
  st ← push_all (λ arg, push_u64 (Z.of_nat (length arg))) args st;
  st ← push_all push_u8 (concat (reverse <$> reverse args)) st;
  st ← align_u64 7 st;
  st ← push_all push_u64 [0; process_stack_end; 0x0202; 0x8; program_entry_pos] st;
  Ret (st.1, process_init_rsp).

(** ** The new process: [libd7::env] *)

Definition read_bytes (mem : stack_mem) (ptr len : Z) : list Z :=
  (λ i, default 0 (mem !! (ptr - PROCESS_STACK + i))) <$> seqZ 0 len.

Definition read_u64 (mem : stack_mem) (ptr : Z) : Z := from_le (read_bytes mem ptr 8).

Definition env_argc (mem : stack_mem) : Z := read_u64 mem (PROCESS_STACK_END - 8).

Definition env_arg_len (mem : stack_mem) (index : Z) : Z :=
  read_u64 mem (PROCESS_STACK_END - 16 - 8 * index).

Record Args := MkArgs { index : Z; ptr : Z }.

Definition env_args (mem : stack_mem) : Args :=
  let cursor := PROCESS_STACK_END - 8 in
  let argc := read_u64 mem cursor in
  MkArgs 0 (cursor - argc * 8 -
    foldr Z.add 0 ((λ i, read_u64 mem (cursor - 8 * (i + 1))) <$> seqZ 0 argc)).

Definition Args_next (mem : stack_mem) (self : Args) : outcome (option (list Z) * Args) :=
  if env_argc mem <=? index self then Ret (None, self)
  else
    let len := env_arg_len mem (index self) in
    let bytes := read_bytes mem (ptr self) len in
    _ ← rassert (utf8_valid bytes) "called `Result::unwrap()` on an `Err` value";
    Ret (Some bytes, MkArgs (index self + 1) (ptr self + len)).

(** The iterator run to its end. *)
Fixpoint Args_collect (fuel : nat) (mem : stack_mem) (self : Args) : outcome (list (list Z)) :=
  match fuel with
  | O => Ret []
  | S fuel =>
      '(o, self) ← Args_next mem self;
      match o with
      | None => Ret []
      | Some a => rest ← Args_collect fuel mem self; Ret (a :: rest)
      end
  end.

(** ** Lemmas on the stack image *)

Lemma from_le_u64 z : 0 ≤ z < u64_size → from_le (to_le 8 z) = z.
Proof. intros Hz. rewrite from_le_to_le. by apply Z.mod_small. Qed.

Lemma write_bytes_lookup mem a bs x :
  write_bytes mem a bs !! x =
    if decide (a ≤ x < a + Z.of_nat (length bs)) then bs !! Z.to_nat (x - a) else mem !! x.
Proof.
  revert a. induction bs as [|b bs IH]; intros a; cbn [write_bytes length].
  - by rewrite decide_False by lia.
  - destruct (decide (x = a)) as [->|Hx].
    + rewrite lookup_insert_eq, decide_True by lia. by rewrite Z.sub_diag.
    + rewrite lookup_insert_ne, IH by done. repeat case_decide; try lia; [|done].
      by replace (Z.to_nat (x - a)) with (S (Z.to_nat (x - (a + 1)))) by lia.
Qed.

(** The stack above [top] holds [w]. *)
Record block (st : stack_mem * Z) (w : list Z) : Prop := {
  block_len : st.2 + Z.of_nat (length w) = stack_size_bytes;
  block_top : 0 ≤ st.2;
  block_get i b : w !! i = Some b → st.1 !! (st.2 + Z.of_nat i) = Some b;
  block_only x : is_Some (st.1 !! x) → st.2 ≤ x < stack_size_bytes;
}.

Lemma block_nil : block (∅, stack_size_bytes) [].
Proof. split; cbn; [lia|done|done|]. intros x [b Hb]. by rewrite lookup_empty in Hb. Qed.

Lemma push_u8_block v st w :
  block st w → 1 ≤ st.2 → ∃ st', push_u8 v st = Ret st' ∧ block st' (v :: w) ∧ st'.2 = st.2 - 1.
Proof.
  destruct st as [mem top]. intros [Hl Ht Hg Ho] H1. cbn in *. unfold push_u8.
  rewrite (proj2 (sub64_ret _ _ _) (conj H1 eq_refl)). cbn.
  rewrite (proj2 (Z.ltb_lt _ _)) by lia. cbn. eexists. split; [done|]. split; [|done].
  split; cbn; [lia|lia| |].
  - intros [|i] b Hb; cbn in Hb; [simplify_eq; by rewrite Z.add_0_r, lookup_insert_eq|].
    rewrite lookup_insert_ne by lia. rewrite <- (Hg i b Hb). f_equal. lia.
  - intros x [<-|Hx]%lookup_insert_is_Some'; [lia|]. apply Ho in Hx. lia.
Qed.

Lemma push_u64_block v st w :
  block st w → 8 ≤ st.2 →
  ∃ st', push_u64 v st = Ret st' ∧ block st' (to_le 8 v ++ w) ∧ st'.2 = st.2 - 8.
Proof.
  destruct st as [mem top]. intros [Hl Ht Hg Ho] H8. cbn [fst snd] in *. unfold push_u64.
  rewrite (proj2 (sub64_ret _ _ _) (conj H8 eq_refl)). cbn [mbind outcome_bind].
  rewrite (proj2 (Z.leb_le _ _)) by lia. cbn [rassert mbind outcome_bind].
  eexists. split; [done|]. split; [|done]. split; cbn [fst snd].
  - rewrite length_app, to_le_length. lia.
  - lia.
  - intros i b Hb. rewrite write_bytes_lookup, to_le_length. case_decide as Hd.
    + rewrite lookup_app_l in Hb by (rewrite to_le_length; lia). rewrite <- Hb. f_equal. lia.
    + rewrite lookup_app_r in Hb by (rewrite to_le_length; lia). rewrite to_le_length in Hb.
      rewrite <- (Hg _ _ Hb). f_equal. lia.
  - intros x Hx. rewrite write_bytes_lookup, to_le_length in Hx. case_decide; [lia|]. apply Ho in Hx. lia.
Qed.

Lemma push_all_u8 vals st w :
  block st w → Z.of_nat (length vals) ≤ st.2 →
  ∃ st', push_all push_u8 vals st = Ret st' ∧ block st' (reverse vals ++ w) ∧
    st'.2 = st.2 - Z.of_nat (length vals).
Proof.
  revert st w. induction vals as [|v vals IH]; intros st w Hb Hl; cbn [push_all length] in *.
  { exists st. split_and!; [done|done|lia]. }
  destruct (push_u8_block v st w Hb ltac:(lia)) as (st1 & -> & Hb1 & Ht). cbn [mbind outcome_bind].
  destruct (IH st1 (v :: w) Hb1 ltac:(lia)) as (st2 & -> & Hb2 & Ht2).
  exists st2. split_and!; [done| |lia]. by rewrite reverse_cons, <- (assoc_L (++)).
Qed.

Lemma push_all_u64 {A} (f : A → Z) vals st w :
  block st w → 8 * Z.of_nat (length vals) ≤ st.2 →
  ∃ st', push_all (λ v, push_u64 (f v)) vals st = Ret st' ∧
    block st' (concat (reverse ((λ v, to_le 8 (f v)) <$> vals)) ++ w) ∧
    st'.2 = st.2 - 8 * Z.of_nat (length vals).
Proof.
  revert st w. induction vals as [|v vals IH]; intros st w Hb Hl; cbn [push_all length] in *.
  { exists st. split_and!; [done|done|lia]. }
  destruct (push_u64_block (f v) st w Hb ltac:(lia)) as (st1 & -> & Hb1 & Ht).
  cbn [mbind outcome_bind].
  destruct (IH st1 (to_le 8 (f v) ++ w) Hb1 ltac:(lia)) as (st2 & -> & Hb2 & Ht2).
  exists st2. split_and!; [done| |lia].
  rewrite fmap_cons, reverse_cons, concat_app. cbn [concat].
  by rewrite app_nil_r, <- (assoc_L (++)).
Qed.

Lemma align_u64_block fuel st w :
  block st w → (Z.to_nat (st.2 mod 8) ≤ fuel)%nat →
  ∃ st', align_u64 fuel st = Ret st' ∧
    block st' (replicate (Z.to_nat (st.2 mod 8)) 0 ++ w) ∧ st'.2 = 8 * (st.2 / 8).
Proof.
  revert st w. induction fuel as [|fuel IH]; intros st w Hb Hf.
  - exists st. replace (Z.to_nat (st.2 mod 8)) with 0%nat by lia. cbn.
    split_and!; [done|done|]. Z.to_euclidean_division_equations. lia.
  - cbn [align_u64]. destruct (Z.eqb_spec (st.2 mod 8) 0) as [E|E].
    + exists st. rewrite E. split_and!; [done|done|]. Z.to_euclidean_division_equations. lia.
    + pose proof (block_top _ _ Hb).
      destruct (push_u8_block 0 st w Hb) as (st1 & -> & Hb1 & Ht).
      { Z.to_euclidean_division_equations. lia. }
      cbn [mbind outcome_bind].
      assert (st1.2 mod 8 = st.2 mod 8 - 1 ∧ st1.2 / 8 = st.2 / 8) as [Em Ed].
      { rewrite Ht. Z.to_euclidean_division_equations. lia. }
      destruct (IH st1 (0 :: w) Hb1) as (st2 & -> & Hb2 & Ht2); [lia|].
      exists st2. split_and!; [done| |congruence]. rewrite Em in Hb2.
      pose proof (Z.mod_pos_bound st.2 8).
      replace (Z.to_nat (st.2 mod 8)) with (S (Z.to_nat (st.2 mod 8 - 1))) by lia.
      rewrite replicate_S_end, <- (assoc_L (++)). done.
Qed.

Lemma reverse_concat {A} (l : list (list A)) : reverse (concat (reverse <$> reverse l)) = concat l.
Proof.
  induction l as [|x l IH]; [done|]. cbn [concat].
  rewrite reverse_cons, fmap_app, concat_app, reverse_app, IH.
  change (concat (reverse <$> [x])) with (reverse x ++ []).
  by rewrite app_nil_r, reverse_involutive.
Qed.

(** The image [create_stack] leaves above the stack pointer. *)
Definition stack_image (args : list (list Z)) (entry : Z) : list Z :=
  let process_stack_end := PROCESS_STACK_END - args_size_in_memory args in
  concat (to_le 8 <$> [entry; 0x8; 0x0202; process_stack_end; 0]) ++
  replicate (Z.to_nat ((- total_len args) mod 8)) 0 ++
  concat args ++ concat (reverse (len_u64 <$> args)) ++ to_le 8 (Z.of_nat (length args)).

Lemma next_multiple_of_8_eq n : next_multiple_of_8 n = n + (- n) mod 8.
Proof. unfold next_multiple_of_8. Z.to_euclidean_division_equations. lia. Qed.

Lemma total_len_nonneg args : 0 ≤ total_len args.
Proof. unfold total_len. lia. Qed.

Lemma create_stack_spec args entry :
  args_size_in_memory args + 40 ≤ stack_size_bytes →
  ∃ mem, create_stack args entry =
      Ret (mem, PROCESS_STACK_END - args_size_in_memory args - stack_items_fixed * 8) ∧
    block (mem, stack_size_bytes - args_size_in_memory args - 40) (stack_image args entry).
Proof.
  intros Hfit. unfold create_stack, vaddr_sub.
  pose proof (next_multiple_of_8_eq (total_len args)) as Hn.
  pose proof (Z.mod_pos_bound (- total_len args) 8 ltac:(done)) as Hm.
  pose proof (total_len_nonneg args) as Htl.
  assert (args_size_in_memory args = 8 + 8 * Z.of_nat (length args) + total_len args +
    (- total_len args) mod 8) as Has by (unfold args_size_in_memory; lia).
  assert (PROCESS_STACK_END = 4194304 + stack_size_bytes) as Hend by done.
  assert (stack_items_fixed = 21) as Hfix by done.
  rewrite (proj2 (Z.leb_le _ PROCESS_STACK_END)) by lia. cbn [unwrap expect mbind outcome_bind].
  rewrite (proj2 (Z.leb_le _ (PROCESS_STACK_END - _))) by lia.
  cbn [unwrap expect mbind outcome_bind].
  rewrite (proj2 (Z.leb_le _ stack_size_bytes)) by lia. cbn [rassert mbind outcome_bind].
  destruct (push_u64_block (Z.of_nat (length args)) _ _ block_nil) as (st1 & -> & Hb1 & Ht1).
  { cbn [snd]. lia. }
  rewrite app_nil_r in Hb1. cbn [mbind outcome_bind snd] in *.
  destruct (push_all_u64 (λ arg : list Z, Z.of_nat (length arg)) args st1 _ Hb1)
    as (st2 & -> & Hb2 & Ht2); [lia|]. cbn [mbind outcome_bind].
  assert (Z.of_nat (length (concat (reverse <$> reverse args))) = total_len args) as Hl.
  { unfold total_len. by rewrite <- (length_reverse (concat _)), reverse_concat. }
  destruct (push_all_u8 (concat (reverse <$> reverse args)) st2 _ Hb2) as (st3 & -> & Hb3 & Ht3);
    [lia|]. rewrite reverse_concat in Hb3. cbn [mbind outcome_bind].
  assert (st3.2 mod 8 = (- total_len args) mod 8 ∧
    8 * (st3.2 / 8) = stack_size_bytes - args_size_in_memory args) as [Hm3 Hd3].
  { rewrite Ht3, Hl, Ht2, Ht1, Has. change stack_size_bytes with (8 * 524288).
    Z.to_euclidean_division_equations. lia. }
  destruct (align_u64_block 7 st3 _ Hb3) as (st4 & -> & Hb4 & Ht4); [lia|].
  cbn [mbind outcome_bind]. rewrite Hm3 in Hb4.
  destruct (push_all_u64 (λ z : Z, z)
    [0; PROCESS_STACK_END - args_size_in_memory args; 0x0202; 0x8; entry] st4 _ Hb4)
    as (st5 & E5 & Hb5 & Ht5); [cbn [length]; lia|].
  change (λ v : Z, push_u64 v) with push_u64 in E5. rewrite E5. cbn [mbind outcome_bind]. exists st5.1. split; [done|].
  replace (stack_size_bytes - args_size_in_memory args - 40) with st5.2
    by (cbn [length] in Ht5; lia).
  by rewrite <- surjective_pairing.
Qed.

(** ** Reading the image back *)

Lemma read_block mem top p x q ptr len :
  block (mem, top) (p ++ x ++ q) → len = Z.of_nat (length x) →
  ptr + len + Z.of_nat (length q) = PROCESS_STACK_END → read_bytes mem ptr len = x.
Proof.
  intros [Hl _ Hg] -> Hp. cbn [fst snd] in *. rewrite !length_app in Hl.
  unfold read_bytes. apply list_eq. intros i. rewrite list_lookup_fmap.
  destruct (decide (i < length x)%nat) as [Hi|Hi].
  - rewrite lookup_seqZ_lt by lia. cbn. destruct (lookup_lt_is_Some_2 x i Hi) as [b Hb].
    rewrite Hb. f_equal.
    replace (ptr - PROCESS_STACK + (0 + Z.of_nat i)) with (top + Z.of_nat (length p + i)%nat)
      by (unfold PROCESS_STACK_END in Hp; lia).
    rewrite (Hg (length p + i)%nat b); [done|].
    rewrite lookup_app_r by lia. replace (length p + i - length p)%nat with i by lia.
    by apply lookup_app_l_Some.
  - rewrite lookup_seqZ_ge by lia. cbn. symmetry. apply lookup_ge_None. lia.
Qed.

Lemma read_u64_block mem top p v q ptr :
  block (mem, top) (p ++ to_le 8 v ++ q) → 0 ≤ v < u64_size →
  ptr + 8 + Z.of_nat (length q) = PROCESS_STACK_END → read_u64 mem ptr = v.
Proof.
  intros Hb Hv Hp. unfold read_u64. rewrite (read_block mem top p (to_le 8 v) q) by done.
  by apply from_le_u64.
Qed.

Section image.
Context (args : list (list Z)) (entry : Z) (mem : stack_mem).
Hypothesis Hfit : args_size_in_memory args + 40 ≤ stack_size_bytes.
Hypothesis Hblock :
  block (mem, stack_size_bytes - args_size_in_memory args - 40) (stack_image args entry).

Abbreviation lens := (concat (reverse (len_u64 <$> args))).

Lemma lens_length (l : list (list Z)) :
  Z.of_nat (length (concat (reverse (len_u64 <$> l)))) = 8 * Z.of_nat (length l).
Proof.
  induction l as [|x l IH]; [done|].
  rewrite fmap_cons, reverse_cons, concat_app, length_app, Nat2Z.inj_add, IH. cbn [concat length].
  unfold len_u64. rewrite app_nil_r, to_le_length. lia.
Qed.

Lemma args_small : Z.of_nat (length args) < u64_size ∧ total_len args < u64_size.
Proof.
  unfold args_size_in_memory in Hfit. rewrite next_multiple_of_8_eq in Hfit.
  pose proof (Z.mod_pos_bound (- total_len args) 8 ltac:(done)).
  pose proof (total_len_nonneg args). rewrite u64_size_eq. change stack_size_bytes with 4194304 in *.
  lia.
Qed.

Lemma image_argc : env_argc mem = Z.of_nat (length args).
Proof.
  pose proof args_small. unfold env_argc. eapply (read_u64_block mem _ _ _ []); [|lia|done].
  rewrite app_nil_r. unfold stack_image in Hblock.
  by rewrite !(assoc_L (++)) in Hblock.
Qed.

Lemma image_arg_len a1 arg a2 :
  args = a1 ++ arg :: a2 →
  env_arg_len mem (Z.of_nat (length a1)) = Z.of_nat (length arg).
Proof.
  intros Ha. destruct args_small as [Hn Ht]. unfold env_arg_len.
  eapply (read_u64_block mem _
    ((concat (to_le 8 <$> [entry; 0x8; 0x0202; PROCESS_STACK_END - args_size_in_memory args; 0]) ++
      replicate (Z.to_nat ((- total_len args) mod 8)) 0 ++ concat args) ++
      concat (reverse (len_u64 <$> a2))) _
    (concat (reverse (len_u64 <$> a1)) ++ to_le 8 (Z.of_nat (length args)))).
  - unfold stack_image in Hblock.
    replace lens with (concat (reverse (len_u64 <$> a2)) ++ len_u64 arg ++
      concat (reverse (len_u64 <$> a1))) in Hblock.
    + rewrite <- !(assoc_L (++)) in Hblock. rewrite <- !(assoc_L (++)). exact Hblock.
    + rewrite Ha, fmap_app, fmap_cons, reverse_app, reverse_cons, !concat_app. cbn [concat].
      by rewrite app_nil_r, <- (assoc_L (++)).
  - split; [lia|]. revert Ht. unfold total_len. rewrite Ha, concat_app, length_app. cbn [concat].
    rewrite length_app. lia.
  - rewrite length_app, Nat2Z.inj_add, lens_length, to_le_length. lia.
Qed.

Definition args_start : Z := PROCESS_STACK_END - 8 - 8 * Z.of_nat (length args) - total_len args.

Lemma image_arg_bytes a1 arg a2 :
  args = a1 ++ arg :: a2 →
  read_bytes mem (args_start + total_len a1) (Z.of_nat (length arg)) = arg.
Proof.
  intros Ha.
  eapply (read_block mem _
    (concat (to_le 8 <$> [entry; 0x8; 0x0202; PROCESS_STACK_END - args_size_in_memory args; 0]) ++
      replicate (Z.to_nat ((- total_len args) mod 8)) 0 ++ concat a1) _
    (concat a2 ++ lens ++ to_le 8 (Z.of_nat (length args)))); [|done|].
  - unfold stack_image in Hblock. rewrite Ha in Hblock at 4. rewrite concat_app in Hblock.
    cbn [concat] in Hblock. rewrite <- !(assoc_L (++)) in Hblock. rewrite <- !(assoc_L (++)).
    exact Hblock.
  - rewrite !length_app, !Nat2Z.inj_add, lens_length, to_le_length.
    unfold args_start, total_len. rewrite Ha, concat_app, !length_app. cbn [concat].
    rewrite length_app. lia.
Qed.

Lemma sum_lens (f : Z → Z) (l : list (list Z)) k :
  (∀ l1 x l2, l = l1 ++ x :: l2 → f (k + Z.of_nat (length l1)) = Z.of_nat (length x)) →
  foldr Z.add 0 (f <$> seqZ k (Z.of_nat (length l))) = total_len l.
Proof.
  revert k. induction l as [|x l IH]; intros k Hf; [done|].
  cbn [length]. rewrite Nat2Z.inj_succ, seqZ_cons by lia. rewrite fmap_cons. cbn [foldr].
  replace (Z.pred (Z.succ (Z.of_nat (length l)))) with (Z.of_nat (length l)) by lia.
  rewrite IH.
  - specialize (Hf [] x l eq_refl). cbn in Hf. rewrite Z.add_0_r in Hf. rewrite Hf.
    unfold total_len. cbn [concat]. rewrite length_app. lia.
  - intros l1 y l2 ->. specialize (Hf (x :: l1) y l2 eq_refl). rewrite <- Hf. cbn [length].
    f_equal. lia.
Qed.

Lemma image_args : env_args mem = MkArgs 0 args_start.
Proof.
  pose proof image_argc as Hc. unfold env_argc in Hc. unfold env_args. rewrite Hc. f_equal.
  unfold args_start. rewrite (sum_lens _ args 0); [lia|]. intros l1 x l2 Ha.
  rewrite <- (image_arg_len l1 x l2 Ha). unfold env_arg_len. f_equal. lia.
Qed.

Lemma image_collect a1 a2 fuel :
  args = a1 ++ a2 → (length a2 < fuel)%nat → Forall (λ a, utf8_valid a = true) args →
  Args_collect fuel mem (MkArgs (Z.of_nat (length a1)) (args_start + total_len a1)) = Ret a2.
Proof.
  intros Ha Hf Hu. revert fuel a1 Ha Hf. induction a2 as [|x a2 IH]; intros [|fuel] a1 Ha Hf;
    cbn [length] in Hf; try lia; cbn [Args_collect]; unfold Args_next; rewrite image_argc;
    cbn [index ptr].
  - rewrite (proj2 (Z.leb_le _ _)); [done|]. rewrite Ha, app_nil_r. lia.
  - rewrite (proj2 (Z.leb_gt _ _)) by (rewrite Ha, length_app; cbn [length]; lia).
    rewrite (image_arg_len _ _ _ Ha), (image_arg_bytes _ _ _ Ha).
    assert (utf8_valid x = true) as Hx.
    { rewrite Forall_forall in Hu. apply Hu. rewrite Ha. set_solver. }
    rewrite Hx. cbn [rassert mbind outcome_bind].
    replace (Z.of_nat (length a1) + 1) with (Z.of_nat (length (a1 ++ [x])))
      by (rewrite length_app; cbn [length]; lia).
    replace (args_start + total_len a1 + Z.of_nat (length x)) with (args_start + total_len (a1 ++ [x])).
    + rewrite IH; [done| |lia]. by rewrite <- (assoc_L (++)).
    + unfold total_len. rewrite concat_app, length_app. cbn [concat]. rewrite app_nil_r. lia.
Qed.

End image.

(** ** Lemmas on the decoding *)

Lemma slice_from_len_app p x q from len :
  from = Z.of_nat (length p) → len = Z.of_nat (length x) →
  slice_from_len (p ++ x ++ q) from len = Ret x.
Proof.
  intros -> ->. unfold slice_from_len. rewrite !length_app.
  rewrite (proj2 (Z.leb_le _ _)), (proj2 (Z.leb_le _ _)) by lia. f_equal.
  rewrite sub_slice_app_r by lia. rewrite sub_slice_app_l by lia.
  replace (Z.to_nat (Z.of_nat (length p)) - length p)%nat with 0%nat by lia.
  apply sub_slice_all. lia.
Qed.

Lemma lens_forward_length (l : list (list Z)) :
  Z.of_nat (length (concat (len_u64 <$> l))) = 8 * Z.of_nat (length l).
Proof.
  induction l as [|x l IH]; [done|]. rewrite fmap_cons. cbn [concat length].
  rewrite length_app, Nat2Z.inj_add, IH. unfold len_u64. rewrite to_le_length. lia.
Qed.

(** An argument the system call accepts. *)
Definition arg_ok (a : list Z) : Prop := utf8_valid a = true ∧ Z.of_nat (length a) < 10000.

Lemma exec_args_loop_spec args a1 a2 fuel :
  args = a1 ++ a2 → (length a2 ≤ fuel)%nat → Forall arg_ok args →
  Z.of_nat (length (exec_args_raw args)) < u64_size →
  exec_args_loop fuel (exec_args_raw args) (Z.of_nat (length a1)) (Z.of_nat (length args))
    (8 + 8 * Z.of_nat (length args) + total_len a1) a1 = Ret (Some args).
Proof.
  intros Ha Hf Hok Hsz.
  assert (Z.of_nat (length (exec_args_raw args)) =
    8 + 8 * Z.of_nat (length args) + total_len args) as Hlen.
  { unfold exec_args_raw. rewrite !length_app, !Nat2Z.inj_add, lens_forward_length, to_le_length.
    unfold total_len. lia. }
  revert fuel a1 Ha Hf. induction a2 as [|x a2 IH]; intros fuel a1 Ha Hf.
  - destruct fuel; cbn [exec_args_loop]; (rewrite (proj2 (Z.ltb_ge _ _));
      [by rewrite Ha, app_nil_r|rewrite Ha, app_nil_r; lia]).
  - destruct fuel as [|fuel]; cbn [length] in Hf; [lia|]. cbn [exec_args_loop].
    assert (total_len args = total_len a1 + Z.of_nat (length x) + total_len a2) as Ht.
    { unfold total_len. rewrite Ha, concat_app, length_app. cbn [concat]. rewrite length_app. lia. }
    assert (length args = length a1 + S (length a2))%nat as Hl.
    { rewrite Ha, length_app. done. }
    pose proof (total_len_nonneg a1). pose proof (total_len_nonneg a2).
    rewrite (proj2 (Z.ltb_lt _ _)) by lia.
    assert (arg_ok x) as [Hx Hxl].
    { rewrite Forall_forall in Hok. apply Hok. rewrite Ha. set_solver. }
    assert (arg_len (exec_args_raw args) (Z.of_nat (length a1)) = Ret (Z.of_nat (length x))) as ->.
    { unfold arg_len. rewrite add64_small by lia.
      cbn [mbind outcome_bind].
      rewrite mul64_small by lia. cbn [mbind outcome_bind].
      unfold exec_args_raw. rewrite Ha at 2. rewrite fmap_app, fmap_cons, concat_app.
      cbn [concat].
      rewrite <- !(assoc_L (++)), (assoc_L (++) (to_le 8 _)).
      rewrite (slice_from_len_app _ (len_u64 x)); [|rewrite length_app, to_le_length,
        Nat2Z.inj_add, lens_forward_length; lia|unfold len_u64; by rewrite to_le_length].
      cbn [mbind outcome_bind]. unfold len_u64. rewrite from_le_u64; [done|lia]. }
    cbn [mbind outcome_bind].
    assert (slice_from_len (exec_args_raw args)
      (8 + 8 * Z.of_nat (length args) + total_len a1) (Z.of_nat (length x)) = Ret x) as ->.
    { unfold exec_args_raw. rewrite Ha at 3. rewrite concat_app. cbn [concat].
      rewrite !(assoc_L (++)), <- (assoc_L (++) _ x).
      apply slice_from_len_app; [|done].
      rewrite !length_app, !Nat2Z.inj_add, lens_forward_length, to_le_length.
      unfold total_len. lia. }
    cbn [mbind outcome_bind]. unfold try_str. rewrite (proj2 (Z.ltb_lt _ _)) by done.
    cbn [rassert mbind outcome_bind]. rewrite Hx.
    rewrite add64_small by lia. cbn [mbind outcome_bind].
    replace (Z.of_nat (length a1) + 1) with (Z.of_nat (length (a1 ++ [x])))
      by (rewrite length_app; cbn [length]; lia).
    replace (8 + 8 * Z.of_nat (length args) + total_len a1 + Z.of_nat (length x))
      with (8 + 8 * Z.of_nat (length args) + total_len (a1 ++ [x])).
    + apply IH; [by rewrite <- (assoc_L (++))|lia].
    + unfold total_len. rewrite concat_app, length_app. cbn [concat]. rewrite app_nil_r. lia.
Qed.

Lemma exec_args_spec args :
  Forall arg_ok args → Z.of_nat (length (exec_args_raw args)) < u64_size →
  exec_args (exec_args_raw args) = Ret (Some args).
Proof.
  intros Hok Hsz. unfold exec_args.
  assert (8 + 8 * Z.of_nat (length args) + total_len args =
    Z.of_nat (length (exec_args_raw args))) as Hlen.
  { unfold exec_args_raw. rewrite !length_app, !Nat2Z.inj_add, lens_forward_length, to_le_length.
    unfold total_len. lia. }
  pose proof (total_len_nonneg args).
  assert (slice_from_len (exec_args_raw args) 0 8 = Ret (to_le 8 (Z.of_nat (length args)))) as ->.
  { apply (slice_from_len_app []); [done|by rewrite to_le_length]. }
  cbn [mbind outcome_bind]. rewrite from_le_u64 by lia. rewrite add64_small by lia.
  cbn [mbind outcome_bind]. rewrite mul64_small by lia. cbn [mbind outcome_bind].
  replace ((1 + Z.of_nat (length args)) * 8)
    with (8 + 8 * Z.of_nat (length args) + total_len []) by (unfold total_len; cbn; lia).
  apply (exec_args_loop_spec args [] args); [done|lia|done|done].
Qed.

(** The five words of the return frame, from the bottom up. *)
Lemma image_frame args entry mem i v :
  block (mem, stack_size_bytes - args_size_in_memory args - 40) (stack_image args entry) →
  [entry; 0x8; 0x0202; PROCESS_STACK_END - args_size_in_memory args; 0] !! i = Some v →
  0 ≤ v < u64_size →
  read_u64 mem (PROCESS_STACK_END - args_size_in_memory args - 40 + 8 * Z.of_nat i) = v.
Proof.
  intros Hb Hi Hv. pose proof (block_len _ _ Hb) as Hl. cbn [snd] in Hl.
  unfold stack_image in Hb, Hl.
  set (words := [_; _; _; _; _]) in *. set (rest := replicate _ _ ++ _) in *.
  apply list_elem_of_split_length in Hi as (w1 & w2 & Hw & ->).
  assert (length words = 5%nat) as H5 by done.
  assert (∀ w, Z.of_nat (length (concat (to_le 8 <$> w))) = 8 * Z.of_nat (length w)) as Hcl.
  { induction w as [|x w IH]; [done|]. rewrite fmap_cons. cbn [concat length].
    rewrite length_app, Nat2Z.inj_add, IH, to_le_length. lia. }
  rewrite length_app, Nat2Z.inj_add, Hcl in Hl.
  eapply (read_u64_block mem _ (concat (to_le 8 <$> w1)) v (concat (to_le 8 <$> w2) ++ rest));
    [|done|].
  - rewrite Hw, fmap_app, fmap_cons, concat_app in Hb. cbn [concat] in Hb.
    by rewrite <- !(assoc_L (++)) in Hb.
  - rewrite length_app, Nat2Z.inj_add, Hcl. rewrite Hw, length_app in H5, Hl. cbn [length] in *.
    unfold PROCESS_STACK_END, PROCESS_STACK. lia.
Qed.

(** ** Properties *)

(** C22: arguments survive the whole way: what [exec] packs, the kernel unpacks unchanged, and
    what the kernel puts on the stack of the new process, [libd7::env::args] iterates over
    unchanged.  The process starts at its entry point, with the stack pointer right below its
    arguments and inside the stack. *)
Theorem args_round_trip (a : list (list Z)) (entry : Z)
    (Hok : Forall arg_ok a) (He : 0 ≤ entry < u64_size)
    (Hfit : args_size_in_memory a + stack_items_fixed * 8 ≤ stack_size_bytes) :
  exec_args (exec_args_raw a) = Ret (Some a) ∧
  ∃ mem rsp, create_stack a entry = Ret (mem, rsp) ∧
    Args_collect (S (length a)) mem (env_args mem) = Ret a ∧
    PROCESS_STACK ≤ rsp ∧
    read_u64 mem (rsp + 8 * 16) = entry ∧
    read_u64 mem (rsp + 8 * 19) = PROCESS_STACK_END - args_size_in_memory a.
Proof.
  assert (args_size_in_memory a + 40 ≤ stack_size_bytes) as Hfit' by (unfold stack_items_fixed in *; lia).
  assert (Z.of_nat (length (exec_args_raw a)) < u64_size) as Hraw.
  { unfold exec_args_raw. rewrite !length_app, !Nat2Z.inj_add, lens_forward_length, to_le_length.
    unfold args_size_in_memory in Hfit'. rewrite next_multiple_of_8_eq in Hfit'.
    pose proof (Z.mod_pos_bound (- total_len a) 8 ltac:(done)). unfold total_len in *.
    rewrite u64_size_eq. change stack_size_bytes with 4194304 in *. lia. }
  assert (0 ≤ args_size_in_memory a) as Hpos.
  { unfold args_size_in_memory. rewrite next_multiple_of_8_eq. pose proof (total_len_nonneg a).
    pose proof (Z.mod_pos_bound (- total_len a) 8 ltac:(done)). lia. }
  split; [by apply exec_args_spec|].
  destruct (create_stack_spec a entry Hfit') as (mem & E & Hb).
  eexists mem, _. split; [done|]. split_and!.
  - rewrite (image_args a entry mem Hfit' Hb).
    replace (args_start a) with (args_start a + total_len []) by (unfold total_len; cbn; lia).
    apply (image_collect a entry mem Hfit' Hb []); [done|lia|].
    eapply Forall_impl; [done|]. by intros x [? _].
  - unfold PROCESS_STACK_END. lia.
  - etransitivity; [|apply (image_frame a entry mem 0 entry Hb eq_refl He)].
    f_equal. unfold stack_items_fixed. lia.
  - etransitivity; [|apply (image_frame a entry mem 3 _ Hb eq_refl)].
    + f_equal. unfold stack_items_fixed. lia.
    + rewrite u64_size_eq. unfold PROCESS_STACK_END, PROCESS_STACK in *.
      change stack_size_bytes with 4194304 in *. lia.
Qed.

(** The size check of [create_process] adds a number of stack items to a number of bytes:
    arguments that leave fewer than 168 but at least 40 bytes pass it, and the process starts
    with its stack pointer below the stack area. *)
Theorem argv_check_too_weak (a : list (list Z)) (entry : Z)
    (Hlo : args_size_in_memory a + 40 ≤ stack_size_bytes)
    (Hhi : stack_size_bytes < args_size_in_memory a + stack_items_fixed * 8) :
  ∃ mem rsp, create_stack a entry = Ret (mem, rsp) ∧ rsp < PROCESS_STACK.
Proof.
  destruct (create_stack_spec a entry Hlo) as (mem & E & _). eexists mem, _. split; [done|].
  unfold PROCESS_STACK_END. lia.
Qed.

Lemma args_round_trip_witness :
  exec_args (exec_args_raw [[0x6c; 0x73]; [0x2d; 0x61; 0xc3; 0xa4]]) =
    Ret (Some [[0x6c; 0x73]; [0x2d; 0x61; 0xc3; 0xa4]]) ∧
  ∃ mem rsp, create_stack [[0x6c; 0x73]; [0x2d; 0x61; 0xc3; 0xa4]] 0x1000000 = Ret (mem, rsp) ∧
    Args_collect 3 mem (env_args mem) = Ret [[0x6c; 0x73]; [0x2d; 0x61; 0xc3; 0xa4]] ∧
    PROCESS_STACK ≤ rsp ∧
    read_u64 mem (rsp + 8 * 16) = 0x1000000 ∧
    read_u64 mem (rsp + 8 * 19) =
      PROCESS_STACK_END - args_size_in_memory [[0x6c; 0x73]; [0x2d; 0x61; 0xc3; 0xa4]].
Proof.
  apply (args_round_trip [[0x6c; 0x73]; [0x2d; 0x61; 0xc3; 0xa4]] 0x1000000).
  - rewrite !Forall_cons. unfold arg_ok. cbn [length]. split_and!; first [lia | done | apply Forall_nil_2].
  - rewrite u64_size_eq. lia.
  - vm_compute. discriminate.
Defined.

Lemma argv_check_too_weak_witness :
  ∃ mem rsp, create_stack [replicate (Z.to_nat 4194232) 0x61] 0x1000000 = Ret (mem, rsp) ∧
    rsp < PROCESS_STACK.
Proof.
  pose proof (Z2Nat.id 4194232 ltac:(lia)) as Hn. revert Hn. generalize (Z.to_nat 4194232).
  intros n Hn.
  assert (args_size_in_memory [replicate n 0x61] = 4194248) as E.
  { unfold args_size_in_memory, total_len. cbn [concat length].
    rewrite app_nil_r, length_replicate, Hn. reflexivity. }
  apply (argv_check_too_weak [replicate n 0x61] 0x1000000); rewrite E; vm_compute; done.
Defined.
