(* ===== verification/ProcessMem.v ===== *)
(** * ProcessMem: access to and allocation of process memory
    (src/multitasking/process.rs [memory_slice], [memory_slice_mut], [memory_alloc],
    [memory_dealloc], [read_stack_u64], [write_stack_u64])

    The page tables of the kernel and of the process are used through [PageTables]; the physical
    allocator is the buddy allocator of the [allogator] crate, with what it promises as
    [PhysAllocLaws].  A loop over pages recurses on the number of pages left. *)

From stdpp Require Import base gmap list strings.
From Stdlib Require Import ZArith Lia.
From S2P Require Import Prelude Abi Bytes Ranges VirtAlloc PageMap Args.
Open Scope Z_scope.

(** ** Parameters *)

(** [x86_64::align_down] and [x86_64::align_up] for powers of two, [VirtAddr::new] and
    [PhysAddr::new]. *)
Class AlignOps := {
  align_down_to : Z → Z → Z;
  align_up_to : Z → Z → outcome Z;
  VirtAddr_new : Z → outcome Z;
  PhysAddr_new : Z → outcome Z;
}.

Definition canonical (v : Z) : Prop := 0 ≤ v < 2 ^ 47 ∨ 2 ^ 64 - 2 ^ 47 ≤ v < 2 ^ 64.

Class AlignLaws `{AlignOps} := {
  align_down_law a n : 0 < n → (n | align_down_to a n) ∧ align_down_to a n ≤ a < align_down_to a n + n;
  align_up_law a n : 0 < n → a + n < u64_size →
    ∃ r, align_up_to a n = Ret r ∧ (n | r) ∧ r - n < a ≤ r;
  VirtAddr_new_law v : canonical v → VirtAddr_new v = Ret v;
  PhysAddr_new_law a : 0 ≤ a < 2 ^ 52 → PhysAddr_new a = Ret a;
}.

(** [phys::allocate_zeroed(PAGE_LAYOUT)] and dropping a [phys::Allocation]. *)
Class PhysAlloc (A : Type) := {
  phys_allocate : A → option (Z * A);
  phys_free : A → Z → A;
  (* the same for [n] adjacent pages *)
  phys_allocate_n : A → nat → option (Z * A);
  phys_free_n : A → Z → nat → A;
  phys_used : A → gset Z;
}.

(** The frames of an [n]-page allocation. *)
Definition pages_from (f : Z) (n : nat) : list Z :=
  (λ i, f + Z.of_nat i * PAGE_SIZE_BYTES) <$> seq 0 n.

Class PhysAllocLaws `{PhysAlloc A} := {
  phys_allocate_law (a : A) f a' : phys_allocate a = Some (f, a') →
    f ∉ phys_used a ∧ phys_used a' = {[f]} ∪ phys_used a ∧
    0 ≤ f < 2 ^ 52 ∧ (PAGE_SIZE_BYTES | f);
  phys_free_law (a : A) f : phys_used (phys_free a f) = phys_used a ∖ {[f]};
  phys_allocate_n_law (a : A) n f a' : phys_allocate_n a n = Some (f, a') →
    (∀ g, g ∈ pages_from f n → g ∉ phys_used a) ∧
    phys_used a' = list_to_set (pages_from f n) ∪ phys_used a ∧
    0 ≤ f ∧ f + Z.of_nat n * PAGE_SIZE_BYTES ≤ 2 ^ 52 ∧ (PAGE_SIZE_BYTES | f);
  phys_free_n_law (a : A) f n :
    phys_used (phys_free_n a f n) = phys_used a ∖ list_to_set (pages_from f n);
}.

(** ** Slices of process memory *)

Section slices.
Context `{PagingOps} `{!AlignOps} {K P : Type} `{!PageTables K} `{!PageTables P}.

(** [for i in 0..r_size_pages]: [None] is the [?] on an unmapped page. *)
Fixpoint slice_loop (n : nat) (i : Z) (k : K) (p : P) (virt_start r_start flags : Z)
    : outcome (K * bool) :=
  match n with
  | O => Ret (k, true)
  | S n =>
      let r_offset := i * PAGE_SIZE_BYTES in
      proc_frame_start ← VirtAddr_new (r_start + r_offset);
      o ← pt_translate p proc_frame_start;
      match o with
      | None => Ret (k, false)
      | Some phys_addr =>
          k ← pt_map_to k (virt_start + r_offset) phys_addr flags;
          slice_loop n (i + 1) k p virt_start r_start flags
      end
  end.

(** [memory_slice] and [memory_slice_mut], which differ in [flags].  The result is the
    allocation that guards the slice and the address of the slice. *)
Definition memory_slice (flags : Z) (free : list virt.Block) (k : K) (p : P) (ptr len : Z)
    : outcome (list virt.Block * K * option (virt.Allocation * Z)) :=
  let r_start := align_down_to ptr PAGE_SIZE_BYTES in
  e ← add64 ptr len;
  r_end ← align_up_to e PAGE_SIZE_BYTES;
  let r_size_pages := (r_end - r_start) / PAGE_SIZE_BYTES in
  let offset := ptr - r_start in
  '(virtarea, free) ← virt.allocate free r_size_pages;
  '(k, done) ← slice_loop (Z.to_nat r_size_pages) 0 k p (virt.astart virtarea) r_start flags;
  if done : bool then Ret (free, k, Some (virtarea, virt.astart virtarea + offset))
  else
    free ← virt.Allocation_drop free virtarea;
    Ret (free, k, None).

End slices.

(** ** Dynamic memory *)

Section dynamic.
Context `{PagingOps} `{!AlignOps} {P A : Type} `{!PageTables P} `{!PhysAlloc A}.

(** The flags of a mapping, or the error for an unreadable one. *)
Definition protection_flags (flags : Z) : option Z :=
  if negb (Z.land flags MemoryProtectionFlags_READ =? MemoryProtectionFlags_READ) then None
  else
    let pt := PRESENT in
    let pt := if Z.land flags MemoryProtectionFlags_WRITE =? MemoryProtectionFlags_WRITE
              then Z.lor pt WRITABLE else pt in
    Some (if Z.land flags MemoryProtectionFlags_EXECUTE =? MemoryProtectionFlags_EXECUTE
          then pt else Z.lor pt NO_EXECUTE).

(** The process side of an allocation: its page table, [dynamic_memory] and the allocator. *)
Fixpoint alloc_loop (n : nat) (i : Z) (p : P) (dynamic : list Z) (a : A) (area_ptr pt_flags : Z)
    : outcome (P * list Z * A * result unit SyscallErrorCode) :=
  match n with
  | O => Ret (p, dynamic, a, Ok tt)
  | S n =>
      page ← VirtAddr_new (area_ptr + i * PAGE_SIZE_BYTES);
      o ← pt_translate p page;
      match o with
      | Some phys_start =>
          if bool_decide (phys_start ∈ dynamic) then
            p ← pt_map_to p page phys_start pt_flags;
            alloc_loop n (i + 1) p dynamic a area_ptr pt_flags
          else Ret (p, dynamic, a, Err mmap_permission_error)
      | None =>
          match phys_allocate a with
          | None => Ret (p, dynamic, a, Err out_of_memory)
          | Some (f, a) =>
              p ← pt_map_to p page f pt_flags;
              alloc_loop n (i + 1) p (dynamic ++ [f]) a area_ptr pt_flags
          end
      end
  end.

Definition memory_alloc (p : P) (dynamic : list Z) (a : A) (area_ptr size flags : Z)
    : outcome (P * list Z * A * result unit SyscallErrorCode) :=
  if negb (area_ptr mod PAGE_SIZE_BYTES =? 0) then
    Ret (p, dynamic, a, Err mmap_incorrect_alignment)
  else if negb (size mod PAGE_SIZE_BYTES =? 0) then
    Ret (p, dynamic, a, Err mmap_incorrect_alignment)
  else
    match protection_flags flags with
    | None => Ret (p, dynamic, a, Err unsupported)
    | Some pt_flags =>
        alloc_loop (Z.to_nat (size / PAGE_SIZE_BYTES)) 0 p dynamic a area_ptr pt_flags
    end.

Fixpoint dealloc_loop (n : nat) (i : Z) (p : P) (dynamic : list Z) (a : A) (area_ptr : Z)
    : outcome (P * list Z * A * result unit SyscallErrorCode) :=
  match n with
  | O => Ret (p, dynamic, a, Ok tt)
  | S n =>
      page ← VirtAddr_new (area_ptr + i * PAGE_SIZE_BYTES);
      o ← pt_translate p page;
      match o with
      | Some phys_start =>
          let drained := filter (phys_start =.) dynamic in
          let kept := filter (λ b, ¬ phys_start = b) dynamic in
          let a := foldl phys_free a drained in
          if bool_decide (drained = []) then Ret (p, kept, a, Err mmap_permission_error)
          else
            p ← pt_unmap p page;
            dealloc_loop n (i + 1) p kept a area_ptr
      | None => dealloc_loop n (i + 1) p dynamic a area_ptr
      end
  end.

Definition memory_dealloc (p : P) (dynamic : list Z) (a : A) (area_ptr size : Z)
    : outcome (P * list Z * A * result unit SyscallErrorCode) :=
  if negb (area_ptr mod PAGE_SIZE_BYTES =? 0) then
    Ret (p, dynamic, a, Err mmap_incorrect_alignment)
  else if negb (size mod PAGE_SIZE_BYTES =? 0) then
    Ret (p, dynamic, a, Err mmap_incorrect_alignment)
  else dealloc_loop (Z.to_nat (size / PAGE_SIZE_BYTES)) 0 p dynamic a area_ptr.

End dynamic.

(** ** The saved registers on the stack

    The stack lies at [stack_memory] in physical memory. *)

Definition mem_read (mem : gmap Z Z) (a len : Z) : list Z :=
  (λ i, default 0 (mem !! (a + i))) <$> seqZ 0 len.

(** Reading what was written, and around it. *)
Lemma mem_read_write mem a bs :
  mem_read (write_bytes mem a bs) a (Z.of_nat (length bs)) = bs.
Proof.
  apply list_eq. intros i. unfold mem_read. rewrite list_lookup_fmap.
  destruct (decide (i < length bs)%nat) as [Hi|Hi].
  - rewrite lookup_seqZ_lt by lia. cbn. rewrite write_bytes_lookup, decide_True by lia.
    replace (Z.to_nat (a + (0 + Z.of_nat i) - a)) with i by lia.
    by destruct (lookup_lt_is_Some_2 bs i Hi) as [b ->].
  - rewrite lookup_seqZ_ge by lia. cbn. symmetry. apply lookup_ge_None_2. lia.
Qed.

Lemma mem_read_write_ne mem a bs b len :
  b + len ≤ a ∨ a + Z.of_nat (length bs) ≤ b →
  mem_read (write_bytes mem a bs) b len = mem_read mem b len.
Proof.
  intros Hd. unfold mem_read. apply list_fmap_ext. intros i x Hx%lookup_seqZ.
  rewrite write_bytes_lookup, decide_False by lia. done.
Qed.

(** The offset of a saved word, with the bound checks of the slice. *)
Definition stack_item (stack_pointer depth : Z) : outcome Z :=
  top ← vaddr_sub stack_pointer PROCESS_STACK;
  let item := top + depth * 8 in
  _ ← rassert (item + 8 <=? stack_size_bytes) "range end index out of range for slice";
  Ret item.

Definition read_stack_u64 (mem : gmap Z Z) (stack_memory stack_pointer depth : Z) : outcome Z :=
  item ← stack_item stack_pointer depth;
  Ret (wrap64 (from_le (mem_read mem (stack_memory + item) 8))).

Definition write_stack_u64 (mem : gmap Z Z) (stack_memory stack_pointer depth value : Z)
    : outcome (gmap Z Z) :=
  item ← stack_item stack_pointer depth;
  Ret (write_bytes mem (stack_memory + item) (to_le 8 value)).

(** ** Lemmas on slices *)

Section slice_lemmas.
Context `{PagingLaws} `{!AlignOps, !AlignLaws} {K P : Type}
  `{!PageTables K, !PageTablesLaws (T := K)} `{!PageTables P, !PageTablesLaws (T := P)}.

(** Frames a page table may hold. *)
Definition frames_ok (m : gmap Z Z) : Prop :=
  ∀ v f, m !! v = Some f → 0 ≤ f < 2 ^ 52 ∧ (0x1000 | f).

Lemma slice_loop_spec n i (k : K) (p : P) virt_start r_start flags mk mp np r :
  pt_denotes k mk (n + r) → pt_denotes p mp np → frames_ok mp →
  flag_set flags → Z.land flags PRESENT = PRESENT →
  (∀ j, i ≤ j < i + Z.of_nat n → page_ok (virt_start + j * PAGE_SIZE_BYTES) ∧
    page_ok (r_start + j * PAGE_SIZE_BYTES)) →
  ∃ k' mk' b, slice_loop n i k p virt_start r_start flags = Ret (k', b) ∧
    pt_denotes k' mk' r ∧
    (∀ v, (∀ j, i ≤ j < i + Z.of_nat n → v ≠ virt_start + j * PAGE_SIZE_BYTES) →
      mk' !! v = mk !! v) ∧
    (b = true → ∀ j, i ≤ j < i + Z.of_nat n → ∃ f,
      mk' !! (virt_start + j * PAGE_SIZE_BYTES) = Some f ∧
      mp !! (r_start + j * PAGE_SIZE_BYTES) = Some f) ∧
    (b = false → ∃ j, i ≤ j < i + Z.of_nat n ∧ mp !! (r_start + j * PAGE_SIZE_BYTES) = None).
Proof.
  intros Hk Hp Hfr Hfs Hfp. revert i k mk Hk. induction n as [|n IH]; intros i k mk Hk Hpages.
  { exists k, mk, true. split_and!; try done. intros _ j Hj. lia. }
  cbn [slice_loop]. destruct (Hpages i ltac:(lia)) as [Hvp Hrp].
  rewrite VirtAddr_new_law by apply Hrp. cbn [mbind outcome_bind].
  rewrite (pt_translate_law _ _ _ _ Hp Hrp). cbn [mbind outcome_bind].
  destruct (mp !! (r_start + i * PAGE_SIZE_BYTES)) as [f|] eqn:Ef.
  - destruct (Hfr _ _ Ef) as [Hf0 Hf1].
    destruct (pt_map_to_law k mk (n + r) _ f flags Hk Hvp Hf0 Hf1 Hfs Hfp) as (k1 & -> & Hk1).
    cbn [mbind outcome_bind].
    destruct (IH (i + 1) k1 _ Hk1) as (k' & mk' & b & E & Hd & Hother & Ht & Hn).
    { intros j Hj. apply Hpages. lia. }
    exists k', mk', b. split_and!; [done|done| | |].
    + intros v Hv. rewrite Hother by (intros j Hj; apply Hv; lia).
      apply lookup_insert_ne. symmetry. apply Hv. lia.
    + intros Hb j Hj. destruct (decide (j = i)) as [->|Hne]; [|apply Ht; [done|lia]].
      exists f. split; [|done]. rewrite Hother, lookup_insert_eq; [done|].
      intros j Hj'. unfold PAGE_SIZE_BYTES. lia.
    + intros Hb. destruct (Hn Hb) as (j & ? & ?). exists j. split; [lia|done].
  - exists k, mk, false. split_and!; [done| |done|done|].
    + eapply pt_room_law; [done|lia].
    + intros _. exists i. split; [lia|done].
Qed.

(** The physical address of [v] under a mapping. *)
Definition phys_of (m : gmap Z Z) (v : Z) : option Z :=
  (λ f, f + v mod PAGE_SIZE_BYTES) <$> m !! (v - v mod PAGE_SIZE_BYTES).

Lemma phys_of_page m b j x :
  (PAGE_SIZE_BYTES | b) → j * PAGE_SIZE_BYTES ≤ x < (j + 1) * PAGE_SIZE_BYTES →
  phys_of m (b + x) = (λ f, f + (x - j * PAGE_SIZE_BYTES)) <$> m !! (b + j * PAGE_SIZE_BYTES).
Proof.
  intros [q ->] Hx. unfold phys_of.
  assert ((q * PAGE_SIZE_BYTES + x) mod PAGE_SIZE_BYTES = x - j * PAGE_SIZE_BYTES) as ->.
  { symmetry. apply (Z.mod_unique_pos _ _ (q + j)); lia. }
  replace (q * PAGE_SIZE_BYTES + x - (x - j * PAGE_SIZE_BYTES))
    with (q * PAGE_SIZE_BYTES + j * PAGE_SIZE_BYTES) by lia.
  done.
Qed.

(** The pages a slice touches. *)
Definition slice_pages (ptr len : Z) : Z :=
  (align_up (ptr + len) - align_down ptr) / PAGE_SIZE_BYTES.

Lemma align_down_to_eq a : align_down_to a PAGE_SIZE_BYTES = align_down a.
Proof.
  destruct (align_down_law a PAGE_SIZE_BYTES ltac:(done)) as [[q Hq] Hb].
  unfold align_down, PAGE_SIZE_BYTES in *. rewrite Hq in *. Z.to_euclidean_division_equations. lia.
Qed.

Lemma align_up_to_eq a :
  0 ≤ a → a + PAGE_SIZE_BYTES < u64_size → align_up_to a PAGE_SIZE_BYTES = Ret (align_up a).
Proof.
  intros Ha Hm. destruct (align_up_law a PAGE_SIZE_BYTES ltac:(done) Hm) as (r & -> & [q Hq] & Hb).
  f_equal. unfold align_up, PAGE_SIZE_BYTES in *. rewrite Hq in *.
  Z.to_euclidean_division_equations. lia.
Qed.

Lemma slice_pages_spec ptr len :
  0 ≤ ptr → 0 ≤ len → 0 < len ∨ ptr mod PAGE_SIZE_BYTES ≠ 0 →
  0 < slice_pages ptr len ∧
  ptr + len ≤ align_down ptr + slice_pages ptr len * PAGE_SIZE_BYTES < ptr + len + PAGE_SIZE_BYTES ∧
  0 ≤ align_down ptr ≤ ptr.
Proof.
  intros Hp Hl Hne. unfold slice_pages, align_up, align_down, PAGE_SIZE_BYTES in *.
  Z.to_euclidean_division_equations. lia.
Qed.

Lemma alloc_page_ok s j :
  virt.aligned s → virt.START_ADDR ≤ s + j * PAGE_SIZE_BYTES < virt.END_ADDR →
  page_ok (s + j * PAGE_SIZE_BYTES).
Proof.
  intros Hs Hb. split; [apply Z.divide_add_r; [done|apply Z.divide_factor_r]|left].
  unfold virt.START_ADDR, virt.END_ADDR in Hb. lia.
Qed.

Lemma memory_slice_spec flags free live (k : K) (p : P) ptr len mk mp np r :
  virt.va_reach free live → pt_denotes k mk (Z.to_nat (slice_pages ptr len) + r) →
  pt_denotes p mp np → frames_ok mp → flag_set flags → Z.land flags PRESENT = PRESENT →
  0 ≤ ptr → 0 ≤ len → ptr + len + PAGE_SIZE_BYTES ≤ 2 ^ 47 →
  0 < len ∨ ptr mod PAGE_SIZE_BYTES ≠ 0 →
  (∃ b, b ∈ free ∧ slice_pages ptr len ≤ virt.Block_size_pages b) →
  ∃ free' k' mk' o, memory_slice flags free k p ptr len = Ret (free', k', o) ∧
    pt_denotes k' mk' r ∧
    match o with
    | Some (al, start) => virt.va_reach free' (al :: live) ∧
        (∀ x, 0 ≤ x < len → virt.in_alloc al (start + x) ∧
          is_Some (phys_of mk' (start + x)) ∧ phys_of mk' (start + x) = phys_of mp (ptr + x)) ∧
        (∀ v, ¬ virt.in_alloc al v → mk' !! v = mk !! v)
    | None => virt.va_reach free' live ∧
        ∃ v, (PAGE_SIZE_BYTES | v) ∧ align_down ptr ≤ v < ptr + len ∧ mp !! v = None
    end.
Proof.
  intros Hva Hk Hp Hfr Hfs Hfp Hptr Hlen Hmax Hne (b & Hb & Hbn).
  destruct (slice_pages_spec ptr len Hptr Hlen Hne) as (Hn & Hend & Hdown).
  assert (PAGE_SIZE_BYTES = 0x200000) as HP by done.
  unfold memory_slice. rewrite align_down_to_eq.
  rewrite add64_small by (rewrite u64_size_eq; lia). cbn [mbind outcome_bind].
  rewrite align_up_to_eq by (rewrite ?u64_size_eq; lia). cbn [mbind outcome_bind].
  fold (slice_pages ptr len). set (n := slice_pages ptr len) in *.
  pose proof (virt.va_reach_inv _ _ Hva) as Hinv.
  pose proof (virt.allocate_cases free n (virt.va_wf _ _ Hinv) Hn) as Hs.
  destruct (virt.allocate free n) as [[al free1]|] eqn:Ea; [|specialize (Hs b Hb); lia].
  destruct Hs as (_ & Hal & Hae & Hin & _). cbn [mbind outcome_bind].
  pose proof (virt.va_allocate _ _ _ _ _ Hva Hn Ea) as Hva1.
  assert (∀ j, 0 ≤ j < n → page_ok (virt.astart al + j * PAGE_SIZE_BYTES)) as Hpg.
  { intros j Hj. apply alloc_page_ok; [done|]. apply (virt.va_cover _ _ Hinv). left. apply Hin.
    unfold virt.in_alloc. rewrite Hae. lia. }
  destruct (slice_loop_spec (Z.to_nat n) 0 k p (virt.astart al) (align_down ptr) flags mk mp np r)
    as (k' & mk' & d & E & Hd & Hother & Ht & Hf); [done..| |].
  { intros j Hj. split; [apply Hpg; lia|]. split.
    - apply Z.divide_add_r; [by apply Z.divide_factor_l|by apply Z.divide_factor_r].
    - left. nia. }
  rewrite E. cbn [mbind outcome_bind]. destruct d.
  - eexists free1, k', mk', _. split; [done|]. split; [done|]. split_and!; [done| |].
    + intros x Hx. set (y := ptr - align_down ptr + x). set (j := y / PAGE_SIZE_BYTES).
      assert (j * PAGE_SIZE_BYTES ≤ y < (j + 1) * PAGE_SIZE_BYTES) as Hy.
      { subst j. unfold PAGE_SIZE_BYTES in *. Z.to_euclidean_division_equations. lia. }
      destruct (Ht eq_refl j) as (f & Hf1 & Hf2); [subst y; nia|].
      replace (virt.astart al + (ptr - align_down ptr) + x) with (virt.astart al + y) by lia.
      replace (ptr + x) with (align_down ptr + y) by lia.
      rewrite (phys_of_page mk' _ j) by done.
      rewrite (phys_of_page mp _ j) by (done || by apply Z.divide_factor_l).
      rewrite Hf1, Hf2. split_and!; [|by eexists|done].
      unfold virt.in_alloc. rewrite Hae. subst y. lia.
    + intros v Hv. apply Hother. intros j Hj ->. apply Hv. unfold virt.in_alloc. rewrite Hae. nia.
  - destruct (virt.va_drop_spec free1 [] live al) as (free2 & Ed & _).
    { by apply virt.va_reach_inv. }
    rewrite Ed. cbn [mbind outcome_bind]. eexists free2, k', mk', _. split; [done|].
    split; [done|]. split; [by apply (virt.va_drop free1 [] live al)|].
    destruct (Hf eq_refl) as (j & Hj & Hm). eexists. split_and!; [| | |exact Hm].
    + apply Z.divide_add_r; [by apply Z.divide_factor_l|by apply Z.divide_factor_r].
    + lia.
    + nia.
Qed.

(** ** Properties of slices *)

(** The slice the kernel gets of process memory is the memory the process sees: every byte of
    it translates, through the kernel's page table, to the physical address the process's own
    table gives for that byte, and nothing outside the fresh virtual area is remapped.  When a
    page of the range is not mapped the call gives no slice and its area is free again. *)
Theorem memory_slice_exact flags free live (k : K) (p : P) ptr len mk mp np r
    (Hva : virt.va_reach free live)
    (Hk : pt_denotes k mk (Z.to_nat (slice_pages ptr len) + r))
    (Hp : pt_denotes p mp np) (Hfr : frames_ok mp)
    (Hfs : flag_set flags) (Hfp : Z.land flags PRESENT = PRESENT)
    (Hptr : 0 ≤ ptr) (Hlen : 0 ≤ len) (Hmax : ptr + len + PAGE_SIZE_BYTES ≤ 2 ^ 47)
    (Hne : 0 < len ∨ ptr mod PAGE_SIZE_BYTES ≠ 0)
    (Hroom : ∃ b, b ∈ free ∧ slice_pages ptr len ≤ virt.Block_size_pages b) :
  ∃ free' k' mk' o, memory_slice flags free k p ptr len = Ret (free', k', o) ∧
    pt_denotes k' mk' r ∧
    match o with
    | Some (al, start) => virt.va_reach free' (al :: live) ∧
        (∀ x, 0 ≤ x < len → virt.in_alloc al (start + x) ∧
          is_Some (phys_of mk' (start + x)) ∧ phys_of mk' (start + x) = phys_of mp (ptr + x)) ∧
        (∀ v, ¬ virt.in_alloc al v → mk' !! v = mk !! v)
    | None => virt.va_reach free' live ∧
        ∃ v, (PAGE_SIZE_BYTES | v) ∧ align_down ptr ≤ v < ptr + len ∧ mp !! v = None
    end.
Proof. by eapply memory_slice_spec. Qed.

End slice_lemmas.

(** ** Lemmas on dynamic memory *)

Section dynamic_lemmas.
Context `{PagingLaws} `{!AlignOps, !AlignLaws} {P A : Type} `{!PageTables P, !PageTablesLaws (T := P)}
  `{!PhysAlloc A, !PhysAllocLaws (A := A)}.

(** Every mapped frame is allocated, and a dynamic frame is mapped once. *)
Record mem_inv (m : gmap Z Z) (dynamic : list Z) (a : A) : Prop := {
  mi_frames : frames_ok m;
  mi_used v f : m !! v = Some f → f ∈ phys_used a;
  mi_dyn f : f ∈ dynamic → f ∈ phys_used a;
  mi_once v w f : f ∈ dynamic → m !! v = Some f → m !! w = Some f → v = w;
}.

(** Mappings the process does not own are kept. *)
Definition protects (m : gmap Z Z) (dynamic : list Z) (m' : gmap Z Z) (dynamic' : list Z) : Prop :=
  ∀ v f, m !! v = Some f → f ∉ dynamic → m' !! v = Some f ∧ f ∉ dynamic'.

Lemma protects_refl m d : protects m d m d.
Proof. done. Qed.

Lemma protects_trans m1 d1 m2 d2 m3 d3 :
  protects m1 d1 m2 d2 → protects m2 d2 m3 d3 → protects m1 d1 m3 d3.
Proof. intros Hp Hq v f Hv Hf. destruct (Hp v f Hv Hf). by apply Hq. Qed.

Lemma mem_inv_alloc m d a f a' page :
  mem_inv m d a → m !! page = None → phys_allocate a = Some (f, a') →
  mem_inv (<[page := f]> m) (d ++ [f]) a' ∧ protects m d (<[page := f]> m) (d ++ [f]).
Proof.
  intros [Hfr Hu Hd Ho] Hp Ha. destruct (phys_allocate_law a f a' Ha) as (Hnew & Hused & Hf0 & Hf1).
  split; [split|].
  - intros v g [[<- <-]|[? Hv]]%lookup_insert_Some; [|by eapply Hfr].
    split; [done|]. eapply Z.divide_trans; [|done]. by exists 0x200.
  - intros v g [[<- <-]|[? Hv]]%lookup_insert_Some; rewrite Hused; [set_solver|].
    apply Hu in Hv. set_solver.
  - intros g [Hg| ->%list_elem_of_singleton]%elem_of_app; rewrite Hused; [|set_solver].
    apply Hd in Hg. set_solver.
  - intros v w g Hg Hv Hw.
    apply lookup_insert_Some in Hv, Hw.
    destruct Hv as [[<- <-]|[Hv0 Hv]], Hw as [[? Hw]|[Hw0 Hw]].
    + done.
    + by apply Hu in Hw.
    + subst. by apply Hu in Hv.
    + apply elem_of_app in Hg as [Hg|Hg]; [by eapply Ho|].
      apply list_elem_of_singleton in Hg as ->. by apply Hu in Hv.
  - intros v g Hv Hg. split.
    + rewrite lookup_insert_ne; [done|]. intros ->. congruence.
    + intros [?|Heq%list_elem_of_singleton]%elem_of_app; [done|]. subst. by apply Hu in Hv.
Qed.

Lemma phys_free_all (d : list Z) (a : A) :
  phys_used (foldl phys_free a d) = phys_used a ∖ list_to_set d.
Proof.
  revert a. induction d as [|f d IH]; intros a; cbn [foldl list_to_set].
  - set_solver.
  - rewrite IH, phys_free_law. set_solver.
Qed.

Lemma mem_inv_dealloc m d a f page :
  mem_inv m d a → m !! page = Some f → f ∈ d →
  mem_inv (delete page m) (filter (λ b, ¬ f = b) d) (foldl phys_free a (filter (f =.) d)) ∧
  protects m d (delete page m) (filter (λ b, ¬ f = b) d).
Proof.
  intros [Hfr Hu Hd Ho] Hp Hf.
  assert (∀ g, g ∈ phys_used (foldl phys_free a (filter (f =.) d)) ↔ g ∈ phys_used a ∧ f ≠ g) as Hus.
  { intros g. rewrite phys_free_all, elem_of_difference, elem_of_list_to_set, list_elem_of_filter.
    split; [intros [? Hn]; split; [done|]; intros ->; by apply Hn|].
    intros [? Hne]. split; [done|]. by intros [? _]. }
  split; [split|].
  - intros v g [_ Hv]%lookup_delete_Some. by eapply Hfr.
  - intros v g [Hne Hv]%lookup_delete_Some. apply Hus. split; [by eapply Hu|].
    intros <-. apply Hne. by eapply Ho.
  - intros g [Hne Hg]%list_elem_of_filter. apply Hus. split; [by apply Hd|done].
  - intros v w g [_ Hg]%list_elem_of_filter [_ Hv]%lookup_delete_Some [_ Hw]%lookup_delete_Some.
    by eapply Ho.
  - intros v g Hv Hg. split.
    + apply lookup_delete_Some. split; [|done]. intros ->. congruence.
    + rewrite list_elem_of_filter. naive_solver.
Qed.

Definition area_page (area_ptr j : Z) : Z := area_ptr + j * PAGE_SIZE_BYTES.

Lemma area_page_inj area j j' : area_page area j = area_page area j' → j = j'.
Proof. unfold area_page, PAGE_SIZE_BYTES. lia. Qed.

(** What a call leaves behind: the invariant, and every mapping outside its pages. *)
Record mem_step (area : Z) (i n : Z) (m : gmap Z Z) (d : list Z) (m' : gmap Z Z) (d' : list Z)
    (a' : A) : Prop := {
  ms_inv : mem_inv m' d' a';
  ms_protects : protects m d m' d';
  ms_outside v : (∀ j, i ≤ j < i + n → v ≠ area_page area j) → m' !! v = m !! v;
}.

Lemma mem_step_cons area i n m d m1 d1 m' d' a' :
  0 ≤ n → protects m d m1 d1 → (∀ v, v ≠ area_page area i → m1 !! v = m !! v) →
  mem_step area (i + 1) n m1 d1 m' d' a' → mem_step area i (n + 1) m d m' d' a'.
Proof.
  intros Hn Hp Ho [Hi Hp' Ho']. split; [done|by eapply protects_trans|].
  intros v Hv. rewrite Ho' by (intros j Hj; apply Hv; lia). apply Ho, Hv. lia.
Qed.

(** One round of the allocation loop: it goes on with the page mapped, or stops. *)
Lemma alloc_round n i (p : P) m d (a : A) area flags k :
  pt_denotes p m (S k) → mem_inv m d a → flag_set flags → Z.land flags PRESENT = PRESENT →
  page_ok (area_page area i) →
  (∃ p1 m1 d1 a1 f, alloc_loop (S n) i p d a area flags = alloc_loop n (i + 1) p1 d1 a1 area flags ∧
    pt_denotes p1 m1 k ∧ mem_inv m1 d1 a1 ∧ protects m d m1 d1 ∧ m ⊆ m1 ∧
    (∀ v, v ≠ area_page area i → m1 !! v = m !! v) ∧ (∀ g, g ∈ d → g ∈ d1) ∧
    (∀ v g, v ≠ area_page area i → m !! v = Some g → g ∉ d1 → g ∉ d) ∧
    m1 !! area_page area i = Some f ∧ f ∈ d1) ∨
  alloc_loop (S n) i p d a area flags = Ret (p, d, a, Err out_of_memory) ∨
  alloc_loop (S n) i p d a area flags = Ret (p, d, a, Err mmap_permission_error) ∧
    ∃ f, m !! area_page area i = Some f ∧ f ∉ d.
Proof.
  intros Hd Hinv Hfs Hfp Hpg. cbn [alloc_loop]. fold (area_page area i).
  rewrite VirtAddr_new_law by apply Hpg. cbn [mbind outcome_bind].
  rewrite (pt_translate_law _ _ _ _ Hd Hpg). cbn [mbind outcome_bind].
  destruct (m !! area_page area i) as [f|] eqn:Ef.
  - case_bool_decide as Hdyn; [left|by right; right; eauto].
    destruct (mi_frames _ _ _ Hinv _ _ Ef) as [Hf0 Hf1].
    destruct (pt_map_to_law p m k _ f flags Hd Hpg Hf0 Hf1 Hfs Hfp) as (p1 & -> & Hd1).
    rewrite insert_id in Hd1 by done. by exists p1, m, d, a, f.
  - destruct (phys_allocate a) as [[f a1]|] eqn:Ea; [left|by right; left].
    destruct (mem_inv_alloc m d a f a1 _ Hinv Ef Ea) as [Hinv1 Hp1].
    destruct (phys_allocate_law a f a1 Ea) as (_ & _ & Hf0 & Hf1).
    assert (0x1000 | f) as Hf2 by (eapply Z.divide_trans; [|done]; by exists 0x200).
    destruct (pt_map_to_law p m k _ f flags Hd Hpg Hf0 Hf2 Hfs Hfp) as (p1 & -> & Hd1).
    exists p1, (<[area_page area i := f]> m), (d ++ [f]), a1, f.
    split_and!; try done; [by apply insert_subseteq| | | | |].
    + intros v Hv. by apply lookup_insert_ne.
    + set_solver.
    + set_solver.
    + apply lookup_insert_eq.
    + set_solver.
Qed.

Lemma alloc_loop_spec n i (p : P) m d (a : A) area flags r :
  pt_denotes p m (n + r) → mem_inv m d a → flag_set flags → Z.land flags PRESENT = PRESENT →
  (∀ j, i ≤ j < i + Z.of_nat n → page_ok (area_page area j)) →
  ∃ p' d' a' res m', alloc_loop n i p d a area flags = Ret (p', d', a', res) ∧
    pt_denotes p' m' r ∧ mem_step area i (Z.of_nat n) m d m' d' a' ∧ m ⊆ m' ∧
    (∀ f, f ∈ d → f ∈ d') ∧
    match res with
    | Ok _ => ∀ j, i ≤ j < i + Z.of_nat n → ∃ f, m' !! area_page area j = Some f ∧ f ∈ d'
    | Err e => e = out_of_memory ∨ e = mmap_permission_error ∧
        ∃ j f, i ≤ j < i + Z.of_nat n ∧ m !! area_page area j = Some f ∧ f ∉ d
    end.
Proof.
  intros Hd Hinv Hfs Hfp. revert i p m d a Hd Hinv. induction n as [|n IH];
    intros i p m d a Hd Hinv Hpages.
  { exists p, d, a, (Ok tt), m. split_and!; try done. intros j Hj. lia. }
  assert (pt_denotes p m r) as Hd0 by (eapply pt_room_law; [done|lia]).
  assert (mem_step area i (Z.of_nat (S n)) m d m d a) as Hstay.
  { split; [done|apply protects_refl|done]. }
  destruct (alloc_round n i p m d a area flags (n + r) Hd Hinv Hfs Hfp) as
    [(p1 & m1 & d1 & a1 & f & -> & Hd1 & Hinv1 & Hp1 & Hs1 & Ho1 & Hdd1 & Hnd1 & Hf1 & Hf2)
    |[->|[-> (f & Hf1 & Hf2)]]]; [apply Hpages; lia| | |].
  - destruct (IH (i + 1) p1 m1 d1 a1 Hd1 Hinv1)
      as (p' & d' & a' & res & m' & E & Hd' & Hst & Hsub & Hdd & Hres).
    { intros j Hj. apply Hpages. lia. }
    exists p', d', a', res, m'. split_and!; [done|done| |by etrans|by auto|].
    + replace (Z.of_nat (S n)) with (Z.of_nat n + 1) by lia. by eapply mem_step_cons; [lia|..].
    + destruct res as [?|e].
      * intros j Hj. destruct (decide (j = i)) as [->|]; [|apply Hres; lia].
        exists f. split; [by eapply lookup_weaken|by apply Hdd].
      * destruct Hres as [?|(? & j & g & Hj & Hg & Hgd)]; [by left|right].
        assert (area_page area j ≠ area_page area i) as Hne by (intros ?%area_page_inj; lia).
        rewrite Ho1 in Hg by done. split; [done|]. exists j, g. split; [lia|]. eauto.
  - exists p, d, a, (Err out_of_memory), m. split_and!; try done. by left.
  - exists p, d, a, (Err mmap_permission_error), m. split_and!; try done.
    right. split; [done|]. exists i, f. split; [lia|done].
Qed.

(** One round of the deallocation loop on a mapped page. *)
Lemma dealloc_round n i (p : P) m d (a : A) area r f :
  pt_denotes p m r → mem_inv m d a → page_ok (area_page area i) →
  m !! area_page area i = Some f →
  (f ∈ d ∧ ∃ p1 d1 a1, dealloc_loop (S n) i p d a area = dealloc_loop n (i + 1) p1 d1 a1 area ∧
    pt_denotes p1 (delete (area_page area i) m) r ∧
    mem_inv (delete (area_page area i) m) d1 a1 ∧
    protects m d (delete (area_page area i) m) d1 ∧ f ∉ phys_used a1 ∧
    phys_used a1 ⊆ phys_used a ∧ (∀ g, g ∈ d → g ≠ f → g ∈ d1)) ∨
  (f ∉ d ∧ dealloc_loop (S n) i p d a area = Ret (p, d, a, Err mmap_permission_error)).
Proof.
  intros Hd Hinv Hpg Ef. cbn [dealloc_loop]. fold (area_page area i).
  rewrite VirtAddr_new_law by apply Hpg. cbn [mbind outcome_bind].
  rewrite (pt_translate_law _ _ _ _ Hd Hpg). cbn [mbind outcome_bind]. rewrite Ef.
  destruct (decide (f ∈ d)) as [Hf|Hf]; [left|right]; (split; [done|]).
  - rewrite bool_decide_false.
    2:{ intros E. assert (f ∈ filter (f =.) d) as Hin by (by apply list_elem_of_filter).
        rewrite E in Hin. by apply not_elem_of_nil in Hin. }
    destruct (pt_unmap_law p m r _ Hd Hpg ltac:(by eexists)) as (p1 & -> & Hd1).
    destruct (mem_inv_dealloc m d a f _ Hinv Ef Hf) as [Hinv1 Hp1].
    eexists p1, _, _. split; [done|]. split_and!; try done.
    + rewrite phys_free_all. intros [_ Hn]%elem_of_difference. apply Hn.
      apply elem_of_list_to_set, list_elem_of_filter. done.
    + rewrite phys_free_all. set_solver.
    + intros g ? ?. apply list_elem_of_filter. naive_solver.
  - assert (filter (f =.) d = []) as ->.
    { apply filter_none. intros g Hg <-. done. }
    rewrite bool_decide_true by done. cbn [foldl].
    rewrite filter_all; [done|]. intros g Hg <-. done.
Qed.

Lemma dealloc_loop_spec n i (p : P) m d (a : A) area r :
  pt_denotes p m r → mem_inv m d a →
  (∀ j, i ≤ j < i + Z.of_nat n → page_ok (area_page area j)) →
  ∃ p' d' a' res m', dealloc_loop n i p d a area = Ret (p', d', a', res) ∧
    pt_denotes p' m' r ∧ mem_step area i (Z.of_nat n) m d m' d' a' ∧ m' ⊆ m ∧
    phys_used a' ⊆ phys_used a ∧
    match res with
    | Ok _ => (∀ j, i ≤ j < i + Z.of_nat n → m' !! area_page area j = None) ∧
        (∀ j f, i ≤ j < i + Z.of_nat n → m !! area_page area j = Some f → f ∉ phys_used a')
    | Err e => e = mmap_permission_error ∧
        ∃ j f, i ≤ j < i + Z.of_nat n ∧ m !! area_page area j = Some f ∧ f ∉ d
    end.
Proof.
  intros Hd Hinv. revert i p m d a Hd Hinv. induction n as [|n IH]; intros i p m d a Hd Hinv Hpages.
  { exists p, d, a, (Ok tt), m. split_and!; try done; intros; lia. }
  pose proof (Hpages i ltac:(lia)) as Hpg.
  assert (∀ j, i + 1 ≤ j < i + 1 + Z.of_nat n → page_ok (area_page area j)) as Hpages1.
  { intros j Hj. apply Hpages. lia. }
  assert (∀ j, i + 1 ≤ j → area_page area j ≠ area_page area i) as Hne.
  { intros j Hj ?%area_page_inj. lia. }
  replace (Z.of_nat (S n)) with (Z.of_nat n + 1) by lia.
  destruct (m !! area_page area i) as [f|] eqn:Ef.
  - destruct (dealloc_round n i p m d a area r f Hd Hinv Hpg Ef) as
      [(Hf & p1 & d1 & a1 & -> & Hd1 & Hinv1 & Hp1 & Hfu & Hus & Hdd)|[Hf ->]].
    + destruct (IH (i + 1) p1 _ d1 a1 Hd1 Hinv1 Hpages1)
        as (p' & d' & a' & res & m' & E & Hd' & Hst & Hsub & Hus' & Hres).
      exists p', d', a', res, m'. split_and!; [done|done| | |set_solver|].
      * eapply mem_step_cons; [lia|done| |done]. intros v Hv. by apply lookup_delete_ne.
      * etrans; [done|apply delete_subseteq].
      * destruct res as [?|e].
        -- destruct Hres as [Hn Hu]. split.
           ++ intros j Hj. destruct (decide (j = i)) as [->|]; [|apply Hn; lia].
              rewrite (ms_outside _ _ _ _ _ _ _ _ Hst); [apply lookup_delete_eq|].
              intros j' Hj'. symmetry. apply Hne. lia.
           ++ intros j g Hj Hg. destruct (decide (j = i)) as [->|].
              { rewrite Ef in Hg. injection Hg as <-. intros Hin. by apply Hfu, Hus'. }
              apply (Hu j); [lia|]. by rewrite lookup_delete_ne by (symmetry; apply Hne; lia).
        -- destruct Hres as (-> & j & g & Hj & Hg & Hgd). split; [done|].
           exists j, g. apply lookup_delete_Some in Hg as [_ Hg]. split_and!; [lia|lia|done|].
           intros Hin. apply Hgd, Hdd; [done|]. intros ->.
           apply (Hne j); [lia|]. exact (mi_once _ _ _ Hinv _ _ _ Hf Hg Ef).
    + exists p, d, a, (Err mmap_permission_error), m. split_and!; try done.
      exists i, f. split; [lia|done].
  - cbn [dealloc_loop]. fold (area_page area i).
  rewrite VirtAddr_new_law by apply Hpg. cbn [mbind outcome_bind].
    rewrite (pt_translate_law _ _ _ _ Hd Hpg). cbn [mbind outcome_bind]. rewrite Ef.
    destruct (IH (i + 1) p m d a Hd Hinv Hpages1)
      as (p' & d' & a' & res & m' & E & Hd' & Hst & Hsub & Hus' & Hres).
    exists p', d', a', res, m'. split_and!; [done|done| |done|done|].
    + by eapply mem_step_cons; [lia|apply protects_refl|done|].
    + destruct res as [?|e].
      * destruct Hres as [Hn Hu]. split; intros j; [intros Hj|intros g Hj Hg];
          (destruct (decide (j = i)) as [->|]; [|by eapply Hn || eapply Hu; eauto; lia]).
        -- rewrite (ms_outside _ _ _ _ _ _ _ _ Hst); [done|].
           intros j' Hj'. symmetry. apply Hne. lia.
        -- congruence.
      * destruct Hres as (-> & j & g & Hj & Hg & Hgd). split; [done|]. exists j, g.
        split; [lia|done].
Qed.

Lemma protection_flags_ok flags pt :
  protection_flags flags = Some pt → flag_set pt ∧ Z.land pt PRESENT = PRESENT.
Proof.
  destruct flag_set_bits as (Hp & Hw & _ & Hx). unfold protection_flags.
  destruct (negb _); [done|]. intros [= <-].
  assert (∀ f, flag_set f ∧ Z.land f PRESENT = PRESENT → ∀ g, flag_set g →
    flag_set (Z.lor f g) ∧ Z.land (Z.lor f g) PRESENT = PRESENT) as Hlor.
  { intros f [Hf Hfp] g Hg. split; [by apply flag_set_lor|by apply land_lor_has]. }
  assert (flag_set PRESENT ∧ Z.land PRESENT PRESENT = PRESENT) as Hpp by (split; [done|apply Z.land_diag]).
  destruct (_ =? MemoryProtectionFlags_WRITE), (_ =? MemoryProtectionFlags_EXECUTE); auto.
Qed.

(** A range of user addresses. *)
Definition area_ok (area_ptr size : Z) : Prop :=
  0 ≤ area_ptr ∧ 0 ≤ size ∧ area_ptr + size ≤ 2 ^ 47.

Lemma area_pages_ok area_ptr size :
  area_ok area_ptr size → area_ptr mod PAGE_SIZE_BYTES = 0 → size mod PAGE_SIZE_BYTES = 0 →
  ∀ j, 0 ≤ j < 0 + Z.of_nat (Z.to_nat (size / PAGE_SIZE_BYTES)) → page_ok (area_page area_ptr j).
Proof.
  intros (Hp & Hs & Hm) Ha Hz j Hj. split.
  - apply Z.divide_add_r; [by apply Z.mod_divide|apply Z.divide_factor_r].
  - left. unfold area_page, PAGE_SIZE_BYTES in *. Z.to_euclidean_division_equations. lia.
Qed.

(** ** Properties of dynamic memory *)

Inductive mem_call := CAlloc (area_ptr size flags : Z) | CDealloc (area_ptr size : Z).

Definition mem_run (c : mem_call) (p : P) (d : list Z) (a : A)
    : outcome (P * list Z * A * result unit SyscallErrorCode) :=
  match c with
  | CAlloc area_ptr size flags => memory_alloc p d a area_ptr size flags
  | CDealloc area_ptr size => memory_dealloc p d a area_ptr size
  end.

Fixpoint mem_runs (cs : list mem_call) (p : P) (d : list Z) (a : A) : outcome (P * list Z * A) :=
  match cs with
  | [] => Ret (p, d, a)
  | c :: cs => '(p, d, a, _) ← mem_run c p d a; mem_runs cs p d a
  end.

Definition call_area (c : mem_call) : Z * Z :=
  match c with CAlloc p s _ => (p, s) | CDealloc p s => (p, s) end.

(** A call whose area is aligned names user addresses. *)
Definition call_ok (c : mem_call) : Prop :=
  (call_area c).1 mod PAGE_SIZE_BYTES = 0 → (call_area c).2 mod PAGE_SIZE_BYTES = 0 →
  area_ok (call_area c).1 (call_area c).2.

(** Pages the calls may map. *)
Definition call_pages (c : mem_call) : nat := Z.to_nat ((call_area c).2 / PAGE_SIZE_BYTES).
Definition calls_pages (cs : list mem_call) : nat := sum_list_with call_pages cs.

Lemma mem_run_spec c (p : P) m d (a : A) r :
  pt_denotes p m (call_pages c + r) → mem_inv m d a → call_ok c →
  ∃ p' d' a' res m', mem_run c p d a = Ret (p', d', a', res) ∧ pt_denotes p' m' r ∧
    mem_inv m' d' a' ∧ protects m d m' d'.
Proof.
  intros Hd Hinv Har.
  assert (pt_denotes p m r) as Hd0 by (eapply pt_room_law; [done|lia]).
  assert (∀ e, ∃ p' d' a' res m', Ret (p, d, a, Err e : result unit SyscallErrorCode) =
    Ret (p', d', a', res) ∧ pt_denotes p' m' r ∧ mem_inv m' d' a' ∧ protects m d m' d') as Hstay.
  { intros e. by exists p, d, a, (Err e), m. }
  unfold call_ok in Har. destruct c as [area size flags|area size]; cbn [mem_run call_area fst snd] in *.
  - unfold memory_alloc. destruct (Z.eqb_spec (area mod PAGE_SIZE_BYTES) 0) as [Ha|]; [|apply Hstay].
    destruct (Z.eqb_spec (size mod PAGE_SIZE_BYTES) 0) as [Hs|]; [|apply Hstay]. specialize (Har Ha Hs). cbn [negb].
    destruct (protection_flags flags) as [pt|] eqn:Ep; [|apply Hstay].
    apply protection_flags_ok in Ep as [? ?].
    destruct (alloc_loop_spec (Z.to_nat (size / PAGE_SIZE_BYTES)) 0 p m d a area pt r)
      as (p' & d' & a' & res & m' & E & ? & [? ? _] & _); [done..|by apply area_pages_ok|].
    by exists p', d', a', res, m'.
  - unfold memory_dealloc.
    destruct (Z.eqb_spec (area mod PAGE_SIZE_BYTES) 0) as [Ha|]; [|apply Hstay].
    destruct (Z.eqb_spec (size mod PAGE_SIZE_BYTES) 0) as [Hs|]; [|apply Hstay]. specialize (Har Ha Hs). cbn [negb].
    destruct (dealloc_loop_spec (Z.to_nat (size / PAGE_SIZE_BYTES)) 0 p m d a area r)
      as (p' & d' & a' & res & m' & E & ? & [? ? _] & _); [done..|by apply area_pages_ok|].
    by exists p', d', a', res, m'.
Qed.

(** C25: over any sequence of memory calls of a process in which the page-aligned areas lie in the
    user half of the address space, and as long as the area of its page tables has room for the
    tables of all pages asked for, the kernel does not panic, every frame mapped into the process
    stays an allocated frame, and mappings the process did not create (its code, its stack, kernel
    structures) are never changed or taken over.  Areas that are not aligned may be anywhere: they
    are refused.  An aligned area outside the user half can panic the kernel
    ([noncanonical_alloc_panics]). *)
Theorem dynamic_memory_safe (cs : list mem_call) (p : P) m d (a : A) r
    (Hd : pt_denotes p m (calls_pages cs + r)) (Hinv : mem_inv m d a)
    (Hcs : Forall call_ok cs) :
  ∃ p' d' a' m', mem_runs cs p d a = Ret (p', d', a') ∧ pt_denotes p' m' r ∧
    mem_inv m' d' a' ∧ protects m d m' d'.
Proof.
  revert p m d a Hd Hinv. induction Hcs as [|c cs Hc _ IH]; intros p m d a Hd Hinv.
  { by exists p, d, a, m. }
  cbn [mem_runs calls_pages sum_list_with] in *.
  destruct (mem_run_spec c p m d a (calls_pages cs + r)) as (p1 & d1 & a1 & res & m1 & -> & Hd1 & Hi1 & Hp1);
    [by rewrite Nat.add_assoc|done|done|]. cbn [mbind outcome_bind].
  destruct (IH p1 m1 d1 a1 Hd1 Hi1) as (p' & d' & a' & m' & E & ? & ? & Hp').
  exists p', d', a', m'. split_and!; [done|done|done|by eapply protects_trans].
Qed.

(** [memory_alloc] maps every page of a well-aligned area to a frame the process owns,
    keeps all existing mappings, and fails only for want of memory or because a page of the area
    belongs to a mapping that is not the process's own. *)
Theorem memory_alloc_exact (p : P) m d (a : A) area size flags pt r
    (Hd : pt_denotes p m (Z.to_nat (size / PAGE_SIZE_BYTES) + r)) (Hinv : mem_inv m d a)
    (Har : area_ok area size) (Ha : area mod PAGE_SIZE_BYTES = 0)
    (Hs : size mod PAGE_SIZE_BYTES = 0) (Hfl : protection_flags flags = Some pt) :
  ∃ p' d' a' res m', memory_alloc p d a area size flags = Ret (p', d', a', res) ∧
    pt_denotes p' m' r ∧ m ⊆ m' ∧
    (∀ v, (∀ j, 0 ≤ j < size / PAGE_SIZE_BYTES → v ≠ area_page area j) → m' !! v = m !! v) ∧
    match res with
    | Ok _ => ∀ j, 0 ≤ j < size / PAGE_SIZE_BYTES → ∃ f, m' !! area_page area j = Some f ∧ f ∈ d'
    | Err e => e = out_of_memory ∨ e = mmap_permission_error ∧
        ∃ j f, 0 ≤ j < size / PAGE_SIZE_BYTES ∧ m !! area_page area j = Some f ∧ f ∉ d
    end.
Proof.
  unfold memory_alloc. rewrite Ha, Hs, Hfl. cbn [negb Z.eqb].
  pose proof (protection_flags_ok _ _ Hfl) as [? ?].
  destruct (alloc_loop_spec (Z.to_nat (size / PAGE_SIZE_BYTES)) 0 p m d a area pt r)
    as (p' & d' & a' & res & m' & E & ? & [_ _ Ho] & ? & _ & Hres); [done..|by apply area_pages_ok|].
  assert (Z.of_nat (Z.to_nat (size / PAGE_SIZE_BYTES)) = size / PAGE_SIZE_BYTES) as Hz.
  { apply Z2Nat.id, Z.div_pos; [apply Har|done]. }
  rewrite Hz in *. exists p', d', a', res, m'. done.
Qed.

(** [memory_dealloc] unmaps every page of the area and returns its frames to the allocator,
    leaving all other mappings alone; it stops with an error only at a page the process does not
    own. *)
Theorem memory_dealloc_exact (p : P) m d (a : A) area size r
    (Hd : pt_denotes p m r) (Hinv : mem_inv m d a)
    (Har : area_ok area size) (Ha : area mod PAGE_SIZE_BYTES = 0)
    (Hs : size mod PAGE_SIZE_BYTES = 0) :
  ∃ p' d' a' res m', memory_dealloc p d a area size = Ret (p', d', a', res) ∧
    pt_denotes p' m' r ∧ m' ⊆ m ∧
    (∀ v, (∀ j, 0 ≤ j < size / PAGE_SIZE_BYTES → v ≠ area_page area j) → m' !! v = m !! v) ∧
    match res with
    | Ok _ => (∀ j, 0 ≤ j < size / PAGE_SIZE_BYTES → m' !! area_page area j = None) ∧
        (∀ j f, 0 ≤ j < size / PAGE_SIZE_BYTES → m !! area_page area j = Some f →
          f ∉ phys_used a')
    | Err e => e = mmap_permission_error ∧
        ∃ j f, 0 ≤ j < size / PAGE_SIZE_BYTES ∧ m !! area_page area j = Some f ∧ f ∉ d
    end.
Proof.
  unfold memory_dealloc. rewrite Ha, Hs. cbn [negb Z.eqb].
  destruct (dealloc_loop_spec (Z.to_nat (size / PAGE_SIZE_BYTES)) 0 p m d a area r)
    as (p' & d' & a' & res & m' & E & ? & [_ _ Ho] & ? & _ & Hres); [done..|by apply area_pages_ok|].
  assert (Z.of_nat (Z.to_nat (size / PAGE_SIZE_BYTES)) = size / PAGE_SIZE_BYTES) as Hz.
  { apply Z2Nat.id, Z.div_pos; [apply Har|done]. }
  rewrite Hz in *. exists p', d', a', res, m'. done.
Qed.

End dynamic_lemmas.

(** ** Concrete instances *)

#[global] Instance amd64_align : AlignOps := {
  align_down_to a n := a - a mod n;
  align_up_to a n := if a mod n =? 0 then Ret a else add64 (a - a mod n) n;
  VirtAddr_new v :=
    if (0 <=? v) && (v <? 2 ^ 47) || (2 ^ 64 - 2 ^ 47 <=? v) && (v <? 2 ^ 64) then Ret v
    else Panic "address passed to VirtAddr::new must not contain any data in bits 48 to 64";
  PhysAddr_new a := if (0 <=? a) && (a <? 2 ^ 52) then Ret a
    else Panic "physical addresses must not have any bits in the range 52 to 64 set";
}.

#[global] Instance amd64_align_laws : AlignLaws.
Proof.
  split; cbn.
  - intros a n Hn. pose proof (Z.mod_pos_bound a n Hn). pose proof (Z.div_mod a n ltac:(lia)).
    split; [exists (a / n)|]; lia.
  - intros a n Hn Hb. pose proof (Z.mod_pos_bound a n Hn). pose proof (Z.div_mod a n ltac:(lia)).
    destruct (Z.eqb_spec (a mod n) 0).
    + exists a. split_and!; [done|exists (a / n); lia|lia|lia].
    + rewrite add64_small by lia. eexists. split_and!; [done|exists (a / n + 1); lia|lia|lia].
  - intros v [Hv|Hv].
    + by rewrite (proj2 (Z.leb_le 0 v)), (proj2 (Z.ltb_lt v (2 ^ 47))) by lia.
    + by rewrite (proj2 (Z.leb_le (2 ^ 64 - 2 ^ 47) v)), (proj2 (Z.ltb_lt v (2 ^ 64))), orb_true_r
        by lia.
  - intros a Ha. by rewrite (proj2 (Z.leb_le _ _)), (proj2 (Z.ltb_lt _ _)) by lia.
Qed.

(** An allocator that returns the lowest of 64 frames not in use. *)
#[global] Instance set_alloc : PhysAlloc (gset Z) := {
  phys_allocate s :=
    f ← list_find (.∉ s) ((λ k, Z.of_nat k * PAGE_SIZE_BYTES) <$> seq 8 64);
    Some (f.2, {[f.2]} ∪ s);
  phys_free s f := s ∖ {[f]};
  phys_allocate_n s n :=
    f ← list_find (λ f, Forall (.∉ s) (pages_from f n))
      ((λ k, Z.of_nat k * PAGE_SIZE_BYTES) <$> seq 8 64);
    if decide (n ≤ 64)%nat then Some (f.2, list_to_set (pages_from f.2 n) ∪ s) else None;
  phys_free_n s f n := s ∖ list_to_set (pages_from f n);
  phys_used s := s;
}.

#[global] Instance set_alloc_laws : PhysAllocLaws (A := gset Z).
Proof.
  split; cbn [phys_allocate phys_free phys_allocate_n phys_free_n phys_used set_alloc].
  - intros s f s' Ha. apply bind_Some in Ha as ([k g] & Hf & [= <- <-]).
    apply list_find_Some in Hf as (Hg & Hns & _). cbn.
    apply list_lookup_fmap_Some in Hg as (j & -> & Hj). apply lookup_seq in Hj as [-> Hj].
    unfold PAGE_SIZE_BYTES. split_and!; [done|done|lia|lia|].
    exists (Z.of_nat (8 + k)). done.
  - done.
  - intros s n f s' Ha. apply bind_Some in Ha as ([k g] & Hf & Hd).
    destruct (decide (n ≤ 64)%nat) as [Hn|]; [|done]. injection Hd as <- <-.
    apply list_find_Some in Hf as (Hg & Hns & _). rewrite Forall_forall in Hns. cbn.
    apply list_lookup_fmap_Some in Hg as (j & -> & Hj). apply lookup_seq in Hj as [-> Hj].
    unfold PAGE_SIZE_BYTES in *. split_and!; [done|done|lia|lia|].
    exists (Z.of_nat (8 + k)). done.
  - done.
Qed.

Definition init_space (curr phys virt : Z) : AddrSpace :=
  match PageMap_init ∅ curr phys virt with
  | Ret (pm, t) => MkAddrSpace _ pm t curr
  | Panic _ => MkAddrSpace _ (MkPageMap 0 0) ∅ 0
  end.

Lemma init_space_denotes curr phys virt :
  page_ok virt → 0 ≤ phys → frame_addr phys MAX_PAGE_TABLES ≤ 2 ^ 52 → (0x1000 | phys) →
  pt_denotes (init_space curr phys virt) {[virt := phys]} 200.
Proof.
  intros Hv Hp Hb Hd. unfold init_space. assert (MAX_PAGE_TABLES = 512) as Hmax by done.
  destruct (init_denotes ∅ curr phys virt) as (pm & t & -> & Hden & Hpm & Hc);
    [done|done|unfold frame_addr in *; lia|done|].
  cbn. rewrite Hpm, Hc. split_and!; [done|done|]. vm_compute. discriminate.
Qed.

Definition example_proc : AddrSpace := init_space 0xffff800000600000 0x600000 0x400000.
Definition example_kernel : AddrSpace := init_space 0x10000000 0x10000000 0x10000000.

Lemma example_proc_denotes : pt_denotes example_proc {[0x400000 := 0x600000]} 200.
Proof.
  apply init_space_denotes; [by apply (page_ok_low 2)|lia|vm_compute; discriminate|by exists 0x600].
Qed.

Lemma example_kernel_denotes : pt_denotes example_kernel {[0x10000000 := 0x10000000]} 200.
Proof.
  apply init_space_denotes; [by apply (page_ok_low 128)|lia|vm_compute; discriminate|by exists 0x10000].
Qed.

Lemma example_frames_ok : frames_ok {[0x400000 := 0x600000]}.
Proof. intros v f [<- <-]%lookup_singleton_Some. split; [lia|by exists 0x600]. Qed.

Lemma example_mem_inv : mem_inv {[0x400000 := 0x600000]} [] ({[0x600000]} : gset Z).
Proof.
  split; [apply example_frames_ok| | |].
  - intros v f [<- <-]%lookup_singleton_Some. cbn. set_solver.
  - intros f ?%not_elem_of_nil. done.
  - intros v w f ?%not_elem_of_nil. done.
Qed.

Lemma memory_slice_exact_witness :
  ∃ free' k' mk' o,
    memory_slice PRESENT virt.FREE_LIST example_kernel example_proc 0x400010 5 = Ret (free', k', o) ∧
    pt_denotes k' mk' 199 ∧
    match o with
    | Some (al, start) => virt.va_reach free' [al] ∧
        (∀ x, 0 ≤ x < 5 → virt.in_alloc al (start + x) ∧ is_Some (phys_of mk' (start + x)) ∧
          phys_of mk' (start + x) = phys_of {[0x400000 := 0x600000]} (0x400010 + x)) ∧
        (∀ v, ¬ virt.in_alloc al v → mk' !! v = ({[0x10000000 := 0x10000000]} : gmap Z Z) !! v)
    | None => virt.va_reach free' [] ∧
        ∃ v, (PAGE_SIZE_BYTES | v) ∧ align_down 0x400010 ≤ v < 0x400010 + 5 ∧
          ({[0x400000 := 0x600000]} : gmap Z Z) !! v = None
    end.
Proof.
  apply (memory_slice_exact PRESENT virt.FREE_LIST [] example_kernel example_proc 0x400010 5
    {[0x10000000 := 0x10000000]} {[0x400000 := 0x600000]} 200 199).
  - apply virt.va_init.
  - apply example_kernel_denotes.
  - apply example_proc_denotes.
  - apply example_frames_ok.
  - reflexivity.
  - reflexivity.
  - lia.
  - lia.
  - vm_compute. discriminate.
  - left. lia.
  - exists (virt.MkBlock virt.START_ADDR virt.END_ADDR). split; [by left|vm_compute; discriminate].
Defined.

Lemma dynamic_memory_safe_witness :
  ∃ p' d' (a' : gset Z) m',
    mem_runs [CAlloc 0x10000000000 0x400000 3; CAlloc 0x400000 0x200000 1;
              CDealloc 0x10000000000 0x200000] example_proc [] {[0x600000]} = Ret (p', d', a') ∧
    pt_denotes p' m' 196 ∧ mem_inv m' d' a' ∧ protects {[0x400000 := 0x600000]} [] m' d'.
Proof.
  apply (dynamic_memory_safe [CAlloc 0x10000000000 0x400000 3; CAlloc 0x400000 0x200000 1;
    CDealloc 0x10000000000 0x200000]).
  - apply example_proc_denotes.
  - apply example_mem_inv.
  - rewrite !Forall_cons. unfold call_ok, area_ok. cbn [call_area fst snd].
    split_and!; first [intros _ _; lia | apply Forall_nil_2].
Defined.

(** A process that asks for two pages at the end of the user half stops the kernel: the address of
    the second one is not canonical. *)
Theorem noncanonical_alloc_panics :
  mem_run (CAlloc (2 ^ 47 - PAGE_SIZE_BYTES) (2 * PAGE_SIZE_BYTES) 3) example_proc [] ({[0x600000]} : gset Z) =
    Panic "address passed to VirtAddr::new must not contain any data in bits 48 to 64".
Proof. reflexivity. Qed.

Lemma memory_alloc_exact_witness :
  ∃ p' d' (a' : gset Z) res m',
    memory_alloc example_proc [] {[0x600000]} 0x10000000000 0x400000 3 = Ret (p', d', a', res) ∧
    pt_denotes p' m' 198 ∧ {[0x400000 := 0x600000]} ⊆ m' ∧
    (∀ v, (∀ j, 0 ≤ j < 0x400000 / PAGE_SIZE_BYTES → v ≠ area_page 0x10000000000 j) →
      m' !! v = ({[0x400000 := 0x600000]} : gmap Z Z) !! v) ∧
    match res with
    | Ok _ => ∀ j, 0 ≤ j < 0x400000 / PAGE_SIZE_BYTES →
        ∃ f, m' !! area_page 0x10000000000 j = Some f ∧ f ∈ d'
    | Err e => e = out_of_memory ∨ e = mmap_permission_error ∧
        ∃ j f, 0 ≤ j < 0x400000 / PAGE_SIZE_BYTES ∧
          ({[0x400000 := 0x600000]} : gmap Z Z) !! area_page 0x10000000000 j = Some f ∧ f ∉ []
    end.
Proof.
  eapply (memory_alloc_exact example_proc {[0x400000 := 0x600000]} [] ({[0x600000]} : gset Z)
    0x10000000000 0x400000 3).
  - apply example_proc_denotes.
  - apply example_mem_inv.
  - unfold area_ok. lia.
  - reflexivity.
  - reflexivity.
  - reflexivity.
Defined.

Lemma memory_dealloc_exact_witness :
  ∃ p' d' (a' : gset Z) res m',
    memory_dealloc example_proc [] {[0x600000]} 0x400000 0x200000 = Ret (p', d', a', res) ∧
    pt_denotes p' m' 200 ∧ m' ⊆ {[0x400000 := 0x600000]} ∧
    (∀ v, (∀ j, 0 ≤ j < 0x200000 / PAGE_SIZE_BYTES → v ≠ area_page 0x400000 j) →
      m' !! v = ({[0x400000 := 0x600000]} : gmap Z Z) !! v) ∧
    match res with
    | Ok _ => (∀ j, 0 ≤ j < 0x200000 / PAGE_SIZE_BYTES → m' !! area_page 0x400000 j = None) ∧
        (∀ j f, 0 ≤ j < 0x200000 / PAGE_SIZE_BYTES →
          ({[0x400000 := 0x600000]} : gmap Z Z) !! area_page 0x400000 j = Some f → f ∉ phys_used a')
    | Err e => e = mmap_permission_error ∧
        ∃ j f, 0 ≤ j < 0x200000 / PAGE_SIZE_BYTES ∧
          ({[0x400000 := 0x600000]} : gmap Z Z) !! area_page 0x400000 j = Some f ∧ f ∉ []
    end.
Proof.
  apply (memory_dealloc_exact example_proc {[0x400000 := 0x600000]} [] ({[0x600000]} : gset Z)
    0x400000 0x200000 200).
  - apply example_proc_denotes.
  - apply example_mem_inv.
  - unfold area_ok. lia.
  - reflexivity.
  - reflexivity.
Defined.
