(* ===== verification/Elf.v ===== *)
(** * Elf: parsing and loading program images
    (src/util/elf_parser.rs, src/multitasking/elf_loader.rs)

    The image is a list of bytes and physical memory a map from addresses to bytes, zero where
    nothing was written.  Headers are read field by field at the offsets of their packed layout. *)

From stdpp Require Import base gmap list strings.
From Stdlib Require Import ZArith Lia.
From S2P Require Import Prelude Bytes Ranges Args PageMap ProcessMem.
Open Scope Z_scope.

(** ** elf_parser.rs *)

Definition MAX_PH_ENTRY_COUNT : nat := 20.
Definition ELF_MAGIC : Z := 0x464c457f.
Definition ELF_BITNESS_64 : Z := 2.
Definition ELF_LITTLE_ENDIAN : Z := 1.
Definition CURRENT_ELF_VERSION : Z := 1.
Definition ELF_ARCH_X86_64 : Z := 0x3E.
Definition ELF_PH_TABLE_ENTRY_SIZE : Z := 56.

Definition ELFPermissionFlags_EXECUTABLE : Z := Z.shiftl 1 0.
Definition ELFPermissionFlags_WRITABLE : Z := Z.shiftl 1 1.
Definition ELFPermissionFlags_READABLE : Z := Z.shiftl 1 2.

Record ELFHeader := {
  magic : Z; bitness : Z; endianness : Z; elf_version : Z; abi_version : Z; eh_undef : Z;
  elf_type : Z; instrucion_set : Z; elf_version_2 : Z; program_entry_pos : Z;
  ph_table_position : Z; sh_table_position : Z; eh_flags : Z; header_size : Z;
  ph_table_entry_size : Z; ph_table_entry_count : Z; sh_table_entry_size : Z;
  sh_table_entry_count : Z; sh_table_names : Z;
}.

Record ELFProgramHeader := {
  header_type : Z; ph_flags : Z; offset : Z; virtual_address : Z; ph_undef : Z;
  size_in_file : Z; size_in_memory : Z; alignment : Z;
}.

Record ELFData := { header : ELFHeader; ph_table : list (option ELFProgramHeader) }.

Inductive ELFParsingError :=
| NotElf | Not64Bit | WrongEndianness | WrongVersion | WrongAbi | WrongInstrcutionSet
| WrongElfVersion | InvalidELF | FeatureSupportMissing | EmptyHeader.

Definition ELFProgramHeader_loadable (self : ELFProgramHeader) : bool := header_type self =? 1.

Definition ELFProgramHeader_has_flag (self : ELFProgramHeader) (flag : Z) : bool :=
  Z.land (ph_flags self) flag =? flag.

(** A little-endian field of [n] bytes at [at_] of a packed structure. *)
Definition field (bytes : list Z) (at_ n : nat) : Z := from_le (sub_slice bytes at_ (at_ + n)).

Definition read_header (b : list Z) : ELFHeader := {|
  magic := field b 0 4; bitness := field b 4 1; endianness := field b 5 1;
  elf_version := field b 6 1; abi_version := field b 7 1; eh_undef := field b 8 8;
  elf_type := field b 16 2; instrucion_set := field b 18 2; elf_version_2 := field b 20 4;
  program_entry_pos := field b 24 8; ph_table_position := field b 32 8;
  sh_table_position := field b 40 8; eh_flags := field b 48 4; header_size := field b 52 2;
  ph_table_entry_size := field b 54 2; ph_table_entry_count := field b 56 2;
  sh_table_entry_size := field b 58 2; sh_table_entry_count := field b 60 2;
  sh_table_names := field b 62 2 |}.

Definition read_program_header (b : list Z) : ELFProgramHeader := {|
  header_type := field b 0 4; ph_flags := field b 4 4; offset := field b 8 8;
  virtual_address := field b 16 8; ph_undef := field b 24 8; size_in_file := field b 32 8;
  size_in_memory := field b 40 8; alignment := field b 48 8 |}.

(** [&data[start..stop]] with 64-bit bounds. *)
Definition slice_range (data : list Z) (start stop : Z) : outcome (list Z) :=
  if stop <=? Z.of_nat (length data) then index_range data (Z.to_nat start) (Z.to_nat stop)
  else Panic "range end index out of range for slice".

(** [for index in 0..ph_table_entry_count]; [used] entries of the table are filled. *)
Fixpoint ph_loop (n : nat) (index : Z) (data : list Z) (h : ELFHeader)
    (table : list (option ELFProgramHeader)) (used : nat)
    : outcome (list (option ELFProgramHeader)) :=
  match n with
  | O => Ret table
  | S n =>
      m ← mul64 (ph_table_entry_size h) index;
      offset ← add64 (ph_table_position h) m;
      stop ← add64 offset 56;
      b ← slice_range data offset stop;
      let ph := read_program_header b in
      if header_type ph =? 1 then
        _ ← rassert (used <? length table)%nat "index out of bounds";
        ph_loop n (index + 1) data h (<[used := Some ph]> table) (S used)
      else ph_loop n (index + 1) data h table used
  end.

Definition parse_elf (data : list Z) : outcome (result ELFData ELFParsingError) :=
  b ← slice_range data 0 64;
  let h := read_header b in
  if negb (magic h =? ELF_MAGIC) then Ret (Err NotElf)
  else if negb (bitness h =? ELF_BITNESS_64) then Ret (Err Not64Bit)
  else if negb (ph_table_entry_size h =? ELF_PH_TABLE_ENTRY_SIZE) then Ret (Err InvalidELF)
  else if negb (endianness h =? ELF_LITTLE_ENDIAN) then Ret (Err WrongEndianness)
  else if negb (elf_version h =? CURRENT_ELF_VERSION)
       || negb (elf_version_2 h =? CURRENT_ELF_VERSION) then Ret (Err WrongVersion)
  else if negb (instrucion_set h =? ELF_ARCH_X86_64) then Ret (Err WrongInstrcutionSet)
  else
    t ← ph_loop (Z.to_nat (ph_table_entry_count h)) 0 data h
          (replicate MAX_PH_ENTRY_COUNT None) 0;
    Ret (Ok {| header := h; ph_table := t |}).

(** ** elf_loader.rs *)

Section loader.
Context {A : Type} `{!PhysAlloc A}.

Record ElfImage := MkElfImage {
  ei_header : ELFHeader; ei_sections : list (ELFProgramHeader * list Z) }.

(** [phys::allocate_zeroed(PAGE_LAYOUT)]: the frame and its zeroed memory. *)
Definition zero_frame (mem : gmap Z Z) (f : Z) : gmap Z Z :=
  filter (λ '(k, _), ¬ (f ≤ k < f + PAGE_SIZE_BYTES)) mem.

Definition allocate_zeroed (st : A * gmap Z Z) : option (Z * (A * gmap Z Z)) :=
  '(f, a) ← phys_allocate st.1; Some (f, (a, zero_frame st.2 f)).

Definition drop_frames (st : A * gmap Z Z) (frames : list Z) : A * gmap Z Z :=
  (foldl phys_free st.1 frames, st.2).

(** [for _ in 0..size_in_pages]: [inl] the frames, [inr] those to drop when memory runs out. *)
Fixpoint section_loop (n : nat) (image : list Z) (ph : ELFProgramHeader) (frames : list Z)
    (st : A * gmap Z Z) : outcome ((list Z + list Z) * (A * gmap Z Z)) :=
  match n with
  | O => Ret (inl frames, st)
  | S n =>
      match allocate_zeroed st with
      | None => Ret (inr frames, st)
      | Some (f, st) =>
          let start := offset ph in
          let size := size_in_file ph in
          _ ← rassert (size <=? PAGE_SIZE_BYTES) "range end index out of range for slice";
          stop ← add64 start size;
          bytes ← slice_range image start stop;
          section_loop n image ph (frames ++ [f]) (st.1, write_bytes st.2 f bytes)
      end
  end.

Fixpoint sections_loop (phs : list ELFProgramHeader) (image : list Z)
    (sections : list (ELFProgramHeader * list Z)) (st : A * gmap Z Z)
    : outcome (result (list (ELFProgramHeader * list Z)) unit * (A * gmap Z Z)) :=
  match phs with
  | [] => Ret (Ok sections, st)
  | ph :: phs =>
      if ELFProgramHeader_loadable ph && negb (size_in_memory ph =? 0) then
        size ← page_align_u64 (size_in_memory ph) true;
        '(r, st) ← section_loop (Z.to_nat (size / PAGE_SIZE_BYTES)) image ph [] st;
        match r with
        | inl frames => sections_loop phs image (sections ++ [(ph, frames)]) st
        | inr frames => Ret (Err tt, drop_frames (drop_frames st frames) (concat sections.*2))
        end
      else sections_loop phs image sections st
  end.

Definition load_elf (image : list Z) (st : A * gmap Z Z)
    : outcome (result ElfImage unit * (A * gmap Z Z)) :=
  r ← parse_elf image;
  match r with
  | Err _ => Panic "Invalid ELF image"
  | Ok elf =>
      '(r, st) ← sections_loop (omap id (ph_table elf)) image [] st;
      Ret (result_map (λ s, MkElfImage (header elf) s) r, st)
  end.

End loader.

(** ** Lemmas on loading *)

Section loader_lemmas.
Context {A : Type} `{!PhysAlloc A} `{!PhysAllocLaws (A := A)}.

Definition mem_at (mem : gmap Z Z) (a : Z) : Z := default 0 (mem !! a).

Lemma zero_frame_at mem f a :
  mem_at (zero_frame mem f) a =
    if decide (f ≤ a < f + PAGE_SIZE_BYTES) then 0 else mem_at mem a.
Proof.
  unfold mem_at, zero_frame. destruct (filter _ mem !! a) as [v|] eqn:E.
  - apply map_lookup_filter_Some in E as [E Hn]. rewrite decide_False by done. by rewrite E.
  - apply map_lookup_filter_None in E as [E|E].
    + rewrite E. by case_decide.
    + destruct (mem !! a) as [v|] eqn:Ev; [|by case_decide].
      specialize (E v eq_refl). case_decide; [done|]. by destruct E.
Qed.

Lemma write_bytes_at mem f bs a :
  mem_at (write_bytes mem f bs) a =
    if decide (f ≤ a < f + Z.of_nat (length bs)) then default 0 (bs !! Z.to_nat (a - f))
    else mem_at mem a.
Proof. unfold mem_at. rewrite write_bytes_lookup. by case_decide. Qed.

Definition in_frame (f a : Z) : Prop := f ≤ a < f + PAGE_SIZE_BYTES.

(** Page-aligned frames overlap only when they are equal. *)
Lemma in_frame_inj f g a :
  (PAGE_SIZE_BYTES | f) → (PAGE_SIZE_BYTES | g) → in_frame f a → in_frame g a → f = g.
Proof. intros [x ->] [y ->]. unfold in_frame, PAGE_SIZE_BYTES. intros. f_equal. lia. Qed.

(** The frame holds the bytes of the segment, followed by zeros. *)
Definition loaded (image : list Z) (ph : ELFProgramHeader) (mem : gmap Z Z) (f : Z) : Prop :=
  ∀ i, 0 ≤ i < PAGE_SIZE_BYTES →
    mem_at mem (f + i) =
      if decide (i < size_in_file ph) then default 0 (image !! Z.to_nat (offset ph + i)) else 0.

(** A page frame. *)
Definition frame_ok (f : Z) : Prop := 0 ≤ f < 2 ^ 52 ∧ (PAGE_SIZE_BYTES | f).

(** The file range of a segment lies in the image and fits one page. *)
Definition segment_ok (image : list Z) (ph : ELFProgramHeader) : Prop :=
  0 ≤ offset ph ∧ 0 ≤ size_in_file ph ≤ PAGE_SIZE_BYTES ∧
  offset ph + size_in_file ph ≤ Z.of_nat (length image) < u64_size.

Lemma slice_range_ret data start stop :
  0 ≤ start ≤ stop → stop ≤ Z.of_nat (length data) →
  slice_range data start stop = Ret (sub_slice data (Z.to_nat start) (Z.to_nat stop)).
Proof.
  intros H1 H2. unfold slice_range. rewrite (proj2 (Z.leb_le _ _)) by done.
  apply index_range_ret. lia.
Qed.

Lemma sub_slice_lookup {B} (l : list B) a b i :
  (a + i < b)%nat → sub_slice l a b !! i = l !! (a + i)%nat.
Proof. intros H. unfold sub_slice. rewrite lookup_take_lt by lia. by rewrite lookup_drop. Qed.

Lemma frame_loaded image ph mem f :
  segment_ok image ph →
  loaded image ph (write_bytes (zero_frame mem f) f
    (sub_slice image (Z.to_nat (offset ph)) (Z.to_nat (offset ph + size_in_file ph)))) f.
Proof.
  intros (H1 & H2 & H3) i Hi. rewrite write_bytes_at, sub_slice_length by lia.
  case_decide as Hd.
  - rewrite decide_True by lia. rewrite sub_slice_lookup by lia. do 2 f_equal. lia.
  - rewrite decide_False by lia. rewrite zero_frame_at. by rewrite decide_True by lia.
Qed.

Lemma frame_other mem f bs g a :
  Z.of_nat (length bs) ≤ PAGE_SIZE_BYTES → (PAGE_SIZE_BYTES | f) → (PAGE_SIZE_BYTES | g) →
  f ≠ g → in_frame g a → mem_at (write_bytes (zero_frame mem f) f bs) a = mem_at mem a.
Proof.
  intros Hl Hf Hg Hne Ha.
  assert (¬ in_frame f a) as Hn by (intros ?; apply Hne; by eapply in_frame_inj).
  rewrite write_bytes_at, decide_False, zero_frame_at, decide_False; [done| |];
    unfold in_frame in *; lia.
Qed.

Lemma section_loop_spec n image ph frames (a : A) mem :
  segment_ok image ph →
  ∃ new r a' mem', section_loop n image ph frames (a, mem) = Ret (r, (a', mem')) ∧
    (r = inl (frames ++ new) ∧ length new = n ∨ r = inr (frames ++ new)) ∧
    phys_used a' = phys_used a ∪ list_to_set new ∧ NoDup new ∧
    (∀ f, f ∈ new → f ∉ phys_used a ∧ frame_ok f ∧ loaded image ph mem' f) ∧
    (∀ g x, (PAGE_SIZE_BYTES | g) → g ∉ new → in_frame g x → mem_at mem' x = mem_at mem x).
Proof.
  intros Hseg. revert frames a mem. induction n as [|n IH]; intros frames a mem; cbn [section_loop].
  { exists [], (inl frames), a, mem. rewrite app_nil_r. split_and!; [done|by left|set_solver|apply NoDup_nil_2|set_solver|done]. }
  unfold allocate_zeroed. cbn [fst snd]. destruct (phys_allocate a) as [[f a1]|] eqn:Ea; cbn.
  2:{ exists [], (inr frames), a, mem. rewrite app_nil_r. split_and!; [done|by right|set_solver|apply NoDup_nil_2|set_solver|done]. }
  destruct (phys_allocate_law a f a1 Ea) as (Hnew & Hused & Hf0 & Hfd).
  pose proof Hseg as (Ho & Hs & Hl).
  rewrite (proj2 (Z.leb_le _ _)) by lia. cbn [rassert mbind outcome_bind].
  rewrite add64_small by lia. cbn [mbind outcome_bind].
  rewrite slice_range_ret by lia. cbn [mbind outcome_bind].
  set (mem1 := write_bytes _ f _).
  destruct (IH (frames ++ [f]) a1 mem1) as (new & r & a' & mem' & -> & Hr & Hu & Hnd & Hnew' & Hoth).
  exists (f :: new), r, a', mem'. rewrite <- (assoc_L (++)) in Hr. cbn [app length] in *.
  assert (f ∉ new) as Hfn by (intros (Hn & _)%Hnew'; set_solver).
  split_and!; [done| | | | |].
  - destruct Hr as [[-> <-]| ->]; [by left|by right].
  - rewrite Hu, Hused. set_solver.
  - by apply NoDup_cons.
  - intros g [->|Hg]%elem_of_cons.
    + split_and!; [done|by split|]. intros i Hi. rewrite (Hoth f) by (done || unfold in_frame; lia).
      by apply frame_loaded.
    + destruct (Hnew' g Hg) as (? & ? & ?). split_and!; [set_solver|done|done].
  - intros g x Hg Hn Hx. rewrite (Hoth g) by set_solver. eapply frame_other; [|done|done|set_solver|done].
    rewrite sub_slice_length by lia. lia.
Qed.

(** Segments that get memory, and how much. *)
Definition needs_memory (ph : ELFProgramHeader) : bool :=
  ELFProgramHeader_loadable ph && negb (size_in_memory ph =? 0).

Definition segment_pages (ph : ELFProgramHeader) : nat :=
  Z.to_nat (align_up (size_in_memory ph) / PAGE_SIZE_BYTES).

Definition phs_ok (image : list Z) (phs : list ELFProgramHeader) : Prop :=
  ∀ ph, ph ∈ phs → needs_memory ph = true → segment_ok image ph ∧ 0 ≤ size_in_memory ph < 2 ^ 63.

(** The sections are those of [phs], in order, with fresh loaded frames. *)
Record sections_ok (image : list Z) (phs : list ELFProgramHeader)
    (secs : list (ELFProgramHeader * list Z)) (used : gset Z) (mem : gmap Z Z) : Prop := {
  so_headers : secs.*1 = filter (λ ph, needs_memory ph = true) phs;
  so_pages ph fs : (ph, fs) ∈ secs → length fs = segment_pages ph;
  so_frames ph fs f : (ph, fs) ∈ secs → f ∈ fs →
    f ∉ used ∧ frame_ok f ∧ loaded image ph mem f;
  so_nodup : NoDup (concat secs.*2);
}.

Lemma sections_loop_spec phs image sections (a : A) mem :
  phs_ok image phs → (∀ f, f ∈ concat sections.*2 → f ∈ phys_used a) →
  ∃ r a' mem', sections_loop phs image sections (a, mem) = Ret (r, (a', mem')) ∧
    match r with
    | Ok secs => ∃ new, secs = sections ++ new ∧ sections_ok image phs new (phys_used a) mem' ∧
        phys_used a' = phys_used a ∪ list_to_set (concat new.*2) ∧
        (∀ g x, (PAGE_SIZE_BYTES | g) → g ∉ concat new.*2 → in_frame g x →
          mem_at mem' x = mem_at mem x)
    | Err _ => phys_used a' = phys_used a ∖ list_to_set (concat sections.*2)
    end.
Proof.
  revert sections a mem. induction phs as [|ph phs IH]; intros sections a mem Hok Hsec;
    cbn [sections_loop].
  { exists (Ok sections), a, mem. split; [done|]. exists []. rewrite app_nil_r.
    split_and!; [done| |set_solver|done]. split; [done|set_solver|set_solver|apply NoDup_nil_2]. }
  assert (phs_ok image phs) as Hok'.
  { intros ph' Hph. apply Hok. set_solver. }
  fold (needs_memory ph). destruct (needs_memory ph) eqn:En.
  2:{ destruct (IH sections a mem Hok' Hsec) as (r & a' & mem' & -> & Hr).
      exists r, a', mem'. split; [done|]. destruct r as [secs|]; [|done].
      destruct Hr as (new & -> & [Hh Hp Hf Hn] & Hu & Ho). exists new. split_and!; [done| |done|done].
      split; [|done|done|done]. by rewrite filter_cons, decide_False by congruence. }
  destruct (Hok ph) as [Hseg Hsz]; [set_solver|done|].
  rewrite page_align_spec by done. cbn [mbind outcome_bind]. fold (segment_pages ph).
  destruct (section_loop_spec (segment_pages ph) image ph [] a mem Hseg)
    as (fs & r1 & a1 & mem1 & -> & Hr1 & Hu1 & Hnd & Hnew & Hoth).
  cbn [mbind outcome_bind app] in *. destruct Hr1 as [[-> Hlen]| ->].
  - destruct (IH (sections ++ [(ph, fs)]) a1 mem1 Hok') as (r & a' & mem' & -> & Hr).
    { intros f. rewrite fmap_app, concat_app, elem_of_app, Hu1. cbn. rewrite app_nil_r.
      intros [Hf|Hf]; [apply Hsec in Hf; set_solver|set_solver]. }
    exists r, a', mem'. split; [done|]. destruct r as [secs|].
    + destruct Hr as (new & -> & [Hh Hp Hf Hn] & Hu & Ho). exists ((ph, fs) :: new).
      assert (∀ f, f ∈ fs → f ∉ concat new.*2) as Hdis.
      { intros f Hf1 (l & Hl & Hf2)%elem_of_concat.
        apply list_elem_of_fmap in Hl as ([ph' fs'] & -> & Hin).
        destruct (Hf ph' fs' f Hin Hf2) as (Hnu & _). apply Hnu. rewrite Hu1. set_solver. }
      split_and!; [by rewrite <- (assoc_L (++))| | |].
      * split.
        -- rewrite fmap_cons, filter_cons, decide_True by done. by rewrite Hh.
        -- intros ph' fs' [[= -> ->]|Hin]%elem_of_cons; [done|by apply Hp].
        -- intros ph' fs' f [[= -> ->]|Hin]%elem_of_cons Hf'.
           ++ destruct (Hnew f Hf') as (? & Hfo & Hld). split_and!; [done|done|]. destruct Hfo as [_ ?].
              intros i Hi. rewrite (Ho f) by (done || by apply Hdis || (unfold in_frame; lia)).
              by apply Hld.
           ++ destruct (Hf ph' fs' f Hin Hf') as (? & ? & ?). split_and!; [|done|done].
              rewrite Hu1 in *. set_solver.
        -- cbn. apply NoDup_app. split_and!; [done|done|done].
      * rewrite Hu, Hu1. cbn. by rewrite list_to_set_app_L, (assoc_L (∪)).
      * intros g x Hg Hng Hx. cbn in Hng. rewrite not_elem_of_app in Hng. destruct Hng as [Hn1 Hn2].
        rewrite (Ho g) by done. by apply (Hoth g).
    + rewrite Hr, Hu1, fmap_app, concat_app, list_to_set_app_L. cbn. rewrite app_nil_r.
      apply set_eq. intros f. destruct (decide (f ∈ fs)) as [Hf|Hf].
      * destruct (Hnew f Hf) as (? & _). set_solver.
      * set_solver.
  - eexists (Err tt), _, _. split; [done|]. cbn. rewrite !phys_free_all, Hu1.
    apply set_eq. intros f. destruct (decide (f ∈ fs)) as [Hf|Hf].
    + destruct (Hnew f Hf) as (? & _). set_solver.
    + set_solver.
Qed.

End loader_lemmas.

(** ** Lemmas on parsing *)

Definition program_header (data : list Z) (h : ELFHeader) (i : nat) : ELFProgramHeader :=
  let at_ := Z.to_nat (ph_table_position h + ph_table_entry_size h * Z.of_nat i) in
  read_program_header (sub_slice data at_ (at_ + 56)).

Definition loadables (data : list Z) (h : ELFHeader) (is_ : list nat) : list ELFProgramHeader :=
  filter (λ ph, header_type ph = 1) (program_header data h <$> is_).

Definition table_of (l : list ELFProgramHeader) : list (option ELFProgramHeader) :=
  (Some <$> l) ++ replicate (MAX_PH_ENTRY_COUNT - length l) None.

Lemma table_of_insert l ph :
  (length l < MAX_PH_ENTRY_COUNT)%nat → <[length l := Some ph]> (table_of l) = table_of (l ++ [ph]).
Proof.
  intros Hl. unfold table_of. rewrite insert_app_r_alt by (rewrite length_fmap; lia).
  rewrite length_fmap, Nat.sub_diag, fmap_app, <- (assoc_L (++)). f_equal.
  rewrite length_app. cbn [length].
  replace (MAX_PH_ENTRY_COUNT - length l)%nat with (S (MAX_PH_ENTRY_COUNT - (length l + 1))) by lia.
  done.
Qed.

Lemma table_of_headers l : omap id (table_of l) = l.
Proof.
  unfold table_of. rewrite omap_app. replace (omap id (Some <$> l)) with l.
  - induction (MAX_PH_ENTRY_COUNT - length l)%nat as [|n IH]; cbn; [by rewrite app_nil_r|done].
  - induction l as [|x l IH]; cbn; [done|]. f_equal. done.
Qed.

(** The program header table lies in the image. *)
Definition table_fits (data : list Z) (h : ELFHeader) : Prop :=
  0 ≤ ph_table_position h ∧ ph_table_entry_size h = 56 ∧ 0 ≤ ph_table_entry_count h ∧
  ph_table_position h + 56 * ph_table_entry_count h ≤ Z.of_nat (length data) < 2 ^ 63.

Lemma ph_loop_spec n k data h l :
  table_fits data h → Z.of_nat (k + n) ≤ ph_table_entry_count h →
  (length l + length (loadables data h (seq k n)) ≤ MAX_PH_ENTRY_COUNT)%nat →
  ph_loop n (Z.of_nat k) data h (table_of l) (length l) =
    Ret (table_of (l ++ loadables data h (seq k n))).
Proof.
  intros (Hp & He & Hc & Hfit). revert k l. induction n as [|n IH]; intros k l Hk Hl; cbn [ph_loop].
  { unfold loadables. cbn. by rewrite app_nil_r. }
  assert (u64_size = 2 ^ 64) as Hsz by done.
  rewrite mul64_small by (rewrite He; lia). cbn [mbind outcome_bind].
  rewrite add64_small by (rewrite He; lia). cbn [mbind outcome_bind].
  rewrite add64_small by (rewrite He; lia). cbn [mbind outcome_bind].
  rewrite slice_range_ret by (rewrite He; lia). cbn [mbind outcome_bind].
  set (at_ := ph_table_position h + ph_table_entry_size h * Z.of_nat k).
  assert (0 ≤ at_) as Hat by (unfold at_; rewrite He; lia).
  replace (Z.to_nat (at_ + 56)) with (Z.to_nat at_ + 56)%nat by lia.
  change (read_program_header (sub_slice data (Z.to_nat at_) (Z.to_nat at_ + 56)))
    with (program_header data h k).
  replace (Z.of_nat k + 1) with (Z.of_nat (S k)) by lia.
  revert Hl. unfold loadables. cbn [seq fmap list_fmap]. rewrite filter_cons.
  destruct (Z.eqb_spec (header_type (program_header data h k)) 1) as [E|E].
  - rewrite decide_True by done. cbn [length]. intros Hl.
    assert (length (table_of l) = MAX_PH_ENTRY_COUNT) as Htl.
    { unfold table_of. rewrite length_app, length_fmap, length_replicate. lia. }
    rewrite (proj2 (Nat.ltb_lt _ _)) by lia. cbn [rassert mbind outcome_bind].
    rewrite table_of_insert by lia.
    replace (S (length l)) with (length (l ++ [program_header data h k]))
      by (rewrite length_app; cbn [length]; lia).
    rewrite IH; [|lia|rewrite length_app; cbn [length]; unfold loadables; lia].
    by rewrite <- (assoc_L (++)).
  - rewrite decide_False by done. intros Hl. by rewrite IH by (unfold loadables; lia).
Qed.

(** A valid 64-bit little-endian x86-64 image with a readable segment table. *)
Definition elf_ok (data : list Z) : Prop :=
  let h := read_header (sub_slice data 0 64) in
  (64 ≤ length data)%nat ∧
  magic h = ELF_MAGIC ∧ bitness h = ELF_BITNESS_64 ∧ endianness h = ELF_LITTLE_ENDIAN ∧
  elf_version h = CURRENT_ELF_VERSION ∧ elf_version_2 h = CURRENT_ELF_VERSION ∧
  instrucion_set h = ELF_ARCH_X86_64 ∧ table_fits data h ∧
  (length (loadables data h (seq 0 (Z.to_nat (ph_table_entry_count h)))) ≤ MAX_PH_ENTRY_COUNT)%nat.

(** The loadable segments of an image, in table order. *)
Definition elf_segments (data : list Z) : list ELFProgramHeader :=
  let h := read_header (sub_slice data 0 64) in
  loadables data h (seq 0 (Z.to_nat (ph_table_entry_count h))).

Lemma parse_elf_spec data :
  elf_ok data → ∃ t, parse_elf data =
    Ret (Ok {| header := read_header (sub_slice data 0 64); ph_table := t |}) ∧
    omap id t = elf_segments data.
Proof.
  intros (Hl & Hm & Hb & He & Hv & Hv2 & Hi & Hfit & Hn). unfold parse_elf.
  rewrite slice_range_ret by lia. change (Z.to_nat 0) with 0%nat. change (Z.to_nat 64) with 64%nat.
  cbn [mbind outcome_bind]. set (h := read_header (sub_slice data 0 64)) in *.
  pose proof Hfit as (_ & Hes & Hc & _).
  rewrite Hm, Hb, He, Hv, Hv2, Hi, Hes. rewrite !Z.eqb_refl. cbn [negb orb].
  assert (ph_loop (Z.to_nat (ph_table_entry_count h)) 0 data h (replicate MAX_PH_ENTRY_COUNT None) 0 =
    Ret (table_of (elf_segments data))) as ->.
  { apply (ph_loop_spec _ 0 data h []); [done|lia|done]. }
  cbn [mbind outcome_bind]. eexists. split; [done|]. apply table_of_headers.
Qed.

(** Parsing reads the header and the table: what follows them does not matter. *)
Lemma sub_slice_take {B} (l l' : list B) a b n :
  take n l = take n l' → (b ≤ n)%nat → sub_slice l a b = sub_slice l' a b.
Proof.
  intros E Hb. unfold sub_slice. rewrite <- !skipn_firstn_comm. f_equal.
  by rewrite <- (Nat.min_l b n Hb), <- !take_take, E.
Qed.

Lemma elf_prefix data data' n :
  let h := read_header (sub_slice data 0 64) in
  elf_ok data → take n data = take n data' → (64 ≤ n ≤ length data')%nat → Z.of_nat (length data') < 2 ^ 63 →
  ph_table_position h + 56 * ph_table_entry_count h ≤ Z.of_nat n →
  elf_ok data' ∧ elf_segments data' = elf_segments data.
Proof.
  intros h (Hl & Hm & Hb & He & Hv & Hv2 & Hi & (Ht1 & Ht2 & Ht3 & Ht4) & Hn) Heq H64 Hmax Hend. fold h in Hm, Hb, He, Hv, Hv2, Hi, Ht1, Ht2, Ht3, Ht4, Hn.
  assert (read_header (sub_slice data' 0 64) = h) as Eh.
  { unfold h. f_equal. symmetry. apply (sub_slice_take _ _ _ _ n); [done|lia]. }
  assert (elf_segments data' = elf_segments data) as Es.
  { unfold elf_segments, loadables. rewrite Eh. fold h. f_equal. apply list_fmap_ext. intros i k Hk.
    apply lookup_seq in Hk as [-> Hk]. unfold program_header. f_equal. symmetry.
    apply (sub_slice_take _ _ _ _ n); [done|]. rewrite Ht2. lia. }
  split; [|done]. unfold elf_ok. rewrite Eh. split_and!; try done; [lia|split_and!; lia|].
  unfold elf_segments in Es. rewrite Eh in Es. fold h in Es. by rewrite Es.
Qed.

(** ** Properties *)

Section properties.
Context {A : Type} `{!PhysAlloc A} `{!PhysAllocLaws (A := A)}.

Lemma load_elf_spec image (a : A) mem :
  elf_ok image → phs_ok image (elf_segments image) →
  ∃ r a' mem', load_elf image (a, mem) = Ret (r, (a', mem')) ∧
    match r with
    | Ok e => ei_header e = read_header (sub_slice image 0 64) ∧
        sections_ok image (elf_segments image) (ei_sections e) (phys_used a) mem' ∧
        phys_used a' = phys_used a ∪ list_to_set (concat (ei_sections e).*2)
    | Err _ => phys_used a' = phys_used a
    end.
Proof.
  intros Helf Hok. destruct (parse_elf_spec image Helf) as (t & E & Ht). unfold load_elf. rewrite E.
  cbn [mbind outcome_bind ph_table header]. rewrite Ht.
  destruct (sections_loop_spec (elf_segments image) image [] a mem Hok) as (r & a' & mem' & -> & Hr);
    [set_solver|].
  cbn [mbind outcome_bind]. eexists _, a', mem'. split; [done|]. destruct r as [secs|]; cbn.
  - by destruct Hr as (new & -> & Hs & Hu & _).
  - rewrite Hr. cbn. set_solver.
Qed.

(** C24: loading a valid image gives one section per non-empty loadable segment, in table order,
    with as many fresh page frames as its memory size needs, each of them holding the bytes of
    the segment followed by zeros; when memory runs out every frame is given back. *)
Theorem load_elf_exact image (a : A) mem
    (Helf : elf_ok image) (Hok : phs_ok image (elf_segments image)) :
  ∃ r a' mem', load_elf image (a, mem) = Ret (r, (a', mem')) ∧
    match r with
    | Ok e => ei_header e = read_header (sub_slice image 0 64) ∧
        sections_ok image (elf_segments image) (ei_sections e) (phys_used a) mem' ∧
        phys_used a' = phys_used a ∪ list_to_set (concat (ei_sections e).*2)
    | Err _ => phys_used a' = phys_used a
    end.
Proof. by apply load_elf_spec. Qed.

End properties.

(** The pages of a section all hold the same bytes, also when it spans several pages. *)
Lemma section_pages_identical image phs secs used mem ph fs f g i :
  sections_ok image phs secs used mem → (ph, fs) ∈ secs → f ∈ fs → g ∈ fs →
  0 ≤ i < PAGE_SIZE_BYTES → mem_at mem (f + i) = mem_at mem (g + i).
Proof.
  intros Hs Hin Hf Hg Hi. destruct (so_frames _ _ _ _ _ Hs _ _ _ Hin Hf) as (_ & _ & Hlf).
  destruct (so_frames _ _ _ _ _ Hs _ _ _ Hin Hg) as (_ & _ & Hlg). by rewrite Hlf, Hlg.
Qed.

(** A header, one loadable and one other segment, and four bytes of code. *)
Definition example_image : list Z :=
  to_le 4 ELF_MAGIC ++ [2; 1; 1; 0] ++ to_le 8 0 ++ to_le 2 2 ++ to_le 2 ELF_ARCH_X86_64 ++
  to_le 4 1 ++ to_le 8 0x1000000 ++ to_le 8 64 ++ to_le 8 0 ++ to_le 4 0 ++ to_le 2 64 ++
  to_le 2 56 ++ to_le 2 2 ++ to_le 2 0 ++ to_le 2 0 ++ to_le 2 0 ++
  (to_le 4 1 ++ to_le 4 5 ++ to_le 8 176 ++ to_le 8 0x1000000 ++ to_le 8 0 ++ to_le 8 4 ++
   to_le 8 0x1000 ++ to_le 8 0x1000) ++
  (to_le 4 4 ++ to_le 4 4 ++ to_le 8 0 ++ to_le 8 0 ++ to_le 8 0 ++ to_le 8 0 ++ to_le 8 0 ++
   to_le 8 0) ++
  [0x90; 0x90; 0xcd; 0xd7].

Definition example_segment : ELFProgramHeader :=
  {| header_type := 1; ph_flags := 5; offset := 176; virtual_address := 0x1000000;
     ph_undef := 0; size_in_file := 4; size_in_memory := 0x1000; alignment := 0x1000 |}.

Lemma example_segments : elf_segments example_image = [example_segment].
Proof. vm_compute. reflexivity. Qed.

Lemma example_elf_ok : elf_ok example_image.
Proof.
  unfold elf_ok. split_and!; try (vm_compute; reflexivity).
  - vm_compute. lia.
  - unfold table_fits. split_and!; vm_compute; (reflexivity || discriminate).
  - vm_compute. lia.
Qed.

Lemma load_elf_exact_witness :
  ∃ r (a' : gset Z) mem', load_elf example_image (∅ : gset Z, ∅) = Ret (r, (a', mem')) ∧
    match r with
    | Ok e => ei_header e = read_header (sub_slice example_image 0 64) ∧
        sections_ok example_image (elf_segments example_image) (ei_sections e)
          (phys_used (∅ : gset Z)) mem' ∧
        phys_used a' = phys_used (∅ : gset Z) ∪ list_to_set (concat (ei_sections e).*2)
    | Err _ => phys_used a' = phys_used (∅ : gset Z)
    end.
Proof.
  apply (load_elf_exact example_image (∅ : gset Z) ∅).
  - apply example_elf_ok.
  - rewrite example_segments. intros ph ->%list_elem_of_singleton _. cbn.
    unfold segment_ok. cbn. split_and!; try lia; vm_compute; (reflexivity || discriminate).
Defined.
