(* ===== verification/Process.v ===== *)
(** * Process: creating a process (src/multitasking/process.rs [create_process],
    src/memory/mod.rs [phys_to_virt])

    The stack image comes from [Args], the program from [Elf], the page table from [PageMap].
    [garbage] is what the fresh page-table frame holds before it is initialised, [idt] and
    [common] are the physical addresses the kernel stored for the shared pages at boot. *)

From stdpp Require Import base gmap fin_maps list strings.
From Stdlib Require Import ZArith Lia.
From S2P Require Import Prelude Abi Bytes Ranges VirtAlloc PageMap Args ProcessMem Elf Clocks.
From S2P Require Import Queues SubscriptionList Topic EventQueue Ipc Scheduler.
Open Scope Z_scope.

Definition HIGHER_HALF_START : Z := 0xffff800000000000.
Definition PROCESS_COMMON_CODE : Z := 0x200000.

Definition phys_to_virt (a : Z) : outcome Z :=
  expect (if HIGHER_HALF_START + a <? u64_size then Some (HIGHER_HALF_START + a) else None)
    "phys_to_virt overflow".

Section create.
Context `{PagingOps} `{!AlignOps} {A : Type} `{!PhysAlloc A}.

(** What a process owns besides its scheduling state. *)
Record ProcMem := MkProcMem {
  page_table : AddrSpace;
  stack_memory : Z;
  dynamic_memory : list Z;
  elf_image : ElfImage;
}.

(** The stack image written to its frames. *)
Definition write_stack (mem : gmap Z Z) (base : Z) (stack : stack_mem) : gmap Z Z :=
  kmap (Z.add base) stack ∪ mem.

(** [Page::from_start_address] and [PhysFrame::from_start_address], unwrapped. *)
Definition start_address (a : Z) : outcome Z :=
  _ ← rassert (a mod PAGE_SIZE_BYTES =? 0) "called `Result::unwrap()` on an `Err` value"; Ret a.

Definition map_page (s : AddrSpace) (page frame flags : Z) : outcome AddrSpace :=
  page ← start_address page;
  frame ← start_address frame;
  pt_map_to s page frame flags.

(** A loop that maps consecutive pages. *)
Fixpoint map_pages (s : AddrSpace) (start : Z) (i : nat) (frames : list Z) (flags : Z)
    : outcome AddrSpace :=
  match frames with
  | [] => Ret s
  | frame :: frames =>
      page ← VirtAddr_new (start + PAGE_SIZE_BYTES * Z.of_nat i);
      s ← map_page s page frame flags;
      map_pages s start (S i) frames flags
  end.

Definition section_flags (ph : ELFProgramHeader) : outcome Z :=
  let flags := PRESENT in
  let flags := if ELFProgramHeader_has_flag ph ELFPermissionFlags_EXECUTABLE then flags
               else Z.lor flags NO_EXECUTE in
  _ ← rassert (ELFProgramHeader_has_flag ph ELFPermissionFlags_READABLE)
        "Non-readable pages are not supported (yet?)";
  Ret (if ELFProgramHeader_has_flag ph ELFPermissionFlags_WRITABLE
       then Z.lor flags WRITABLE else flags).

Fixpoint map_sections (s : AddrSpace) (sections : list (ELFProgramHeader * list Z))
    : outcome AddrSpace :=
  match sections with
  | [] => Ret s
  | (ph, frames) :: sections =>
      _ ← rassert (0x400000 <=? virtual_address ph) "ph.virtual_address >= 0x400_000";
      start ← VirtAddr_new (virtual_address ph);
      flags ← section_flags ph;
      s ← map_pages s start 0 frames flags;
      map_sections s sections
  end.

Definition create_process (garbage : gmap Z (gmap Z entry)) (idt common : Z)
    (pid : ProcessId) (args : list (list Z)) (elf : ElfImage) (st : A * gmap Z Z)
    : outcome (result (Process ProcMem) unit * (A * gmap Z Z)) :=
  let stack_pages := Z.to_nat PROCESS_STACK_SIZE_PAGES in
  let elf_frames := concat (ei_sections elf).*2 in
  match phys_allocate_n st.1 stack_pages with
  | None => Ret (Err tt, drop_frames st elf_frames)
  | Some (stack, a) =>
      '(image, process_init_rsp) ← create_stack args (program_entry_pos (ei_header elf));
      let mem := write_stack (foldl zero_frame st.2 (pages_from stack stack_pages)) stack image in
      match phys_allocate a with
      | None => Ret (Err tt, drop_frames (phys_free_n a stack stack_pages, mem) elf_frames)
      | Some (pt_frame, a) =>
          pm_addr ← phys_to_virt pt_frame;
          '(pm, t) ← PageMap_init garbage pm_addr pt_frame pm_addr;
          let s := MkAddrSpace _ pm t pm_addr in
          s ← map_page s 0x0 idt (Z.lor (Z.lor PRESENT NO_EXECUTE) WRITABLE);
          s ← map_page s PROCESS_COMMON_CODE common PRESENT;
          s ← map_pages s PROCESS_STACK 0 (pages_from stack stack_pages)
                (Z.lor (Z.lor PRESENT WRITABLE) NO_EXECUTE);
          s ← map_sections s (ei_sections elf);
          Ret (Ok (MkProcess pt_frame process_init_rsp false pid (MkProcMem s stack [] elf)),
               (a, mem))
      end
  end.

End create.

(** ** Lemmas *)

Section create_lemmas.
Context `{PagingLaws} `{!AlignOps, !AlignLaws} {A : Type} `{!PhysAlloc A, !PhysAllocLaws (A := A)}.

Lemma start_address_ok a : (PAGE_SIZE_BYTES | a) → start_address a = Ret a.
Proof. intros Ha. unfold start_address. by rewrite (proj2 (Z.eqb_eq _ _)) by (by apply Z.mod_divide). Qed.

Lemma map_page_spec (s : AddrSpace) m n page frame flags :
  pt_denotes s m (S n) → page_ok page → frame_ok frame → flag_set flags →
  Z.land flags PRESENT = PRESENT →
  ∃ s', map_page s page frame flags = Ret s' ∧ pt_denotes s' (<[page := frame]> m) n.
Proof.
  intros Hd Hp [Hf Hfd] Hfs Hfp. unfold map_page.
  rewrite (start_address_ok page) by apply Hp. cbn [mbind outcome_bind].
  rewrite (start_address_ok frame) by done. cbn [mbind outcome_bind].
  apply pt_map_to_law; try done. eapply Z.divide_trans; [|done]. by exists 0x200.
Qed.

(** The mapping after consecutive pages were mapped from position [i] on. *)
Fixpoint mapped (m : gmap Z Z) (start : Z) (i : nat) (frames : list Z) : gmap Z Z :=
  match frames with
  | [] => m
  | f :: frames => mapped (<[start + PAGE_SIZE_BYTES * Z.of_nat i := f]> m) start (S i) frames
  end.

Lemma map_pages_spec frames (s : AddrSpace) m n start i flags :
  pt_denotes s m (length frames + n) →
  (∀ j, (i ≤ j < i + length frames)%nat → page_ok (start + PAGE_SIZE_BYTES * Z.of_nat j)) →
  Forall frame_ok frames → flag_set flags → Z.land flags PRESENT = PRESENT →
  ∃ s', map_pages s start i frames flags = Ret s' ∧ pt_denotes s' (mapped m start i frames) n.
Proof.
  intros Hd Hp Hf Hfs Hfp. revert s m i Hd Hp. induction Hf as [|f frames Hf _ IH];
    intros s m i Hd Hp; cbn [map_pages mapped length] in *; [by exists s|].
  assert (page_ok (start + PAGE_SIZE_BYTES * Z.of_nat i)) as Hpi by (apply Hp; lia).
  rewrite VirtAddr_new_law by apply Hpi. cbn [mbind outcome_bind].
  destruct (map_page_spec s m (length frames + n) _ f flags Hd Hpi Hf Hfs Hfp) as (s1 & -> & Hd1).
  cbn [mbind outcome_bind]. apply IH; [done|]. intros j Hj. apply Hp. lia.
Qed.

(** A section [create_process] accepts. *)
Definition section_ok (sec : ELFProgramHeader * list Z) : Prop :=
  0x400000 ≤ virtual_address sec.1 ∧ (PAGE_SIZE_BYTES | virtual_address sec.1) ∧
  virtual_address sec.1 + PAGE_SIZE_BYTES * Z.of_nat (length sec.2) ≤ 2 ^ 47 ∧
  virtual_address sec.1 < 2 ^ 47 ∧
  ELFProgramHeader_has_flag sec.1 ELFPermissionFlags_READABLE = true ∧ Forall frame_ok sec.2.

Definition sections_mapped (m : gmap Z Z) (secs : list (ELFProgramHeader * list Z)) : gmap Z Z :=
  foldl (λ m sec, mapped m (virtual_address sec.1) 0 sec.2) m secs.

Definition sections_pages (secs : list (ELFProgramHeader * list Z)) : nat :=
  sum_list_with (λ sec, length sec.2) secs.

Lemma section_flags_ok ph :
  ELFProgramHeader_has_flag ph ELFPermissionFlags_READABLE = true →
  ∃ f, section_flags ph = Ret f ∧ flag_set f ∧ Z.land f PRESENT = PRESENT.
Proof.
  destruct flag_set_bits as (Hp & Hw & _ & Hx). intros Hr. unfold section_flags. rewrite Hr.
  cbn [rassert mbind outcome_bind]. eexists. split; [done|].
  destruct (ELFProgramHeader_has_flag ph ELFPermissionFlags_WRITABLE),
    (ELFProgramHeader_has_flag ph ELFPermissionFlags_EXECUTABLE); split;
    repeat apply flag_set_lor; try done; rewrite ?Z.land_diag; auto using land_lor_l, land_lor_has.
Qed.

Lemma map_sections_spec secs (s : AddrSpace) m n :
  pt_denotes s m (sections_pages secs + n) → Forall section_ok secs →
  ∃ s', map_sections s secs = Ret s' ∧ pt_denotes s' (sections_mapped m secs) n.
Proof.
  intros Hd Hs. revert s m Hd. induction Hs as [|[ph fs] secs Hsec _ IH]; intros s m Hd;
    cbn [map_sections sections_mapped sections_pages sum_list_with foldl fst snd] in *; [by exists s|].
  destruct Hsec as (Hlo & Hal & Hhi & Hlt & Hr & Hf). cbn [fst snd] in *.
  rewrite (proj2 (Z.leb_le _ _)) by done. cbn [rassert mbind outcome_bind].
  rewrite VirtAddr_new_law by (left; lia). cbn [mbind outcome_bind].
  destruct (section_flags_ok ph Hr) as (fl & -> & Hfs & Hfp). cbn [mbind outcome_bind].
  destruct (map_pages_spec fs s m (sections_pages secs + n) (virtual_address ph) 0 fl)
    as (s1 & -> & Hd1); [by rewrite Nat.add_assoc| |done|done|done|].
  { intros j Hj. split.
    - apply Z.divide_add_r; [done|apply Z.divide_factor_l].
    - left. unfold PAGE_SIZE_BYTES in *. lia. }
  cbn [mbind outcome_bind]. by apply IH.
Qed.

Lemma write_stack_at mem base st off b :
  st !! off = Some b → mem_at (write_stack mem base st) (base + off) = b.
Proof.
  intros E. unfold mem_at, write_stack.
  assert (Inj (=) (=) (Z.add base)) by (intros x y; lia).
  erewrite lookup_union_Some_l; [done|]. by rewrite lookup_kmap.
Qed.

(** The address space of a new process. *)
Definition process_map (idt common pt stack : Z) (secs : list (ELFProgramHeader * list Z))
    : gmap Z Z :=
  sections_mapped
    (mapped (<[PROCESS_COMMON_CODE := common]> (<[0 := idt]> {[HIGHER_HALF_START + pt := pt]}))
       PROCESS_STACK 0 (pages_from stack 2)) secs.

Lemma pages_from_ok f n :
  0 ≤ f → f + Z.of_nat n * PAGE_SIZE_BYTES ≤ 2 ^ 52 → (PAGE_SIZE_BYTES | f) →
  Forall frame_ok (pages_from f n).
Proof.
  intros Hf Hb Hd. apply Forall_forall. intros g Hg. unfold pages_from in Hg.
  apply list_elem_of_fmap in Hg as (i & -> & Hi). apply elem_of_seq in Hi. split.
  - unfold PAGE_SIZE_BYTES in *. lia.
  - apply Z.divide_add_r; [done|apply Z.divide_factor_r].
Qed.

Lemma higher_half_page pt :
  0 ≤ pt < 2 ^ 47 → (PAGE_SIZE_BYTES | pt) →
  phys_to_virt pt = Ret (HIGHER_HALF_START + pt) ∧ page_ok (HIGHER_HALF_START + pt).
Proof.
  intros Hpt Hd. unfold phys_to_virt, HIGHER_HALF_START in *. split.
  - by rewrite (proj2 (Z.ltb_lt _ _)) by (rewrite u64_size_eq; lia).
  - split; [apply Z.divide_add_r; [by exists 0x7fffc000000|done]|right; lia].
Qed.

(** The page table of a new process. *)
Lemma create_table_spec garbage idt common pt stack secs :
  frame_ok idt → frame_ok common → 0 ≤ pt < 2 ^ 47 → (PAGE_SIZE_BYTES | pt) →
  0 ≤ stack → stack + 2 * PAGE_SIZE_BYTES ≤ 2 ^ 52 → (PAGE_SIZE_BYTES | stack) →
  Forall section_ok secs → (sections_pages secs ≤ 250)%nat →
  ∃ pm t s1 s2 s3 s4,
    PageMap_init garbage (HIGHER_HALF_START + pt) pt (HIGHER_HALF_START + pt) = Ret (pm, t) ∧
    map_page (MkAddrSpace _ pm t (HIGHER_HALF_START + pt)) 0 idt
      (Z.lor (Z.lor PRESENT NO_EXECUTE) WRITABLE) = Ret s1 ∧
    map_page s1 PROCESS_COMMON_CODE common PRESENT = Ret s2 ∧
    map_pages s2 PROCESS_STACK 0 (pages_from stack 2)
      (Z.lor (Z.lor PRESENT WRITABLE) NO_EXECUTE) = Ret s3 ∧
    map_sections s3 secs = Ret s4 ∧
    pt_denotes s4 (process_map idt common pt stack secs) (250 - sections_pages secs).
Proof.
  intros Hidt Hcom Hpt Hptd Hst Hst2 Hstd Hsecs Hn.
  destruct (higher_half_page pt Hpt Hptd) as [_ Hpg].
  destruct flag_set_bits as (Hfp & Hfw & _ & Hfx).
  assert (0x1000 | pt) as Hd by (eapply Z.divide_trans; [|done]; by exists 0x200).
  assert (MAX_PAGE_TABLES = 512) as Hmax by done.
  destruct (init_denotes garbage (HIGHER_HALF_START + pt) pt (HIGHER_HALF_START + pt))
    as (pm & t & E0 & Hd0 & Hpm & Hc); [done|lia|unfold frame_addr; lia|done|].
  assert (pt_denotes (MkAddrSpace _ pm t (HIGHER_HALF_START + pt))
    {[HIGHER_HALF_START + pt := pt]} 254) as Hden.
  { cbn. rewrite Hpm, Hc, Hmax. split_and!; [done|unfold frame_addr; lia|done]. }
  destruct (map_page_spec _ _ 253 0 idt (Z.lor (Z.lor PRESENT NO_EXECUTE) WRITABLE) Hden)
    as (s1 & E1 & Hd1); [by apply (page_ok_low 0)|done|by repeat apply flag_set_lor
    |apply land_lor_has, land_lor_l|].
  destruct (map_page_spec _ _ 252 PROCESS_COMMON_CODE common PRESENT Hd1) as (s2 & E2 & Hd2);
    [by apply (page_ok_low 1)|done|done|apply Z.land_diag|].
  destruct (map_pages_spec (pages_from stack 2) s2 _ 250 PROCESS_STACK 0
    (Z.lor (Z.lor PRESENT WRITABLE) NO_EXECUTE) Hd2) as (s3 & E3 & Hd3).
  { intros [|[|j]] Hj; [by apply (page_ok_low 2)|by apply (page_ok_low 3)|].
    cbn [pages_from length fmap list_fmap seq] in Hj. lia. }
  { by apply pages_from_ok. }
  { by repeat apply flag_set_lor. }
  { apply land_lor_has, land_lor_l. }
  replace 250%nat with (sections_pages secs + (250 - sections_pages secs))%nat in Hd3 by lia.
  destruct (map_sections_spec secs s3 _ _ Hd3 Hsecs) as (s4 & E4 & Hd4).
  by exists pm, t, s1, s2, s3, s4.
Qed.

(** ** Properties *)

Lemma create_process_spec garbage idt common pid args elf (a : A) mem :
  args_size_in_memory args + stack_items_fixed * 8 ≤ stack_size_bytes → frame_ok idt → frame_ok common →
  (∀ (b : A) f b', phys_allocate b = Some (f, b') → f < 2 ^ 47) → Forall section_ok (ei_sections elf) →
  (sections_pages (ei_sections elf) ≤ 250)%nat →
  ∃ r a' mem', create_process garbage idt common pid args elf (a, mem) = Ret (r, (a', mem')) ∧
    match r with
    | Ok p => process_id p = pid ∧ repeat_syscall p = false ∧
        stack_pointer p = PROCESS_STACK_END - args_size_in_memory args - stack_items_fixed * 8 ∧
        dynamic_memory (process_memory p) = [] ∧
        pt_denotes (page_table (process_memory p))
          (process_map idt common (p4_addr p) (stack_memory (process_memory p)) (ei_sections elf))
          (250 - sections_pages (ei_sections elf)) ∧
        (∀ i b, stack_image args (program_entry_pos (ei_header elf)) !! i = Some b →
          mem_at mem' (stack_memory (process_memory p) +
            (stack_pointer p - PROCESS_STACK + 8 * 16 + Z.of_nat i)) = b) ∧
        phys_used a' = {[p4_addr p]} ∪
          (list_to_set (pages_from (stack_memory (process_memory p)) 2) ∪ phys_used a)
    | Err _ => phys_used a' = phys_used a ∖ list_to_set (concat (ei_sections elf).*2)
    end.
Proof.
  intros Hargs Hidt Hcom Hlow Hsecs Hn. unfold create_process. change (Z.to_nat PROCESS_STACK_SIZE_PAGES) with 2%nat. cbn [fst snd].
  destruct (phys_allocate_n a 2) as [[stack a1]|] eqn:E1.
  2:{ eexists _, _, _. split; [done|]. cbn. by rewrite phys_free_all. }
  destruct (phys_allocate_n_law a 2 stack a1 E1) as (Hfresh & Hu1 & Hs0 & Hs1 & Hsd).
  destruct (create_stack_spec args (program_entry_pos (ei_header elf))) as (image & -> & Hb).
  { unfold stack_items_fixed in *. lia. }
  cbn [mbind outcome_bind]. destruct (phys_allocate a1) as [[pt a2]|] eqn:E2.
  2:{ eexists _, _, _. split; [done|]. cbn. rewrite phys_free_all, phys_free_n_law, Hu1.
      apply set_eq. intros g. specialize (Hfresh g). set_solver. }
  destruct (phys_allocate_law a1 pt a2 E2) as (_ & Hu2 & Hp0 & Hpd).
  pose proof (Hlow _ _ _ E2) as Hp1.
  destruct (higher_half_page pt ltac:(lia) Hpd) as [-> _]. cbn [mbind outcome_bind].
  destruct (create_table_spec garbage idt common pt stack (ei_sections elf))
    as (pm & t & s1 & s2 & s3 & s4 & Ei & Es1 & Es2 & Es3 & Es4 & Hd);
    [done|done|lia|done|done|lia|done|done|done|].
  rewrite Ei. cbn [mbind outcome_bind]. rewrite Es1. cbn [mbind outcome_bind]. rewrite Es2.
  cbn [mbind outcome_bind]. rewrite Es3. cbn [mbind outcome_bind]. rewrite Es4.
  cbn [mbind outcome_bind]. eexists _, a2, _. split; [done|].
  cbn [process_id repeat_syscall stack_pointer process_memory dynamic_memory page_table p4_addr
    stack_memory]. split_and!; [done|done|done|done|done| |].
  - intros i b Hi. apply write_stack_at. rewrite <- (block_get _ _ Hb i b Hi). cbn [fst snd].
    f_equal. unfold PROCESS_STACK_END, stack_items_fixed. lia.
  - by rewrite Hu2, Hu1.
Qed.

(** All that is written is the stack: its image, and zeros below. *)
Lemma create_process_mem garbage idt common pid args elf (a : A) mem p a' mem' :
  args_size_in_memory args + stack_items_fixed * 8 ≤ stack_size_bytes →
  create_process garbage idt common pid args elf (a, mem) = Ret (Ok p, (a', mem')) →
  ∃ image, block (image, stack_size_bytes - args_size_in_memory args - 40) (stack_image args (program_entry_pos (ei_header elf))) ∧
    ∀ x, mem_at mem' x =
      if decide (stack_memory (process_memory p) ≤ x < stack_memory (process_memory p) + stack_size_bytes)
      then default 0 (image !! (x - stack_memory (process_memory p))) else mem_at mem x.
Proof.
  intros Hargs. unfold create_process. change (Z.to_nat PROCESS_STACK_SIZE_PAGES) with 2%nat. cbn [fst snd].
  destruct (phys_allocate_n a 2) as [[stack a1]|]; [|done].
  destruct (create_stack_spec args (program_entry_pos (ei_header elf))) as (image & -> & Hb);
    [unfold stack_items_fixed in *; lia|]. cbn [mbind outcome_bind].
  destruct (phys_allocate a1) as [[pt a2]|]; [|done]. intros E. outcome_inv. subst. cbn [process_memory stack_memory].
  exists image. split; [done|]. intros x. assert (Inj (=) (=) (Z.add stack)) by (intros ? ?; lia).
  assert (kmap (M1 := gmap Z) (M2 := gmap Z) (Z.add stack) image !! x = image !! (x - stack)) as Hk.
  { replace x with (stack + (x - stack)) at 1 by lia. by rewrite (lookup_kmap (M1 := gmap Z) (M2 := gmap Z) (Z.add stack)). }
  assert (mem_at (foldl zero_frame mem (pages_from stack 2)) x =
    if decide (stack ≤ x < stack + stack_size_bytes) then 0 else mem_at mem x) as Hz.
  { cbn [pages_from fmap list_fmap seq foldl]. rewrite !zero_frame_at. unfold stack_size_bytes, PROCESS_STACK_SIZE_PAGES.
    unfold PAGE_SIZE_BYTES in *. repeat case_decide; lia || done. }
  unfold mem_at at 1, write_stack. destruct (image !! (x - stack)) as [b|] eqn:Eb.
  - pose proof (block_only _ _ Hb (x - stack) ltac:(by eexists)) as Hin. cbn [fst snd] in Hin.
    rewrite (lookup_union_Some_l _ _ _ b) by by rewrite Hk. rewrite decide_True; [done|].
    pose proof (block_top _ _ Hb) as Ht. cbn [snd] in Ht. lia.
  - rewrite lookup_union_r by by rewrite Hk. exact Hz.
Qed.

(** C23: a new process starts with its arguments and return frame on its stack and with an address
    space that holds exactly the shared kernel pages, its stack and its program sections (a later
    mapping of the same page wins); when memory runs out everything allocated is given back. *)
Theorem create_process_exact garbage idt common pid args elf (a : A) mem
    (Hargs : args_size_in_memory args + stack_items_fixed * 8 ≤ stack_size_bytes)
    (Hidt : frame_ok idt) (Hcom : frame_ok common)
    (Hlow : ∀ (b : A) f b', phys_allocate b = Some (f, b') → f < 2 ^ 47)
    (Hsecs : Forall section_ok (ei_sections elf))
    (Hn : (sections_pages (ei_sections elf) ≤ 250)%nat) :
  ∃ r a' mem', create_process garbage idt common pid args elf (a, mem) = Ret (r, (a', mem')) ∧
    match r with
    | Ok p => process_id p = pid ∧ repeat_syscall p = false ∧
        stack_pointer p = PROCESS_STACK_END - args_size_in_memory args - stack_items_fixed * 8 ∧
        dynamic_memory (process_memory p) = [] ∧
        pt_denotes (page_table (process_memory p))
          (process_map idt common (p4_addr p) (stack_memory (process_memory p)) (ei_sections elf))
          (250 - sections_pages (ei_sections elf)) ∧
        (∀ i b, stack_image args (program_entry_pos (ei_header elf)) !! i = Some b →
          mem_at mem' (stack_memory (process_memory p) +
            (stack_pointer p - PROCESS_STACK + 8 * 16 + Z.of_nat i)) = b) ∧
        phys_used a' = {[p4_addr p]} ∪
          (list_to_set (pages_from (stack_memory (process_memory p)) 2) ∪ phys_used a)
    | Err _ => phys_used a' = phys_used a ∖ list_to_set (concat (ei_sections elf).*2)
    end.
Proof. by apply create_process_spec. Qed.

End create_lemmas.

(** A program section may start at the address of the stack: the check in [create_process] lets
    it replace the first stack page. *)
Lemma section_replaces_stack idt common pt stack ph f :
  virtual_address ph = PROCESS_STACK →
  process_map idt common pt stack [(ph, [f])] !! PROCESS_STACK = Some f.
Proof.
  intros E. unfold process_map, sections_mapped. cbn [foldl fst snd mapped]. rewrite E.
  replace (PROCESS_STACK + PAGE_SIZE_BYTES * Z.of_nat 0) with PROCESS_STACK by lia.
  apply lookup_insert_eq.
Qed.

Lemma set_alloc_low (b : gset Z) f b' : phys_allocate b = Some (f, b') → f < 2 ^ 47.
Proof.
  intros Ha. cbn [phys_allocate set_alloc] in Ha. apply bind_Some in Ha as ([k g] & Hf & [= <- _]).
  apply list_find_Some in Hf as (Hg & _ & _). cbn.
  apply list_lookup_fmap_Some in Hg as (j & -> & Hj). apply lookup_seq in Hj as [-> Hj].
  unfold PAGE_SIZE_BYTES. lia.
Qed.

Definition example_elf : ElfImage :=
  MkElfImage (read_header (sub_slice example_image 0 64)) [(example_segment, [0x3000000])].

Lemma create_process_exact_witness :
  ∃ r (a' : gset Z) mem',
    create_process ∅ 0x800000 0xa00000 1 [[0x6c; 0x73]] example_elf ({[0x3000000]} : gset Z, ∅) =
      Ret (r, (a', mem')) ∧
    match r with
    | Ok p => process_id p = 1 ∧ repeat_syscall p = false ∧
        stack_pointer p =
          PROCESS_STACK_END - args_size_in_memory [[0x6c; 0x73]] - stack_items_fixed * 8 ∧
        dynamic_memory (process_memory p) = [] ∧
        pt_denotes (page_table (process_memory p))
          (process_map 0x800000 0xa00000 (p4_addr p) (stack_memory (process_memory p))
            (ei_sections example_elf)) (250 - sections_pages (ei_sections example_elf)) ∧
        (∀ i b, stack_image [[0x6c; 0x73]] (program_entry_pos (ei_header example_elf)) !! i = Some b →
          mem_at mem' (stack_memory (process_memory p) +
            (stack_pointer p - PROCESS_STACK + 8 * 16 + Z.of_nat i)) = b) ∧
        phys_used a' = {[p4_addr p]} ∪
          (list_to_set (pages_from (stack_memory (process_memory p)) 2) ∪
           phys_used ({[0x3000000]} : gset Z))
    | Err _ => phys_used a' =
        phys_used ({[0x3000000]} : gset Z) ∖ list_to_set (concat (ei_sections example_elf).*2)
    end.
Proof.
  apply (create_process_exact ∅ 0x800000 0xa00000 1 [[0x6c; 0x73]] example_elf
    ({[0x3000000]} : gset Z) ∅).
  - vm_compute. discriminate.
  - split; [lia|by exists 4].
  - split; [lia|by exists 5].
  - apply set_alloc_low.
  - apply Forall_singleton. unfold section_ok. cbn [fst snd example_segment virtual_address length].
    split_and!; try lia; [by exists 8|vm_compute; discriminate|reflexivity|].
    apply Forall_singleton. split; [lia|by exists 24].
  - vm_compute. lia.
Defined.
