(* ===== verification/Syscall.v ===== *)
(** * Syscall: system calls (src/syscall/mod.rs, the read side of src/syslog.rs)

    A system call runs on the kernel state and the process taken out of the scheduler.  The
    macros [try_len!], [try_str!] and [try_ipc!] return early, so the calls are written in a
    monad [M] with state, panics and early return.  Time, the random value, the processor check,
    the serialiser of messages and the initial RAM disk are arguments; log output is left out. *)

From stdpp Require Import base gmap list strings.
From Stdlib Require Import ZArith Lia Ascii.
From S2P Require Import Prelude Abi Topic SubscriptionList Queues EventQueue Ipc Clocks Scheduler.
From S2P Require Import Bytes Ranges VirtAlloc PageMap Args ProcessMem Elf Process.
Open Scope Z_scope.

Definition string_of (l : list Z) : string :=
  foldr (λ b s, String (ascii_of_N (Z.to_N b)) s) EmptyString l.
Definition bytes_of (s : string) : list Z :=
  (λ c, Z.of_N (N_of_ascii c)) <$> String.list_ascii_of_string s.

Section syscall.
Context `{HO : HashOrder} `{PC : Pinecone} `{PagingOps} `{!AlignOps}
  {A : Type} `{!PhysAlloc A} {Frame PfCode : Type}.

Abbreviation Result := (ProcessResult Frame PfCode).
Abbreviation Proc := (Process ProcMem).
Abbreviation Sched := (@Scheduler ProcMem).

(** ** Results *)

Inductive SyscallResult :=
| Continue (r : result Z Z)
| SyscallSwitch (r : result Z Z) (w : WaitFor)
| RepeatAfter (w : WaitFor)
| Terminate (r : Result).

Record RawSyscall := MkRawSyscall { routine : Z; arg0 : Z; arg1 : Z; arg2 : Z; arg3 : Z }.

(** ** Kernel state *)

Record kernel := MkKernel {
  k_sched : Sched;
  k_ipc : Manager;
  k_next_event : Z;
  k_virt : list virt.Block;
  k_table : AddrSpace;
  k_phys : A;
  k_mem : gmap Z Z;
  k_dma : list dma.BlockState;
  k_log : list Z;
}.

Definition set_k_sched s k := MkKernel s (k_ipc k) (k_next_event k) (k_virt k) (k_table k)
  (k_phys k) (k_mem k) (k_dma k) (k_log k).
Definition set_k_ipc m n k := MkKernel (k_sched k) m n (k_virt k) (k_table k)
  (k_phys k) (k_mem k) (k_dma k) (k_log k).
Definition set_k_virt v k := MkKernel (k_sched k) (k_ipc k) (k_next_event k) v (k_table k)
  (k_phys k) (k_mem k) (k_dma k) (k_log k).
Definition set_k_table t k := MkKernel (k_sched k) (k_ipc k) (k_next_event k) (k_virt k) t
  (k_phys k) (k_mem k) (k_dma k) (k_log k).
Definition set_k_phys (st : A * gmap Z Z) k := MkKernel (k_sched k) (k_ipc k) (k_next_event k)
  (k_virt k) (k_table k) st.1 st.2 (k_dma k) (k_log k).
Definition set_k_dma d k := MkKernel (k_sched k) (k_ipc k) (k_next_event k) (k_virt k) (k_table k)
  (k_phys k) (k_mem k) d (k_log k).
Definition set_k_log l k := MkKernel (k_sched k) (k_ipc k) (k_next_event k) (k_virt k) (k_table k)
  (k_phys k) (k_mem k) (k_dma k) l.

Definition set_memory (m : ProcMem) (p : Proc) : Proc :=
  MkProcess (p4_addr p) (stack_pointer p) (repeat_syscall p) (process_id p) m.
Definition set_repeat (b : bool) (p : Proc) : Proc :=
  MkProcess (p4_addr p) (stack_pointer p) b (process_id p) (process_memory p).

(** ** The monad *)

Inductive flow (X : Type) := Go (x : X) | Return (r : SyscallResult).
Arguments Go {X} x.
Arguments Return {X} r.

Definition M (X : Type) : Type := kernel * Proc → outcome (flow X * (kernel * Proc)).

#[global] Instance M_ret : MRet M := λ X x s, Ret (Go x, s).
#[global] Instance M_bind : MBind M := λ X Y f m s,
  match m s with
  | Ret (Go x, s) => f x s
  | Ret (Return r, s) => Ret (Return r, s)
  | Panic w => Panic w
  end.

Definition lift {X} (o : outcome X) : M X := λ s, x ← o; Ret (Go x, s).
Definition early {X} (r : SyscallResult) : M X := λ s, Ret (Return r, s).
Definition get_kernel : M kernel := λ s, Ret (Go s.1, s).
Definition get_process : M Proc := λ s, Ret (Go s.2, s).
Definition put_kernel (k : kernel) : M unit := λ s, Ret (Go tt, (k, s.2)).
Definition put_process (p : Proc) : M unit := λ s, Ret (Go tt, (s.1, p)).

Definition err_code (e : SyscallErrorCode) : result Z Z := Err (SyscallErrorCode_into e).

Definition try_len (len : Z) : M Z :=
  if 0x400000000 <? len then early (Continue (err_code too_large)) else mret len.

Definition try_str_m (slice : list Z) : M string :=
  o ← lift (try_str slice);
  match o with
  | Some s => mret (string_of s)
  | None => early (Continue (err_code invalid_utf8))
  end.

Definition try_ipc {X} (r : result X IpcError) : M X :=
  match r with
  | Ok x => mret x
  | Err e => early (Continue (err_code (IpcError_code e)))
  end.

(** ** Access to process memory *)

Definition kernel_phys (t : AddrSpace) (v : Z) : outcome Z :=
  o ← pt_translate t (v - v mod PAGE_SIZE_BYTES);
  f ← expect o "page fault";
  Ret (f + v mod PAGE_SIZE_BYTES).

Definition kernel_read (k : kernel) (v len : Z) : outcome (list Z) :=
  mapM (λ i, a ← kernel_phys (k_table k) (v + i); Ret (mem_at (k_mem k) a)) (seqZ 0 len).

Fixpoint kernel_write (k : kernel) (v : Z) (bytes : list Z) : outcome kernel :=
  match bytes with
  | [] => Ret k
  | b :: bytes =>
      a ← kernel_phys (k_table k) v;
      kernel_write (set_k_phys (k_phys k, <[a := b]> (k_mem k)) k) (v + 1) bytes
  end.

(** A block that holds a slice of process memory: its address and contents are passed to [body],
    and the area is dropped when the block is left, also by an early return.  A slice that is
    not mapped terminates the process. *)
Definition with_slice {X} (flags ptr len : Z) (body : Z → list Z → M X) : M X := λ s,
  let '(k, p) := s in
  '(free, t, o) ← memory_slice flags (k_virt k) (k_table k) (page_table (process_memory p)) ptr len;
  let k := set_k_table t (set_k_virt free k) in
  match o with
  | None => Ret (Return (Terminate (Failed (Pointer ptr))), (k, p))
  | Some (area, start) =>
      bytes ← kernel_read k start len;
      '(r, (k, p)) ← body start bytes (k, p);
      free ← virt.Allocation_drop (k_virt k) area;
      Ret (r, (set_k_virt free k, p))
  end.

Definition with_read {X} (ptr len : Z) (body : list Z → M X) : M X :=
  with_slice PRESENT ptr len (λ _, body).
Definition with_write {X} (ptr len : Z) (body : Z → list Z → M X) : M X :=
  with_slice (Z.lor PRESENT WRITABLE) ptr len body.

(** [.consume_events(sched)] followed by [try_ipc!] *)
Definition consume {X} (r : IpcResult X) : M X :=
  k ← get_kernel;
  let (v, sched) := IpcResult_consume_events r (k_sched k) in
  _ ← put_kernel (set_k_sched sched k);
  try_ipc v.

(** ** The calls *)

(** The machine and boot-time values the calls read. *)
Context (clk : Clock) (now : BSPInstant) (is_bsp : bool) (random : Z)
  (garbage : gmap Z (gmap Z entry)) (idt common : Z)
  (rd : InitRD) (services : gmap SubscriptionId Service)
  (message_to_vec : Message → option (list Z)).

Definition pointer_arg (a : Z) : M Z := lift (VirtAddr_new a).

Definition sc_exit (rsc : RawSyscall) : M SyscallResult := mret (Terminate (Completed (arg0 rsc))).

Definition sc_get_pid (rsc : RawSyscall) : M SyscallResult :=
  p ← get_process; mret (Continue (Ok (process_id p))).

Definition sc_debug_print (rsc : RawSyscall) : M SyscallResult :=
  str_ptr ← pointer_arg (arg1 rsc);
  str_len ← try_len (arg0 rsc);
  with_read str_ptr str_len (λ slice,
    _ ← try_str_m slice;
    mret (Continue (Ok 0))).

Definition sc_exec (rsc : RawSyscall) : M SyscallResult :=
  image_len ← try_len (arg0 rsc);
  args_size ← try_len (arg2 rsc);
  args_ptr ← pointer_arg (arg3 rsc);
  args ← with_read args_ptr args_size (λ slice,
    o ← lift (exec_args slice);
    match o with
    | Some args => mret args
    | None => early (Continue (err_code invalid_utf8))
    end);
  image_ptr ← pointer_arg (arg1 rsc);
  with_read image_ptr image_len (λ slice,
    k ← get_kernel;
    '(r, st) ← lift (load_elf slice (k_phys k, k_mem k));
    _ ← put_kernel (set_k_phys st k);
    match r with
    | Err _ => mret (Continue (err_code out_of_memory))
    | Ok elfimage =>
        '(c, st) ← lift (create_process garbage idt common (next_pid (k_sched k)) args elfimage st);
        (* [Process::create] has been run, with the id [spawn] gives it *)
        '(r, sched) ← lift (Scheduler_spawn (λ _ _ _, Ret c) (k_sched k) (string_of <$> args) elfimage);
        _ ← put_kernel (set_k_sched sched (set_k_phys st k));
        match r with
        | Ok pid => mret (Continue (Ok pid))
        | Err _ => mret (Continue (err_code out_of_memory))
        end
    end).

Definition sc_random (rsc : RawSyscall) : M SyscallResult :=
  mret (SyscallSwitch (Ok random) WaitNone).

Definition sc_sched_yield (rsc : RawSyscall) : M SyscallResult :=
  mret (SyscallSwitch (Ok 0) WaitNone).

Definition sc_sched_sleep_ns (rsc : RawSyscall) : M SyscallResult :=
  if is_bsp then
    t ← lift (BSPInstant_add_ns clk now (arg0 rsc));
    mret (SyscallSwitch (Ok 0) (Time t))
  else lift (Panic "not yet implemented").

Definition sc_ipc_subscribe (rsc : RawSyscall) : M SyscallResult :=
  match SubscriptionFlags_from_bits (arg2 rsc) with
  | None => mret (Terminate (Failed SyscallArgument))
  | Some flags =>
      filter_len ← try_len (arg0 rsc);
      filter_ptr ← pointer_arg (arg1 rsc);
      with_read filter_ptr filter_len (λ slice,
        filter_str ← try_str_m slice;
        filter ← try_ipc
          (match TopicFilter_try_new filter_str (negb (flags_contains flags SubscriptionFlags_PREFIX)) with
           | Some f => Ok f
           | None => Err InvalidTopic
           end);
        k ← get_kernel;
        p ← get_process;
        let (r, m) := Manager_subscribe (k_ipc k) (process_id p) filter
          (flags_contains flags SubscriptionFlags_RELIABLE)
          (flags_contains flags SubscriptionFlags_PIPE) in
        _ ← put_kernel (set_k_ipc m (k_next_event k) k);
        sub_id ← try_ipc (match r with Ok s => Ok s | Err e => Err (Subscription e) end);
        mret (Continue (Ok sub_id)))
  end.

Definition sc_ipc_unsubscribe (rsc : RawSyscall) : M SyscallResult :=
  k ← get_kernel;
  p ← get_process;
  '(r, m) ← lift (Manager_unsubscribe (k_ipc k) (process_id p) (arg0 rsc));
  _ ← put_kernel (set_k_ipc m (k_next_event k) k);
  _ ← consume r;
  mret (Continue (Ok 0)).

(** The topic argument of the sending calls. *)
Definition topic_arg (topic_ptr topic_len : Z) : M Topic :=
  with_read topic_ptr topic_len (λ slice,
    topic_str ← try_str_m slice;
    try_ipc (match Topic_new topic_str with Some t => Ok t | None => Err InvalidTopic end)).

Definition sc_ipc_publish (rsc : RawSyscall) : M SyscallResult :=
  topic_len ← try_len (arg0 rsc);
  topic_ptr ← pointer_arg (arg1 rsc);
  data_len ← try_len (arg2 rsc);
  data_ptr ← pointer_arg (arg3 rsc);
  topic ← topic_arg topic_ptr topic_len;
  with_read data_ptr data_len (λ data_slice,
    k ← get_kernel;
    '(r, m) ← lift (Manager_publish (k_ipc k) topic data_slice);
    _ ← put_kernel (set_k_ipc m (k_next_event k) k);
    _ ← consume r;
    mret (Continue (Ok 0))).

Definition sc_ipc_deliver (rsc : RawSyscall) : M SyscallResult :=
  topic_len ← try_len (arg0 rsc);
  topic_ptr ← pointer_arg (arg1 rsc);
  data_len ← try_len (arg2 rsc);
  data_ptr ← pointer_arg (arg3 rsc);
  k ← get_kernel;
  p ← get_process;
  if Manager_delivery_complete (k_ipc k) (process_id p) then
    '(r, m) ← lift (Manager_after_delivery (k_ipc k) (process_id p));
    _ ← put_kernel (set_k_ipc m (k_next_event k) k);
    _ ← consume r;
    mret (Continue (Ok 0))
  else
    topic ← topic_arg topic_ptr topic_len;
    with_read data_ptr data_len (λ data_slice,
      k ← get_kernel;
      '(r, m, n) ← lift (Manager_deliver rd services (k_ipc k) (process_id p) topic data_slice
                           (k_next_event k));
      _ ← put_kernel (set_k_ipc m n k);
      deliver ← consume r;
      match deliver with
      | DeliverProcess event => mret (RepeatAfter (Event event))
      | DeliverKernel => mret (Continue (Ok 0))
      end).

Definition sc_ipc_deliver_reply (rsc : RawSyscall) : M SyscallResult :=
  topic_len ← try_len (arg0 rsc);
  topic_ptr ← pointer_arg (arg1 rsc);
  data_len ← try_len (arg2 rsc);
  data_ptr ← pointer_arg (arg3 rsc);
  topic ← topic_arg topic_ptr topic_len;
  with_read data_ptr data_len (λ data_slice,
    k ← get_kernel;
    p ← get_process;
    '(r, m) ← lift (Manager_deliver_reply (k_ipc k) (process_id p) topic data_slice);
    _ ← put_kernel (set_k_ipc m (k_next_event k) k);
    _ ← consume r;
    mret (Continue (Ok 0))).

Definition sc_ipc_receive (rsc : RawSyscall) : M SyscallResult :=
  buf_len ← try_len (arg1 rsc);
  buf_ptr ← pointer_arg (arg2 rsc);
  with_write buf_ptr buf_len (λ start slice,
    k ← get_kernel;
    p ← get_process;
    '(r, m, n) ← lift (Manager_receive (k_ipc k) (process_id p) (arg0 rsc) (k_next_event k));
    _ ← put_kernel (set_k_ipc m n k);
    message_or_event ← consume r;
    match message_or_event with
    | Err event => mret (RepeatAfter (Event event))
    | Ok msg =>
        ser_msg ← lift (unwrap (message_to_vec msg));
        _ ← lift (rassert (length ser_msg <=? length slice)%nat "Buffer too small");
        k ← get_kernel;
        k ← lift (kernel_write k start ser_msg);
        _ ← put_kernel k;
        mret (Continue (Ok (Z.of_nat (length ser_msg))))
    end).

Definition sc_ipc_acknowledge (rsc : RawSyscall) : M SyscallResult :=
  k ← get_kernel;
  '(r, m) ← lift (Manager_acknowledge (k_ipc k) (arg0 rsc) (arg1 rsc) (negb (arg2 rsc =? 0)));
  _ ← put_kernel (set_k_ipc m (k_next_event k) k);
  _ ← consume r;
  mret (Continue (Ok 0)).

(** [chunks_exact(8)] *)
Fixpoint chunks_exact_8 (l : list Z) : list (list Z) :=
  match l with
  | b0 :: b1 :: b2 :: b3 :: b4 :: b5 :: b6 :: b7 :: l => [b0; b1; b2; b3; b4; b5; b6; b7] :: chunks_exact_8 l
  | _ => []
  end.

Fixpoint select_loop (chunks : list (list Z)) (index : Z) (blocking : bool)
    (conditions : list WaitFor) : M SyscallResult :=
  match chunks with
  | [] =>
      if negb blocking then mret (Continue (err_code would_block))
      else mret (RepeatAfter (FirstOf conditions))
  | sub_bytes :: chunks =>
      k ← get_kernel;
      '(condition, m, n) ← lift (Manager_waiting_for (k_ipc k) (from_le sub_bytes) (k_next_event k));
      _ ← put_kernel (set_k_ipc m n k);
      if bool_decide (condition = WaitNone) then mret (Continue (Ok index))
      else select_loop chunks (index + 1) blocking (conditions ++ [condition])
  end.

Definition sc_ipc_select (rsc : RawSyscall) : M SyscallResult :=
  if arg0 rsc =? 0 then mret (Continue (err_code empty_list_argument))
  else
    subs ← pointer_arg (arg1 rsc);
    let blocking := arg2 rsc =? 0 in
    size ← lift (mul64 (arg0 rsc) 8);
    len ← try_len size;
    with_read subs len (λ subs_slice, select_loop (chunks_exact_8 subs_slice) 0 blocking []).

(** [syslog::syscall_read]: the bytes copied to the buffer, and the rest of the log. *)
Definition syslog_syscall_read (wal : list Z) (buffer_len : Z) : list Z * list Z :=
  let count := Z.to_nat (Z.min (Z.of_nat (length wal)) buffer_len) in
  (take count wal, drop count wal).

Definition sc_kernel_log_read (rsc : RawSyscall) : M SyscallResult :=
  buf_len ← try_len (arg0 rsc);
  buf_ptr ← pointer_arg (arg1 rsc);
  with_write buf_ptr buf_len (λ start slice,
    k ← get_kernel;
    let (read, rest) := syslog_syscall_read (k_log k) (Z.of_nat (length slice)) in
    k ← lift (kernel_write (set_k_log rest k) start read);
    _ ← put_kernel k;
    mret (Continue (Ok (Z.of_nat (length read))))).

Definition sc_irq_set_handler (rsc : RawSyscall) : M SyscallResult :=
  lift (Panic "not yet implemented").

(** [for (i, frame) in frames.enumerate()] over the inclusive range of frames. *)
Fixpoint mmap_loop (n : nat) (i : Z) (t : AddrSpace) (virt_addr frame flags : Z)
    : outcome AddrSpace :=
  match n with
  | O => Ret t
  | S n =>
      page ← VirtAddr_new (virt_addr + i * PAGE_SIZE_BYTES);
      t ← pt_map_to t page (frame + i * PAGE_SIZE_BYTES) flags;
      mmap_loop n (i + 1) t virt_addr frame flags
  end.

Definition sc_mmap_physical (rsc : RawSyscall) : M SyscallResult :=
  phys_addr ← lift (PhysAddr_new (arg1 rsc));
  virt_addr ← pointer_arg (arg2 rsc);
  match MemoryProtectionFlags_from_bits (arg3 rsc mod 256) with
  | None => mret (Continue (err_code mmap_invalid_protection_flags))
  | Some flags =>
      if negb (flags =? MemoryProtectionFlags_READ) &&
         negb (flags =? Z.lor MemoryProtectionFlags_READ MemoryProtectionFlags_WRITE)
      then mret (Continue (err_code mmap_invalid_protection_flags))
      else
        let writable := negb (flags =? MemoryProtectionFlags_READ) in
        let flags := if writable then Z.lor (Z.lor PRESENT NO_EXECUTE) WRITABLE
                     else Z.lor PRESENT NO_EXECUTE in
        if negb (align_down_to virt_addr PAGE_SIZE_BYTES =? virt_addr) then
          mret (Continue (err_code ptr_unaligned))
        else if negb (align_down_to phys_addr PAGE_SIZE_BYTES =? phys_addr) then
          mret (Continue (err_code ptr_unaligned))
        else
          e ← lift (add64 phys_addr (arg0 rsc));
          e ← lift (PhysAddr_new e);
          let start := align_down_to phys_addr PAGE_SIZE_BYTES in
          let last := align_down_to e PAGE_SIZE_BYTES in
          p ← get_process;
          let pm := process_memory p in
          t ← lift (mmap_loop (S (Z.to_nat ((last - start) / PAGE_SIZE_BYTES))) 0 (page_table pm)
                      virt_addr start flags);
          _ ← put_process (set_memory (MkProcMem t (stack_memory pm) (dynamic_memory pm)
                             (elf_image pm)) p);
          mret (Continue (Ok 0))
  end.

Definition sc_dma_allocate (rsc : RawSyscall) : M SyscallResult :=
  _ ← lift (rassert (negb (arg0 rsc =? 0)) "len != 0");
  k ← get_kernel;
  '(region, blocks) ← lift (dma.Allocator_allocate (k_dma k) (arg0 rsc));
  _ ← put_kernel (set_k_dma blocks k);
  mret (Continue (Ok (dma.start region))).

Definition sc_dma_free (rsc : RawSyscall) : M SyscallResult := mret (Continue (Ok 0)).

(** The changes of a memory call to the process and the allocator.  A new allocation is pushed to
    the end of [dynamic_memory], and its frame is zeroed. *)
Definition mem_result (c : outcome (AddrSpace * list Z * A * result unit SyscallErrorCode))
    : M SyscallResult :=
  '(t, dynamic, a, r) ← lift c;
  k ← get_kernel;
  p ← get_process;
  let new := drop (length (dynamic_memory (process_memory p))) dynamic in
  _ ← put_kernel (set_k_phys (a, foldl zero_frame (k_mem k) new) k);
  _ ← put_process (set_memory (MkProcMem t (stack_memory (process_memory p)) dynamic
                     (elf_image (process_memory p))) p);
  mret (Continue (match r with Ok _ => Ok 0 | Err code => err_code code end)).

Definition sc_mem_alloc (rsc : RawSyscall) : M SyscallResult :=
  area_ptr ← pointer_arg (arg1 rsc);
  match MemoryProtectionFlags_from_bits (arg2 rsc mod 256) with
  | None => mret (Continue (err_code mmap_invalid_protection_flags))
  | Some flags =>
      k ← get_kernel;
      p ← get_process;
      let pm := process_memory p in
      mem_result (memory_alloc (page_table pm) (dynamic_memory pm) (k_phys k) area_ptr (arg0 rsc) flags)
  end.

Definition sc_mem_dealloc (rsc : RawSyscall) : M SyscallResult :=
  area_ptr ← pointer_arg (arg1 rsc);
  k ← get_kernel;
  p ← get_process;
  let pm := process_memory p in
  mem_result (memory_dealloc (page_table pm) (dynamic_memory pm) (k_phys k) area_ptr (arg0 rsc)).

Definition syscall (rsc : RawSyscall) : M SyscallResult :=
  match SyscallNumber_try_from (routine rsc) with
  | None => mret (Terminate (Failed (SyscallNumberError (routine rsc))))
  | Some sc =>
      match sc with
      | SC_exit => sc_exit rsc
      | SC_get_pid => sc_get_pid rsc
      | SC_debug_print => sc_debug_print rsc
      | SC_exec => sc_exec rsc
      | SC_random => sc_random rsc
      | SC_sched_yield => sc_sched_yield rsc
      | SC_sched_sleep_ns => sc_sched_sleep_ns rsc
      | SC_ipc_subscribe => sc_ipc_subscribe rsc
      | SC_ipc_unsubscribe => sc_ipc_unsubscribe rsc
      | SC_ipc_publish => sc_ipc_publish rsc
      | SC_ipc_deliver => sc_ipc_deliver rsc
      | SC_ipc_deliver_reply => sc_ipc_deliver_reply rsc
      | SC_ipc_receive => sc_ipc_receive rsc
      | SC_ipc_acknowledge => sc_ipc_acknowledge rsc
      | SC_ipc_select => sc_ipc_select rsc
      | SC_kernel_log_read => sc_kernel_log_read rsc
      | SC_irq_set_handler => sc_irq_set_handler rsc
      | SC_mmap_physical => sc_mmap_physical rsc
      | SC_dma_allocate => sc_dma_allocate rsc
      | SC_dma_free => sc_dma_free rsc
      | SC_mem_alloc => sc_mem_alloc rsc
      | SC_mem_dealloc => sc_mem_dealloc rsc
      end
  end.

(** ** Entry *)

Inductive SyscallResultAction :=
| ActTerminate (r : Result)
| ActContinue
| ActSwitch (w : WaitFor).

(** The result of a call, however it was returned. *)
Definition run_syscall (rsc : RawSyscall) (s : kernel * Proc)
    : outcome (SyscallResult * (kernel * Proc)) :=
  '(f, s) ← syscall rsc s;
  Ret (match f with Go r => r | Return r => r end, s).

(** Result registers on the process stack: success flag in [rax], value in [rdi]. *)
Definition write_result (r : result Z Z) (s : kernel * Proc) : outcome (kernel * Proc) :=
  let '(k, p) := s in
  let sm := stack_memory (process_memory p) in
  mem ← write_stack_u64 (k_mem k) sm (stack_pointer p) 0 (match r with Ok _ => 1 | Err _ => 0 end);
  mem ← write_stack_u64 mem sm (stack_pointer p) 5 (match r with Ok v => v | Err v => v end);
  Ret (set_k_phys (k_phys k, mem) k, p).

Definition handle_syscall (pid : ProcessId) (k : kernel)
    : outcome (SyscallResultAction * kernel) :=
  _ ← rassert is_bsp "Cannot do syscalls with non-BSP cores yet";
  let (o, sched) := Scheduler_take_process_by_id (k_sched k) pid in
  process ← expect o "Process not found";
  let k := set_k_sched sched k in
  let sm := stack_memory (process_memory process) in
  let sp := stack_pointer process in
  reg_rax ← read_stack_u64 (k_mem k) sm sp 0;
  reg_rdi ← read_stack_u64 (k_mem k) sm sp 5;
  reg_rsi ← read_stack_u64 (k_mem k) sm sp 4;
  reg_rdx ← read_stack_u64 (k_mem k) sm sp 3;
  reg_rcx ← read_stack_u64 (k_mem k) sm sp 2;
  '(res, s) ← run_syscall (MkRawSyscall reg_rax reg_rdi reg_rsi reg_rdx reg_rcx) (k, process);
  '(k, process) ← match res with
    | Continue r | SyscallSwitch r _ => write_result r s
    | _ => Ret s
    end;
  let process := set_repeat (match res with RepeatAfter _ => true | _ => false end) process in
  let action := match res with
    | Continue _ => ActContinue
    | SyscallSwitch _ s => ActSwitch s
    | Terminate r => ActTerminate r
    | RepeatAfter s => ActSwitch s
    end in
  Ret (action, set_k_sched (Scheduler_give_back_process (k_sched k) process) k).

End syscall.

Arguments Go {Frame PfCode X} x.
Arguments Return {Frame PfCode X} r.
