(* ===== verification/SyscallProps.v ===== *)
(** * SyscallProps: what system calls may change

    A logic of triples for the monad of [Syscall], the frame of all calls (no call touches another
    process, and the scheduler keeps its invariant), and the saved registers of a process, from
    which the entry point reads the call and to which it writes the result. *)

From stdpp Require Import base gmap list strings.
From Stdlib Require Import ZArith Lia.
From S2P Require Import Prelude Abi Topic SubscriptionList Queues EventQueue Ipc IpcProps.
From S2P Require Import IpcCalls Clocks Scheduler SchedulerProps Bytes Ranges VirtAlloc PageMap.
From S2P Require Import Args ProcessMem Elf Process Syscall.
Open Scope Z_scope.

(** ** Events and the process that was taken out *)

Section give_back.
Context `{HO : HashOrder} {Mem : Type}.

Lemma give_back_event (s : Scheduler Mem) (p : Process Mem) e :
  Scheduler_give_back_process (Scheduler_on_explicit_event s e) p =
  Scheduler_on_explicit_event (Scheduler_give_back_process s p) e.
Proof. done. Qed.

Lemma events_give_back es (s : Scheduler Mem) (p : Process Mem) :
  Scheduler_give_back_process (foldl on_explicit_event s es) p =
  foldl on_explicit_event (Scheduler_give_back_process s p) es.
Proof. revert s. induction es as [|e es IH]; intros s; cbn; [done|]. by rewrite IH. Qed.

Lemma events_processes es (s : Scheduler Mem) :
  processes (foldl on_explicit_event s es) = processes s ∧
  sched_running (foldl on_explicit_event s es) = sched_running s ∧
  next_pid (foldl on_explicit_event s es) = next_pid s.
Proof.
  revert s. induction es as [|e es IH]; intros s; cbn [foldl]; [done|].
  by destruct (IH (on_explicit_event s e)) as (-> & -> & ->).
Qed.

Lemma events_wf es (s : Scheduler Mem) :
  sched_wf s → sched_wf (foldl on_explicit_event s es).
Proof.
  revert s. induction es as [|e es IH]; intros s Hs; cbn [foldl]; [done|].
  apply IH. by apply (event_ok (ok := sched_wf)).
Qed.

(** Starting a process while another one is taken out. *)
Lemma spawn_give_back {Elf} (x : result (Process Mem) unit) (s s' : Scheduler Mem) p args (elf : Elf) r :
  Scheduler_spawn (λ _ _ _, Ret x) s args elf = Ret (r, s') →
  sched_wf (Scheduler_give_back_process s p) → is_Some (processes (Scheduler_give_back_process s p) !! process_id p) →
  next_pid s ≤ u64_max → (∀ y, x = Ok y → process_id y = next_pid s) →
  sched_wf (Scheduler_give_back_process s' p) ∧ next_pid s' ≤ u64_max ∧
  sched_running s' = sched_running s ∧
  (∀ q y, processes s !! q = Some y → processes s' !! q = Some y) ∧
  (∀ q y, processes s' !! q = Some y → processes s !! q = Some y ∨ x = Ok y).
Proof.
  intros E Hwf Hin Hmax Hid. pose proof (sw_next _ Hwf _ Hin) as Hlt. cbn in Hlt.
  assert (next_pid s ≠ u64_max) as Hne.
  { intros Heq. unfold Scheduler_spawn, ProcessId_next in E. rewrite Heq in E. done. }
  destruct (spawn_spec (λ _ _ _, Ret x) (Scheduler_give_back_process s p) args elf x Hwf)
    as (r' & s2 & E2 & Hwf2 & _); [cbn; lia|done|done|].
  unfold Scheduler_spawn in E, E2. cbn [next_pid Scheduler_give_back_process set_processes] in E2.
  rewrite ProcessId_next_ret in E, E2 by lia. cbn [mbind outcome_bind] in E, E2.
  assert (∀ y, processes s !! next_pid s = Some y → False) as Hfresh.
  { intros y Hy. destruct (sw_next _ Hwf (next_pid s)) as [_ ?]; [|cbn in *; lia].
    cbn. apply lookup_insert_is_Some'. eauto. }
  destruct x as [y|e]; cbn in E, E2.
  - simplify_eq E. simplify_eq E2.
    intros <- <- <- <-. cbn. split_and!; [|unfold u64_max in *; lia|done| |].
    + unfold Scheduler_give_back_process, set_processes. cbn. rewrite insert_insert_ne by lia.
      exact Hwf2.
    + intros q z Hq. rewrite lookup_insert_ne; [done|]. intros <-. by eapply Hfresh.
    + intros q z [[_ ->]|[_ ?]]%lookup_insert_Some; auto.
  - simplify_eq E. simplify_eq E2. intros <- <- <- <-. cbn.
    split_and!; [exact Hwf2|unfold u64_max in *; lia|done|done|auto].
Qed.

End give_back.

(** ** Triples *)

Section triples.
Context `{HO : HashOrder} `{PC : Pinecone} `{PagingOps} `{!AlignOps}
  {A : Type} `{!PhysAlloc A} {Frame PfCode : Type}.

Abbreviation Proc := (Process ProcMem).
Abbreviation state := (kernel (A := A) * Proc)%type.
Abbreviation MM := (M (A := A) (Frame := Frame) (PfCode := PfCode)).

(** [Q] holds of every result of [m] in [s]. *)
Definition wpM {X} (m : MM X) (Q : flow X → state → Prop) (s : state) : Prop :=
  ∀ f s', m s = Ret (f, s') → Q f s'.

Lemma wp_bind {X Y} (m : MM X) (g : X → MM Y) Q s :
  wpM m (λ f s', match f with Go x => wpM (g x) Q s' | Return r => Q (Return r) s' end) s →
  wpM (mbind g m) Q s.
Proof.
  intros Hm f s' E. unfold mbind, M_bind in E. destruct (m s) as [[[x|r] s1]|] eqn:Em; [| |done].
  - exact (Hm _ _ Em _ _ E).
  - injection E as <- <-. exact (Hm _ _ Em).
Qed.

Lemma wp_mono {X} (m : MM X) (Q Q' : flow X → state → Prop) s :
  wpM m Q s → (∀ f k p, Q f (k, p) → Q' f (k, p)) → wpM m Q' s.
Proof. intros Hm HQ f [k p] E. apply HQ. by apply Hm. Qed.

Lemma wp_ret {X} (x : X) (Q : flow X → state → Prop) s : Q (Go x) s → wpM (mret x) Q s.
Proof. by intros HQ f s' [= <- <-]. Qed.

Lemma wp_early {X} r (Q : flow X → state → Prop) s : Q (Return r) s → wpM (early r) Q s.
Proof. by intros HQ f s' [= <- <-]. Qed.

Lemma wp_lift {X} (o : outcome X) (Q : flow X → state → Prop) s :
  (∀ x, o = Ret x → Q (Go x) s) → wpM (lift o) Q s.
Proof.
  intros HQ f s' E. unfold lift in E. apply outcome_bind_ret in E as (x & Ex & [= <- <-]).
  by apply HQ.
Qed.

Lemma wp_get_kernel (Q : flow kernel → state → Prop) s : Q (Go s.1) s → wpM get_kernel Q s.
Proof. by intros HQ f s' [= <- <-]. Qed.
Lemma wp_get_process (Q : flow Proc → state → Prop) s : Q (Go s.2) s → wpM get_process Q s.
Proof. by intros HQ f s' [= <- <-]. Qed.
Lemma wp_put_kernel k (Q : flow unit → state → Prop) s :
  Q (Go tt) (k, s.2) → wpM (put_kernel k) Q s.
Proof. by intros HQ f s' [= <- <-]. Qed.
Lemma wp_put_process p (Q : flow unit → state → Prop) s :
  Q (Go tt) (s.1, p) → wpM (put_process p) Q s.
Proof. by intros HQ f s' [= <- <-]. Qed.

(** ** The frame of a call *)

(** The scheduler as it is once the process is given back. *)
Definition sched_of (s : state) : Scheduler ProcMem :=
  Scheduler_give_back_process (k_sched s.1) s.2.

Definition sys_wf (s : state) : Prop := sched_wf (sched_of s) ∧ next_pid (k_sched s.1) ≤ u64_max.

(** The process keeps its identity and its stack, and the other processes are untouched. *)
Record stays (s0 s : state) : Prop := {
  st_wf : sys_wf s;
  st_id : process_id s.2 = process_id s0.2;
  st_p4 : p4_addr s.2 = p4_addr s0.2;
  st_sp : stack_pointer s.2 = stack_pointer s0.2;
  st_stack : stack_memory (process_memory s.2) = stack_memory (process_memory s0.2);
  st_running : sched_running (k_sched s.1) = sched_running (k_sched s0.1);
  st_others : ∀ q x, processes (k_sched s0.1) !! q = Some x → processes (k_sched s.1) !! q = Some x;
  st_new : ∀ q x, processes (k_sched s.1) !! q = Some x →
    processes (k_sched s0.1) !! q = Some x ∨ repeat_syscall x = false;
}.

Lemma stays_refl s : sys_wf s → stays s s.
Proof. split; auto. Qed.

(** Changes to the rest of the kernel. *)
Lemma stays_kernel s0 k k' p : k_sched k' = k_sched k → stays s0 (k, p) → stays s0 (k', p).
Proof.
  intros E [[H1 H2] ? ? ? ? ? ? ?]. unfold sched_of in *. cbn in *.
  split; unfold sys_wf, sched_of; cbn; by rewrite ?E.
Qed.

Lemma give_back_same (s : Scheduler ProcMem) p p' :
  process_id p' = process_id p →
  sched_wf (Scheduler_give_back_process s p) → sched_wf (Scheduler_give_back_process s p').
Proof.
  intros Hid [Hq Hall Hout Hi Hn Hp]. split; cbn in *; try done.
  - intros q. rewrite <- Hall, !lookup_insert_is_Some', Hid. done.
  - intros q x [[<- <-]|[? ?]]%lookup_insert_Some; [done|]. apply Hi.
    rewrite lookup_insert_ne by congruence. done.
  - intros q. rewrite lookup_insert_is_Some', Hid. intros ?. apply Hn.
    by rewrite lookup_insert_is_Some'.
Qed.

Lemma stays_process s0 k p p' :
  process_id p' = process_id p → p4_addr p' = p4_addr p → stack_pointer p' = stack_pointer p →
  stack_memory (process_memory p') = stack_memory (process_memory p) →
  stays s0 (k, p) → stays s0 (k, p').
Proof.
  intros E1 E2 E3 E4 [[H1 H2] ? ? ? ? ? ? ?]. cbn in *. split; cbn; try done; try congruence.
  split; [|done]. by eapply give_back_same.
Qed.

Lemma stays_events s0 k p es :
  stays s0 (k, p) → stays s0 (set_k_sched (foldl on_explicit_event (k_sched k) es) k, p).
Proof.
  intros [[H1 H2] ? ? ? ? Hr Ho Hw]. cbn in *.
  destruct (events_processes es (k_sched k)) as (Ep & Er & En).
  pose proof (events_wf es _ H1) as Hwf. unfold sched_of in Hwf. rewrite <- events_give_back in Hwf.
  cbn [fst snd] in Hwf. set (sched := foldl _ _ _) in *.
  split; cbn; rewrite ?Ep, ?Er; try done. split; cbn; [done|by rewrite En].
Qed.

Lemma stays_spawn s0 k p st (c : result Proc unit) args (elf : ElfImage) r sched :
  stays s0 (k, p) → Scheduler_spawn (λ _ _ _, Ret c) (k_sched k) args elf = Ret (r, sched) →
  (∀ y, c = Ok y → process_id y = next_pid (k_sched k) ∧ repeat_syscall y = false) →
  stays s0 (set_k_sched sched (set_k_phys st k), p).
Proof.
  intros [[H1 H2] ? ? ? ? Hr Ho Hw] E Hc. cbn in *.
  destruct (spawn_give_back c (k_sched k) sched p args elf r E H1) as (Hwf & Hn & Hr' & Ho' & Hw');
    [|done|naive_solver|].
  { cbn. apply lookup_insert_is_Some'. by left. }
  split; cbn; [by split|done|done|done|done|congruence|auto|].
  intros q x Hx. destruct (Hw' q x Hx) as [?|?]; [auto|right; by apply Hc].
Qed.

Lemma create_process_id garbage idt common pid args elf st p st' :
  create_process garbage idt common pid args elf st = Ret (Ok p, st') →
  process_id p = pid ∧ repeat_syscall p = false.
Proof.
  unfold create_process. intros E. repeat case_match; outcome_inv; try done.
  repeat case_match; outcome_inv; try done. by simplify_eq.
Qed.

(** ** Composite operations *)

(** Mapping a slice changes the address space of the kernel only. *)
Definition same_but_space (k k' : kernel (A := A)) : Prop :=
  k_sched k' = k_sched k ∧ k_ipc k' = k_ipc k ∧ k_next_event k' = k_next_event k ∧ k_mem k' = k_mem k.

Lemma kernel_read_length (k : kernel (A := A)) v len bytes :
  kernel_read k v len = Ret bytes → length bytes = Z.to_nat len.
Proof.
  unfold kernel_read. intros E. rewrite <- (length_seqZ 0 len). revert bytes E.
  induction (seqZ 0 len) as [|x l IH]; intros bytes E; cbn in E; [by injection E as <-|].
  outcome_inv. injection E as <-. cbn. f_equal. by apply IH.
Qed.

Lemma wp_slice {X} flags ptr len (body : Z → list Z → MM X) (Q : flow X → state → Prop) k p :
  (∀ k' start bytes, same_but_space k k' → length bytes = Z.to_nat len →
    wpM (body start bytes) (λ f s, ∀ free, Q f (set_k_virt free s.1, s.2)) (k', p)) →
  (∀ k', same_but_space k k' → Q (Return (Terminate (Failed (Pointer ptr)))) (k', p)) →
  wpM (with_slice flags ptr len body) Q (k, p).
Proof.
  intros Hb Hr f s' E. unfold with_slice in E. outcome_inv.
  match goal with o : option _ |- _ => destruct o as [[area start]|] end.
  - outcome_inv. simplify_eq.
    match goal with Hm : body _ _ _ = _, Hk : kernel_read _ _ _ = _ |- _ =>
      by refine (Hb _ _ _ _ (kernel_read_length _ _ _ _ Hk) _ _ Hm _) end.
  - simplify_eq. by apply Hr.
Qed.

(** [Q] does not depend on the virtual address space. *)
Lemma wp_with_slice {X} flags ptr len (body : Z → list Z → MM X) (Q : flow X → state → Prop) k p :
  (∀ k' start bytes, k_sched k' = k_sched k →
    wpM (body start bytes) (λ f s, ∀ free, Q f (set_k_virt free s.1, s.2)) (k', p)) →
  (∀ k' r, k_sched k' = k_sched k → Q (Return r) (k', p)) →
  wpM (with_slice flags ptr len body) Q (k, p).
Proof. intros Hb Hr. apply wp_slice; [intros ? ? ? (? & _) _|intros ? (? & _)]; eauto. Qed.

Lemma wp_consume {X} (r : IpcResult X) (Q : flow X → state → Prop) s0 k p :
  stays s0 (k, p) →
  (∀ f k', stays s0 (k', p) → Q f (k', p)) → wpM (consume r) Q (k, p).
Proof.
  intros Hs HQ f s' E. unfold consume in E. destruct r as [v es].
  pose proof (stays_events s0 k p (hash_order es) Hs) as Hs'.
  destruct v; cbn in E; injection E as <- <-; by apply HQ.
Qed.

Lemma kernel_write_sched (k : kernel (A := A)) v bytes k' :
  kernel_write k v bytes = Ret k' → k_sched k' = k_sched k.
Proof.
  revert k v. induction bytes as [|b bytes IH]; intros k v E; cbn in E; [by injection E as ->|].
  outcome_inv. by apply IH in E as ->.
Qed.

End triples.

(** The kernel at hand differs from one known to be fine outside the scheduler. *)
Ltac sys_stays :=
  match goal with
  | H : stays ?s0 (?k, ?p) |- stays ?s0 (?k', ?p) =>
      apply (stays_kernel s0 k k' p); [cbn in *; congruence|exact H]
  | |- stays ?s0 (?k', set_memory _ ?p) => apply (stays_process s0 k' p); [done|done|done|done|sys_stays]
  end.

Ltac wp_step :=
  cbn [fst snd];
  first
    [ match goal with H : stays ?s0 _ |- wpM (consume _) _ _ =>
        apply (wp_consume _ _ s0); [sys_stays|intros [] ? ?]
      end
    | apply wp_bind | apply wp_ret | apply wp_early
    | (apply wp_lift; intros ? ?;
       try match goal with E : kernel_write _ _ _ = _ |- _ => apply kernel_write_sched in E end)
    | apply wp_get_kernel | apply wp_get_process
    | apply wp_put_kernel | apply wp_put_process
    | (apply wp_with_slice; [intros ? ? ? ?|intros ? ? ?])
    | match goal with |- ∀ _, _ => intros ? end
    | sys_stays
    | case_match; try discriminate; simplify_eq ].

Ltac sys_call :=
  intros ? ? ? ?;
  unfold topic_arg, pointer_arg, try_len, with_read, with_write, try_str_m, try_ipc, mem_result;
  repeat wp_step.

(** ** The calls *)

Section calls.
Context `{HO : HashOrder} `{PC : Pinecone} `{PagingOps} `{!AlignOps}
  {A : Type} `{!PhysAlloc A} {Frame PfCode : Type}.
Context (clk : Clock) (now : BSPInstant) (is_bsp : bool) (random : Z)
  (garbage : gmap Z (gmap Z entry)) (idt common : Z)
  (rd : InitRD) (services : gmap SubscriptionId Service)
  (message_to_vec : Message → option (list Z)).

Abbreviation Proc := (Process ProcMem).
Abbreviation state := (kernel (A := A) * Proc)%type.
Abbreviation MM := (M (A := A) (Frame := Frame) (PfCode := PfCode)).

Abbreviation SR := (SyscallResult (Frame := Frame) (PfCode := PfCode)).

(** A call whose results all keep the frame. *)
Definition framed {X} (m : MM X) : Prop :=
  ∀ s0 k p, stays s0 (k, p) → wpM m (λ _ s, stays s0 s) (k, p).

Lemma exit_framed rsc : framed (sc_exit rsc).
Proof. unfold sc_exit. sys_call. Qed.

Lemma get_pid_framed rsc : framed (sc_get_pid rsc).
Proof. unfold sc_get_pid. sys_call. Qed.

Lemma debug_print_framed rsc : framed (sc_debug_print rsc).
Proof. unfold sc_debug_print. sys_call. Qed.

Lemma random_framed rsc : framed (sc_random random rsc).
Proof. unfold sc_random. sys_call. Qed.

Lemma sched_yield_framed rsc : framed (sc_sched_yield rsc).
Proof. unfold sc_sched_yield. sys_call. Qed.

Lemma ipc_subscribe_framed rsc : framed (sc_ipc_subscribe rsc).
Proof. unfold sc_ipc_subscribe. sys_call. Qed.

Lemma ipc_unsubscribe_framed rsc : framed (sc_ipc_unsubscribe rsc).
Proof. unfold sc_ipc_unsubscribe. sys_call. Qed.

Lemma ipc_publish_framed rsc : framed (sc_ipc_publish rsc).
Proof. unfold sc_ipc_publish. sys_call. Qed.

Lemma ipc_deliver_framed rsc : framed (sc_ipc_deliver rd services rsc).
Proof. unfold sc_ipc_deliver. sys_call. Qed.

Lemma ipc_deliver_reply_framed rsc : framed (sc_ipc_deliver_reply rsc).
Proof. unfold sc_ipc_deliver_reply. sys_call. Qed.

Lemma ipc_acknowledge_framed rsc : framed (sc_ipc_acknowledge rsc).
Proof. unfold sc_ipc_acknowledge. sys_call. Qed.

Lemma dma_allocate_framed rsc : framed (sc_dma_allocate rsc).
Proof. unfold sc_dma_allocate. sys_call. Qed.

Lemma dma_free_framed rsc : framed (sc_dma_free rsc).
Proof. unfold sc_dma_free. sys_call. Qed.

Lemma irq_set_handler_framed rsc : framed (sc_irq_set_handler rsc).
Proof. unfold sc_irq_set_handler. sys_call. Qed.

Lemma sched_sleep_ns_framed rsc : framed (sc_sched_sleep_ns clk now is_bsp rsc).
Proof. unfold sc_sched_sleep_ns. sys_call. Qed.

Lemma exec_framed rsc : framed (sc_exec garbage idt common rsc).
Proof.
  unfold sc_exec. sys_call.
  all: match goal with
    | E : create_process _ _ _ (next_pid (k_sched ?k')) _ _ _ = Ret (?c, ?st),
      F : Scheduler_spawn _ _ _ _ = Ret _ |- stays ?s0 (_, ?p) =>
        assert (stays s0 (k', p)) as Hs by sys_stays;
        pose proof (stays_spawn s0 k' p st c _ _ _ _ Hs F
          (λ y Hy, create_process_id _ _ _ _ _ _ _ y st
            (eq_trans E (f_equal (λ c, Ret (c, st)) Hy))));
        sys_stays
    end.
Qed.

Lemma kernel_log_read_framed rsc : framed (sc_kernel_log_read rsc).
Proof. unfold sc_kernel_log_read. sys_call. Qed.

Lemma mmap_physical_framed rsc : framed (sc_mmap_physical rsc).
Proof. unfold sc_mmap_physical. sys_call. Qed.

Lemma mem_alloc_framed rsc : framed (sc_mem_alloc rsc).
Proof. unfold sc_mem_alloc. sys_call. Qed.

Lemma mem_dealloc_framed rsc : framed (sc_mem_dealloc rsc).
Proof. unfold sc_mem_dealloc. sys_call. Qed.

Lemma ipc_receive_framed rsc : framed (sc_ipc_receive message_to_vec rsc).
Proof. unfold sc_ipc_receive. sys_call. Qed.

Lemma select_loop_framed chunks index blocking conditions :
  framed (select_loop chunks index blocking conditions).
Proof.
  revert index conditions. induction chunks as [|c chunks IH]; intros index conditions s0 k p Hs;
    cbn [select_loop]; repeat wp_step. apply IH. sys_stays.
Qed.

Lemma ipc_select_framed rsc : framed (sc_ipc_select rsc).
Proof.
  unfold sc_ipc_select. sys_call.
  match goal with H : stays ?s0 _ |- _ => apply (wp_mono _ (λ _ s, stays s0 s)) end.
  - apply select_loop_framed. sys_stays.
  - intros f k1 p1 Hs free. sys_stays.
Qed.

Lemma syscall_framed rsc :
  framed (syscall clk now is_bsp random garbage idt common rd services message_to_vec rsc).
Proof.
  unfold syscall. destruct (SyscallNumber_try_from (routine rsc)) as [sc|]; [|sys_call].
  destruct sc; auto using exit_framed, get_pid_framed, debug_print_framed, exec_framed, random_framed, sched_yield_framed, sched_sleep_ns_framed, ipc_subscribe_framed, ipc_unsubscribe_framed, ipc_publish_framed, ipc_deliver_framed, ipc_deliver_reply_framed, ipc_receive_framed, ipc_acknowledge_framed, ipc_select_framed, kernel_log_read_framed, irq_set_handler_framed, mmap_physical_framed, dma_allocate_framed, dma_free_framed, mem_alloc_framed, mem_dealloc_framed.
Qed.

End calls.

(** ** The saved registers *)

Section registers.
Context `{PagingOps}.

(** The saved word at [depth] on the process stack. *)
Definition saved_word (mem : gmap Z Z) (p : Process ProcMem) (depth : Z) : Z :=
  wrap64 (from_le (mem_read mem (stack_memory (process_memory p) +
    (stack_pointer p - PROCESS_STACK + depth * 8)) 8)).

(** The words saved by the interrupt lie on the stack. *)
Definition stack_ok (p : Process ProcMem) : Prop :=
  PROCESS_STACK ≤ stack_pointer p ∧ stack_pointer p + 6 * 8 ≤ PROCESS_STACK_END.

Lemma stack_item_ok p depth :
  stack_ok p → 0 ≤ depth ≤ 5 →
  stack_item (stack_pointer p) depth = Ret (stack_pointer p - PROCESS_STACK + depth * 8).
Proof.
  intros [H1 H2] Hd. unfold stack_item, vaddr_sub. rewrite (proj2 (Z.leb_le _ _)) by done.
  cbn [unwrap expect mbind outcome_bind]. rewrite (proj2 (Z.leb_le _ _)); [done|].
  assert (stack_size_bytes = PROCESS_STACK_END - PROCESS_STACK) as -> by done. lia.
Qed.

Lemma read_stack_ok mem p depth :
  stack_ok p → 0 ≤ depth ≤ 5 →
  read_stack_u64 mem (stack_memory (process_memory p)) (stack_pointer p) depth =
    Ret (saved_word mem p depth).
Proof. intros Hp Hd. unfold read_stack_u64. by rewrite stack_item_ok. Qed.

(** The two words of a result. *)
Lemma write_result_ok {A} (r : result Z Z) (k : kernel (A := A)) p :
  stack_ok p →
  ∃ mem', write_result r (k, p) = Ret (set_k_phys (k_phys k, mem') k, p) ∧
    saved_word mem' p 0 = (match r with Ok _ => 1 | Err _ => 0 end) ∧
    saved_word mem' p 5 = wrap64 (match r with Ok v => v | Err v => v end) ∧
    (∀ d, 1 ≤ d ≤ 4 → saved_word mem' p d = saved_word (k_mem k) p d).
Proof.
  intros Hp. unfold write_result, write_stack_u64.
  rewrite !stack_item_ok by (done || lia). cbn [mbind outcome_bind].
  set (a := stack_memory (process_memory p)). set (o := stack_pointer p - PROCESS_STACK).
  set (b := match r with Ok _ => 1 | Err _ => 0 end). set (v := match r with Ok v => v | Err v => v end).
  eexists. split; [done|]. unfold saved_word. fold a o.
  assert (∀ mem x w, wrap64 (from_le (mem_read (write_bytes mem x (to_le 8 w)) x 8)) = wrap64 w) as Hback.
  { intros mem x w. pose proof (mem_read_write mem x (to_le 8 w)) as E. rewrite to_le_length in E.
    change (Z.of_nat 8) with 8 in E. rewrite E, from_le_to_le. apply Z.mod_mod. done. }
  split_and!.
  - rewrite mem_read_write_ne, Hback by (rewrite to_le_length; lia). unfold b. by destruct r.
  - apply Hback.
  - intros d Hd. rewrite !mem_read_write_ne by (rewrite to_le_length; lia). done.
Qed.

End registers.

(** ** Properties *)

Section properties.
Context `{HO : HashOrder} `{PC : Pinecone} `{PagingOps} `{!AlignOps}
  {A : Type} `{!PhysAlloc A} {Frame PfCode : Type}.
Context (clk : Clock) (now : BSPInstant) (random : Z)
  (garbage : gmap Z (gmap Z entry)) (idt common : Z)
  (rd : InitRD) (services : gmap SubscriptionId Service)
  (message_to_vec : Message → option (list Z)).

Abbreviation Proc := (Process ProcMem).
Abbreviation state := (kernel (A := A) * Proc)%type.
Abbreviation SR := (SyscallResult (Frame := Frame) (PfCode := PfCode)).
Abbreviation run := (run_syscall (Frame := Frame) (PfCode := PfCode) clk now true random garbage
  idt common rd services message_to_vec).
Abbreviation handle := (handle_syscall (Frame := Frame) (PfCode := PfCode) clk now true random
  garbage idt common rd services message_to_vec).

(** The call a process has put into its registers. *)
Definition call_of (mem : gmap Z Z) (p : Proc) : RawSyscall :=
  MkRawSyscall (saved_word mem p 0) (saved_word mem p 5) (saved_word mem p 4)
    (saved_word mem p 3) (saved_word mem p 2).

(** The kernel with a process taken out of the scheduler. *)
Definition taken (k : kernel (A := A)) (pid : ProcessId) : kernel :=
  set_k_sched (set_processes (delete pid (processes (k_sched k))) (k_sched k)) k.

Lemma run_stays k pid p rsc res s :
  sched_wf (k_sched k) → next_pid (k_sched k) ≤ u64_max → processes (k_sched k) !! pid = Some p →
  run rsc (taken k pid, p) = Ret (res, s) → stays (taken k pid, p) s.
Proof.
  intros Hwf Hmax Hp E. unfold run_syscall in E. apply outcome_bind_ret in E as ([f s'] & Es & E).
  injection E as _ <-. eapply syscall_framed; [|exact Es]. apply stays_refl. split; [|done].
  unfold sched_of, taken, Scheduler_give_back_process, set_processes. cbn.
  rewrite (sw_id _ Hwf _ _ Hp), insert_delete_eq, insert_id by done. by destruct (k_sched k).
Qed.

(** Giving the process back after a call. *)
Lemma finish_sched k pid p k1 p1 b :
  sched_wf (k_sched k) → processes (k_sched k) !! pid = Some p → stays (taken k pid, p) (k1, p1) →
  let s' := Scheduler_give_back_process (k_sched k1) (set_repeat b p1) in
  sched_wf s' ∧ processes s' !! pid = Some (set_repeat b p1) ∧
  (∀ q x, q ≠ pid → processes (k_sched k) !! q = Some x → processes s' !! q = Some x).
Proof.
  intros Hwf Hp [[Hwf1 _] Hid _ _ _ _ Ho _]. cbn in Hid, Ho. rewrite (sw_id _ Hwf _ _ Hp) in Hid.
  split; [by apply (give_back_same _ p1)|]. cbn. rewrite Hid.
  split; [apply lookup_insert_eq|]. intros q x Hq Hx. rewrite lookup_insert_ne by done.
  apply Ho. by rewrite lookup_delete_ne.
Qed.

Definition action_of (res : SR) : SyscallResultAction :=
  match res with
  | Continue _ => ActContinue
  | SyscallSwitch _ w => ActSwitch w
  | Terminate r => ActTerminate r
  | RepeatAfter w => ActSwitch w
  end.

Definition repeats (res : SR) : bool := match res with RepeatAfter _ => true | _ => false end.

(** The entry point is the call, run on a process taken out of the scheduler. *)
Lemma handle_inv k pid act k' :
  handle pid k = Ret (act, k') →
  ∃ p rsc res k1 p1, processes (k_sched k) !! pid = Some p ∧ 0 ≤ arg0 rsc ∧
    run rsc (taken k pid, p) = Ret (res, (k1, p1)) ∧ act = action_of res ∧
    k_sched k' = Scheduler_give_back_process (k_sched k1) (set_repeat (repeats res) p1) ∧
    k_ipc k' = k_ipc k1.
Proof.
  intros E. unfold handle_syscall in E.
  cbn [rassert mbind outcome_bind Scheduler_take_process_by_id] in E.
  destruct (processes (k_sched k) !! pid) as [p|] eqn:Hp; [|done]. cbn [expect mbind outcome_bind] in E.
  apply outcome_bind_ret in E as (rax & _ & E). apply outcome_bind_ret in E as (rdi & Hrdi & E).
  do 3 apply outcome_bind_ret in E as (? & _ & E).
  fold (taken k pid) in E. apply outcome_bind_ret in E as ([res [k1 p1]] & Er & E).
  apply outcome_bind_ret in E as ([k2 p2] & Ew & E).
  eexists p, _, res, k1, p1. split_and!; [done| |exact Er| | |].
  - cbn. unfold read_stack_u64 in Hrdi. apply outcome_bind_ret in Hrdi as (? & _ & Hrdi).
    injection Hrdi as <-. by apply Z.mod_pos_bound.
  - by injection E as <- <-.
  - unfold write_result in Ew. destruct res; outcome_inv; by simplify_eq.
  - unfold write_result in Ew. destruct res; outcome_inv; by simplify_eq.
Qed.

(** The frame of the entry point, for a call that returns. *)
Lemma handle_frame k pid act k' :
  sched_wf (k_sched k) → next_pid (k_sched k) ≤ u64_max → handle pid k = Ret (act, k') →
  sched_wf (k_sched k') ∧ next_pid (k_sched k') ≤ u64_max ∧
  sched_running (k_sched k') = sched_running (k_sched k) ∧
  (∀ q x, q ≠ pid → processes (k_sched k) !! q = Some x → processes (k_sched k') !! q = Some x) ∧
  ∃ p p', processes (k_sched k) !! pid = Some p ∧ processes (k_sched k') !! pid = Some p' ∧
    Process_switch_info p' = Process_switch_info p ∧
    match act with ActContinue => repeat_syscall p' = false | _ => True end.
Proof.
  intros Hwf Hmax E. apply handle_inv in E as (p & rsc & res & k1 & p1 & Hp & _ & Er & -> & Hk' & _).
  pose proof (run_stays _ _ _ _ _ _ Hwf Hmax Hp Er) as Hs. rewrite Hk'.
  destruct (finish_sched k pid p k1 p1 (repeats res) Hwf Hp Hs) as (H1 & H2 & H3).
  pose proof Hs as [[_ Hn] Hid Hp4 Hsp _ Hr _ _]. cbn in Hn, Hid, Hp4, Hsp, Hr.
  split_and!; [done|done|done|done|]. eexists p, _. split_and!; [done|exact H2| |by destruct res].
  unfold Process_switch_info. cbn. congruence.
Qed.

End properties.

(** Process 1 is running and asks for its id. *)
Definition example_caller : Process ProcMem :=
  MkProcess 0x600000 (PROCESS_STACK + 0x100) false 1
    (MkProcMem example_proc 0x1000000 [] (MkElfImage (ei_header example_elf) [])).

Definition example_calling : kernel (A := gset Z) :=
  MkKernel {| processes := {[1 := example_caller]}; queues := Queues_new; sched_running := Some 1;
              running_timeslice_end := Some 0; next_pid := 2 |}
    Manager_new 0 virt.FREE_LIST example_kernel {[0x600000]} {[0x1000100 := 1]} [] [].

Lemma example_calling_wf : sched_wf (k_sched example_calling).
Proof.
  split; cbn [k_sched example_calling queues processes sched_running next_pid].
  - apply qs_new_wf.
  - intros p. rewrite elem_of_procs, lookup_singleton_is_Some. cbn. split; [naive_solver|].
    intros [[= <-]|[Hp|[w Hp]]]; [done|by apply not_elem_of_nil in Hp|done].
  - intros p _. rewrite elem_of_procs. intros [Hp|[w Hp]]; [by apply not_elem_of_nil in Hp|done].
  - by intros p x [<- <-]%lookup_singleton_Some.
  - intros p [x [<- _]%lookup_singleton_Some]. lia.
  - lia.
Qed.
