(* ===== verification/SyscallRepeat.v ===== *)
(** * SyscallRepeat: system calls that are repeated

    A blocking call that cannot be served puts the process to sleep and is made again when it is
    resumed: it leaves memory, and with it the registers of the process, as they were.  With this,
    what the entry point does for every call (src/syscall/mod.rs [handle_syscall]). *)

From stdpp Require Import base orders gmap list strings.
From Stdlib Require Import ZArith Lia.
From S2P Require Import Prelude Abi Topic SubscriptionList Queues EventQueue Ipc IpcProps.
From S2P Require Import IpcCalls Clocks Scheduler SchedulerProps Bytes VirtAlloc PageMap Args.
From S2P Require Import ProcessMem Elf Process Syscall SyscallProps.
Open Scope Z_scope.

(** ** The places left in the mailboxes *)

Definition mailbox_room (o : option Mailbox) : nat :=
  match o with
  | Some mb => limit (mb_queue mb) - length (queue (mb_queue mb))
  | None => 0
  end.

Definition room (m : Manager) : nat :=
  map_fold (λ _ o n, (mailbox_room o + n)%nat) 0%nat (mailboxes m).

Lemma room_put m sub o mb :
  mailboxes m !! sub = Some o →
  (room (put_mailbox sub mb m) + mailbox_room o = room m + mailbox_room (Some mb))%nat.
Proof.
  intros Hm. unfold room, put_mailbox. cbn [mailboxes set_mailboxes].
  rewrite (map_fold_delete_L _ _ sub (Some mb) (<[_ := _]> _)); [|intros; lia|apply lookup_insert_eq].
  rewrite (map_fold_delete_L _ _ sub o (mailboxes m)) by (intros; lia || done).
  rewrite delete_insert_eq. lia.
Qed.

Lemma push_room (mb mb' : Mailbox) msg e :
  Mailbox_push_reliable mb msg = Ret (Ok e, mb') →
  (mailbox_room (Some mb') < mailbox_room (Some mb))%nat.
Proof.
  unfold Mailbox_push_reliable, EventQueue_push. intros E. outcome_inv.
  destruct (Nat.leb_spec (limit (mb_queue mb)) (length (queue (mb_queue mb)))); simplify_eq.
  cbn. rewrite length_app. cbn. lia.
Qed.

Lemma wait_for_room (mb : Mailbox) n w q n' :
  EventQueue_wait_for (mb_queue mb) n = (w, q, n') →
  mailbox_room (Some (set_mb_queue q mb)) = mailbox_room (Some mb) ∧
  (w = WaitNone ∨ ∃ e, w = Event e).
Proof.
  unfold EventQueue_wait_for, EventQueue_get_event. intros E.
  repeat case_match; simplify_eq; cbn; eauto.
Qed.

(** ** Calls that are to be repeated *)

Definition is_event (w : WaitFor) : Prop := ∃ e, w = Event e.

(** The process really sleeps: it waits for an event, or for one of several. *)
Definition sleeps (w : WaitFor) : Prop :=
  match w with
  | Event _ => True
  | FirstOf l => l ≠ [] ∧ Forall is_event l
  | _ => False
  end.

Section deliver.
Context `{HO : HashOrder} `{PC : Pinecone}.

Lemma deliver_process_room m pid sub mb msg a n e es m' n' :
  mailboxes m !! sub = Some (Some mb) →
  deliver_process m pid sub mb msg a n = Ret (MkIpcResult (Ok (DeliverProcess e)) es, m', n') →
  (room m' < room m)%nat.
Proof.
  intros Hm E. unfold deliver_process in E. destruct (pipe_accept _ _) as [mode|]; [|done].
  apply outcome_bind_ret in E as ([[tr|] mb'] & Ep & E); [|done]. apply push_room in Ep.
  pose proof (room_put _ _ _ mb' Hm). injection E as _ _ <- _. cbn in *.
  change (room (set_waiting_for_delivery _ ?m)) with (room m). lia.
Qed.

Lemma deliver_room rd services m pid t data n e es m' n' :
  Manager_deliver rd services m pid t data n = Ret (MkIpcResult (Ok (DeliverProcess e)) es, m', n') →
  (room m' < room m)%nat.
Proof.
  unfold Manager_deliver. intros E. apply outcome_bind_ret in E as ([sub|] & _ & E); [|done].
  apply outcome_bind_ret in E as ([mb|] & Hm & E).
  - apply expect_ret in Hm. by apply deliver_process_room in E.
  - apply outcome_bind_ret in E as ([[v es'] m1] & _ & E). by destruct v.
Qed.

Lemma receive_room m pid sub n e es m' n' :
  Manager_receive m pid sub n = Ret (MkIpcResult (Ok (Err e)) es, m', n') →
  room m' = room m ∧ es = ∅.
Proof.
  unfold Manager_receive. intros E. destruct (Manager_verify_process_owns _ _ _); [|done].
  destruct (mailboxes m !! sub) as [o|] eqn:Hm; [|done].
  apply outcome_bind_ret in E as (mb & Ho & E). apply expect_ret in Ho as ->.
  unfold Mailbox_pop_or_event, EventQueue_pop_or_event, EventQueue_pop, EventQueue_get_event in E.
  pose proof (λ mb', room_put m sub (Some mb) mb' Hm) as Hput.
  destruct (queue (mb_queue mb)) eqn:Hq; [|done]. destruct (event (mb_queue mb));
    injection E as _ <- <- _; (split; [|done]);
    match goal with |- room (put_mailbox _ ?mb' _) = _ => specialize (Hput mb') end; cbn in *;
    rewrite ?Hq in *; lia.
Qed.

Lemma waiting_for_room m sub n w m' n' :
  Manager_waiting_for m sub n = Ret (w, m', n') →
  room m' = room m ∧ (w = WaitNone ∨ is_event w).
Proof.
  unfold Manager_waiting_for. intros E. apply outcome_bind_ret in E as (o & Hm & E).
  apply expect_ret in Hm. apply outcome_bind_ret in E as (mb & Ho & E). apply expect_ret in Ho as ->.
  destruct (EventQueue_wait_for _ _) as [[w' q] n1] eqn:Ew. injection E as -> <- _.
  apply wait_for_room in Ew as [Hr Hw]. pose proof (room_put m sub _ (set_mb_queue q mb) Hm).
  split; [lia|done].
Qed.

End deliver.

Section calls.
Context `{HO : HashOrder} `{PC : Pinecone} `{PagingOps} `{!AlignOps}
  {A : Type} `{!PhysAlloc A} {Frame PfCode : Type}.
Context (clk : Clock) (now : BSPInstant) (is_bsp : bool) (random : Z)
  (garbage : gmap Z (gmap Z entry)) (idt common : Z)
  (rd : InitRD) (services : gmap SubscriptionId Service)
  (message_to_vec : Message → option (list Z)).

Abbreviation Proc := (Process ProcMem).
Abbreviation state := (kernel (A := A) * Proc)%type.
Abbreviation MM := (M (A := A) (Frame := Frame) (PfCode := PfCode)).
Abbreviation SR := (SyscallResult (Frame := Frame) (PfCode := PfCode)).

Definition result_of (f : flow SR) : SR := match f with Go r => r | Return r => r end.

(** A call to be repeated has not written to memory, puts the process to sleep, and has taken a
    place in a mailbox unless it has left the scheduler alone. *)
Definition goes_to_sleep (k0 : kernel (A := A)) (r : SR) (k : kernel (A := A)) : Prop :=
  match r with
  | RepeatAfter w => sleeps w ∧ k_mem k = k_mem k0 ∧
      ((room (k_ipc k) < room (k_ipc k0))%nat ∨
       room (k_ipc k) = room (k_ipc k0) ∧ k_sched k = k_sched k0)
  | _ => True
  end.

Definition may_sleep (m : MM SR) : Prop :=
  ∀ k p, wpM m (λ f s, goes_to_sleep k (result_of f) s.1) (k, p).

Lemma wp_consume_any {X} (r : IpcResult X) (Q : flow (Frame := Frame) (PfCode := PfCode) X → state → Prop) k p :
  (∀ x, ipc_value r = Ok x →
    Q (Go x) (set_k_sched (foldl on_explicit_event (k_sched k) (hash_order (ipc_events r))) k, p)) →
  (∀ c k', Q (Return (Continue c)) (k', p)) → wpM (consume r) Q (k, p).
Proof.
  intros Hgo Hret f s' E. unfold consume in E. destruct r as [[x|e] es]; cbn in E; injection E as <- <-.
  - by apply (Hgo x).
  - apply Hret.
Qed.

End calls.

Ltac sleep_step :=
  cbn [fst snd];
  first
    [ (apply wp_consume_any; [intros ? ?|intros ? ?])
    | apply wp_bind | apply wp_ret | apply wp_early | (apply wp_lift; intros ? ?)
    | apply wp_get_kernel | apply wp_get_process | apply wp_put_kernel | apply wp_put_process
    | (apply wp_slice; [intros ? ? ? ? ?|intros ? ?])
    | match goal with |- ∀ _, _ => intros ? end
    | exact I
    | case_match; try discriminate; simplify_eq ].

Ltac sleep_call :=
  intros ? ?;
  unfold topic_arg, pointer_arg, try_len, with_read, with_write, try_str_m, try_ipc, mem_result;
  repeat sleep_step.

Section sleeping.
Context `{HO : HashOrder} `{PC : Pinecone} `{PagingOps} `{!AlignOps}
  {A : Type} `{!PhysAlloc A} {Frame PfCode : Type}.
Context (clk : Clock) (now : BSPInstant) (is_bsp : bool) (random : Z)
  (garbage : gmap Z (gmap Z entry)) (idt common : Z)
  (rd : InitRD) (services : gmap SubscriptionId Service)
  (message_to_vec : Message → option (list Z)).

Abbreviation state := (kernel (A := A) * Process ProcMem)%type.
Abbreviation may_sleep := (may_sleep (A := A) (Frame := Frame) (PfCode := PfCode)).

Lemma deliver_sleep rsc : may_sleep (sc_ipc_deliver rd services rsc).
Proof.
  unfold sc_ipc_deliver. sleep_call.
  match goal with
  | E : Manager_deliver _ _ _ _ _ _ _ = Ret (?i, _, _), Hv : ipc_value ?i = _ |- _ =>
      destruct i as [v es]; cbn in Hv; subst v; apply deliver_room in E
  end.
  unfold same_but_space in *. cbn in *. destruct_and!. split; [done|]. split; [congruence|left].
  repeat match goal with E : k_ipc _ = k_ipc _ |- _ => rewrite E in * end. done.
Qed.

Lemma receive_sleep rsc : may_sleep (sc_ipc_receive message_to_vec rsc).
Proof.
  unfold sc_ipc_receive. sleep_call.
  match goal with
  | E : Manager_receive _ _ _ _ = Ret (?i, _, _), Hv : ipc_value ?i = _ |- _ =>
      destruct i as [v es]; cbn in Hv; subst v; apply receive_room in E as [E ->]
  end.
  unfold same_but_space in *. cbn in *. destruct_and!. split; [done|]. split; [congruence|right].
  rewrite hash_order_empty. cbn. split; congruence.
Qed.

Lemma select_loop_sleep (k0 : kernel (A := A)) chunks index blocking conditions k p :
  chunks ≠ [] ∨ conditions ≠ [] → Forall is_event conditions →
  room (k_ipc k) = room (k_ipc k0) → k_sched k = k_sched k0 → k_mem k = k_mem k0 →
  wpM (A := A) (select_loop (Frame := Frame) (PfCode := PfCode) chunks index blocking conditions)
    (λ f s, ∀ free, goes_to_sleep k0 (result_of f) (set_k_virt free s.1)) (k : kernel (A := A), p).
Proof.
  revert index conditions k. induction chunks as [|c chunks IH]; intros index conditions k Hne Hev Hr Hs Hm;
    cbn [select_loop]; repeat sleep_step; cbn.
  - destruct Hne; [done|]. split; [done|]. split; [done|]. by right.
  - match goal with E : Manager_waiting_for _ _ _ = _ |- _ => apply waiting_for_room in E as [? [?|?]] end.
    + by match goal with E : bool_decide _ = false |- _ => apply bool_decide_eq_false in E end.
    + apply IH; [right; by destruct conditions|by apply Forall_app_2; [|constructor]|cbn; congruence|done|done].
Qed.

Lemma select_sleep rsc : 0 ≤ arg0 rsc → may_sleep (sc_ipc_select rsc).
Proof.
  intros Hpos. unfold sc_ipc_select. sleep_call. unfold same_but_space in *. destruct_and!.
  apply select_loop_sleep; [left|done|congruence..].
  match goal with E : mul64 _ _ = Ret ?x, Hl : length ?b = Z.to_nat ?x |- chunks_exact_8 ?b ≠ [] =>
    assert (8 ≤ length b)%nat by (unfold mul64 in E; case_match; simplify_eq; lia);
    do 8 (destruct b as [|? b]; [cbn in *; lia|]); done
  end.
Qed.

Lemma syscall_sleep rsc :
  0 ≤ arg0 rsc →
  may_sleep (syscall clk now is_bsp random garbage idt common rd services message_to_vec rsc).
Proof.
  intros Hpos. unfold syscall. destruct (SyscallNumber_try_from (routine rsc)) as [sc|]; [|sleep_call].
  destruct sc; try (by auto using deliver_sleep, receive_sleep, select_sleep);
    unfold sc_exit, sc_get_pid, sc_debug_print, sc_exec, sc_random, sc_sched_yield,
      sc_sched_sleep_ns, sc_ipc_subscribe, sc_ipc_unsubscribe, sc_ipc_publish,
      sc_ipc_deliver_reply, sc_ipc_acknowledge, sc_kernel_log_read, sc_irq_set_handler,
      sc_mmap_physical, sc_dma_allocate, sc_dma_free, sc_mem_alloc, sc_mem_dealloc;
    sleep_call.
Qed.

End sleeping.

(** ** The entry point *)

Section entry.
Context `{HO : HashOrder} `{PC : Pinecone} `{PagingOps} `{!AlignOps}
  {A : Type} `{!PhysAlloc A} {Frame PfCode : Type}.
Context (clk : Clock) (now : BSPInstant) (random : Z)
  (garbage : gmap Z (gmap Z entry)) (idt common : Z)
  (rd : InitRD) (services : gmap SubscriptionId Service)
  (message_to_vec : Message → option (list Z)).

Abbreviation SR := (SyscallResult (Frame := Frame) (PfCode := PfCode)).
Abbreviation run := (run_syscall (Frame := Frame) (PfCode := PfCode) clk now true random garbage
  idt common rd services message_to_vec).
Abbreviation handle := (handle_syscall (Frame := Frame) (PfCode := PfCode) clk now true random
  garbage idt common rd services message_to_vec).

(** A call to be repeated puts the process to sleep and leaves memory alone. *)
Lemma run_sleeps rsc k p w k1 p1 :
  0 ≤ arg0 rsc → run rsc (k, p) = Ret (RepeatAfter w, (k1, p1)) →
  goes_to_sleep (A := A) (Frame := Frame) (PfCode := PfCode) k (RepeatAfter w) k1.
Proof.
  intros Hpos E. unfold run_syscall in E. apply outcome_bind_ret in E as ([f [k2 p2]] & Es & E).
  apply (syscall_sleep clk now true random garbage idt common rd services message_to_vec rsc Hpos) in Es.
  injection E as Hf <- <-. unfold result_of in Es. by rewrite Hf in Es.
Qed.

Lemma call_of_mem mem (p p' : Process ProcMem) :
  stack_pointer p' = stack_pointer p → stack_memory (process_memory p') = stack_memory (process_memory p) →
  call_of mem p' = call_of mem p.
Proof. intros Hsp Hsm. unfold call_of, saved_word. by rewrite Hsp, Hsm. Qed.

(** C6: the entry point carries out the call the process put into its registers and hands the
    process back.  It panics exactly when the call does.  Otherwise the process keeps its identity
    and stack, every other process is as it was, the scheduler invariant holds, and the outcome is
    recorded: a value or an error is in the two result registers, a call to be repeated is marked as
    such with all of memory, and so the registers of the call, as they were, and the action says how
    to go on.  The saved registers are within the stack of the process. *)
Theorem handle_syscall_exact (k : kernel (A := A)) pid p
    (Hwf : sched_wf (k_sched k)) (Hmax : next_pid (k_sched k) ≤ u64_max)
    (Hp : processes (k_sched k) !! pid = Some p) (Hsp : stack_ok p) :
  match run (call_of (k_mem k) p) (taken k pid, p) with
  | Panic why => handle pid k = Panic why
  | Ret (res, (k1, p1)) => ∃ act k' p', handle pid k = Ret (act, k') ∧ sched_wf (k_sched k') ∧
    sched_running (k_sched k') = sched_running (k_sched k) ∧
    (∀ q x, q ≠ pid → processes (k_sched k) !! q = Some x → processes (k_sched k') !! q = Some x) ∧
    processes (k_sched k') !! pid = Some p' ∧ process_id p' = pid ∧ p4_addr p' = p4_addr p ∧
    stack_pointer p' = stack_pointer p ∧
    stack_memory (process_memory p') = stack_memory (process_memory p) ∧
    k_ipc k' = k_ipc k1 ∧ queues (k_sched k') = queues (k_sched k1) ∧
    let ret (r : result Z Z) := repeat_syscall p' = false ∧
      saved_word (k_mem k') p' 0 = (match r with Ok _ => 1 | Err _ => 0 end) ∧
      saved_word (k_mem k') p' 5 = wrap64 (match r with Ok v => v | Err v => v end) in
    match res with
    | Continue r => act = ActContinue ∧ ret r
    | SyscallSwitch r w => act = ActSwitch w ∧ ret r
    | RepeatAfter w => act = ActSwitch w ∧ repeat_syscall p' = true ∧ k_mem k' = k_mem k ∧
        call_of (k_mem k') p' = call_of (k_mem k) p
    | Terminate r => act = ActTerminate r ∧ repeat_syscall p' = false ∧ k_mem k' = k_mem k1
    end
  end.
Proof.
  assert (0 ≤ arg0 (call_of (k_mem k) p)) as Hpos by (by apply Z.mod_pos_bound).
  unfold handle_syscall. cbn [rassert mbind outcome_bind Scheduler_take_process_by_id].
  rewrite Hp. cbn [expect mbind outcome_bind]. fold (taken k pid).
  change (k_mem (taken k pid)) with (k_mem k). rewrite !read_stack_ok by (done || lia).
  cbn [mbind outcome_bind]. fold (call_of (k_mem k) p).
  destruct (run (call_of (k_mem k) p) (taken k pid, p)) as [[res [k1 p1]]|why] eqn:Hrun; [|done].
  pose proof (run_stays _ _ _ _ _ _ _ _ _ _ _ _ _ _ _ Hwf Hmax Hp Hrun) as Hs.
  pose proof Hs as [[Hwf1 _] Hid Hp4 Hsp1 Hst Hr Ho].
  cbn in Hid, Hp4, Hsp1, Hst, Hr, Ho. rewrite (sw_id _ Hwf _ _ Hp) in Hid.
  assert (stack_ok p1) as Hok1 by (unfold stack_ok; by rewrite Hsp1). cbn [mbind outcome_bind].
  pose proof (λ b, finish_sched k pid p k1 p1 b Hwf Hp Hs) as Hfin.
  destruct (write_result_ok (match res with Continue r | SyscallSwitch r _ => r | _ => Ok 0 end)
    k1 p1 Hok1) as (mem' & Hw & H0' & H5' & _).
  assert (∀ w, res = RepeatAfter w → k_mem k1 = k_mem k) as Hmem.
  { intros w ->. apply run_sleeps in Hrun as (_ & Hm & _); [exact Hm|done]. }
  destruct res as [r|r w|w|r]; cbn beta iota in *; rewrite ?Hw; cbn [mbind outcome_bind];
    eexists _, _, (set_repeat _ p1); (split; [reflexivity|]);
    match goal with |- context [set_repeat ?b p1] => destruct (Hfin b) as (H1 & H2 & H3) end;
    split_and!; try done.
  - by apply (Hmem w).
  - rewrite <- (Hmem w eq_refl). by apply call_of_mem.
Qed.

End entry.

Lemma handle_syscall_exact_witness :
  ∃ act k' p', handle_syscall (PC := example_pinecone) (Frame := unit) (PfCode := unit)
      example_clock 0 true 0 ∅ 0 0 {| files := ∅; slice := [] |} ∅ (λ _, None) 1 example_calling =
      Ret (act, k') ∧
    processes (k_sched k') !! 1 = Some p' ∧ act = ActContinue ∧
    saved_word (k_mem k') p' 0 = 1 ∧ saved_word (k_mem k') p' 5 = 1.
Proof.
  pose proof (handle_syscall_exact (PC := example_pinecone) (Frame := unit) (PfCode := unit)
    example_clock 0 0 ∅ 0 0 {| files := ∅; slice := [] |} ∅ (λ _, None) example_calling 1
    example_caller) as Hth.
  assert (call_of (k_mem example_calling) example_caller = MkRawSyscall 1 0 0 0 0) as Hc
    by (vm_compute; reflexivity).
  rewrite Hc in Hth. edestruct Hth as (act & k' & p' & E & _ & _ & _ & Hp & _ & _ & _ & _ & _ & _ & Hres).
  - apply example_calling_wf.
  - vm_compute. discriminate.
  - reflexivity.
  - vm_compute. split; discriminate.
  - destruct Hres as (Ha & _ & H0 & H5). exists act, k', p'.
    exact (conj E (conj Hp (conj Ha (conj H0 H5)))).
Defined.
