(* ===== verification/SyscallMem.v ===== *)
(** * SyscallMem: what system calls copy from and to process memory

    A slice of process memory is the memory the process sees at that address.  From it follow
    the end-to-end behaviour of [ipc_publish] and [ipc_receive], and that copying out does not
    look at the protection of the process's pages. *)

From stdpp Require Import base gmap list strings.
From Stdlib Require Import ZArith Lia.
From S2P Require Import Prelude Abi Topic SubscriptionList Queues EventQueue Ipc IpcProps.
From S2P Require Import IpcCalls Clocks Scheduler Bytes Ranges VirtAlloc PageMap Args ProcessMem.
From S2P Require Import Elf Process Syscall.
Open Scope Z_scope.

(** ** Process memory *)

(** The physical addresses and the contents of a range a mapping gives. *)
Definition user_addrs (mp : gmap Z Z) (ptr len : Z) : option (list Z) :=
  mapM (λ i, phys_of mp (ptr + i)) (seqZ 0 len).
Definition user_bytes (mem mp : gmap Z Z) (ptr len : Z) : option (list Z) :=
  (λ l : list Z, mem_at mem <$> l) <$> user_addrs mp ptr len.

Lemma user_addrs_lookup mp ptr len l x :
  user_addrs mp ptr len = Some l → 0 ≤ x < len →
  ∃ a, l !! Z.to_nat x = Some a ∧ phys_of mp (ptr + x) = Some a.
Proof.
  unfold user_addrs. intros E Hx. apply mapM_Some in E.
  assert (seqZ 0 len !! Z.to_nat x = Some x) as Hs.
  { rewrite lookup_seqZ_lt by lia. f_equal. lia. }
  destruct (Forall2_lookup_l _ _ _ _ _ E Hs) as (a & Ha & Hp). eauto.
Qed.

Lemma user_addrs_length mp ptr len l : user_addrs mp ptr len = Some l → length l = Z.to_nat len.
Proof. intros E%length_mapM. by rewrite <- E, length_seqZ. Qed.

(** A longer range that is mapped begins with a shorter one. *)
Lemma user_addrs_take mp ptr len l n :
  user_addrs mp ptr len = Some l → 0 ≤ n ≤ len →
  user_addrs mp ptr n = Some (take (Z.to_nat n) l).
Proof.
  unfold user_addrs. intros E Hn. apply mapM_Some in E. apply mapM_Some.
  replace (seqZ 0 n) with (take (Z.to_nat n) (seqZ 0 len)); [by apply Forall2_take|].
  replace len with (n + (len - n)) by lia. rewrite seqZ_app by lia.
  apply take_app_length'. by rewrite length_seqZ.
Qed.

Lemma pages_mapped mp ptr len l v :
  user_addrs mp ptr len = Some l → 0 ≤ ptr → 0 < len →
  (PAGE_SIZE_BYTES | v) → align_down ptr ≤ v < ptr + len → is_Some (mp !! v).
Proof.
  intros E Hp Hl [q ->] Hv. assert (PAGE_SIZE_BYTES = 0x200000) as HP by done.
  destruct (decide (q * PAGE_SIZE_BYTES < ptr)) as [Hlt|Hge].
  - destruct (user_addrs_lookup mp ptr len l 0 E ltac:(lia)) as (a & _ & Ha).
    unfold phys_of in Ha. apply fmap_Some in Ha as (f & Hf & _).
    replace (ptr + 0 - (ptr + 0) mod PAGE_SIZE_BYTES) with (q * PAGE_SIZE_BYTES) in Hf; [by eexists|].
    unfold align_down in Hv. rewrite HP in *. Z.to_euclidean_division_equations. lia.
  - destruct (user_addrs_lookup mp ptr len l (q * PAGE_SIZE_BYTES - ptr) E ltac:(lia)) as (a & _ & Ha).
    replace (ptr + (q * PAGE_SIZE_BYTES - ptr)) with (q * PAGE_SIZE_BYTES) in Ha by lia.
    unfold phys_of in Ha. apply fmap_Some in Ha as (f & Hf & _).
    rewrite Z.mod_mul, Z.sub_0_r in Hf by done. by eexists.
Qed.

(** Bytes written one after the other. *)
Definition copy_to (mem : gmap Z Z) (addrs bytes : list Z) : gmap Z Z :=
  foldl (λ m '(a, b), <[a := b]> m) mem (zip addrs bytes).

Lemma copy_to_other mem addrs bytes a :
  (∀ i, (i < length bytes)%nat → addrs !! i ≠ Some a) → copy_to mem addrs bytes !! a = mem !! a.
Proof.
  unfold copy_to. revert mem addrs. induction bytes as [|b bytes IH]; intros mem [|x addrs] Ha; cbn; try done.
  rewrite IH.
  - apply lookup_insert_ne. intros ->. by apply (Ha 0%nat); [cbn; lia|].
  - intros i Hi. apply (Ha (S i)). cbn. lia.
Qed.

Lemma copy_to_at mem addrs bytes i a b :
  NoDup addrs → addrs !! i = Some a → bytes !! i = Some b → mem_at (copy_to mem addrs bytes) a = b.
Proof.
  intros Hnd. revert mem bytes i. induction Hnd as [|x addrs Hx _ IH]; intros mem [|y bytes] [|i] Ha Hb;
    try done; cbn in Ha, Hb.
  - simplify_eq. unfold mem_at. change (copy_to mem (a :: addrs) (b :: bytes))
      with (copy_to (<[a := b]> mem) addrs bytes).
    rewrite copy_to_other; [by rewrite lookup_insert_eq|]. intros j _ Hj. apply Hx.
    by eapply list_elem_of_lookup_2.
  - by apply (IH (<[x := y]> mem) bytes i).
Qed.

Lemma mapM_ret {X Y} (f : X → outcome Y) xs ys :
  Forall2 (λ x y, f x = Ret y) xs ys → mapM f xs = Ret ys.
Proof. induction 1 as [|x y xs ys Hx _ IH]; [done|]. cbn. rewrite Hx. cbn. by rewrite IH. Qed.

(** ** Through the kernel's page table *)

Section kernel_access.
Context `{PagingLaws} `{!AlignOps, !AlignLaws} {A : Type} `{!PhysAlloc A} {Frame PfCode : Type}.

Abbreviation Proc := (Process ProcMem).
Abbreviation MM := (M (A := A) (Frame := Frame) (PfCode := PfCode)).

(** The kernel sees the physical addresses [l] from [start] on. *)
Definition kernel_sees (k : kernel (A := A)) (mk : gmap Z Z) (start : Z) (l : list Z) : Prop :=
  (∃ n, pt_denotes (k_table k) mk n) ∧
  ∀ i a, l !! i = Some a → phys_of mk (start + Z.of_nat i) = Some a ∧
    0 ≤ start + Z.of_nat i < 2 ^ 47.

Lemma kernel_phys_ok t mk n v a :
  pt_denotes t mk n → 0 ≤ v < 2 ^ 47 → phys_of mk v = Some a → kernel_phys t v = Ret a.
Proof.
  intros Hd Hv Ha. unfold kernel_phys. unfold phys_of in Ha. apply fmap_Some in Ha as (f & Hf & ->).
  assert (page_ok (v - v mod PAGE_SIZE_BYTES)) as Hpo.
  { assert (0 < PAGE_SIZE_BYTES) as HP by done. pose proof (Z.mod_pos_bound v _ HP).
    pose proof (Z.mod_le v PAGE_SIZE_BYTES). split; [|left; lia].
    exists (v / PAGE_SIZE_BYTES). rewrite Z.mod_eq by lia. lia. }
  rewrite (pt_translate_law _ _ _ _ Hd Hpo), Hf. done.
Qed.

Lemma kernel_sees_cons k mk start a l :
  kernel_sees k mk start (a :: l) →
  kernel_phys (k_table k) start = Ret a ∧ kernel_sees k mk (start + 1) l.
Proof.
  intros [[n Hd] Hl]. split.
  - destruct (Hl 0%nat a eq_refl) as [Ha Hb]. rewrite Z.add_0_r in Ha, Hb. by eapply kernel_phys_ok.
  - split; [by exists n|]. intros i b Hi. destruct (Hl (S i) b Hi) as [Ha Hb].
    replace (start + Z.of_nat (S i)) with (start + 1 + Z.of_nat i) in Ha, Hb by lia. done.
Qed.

Lemma kernel_write_ok k mk start l bytes :
  kernel_sees k mk start l → (length bytes ≤ length l)%nat →
  kernel_write k start bytes = Ret (set_k_phys (k_phys k, copy_to (k_mem k) l bytes) k).
Proof.
  revert k start l. induction bytes as [|b bytes IH]; intros k start l Hs Hl.
  { cbn. unfold copy_to. rewrite zip_with_nil_r. by destruct k. }
  destruct l as [|a l]; cbn [length] in Hl; [lia|].
  apply kernel_sees_cons in Hs as [Ha Hs]. cbn [kernel_write]. rewrite Ha. cbn [mbind outcome_bind].
  by rewrite (IH _ _ l) by (done || lia).
Qed.

Lemma kernel_read_ok k mk start l :
  kernel_sees k mk start l →
  kernel_read k start (Z.of_nat (length l)) = Ret (mem_at (k_mem k) <$> l).
Proof.
  intros [[n Hd] Hl]. apply mapM_ret, Forall2_same_length_lookup_2.
  { rewrite length_seqZ, length_fmap. lia. }
  intros i x b [-> Hi]%lookup_seqZ Hb. rewrite list_lookup_fmap in Hb.
  apply fmap_Some in Hb as (a & Ha & ->). destruct (Hl i a Ha) as [Hp Hb].
  by rewrite Z.add_0_l, (kernel_phys_ok _ _ _ _ _ Hd Hb Hp).
Qed.

(** The virtual address space, the kernel's table and the table of the process. *)
Record mem_view (k : kernel (A := A)) (p : Proc) (live : list virt.Allocation) (mk mp : gmap Z Z)
    (r : nat) : Prop := {
  mv_virt : virt.va_reach (k_virt k) live;
  mv_kernel : pt_denotes (k_table k) mk r;
  mv_proc : ∃ n, pt_denotes (page_table (process_memory p)) mp n;
  mv_frames : frames_ok mp;
}.

(** A non-empty slice for which the kernel has address space left. *)
Definition slice_fits (k : kernel (A := A)) (ptr len : Z) : Prop :=
  0 ≤ ptr ∧ 0 < len ∧ ptr + len + PAGE_SIZE_BYTES ≤ 2 ^ 47 ∧
  ∃ b, b ∈ k_virt k ∧ slice_pages ptr len ≤ virt.Block_size_pages b.

(** A slice is seen through an allocation of its pages. *)
Lemma memory_slice_allocates {P} `{!PageTables P} flags free (t : AddrSpace) (p : P) ptr len free' t' al start :
  0 ≤ ptr → 0 ≤ len → ptr + len + PAGE_SIZE_BYTES ≤ 2 ^ 47 →
  memory_slice flags free t p ptr len = Ret (free', t', Some (al, start)) →
  virt.allocate free (slice_pages ptr len) = Ret (al, free').
Proof.
  intros Hp Hl Hm E. unfold memory_slice in E. assert (PAGE_SIZE_BYTES = 0x200000) as HP by done.
  rewrite align_down_to_eq, add64_small in E by (rewrite u64_size_eq; lia). cbn [mbind outcome_bind] in E.
  rewrite align_up_to_eq in E by (rewrite ?u64_size_eq; lia). cbn [mbind outcome_bind] in E.
  fold (slice_pages ptr len) in E. destruct (virt.allocate _ _) as [[al' free1]|]; [|done]. cbn [mbind outcome_bind] in E.
  apply outcome_bind_ret in E as ([k' [|]] & _ & E); [by simplify_eq|].
  by apply outcome_bind_ret in E as (? & _ & E).
Qed.

Lemma with_slice_ok {X} flags ptr len (body : Z → list Z → MM X) k p live mk mp r l :
  mem_view k p live mk mp (Z.to_nat (slice_pages ptr len) + r) → slice_fits k ptr len →
  flag_set flags → Z.land flags PRESENT = PRESENT → user_addrs mp ptr len = Some l →
  ∃ free t mk' al start, let k1 := set_k_table t (set_k_virt free k) in
    with_slice flags ptr len body (k, p) =
      ('(f, (k2, p2)) ← body start (mem_at (k_mem k) <$> l) (k1, p);
       free ← virt.Allocation_drop (k_virt k2) al;
       Ret (f, (set_k_virt free k2, p2))) ∧
    kernel_sees k1 mk' start l ∧ mem_view k1 p (al :: live) mk' mp r ∧
    virt.allocate (k_virt k) (slice_pages ptr len) = Ret (al, free).
Proof.
  intros [Hva Hk [np Hp] Hfr] (Hptr & Hlen & Hmax & Hroom) Hfs Hfp Hl.
  destruct (memory_slice_spec flags (k_virt k) live (k_table k) (page_table (process_memory p))
    ptr len mk mp np r) as (free & t & mk' & o & E & Hd & Ho); [done..|lia|lia|auto|done|].
  destruct o as [[al start]|].
  2:{ destruct Ho as (_ & v & Hv & Hr & Hm). destruct (pages_mapped mp ptr len l v) as [f Hf]; try done.
      congruence. }
  destruct Ho as (Hva' & Hx & _). exists free, t, mk', al, start. intros k1.
  assert (kernel_sees k1 mk' start l) as Hs.
  { split; [by exists r|]. intros i a Hi. pose proof (lookup_lt_Some _ _ _ Hi) as Hlt.
    rewrite (user_addrs_length _ _ _ _ Hl) in Hlt.
    destruct (user_addrs_lookup mp ptr len l (Z.of_nat i) Hl) as (a' & Ha & Hpa); [lia|].
    rewrite Nat2Z.id in Ha. simplify_eq. destruct (Hx (Z.of_nat i)) as (Hin & _ & ->); [lia|].
    split; [done|]. assert (virt.START_ADDR ≤ start + Z.of_nat i < virt.END_ADDR) as Hb.
    { apply (virt.va_cover _ _ (virt.va_reach_inv _ _ Hva')). right. exists al. split; [by left|done]. }
    unfold virt.START_ADDR, virt.END_ADDR in Hb. lia. }
  split_and!; [|done|by split; eauto|eapply memory_slice_allocates; [done|lia|done|exact E]]. unfold with_slice. rewrite E. cbn [mbind outcome_bind].
  assert (Z.of_nat (length l) = len) as Hll by (rewrite (user_addrs_length _ _ _ _ Hl); lia).
  pose proof (kernel_read_ok k1 mk' start l Hs) as Hrd. rewrite Hll in Hrd. fold k1. by rewrite Hrd.
Qed.

End kernel_access.

(** ** Properties *)

Section properties.
Context `{HO : HashOrder} `{PC : Pinecone} `{PagingLaws} `{!AlignOps, !AlignLaws}
  {A : Type} `{!PhysAlloc A} {Frame PfCode : Type}.

Abbreviation Proc := (Process ProcMem).
Abbreviation MM := (M (A := A) (Frame := Frame) (PfCode := PfCode)).

(** Lengths below the limit and canonical pointers pass the checks. *)
Lemma try_len_ok len (s : kernel (A := A) * Proc) :
  len ≤ 0x400000000 → try_len (Frame := Frame) (PfCode := PfCode) len s = Ret (Go len, s).
Proof. intros Hl. unfold try_len. by rewrite (proj2 (Z.ltb_ge _ _)). Qed.

Lemma pointer_arg_ok ptr (s : kernel (A := A) * Proc) :
  0 ≤ ptr < 2 ^ 47 → pointer_arg (Frame := Frame) (PfCode := PfCode) ptr s = Ret (Go ptr, s).
Proof. intros Hp. unfold pointer_arg, lift. by rewrite VirtAddr_new_law by (left; lia). Qed.

Lemma bind_go {X Y} (m : MM X) (g : X → MM Y) s x s' :
  m s = Ret (Go x, s') → (mbind g m) s = g x s'.
Proof. intros E. unfold mbind, M_bind. by rewrite E. Qed.

Lemma get_kernel_bind {Y} (g : kernel → MM Y) s : (mbind g get_kernel) s = g s.1 s.
Proof. done. Qed.
Lemma get_process_bind {Y} (g : Proc → MM Y) s : (mbind g get_process) s = g s.2 s.
Proof. done. Qed.
Lemma put_kernel_bind {Y} k (g : unit → MM Y) s : (mbind g (put_kernel k)) s = g tt (k, s.2).
Proof. done. Qed.
Lemma lift_bind {X Y} (o : outcome X) (g : X → MM Y) x s : o = Ret x → (mbind g (lift o)) s = g x s.
Proof. by intros ->. Qed.

(** No events to relay. *)
Lemma consume_quiet {X Y} (v : X) es (g : X → MM Y) k p :
  es = ∅ → (mbind g (consume (MkIpcResult (Ok v) es))) (k, p) = g v (k, p).
Proof.
  intros ->. assert (hash_order (∅ : gset ExplicitEventId) = []) as E.
  { apply Permutation_nil_r. by rewrite hash_order_perm, elements_empty. }
  unfold mbind, M_bind, consume, get_kernel, mbind, M_bind, IpcResult_consume_events. cbn.
  rewrite E. by destruct k.
Qed.

Lemma receive_pop m pid sub n mb msg rest :
  mg_wf m → owns m pid sub → mailboxes m !! sub = Some (Some mb) → queue (mb_queue mb) = msg :: rest →
  ∃ mb', Manager_receive m pid sub n = Ret (IpcResult_success (Ok msg), put_mailbox sub mb' m, n) ∧
    queue (mb_queue mb') = rest.
Proof.
  intros Hwf Hown Hmb Hq.
  destruct (receive_spec m pid sub n Hwf) as [[_ ?]|(mb2 & r & n' & _ & Hmb2 & Hpop & ->)]; [done|].
  simplify_eq. pose proof (pop_or_event_spec (mb_queue mb) n (mb_eq _ (mg_box _ Hwf _ _ Hmb))) as Hp.
  exists (popped mb n). unfold Mailbox_pop_or_event in Hpop.
  destruct (EventQueue_pop_or_event (mb_queue mb) n) as [[[y|e] q'] n2]; simplify_eq;
    [|destruct Hp as (Hp & _); congruence].
  destruct Hp as (Hp & _ & _ & _ & -> & _). rewrite Hq in Hp. injection Hp as <- Hqs.
  split; [done|]. replace (popped mb n) with (set_mb_queue q' mb) by congruence. done.
Qed.

(** C9: receiving a pending message copies its serialised form to the buffer, where the process
    then reads it, changes no other physical memory, returns the length, takes the message out of
    the mailbox, and gives the virtual area it used back. *)
Theorem receive_copies_message message_to_vec (k : kernel (A := A)) (p : Proc) sub ptr len live
    mk mp r l mb msg rest ser
    (Hview : mem_view k p live mk mp (Z.to_nat (slice_pages ptr len) + r))
    (Hfits : slice_fits k ptr len) (Hlen : len ≤ 0x400000000)
    (Hbuf : user_addrs mp ptr len = Some l) (Hdistinct : NoDup l)
    (Hwf : mg_wf (k_ipc k)) (Hown : owns (k_ipc k) (process_id p) sub)
    (Hmb : mailboxes (k_ipc k) !! sub = Some (Some mb)) (Hq : queue (mb_queue mb) = msg :: rest)
    (Hser : message_to_vec msg = Some ser) (Hroom : Z.of_nat (length ser) ≤ len) :
  ∃ k' mb', sc_ipc_receive (Frame := Frame) (PfCode := PfCode) message_to_vec
      (MkRawSyscall 0 sub len ptr 0) (k, p) =
      Ret (Go (Continue (Ok (Z.of_nat (length ser)))), (k', p)) ∧
    user_bytes (k_mem k') mp ptr (Z.of_nat (length ser)) = Some ser ∧
    (∀ a, a ∉ take (length ser) l → k_mem k' !! a = k_mem k !! a) ∧
    k_ipc k' = put_mailbox sub mb' (k_ipc k) ∧ queue (mb_queue mb') = rest ∧
    virt.va_reach (k_virt k') live ∧ k_sched k' = k_sched k ∧ k_phys k' = k_phys k.
Proof.
  unfold sc_ipc_receive. cbn [arg0 arg1 arg2].
  unfold mbind at 1, M_bind. rewrite try_len_ok by done.
  unfold mbind at 1, M_bind. pose proof Hfits as (Hp0 & Hl0 & Hmax & _).
  rewrite pointer_arg_ok by (unfold PAGE_SIZE_BYTES in *; lia).
  destruct flag_set_bits as (Hfp & Hfw & _).
  unfold with_write. match goal with |- context [with_slice ?f _ _ ?body] =>
    destruct (with_slice_ok f ptr len body k p live mk mp r l Hview Hfits)
      as (free & t & mk' & al & start & E & Hs & Hv & _); [by apply flag_set_lor|apply land_lor_l|done|] end.
  rewrite E. clear E.
  destruct (receive_pop (k_ipc k) (process_id p) sub (k_next_event k) mb msg rest) as (mb' & Er & Hqr);
    [done..|].
  rewrite get_kernel_bind, get_process_bind. cbn [fst snd].
  erewrite lift_bind by exact Er. cbv beta iota. rewrite put_kernel_bind. cbn [fst snd].
  unfold IpcResult_success. rewrite consume_quiet by done. rewrite Hser.
  erewrite lift_bind by reflexivity.
  assert (length ser <= length l)%nat as Hsl by (rewrite (user_addrs_length _ _ _ _ Hbuf); lia).
  erewrite lift_bind by (apply rassert_ret; apply Nat.leb_le; by rewrite length_fmap).
  rewrite get_kernel_bind. cbn [fst snd].
  erewrite lift_bind by (eapply (kernel_write_ok _ mk' start l); [exact Hs|done]).
  rewrite put_kernel_bind. cbn [fst snd mret M_ret mbind outcome_bind].
  destruct Hv as [Hva _ _ _]. cbn in Hva.
  destruct (virt.va_drop_spec free [] live al (virt.va_reach_inv _ _ Hva)) as (free' & Ed & _).
  cbn [k_virt set_k_phys set_k_ipc set_k_table set_k_virt]. rewrite Ed. cbn [mbind outcome_bind].
  eexists _, mb'. split; [reflexivity|]. cbn. split_and!; try done.
  - unfold user_bytes. rewrite (user_addrs_take _ _ _ _ _ Hbuf) by lia. cbn. f_equal.
    rewrite Nat2Z.id. apply list_eq_same_length with (length ser);
      [done|rewrite length_fmap, length_take; lia|].
    intros i x y Hi Hx Hy. rewrite list_lookup_fmap, lookup_take_lt in Hx by lia.
    apply fmap_Some in Hx as (a & Ha & ->). by eapply copy_to_at.
  - intros a Ha. apply copy_to_other. intros i Hi Hla. apply Ha.
    apply (list_elem_of_lookup_2 _ i). by rewrite lookup_take_lt.
  - by apply (virt.va_drop free [] live al).
Qed.

End properties.

(** ** Examples *)

Definition example_pm (t : AddrSpace) : ProcMem := MkProcMem t 0 [] (MkElfImage (ei_header example_elf) []).
Definition example_process (t : AddrSpace) : Process ProcMem :=
  MkProcess 0x600000 0x4fff00 false 2 (example_pm t).

(** A mailbox of process 2 holding one message. *)
Definition example_published : Manager :=
  match Manager_publish (example_subscribed false false) (MkTopic "a") [7; 8] with
  | Ret (_, m) => m
  | Panic _ => Manager_new
  end.

Lemma example_published_wf : mg_wf example_published.
Proof.
  unfold example_published.
  destruct (publish_spec (MkTopic "a") [7; 8] (example_subscribed false false))
    as (E & B & -> & Hwf & _); [by apply example_subscribed_wf|done].
Qed.

Definition example_k (log : list Z) : kernel :=
  MkKernel Scheduler_new example_published 0 virt.FREE_LIST example_kernel ({[0x600000]} : gset Z)
    ∅ [] log.

Lemma example_view log : mem_view (example_k log) (example_process example_proc) []
  {[0x10000000 := 0x10000000]} {[0x400000 := 0x600000]} 200.
Proof.
  split; [apply virt.va_init|apply example_kernel_denotes| |apply example_frames_ok].
  exists 200%nat. apply example_proc_denotes.
Qed.

Lemma receive_copies_message_witness :
  ∃ k' mb', sc_ipc_receive (Frame := unit) (PfCode := unit) (λ m, Some (data m))
      (MkRawSyscall 0 0 16 0x400010 0) (example_k [], example_process example_proc) =
      Ret (Go (Continue (Ok 2)), (k', example_process example_proc)) ∧
    user_bytes (k_mem k') {[0x400000 := 0x600000]} 0x400010 2 = Some [7; 8] ∧
    queue (mb_queue mb') = [].
Proof.
  edestruct (receive_copies_message (Frame := unit) (PfCode := unit) (λ m, Some (data m))
    (example_k []) (example_process example_proc) 0 0x400010 16 []
    {[0x10000000 := 0x10000000]} {[0x400000 := 0x600000]} 199)
    as (k' & mb' & E1 & E2 & _ & _ & E3 & _).
  - apply example_view.
  - split; [lia|]. split; [lia|]. split; [vm_compute; discriminate|].
    exists (virt.MkBlock virt.START_ADDR virt.END_ADDR). split; [by left|vm_compute; discriminate].
  - lia.
  - vm_compute. reflexivity.
  - apply (bool_decide_unpack _). vm_compute. exact I.
  - apply example_published_wf.
  - eexists. split; vm_compute; reflexivity.
  - vm_compute. reflexivity.
  - vm_compute. reflexivity.
  - vm_compute. reflexivity.
  - vm_compute. discriminate.
  - exists k', mb'. exact (conj E1 (conj E2 E3)).
Defined.

(** The byte of the code shared by all processes after a process has asked for the kernel log to be
    written over it. *)
Definition log_over_common_code : outcome (option Z) :=
  t ← pt_map_to example_proc PROCESS_COMMON_CODE 0xa00000 PRESENT;
  '(_, (k, _)) ← sc_kernel_log_read (Frame := unit) (PfCode := unit)
    (MkRawSyscall 0 1 PROCESS_COMMON_CODE 0 0) (example_k [0xcc], example_process t);
  Ret (k_mem k !! 0xa00000).

(** Copying out goes through [memory_slice_mut], which translates the pointer but does not look at
    the flags of the process's pages: the shared code is mapped read-only and still overwritten. *)
Lemma log_read_overwrites_common_code : log_over_common_code = Ret (Some 0xcc).
Proof. vm_compute. reflexivity. Qed.
