(* ===== verification/Interrupt.v ===== *)
(** * Interrupt: interrupts while a process runs (src/interrupt/handler.rs), and the
    interrupt controller (src/driver/pic.rs)

    The entry point saves the process in the scheduler, carries out a system call, a timer tick or
    a device interrupt, or terminates the process, and says what the processor does next.  Port
    writes are traces; the time is read once per interrupt; what the hardware or a serialiser
    returns is an argument.  Functions that leave for good ([idle], [immediate_switch_to]) are
    values of [Exit].  Repeated system calls, the wait for the keyboard controller and the wait for
    a lock run on fuel: what never ends has no result, whatever the fuel. *)

From stdpp Require Import base gmap list strings pretty.
From Stdlib Require Import ZArith Lia.
From S2P Require Import Prelude Abi Topic SubscriptionList Queues EventQueue Ipc Clocks Scheduler.
From S2P Require Import VirtAlloc PageMap Args ProcessMem Elf Process Syscall.
Open Scope Z_scope.

(** ** The interrupt controller *)

Module pic.

Definition PIC1_COMMAND : Z := 0x20.
Definition PIC2_COMMAND : Z := 0xa0.
Definition PIC1_DATA : Z := 0x21.
Definition PIC2_DATA : Z := 0xa1.
Definition PIC_CMD_EOI : Z := 0x20.
Definition PIC_CMD_INIT : Z := 0x11.

Record Pic := MkPic { offset : Z; command_port : Z; data_port : Z }.

(** The addition is on [u8], with overflow checks. *)
Definition Pic_handles_interrupt (self : Pic) (interrupt_id : Z) : outcome bool :=
  if offset self <=? interrupt_id then
    if offset self + 8 <? 256 then Ret (interrupt_id <? offset self + 8)
    else Panic "attempt to add with overflow"
  else Ret false.

(** A write of a byte to a port. *)
Abbreviation port_write := (Z * Z)%type.

Definition send_eoi (self : Pic) : list port_write := [(command_port self, PIC_CMD_EOI)].

Record ChainedPics := MkChainedPics { pics0 : Pic; pics1 : Pic; enabled : bool }.

Definition ChainedPics_new (pic1_offset pic2_offset : Z) : ChainedPics :=
  MkChainedPics (MkPic pic1_offset PIC1_COMMAND PIC1_DATA)
    (MkPic pic2_offset PIC2_COMMAND PIC2_DATA) false.

Definition PICS : ChainedPics := ChainedPics_new 0x20 0x28.

(** [io_wait] is a write to port 0x80. *)
Definition io_wait : port_write := (0x80, 0).

Definition init (self : ChainedPics) : list port_write * ChainedPics :=
  ([(command_port (pics0 self), PIC_CMD_INIT); io_wait;
    (command_port (pics1 self), PIC_CMD_INIT); io_wait;
    (data_port (pics0 self), offset (pics0 self)); io_wait;
    (data_port (pics1 self), offset (pics1 self)); io_wait;
    (data_port (pics0 self), 4); io_wait;
    (data_port (pics1 self), 2); io_wait;
    (data_port (pics0 self), 1); io_wait;
    (data_port (pics1 self), 1); io_wait;
    (data_port (pics0 self), 0xf8); (data_port (pics1 self), 0xb1)],
   MkChainedPics (pics0 self) (pics1 self) true).

Definition disable (self : ChainedPics) : list port_write * ChainedPics :=
  ([(data_port (pics0 self), 0xff); (data_port (pics1 self), 0xff)],
   MkChainedPics (pics0 self) (pics1 self) false).

Definition ChainedPics_handles_interrupt (self : ChainedPics) (interrupt_id : Z) : outcome bool :=
  b ← Pic_handles_interrupt (pics0 self) interrupt_id;
  if b : bool then Ret true else Pic_handles_interrupt (pics1 self) interrupt_id.

(** The two in-service registers as read from the command ports. *)
Definition read_isr (isr0 isr1 : Z) : Z := Z.lor (Z.shiftl isr1 8) isr0.

Definition notify_eoi (self : ChainedPics) (interrupt_id : Z) : outcome (list port_write) :=
  h ← ChainedPics_handles_interrupt self interrupt_id;
  if h : bool then
    h1 ← Pic_handles_interrupt (pics1 self) interrupt_id;
    Ret ((if h1 : bool then send_eoi (pics1 self) else []) ++ send_eoi (pics0 self))
  else Ret [].

Definition notify_eoi_primary (self : ChainedPics) : list port_write := send_eoi (pics0 self).

End pic.

(** ** Interrupts *)

Definition process_pair_to_u128 (stack_pointer page_table : Z) : Z :=
  Z.lor (Z.shiftl stack_pointer 64) page_table.

Definition return_process (p : ProcessSwitchInfo) : Z :=
  process_pair_to_u128 (si_stack_pointer p) (si_p4addr p).

(** What the processor does after the handler. *)
Inductive Exit :=
| ExitReturn (pair : Z)
| ExitIdle
| ExitJump (p : ProcessSwitchInfo).

(** A loop that polls: at its round [n] it ends if [ready n]. *)
Fixpoint poll (fuel n : nat) (ready : nat → bool) : option unit :=
  match fuel with
  | O => None
  | S fuel => if ready n then Some tt else poll fuel (S n) ready
  end.

(** The keyboard controller: the status at each read, and the byte that is read then. *)
Record Ps2Port := MkPs2Port { ps2_status : nat → Z; ps2_data : Z }.

Section interrupt.
Context `{HO : HashOrder} `{PC : Pinecone} `{PagingOps} `{!AlignOps}
  {A : Type} `{!PhysAlloc A} {Frame PfCode : Type}.
Context (clk : Clock) (now : BSPInstant) (is_bsp : bool) (random : Z)
  (garbage : gmap Z (gmap Z entry)) (idt common : Z)
  (rd : InitRD) (services : gmap SubscriptionId Service)
  (message_to_vec : Message → option (list Z)).

Abbreviation Result := (ProcessResult Frame PfCode).
Abbreviation K := (kernel (A := A)).
Abbreviation handle := (handle_syscall (Frame := Frame) (PfCode := PfCode) clk now is_bsp random
  garbage idt common rd services message_to_vec).

(** The serialised forms of the [ProcessTerminated] message, a byte, and [()]. *)
Context (encode : ProcessId → Result → option (list byte))
  (encode_u8 : Z → option (list byte)) (encode_unit : option (list byte)).

(** A computation that may panic, run out of fuel ([None]), or leave for good ([inr]). *)
Definition step (X : Type) : Type := option (outcome ((X + Exit) * K)).

Definition done {X} (x : X) (k : K) : step X := Some (Ret (inl x, k)).
Definition leave {X} (e : Exit) (k : K) : step X := Some (Ret (inr e, k)).
Definition crash {X} (why : string) : step X := Some (Panic why).

(** Running a scheduler operation. *)
Definition with_sched {X Y} (o : outcome (X * Scheduler ProcMem)) (k : K)
    (f : X → K → step Y) : step Y :=
  match o with
  | Ret (x, s) => f x (set_k_sched s k)
  | Panic w => crash w
  end.

(** [sched.terminate_and_switch], then the switch; [repeat] is [handle_repeat_syscall]. *)
Definition terminate_with (repeat : ProcessSwitchInfo → K → step (option ProcessSwitchInfo))
    {X} (pid : ProcessId) (result : Result) (k : K) : step X :=
  match Scheduler_terminate_and_switch encode clk now (k_ipc k) (k_sched k) pid result with
  | Panic w => crash w
  | Ret (sw, m, s) =>
      let k := set_k_sched s (set_k_ipc m (k_next_event k) k) in
      match sw with
      | SwitchContinue => crash "internal error: entered unreachable code"
      | SwitchIdle => leave ExitIdle k
      | Switch p => leave (ExitJump p) k
      | RepeatSyscall p =>
          match repeat p k with
          | Some (Ret (inl (Some rp), k)) => leave (ExitJump rp) k
          | Some (Ret (inl None, k)) => leave ExitIdle k
          | Some (Ret (inr e, k)) => leave e k
          | Some (Panic w) => crash w
          | None => None
          end
      end
  end.

Fixpoint handle_repeat_syscall (fuel : nat) (p : ProcessSwitchInfo) (k : K)
    : step (option ProcessSwitchInfo) :=
  match fuel with
  | O => None
  | S fuel =>
      match handle (si_pid p) k with
      | Panic w => crash w
      | Ret (ActTerminate status, k) =>
          terminate_with (handle_repeat_syscall fuel) (si_pid p) status k
      | Ret (ActContinue, k) => done (Some p) k
      | Ret (ActSwitch schedule, k) =>
          with_sched (Scheduler_switch clk now (k_sched k) (Some schedule)) k (λ sw k,
            match sw with
            | SwitchContinue | SwitchIdle => done None k
            | Switch inner_p => done (Some inner_p) k
            | RepeatSyscall inner_p =>
                if si_pid p =? si_pid inner_p then crash "handle_repeat_syscall loops"
                else handle_repeat_syscall fuel inner_p k
            end)
      end
  end.

Definition terminate (fuel : nat) {X} (pid : ProcessId) (result : Result) (k : K) : step X :=
  terminate_with (handle_repeat_syscall fuel) pid result k.

Definition fail (fuel : nat) {X} (pid : ProcessId) (error : ProcessError Frame PfCode) (k : K)
    : step X :=
  terminate fuel pid (Failed error) k.

(** The macro [handle_switch!]: [done tt] falls through. *)
Definition handle_switch (fuel : nat) (next_process : ProcessSwitch) (k : K) : step unit :=
  match next_process with
  | SwitchContinue => done tt k
  | SwitchIdle => leave ExitIdle k
  | Switch process => leave (ExitReturn (return_process process)) k
  | RepeatSyscall process =>
      match handle_repeat_syscall fuel process k with
      | Some (Ret (inl (Some inner_process), k)) => leave (ExitReturn (return_process inner_process)) k
      | Some (Ret (inl None, k)) => done tt k
      | Some (Ret (inr e, k)) => leave e k
      | Some (Panic w) => crash w
      | None => None
      end
  end.

(** [sched.next_tick()] and [set_deadline(..).expect(..)], after a scheduler operation. *)
Definition arm_timer (o : outcome (ProcessSwitch * Scheduler ProcMem))
    : outcome (ProcessSwitch * Scheduler ProcMem) :=
  '(target, s) ← o;
  deadline ← Scheduler_next_tick clk now s;
  match deadline with
  | Some d =>
      match (set_deadline clk d now).2 with
      | Ok _ => Ret (target, s)
      | Err _ => Panic "TODO: Deadline too soon"
      end
  | None => Ret (target, s)
  end.

(** [kernel_publish] on the kernel state. *)
Definition publish_irq (name : string) (encoded : option (list byte)) (k : K) : outcome K :=
  '(m, s) ← kernel_publish (k_ipc k) (k_sched k) name encoded;
  Ret (set_k_sched s (set_k_ipc m (k_next_event k) k)).

(** The state of the interrupt controllers: enabled, and the in-service registers. *)
Context (pic_enabled : bool) (isr : Z).

Definition exception_irq1 (fuel : nat) (ps2 : Ps2Port) (k : K) : step unit :=
  match poll fuel 0 (λ n, negb (Z.land (ps2_status ps2 n) 0x1 =? 0)) with
  | None => None
  | Some _ =>
      match publish_irq "irq/keyboard" (encode_u8 (ps2_data ps2)) k with
      | Ret k => done tt k
      | Panic w => crash w
      end
  end.

(** [PICS.lock()] polls until the lock is free; here the handler holds it itself. *)
Definition exception_irq7 (fuel : nat) (k : K) : step unit :=
  if negb pic_enabled then crash "Stop! reached 7"
  else if negb (Z.land isr (Z.shiftl 1 7) =? 0) then
    let locked := true in
    match poll fuel 0 (λ _, negb locked) with None => None | Some _ => done tt k end
  else done tt k.

Definition exception_irq14 (k : K) : step unit :=
  if negb pic_enabled then crash "Stop! reached 14" else done tt k.

Definition exception_irq15 (k : K) : step unit :=
  if negb pic_enabled then crash "Stop! reached 15" else done tt k.

(** [irq/{n}], for the interrupts of the dynamic range. *)
Definition irq_topic (irq : Z) : string := "irq/" +:+ pretty irq.

(** The scheduler is locked for the whole arm, so a repeated call finds it locked. *)
Definition dynamic_irq (interrupt : Z) (k : K) : step unit :=
  match publish_irq (irq_topic (interrupt - 0x30)) encode_unit k with
  | Panic w => crash w
  | Ret k =>
      with_sched (Scheduler_switch_current_or_next (k_sched k)) k (λ sw k,
        match sw with
        | SwitchContinue => done tt k
        | SwitchIdle => leave ExitIdle k
        | Switch process => leave (ExitReturn (return_process process)) k
        | RepeatSyscall _ => crash "SCHEDULER LOCKED at start of handle_syscall"
        end)
  end.

Definition in_range (a b n : Z) : bool := (a <=? n) && (n <=? b).

(** The arms of the [match] on the interrupt number. *)
Definition dispatch (fuel : nat) (scheduler_enabled : bool) (ps2 : Ps2Port) (cr2 : Z)
    (pf_from_bits : Z → option PfCode) (interrupt : Z) (stack_frame : Frame) (error_code : Z)
    (pid : ProcessId) (k : K) : step unit :=
  if interrupt =? 0xd7 then
    match handle pid k with
    | Panic w => crash w
    | Ret (ActTerminate status, k) => terminate fuel pid status k
    | Ret (ActContinue, k) => done tt k
    | Ret (ActSwitch schedule, k) =>
        with_sched (arm_timer (Scheduler_switch clk now (k_sched k) (Some schedule))) k
          (handle_switch fuel)
    end
  else if interrupt =? 0xd8 then
    if negb scheduler_enabled then crash "SCHEDULER_ENABLED"
    else if is_bsp then
      with_sched (arm_timer (Scheduler_tick clk now now (k_sched k))) k (handle_switch fuel)
    else handle_switch fuel SwitchIdle k
  else if interrupt =? 0x20 then crash "PIT ticked while in process"
  else if interrupt =? 0x21 then exception_irq1 fuel ps2 k
  else if interrupt =? 0x27 then exception_irq7 fuel k
  else if in_range 0x22 0x26 interrupt || (interrupt =? 0x28) || in_range 0x2c 0x2d interrupt then
    crash "Unhandled interrupt"
  else if interrupt =? 0x2e then exception_irq14 k
  else if interrupt =? 0x2f then exception_irq15 k
  else if in_range 0x30 0x9f interrupt then dynamic_irq interrupt k
  else if interrupt =? 0x00 then fail fuel pid (DivideByZero stack_frame) k
  else if interrupt =? 0x0e then
    match pf_from_bits error_code with
    | None => crash "Invalid page fault error code"
    | Some code => fail fuel pid (PageFault stack_frame cr2 code) k
    end
  else if bool_decide (interrupt ∈ [0x08; 0x0a; 0x0b; 0x0c; 0x0d; 0x11; 0x1e]) then
    fail fuel pid (InterruptWithCode interrupt stack_frame error_code) k
  else fail fuel pid (Interrupt interrupt stack_frame) k.

Definition process_interrupt_inner (fuel : nat) (scheduler_enabled : bool) (ps2 : Ps2Port) (cr2 : Z)
    (pf_from_bits : Z → option PfCode) (interrupt process_rsp page_table : Z)
    (stack_frame : Frame) (error_code : Z) (k : K) : option (outcome (Exit * K)) :=
  match Scheduler_get_running_pid (k_sched k) with
  | None => Some (Panic "No process running?")
  | Some pid =>
      match Scheduler_store_state (k_sched k) pid page_table process_rsp with
      | Panic w => Some (Panic w)
      | Ret s =>
          match dispatch fuel scheduler_enabled ps2 cr2 pf_from_bits interrupt stack_frame
                  error_code pid (set_k_sched s k) with
          | Some (Ret (inl _, k)) =>
              (* continue current process *)
              Some (Ret (ExitReturn (process_pair_to_u128 process_rsp page_table), k))
          | Some (Ret (inr e, k)) => Some (Ret (e, k))
          | Some (Panic w) => Some (Panic w)
          | None => None
          end
      end
  end.

(** The timer and device interrupts that arrive while the processor is idle return zero to stay
    idle. *)
Definition exit_pair (o : option ProcessSwitchInfo) : Z :=
  match o with Some p => return_process p | None => 0 end.

Definition idle_switch (fuel : nat) (next_process : ProcessSwitch) (k : K) : step Z :=
  match next_process with
  | Switch p => done (return_process p) k
  | RepeatSyscall p =>
      match handle_repeat_syscall fuel p k with
      | Some (Ret (inl o, k)) => done (exit_pair o) k
      | Some (Ret (inr e, k)) => leave e k
      | Some (Panic w) => crash w
      | None => None
      end
  | SwitchContinue | SwitchIdle => done 0 k
  end.

Definition exception_tsc_deadline (fuel : nat) (scheduler_enabled : bool) (k : K) : step Z :=
  if is_bsp && scheduler_enabled then
    with_sched (arm_timer (Scheduler_tick clk now now (k_sched k))) k (idle_switch fuel)
  else done 0 k.

Definition irq_dynamic (fuel : nat) (interrupt : Z) (k : K) : step Z :=
  let interrupt := interrupt mod 256 in
  if interrupt <? 0x30 then crash "attempt to subtract with overflow"
  else
  match publish_irq (irq_topic (interrupt - 0x30)) encode_unit k with
  | Panic w => crash w
  | Ret k => with_sched (Scheduler_switch_current_or_next (k_sched k)) k (idle_switch fuel)
  end.

End interrupt.
