(* ===== verification/InterruptProps.v ===== *)
(** * InterruptProps: what is resumed after an interrupt

    The scheduler invariant through system calls, ticks, device interrupts and terminations; the
    resumed process is the one the scheduler says is running. *)

From stdpp Require Import base gmap list strings pretty.
From Stdlib Require Import ZArith Lia.
From S2P Require Import Prelude Abi Topic SubscriptionList Queues EventQueue Ipc IpcProps.
From S2P Require Import IpcCalls Clocks Scheduler SchedulerProps Bytes VirtAlloc PageMap Args.
From S2P Require Import ProcessMem Elf Process Syscall SyscallProps SyscallRepeat Interrupt.
Open Scope Z_scope.

(** ** The end of interrupt *)

(** An end of interrupt for a remapped line reaches the primary controller, and the secondary
    one first when the line is one of its own; other interrupts send nothing. *)
Theorem notify_eoi_exact n (Hn : 0 ≤ n < 256) :
  pic.notify_eoi pic.PICS n = Ret (
    if decide (0x20 ≤ n < 0x28) then [(pic.PIC1_COMMAND, pic.PIC_CMD_EOI)]
    else if decide (0x28 ≤ n < 0x30) then
      [(pic.PIC2_COMMAND, pic.PIC_CMD_EOI); (pic.PIC1_COMMAND, pic.PIC_CMD_EOI)]
    else []).
Proof.
  unfold pic.notify_eoi, pic.ChainedPics_handles_interrupt, pic.Pic_handles_interrupt. cbn.
  change (32 + 8) with 40. change (40 + 8) with 48. cbn.
  destruct (Z.leb_spec 32 n), (Z.ltb_spec n 40), (Z.leb_spec 40 n), (Z.ltb_spec n 48); try lia; cbn;
    repeat case_decide; lia || done.
Qed.

Lemma notify_eoi_exact_witness :
  pic.notify_eoi pic.PICS 0x2e = Ret [(pic.PIC2_COMMAND, pic.PIC_CMD_EOI); (pic.PIC1_COMMAND, pic.PIC_CMD_EOI)].
Proof. exact (notify_eoi_exact 0x2e ltac:(lia)). Defined.

(** ** Events relayed by the IPC manager *)

Section events.
Context `{HO : HashOrder} {S : Type} `{!EventSink S}.

(** The only effect on the scheduler is that events are relayed. *)
Definition relayed (s s' : S) : Prop := ∃ es, s' = foldl on_explicit_event s es.

Lemma relayed_refl s : relayed s s.
Proof. by exists []. Qed.

Lemma relayed_trans s1 s2 s3 : relayed s1 s2 → relayed s2 s3 → relayed s1 s3.
Proof. intros [es ->] [es' ->]. exists (es ++ es'). by rewrite foldl_app. Qed.

Lemma consume_relayed {X} (r : IpcResult X) s v s' :
  IpcResult_consume_events r s = (v, s') → relayed s s'.
Proof. intros [= _ <-]. by eexists. Qed.

Lemma unsubscribe_loop_relayed subs m s m' s' :
  unsubscribe_loop subs m s = Ret (m', s') → relayed s s'.
Proof.
  revert m s. induction subs as [|sub subs IH]; intros m s E; cbn [unsubscribe_loop] in E.
  { injection E as _ <-. apply relayed_refl. }
  apply outcome_bind_ret in E as ([r m1] & _ & E).
  destruct (IpcResult_consume_events r s) as [v s1] eqn:Ec. destruct v; [|done].
  eapply relayed_trans; [by eapply consume_relayed|by eapply IH].
Qed.

Lemma disconnect_loop_relayed subs m s pid m' s' :
  disconnect_loop subs m s pid = (m', s') → relayed s s'.
Proof.
  revert m s. induction subs as [|sub subs IH]; intros m s E; cbn [disconnect_loop] in E.
  { injection E as _ <-. apply relayed_refl. }
  destruct (disconnect sub m s pid) as [m1 s1] eqn:Ed. apply (relayed_trans _ s1); [|by eapply IH].
  unfold disconnect in Ed. repeat case_match; simplify_eq; try apply relayed_refl.
  match goal with |- relayed _ (on_explicit_event _ ?e) => by exists [e] end.
Qed.

Lemma on_process_over_relayed m s pid m' s' :
  Manager_on_process_over m s pid = Ret (m', s') → relayed s s'.
Proof.
  unfold Manager_on_process_over. intros E. apply outcome_bind_ret in E as ([m1 s1] & E1 & E).
  injection E as E. apply (relayed_trans _ s1); [|by eapply disconnect_loop_relayed].
  case_match; [by eapply unsubscribe_loop_relayed|]. injection E1 as _ <-. apply relayed_refl.
Qed.

Lemma kernel_publish_relayed m s name d m' s' :
  kernel_publish m s name d = Ret (m', s') → relayed s s'.
Proof.
  unfold kernel_publish. intros E. outcome_inv.
  match goal with r : IpcResult unit |- _ => destruct (IpcResult_consume_events r s) as [v s1] eqn:Ec end.
  destruct v; [|done]. injection E as _ <-. by eapply consume_relayed.
Qed.

End events.

(** ** Scheduler operations that return *)

Section sched.
Context `{HO : HashOrder} {Mem : Type}.
Implicit Types s : Scheduler Mem.

(** The running process is the one described by [i]. *)
Definition is_running s (i : ProcessSwitchInfo) (repeat : bool) : Prop :=
  ∃ p, sched_running s = Some (si_pid i) ∧ processes s !! si_pid i = Some p ∧
    Process_switch_info p = i ∧ repeat_syscall p = repeat.

(** Nothing can run. *)
Definition is_idle s : Prop := sched_running s = None ∧ running (queues s) = [].

Definition switch_ok s (sw : ProcessSwitch) : Prop :=
  match sw with
  | SwitchContinue => False
  | SwitchIdle => is_idle s
  | Switch i => is_running s i false
  | RepeatSyscall i => is_running s i true
  end.

Lemma switch_to_ok s pid p :
  sched_running s = Some pid → processes s !! pid = Some p → process_id p = pid →
  switch_ok s (switch_to p).
Proof.
  intros Hr Hp Hid. unfold switch_to. destruct (repeat_syscall p) eqn:E; cbn; exists p;
    cbn; by rewrite Hid.
Qed.

Lemma take_running s pid q r :
  sched_idle s → Queues_take (queues s) = (Some pid, q) →
  sched_wf (set_sched_running (Some pid) r (set_queues q s)).
Proof.
  intros [Hq Hall Hid Hn Hp] Ht. pose proof (take_procs _ _ _ Ht) as Hpr.
  pose proof (qs_nodup _ Hq) as Hnd. rewrite Hpr in Hnd. apply NoDup_cons in Hnd as [Hni _].
  split; cbn; try done; [by eapply take_wf| |by intros p [= <-]].
  intros p. rewrite Hall, Hpr, elem_of_cons. naive_solver.
Qed.

Lemma nothing_running s q r :
  sched_idle s → Queues_take (queues s) = (None, q) →
  sched_wf (set_sched_running None r (set_queues q s)) ∧
  is_idle (set_sched_running None r (set_queues q s)).
Proof.
  intros [Hq Hall Hid Hn Hp] Ht. unfold Queues_take in Ht.
  destruct (running (queues s)) eqn:Er; simplify_eq. split; [|done].
  split; cbn; try done. intros p. rewrite Hall. naive_solver.
Qed.

Lemma switch_frame clk now s w sw s' :
  sched_wf s → (w = None → sched_running s = None) →
  Scheduler_switch clk now s w = Ret (sw, s') →
  sched_wf s' ∧ processes s' = processes s ∧ next_pid s' = next_pid s ∧ switch_ok s' sw.
Proof.
  intros Hwf Hw E. unfold Scheduler_switch in E. apply outcome_bind_ret in E as (s1 & E1 & E).
  assert (sched_idle s1 ∧ processes s1 = processes s ∧ next_pid s1 = next_pid s) as (Hi & Hp & Hn).
  { destruct w as [w|], (sched_running s) as [pid|] eqn:Hr; try (injection E1 as <-).
    - apply outcome_bind_ret in E1 as (q & Eq & E1). injection E1 as <-.
      split; [by eapply give_running_idle|done].
    - split; [by apply not_running_idle|done].
    - by specialize (Hw eq_refl).
    - split; [by apply not_running_idle|done]. }
  rewrite <- Hp, <- Hn. destruct (Queues_take (queues s1)) as [[pid|] q] eqn:Ht.
  - apply outcome_bind_ret in E as (t & _ & E). apply outcome_bind_ret in E as (e & _ & E).
    apply outcome_bind_ret in E as (p & Hl & E). apply expect_ret in Hl. injection E as <- <-. split_and!; [by apply take_running|done|done|].
    apply (switch_to_ok _ pid); [done|done|]. by eapply (id_id _ Hi).
  - injection E as <- <-. destruct (nothing_running s1 q None Hi Ht). done.
Qed.

Lemma switch_current_frame s sw s' :
  sched_wf s → Scheduler_switch_current_or_next s = Ret (sw, s') →
  sched_wf s' ∧ processes s' = processes s ∧ next_pid s' = next_pid s ∧ switch_ok s' sw.
Proof.
  intros Hwf E. unfold Scheduler_switch_current_or_next in E.
  destruct (sched_running s) as [pid|] eqn:Hr.
  - rewrite Hr in E. apply outcome_bind_ret in E as (p & Hp & E). apply expect_ret in Hp.
    injection E as <- <-. split_and!; [done|done|done|]. apply (switch_to_ok _ pid); [done|done|].
    by eapply (sw_id _ Hwf).
  - pose proof (not_running_idle _ Hwf Hr) as Hi.
    destruct (Queues_take (queues s)) as [[pid|] q] eqn:Ht; cbn in E.
    + apply outcome_bind_ret in E as (p & Hp & E). apply expect_ret in Hp. injection E as <- <-.
      split_and!; [by apply take_running|done|done|]. apply (switch_to_ok _ pid); [done|done|].
      by eapply (id_id _ Hi).
    + injection E as <- <-. by destruct (nothing_running s q (running_timeslice_end s) Hi Ht).
Qed.

Lemma tick_frame clk now now' s sw s' :
  sched_wf s → Scheduler_tick clk now now' s = Ret (sw, s') →
  sched_wf s' ∧ processes s' = processes s ∧ next_pid s' = next_pid s ∧ switch_ok s' sw.
Proof.
  intros Hwf E. pose proof (sw_queues _ Hwf) as Hq. unfold Scheduler_tick in E.
  eapply (switch_frame clk now' (set_queues (Queues_on_tick (queues s) now) s)) in E; [done| |done].
  apply (same_wf s); [done|]. split; cbn; try done.
  - by apply (apply_trigger_wf (OnTick now)).
  - by apply (apply_trigger_procs (OnTick now)).
Qed.

Lemma relayed_same s s' : qs_wf (queues s) → relayed s s' → same_but_queues s s'.
Proof.
  intros Hq [es ->]. pose proof (same_refl s Hq) as H. revert H. generalize s at 1 3. 
  intros s0 H. revert s H Hq. induction es as [|e es IH]; intros s H Hq; cbn [foldl]; [done|].
  apply IH; [by apply (event_ok (ok := same_but_queues s0))|].
  by apply (apply_trigger_wf (OnEvent e)).
Qed.

Lemma relayed_wf s s' : sched_wf s → relayed s s' → sched_wf s'.
Proof. intros Hs Hr. eapply same_wf; [done|]. by apply relayed_same; [apply Hs|]. Qed.

Lemma terminate_frame {Status} (encode : ProcessId → Status → option (list byte)) clk now m s target
    status sw m' s' :
  sched_wf s → sched_running s = Some target →
  Scheduler_terminate_and_switch encode clk now m s target status = Ret (sw, m', s') →
  sched_wf s' ∧ processes s' = delete target (processes s) ∧ next_pid s' = next_pid s ∧
  switch_ok s' sw.
Proof.
  intros Hwf Hr E. unfold Scheduler_terminate_and_switch in E.
  rewrite bool_decide_eq_true_2 in E by done. apply outcome_bind_ret in E as ([m1 s1] & Et & E).
  unfold Scheduler_terminate in Et. apply outcome_bind_ret in Et as ([m2 s2] & Et & E1).
  destruct (proj2 (sw_all _ Hwf target)) as [x Hx]; [by left|]. rewrite Hx in Et.
  rewrite (sw_id _ Hwf _ _ Hx) in Et. apply outcome_bind_ret in Et as ([m3 s3] & E3 & E2).
  set (s0 := set_queues _ _) in E3.
  assert (same_but_queues s0 s2) as Hsame.
  { apply relayed_same; [by apply (apply_trigger_wf (OnOver target)), Hwf|].
    eapply relayed_trans; [by eapply on_process_over_relayed|by eapply kernel_publish_relayed]. }
  destruct (terminated_wf s s2 target Hwf Hr Hsame) as (Hr2 & Hwf2 & Hp2).
  rewrite bool_decide_eq_true_2 in E1 by done. injection E1 as -> <-.
  apply outcome_bind_ret in E as ([sw1 s4] & Es & E). injection E as <- <- <-.
  destruct (switch_frame _ _ _ None _ _ Hwf2 ltac:(done) Es) as (? & Hp & Hn & ?).
  split_and!; [done|by rewrite Hp|rewrite Hn; cbn; by rewrite (sb_next _ _ Hsame)|done].
Qed.

(** Going to sleep does not add to the run queue. *)
Lemma sleeps_reduced w q pid w' :
  sleeps w → WaitFor_reduce_queues w q pid = Ret w' → w' ≠ WaitNone.
Proof.
  destruct w as [| | |e|l]; try done; [by intros _ [= <-]|]. intros [Hne Hl].
  assert (∀ l acc, Forall is_event l → reduce_loop l acc None = Ret (acc ++ l, None)) as Hloop.
  { clear. induction l as [|x l IH]; intros acc Hl; cbn; [by rewrite app_nil_r|].
    inversion_clear Hl as [|? ? [e ->] Hl']. rewrite IH by done. by rewrite <- (assoc_L (++)). }
  assert (first_done q pid l = None) as Hd.
  { clear Hne. induction Hl as [|x l [e ->] Hl IH]; [done|exact IH]. }
  unfold WaitFor_reduce_queues, WaitFor_reduce. rewrite Hd, Hloop by done. cbn.
  destruct Hl as [|x l' [e ->] _]; [done|]. destruct l'; by intros [= <-].
Qed.

(** A process that goes to sleep is not the one that is switched to. *)
Lemma switch_other clk now s w sw s' i pid :
  sched_wf s → sched_running s = Some pid → sleeps w →
  Scheduler_switch clk now s (Some w) = Ret (sw, s') → switch_ok s' sw → sw = RepeatSyscall i → si_pid i ≠ pid.
Proof.
  intros Hwf Hr Hw E Hsw ->. destruct Hsw as (x & Hr' & _). unfold Scheduler_switch in E. rewrite Hr in E.
  apply outcome_bind_ret in E as (s1 & E1 & E). apply outcome_bind_ret in E1 as (q & Hg & E1).
  injection E1 as <-. destruct (give_cases _ _ _ _ (sw_queues _ Hwf) Hg) as (w' & Hred & _ & _ & Hc).
  pose proof (sleeps_reduced _ _ _ _ Hw Hred). destruct Hc as [[? _]|(_ & Hrun & _)]; [done|].
  unfold Queues_take in E. cbn [queues set_queues] in E. destruct (running q) as [|next rest] eqn:Hq; [done|].
  outcome_inv. simplify_eq. cbn in Hr'. injection Hr' as <-. intros ->.
  apply (sw_out _ Hwf pid Hr). apply elem_of_procs. left. rewrite <- Hrun. left.
Qed.

(** The running process, when it has no call to repeat, is what an interrupt goes back to. *)
Lemma switch_current_running s i :
  is_running s i false → Scheduler_switch_current_or_next s = Ret (Switch i, s).
Proof.
  intros (p & Hr & Hp & Hi & Hf). unfold Scheduler_switch_current_or_next. rewrite Hr. cbn. rewrite Hr, Hp. cbn.
  unfold switch_to. by rewrite Hf, Hi.
Qed.

End sched.

(** ** The handler *)

Section handler.
Context `{HO : HashOrder} `{PC : Pinecone} `{PagingOps} `{!AlignOps}
  {A : Type} `{!PhysAlloc A} {Frame PfCode : Type}.
Context (clk : Clock) (now : BSPInstant) (is_bsp : bool) (random : Z)
  (garbage : gmap Z (gmap Z entry)) (idt common : Z)
  (rd : InitRD) (services : gmap SubscriptionId Service)
  (message_to_vec : Message → option (list Z))
  (encode : ProcessId → ProcessResult Frame PfCode → option (list byte))
  (encode_u8 : Z → option (list byte)) (encode_unit : option (list byte))
  (pic_enabled : bool) (isr : Z).

Abbreviation K := (kernel (A := A)).
Abbreviation repeated := (handle_repeat_syscall clk now is_bsp random garbage idt common rd services
  message_to_vec encode).
Abbreviation handle := (handle_syscall (Frame := Frame) (PfCode := PfCode) clk now is_bsp random
  garbage idt common rd services message_to_vec).

Definition int_wf (k : K) : Prop := sched_wf (k_sched k) ∧ next_pid (k_sched k) ≤ u64_max.

(** What the processor goes on with is what the scheduler says is running. *)
Definition exit_ok (k : K) (e : Exit) : Prop :=
  match e with
  | ExitReturn v => ∃ i, is_running (k_sched k) i false ∧ v = return_process i
  | ExitJump i => is_running (k_sched k) i false
  | ExitIdle => is_idle (k_sched k)
  end.

Lemma is_running_same (s s' : Scheduler ProcMem) i b :
  processes s' = processes s → sched_running s' = sched_running s →
  is_running s i b → is_running s' i b.
Proof. intros Hp Hr (p & H1 & H2 & H3). exists p. by rewrite Hr, Hp. Qed.

Lemma handle_int k i b act k' :
  int_wf k → is_running (k_sched k) i b → handle (si_pid i) k = Ret (act, k') →
  int_wf k' ∧ sched_running (k_sched k') = Some (si_pid i) ∧
  match act with ActContinue => is_running (k_sched k') i false | _ => True end.
Proof.
  intros [Hwf Hn] (p & Hr & Hp & Hi & _) E.
  assert (is_bsp = true) as Hb.
  { unfold handle_syscall in E. apply outcome_bind_ret in E as ([] & Ea & _). by apply rassert_ret in Ea. }
  rewrite Hb in E. apply handle_frame in E as (Hwf' & Hn' & Hr' & _ & p0 & p' & Hp0 & Hp' & Hi' & Hact);
    [|done|done].
  rewrite Hp in Hp0. injection Hp0 as <-. rewrite Hr in Hr'. split_and!; [done|done|].
  destruct act; [done| |done]. exists p'. split_and!; [done|done|congruence|done].
Qed.

Lemma update_wf (s : Scheduler ProcMem) pid p p' :
  sched_wf s → processes s !! pid = Some p → process_id p' = pid →
  sched_wf (set_processes (<[pid := p']> (processes s)) s).
Proof.
  intros Hwf Hp Hid. pose proof (sw_id _ Hwf _ _ Hp) as Hid0.
  assert (sched_wf (Scheduler_give_back_process s p)) as Hg.
  { unfold Scheduler_give_back_process, set_processes. rewrite Hid0, insert_id by done. by destruct s. }
  apply (give_back_same s p p') in Hg; [|congruence].
  unfold Scheduler_give_back_process in Hg. by rewrite Hid in Hg.
Qed.

(** Saving the registers of the running process. *)
Lemma stored_running (s s' : Scheduler ProcMem) i p pt rsp :
  sched_wf s → sched_running s = Some (si_pid i) → processes s !! si_pid i = Some p →
  repeat_syscall p = false → Scheduler_store_state s (si_pid i) pt rsp = Ret s' →
  sched_wf s' ∧ next_pid s' = next_pid s ∧
  is_running s' (MkSwitchInfo pt rsp (si_pid i)) false.
Proof.
  intros Hwf Hr Hp Hrep E. unfold Scheduler_store_state in E. rewrite Hp in E.
  destruct (Z.eqb_spec (p4_addr p) pt) as [<-|]; [|done]. injection E as <-.
  pose proof (sw_id _ Hwf _ _ Hp) as Hid. split; [by eapply update_wf|]. split; [done|].
  eexists. cbn. rewrite lookup_insert_eq. split_and!; [done|done| |done].
  unfold Process_switch_info. cbn. congruence.
Qed.

(** The operations that the handler carries out, on well-formed states with a running process, and
    whose panics are its own. *)
Inductive callee_panics (why : string) : Prop :=
| syscall_panics k i b :
    int_wf k → is_running (k_sched k) i b → handle (si_pid i) k = Panic why → callee_panics why
| terminate_panics k pid r :
    int_wf k → sched_running (k_sched k) = Some pid →
    Scheduler_terminate_and_switch encode clk now (k_ipc k) (k_sched k) pid r = Panic why → callee_panics why
| switch_panics k pid w :
    int_wf k → sched_running (k_sched k) = Some pid →
    Scheduler_switch clk now (k_sched k) (Some w) = Panic why → callee_panics why
| block_panics k pid w :
    int_wf k → sched_running (k_sched k) = Some pid →
    arm_timer clk now (Scheduler_switch clk now (k_sched k) (Some w)) = Panic why → callee_panics why
| tick_panics k pid :
    int_wf k → sched_running (k_sched k) = Some pid →
    arm_timer clk now (Scheduler_tick clk now now (k_sched k)) = Panic why → callee_panics why
| publish_panics k i name d :
    int_wf k → is_running (k_sched k) i false → publish_irq name d k = Panic why → callee_panics why.

(** A step that keeps the invariant and ends well, or panics where an operation it carries out
    does. *)
Definition step_ok {X} (P : X → K → Prop) (r : step X) : Prop :=
  match r with
  | None => True
  | Some (Panic why) => callee_panics why
  | Some (Ret (x, k')) => int_wf k' ∧ match x with inl x => P x k' | inr e => exit_ok k' e end
  end.

Definition resumes (o : option ProcessSwitchInfo) (k : K) : Prop :=
  match o with Some i => is_running (k_sched k) i false | None => is_idle (k_sched k) end.

Lemma terminate_with_ok {X} repeat (P : X → K → Prop) pid result k :
  int_wf k → sched_running (k_sched k) = Some pid →
  (∀ i k', int_wf k' → is_running (k_sched k') i true → step_ok resumes (repeat i k')) →
  step_ok P (terminate_with clk now encode repeat pid result k).
Proof.
  intros Hk Hr Hrep. pose proof Hk as [Hwf Hn]. unfold terminate_with.
  destruct (Scheduler_terminate_and_switch _ _ _ _ _ _ _) as [[[sw m] s]|why] eqn:Et;
    [|by eapply terminate_panics].
  destruct (terminate_frame _ _ _ _ _ _ _ _ _ _ Hwf Hr Et) as (Hwf' & _ & Hn' & Hsw).
  set (k1 := set_k_sched s _). assert (int_wf k1) as Hk1 by (split; [done|cbn; lia]).
  destruct sw as [| |i|i]; [done|done|done|].
  specialize (Hrep i k1 Hk1 Hsw). by destruct (repeat i k1) as [[[[[rp|]|e] k2]|]|].
Qed.

(** The process of a call that is repeated does not hand over to itself. *)
Lemma handle_switch_other k i w k1 sw s j :
  int_wf k → is_running (k_sched k) i true → handle (si_pid i) k = Ret (ActSwitch w, k1) →
  Scheduler_switch clk now (k_sched k1) (Some w) = Ret (sw, s) → sw = RepeatSyscall j → si_pid i ≠ si_pid j.
Proof.
  intros Hk Hi Eh Es -> Heq. destruct (handle_int _ _ _ _ _ Hk Hi Eh) as (Hk1 & Hr1 & _).
  destruct (switch_frame clk now (k_sched k1) (Some w) _ s (proj1 Hk1) ltac:(done) Es) as (_ & Hps & _ & Hsw).
  pose proof Hsw as (x & _ & Hx & _ & Hrep). rewrite Hps, <- Heq in Hx.
  assert (is_bsp = true) as Hb.
  { unfold handle_syscall in Eh. apply outcome_bind_ret in Eh as ([] & Ea & _). by apply rassert_ret in Ea. }
  rewrite Hb in Eh. apply handle_inv in Eh as (p & rsc & res & k2 & p2 & Hp & Hpos & Er & Hact & Hk' & _).
  destruct Hk as [Hwf Hn]. pose proof (run_stays _ _ _ _ _ _ _ _ _ _ _ _ _ _ _ Hwf Hn Hp Er) as Hs.
  destruct (finish_sched k (si_pid i) p k2 p2 (repeats res) Hwf Hp Hs) as (_ & Hl & _).
  rewrite <- Hk', Hx in Hl. injection Hl as ->. cbn in Hrep. destruct res as [| | |w']; try done.
  injection Hact as <-. apply run_sleeps in Er as (Hsl & _); [|done].
  apply (switch_other clk now (k_sched k1) w _ s j (si_pid i) (proj1 Hk1) Hr1 Hsl Es Hsw eq_refl). done.
Qed.

Lemma repeat_ok fuel i k :
  int_wf k → is_running (k_sched k) i true → step_ok resumes (repeated fuel i k).
Proof.
  revert i k. induction fuel as [|fuel IH]; intros i k Hk Hi; [done|]. cbn [handle_repeat_syscall].
  destruct (handle (si_pid i) k) as [[act k1]|] eqn:Eh; [|by eapply syscall_panics].
  destruct (handle_int _ _ _ _ _ Hk Hi Eh) as (Hk1 & Hr1 & Hact).
  destruct act as [status| |w].
  - apply terminate_with_ok; [done|done|]. intros. by apply IH.
  - done.
  - unfold with_sched. destruct (Scheduler_switch _ _ _ _) as [[sw s]|] eqn:Es; [|by eapply switch_panics].
    destruct (switch_frame clk now (k_sched k1) (Some w) sw s (proj1 Hk1) ltac:(done) Es) as (Hwf & _ & Hn & Hsw).
    assert (int_wf (set_k_sched s k1)) as Hk2 by (split; [done|cbn; rewrite Hn; apply Hk1]).
    destruct sw as [| |j|j]; [done|done|done|].
    rewrite (proj2 (Z.eqb_neq _ _)) by (exact (handle_switch_other k i w k1 _ s j Hk Hi Eh Es eq_refl)). by apply IH.
Qed.

(** Falling through resumes the interrupted process: it is still running, or nothing is. *)
Definition falls_through (i : ProcessSwitchInfo) (_ : unit) (k : K) : Prop :=
  is_running (k_sched k) i false ∨ is_idle (k_sched k).

Lemma handle_switch_ok i fuel sw k :
  int_wf k → switch_ok (k_sched k) sw →
  step_ok (falls_through i) (handle_switch clk now is_bsp random garbage idt common rd services
    message_to_vec encode fuel sw k).
Proof.
  intros Hk Hsw. unfold handle_switch. destruct sw as [| |j|j]; [done|done| |].
  - split; [done|]. by exists j.
  - pose proof (repeat_ok fuel j k Hk Hsw) as Hr. destruct (repeated fuel j k) as [[[[[rp|]|e] k2]|]|]; try done.
    + destruct Hr as [? Hr]. split; [done|]. by exists rp.
    + destruct Hr as [? Hr]. split; [done|]. by right.
Qed.

Lemma arm_timer_ret o x : arm_timer clk now o = Ret x → o = Ret x.
Proof.
  unfold arm_timer. intros E. apply outcome_bind_ret in E as ([t s] & -> & E).
  apply outcome_bind_ret in E as (d & _ & E). repeat case_match; by simplify_eq.
Qed.

(** A scheduler operation followed by the switch it asks for. *)
Lemma with_sched_ok {X} (P : X → K → Prop) o k f :
  int_wf k →
  (∀ sw s, o = Ret (sw, s) → sched_wf s ∧ next_pid s = next_pid (k_sched k) ∧ switch_ok s sw) →
  (∀ why, o = Panic why → callee_panics why) →
  (∀ sw k', int_wf k' → switch_ok (k_sched k') sw → step_ok P (f sw k')) →
  step_ok P (with_sched o k f).
Proof.
  intros [_ Hn] Ho Hp Hf. unfold with_sched. destruct o as [[sw s]|why]; [|by apply Hp].
  destruct (Ho sw s eq_refl) as (Hwf & Hn' & Hsw). apply Hf; [|done]. split; [done|]. cbn. lia.
Qed.

Lemma publish_irq_ok name d k i k' :
  int_wf k → is_running (k_sched k) i false → publish_irq name d k = Ret k' →
  int_wf k' ∧ is_running (k_sched k') i false.
Proof.
  intros [Hwf Hn] Hi E. unfold publish_irq in E. apply outcome_bind_ret in E as ([m s] & Ep & E).
  injection E as <-. apply kernel_publish_relayed in Ep.
  pose proof (relayed_same _ _ (sw_queues _ Hwf) Ep) as [_ _ Hps Hr _ Hnp].
  split; [split; cbn; [by eapply relayed_wf|congruence]|]. by eapply is_running_same.
Qed.

Lemma fail_ok {X} (P : X → K → Prop) fuel pid error k :
  int_wf k → sched_running (k_sched k) = Some pid →
  step_ok P (fail clk now is_bsp random garbage idt common rd services message_to_vec encode fuel
    pid error k).
Proof. intros. apply terminate_with_ok; [done|done|]. intros. by apply repeat_ok. Qed.

Lemma syscall_interrupt_ok fuel i k :
  int_wf k → is_running (k_sched k) i false →
  step_ok (falls_through i)
    (match handle (si_pid i) k with
     | Panic w => crash w
     | Ret (ActTerminate status, k) =>
         terminate clk now is_bsp random garbage idt common rd services message_to_vec encode fuel
           (si_pid i) status k
     | Ret (ActContinue, k) => Interrupt.done tt k
     | Ret (ActSwitch schedule, k) =>
         with_sched (arm_timer clk now (Scheduler_switch clk now (k_sched k) (Some schedule))) k
           (handle_switch clk now is_bsp random garbage idt common rd services message_to_vec
              encode fuel)
     end).
Proof.
  intros Hk Hi. destruct (handle (si_pid i) k) as [[act k1]|] eqn:Eh; [|by eapply syscall_panics].
  destruct (handle_int _ _ _ _ _ Hk Hi Eh) as (Hk1 & Hr1 & Hact). destruct act as [status| |w].
  - apply terminate_with_ok; [done|done|]. intros. by apply repeat_ok.
  - split; [done|by left].
  - apply with_sched_ok; [done| | |intros; by apply handle_switch_ok].
    + intros sw s E%arm_timer_ret.
      destruct (switch_frame _ _ _ (Some w) _ _ (proj1 Hk1) ltac:(done) E) as (? & _ & ? & ?). done.
    + intros why E. by eapply block_panics.
Qed.

Abbreviation dispatched := (dispatch clk now is_bsp random garbage idt common rd services
  message_to_vec encode encode_u8 encode_unit pic_enabled isr).

(** What an interrupt [n] leaves behind that came while [i] was running. *)
Definition fell_through (n : Z) (i : ProcessSwitchInfo) (_ : unit) (k : K) : Prop :=
  is_running (k_sched k) i false ∨ is_idle (k_sched k) ∧ (n = 0xd7 ∨ n = 0xd8).

Lemma step_weaken {X} (P Q : X → K → Prop) (r : step X) :
  (∀ x k, P x k → Q x k) → step_ok P r → step_ok Q r.
Proof. intros HPQ. destruct r as [[[[x|e] k]|]|]; cbn; naive_solver. Qed.

Lemma dynamic_irq_ok n i k :
  int_wf k → is_running (k_sched k) i false →
  step_ok (λ _ k, is_running (k_sched k) i false) (dynamic_irq encode_unit n k).
Proof.
  intros Hk Hi. unfold dynamic_irq. destruct (publish_irq _ _ k) as [k1|] eqn:Ep; [|by eapply publish_panics].
  destruct (publish_irq_ok _ _ _ _ _ Hk Hi Ep) as [Hk1 Hi1]. rewrite (switch_current_running _ i) by done.
  split; [split; apply Hk1|]. by exists i.
Qed.

(** Interrupts that the handler refuses with a panic: the interval timer, the lines without a
    handler, the lines of a controller that is switched off, a tick before the scheduler is
    enabled, and a page fault with an unknown code. *)
Definition rejected (en : bool) (pf : Z → option PfCode) (n code : Z) : Prop :=
  n = 0x20 ∨ 0x22 ≤ n ≤ 0x26 ∨ n = 0x28 ∨ 0x2c ≤ n ≤ 0x2d ∨
  pic_enabled = false ∧ (n = 0x27 ∨ n = 0x2e ∨ n = 0x2f) ∨ n = 0xd8 ∧ en = false ∨ n = 0x0e ∧ pf code = None.

(** A step that is refused exactly when the interrupt is. *)
Definition handled (refused : Prop) (P : unit → K → Prop) (r : step unit) : Prop :=
  match r with
  | None => True
  | Some (Panic why) => refused ∨ callee_panics why
  | Some (Ret _) => ¬ refused ∧ step_ok P r
  end.

Lemma handled_ok (refused : Prop) P r : ¬ refused → step_ok P r → handled refused P r.
Proof. intros Hn. destruct r as [[[]|]|]; cbn; auto. Qed.

Lemma handled_crash (refused : Prop) P why : refused → handled refused P (crash why).
Proof. by left. Qed.

Lemma in_range_true a b n : in_range a b n = true ↔ a ≤ n ≤ b.
Proof. unfold in_range. rewrite andb_true_iff, !Z.leb_le. lia. Qed.

(** A line of the controllers, when they are on. *)
Lemma pic_line_ok en pf n code P why (r : step unit) :
  n = 0x27 ∨ n = 0x2e ∨ n = 0x2f → step_ok P r →
  handled (rejected en pf n code) P (if negb pic_enabled then crash why else r).
Proof.
  intros Hn Hr. destruct pic_enabled eqn:Hp; cbn [negb]; [apply handled_ok|apply handled_crash];
    [|done|]; unfold rejected; rewrite Hp; naive_solver lia.
Qed.

Lemma irq1_ok fuel ps2 n i k :
  int_wf k → is_running (k_sched k) i false → step_ok (fell_through n i) (exception_irq1 encode_u8 fuel ps2 k).
Proof.
  intros Hk Hi. unfold exception_irq1. destruct (poll _ _ _); [|done].
  destruct (publish_irq _ _ _) as [k1|] eqn:Ep; [|by eapply publish_panics].
  destruct (publish_irq_ok _ _ _ _ _ Hk Hi Ep). split; [done|by left].
Qed.

Lemma dispatch_ok fuel en ps2 cr2 pf n frame code i k :
  is_bsp = true → int_wf k → is_running (k_sched k) i false →
  handled (rejected en pf n code) (fell_through n i) (dispatched fuel en ps2 cr2 pf n frame code (si_pid i) k).
Proof.
  intros Hb Hk Hi. pose proof Hi as (p & Hr & _).
  assert (∀ e, ¬ rejected en pf n code → handled (rejected en pf n code) (fell_through n i)
    (fail clk now is_bsp random garbage idt common rd services message_to_vec encode fuel (si_pid i) e k)) as Hfail.
  { intros e Hn. apply handled_ok; [done|]. by apply fail_ok. }
  assert (step_ok (fell_through n i) (Interrupt.done tt k)) as Hdone by (split; [done|by left]).
  assert (∀ x k', (n = 0xd7 ∨ n = 0xd8) → falls_through i x k' → fell_through n i x k') as Hfalls.
  { intros x k' Hn [?|?]; [by left|by right]. }
  unfold dispatch. destruct (Z.eqb_spec n 0xd7) as [E|].
  { apply handled_ok; [unfold rejected; lia|]. eapply step_weaken; [|by apply syscall_interrupt_ok]. auto. }
  destruct (Z.eqb_spec n 0xd8) as [E|].
  { destruct en; cbn [negb]; [|apply handled_crash; unfold rejected; tauto].
    apply handled_ok; [unfold rejected; naive_solver lia|]. destruct is_bsp eqn:Hbsp; [|done]. rewrite <- Hbsp.
    eapply (step_weaken (falls_through i)); [auto|].
    apply with_sched_ok; [done| | |intros; by apply handle_switch_ok].
    - intros sw s E'%arm_timer_ret. by apply tick_frame in E' as (? & _ & ? & ?); [|apply Hk].
    - intros why E'. by eapply tick_panics. }
  destruct (Z.eqb_spec n 0x20) as [E|]; [apply handled_crash; unfold rejected; tauto|].
  destruct (Z.eqb_spec n 0x21) as [E|]; [apply handled_ok; [unfold rejected; lia|by apply irq1_ok]|].
  destruct (Z.eqb_spec n 0x27) as [E|].
  { apply pic_line_ok; [lia|]. destruct (Z.land isr _ =? 0); cbn [negb]; [done|]. by destruct (poll _ _ _). }
  destruct (_ || _ || _) eqn:E.
  { apply handled_crash. rewrite !orb_true_iff, !in_range_true, Z.eqb_eq in E. unfold rejected. tauto. }
  rewrite !orb_false_iff, Z.eqb_neq in E. destruct E as [[E1 E2] E3]. rewrite <- not_true_iff_false, in_range_true in E1, E3.
  destruct (Z.eqb_spec n 0x2e) as [E|]; [by apply pic_line_ok; [lia|]|].
  destruct (Z.eqb_spec n 0x2f) as [E|]; [by apply pic_line_ok; [lia|]|].
  assert (n ≠ 0x0e → ¬ rejected en pf n code) as Hrej by (unfold rejected; lia).
  destruct (in_range 0x30 0x9f n) eqn:Er.
  { apply in_range_true in Er. apply handled_ok; [apply Hrej; lia|].
    eapply step_weaken; [|by apply dynamic_irq_ok]. by left. }
  destruct (Z.eqb_spec n 0x00) as [E|]; [apply Hfail, Hrej; lia|].
  destruct (Z.eqb_spec n 0x0e) as [E|].
  { destruct (pf code) as [c|] eqn:Ec; [apply Hfail|apply handled_crash]; unfold rejected; naive_solver lia. }
  case_match; by apply Hfail, Hrej.
Qed.

End handler.

(** ** Examples *)

(** Process [pid] with its saved registers at [stack] in physical memory. *)
Definition example_proc_at (pid stack : Z) (repeat : bool) : Process ProcMem :=
  MkProcess 0x600000 (PROCESS_STACK + 0x100) repeat pid
    (MkProcMem example_proc stack [] (MkElfImage (ei_header example_elf) [])).

(** The registers of a call: number and first three arguments. *)
Definition example_regs (stack routine a0 a1 a2 : Z) (mem : gmap Z Z) : gmap Z Z :=
  write_bytes (write_bytes (write_bytes (write_bytes mem (stack + 0x100) (to_le 8 routine))
    (stack + 0x100 + 5 * 8) (to_le 8 a0)) (stack + 0x100 + 4 * 8) (to_le 8 a1))
    (stack + 0x100 + 3 * 8) (to_le 8 a2).

(** Process 1 runs and goes to sleep; process 2 has been woken and repeats [ipc_receive] on a
    mailbox that is empty. *)
Definition example_repeating : kernel (A := gset Z) :=
  MkKernel {| processes := {[1 := example_proc_at 1 0x1000000 false; 2 := example_proc_at 2 0x2000000 true]};
              queues := {| running := [2]; waiting := ∅; next_waitid := 0; wait_sleeping := [];
                           wait_process := ∅; wait_event := ∅ |};
              sched_running := Some 1; running_timeslice_end := Some 1000; next_pid := 3 |}
    (example_subscribed false false) 0 virt.FREE_LIST example_kernel {[0x600000]}
    (example_regs 0x1000000 (SyscallNumber_discriminant SC_sched_sleep_ns) 1000000000 0 0
      (example_regs 0x2000000 (SyscallNumber_discriminant SC_ipc_receive) 0 16 0x400010 ∅)) [] [].

(** A controller that is ready at its third read. *)
Definition example_ps2 : Ps2Port := MkPs2Port (λ n, if (n <? 2)%nat then 0 else 1) 0x1e.

Definition example_interrupt (n : Z) (k : kernel (A := gset Z)) : option (outcome (Exit * kernel)) :=
  process_interrupt_inner (PC := example_pinecone) (Frame := unit) (PfCode := unit)
    example_clock 0 true 0 ∅ 0 0 {| files := ∅; slice := [] |} ∅ (λ _, None)
    (λ _ _, Some []) (λ _, Some []) (Some []) true 0
    4 true example_ps2 0 (λ _, None) n (PROCESS_STACK + 0x100) 0x600000 tt 0 k.

(** What the processor goes on with, the running process, and what the next tick does. *)
Definition after_repeat : option (outcome (Exit * option ProcessId * option (outcome Exit))) :=
  match example_interrupt 0xd7 example_repeating with
  | Some (Ret (e, k)) =>
      Some (Ret (e, sched_running (k_sched k),
        match example_interrupt 0xd8 k with
        | Some (Ret (e, _)) => Some (Ret e)
        | Some (Panic w) => Some (Panic w)
        | None => None
        end))
  | Some (Panic w) => Some (Panic w)
  | None => None
  end.

(** When the process switched to repeats a call that blocks again and nothing else can run, the
    handler does not idle: it resumes the process that went to sleep, with no process running, and
    the next interrupt panics the kernel. *)
Lemma blocked_repeat_resumes_sleeper :
  after_repeat = Some (Ret (ExitReturn (process_pair_to_u128 (PROCESS_STACK + 0x100) 0x600000), None,
    Some (Panic "No process running?"))).
Proof. vm_compute. reflexivity. Qed.
