(* ===== verification/InterruptEnds.v ===== *)
(** * InterruptEnds: the chain of repeated system calls ends

    A process that is resumed in the middle of a blocking call repeats the call, which may block
    again and hand over to another process that repeats its call.  Every link of the chain either
    lowers the number of processes with a call to repeat, or fills a place in a mailbox, or takes
    a process out of the run queue without adding one.  With the end of the chain, and of the
    loops that wait for hardware, the handling of an interrupt is total. *)

From stdpp Require Import base orders gmap list strings.
From Stdlib Require Import ZArith Lia.
From S2P Require Import Prelude Abi Topic SubscriptionList Queues EventQueue Ipc IpcProps.
From S2P Require Import IpcCalls Clocks Scheduler SchedulerProps Bytes VirtAlloc PageMap Args.
From S2P Require Import ProcessMem Elf Process Syscall SyscallProps SyscallRepeat Interrupt InterruptProps.
Open Scope Z_scope.

(** ** The chain *)

Section chain.
Context `{HO : HashOrder} `{PC : Pinecone} `{PagingOps} `{!AlignOps}
  {A : Type} `{!PhysAlloc A} {Frame PfCode : Type}.
Context (clk : Clock) (now : BSPInstant) (random : Z)
  (garbage : gmap Z (gmap Z entry)) (idt common : Z)
  (rd : InitRD) (services : gmap SubscriptionId Service)
  (message_to_vec : Message → option (list Z))
  (encode : ProcessId → ProcessResult Frame PfCode → option (list byte))
  (encode_u8 : Z → option (list byte)) (encode_unit : option (list byte))
  (pic_enabled : bool) (isr : Z).

Abbreviation K := (kernel (A := A)).
Abbreviation repeated := (handle_repeat_syscall clk now true random garbage idt common rd services
  message_to_vec encode).
Abbreviation handle := (handle_syscall (Frame := Frame) (PfCode := PfCode) clk now true random
  garbage idt common rd services message_to_vec).

(** The processes with a call to repeat. *)
Definition pending (s : Scheduler ProcMem) : gset ProcessId :=
  dom (filter (λ x, repeat_syscall x.2 = true) (processes s)).

Lemma elem_of_pending s q :
  q ∈ pending s ↔ ∃ x, processes s !! q = Some x ∧ repeat_syscall x = true.
Proof.
  unfold pending. rewrite elem_of_dom. split.
  - intros [x [? ?]%map_lookup_filter_Some]. eauto.
  - intros (x & ? & ?). exists x. by apply map_lookup_filter_Some.
Qed.

Lemma handle_pending k i act k' :
  int_wf k → is_running (k_sched k) i true → handle (si_pid i) k = Ret (act, k') →
  pending (k_sched k') ⊂ pending (k_sched k) ∨
  pending (k_sched k') ⊆ pending (k_sched k) ∧ ∃ w, act = ActSwitch w ∧ sleeps w ∧
     ((room (k_ipc k') < room (k_ipc k))%nat ∨
      room (k_ipc k') = room (k_ipc k) ∧ queues (k_sched k') = queues (k_sched k)).
Proof.
  intros [Hwf Hmax] (p & Hr & Hp & Hi & Hrep) E.
  apply handle_inv in E as (p0 & rsc & res & k1 & p1 & Hp0 & Hpos & Er & -> & Hk' & Hipc).
  rewrite Hp in Hp0. injection Hp0 as <-.
  pose proof (run_stays _ _ _ _ _ _ _ _ _ _ _ _ _ _ _ Hwf Hmax Hp Er) as Hs.
  pose proof (st_id _ _ Hs) as Hid. pose proof (st_new _ _ Hs) as Hnew. cbn in Hid, Hnew.
  rewrite (sw_id _ Hwf _ _ Hp) in Hid.
  assert (∀ q, q ∈ pending (k_sched k') →
    q = si_pid i ∧ repeats res = true ∨ q ≠ si_pid i ∧ q ∈ pending (k_sched k)) as Hin.
  { intros q (x & Hx & Hf)%elem_of_pending. rewrite Hk' in Hx. cbn in Hx. rewrite Hid in Hx.
    apply lookup_insert_Some in Hx as [[<- <-]|[Hne Hx]]; [by left|right].
    apply Hnew in Hx as [Hx|Hx]; [|congruence]. apply lookup_delete_Some in Hx as [_ Hx].
    split; [done|]. apply elem_of_pending. eauto. }
  assert (si_pid i ∈ pending (k_sched k)) as Hpid by (apply elem_of_pending; eauto).
  destruct (repeats res) eqn:Hres; [right|left; set_solver]. split; [set_solver|].
  destruct res as [| | |w]; try done. exists w. split; [done|].
  apply run_sleeps in Er as (? & _ & Hroom); [|done].
  rewrite Hipc, Hk'. split; [done|]. destruct Hroom as [?|[? Hq]]; [by left|right]. cbn. by rewrite Hq.
Qed.

Lemma switch_shrinks (s s' : Scheduler ProcMem) w sw i :
  sched_wf s → sched_running s ≠ None → sleeps w →
  Scheduler_switch clk now s (Some w) = Ret (sw, s') → sw = RepeatSyscall i →
  (length (running (queues s')) < length (running (queues s)))%nat.
Proof.
  intros Hwf Hr Hw E ->. unfold Scheduler_switch in E. destruct (sched_running s) as [pid|]; [|done].
  apply outcome_bind_ret in E as (s1 & E1 & E). apply outcome_bind_ret in E1 as (q & Hg & E1).
  injection E1 as <-. destruct (give_cases _ _ _ _ (sw_queues _ Hwf) Hg) as (w' & Hred & _ & _ & Hc).
  pose proof (sleeps_reduced _ _ _ _ Hw Hred). destruct Hc as [[? _]|(_ & Hrun & _)]; [done|].
  rewrite <- Hrun. unfold Queues_take in E. cbn [queues set_queues] in E.
  destruct (running q) as [|next rest]; [done|]. outcome_inv. simplify_eq. cbn. lia.
Qed.

(** With enough fuel the result is there, and it is always the same. *)
Definition ends {X} (g : nat → step (A := A) X) : Prop :=
  ∃ n o, ∀ fuel, (n ≤ fuel)%nat → g fuel = Some o.

Lemma ends_some {X} (o : outcome ((X + Exit) * K)) : ends (λ _, Some o).
Proof. by exists 0%nat, o. Qed.

(** What is done with the result of a step that ends. *)
Lemma ends_bind {X Y} (g : nat → step X) (h : outcome ((X + Exit) * K) → step Y) (g' : nat → step Y) :
  ends g → (∀ o, is_Some (h o)) → (∀ fuel o, g fuel = Some o → g' fuel = h o) → ends g'.
Proof.
  intros (n & o & Hg) Hh Hg'. destruct (Hh o) as [o' Ho]. exists n, o'. intros fuel Hn.
  rewrite (Hg' fuel o); [done|by apply Hg].
Qed.

Lemma ends_step {X} (g : nat → step X) : ends (λ fuel, g (S fuel)) → ends g.
Proof.
  intros (n & o & Hg). exists (S n), o. intros [|fuel] Hn; [lia|]. apply Hg. lia.
Qed.

Lemma terminate_ends {X} pid result (k : K) :
  int_wf k → sched_running (k_sched k) = Some pid →
  (∀ i k', int_wf k' → is_running (k_sched k') i true →
    processes (k_sched k') = delete pid (processes (k_sched k)) → ends (λ fuel, repeated fuel i k')) →
  ends (λ fuel, terminate_with (X := X) clk now encode (repeated fuel) pid result k).
Proof.
  intros [Hwf Hn] Hr Hrep. unfold terminate_with.
  destruct (Scheduler_terminate_and_switch _ _ _ _ _ _ _) as [[[sw m] s]|] eqn:Et;
    [|apply ends_some].
  destruct (terminate_frame _ _ _ _ _ _ _ _ _ _ Hwf Hr Et) as (Hwf' & Hp & Hn' & Hsw).
  destruct sw as [| |i|i]; try apply ends_some.
  set (k1 := set_k_sched s _).
  apply (ends_bind (λ fuel, repeated fuel i k1) (λ o, match o with
    | Ret (inl (Some rp), k) => leave (ExitJump rp) k
    | Ret (inl None, k) => leave ExitIdle k
    | Ret (inr e, k) => leave e k
    | Panic w => crash w
    end)); [apply Hrep; [split; [done|]|done|done]| |].
  - cbn. lia.
  - intros [[[[rp|]|e] k']|w]; eexists; reflexivity.
  - intros fuel o E. by rewrite E.
Qed.

Lemma repeat_ends f c r k i :
  size (pending (k_sched k)) = f → room (k_ipc k) = c → length (running (queues (k_sched k))) = r →
  int_wf k → is_running (k_sched k) i true → ends (λ fuel, repeated fuel i k).
Proof.
  revert c r k i. induction f as [f IHf] using lt_wf_ind. intros c.
  induction c as [c IHc] using lt_wf_ind. intros r. induction r as [r IHr] using lt_wf_ind.
  intros k i Hf Hc Hl Hk Hi. apply ends_step. cbn [handle_repeat_syscall].
  destruct (handle (si_pid i) k) as [[act k1]|] eqn:Eh; [|apply ends_some].
  destruct (handle_int _ _ _ _ _ _ _ _ _ _ _ _ _ _ _ Hk Hi Eh) as (Hk1 & Hr1 & _).
  pose proof (handle_pending _ _ _ _ Hk Hi Eh) as Hp.
  assert (∀ k2 j, int_wf k2 → is_running (k_sched k2) j true →
    pending (k_sched k2) ⊂ pending (k_sched k) → ends (λ fuel, repeated fuel j k2)) as Hless.
  { intros k2 j Hk2 Hj Hsub. apply subset_size in Hsub. eapply (IHf (size (pending (k_sched k2)))); [lia|done..]. }
  destruct act as [status| |w]; [| apply ends_some|].
  - apply terminate_ends; [done|done|]. intros j k2 Hk2 Hj Hps. apply Hless; [done|done|].
    destruct Hp as [Hp|(_ & ? & ? & _)]; [|done]. apply (strict_trans_r _ (pending (k_sched k1))); [|done].
    intros q (x & Hx & Hflag)%elem_of_pending. rewrite Hps in Hx. apply lookup_delete_Some in Hx as [_ Hx].
    apply elem_of_pending. eauto.
  - unfold with_sched. destruct (Scheduler_switch _ _ _ _) as [[sw s]|] eqn:Es; [|apply ends_some].
    destruct (switch_frame clk now (k_sched k1) (Some w) sw s (proj1 Hk1) ltac:(done) Es) as (Hwf & Hps & Hn & Hsw).
    assert (int_wf (set_k_sched s k1)) as Hk2 by (split; [done|cbn; rewrite Hn; apply Hk1]).
    destruct sw as [| |j|j]; try apply ends_some. case_match; [apply ends_some|].
    assert (pending (k_sched (set_k_sched s k1)) = pending (k_sched k1)) as Hpe.
    { unfold pending. cbn. by rewrite Hps. }
    destruct Hp as [Hp|(Hp & w' & Hw & Hsl & Hroom)]; [apply Hless; [done|done|by rewrite Hpe]|].
    injection Hw as <-. apply subseteq_size in Hp.
    pose proof (switch_shrinks _ _ _ _ j (proj1 Hk1) ltac:(congruence) Hsl Es eq_refl) as Hlen.
    destruct (decide (size (pending (k_sched k1)) < size (pending (k_sched k)))%nat).
    { eapply IHf; [|reflexivity..|done|done]. rewrite Hpe. lia. }
    destruct Hroom as [Hroom|[Hroom Hq]].
    + eapply IHc; [|by rewrite Hpe; lia|reflexivity..|done|done]. cbn. lia.
    + eapply IHr; [|by rewrite Hpe; lia|cbn; congruence|reflexivity|done|done]. cbn. rewrite Hq in Hlen. lia.
Qed.

Lemma repeated_ends k i :
  int_wf k → is_running (k_sched k) i true → ends (λ fuel, repeated fuel i k).
Proof. by eapply repeat_ends. Qed.

Lemma handle_switch_ends sw k :
  int_wf k → switch_ok (k_sched k) sw →
  ends (λ fuel, handle_switch clk now true random garbage idt common rd services message_to_vec
    encode fuel sw k).
Proof.
  intros Hk Hsw. unfold handle_switch. destruct sw as [| |j|j]; try apply ends_some.
  apply (ends_bind (λ fuel, repeated fuel j k) (λ o, match o with
    | Ret (inl (Some p), k) => leave (ExitReturn (return_process p)) k
    | Ret (inl None, k) => Interrupt.done tt k
    | Ret (inr e, k) => leave e k
    | Panic w => crash w
    end)); [by apply repeated_ends| |].
  - intros [[[[rp|]|e] k']|w]; eexists; reflexivity.
  - intros fuel o E. by rewrite E.
Qed.

Lemma switched_ends o k :
  int_wf k →
  (∀ sw s, o = Ret (sw, s) → sched_wf s ∧ next_pid s = next_pid (k_sched k) ∧ switch_ok s sw) →
  ends (λ fuel, with_sched (arm_timer clk now o) k
    (handle_switch clk now true random garbage idt common rd services message_to_vec encode fuel)).
Proof.
  intros [_ Hn] Ho. unfold with_sched.
  destruct (arm_timer clk now o) as [[sw s]|] eqn:E; [|apply ends_some].
  apply arm_timer_ret in E as ->. destruct (Ho sw s eq_refl) as (Hwf & Hn' & Hsw).
  apply handle_switch_ends; [|done]. split; [done|]. cbn. lia.
Qed.

Lemma fail_ends {X} pid error k :
  int_wf k → sched_running (k_sched k) = Some pid →
  ends (λ fuel, fail (X := X) clk now true random garbage idt common rd services message_to_vec
    encode fuel pid error k).
Proof. intros. apply terminate_ends; [done|done|]. intros. by apply repeated_ends. Qed.

(** The hardware lets the handler end: the interrupt on line 7 is a spurious one or the controllers
    are off, and the keyboard controller has its byte at some time. *)
Definition responds (ps2 : Ps2Port) (n : Z) : Prop :=
  (n = 0x27 → pic_enabled = true → Z.land isr (Z.shiftl 1 7) = 0) ∧
  (n = 0x21 → ∃ j, Z.land (ps2_status ps2 j) 0x1 ≠ 0).

Lemma poll_ends ready j fuel n : ready (n + j)%nat = true → (j < fuel)%nat → poll fuel n ready = Some tt.
Proof.
  revert n fuel. induction j as [|j IH]; intros n [|fuel] Hr Hf; try lia; cbn [poll].
  - rewrite Nat.add_0_r in Hr. by rewrite Hr.
  - destruct (ready n); [done|]. apply IH; [by rewrite Nat.add_succ_comm|lia].
Qed.

Lemma poll_never ready fuel n : (∀ j, ready j = false) → poll fuel n ready = None.
Proof. intros Hr. revert n. induction fuel as [|fuel IH]; intros n; cbn; [done|]. by rewrite Hr. Qed.

Lemma irq1_ends ps2 k :
  (∃ j, Z.land (ps2_status ps2 j) 0x1 ≠ 0) → ends (λ fuel, exception_irq1 encode_u8 fuel ps2 k).
Proof.
  intros [j Hj]. unfold exception_irq1. exists (S j). destruct (publish_irq _ _ k) as [k1|why] eqn:E; eexists;
    intros fuel Hf; (rewrite (poll_ends _ j); [reflexivity| |lia]); cbn; by apply negb_true_iff, Z.eqb_neq.
Qed.

Lemma dispatch_ends en ps2 cr2 pf n frame code i k :
  int_wf k → is_running (k_sched k) i false → responds ps2 n →
  ends (λ fuel, dispatch clk now true random garbage idt common rd services message_to_vec encode
    encode_u8 encode_unit pic_enabled isr fuel en ps2 cr2 pf n frame code (si_pid i) k).
Proof.
  intros Hk Hi [H7 H1]. pose proof Hi as (p & Hr & _). unfold dispatch.
  destruct (n =? 0xd7).
  { destruct (handle (si_pid i) k) as [[act k1]|] eqn:Eh; [|apply ends_some].
    destruct (handle_int _ _ _ _ _ _ _ _ _ _ _ _ _ _ _ Hk Hi Eh) as (Hk1 & Hr1 & _).
    destruct act as [status| |w]; [|apply ends_some|].
    - apply terminate_ends; [done|done|]. intros. by apply repeated_ends.
    - apply switched_ends; [done|]. intros sw s E.
      destruct (switch_frame _ _ _ (Some w) _ _ (proj1 Hk1) ltac:(done) E) as (? & _ & ? & ?). done. }
  destruct (n =? 0xd8).
  { destruct (negb en); [apply ends_some|]. apply switched_ends; [done|]. intros sw s E.
    by apply tick_frame in E as (? & _ & ? & ?); [|apply Hk]. }
  destruct (n =? 0x20); [apply ends_some|].
  destruct (Z.eqb_spec n 0x21); [by apply irq1_ends, H1|].
  destruct (Z.eqb_spec n 0x27).
  { unfold exception_irq7. destruct pic_enabled; [|apply ends_some]. rewrite H7 by done. apply ends_some. }
  unfold exception_irq14, exception_irq15, dynamic_irq, with_sched.
  repeat (apply ends_some || (apply fail_ends; done) || case_match).
Qed.

(** And otherwise it never ends. *)
Lemma dispatch_hangs fuel en ps2 cr2 pf n frame code pid k :
  ¬ responds ps2 n →
  dispatch clk now true random garbage idt common rd services message_to_vec encode
    encode_u8 encode_unit pic_enabled isr fuel en ps2 cr2 pf n frame code pid k = None.
Proof.
  intros Hn. unfold dispatch, responds in *.
  destruct (decide (n = 0x27)) as [->|H7].
  { cbn. unfold exception_irq7. destruct pic_enabled; cbn [negb]; [|exfalso; apply Hn; naive_solver].
    destruct (Z.eqb_spec (Z.land isr (Z.shiftl 1 7)) 0) as [E|E]; cbn [negb]; [exfalso; apply Hn; naive_solver|].
    by rewrite poll_never. }
  destruct (decide (n = 0x21)) as [->|H1]; [|exfalso; apply Hn; naive_solver].
  cbn. unfold exception_irq1. rewrite poll_never; [done|]. intros j. apply negb_false_iff, Z.eqb_eq.
  destruct (decide (Z.land (ps2_status ps2 j) 0x1 = 0)); [done|]. exfalso. apply Hn. split; [done|eauto].
Qed.

End chain.

(** ** Properties *)

(** The interrupt is handled after the registers of the process have been saved. *)
Lemma inner_dispatch `{HO : HashOrder} `{PC : Pinecone} `{PagingOps} `{!AlignOps}
    {A : Type} `{!PhysAlloc A} {Frame PfCode : Type} clk now random garbage idt common rd
    services message_to_vec (encode : ProcessId → ProcessResult Frame PfCode → option (list byte))
    encode_u8 encode_unit pic_enabled isr en ps2 cr2 pf n rsp frame code (k : kernel (A := A)) i :
  sched_wf (k_sched k) → next_pid (k_sched k) ≤ u64_max → is_running (k_sched k) i false →
  let i' := MkSwitchInfo (si_p4addr i) rsp (si_pid i) in
  ∃ k1, int_wf k1 ∧ is_running (k_sched k1) i' false ∧ ∀ fuel,
    process_interrupt_inner clk now true random garbage idt common rd services message_to_vec encode
      encode_u8 encode_unit pic_enabled isr fuel en ps2 cr2 pf n rsp (si_p4addr i) frame code k =
    match dispatch clk now true random garbage idt common rd services message_to_vec encode
      encode_u8 encode_unit pic_enabled isr fuel en ps2 cr2 pf n frame code (si_pid i) k1 with
    | Some (Ret (inl _, k)) => Some (Ret (ExitReturn (process_pair_to_u128 rsp (si_p4addr i)), k))
    | Some (Ret (inr e, k)) => Some (Ret (e, k))
    | Some (Panic w) => Some (Panic w)
    | None => None
    end.
Proof.
  intros Hwf Hmax (p & Hr & Hp & Hi & Hrep) i'. unfold process_interrupt_inner, Scheduler_get_running_pid. rewrite Hr.
  destruct (Scheduler_store_state (k_sched k) (si_pid i) (si_p4addr i) rsp) as [s|w] eqn:Es.
  - destruct (stored_running _ _ _ _ _ _ Hwf Hr Hp Hrep Es) as (Hwf' & Hn' & Hrun').
    exists (set_k_sched s k). split; [by split; [|cbn; lia]|]. by split.
  - unfold Scheduler_store_state in Es. rewrite Hp in Es. subst i. by rewrite Z.eqb_refl in Es.
Qed.

(** C3: an interrupt that comes while a process runs (on the boot processor, the only one that runs
    processes, with the page table of that process), when the hardware responds (see
    [interrupt_ends]), is handled to the end.  It panics when it is one of those the handler refuses
    ([rejected]: the interval timer, lines without a handler, lines of a controller that is off, a
    tick before the scheduler is enabled, a page fault with an unknown code), and otherwise only
    with the panic of a system call, a termination, a switch, the timer or a publication on a
    well-formed state with a running process ([callee_panics]; the operations themselves are not
    shown not to panic here).  If it does not panic, the scheduler invariant is kept, and the processor goes on with
    the process the scheduler says is running, or idles when none can run.  The exception is a
    system call or tick after which the only runnable process repeats a call that blocks again:
    there the handler falls through and resumes the process it has just put to sleep. *)
Theorem interrupt_resumes_running `{HO : HashOrder} `{PC : Pinecone} `{PagingOps} `{!AlignOps}
    {A : Type} `{!PhysAlloc A} {Frame PfCode : Type} clk now random garbage idt common rd
    services message_to_vec (encode : ProcessId → ProcessResult Frame PfCode → option (list byte))
    encode_u8 encode_unit pic_enabled isr en ps2 cr2 pf n rsp frame code (k : kernel (A := A)) i
    (Hwf : sched_wf (k_sched k)) (Hmax : next_pid (k_sched k) ≤ u64_max)
    (Hrun : is_running (k_sched k) i false) (Hhw : responds pic_enabled isr ps2 n) :
  ∃ enough, ∀ fuel, (enough ≤ fuel)%nat →
    match process_interrupt_inner clk now true random garbage idt common rd services message_to_vec encode
      encode_u8 encode_unit pic_enabled isr fuel en ps2 cr2 pf n rsp (si_p4addr i) frame code k with
    | None => False
    | Some (Panic why) => rejected pic_enabled en pf n code ∨
        callee_panics clk now true random garbage idt common rd services message_to_vec encode why
    | Some (Ret (e, k')) => ¬ rejected pic_enabled en pf n code ∧
        sched_wf (k_sched k') ∧ next_pid (k_sched k') ≤ u64_max ∧
        (exit_ok k' e ∨
         e = ExitReturn (process_pair_to_u128 rsp (si_p4addr i)) ∧ is_idle (k_sched k') ∧ (n = 0xd7 ∨ n = 0xd8))
    end.
Proof.
  destruct (inner_dispatch clk now random garbage idt common rd services message_to_vec encode encode_u8 encode_unit
    pic_enabled isr en ps2 cr2 pf n rsp frame code k i Hwf Hmax Hrun) as (k1 & Hk1 & Hi1 & E).
  destruct (dispatch_ends clk now random garbage idt common rd services message_to_vec encode encode_u8 encode_unit
    pic_enabled isr en ps2 cr2 pf n frame code _ k1 Hk1 Hi1 Hhw) as (enough & o & Ho). cbn [si_pid] in Ho.
  exists enough. intros fuel Hf. rewrite E.
  pose proof (dispatch_ok clk now true random garbage idt common rd services message_to_vec encode encode_u8 encode_unit
    pic_enabled isr fuel en ps2 cr2 pf n frame code _ k1 eq_refl Hk1 Hi1) as Hd. cbn [si_pid] in Hd.
  rewrite (Ho fuel Hf) in Hd |- *. destruct o as [[[[]|e] k']|why]; [| |done];
    destruct Hd as (Hn & [Hwf' Hn'] & Hx); split_and!; try done.
  - destruct Hx as [Hx|[Hx ?]]; [left; by eexists|by right].
  - by left.
Qed.

(** C4: the handling of an interrupt that comes while a process runs ends exactly when the hardware
    lets it.  If an interrupt on line 7 is spurious (or the controllers are off, which panics) and
    the keyboard controller has its byte at some time, then with enough fuel for the wait and for
    the chain of repeated system calls there is a result, a panic included, and more fuel does not
    change it.  If not, no fuel gives a result: for a genuine interrupt on line 7 the handler waits
    for a lock that it holds itself, and without a byte it polls the keyboard controller for ever. *)
Theorem interrupt_ends `{HO : HashOrder} `{PC : Pinecone} `{PagingOps} `{!AlignOps}
    {A : Type} `{!PhysAlloc A} {Frame PfCode : Type} clk now random garbage idt common rd
    services message_to_vec (encode : ProcessId → ProcessResult Frame PfCode → option (list byte))
    encode_u8 encode_unit pic_enabled isr en ps2 cr2 pf n rsp frame code (k : kernel (A := A)) i
    (Hwf : sched_wf (k_sched k)) (Hmax : next_pid (k_sched k) ≤ u64_max)
    (Hrun : is_running (k_sched k) i false) :
  let run fuel := process_interrupt_inner clk now true random garbage idt common rd services message_to_vec encode
      encode_u8 encode_unit pic_enabled isr fuel en ps2 cr2 pf n rsp (si_p4addr i) frame code k in
  (responds pic_enabled isr ps2 n → ∃ enough result, ∀ fuel, (enough ≤ fuel)%nat → run fuel = Some result) ∧
  (¬ responds pic_enabled isr ps2 n → ∀ fuel, run fuel = None).
Proof.
  intros run. subst run. destruct (inner_dispatch clk now random garbage idt common rd services message_to_vec
    encode encode_u8 encode_unit pic_enabled isr en ps2 cr2 pf n rsp frame code k i Hwf Hmax Hrun) as (k1 & Hk1 & Hi1 & E).
  split; intros Hhw.
  - destruct (dispatch_ends clk now random garbage idt common rd services message_to_vec encode encode_u8 encode_unit
      pic_enabled isr en ps2 cr2 pf n frame code _ k1 Hk1 Hi1 Hhw) as (enough & o & Ho).
    exists enough. destruct o as [[[[]|e] k']|why]; eexists; intros fuel Hf; rewrite E; cbn [si_pid] in Ho;
      by rewrite (Ho fuel Hf).
  - intros fuel. rewrite E. by rewrite dispatch_hangs.
Qed.

Lemma example_repeating_wf : sched_wf (k_sched example_repeating).
Proof.
  destruct (give_wf Queues_new 2 WaitNone (queues (k_sched example_repeating)) qs_new_wf) as [Hq Hp].
  { rewrite elem_of_procs. intros [H|[w H]]; [by apply not_elem_of_nil in H|done]. }
  { reflexivity. }
  assert (∀ p, p ∈ procs (queues (k_sched example_repeating)) ↔ p = 2) as Hprocs.
  { intros p. rewrite Hp. apply list_elem_of_singleton. }
  split; [exact Hq|setoid_rewrite Hprocs..| | |];
    cbn [k_sched example_repeating processes sched_running next_pid].
  - intros p. rewrite lookup_insert_is_Some', lookup_singleton_is_Some. naive_solver.
  - by intros p [= <-].
  - by intros p x [[<- <-]|[_ [<- <-]%lookup_singleton_Some]]%lookup_insert_Some.
  - intros p. rewrite lookup_insert_is_Some', lookup_singleton_is_Some. lia.
  - lia.
Qed.

Lemma example_repeating_runs :
  is_running (k_sched example_repeating) (Process_switch_info (example_proc_at 1 0x1000000 false)) false.
Proof. exists (example_proc_at 1 0x1000000 false). split; [reflexivity|]. split; [reflexivity|]. split; reflexivity. Qed.

Lemma interrupt_resumes_running_witness :
  ∃ enough, ∀ fuel, (enough ≤ fuel)%nat →
    match process_interrupt_inner (PC := example_pinecone) (Frame := unit) (PfCode := unit)
      example_clock 0 true 0 ∅ 0 0 {| files := ∅; slice := [] |} ∅ (λ _, None)
      (λ _ _, Some []) (λ _, Some []) (Some []) true 0
      fuel true example_ps2 0 (λ _, None) 0x21 (PROCESS_STACK + 0x100) 0x600000 tt 0 example_repeating with
    | None => False
    | Some (Panic why) => rejected (PfCode := unit) true true (λ _, None) 0x21 0 ∨
        callee_panics (PC := example_pinecone) (Frame := unit) (PfCode := unit) example_clock 0 true 0 ∅ 0 0 {| files := ∅; slice := [] |} ∅ (λ _, None)
          (λ _ _, Some []) why
    | Some (Ret (e, k')) => ¬ rejected (PfCode := unit) true true (λ _, None) 0x21 0 ∧
        sched_wf (k_sched k') ∧ next_pid (k_sched k') ≤ u64_max ∧
        (exit_ok k' e ∨
         e = ExitReturn (process_pair_to_u128 (PROCESS_STACK + 0x100) 0x600000) ∧ is_idle (k_sched k') ∧
           (0x21 = 0xd7 ∨ 0x21 = 0xd8))
    end.
Proof.
  apply (interrupt_resumes_running (PC := example_pinecone)) with
    (i := Process_switch_info (example_proc_at 1 0x1000000 false)).
  - apply example_repeating_wf.
  - vm_compute. discriminate.
  - apply example_repeating_runs.
  - split; [intros ?; lia|]. intros _. exists 2%nat. vm_compute. discriminate.
Defined.

Lemma interrupt_ends_witness :
  let run n isr fuel := process_interrupt_inner (PC := example_pinecone) (Frame := unit) (PfCode := unit)
      example_clock 0 true 0 ∅ 0 0 {| files := ∅; slice := [] |} ∅ (λ _, None)
      (λ _ _, Some []) (λ _, Some []) (Some []) true isr
      fuel true example_ps2 0 (λ _, None) n (PROCESS_STACK + 0x100) 0x600000 tt 0 example_repeating in
  (∃ enough result, ∀ fuel, (enough ≤ fuel)%nat → run 0xd7 0 fuel = Some result) ∧
  (∀ fuel, run 0x27 0x80 fuel = None).
Proof.
  split; eapply (interrupt_ends (PC := example_pinecone)) with
    (i := Process_switch_info (example_proc_at 1 0x1000000 false)).
  1, 5: apply example_repeating_wf.
  1, 4: vm_compute; discriminate.
  1, 3: apply example_repeating_runs.
  - split; intros ?; lia.
  - intros [H _]. by specialize (H eq_refl eq_refl).
Defined.
