(* ===== verification/Net.v ===== *)
(** * Net: checksums and addresses of the network library
    (libs/d7net: checksum.rs, mac.rs, ethertype.rs, ip_protocol.rs, ip_addr.rs)

    The library is built without overflow checks: 16-bit arithmetic wraps.  Addresses are lists of
    bytes, text is a list of ASCII bytes.  [num_enum]'s [TryFromPrimitive] finds the variant with
    the given discriminant. *)

From stdpp Require Import base list strings.
From Stdlib Require Import ZArith Lia.
From S2P Require Import Prelude Bytes.
Open Scope Z_scope.

Definition wrap16 (z : Z) : Z := z mod 65536.

(** ** checksum.rs *)

(** One addition with end-around carry: two [overflowing_add]s and a last [+= 1]. *)
Definition checksum_add (result v : Z) : Z :=
  let r := wrap16 (result + v) in
  if 65536 <=? result + v then
    let r' := wrap16 (r + 1) in
    if 65536 <=? r + 1 then wrap16 (r' + 1) else r'
  else r.

Fixpoint checksum_loop (data : list Z) (result : Z) : Z :=
  match data with
  | [] => result
  | [b] => checksum_add result (from_be [b; 0])
  | b0 :: b1 :: data => checksum_loop data (checksum_add result (from_be [b0; b1]))
  end.

Definition inet_checksum (data : list Z) : Z := wrap16 (Z.lnot (checksum_loop data 0)).

(** ** mac.rs *)

Definition MacAddr := list Z.

Definition MacAddr_ZERO : MacAddr := [0; 0; 0; 0; 0; 0].
Definition MacAddr_BROADCAST : MacAddr := [0xff; 0xff; 0xff; 0xff; 0xff; 0xff].

Definition MacAddr_from_bytes (bytes : list Z) : outcome MacAddr :=
  _ ← rassert (length bytes =? 6)%nat "bytes.len() == 6";
  Ret bytes.

(** ** ethertype.rs *)

Inductive EtherType :=
| ET_Ipv4
| ET_ARP
| ET_WakeOnLan
| ET_SLPP
| ET_Ipv6
| ET_EthernetFlowControl
| ET_EthernetSlowProtocol.

#[global] Instance EtherType_eq_dec : EqDecision EtherType.
Proof. solve_decision. Defined.

Definition EtherType_discriminant (e : EtherType) : Z :=
  match e with
  | ET_Ipv4 => 0x0800
  | ET_ARP => 0x0806
  | ET_WakeOnLan => 0x0842
  | ET_SLPP => 0x8102
  | ET_Ipv6 => 0x86dd
  | ET_EthernetFlowControl => 0x8808
  | ET_EthernetSlowProtocol => 0x8809
  end.

Definition EtherType_all : list EtherType :=
  [ET_Ipv4; ET_ARP; ET_WakeOnLan; ET_SLPP; ET_Ipv6; ET_EthernetFlowControl; ET_EthernetSlowProtocol].

(** The variant with discriminant [n]. *)
Definition find_variant {E} (discriminant : E → Z) (all : list E) (n : Z) : option E :=
  snd <$> list_find (λ e, discriminant e = n) all.

Definition EtherType_try_from (n : Z) : option EtherType :=
  find_variant EtherType_discriminant EtherType_all n.

Definition EtherType_from_bytes (bytes : list Z) : outcome EtherType :=
  b0 ← index_at bytes 0;
  b1 ← index_at bytes 1;
  expect (EtherType_try_from (from_be [b0; b1])) "Unknwn EtherType".

Definition EtherType_to_bytes (self : EtherType) : list Z := to_be 2 (EtherType_discriminant self).

(** ** ip_protocol.rs *)

Module ip_protocol.

Inductive IpProtocol :=
| HOPOPT | ICMP | IGMP | GGP | IPv4 | ST | TCP | CBT | EGP | IGP | BBN_RCC_MON | NVP_II | PUP
| ARGUS | EMCON | XNET | CHAOS | UDP | MUX | DCN_MEAS | HMP | PRM | XNS_IDP | TRUNK_1 | TRUNK_2
| LEAF_1 | LEAF_2 | RDP | IRTP | ISO_TP4 | NETBLT | MFE_NSP | MERIT_INP | DCCP | _3PC | IDPR
| XTP | DDP | IDPR_CMTP | TP | IL | IPv6 | SDRP | IPv6_Route | IPv6_Frag | IDRP | RSVP | GRE
| DSR | BNA | ESP | AH | I_NLSP | SWIPE_deprecated | NARP | MOBILE | TLSP | SKIP | IPv6_ICMP
| IPv6_NoNxt | IPv6_Opts | HostInternal | CFTP | LocalNetwork | SAT_EXPAK | KRYPTOLAN | RVD
| IPPC | DistrubutedFS | SAT_MON | VISA | IPCV | CPNX | CPHB | WSN | PVP | BR_SAT_MON | SUN_ND
| WB_MON | WB_EXPAK | ISO_IP | VMTP | SECURE_VMTP | VINES | IPTM | NSFNET_IGP | DGP | TCF | EIGRP
| OSPFIGP | Sprite_RPC | LARP | MTP | AX | IPIP | MICP_deprecated | SCC_SP | ETHERIP | ENCAP
| PrivateEncryption | GMTP | IFMP | PNNI | PIM | ARIS | SCPS | QNX | A | IPComp | SNP
| Compaq_Peer | IPX_in_IP | VRRP | PGM | ZeroHop | L2TP | DDX | IATP | STP | SRP | UTI | SMP
| SM_deprecated | PTP | ISIS | FIRE | CRTP | CRUDP | SSCOPMCE | IPLT | SPS | PIPE | SCTP | FC
| RSVP_E2E_IGNORE | Mobility | UDPLite | MPLS_in_IP | manet | HIP | Shim6 | WESP | ROHC | Test0
| Test1 | Reserved.

Definition IpProtocol_discriminant (p : IpProtocol) : Z :=
  match p with
  | HOPOPT => 0 | ICMP => 1 | IGMP => 2 | GGP => 3 | IPv4 => 4 | ST => 5 | TCP => 6 | CBT => 7
  | EGP => 8 | IGP => 9 | BBN_RCC_MON => 10 | NVP_II => 11 | PUP => 12 | ARGUS => 13
  | EMCON => 14 | XNET => 15 | CHAOS => 16 | UDP => 17 | MUX => 18 | DCN_MEAS => 19 | HMP => 20
  | PRM => 21 | XNS_IDP => 22 | TRUNK_1 => 23 | TRUNK_2 => 24 | LEAF_1 => 25 | LEAF_2 => 26
  | RDP => 27 | IRTP => 28 | ISO_TP4 => 29 | NETBLT => 30 | MFE_NSP => 31 | MERIT_INP => 32
  | DCCP => 33 | _3PC => 34 | IDPR => 35 | XTP => 36 | DDP => 37 | IDPR_CMTP => 38 | TP => 39
  | IL => 40 | IPv6 => 41 | SDRP => 42 | IPv6_Route => 43 | IPv6_Frag => 44 | IDRP => 45
  | RSVP => 46 | GRE => 47 | DSR => 48 | BNA => 49 | ESP => 50 | AH => 51 | I_NLSP => 52
  | SWIPE_deprecated => 53 | NARP => 54 | MOBILE => 55 | TLSP => 56 | SKIP => 57
  | IPv6_ICMP => 58 | IPv6_NoNxt => 59 | IPv6_Opts => 60 | HostInternal => 61 | CFTP => 62
  | LocalNetwork => 63 | SAT_EXPAK => 64 | KRYPTOLAN => 65 | RVD => 66 | IPPC => 67
  | DistrubutedFS => 68 | SAT_MON => 69 | VISA => 70 | IPCV => 71 | CPNX => 72 | CPHB => 73
  | WSN => 74 | PVP => 75 | BR_SAT_MON => 76 | SUN_ND => 77 | WB_MON => 78 | WB_EXPAK => 79
  | ISO_IP => 80 | VMTP => 81 | SECURE_VMTP => 82 | VINES => 83 | IPTM => 84 | NSFNET_IGP => 85
  | DGP => 86 | TCF => 87 | EIGRP => 88 | OSPFIGP => 89 | Sprite_RPC => 90 | LARP => 91
  | MTP => 92 | AX => 93 | IPIP => 94 | MICP_deprecated => 95 | SCC_SP => 96 | ETHERIP => 97
  | ENCAP => 98 | PrivateEncryption => 99 | GMTP => 100 | IFMP => 101 | PNNI => 102 | PIM => 103
  | ARIS => 104 | SCPS => 105 | QNX => 106 | A => 107 | IPComp => 108 | SNP => 109
  | Compaq_Peer => 110 | IPX_in_IP => 111 | VRRP => 112 | PGM => 113 | ZeroHop => 114
  | L2TP => 115 | DDX => 116 | IATP => 117 | STP => 118 | SRP => 119 | UTI => 120 | SMP => 121
  | SM_deprecated => 122 | PTP => 123 | ISIS => 124 | FIRE => 125 | CRTP => 126 | CRUDP => 127
  | SSCOPMCE => 128 | IPLT => 129 | SPS => 130 | PIPE => 131 | SCTP => 132 | FC => 133
  | RSVP_E2E_IGNORE => 134 | Mobility => 135 | UDPLite => 136 | MPLS_in_IP => 137 | manet => 138
  | HIP => 139 | Shim6 => 140 | WESP => 141 | ROHC => 142 | Test0 => 253 | Test1 => 254
  | Reserved => 255
  end.

Definition IpProtocol_all : list IpProtocol :=
  [HOPOPT; ICMP; IGMP; GGP; IPv4; ST; TCP; CBT; EGP; IGP; BBN_RCC_MON; NVP_II; PUP; ARGUS; EMCON;
  XNET; CHAOS; UDP; MUX; DCN_MEAS; HMP; PRM; XNS_IDP; TRUNK_1; TRUNK_2; LEAF_1; LEAF_2; RDP;
  IRTP; ISO_TP4; NETBLT; MFE_NSP; MERIT_INP; DCCP; _3PC; IDPR; XTP; DDP; IDPR_CMTP; TP; IL; IPv6;
  SDRP; IPv6_Route; IPv6_Frag; IDRP; RSVP; GRE; DSR; BNA; ESP; AH; I_NLSP; SWIPE_deprecated;
  NARP; MOBILE; TLSP; SKIP; IPv6_ICMP; IPv6_NoNxt; IPv6_Opts; HostInternal; CFTP; LocalNetwork;
  SAT_EXPAK; KRYPTOLAN; RVD; IPPC; DistrubutedFS; SAT_MON; VISA; IPCV; CPNX; CPHB; WSN; PVP;
  BR_SAT_MON; SUN_ND; WB_MON; WB_EXPAK; ISO_IP; VMTP; SECURE_VMTP; VINES; IPTM; NSFNET_IGP; DGP;
  TCF; EIGRP; OSPFIGP; Sprite_RPC; LARP; MTP; AX; IPIP; MICP_deprecated; SCC_SP; ETHERIP; ENCAP;
  PrivateEncryption; GMTP; IFMP; PNNI; PIM; ARIS; SCPS; QNX; A; IPComp; SNP; Compaq_Peer;
  IPX_in_IP; VRRP; PGM; ZeroHop; L2TP; DDX; IATP; STP; SRP; UTI; SMP; SM_deprecated; PTP; ISIS;
  FIRE; CRTP; CRUDP; SSCOPMCE; IPLT; SPS; PIPE; SCTP; FC; RSVP_E2E_IGNORE; Mobility; UDPLite;
  MPLS_in_IP; manet; HIP; Shim6; WESP; ROHC; Test0; Test1; Reserved].

End ip_protocol.


Definition IpProtocol_try_from (n : Z) : option ip_protocol.IpProtocol :=
  find_variant ip_protocol.IpProtocol_discriminant ip_protocol.IpProtocol_all n.

(** ** Text: the string operations the source uses *)

(** [str::split] at a byte. *)
Fixpoint split_bytes (sep : Z) (l : list Z) : list (list Z) :=
  match l with
  | [] => [[]]
  | b :: l =>
      if b =? sep then [] :: split_bytes sep l
      else match split_bytes sep l with
           | [] => [[b]]
           | s :: ss => (b :: s) :: ss
           end
  end.

(** [str::parse] of an unsigned type with maximum [max]: digits, with an optional plus sign. *)
Fixpoint parse_digits (max acc : Z) (l : list Z) : option Z :=
  match l with
  | [] => Some acc
  | c :: l =>
      if (48 <=? c) && (c <=? 57) then
        let acc := acc * 10 + (c - 48) in
        if acc <=? max then parse_digits max acc l else None
      else None
  end.

Definition parse_uint (max : Z) (l : list Z) : option Z :=
  match l with
  | [] => None
  | 43 :: c :: l => parse_digits max 0 (c :: l)
  | l => parse_digits max 0 l
  end.

(** [Display] of an unsigned number of at most [digits] decimal digits. *)
Fixpoint show_uint (digits : nat) (n : Z) : list Z :=
  match digits with
  | O => []
  | S digits => if n <? 10 then [48 + n] else show_uint digits (n / 10) ++ [48 + n mod 10]
  end.

(** ** ip_addr.rs *)

Definition Ipv4Addr := list Z.
Definition Ipv6Addr := list Z.

Definition Ipv4Addr_ZERO : Ipv4Addr := [0; 0; 0; 0].
Definition Ipv4Addr_LOCALHOST : Ipv4Addr := [127; 0; 0; 1].
Definition Ipv4Addr_BROADCAST : Ipv4Addr := [255; 255; 255; 255].

Definition Ipv4Addr_from_bytes (bytes : list Z) : outcome Ipv4Addr :=
  _ ← rassert (length bytes =? 4)%nat "bytes.len() == 4";
  Ret bytes.

Definition Ipv6Addr_from_bytes (bytes : list Z) : outcome Ipv6Addr :=
  _ ← rassert (length bytes =? 16)%nat "bytes.len() == 16";
  Ret bytes.

(** [Display]: the numbers, with a dot before each but the first. *)
Fixpoint Ipv4Addr_fmt (self : Ipv4Addr) : list Z :=
  match self with
  | [] => []
  | [p] => show_uint 3 p
  | p :: rest => show_uint 3 p ++ [46] ++ Ipv4Addr_fmt rest
  end.

Definition hex_digit (n : Z) : Z := if n <? 10 then 48 + n else 97 + (n - 10).

Fixpoint Ipv6Addr_fmt (self : Ipv6Addr) : list Z :=
  match self with
  | [] => []
  | [p] => [hex_digit (p / 16); hex_digit (p mod 16)]
  | p :: rest => [hex_digit (p / 16); hex_digit (p mod 16); 58] ++ Ipv6Addr_fmt rest
  end.

(** The loop over the four bytes of the buffer; what is left of the iterator. *)
Fixpoint parse_octets (n : nat) (s : list (list Z)) : option (list Z * list (list Z)) :=
  match n with
  | O => Some ([], s)
  | S n =>
      match s with
      | [] => None
      | a :: s =>
          v ← parse_uint 255 a;
          '(rest, s) ← parse_octets n s;
          Some (v :: rest, s)
      end
  end.

Definition Ipv4Addr_try_from (value : list Z) : option Ipv4Addr :=
  '(buffer, s) ← parse_octets 4 (split_bytes 46 value);
  match s with [] => Some buffer | _ => None end.

Inductive IpAddr := V4 (a : Ipv4Addr) | V6 (a : Ipv6Addr).

#[global] Instance IpAddr_eq_dec : EqDecision IpAddr.
Proof. solve_decision. Defined.

Definition IpAddr_from_bytes (bytes : list Z) : outcome IpAddr :=
  if (length bytes =? 4)%nat then a ← Ipv4Addr_from_bytes bytes; Ret (V4 a)
  else if (length bytes =? 16)%nat then a ← Ipv6Addr_from_bytes bytes; Ret (V6 a)
  else Panic "Invalid ip address byte count".

Definition IpAddr_try_from (value : list Z) : option IpAddr := V4 <$> Ipv4Addr_try_from value.

Record SocketAddr := MkSocketAddr { host : IpAddr; port : Z }.

#[global] Instance SocketAddr_eq_dec : EqDecision SocketAddr.
Proof. solve_decision. Defined.

Definition SocketAddr_ZERO : SocketAddr := MkSocketAddr (V4 Ipv4Addr_ZERO) 0.

Definition SocketAddr_try_from_pair (host_str : list Z) (port : Z) : option SocketAddr :=
  host ← IpAddr_try_from host_str;
  Some (MkSocketAddr host port).

(** [s.strip_prefix("[").and_then(|s| s.strip_suffix("]")).unwrap_or(s)] *)
Definition strip_brackets (s : list Z) : list Z :=
  match s with
  | 91 :: rest =>
      match last rest with
      | Some 93 => take (length rest - 1) rest
      | _ => s
      end
  | _ => s
  end.

Definition SocketAddr_try_from (value : list Z) : option SocketAddr :=
  match reverse (split_bytes 58 value) with
  | p :: it =>
      port ← parse_uint 65535 p;
      match it with
      | [host_str] => SocketAddr_try_from_pair (strip_brackets host_str) port
      | _ => None
      end
  | [] => None
  end.

(** ** Checksums *)

(** The reference: the sum of the 16-bit words, the last byte padded with zero. *)
Fixpoint words_sum (data : list Z) : Z :=
  match data with
  | [] => 0
  | [b] => 256 * b
  | b0 :: b1 :: data => 256 * b0 + b1 + words_sum data
  end.

(** A natural number folded to 16 bits with end-around carry. *)
Definition fold16 (s : Z) : Z := if s =? 0 then 0 else (s - 1) mod 65535 + 1.

Lemma fold16_range s : 0 ≤ s → 0 ≤ fold16 s < 65536.
Proof.
  unfold fold16. destruct (Z.eqb_spec s 0); [lia|]. pose proof (Z.mod_pos_bound (s - 1) 65535). lia.
Qed.

Lemma checksum_add_fold s v :
  0 ≤ s → 0 ≤ v < 65536 → checksum_add (fold16 s) v = fold16 (s + v).
Proof.
  intros Hs Hv. unfold checksum_add, wrap16, fold16.
  destruct (Z.eqb_spec s 0) as [->|Hs0].
  - rewrite Z.add_0_l. destruct (Z.leb_spec 65536 v); [lia|]. rewrite Z.mod_small by lia.
    destruct (Z.eqb_spec v 0); [done|]. rewrite Z.mod_small; lia.
  - destruct (Z.eqb_spec (s + v) 0); [lia|]. set (m := (s - 1) mod 65535).
    assert (0 ≤ m < 65535) by (unfold m; apply Z.mod_pos_bound; lia).
    replace ((s + v - 1) mod 65535) with ((m + v) mod 65535)
      by (unfold m; rewrite Zplus_mod_idemp_l; f_equal; lia).
    destruct (Z.leb_spec 65536 (m + 1 + v)) as [Hc|Hc].
    + replace ((m + 1 + v) mod 65536) with (m + v - 65535)
        by (rewrite <- (Z_mod_plus_full _ (-1)), Z.mod_small; lia).
      destruct (Z.leb_spec 65536 (m + v - 65535 + 1)); [lia|]. rewrite Z.mod_small by lia.
      rewrite <- (Z_mod_plus_full (m + v) (-1)), Z.mod_small by lia. lia.
    + rewrite !Z.mod_small; lia.
Qed.

(** Induction over a list two elements at a time. *)
Lemma pairs_ind {A} (P : list A → Prop) :
  P [] → (∀ x, P [x]) → (∀ x y l, P l → P (x :: y :: l)) → ∀ l, P l.
Proof.
  intros H0 H1 H2 l. assert (P l ∧ ∀ x, P (x :: l)) as [? _]; [|done].
  induction l as [|y l [IH IH']]; [done|]. split; [apply IH'|]. intros x. by apply H2.
Qed.

Lemma words_sum_nonneg data : Forall is_byte data → 0 ≤ words_sum data.
Proof.
  induction data as [|b|b0 b1 data IH] using pairs_ind; cbn [words_sum]; [lia| |].
  - intros [Hb _]%Forall_cons. unfold is_byte in Hb. lia.
  - intros [H0 [H1 H]%Forall_cons]%Forall_cons. unfold is_byte in *. specialize (IH H). lia.
Qed.

Lemma checksum_loop_fold data s :
  Forall is_byte data → 0 ≤ s → checksum_loop data (fold16 s) = fold16 (s + words_sum data).
Proof.
  revert s. induction data as [|b|b0 b1 data IH] using pairs_ind; intros s Hd Hs;
    cbn [checksum_loop words_sum]; [by rewrite Z.add_0_r| |].
  - apply Forall_cons in Hd as [Hb _]. unfold is_byte in Hb. cbn. rewrite checksum_add_fold by lia.
    f_equal. lia.
  - apply Forall_cons in Hd as [H0 [H1 Hd]%Forall_cons]. unfold is_byte in *. cbn.
    rewrite checksum_add_fold, IH by (done || lia). f_equal. lia.
Qed.

Lemma inet_checksum_fold data :
  Forall is_byte data → inet_checksum data = 65535 - fold16 (words_sum data).
Proof.
  intros Hd. unfold inet_checksum. change 0 with (fold16 0) at 1.
  rewrite checksum_loop_fold, Z.add_0_l by (done || lia).
  pose proof (fold16_range _ (words_sum_nonneg _ Hd)). unfold wrap16, Z.lnot.
  rewrite <- (Z_mod_plus_full _ 1), Z.mod_small by lia. lia.
Qed.

Lemma inet_checksum_range data : Forall is_byte data → 0 ≤ inet_checksum data < 65536.
Proof.
  intros Hd. rewrite inet_checksum_fold by done.
  pose proof (fold16_range _ (words_sum_nonneg _ Hd)). lia.
Qed.

Lemma words_sum_app l1 l2 :
  Nat.Even (length l1) → words_sum (l1 ++ l2) = words_sum l1 + words_sum l2.
Proof.
  induction l1 as [|b|b0 b1 l1 IH] using pairs_ind; cbn [words_sum app length].
  - done.
  - intros [n Hn]. lia.
  - intros [n Hn]. rewrite IH; [lia|]. exists (n - 1)%nat. lia.
Qed.

Lemma words_sum_be c : words_sum (to_be 2 c) = wrap16 c.
Proof.
  unfold wrap16. change (words_sum (to_be 2 c)) with (256 * ((c / 256) mod 256) + c mod 256 + 0).
  change 65536 with (256 * 256). rewrite (Z.rem_mul_r c 256 256) by lia. lia.
Qed.

(** A message whose checksum field holds the checksum of the message with the field cleared
    verifies: its own checksum is zero. *)
Lemma checksum_verifies l1 l2 :
  Nat.Even (length l1) → Forall is_byte l1 → Forall is_byte l2 →
  inet_checksum (l1 ++ to_be 2 (inet_checksum (l1 ++ [0; 0] ++ l2)) ++ l2) = 0.
Proof.
  intros Hl H1 H2. pose proof (words_sum_nonneg _ H1) as Hs1. pose proof (words_sum_nonneg _ H2) as Hs2.
  assert (Forall is_byte (l1 ++ [0; 0] ++ l2)) as Hb.
  { apply Forall_app_2; [done|]. apply Forall_app_2; [|done]. repeat constructor; done. }
  pose proof (inet_checksum_range _ Hb) as Hc. set (c := inet_checksum (l1 ++ [0; 0] ++ l2)) in *.
  assert (c = 65535 - fold16 (words_sum l1 + words_sum l2)) as Ec.
  { unfold c. rewrite inet_checksum_fold, words_sum_app by done. reflexivity. }
  rewrite inet_checksum_fold, words_sum_app by
    (done || (apply Forall_app_2; [done|]; apply Forall_app_2; [apply to_be_bytes|done])).
  assert (words_sum (to_be 2 c ++ l2) = c + words_sum l2) as ->.
  { rewrite words_sum_app by (rewrite to_be_length; by exists 1%nat).
    rewrite words_sum_be. unfold wrap16. rewrite Z.mod_small; lia. }
  rewrite Ec. set (t := words_sum l1 + words_sum l2) in *.
  replace (words_sum l1 + _) with (t + 65535 - fold16 t) by lia. unfold fold16.
  destruct (Z.eqb_spec t 0) as [->|Ht]; [done|].
  pose proof (Z.div_mod (t - 1) 65535 ltac:(lia)) as Hdm. pose proof (Z.mod_pos_bound (t - 1) 65535).
  destruct (Z.eqb_spec (t + 65535 - ((t - 1) mod 65535 + 1)) 0); [lia|].
  replace (t + 65535 - ((t - 1) mod 65535 + 1) - 1) with (65534 + (t - 1) / 65535 * 65535) by lia.
  rewrite Z_mod_plus_full, Z.mod_small; lia.
Qed.

(** ** Variants *)

Lemma find_variant_some {E} (d : E → Z) all n e : find_variant d all n = Some e → d e = n.
Proof.
  unfold find_variant. intros ([i e'] & (_ & He & _)%list_find_Some & ->)%fmap_Some. done.
Qed.

Lemma EtherType_try_from_discriminant e : EtherType_try_from (EtherType_discriminant e) = Some e.
Proof. by destruct e. Qed.

Lemma IpProtocol_try_from_discriminant p :
  IpProtocol_try_from (ip_protocol.IpProtocol_discriminant p) = Some p.
Proof. by destruct p. Qed.

Lemma EtherType_discriminant_range e : 0 ≤ EtherType_discriminant e < 65536.
Proof. destruct e; cbn; lia. Qed.

Lemma IpProtocol_discriminant_range p : 0 ≤ ip_protocol.IpProtocol_discriminant p < 256.
Proof. destruct p; cbn; lia. Qed.

(** ** Text *)

Lemma split_bytes_ne sep l : split_bytes sep l ≠ [].
Proof. destruct l as [|b l]; cbn; [done|]. repeat case_match; done. Qed.

(** Splitting takes the separators out. *)
Lemma split_bytes_app sep l1 l2 :
  sep ∉ l1 → split_bytes sep (l1 ++ sep :: l2) = l1 :: split_bytes sep l2.
Proof.
  induction l1 as [|b l1 IH]; intros Hn; cbn [app split_bytes]; [by rewrite Z.eqb_refl|].
  apply not_elem_of_cons in Hn as [Hb Hn]. destruct (Z.eqb_spec b sep); [congruence|].
  by rewrite IH.
Qed.

Lemma split_bytes_none sep l : sep ∉ l → split_bytes sep l = [l].
Proof.
  induction l as [|b l IH]; intros Hn; cbn [split_bytes]; [done|].
  apply not_elem_of_cons in Hn as [Hb Hn]. destruct (Z.eqb_spec b sep); [congruence|].
  by rewrite IH.
Qed.

(** The digits of a number are ASCII digits, and parsing them gives the number back. *)
Lemma show_uint_digits d n : 0 ≤ n → Forall (λ c, 48 ≤ c ≤ 57) (show_uint d n).
Proof.
  revert n. induction d as [|d IH]; intros n Hn; cbn; [done|].
  destruct (Z.ltb_spec n 10); [repeat constructor; lia|]. apply Forall_app_2.
  - apply IH. apply Z.div_pos; lia.
  - pose proof (Z.mod_pos_bound n 10). repeat constructor; lia.
Qed.

Lemma parse_digits_app max acc l1 l2 :
  parse_digits max acc (l1 ++ l2) = (a ← parse_digits max acc l1; parse_digits max a l2).
Proof.
  revert acc. induction l1 as [|c l1 IH]; intros acc; cbn; [done|]. by repeat case_match.
Qed.

Lemma parse_digits_show max d n :
  0 ≤ n ≤ max → n < 10 ^ Z.of_nat d → parse_digits max 0 (show_uint d n) = Some n.
Proof.
  revert n. induction d as [|d IH]; intros n Hn Hd; cbn [show_uint].
  { cbn in Hd. cbn. f_equal. lia. }
  rewrite Nat2Z.inj_succ, Z.pow_succ_r in Hd by lia. destruct (Z.ltb_spec n 10).
  - cbn [parse_digits]. rewrite (proj2 (Z.leb_le 48 _)), (proj2 (Z.leb_le _ 57)) by lia. cbn [andb].
    replace (0 * 10 + (48 + n - 48)) with n by lia. rewrite (proj2 (Z.leb_le n max)) by lia. done.
  - pose proof (Z.mod_pos_bound n 10 ltac:(lia)). pose proof (Z.div_mod n 10 ltac:(lia)).
    rewrite parse_digits_app, IH; [|split; [apply Z.div_pos; lia|]|apply Z.div_lt_upper_bound; lia]; [|lia].
    cbn [mbind option_bind parse_digits].
    rewrite (proj2 (Z.leb_le 48 _)), (proj2 (Z.leb_le _ 57)) by lia. cbn [andb].
    replace (n / 10 * 10 + (48 + n mod 10 - 48)) with n by lia. rewrite (proj2 (Z.leb_le n max)) by lia. done.
Qed.

Lemma parse_uint_show max d n :
  0 ≤ n ≤ max → n < 10 ^ Z.of_nat d → (0 < d)%nat → parse_uint max (show_uint d n) = Some n.
Proof.
  intros Hn Hd Hpos. pose proof (parse_digits_show max d n Hn Hd) as Hp.
  pose proof (show_uint_digits d n ltac:(lia)) as Hf. unfold parse_uint.
  destruct (show_uint d n) as [|c l] eqn:E.
  - destruct d as [|d]; [lia|]. cbn in E. case_match; [done|]. by destruct (show_uint d (n / 10)).
  - apply Forall_cons in Hf as [Hc _]. repeat (case_match; try done; try lia).
Qed.

Lemma digits_not_in c l : Forall (λ c, 48 ≤ c ≤ 57) l → c < 48 ∨ 57 < c → c ∉ l.
Proof. intros Hl Hc Hin. rewrite Forall_forall in Hl. apply Hl in Hin. lia. Qed.

Lemma parse_octet p : is_byte p → parse_uint 255 (show_uint 3 p) = Some p.
Proof. intros Hp. unfold is_byte in Hp. apply parse_uint_show; cbn; lia. Qed.

Lemma fmt_split a b c d :
  is_byte a → is_byte b → is_byte c → is_byte d →
  split_bytes 46 (Ipv4Addr_fmt [a; b; c; d]) =
    [show_uint 3 a; show_uint 3 b; show_uint 3 c; show_uint 3 d].
Proof.
  intros Ha Hb Hc Hd.
  assert (∀ p, is_byte p → 46 ∉ show_uint 3 p) as Hn.
  { intros p [? _]. apply digits_not_in; [by apply show_uint_digits|lia]. }
  cbn [Ipv4Addr_fmt app]. by rewrite !split_bytes_app, split_bytes_none by auto.
Qed.

Lemma Ipv4Addr_fmt_parses a :
  length a = 4%nat → Forall is_byte a → Ipv4Addr_try_from (Ipv4Addr_fmt a) = Some a.
Proof.
  destruct a as [|p [|q [|r [|s [|]]]]]; try done. intros _.
  intros [Hp [Hq [Hr [Hs _]%Forall_cons]%Forall_cons]%Forall_cons]%Forall_cons.
  unfold Ipv4Addr_try_from. rewrite fmt_split by done. cbn [parse_octets].
  by rewrite !parse_octet by done.
Qed.

Lemma fmt_no_colon a : Forall is_byte a → 58 ∉ Ipv4Addr_fmt a.
Proof.
  assert (∀ p, is_byte p → 58 ∉ show_uint 3 p) as Hn.
  { intros p [? _]. apply digits_not_in; [by apply show_uint_digits|lia]. }
  induction 1 as [|p l Hp Hl IH]; cbn; [apply not_elem_of_nil|]. destruct l as [|q l]; [by apply Hn|].
  rewrite elem_of_app, elem_of_cons. naive_solver.
Qed.

Lemma fmt_head a : length a = 4%nat → Forall is_byte a → ∃ c l, Ipv4Addr_fmt a = c :: l ∧ c ≠ 91.
Proof.
  destruct a as [|p [|q l]]; try done. intros _ [[Hp _] _]%Forall_cons.
  pose proof (show_uint_digits 3 p Hp) as Hd. cbn [Ipv4Addr_fmt].
  destruct (show_uint 3 p) as [|c s] eqn:E.
  - cbn in E. repeat case_match; try done; by destruct (app_eq_nil _ _ E) as [_ ?].
  - apply Forall_cons in Hd as [Hc _]. eexists c, _. split; [done|lia].
Qed.

Lemma SocketAddr_split h p :
  58 ∉ h → 58 ∉ p →
  SocketAddr_try_from (h ++ 58 :: p) =
    (port ← parse_uint 65535 p; SocketAddr_try_from_pair (strip_brackets h) port).
Proof.
  intros Hh Hp. unfold SocketAddr_try_from. by rewrite split_bytes_app, split_bytes_none by done.
Qed.

(** ** Properties *)

(** C40: the Internet checksum is the one's complement of the sum of the 16-bit words with
    end-around carry, whatever the length of the data, and it verifies: once it is stored in the
    field that was cleared for the computation, the checksum of the whole message is zero. *)
Theorem inet_checksum_correct l1 l2
    (Heven : Nat.Even (length l1)) (H1 : Forall is_byte l1) (H2 : Forall is_byte l2) :
  inet_checksum (l1 ++ l2) = 65535 - fold16 (words_sum l1 + words_sum l2) ∧
  inet_checksum (l1 ++ to_be 2 (inet_checksum (l1 ++ [0; 0] ++ l2)) ++ l2) = 0.
Proof.
  split; [|by apply checksum_verifies].
  rewrite inet_checksum_fold, words_sum_app by (done || by apply Forall_app_2). done.
Qed.

Lemma inet_checksum_correct_witness :
  inet_checksum ([0x45; 0; 0; 0x73; 0; 0; 0x40; 0; 0x40; 0x11] ++
    to_be 2 (inet_checksum ([0x45; 0; 0; 0x73; 0; 0; 0x40; 0; 0x40; 0x11] ++ [0; 0] ++
      [0xc0; 0xa8; 0; 1; 0xc0; 0xa8; 0; 0xc7])) ++ [0xc0; 0xa8; 0; 1; 0xc0; 0xa8; 0; 0xc7]) = 0.
Proof.
  apply (inet_checksum_correct [0x45; 0; 0; 0x73; 0; 0; 0x40; 0; 0x40; 0x11]
    [0xc0; 0xa8; 0; 1; 0xc0; 0xa8; 0; 0xc7]).
  - by exists 5%nat.
  - repeat constructor; lia.
  - repeat constructor; lia.
Defined.

(** An address that is printed parses back to itself; so does an address with a port, with or
    without brackets around the address. *)
Theorem address_round_trip a p
    (Hlen : length a = 4%nat) (Ha : Forall is_byte a) (Hp : 0 ≤ p < 65536) :
  Ipv4Addr_try_from (Ipv4Addr_fmt a) = Some a ∧
  SocketAddr_try_from (Ipv4Addr_fmt a ++ [58] ++ show_uint 5 p) = Some (MkSocketAddr (V4 a) p) ∧
  SocketAddr_try_from ([91] ++ Ipv4Addr_fmt a ++ [93; 58] ++ show_uint 5 p) =
    Some (MkSocketAddr (V4 a) p).
Proof.
  pose proof (Ipv4Addr_fmt_parses a Hlen Ha) as Hparse. pose proof (fmt_no_colon a Ha) as Hn.
  assert (58 ∉ show_uint 5 p) as Hn'.
  { apply digits_not_in; [apply show_uint_digits; lia|lia]. }
  assert (parse_uint 65535 (show_uint 5 p) = Some p) as Hport by (apply parse_uint_show; cbn; lia).
  split_and!; [done| |].
  - cbn [app]. rewrite SocketAddr_split, Hport by done. destruct (fmt_head a Hlen Ha) as (c & l & E & Hc).
    assert (strip_brackets (Ipv4Addr_fmt a) = Ipv4Addr_fmt a) as Hs.
    { rewrite E. unfold strip_brackets. repeat case_match; congruence. }
    cbn [mbind option_bind]. unfold SocketAddr_try_from_pair, IpAddr_try_from. by rewrite Hs, Hparse.
  - replace ([91] ++ Ipv4Addr_fmt a ++ [93; 58] ++ show_uint 5 p)
      with ((91 :: Ipv4Addr_fmt a ++ [93]) ++ 58 :: show_uint 5 p)
      by (cbn [app]; by rewrite <- (assoc_L (++))).
    rewrite SocketAddr_split, Hport; [|rewrite elem_of_cons, elem_of_app, list_elem_of_singleton; naive_solver|done].
    cbn [mbind option_bind strip_brackets]. rewrite last_snoc, length_app. cbn [length].
    rewrite Nat.add_sub, take_app_length. unfold SocketAddr_try_from_pair, IpAddr_try_from. by rewrite Hparse.
Qed.

Lemma address_round_trip_witness :
  SocketAddr_try_from (Ipv4Addr_fmt [192; 168; 10; 1] ++ [58] ++ show_uint 5 8080) =
    Some (MkSocketAddr (V4 [192; 168; 10; 1]) 8080).
Proof.
  apply (address_round_trip [192; 168; 10; 1] 8080).
  - reflexivity.
  - repeat constructor; lia.
  - lia.
Defined.

(** The text [[::1]:80] is refused: it is split at each colon. *)
Theorem bracketed_v6_refused : SocketAddr_try_from [91; 58; 58; 49; 93; 58; 56; 48] = None.
Proof. reflexivity. Qed.
