(* ===== verification/NetPackets.v ===== *)
(** * NetPackets: packet formats
    (libs/d7net: ethernet.rs, arp.rs, ipv4.rs, udp.rs, tcp/segment.rs, builder/)

    Parsers take slices with bound checks and panic on malformed input.  The TCP flags are a
    [bitflags] type of the [tcpstate] crate: its bits are the fields of [SegmentFlagBits]. *)

From stdpp Require Import base list strings.
From Stdlib Require Import ZArith Lia.
From S2P Require Import Prelude Bytes Net.
Open Scope Z_scope.

(** [&l[a..]] *)
Definition index_from {A} (l : list A) (a : nat) : outcome (list A) :=
  if (a <=? length l)%nat then Ret (drop a l) else Panic "range start index out of range".

(** [u16::from_be_bytes([l[i], l[i + 1]])] *)
Definition be16_at (l : list Z) (i : nat) : outcome Z :=
  b0 ← index_at l i;
  b1 ← index_at l (S i);
  Ret (from_be [b0; b1]).

(** ** ethernet.rs *)

Record FrameHeader := MkFrameHeader { dst_mac : MacAddr; src_mac : MacAddr; ethertype : EtherType }.
Record Frame := MkFrame { frame_header : FrameHeader; frame_payload : list Z }.

Definition FrameHeader_from_bytes (input : list Z) : outcome FrameHeader :=
  d ← index_range input 0 6;
  dst_mac ← MacAddr_from_bytes d;
  s ← index_range input 6 12;
  src_mac ← MacAddr_from_bytes s;
  e ← index_range input 12 14;
  ethertype ← EtherType_from_bytes e;
  Ret (MkFrameHeader dst_mac src_mac ethertype).

Definition FrameHeader_to_bytes (self : FrameHeader) : list Z :=
  dst_mac self ++ src_mac self ++ EtherType_to_bytes (ethertype self).

Definition Frame_from_bytes (input : list Z) : outcome Frame :=
  h ← index_range input 0 14;
  header ← FrameHeader_from_bytes h;
  payload ← index_from input 14;
  Ret (MkFrame header payload).

Definition Frame_to_bytes (self : Frame) : list Z :=
  FrameHeader_to_bytes (frame_header self) ++ frame_payload self.

(** ** arp.rs *)

Inductive Operation := Request | Reply.

#[global] Instance Operation_eq_dec : EqDecision Operation.
Proof. solve_decision. Defined.

Definition Operation_from_bytes (bytes : list Z) : outcome Operation :=
  b0 ← index_at bytes 0;
  _ ← rassert (b0 =? 0) "bytes[0] == 0";
  b1 ← index_at bytes 1;
  if b1 =? 1 then Ret Request
  else if b1 =? 2 then Ret Reply
  else Panic "Unknown ARP operation".

Record arp_Packet := MkArp {
  ptype : EtherType;
  operation : Operation;
  src_hw : MacAddr;
  arp_src_ip : Ipv4Addr;
  dst_hw : MacAddr;
  arp_dst_ip : Ipv4Addr;
}.

Definition arp_Packet_from_bytes (input : list Z) : outcome arp_Packet :=
  htype ← index_range input 0 2;
  _ ← rassert (bool_decide (htype = [0; 1])) "&input[..2] == [0, 1]";
  hlen ← index_at input 4;
  plen ← index_at input 5;
  _ ← rassert (hlen =? 6) "hlen == 6";
  _ ← rassert (plen =? 4) "plen == 4";
  let hlen := Z.to_nat hlen in
  let plen := Z.to_nat plen in
  t ← index_range input 2 4;
  ptype ← EtherType_from_bytes t;
  o ← index_range input 6 8;
  operation ← Operation_from_bytes o;
  s ← index_range input 8 (8 + hlen);
  src_hw ← MacAddr_from_bytes s;
  s ← index_range input (8 + hlen) (8 + hlen + plen);
  src_ip ← Ipv4Addr_from_bytes s;
  d ← index_range input (8 + hlen + plen) (8 + hlen * 2 + plen);
  dst_hw ← MacAddr_from_bytes d;
  d ← index_range input (8 + hlen * 2 + plen) (8 + hlen * 2 + plen * 2);
  dst_ip ← Ipv4Addr_from_bytes d;
  Ret (MkArp ptype operation src_hw src_ip dst_hw dst_ip).

Definition arp_Packet_to_bytes (self : arp_Packet) : list Z :=
  [0; 1] ++ [8; 0] ++ [6] ++ [4] ++
  [0; match operation self with Request => 1 | Reply => 2 end] ++
  src_hw self ++ arp_src_ip self ++ dst_hw self ++ arp_dst_ip self.

Definition arp_Packet_is_request (self : arp_Packet) : bool :=
  bool_decide (operation self = Request).

Definition arp_Packet_to_reply (self : arp_Packet) (mac : MacAddr) (ip : Ipv4Addr)
    : outcome arp_Packet :=
  _ ← rassert (arp_Packet_is_request self) "self.is_request()";
  Ret (MkArp (ptype self) Reply mac ip (src_hw self) (arp_src_ip self)).

(** ** ipv4.rs *)

Record ipv4_Header := MkIpv4Header {
  dscp_and_ecn : Z;
  payload_len : Z;
  identification : Z;
  flags_and_frament : Z;
  ttl : Z;
  protocol : ip_protocol.IpProtocol;
  src_ip : Ipv4Addr;
  dst_ip : Ipv4Addr;
}.

Record ipv4_Packet := MkIpv4Packet { ipv4_header : ipv4_Header; ipv4_payload : list Z }.

Definition ipv4_Header_from_bytes (input : list Z) : outcome ipv4_Header :=
  b0 ← index_at input 0;
  _ ← rassert (Z.shiftr b0 4 =? 4) "Version not Ipv4";
  _ ← rassert (Z.land b0 0xf =? 5) "IHL != 5 (Options not supported)";
  total_len ← be16_at input 2;
  _ ← rassert (20 <=? total_len) "Packet total_length too small";
  dscp_and_ecn ← index_at input 1;
  identification ← be16_at input 4;
  flags_and_frament ← be16_at input 6;
  ttl ← index_at input 8;
  p ← index_at input 9;
  protocol ← expect (IpProtocol_try_from p) "Unknown IP protocol";
  s ← index_range input 12 16;
  src_ip ← Ipv4Addr_from_bytes s;
  d ← index_range input 16 20;
  dst_ip ← Ipv4Addr_from_bytes d;
  Ret (MkIpv4Header dscp_and_ecn (total_len - 20) identification flags_and_frament ttl protocol
         src_ip dst_ip).

(** [l[i..i + bytes.len()].copy_from_slice(&bytes)], within bounds. *)
Definition copy_at {A} (l : list A) (i : nat) (bytes : list A) : list A :=
  take i l ++ bytes ++ drop (i + length bytes) l.

Definition ipv4_Header_to_bytes (self : ipv4_Header) (payload_len : Z) : list Z :=
  let result :=
    [0x45] ++ [dscp_and_ecn self] ++ to_be 2 (wrap16 (20 + wrap16 payload_len)) ++
    to_be 2 (identification self) ++ to_be 2 (flags_and_frament self) ++ [ttl self] ++
    [ip_protocol.IpProtocol_discriminant (protocol self)] ++ to_be 2 0 ++
    src_ip self ++ dst_ip self in
  let checksum := inet_checksum result in
  copy_at result 10 (to_be 2 checksum).

Definition ipv4_Packet_from_bytes (input : list Z) : outcome ipv4_Packet :=
  h ← index_range input 0 20;
  header ← ipv4_Header_from_bytes h;
  payload ← index_range input 20 (20 + Z.to_nat (payload_len header));
  Ret (MkIpv4Packet header payload).

(** ** udp.rs *)

Record udp_Header := MkUdpHeader {
  udp_src_port : Z;
  udp_dst_port : Z;
  udp_length : Z;
  udp_checksum : Z;
}.

Record udp_Packet := MkUdpPacket { udp_header : udp_Header; udp_payload : list Z }.

Definition udp_Header_from_bytes (bytes : list Z) : outcome udp_Header :=
  src_port ← be16_at bytes 0;
  dst_port ← be16_at bytes 2;
  length ← be16_at bytes 4;
  checksum ← be16_at bytes 6;
  Ret (MkUdpHeader src_port dst_port length checksum).

Definition udp_Header_to_bytes (self : udp_Header) : list Z :=
  to_be 2 (udp_src_port self) ++ to_be 2 (udp_dst_port self) ++ to_be 2 (udp_length self) ++
  to_be 2 (udp_checksum self).

Definition udp_Packet_from_bytes (bytes : list Z) : outcome udp_Packet :=
  h ← index_range bytes 0 8;
  header ← udp_Header_from_bytes h;
  payload ← index_range bytes 8 (Z.to_nat (udp_length header));
  Ret (MkUdpPacket header payload).

Definition udp_Packet_to_bytes (self : udp_Packet) : outcome (list Z) :=
  let result := udp_Header_to_bytes (udp_header self) ++ udp_payload self in
  _ ← rassert (Z.of_nat (length result) =? udp_length (udp_header self))
        "result.len() == (self.header.length as usize)";
  Ret result.

(** ** tcp/segment.rs *)

(** The bits of [tcpstate::SegmentFlags]: all known ones, and the ones the source names. *)
Class SegmentFlagBits := {
  SF_all : Z;
  SF_SYN : Z;
  SF_ACK : Z;
  SF_FIN : Z;
}.

Record SegmentOptions := MkSegmentOptions { segemnt_max_size : option Z }.

Definition SegmentOptions_empty : SegmentOptions := MkSegmentOptions None.

Fixpoint SegmentOptions_loop (input : list Z) (result : SegmentOptions) : outcome SegmentOptions :=
  match input with
  | [] => Ret result
  | 0 :: _ => Ret result
  | 1 :: input => SegmentOptions_loop input result
  | 2 :: input =>
      match input with
      | b1 :: input =>
          _ ← rassert (b1 =? 4) "assertion failed: input[1] == 4";
          match input with
          | b2 :: b3 :: input => SegmentOptions_loop input (MkSegmentOptions (Some (from_be [b2; b3])))
          | _ => Panic "index out of bounds"
          end
      | [] => Panic "index out of bounds"
      end
  | _ => Panic "Unsupported TCP option"
  end.

Definition SegmentOptions_from_bytes (input : list Z) : outcome SegmentOptions :=
  SegmentOptions_loop input SegmentOptions_empty.

Record SegmentHeader := MkSegmentHeader {
  tcp_src_port : Z;
  tcp_dst_port : Z;
  sequence : Z;
  ack_number : Z;
  flags : Z;
  window_size : Z;
  options : SegmentOptions;
  tcp_checksum : Z;
  offset : nat;
}.

Record Segment := MkSegment { tcp_header : SegmentHeader; tcp_payload : list Z }.

Definition OFFSET_NO_OPTIONS : nat := 20.

(** [u32::from_be_bytes([l[i], l[i + 1], l[i + 2], l[i + 3]])] *)
Definition be32_at (l : list Z) (i : nat) : outcome Z :=
  b0 ← index_at l i;
  b1 ← index_at l (i + 1);
  b2 ← index_at l (i + 2);
  b3 ← index_at l (i + 3);
  Ret (from_be [b0; b1; b2; b3]).

Section tcp.
Context `{!SegmentFlagBits}.

Definition SegmentFlags_from_bits_truncate (bits : Z) : Z := Z.land bits SF_all.
Definition SegmentFlags_contains (self other : Z) : bool := Z.land self other =? other.

Definition SegmentHeader_from_bytes (input : list Z) : outcome SegmentHeader :=
  offset_and_flags ← be16_at input 12;
  let offset := (Z.to_nat (Z.shiftr offset_and_flags 12) * 4)%nat in
  let flags := SegmentFlags_from_bits_truncate (Z.land offset_and_flags 0x1f) in
  option_bytes ← index_range input OFFSET_NO_OPTIONS offset;
  src_port ← be16_at input 0;
  dst_port ← be16_at input 2;
  sequence ← be32_at input 4;
  ack_number ← be32_at input 8;
  window_size ← be16_at input 14;
  options ← SegmentOptions_from_bytes option_bytes;
  Ret (MkSegmentHeader src_port dst_port sequence ack_number flags window_size options 0 offset).

Definition SegmentHeader_to_bytes (self : SegmentHeader) : list Z :=
  let data_offset := wrap16 (Z.shiftl (wrap16 (Z.of_nat (offset self / 4))) 12) in
  let b := Z.lor data_offset (flags self) in
  to_be 2 (tcp_src_port self) ++ to_be 2 (tcp_dst_port self) ++ to_be 4 (sequence self) ++
  to_be 4 (ack_number self) ++ to_be 2 b ++ to_be 2 (window_size self) ++
  to_be 2 (tcp_checksum self) ++ to_be 2 0.

Definition SegmentHeader_is_initialization (self : SegmentHeader) : bool :=
  SegmentFlags_contains (flags self) SF_SYN && negb (SegmentFlags_contains (flags self) SF_ACK).

Definition SegmentHeader_is_initialization_reply (self : SegmentHeader) : bool :=
  SegmentFlags_contains (flags self) SF_SYN && SegmentFlags_contains (flags self) SF_ACK.

Definition SegmentHeader_is_normal (self : SegmentHeader) : bool :=
  SegmentFlags_contains (flags self) SF_ACK &&
  negb (SegmentFlags_contains (flags self) SF_SYN || SegmentFlags_contains (flags self) SF_FIN).

Definition Segment_from_bytes (input : list Z) : outcome Segment :=
  header ← SegmentHeader_from_bytes input;
  payload ← index_from input (offset header);
  Ret (MkSegment header payload).

End tcp.

(** ** builder/ipv4_udp.rs *)

Record udp_Builder := MkUdpBuilder {
  ub_ipv4_header : ipv4_Header;
  ub_udp_header : udp_Header;
  ub_payload : list Z;
}.

Definition udp_Builder_new (src_ip dst_ip : Ipv4Addr) (src_port dst_port : Z) (payload : list Z)
    : udp_Builder :=
  MkUdpBuilder (MkIpv4Header 0 0 0 0 64 ip_protocol.UDP src_ip dst_ip)
    (MkUdpHeader src_port dst_port 0 0) payload.

Definition udp_Builder_build (self : udp_Builder) : list Z :=
  let ip := ub_ipv4_header self in
  let len := wrap16 (8 + Z.of_nat (length (ub_payload self))) in
  let h := MkUdpHeader (udp_src_port (ub_udp_header self)) (udp_dst_port (ub_udp_header self)) len
             (udp_checksum (ub_udp_header self)) in
  let cksm_buf := src_ip ip ++ dst_ip ip ++ [0] ++
    [ip_protocol.IpProtocol_discriminant ip_protocol.UDP] ++ to_be 2 len ++
    udp_Header_to_bytes h ++ ub_payload self in
  let h := MkUdpHeader (udp_src_port h) (udp_dst_port h) (udp_length h) (inet_checksum cksm_buf) in
  let udp_header := udp_Header_to_bytes h in
  ipv4_Header_to_bytes ip (Z.of_nat (length udp_header + length (ub_payload self))) ++
  udp_header ++ ub_payload self.

(** ** builder/ipv4_tcp.rs *)

Record tcp_Builder := MkTcpBuilder {
  tb_ipv4_header : ipv4_Header;
  tb_tcp_header : SegmentHeader;
  tb_payload : list Z;
}.

Definition tcp_Builder_new (src_ip dst_ip : Ipv4Addr)
    (src_port dst_port sequence ack_number window_size flags : Z) (payload : list Z) : tcp_Builder :=
  MkTcpBuilder (MkIpv4Header 0 0 0 0 64 ip_protocol.TCP src_ip dst_ip)
    (MkSegmentHeader src_port dst_port sequence ack_number flags window_size SegmentOptions_empty 0
       OFFSET_NO_OPTIONS) payload.

Definition with_checksum (c : Z) (h : SegmentHeader) : SegmentHeader :=
  MkSegmentHeader (tcp_src_port h) (tcp_dst_port h) (sequence h) (ack_number h) (flags h)
    (window_size h) (options h) c (offset h).

Definition tcp_Builder_build (self : tcp_Builder) : list Z :=
  let ip := tb_ipv4_header self in
  let h := with_checksum 0 (tb_tcp_header self) in
  let cksm_buf := src_ip ip ++ dst_ip ip ++ [0] ++
    [ip_protocol.IpProtocol_discriminant ip_protocol.TCP] ++
    to_be 2 (wrap16 (Z.of_nat (length (SegmentHeader_to_bytes h) + length (tb_payload self)))) ++
    SegmentHeader_to_bytes h ++ tb_payload self in
  let tcp_header := SegmentHeader_to_bytes (with_checksum (inet_checksum cksm_buf) h) in
  ipv4_Header_to_bytes ip (Z.of_nat (length tcp_header + length (tb_payload self))) ++
  tcp_header ++ tb_payload self.

(** ** Big-endian fields *)

Definition hi (x : Z) : Z := (x / 256) mod 256.
Definition lo (x : Z) : Z := x mod 256.

Lemma to_be_2 x : to_be 2 x = [hi x; lo x].
Proof. reflexivity. Qed.

Lemma from_be_2 x : 0 ≤ x < 65536 → from_be [hi x; lo x] = x.
Proof. intros Hx. rewrite <- to_be_2. apply from_be_to_be. cbn. lia. Qed.

Lemma from_be_2_eq b0 b1 x :
  is_byte b0 → is_byte b1 → from_be [b0; b1] = x → [b0; b1] = to_be 2 x.
Proof. intros H0 H1 <-. symmetry. apply (to_be_from_be [b0; b1]). auto. Qed.

Lemma index_range_front {A} (l1 l2 : list A) n :
  length l1 = n → index_range (l1 ++ l2) 0 n = Ret l1.
Proof.
  intros <-. rewrite index_range_ret by (rewrite length_app; lia).
  rewrite sub_slice_app_l by lia. by rewrite sub_slice_all.
Qed.

Lemma index_range_middle {A} (l1 l2 l3 : list A) a b :
  length l1 = a → (a + length l2 = b)%nat → index_range (l1 ++ l2 ++ l3) a b = Ret l2.
Proof.
  intros <- <-. rewrite index_range_ret by (rewrite !length_app; lia).
  rewrite sub_slice_app_r by lia. rewrite Nat.sub_diag, sub_slice_app_l, sub_slice_all by lia. done.
Qed.

(** Takes the byte lists of fixed length apart. *)
Ltac fixed_length :=
  repeat match goal with
  | H : length ?l = ?n |- _ =>
      match n with O => idtac | S _ => idtac | _ => fail 1 end;
      destruct l as [|? l]; [discriminate H|];
      injection H as H
  | H : length ?l = O |- _ => apply nil_length_inv in H; subst l
  end.

(** ** Ethernet frames *)

Definition mac_ok (m : MacAddr) : Prop := length m = 6%nat.
Definition ip_ok (a : Ipv4Addr) : Prop := length a = 4%nat.

Definition frame_ok (f : Frame) : Prop :=
  mac_ok (dst_mac (frame_header f)) ∧ mac_ok (src_mac (frame_header f)).

Lemma Frame_from_bytes_cons d0 d1 d2 d3 d4 d5 s0 s1 s2 s3 s4 s5 e0 e1 rest :
  Frame_from_bytes (d0 :: d1 :: d2 :: d3 :: d4 :: d5 :: s0 :: s1 :: s2 :: s3 :: s4 :: s5 ::
    e0 :: e1 :: rest) =
  (e ← expect (EtherType_try_from (from_be [e0; e1])) "Unknwn EtherType";
   Ret (MkFrame (MkFrameHeader [d0; d1; d2; d3; d4; d5] [s0; s1; s2; s3; s4; s5] e) rest)).
Proof.
  change (Frame_from_bytes _) with
    (header ← (e ← expect (EtherType_try_from (from_be [e0; e1])) "Unknwn EtherType";
       Ret (MkFrameHeader [d0; d1; d2; d3; d4; d5] [s0; s1; s2; s3; s4; s5] e));
     Ret (MkFrame header rest)).
  by destruct (expect _ _).
Qed.

Lemma Frame_round_trip f : frame_ok f → Frame_from_bytes (Frame_to_bytes f) = Ret f.
Proof.
  destruct f as [[d s e] pl]. intros [Hd Hs]. cbn in Hd, Hs. unfold mac_ok in *. fixed_length.
  unfold Frame_to_bytes, FrameHeader_to_bytes, EtherType_to_bytes. rewrite to_be_2.
  cbn [app dst_mac src_mac frame_header frame_payload ethertype].
  rewrite Frame_from_bytes_cons, from_be_2 by apply EtherType_discriminant_range.
  by rewrite EtherType_try_from_discriminant.
Qed.

(** Only serialisations of frames parse. *)
Lemma Frame_from_bytes_inv l f :
  Forall is_byte l → Frame_from_bytes l = Ret f → frame_ok f ∧ l = Frame_to_bytes f.
Proof.
  intros Hl E. do 14 (destruct l as [|? l]; [discriminate E|]).
  rewrite Frame_from_bytes_cons in E. apply outcome_bind_ret in E as (e & He & E).
  apply expect_ret, find_variant_some in He. injection E as <-. split; [by split|].
  do 12 apply Forall_cons in Hl as [_ Hl]. apply Forall_cons in Hl as [H1 [H2 _]%Forall_cons].
  unfold Frame_to_bytes, FrameHeader_to_bytes, EtherType_to_bytes.
  cbn [dst_mac src_mac frame_header frame_payload ethertype].
  rewrite He, <- (from_be_2_eq _ _ _ H1 H2 eq_refl). done.
Qed.

(** ** ARP *)

Definition arp_ok (p : arp_Packet) : Prop :=
  mac_ok (src_hw p) ∧ ip_ok (arp_src_ip p) ∧ mac_ok (dst_hw p) ∧ ip_ok (arp_dst_ip p).

(** A packet parses back from its serialisation, with any padding after it; the protocol type is
    always that of IPv4. *)
Lemma arp_round_trip p pad :
  arp_ok p →
  arp_Packet_from_bytes (arp_Packet_to_bytes p ++ pad) =
    Ret (MkArp ET_Ipv4 (operation p) (src_hw p) (arp_src_ip p) (dst_hw p) (arp_dst_ip p)).
Proof.
  destruct p as [t o sh si dh di]. intros (H1 & H2 & H3 & H4). cbn in *. unfold mac_ok, ip_ok in *.
  fixed_length. by destruct o.
Qed.

(** ** IPv4 *)

Definition ipv4_ok (h : ipv4_Header) : Prop :=
  is_byte (dscp_and_ecn h) ∧ 0 ≤ identification h < 65536 ∧ 0 ≤ flags_and_frament h < 65536 ∧
  is_byte (ttl h) ∧ ip_ok (src_ip h) ∧ ip_ok (dst_ip h) ∧
  Forall is_byte (src_ip h) ∧ Forall is_byte (dst_ip h).

(** The header before the checksum field. *)
Definition ipv4_front (h : ipv4_Header) (len : Z) : list Z :=
  [0x45; dscp_and_ecn h; hi (wrap16 (20 + wrap16 len)); lo (wrap16 (20 + wrap16 len));
   hi (identification h); lo (identification h); hi (flags_and_frament h); lo (flags_and_frament h);
   ttl h; ip_protocol.IpProtocol_discriminant (protocol h)].

Lemma ipv4_Header_to_bytes_eq h len :
  ipv4_Header_to_bytes h len = ipv4_front h len ++
    to_be 2 (inet_checksum (ipv4_front h len ++ [0; 0] ++ src_ip h ++ dst_ip h)) ++
    src_ip h ++ dst_ip h.
Proof.
  unfold ipv4_Header_to_bytes. rewrite !to_be_2. unfold copy_at.
  change (hi 0) with 0. change (lo 0) with 0. reflexivity.
Qed.

Lemma ipv4_Header_from_bytes_eq b0 b1 b2 b3 b4 b5 b6 b7 b8 b9 b10 b11 s0 s1 s2 s3 d0 d1 d2 d3 :
  ipv4_Header_from_bytes [b0; b1; b2; b3; b4; b5; b6; b7; b8; b9; b10; b11;
    s0; s1; s2; s3; d0; d1; d2; d3] =
  (_ ← rassert (Z.shiftr b0 4 =? 4) "Version not Ipv4";
   _ ← rassert (Z.land b0 0xf =? 5) "IHL != 5 (Options not supported)";
   _ ← rassert (20 <=? from_be [b2; b3]) "Packet total_length too small";
   p ← expect (IpProtocol_try_from b9) "Unknown IP protocol";
   Ret (MkIpv4Header b1 (from_be [b2; b3] - 20) (from_be [b4; b5]) (from_be [b6; b7]) b8 p
          [s0; s1; s2; s3] [d0; d1; d2; d3])).
Proof. reflexivity. Qed.

Lemma hi_byte x : is_byte (hi x).
Proof. apply Z.mod_pos_bound. lia. Qed.
Lemma lo_byte x : is_byte (lo x).
Proof. apply Z.mod_pos_bound. lia. Qed.

#[export] Hint Resolve hi_byte lo_byte to_be_bytes : d7.

Lemma ipv4_front_bytes h len : ipv4_ok h → Forall is_byte (ipv4_front h len).
Proof.
  intros (? & ? & ? & ? & _). pose proof (IpProtocol_discriminant_range (protocol h)).
  unfold ipv4_front. rewrite !Forall_cons, Forall_nil. split_and!; auto with d7; done.
Qed.

Lemma ipv4_header_verifies h len :
  ipv4_ok h → inet_checksum (ipv4_Header_to_bytes h len) = 0.
Proof.
  intros Hok. rewrite ipv4_Header_to_bytes_eq. apply checksum_verifies.
  - by exists 5%nat.
  - by apply ipv4_front_bytes.
  - destruct Hok as (_ & _ & _ & _ & _ & _ & ? & ?). by apply Forall_app_2.
Qed.

Definition with_payload_len (len : Z) (h : ipv4_Header) : ipv4_Header :=
  MkIpv4Header (dscp_and_ecn h) len (identification h) (flags_and_frament h) (ttl h) (protocol h)
    (src_ip h) (dst_ip h).

Lemma ipv4_Header_length h len : ip_ok (src_ip h) → ip_ok (dst_ip h) → length (ipv4_Header_to_bytes h len) = 20%nat.
Proof.
  intros Hs Hd. rewrite ipv4_Header_to_bytes_eq, !length_app, to_be_length, Hs, Hd. done.
Qed.

Lemma ipv4_Header_round_trip h len :
  ipv4_ok h → 0 ≤ len < 65516 →
  ipv4_Header_from_bytes (ipv4_Header_to_bytes h len) = Ret (with_payload_len len h).
Proof.
  intros (Hd & Hi & Hf & Ht & Hs & Hdst & _) Hlen. rewrite ipv4_Header_to_bytes_eq.
  set (c := inet_checksum _). rewrite to_be_2. unfold ipv4_front.
  assert (wrap16 (20 + wrap16 len) = 20 + len) as -> by (unfold wrap16; rewrite (Z.mod_small len), Z.mod_small; lia).
  destruct h as [dscp pl id fl t pr s d]. unfold ip_ok in *. cbn [src_ip dst_ip] in *. fixed_length.
  cbn [app dscp_and_ecn identification flags_and_frament ttl protocol src_ip dst_ip].
  rewrite ipv4_Header_from_bytes_eq, !from_be_2 by (cbn in *; lia).
  rewrite IpProtocol_try_from_discriminant. rewrite (proj2 (Z.leb_le 20 _)) by lia.
  by replace (20 + len - 20) with len by lia.
Qed.

Lemma ipv4_round_trip h payload pad :
  ipv4_ok h → Z.of_nat (length payload) < 65516 →
  ipv4_Packet_from_bytes (ipv4_Header_to_bytes h (Z.of_nat (length payload)) ++ payload ++ pad) =
    Ret (MkIpv4Packet (with_payload_len (Z.of_nat (length payload)) h) payload).
Proof.
  intros Hok Hlen. pose proof Hok as (_ & _ & _ & _ & Hs & Hd & _). unfold ipv4_Packet_from_bytes.
  pose proof (ipv4_Header_length h (Z.of_nat (length payload)) Hs Hd) as Hl.
  rewrite index_range_front by done. cbn [mbind outcome_bind].
  rewrite ipv4_Header_round_trip by (done || lia). cbn [mbind outcome_bind payload_len with_payload_len].
  rewrite index_range_middle by (done || lia). done.
Qed.

(** ** UDP *)

Definition is_u16 (x : Z) : Prop := 0 ≤ x < 65536.

Lemma udp_Header_to_bytes_eq h :
  udp_Header_to_bytes h =
    [hi (udp_src_port h); lo (udp_src_port h); hi (udp_dst_port h); lo (udp_dst_port h);
     hi (udp_length h); lo (udp_length h); hi (udp_checksum h); lo (udp_checksum h)].
Proof. reflexivity. Qed.

Lemma udp_Header_round_trip h :
  is_u16 (udp_src_port h) → is_u16 (udp_dst_port h) → is_u16 (udp_length h) →
  is_u16 (udp_checksum h) → udp_Header_from_bytes (udp_Header_to_bytes h) = Ret h.
Proof.
  intros. rewrite udp_Header_to_bytes_eq. unfold udp_Header_from_bytes, be16_at.
  cbn [index_at lookup list_lookup expect mbind outcome_bind]. rewrite !from_be_2 by done. by destruct h.
Qed.

Lemma udp_round_trip h payload pad :
  is_u16 (udp_src_port h) → is_u16 (udp_dst_port h) → is_u16 (udp_length h) →
  is_u16 (udp_checksum h) → udp_length h = 8 + Z.of_nat (length payload) →
  udp_Packet_from_bytes (udp_Header_to_bytes h ++ payload ++ pad) = Ret (MkUdpPacket h payload).
Proof.
  intros ? ? ? ? Hlen. unfold udp_Packet_from_bytes. rewrite index_range_front by done.
  cbn [mbind outcome_bind]. rewrite udp_Header_round_trip by done. cbn [mbind outcome_bind].
  rewrite index_range_middle; [done|done|]. rewrite Hlen. lia.
Qed.

(** The pseudo header the transport checksums cover. *)
Definition pseudo_header (h : ipv4_Header) (len : Z) : list Z :=
  src_ip h ++ dst_ip h ++ [0; ip_protocol.IpProtocol_discriminant (protocol h)] ++ to_be 2 len.

Definition builder_ips (src dst : Ipv4Addr) : Prop :=
  ip_ok src ∧ ip_ok dst ∧ Forall is_byte src ∧ Forall is_byte dst.

Lemma builder_ipv4_ok p src dst : builder_ips src dst → ipv4_ok (MkIpv4Header 0 0 0 0 64 p src dst).
Proof. intros (? & ? & ? & ?). unfold ipv4_ok, is_byte. cbn. split_and!; done. Qed.

(** The header of a UDP packet up to the checksum. *)
Definition udp_front (sp dp len : Z) : list Z := [hi sp; lo sp; hi dp; lo dp; hi len; lo len].

Lemma udp_build_eq src dst sp dp payload :
  let len := 8 + Z.of_nat (length payload) in
  let ip := MkIpv4Header 0 0 0 0 64 ip_protocol.UDP src dst in
  len < 65536 →
  udp_Builder_build (udp_Builder_new src dst sp dp payload) =
    ipv4_Header_to_bytes ip len ++
    udp_Header_to_bytes (MkUdpHeader sp dp len
      (inet_checksum ((pseudo_header ip len ++ udp_front sp dp len) ++ [0; 0] ++ payload))) ++ payload.
Proof.
  intros len ip Hlen. unfold udp_Builder_build, udp_Builder_new. cbn [ub_ipv4_header ub_udp_header
    ub_payload udp_src_port udp_dst_port udp_checksum udp_length src_ip dst_ip].
  assert (wrap16 (8 + Z.of_nat (length payload)) = len) as -> by (apply Z.mod_small; lia).
  rewrite udp_Header_to_bytes_eq. cbn [length app].
  replace (Z.of_nat (8 + length payload)) with len by lia.
  do 3 f_equal. unfold pseudo_header. rewrite <- !(assoc_L (++)). reflexivity.
Qed.

Lemma udp_front_bytes sp dp len : Forall is_byte (udp_front sp dp len).
Proof. unfold udp_front. rewrite !Forall_cons, Forall_nil. split_and!; auto with d7. Qed.

Lemma pseudo_header_bytes h len :
  Forall is_byte (src_ip h) → Forall is_byte (dst_ip h) → Forall is_byte (pseudo_header h len).
Proof.
  intros Hs Hd. unfold pseudo_header. pose proof (IpProtocol_discriminant_range (protocol h)).
  apply Forall_app_2; [done|]. apply Forall_app_2; [done|]. apply Forall_app_2; [|auto with d7].
  rewrite !Forall_cons, Forall_nil. done.
Qed.

Lemma pseudo_header_length h len :
  ip_ok (src_ip h) → ip_ok (dst_ip h) → length (pseudo_header h len) = 12%nat.
Proof. intros Hs Hd. unfold pseudo_header. rewrite !length_app, Hs, Hd, to_be_length. done. Qed.

(** The checksum of a transport header covers the pseudo header and the payload. *)
Lemma transport_verifies h len front back :
  ip_ok (src_ip h) → ip_ok (dst_ip h) → Forall is_byte (src_ip h) → Forall is_byte (dst_ip h) →
  Nat.Even (length front) → Forall is_byte front → Forall is_byte back →
  inet_checksum (pseudo_header h len ++ front ++
    to_be 2 (inet_checksum ((pseudo_header h len ++ front) ++ [0; 0] ++ back)) ++ back) = 0.
Proof.
  intros Hs Hd Hbs Hbd [n Hn] Hf Hb. rewrite (assoc_L (++)). apply checksum_verifies; [|
    apply Forall_app_2; [by apply pseudo_header_bytes|done]|done].
  exists (6 + n)%nat. rewrite length_app, pseudo_header_length, Hn by done. lia.
Qed.

(** ** TCP *)

(** The flag bits the parser keeps. *)
Definition flags_ok `{!SegmentFlagBits} (f : Z) : Prop :=
  0 ≤ f < 32 ∧ SegmentFlags_from_bits_truncate f = f.

Lemma offset_and_flags f :
  0 ≤ f < 32 →
  let b := Z.lor (wrap16 (Z.shiftl (wrap16 (Z.of_nat (OFFSET_NO_OPTIONS / 4))) 12)) f in
  0 ≤ b < 65536 ∧ Z.shiftr b 12 = 5 ∧ Z.land b 0x1f = f.
Proof.
  intros Hf. change (wrap16 _) with 20480. cbv zeta.
  assert (Forall (λ f, 0 ≤ Z.lor 20480 f < 65536 ∧ Z.shiftr (Z.lor 20480 f) 12 = 5 ∧
    Z.land (Z.lor 20480 f) 0x1f = f) (seqZ 0 32)) as Hall.
  { apply (bool_decide_unpack _). vm_compute. done. }
  rewrite Forall_forall in Hall. apply Hall. apply elem_of_seqZ. lia.
Qed.

Definition tcp_front (h : SegmentHeader) : list Z :=
  to_be 2 (tcp_src_port h) ++ to_be 2 (tcp_dst_port h) ++ to_be 4 (sequence h) ++
  to_be 4 (ack_number h) ++
  to_be 2 (Z.lor (wrap16 (Z.shiftl (wrap16 (Z.of_nat (offset h / 4))) 12)) (flags h)) ++
  to_be 2 (window_size h).

Lemma tcp_Header_to_bytes_eq h :
  SegmentHeader_to_bytes h = tcp_front h ++ to_be 2 (tcp_checksum h) ++ [0; 0].
Proof. unfold SegmentHeader_to_bytes, tcp_front. by rewrite <- !(assoc_L (++)). Qed.

Lemma tcp_front_length h : length (tcp_front h) = 16%nat.
Proof. unfold tcp_front. by rewrite !length_app, !to_be_length. Qed.

Lemma tcp_front_bytes h : Forall is_byte (tcp_front h).
Proof. unfold tcp_front. repeat (apply Forall_app_2; [auto with d7|]). auto with d7. Qed.

Definition tcp_ok `{!SegmentFlagBits} (h : SegmentHeader) : Prop :=
  is_u16 (tcp_src_port h) ∧ is_u16 (tcp_dst_port h) ∧ 0 ≤ sequence h < 2 ^ 32 ∧
  0 ≤ ack_number h < 2 ^ 32 ∧ flags_ok (flags h) ∧ is_u16 (window_size h) ∧
  offset h = OFFSET_NO_OPTIONS ∧ options h = SegmentOptions_empty.

Lemma be16_at_app l1 x l2 n :
  length l1 = n → is_u16 x → be16_at (l1 ++ to_be 2 x ++ l2) n = Ret x.
Proof.
  intros <- Hx. unfold be16_at, index_at. rewrite to_be_2.
  rewrite !(lookup_app_r l1), Nat.sub_diag by lia. replace (S (length l1) - length l1)%nat with 1%nat by lia.
  cbn [lookup list_lookup expect mbind outcome_bind app]. by rewrite from_be_2.
Qed.

Lemma be32_at_app l1 x l2 n :
  length l1 = n → 0 ≤ x < 2 ^ 32 → be32_at (l1 ++ to_be 4 x ++ l2) n = Ret x.
Proof.
  intros <- Hx. pose proof (from_be_to_be 4 x ltac:(cbn; lia)) as E.
  pose proof (to_be_length 4 x) as Hl. destruct (to_be 4 x) as [|b0 [|b1 [|b2 [|b3 [|]]]]]; try done.
  unfold be32_at, index_at. rewrite !(lookup_app_r l1) by lia.
  rewrite Nat.sub_diag, !(Nat.add_comm (length l1)), !Nat.add_sub.
  cbn [lookup list_lookup expect mbind outcome_bind app]. by rewrite E.
Qed.

Lemma tcp_round_trip `{!SegmentFlagBits} h payload :
  tcp_ok h → Segment_from_bytes (SegmentHeader_to_bytes h ++ payload) =
    Ret (MkSegment (with_checksum 0 h) payload).
Proof.
  destruct h as [sp dp seq ack fl win opt ck off].
  intros (Hsp & Hdp & Hseq & Hack & [Hf Hft] & Hw & Ho & Hopt).
  cbn [tcp_src_port tcp_dst_port sequence ack_number flags window_size offset options] in *.
  subst off opt.
  pose proof (offset_and_flags fl Hf) as (Hb & Hs & Hl). set (b := Z.lor _ fl) in *.
  unfold SegmentHeader_to_bytes. cbn [tcp_src_port tcp_dst_port sequence ack_number flags window_size
    tcp_checksum offset]. fold b.
  match goal with |- Segment_from_bytes ?l = _ => set (input := l) end.
  pose proof (be16_at_app [] sp (to_be 2 dp ++ to_be 4 seq ++ to_be 4 ack ++ to_be 2 b ++
    to_be 2 win ++ to_be 2 ck ++ to_be 2 0 ++ payload) 0 eq_refl Hsp : be16_at input 0 = _) as E0.
  pose proof (be16_at_app (to_be 2 sp) dp (to_be 4 seq ++ to_be 4 ack ++ to_be 2 b ++ to_be 2 win ++
    to_be 2 ck ++ to_be 2 0 ++ payload) 2 eq_refl Hdp : be16_at input 2 = _) as E2.
  pose proof (be32_at_app (to_be 2 sp ++ to_be 2 dp) seq (to_be 4 ack ++ to_be 2 b ++ to_be 2 win ++
    to_be 2 ck ++ to_be 2 0 ++ payload) 4 eq_refl Hseq : be32_at input 4 = _) as E4.
  pose proof (be32_at_app (to_be 2 sp ++ to_be 2 dp ++ to_be 4 seq) ack (to_be 2 b ++ to_be 2 win ++
    to_be 2 ck ++ to_be 2 0 ++ payload) 8 eq_refl Hack : be32_at input 8 = _) as E8.
  pose proof (be16_at_app (to_be 2 sp ++ to_be 2 dp ++ to_be 4 seq ++ to_be 4 ack) b (to_be 2 win ++
    to_be 2 ck ++ to_be 2 0 ++ payload) 12 eq_refl Hb : be16_at input 12 = _) as E12.
  pose proof (be16_at_app (to_be 2 sp ++ to_be 2 dp ++ to_be 4 seq ++ to_be 4 ack ++ to_be 2 b) win
    (to_be 2 ck ++ to_be 2 0 ++ payload) 14 eq_refl Hw : be16_at input 14 = _) as E14.
  assert (index_range input OFFSET_NO_OPTIONS OFFSET_NO_OPTIONS = Ret []) as Eo by reflexivity.
  assert (index_from input OFFSET_NO_OPTIONS = Ret payload) as Ep by reflexivity.
  unfold Segment_from_bytes, SegmentHeader_from_bytes. rewrite E12. cbn [mbind outcome_bind].
  rewrite Hs, Hl, Hft. change (Z.to_nat 5 * 4)%nat with OFFSET_NO_OPTIONS. rewrite Eo.
  cbn [mbind outcome_bind]. rewrite E0, E2, E4, E8, E14. cbn [mbind outcome_bind].
  cbn [SegmentOptions_from_bytes SegmentOptions_loop mbind outcome_bind offset]. by rewrite Ep.
Qed.

Lemma tcp_build_eq src dst sp dp seq ack win fl payload :
  let len := 20 + Z.of_nat (length payload) in
  let ip := MkIpv4Header 0 0 0 0 64 ip_protocol.TCP src dst in
  let h := MkSegmentHeader sp dp seq ack fl win SegmentOptions_empty 0 OFFSET_NO_OPTIONS in
  len < 65536 →
  tcp_Builder_build (tcp_Builder_new src dst sp dp seq ack win fl payload) =
    ipv4_Header_to_bytes ip len ++
    SegmentHeader_to_bytes (with_checksum
      (inet_checksum ((pseudo_header ip len ++ tcp_front h) ++ [0; 0] ++ [0; 0] ++ payload)) h) ++
    payload.
Proof.
  intros len ip h Hlen. unfold tcp_Builder_build, tcp_Builder_new.
  cbn [tb_ipv4_header tb_tcp_header tb_payload src_ip dst_ip]. fold ip h.
  assert (∀ c, length (SegmentHeader_to_bytes (with_checksum c h)) = 20%nat) as Hl by done.
  rewrite !Hl. replace (Z.of_nat (20 + length payload)) with len by lia.
  assert (wrap16 len = len) as -> by (apply Z.mod_small; lia).
  assert (SegmentHeader_to_bytes (with_checksum 0 h) = tcp_front h ++ [0; 0] ++ [0; 0]) as E.
  { by rewrite tcp_Header_to_bytes_eq. }
  rewrite E. do 4 f_equal. unfold pseudo_header. by rewrite <- !(assoc_L (++)).
Qed.

(** The header of a datagram built from [payload]. *)
Definition built_header (src dst : Ipv4Addr) (sp dp : Z) (payload : list Z) : udp_Header :=
  let len := 8 + Z.of_nat (length payload) in
  MkUdpHeader sp dp len (inet_checksum ((pseudo_header
    (MkIpv4Header 0 0 0 0 64 ip_protocol.UDP src dst) len ++ udp_front sp dp len) ++ [0; 0] ++ payload)).

Lemma udp_build_parses src dst sp dp payload pad :
  builder_ips src dst → is_u16 sp → is_u16 dp → Forall is_byte payload →
  Z.of_nat (length payload) ≤ 65507 →
  let h := built_header src dst sp dp payload in
  let ip := with_payload_len (udp_length h) (MkIpv4Header 0 0 0 0 64 ip_protocol.UDP src dst) in
  ipv4_Packet_from_bytes (udp_Builder_build (udp_Builder_new src dst sp dp payload) ++ pad) =
    Ret (MkIpv4Packet ip (udp_Header_to_bytes h ++ payload)) ∧
  udp_Packet_from_bytes (udp_Header_to_bytes h ++ payload) = Ret (MkUdpPacket h payload).
Proof.
  intros Hips Hsp Hdp Hpl Hlen h ip. pose proof (builder_ipv4_ok ip_protocol.UDP src dst Hips) as Hok.
  destruct Hips as (Hs & Hd & Hbs & Hbd).
  assert (is_u16 (udp_checksum h)) as Hc.
  { apply inet_checksum_range. apply Forall_app_2; [apply Forall_app_2;
      [by apply pseudo_header_bytes|apply udp_front_bytes]|].
    apply Forall_app_2; [all_bytes|done]. }
  assert (udp_length h = Z.of_nat (length (udp_Header_to_bytes h ++ payload))) as Hl.
  { rewrite length_app, udp_Header_to_bytes_eq. cbn [length].
    change (udp_length h) with (8 + Z.of_nat (length payload)). lia. }
  assert (8 ≤ udp_length h < 65516) as Hb.
  { change (udp_length h) with (8 + Z.of_nat (length payload)). lia. }
  assert (is_u16 (udp_length h)) as Hu by (unfold is_u16; lia). split.
  - rewrite udp_build_eq by lia. fold (built_header src dst sp dp payload). fold h.
    change (8 + Z.of_nat (length payload)) with (udp_length h).
    rewrite <- app_assoc, Hl, ipv4_round_trip by (done || lia). by rewrite <- Hl.
  - rewrite <- (app_nil_r payload) at 1. by apply udp_round_trip.
Qed.

(** ** Properties *)

(** Parsing an Ethernet frame is the inverse of serialising it: the bytes that parse are
    exactly the serialisations of frames, everything else (short input, unknown type) panics.  An
    ARP packet parses back from its frame, with the IPv4 protocol type, whatever padding follows. *)
Theorem frame_round_trip l f p pad
    (Hl : Forall is_byte l) (Hp : arp_ok p) :
  (Frame_from_bytes l = Ret f ↔ frame_ok f ∧ l = Frame_to_bytes f) ∧
  arp_Packet_from_bytes (arp_Packet_to_bytes p ++ pad) =
    Ret (MkArp ET_Ipv4 (operation p) (src_hw p) (arp_src_ip p) (dst_hw p) (arp_dst_ip p)).
Proof.
  split; [|by apply arp_round_trip]. split; [by apply Frame_from_bytes_inv|].
  intros [Hok ->]. by apply Frame_round_trip.
Qed.

Lemma frame_round_trip_witness :
  Frame_from_bytes ([255; 255; 255; 255; 255; 255; 1; 2; 3; 4; 5; 6; 8; 6] ++
    arp_Packet_to_bytes (MkArp ET_Ipv4 Request [1; 2; 3; 4; 5; 6] [10; 0; 2; 2]
      [0; 0; 0; 0; 0; 0] [10; 0; 2; 15])) =
  Ret (MkFrame (MkFrameHeader MacAddr_BROADCAST [1; 2; 3; 4; 5; 6] ET_ARP)
    (arp_Packet_to_bytes (MkArp ET_Ipv4 Request [1; 2; 3; 4; 5; 6] [10; 0; 2; 2]
      [0; 0; 0; 0; 0; 0] [10; 0; 2; 15]))).
Proof.
  apply (frame_round_trip
    ([255; 255; 255; 255; 255; 255; 1; 2; 3; 4; 5; 6; 8; 6] ++
      arp_Packet_to_bytes (MkArp ET_Ipv4 Request [1; 2; 3; 4; 5; 6] [10; 0; 2; 2]
        [0; 0; 0; 0; 0; 0] [10; 0; 2; 15])) _
    (MkArp ET_Ipv4 Request [1; 2; 3; 4; 5; 6] [10; 0; 2; 2] [0; 0; 0; 0; 0; 0] [10; 0; 2; 15]) []).
  - all_bytes.
  - repeat split.
  - split; [repeat split|reflexivity].
Defined.

(** A datagram built for sending arrives: whatever padding the link adds, the receiver finds
    the addresses, ports and payload it was built from, and both the header checksum and the
    checksum over pseudo header, header and payload verify. *)
Theorem datagram_round_trip src dst sp dp payload pad
    (Hips : builder_ips src dst) (Hsp : is_u16 sp) (Hdp : is_u16 dp)
    (Hpl : Forall is_byte payload) (Hlen : Z.of_nat (length payload) ≤ 65507) :
  let bytes := udp_Builder_build (udp_Builder_new src dst sp dp payload) in
  ∃ ip udp, ipv4_Packet_from_bytes (bytes ++ pad) = Ret ip ∧
    udp_Packet_from_bytes (ipv4_payload ip) = Ret udp ∧
    protocol (ipv4_header ip) = ip_protocol.UDP ∧
    src_ip (ipv4_header ip) = src ∧ dst_ip (ipv4_header ip) = dst ∧
    udp_src_port (udp_header udp) = sp ∧ udp_dst_port (udp_header udp) = dp ∧
    udp_payload udp = payload ∧ inet_checksum (take 20 bytes) = 0 ∧
    inet_checksum (pseudo_header (ipv4_header ip) (udp_length (udp_header udp)) ++
      ipv4_payload ip) = 0.
Proof.
  destruct (udp_build_parses src dst sp dp payload pad Hips Hsp Hdp Hpl Hlen) as [E1 E2].
  eexists _, _. split; [exact E1|]. split; [exact E2|]. split_and!; try done.
  - pose proof (builder_ipv4_ok ip_protocol.UDP src dst Hips) as Hok. destruct Hips as (Hs & Hd & _).
    rewrite udp_build_eq by lia.
    rewrite take_app_le by (by rewrite ipv4_Header_length). rewrite take_ge by (by rewrite ipv4_Header_length).
    by apply ipv4_header_verifies.
  - destruct Hips as (Hs & Hd & Hbs & Hbd).
    apply (transport_verifies (MkIpv4Header 0 0 0 0 64 ip_protocol.UDP src dst)
      (8 + Z.of_nat (length payload)) (udp_front sp dp (8 + Z.of_nat (length payload))) payload); try done;
      [by exists 3%nat|]. apply udp_front_bytes.
Qed.

Lemma datagram_round_trip_witness :
  ∃ ip udp, ipv4_Packet_from_bytes (udp_Builder_build
      (udp_Builder_new [10; 0; 2; 15] [1; 1; 1; 1] 54 53 [1; 2; 3]) ++ [0; 0]) = Ret ip ∧
    udp_Packet_from_bytes (ipv4_payload ip) = Ret udp ∧ udp_payload udp = [1; 2; 3].
Proof.
  destruct (datagram_round_trip [10; 0; 2; 15] [1; 1; 1; 1] 54 53 [1; 2; 3] [0; 0])
    as (ip & udp & H1 & H2 & _ & _ & _ & _ & _ & H3 & _).
  - repeat split; all_bytes.
  - unfold is_u16. lia.
  - unfold is_u16. lia.
  - all_bytes.
  - cbn. lia.
  - exists ip, udp. exact (conj H1 (conj H2 H3)).
Defined.

(** A TCP segment built for sending arrives: the receiver finds the addresses, ports, sequence
    and acknowledgement numbers, flags, window and payload, and both checksums verify. *)
Theorem segment_round_trip `{!SegmentFlagBits} src dst sp dp seq ack win fl payload pad
    (Hips : builder_ips src dst) (Hsp : is_u16 sp) (Hdp : is_u16 dp)
    (Hseq : 0 ≤ seq < 2 ^ 32) (Hack : 0 ≤ ack < 2 ^ 32) (Hwin : is_u16 win) (Hfl : flags_ok fl)
    (Hpl : Forall is_byte payload) (Hlen : Z.of_nat (length payload) ≤ 65495) :
  let bytes := tcp_Builder_build (tcp_Builder_new src dst sp dp seq ack win fl payload) in
  ∃ ip seg, ipv4_Packet_from_bytes (bytes ++ pad) = Ret ip ∧
    Segment_from_bytes (ipv4_payload ip) = Ret seg ∧
    protocol (ipv4_header ip) = ip_protocol.TCP ∧
    src_ip (ipv4_header ip) = src ∧ dst_ip (ipv4_header ip) = dst ∧
    tcp_header seg =
      MkSegmentHeader sp dp seq ack fl win SegmentOptions_empty 0 OFFSET_NO_OPTIONS ∧
    tcp_payload seg = payload ∧ inet_checksum (take 20 bytes) = 0 ∧
    inet_checksum (pseudo_header (ipv4_header ip) (Z.of_nat (length (ipv4_payload ip))) ++
      ipv4_payload ip) = 0.
Proof.
  cbv zeta. rewrite tcp_build_eq by lia. set (len := 20 + Z.of_nat (length payload)).
  set (hip := MkIpv4Header 0 0 0 0 64 ip_protocol.TCP src dst).
  set (h0 := MkSegmentHeader sp dp seq ack fl win SegmentOptions_empty 0 OFFSET_NO_OPTIONS).
  assert (ipv4_ok hip) as Hok by (by apply builder_ipv4_ok). destruct Hips as (Hs & Hd & Hbs & Hbd).
  set (c := inet_checksum _). set (h := with_checksum c h0).
  assert (len = Z.of_nat (length (SegmentHeader_to_bytes h ++ payload))) as Hl.
  { rewrite length_app, tcp_Header_to_bytes_eq, !length_app, tcp_front_length, to_be_length.
    unfold len. cbn [length]. lia. }
  rewrite <- (assoc_L (++)), Hl, ipv4_round_trip by (done || lia).
  eexists _, (MkSegment (with_checksum 0 h) payload). split; [reflexivity|]. cbn [ipv4_payload].
  split; [by apply tcp_round_trip|]. split_and!; try done.
  - rewrite take_app_le by (by rewrite ipv4_Header_length). rewrite take_ge by (by rewrite ipv4_Header_length).
    by apply ipv4_header_verifies.
  - rewrite <- Hl, tcp_Header_to_bytes_eq, <- !(assoc_L (++)).
    apply (transport_verifies hip len (tcp_front h0) ([0; 0] ++ payload)); try done.
    + rewrite tcp_front_length. by exists 8%nat.
    + apply tcp_front_bytes.
    + apply Forall_app_2; [all_bytes|done].
Qed.

Definition example_flags : SegmentFlagBits := {| SF_all := 0x1f; SF_SYN := 2; SF_ACK := 16; SF_FIN := 1 |}.

Lemma segment_round_trip_witness :
  ∃ ip seg, ipv4_Packet_from_bytes (tcp_Builder_build
      (tcp_Builder_new [10; 0; 2; 15] [1; 1; 1; 1] 49152 80 1000 0 4096 2 [])) = Ret ip ∧
    @Segment_from_bytes example_flags (ipv4_payload ip) = Ret seg ∧
    flags (tcp_header seg) = 2.
Proof.
  destruct (@segment_round_trip example_flags [10; 0; 2; 15] [1; 1; 1; 1]
    49152 80 1000 0 4096 2 [] []) as (ip & seg & H1 & H2 & _ & _ & _ & H3 & _).
  - repeat split; all_bytes.
  - unfold is_u16. lia.
  - unfold is_u16. lia.
  - lia.
  - lia.
  - unfold is_u16. lia.
  - split; [lia|reflexivity].
  - constructor.
  - cbn. lia.
  - exists ip, seg. rewrite app_nil_r in H1. rewrite H3. exact (conj H1 (conj H2 eq_refl)).
Defined.
