(* ===== verification/Dns.v ===== *)
(** * Dns: questions and replies of the domain name system (libs/d7net/src/dns.rs)

    A domain is a list of bytes, a name read from a packet a list of characters.  Compression
    pointers make reading a name a loop that need not end, so it runs on fuel: [None] is out of
    fuel, [Some] the value or the panic.  The library is built without debug assertions. *)

From stdpp Require Import base list strings.
From Stdlib Require Import ZArith Lia.
From S2P Require Import Prelude Bytes Net NetPackets.
Open Scope Z_scope.

(** ** Fuel *)

Definition fuelled (A : Type) : Type := option (outcome A).

#[global] Instance fuelled_ret : MRet fuelled := λ A a, Some (Ret a).
#[global] Instance fuelled_bind : MBind fuelled := λ A B f m,
  match m with
  | Some (Ret a) => f a
  | Some (Panic w) => Some (Panic w)
  | None => None
  end.

Definition now {A} (m : outcome A) : fuelled A := Some m.
Definition crash {A} (why : string) : fuelled A := Some (Panic why).

(** ** Message types *)

Inductive RCode :=
| RC_Success
| RC_FormatError
| RC_ServerError
| RC_NxDomain
| RC_NotSupported
| RC_Refused.

Definition RCode_discriminant (r : RCode) : Z :=
  match r with
  | RC_Success => 0
  | RC_FormatError => 1
  | RC_ServerError => 2
  | RC_NxDomain => 3
  | RC_NotSupported => 4
  | RC_Refused => 5
  end.

Definition RCode_try_from_primitive (n : Z) : option RCode :=
  find_variant RCode_discriminant
    [RC_Success; RC_FormatError; RC_ServerError; RC_NxDomain; RC_NotSupported; RC_Refused] n.

Inductive QueryType := QT_A | QT_NS | QT_CNAME | QT_MX | QT_AAAA.

#[global] Instance QueryType_eq_dec : EqDecision QueryType.
Proof. solve_decision. Defined.

Definition QueryType_discriminant (q : QueryType) : Z :=
  match q with
  | QT_A => 0x0001
  | QT_NS => 0x0002
  | QT_CNAME => 0x0005
  | QT_MX => 0x000f
  | QT_AAAA => 0x001c
  end.

Definition QueryType_try_from_primitive (n : Z) : option QueryType :=
  find_variant QueryType_discriminant [QT_A; QT_NS; QT_CNAME; QT_MX; QT_AAAA] n.

Inductive QueryResult :=
| QR_A (a : Ipv4Addr)
| QR_AAAA (a : Ipv6Addr)
| QR_NS (name : list Z)
| QR_CNAME (name : list Z)
| QR_MX (priority : Z) (domain : list Z).

Definition QueryResult_query (self : QueryResult) : QueryType :=
  match self with
  | QR_A _ => QT_A
  | QR_AAAA _ => QT_AAAA
  | QR_NS _ => QT_NS
  | QR_CNAME _ => QT_CNAME
  | QR_MX _ _ => QT_MX
  end.

(** [TTL] is the number of seconds; [Err tt] is [NxDomain]. *)
Record Reply := MkReply {
  req_id : Z;
  query : list Z * QueryType;
  records : result (list (list Z * Z * QueryResult)) unit;
}.

(** ** Questions *)

(** The loop over the segments of the domain. *)
Fixpoint question_labels (segs : list (list Z)) : outcome (list Z) :=
  match segs with
  | [] => Ret []
  | seg :: segs =>
      _ ← rassert (negb (length seg =? 0)%nat) "!seg.is_empty()";
      _ ← rassert (forallb (λ b, b <? 128) seg) "seg.is_ascii()";
      _ ← rassert (length seg <? 64)%nat "seg.len() < 64";
      rest ← question_labels segs;
      Ret (Z.of_nat (length seg) :: seg ++ rest)
  end.

Definition make_question (reg_id : Z) (domain : list Z) (qtype : QueryType) : outcome (list Z) :=
  labels ← question_labels (split_bytes 46 domain);
  Ret (to_be 2 reg_id ++ to_be 2 (Z.shiftl 1 8) ++ to_be 2 1 ++ to_be 2 0 ++ to_be 2 0 ++ to_be 2 0 ++
       labels ++ [0] ++ to_be 2 (QueryType_discriminant qtype) ++ to_be 2 1).

(** ** Names *)

Fixpoint read_name_loop (fuel : nat) (index : nat) (data name : list Z) (non_compressed_len : nat)
    (in_compressed : bool) : fuelled (list Z * nat) :=
  match fuel with
  | O => None
  | S fuel =>
      b ← now (index_at data index);
      let compressed := negb (Z.land b 0xc0 =? 0) in
      '(index, in_compressed, non_compressed_len) ←
        (if compressed return fuelled (nat * bool * nat) then
           b1 ← now (index_at data (index + 1));
           let start := from_be [b; b1] in
           mret (Z.to_nat (Z.land start 0x3fff), true,
                 if in_compressed then non_compressed_len else (non_compressed_len + 2)%nat)
         else mret (index, in_compressed, non_compressed_len));
      seg_len ← now (index_at data index);
      _ ← now (rassert (Z.land seg_len (Z.lnot 0x3f) =? 0) "seg_len & !0x3f == 0");
      let seg_len := Z.to_nat seg_len in
      let index := (index + 1)%nat in
      let non_compressed_len := if (in_compressed : bool) then non_compressed_len else (non_compressed_len + 1)%nat in
      if (seg_len =? 0)%nat then mret (name, non_compressed_len)
      else
        let name := match name with [] => [] | _ => name ++ [46] end in
        seg ← now (mapM (λ offset, index_at data (index + offset)) (seq 0 seg_len));
        read_name_loop fuel (index + seg_len) data (name ++ seg)
          (if in_compressed then non_compressed_len else (non_compressed_len + seg_len)%nat) in_compressed
  end.

Definition read_name (fuel index : nat) (data : list Z) : fuelled (list Z * nat) :=
  read_name_loop fuel index data [] 0 false.

(** ** Replies *)

(** [buf.copy_from_slice(&data[i..i + n])] and [from_be_bytes(buf)] *)
Definition slice_be (n : nat) (data : list Z) (i : nat) : outcome Z :=
  s ← index_range data i (i + n);
  Ret (from_be s).

(** The [for] loop over the answers. *)
Fixpoint answers_loop (count fuel : nat) (i : nat) (data : list Z)
    (records : list (list Z * Z * QueryResult)) : fuelled (list (list Z * Z * QueryResult)) :=
  match count with
  | O => mret records
  | S count =>
      '(name, size) ← read_name fuel i data;
      let i := (i + size)%nat in
      qtype ← now (slice_be 2 data i);
      let i := (i + 2)%nat in
      class ← now (slice_be 2 data i);
      let i := (i + 2)%nat in
      ttl ← now (slice_be 4 data i);
      let i := (i + 4)%nat in
      payload_len ← now (slice_be 2 data i);
      let payload_len := Z.to_nat payload_len in
      let i := (i + 2)%nat in
      let payload_start := i in
      payload ← now (index_range data i (i + payload_len));
      let i := (i + payload_len)%nat in
      if negb (class =? 1) then answers_loop count fuel i data records
      else match QueryType_try_from_primitive qtype with
      | None => answers_loop count fuel i data records
      | Some QT_A =>
          _ ← now (rassert (payload_len =? 4)%nat "Invalid A record payload size");
          a ← now (Ipv4Addr_from_bytes payload);
          answers_loop count fuel i data (records ++ [(name, ttl, QR_A a)])
      | Some QT_AAAA =>
          _ ← now (rassert (payload_len =? 16)%nat "Invalid A record payload size");
          a ← now (Ipv6Addr_from_bytes payload);
          answers_loop count fuel i data (records ++ [(name, ttl, QR_AAAA a)])
      | Some QT_MX =>
          p ← now (index_range payload 0 2);
          '(domain, _) ← read_name fuel (payload_start + 2) data;
          answers_loop count fuel i data (records ++ [(name, ttl, QR_MX (from_be p) domain)])
      | Some _ => answers_loop count fuel i data records
      end
  end.

(** The query section: name, type and where it ends. *)
Definition query_section (fuel : nat) (data : list Z) : fuelled (list Z * QueryType * nat) :=
  count_qd ← now (slice_be 2 data 4);
  _ ← now (rassert (count_qd =? 1) "count_qd == 1");
  '(query_name, size) ← read_name fuel 12 data;
  let i := (12 + size)%nat in
  qtype ← now (slice_be 2 data i);
  query_type ← now (expect (QueryType_try_from_primitive qtype) "Unknown query type reply");
  mret (query_name, query_type, (i + 4)%nat).

Definition parse_reply (fuel : nat) (data : list Z) : fuelled (result Reply string) :=
  req_id ← now (slice_be 2 data 0);
  flags ← now (slice_be 2 data 2);
  if Z.land flags (Z.shiftl 1 15) =? 0 then mret (Err "Not a reply")
  else if negb (Z.land flags (Z.shiftl 1 9) =? 0) then mret (Err "Truncated")
  else if Z.land flags (Z.shiftl 1 7) =? 0 then mret (Err "Could not recurse")
  else match RCode_try_from_primitive (Z.land (flags mod 256) 0x0f) with
  | None => mret (Err "Invalid rcode")
  | Some RC_Success =>
      (* the counts are read before the query section *)
      _ ← now (slice_be 2 data 4);
      count_an ← now (slice_be 2 data 6);
      _ ← now (slice_be 2 data 8);
      _ ← now (slice_be 2 data 10);
      '(query_name, query_type, i) ← query_section fuel data;
      records ← answers_loop (Z.to_nat count_an) fuel i data [];
      mret (Ok (MkReply req_id (query_name, query_type) (Ok records)))
  | Some RC_FormatError => mret (Err "Format error")
  | Some RC_ServerError => mret (Err "Server error")
  | Some RC_NxDomain =>
      '(query_name, query_type, _) ← query_section fuel data;
      mret (Ok (MkReply req_id (query_name, query_type) (Err tt)))
  | Some RC_NotSupported => mret (Err "Server does not support this")
  | Some RC_Refused => mret (Err "Server refused")
  end.

(** ** Labels *)

Definition label_ok (s : list Z) : Prop := (0 < length s < 64)%nat.

Definition encode_labels (labels : list (list Z)) : list Z :=
  concat ((λ s, Z.of_nat (length s) :: s) <$> labels).

Lemma question_labels_ret segs l :
  question_labels segs = Ret l → Forall label_ok segs ∧ l = encode_labels segs.
Proof.
  revert l. induction segs as [|s segs IH]; intros l E; cbn [question_labels] in E.
  { injection E as <-. done. }
  apply outcome_bind_ret in E as ([] & H1%rassert_ret & E).
  apply outcome_bind_ret in E as ([] & _ & E).
  apply outcome_bind_ret in E as ([] & H3%rassert_ret & E).
  apply outcome_bind_ret in E as (rest & [Hs ->]%IH & E). injection E as <-.
  apply negb_true_iff, Nat.eqb_neq in H1. apply Nat.ltb_lt in H3.
  split; [constructor; [unfold label_ok; lia|done]|]. done.
Qed.

(** The name with one more segment. *)
Definition push_segment (name seg : list Z) : list Z :=
  match name with [] => [] | _ => name ++ [46] end ++ seg.

Lemma small_length n :
  (n < 64)%nat → Z.land (Z.of_nat n) 0xc0 = 0 ∧ Z.land (Z.of_nat n) (Z.lnot 0x3f) = 0.
Proof.
  intros Hn. assert (Forall (λ n, Z.land n 0xc0 = 0 ∧ Z.land n (Z.lnot 0x3f) = 0) (seqZ 0 64)) as Hall.
  { apply (bool_decide_unpack _). vm_compute. exact I. }
  rewrite Forall_forall in Hall. apply Hall. apply elem_of_seqZ. lia.
Qed.

Lemma mapM_index (l1 s l2 : list Z) n :
  length l1 = n →
  mapM (λ o, index_at (l1 ++ s ++ l2) (n + o)) (seq 0 (length s)) = Ret s.
Proof.
  intros <-. assert (∀ s1 s2, s = s1 ++ s2 →
    mapM (λ o, index_at (l1 ++ s ++ l2) (length l1 + o)) (seq (length s1) (length s2)) = Ret s2) as H.
  { intros s1 s2. revert s1. induction s2 as [|x s2 IH]; intros s1 Hs; [done|]. cbn [length seq mapM].
    assert (index_at (l1 ++ s ++ l2) (length l1 + length s1) = Ret x) as ->.
    { unfold index_at. rewrite lookup_app_r by lia. rewrite Nat.add_comm, Nat.add_sub.
      rewrite Hs, <- (assoc_L (++)). cbn [app]. by rewrite list_lookup_middle. }
    cbn [mbind outcome_bind]. specialize (IH (s1 ++ [x])). rewrite length_app, Nat.add_1_r in IH.
    rewrite IH by (by rewrite <- (assoc_L (++))). done. }
  by apply (H [] s).
Qed.

Lemma index_at_app (l1 l2 : list Z) x n : length l1 = n → index_at (l1 ++ x :: l2) n = Ret x.
Proof. intros <-. unfold index_at. by rewrite list_lookup_middle. Qed.

(** One segment of a name. *)
Lemma read_name_segment fuel pre s post name n c :
  label_ok s →
  read_name_loop (S fuel) (length pre) (pre ++ (Z.of_nat (length s) :: s) ++ post) name n c =
  read_name_loop fuel (length (pre ++ Z.of_nat (length s) :: s))
    (pre ++ (Z.of_nat (length s) :: s) ++ post) (push_segment name s)
    (if c then n else n + length (Z.of_nat (length s) :: s))%nat c.
Proof.
  intros [Hpos Hlt]. destruct (small_length _ Hlt) as [H1 H2]. cbn [read_name_loop app].
  assert (index_at (pre ++ Z.of_nat (length s) :: s ++ post) (length pre) = Ret (Z.of_nat (length s)))
    as Hi by (by apply index_at_app).
  rewrite Hi. cbn [now mbind fuelled_bind mret fuelled_ret]. rewrite H1.
  cbn [Z.eqb negb mbind fuelled_bind mret fuelled_ret]. rewrite Hi.
  cbn [now mbind fuelled_bind mret fuelled_ret]. rewrite H2. cbn [Z.eqb rassert]. rewrite Nat2Z.id.
  rewrite (proj2 (Nat.eqb_neq _ _)) by lia.
  pose proof (mapM_index (pre ++ [Z.of_nat (length s)]) s post (length pre + 1)) as Hm.
  rewrite <- (assoc_L (++)) in Hm. cbn [app] in Hm. rewrite Hm by (by rewrite length_app).
  cbn [now mbind fuelled_bind]. rewrite length_app. cbn [length]. unfold push_segment.
  replace (length pre + 1 + length s)%nat with (length pre + S (length s))%nat by lia.
  destruct c; [done|]. by replace (n + 1 + length s)%nat with (n + S (length s))%nat by lia.
Qed.

Lemma read_name_labels labels fuel pre post name n c :
  Forall label_ok labels → (length labels < fuel)%nat →
  read_name_loop fuel (length pre) (pre ++ encode_labels labels ++ 0 :: post) name n c =
  Some (Ret (foldl push_segment name labels,
    if c then n else n + length (encode_labels labels) + 1)%nat).
Proof.
  intros Hl. revert fuel pre name n. induction Hl as [|s labels Hs Hl IH]; intros fuel pre name n Hf;
    (destruct fuel as [|fuel]; [cbn in Hf; lia|]).
  - cbn [encode_labels fmap list_fmap concat app read_name_loop].
    assert (index_at (pre ++ 0 :: post) (length pre) = Ret 0) as Hi by (by apply index_at_app).
    rewrite Hi. cbn [now mbind fuelled_bind mret fuelled_ret]. change (Z.land 0 0xc0) with 0.
    cbn [Z.eqb negb mbind fuelled_bind mret fuelled_ret]. rewrite Hi.
    change (Z.land 0 (Z.lnot 0x3f) =? 0) with true. change (Z.to_nat 0 =? 0)%nat with true.
    cbn. destruct c; [done|]. by rewrite Nat.add_0_r.
  - cbn [encode_labels fmap list_fmap concat]. fold (encode_labels labels). rewrite <- (assoc_L (++)).
    rewrite read_name_segment by done. rewrite (assoc_L (++) pre).
    rewrite IH by (cbn in Hf; lia). cbn [foldl]. do 3 f_equal. destruct c; [done|]. rewrite length_app. lia.
Qed.

(** Joining the segments of a domain gives the domain back. *)
Lemma push_segments name labels :
  name ≠ [] → Forall label_ok labels →
  foldl push_segment name labels = name ++ concat ((λ s, 46 :: s) <$> labels).
Proof.
  intros Hn Hl. revert name Hn. induction Hl as [|s labels Hs Hl IH]; intros name Hn; cbn [foldl].
  { by rewrite app_nil_r. }
  assert (push_segment name s = name ++ 46 :: s) as ->.
  { unfold push_segment. destruct name; [done|]. by rewrite <- (assoc_L (++)). }
  rewrite IH by (by destruct name). cbn. by rewrite <- (assoc_L (++)).
Qed.

Lemma split_concat d s ss :
  split_bytes 46 d = s :: ss → s ++ concat ((λ s, 46 :: s) <$> ss) = d.
Proof.
  revert s ss. induction d as [|b d IH]; intros s ss E; cbn [split_bytes] in E.
  { by injection E as <- <-. }
  pose proof (split_bytes_ne 46 d) as Hne. destruct (split_bytes 46 d) as [|s' ss'] eqn:Ed; [done|].
  specialize (IH s' ss' eq_refl). destruct (Z.eqb_spec b 46) as [->|]; injection E as <- <-; cbn in *;
    by rewrite IH.
Qed.

Lemma name_of_domain d :
  Forall label_ok (split_bytes 46 d) → foldl push_segment [] (split_bytes 46 d) = d.
Proof.
  pose proof (split_bytes_ne 46 d) as Hne. intros Hl.
  destruct (split_bytes 46 d) as [|s ss] eqn:E; [done|]. apply Forall_cons in Hl as [Hs Hl].
  cbn [foldl]. change (push_segment [] s) with s. rewrite push_segments, (split_concat d s ss E); [done| |done].
  unfold label_ok in Hs. by destruct s; [cbn in Hs; lia|].
Qed.

(** ** Answers *)

(** An address record that refers to the name in the question. *)
Definition a_record (r : Z * Ipv4Addr) : list Z :=
  [0xc0; 12] ++ to_be 2 1 ++ to_be 2 1 ++ to_be 4 r.1 ++ to_be 2 4 ++ r.2.

Definition a_record_ok (r : Z * Ipv4Addr) : Prop := 0 ≤ r.1 < 2 ^ 32 ∧ length r.2 = 4%nat.

Lemma slice_be_app n l1 x l2 i :
  length l1 = i → 0 ≤ x < 256 ^ Z.of_nat n → slice_be n (l1 ++ to_be n x ++ l2) i = Ret x.
Proof.
  intros <- Hx. unfold slice_be. rewrite index_range_middle by (done || rewrite to_be_length; lia).
  cbn [mbind outcome_bind]. by rewrite from_be_to_be.
Qed.

(** Following the pointer to the name in the question. *)
Lemma read_name_pointer fuel i data name n b :
  index_at data i = Ret 0xc0 → index_at data (i + 1) = Ret 12 →
  index_at data 12 = Ret b → Z.land b 0xc0 = 0 →
  read_name_loop (S fuel) i data name n false = read_name_loop (S fuel) 12 data name (n + 2) true.
Proof.
  intros H0 H1 H12 Hb. cbn [read_name_loop]. rewrite H0, H12. cbn [now mbind fuelled_bind].
  change (negb (Z.land 0xc0 0xc0 =? 0)) with true. rewrite Hb. cbn [Z.eqb negb].
  cbn iota. rewrite H1. cbn [mbind fuelled_bind mret fuelled_ret].
  change (Z.to_nat (Z.land (from_be [0xc0; 12]) 0x3fff)) with 12%nat. by rewrite H12.
Qed.

Section reply.
Context (labels : list (list Z)) (Hl : Forall label_ok labels) (Hne : labels ≠ []).
Context (header tail : list Z) (Hh : length header = 12%nat).

Abbreviation data := (header ++ encode_labels labels ++ 0 :: tail).

Lemma read_question fuel :
  (length labels < fuel)%nat →
  read_name fuel 12 data =
    Some (Ret (foldl push_segment [] labels, length (encode_labels labels) + 1)%nat).
Proof. intros Hf. unfold read_name. rewrite <- Hh. by rewrite read_name_labels. Qed.

Lemma read_pointer fuel pre post :
  (length labels < fuel)%nat → data = pre ++ [0xc0; 12] ++ post →
  read_name fuel (length pre) data = Some (Ret (foldl push_segment [] labels, 2%nat)).
Proof.
  intros Hf Hd. destruct fuel as [|fuel]; [lia|]. destruct labels as [|s ls] eqn:El; [done|].
  pose proof Hl as [Hs _]%Forall_cons. unfold read_name.
  rewrite (read_name_pointer _ _ _ _ _ (Z.of_nat (length s))).
  - rewrite <- Hh. rewrite <- El in *. by rewrite read_name_labels.
  - rewrite Hd. by apply index_at_app.
  - rewrite Hd. cbn [app]. change (pre ++ 192 :: 12 :: post) with (pre ++ [192] ++ 12 :: post).
    rewrite (assoc_L (++)). apply index_at_app. by rewrite length_app.
  - cbn [encode_labels fmap list_fmap concat app]. by apply index_at_app.
  - apply small_length, Hs.
Qed.

End reply.

Lemma answers_loop_ok answers fuel pre rest data domain recs :
  data = pre ++ concat (a_record <$> answers) ++ rest →
  (∀ pre post, data = pre ++ [0xc0; 12] ++ post →
    read_name fuel (length pre) data = Some (Ret (domain, 2%nat))) →
  Forall a_record_ok answers →
  answers_loop (length answers) fuel (length pre) data recs =
    Some (Ret (recs ++ ((λ r, (domain, r.1, QR_A r.2)) <$> answers))).
Proof.
  intros Hd Hname Hok. revert pre recs Hd. induction Hok as [|[ttl ip] answers [Ht Hip] Hok IH]; intros pre recs Hd.
  { cbn. by rewrite app_nil_r. }
  cbn [fst snd] in Ht, Hip. cbn [length answers_loop].
  cbn [fmap list_fmap concat] in Hd. fold (a_record <$> answers) in Hd.
  set (tl := concat (a_record <$> answers) ++ rest) in *. rewrite <- (assoc_L (++)) in Hd.
  fold tl in Hd. unfold a_record in Hd. cbn [fst snd] in Hd. rewrite <- !(assoc_L (++)) in Hd.
  rewrite (Hname pre _ Hd). cbn [mbind fuelled_bind].
  pose proof (slice_be_app 2 (pre ++ [0xc0; 12]) 1 (to_be 2 1 ++ to_be 4 ttl ++ to_be 2 4 ++ ip ++ tl)
    (length pre + 2)) as F1.
  pose proof (slice_be_app 2 (pre ++ [0xc0; 12] ++ to_be 2 1) 1 (to_be 4 ttl ++ to_be 2 4 ++ ip ++ tl)
    (length pre + 2 + 2)) as F2.
  pose proof (slice_be_app 4 (pre ++ [0xc0; 12] ++ to_be 2 1 ++ to_be 2 1) ttl (to_be 2 4 ++ ip ++ tl)
    (length pre + 2 + 2 + 2)) as F3.
  pose proof (slice_be_app 2 (pre ++ [0xc0; 12] ++ to_be 2 1 ++ to_be 2 1 ++ to_be 4 ttl) 4 (ip ++ tl)
    (length pre + 2 + 2 + 2 + 4)) as F4.
  pose proof (index_range_middle (pre ++ [0xc0; 12] ++ to_be 2 1 ++ to_be 2 1 ++ to_be 4 ttl ++ to_be 2 4)
    ip tl (length pre + 2 + 2 + 2 + 4 + 2) (length pre + 2 + 2 + 2 + 4 + 2 + 4)) as F5.
  repeat rewrite <- app_assoc in F1. repeat rewrite <- app_assoc in F2.
  repeat rewrite <- app_assoc in F3. repeat rewrite <- app_assoc in F4.
  repeat rewrite <- app_assoc in F5.
  rewrite <- Hd in F1, F2, F3, F4, F5.
  rewrite F1, F2, F3, F4 by (repeat rewrite length_app; repeat rewrite to_be_length; cbn; lia).
  cbn [now mbind fuelled_bind]. change (Z.to_nat 4) with 4%nat.
  rewrite F5 by (repeat rewrite length_app; repeat rewrite to_be_length; cbn; lia). change (QueryType_try_from_primitive 1) with (Some QT_A).
  cbn [now mbind fuelled_bind Z.eqb negb Nat.eqb rassert]. change (negb (1 =? 1)) with false.
  unfold Ipv4Addr_from_bytes. rewrite Hip. cbn [Nat.eqb rassert now mbind outcome_bind fuelled_bind].
  specialize (IH (pre ++ [0xc0; 12] ++ to_be 2 1 ++ to_be 2 1 ++ to_be 4 ttl ++ to_be 2 4 ++ ip)
    (recs ++ [(domain, ttl, QR_A ip)])).
  rewrite !length_app, !to_be_length, Hip in IH. cbn [length] in IH.
  replace (length pre + 2 + 2 + 2 + 4 + 2 + 4)%nat with (length pre + (2 + (2 + (2 + (4 + (2 + 4))))))%nat by lia.
  rewrite IH by (by rewrite Hd, <- !(assoc_L (++))). by rewrite <- (assoc_L (++)).
Qed.

(** ** Header *)

Lemma land_bit x n : 0 ≤ n → (Z.land x (Z.shiftl 1 n) =? 0) = negb (Z.testbit x n).
Proof.
  intros Hn. rewrite Z.shiftl_1_l. destruct (Z.testbit x n) eqn:E; cbn.
  - apply Z.eqb_neq. intros H. assert (Z.testbit (Z.land x (2 ^ n)) n = true) as Ht.
    { rewrite Z.land_spec, E, Z.pow2_bits_true by done. done. }
    by rewrite H, Z.bits_0 in Ht.
  - apply Z.eqb_eq. apply Z.bits_inj'. intros m Hm. rewrite Z.land_spec, Z.bits_0.
    destruct (decide (n = m)) as [<-|Hne]; [by rewrite E|].
    rewrite Z.pow2_bits_false by done. apply andb_false_r.
Qed.

Lemma low_nibble x : Z.land (x mod 256) 0x0f = Z.land x 0x0f.
Proof.
  change 256 with (2 ^ 8). rewrite <- Z.land_ones by lia. rewrite <- Z.land_assoc. done.
Qed.

Definition reply_header (id flags count ns ar : Z) : list Z :=
  to_be 2 id ++ to_be 2 flags ++ to_be 2 1 ++ to_be 2 count ++ to_be 2 ns ++ to_be 2 ar.

Lemma reply_header_slices id flags count ns ar l :
  is_u16 id → is_u16 flags → is_u16 count → is_u16 ns → is_u16 ar →
  let data := reply_header id flags count ns ar ++ l in
  slice_be 2 data 0 = Ret id ∧ slice_be 2 data 2 = Ret flags ∧ slice_be 2 data 4 = Ret 1 ∧
  slice_be 2 data 6 = Ret count ∧ slice_be 2 data 8 = Ret ns ∧ slice_be 2 data 10 = Ret ar.
Proof.
  intros Hid Hfl Hc Hns Har. unfold reply_header. cbv zeta. repeat rewrite <- app_assoc.
  split_and!.
  - by apply (slice_be_app 2 []).
  - by apply (slice_be_app 2 (to_be 2 id)).
  - by apply (slice_be_app 2 (to_be 2 id ++ to_be 2 flags) 1).
  - by apply (slice_be_app 2 (to_be 2 id ++ to_be 2 flags ++ to_be 2 1) count).
  - by apply (slice_be_app 2 (to_be 2 id ++ to_be 2 flags ++ to_be 2 1 ++ to_be 2 count) ns).
  - by apply (slice_be_app 2 (to_be 2 id ++ to_be 2 flags ++ to_be 2 1 ++ to_be 2 count ++ to_be 2 ns) ar).
Qed.

(** The question section of a reply that repeats the question. *)
Lemma query_section_ok fuel header labels qtype tail :
  Forall label_ok labels → (length labels < fuel)%nat → length header = 12%nat →
  let data := header ++ encode_labels labels ++
    0 :: to_be 2 (QueryType_discriminant qtype) ++ to_be 2 1 ++ tail in
  slice_be 2 data 4 = Ret 1 →
  query_section fuel data = Some (Ret (foldl push_segment [] labels, qtype,
    length (header ++ encode_labels labels ++ [0] ++ to_be 2 (QueryType_discriminant qtype) ++ to_be 2 1))).
Proof.
  intros Hl Hf Hh data Hqd. unfold query_section. rewrite Hqd. cbn [now mbind fuelled_bind Z.eqb rassert].
  unfold data. rewrite read_question by done. fold data. cbn [mbind fuelled_bind].
  pose proof (slice_be_app 2 (header ++ encode_labels labels ++ [0]) (QueryType_discriminant qtype)
    (to_be 2 1 ++ tail) (12 + (length (encode_labels labels) + 1))) as F.
  repeat rewrite <- app_assoc in F. cbn [app] in F. fold data in F. rewrite F; [|by rewrite !length_app, Hh|by destruct qtype].
  cbn [now mbind fuelled_bind]. unfold QueryType_try_from_primitive.
  replace (find_variant _ _ _) with (Some qtype) by (by destruct qtype).
  assert (length (header ++ encode_labels labels ++ [0] ++ to_be 2 (QueryType_discriminant qtype) ++
    to_be 2 1) = (12 + (length (encode_labels labels) + 1) + 4)%nat) as ->; [|done].
  repeat rewrite length_app. rewrite Hh. cbn. lia.
Qed.

(** A reply that repeats the question of [make_question] and appends address records that refer to
    the name in it is parsed to the query with the records in order, or with the error that the
    domain does not exist.  The fuel is the number of segments of the name plus one. *)
Lemma reply_parsed id domain qtype q flags ns ar answers rest fuel :
  make_question id domain qtype = Ret q → is_u16 id →
  is_u16 flags → Z.testbit flags 15 = true → Z.testbit flags 9 = false → Z.testbit flags 7 = true →
  Z.land flags 0x0f = 0 ∨ Z.land flags 0x0f = 3 → is_u16 ns → is_u16 ar →
  Forall a_record_ok answers → Z.of_nat (length answers) < 65536 →
  (length (split_bytes 46 domain) < fuel)%nat →
  parse_reply fuel (reply_header id flags (Z.of_nat (length answers)) ns ar ++ drop 12 q ++
    concat (a_record <$> answers) ++ rest) =
  Some (Ret (Ok (MkReply id (domain, qtype)
    (if Z.land flags 0x0f =? 0 then Ok ((λ r, (domain, r.1, QR_A r.2)) <$> answers) else Err tt)))).
Proof.
  intros Hq Hid Hfl Hreply Htrunc Hrec Hrc Hns Har Hans Hcount Hfuel.
  unfold make_question in Hq. apply outcome_bind_ret in Hq as (labels & [Hl ->]%question_labels_ret & Hq).
  injection Hq as <-. pose proof (split_bytes_ne 46 domain) as Hne. pose proof (name_of_domain domain Hl) as Hname.
  set (ls := split_bytes 46 domain) in *.
  set (header := reply_header id flags (Z.of_nat (length answers)) ns ar).
  set (qd := to_be 2 (QueryType_discriminant qtype)).
  set (ans := concat (a_record <$> answers)).
  set (data := header ++ encode_labels ls ++ 0 :: qd ++ to_be 2 1 ++ ans ++ rest).
  match goal with |- parse_reply _ ?l = _ => replace l with data end.
  2: { unfold data. f_equal. change (drop 12 _) with (encode_labels ls ++ [0] ++ qd ++ to_be 2 1).
       by repeat rewrite <- app_assoc. }
  assert (length header = 12%nat) as Hh by done.
  destruct (reply_header_slices id flags (Z.of_nat (length answers)) ns ar
    (encode_labels ls ++ 0 :: qd ++ to_be 2 1 ++ ans ++ rest)) as (F0 & F2 & F4 & F6 & F8 & F10);
    try done; [unfold is_u16; lia|]. fold header in F0, F2, F4, F6, F8, F10. fold data in F0, F2, F4, F6, F8, F10.
  pose proof (query_section_ok fuel header ls qtype (ans ++ rest) Hl Hfuel Hh F4) as Hqs.
  fold qd in Hqs. fold data in Hqs.
  unfold parse_reply. rewrite F0, F2. cbn [now mbind fuelled_bind].
  rewrite !land_bit, Hreply, Htrunc, Hrec by lia. cbn [negb]. rewrite low_nibble.
  destruct Hrc as [Hrc|Hrc]; rewrite Hrc.
  - change (RCode_try_from_primitive 0) with (Some RC_Success). rewrite F4, F6, F8, F10, Hqs.
    cbn [now mbind fuelled_bind]. rewrite Nat2Z.id.
    rewrite (answers_loop_ok answers _ _ rest data domain []); [by rewrite Hname| | |done].
    + unfold data. by repeat rewrite <- app_assoc.
    + intros pre post Hd. rewrite <- Hname. by apply (read_pointer ls Hl Hne header _ Hh fuel pre post).
  - change (RCode_try_from_primitive 3) with (Some RC_NxDomain). rewrite Hqs. cbn. by rewrite Hname.
Qed.

(** ** A reply that is never parsed *)

(** A name that ends in a pointer to itself is read forever: one such reply stops the daemon. *)
Definition looping_reply : list Z :=
  reply_header 7 0x8180 0 0 0 ++ [1; 97; 0xc0; 12; 0; 1; 0; 1].

Theorem compression_loop fuel : parse_reply fuel looping_reply = None.
Proof.
  assert (∀ fuel name n c, read_name_loop fuel 14 looping_reply name n c = None) as Hptr.
  { clear. induction fuel as [|fuel IH]; intros name n c; [done|]. exact (IH _ _ _). }
  assert (read_name fuel 12 looping_reply = None) as Hname.
  { destruct fuel as [|fuel]; [done|]. exact (Hptr fuel _ _ _). }
  assert (query_section fuel looping_reply = None) as Hquery.
  { unfold query_section. change (slice_be 2 looping_reply 4) with (Ret 1).
    cbn [now mbind fuelled_bind Z.eqb rassert]. by rewrite Hname. }
  change (parse_reply fuel looping_reply) with
    ('(name, type, i) ← query_section fuel looping_reply;
     records ← answers_loop 0 fuel i looping_reply [];
     mret (Ok (MkReply 7 (name, type) (Ok records))) : fuelled (result Reply string)).
  by rewrite Hquery.
Qed.
