(* ===== verification/Dhcp.v ===== *)
(** * Dhcp: messages of the host configuration protocol (libs/d7net/src/dhcp.rs)

    The options of a message are read until the end marker; the loop runs on the number of bytes
    left as fuel, which is enough because every option takes at least one byte. *)

From stdpp Require Import base list strings.
From Stdlib Require Import ZArith Lia.
From S2P Require Import Prelude Bytes Net NetPackets.
Open Scope Z_scope.

Definition MAGIC_COOKIE : Z := 0x63825363.

Inductive MsgType := MT_QUERY | MT_REPLY.

#[global] Instance MsgType_eq_dec : EqDecision MsgType.
Proof. solve_decision. Defined.

Definition MsgType_discriminant (m : MsgType) : Z :=
  match m with MT_QUERY => 1 | MT_REPLY => 2 end.
Definition MsgType_try_from (n : Z) : option MsgType :=
  find_variant MsgType_discriminant [MT_QUERY; MT_REPLY] n.

Inductive Op :=
| DISCOVER | OFFER | REQUEST | DECLINE | ACK | NAK | RELEASE | INFORM | FORCERENEW | LEASEQUERY
| LEASEUNASSIGNED | LEASEUNKNOWN | LEASEACTIVE | BULKLEASEQUERY | LEASEQUERYDONE
| ACTIVELEASEQUERY | LEASEQUERYSTATUS | TLS.

#[global] Instance Op_eq_dec : EqDecision Op.
Proof. solve_decision. Defined.

Definition Op_discriminant (o : Op) : Z :=
  match o with
  | DISCOVER => 1 | OFFER => 2 | REQUEST => 3 | DECLINE => 4 | ACK => 5 | NAK => 6 | RELEASE => 7
  | INFORM => 8 | FORCERENEW => 9 | LEASEQUERY => 10 | LEASEUNASSIGNED => 11 | LEASEUNKNOWN => 12
  | LEASEACTIVE => 13 | BULKLEASEQUERY => 14 | LEASEQUERYDONE => 15 | ACTIVELEASEQUERY => 16
  | LEASEQUERYSTATUS => 17 | TLS => 18
  end.

Definition Op_try_from (n : Z) : option Op :=
  find_variant Op_discriminant
    [DISCOVER; OFFER; REQUEST; DECLINE; ACK; NAK; RELEASE; INFORM; FORCERENEW; LEASEQUERY;
     LEASEUNASSIGNED; LEASEUNKNOWN; LEASEACTIVE; BULKLEASEQUERY; LEASEQUERYDONE; ACTIVELEASEQUERY;
     LEASEQUERYSTATUS; TLS] n.

Inductive ParamReq := PR_SubnetMask | PR_Router | PR_DNSServer | PR_DomainName.

#[global] Instance ParamReq_eq_dec : EqDecision ParamReq.
Proof. solve_decision. Defined.

Definition ParamReq_discriminant (p : ParamReq) : Z :=
  match p with
  | PR_SubnetMask => 0x01
  | PR_Router => 0x03
  | PR_DNSServer => 0x06
  | PR_DomainName => 0x0f
  end.

Definition ParamReq_try_from (n : Z) : option ParamReq :=
  find_variant ParamReq_discriminant [PR_SubnetMask; PR_Router; PR_DNSServer; PR_DomainName] n.

Inductive DhcpOption :=
| OptPad
| OptOp (op : Op)
| OptSubnetMask (m : Ipv4Addr)
| OptRouters (l : list Ipv4Addr)
| OptDnsServers (l : list Ipv4Addr)
| OptLeaseTime (seconds : Z)
| OptRequestedAddress (a : Ipv4Addr)
| OptServerId (a : Ipv4Addr)
| OptParamReqList (l : list ParamReq)
| OptEnd
| OptUnknown.

#[global] Instance DhcpOption_eq_dec : EqDecision DhcpOption.
Proof. solve_decision. Defined.

(** [for i in 0..(length / 4) { items.push(Ipv4Addr::from_bytes(..)) }] *)
Definition address_list (bytes : list Z) (length : nat) : outcome (list Ipv4Addr) :=
  mapM (λ i, s ← index_range bytes (2 + i * 4) (2 + i * 4 + 4); Ipv4Addr_from_bytes s)
    (seq 0 (length / 4)).

Definition DhcpOption_from_bytes (bytes : list Z) : outcome (DhcpOption * nat) :=
  code ← index_at bytes 0;
  if code =? 0x00 then Ret (OptPad, 1%nat)
  else if code =? 0xff then Ret (OptEnd, 1%nat)
  else
    b1 ← index_at bytes 1;
    let length := Z.to_nat b1 in
    item ←
      (if code =? 0x01 then
        _ ← rassert (length =? 4)%nat "length == 4";
        s ← index_range bytes 2 6;
        a ← Ipv4Addr_from_bytes s;
        Ret (OptSubnetMask a)
      else if code =? 0x03 then
        _ ← rassert (length mod 4 =? 0)%nat "length % 4 == 0";
        items ← address_list bytes length;
        Ret (OptRouters items)
      else if code =? 0x06 then
        _ ← rassert (length mod 4 =? 0)%nat "length % 4 == 0";
        items ← address_list bytes length;
        Ret (OptDnsServers items)
      else if code =? 0x33 then
        _ ← rassert (length =? 4)%nat "length == 4";
        s ← index_range bytes 2 6;
        Ret (OptLeaseTime (from_be s))
      else if code =? 0x35 then
        _ ← rassert (length =? 1)%nat "length == 1";
        b2 ← index_at bytes 2;
        op ← expect (Op_try_from b2) "Unknown DHCP op";
        Ret (OptOp op)
      else if code =? 0x36 then
        _ ← rassert (length =? 4)%nat "length == 4";
        s ← index_range bytes 2 6;
        a ← Ipv4Addr_from_bytes s;
        Ret (OptServerId a)
      else if code =? 0x37 then
        s ← index_range bytes 2 (2 + length);
        items ← mapM (λ b, expect (ParamReq_try_from b) "Uknown paramreq") s;
        Ret (OptParamReqList items)
      else Ret OptUnknown);
    Ret (item, (2 + length)%nat).

Definition DhcpOption_to_bytes (self : DhcpOption) : outcome (list Z) :=
  match self with
  | OptPad => Ret [0x00]
  | OptEnd => Ret [0xff]
  | OptOp op => Ret [0x35; 0x01; Op_discriminant op]
  | OptRequestedAddress addr => Ret ([0x32; 0x04] ++ addr)
  | OptServerId id => Ret ([0x36; 0x04] ++ id)
  | OptParamReqList items =>
      Ret ([0x37; Z.of_nat (length items) mod 256] ++ (ParamReq_discriminant <$> items))
  | _ => Panic "Serialization unsupported"
  end.

Record Payload := MkPayload {
  op : MsgType;
  xid : Z;
  client_ip : Ipv4Addr;
  your_ip : Ipv4Addr;
  server_ip : Ipv4Addr;
  gateway_ip : Ipv4Addr;
  mac_addr : MacAddr;
  dhcp_options : list DhcpOption;
}.

Definition Payload_discover (xid : Z) (mac_addr : MacAddr) : Payload :=
  MkPayload MT_QUERY xid Ipv4Addr_ZERO Ipv4Addr_ZERO Ipv4Addr_ZERO Ipv4Addr_ZERO mac_addr
    [OptOp DISCOVER].

Definition Payload_request (xid : Z) (mac_addr : MacAddr) (client_ip server_ip : Ipv4Addr)
    : Payload :=
  MkPayload MT_QUERY xid client_ip Ipv4Addr_ZERO server_ip Ipv4Addr_ZERO mac_addr
    [OptOp REQUEST; OptRequestedAddress client_ip; OptServerId server_ip;
     OptParamReqList [PR_SubnetMask; PR_Router; PR_DNSServer]].

(** The loop over the options, from index [i]. *)
Fixpoint options_loop (fuel i : nat) (bytes : list Z) : option (outcome (list DhcpOption)) :=
  match fuel with
  | O => None
  | S fuel =>
      match (s ← index_from bytes i; DhcpOption_from_bytes s) with
      | Panic w => Some (Panic w)
      | Ret (opt, len) =>
          if bool_decide (opt = OptEnd) then Some (Ret [])
          else match options_loop fuel (i + len) bytes with
               | Some (Ret rest) => Some (Ret (opt :: rest))
               | o => o
               end
      end
  end.

(** [options_loop] with fuel for every byte; running out is impossible ([options_fuel]). *)
Definition read_options (i : nat) (bytes : list Z) : outcome (list DhcpOption) :=
  default (Panic "out of fuel") (options_loop (S (length bytes)) i bytes).

Definition Payload_from_bytes (bytes : list Z) : outcome Payload :=
  b0 ← index_at bytes 0;
  op ← expect (MsgType_try_from b0) "Unknown DHCP MsgType";
  b1 ← index_at bytes 1;
  _ ← rassert (b1 =? 0x01) "HTYPE != MAC";
  b2 ← index_at bytes 2;
  _ ← rassert (b2 =? 0x06) "HLEN != 6";
  b3 ← index_at bytes 3;
  _ ← rassert (b3 =? 0x00) "HOPS != 0";
  x ← index_range bytes 4 8;
  a ← index_range bytes 12 16;
  client_ip ← Ipv4Addr_from_bytes a;
  a ← index_range bytes 16 20;
  your_ip ← Ipv4Addr_from_bytes a;
  a ← index_range bytes 20 24;
  server_ip ← Ipv4Addr_from_bytes a;
  a ← index_range bytes 24 28;
  gateway_ip ← Ipv4Addr_from_bytes a;
  m ← index_range bytes 28 34;
  mac_addr ← MacAddr_from_bytes m;
  let body_i := (44 + 64 + 128)%nat in
  c ← index_range bytes body_i (body_i + 4);
  _ ← rassert (from_be c =? MAGIC_COOKIE) "magic == MAGIC_COOKIE";
  options ← read_options (body_i + 4) bytes;
  Ret (MkPayload op (from_be x) client_ip your_ip server_ip gateway_ip mac_addr options).

(** [for opt in self.options { result.extend(&opt.to_bytes()) }] *)
Fixpoint options_to_bytes (l : list DhcpOption) : outcome (list Z) :=
  match l with
  | [] => Ret []
  | opt :: l => b ← DhcpOption_to_bytes opt; rest ← options_to_bytes l; Ret (b ++ rest)
  end.

(** The fields before the options. *)
Definition fixed_fields (self : Payload) : list Z :=
  [MsgType_discriminant (op self); 0x01; 0x06; 0x00] ++ to_be 4 (xid self) ++ [0; 0; 0; 0] ++
  client_ip self ++ your_ip self ++ server_ip self ++ gateway_ip self ++
  mac_addr self ++ replicate 10 0 ++ replicate 64 0 ++ replicate 128 0 ++ to_be 4 MAGIC_COOKIE.

Definition Payload_to_bytes (self : Payload) : outcome (list Z) :=
  opts ← options_to_bytes (dhcp_options self);
  Ret (fixed_fields self ++ opts ++ [0xff]).

(** ** Options on the wire *)

(** How an option is encoded by the protocol, also where the library does not serialise it. *)
Definition wire_option (o : DhcpOption) : list Z :=
  match o with
  | OptPad => [0x00]
  | OptOp op => [0x35; 0x01; Op_discriminant op]
  | OptSubnetMask m => [0x01; 0x04] ++ m
  | OptRouters l => [0x03; 4 * Z.of_nat (length l)] ++ concat l
  | OptDnsServers l => [0x06; 4 * Z.of_nat (length l)] ++ concat l
  | OptLeaseTime s => [0x33; 0x04] ++ to_be 4 s
  | OptRequestedAddress a => [0x32; 0x04] ++ a
  | OptServerId a => [0x36; 0x04] ++ a
  | OptParamReqList l => [0x37; Z.of_nat (length l)] ++ (ParamReq_discriminant <$> l)
  | OptEnd => [0xff]
  | OptUnknown => []
  end.

Definition option_ok (o : DhcpOption) : Prop :=
  match o with
  | OptPad | OptOp _ => True
  | OptSubnetMask a | OptRequestedAddress a | OptServerId a => length a = 4%nat
  | OptRouters l | OptDnsServers l => Forall (λ a, length a = 4%nat) l
  | OptLeaseTime s => 0 ≤ s < 2 ^ 32
  | OptParamReqList l => True
  | OptEnd | OptUnknown => False
  end.

(** What the parser makes of it: the requested address is not one of the codes it knows. *)
Definition received (o : DhcpOption) : DhcpOption :=
  match o with OptRequestedAddress _ => OptUnknown | _ => o end.

(** ** Parsing options *)

Lemma concat_length_4 (l : list Ipv4Addr) :
  Forall (λ a, length a = 4%nat) l → length (concat l) = (4 * length l)%nat.
Proof. induction 1 as [|a l Ha Hl IH]; cbn; [done|]. rewrite length_app, Ha, IH. lia. Qed.

Lemma Ipv4Addr_from_bytes_ok a : length a = 4%nat → Ipv4Addr_from_bytes a = Ret a.
Proof. intros Ha. unfold Ipv4Addr_from_bytes. by rewrite Ha. Qed.

Lemma address_list_ok c b (l : list Ipv4Addr) rest :
  Forall (λ a, length a = 4%nat) l →
  address_list ([c; b] ++ concat l ++ rest) (4 * length l) = Ret l.
Proof.
  intros Hl. unfold address_list. rewrite Nat.mul_comm, Nat.div_mul by done.
  assert (∀ l1 l2, l = l1 ++ l2 →
    mapM (λ i, index_range ([c; b] ++ concat l ++ rest) (2 + i * 4) (2 + i * 4 + 4) ≫=
      Ipv4Addr_from_bytes) (seq (length l1) (length l2)) = Ret l2) as H.
  { intros l1 l2. revert l1. induction l2 as [|a l2 IH]; intros l1 E; [done|]. cbn [length seq mapM].
    pose proof Hl as Hl'. rewrite E, Forall_app, Forall_cons in Hl'. destruct Hl' as (H1 & Ha & H2).
    pose proof (index_range_middle ([c; b] ++ concat l1) a (concat l2 ++ rest)
      (2 + length l1 * 4) (2 + length l1 * 4 + 4)) as F.
    rewrite <- app_assoc in F. rewrite length_app, concat_length_4 in F by done.
    replace (concat l) with (concat l1 ++ a ++ concat l2) by (by rewrite E, concat_app).
    repeat rewrite <- app_assoc. rewrite F by (cbn; lia). cbn [mbind outcome_bind].
    rewrite (Ipv4Addr_from_bytes_ok a Ha). cbn [mbind outcome_bind].
    specialize (IH (l1 ++ [a])). rewrite length_app, Nat.add_1_r in IH.
    replace (concat l) with (concat l1 ++ a ++ concat l2) in IH by (by rewrite E, concat_app).
    repeat rewrite <- app_assoc in IH. rewrite IH; [done|]. by rewrite E. }
  by apply (H []).
Qed.

Lemma param_list_ok l :
  mapM (λ b, expect (ParamReq_try_from b) "Uknown paramreq") (ParamReq_discriminant <$> l) = Ret l.
Proof.
  induction l as [|p l IH]; [done|]. cbn [fmap list_fmap mapM]. fold (ParamReq_discriminant <$> l).
  replace (ParamReq_try_from (ParamReq_discriminant p)) with (Some p) by (by destruct p).
  cbn [expect mbind outcome_bind]. by rewrite IH.
Qed.

(** An option of the protocol is read as what it is, and its length is what it takes up. *)
Lemma option_parses o rest :
  option_ok o →
  DhcpOption_from_bytes (wire_option o ++ rest) = Ret (received o, length (wire_option o)).
Proof.
  assert (∀ n, Z.to_nat (4 * Z.of_nat n) = (4 * n)%nat) as Hmul by lia.
  assert (∀ n, ((4 * n) mod 4 =? 0)%nat = true) as Hmod.
  { intros n. by rewrite Nat.mul_comm, Nat.Div0.mod_mul. }
  destruct o as [|op|a|l|l|s|a|a|l| |]; cbn [option_ok]; intros Hok; try done.
  - by destruct op.
  - by fixed_length.
  - cbn [wire_option received]. unfold DhcpOption_from_bytes.
    cbn [app index_at lookup list_lookup expect mbind outcome_bind Z.eqb Pos.eqb].
    rewrite Hmul, Hmod by done. cbn [rassert mbind outcome_bind].
    rewrite (address_list_ok 3 _ l rest Hok : address_list (3 :: _) _ = _).
    cbn [mbind outcome_bind length]. by rewrite concat_length_4.
  - cbn [wire_option received]. unfold DhcpOption_from_bytes.
    cbn [app index_at lookup list_lookup expect mbind outcome_bind Z.eqb Pos.eqb].
    rewrite Hmul, Hmod by done. cbn [rassert mbind outcome_bind].
    rewrite (address_list_ok 6 _ l rest Hok : address_list (6 :: _) _ = _).
    cbn [mbind outcome_bind length]. by rewrite concat_length_4.
  - pose proof (from_be_to_be 4 s ltac:(cbn; lia)) as E. pose proof (to_be_length 4 s) as Hl.
    cbn [wire_option received]. destruct (to_be 4 s) as [|b0 [|b1 [|b2 [|b3 [|]]]]]; try done.
    change (DhcpOption_from_bytes _) with (Ret (OptLeaseTime (from_be [b0; b1; b2; b3]), 6%nat)). by rewrite E.
  - by fixed_length.
  - by fixed_length.
  - cbn [wire_option received]. unfold DhcpOption_from_bytes.
    cbn [app index_at lookup list_lookup expect mbind outcome_bind Z.eqb Pos.eqb]. rewrite Nat2Z.id.
    pose proof (index_range_middle [0x37; Z.of_nat (length l)] (ParamReq_discriminant <$> l) rest 2
      (2 + length l) eq_refl ltac:(by rewrite length_fmap)) as F. cbn [app] in F. rewrite F.
    cbn [mbind outcome_bind]. rewrite param_list_ok. cbn [mbind outcome_bind length]. by rewrite length_fmap.
Qed.

Lemma received_not_end o : option_ok o → received o ≠ OptEnd.
Proof. by destruct o. Qed.

Lemma index_from_app {A} (l1 l2 : list A) n : length l1 = n → index_from (l1 ++ l2) n = Ret l2.
Proof.
  intros <-. unfold index_from. rewrite (proj2 (Nat.leb_le _ _)) by (rewrite length_app; lia).
  by rewrite drop_app_length.
Qed.

Lemma options_loop_ok opts fuel pre rest :
  Forall option_ok opts → (length opts < fuel)%nat →
  options_loop fuel (length pre) (pre ++ concat (wire_option <$> opts) ++ 0xff :: rest) =
    Some (Ret (received <$> opts)).
Proof.
  intros Hok. revert fuel pre. induction Hok as [|o opts Ho Hok IH]; intros fuel pre Hf;
    (destruct fuel as [|fuel]; [cbn in Hf; lia|]); cbn [options_loop].
  - rewrite index_from_app by done. by cbn.
  - rewrite index_from_app by done. cbn [fmap list_fmap concat mbind outcome_bind].
    fold (wire_option <$> opts) (received <$> opts). rewrite <- app_assoc.
    rewrite (option_parses o _ Ho). rewrite bool_decide_eq_false_2 by (by apply received_not_end).
    specialize (IH fuel (pre ++ wire_option o)). rewrite length_app, <- app_assoc in IH.
    rewrite IH by (cbn in Hf; lia). done.
Qed.

Lemma option_takes bytes o len : DhcpOption_from_bytes bytes = Ret (o, len) → (0 < len)%nat.
Proof.
  unfold DhcpOption_from_bytes. intros E. apply outcome_bind_ret in E as (code & _ & E).
  destruct (code =? 0); [injection E as _ <-; lia|]. destruct (code =? 255); [injection E as _ <-; lia|].
  apply outcome_bind_ret in E as (b1 & _ & E). apply outcome_bind_ret in E as (item & _ & E).
  injection E as _ <-. lia.
Qed.

(** Every option takes at least one byte, so the fuel of [read_options] never runs out. *)
Lemma options_fuel fuel i bytes :
  (length bytes - i < fuel)%nat → options_loop fuel i bytes ≠ None.
Proof.
  revert i. induction fuel as [|fuel IH]; intros i Hf; [lia|]. cbn [options_loop].
  destruct (s ← index_from bytes i; DhcpOption_from_bytes s) as [[o len]|] eqn:E; [|done].
  case_bool_decide; [done|]. apply outcome_bind_ret in E as (s & Hs & E).
  pose proof (option_takes _ _ _ E) as Hlen.
  assert (i < length bytes)%nat as Hi.
  { unfold index_from in Hs. destruct (Nat.leb_spec i (length bytes)) as [Hle|]; [|done].
    injection Hs as <-. destruct (decide (i = length bytes)) as [->|]; [|lia].
    by rewrite drop_all in E. }
  specialize (IH (i + len)%nat ltac:(lia)). by repeat case_match.
Qed.

Definition payload_ok (p : Payload) : Prop :=
  0 ≤ xid p < 2 ^ 32 ∧ length (client_ip p) = 4%nat ∧ length (your_ip p) = 4%nat ∧
  length (server_ip p) = 4%nat ∧ length (gateway_ip p) = 4%nat ∧ length (mac_addr p) = 6%nat ∧
  Forall option_ok (dhcp_options p).

(** A message of the protocol. *)
Definition wire_payload (p : Payload) : list Z :=
  fixed_fields p ++ concat (wire_option <$> dhcp_options p) ++ [0xff].

Definition with_options (l : list DhcpOption) (p : Payload) : Payload :=
  MkPayload (op p) (xid p) (client_ip p) (your_ip p) (server_ip p) (gateway_ip p) (mac_addr p) l.

Lemma wire_options_length opts :
  Forall option_ok opts → (length opts ≤ length (concat (wire_option <$> opts)))%nat.
Proof.
  induction 1 as [|o opts Ho Hok IH]; [done|]. cbn [fmap list_fmap concat length].
  rewrite length_app. assert (0 < length (wire_option o))%nat by (destruct o; cbn; try done; lia).
  fold (wire_option <$> opts). lia.
Qed.

Lemma fixed_fields_length p : payload_ok p → length (fixed_fields p) = 240%nat.
Proof.
  intros (_ & H1 & H2 & H3 & H4 & H5 & _). unfold fixed_fields. repeat rewrite length_app.
  by rewrite !to_be_length, !length_replicate, H1, H2, H3, H4, H5.
Qed.

Lemma read_options_ok p rest :
  payload_ok p →
  read_options 240 (fixed_fields p ++ concat (wire_option <$> dhcp_options p) ++ 0xff :: rest) =
    Ret (received <$> dhcp_options p).
Proof.
  intros Hp. pose proof (fixed_fields_length p Hp) as Hl. destruct Hp as (_ & _ & _ & _ & _ & _ & Hok).
  unfold read_options. rewrite <- Hl. rewrite options_loop_ok; [done|done|].
  pose proof (wire_options_length _ Hok). rewrite !length_app. cbn [length]. lia.
Qed.

Lemma payload_parses p rest :
  payload_ok p →
  Payload_from_bytes (wire_payload p ++ rest) = Ret (with_options (received <$> dhcp_options p) p).
Proof.
  intros Hp. pose proof (read_options_ok p rest Hp) as Ho. pose proof Hp as (Hx & H1 & H2 & H3 & H4 & H5 & _).
  assert (wire_payload p ++ rest =
    fixed_fields p ++ concat (wire_option <$> dhcp_options p) ++ 0xff :: rest) as ->.
  { unfold wire_payload. by repeat rewrite <- app_assoc. }
  destruct p as [o x ci yi si gi m opts]. cbn [xid client_ip your_ip server_ip gateway_ip mac_addr dhcp_options] in *.
  pose proof (from_be_to_be 4 x ltac:(cbn; lia)) as Ex. pose proof (to_be_length 4 x) as Hxl.
  unfold fixed_fields in *. cbn [op xid client_ip your_ip server_ip gateway_ip mac_addr] in *.
  destruct (to_be 4 x) as [|x0 [|x1 [|x2 [|x3 [|]]]]]; try done. fixed_length.
  set (tl := concat _ ++ 0xff :: rest) in *.
  match goal with |- Payload_from_bytes ?l = Ret (with_options _ ?p) =>
    set (bytes := l) in *;
    assert (Payload_from_bytes bytes = (options ← read_options 240 bytes;
      Ret (MkPayload o (from_be [x0; x1; x2; x3]) (client_ip p) (your_ip p) (server_ip p)
        (gateway_ip p) (mac_addr p) options))) as -> by (by destruct o)
  end.
  rewrite Ho, Ex. done.
Qed.

Lemma options_to_bytes_wire opts l :
  options_to_bytes opts = Ret l → Forall (λ o, match o with OptParamReqList l => (length l < 256)%nat | _ => True end) opts →
  l = concat (wire_option <$> opts).
Proof.
  revert l. induction opts as [|o opts IH]; intros l E Hs; cbn [options_to_bytes] in E; [by injection E as <-|].
  apply Forall_cons in Hs as [Ho Hs].
  apply outcome_bind_ret in E as (b & Hb & E). apply outcome_bind_ret in E as (rest & Hr & E).
  injection E as <-. rewrite (IH rest Hr Hs). cbn [fmap list_fmap concat]. f_equal.
  destruct o; cbn in Hb; try done; injection Hb as <-; try done.
  cbn. f_equal. f_equal. apply Z.mod_small. lia.
Qed.

(** ** Properties *)

(** A message parses back from its bytes.  What the client serialises, and equally what a
    server sends in the encoding of the protocol, is read with every field and every option in
    order, whatever follows the end marker; only the requested address, which the client sends and
    never receives, is read as an unknown option. *)
Theorem dhcp_round_trip p bytes rest
    (Hp : payload_ok p)
    (Hlist : Forall (λ o, match o with OptParamReqList l => (length l < 256)%nat | _ => True end)
      (dhcp_options p)) :
  (Payload_to_bytes p = Ret bytes → bytes = wire_payload p) ∧
  Payload_from_bytes (wire_payload p ++ rest) = Ret (with_options (received <$> dhcp_options p) p).
Proof.
  split; [|by apply payload_parses]. unfold Payload_to_bytes. intros E.
  apply outcome_bind_ret in E as (opts & Ho & E). injection E as <-.
  by rewrite (options_to_bytes_wire _ _ Ho Hlist).
Qed.

Lemma dhcp_round_trip_witness :
  Payload_from_bytes (wire_payload (Payload_request 7 [1; 2; 3; 4; 5; 6] [10; 0; 2; 15] [10; 0; 2; 2]) ++ [0; 0]) =
  Ret (with_options [OptOp REQUEST; OptUnknown; OptServerId [10; 0; 2; 2];
      OptParamReqList [PR_SubnetMask; PR_Router; PR_DNSServer]]
    (Payload_request 7 [1; 2; 3; 4; 5; 6] [10; 0; 2; 15] [10; 0; 2; 2])).
Proof.
  apply (dhcp_round_trip (Payload_request 7 [1; 2; 3; 4; 5; 6] [10; 0; 2; 15] [10; 0; 2; 2]) [] [0; 0]).
  - split; [unfold xid, Payload_request; lia|]. do 5 (split; [reflexivity|]). cbn.
    constructor; [exact I|]. constructor; [reflexivity|]. constructor; [reflexivity|].
    constructor; [exact I|constructor].
  - constructor; [exact I|]. constructor; [exact I|]. constructor; [exact I|].
    constructor; [|constructor]. vm_compute. lia.
Defined.
