(* ===== verification/NetDaemon.v ===== *)
(** * NetDaemon: the network daemon without its TCP sockets
    (modules/daemon_net: lib.rs, arp_handler.rs, interface.rs, dhcp_client.rs, dns_resolver.rs)

    The three lock-protected globals are fields of one state.  Packets handed to the network card
    and answers handed to callers are traces; whether publishing a packet succeeds is the argument
    [nic], random numbers are arguments.  A reply context is the number of the caller.  The TCP
    handler is used through [TcpLayer].  Log output is left out. *)

From stdpp Require Import base gmap list strings.
From Stdlib Require Import ZArith Lia.
From S2P Require Import Prelude Bytes Net NetPackets Dns Dhcp.
Open Scope Z_scope.

#[global] Instance IpAddr_countable : Countable IpAddr.
Proof.
  refine (inj_countable' (λ a, match a with V4 x => inl x | V6 x => inr x end : list Z + list Z)
    (λ s, match s with inl x => V4 x | inr x => V6 x end) _). by intros [].
Defined.

#[global] Instance SocketAddr_countable : Countable SocketAddr.
Proof.
  refine (inj_countable' (λ a, (host a, port a)) (λ p, MkSocketAddr p.1 p.2) _). by intros [].
Defined.

Abbreviation Query := (list Z * QueryType)%type.
Abbreviation Answer := (result (list QueryResult) unit).

(** ** Sending *)

(** [while packet.len() < 64 { packet.push(0) }] *)
Definition pad64 (packet : list Z) : list Z := packet ++ replicate (64 - length packet) 0.

(** ** dhcp_client.rs *)

Inductive ClientState := CS_Initial | CS_Discover | CS_Request | CS_Operational.

Record Client := MkClient { client_id : Z; client_mac : MacAddr; client_state : ClientState }.

(** [random] is the little-endian value of four random bytes. *)
Definition Client_new (random : Z) (mac : MacAddr) : Client := MkClient random mac CS_Initial.

(** The frame both requests of the client are sent in. *)
Definition client_frame (mac : MacAddr) (payload : list Z) : list Z :=
  pad64 (Frame_to_bytes (MkFrame (MkFrameHeader MacAddr_BROADCAST mac ET_Ipv4)
    (udp_Builder_build (udp_Builder_new Ipv4Addr_ZERO Ipv4Addr_BROADCAST 68 67 payload)))).

Record InterfaceSettings := MkSettings {
  ipv4 : option Ipv4Addr;
  netmask : option Ipv4Addr;
  routers : list Ipv4Addr;
  dns_servers : list Ipv4Addr;
}.

Definition InterfaceSettings_new : InterfaceSettings := MkSettings None None [] [].

(** [options.iter().find_map(f)] *)
Fixpoint find_map {A B} (f : A → option B) (l : list A) : option B :=
  match l with
  | [] => None
  | x :: l => match f x with Some y => Some y | None => find_map f l end
  end.

Definition opt_op (o : DhcpOption) : option Op := match o with OptOp x => Some x | _ => None end.
Definition opt_server_id (o : DhcpOption) : option Ipv4Addr :=
  match o with OptServerId x => Some x | _ => None end.
Definition opt_subnet_mask (o : DhcpOption) : option Ipv4Addr :=
  match o with OptSubnetMask x => Some x | _ => None end.
Definition opt_routers (o : DhcpOption) : option (list Ipv4Addr) :=
  match o with OptRouters x => Some x | _ => None end.
Definition opt_dns_servers (o : DhcpOption) : option (list Ipv4Addr) :=
  match o with OptDnsServers x => Some x | _ => None end.

Section daemon.
(** Whether [ipc::publish("nic/send", ..)] succeeds. *)
Context (nic : bool).

(** [ipc::publish("nic/send", &packet).expect("Delivery failed")] *)
Definition send (packet : list Z) : outcome (list (list Z)) :=
  if nic then Ret [packet] else Panic "Delivery failed".

(** Operations of the client return what they send. *)
Definition Client_send_discover (self : Client) : outcome (Client * list (list Z)) :=
  _ ← rassert (negb (bool_decide (client_mac self = MacAddr_ZERO))) "self.mac_addr != MacAddr::ZERO";
  payload ← Payload_to_bytes (Payload_discover (client_id self) (client_mac self));
  out ← send (client_frame (client_mac self) payload);
  Ret (MkClient (client_id self) (client_mac self) CS_Discover, out).

Definition Client_accept_offer (self : Client) (client_ip server_ip : Ipv4Addr)
    : outcome (Client * list (list Z)) :=
  payload ← Payload_to_bytes (Payload_request (client_id self) (client_mac self) client_ip server_ip);
  out ← send (client_frame (client_mac self) payload);
  Ret (MkClient (client_id self) (client_mac self) CS_Request, out).

Definition Client_on_packet (self : Client) (packet : udp_Packet)
    : outcome (option InterfaceSettings * Client * list (list Z)) :=
  payload ← Payload_from_bytes (udp_payload packet);
  if negb (bool_decide (op payload = MT_REPLY)) then Ret (None, self, [])
  else match find_map opt_op (dhcp_options payload) with
  | None => Ret (None, self, [])
  | Some op =>
      match client_state self with
      | CS_Initial => Ret (None, self, [])
      | CS_Discover =>
          if bool_decide (op = OFFER) then
            match find_map opt_server_id (dhcp_options payload) with
            | None => Ret (None, self, [])
            | Some sid =>
                '(c, out) ← Client_accept_offer self (your_ip payload) sid;
                Ret (None, c, out)
            end
          else Ret (None, self, [])
      | CS_Request =>
          if bool_decide (op = ACK) then
            Ret (Some (MkSettings (Some (your_ip payload))
                         (find_map opt_subnet_mask (dhcp_options payload))
                         (default [] (find_map opt_routers (dhcp_options payload)))
                         (default [] (find_map opt_dns_servers (dhcp_options payload)))),
                 MkClient (client_id self) (client_mac self) CS_Operational, [])
          else if bool_decide (op = NAK) then Panic "DHCP: failed"
          else Ret (None, self, [])
      | CS_Operational => Ret (None, self, [])
      end
  end.

(** ** interface.rs *)

Record Interface := MkInterface {
  if_mac : MacAddr;
  settings : InterfaceSettings;
  dhcp_client : Client;
  arp_probe_ok : bool;
}.

Definition Interface_new (random : Z) (mac : MacAddr) : Interface :=
  MkInterface mac InterfaceSettings_new (Client_new random mac) false.

(** The frame of an ARP request for [dst]. *)
Definition arp_request_frame (mac : MacAddr) (src dst : Ipv4Addr) : list Z :=
  pad64 (Frame_to_bytes (MkFrame (MkFrameHeader MacAddr_BROADCAST mac ET_ARP)
    (arp_Packet_to_bytes (MkArp ET_Ipv4 Request mac src MacAddr_ZERO dst)))).

Fixpoint arp_router_loop (mac : MacAddr) (src_ip : Ipv4Addr) (l : list Ipv4Addr)
    : outcome (list (list Z)) :=
  match l with
  | [] => Ret []
  | router_ip :: l =>
      out ← send (arp_request_frame mac src_ip router_ip);
      rest ← arp_router_loop mac src_ip l;
      Ret (out ++ rest)
  end.

Definition Interface_arp_router (self : Interface) : outcome (list (list Z)) :=
  match ipv4 (settings self) with
  | None => Ret []
  | Some src_ip => arp_router_loop (if_mac self) src_ip (routers (settings self))
  end.

Definition Interface_arp_probe (self : Interface) : outcome (Interface * list (list Z)) :=
  ip ← expect (ipv4 (settings self)) "Cannot send ARP probe: no ip configured";
  out ← send (arp_request_frame (if_mac self) Ipv4Addr_ZERO ip);
  let self := MkInterface (if_mac self) (settings self) (dhcp_client self) true in
  out' ← Interface_arp_router self;
  Ret (self, out ++ out').

Definition Interface_on_dhcp_packet (self : Interface) (p : udp_Packet)
    : outcome (Interface * list (list Z)) :=
  '(new, c, out) ← Client_on_packet (dhcp_client self) p;
  match new with
  | Some new_settings =>
      '(self, out') ← Interface_arp_probe (MkInterface (if_mac self) new_settings c (arp_probe_ok self));
      Ret (self, out ++ out')
  | None => Ret (MkInterface (if_mac self) (settings self) c (arp_probe_ok self), out)
  end.

(** ** lib.rs: the network state *)

Inductive UdpHandler := handle_udp_dhcp | handle_udp_dns.

Record NetState := MkNetState {
  interfaces : list Interface;
  arp_table : gmap Ipv4Addr MacAddr;
  udp_handlers : gmap SocketAddr UdpHandler;
}.

Definition NetState_new : NetState := MkNetState [] ∅ ∅.

Definition set_interfaces (l : list Interface) (ns : NetState) : NetState :=
  MkNetState l (arp_table ns) (udp_handlers ns).
Definition set_arp_table (t : gmap Ipv4Addr MacAddr) (ns : NetState) : NetState :=
  MkNetState (interfaces ns) t (udp_handlers ns).

Definition default_send_interface (self : NetState) : option Interface := head (interfaces self).

(** The position of the interface; [interface] and [interface_mut] share the search. *)
Definition interface_index (self : NetState) (mac : MacAddr) : option nat :=
  if bool_decide (mac = MacAddr_BROADCAST) then
    match interfaces self with [] => None | _ => Some 0%nat end
  else fst <$> list_find (λ i, if_mac i = mac) (interfaces self).

Definition interface (self : NetState) (mac : MacAddr) : option Interface :=
  i ← interface_index self mac; interfaces self !! i.

(** ** arp_handler.rs *)

Definition arp_reply_frame (frame : Frame) (arp_packet : arp_Packet) (intf : Interface)
    (ip : Ipv4Addr) : outcome (list Z) :=
  reply ← arp_Packet_to_reply arp_packet (if_mac intf) ip;
  Ret (Frame_to_bytes (MkFrame (MkFrameHeader (src_mac (frame_header frame)) (if_mac intf) ET_ARP)
         (arp_Packet_to_bytes reply))).

(** The loop over the interfaces for an IP-targeted request. *)
Fixpoint arp_reply_loop (frame : Frame) (arp_packet : arp_Packet) (l : list Interface)
    : outcome (list (list Z)) :=
  match l with
  | [] => Ret []
  | intf :: l =>
      if negb (arp_probe_ok intf) then arp_reply_loop frame arp_packet l
      else match ipv4 (settings intf) with
      | Some ip =>
          if bool_decide (arp_dst_ip arp_packet = ip) then
            reply ← arp_reply_frame frame arp_packet intf ip;
            send reply
          else arp_reply_loop frame arp_packet l
      | None => arp_reply_loop frame arp_packet l
      end
  end.

Definition handle_arp_packet (self : NetState) (frame : Frame) (arp_packet : arp_Packet)
    : outcome (NetState * list (list Z)) :=
  if bool_decide (arp_src_ip arp_packet = Ipv4Addr_ZERO) then Ret (self, [])
  else
    let self := set_arp_table (<[arp_src_ip arp_packet := src_hw arp_packet]> (arp_table self)) self in
    if negb (arp_Packet_is_request arp_packet) then Ret (self, [])
    else if negb (bool_decide (dst_hw arp_packet = MacAddr_ZERO)) then
      match interface self (dst_hw arp_packet) with
      | Some intf =>
          if negb (arp_probe_ok intf) then Ret (self, [])
          else match ipv4 (settings intf) with
          | Some ip =>
              if bool_decide (arp_dst_ip arp_packet = ip) then
                reply ← arp_reply_frame frame arp_packet intf ip;
                out ← send reply;
                Ret (self, out)
              else Ret (self, [])
          | None => Ret (self, [])
          end
      | None => Ret (self, [])
      end
    else if negb (bool_decide (arp_dst_ip arp_packet = Ipv4Addr_ZERO)) then
      out ← arp_reply_loop frame arp_packet (interfaces self);
      Ret (self, out)
    else Ret (self, []).

(** ** dns_resolver.rs *)

Definition DEFAULT_NAMESERVERS : list IpAddr := [V4 [1; 1; 1; 1]; V4 [1; 0; 0; 1]].

Definition FIXED_DNS_CLIENT : Z := 54.

Record DnsResolver := MkResolver {
  servers : list IpAddr;
  pending_requests : list (Z * Query * Z);
}.

Definition DnsResolver_new : DnsResolver := MkResolver DEFAULT_NAMESERVERS [].

(** An answer given to a caller, or a negative acknowledgement. *)
Inductive DnsEvent := DnsReply (ctx : Z) (a : Answer) | DnsNack (ctx : Z).

Definition DnsResolver_on_packet (self : DnsResolver) (fuel : nat) (p : udp_Packet)
    : fuelled (DnsResolver * list DnsEvent) :=
  r ← parse_reply fuel (udp_payload p);
  match r with
  | Ok reply =>
      let mine := λ x : Z * Query * Z, bool_decide (x.1 = (req_id reply, query reply)) in
      let answer := result_map (fmap snd) (records reply) in
      mret (MkResolver (servers self) (filter (λ x, mine x = false) (pending_requests self)),
            (λ x, DnsReply x.2 answer) <$> filter (λ x, mine x = true) (pending_requests self))
  | Err _ => mret (self, [])
  end.

(** The addresses of a packet for the router: destination, source, source address. *)
Definition send_route (ns : NetState) : option (MacAddr * MacAddr * Ipv4Addr) :=
  intf ← default_send_interface ns;
  router_ip ← head (routers (settings intf));
  router_mac ← arp_table ns !! router_ip;
  ip_addr ← ipv4 (settings intf);
  Some (router_mac, if_mac intf, ip_addr).

(** [Err] is [SendError]. *)
Definition try_send (ns : NetState) (dst_ip : IpAddr) (payload : list Z)
    : outcome (result (list (list Z)) unit) :=
  match send_route ns with
  | None => Ret (Err tt)
  | Some (dst_mac, src_mac, src_ip) =>
      dst ← match dst_ip with V4 addr => Ret addr | V6 _ => Panic "IPv6 support" end;
      let packet := pad64 (Frame_to_bytes (MkFrame (MkFrameHeader dst_mac src_mac ET_Ipv4)
        (udp_Builder_build (udp_Builder_new src_ip dst FIXED_DNS_CLIENT 53 payload)))) in
      Ret (if nic then Ok [packet] else Err tt)
  end.

(** [random] is the little-endian value of two random bytes. *)
Definition DnsResolver_user_resolve (self : DnsResolver) (ns : NetState) (random ctx : Z)
    (query : Query) : outcome (DnsResolver * list (list Z) * list DnsEvent) :=
  server ← index_at (servers self) 0;
  q ← make_question random query.1 query.2;
  r ← try_send ns server q;
  match r with
  | Ok out => Ret (MkResolver (servers self) (pending_requests self ++ [(random, query, ctx)]), out, [])
  | Err _ => Ret (self, [], [DnsNack ctx])
  end.

End daemon.

(** ** lib.rs: incoming packets *)

(** The TCP handler: what it sends and its new state. *)
Class TcpLayer (T : Type) := {
  tcp_handle_packet : T → NetState → ipv4_Header → Segment → outcome (T * list (list Z));
}.

Record netd (T : Type) := MkNetd {
  net_state : NetState;
  dns_resolver : DnsResolver;
  tcp_handler : T;
  sent : list (list Z);
  dns_events : list DnsEvent;
}.
Arguments MkNetd {T} _ _ _ _ _.
Arguments net_state {T} _.
Arguments dns_resolver {T} _.
Arguments tcp_handler {T} _.
Arguments sent {T} _.
Arguments dns_events {T} _.

Section packets.
Context {T : Type} `{!TcpLayer T} `{!SegmentFlagBits}.
Context (nic : bool) (fuel : nat).

Definition set_net_state (ns : NetState) (out : list (list Z)) (s : netd T) : netd T :=
  MkNetd ns (dns_resolver s) (tcp_handler s) (sent s ++ out) (dns_events s).

(** [handle_udp_dhcp] and [handle_udp_dns]. *)
Definition run_udp_handler (h : UdpHandler) (s : netd T) (e : FrameHeader) (p : udp_Packet)
    : fuelled (netd T) :=
  match h with
  | handle_udp_dhcp =>
      i ← now (unwrap (interface_index (net_state s) (dst_mac e)));
      intf ← now (index_at (interfaces (net_state s)) i);
      '(intf, out) ← now (Interface_on_dhcp_packet nic intf p);
      mret (set_net_state (set_interfaces (<[i := intf]> (interfaces (net_state s))) (net_state s)) out s)
  | handle_udp_dns =>
      '(r, evs) ← DnsResolver_on_packet (dns_resolver s) fuel p;
      mret (MkNetd (net_state s) r (tcp_handler s) (sent s) (dns_events s ++ evs))
  end.

Definition on_packet (s : netd T) (packet : list Z) : fuelled (netd T) :=
  frame ← now (Frame_from_bytes packet);
  match ethertype (frame_header frame) with
  | ET_ARP =>
      arp_packet ← now (arp_Packet_from_bytes (frame_payload frame));
      '(ns, out) ← now (handle_arp_packet nic (net_state s) frame arp_packet);
      mret (set_net_state ns out s)
  | ET_Ipv4 =>
      ip_packet ← now (ipv4_Packet_from_bytes (frame_payload frame));
      match protocol (ipv4_header ip_packet) with
      | ip_protocol.TCP =>
          segment ← now (Segment_from_bytes (ipv4_payload ip_packet));
          '(t, out) ← now (tcp_handle_packet (tcp_handler s) (net_state s) (ipv4_header ip_packet) segment);
          mret (MkNetd (net_state s) (dns_resolver s) t (sent s ++ out) (dns_events s))
      | ip_protocol.UDP =>
          udp_packet ← now (udp_Packet_from_bytes (ipv4_payload ip_packet));
          let addr_exact := MkSocketAddr (V4 (dst_ip (ipv4_header ip_packet)))
            (udp_dst_port (udp_header udp_packet)) in
          let addr_any_ip := MkSocketAddr (V4 Ipv4Addr_ZERO) (udp_dst_port (udp_header udp_packet)) in
          match udp_handlers (net_state s) !! addr_exact, udp_handlers (net_state s) !! addr_any_ip with
          | Some handler, _ | None, Some handler =>
              run_udp_handler handler s (frame_header frame) udp_packet
          | None, None => mret s
          end
      | _ => mret s
      end
  | _ => mret s
  end.

(** [main] up to the loop: one interface, the two handlers, and a discover message.  [random] is
    the transaction id the client draws. *)
Definition netd_start (random : Z) (mac : MacAddr) (tcp : T) : outcome (netd T) :=
  let intf := Interface_new random mac in
  let handlers := <[MkSocketAddr (V4 Ipv4Addr_ZERO) FIXED_DNS_CLIENT := handle_udp_dns]>
    {[MkSocketAddr (V4 Ipv4Addr_ZERO) 68 := handle_udp_dhcp]} in
  '(c, out) ← Client_send_discover nic (dhcp_client intf);
  Ret (MkNetd (MkNetState [MkInterface (if_mac intf) (settings intf) c (arp_probe_ok intf)] ∅ handlers)
         DnsResolver_new tcp out []).

(** The request to resolve a name, from [ctx]. *)
Definition on_dns_resolve (s : netd T) (random ctx : Z) (query : Query) : outcome (netd T) :=
  '(r, out, evs) ← DnsResolver_user_resolve nic (dns_resolver s) (net_state s) random ctx query;
  Ret (MkNetd (net_state s) r (tcp_handler s) (sent s ++ out) (dns_events s ++ evs)).

End packets.
