(* ===== verification/TcpHandler.v ===== *)
(** * TcpHandler: the TCP sockets of the network daemon
    (modules/daemon_net: tcp_handler.rs, ports.rs; libs/libd7: net/tcp/socket_ipc_protocol.rs)

    The protocol state machine is the crate tcpstate, used through [TcpStack]: an operation returns
    the new state and the calls it makes to the user data of the socket, in order.  Random numbers
    and time readings are arguments ([Ambient]).  Packets and answers to callers are traces; a reply
    context is the number of its caller, and one that is dropped sends a negative acknowledgement. *)

From stdpp Require Import base gmap list strings.
From Stdlib Require Import ZArith Lia.
From S2P Require Import Prelude Net NetPackets NetDaemon.
Open Scope Z_scope.

(** ** The protocol crate *)

(** What the operations may draw: sequence numbers, time readings and the number of a topic. *)
Record Ambient := MkAmbient { amb_seqn : nat → Z; amb_now : nat → Z; amb_topic : Z }.

Record SegmentMeta := MkSegmentMeta {
  seqn : Z;
  ackn : Z;
  seg_window : Z;
  seg_flags : Z;
  seg_data : list Z;
}.

(** The errors the daemon tells apart. *)
Inductive StateError (C E : Type) := RetryAfter (c : C) | ContinueAfter (c : C) | OtherError (e : E).
Arguments RetryAfter {C E} _.
Arguments ContinueAfter {C E} _.
Arguments OtherError {C E} _.

(** The calls of the crate to [UserData], without [new_seqn]. *)
Inductive Callback (C E : Type) :=
| CbSend (to : SocketAddr) (seg : SegmentMeta)
| CbEvent (cookie : C) (r : result unit (StateError C E))
| CbAddTimeout (c : Z).
Arguments CbSend {C E} _ _.
Arguments CbEvent {C E} _ _.
Arguments CbAddTimeout {C E} _.

Class TcpStack := {
  Sock : Type;
  Conn : Type;
  Cookie : Type;
  Cookie_eq_dec :: EqDecision Cookie;
  Cookie_countable :: Countable Cookie;
  TcpError : Type;
  ConnectionState : Type;
  Socket_new : Sock;
  sock_state : Sock → ConnectionState;
  on_segment : Ambient → Sock → SocketAddr → SegmentMeta → Sock * list (Callback Cookie TcpError);
  call_connect : Ambient → Sock → SocketAddr →
    Sock * list (Callback Cookie TcpError) * result unit (StateError Cookie TcpError);
  call_listen : Ambient → Sock → Z →
    Sock * list (Callback Cookie TcpError) * result unit (StateError Cookie TcpError);
  call_shutdown : Ambient → Sock →
    Sock * list (Callback Cookie TcpError) * result unit (StateError Cookie TcpError);
  call_close : Ambient → Sock →
    Sock * list (Callback Cookie TcpError) * result unit (StateError Cookie TcpError);
  call_abort : Ambient → Sock →
    Sock * list (Callback Cookie TcpError) * result unit (StateError Cookie TcpError);
  call_send : Ambient → Sock → list Z →
    Sock * list (Callback Cookie TcpError) * result unit (StateError Cookie TcpError);
  (** the buffer as it is left, and how much of it is data *)
  call_recv : Ambient → Sock → list Z →
    Sock * list (Callback Cookie TcpError) * result (list Z * nat) (StateError Cookie TcpError);
  (** the new connection and the calls to its own user data *)
  call_accept : Ambient → Sock →
    Sock * list (Callback Cookie TcpError) *
    result (SocketAddr * Conn * list (Callback Cookie TcpError)) (StateError Cookie TcpError);
  conn_remote : Conn → SocketAddr;
  conn_into : Conn → Sock;
}.

(** ** socket_ipc_protocol.rs *)

Inductive NetworkError :=
| NoInterfaces
| NoRouters
| NoArpEntry
| NoIpAddr
| NameResolution
| InvalidSocketAddr.

Inductive BindError := AlreadyInUse | NotAcceptable | NoPortsAvailable | PermissionDenied.

Inductive OptionKey := NagleDelayKey.
Inductive SockOption := NagleDelay (d : Z).

Inductive Request :=
| Req_GetState
| Req_GetOption (k : OptionKey)
| Req_SetOption (o : SockOption)
| Req_Connect (to : SocketAddr)
| Req_Listen (backlog : Z)
| Req_Accept
| Req_Shutdown
| Req_Close
| Req_Abort
| Req_Recv (n : Z)
| Req_Send (data : list Z)
| Req_Remove.

(** ** ports.rs *)

Definition RANGE_DYNAMIC : list Z := seqZ 49152 16384.

(** [random] is the little-endian value of two random bytes; [RangeInclusive::len] is 16384. *)
Definition random_dynamic_port (random : Z) : Z :=
  49152 + random mod Z.of_nat (length RANGE_DYNAMIC).

(** ** tcp_handler.rs *)

Inductive SuspendMode := Continue | Retry (r : Request).

Record Binding := MkBinding { local : SocketAddr; remote : option SocketAddr }.

#[global] Instance Binding_eq_dec : EqDecision Binding.
Proof. solve_decision. Defined.
#[global] Instance Binding_countable : Countable Binding.
Proof.
  refine (inj_countable' (λ b, (local b, remote b)) (λ p, MkBinding p.1 p.2) _). by intros [].
Defined.

Definition Binding_match_any (local_port : Z) : Binding :=
  MkBinding (MkSocketAddr (V4 Ipv4Addr_ZERO) local_port) None.

Section handler.
Context `{!TcpStack}.

Inductive SockReply :=
| Rep_State (s : ConnectionState)
| Rep_Option (o : SockOption)
| Rep_Recv (data : list Z)
| Rep_Accept (addr : SocketAddr) (id : Z)
| Rep_NoData.

Abbreviation state_error := (StateError Cookie TcpError).

Inductive SockError := SE_Network (e : NetworkError) | SE_Tcp (e : state_error).

(** What a caller is told. *)
Inductive TcpAnswer := Replied (r : result SockReply SockError) | Nacked.

(** [sd_topic] is the number in the topic of the socket. *)
Record SocketData := MkSocketData {
  sd_topic : Z;
  local_port : Z;
  send_error : option NetworkError;
  events_suspended : gmap Cookie (SuspendMode * Z);
  events_ready : list (SuspendMode * Z * result unit state_error);
}.

Definition SocketData_new (topic local_port : Z) : SocketData := MkSocketData topic local_port None ∅ [].

Definition set_send_error (e : option NetworkError) (sd : SocketData) : SocketData :=
  MkSocketData (sd_topic sd) (local_port sd) e (events_suspended sd) (events_ready sd).
Definition set_suspended (m : gmap Cookie (SuspendMode * Z)) (sd : SocketData) : SocketData :=
  MkSocketData (sd_topic sd) (local_port sd) (send_error sd) m (events_ready sd).
Definition set_ready (l : list (SuspendMode * Z * result unit state_error)) (sd : SocketData)
    : SocketData :=
  MkSocketData (sd_topic sd) (local_port sd) (send_error sd) (events_suspended sd) l.

Record Socket := MkSocket { sock : Sock; user_data : SocketData }.

Record TcpHandler := MkHandler { bindings : gmap Binding Z; sockets : gmap Z Socket }.

(** The handler with [NEXT_SOCKET_ID] and the traces. *)
Record tcpd := MkTcpd {
  handler : TcpHandler;
  next_socket_id : Z;
  tcp_sent : list (list Z);
  answers : list (Z * TcpAnswer);
}.

Definition TcpHandler_new : TcpHandler := MkHandler ∅ ∅.

Definition set_handler (h : TcpHandler) (t : tcpd) : tcpd :=
  MkTcpd h (next_socket_id t) (tcp_sent t) (answers t).
Definition add_sent (out : list (list Z)) (t : tcpd) : tcpd :=
  MkTcpd (handler t) (next_socket_id t) (tcp_sent t ++ out) (answers t).
Definition add_answer (ctx : Z) (a : TcpAnswer) (t : tcpd) : tcpd :=
  MkTcpd (handler t) (next_socket_id t) (tcp_sent t) (answers t ++ [(ctx, a)]).

(** Changing a socket in place. *)
Definition put_socket (id : Z) (s : Socket) (t : tcpd) : tcpd :=
  set_handler (MkHandler (bindings (handler t)) (<[id := s]> (sockets (handler t)))) t.
Definition put_data (id : Z) (s : Socket) (sd : SocketData) (t : tcpd) : tcpd :=
  put_socket id (MkSocket (sock s) sd) t.

(** [NEXT_SOCKET_ID.fetch_add(1)] *)
Definition new_socket_id (t : tcpd) : Z * tcpd :=
  (next_socket_id t, MkTcpd (handler t) (wrap64 (next_socket_id t + 1)) (tcp_sent t) (answers t)).

Section env.
(** Whether packets can be published, the reply to a caller delivered, a negative acknowledgement
    sent, and a topic with a number opened. *)
Context (nic : bool) (delivers nacks pipe_ok : Z → bool) (ns : NetState).

(** *** Sending *)

Definition SocketData_send_inner (self : SocketData) (to : SocketAddr) (seg : SegmentMeta)
    : outcome (result (list (list Z)) NetworkError) :=
  match default_send_interface ns with
  | None => Ret (Err NoInterfaces)
  | Some intf =>
  match head (routers (settings intf)) with
  | None => Ret (Err NoRouters)
  | Some router_ip =>
  match arp_table ns !! router_ip with
  | None => Ret (Err NoArpEntry)
  | Some router_mac =>
  match ipv4 (settings intf) with
  | None => Ret (Err NoIpAddr)
  | Some src_ip =>
      dst_ip ← match host to with V4 addr => Ret addr | V6 _ => Panic "IPv6 support" end;
      let payload := tcp_Builder_new src_ip dst_ip (local_port self) (port to) (seqn seg) (ackn seg)
        (seg_window seg) (seg_flags seg) (seg_data seg) in
      out ← send nic (pad64 (Frame_to_bytes (MkFrame (MkFrameHeader router_mac (if_mac intf) ET_Ipv4)
        (tcp_Builder_build payload))));
      Ret (Ok out)
  end end end end.

Definition SocketData_send (self : SocketData) (to : SocketAddr) (seg : SegmentMeta)
    : outcome (SocketData * list (list Z)) :=
  r ← SocketData_send_inner self to seg;
  match r with
  | Ok out => Ret (self, out)
  | Err err => Ret (set_send_error (Some err) self, [])
  end.

Definition SocketData_event (self : SocketData) (cookie : Cookie) (r : result unit state_error)
    : outcome SocketData :=
  '(smode, reply_ctx) ← expect (events_suspended self !! cookie) "No such event";
  Ret (set_ready (events_ready self ++ [(smode, reply_ctx, r)])
        (set_suspended (delete cookie (events_suspended self)) self)).

(** The calls an operation of the crate makes. *)
Fixpoint run_callbacks (self : SocketData) (cbs : list (Callback Cookie TcpError))
    : outcome (SocketData * list (list Z)) :=
  match cbs with
  | [] => Ret (self, [])
  | cb :: cbs =>
      '(self, out) ← match cb with
        | CbSend to seg => SocketData_send self to seg
        | CbEvent cookie r => self ← SocketData_event self cookie r; Ret (self, [])
        | CbAddTimeout _ => Ret (self, [])
        end;
      '(self, out') ← run_callbacks self cbs;
      Ret (self, out ++ out')
  end.

(** An operation of the crate on a socket of the handler. *)
Definition stack_call {A} (t : tcpd) (id : Z) (s : Socket)
    (r : Sock * list (Callback Cookie TcpError) * A) : outcome (tcpd * A) :=
  let '(k, cbs, a) := r in
  '(sd, out) ← run_callbacks (user_data s) cbs;
  Ret (add_sent out (put_socket id (MkSocket k sd) t), a).

(** *** Answering *)

(** Dropping a reply context. *)
Definition drop_ctx (ctx : Z) (t : tcpd) : outcome tcpd :=
  _ ← rassert (nacks ctx) "Failed to negative-acknowledge in drop";
  Ret (add_answer ctx Nacked t).

(** [reply_ctx.reply(r).expect(why)] *)
Definition reply (ctx : Z) (r : result SockReply SockError) (why : string) (t : tcpd) : outcome tcpd :=
  if delivers ctx then Ret (add_answer ctx (Replied r) t)
  else t ← drop_ctx ctx t; Panic why.

(** [let _ = reply_ctx.reply(r)] *)
Definition reply_ignore (ctx : Z) (r : result SockReply SockError) (t : tcpd) : outcome tcpd :=
  if delivers ctx then Ret (add_answer ctx (Replied r) t) else drop_ctx ctx t.

Fixpoint drop_all (ctxs : list Z) (t : tcpd) : outcome tcpd :=
  match ctxs with
  | [] => Ret t
  | ctx :: ctxs => t ← drop_ctx ctx t; drop_all ctxs t
  end.

(** The callers whose requests a socket holds. *)
Definition held_suspended (m : gmap Cookie (SuspendMode * Z)) : list Z := (map_to_list m).*2.*2.
Definition held_ready (l : list (SuspendMode * Z * result unit state_error)) : list Z := l.*1.*2.
Definition held (sd : SocketData) : list Z :=
  held_suspended (events_suspended sd) ++ held_ready (events_ready sd).

Definition drop_socket (s : Socket) (t : tcpd) : outcome tcpd := drop_all (held (user_data s)) t.

(** [self.sockets.insert(id, s)] *)
Definition insert_socket (id : Z) (s : Socket) (t : tcpd) : outcome tcpd :=
  let old := sockets (handler t) !! id in
  let t := put_socket id s t in
  match old with Some s => drop_socket s t | None => Ret t end.

(** [self.bindings.insert(b, id)] *)
Definition insert_binding (b : Binding) (id : Z) (t : tcpd) : tcpd :=
  set_handler (MkHandler (<[b := id]> (bindings (handler t))) (sockets (handler t))) t.

(** *** Finding a socket *)

Definition TcpHandler_socket_for (self : TcpHandler) (binding : Binding) : option Z :=
  match bindings self !! binding with
  | Some id => Some id
  | None =>
      let remote := remote binding in
      match remote, bindings self !! MkBinding (local binding) None with
      | Some _, Some id => Some id
      | _, _ =>
          let any_ip := MkSocketAddr (V4 Ipv4Addr_ZERO) (port (local binding)) in
          match bindings self !! MkBinding any_ip remote with
          | Some id => Some id
          | None => bindings self !! MkBinding any_ip None
          end
      end
  end.

Fixpoint first_free (self : TcpHandler) (ports : list Z) : option Z :=
  match ports with
  | [] => None
  | port :: ports =>
      match TcpHandler_socket_for self (Binding_match_any port) with
      | None => Some port
      | Some _ => first_free self ports
      end
  end.

(** [draws] are the random numbers, one per try. *)
Definition TcpHandler_pick_free_port (self : TcpHandler) (draws : nat → Z) : option Z :=
  match first_free self ((λ i, random_dynamic_port (draws i)) <$> seq 0 10) with
  | Some port => Some port
  | None => first_free self RANGE_DYNAMIC
  end.

(** *** Operations *)

Definition open_topic (topic : Z) : outcome unit :=
  rassert (pipe_ok topic) "IPC server creation failed".

(** The answer is the number in the topic. *)
Definition TcpHandler_new_user_socket (t : tcpd) (topic : Z) (draws : nat → Z) (port : Z)
    : outcome (tcpd * result Z BindError) :=
  let '(id, t) := new_socket_id t in
  match (if negb (port =? 0) then Some port else TcpHandler_pick_free_port (handler t) draws) with
  | None => Ret (t, Err NoPortsAvailable)
  | Some local_port =>
      _ ← open_topic topic;
      t ← insert_socket id (MkSocket Socket_new (SocketData_new topic local_port)) t;
      Ret (insert_binding (Binding_match_any local_port) id t, Ok topic)
  end.

Definition isize_max : Z := 2 ^ 63 - 1.

(** [r.map(|()| Reply::NoData)] *)
Definition no_data (r : result unit state_error) : result SockReply state_error :=
  result_map (λ _, Rep_NoData) r.

(** The requests that are one call of the crate; the accepted connection, if any, has its number,
    its remote address and its socket. *)
Definition request_call (amb : Ambient) (t : tcpd) (id : Z) (s : Socket) (request : Request)
    : outcome (tcpd * result SockReply state_error * option (Z * SocketAddr * Socket)) :=
  let simple r := '(t, r) ← stack_call t id s r; Ret (t, no_data r, None) in
  match request with
  | Req_Remove => Panic "unreachable: see remove_request"
  | Req_Accept =>
      '(t, r) ← stack_call t id s (call_accept amb (sock s));
      match r with
      | Ok (addr, conn, cbs) =>
          _ ← open_topic (amb_topic amb);
          '(sd, out) ← run_callbacks (SocketData_new (amb_topic amb) (local_port (user_data s))) cbs;
          let '(new_id, t) := new_socket_id (add_sent out t) in
          Ret (t, Ok (Rep_Accept addr new_id),
               Some (new_id, conn_remote conn, MkSocket (conn_into conn) sd))
      | Err err => Ret (t, Err err, None)
      end
  | Req_GetState => Ret (t, Ok (Rep_State (sock_state (sock s))), None)
  | Req_GetOption _ => Panic "GetOption"
  | Req_SetOption _ => Panic "SetOption"
  | Req_Connect to => simple (call_connect amb (sock s) to)
  | Req_Listen backlog => simple (call_listen amb (sock s) backlog)
  | Req_Shutdown => simple (call_shutdown amb (sock s))
  | Req_Close => simple (call_close amb (sock s))
  | Req_Abort => simple (call_abort amb (sock s))
  | Req_Send data => simple (call_send amb (sock s) data)
  | Req_Recv n =>
      _ ← rassert (n <=? isize_max) "capacity overflow";
      '(t, r) ← stack_call t id s (call_recv amb (sock s) (replicate (Z.to_nat n) 0));
      Ret (t, result_map (λ '(buffer, r), Rep_Recv (take r buffer)) r, None)
  end.

(** [drain_filter(|_, b| *b == socket_id)] *)
Definition remove_bindings (id : Z) (m : gmap Binding Z) : gmap Binding Z :=
  filter (λ x, x.2 ≠ id) m.

(** [Request::Remove] *)
Definition remove_request (amb : Ambient) (t : tcpd) (id : Z) (s : Socket) (ctx : Z) : outcome tcpd :=
  let h := handler t in
  let t := set_handler (MkHandler (remove_bindings id (bindings h)) (delete id (sockets h))) t in
  let '(k, cbs, r) := call_abort amb (sock s) in
  '(sd, out) ← run_callbacks (user_data s) cbs;
  t ← reply_ignore ctx (result_map_err SE_Tcp (no_data r)) (add_sent out t);
  drop_socket (MkSocket k sd) t.

(** [events_suspended.insert(cookie, (mode, reply_ctx))] *)
Definition suspend (t : tcpd) (id : Z) (s : Socket) (cookie : Cookie) (mode : SuspendMode) (ctx : Z)
    : outcome tcpd :=
  let m := events_suspended (user_data s) in
  let t := put_data id s (set_suspended (<[cookie := (mode, ctx)]> m) (user_data s)) t in
  match m !! cookie with Some (_, old) => drop_ctx old t | None => Ret t end.

(** What follows the call: the new connection is registered, and the caller answered or kept. *)
Definition finish_request (t : tcpd) (id : Z) (request : Request) (ctx : Z)
    (r : result SockReply state_error) (accepted : option (Z * SocketAddr * Socket))
    : outcome (tcpd * bool) :=
  t ← match accepted with
    | Some (new_id, addr, new) =>
        insert_socket new_id new (insert_binding (MkBinding
          (MkSocketAddr (V4 Ipv4Addr_ZERO) (local_port (user_data new))) (Some addr)) new_id t)
    | None => Ret t
    end;
  s ← expect (sockets (handler t) !! id) "Socket has been removed incorrectly";
  t ← match r with
    | Err (RetryAfter cookie) => suspend t id s cookie (Retry request) ctx
    | Err (ContinueAfter cookie) => suspend t id s cookie Continue ctx
    | other => reply ctx (result_map_err SE_Tcp other) "TODO: handle disconnection(?)" t
    end;
  Ret (t, true).

Definition user_socket_event_inner (amb : Ambient) (t : tcpd) (id : Z) (request : Request) (ctx : Z)
    : outcome (tcpd * bool) :=
  s ← expect (sockets (handler t) !! id) "Socket has been removed incorrectly";
  match request, send_error (user_data s) with
  | Req_Remove, _ => t ← remove_request amb t id s ctx; Ret (t, false)
  | _, Some err =>
      t ← reply ctx (Err (SE_Network err)) "TODO: disconnected"
        (put_data id s (set_send_error None (user_data s)) t);
      Ret (t, true)
  | _, None =>
      '(t, r, accepted) ← request_call amb t id s request;
      finish_request t id request ctx r accepted
  end.

(** The [for] loop over the events; [n] counts them. *)
Fixpoint events_loop (ambs : nat → Ambient) (n : nat) (id : Z) (send_error : option NetworkError)
    (events : list (SuspendMode * Z * result unit state_error)) (t : tcpd) : outcome tcpd :=
  match events with
  | [] => Ret t
  | (mode, ctx, r) :: events =>
      t ← match send_error with
        | Some error => reply ctx (Err (SE_Network error)) "TODO: disconnection" t
        | None =>
            match mode, r with
            | Retry request, Ok _ =>
                '(t, _) ← user_socket_event_inner (ambs n) t id request ctx; Ret t
            | _, _ => reply ctx (result_map_err SE_Tcp (no_data r)) "TODO: disconnection" t
            end
        end;
      events_loop ambs (S n) id send_error events t
  end.

Definition process_events (ambs : nat → Ambient) (t : tcpd) (id : Z) : outcome tcpd :=
  s ← expect (sockets (handler t) !! id) "Socket has been removed incorrectly";
  match events_ready (user_data s) with
  | [] => Ret t
  | events =>
      events_loop ambs 1 id (send_error (user_data s)) events
        (put_data id s (set_send_error None (set_ready [] (user_data s))) t)
  end.

(** [ambs 0] is for the call itself, the others are for the events. *)
Definition TcpHandler_user_socket_event (ambs : nat → Ambient) (t : tcpd) (id : Z) (request : Request)
    (ctx : Z) : outcome tcpd :=
  _ ← expect (sockets (handler t) !! id) "Socket has been removed incorrectly";
  '(t, check_events) ← user_socket_event_inner (ambs 0%nat) t id request ctx;
  if (check_events : bool) then process_events ambs t id else Ret t.

Definition TcpHandler_handle_packet (ambs : nat → Ambient) (t : tcpd) (ip_header : ipv4_Header)
    (segment : Segment) : outcome tcpd :=
  let h := tcp_header segment in
  let seg := MkSegmentMeta (sequence h) (ack_number h) (window_size h) (flags h) (tcp_payload segment) in
  let from := MkSocketAddr (V4 (src_ip ip_header)) (tcp_src_port h) in
  match TcpHandler_socket_for (handler t)
          (MkBinding (MkSocketAddr (V4 (dst_ip ip_header)) (tcp_dst_port h)) (Some from)) with
  | None => Ret t
  | Some id =>
      s ← expect (sockets (handler t) !! id) "Socket for SocketId not available";
      '(t, _) ← stack_call t id s (on_segment (ambs 0%nat) (sock s) from seg, tt);
      process_events ambs t id
  end.

End env.

(** The handler as [on_packet] of lib.rs calls it. *)
Definition TcpHandler_layer (nic : bool) (delivers nacks pipe_ok : Z → bool) (ambs : nat → Ambient)
    : TcpLayer tcpd := {|
  tcp_handle_packet t ns ip_header segment :=
    t ← TcpHandler_handle_packet nic delivers nacks pipe_ok ns ambs
      (MkTcpd (handler t) (next_socket_id t) [] (answers t)) ip_header segment;
    Ret (MkTcpd (handler t) (next_socket_id t) [] (answers t), tcp_sent t);
|}.

End handler.
