(* ===== verification/TcpProps.v ===== *)
(** * TcpProps: the TCP handler never loses a caller

    Against the laws of the protocol crate ([TcpStackLaws]), the handler never panics on well-formed
    requests, every caller is answered exactly once or still waits at one socket, and packets reach
    the socket of their connection. *)

From stdpp Require Import base gmap list strings.
From Stdlib Require Import ZArith Lia.
From S2P Require Import Prelude Net NetPackets NetDaemon TcpHandler.
Open Scope Z_scope.

(** ** What the handler relies on *)

Definition is_v4 (a : SocketAddr) : Prop := match host a with V4 _ => True | V6 _ => False end.

Section calls.
Context {C E : Type} `{Countable C}.

Definition fired (cbs : list (Callback C E)) : list C :=
  omap (λ cb, match cb with CbEvent c _ => Some c | _ => None end) cbs.
Definition targets (cbs : list (Callback C E)) : list SocketAddr :=
  omap (λ cb, match cb with CbSend to _ => Some to | _ => None end) cbs.
Definition issued {A} (r : result A (StateError C E)) : option C :=
  match r with Err (RetryAfter c) | Err (ContinueAfter c) => Some c | _ => None end.

Context {S : Type} (pending : S → gset C) (knows : S → SocketAddr → Prop).

(** One operation: each event is for a cookie that was handed out and is fired once, a cookie that
    is handed out is new, and segments go to addresses the socket was given. *)
Record call_ok (s : S) (given : option SocketAddr) (s' : S) (cbs : list (Callback C E))
    (new : option C) : Prop := {
  co_once : NoDup (fired cbs);
  co_fired : ∀ c, c ∈ fired cbs → c ∈ pending s;
  co_pending : pending s' = (pending s ∖ list_to_set (fired cbs)) ∪ option_to_set new;
  co_new : ∀ c, new = Some c → c ∉ pending s;
  co_known : ∀ to, to ∈ targets cbs ∨ knows s' to → knows s to ∨ given = Some to;
}.

End calls.

Class TcpStackLaws `{!TcpStack} := {
  pending : Sock → gset Cookie;
  knows : Sock → SocketAddr → Prop;
  new_ok : pending Socket_new = ∅ ∧ ∀ to, ¬ knows Socket_new to;
  on_segment_ok amb s from seg s' cbs : on_segment amb s from seg = (s', cbs) →
    call_ok pending knows s (Some from) s' cbs None;
  call_connect_ok amb s to s' cbs r : call_connect amb s to = (s', cbs, r) →
    call_ok pending knows s (Some to) s' cbs (issued r);
  call_listen_ok amb s backlog s' cbs r : call_listen amb s backlog = (s', cbs, r) →
    call_ok pending knows s None s' cbs (issued r);
  call_shutdown_ok amb s s' cbs r : call_shutdown amb s = (s', cbs, r) →
    call_ok pending knows s None s' cbs (issued r);
  call_close_ok amb s s' cbs r : call_close amb s = (s', cbs, r) →
    call_ok pending knows s None s' cbs (issued r);
  call_abort_ok amb s s' cbs r : call_abort amb s = (s', cbs, r) →
    call_ok pending knows s None s' cbs (issued r);
  call_send_ok amb s data s' cbs r : call_send amb s data = (s', cbs, r) →
    call_ok pending knows s None s' cbs (issued r);
  call_recv_ok amb s buffer s' cbs r : call_recv amb s buffer = (s', cbs, r) →
    call_ok pending knows s None s' cbs (issued r);
  call_accept_ok amb s s' cbs r : call_accept amb s = (s', cbs, r) →
    call_ok pending knows s None s' cbs (issued r);
  (** a new connection waits for nothing and talks to a peer of the listener *)
  accepted_ok amb s s' cbs addr conn cbs' : call_accept amb s = (s', cbs, Ok (addr, conn, cbs')) →
    fired cbs' = [] ∧ pending (conn_into conn) = ∅ ∧
    ∀ to, to ∈ targets cbs' ∨ knows (conn_into conn) to → knows s to;
}.

(** A request the daemon implements: options are not, a segment to an IPv6 address cannot be sent,
    and the buffer of [Recv] has to be one that can exist. *)
Definition request_ok (r : Request) : Prop :=
  match r with
  | Req_GetOption _ | Req_SetOption _ => False
  | Req_Connect to => is_v4 to
  | Req_Recv n => 0 ≤ n ≤ isize_max
  | _ => True
  end.

Definition mode_ok (m : SuspendMode) : Prop :=
  match m with Retry r => request_ok r ∧ r ≠ Req_Remove | Continue => True end.

(** ** Maps of lists *)

Section concat_map.
Context {K A : Type} `{Countable K} (f : A → list Z).

Definition concat_map (m : gmap K A) : list Z := concat (f <$> (map_to_list m).*2).

Lemma concat_map_new k a m :
  m !! k = None → concat_map (<[k := a]> m) ≡ₚ f a ++ concat_map m.
Proof. intros Hk. unfold concat_map. by rewrite map_to_list_insert. Qed.

Lemma concat_map_delete k a m :
  m !! k = Some a → concat_map m ≡ₚ f a ++ concat_map (delete k m).
Proof. intros Hk. unfold concat_map. by rewrite <- (map_to_list_delete m k a Hk). Qed.

Lemma concat_map_update k a b m :
  m !! k = Some a → concat_map (<[k := b]> m) ++ f a ≡ₚ concat_map m ++ f b.
Proof.
  intros Hk. rewrite <- insert_delete_eq, concat_map_new by apply lookup_delete_eq.
  rewrite (concat_map_delete k a m Hk). rewrite (comm (++) (f a)), <- (assoc (++)).
  rewrite (comm (++) (f b)), <- !(assoc (++)). done.
Qed.

End concat_map.

(** [m] returns and what it returns satisfies [Q]. *)
Definition runs {A} (m : outcome A) (Q : A → Prop) : Prop := ∃ a, m = Ret a ∧ Q a.

Lemma runs_ret {A} (a : A) (Q : A → Prop) : Q a → runs (Ret a) Q.
Proof. by exists a. Qed.

Lemma runs_bind {A B} (m : outcome A) (f : A → outcome B) (Q : B → Prop) (R : A → Prop) :
  runs m R → (∀ a, R a → runs (f a) Q) → runs (m ≫= f) Q.
Proof. intros (a & -> & Ha) Hf. by apply Hf. Qed.

Lemma runs_weaken {A} (m : outcome A) (Q R : A → Prop) : runs m R → (∀ a, R a → Q a) → runs m Q.
Proof. intros (a & -> & Ha) HQ. exists a. auto. Qed.

Section props.
Context `{!TcpStack} `{!TcpStackLaws}.
Context (delivers nacks pipe_ok : Z → bool).
Context (Hdel : ∀ x, delivers x = true) (Hnack : ∀ x, nacks x = true) (Hpipe : ∀ x, pipe_ok x = true).

Implicit Types (t : tcpd) (s : Socket) (sd : SocketData).

(** ** The user data of a socket *)

Record data_ok (sd : SocketData) : Prop := {
  do_suspended : ∀ c m ctx, events_suspended sd !! c = Some (m, ctx) → mode_ok m;
  do_ready : Forall (λ e, mode_ok e.1.1) (events_ready sd);
}.

(** [new] is a cookie that was handed out and is not yet in the table. *)
Record socket_ok (new : option Cookie) (s : Socket) : Prop := {
  so_data : data_ok (user_data s);
  so_pending : pending (sock s) = dom (events_suspended (user_data s)) ∪ option_to_set new;
  so_new : ∀ c, new = Some c → events_suspended (user_data s) !! c = None;
  so_known : ∀ to, knows (sock s) to → is_v4 to;
}.

Lemma held_suspended_concat (m : gmap Cookie (SuspendMode * Z)) :
  held_suspended m = concat_map (λ x, [x.2]) m.
Proof.
  unfold held_suspended, concat_map. induction (map_to_list m).*2 as [|x l IH]; [done|].
  cbn. by rewrite IH.
Qed.

Lemma event_ok_data sd c r :
  data_ok sd → c ∈ dom (events_suspended sd) →
  runs (SocketData_event sd c r) (λ sd', data_ok sd' ∧
    dom (events_suspended sd') = dom (events_suspended sd) ∖ {[c]} ∧
    held sd' ≡ₚ held sd ∧ local_port sd' = local_port sd).
Proof.
  intros [Hs Hr] [[m ctx] Hc]%elem_of_dom. unfold SocketData_event. rewrite Hc. apply runs_ret.
  split_and!; [split| | |done]; cbn.
  - intros c' m' ctx' [_ Hl]%lookup_delete_Some. by eapply Hs.
  - apply Forall_app. split; [done|]. constructor; [|done]. cbn. by eapply Hs.
  - apply dom_delete_L.
  - unfold held, held_ready. cbn. rewrite !held_suspended_concat, !fmap_app. cbn.
    rewrite (concat_map_delete _ c (m, ctx) (events_suspended sd)) by done. cbn. solve_Permutation.
Qed.

Lemma send_ok_data ns sd to seg :
  data_ok sd → is_v4 to →
  runs (SocketData_send true ns sd to seg) (λ '(sd', _), data_ok sd' ∧
    dom (events_suspended sd') = dom (events_suspended sd) ∧
    held sd' ≡ₚ held sd ∧ local_port sd' = local_port sd).
Proof.
  intros [Hs Hr] Hto. unfold SocketData_send, SocketData_send_inner.
  destruct (default_send_interface ns) as [i|]; [|by apply runs_ret].
  destruct (head (routers (settings i))); [|by apply runs_ret].
  destruct (arp_table ns !! _); [|by apply runs_ret].
  destruct (ipv4 (settings i)); [|by apply runs_ret].
  unfold is_v4 in Hto. destruct (host to); [|done]. by apply runs_ret.
Qed.

Lemma callbacks_run ns sd cbs :
  data_ok sd → NoDup (fired cbs) → (∀ c, c ∈ fired cbs → c ∈ dom (events_suspended sd)) →
  (∀ to, to ∈ targets cbs → is_v4 to) →
  runs (run_callbacks true ns sd cbs) (λ '(sd', _), data_ok sd' ∧
    dom (events_suspended sd') = dom (events_suspended sd) ∖ list_to_set (fired cbs) ∧
    held sd' ≡ₚ held sd ∧ local_port sd' = local_port sd).
Proof.
  revert sd. induction cbs as [|cb cbs IH]; intros sd Hd Hnd Hf Ht; cbn [run_callbacks].
  { apply runs_ret. split_and!; try done. set_solver. }
  destruct cb as [to seg|c r|]; cbn in Hnd, Hf, Ht.
  - eapply runs_bind; [apply send_ok_data; [done|apply Ht; left]|].
    intros [sd1 out] (Hd1 & Hdom & Hheld & Hp). eapply runs_bind.
    { apply IH; [done|done|by rewrite Hdom|]. intros to' Hto. apply Ht. by right. }
    intros [sd2 out2] (Hd2 & Hdom2 & Hheld2 & Hp2). apply runs_ret. split_and!; [done| | |congruence].
    + cbn. by rewrite Hdom2, Hdom.
    + by rewrite Hheld2.
  - apply NoDup_cons in Hnd as [Hc Hnd].
    eapply runs_bind with (R := λ '(sd', _), _).
    { destruct (event_ok_data sd c r Hd) as (sd1 & -> & Hsd1); [apply Hf; left|]. apply runs_ret. exact Hsd1. }
    intros [sd1 out] (Hd1 & Hdom & Hheld & Hp). eapply runs_bind.
    { apply IH; [done|done| |done]. intros c' Hc'. rewrite Hdom. apply elem_of_difference. split.
      - apply Hf. by right.
      - intros ->%elem_of_singleton. done. }
    intros [sd2 out2] (Hd2 & Hdom2 & Hheld2 & Hp2). apply runs_ret. split_and!; [done| | |congruence].
    + cbn. rewrite Hdom2, Hdom. set_solver.
    + by rewrite Hheld2.
  - cbn [mbind outcome_bind]. destruct (IH sd Hd Hnd Hf Ht) as ([sd' out] & -> & HQ). by apply runs_ret.
Qed.

(** An operation of the crate on the user data of a socket. *)
Lemma call_runs ns s given k cbs new :
  socket_ok None s → call_ok pending knows (sock s) given k cbs new →
  (∀ to, given = Some to → is_v4 to) →
  runs (run_callbacks true ns (user_data s) cbs) (λ '(sd, _),
    socket_ok new (MkSocket k sd) ∧ held sd ≡ₚ held (user_data s) ∧
    local_port sd = local_port (user_data s)).
Proof.
  intros [Hd Hp _ Hk] [Ho Hf Hpend Hnew Hkn] Hg. cbn in Hp. rewrite union_empty_r_L in Hp.
  eapply runs_weaken.
  { apply callbacks_run; [done|done| |].
    - intros c Hc. rewrite <- Hp. by apply Hf.
    - intros to Hto. destruct (Hkn to (or_introl Hto)); auto. }
  intros [sd out] (Hd' & Hdom & Hheld & Hport). split; [split|done]; cbn; [done| | |].
  - by rewrite Hpend, Hdom, Hp.
  - intros c Hc. apply not_elem_of_dom. rewrite Hdom, <- Hp. set_solver.
  - intros to Hto. destruct (Hkn to (or_intror Hto)); auto.
Qed.

(** ** The handler *)

Abbreviation held_by := (λ s, held (user_data s)).

Definition all_held (t : tcpd) : list Z := concat_map held_by (sockets (handler t)).

(** Every caller that was answered or waits. *)
Definition callers (t : tcpd) : list Z := (answers t).*1 ++ all_held t.

Record tcp_inv (t : tcpd) : Prop := {
  ti_bound : ∀ b id, bindings (handler t) !! b = Some id → is_Some (sockets (handler t) !! id);
  ti_any : ∀ b id, bindings (handler t) !! b = Some id → host (local b) = V4 Ipv4Addr_ZERO;
  ti_ids : ∀ id s, sockets (handler t) !! id = Some s → 0 ≤ id < next_socket_id t;
  ti_next : 0 ≤ next_socket_id t;
  ti_sockets : ∀ id s, sockets (handler t) !! id = Some s → socket_ok None s;
}.

(** Socket numbers are handed out at most once per caller. *)
Definition used (t : tcpd) : Z := next_socket_id t + Z.of_nat (length (all_held t)).

(** From [t], with the callers [ctxs], to [t']. *)
Record served (t : tcpd) (ctxs : list Z) (t' : tcpd) : Prop := {
  sv_inv : tcp_inv t';
  sv_callers : callers t' ≡ₚ callers t ++ ctxs;
  sv_used : used t' ≤ used t + Z.of_nat (length ctxs);
}.

Definition keeps (t t' : tcpd) : Prop :=
  ∀ id, is_Some (sockets (handler t) !! id) → is_Some (sockets (handler t') !! id).

Lemma served_trans t1 a t2 b t3 : served t1 a t2 → served t2 b t3 → served t1 (a ++ b) t3.
Proof.
  intros [I1 C1 U1] [I2 C2 U2]. split; [done| |].
  - by rewrite C2, C1, (assoc (++)).
  - rewrite length_app. lia.
Qed.

Lemma all_held_put t id s s' :
  sockets (handler t) !! id = Some s →
  all_held (put_socket id s' t) ++ held_by s ≡ₚ all_held t ++ held_by s'.
Proof. intros Hs. apply (concat_map_update held_by id s s' _ Hs). Qed.

Lemma inv_put t id s s' :
  tcp_inv t → sockets (handler t) !! id = Some s → socket_ok None s' → tcp_inv (put_socket id s' t).
Proof.
  intros [Hb Ha Hi Hn Hs] Hid Hs'. split; cbn; [|done| |done|].
  - intros b i Hbi. destruct (decide (id = i)) as [->|Hne]; [rewrite lookup_insert_eq; eauto|].
    rewrite lookup_insert_ne by done. eauto.
  - intros i x [[<- <-]|[_ Hx]]%lookup_insert_Some; eauto.
  - intros i x [[<- <-]|[_ Hx]]%lookup_insert_Some; eauto.
Qed.

Lemma keeps_put t id s : keeps t (put_socket id s t).
Proof. intros i Hi. cbn. destruct (decide (id = i)) as [->|]; [rewrite lookup_insert_eq; eauto|]. by rewrite lookup_insert_ne. Qed.

Lemma inv_traces t t' :
  tcp_inv t → handler t' = handler t → next_socket_id t' = next_socket_id t → tcp_inv t'.
Proof. intros [Hb Ha Hi Hn Hs] Hh Hn'. split; by rewrite ?Hh, ?Hn'. Qed.

(** A socket is replaced, with [gain] more callers that wait and [ans] more answers. *)
Lemma served_put t id s s' gain out ans :
  tcp_inv t → sockets (handler t) !! id = Some s → socket_ok None s' →
  held_by s' ≡ₚ held_by s ++ gain →
  served t (gain ++ ans.*1) (MkTcpd (handler (put_socket id s' t)) (next_socket_id t) out (answers t ++ ans)).
Proof.
  intros Hinv Hs Hs' Hheld. pose proof (all_held_put t id s s' Hs) as Hp. rewrite Hheld in Hp.
  assert (all_held (put_socket id s' t) ≡ₚ all_held t ++ gain) as Hall.
  { apply (Permutation_app_inv_r (held_by s)). rewrite Hp. solve_Permutation. }
  split.
  - apply (inv_traces (put_socket id s' t)); [by apply (inv_put t id s)|done|done].
  - unfold callers. change (all_held (MkTcpd _ _ _ _)) with (all_held (put_socket id s' t)).
    rewrite Hall. cbn. rewrite fmap_app. solve_Permutation.
  - unfold used. change (all_held (MkTcpd _ _ _ _)) with (all_held (put_socket id s' t)).
    rewrite Hall, !length_app. cbn. lia.
Qed.

(** [t] after an operation on socket [id], which is now [s']. *)
Definition after_call (t : tcpd) (id : Z) (s' : Socket) (n : Z) (out : list (list Z)) : tcpd :=
  MkTcpd (handler (put_socket id s' t)) n out (answers t).

Lemma stack_call_runs {A} ns t id s given k cbs (a : A) new :
  socket_ok None s → call_ok pending knows (sock s) given k cbs new →
  (∀ to, given = Some to → is_v4 to) →
  runs (stack_call true ns t id s (k, cbs, a)) (λ '(t', a'), a' = a ∧
    ∃ s' out, t' = after_call t id s' (next_socket_id t) out ∧
      socket_ok new s' ∧ held_by s' ≡ₚ held_by s).
Proof.
  intros Hs Hc Hg. unfold stack_call. eapply runs_bind; [by eapply call_runs|].
  intros [sd out] (Hs' & Hheld & _). apply runs_ret. split; [done|].
  by exists (MkSocket k sd), (tcp_sent t ++ out).
Qed.

(** What a request other than [Remove] leaves. *)
Definition request_post t id s
    (x : tcpd * result SockReply (StateError Cookie TcpError) * option (Z * SocketAddr * Socket)) : Prop :=
  let '(t', r, acc) := x in
  ∃ s' n out, t' = after_call t id s' n out ∧ socket_ok (issued r) s' ∧ held_by s' ≡ₚ held_by s ∧
    match acc with
    | None => n = next_socket_id t
    | Some (new_id, _, new) => issued r = None ∧ n = next_socket_id t + 1 ∧ new_id = next_socket_id t ∧
        socket_ok None new ∧ held_by new = []
    end.

Lemma simple_runs ns t id s given r :
  socket_ok None s → call_ok pending knows (sock s) given r.1.1 r.1.2 (issued r.2) →
  (∀ to, given = Some to → is_v4 to) →
  runs ('(t, r) ← stack_call true ns t id s r; Ret (t, no_data r, None)) (request_post t id s).
Proof.
  intros Hs Hc Hg. destruct r as [[k cbs] r]. eapply runs_bind; [by eapply stack_call_runs|].
  intros [t' r'] (-> & s' & out & -> & Hs' & Hheld). apply runs_ret.
  exists s', (next_socket_id t), out. split_and!; try done. by destruct r as [|[]].
Qed.

Lemma new_data_ok topic port : data_ok (SocketData_new topic port).
Proof. split; cbn; [|done]. intros c m ctx. by rewrite lookup_empty. Qed.

Lemma accept_runs ns amb t id s :
  socket_ok None s → 0 ≤ next_socket_id t < u64_max →
  runs (request_call true pipe_ok ns amb t id s Req_Accept) (request_post t id s).
Proof.
  intros Hs Hnext. cbn [request_call]. destruct (call_accept amb (sock s)) as [[k cbs] r] eqn:E.
  pose proof (call_accept_ok amb (sock s) k cbs r E) as Hc.
  eapply runs_bind; [by eapply stack_call_runs|].
  intros [t' r'] (-> & s' & out & -> & Hs' & Hheld). destruct r as [[[addr conn] cbs']|err].
  - unfold open_topic. rewrite Hpipe. cbn [rassert mbind outcome_bind].
    destruct (accepted_ok amb (sock s) k cbs addr conn cbs' E) as (Hf & Hp & Hk).
    eapply runs_bind.
    { apply callbacks_run; [apply new_data_ok|rewrite Hf; constructor|by rewrite Hf; intros ? ?%elem_of_nil|].
      intros to Hto. apply (so_known _ _ Hs). auto. }
    intros [sd out'] (Hd & Hdom & Hh & _). apply runs_ret. rewrite Hf in Hdom. cbn in Hdom, Hh.
    exists s', (next_socket_id t + 1), (out ++ out'). split_and!; try done.
    + unfold after_call, add_sent. cbn. rewrite wrap64_small; [done|]. unfold is_u64, u64_max in *. lia.
    + split; cbn; [done| |done|]; [rewrite Hp, Hdom; set_solver|]. intros to Hto. apply (so_known _ _ Hs). auto.
    + apply Permutation_nil_r. rewrite Hh. done.
  - apply runs_ret. exists s', (next_socket_id t), out. by split_and!.
Qed.

Lemma request_runs ns amb t id s request :
  sockets (handler t) !! id = Some s → socket_ok None s → 0 ≤ next_socket_id t < u64_max →
  request_ok request → request ≠ Req_Remove →
  runs (request_call true pipe_ok ns amb t id s request) (request_post t id s).
Proof.
  intros Hid Hs Hnext Hr Hne.
  destruct request as [|k|o|to|backlog| | | | |n|data|]; cbn [request_ok] in Hr; try done.
  - cbn [request_call]. apply runs_ret. exists s, (next_socket_id t), (tcp_sent t). split_and!; try done.
    unfold after_call. cbn. rewrite insert_id by done. by destruct t as [[] ? ? ?].
  - cbn [request_call]. eapply (simple_runs _ _ _ _ (Some to)); [done| |by intros ? [= <-]].
    destruct (call_connect amb (sock s) to) as [[k cbs] r] eqn:E. by eapply call_connect_ok.
  - cbn [request_call]. eapply (simple_runs _ _ _ _ None); [done| |done].
    destruct (call_listen amb (sock s) backlog) as [[k cbs] r] eqn:E. by eapply call_listen_ok.
  - by apply accept_runs.
  - cbn [request_call]. eapply (simple_runs _ _ _ _ None); [done| |done].
    destruct (call_shutdown amb (sock s)) as [[k cbs] r] eqn:E. by eapply call_shutdown_ok.
  - cbn [request_call]. eapply (simple_runs _ _ _ _ None); [done| |done].
    destruct (call_close amb (sock s)) as [[k cbs] r] eqn:E. by eapply call_close_ok.
  - cbn [request_call]. eapply (simple_runs _ _ _ _ None); [done| |done].
    destruct (call_abort amb (sock s)) as [[k cbs] r] eqn:E. by eapply call_abort_ok.
  - cbn [request_call]. rewrite (proj2 (Z.leb_le _ _)) by lia. cbn [rassert mbind outcome_bind].
    destruct (call_recv amb (sock s) _) as [[k cbs] r] eqn:E.
    eapply runs_bind; [eapply (stack_call_runs _ _ _ _ None); [done|by eapply call_recv_ok|done]|].
    intros [t' r'] (-> & s' & out & -> & Hs' & Hheld). apply runs_ret.
    exists s', (next_socket_id t), out. split_and!; try done. by destruct r as [[]|[]].
  - cbn [request_call]. eapply (simple_runs _ _ _ _ None); [done| |done].
    destruct (call_send amb (sock s) data) as [[k cbs] r] eqn:E. by eapply call_send_ok.
Qed.

(** ** New sockets *)

(** [t] with a new socket that is bound to [b]. *)
Definition with_new (t : tcpd) (b : Binding) (s : Socket) : tcpd :=
  MkTcpd (MkHandler (<[b := next_socket_id t]> (bindings (handler t)))
            (<[next_socket_id t := s]> (sockets (handler t))))
    (next_socket_id t + 1) (tcp_sent t) (answers t).

Lemma next_unused t : tcp_inv t → sockets (handler t) !! next_socket_id t = None.
Proof.
  intros Hinv. destruct (sockets (handler t) !! next_socket_id t) as [s|] eqn:E; [|done].
  apply (ti_ids _ Hinv) in E. lia.
Qed.

Lemma inv_with_new t b s :
  tcp_inv t → host (local b) = V4 Ipv4Addr_ZERO → socket_ok None s → tcp_inv (with_new t b s).
Proof.
  intros [Hb Ha Hi Hn Hs] Hhost Hok. split; cbn; [| | |lia|].
  - intros b' id [[<- <-]|[_ Hb']]%lookup_insert_Some; [rewrite lookup_insert_eq; eauto|].
    destruct (decide (next_socket_id t = id)) as [->|]; [rewrite lookup_insert_eq; eauto|].
    rewrite lookup_insert_ne by done. eauto.
  - intros b' id [[<- <-]|[_ Hb']]%lookup_insert_Some; eauto.
  - intros id x [[<- <-]|[_ Hx]]%lookup_insert_Some; [lia|]. apply Hi in Hx. lia.
  - intros id x [[<- <-]|[_ Hx]]%lookup_insert_Some; eauto.
Qed.

Lemma all_held_with_new t b s :
  tcp_inv t → held_by s = [] → all_held (with_new t b s) ≡ₚ all_held t.
Proof.
  intros Hinv Hs. unfold all_held. cbn. rewrite concat_map_new by (by apply next_unused). by rewrite Hs.
Qed.

Lemma keeps_with_new t b s : keeps t (with_new t b s).
Proof.
  intros id Hid. cbn. destruct (decide (next_socket_id t = id)) as [->|]; [rewrite lookup_insert_eq; eauto|].
  by rewrite lookup_insert_ne.
Qed.

Lemma insert_socket_fresh id s t :
  sockets (handler t) !! id = None → insert_socket nacks id s t = Ret (put_socket id s t).
Proof. intros Hid. unfold insert_socket. by rewrite Hid. Qed.

Lemma reply_delivers ctx r why t : reply delivers nacks ctx r why t = Ret (add_answer ctx (Replied r) t).
Proof. unfold reply. by rewrite Hdel. Qed.

(** ** Requests *)

Lemma suspend_socket_ok c s mode ctx :
  socket_ok (Some c) s → mode_ok mode →
  let s' := MkSocket (sock s)
    (set_suspended (<[c := (mode, ctx)]> (events_suspended (user_data s))) (user_data s)) in
  socket_ok None s' ∧ held_by s' ≡ₚ held_by s ++ [ctx].
Proof.
  intros [[Hs Hr] Hp Hn Hk] Hm. split; [split; [split| | |]|]; cbn.
  - intros c' m' ctx' [[<- [= <- <-]]|[_ Hl]]%lookup_insert_Some; eauto.
  - done.
  - rewrite Hp, dom_insert_L. cbn. set_solver.
  - done.
  - done.
  - unfold held. cbn. rewrite !held_suspended_concat, concat_map_new by auto. cbn. solve_Permutation.
Qed.

(** A suspended request. *)
Lemma suspend_served t id s s' n out c mode ctx :
  tcp_inv t → sockets (handler t) !! id = Some s → socket_ok (Some c) s' → held_by s' ≡ₚ held_by s →
  n = next_socket_id t → mode_ok mode →
  runs (suspend nacks (after_call t id s' n out) id s' c mode ctx)
    (λ t', served t [ctx] t' ∧ keeps t t').
Proof.
  intros Hinv Hs Hs' Hheld -> Hm. unfold suspend. rewrite (so_new _ _ Hs' c) by done. apply runs_ret.
  destruct (suspend_socket_ok c s' mode ctx Hs' Hm) as [Hok Hh].
  set (s2 := MkSocket (sock s') _) in Hok, Hh. rewrite Hheld in Hh.
  pose proof (served_put t id s s2 [ctx] out [] Hinv Hs Hok Hh) as Hserved. cbn in Hserved.
  rewrite app_nil_r in Hserved. unfold put_data, put_socket, after_call, set_handler. cbn.
  rewrite insert_insert_eq. split; [exact Hserved|]. intros i Hi. by apply (keeps_put t id s2).
Qed.

(** A request that is answered at once. *)
Lemma answer_served t id s s' out ctx a :
  tcp_inv t → sockets (handler t) !! id = Some s → socket_ok None s' → held_by s' ≡ₚ held_by s →
  let t' := add_answer ctx a (after_call t id s' (next_socket_id t) out) in
  served t [ctx] t' ∧ keeps t t'.
Proof.
  intros Hinv Hs Hs' Hheld. split.
  - apply (served_put t id s s' [] out [(ctx, a)]); try done. by rewrite app_nil_r.
  - intros i Hi. by apply (keeps_put t id s').
Qed.

(** An accepted connection. *)
Lemma accept_served t id s s' out b new ctx a :
  tcp_inv t → sockets (handler t) !! id = Some s → socket_ok None s' → held_by s' ≡ₚ held_by s →
  host (local b) = V4 Ipv4Addr_ZERO → socket_ok None new → held_by new = [] →
  let t' := add_answer ctx a (with_new (after_call t id s' (next_socket_id t) out) b new) in
  served t [ctx] t' ∧ keeps t t'.
Proof.
  intros Hinv Hs Hs' Hheld Hb Hnew Hh.
  destruct (answer_served t id s s' out ctx a Hinv Hs Hs' Hheld) as [[Hi Hc Hu] Hk].
  set (t1 := after_call t id s' (next_socket_id t) out) in *.
  assert (tcp_inv t1) as Hinv1 by (by apply (inv_traces (add_answer ctx a t1))).
  pose proof (all_held_with_new t1 b new Hinv1 Hh) as Hall.
  assert (length (all_held t1) = length (all_held t)) as Hlen.
  { pose proof (Permutation_length (all_held_put t id s s' Hs)) as Hp.
    rewrite !length_app, Hheld in Hp. change (all_held t1) with (all_held (put_socket id s' t)). lia. }
  split; [split|].
  - apply (inv_traces (with_new t1 b new)); [by apply inv_with_new|done|done].
  - rewrite <- Hc. unfold callers. change (all_held (add_answer ctx a ?t)) with (all_held t).
    by rewrite Hall.
  - unfold used in *. change (all_held (add_answer ctx a ?t)) with (all_held t). rewrite Hall, Hlen. cbn. lia.
  - intros i Hi'. apply (keeps_with_new t1), Hk, Hi'.
Qed.

Lemma clear_error_ok s : socket_ok None s → socket_ok None (MkSocket (sock s) (set_send_error None (user_data s))).
Proof. by intros [[Hs Hr] Hp Hn Hk]. Qed.

Lemma finish_served t id s t' r acc request ctx :
  tcp_inv t → sockets (handler t) !! id = Some s → request_post t id s (t', r, acc) →
  request_ok request → request ≠ Req_Remove →
  runs (finish_request delivers nacks t' id request ctx r acc)
    (λ '(t', b), b = true ∧ served t [ctx] t' ∧ keeps t t').
Proof.
  intros Hinv Hs (s' & n & out & -> & Hs' & Hheld & Hacc) Hr Hne. unfold finish_request.
  destruct acc as [[[new_id addr] new]|].
  - destruct Hacc as (Hiss & -> & -> & Hnew & Hh). rewrite Hiss in Hs'.
    set (b := MkBinding _ _).
    destruct (accept_served t id s s' out b new ctx
      (Replied (result_map_err SE_Tcp r)) Hinv Hs Hs' Hheld eq_refl Hnew Hh) as [Hserved Hk].
    assert (id ≠ next_socket_id t) as Hid.
    { intros ->. by rewrite (next_unused t Hinv) in Hs. }
    rewrite insert_socket_fresh; [|cbn; rewrite lookup_insert_ne by done; by apply next_unused].
    cbn [mbind outcome_bind put_socket set_handler handler sockets after_call insert_binding].
    rewrite lookup_insert_ne, lookup_insert_eq by done. cbn [expect mbind outcome_bind].
    destruct r as [|[]]; try discriminate Hiss; rewrite reply_delivers; by apply runs_ret.
  - cbn [mbind outcome_bind]. cbn [after_call put_socket set_handler handler sockets].
    rewrite lookup_insert_eq. cbn [expect mbind outcome_bind]. subst n.
    change (MkTcpd _ _ _ _) with (after_call t id s' (next_socket_id t) out).
    destruct r as [x|[c|c|e]].
    + rewrite reply_delivers. apply runs_ret. split; [done|]. by apply (answer_served t id s).
    + eapply runs_bind; [by apply (suspend_served t id s)|]. intros t' Ht. by apply runs_ret.
    + eapply runs_bind; [by apply (suspend_served t id s)|]. intros t' Ht. by apply runs_ret.
    + rewrite reply_delivers. apply runs_ret. split; [done|]. by apply (answer_served t id s).
Qed.

(** A request to a socket that exists: one the daemon implements, or any when an earlier segment of
    the socket could not be sent, because then this is what the caller is told. *)
Definition accepts t (id : Z) (request : Request) : Prop :=
  ∃ s, sockets (handler t) !! id = Some s ∧ (request_ok request ∨ is_Some (send_error (user_data s))).

Lemma inner_served ns amb t id request ctx :
  tcp_inv t → used t < u64_max → accepts t id request → request ≠ Req_Remove →
  runs (user_socket_event_inner true delivers nacks pipe_ok ns amb t id request ctx)
    (λ '(t', b), b = true ∧ served t [ctx] t' ∧ keeps t t').
Proof.
  intros Hinv Hused (s & Hs & Hr) Hne. pose proof (ti_sockets _ Hinv id s Hs) as Hok.
  assert (0 ≤ next_socket_id t < u64_max) as Hnext.
  { pose proof (ti_next _ Hinv). unfold used in Hused. lia. }
  unfold user_socket_event_inner. rewrite Hs. cbn [expect mbind outcome_bind].
  destruct (send_error (user_data s)) as [err|] eqn:Herr.
  - rewrite reply_delivers.
    replace (match request with Req_Remove => _ | _ => _ end) with
      (Ret (add_answer ctx (Replied (Err (SE_Network err)))
        (put_data id s (set_send_error None (user_data s)) t), true)) by (by destruct request).
    apply runs_ret. split; [done|].
    by apply (answer_served t id s _ (tcp_sent t) ctx _ Hinv Hs (clear_error_ok s Hok)).
  - assert (request_ok request) as Hr' by (by destruct Hr as [?|[? ?]]).
    destruct (request_runs ns amb t id s request Hs Hok Hnext Hr' Hne) as ([[t' r] acc] & E & Hpost).
    rewrite E. cbn [mbind outcome_bind].
    replace (match request with Req_Remove => _ | _ => _ end) with
      (finish_request delivers nacks t' id request ctx r acc) by (by destruct request).
    by eapply finish_served.
Qed.

Lemma nacked_callers (l : list Z) : (((λ c, (c, Nacked)) <$> l : list (Z * TcpAnswer)).*1 = l).
Proof. induction l as [|x l IH]; [done|]. cbn. by f_equal. Qed.

Lemma drop_all_runs l t :
  drop_all nacks l t =
    Ret (MkTcpd (handler t) (next_socket_id t) (tcp_sent t) (answers t ++ ((λ c, (c, Nacked)) <$> l))).
Proof.
  revert t. induction l as [|c l IH]; intros t; cbn [drop_all].
  { cbn. rewrite app_nil_r. by destruct t. }
  unfold drop_ctx. rewrite Hnack. cbn [rassert mbind outcome_bind]. rewrite IH. cbn. by rewrite <- (assoc_L (++)).
Qed.

Lemma inv_remove t id :
  tcp_inv t →
  let h := MkHandler (remove_bindings id (bindings (handler t))) (delete id (sockets (handler t))) in
  ∀ t', handler t' = h → next_socket_id t' = next_socket_id t → tcp_inv t'.
Proof.
  intros [Hb Ha Hi Hn Hs] h t' Ht Hn'. split; rewrite ?Ht, ?Hn'; cbn; [| | |done|].
  - intros b i [Hbi Hne]%map_lookup_filter_Some. cbn in Hne. rewrite lookup_delete_ne by done. eauto.
  - intros b i [Hbi Hne]%map_lookup_filter_Some. eauto.
  - intros i s [_ Hl]%lookup_delete_Some. eauto.
  - intros i s [_ Hl]%lookup_delete_Some. eauto.
Qed.

Lemma remove_served ns amb t id s ctx :
  tcp_inv t → sockets (handler t) !! id = Some s →
  runs (remove_request true delivers nacks ns amb t id s ctx) (served t [ctx]).
Proof.
  intros Hinv Hs. unfold remove_request. destruct (call_abort amb (sock s)) as [[k cbs] r] eqn:E.
  eapply runs_bind.
  { eapply call_runs; [by eapply ti_sockets|by eapply call_abort_ok|done]. }
  intros [sd out] (_ & Hheld & _). unfold reply_ignore, drop_socket. rewrite Hdel.
  cbn [mbind outcome_bind]. rewrite drop_all_runs. apply runs_ret. cbn [user_data].
  assert (all_held t ≡ₚ held sd ++ concat_map held_by (delete id (sockets (handler t)))) as Hall.
  { rewrite Hheld. apply (concat_map_delete held_by id s _ Hs). }
  split.
  - by eapply inv_remove.
  - unfold callers, all_held at 1. cbn. rewrite Hall, !fmap_app, nacked_callers. cbn. solve_Permutation.
  - unfold used, all_held at 1. cbn. rewrite Hall, length_app. lia.
Qed.

(** ** Events *)

Lemma add_answer_served t ctx a : tcp_inv t → served t [ctx] (add_answer ctx a t).
Proof.
  intros Hinv. split; [by apply (inv_traces t)| |unfold used; cbn; change (all_held (add_answer _ _ t)) with (all_held t); lia].
  unfold callers. change (all_held (add_answer _ _ t)) with (all_held t). cbn. rewrite fmap_app. cbn. solve_Permutation.
Qed.

Lemma loop_served ns ambs n id err events t :
  tcp_inv t → used t + Z.of_nat (length events) ≤ u64_max → is_Some (sockets (handler t) !! id) →
  Forall (λ e, mode_ok e.1.1) events →
  runs (events_loop true delivers nacks pipe_ok ns ambs n id err events t)
    (served t (held_ready events)).
Proof.
  revert n t. induction events as [|[[mode ctx] r] events IH]; intros n t Hinv Hu Hid Hm; cbn [events_loop].
  { apply runs_ret. split; [done|by rewrite app_nil_r|cbn; lia]. }
  apply Forall_cons in Hm as [Hmode Hm]. cbn [length] in Hu.
  assert (∀ why r', runs (reply delivers nacks ctx r' why t) (λ t', served t [ctx] t' ∧ keeps t t')) as Hreply.
  { intros why r'. rewrite reply_delivers. apply runs_ret. split; [by apply add_answer_served|by intros i Hi]. }
  eapply runs_bind with (R := λ t', served t [ctx] t' ∧ keeps t t').
  - destruct err as [e|]; [apply Hreply|]. destruct mode as [|request]; [apply Hreply|].
    destruct r as [u|e]; [|apply Hreply]. destruct Hmode as [Hok Hne].
    eapply runs_bind; [apply (inner_served ns (ambs n) t id request ctx); [done|lia| |done]|].
    { destruct Hid as [s Hs]. exists s. auto. }
    intros [t' b] (_ & Hs). by apply runs_ret.
  - intros t' [Hs Hk]. eapply runs_weaken.
    + apply IH; [apply Hs| |by apply Hk|done]. pose proof (sv_used _ _ _ Hs) as Hu'. cbn in Hu'. lia.
    + intros t2 Ht2. by apply (served_trans t [ctx] t').
Qed.

(** Taking the events out of a socket. *)
Lemma take_events t id s err :
  tcp_inv t → sockets (handler t) !! id = Some s →
  let t' := put_data id s (set_send_error err (set_ready [] (user_data s))) t in
  tcp_inv t' ∧ all_held t ≡ₚ all_held t' ++ held_ready (events_ready (user_data s)).
Proof.
  intros Hinv Hs. pose proof (ti_sockets _ Hinv id s Hs) as [[Hd Hr] Hp Hn Hk]. split.
  - apply (inv_put t id s); [done|done|]. split; [split|done|done|done]; [exact Hd|constructor].
  - set (s' := MkSocket (sock s) (set_send_error err (set_ready [] (user_data s)))).
    pose proof (all_held_put t id s s' Hs) as Hall.
    assert (held_by s ≡ₚ held_by s' ++ held_ready (events_ready (user_data s))) as Hh.
    { unfold held. cbn. by rewrite app_nil_r. }
    rewrite Hh in Hall. apply (Permutation_app_inv_r (held_by s')). rewrite <- Hall. unfold put_data.
    fold s'. solve_Permutation.
Qed.

Lemma process_served ns ambs t id :
  tcp_inv t → used t ≤ u64_max → is_Some (sockets (handler t) !! id) →
  runs (process_events true delivers nacks pipe_ok ns ambs t id) (served t []).
Proof.
  intros Hinv Hu [s Hs]. unfold process_events. rewrite Hs. cbn [expect mbind outcome_bind].
  destruct (take_events t id s None Hinv Hs) as [Hinv1 Hall].
  pose proof (do_ready _ (so_data _ _ (ti_sockets _ Hinv id s Hs))) as Hready.
  set (t1 := put_data id s _ t) in *. destruct (events_ready (user_data s)) as [|e events] eqn:E.
  { apply runs_ret. split; [done|by rewrite app_nil_r|cbn; lia]. }
  assert (length (all_held t) = length (all_held t1) + length (e :: events))%nat as Hlen.
  { rewrite Hall, length_app. f_equal. unfold held_ready. by rewrite !length_fmap. }
  eapply runs_weaken.
  - apply loop_served; [done| |apply keeps_put; eauto|done]. unfold used in *. cbn [next_socket_id t1] in *.
    change (next_socket_id t1) with (next_socket_id t). lia.
  - intros t2 [Hi Hc Hu2]. split; [done| |].
    + rewrite Hc, app_nil_r. unfold callers. rewrite Hall. change (answers t1) with (answers t). solve_Permutation.
    + unfold used in *. change (next_socket_id t1) with (next_socket_id t) in Hu2.
      unfold held_ready in Hu2. rewrite !length_fmap in Hu2. cbn [length] in *. lia.
Qed.

Lemma served_nil t a t1 t2 : served t a t1 → served t1 [] t2 → served t a t2.
Proof. intros H1 H2. rewrite <- (app_nil_r a). by eapply served_trans. Qed.

Lemma user_event_served ns ambs t id request ctx :
  tcp_inv t → used t < u64_max → accepts t id request →
  runs (TcpHandler_user_socket_event true delivers nacks pipe_ok ns ambs t id request ctx) (served t [ctx]).
Proof.
  intros Hinv Hu Hid. unfold TcpHandler_user_socket_event. pose proof Hid as (s & Hs & _).
  rewrite Hs at 1. cbn [expect mbind outcome_bind].
  assert (request = Req_Remove ∨ request ≠ Req_Remove) as [->|Hne] by (destruct request; auto).
  - unfold user_socket_event_inner. rewrite Hs. cbn [expect mbind outcome_bind].
    destruct (remove_served ns (ambs 0%nat) t id s ctx Hinv Hs) as (t' & -> & Ht). by apply runs_ret.
  - eapply runs_bind; [by apply (inner_served ns (ambs 0%nat) t id request ctx)|].
    intros [t' b] (-> & Ht & Hk). eapply runs_weaken.
    + apply process_served; [apply Ht| |by apply Hk]. pose proof (sv_used _ _ _ Ht) as Hu'. cbn in Hu'. lia.
    + intros t2 Ht2. by eapply served_nil.
Qed.

(** ** Packets *)

(** The socket of a connection, or else the one bound to the port. *)
Lemma socket_for_connection t dst p from :
  tcp_inv t →
  TcpHandler_socket_for (handler t) (MkBinding (MkSocketAddr (V4 dst) p) (Some from)) =
    match bindings (handler t) !! MkBinding (MkSocketAddr (V4 Ipv4Addr_ZERO) p) (Some from) with
    | Some id => Some id
    | None => bindings (handler t) !! Binding_match_any p
    end.
Proof.
  intros Hinv. unfold TcpHandler_socket_for. cbn [remote local port].
  destruct (decide (dst = Ipv4Addr_ZERO)) as [->|Hne].
  { unfold Binding_match_any. destruct (_ !! MkBinding (MkSocketAddr (V4 Ipv4Addr_ZERO) p) (Some from)); [done|].
    by destruct (_ !! MkBinding (MkSocketAddr (V4 Ipv4Addr_ZERO) p) None). }
  assert (∀ r, bindings (handler t) !! MkBinding (MkSocketAddr (V4 dst) p) r = None) as Hnone.
  { intros r. destruct (bindings (handler t) !! MkBinding (MkSocketAddr (V4 dst) p) r) as [id|] eqn:E; [|done].
    apply (ti_any _ Hinv) in E. cbn in E. congruence. }
  by rewrite !Hnone.
Qed.

Lemma socket_for_exists t dst p from id :
  tcp_inv t → TcpHandler_socket_for (handler t) (MkBinding (MkSocketAddr (V4 dst) p) (Some from)) = Some id →
  is_Some (sockets (handler t) !! id).
Proof.
  intros Hinv. rewrite socket_for_connection by done.
  destruct (_ !! MkBinding _ (Some from)) eqn:E; [intros [= <-]|intros E']; by eapply ti_bound.
Qed.

Lemma call_served t id s s' out :
  tcp_inv t → sockets (handler t) !! id = Some s → socket_ok None s' → held_by s' ≡ₚ held_by s →
  served t [] (after_call t id s' (next_socket_id t) out).
Proof.
  intros Hinv Hs Hs' Hheld. pose proof (served_put t id s s' [] out [] Hinv Hs Hs') as Hput.
  rewrite (app_nil_r (answers t)) in Hput. apply Hput. by rewrite app_nil_r.
Qed.

Lemma packet_served ns ambs t h seg :
  tcp_inv t → used t ≤ u64_max →
  runs (TcpHandler_handle_packet true delivers nacks pipe_ok ns ambs t h seg) (served t []).
Proof.
  intros Hinv Hu. unfold TcpHandler_handle_packet. set (from := MkSocketAddr (V4 (src_ip h)) _).
  destruct (TcpHandler_socket_for _ _) as [id|] eqn:Efor;
    [|apply runs_ret; split; [done|by rewrite app_nil_r|cbn; lia]].
  destruct (socket_for_exists t _ _ from id Hinv Efor) as [s Hs]. rewrite Hs. cbn [expect mbind outcome_bind].
  set (meta := MkSegmentMeta _ _ _ _ _).
  destruct (on_segment (ambs 0%nat) (sock s) from meta) as [k cbs] eqn:E.
  eapply runs_bind.
  { eapply (stack_call_runs ns t id s (Some from)); [by eapply ti_sockets|by eapply on_segment_ok|].
    by intros to [= <-]. }
  intros [t' u] (_ & s' & out & -> & Hs' & Hheld).
  pose proof (call_served t id s s' out Hinv Hs Hs' Hheld) as Ht. eapply runs_weaken.
  - apply process_served; [apply Ht| |apply (keeps_put t id s'); eauto].
    pose proof (sv_used _ _ _ Ht) as Hu'. cbn in Hu'. lia.
  - intros t2 Ht2. by eapply served_nil.
Qed.

(** ** New user sockets *)

Lemma new_socket_ok topic port : socket_ok None (MkSocket Socket_new (SocketData_new topic port)).
Proof.
  destruct new_ok as [Hp Hk]. split; cbn; [apply new_data_ok|rewrite Hp; set_solver|done|].
  intros to Hto. by apply Hk in Hto.
Qed.

Lemma first_free_spec (h : TcpHandler) ports :
  match first_free h ports with
  | Some p => p ∈ ports ∧ bindings h !! Binding_match_any p = None
  | None => ∀ p, p ∈ ports → is_Some (bindings h !! Binding_match_any p)
  end.
Proof.
  assert (∀ p, TcpHandler_socket_for h (Binding_match_any p) = bindings h !! Binding_match_any p) as Hfor.
  { intros p. unfold TcpHandler_socket_for, Binding_match_any. cbn [remote local port].
    by destruct (bindings h !! _). }
  induction ports as [|p ports IH]; cbn [first_free]; [by intros p ?%elem_of_nil|].
  rewrite Hfor. destruct (bindings h !! Binding_match_any p) eqn:E; [|by split; [left|]].
  destruct (first_free h ports) as [q|].
  - destruct IH. by split; [right|].
  - intros q [->|Hq]%elem_of_cons; eauto.
Qed.

Lemma elem_of_dynamic p : p ∈ RANGE_DYNAMIC ↔ 49152 ≤ p < 65536.
Proof. unfold RANGE_DYNAMIC. rewrite elem_of_seqZ. lia. Qed.

Lemma random_port_dynamic r : random_dynamic_port r ∈ RANGE_DYNAMIC.
Proof.
  unfold random_dynamic_port, RANGE_DYNAMIC. rewrite length_seqZ, Z2Nat.id by lia. apply elem_of_seqZ.
  pose proof (Z.mod_pos_bound r 16384). lia.
Qed.

Lemma pick_free_port_spec (h : TcpHandler) draws :
  match TcpHandler_pick_free_port h draws with
  | Some p => p ∈ RANGE_DYNAMIC ∧ bindings h !! Binding_match_any p = None
  | None => ∀ p, p ∈ RANGE_DYNAMIC → is_Some (bindings h !! Binding_match_any p)
  end.
Proof.
  unfold TcpHandler_pick_free_port.
  pose proof (first_free_spec h ((λ i, random_dynamic_port (draws i)) <$> seq 0 10)) as H1.
  destruct (first_free h _) as [p|].
  - destruct H1 as [(i & -> & _)%list_elem_of_fmap H1]. by split; [apply random_port_dynamic|].
  - apply first_free_spec.
Qed.

(** What a request for a socket leaves. *)
Lemma bind_runs t topic draws p :
  tcp_inv t → next_socket_id t < u64_max →
  TcpHandler_new_user_socket nacks pipe_ok t topic draws p =
    Ret match (if negb (p =? 0) then Some p else TcpHandler_pick_free_port (handler t) draws) with
        | None => (MkTcpd (handler t) (next_socket_id t + 1) (tcp_sent t) (answers t), Err NoPortsAvailable)
        | Some lp => (with_new t (Binding_match_any lp) (MkSocket Socket_new (SocketData_new topic lp)), Ok topic)
        end.
Proof.
  intros Hinv Hn. unfold TcpHandler_new_user_socket, new_socket_id. cbn [handler].
  pose proof (ti_next _ Hinv). rewrite wrap64_small by (unfold is_u64, u64_max in *; lia).
  destruct (if negb (p =? 0) then _ else _) as [lp|]; [|done]. unfold open_topic. rewrite Hpipe.
  cbn [rassert mbind outcome_bind]. rewrite insert_socket_fresh by exact (next_unused t Hinv). done.
Qed.

Lemma bind_served t topic draws p :
  tcp_inv t → next_socket_id t < u64_max →
  runs (TcpHandler_new_user_socket nacks pipe_ok t topic draws p) (λ '(t', _), tcp_inv t' ∧
    callers t' ≡ₚ callers t ∧ used t' ≤ used t + 1).
Proof.
  intros Hinv Hn. rewrite bind_runs by done. apply runs_ret.
  destruct (if negb (p =? 0) then _ else _) as [lp|].
  - set (s := MkSocket _ _). set (b := Binding_match_any lp).
    pose proof (all_held_with_new t b s Hinv eq_refl) as Hall. split_and!.
    + apply inv_with_new; [done|done|apply new_socket_ok].
    + unfold callers. by rewrite Hall.
    + unfold used. rewrite Hall. cbn. lia.
  - split_and!; [|done|unfold used; cbn; change (all_held (MkTcpd _ _ _ _)) with (all_held t); lia].
    destruct Hinv as [Hb Ha Hi Hnx Hs]. split; cbn; try done; [|lia]. intros i s Hl. apply Hi in Hl. lia.
Qed.

(** ** The daemon's loop *)

(** What the loop of [main] hands to the handler: a segment, a request to a socket, a request for a
    socket; with the network state and the random numbers at that time. *)
Inductive TcpEvent :=
| EvPacket (ns : NetState) (ambs : nat → Ambient) (h : ipv4_Header) (seg : Segment)
| EvRequest (ns : NetState) (ambs : nat → Ambient) (id : Z) (request : Request) (ctx : Z)
| EvBind (topic : Z) (draws : nat → Z) (p : Z).

Definition tcp_step t (ev : TcpEvent) : outcome tcpd :=
  match ev with
  | EvPacket ns ambs h seg => TcpHandler_handle_packet true delivers nacks pipe_ok ns ambs t h seg
  | EvRequest ns ambs id request ctx =>
      TcpHandler_user_socket_event true delivers nacks pipe_ok ns ambs t id request ctx
  | EvBind topic draws p => fst <$> TcpHandler_new_user_socket nacks pipe_ok t topic draws p
  end.

(** Requests arrive at sockets that exist, and the socket can take them. *)
Definition tcp_event_ok t (ev : TcpEvent) : Prop :=
  match ev with
  | EvRequest _ _ id request _ => accepts t id request
  | _ => True
  end.

Definition event_callers (ev : TcpEvent) : list Z :=
  match ev with EvRequest _ _ _ _ ctx => [ctx] | _ => [] end.

(** States after [n] events with the callers [rs]. *)
Inductive tcp_reach : nat → list Z → tcpd → Prop :=
| reach_new : tcp_reach 0 [] (MkTcpd TcpHandler_new 0 [] [])
| reach_step n rs t ev t' :
    tcp_reach n rs t → tcp_event_ok t ev → tcp_step t ev = Ret t' →
    tcp_reach (S n) (rs ++ event_callers ev) t'.

Lemma step_served t ev :
  tcp_inv t → used t < u64_max → tcp_event_ok t ev →
  runs (tcp_step t ev) (λ t', tcp_inv t' ∧ callers t' ≡ₚ callers t ++ event_callers ev ∧
    used t' ≤ used t + 1).
Proof.
  intros Hinv Hu Hok. destruct ev as [ns ambs h seg|ns ambs id request ctx|topic draws p];
    cbn [tcp_event_ok tcp_step event_callers] in Hok |- *.
  - eapply runs_weaken; [apply packet_served; [done|lia]|]. intros t' [Hi Hc Hu']. cbn in Hu'. split_and!; [done|done|lia].
  - eapply runs_weaken; [by apply user_event_served|]. intros t' [Hi Hc Hu']. by split_and!.
  - assert (next_socket_id t < u64_max) as Hn by (unfold used in Hu; lia).
    destruct (bind_served t topic draws p Hinv Hn) as ([t' r] & -> & Hi & Hc & Hu'). apply runs_ret.
    cbn. rewrite app_nil_r. by split_and!.
Qed.

Definition unimplemented (request : Request) : Prop :=
  match request with
  | Req_GetOption _ | Req_SetOption _ => True
  | Req_Recv n => isize_max < n
  | _ => False
  end.

Lemma unimplemented_panics t ns ambs id request ctx s :
  sockets (handler t) !! id = Some s → send_error (user_data s) = None → unimplemented request →
  ∃ why, tcp_step t (EvRequest ns ambs id request ctx) = Panic why.
Proof.
  intros Hs He Hr. cbn [tcp_step]. unfold TcpHandler_user_socket_event, user_socket_event_inner. rewrite Hs.
  cbn [expect mbind outcome_bind]. rewrite He. destruct request; try done; cbn [request_call]; try by eexists.
  rewrite (proj2 (Z.leb_gt _ _)) by done. by eexists.
Qed.

Lemma reach_inv n rs t :
  tcp_reach n rs t → Z.of_nat n ≤ u64_max → tcp_inv t ∧ callers t ≡ₚ rs ∧ used t ≤ Z.of_nat n.
Proof.
  induction 1 as [|n rs t ev t' Hr IH Hok Hstep]; intros Hn.
  - split_and!; [|done|reflexivity]. split; cbn; try done; intros; by rewrite lookup_empty in *.
  - destruct IH as (Hinv & Hc & Hu); [lia|].
    destruct (step_served t ev Hinv ltac:(lia) Hok) as (t2 & E & Hi & Hc' & Hu').
    rewrite Hstep in E. injection E as <-. split_and!; [done|by rewrite Hc', Hc|lia].
Qed.

End props.

(** ** Properties *)

(** C17: the TCP handler serves every caller once.  After any sequence of segments, requests to
    sockets and requests for sockets, the callers that were answered and the callers whose request
    waits at a socket are together exactly the callers that made a request, each as often as it
    asked; and the handler returns from every further event.  The sequence is of events that a
    socket accepts: to a socket without a send error, no request for an option and no read of more
    than [isize_max] bytes, both of which panic, and no connection to an IPv6 address, to which
    nothing can be sent.  It is assumed that replies can be delivered, that pipes can be made, and
    that the protocol crate fires only events it has handed out. *)
Theorem tcp_answers_once `{!TcpStack} `{!TcpStackLaws} delivers nacks pipe_ok n rs t
    (Hdel : ∀ x, delivers x = true) (Hnack : ∀ x, nacks x = true) (Hpipe : ∀ x, pipe_ok x = true)
    (Hr : tcp_reach delivers nacks pipe_ok n rs t) (Hn : Z.of_nat n < u64_max) :
  (answers t).*1 ++ all_held t ≡ₚ rs ∧
  (∀ ev, tcp_event_ok t ev → ∃ t', tcp_step delivers nacks pipe_ok t ev = Ret t') ∧
  ∀ ns ambs id request ctx s, sockets (handler t) !! id = Some s → send_error (user_data s) = None →
    unimplemented request → ∃ why, tcp_step delivers nacks pipe_ok t (EvRequest ns ambs id request ctx) = Panic why.
Proof.
  destruct (reach_inv delivers nacks pipe_ok Hdel Hnack Hpipe n rs t Hr) as (Hinv & Hc & Hu); [lia|].
  split; [done|]. split; [|intros; by eapply unimplemented_panics]. intros ev Hok.
  destruct (step_served delivers nacks pipe_ok Hdel Hnack Hpipe t ev Hinv) as (t' & E & _); [lia|done|by exists t'].
Qed.

(** Segments reach the socket of their connection.  In every reachable state, a segment goes
    to the socket that is connected to its sender, else to the socket bound to its port, and that
    socket exists. *)
Theorem tcp_demultiplexes `{!TcpStack} `{!TcpStackLaws} delivers nacks pipe_ok n rs t
    (Hdel : ∀ x, delivers x = true) (Hnack : ∀ x, nacks x = true) (Hpipe : ∀ x, pipe_ok x = true)
    (Hr : tcp_reach delivers nacks pipe_ok n rs t) (Hn : Z.of_nat n < u64_max) dst p from :
  let found := TcpHandler_socket_for (handler t) (MkBinding (MkSocketAddr (V4 dst) p) (Some from)) in
  found = match bindings (handler t) !! MkBinding (MkSocketAddr (V4 Ipv4Addr_ZERO) p) (Some from) with
          | Some id => Some id
          | None => bindings (handler t) !! Binding_match_any p
          end ∧
  ∀ id, found = Some id → is_Some (sockets (handler t) !! id).
Proof.
  destruct (reach_inv delivers nacks pipe_ok Hdel Hnack Hpipe n rs t Hr) as (Hinv & _ & _); [lia|].
  split; [by apply socket_for_connection|]. intros id. by apply socket_for_exists.
Qed.

(** A socket that asks for any port gets a free one.  The port is dynamic, was not bound, and
    is bound to the new socket alone; all other bindings and sockets stay as they were.  The request
    fails only when every dynamic port is bound. *)
Theorem any_port_is_free `{!TcpStack} `{!TcpStackLaws} nacks pipe_ok t topic draws
    (Hpipe : ∀ x, pipe_ok x = true) (Hinv : tcp_inv t) (Hn : next_socket_id t < u64_max) :
  ∃ t' r, TcpHandler_new_user_socket nacks pipe_ok t topic draws 0 = Ret (t', r) ∧
  match r with
  | Ok topic' => topic' = topic ∧ ∃ p, 49152 ≤ p < 65536 ∧
      bindings (handler t) !! Binding_match_any p = None ∧
      bindings (handler t') = <[Binding_match_any p := next_socket_id t]> (bindings (handler t)) ∧
      sockets (handler t') = <[next_socket_id t := MkSocket Socket_new (SocketData_new topic p)]> (sockets (handler t)) ∧
      sockets (handler t) !! next_socket_id t = None
  | Err e => e = NoPortsAvailable ∧ handler t' = handler t ∧
      ∀ p, 49152 ≤ p < 65536 → is_Some (bindings (handler t) !! Binding_match_any p)
  end.
Proof.
  rewrite bind_runs by done. change (negb (0 =? 0)) with false.
  pose proof (pick_free_port_spec (handler t) draws) as Hpick.
  destruct (TcpHandler_pick_free_port (handler t) draws) as [p|]; eexists _, _; (split; [reflexivity|]).
  - destruct Hpick as [Hp%elem_of_dynamic Hfree]. split; [done|]. exists p.
    split_and!; [lia|lia|done|done|done|by apply next_unused].
  - split_and!; [done|done|]. intros p Hp. by apply Hpick, elem_of_dynamic.
Qed.

(** A socket that asks for a port by number takes it from the socket that was bound to it, which
    gets no more segments: [BindError::AlreadyInUse] is never returned. *)
Theorem bind_takes_port `{!TcpStack} `{!TcpStackLaws} nacks pipe_ok t topic draws p :
  (∀ x, pipe_ok x = true) → tcp_inv t → next_socket_id t < u64_max → p ≠ 0 →
  ∃ t', TcpHandler_new_user_socket nacks pipe_ok t topic draws p = Ret (t', Ok topic) ∧
    bindings (handler t') = <[Binding_match_any p := next_socket_id t]> (bindings (handler t)).
Proof.
  intros Hpipe Hinv Hn Hp. rewrite bind_runs by done. rewrite (proj2 (Z.eqb_neq p 0)) by done.
  cbn [negb]. eexists. split; [reflexivity|]. done.
Qed.

(** A segment to an address of the sixth version stops the daemon. *)
Theorem send_v6_panics `{!TcpStack} nic ns sd a p seg route :
  send_route ns = Some route →
  SocketData_send nic ns sd (MkSocketAddr (V6 a) p) seg = Panic "IPv6 support".
Proof.
  unfold send_route, SocketData_send, SocketData_send_inner.
  destruct (default_send_interface ns) as [i|]; [|done]. cbn [mbind option_bind].
  destruct (head (routers (settings i))); [|done]. cbn [mbind option_bind].
  destruct (arp_table ns !! _); [|done]. cbn [mbind option_bind]. by destruct (ipv4 (settings i)).
Qed.

(** ** A small protocol

    Connecting sends one segment and waits for one; a segment ends the wait. *)

Record ExampleSock := MkExampleSock { ex_count : Z; ex_waiting : option Z; ex_peer : option SocketAddr }.

Definition ex_quiet {A} (s : ExampleSock) (a : A) : ExampleSock * list (Callback Z unit) * A := (s, [], a).

#[local] Instance example_stack : TcpStack := {|
  Sock := ExampleSock;
  Conn := SocketAddr;
  Cookie := Z;
  TcpError := unit;
  ConnectionState := option SocketAddr;
  Socket_new := MkExampleSock 0 None None;
  sock_state := ex_peer;
  on_segment _ s _ _ :=
    (MkExampleSock (ex_count s) None (ex_peer s), (λ c, CbEvent c (Ok tt)) <$> option_list (ex_waiting s));
  call_connect _ s to :=
    match ex_waiting s with
    | Some _ => ex_quiet s (Err (OtherError tt))
    | None => (MkExampleSock (ex_count s + 1) (Some (ex_count s)) (Some to),
               [CbSend to (MkSegmentMeta 0 0 0 2 [])], Err (ContinueAfter (ex_count s)))
    end;
  call_listen _ s _ := ex_quiet s (Ok tt);
  call_shutdown _ s := ex_quiet s (Ok tt);
  call_close _ s := ex_quiet s (Ok tt);
  call_abort _ s := ex_quiet s (Ok tt);
  call_send _ s _ := ex_quiet s (Ok tt);
  call_recv _ s buffer := ex_quiet s (Ok (buffer, 0%nat));
  call_accept _ s :=
    ex_quiet s (match ex_peer s with Some a => Ok (a, a, []) | None => Err (OtherError tt) end);
  conn_remote a := a;
  conn_into a := MkExampleSock 0 None (Some a);
|}.

Definition ex_pending (s : ExampleSock) : gset Z := option_to_set (ex_waiting s).
Definition ex_knows (s : ExampleSock) (a : SocketAddr) : Prop := ex_peer s = Some a.

Lemma ex_quiet_ok (s : ExampleSock) given :
  call_ok (E := unit) ex_pending ex_knows s given s [] None.
Proof.
  split; cbn.
  - constructor.
  - by intros c ?%elem_of_nil.
  - set_solver.
  - done.
  - intros to [?%elem_of_nil|Hk]; [done|by left].
Qed.

#[local] Instance example_laws : TcpStackLaws.
Proof.
  refine {| pending := ex_pending; knows := ex_knows |}; cbn.
  - done.
  - intros _ s from seg s' cbs [= <- <-]. destruct s as [n [c|] p]; cbn; [|apply ex_quiet_ok].
    split; cbn.
    + repeat constructor. by intros ?%elem_of_nil.
    + set_solver.
    + unfold ex_pending. cbn. set_solver.
    + done.
    + intros to [?%elem_of_nil|Hk]; [done|by left].
  - intros _ s to s' cbs r. destruct s as [n [c|] p]; cbn; intros [= <- <- <-]; [apply ex_quiet_ok|].
    split; cbn.
    + constructor.
    + by intros c ?%elem_of_nil.
    + unfold ex_pending. cbn. set_solver.
    + set_solver.
    + intros to' [->%list_elem_of_singleton|[= <-]]; by right.
  - intros _ s backlog s' cbs r [= <- <- <-]. apply ex_quiet_ok.
  - intros _ s s' cbs r [= <- <- <-]. apply ex_quiet_ok.
  - intros _ s s' cbs r [= <- <- <-]. apply ex_quiet_ok.
  - intros _ s s' cbs r [= <- <- <-]. apply ex_quiet_ok.
  - intros _ s data s' cbs r [= <- <- <-]. apply ex_quiet_ok.
  - intros _ s buffer s' cbs r [= <- <- <-]. apply ex_quiet_ok.
  - intros _ s s' cbs r [= <- <- <-]. destruct (ex_peer s); apply ex_quiet_ok.
  - intros _ s s' cbs addr conn cbs' [= _ _ E]. destruct (ex_peer s) as [a|] eqn:Ep; [|done].
    injection E as <- <- <-. split_and!; [done|done|]. intros to [?%elem_of_nil|[= <-]]; done.
Defined.

(** A socket is made, connects and waits. *)
Definition yes (_ : Z) : bool := true.
Definition ex_ambs (_ : nat) : Ambient := MkAmbient (λ _, 0) (λ _, 0) 1.
Definition ex_server : SocketAddr := MkSocketAddr (V4 [1; 1; 1; 1]) 80.
Definition ex_ns : NetState :=
  MkNetState [MkInterface [1; 2; 3; 4; 5; 6] (MkSettings (Some [10; 0; 2; 15]) None [[10; 0; 2; 2]] [])
    (MkClient 7 [1; 2; 3; 4; 5; 6] CS_Operational) true] {[ [10; 0; 2; 2] := [6; 5; 4; 3; 2; 1] ]} ∅.

Definition ex_bind : TcpEvent := EvBind 1 (λ _, 3) 0.
Definition ex_connect : TcpEvent := EvRequest ex_ns ex_ambs 0 (Req_Connect ex_server) 7.

Definition ex_next (t : tcpd) (ev : TcpEvent) : tcpd :=
  match tcp_step yes yes yes t ev with Ret t => t | Panic _ => t end.
Definition ex_bound : tcpd := ex_next (MkTcpd TcpHandler_new 0 [] []) ex_bind.
Definition ex_connecting : tcpd := ex_next ex_bound ex_connect.

Lemma ex_reach : tcp_reach yes yes yes 2 [7] ex_connecting.
Proof.
  apply (reach_step yes yes yes 1 [] ex_bound ex_connect).
  - apply (reach_step yes yes yes 0 [] (MkTcpd TcpHandler_new 0 [] []) ex_bind ex_bound); [apply reach_new|exact I|vm_compute; reflexivity].
  - eexists. split; [vm_compute; reflexivity|]. left. exact I.
  - vm_compute. reflexivity.
Qed.

Lemma tcp_answers_once_witness :
  ((answers ex_connecting).*1 ++ all_held ex_connecting ≡ₚ [7]) ∧ all_held ex_connecting = [7].
Proof.
  split; [|vm_compute; reflexivity].
  apply (tcp_answers_once yes yes yes 2 [7] ex_connecting); try reflexivity. exact ex_reach.
Defined.

Lemma tcp_demultiplexes_witness :
  TcpHandler_socket_for (handler ex_connecting)
    (MkBinding (MkSocketAddr (V4 [10; 0; 2; 15]) 49155) (Some ex_server)) = Some 0 ∧
  is_Some (sockets (handler ex_connecting) !! 0).
Proof.
  assert (TcpHandler_socket_for (handler ex_connecting)
    (MkBinding (MkSocketAddr (V4 [10; 0; 2; 15]) 49155) (Some ex_server)) = Some 0) as E
    by (vm_compute; reflexivity).
  split; [exact E|].
  exact (proj2 (tcp_demultiplexes yes yes yes 2 [7] ex_connecting (λ _, eq_refl) (λ _, eq_refl)
    (λ _, eq_refl) ex_reach eq_refl _ _ _) 0 E).
Defined.

Lemma any_port_is_free_witness :
  ∃ t' r, TcpHandler_new_user_socket yes yes ex_connecting 2 (λ _, 3) 0 = Ret (t', r) ∧
    bindings (handler t') !! Binding_match_any 49155 = Some 0.
Proof.
  destruct (any_port_is_free yes yes ex_connecting 2 (λ _, 3) (λ _, eq_refl)) as (t' & r & E & Hr).
  - eapply reach_inv; [| | |exact ex_reach|]; done.
  - vm_compute. reflexivity.
  - exists t', r. split; [exact E|]. destruct r as [x|e].
    + destruct Hr as (_ & p & _ & Hfree & Hb & _). rewrite Hb.
      destruct (decide (p = 49155)) as [->|Hne].
      * exfalso. revert Hfree. vm_compute. discriminate.
      * rewrite lookup_insert_ne by (intros [=]; congruence). vm_compute. reflexivity.
    + destruct Hr as (_ & -> & _). vm_compute. reflexivity.
Defined.
