(* ===== verification/NetDaemonProps.v ===== *)
(** * NetDaemonProps: address configuration, address resolution and name resolution

    The theorems are about whole packets: bytes from the network card go through the parsers of
    every layer, and the packets sent are given byte for byte. *)

From stdpp Require Import base gmap list strings.
From Stdlib Require Import ZArith Lia.
From S2P Require Import TcpHandler TcpProps Prelude Bytes Net NetPackets Dns Dhcp NetDaemon.
Open Scope Z_scope.

(** ** Incoming datagrams *)

(** The handlers [main] registers. *)
Definition daemon_handlers : gmap SocketAddr UdpHandler :=
  <[MkSocketAddr (V4 Ipv4Addr_ZERO) FIXED_DNS_CLIENT := handle_udp_dns]>
    {[MkSocketAddr (V4 Ipv4Addr_ZERO) 68 := handle_udp_dhcp]}.

(** A datagram in a frame, as a peer sends it, with the padding of the link. *)
Definition datagram_frame (dmac smac : MacAddr) (src dst : Ipv4Addr) (sp dp : Z)
    (payload pad : list Z) : list Z :=
  Frame_to_bytes (MkFrame (MkFrameHeader dmac smac ET_Ipv4)
    (udp_Builder_build (udp_Builder_new src dst sp dp payload) ++ pad)).

Record datagram_ok (dmac smac : MacAddr) (src dst : Ipv4Addr) (sp dp : Z) (payload : list Z) : Prop := {
  dg_dmac : mac_ok dmac;
  dg_smac : mac_ok smac;
  dg_ips : builder_ips src dst;
  dg_sp : is_u16 sp;
  dg_dp : is_u16 dp;
  dg_bytes : Forall is_byte payload;
  dg_len : Z.of_nat (length payload) ≤ 65507;
}.

Section packets.
Context {T : Type} `{!TcpLayer T} `{!SegmentFlagBits}.
Context (nic : bool) (fuel : nat).

Lemma handler_for dst dp h :
  daemon_handlers !! MkSocketAddr (V4 Ipv4Addr_ZERO) dp = Some h →
  match daemon_handlers !! MkSocketAddr (V4 dst) dp,
        daemon_handlers !! MkSocketAddr (V4 Ipv4Addr_ZERO) dp with
  | Some handler, _ | None, Some handler => Some handler
  | None, None => None
  end = Some h.
Proof.
  intros Hh. rewrite Hh. destruct (decide (dst = Ipv4Addr_ZERO)) as [->|Hne]; [by rewrite Hh|].
  unfold daemon_handlers. by rewrite lookup_insert_ne, lookup_singleton_ne by congruence.
Qed.

(** A datagram reaches the handler of its port. *)
Lemma datagram_arrives (s : netd T) dmac smac src dst sp dp payload pad h :
  datagram_ok dmac smac src dst sp dp payload →
  udp_handlers (net_state s) = daemon_handlers →
  daemon_handlers !! MkSocketAddr (V4 Ipv4Addr_ZERO) dp = Some h →
  on_packet nic fuel s (datagram_frame dmac smac src dst sp dp payload pad) =
    run_udp_handler nic fuel h s (MkFrameHeader dmac smac ET_Ipv4)
      (MkUdpPacket (built_header src dst sp dp payload) payload).
Proof.
  intros [Hd Hsm Hips Hsp Hdp Hpl Hlen] Hh Hport. unfold on_packet, datagram_frame.
  rewrite Frame_round_trip by done. cbn [now mbind fuelled_bind frame_header frame_payload ethertype].
  destruct (udp_build_parses src dst sp dp payload pad Hips Hsp Hdp Hpl Hlen) as [E1 E2].
  rewrite E1. cbn [mbind fuelled_bind ipv4_header ipv4_payload protocol with_payload_len]. rewrite E2.
  cbn [mbind fuelled_bind udp_header dst_ip with_payload_len]. rewrite Hh.
  pose proof (handler_for dst dp h Hport) as Hf. cbn [built_header udp_dst_port].
  by repeat case_match; simplify_eq.
Qed.

End packets.

(** ** Address configuration *)

Lemma find_map_received {B} (f : DhcpOption → option B) opts :
  (∀ a, f (OptRequestedAddress a) = f OptUnknown) →
  find_map f (received <$> opts) = find_map f opts.
Proof.
  intros Hf. induction opts as [|o opts IH]; [done|]. cbn [fmap list_fmap find_map].
  fold (received <$> opts). rewrite IH. destruct o; cbn [received]; by rewrite ?Hf.
Qed.

Section dhcp.
Context (c : Client) (h : udp_Header) (p : Payload).
Context (Hp : payload_ok p) (Hop : op p = MT_REPLY).

Lemma client_reads :
  Payload_from_bytes (wire_payload p) = Ret (with_options (received <$> dhcp_options p) p).
Proof. rewrite <- (app_nil_r (wire_payload p)). by apply payload_parses. Qed.

Lemma client_accepts sid :
  client_state c = CS_Discover → find_map opt_op (dhcp_options p) = Some OFFER →
  find_map opt_server_id (dhcp_options p) = Some sid →
  Client_on_packet true c (MkUdpPacket h (wire_payload p)) =
    Ret (None, MkClient (client_id c) (client_mac c) CS_Request,
      [client_frame (client_mac c)
         (wire_payload (Payload_request (client_id c) (client_mac c) (your_ip p) sid))]).
Proof.
  intros Hc Ho Hsid. unfold Client_on_packet. cbn [udp_payload]. rewrite client_reads.
  cbn [mbind outcome_bind op dhcp_options your_ip with_options]. rewrite Hop, !find_map_received by done.
  rewrite Ho, Hsid, Hc. reflexivity.
Qed.

Lemma client_configured :
  client_state c = CS_Request → find_map opt_op (dhcp_options p) = Some ACK →
  Client_on_packet true c (MkUdpPacket h (wire_payload p)) =
    Ret (Some (MkSettings (Some (your_ip p)) (find_map opt_subnet_mask (dhcp_options p))
           (default [] (find_map opt_routers (dhcp_options p)))
           (default [] (find_map opt_dns_servers (dhcp_options p)))),
         MkClient (client_id c) (client_mac c) CS_Operational, []).
Proof.
  intros Hc Ho. unfold Client_on_packet. cbn [udp_payload]. rewrite client_reads.
  cbn [mbind outcome_bind op dhcp_options your_ip with_options]. rewrite Hop, !find_map_received by done.
  rewrite Ho, Hc. reflexivity.
Qed.

End dhcp.

Lemma arp_router_loop_sends mac ip l :
  arp_router_loop true mac ip l = Ret (arp_request_frame mac ip <$> l).
Proof. induction l as [|r l IH]; [done|]. cbn [arp_router_loop]. by rewrite IH. Qed.

Lemma interface_index_single i mac :
  mac = if_mac i ∨ mac = MacAddr_BROADCAST →
  interface_index (MkNetState [i] ∅ daemon_handlers) mac = Some 0%nat.
Proof.
  unfold interface_index. cbn [interfaces]. intros [->| ->]; case_bool_decide; try done.
  cbn. by rewrite decide_True.
Qed.

Section configure.
Context {T : Type} `{!TcpLayer T} `{!SegmentFlagBits}.
Context (fuel : nat).

(** A message of the server to the single interface of the daemon. *)
Lemma dhcp_packet (s : netd T) i i' out dmac smac src dst payload pad :
  datagram_ok dmac smac src dst 67 68 payload →
  net_state s = MkNetState [i] ∅ daemon_handlers → dmac = if_mac i ∨ dmac = MacAddr_BROADCAST →
  Interface_on_dhcp_packet true i (MkUdpPacket (built_header src dst 67 68 payload) payload) = Ret (i', out) →
  on_packet true fuel s (datagram_frame dmac smac src dst 67 68 payload pad) =
    Some (Ret (MkNetd (MkNetState [i'] ∅ daemon_handlers) (dns_resolver s) (tcp_handler s)
      (sent s ++ out) (dns_events s))).
Proof.
  intros Hok Hns Hmac Hi. rewrite (datagram_arrives true fuel s _ _ _ _ _ _ _ _ handle_udp_dhcp Hok);
    [|by rewrite Hns|done].
  cbn [run_udp_handler]. rewrite Hns. cbn [dst_mac]. rewrite interface_index_single by done.
  cbn [unwrap expect now mbind fuelled_bind interfaces index_at lookup list_lookup]. rewrite Hi. done.
Qed.

End configure.

(** ** Address resolution *)

(** The interface answers for the address. *)
Definition online (ip : Ipv4Addr) (i : Interface) : bool :=
  arp_probe_ok i && bool_decide (ipv4 (settings i) = Some ip).

(** The interface a request is for: the one with the hardware address in it, or, without one, the
    first with the protocol address. *)
Definition arp_owner (ns : NetState) (a : arp_Packet) : option Interface :=
  if bool_decide (dst_hw a = MacAddr_ZERO) then
    if bool_decide (arp_dst_ip a = Ipv4Addr_ZERO) then None
    else snd <$> list_find (online (arp_dst_ip a)) (interfaces ns)
  else
    i ← interface ns (dst_hw a);
    if online (arp_dst_ip a) i then Some i else None.

(** The reply of the owner to the sender. *)
Definition owner_reply (smac : MacAddr) (a : arp_Packet) (i : Interface) : list Z :=
  Frame_to_bytes (MkFrame (MkFrameHeader smac (if_mac i) ET_ARP)
    (arp_Packet_to_bytes (MkArp ET_Ipv4 NetPackets.Reply (if_mac i) (arp_dst_ip a) (src_hw a) (arp_src_ip a)))).

Lemma arp_reply_sent frame a i :
  operation a = Request →
  arp_reply_frame frame a i (arp_dst_ip a) = Ret (owner_reply (src_mac (frame_header frame)) a i).
Proof.
  intros Hr. unfold arp_reply_frame, arp_Packet_to_reply, arp_Packet_is_request. rewrite Hr. done.
Qed.

Lemma online_spec ip i :
  online ip i =
    (if negb (arp_probe_ok i) then false
     else match ipv4 (settings i) with Some ip' => bool_decide (ip = ip') | None => false end).
Proof.
  unfold online. destruct (arp_probe_ok i), (ipv4 (settings i)); cbn; try done.
  apply bool_decide_ext. split; [by intros [=->]|by intros ->].
Qed.

Lemma arp_reply_loop_finds frame a l :
  operation a = Request →
  arp_reply_loop true frame a l =
    Ret (option_list (owner_reply (src_mac (frame_header frame)) a ∘ snd <$>
      list_find (online (arp_dst_ip a)) l)).
Proof.
  intros Hr. induction l as [|i l IH]; [done|]. cbn [arp_reply_loop list_find].
  pose proof (arp_reply_sent frame a i Hr) as Hsent.
  pose proof (online_spec (arp_dst_ip a) i) as Hspec. rewrite IH.
  destruct (negb (arp_probe_ok i)); [rewrite Hspec; by destruct list_find|].
  destruct (ipv4 (settings i)) as [ip|]; [|rewrite Hspec; by destruct list_find].
  destruct (bool_decide_reflect (arp_dst_ip a = ip)) as [E|]; rewrite Hspec; [|by destruct list_find]. rewrite <- E.
  by rewrite Hsent.
Qed.

(** What is learned from a packet, and what is sent for it. *)
Lemma arp_handled ns frame a :
  arp_src_ip a ≠ Ipv4Addr_ZERO →
  handle_arp_packet true ns frame a =
    Ret (set_arp_table (<[arp_src_ip a := src_hw a]> (arp_table ns)) ns,
         if bool_decide (operation a = Request)
         then option_list (owner_reply (src_mac (frame_header frame)) a <$> arp_owner ns a) else []).
Proof.
  intros Hs. unfold handle_arp_packet. rewrite bool_decide_eq_false_2 by done.
  unfold arp_Packet_is_request. destruct (bool_decide_reflect (operation a = Request)) as [Hr|]; [|done].
  cbn [negb]. unfold arp_owner. case_bool_decide; cbn [negb].
  - case_bool_decide; cbn [negb]; [done|]. rewrite arp_reply_loop_finds by done. cbn [interfaces set_arp_table].
    by destruct list_find.
  - change (interface (set_arp_table _ ns) (dst_hw a)) with (interface ns (dst_hw a)).
    destruct (interface ns (dst_hw a)) as [i|]; [|done]. cbn [mbind option_bind].
    pose proof (arp_reply_sent frame a i Hr) as Hsent. rewrite online_spec.
    destruct (negb (arp_probe_ok i)); [done|]. destruct (ipv4 (settings i)) as [ip|]; [|done].
    destruct (bool_decide_reflect (arp_dst_ip a = ip)) as [E|]; [|done]. by rewrite <- E, Hsent.
Qed.

(** ** Name resolution *)

(** Two requests are told apart by their number and their question. *)
Lemma filter_other (x : Z * Query) ctx (l : list (Z * Query * Z)) :
  Forall (λ y, y.1 ≠ x) l →
  filter (λ y, bool_decide (y.1 = x) = false) (l ++ [(x, ctx)]) = l ∧
  filter (λ y, bool_decide (y.1 = x) = true) (l ++ [(x, ctx)]) = [(x, ctx)].
Proof.
  intros Hl. rewrite !filter_app, !filter_cons, !filter_nil. cbn [fst]. rewrite bool_decide_eq_true_2 by done.
  rewrite (decide_False (P := true = false)), (decide_True (P := true = true)) by done.
  rewrite app_nil_r. induction Hl as [|y l Hy Hl [IH1 IH2]]; [done|].
  rewrite !filter_cons, bool_decide_eq_false_2, decide_True, decide_False by done.
  split; [by f_equal|done].
Qed.

(** The packet a question is sent in. *)
Definition question_frame (dmac smac : MacAddr) (ip server : Ipv4Addr) (q : list Z) : list Z :=
  pad64 (Frame_to_bytes (MkFrame (MkFrameHeader dmac smac ET_Ipv4)
    (udp_Builder_build (udp_Builder_new ip server FIXED_DNS_CLIENT 53 q)))).

(** ** Properties *)

(** C21: the daemon configures its interface.  After start-up it broadcasts a discover message; an
    offer makes it request the offered address from the server that is named in the offer; the
    acknowledgement configures address, netmask, routers and name servers, and the daemon announces
    the address and asks for the hardware addresses of the routers.  The theorem is about the bytes
    of the packets, from frame to option, and about everything that is sent. *)
Theorem dhcp_configures {T : Type} `{!TcpLayer T} `{!SegmentFlagBits} (tcp : T) fuel id mac
    dmac1 dmac2 smac src dst offer ack sid pad
    (Hzero : mac ≠ MacAddr_ZERO)
    (H1 : dmac1 = mac ∨ dmac1 = MacAddr_BROADCAST) (H2 : dmac2 = mac ∨ dmac2 = MacAddr_BROADCAST)
    (Hd1 : datagram_ok dmac1 smac src dst 67 68 (wire_payload offer))
    (Hd2 : datagram_ok dmac2 smac src dst 67 68 (wire_payload ack))
    (Ho : payload_ok offer) (Hor : op offer = MT_REPLY)
    (Hoffer : find_map opt_op (dhcp_options offer) = Some OFFER)
    (Hsid : find_map opt_server_id (dhcp_options offer) = Some sid)
    (Ha : payload_ok ack) (Har : op ack = MT_REPLY)
    (Hack : find_map opt_op (dhcp_options ack) = Some ACK) :
  let ip := your_ip ack in
  let rs := default [] (find_map opt_routers (dhcp_options ack)) in
  ∃ s0 s1 s2, netd_start true id mac tcp = Ret s0 ∧
    on_packet true fuel s0 (datagram_frame dmac1 smac src dst 67 68 (wire_payload offer) pad) = Some (Ret s1) ∧
    on_packet true fuel s1 (datagram_frame dmac2 smac src dst 67 68 (wire_payload ack) pad) = Some (Ret s2) ∧
    interfaces (net_state s2) = [MkInterface mac
      (MkSettings (Some ip) (find_map opt_subnet_mask (dhcp_options ack)) rs
        (default [] (find_map opt_dns_servers (dhcp_options ack))))
      (MkClient id mac CS_Operational) true] ∧
    sent s2 =
      [client_frame mac (wire_payload (Payload_discover id mac));
       client_frame mac (wire_payload (Payload_request id mac (your_ip offer) sid));
       arp_request_frame mac Ipv4Addr_ZERO ip] ++ (arp_request_frame mac ip <$> rs).
Proof.
  intros ip rs.
  set (i c := MkInterface mac InterfaceSettings_new (MkClient id mac c) false).
  set (disc := client_frame mac (wire_payload (Payload_discover id mac))).
  set (req := client_frame mac (wire_payload (Payload_request id mac (your_ip offer) sid))).
  set (s0 := MkNetd (MkNetState [i CS_Discover] ∅ daemon_handlers) DnsResolver_new tcp [disc] []).
  set (s1 := MkNetd (MkNetState [i CS_Request] ∅ daemon_handlers) DnsResolver_new tcp [disc; req] []).
  assert (netd_start true id mac tcp = Ret s0) as E0.
  { unfold netd_start, Client_send_discover. cbn [dhcp_client Interface_new Client_new client_mac].
    by rewrite bool_decide_eq_false_2. }
  exists s0, s1. eexists. split; [done|]. split; [|split].
  - apply (dhcp_packet fuel s0 (i CS_Discover) (i CS_Request) [req]); [done|done|done|].
    unfold Interface_on_dhcp_packet. by rewrite (client_accepts _ _ offer Ho Hor sid).
  - eapply (dhcp_packet fuel s1 (i CS_Request)); [done|done|done|].
    unfold Interface_on_dhcp_packet. rewrite (client_configured _ _ ack Ha Har) by done.
    cbn [mbind outcome_bind]. unfold Interface_arp_probe, Interface_arp_router. cbn [settings ipv4 expect
      mbind outcome_bind send if_mac dhcp_client routers]. rewrite arp_router_loop_sends. reflexivity.
  - done.
Qed.

(** Requests for hardware addresses.  A packet with a sender address updates the table with
    the sender and changes nothing else of the state; a request is answered, to its sender, exactly
    when an interface that has announced its address is meant, with the addresses of that
    interface; a packet without a sender address is ignored. *)
Theorem arp_replies_exact {T : Type} `{!TcpLayer T} `{!SegmentFlagBits} (s : netd T) fuel dmac smac a pad
    (Hd : mac_ok dmac) (Hs : mac_ok smac) (Ha : arp_ok a) :
  on_packet true fuel s (Frame_to_bytes (MkFrame (MkFrameHeader dmac smac ET_ARP)
    (arp_Packet_to_bytes a ++ pad))) =
  Some (Ret (
    if bool_decide (arp_src_ip a = Ipv4Addr_ZERO) then s
    else set_net_state
      (set_arp_table (<[arp_src_ip a := src_hw a]> (arp_table (net_state s))) (net_state s))
      (if bool_decide (operation a = Request)
       then option_list (owner_reply smac a <$> arp_owner (net_state s) a) else []) s)).
Proof.
  unfold on_packet. rewrite Frame_round_trip by done.
  cbn [now mbind fuelled_bind frame_header frame_payload ethertype]. rewrite arp_round_trip by done.
  cbn [mbind fuelled_bind]. case_bool_decide as Hz.
  - unfold handle_arp_packet. cbn [arp_src_ip]. rewrite bool_decide_eq_true_2 by done.
    cbn. unfold set_net_state. rewrite app_nil_r. by destruct s.
  - by rewrite arp_handled.
Qed.

(** Names are resolved for the caller that asked.  A question goes to the first name server,
    through the router; the reply that repeats the question answers that caller with the addresses
    in it, or with the error that the domain does not exist, answers no one else and leaves the other
    questions pending. *)
Theorem dns_resolved {T : Type} `{!TcpLayer T} `{!SegmentFlagBits} (s : netd T) fuel id ctx domain qtype
    q server l rmac imac ip dmac smac src dst sp flags ns ar answers rest pad
    (Hh : udp_handlers (net_state s) = daemon_handlers)
    (Hserver : servers (dns_resolver s) = V4 server :: l)
    (Hroute : send_route (net_state s) = Some (rmac, imac, ip))
    (Hnew : Forall (λ y, y.1 ≠ (id, (domain, qtype))) (pending_requests (dns_resolver s)))
    (Hq : make_question id domain qtype = Ret q) (Hid : is_u16 id)
    (Hfl : is_u16 flags) (Hreply : Z.testbit flags 15 = true) (Htrunc : Z.testbit flags 9 = false)
    (Hrec : Z.testbit flags 7 = true) (Hrc : Z.land flags 0x0f = 0 ∨ Z.land flags 0x0f = 3)
    (Hns : is_u16 ns) (Har : is_u16 ar)
    (Hans : Forall a_record_ok answers) (Hcount : Z.of_nat (length answers) < 65536)
    (Hfuel : (length (split_bytes 46 domain) < fuel)%nat) :
  let reply := reply_header id flags (Z.of_nat (length answers)) ns ar ++ drop 12 q ++
    concat (a_record <$> answers) ++ rest in
  datagram_ok dmac smac src dst sp FIXED_DNS_CLIENT reply →
  ∃ s1, on_dns_resolve true s id ctx (domain, qtype) = Ret s1 ∧
    sent s1 = sent s ++ [question_frame rmac imac ip server q] ∧
    on_packet true fuel s1 (datagram_frame dmac smac src dst sp FIXED_DNS_CLIENT reply pad) =
    Some (Ret (MkNetd (net_state s) (dns_resolver s) (tcp_handler s) (sent s1)
      (dns_events s ++ [DnsReply ctx
        (if Z.land flags 0x0f =? 0 then Ok ((λ r, QR_A r.2) <$> answers) else Err tt)]))).
Proof.
  intros reply Hdg. destruct s as [st [srv pend] tcp out evs].
  cbn [net_state dns_resolver servers pending_requests] in Hh, Hserver, Hroute, Hnew. subst srv.
  unfold on_dns_resolve, DnsResolver_user_resolve, try_send. cbn [net_state dns_resolver servers fst snd].
  change (index_at (V4 server :: l) 0) with (Ret (V4 server)). cbn [mbind outcome_bind]. rewrite Hq.
  cbn [mbind outcome_bind]. rewrite Hroute. cbn [mbind outcome_bind].
  eexists. split; [reflexivity|]. cbn [sent]. split; [done|].
  rewrite (datagram_arrives true fuel _ _ _ _ _ _ _ _ _ handle_udp_dns Hdg) by done.
  cbn [run_udp_handler dns_resolver]. unfold DnsResolver_on_packet. cbn [udp_payload].
  unfold reply. rewrite (reply_parsed id domain qtype q) by done. cbn [mbind fuelled_bind req_id query records servers pending_requests].
  destruct (filter_other (id, (domain, qtype)) ctx pend Hnew) as [-> ->].
  cbn. rewrite app_nil_r. by destruct (Z.land flags 15 =? 0); cbn; rewrite <- ?list_fmap_compose.
Qed.

(** ** Packets that stop the daemon *)

(** A frame with an ethertype the library does not list, for instance 0x88cc. *)
Theorem unknown_ethertype_panics {T : Type} `{!TcpLayer T} `{!SegmentFlagBits} nic fuel (s : netd T)
    dmac smac e0 e1 payload :
  mac_ok dmac → mac_ok smac → EtherType_try_from (from_be [e0; e1]) = None →
  on_packet nic fuel s (dmac ++ smac ++ [e0; e1] ++ payload) = Some (Panic "Unknwn EtherType").
Proof.
  intros Hd Hs He. unfold on_packet. unfold mac_ok in Hd, Hs. fixed_length. cbn [app].
  rewrite Frame_from_bytes_cons, He. done.
Qed.

(** A DHCP message to another hardware address. *)
Theorem foreign_dhcp_panics {T : Type} `{!TcpLayer T} `{!SegmentFlagBits} nic fuel (s : netd T)
    dmac smac src dst sp payload pad :
  datagram_ok dmac smac src dst sp 68 payload → udp_handlers (net_state s) = daemon_handlers →
  interface_index (net_state s) dmac = None →
  ∃ why, on_packet nic fuel s (datagram_frame dmac smac src dst sp 68 payload pad) = Some (Panic why).
Proof.
  intros Hok Hh Hi. rewrite (datagram_arrives nic fuel s _ _ _ _ _ _ _ _ handle_udp_dhcp Hok Hh eq_refl).
  cbn [run_udp_handler dst_mac]. rewrite Hi. eexists. reflexivity.
Qed.

(** A request to resolve a name with an empty segment. *)
Theorem empty_segment_panics {T : Type} nic (s : netd T) id ctx qtype server l :
  servers (dns_resolver s) = server :: l →
  on_dns_resolve nic s id ctx ([100; 55; 46; 46; 97], qtype) = Panic "!seg.is_empty()".
Proof. intros Hs. unfold on_dns_resolve, DnsResolver_user_resolve. rewrite Hs. done. Qed.

(** ** Witnesses *)

#[local] Existing Instance example_stack.

Definition example_mac : MacAddr := [1; 2; 3; 4; 5; 6].
Definition example_server_mac : MacAddr := [6; 5; 4; 3; 2; 1].
Definition example_tcp : tcpd := MkTcpd TcpHandler_new 0 [] [].
Definition example_layer : TcpLayer tcpd := TcpHandler_layer true yes yes yes ex_ambs.

Definition example_offer : Payload :=
  MkPayload MT_REPLY 7 [0; 0; 0; 0] [10; 0; 2; 15] [10; 0; 2; 2] [0; 0; 0; 0] example_mac
    [OptOp OFFER; OptServerId [10; 0; 2; 2]].
Definition example_ack : Payload :=
  MkPayload MT_REPLY 7 [0; 0; 0; 0] [10; 0; 2; 15] [10; 0; 2; 2] [0; 0; 0; 0] example_mac
    [OptOp ACK; OptServerId [10; 0; 2; 2]; OptSubnetMask [255; 255; 255; 0]; OptRouters [[10; 0; 2; 2]];
     OptDnsServers [[10; 0; 2; 3]]].

Ltac datagram := split; [reflexivity|reflexivity|repeat split; all_bytes|unfold is_u16; lia|unfold is_u16, FIXED_DNS_CLIENT; lia|
  all_bytes|vm_compute; discriminate].

Lemma dhcp_configures_witness :
  ∃ s0 s1 s2, @netd_start tcpd true 7 example_mac example_tcp = Ret s0 ∧
    @on_packet tcpd example_layer example_flags true 0 s0
      (datagram_frame example_mac example_server_mac [10; 0; 2; 2] [10; 0; 2; 15] 67 68
        (wire_payload example_offer) []) = Some (Ret s1) ∧
    @on_packet tcpd example_layer example_flags true 0 s1
      (datagram_frame example_mac example_server_mac [10; 0; 2; 2] [10; 0; 2; 15] 67 68
        (wire_payload example_ack) []) = Some (Ret s2) ∧
    interfaces (net_state s2) = [MkInterface example_mac
      (MkSettings (Some [10; 0; 2; 15]) (Some [255; 255; 255; 0]) [[10; 0; 2; 2]] [[10; 0; 2; 3]])
      (MkClient 7 example_mac CS_Operational) true] ∧ length (sent s2) = 4%nat.
Proof.
  destruct (@dhcp_configures tcpd example_layer example_flags example_tcp 0 7 example_mac example_mac
    example_mac example_server_mac [10; 0; 2; 2] [10; 0; 2; 15] example_offer example_ack [10; 0; 2; 2] [])
    as (s0 & s1 & s2 & H0 & H1 & H2 & Hi & Hsent).
  - discriminate.
  - left. reflexivity.
  - left. reflexivity.
  - datagram.
  - datagram.
  - split; [cbn; lia|]. do 5 (split; [reflexivity|]). repeat constructor.
  - reflexivity.
  - reflexivity.
  - reflexivity.
  - split; [cbn; lia|]. do 5 (split; [reflexivity|]).
    repeat constructor.
  - reflexivity.
  - reflexivity.
  - exists s0, s1, s2. refine (conj H0 (conj H1 (conj H2 (conj Hi _)))). rewrite Hsent. reflexivity.
Defined.

(** The configured daemon. *)
Definition example_netd : netd tcpd :=
  MkNetd (MkNetState [MkInterface example_mac
    (MkSettings (Some [10; 0; 2; 15]) (Some [255; 255; 255; 0]) [[10; 0; 2; 2]] [[10; 0; 2; 3]])
    (MkClient 7 example_mac CS_Operational) true] {[ [10; 0; 2; 2] := example_server_mac ]} daemon_handlers)
    DnsResolver_new example_tcp [] [].

Definition example_request : arp_Packet :=
  MkArp ET_Ipv4 Request example_server_mac [10; 0; 2; 2] MacAddr_ZERO [10; 0; 2; 15].

Lemma arp_replies_exact_witness :
  ∃ s, @on_packet tcpd example_layer example_flags true 0 example_netd
      (Frame_to_bytes (MkFrame (MkFrameHeader MacAddr_BROADCAST example_server_mac ET_ARP)
        (arp_Packet_to_bytes example_request ++ [0; 0]))) = Some (Ret s) ∧
    sent s = [owner_reply example_server_mac example_request
      (MkInterface example_mac
        (MkSettings (Some [10; 0; 2; 15]) (Some [255; 255; 255; 0]) [[10; 0; 2; 2]] [[10; 0; 2; 3]])
        (MkClient 7 example_mac CS_Operational) true)].
Proof.
  rewrite (@arp_replies_exact tcpd example_layer example_flags example_netd 0 MacAddr_BROADCAST
    example_server_mac example_request [0; 0]).
  - eexists. split; [reflexivity|]. reflexivity.
  - reflexivity.
  - reflexivity.
  - repeat split; reflexivity.
Defined.

Definition example_question : list Z :=
  to_be 2 7 ++ to_be 2 (Z.shiftl 1 8) ++ to_be 2 1 ++ to_be 2 0 ++ to_be 2 0 ++ to_be 2 0 ++
  [2; 100; 55; 3; 111; 114; 103; 0; 0; 1; 0; 1].

Lemma dns_resolved_witness :
  ∃ s1, on_dns_resolve true example_netd 7 5 ([100; 55; 46; 111; 114; 103], QT_A) = Ret s1 ∧
    @on_packet tcpd example_layer example_flags true 3 s1
      (datagram_frame example_mac example_server_mac [1; 1; 1; 1] [10; 0; 2; 15] 53 FIXED_DNS_CLIENT
        (reply_header 7 0x8180 1 0 0 ++ drop 12 example_question ++
          concat (a_record <$> [(300, [10; 0; 0; 1])]) ++ []) []) =
    Some (Ret (MkNetd (net_state example_netd) (dns_resolver example_netd) example_tcp (sent s1)
      [DnsReply 5 (Ok [QR_A [10; 0; 0; 1]])])).
Proof.
  destruct (@dns_resolved tcpd example_layer example_flags example_netd 3 7 5
    [100; 55; 46; 111; 114; 103] QT_A example_question [1; 1; 1; 1] [V4 [1; 0; 0; 1]]
    example_server_mac example_mac [10; 0; 2; 15] example_mac example_server_mac [1; 1; 1; 1]
    [10; 0; 2; 15] 53 0x8180 0 0 [(300, [10; 0; 0; 1])] [] []) as (s1 & H1 & _ & H2).
  - reflexivity.
  - reflexivity.
  - reflexivity.
  - constructor.
  - reflexivity.
  - unfold is_u16. lia.
  - unfold is_u16. lia.
  - reflexivity.
  - reflexivity.
  - reflexivity.
  - left. reflexivity.
  - unfold is_u16. lia.
  - unfold is_u16. lia.
  - constructor; [|constructor]. split; [cbn; lia|reflexivity].
  - cbn. lia.
  - vm_compute. lia.
  - datagram.
  - exists s1. exact (conj H1 H2).
Defined.
