(* ===== verification/Services.v ===== *)
(** * Services: the service daemon (modules/daemon_service/src/lib.rs)

    Starting a process and acknowledging a message are system calls: what they return is an
    argument.  Started services and acknowledgements are traces; a message is the number of its
    acknowledge context.  Log output is left out. *)

From stdpp Require Import base gmap list strings.
From Stdlib Require Import ZArith Lia.
From S2P Require Import Prelude Abi.
Open Scope Z_scope.

(** ** State *)

Abbreviation ServiceName := string.

Record ServiceDefinition := MkDefinition {
  def_name : ServiceName;
  description : option string;
  requires : gset ServiceName;
  from_initrd : bool;
  executable : string;
}.

Record Registration := MkRegistration { reg_name : ServiceName; oneshot : bool }.

(** [started] and [acked] are the traces. *)
Record Services := MkServices {
  definitions : list ServiceDefinition;
  start_queue : list ServiceName;
  managed : gmap Z ServiceName;
  discovery : gmap ServiceName bool;
  waiting_for_all : list (gset ServiceName * Z);
  waiting_for_any : list (gset ServiceName * Z);
  started : list ServiceName;
  acked : list (Z * bool);
}.

(** [definitions] is what the file [startup_services.json] holds. *)
Definition Services_new (definitions : list ServiceDefinition) : Services :=
  MkServices definitions (def_name <$> definitions) ∅ ∅ [] [] [] [].

Definition set_start_queue (l : list ServiceName) (s : Services) : Services :=
  MkServices (definitions s) l (managed s) (discovery s) (waiting_for_all s) (waiting_for_any s)
    (started s) (acked s).
Definition set_discovery (d : gmap ServiceName bool) (s : Services) : Services :=
  MkServices (definitions s) (start_queue s) (managed s) d (waiting_for_all s) (waiting_for_any s)
    (started s) (acked s).
Definition set_managed (m : gmap Z ServiceName) (s : Services) : Services :=
  MkServices (definitions s) (start_queue s) m (discovery s) (waiting_for_all s) (waiting_for_any s)
    (started s) (acked s).
Definition set_waiting_all (l : list (gset ServiceName * Z)) (s : Services) : Services :=
  MkServices (definitions s) (start_queue s) (managed s) (discovery s) l (waiting_for_any s)
    (started s) (acked s).
Definition set_waiting_any (l : list (gset ServiceName * Z)) (s : Services) : Services :=
  MkServices (definitions s) (start_queue s) (managed s) (discovery s) (waiting_for_all s) l
    (started s) (acked s).
Definition add_acked (ctx : Z) (positive : bool) (s : Services) : Services :=
  MkServices (definitions s) (start_queue s) (managed s) (discovery s) (waiting_for_all s)
    (waiting_for_any s) (started s) (acked s ++ [(ctx, positive)]).

(** ** Operations *)

Fixpoint find_definition (l : list ServiceDefinition) (name : ServiceName) : option ServiceDefinition :=
  match l with
  | [] => None
  | def :: l => if bool_decide (def_name def = name) then Some def else find_definition l name
  end.

Definition definition_by_name (self : Services) (name : ServiceName) : option ServiceDefinition :=
  find_definition (definitions self) name.

Definition is_registered (self : Services) (name : ServiceName) : bool :=
  bool_decide (is_Some (discovery self !! name)).

(** [set.iter().all(|s| self.is_registered(s))] and [any] *)
Definition all_registered (self : Services) (names : gset ServiceName) : bool :=
  forallb (is_registered self) (elements names).
Definition any_registered (self : Services) (names : gset ServiceName) : bool :=
  existsb (is_registered self) (elements names).

Definition are_requirements_up (self : Services) (def : ServiceDefinition) : bool :=
  all_registered self (requires def).

(** The positions of the elements that satisfy [f], from position [i]. *)
Fixpoint indices_from {A} (f : A → bool) (i : nat) (l : list A) : list nat :=
  match l with
  | [] => []
  | x :: l => if f x then i :: indices_from f (S i) l else indices_from f (S i) l
  end.

(** [Vec::remove] *)
Definition vec_take_out {A} (i : nat) (l : list A) : outcome (A * list A) :=
  match l !! i with
  | Some x => Ret (x, take i l ++ drop (S i) l)
  | None => Panic "removal index should be < len"
  end.

(** [while let Some(i) = completed.pop()]: removes the elements at the positions, last first. *)
Fixpoint remove_popped {A} (popped : list nat) (l : list A) : outcome (list A * list A) :=
  match popped with
  | [] => Ret ([], l)
  | i :: popped =>
      '(x, l) ← vec_take_out i l;
      '(xs, l) ← remove_popped popped l;
      Ret (x :: xs, l)
  end.

Section daemon.
Context {Frame PfCode : Type}.
(** What [Process::spawn] returns for the [n]th process, and whether an acknowledgement succeeds. *)
Context (spawn : nat → string → option Z) (acks : Z → bool).

Definition ack (ctx : Z) (positive : bool) (self : Services) : outcome Services :=
  _ ← rassert (acks ctx) "called `Result::unwrap()` on an `Err` value";
  Ret (add_acked ctx positive self).

Fixpoint ack_all (ctxs : list Z) (self : Services) : outcome Services :=
  match ctxs with
  | [] => Ret self
  | ctx :: ctxs => self ← ack ctx true self; ack_all ctxs self
  end.

Definition start (self : Services) (def : ServiceDefinition) : outcome Services :=
  _ ← rassert (from_initrd def) "Non-initrd executables are not supported yet";
  pid ← unwrap (spawn (length (started self)) (executable def));
  Ret (MkServices (definitions self) (start_queue self) (<[pid := def_name def]> (managed self))
         (discovery self) (waiting_for_all self) (waiting_for_any self)
         (started self ++ [def_name def]) (acked self)).

(** The first loop of [step]: the positions to start, from position [i]. *)
Fixpoint start_indices (self : Services) (i : nat) (l : list ServiceName) : outcome (list nat) :=
  match l with
  | [] => Ret []
  | name :: l =>
      def ← unwrap (definition_by_name self name);
      rest ← start_indices self (S i) l;
      Ret (if are_requirements_up self def then i :: rest else rest)
  end.

(** The second loop; [popped] are the positions in the order they are popped. *)
Fixpoint start_popped (popped : list nat) (self : Services) : outcome Services :=
  match popped with
  | [] => Ret self
  | i :: popped =>
      '(name, q) ← vec_take_out i (start_queue self);
      let self := set_start_queue q self in
      def ← unwrap (definition_by_name self name);
      self ← start self def;
      start_popped popped self
  end.

Definition step (self : Services) : outcome Services :=
  indices ← start_indices self 0 (start_queue self);
  start_popped (reverse indices) self.

(** The loops of [on_register] over the waiting processes: those woken, last first, and the rest. *)
Definition wake_waiting (f : gset ServiceName → bool) (l : list (gset ServiceName * Z))
    : outcome (list Z * list (gset ServiceName * Z)) :=
  '(woken, l) ← remove_popped (reverse (indices_from (λ x, f x.1) 0 l)) l;
  Ret (woken.*2, l).

Definition on_register (self : Services) (ctx : Z) (reg : Registration) : outcome Services :=
  if bool_decide (is_Some (discovery self !! reg_name reg)) then ack ctx false self
  else
    let self := set_discovery (<[reg_name reg := oneshot reg]> (discovery self)) self in
    self ← ack ctx true self;
    '(woken, l) ← wake_waiting (all_registered self) (waiting_for_all self);
    self ← ack_all woken (set_waiting_all l self);
    '(woken, l) ← wake_waiting (any_registered self) (waiting_for_any self);
    ack_all woken (set_waiting_any l self).

Definition on_waitfor_any (self : Services) (ctx : Z) (names : gset ServiceName) : outcome Services :=
  if any_registered self names then ack ctx true self
  else Ret (set_waiting_any (waiting_for_any self ++ [(names, ctx)]) self).

Definition on_waitfor_all (self : Services) (ctx : Z) (names : gset ServiceName) : outcome Services :=
  if all_registered self names then ack ctx true self
  else Ret (set_waiting_all (waiting_for_all self ++ [(names, ctx)]) self).

(** [matches!(result, ProcessResult::Completed(0))] *)
Definition completed_zero (r : ProcessResult Frame PfCode) : bool :=
  match r with Completed code => code =? 0 | Failed _ => false end.

Definition on_process_completed (self : Services) (pid : Z) (result : ProcessResult Frame PfCode)
    : Services :=
  match managed self !! pid with
  | Some name =>
      let self := set_managed (delete pid (managed self)) self in
      match discovery self !! name with
      | Some oneshot =>
          if negb (oneshot && completed_zero result) then set_discovery (delete name (discovery self)) self else self
      | None => self
      end
  | None => self
  end.

(** ** The loop of [main] *)

Inductive ServiceEvent :=
| EvTerminated (pid : Z) (result : ProcessResult Frame PfCode)
| EvRegister (ctx : Z) (reg : Registration)
| EvWaitAny (ctx : Z) (names : gset ServiceName)
| EvWaitAll (ctx : Z) (names : gset ServiceName).

Definition handle_event (self : Services) (ev : ServiceEvent) : outcome Services :=
  match ev with
  | EvTerminated pid result => Ret (on_process_completed self pid result)
  | EvRegister ctx reg => on_register self ctx reg
  | EvWaitAny ctx names => on_waitfor_any self ctx names
  | EvWaitAll ctx names => on_waitfor_all self ctx names
  end.

Fixpoint service_loop (self : Services) (events : list ServiceEvent) : outcome Services :=
  match events with
  | [] => step self
  | ev :: events => self ← step self; self ← handle_event self ev; service_loop self events
  end.

End daemon.

(** ** Removing by position *)

Lemma vec_take_out_middle {A} (l1 l2 : list A) x i :
  length l1 = i → vec_take_out i (l1 ++ x :: l2) = Ret (x, l1 ++ l2).
Proof.
  intros <-. unfold vec_take_out. rewrite list_lookup_middle by done.
  rewrite take_app_length. do 3 f_equal. by rewrite <- Nat.add_1_r, <- drop_drop, drop_app_length.
Qed.

Lemma remove_popped_app {A} p1 p2 (l : list A) :
  remove_popped (p1 ++ p2) l =
    ('(xs, l1) ← remove_popped p1 l; '(ys, l2) ← remove_popped p2 l1; Ret (xs ++ ys, l2)).
Proof.
  revert l. induction p1 as [|i p1 IH]; intros l; cbn.
  { by destruct (remove_popped p2 l) as [[]|]. }
  destruct (vec_take_out i l) as [[x l']|]; [|done]. cbn. rewrite IH.
  destruct (remove_popped p1 l') as [[xs l1]|]; [|done]. cbn.
  by destruct (remove_popped p2 l1) as [[]|].
Qed.

Lemma remove_indices_at {A} (f : A → bool) pre l :
  remove_popped (reverse (indices_from f (length pre) l)) (pre ++ l) =
    Ret (reverse (filter (λ x, f x = true) l), pre ++ filter (λ x, f x = false) l).
Proof.
  revert pre. induction l as [|x l IH]; intros pre; [done|]. cbn [indices_from]. rewrite !filter_cons.
  specialize (IH (pre ++ [x])). rewrite length_app, Nat.add_1_r, <- !(assoc_L (++)) in IH. cbn [app] in IH.
  destruct (f x) eqn:E.
  - rewrite !decide_True, decide_False by done. rewrite !reverse_cons, remove_popped_app, IH.
    cbn [mbind outcome_bind remove_popped]. by rewrite vec_take_out_middle.
  - rewrite (decide_False (P := false = true)), (decide_True (P := false = false)) by done. exact IH.
Qed.

Lemma remove_indices {A} (f : A → bool) (l : list A) :
  remove_popped (reverse (indices_from f 0 l)) l =
    Ret (reverse (filter (λ x, f x = true) l), filter (λ x, f x = false) l).
Proof. apply (remove_indices_at f []). Qed.

(** ** Starting *)

Section props.
Context {Frame PfCode : Type}.
Context (spawn : nat → string → option Z) (acks : Z → bool).
Context (Hspawn : ∀ n e, is_Some (spawn n e)) (Hacks : ∀ x, acks x = true).

(** The requirements of the service with that name are up. *)
Definition name_up (self : Services) (name : ServiceName) : bool :=
  match definition_by_name self name with Some def => are_requirements_up self def | None => false end.

(** Every queued service can be started. *)
Definition startable (self : Services) : Prop :=
  ∀ name, name ∈ start_queue self →
    ∃ def, definition_by_name self name = Some def ∧ from_initrd def = true ∧ def_name def = name.

Lemma start_indices_spec self i l :
  (∀ name, name ∈ l → is_Some (definition_by_name self name)) →
  start_indices self i l = Ret (indices_from (name_up self) i l).
Proof.
  revert i. induction l as [|name l IH]; intros i Hl; [done|]. cbn [start_indices indices_from].
  destruct (Hl name) as [def Hdef]; [left|]. rewrite Hdef. cbn [unwrap expect mbind outcome_bind].
  rewrite IH by (intros n Hn; apply Hl; by right). cbn [mbind outcome_bind].
  assert (name_up self name = are_requirements_up self def) as -> by (unfold name_up; by rewrite Hdef).
  by destruct (are_requirements_up self def).
Qed.

(** [self] after services were started. *)
Definition after_start (self : Services) (q names : list ServiceName) (m : gmap Z ServiceName) : Services :=
  MkServices (definitions self) q m (discovery self) (waiting_for_all self) (waiting_for_any self)
    (started self ++ names) (acked self).

Lemma start_popped_spec popped self names q :
  startable self → remove_popped popped (start_queue self) = Ret (names, q) →
  ∃ m, start_popped spawn popped self = Ret (after_start self q names m).
Proof.
  revert self names. induction popped as [|i popped IH]; intros self names Hst Hr;
    cbn [start_popped remove_popped] in Hr |- *.
  { injection Hr as <- <-. exists (managed self). unfold after_start. rewrite app_nil_r. by destruct self. }
  destruct (vec_take_out i (start_queue self)) as [[name q1]|] eqn:Er; [|done].
  cbn [mbind outcome_bind] in Hr |- *.
  destruct (remove_popped popped q1) as [[names' q']|] eqn:Ep; [|done].
  cbn [mbind outcome_bind] in Hr. injection Hr as <- <-.
  assert (name ∈ start_queue self ∧ ∀ n, n ∈ q1 → n ∈ start_queue self) as [Hin Hsub].
  { unfold vec_take_out in Er. destruct (start_queue self !! i) eqn:El; [|done]. injection Er as <- <-.
    split; [by eapply list_elem_of_lookup_2|]. intros n [Hn|Hn]%elem_of_app.
    - by eapply subseteq_take.
    - by eapply subseteq_drop. }
  destruct (Hst name Hin) as (def & Hdef & Hinit & Hname).
  change (definition_by_name (set_start_queue q1 self) name) with (definition_by_name self name).
  rewrite Hdef. cbn [unwrap expect mbind outcome_bind]. unfold start. rewrite Hinit.
  cbn [rassert mbind outcome_bind]. destruct (Hspawn (length (started (set_start_queue q1 self))) (executable def)) as [pid Hpid].
  rewrite Hpid. cbn [unwrap expect mbind outcome_bind]. rewrite Hname.
  match goal with |- context [start_popped spawn popped ?s] => destruct (IH s names') as [m Hm] end.
  - intros n Hn. apply Hst, Hsub, Hn.
  - exact Ep.
  - exists m. rewrite Hm. unfold after_start. cbn. by rewrite <- (assoc_L (++)).
Qed.

Lemma step_spec self :
  startable self →
  ∃ m, step spawn self = Ret (after_start self
    (filter (λ n, name_up self n = false) (start_queue self))
    (reverse (filter (λ n, name_up self n = true) (start_queue self))) m).
Proof.
  intros Hst. unfold step. rewrite start_indices_spec.
  - cbn [mbind outcome_bind]. apply start_popped_spec; [done|]. apply remove_indices.
  - intros n Hn. destruct (Hst n Hn) as (def & Hdef & _). eauto.
Qed.

(** ** Waiting *)

(** The processes that were answered and the processes that wait. *)
Definition clients (self : Services) : list Z :=
  (acked self).*1 ++ (waiting_for_all self).*2 ++ (waiting_for_any self).*2.

Record services_inv (defs : list ServiceDefinition) (ctxs : list Z) (self : Services) : Prop := {
  si_defs : definitions self = defs;
  si_started : started self ++ start_queue self ≡ₚ def_name <$> defs;
  si_all : Forall (λ x, all_registered self x.1 = false) (waiting_for_all self);
  si_any : Forall (λ x, any_registered self x.1 = false) (waiting_for_any self);
  si_clients : clients self ≡ₚ ctxs;
}.

Lemma filter_split {A} (f : A → bool) (l : list A) :
  filter (λ x, f x = true) l ++ filter (λ x, f x = false) l ≡ₚ l.
Proof.
  induction l as [|x l IH]; [done|]. rewrite !filter_cons. destruct (f x).
  - rewrite decide_True, decide_False by done. cbn. by f_equiv.
  - rewrite decide_False, decide_True by done. rewrite <- Permutation_middle. by f_equiv.
Qed.

Lemma wake_waiting_spec f l :
  wake_waiting f l =
    Ret ((reverse (filter (λ x, f x.1 = true) l)).*2, filter (λ x, f x.1 = false) l).
Proof. unfold wake_waiting. by rewrite (remove_indices (λ x, f x.1)). Qed.

Lemma woken_perm (f : gset ServiceName → bool) (l : list (gset ServiceName * Z)) :
  (reverse (filter (λ x, f x.1 = true) l)).*2 ++ (filter (λ x, f x.1 = false) l).*2 ≡ₚ l.*2.
Proof.
  rewrite reverse_Permutation, <- fmap_app. f_equiv. apply (filter_split (λ x, f x.1)).
Qed.

Lemma ack_all_spec ctxs self :
  ack_all acks ctxs self = Ret (MkServices (definitions self) (start_queue self) (managed self)
    (discovery self) (waiting_for_all self) (waiting_for_any self) (started self)
    (acked self ++ ((λ c, (c, true)) <$> ctxs))).
Proof.
  revert self. induction ctxs as [|c ctxs IH]; intros self; cbn [ack_all].
  { cbn. rewrite app_nil_r. by destruct self. }
  unfold ack. rewrite Hacks. cbn [rassert mbind outcome_bind]. rewrite IH. cbn.
  by rewrite <- (assoc_L (++)).
Qed.

Lemma acked_clients (l : list Z) : (((λ c, (c, true)) <$> l : list (Z * bool)).*1 = l).
Proof. induction l as [|x l IH]; [done|]. cbn. by f_equal. Qed.

Lemma filter_false {A} (f : A → bool) (l : list A) : Forall (λ x, f x = false) (filter (λ x, f x = false) l).
Proof. apply Forall_forall. intros x Hx. by apply list_elem_of_filter in Hx as [? _]. Qed.

Lemma register_inv defs ctxs self ctx reg :
  services_inv defs ctxs self →
  ∃ self', on_register acks self ctx reg = Ret self' ∧ services_inv defs (ctxs ++ [ctx]) self'.
Proof.
  intros [Hd Hs Ha Hy Hc]. unfold on_register, ack. rewrite Hacks. cbn [rassert mbind outcome_bind].
  case_bool_decide as Hreg.
  - eexists. split; [reflexivity|]. split; try done. rewrite <- Hc. unfold clients. cbn.
    rewrite fmap_app. cbn. solve_Permutation.
  - set (s1 := add_acked ctx true _). rewrite wake_waiting_spec. cbn [mbind outcome_bind].
    rewrite ack_all_spec. cbn [mbind outcome_bind]. rewrite wake_waiting_spec. cbn [mbind outcome_bind].
    rewrite ack_all_spec. eexists. split; [reflexivity|].
    pose proof (woken_perm (all_registered s1) (waiting_for_all self)) as P1.
    pose proof (woken_perm (any_registered s1) (waiting_for_any self)) as P2.
    split; cbn; try done.
    + apply (filter_false (λ x, all_registered s1 x.1)).
    + apply (filter_false (λ x, any_registered s1 x.1)).
    + rewrite <- Hc. unfold clients at 1. cbn. rewrite !fmap_app, !acked_clients. cbn.
      unfold clients. rewrite <- P1, <- P2.
      change (any_registered (MkServices _ _ _ _ _ _ _ _)) with (any_registered s1). solve_Permutation.
Qed.

Lemma wait_inv defs ctxs self ctx names :
  services_inv defs ctxs self →
  (∃ self', on_waitfor_any acks self ctx names = Ret self' ∧ services_inv defs (ctxs ++ [ctx]) self') ∧
  (∃ self', on_waitfor_all acks self ctx names = Ret self' ∧ services_inv defs (ctxs ++ [ctx]) self').
Proof.
  intros [Hd Hs Ha Hy Hc]. unfold on_waitfor_any, on_waitfor_all, ack. rewrite Hacks.
  cbn [rassert mbind outcome_bind].
  split.
  - destruct (any_registered self names) eqn:E; (eexists; split; [reflexivity|]);
      split; try done; try (rewrite <- Hc; unfold clients; cbn; rewrite !fmap_app; cbn; solve_Permutation).
    apply Forall_app. split; [done|]. by constructor.
  - destruct (all_registered self names) eqn:E; (eexists; split; [reflexivity|]);
      split; try done; try (rewrite <- Hc; unfold clients; cbn; rewrite !fmap_app; cbn; solve_Permutation).
    apply Forall_app. split; [done|]. by constructor.
Qed.

(** Fewer registered services satisfy fewer waits. *)
Lemma fewer_registered self self' names :
  discovery self' ⊆ discovery self →
  (all_registered self names = false → all_registered self' names = false) ∧
  (any_registered self names = false → any_registered self' names = false).
Proof.
  intros Hsub. assert (∀ n, is_registered self' n = true → is_registered self n = true) as Hr.
  { intros n. unfold is_registered. rewrite !bool_decide_eq_true. intros [b Hb]. exists b.
    by apply (lookup_weaken _ _ _ _ Hb). }
  split; intros Hf.
  - destruct (all_registered self' names) eqn:E; [|done]. rewrite <- Hf. symmetry.
    unfold all_registered in *. rewrite forallb_forall in *. auto.
  - destruct (any_registered self' names) eqn:E; [|done]. rewrite <- Hf. symmetry.
    unfold any_registered in *. rewrite existsb_exists in *. naive_solver.
Qed.

Lemma completed_inv defs ctxs self pid result :
  services_inv defs ctxs self → services_inv defs ctxs (on_process_completed (Frame := Frame) (PfCode := PfCode) self pid result).
Proof.
  intros [Hd Hs Ha Hy Hc]. unfold on_process_completed. destruct (managed self !! pid) as [name|]; [|done].
  cbn [discovery set_managed]. destruct (discovery self !! name) as [o|]; [|done].
  destruct (negb _); [|done]. split; cbn; try done.
  - eapply Forall_impl; [exact Ha|]. intros x. apply fewer_registered. apply delete_subseteq.
  - eapply Forall_impl; [exact Hy|]. intros x. apply fewer_registered. apply delete_subseteq.
Qed.

Lemma step_inv defs ctxs self :
  Forall (λ d, from_initrd d = true) defs → services_inv defs ctxs self →
  ∃ self', step spawn self = Ret self' ∧ services_inv defs ctxs self' ∧
    Forall (λ n, name_up self' n = false) (start_queue self').
Proof.
  intros Hinit [Hd Hs Ha Hy Hc]. destruct (step_spec self) as [m Hm].
  { intros n Hn. assert (n ∈ def_name <$> defs) as Hin.
    { rewrite <- Hs. apply elem_of_app. by right. }
    unfold definition_by_name. rewrite Hd. clear -Hin Hinit.
    induction Hinit as [|d defs Hd Hinit IH]; [by apply elem_of_nil in Hin|]. cbn in Hin |- *.
    case_bool_decide as E; [by exists d|]. apply IH. by apply elem_of_cons in Hin as [->|]. }
  eexists. split; [exact Hm|]. split; [split|]; cbn; try done.
  - rewrite <- Hs, reverse_Permutation, <- (assoc (++)). f_equiv. apply filter_split.
  - apply (filter_false (name_up self)).
Qed.

(** The processes an event asks to answer. *)
Definition service_event_clients (ev : @ServiceEvent Frame PfCode) : list Z :=
  match ev with
  | EvTerminated _ _ => []
  | EvRegister ctx _ | EvWaitAny ctx _ | EvWaitAll ctx _ => [ctx]
  end.

Lemma event_inv defs ctxs self ev :
  services_inv defs ctxs self →
  ∃ self', handle_event (Frame := Frame) (PfCode := PfCode) acks self ev = Ret self' ∧
    services_inv defs (ctxs ++ service_event_clients ev) self'.
Proof.
  intros Hi. destruct ev as [pid result|ctx reg|ctx names|ctx names]; cbn.
  - eexists. split; [reflexivity|]. rewrite app_nil_r. by apply completed_inv.
  - by apply register_inv.
  - by apply wait_inv.
  - by apply wait_inv.
Qed.

Lemma loop_inv defs ctxs self events :
  Forall (λ d, from_initrd d = true) defs → services_inv defs ctxs self →
  ∃ self', service_loop (Frame := Frame) (PfCode := PfCode) spawn acks self events = Ret self' ∧
    services_inv defs (ctxs ++ concat (service_event_clients <$> events)) self' ∧
    Forall (λ n, name_up self' n = false) (start_queue self').
Proof.
  intros Hinit. revert ctxs self. induction events as [|ev events IH]; intros ctxs self Hi; cbn [service_loop].
  - cbn. rewrite app_nil_r. by apply step_inv.
  - destruct (step_inv defs ctxs self Hinit Hi) as (s1 & -> & Hi1 & _). cbn [mbind outcome_bind].
    destruct (event_inv defs ctxs s1 ev Hi1) as (s2 & -> & Hi2). cbn [mbind outcome_bind].
    destruct (IH _ _ Hi2) as (s3 & -> & Hi3). exists s3. split; [done|]. cbn. by rewrite (assoc_L (++)).
Qed.

End props.

(** ** Properties *)

(** C34: the service daemon serves its clients and starts its services.  After any sequence of
    messages: each process that asked to be registered or to wait was answered exactly once or
    still waits; no process waits whose services are up; each service of the configuration was
    started once or is still queued; and no service is queued whose requirements are up.  The
    services come from the initial ramdisk, and starting and answering succeed. *)
Theorem services_served {Frame PfCode} spawn acks defs
    (events : list (@ServiceEvent Frame PfCode))
    (Hspawn : ∀ n e, is_Some (spawn n e)) (Hacks : ∀ x, acks x = true)
    (Hinit : Forall (λ d, from_initrd d = true) defs) :
  ∃ s, service_loop spawn acks (Services_new defs) events = Ret s ∧
    (acked s).*1 ++ (waiting_for_all s).*2 ++ (waiting_for_any s).*2 ≡ₚ
      concat (service_event_clients <$> events) ∧
    Forall (λ x, all_registered s x.1 = false) (waiting_for_all s) ∧
    Forall (λ x, any_registered s x.1 = false) (waiting_for_any s) ∧
    started s ++ start_queue s ≡ₚ def_name <$> defs ∧
    Forall (λ n, name_up s n = false) (start_queue s).
Proof.
  destruct (loop_inv spawn acks Hspawn Hacks defs [] (Services_new defs) events Hinit)
    as (s & E & [_ Hs Ha Hy Hc] & Hq); [by split|].
  exists s. by split_and!.
Qed.

(** Services start in the order of their requirements.  One step starts exactly the queued
    services whose requirements are registered, last first, and changes nothing but the queue and
    the table of processes. *)
Theorem step_exact spawn self
    (Hspawn : ∀ n e, is_Some (spawn n e)) (Hst : startable self) :
  ∃ m, step spawn self = Ret (MkServices (definitions self)
    (filter (λ n, name_up self n = false) (start_queue self)) m (discovery self)
    (waiting_for_all self) (waiting_for_any self)
    (started self ++ reverse (filter (λ n, name_up self n = true) (start_queue self))) (acked self)).
Proof. by apply step_spec. Qed.

(** ** Witnesses *)

Definition example_services : list ServiceDefinition :=
  [MkDefinition "netd" None {[ "driver" ]} true "mod_netd"; MkDefinition "driver" None ∅ true "mod_driver"].
Definition example_spawn (n : nat) (_ : string) : option Z := Some (Z.of_nat n).
Definition example_events : list (@ServiceEvent unit unit) :=
  [EvWaitAll 1 {[ "netd"; "driver" ]}; EvRegister 2 (MkRegistration "driver" false)].

Lemma services_served_witness :
  ∃ s, service_loop example_spawn (λ _, true) (Services_new example_services) example_events = Ret s ∧
    (acked s).*1 ++ (waiting_for_all s).*2 ++ (waiting_for_any s).*2 ≡ₚ [1; 2] ∧
    started s ++ start_queue s ≡ₚ ["netd"; "driver"].
Proof.
  destruct (services_served (Frame := unit) (PfCode := unit) example_spawn (λ _, true) example_services
    example_events) as (s & E & Hc & _ & _ & Hs & _).
  - intros n e. by exists (Z.of_nat n).
  - reflexivity.
  - repeat constructor.
  - exists s. exact (conj E (conj Hc Hs)).
Defined.

Lemma step_exact_witness :
  ∃ m, step example_spawn (Services_new example_services) =
    Ret (MkServices example_services ["netd"] m ∅ [] [] ["driver"] []).
Proof.
  apply (step_exact example_spawn (Services_new example_services)).
  - intros n e. by exists (Z.of_nat n).
  - intros n Hn. cbn in Hn. apply elem_of_cons in Hn as [->|Hn]; [by eexists|].
    apply list_elem_of_singleton in Hn as ->. by eexists.
Defined.
