(* ===== verification/DiskCursor.v ===== *)
(** * DiskCursor: byte access to a disk through a sector cache
    (modules/daemon_fatfs: cursor.rs, cache.rs, disk.rs)

    The two functions of a [Disk] read and write one sector of the drive, here a list of sectors;
    access behind its end fails.  The cache is the [LruCache] of the [lru] crate, with what it
    promises as [LruLaws].  The file system on top is the [fatfs] crate. *)

From stdpp Require Import base gmap list strings functions.
From Stdlib Require Import ZArith Lia.
From S2P Require Import Prelude Bytes.
Open Scope nat_scope.

(** ** The cache *)

Class LruOps := {
  LruCache : Type;
  lru_new : nat → LruCache;
  lru_get : LruCache → nat → option (list Z) * LruCache;
  lru_put : LruCache → nat → list Z → LruCache;
}.

(** A cache holds some of the pairs that were put last for their keys. *)
Class LruLaws `{!LruOps} := {
  lru_view : LruCache → gmap nat (list Z);
  lru_new_view n : lru_view (lru_new n) = ∅;
  lru_get_result c k : (lru_get c k).1 = lru_view c !! k;
  lru_get_view c k : lru_view (lru_get c k).2 = lru_view c;
  lru_put_view c k v : lru_view (lru_put c k v) ⊆ <[k := v]> (lru_view c);
}.

(** ** disk.rs *)

Record Disk := MkDisk { sector_size : nat; sectors : list (list Z) }.

Definition Disk_read (self : Disk) (sector : nat) : outcome (list Z) :=
  expect (sectors self !! sector) "ata read".


Section cursor.
Context `{!LruOps}.

(** ** cache.rs *)

Record DiskAccess := MkAccess { cache : option LruCache; disk : Disk }.


Definition DiskAccess_sector_size (self : DiskAccess) : nat := sector_size (disk self).

(** After a cache miss. *)
Definition read_miss (self : DiskAccess) (sector : nat) : outcome (list Z * DiskAccess) :=
  data ← Disk_read (disk self) sector;
  _ ← rassert (length data =? DiskAccess_sector_size self) "assertion failed: `(left == right)`";
  Ret (data, MkAccess ((λ c, lru_put c sector data) <$> cache self) (disk self)).

Definition DiskAccess_read (self : DiskAccess) (sector : nat) : outcome (list Z * DiskAccess) :=
  match cache self with
  | Some c =>
      match lru_get c sector with
      | (Some data, c) => Ret (data, MkAccess (Some c) (disk self))
      | (None, c) => read_miss (MkAccess (Some c) (disk self)) sector
      end
  | None => read_miss self sector
  end.


(** ** cursor.rs *)

Record DiskCursor := MkCursor { access : DiskAccess; sector : nat; cursor_offset : nat }.

Definition DiskCursor_new (disk : DiskAccess) : DiskCursor := MkCursor disk 0 0.

Definition cursor_size (self : DiskCursor) : nat := DiskAccess_sector_size (access self).

Definition get_position (self : DiskCursor) : nat := sector self * cursor_size self + cursor_offset self.

Definition set_position (position : nat) (self : DiskCursor) : DiskCursor :=
  MkCursor (access self) (position / cursor_size self) (position mod cursor_size self).

Definition move_cursor (amount : nat) (self : DiskCursor) : DiskCursor :=
  set_position (get_position self + amount) self.

(** The loop of [read]: [i] of the [n] bytes of the buffer are in [buf]. *)
Fixpoint read_loop (fuel : nat) (n i : nat) (buf : list Z) (self : DiskCursor)
    : option (outcome (list Z * DiskCursor)) :=
  match fuel with
  | O => None
  | S fuel =>
      if negb (i <? n) then Some (Ret (buf, self))
      else match
        '(data, a) ← DiskAccess_read (access self) (sector self);
        let e := Nat.min (i + length data) n in
        let len := e - i in
        s ← index_range data (cursor_offset self) (cursor_offset self + len);
        Ret (s, len, a)
      with
      | Panic why => Some (Panic why)
      | Ret (s, len, a) =>
          read_loop fuel n (i + len) (buf ++ s)
            (move_cursor (i + len) (MkCursor a (sector self) (cursor_offset self)))
      end
  end.

(** Every round fills at least one byte, so that [S n] rounds are enough ([read_fuel]). *)
Definition DiskCursor_read (self : DiskCursor) (n : nat) : outcome (list Z * DiskCursor) :=
  default (Panic "out of fuel") (read_loop (S n) n 0 [] self).

Definition DiskCursor_read_exact (self : DiskCursor) (n : nat) : outcome (list Z * DiskCursor) :=
  '(buf, self) ← DiskCursor_read self n;
  _ ← rassert (length buf =? n) "TODO: Error";
  Ret (buf, self).






End cursor.

(** ** The disk as one sequence of bytes *)


Record disk_ok (d : Disk) : Prop := {
  dk_size : 0 < sector_size d;
  dk_sectors : Forall (λ s, length s = sector_size d) (sectors d);
}.

Definition uniform (n : nat) (l : list (list Z)) : Prop := Forall (λ s, length s = n) l.




Lemma uniform_lookup n l k s : uniform n l → l !! k = Some s → length s = n.
Proof. intros Hl Hs. by apply (Forall_lookup_1 _ _ _ _ Hl Hs). Qed.







Section props.
Context `{!LruOps} `{!LruLaws}.
Implicit Types (a : DiskAccess) (c : DiskCursor).

(** ** The cache does not show *)

Record coherent (a : DiskAccess) : Prop := {
  ch_size : 0 < sector_size (disk a);
  ch_sectors : uniform (sector_size (disk a)) (sectors (disk a));
  ch_cache : ∀ lru k v, cache a = Some lru → lru_view lru !! k = Some v → sectors (disk a) !! k = Some v;
}.

Lemma read_miss_ok a k s :
  coherent a → sectors (disk a) !! k = Some s →
  ∃ a', read_miss a k = Ret (s, a') ∧ coherent a' ∧ disk a' = disk a.
Proof.
  intros [Hz Hu Hc] Hs. unfold read_miss, Disk_read. rewrite Hs. cbn [expect mbind outcome_bind].
  unfold DiskAccess_sector_size. rewrite (uniform_lookup _ _ _ _ Hu Hs), Nat.eqb_refl.
  cbn [rassert mbind outcome_bind]. eexists. split; [reflexivity|]. split; [|done]. split; cbn; [done|done|].
  intros lru k' v (lru0 & Hl & ->)%fmap_Some Hv.
  pose proof (lookup_weaken _ _ _ _ Hv (lru_put_view lru0 k s)) as Hv'.
  apply lookup_insert_Some in Hv' as [[<- <-]|[_ Hv']]; [done|]. by eapply Hc.
Qed.

Lemma access_read_ok a k s :
  coherent a → sectors (disk a) !! k = Some s →
  ∃ a', DiskAccess_read a k = Ret (s, a') ∧ coherent a' ∧ disk a' = disk a.
Proof.
  intros Hco Hs. unfold DiskAccess_read. destruct (cache a) as [lru|] eqn:E; [|by apply read_miss_ok].
  pose proof (lru_get_result lru k) as Hr. pose proof (lru_get_view lru k) as Hv.
  destruct (lru_get lru k) as [[s'|] lru']; cbn in Hr, Hv;
    assert (coherent (MkAccess (Some lru') (disk a))) as Hco' by
      (destruct Hco as [Hz Hu Hc]; split; cbn; [done|done|]; intros l0 k' v [= <-]; rewrite Hv; by apply Hc).
  - eexists. split; [|by split; [exact Hco'|]]. do 2 f_equal. symmetry in Hr.
    pose proof (ch_cache _ Hco _ _ _ E Hr). congruence.
  - by apply (read_miss_ok (MkAccess (Some lru') (disk a)) k s).
Qed.

Lemma access_read_none a k :
  coherent a → sectors (disk a) !! k = None → DiskAccess_read a k = Panic "ata read".
Proof.
  intros Hco Hs. unfold DiskAccess_read.
  assert (∀ a', disk a' = disk a → read_miss a' k = Panic "ata read") as Hmiss.
  { intros a' Ha. unfold read_miss, Disk_read. by rewrite Ha, Hs. }
  destruct (cache a) as [lru|] eqn:E; [|by apply Hmiss].
  pose proof (lru_get_result lru k) as Hr. destruct (lru_get lru k) as [[s|] lru']; cbn in Hr; [|by apply Hmiss].
  symmetry in Hr. pose proof (ch_cache _ Hco _ _ _ E Hr). congruence.
Qed.



(** ** Reading within a sector *)

Lemma read_fuel fuel n i buf c :
  coherent (access c) → n - i < fuel → read_loop fuel n i buf c ≠ None.
Proof.
  revert i buf c. induction fuel as [|fuel IH]; intros i buf c Hco Hf; [lia|]. cbn [read_loop].
  destruct (Nat.ltb_spec i n) as [Hi|]; [|done]. cbn [negb].
  destruct (sectors (disk (access c)) !! sector c) as [s|] eqn:Hs.
  2:{ by rewrite (access_read_none _ _ Hco Hs). }
  pose proof (uniform_lookup _ _ _ _ (ch_sectors _ Hco) Hs) as Hlen. pose proof (ch_size _ Hco) as Hz.
  destruct (access_read_ok _ _ _ Hco Hs) as (a' & -> & Hco' & _). cbn [mbind outcome_bind].
  destruct (index_range s _ _); cbn [mbind outcome_bind]; [|done]. apply IH; [exact Hco'|lia].
Qed.



(** ** Writing *)






(** ** Reading and writing across sectors *)



End props.

(** The third sector of a read is the wrong one: the cursor moves by all that was read so far. *)
Theorem read_skips_sector `{!LruOps} :
  ∃ c, DiskCursor_read (DiskCursor_new (MkAccess None (MkDisk 1 [[0%Z]; [1%Z]; [2%Z]; [3%Z]]))) 3 =
    Ret ([0; 1; 3]%Z, c).
Proof. by eexists. Qed.

(** ** Properties *)



(** ** A small cache *)

(** The pairs put last, the newest first. *)
#[local] Instance example_lru : LruOps := {|
  LruCache := nat * list (nat * list Z);
  lru_new n := (n, []);
  lru_get c k := ((list_to_map c.2 : gmap nat (list Z)) !! k, c);
  lru_put c k v := (c.1, take c.1 ((k, v) :: filter (λ x, x.1 ≠ k) c.2));
|}.

Lemma take_subseteq n (l : list (nat * list Z)) :
  (list_to_map (take n l) : gmap nat (list Z)) ⊆ list_to_map l.
Proof.
  revert n. induction l as [|[k v] l IH]; intros [|n]; cbn; try apply map_empty_subseteq.
  by apply insert_mono.
Qed.

Lemma filter_subseteq k (l : list (nat * list Z)) :
  (list_to_map (filter (λ x, x.1 ≠ k) l) : gmap nat (list Z)) = delete k (list_to_map l).
Proof.
  induction l as [|[k' v] l IH]; [cbn; by rewrite delete_empty|].
  rewrite filter_cons, list_to_map_cons. cbn [fst]. destruct (decide (k' = k)) as [->|Hne].
  - rewrite decide_False by (intros Hn; by apply Hn). by rewrite IH, delete_insert_eq.
  - rewrite decide_True by done. by rewrite list_to_map_cons, IH, delete_insert_ne.
Qed.

#[local] Instance example_lru_laws : LruLaws.
Proof.
  refine {| lru_view c := (list_to_map c.2 : gmap nat (list Z)) |}; cbn.
  - done.
  - done.
  - done.
  - intros c k v. etransitivity; [apply take_subseteq|]. cbn. rewrite filter_subseteq.
    by rewrite insert_delete_eq.
Defined.


