(* ===== verification/Rtc.v ===== *)
(** * Rtc: the real-time clock driver (modules/driver_rtc/src/lib.rs)

    The clock chip is a parameter: [cmos n r] is the value of register [r] at the [n]th read.  The
    loop that waits for a consistent value runs on fuel.  The result stops before the [chrono]
    crate, at the six numbers that are passed to it.  Modules are built without overflow checks;
    no addition here reaches 256. *)

From stdpp Require Import base list strings.
From Stdlib Require Import ZArith Lia.
From S2P Require Import Prelude Bytes.
Open Scope Z_scope.

Definition NMI_DISABLE_BIT : Z := Z.shiftl 1 7.

Inductive Mode := Binary | Bcd.

Definition Mode_to_bin (self : Mode) (v : Z) : Z :=
  match self with
  | Binary => v
  | Bcd => Z.shiftr (Z.land v 0xf0) 1 + Z.shiftr (Z.land v 0xf0) 3 + Z.land v 0xf
  end.

Inductive HoursMode := H12 | H24.

Definition HoursMode_to_24h (self : HoursMode) (v : Z) : outcome Z :=
  match self with
  | H24 => Ret v
  | H12 =>
      let pm := negb (Z.land v (Z.shiftl 1 7) =? 0) in
      let m := Z.land v (Z.lxor 255 (Z.shiftl 1 7)) in
      _ ← rassert (negb (m =? 0)) "assertion failed: m != 0";
      _ ← rassert (m <=? 12) "assertion failed: m <= 12";
      Ret (if pm then if m =? 12 then 12 else m + 12
           else if m =? 12 then 0 else m)
  end.

Record TimeRegisterSnapshot := MkSnapshot {
  seconds : Z;
  minutes : Z;
  hours : Z;
  day : Z;
  month : Z;
  year_last_digits : Z;
  maybe_century : Z;
}.

#[global] Instance TimeRegisterSnapshot_eq_dec : EqDecision TimeRegisterSnapshot.
Proof. solve_decision. Defined.

Section chip.
Context (cmos : nat → Z → Z).

Definition read_register (n : nat) (register_number : Z) : outcome Z :=
  _ ← rassert (register_number <? Z.land 255 (Z.lxor 255 NMI_DISABLE_BIT))
    "assertion failed: register_number < (u8::MAX & !NMI_DISABLE_BIT)";
  Ret (cmos n register_number).

Definition read_config (n : nat) : outcome (Mode * HoursMode) :=
  b ← read_register n 0x0b;
  Ret (if negb (Z.land b (Z.shiftl 1 2) =? 0) then Binary else Bcd,
       if negb (Z.land b (Z.shiftl 1 1) =? 0) then H24 else H12).

Definition is_update_in_progress (n : nat) : outcome bool :=
  a ← read_register n 0x0a;
  Ret (negb (Z.land a (Z.shiftl 1 7) =? 0)).

(** The seven reads from the [n]th on. *)
Definition TimeRegisterSnapshot_read (n : nat) (config : Mode * HoursMode) : outcome TimeRegisterSnapshot :=
  let '(mode, hoursf) := config in
  seconds ← read_register n 0x00;
  minutes ← read_register (n + 1) 0x02;
  h ← read_register (n + 2) 0x04;
  hours ← HoursMode_to_24h hoursf (Mode_to_bin mode h);
  day ← read_register (n + 3) 0x07;
  month ← read_register (n + 4) 0x08;
  year ← read_register (n + 5) 0x09;
  century ← read_register (n + 6) 0x32;
  Ret (MkSnapshot (Mode_to_bin mode seconds) (Mode_to_bin mode minutes) hours (Mode_to_bin mode day)
         (Mode_to_bin mode month) (Mode_to_bin mode year) (Mode_to_bin mode century)).

(** The loop of [get_current_time], from the [n]th read. *)
Fixpoint read_loop_rtc (fuel n : nat) (config : Mode * HoursMode) : option (outcome TimeRegisterSnapshot) :=
  match fuel with
  | O => None
  | S fuel =>
      match is_update_in_progress n with
      | Panic why => Some (Panic why)
      | Ret true => read_loop_rtc fuel (n + 1) config
      | Ret false =>
          match TimeRegisterSnapshot_read (n + 1) config with
          | Panic why => Some (Panic why)
          | Ret a =>
              match is_update_in_progress (n + 8) with
              | Panic why => Some (Panic why)
              | Ret true => read_loop_rtc fuel (n + 9) config
              | Ret false =>
                  match TimeRegisterSnapshot_read (n + 9) config with
                  | Panic why => Some (Panic why)
                  | Ret b => if bool_decide (a = b) then Some (Ret a)
                             else read_loop_rtc fuel (n + 16) config
                  end
              end
          end
      end
  end.

(** Year, month, day, hour, minute and second. *)
Definition check_time (t : TimeRegisterSnapshot) : outcome (Z * Z * Z * Z * Z * Z) :=
  _ ← rassert (seconds t <? 60) "assertion failed: t.seconds < 60";
  _ ← rassert (minutes t <? 60) "assertion failed: t.minutes < 60";
  _ ← rassert (hours t <? 24) "assertion failed: t.hours < 24";
  _ ← rassert (negb (day t =? 0) && (day t <=? 31)) "assertion failed: t.day != 0 && t.day <= 31";
  _ ← rassert (negb (month t =? 0) && (month t <=? 12)) "assertion failed: t.month != 0 && t.month <= 12";
  year ← (if maybe_century t =? 0 then Ret (2000 + year_last_digits t)
          else _ ← rassert (20 <=? maybe_century t) "assertion failed: t.maybe_century >= 20";
               Ret (100 * maybe_century t + year_last_digits t));
  Ret (year, month t, day t, hours t, minutes t, seconds t).

Definition get_current_time (fuel n : nat) (config : Mode * HoursMode)
    : option (outcome (Z * Z * Z * Z * Z * Z)) :=
  match read_loop_rtc fuel n config with
  | None => None
  | Some t => Some (t ≫= check_time)
  end.

End chip.

(** ** What the chip stores *)

Definition encode_byte (mode : Mode) (v : Z) : Z :=
  match mode with Binary => v | Bcd => 16 * (v / 10) + v mod 10 end.

(** The hour register; in the 12-hour format bit 7 is set after noon. *)
Definition encode_hour (mode : Mode) (hm : HoursMode) (h : Z) : Z :=
  match hm with
  | H24 => encode_byte mode h
  | H12 => encode_byte mode (if h mod 12 =? 0 then 12 else h mod 12) + (if 12 <=? h then 128 else 0)
  end.

(** The registers of a chip that shows a date of this century. *)
Definition chip_registers (mode : Mode) (hm : HoursMode) (century year mon d h mi s : Z) (r : Z) : Z :=
  if r =? 0x00 then encode_byte mode s
  else if r =? 0x02 then encode_byte mode mi
  else if r =? 0x04 then encode_hour mode hm h
  else if r =? 0x07 then encode_byte mode d
  else if r =? 0x08 then encode_byte mode mon
  else if r =? 0x09 then encode_byte mode year
  else if r =? 0x32 then encode_byte mode century
  else if r =? 0x0b then (match mode with Binary => 4 | Bcd => 0 end) + (match hm with H24 => 2 | H12 => 0 end)
  else 0.

(** A statement about small numbers, by trying all of them. *)
Lemma rtc_below n (P : Z → Prop) `{!∀ z, Decision (P z)} :
  bool_decide (Forall P (seqZ 0 n)) = true → ∀ z, 0 ≤ z < n → P z.
Proof. rewrite bool_decide_eq_true, Forall_forall. intros HP z Hz. apply HP, elem_of_seqZ. lia. Qed.

Lemma byte_decodes mode v : 0 ≤ v < 100 → Mode_to_bin mode (encode_byte mode v) = v.
Proof.
  destruct mode; [done|]. intros Hv. apply (rtc_below 100 (λ v, Mode_to_bin Bcd (encode_byte Bcd v) = v)); [|done].
  vm_compute. reflexivity.
Qed.

(** The format that is decoded wrongly: coded decimal, 12 hours, after noon. *)
Definition hour_ok (mode : Mode) (hm : HoursMode) (h : Z) : Prop :=
  match mode, hm with Bcd, H12 => h < 12 | _, _ => True end.

#[global] Instance hour_ok_dec mode hm h : Decision (hour_ok mode hm h).
Proof. destruct mode, hm; cbn; apply _. Defined.

#[global] Instance outcome_Z_eq_dec : EqDecision (outcome Z).
Proof. solve_decision. Defined.

Lemma hour_decodes mode hm h :
  0 ≤ h < 24 → hour_ok mode hm h →
  HoursMode_to_24h hm (Mode_to_bin mode (encode_hour mode hm h)) = Ret h.
Proof.
  intros Hh. apply (rtc_below 24 (λ h, hour_ok mode hm h →
    HoursMode_to_24h hm (Mode_to_bin mode (encode_hour mode hm h)) = Ret h)); [|done].
  destruct mode, hm; vm_compute; reflexivity.
Qed.

(** Every time after noon stops a driver whose chip uses coded decimal and 12 hours: the bit that
    says so is lost when the byte is decoded first. *)
Theorem bcd_afternoon_panics h :
  12 ≤ h < 24 →
  HoursMode_to_24h H12 (Mode_to_bin Bcd (encode_hour Bcd H12 h)) = Panic "assertion failed: m <= 12".
Proof.
  intros Hh. apply (rtc_below 24 (λ h, 12 ≤ h →
    HoursMode_to_24h H12 (Mode_to_bin Bcd (encode_hour Bcd H12 h)) = Panic "assertion failed: m <= 12")); [|lia|lia].
  vm_compute. reflexivity.
Qed.

Lemma config_read mode hm century year mon d h mi s n :
  read_config (λ _, chip_registers mode hm century year mon d h mi s) n = Ret (mode, hm).
Proof. by destruct mode, hm. Qed.

Section snapshot.
Context (mode : Mode) (hm : HoursMode) (century year mon d h mi s : Z).
Context (Hh : 0 ≤ h < 24) (Hok : hour_ok mode hm h).
Context (Hc : 0 ≤ century < 100) (Hy : 0 ≤ year < 100) (Hmon : 1 ≤ mon ≤ 12) (Hd : 1 ≤ d ≤ 31).
Context (Hmi : 0 ≤ mi < 60) (Hs : 0 ≤ s < 60).

Abbreviation chip := (λ _ : nat, chip_registers mode hm century year mon d h mi s).

Lemma snapshot_read n :
  TimeRegisterSnapshot_read chip n (mode, hm) = Ret (MkSnapshot s mi h d mon year century).
Proof.
  unfold TimeRegisterSnapshot_read.
  change (read_register chip ?n 0x04) with (Ret (encode_hour mode hm h)).
  change (read_register chip ?n 0x00) with (Ret (encode_byte mode s)).
  change (read_register chip ?n 0x02) with (Ret (encode_byte mode mi)).
  change (read_register chip ?n 0x07) with (Ret (encode_byte mode d)).
  change (read_register chip ?n 0x08) with (Ret (encode_byte mode mon)).
  change (read_register chip ?n 0x09) with (Ret (encode_byte mode year)).
  change (read_register chip ?n 0x32) with (Ret (encode_byte mode century)).
  cbn [mbind outcome_bind]. rewrite hour_decodes by done. cbn [mbind outcome_bind].
  by rewrite !byte_decodes by lia.
Qed.

End snapshot.

(** ** Properties *)

(** The clock is read correctly.  From a chip that shows a valid time, in any of its formats
    but one, and is not being updated, the driver finds the format and reads exactly that time in
    one round.  The format left out is 12 hours in coded decimal after noon. *)
Theorem rtc_reads_time mode hm century year mon d h mi s fuel n
    (Hh : 0 ≤ h < 24) (Hok : hour_ok mode hm h) (Hc : century = 0 ∨ 20 ≤ century < 100) (Hy : 0 ≤ year < 100)
    (Hmon : 1 ≤ mon ≤ 12) (Hd : 1 ≤ d ≤ 31) (Hmi : 0 ≤ mi < 60) (Hs : 0 ≤ s < 60) :
  let chip := λ _ : nat, chip_registers mode hm century year mon d h mi s in
  ∃ config, read_config chip n = Ret config ∧
    get_current_time chip (S fuel) (n + 1) config =
      Some (Ret ((if century =? 0 then 2000 else 100 * century) + year, mon, d, h, mi, s)).
Proof.
  intros chip. exists (mode, hm). split; [apply config_read|].
  unfold get_current_time. cbn [read_loop_rtc].
  change (is_update_in_progress chip ?n) with (Ret false). unfold chip. rewrite !snapshot_read by (done || lia).
  rewrite bool_decide_eq_true_2 by done. cbn [mbind outcome_bind]. unfold check_time.
  cbn [seconds minutes hours day month year_last_digits maybe_century].
  rewrite (proj2 (Z.ltb_lt s 60)), (proj2 (Z.ltb_lt mi 60)), (proj2 (Z.ltb_lt h 24)) by lia.
  rewrite (proj2 (Z.eqb_neq d 0)), (proj2 (Z.leb_le d 31)), (proj2 (Z.eqb_neq mon 0)), (proj2 (Z.leb_le mon 12)) by lia.
  cbn [negb andb rassert mbind outcome_bind].
  destruct (Z.eqb_spec century 0) as [->|Hne]; [done|]. by rewrite (proj2 (Z.leb_le 20 century)) by lia.
Qed.

Lemma rtc_reads_time_witness :
  get_current_time (λ _, chip_registers Bcd H24 20 26 11 15 13 37 59) 1 1 (Bcd, H24) =
    Some (Ret (2026, 11, 15, 13, 37, 59)).
Proof.
  destruct (rtc_reads_time Bcd H24 20 26 11 15 13 37 59 0 0) as (config & E & H).
  - lia.
  - exact I.
  - lia.
  - lia.
  - lia.
  - lia.
  - lia.
  - lia.
  - rewrite config_read in E. injection E as <-. exact H.
Defined.
