(* ===== verification/Console.v ===== *)
(** * Console: keyboard input and text output
    (modules/driver_ps2: state.rs, keyboard.rs [notify]; libs/d7keymap;
    modules/daemon_console: keyboard.rs, virtual_console.rs, vga.rs, lib.rs)

    Text is a list of bytes.  Unicode normalisation and segmentation belong to two crates and are
    parameters.  The key map is read from files at start-up and is a parameter as well; a remapping
    that leads back to itself makes the lookup run forever, so it runs on fuel.  Talking to the
    keyboard controller and acknowledging messages are port I/O and system calls, left out. *)

From stdpp Require Import base gmap list strings.
From Stdlib Require Import ZArith Lia.
From S2P Require Import Prelude Bytes.
Open Scope Z_scope.

(** ** driver_ps2: scan codes *)

Record KeyboardEvent := MkKeyboardEvent { release : bool; keycode : Z }.

Definition RELEASED : Z := 0xf0.
Definition ALTERNATIVE : Z := 0xe0.
Definition ERROR_0 : Z := 0x00.
Definition ERROR_1 : Z := 0xff.

Record KeyboardState := MkKeyboardState { next_is_release : bool; next_is_alternative : bool }.

Definition KeyboardState_new : KeyboardState := MkKeyboardState false false.

Definition KeyboardState_apply (self : KeyboardState) (byte : Z) : option KeyboardEvent * KeyboardState :=
  if byte =? RELEASED then (None, MkKeyboardState true (next_is_alternative self))
  else if byte =? ALTERNATIVE then (None, MkKeyboardState (next_is_release self) true)
  else if (byte =? ERROR_0) || (byte =? ERROR_1) then (None, MkKeyboardState false false)
  else
    let keycode := Z.lor byte (Z.shiftl (if next_is_alternative self then 1 else 0) 8) in
    (Some (MkKeyboardEvent (next_is_release self) keycode), MkKeyboardState false false).

Definition notify (self : KeyboardState) (byte : Z) : option KeyboardEvent * KeyboardState :=
  if (byte =? 0xFA) || (byte =? 0xEE) then (None, self) else KeyboardState_apply self byte.

(** The events of the bytes that arrive. *)
Fixpoint notify_all (self : KeyboardState) (bytes : list Z) : list KeyboardEvent * KeyboardState :=
  match bytes with
  | [] => ([], self)
  | b :: bytes =>
      let '(e, self) := notify self b in
      let '(es, self) := notify_all self bytes in
      (option_list e ++ es, self)
  end.

(** ** d7keymap *)

Abbreviation KeySymbol := (list Z).

Record Combination := MkCombination { comb_modifiers : gset KeySymbol; comb_main : KeySymbol }.

Definition Combination_matches (self : Combination) (current : KeySymbol) (pressed : gset KeySymbol) : bool :=
  bool_decide (comb_modifiers self = pressed) && bool_decide (comb_main self = current).

Inductive KeyAction :=
| KA_Text (text : list Z)
| KA_Buffer (text : list Z)
| KA_Remap (to : KeySymbol)
| KA_Ignore.

(** [mapping] in the order of the hash map. *)
Record KeyMap := MkKeyMap { km_modifiers : gset KeySymbol; mapping : list (Combination * KeyAction) }.

(** ** daemon_console: keyboard.rs *)

Record Keyboard := MkKeyboard {
  keycodes : gmap Z KeySymbol;
  keymap : KeyMap;
  pressed_modifiers : gset KeySymbol;
}.

Inductive EventAction :=
| EA_KeyAction (a : KeyAction)
| EA_Unmatched (symbol : KeySymbol) (modifiers : gset KeySymbol)
| EA_Ignore
| EA_NoSuchSymbol.

Definition set_pressed (p : gset KeySymbol) (self : Keyboard) : Keyboard :=
  MkKeyboard (keycodes self) (keymap self) p.

(** The first entry of the map that matches. *)
Fixpoint find_mapping (l : list (Combination * KeyAction)) (keysym : KeySymbol) (pressed : gset KeySymbol)
    : option KeyAction :=
  match l with
  | [] => None
  | (k, v) :: l => if Combination_matches k keysym pressed then Some v else find_mapping l keysym pressed
  end.

(** [None] is out of fuel. *)
Fixpoint process_keysym_press (fuel : nat) (self : Keyboard) (keysym : KeySymbol) : option (option KeyAction) :=
  match fuel with
  | O => None
  | S fuel =>
      match find_mapping (mapping (keymap self)) keysym (pressed_modifiers self) with
      | Some (KA_Remap to) => process_keysym_press fuel self to
      | Some v => Some (Some v)
      | None => Some None
      end
  end.

Definition process_event (fuel : nat) (self : Keyboard) (event : KeyboardEvent)
    : option (EventAction * Keyboard) :=
  match keycodes self !! keycode event with
  | Some keysym =>
      if bool_decide (keysym ∈ km_modifiers (keymap self)) then
        Some (EA_Ignore,
              set_pressed (if release event then pressed_modifiers self ∖ {[keysym]}
                           else pressed_modifiers self ∪ {[keysym]}) self)
      else if negb (release event) then
        result ← process_keysym_press fuel self keysym;
        Some (match result with
              | Some action => EA_KeyAction action
              | None => EA_Unmatched keysym (pressed_modifiers self)
              end, self)
      else Some (EA_Ignore, self)
  | None => Some (EA_NoSuchSymbol, self)
  end.

(** ** daemon_console: virtual_console.rs *)

(** [lines] is a queue, the oldest line first. *)
Record Output := MkOutput { lines : list (list Z); height : nat; width : nat }.

Definition Output_new : Output := MkOutput [] 25 80.

Definition new_line (self : Output) : Output :=
  let l := lines self ++ [[]] in
  MkOutput (if (height self <? length l)%nat then tail l else l) (height self) (width self).

(** Changes the last line. *)
Definition set_back (f : list Z → list Z) (l : list (list Z)) : list (list Z) :=
  match reverse l with [] => [] | x :: r => reverse (f x :: r) end.

Definition write_byte (self : Output) (byte : Z) : outcome Output :=
  _ ← rassert (negb (byte =? 0)) "assertion failed: byte != 0";
  if byte =? 13 then Ret self
  else if byte =? 10 then Ret (new_line self)
  else
    let self :=
      match last (lines self) with
      | Some last_line => if (length last_line =? width self)%nat then new_line self else self
      | None => MkOutput [[]] (height self) (width self)
      end in
    match last (lines self) with
    | Some _ => Ret (MkOutput (set_back (λ x, x ++ [byte]) (lines self)) (height self) (width self))
    | None => Panic "called `Option::unwrap()` on a `None` value"
    end.

Fixpoint write_str (self : Output) (text : list Z) : outcome Output :=
  match text with
  | [] => Ret self
  | byte :: text => self ← write_byte self byte; write_str self text
  end.

(** The character written to a cell of the screen. *)
Definition cell (self : Output) (line column : nat) : Z :=
  let shown := drop (length (lines self) - 25) (lines self) in
  default 32 (default [] (shown !! line) !! column).

(** The screen, line by line. *)
Definition Output_render (self : Output) : list (list Z) :=
  (λ line, (λ column, cell self line column) <$> seq 0 (width self)) <$> seq 0 (height self).

Record Input := MkInput { dead_key_buffer : list Z; input_buffer : list Z }.

Definition Input_new : Input := MkInput [] [].

Section unicode.
(** Normalisation, and dropping the last grapheme of a text. *)
Context (nfc : list Z → list Z) (drop_grapheme : list Z → list Z).

Definition Input_keyboard_event (self : Input) (action : EventAction) : outcome Input :=
  match action with
  | EA_KeyAction (KA_Text text) =>
      Ret (MkInput [] (nfc (input_buffer self ++ dead_key_buffer self ++ text)))
  | EA_KeyAction (KA_Buffer text) => Ret (MkInput (dead_key_buffer self ++ text) (input_buffer self))
  | EA_KeyAction (KA_Remap _) => Panic "internal error: entered unreachable code"
  | EA_KeyAction KA_Ignore => Ret self
  | EA_Unmatched symbol modifiers =>
      if bool_decide (symbol = [69; 110; 116; 101; 114] ∧ modifiers = ∅) then  (* Enter *)
        Ret (MkInput (dead_key_buffer self) (input_buffer self ++ [10]))
      else if bool_decide (symbol = [66; 97; 99; 107; 115; 112; 97; 99; 101] ∧ modifiers = ∅) then  (* Backspace *)
        Ret (MkInput [] (drop_grapheme (input_buffer self)))
      else Ret self
  | EA_Ignore | EA_NoSuchSymbol => Ret self
  end.

Record VirtualConsole := MkConsole { output : Output; input : Input }.

Definition VirtualConsole_new : VirtualConsole := MkConsole Output_new Input_new.

Definition VirtualConsole_render (self : VirtualConsole) : outcome (list (list Z)) :=
  s ← write_str (output self) (input_buffer (input self));
  Ret (Output_render s).

(** ** daemon_console: the loop of [main] *)

(** [screen] is what was rendered last. *)
Record consoled := MkConsoled {
  active_index : nat;
  consoles : list VirtualConsole;
  keyboard : Keyboard;
  screen : list (list Z);
}.

Definition render_active (s : consoled) : outcome consoled :=
  c ← index_at (consoles s) (active_index s);
  screen ← VirtualConsole_render c;
  Ret (MkConsoled (active_index s) (consoles s) (keyboard s) screen).

Definition on_print (s : consoled) (c_index : nat) (message : list Z) : outcome consoled :=
  c ← unwrap (consoles s !! c_index);
  o ← write_str (output c) message;
  let s := MkConsoled (active_index s) (<[c_index := MkConsole o (input c)]> (consoles s)) (keyboard s) (screen s) in
  if (c_index =? active_index s)%nat then render_active s else Ret s.

(** [parse_number] is [str::parse::<usize>]. *)
Definition on_key (parse_number : list Z → option nat) (fuel : nat) (s : consoled) (event : KeyboardEvent)
    : option (outcome consoled) :=
  '(action, k) ← process_event fuel (keyboard s) event;
  let active :=
    match action with
    | EA_Unmatched symbol mods =>
        if bool_decide (mods = {[ [76; 101; 102; 116; 67; 116; 114; 108] ]}) then  (* LeftCtrl *)
          default (active_index s) (parse_number symbol)
        else active_index s
    | _ => active_index s
    end in
  Some (
    cs ← (if negb (active =? 0)%nat then
            c ← index_at (consoles s) active;
            i ← Input_keyboard_event (input c) action;
            Ret (<[active := MkConsole (output c) i]> (consoles s))
          else Ret (consoles s));
    render_active (MkConsoled active cs k (screen s))).

End unicode.

(** ** Scan codes *)

(** The bytes the keyboard sends for an event, and the keys it has: two sets of codes without the
    prefixes, the error codes and the two replies of the controller. *)
Definition scan_code (e : KeyboardEvent) : list Z :=
  (if 256 <=? keycode e then [ALTERNATIVE] else []) ++ (if release e then [RELEASED] else []) ++
  [keycode e mod 256].

Definition key_byte (b : Z) : bool :=
  (0 <? b) && (b <? 255) && negb (bool_decide (b ∈ [RELEASED; ALTERNATIVE; 0xFA; 0xEE])).

Definition key_ok (e : KeyboardEvent) : Prop := 0 ≤ keycode e < 512 ∧ key_byte (keycode e mod 256) = true.

Lemma apply_key s b :
  key_byte b = true →
  notify s b = (Some (MkKeyboardEvent (next_is_release s)
    (Z.lor b (Z.shiftl (if next_is_alternative s then 1 else 0) 8))), KeyboardState_new).
Proof.
  unfold key_byte. rewrite !andb_true_iff, negb_true_iff, bool_decide_eq_false. intros [[H0 H1] Hb].
  apply Z.ltb_lt in H0, H1. unfold RELEASED, ALTERNATIVE in Hb. unfold notify, KeyboardState_apply, RELEASED, ALTERNATIVE, ERROR_0, ERROR_1.
  rewrite !elem_of_cons in Hb.
  rewrite (proj2 (Z.eqb_neq b 0xFA)), (proj2 (Z.eqb_neq b 0xEE)), (proj2 (Z.eqb_neq b 0xf0)),
    (proj2 (Z.eqb_neq b 0xe0)), (proj2 (Z.eqb_neq b 0)), (proj2 (Z.eqb_neq b 0xff)) by (lia || tauto).
  done.
Qed.

Lemma keycode_bits k : 0 ≤ k < 512 → Z.lor (k mod 256) (Z.shiftl (if 256 <=? k then 1 else 0) 8) = k.
Proof.
  intros Hk. assert (Forall (λ k, Z.lor (k mod 256) (Z.shiftl (if 256 <=? k then 1 else 0) 8) = k) (seqZ 0 512)) as Hall
    by (apply (bool_decide_unpack _); vm_compute; exact I).
  rewrite Forall_forall in Hall. apply Hall, elem_of_seqZ. lia.
Qed.

Lemma notify_next s b e s' bytes :
  notify s b = (e, s') →
  notify_all s (b :: bytes) = (let '(es, s) := notify_all s' bytes in (option_list e ++ es, s)).
Proof. intros E. cbn [notify_all]. by rewrite E. Qed.

Lemma notify_prefix s b s' bytes :
  notify s b = (None, s') → notify_all s (b :: bytes) = notify_all s' bytes.
Proof. intros E. rewrite (notify_next _ _ _ _ _ E). by destruct (notify_all s' bytes). Qed.

Lemma notify_scan_code e bytes :
  key_ok e →
  notify_all KeyboardState_new (scan_code e ++ bytes) =
    (let '(es, s) := notify_all KeyboardState_new bytes in (e :: es, s)).
Proof.
  intros [Hk Hb]. destruct e as [rel k]. cbn [keycode release] in *. unfold scan_code. cbn [keycode release].
  pose proof (keycode_bits k Hk) as Hbits.
  pose proof (λ s, notify_next s _ _ _ bytes (apply_key s _ Hb)) as Hkey.
  destruct (256 <=? k), rel; cbn [app].
  - rewrite (notify_prefix _ _ (MkKeyboardState false true)) by done.
    rewrite (notify_prefix _ _ (MkKeyboardState true true)) by done. rewrite Hkey. cbn [next_is_release next_is_alternative].
    by rewrite Hbits.
  - rewrite (notify_prefix _ _ (MkKeyboardState false true)) by done. rewrite Hkey.
    cbn [next_is_release next_is_alternative]. by rewrite Hbits.
  - rewrite (notify_prefix _ _ (MkKeyboardState true false)) by done. rewrite Hkey.
    cbn [next_is_release next_is_alternative]. by rewrite Hbits.
  - rewrite Hkey. cbn [next_is_release next_is_alternative KeyboardState_new]. by rewrite Hbits.
Qed.

(** ** Lines *)

(** The lines of a text that is written to an endless page. *)
Definition lay (w : nat) (l : list (list Z)) (byte : Z) : list (list Z) :=
  if byte =? 13 then l
  else if byte =? 10 then l ++ [[]]
  else match last l with
       | None => [[byte]]
       | Some x => if (length x =? w)%nat then l ++ [[byte]] else set_back (λ x, x ++ [byte]) l
       end.

Definition layout (w : nat) (text : list Z) : list (list Z) := foldl (lay w) [] text.

Definition lastn {A} (n : nat) (l : list A) : list A := drop (length l - n) l.

Lemma set_back_snoc f l x : set_back f (l ++ [x]) = l ++ [f x].
Proof. unfold set_back. rewrite reverse_snoc. by rewrite reverse_cons, reverse_involutive. Qed.

Lemma lastn_snoc {A} n (l : list A) x :
  lastn (S n) (l ++ [x]) = lastn n l ++ [x].
Proof.
  unfold lastn. rewrite length_app. cbn [length]. replace (length l + 1 - S n)%nat with (length l - n)%nat by lia.
  by rewrite drop_app_le by lia.
Qed.

Lemma lastn_tail {A} n (l : list A) :
  lastn n l = if (n <? length (lastn (S n) l))%nat then tail (lastn (S n) l) else lastn (S n) l.
Proof.
  unfold lastn. rewrite length_drop. destruct (Nat.ltb_spec n (length l - (length l - S n))) as [H|H].
  - replace (length l - n)%nat with (S (length l - S n)) by lia.
    rewrite <- Nat.add_1_r, <- drop_drop. by destruct (drop (length l - S n) l).
  - f_equal. lia.
Qed.

Lemma length_lastn {A} n (l : list A) : length (lastn n l) = Nat.min n (length l).
Proof. unfold lastn. rewrite length_drop. lia. Qed.

(** The page cut to the last lines. *)
Lemma new_line_lastn h w (l : list (list Z)) :
  new_line (MkOutput (lastn (S h) l) (S h) w) = MkOutput (lastn (S h) (l ++ [[]])) (S h) w.
Proof.
  unfold new_line. cbn [lines height width]. f_equal. rewrite lastn_snoc, (lastn_tail h l).
  rewrite length_app. cbn [length]. pose proof (length_lastn (S h) l) as Hlen.
  destruct (Nat.ltb_spec (S h) (length (lastn (S h) l) + 1)), (Nat.ltb_spec h (length (lastn (S h) l))); try lia; [|done].
  by destruct (lastn (S h) l); [cbn in *; lia|].
Qed.

Lemma last_lastn {A} h (l : list A) : last (lastn (S h) l) = last l.
Proof. destruct l as [|x l _] using rev_ind; [done|]. by rewrite lastn_snoc, !last_snoc. Qed.

Lemma set_back_lastn h f (l : list (list Z)) : set_back f (lastn (S h) l) = lastn (S h) (set_back f l).
Proof.
  destruct l as [|x l _] using rev_ind; [done|].
  by rewrite set_back_snoc, !lastn_snoc, set_back_snoc.
Qed.

Lemma write_byte_lay h w l b :
  b ≠ 0 →
  write_byte (MkOutput (lastn (S h) l) (S h) w) b = Ret (MkOutput (lastn (S h) (lay w l b)) (S h) w).
Proof.
  intros Hb. unfold write_byte, lay. rewrite (proj2 (Z.eqb_neq b 0)) by done. cbn [negb rassert mbind outcome_bind].
  destruct (b =? 13); [done|]. destruct (b =? 10); [by rewrite new_line_lastn|].
  cbn [lines height width]. rewrite last_lastn. destruct (last l) as [x|] eqn:E.
  - destruct (length x =? w)%nat.
    + rewrite new_line_lastn. cbn [lines height width]. rewrite last_lastn, last_snoc.
      by rewrite set_back_lastn, set_back_snoc.
    + cbn [lines height width]. rewrite last_lastn, E. by rewrite set_back_lastn.
  - apply last_None in E as ->. unfold lastn. cbn. destruct h; done.
Qed.

Lemma write_str_layout h w l text :
  0 ∉ text →
  write_str (MkOutput (lastn (S h) l) (S h) w) text = Ret (MkOutput (lastn (S h) (foldl (lay w) l text)) (S h) w).
Proof.
  revert l. induction text as [|b text IH]; intros l Hz; [done|]. cbn [write_str foldl].
  apply not_elem_of_cons in Hz as [Hb Hz]. rewrite write_byte_lay by done. cbn [mbind outcome_bind]. by apply IH.
Qed.

(** Every byte but line ends is laid out, in order, in lines that are not too long. *)
Lemma layout_spec w l text :
  (0 < w)%nat → Forall (λ x, length x ≤ w)%nat l →
  concat (foldl (lay w) l text) = concat l ++ filter (λ b, b ≠ 13 ∧ b ≠ 10) text ∧
  Forall (λ x, length x ≤ w)%nat (foldl (lay w) l text).
Proof.
  intros Hw. revert l. induction text as [|b text IH]; intros l Hl; [by rewrite app_nil_r|]. cbn [foldl].
  assert (concat (lay w l b) = concat l ++ filter (λ b, b ≠ 13 ∧ b ≠ 10) [b] ∧
    Forall (λ x, length x ≤ w)%nat (lay w l b)) as [Hc Hf].
  { unfold lay. rewrite filter_cons, filter_nil.
    destruct (Z.eqb_spec b 13); [by rewrite decide_False, app_nil_r by tauto|].
    destruct (Z.eqb_spec b 10).
    { rewrite decide_False by tauto. rewrite concat_app, app_nil_r. cbn. rewrite app_nil_r.
      split; [done|]. apply Forall_app. split; [done|]. by repeat constructor; cbn; lia. }
    rewrite decide_True by done. destruct l as [|x l _] using rev_ind.
    { cbn. split; [done|]. by repeat constructor. }
    rewrite last_snoc. apply Forall_app in Hl as [Hl [Hx _]%Forall_cons].
    destruct (Nat.eqb_spec (length x) w).
    - rewrite concat_app. cbn. split; [done|]. by repeat apply Forall_app_2; repeat constructor.
    - rewrite set_back_snoc, !concat_app. cbn. rewrite !app_nil_r, <- (assoc_L (++)). split; [done|].
      apply Forall_app_2; [done|]. repeat constructor. rewrite length_app. cbn. lia. }
  destruct (IH _ Hf) as [Hc' Hf']. split; [|done]. rewrite Hc', Hc, <- (assoc_L (++)). f_equal.
  rewrite <- filter_app. done.
Qed.

(** A row of the screen. *)
Lemma row_padded (x : list Z) w :
  (length x ≤ w)%nat → (λ c, default 32 (x !! c)) <$> seq 0 w = x ++ replicate (w - length x) 32.
Proof.
  intros Hx. apply list_eq. intros i. rewrite list_lookup_fmap.
  destruct (decide (i < w)%nat) as [Hi|Hi].
  - rewrite lookup_seq_lt by done. cbn. destruct (decide (i < length x)%nat) as [Hl|Hl].
    + rewrite lookup_app_l by done. by destruct (lookup_lt_is_Some_2 x i Hl) as [y ->].
    + rewrite lookup_app_r by lia. rewrite lookup_replicate_2 by lia. by rewrite lookup_ge_None_2 by lia.
  - rewrite lookup_seq_ge by lia. rewrite lookup_ge_None_2; [done|]. rewrite length_app, length_replicate. lia.
Qed.

(** ** Properties *)

(** Keys are recognised.  From the bytes a keyboard sends for any sequence of presses and
    releases, in either set of codes, the driver makes exactly that sequence of events. *)
Theorem keys_recognised es (Hes : Forall key_ok es) :
  notify_all KeyboardState_new (concat (scan_code <$> es)) = (es, KeyboardState_new).
Proof.
  induction Hes as [|e es He Hes IH]; [done|]. cbn [fmap list_fmap concat]. fold (scan_code <$> es).
  rewrite notify_scan_code by done. by rewrite IH.
Qed.

(** The console shows the end of the text.  Text without zero bytes, however it was sent, is
    laid out in lines of at most 80 characters with every character in its place and none missing;
    the screen has 25 rows and shows the last lines, filled up with blanks. *)
Theorem console_shows_tail text (Hz : 0 ∉ text) :
  let page := layout 80 text in
  ∃ o, write_str Output_new text = Ret o ∧ lines o = lastn 25 page ∧
    concat page = filter (λ b, b ≠ 13 ∧ b ≠ 10) text ∧ Forall (λ x, length x ≤ 80)%nat page ∧
    Output_render o =
      (λ i, let row := default [] (lastn 25 page !! i) in row ++ replicate (80 - length row) 32) <$> seq 0 25.
Proof.
  intros page. eexists. split; [by apply (write_str_layout 24 80 [] text)|]. split; [done|].
  destruct (layout_spec 80 [] text ltac:(lia) ltac:(constructor)) as [Hc Hf].
  split; [done|]. split; [done|]. unfold Output_render. cbn [height width].
  apply list_fmap_ext. intros i k Hk. fold page in Hf |- *. unfold cell. cbn [lines].
  fold (layout 80 text). fold page. rewrite length_lastn.
  replace (Nat.min 25 (length page) - 25)%nat with 0%nat by lia. rewrite drop_0.
  apply row_padded. destruct (lastn 25 page !! k) as [row|] eqn:E; [|cbn; lia]. cbn.
  rewrite Forall_forall in Hf. apply Hf. apply list_elem_of_lookup_2 in E. unfold lastn in E.
  by eapply subseteq_drop.
Qed.

(** A message with a zero byte stops the console daemon. *)
Theorem print_nul_panics s c_index c message :
  consoles s !! c_index = Some c →
  on_print s c_index (0 :: message) = Panic "assertion failed: byte != 0".
Proof. intros Hc. unfold on_print. by rewrite Hc. Qed.

Lemma keys_recognised_witness :
  notify_all KeyboardState_new [0x1c; 0xf0; 0x1c; 0xe0; 0xf0; 0x75] =
    ([MkKeyboardEvent false 0x1c; MkKeyboardEvent true 0x1c; MkKeyboardEvent true 0x175], KeyboardState_new).
Proof.
  apply (keys_recognised [MkKeyboardEvent false 0x1c; MkKeyboardEvent true 0x1c; MkKeyboardEvent true 0x175]).
  repeat constructor; cbn; lia.
Defined.

Lemma console_shows_tail_witness :
  ∃ o, write_str Output_new [104; 105; 10; 33] = Ret o ∧ lines o = [[104; 105]; [33]].
Proof.
  destruct (console_shows_tail [104; 105; 10; 33]) as (o & E & Hl & _).
  - intros H. repeat (apply elem_of_cons in H as [H|H]; [discriminate H|]). by apply elem_of_nil in H.
  - exists o. exact (conj E Hl).
Defined.
