(* ===== verification/LibIpc.v ===== *)
(** * LibIpc: messages in user programs (libs/libd7/src/ipc)

    A program is a tree of the system calls it makes; what is left of [syscall.rs] is the
    constructors of [ipc_sys].  [kernel_call] is what the handlers of src/syscall/mod.rs do once
    their arguments are read from user memory, and [system] is two processes with the IPC manager
    they share.  The serialiser is the pinecone crate, a parameter.  Values that a function drops
    at its end or at a [?] are dropped explicitly. *)

From stdpp Require Import base gmap list strings pretty relations.
From Stdlib Require Import ZArith Lia.
From S2P Require Import Prelude Abi Topic SubscriptionList Queues EventQueue Ipc IpcProps IpcCalls Bytes.
Open Scope Z_scope.

(** ** Programs *)

Inductive ipc_sys :=
| SysSubscribe (filter : string) (flags : Z)
| SysUnsubscribe (sub : SubscriptionId)
| SysPublish (topic : string) (data : list byte)
| SysDeliver (topic : string) (data : list byte)
| SysDeliverReply (topic : string) (data : list byte)
| SysReceive (sub : SubscriptionId) (buf : list byte)
| SysAcknowledge (sub : SubscriptionId) (ack : AcknowledgeId) (positive : bool).

Abbreviation sys_result A := (result A SyscallErrorCode).

(** A call answers with its result and the buffer it was given. *)
Inductive prog (A : Type) :=
| Return (a : A)
| Crash (why : string)
| Sys (c : ipc_sys) (k : sys_result Z → list byte → prog A).
Arguments Return {A} _.
Arguments Crash {A} _.
Arguments Sys {A} _ _.

Fixpoint prog_bind {A B} (p : prog A) (f : A → prog B) : prog B :=
  match p with
  | Return a => f a
  | Crash why => Crash why
  | Sys c k => Sys c (λ r buf, prog_bind (k r buf) f)
  end.

#[global] Instance prog_mbind : MBind prog := λ A B f p, prog_bind p f.
#[global] Instance prog_mret : MRet prog := λ A, Return.

Definition lift_outcome {A} (o : outcome A) : prog A :=
  match o with Ret a => Return a | Panic why => Crash why end.

(** [p?], with what is dropped on the way out. *)
Definition try_or {A B} (p : prog (sys_result A)) (cleanup : prog unit) (f : A → prog (sys_result B))
    : prog (sys_result B) :=
  r ← p;
  match r with
  | Ok a => f a
  | Err e => _ ← cleanup; Return (Err e)
  end.

Definition try {A B} (p : prog (sys_result A)) (f : A → prog (sys_result B)) : prog (sys_result B) :=
  try_or p (Return tt) f.

(** [p.expect(why)] *)
Definition expect_ok {A} (p : prog (sys_result A)) (why : string) : prog unit :=
  r ← p;
  match r with Ok _ => Return tt | Err _ => Crash why end.

Definition call (c : ipc_sys) : prog (sys_result Z) := Sys c (λ r _, Return r).
Definition call_unit (c : ipc_sys) : prog (sys_result unit) := try (call c) (λ _, Return (Ok tt)).

(** [pinecone::to_vec] and [from_bytes] of a type. *)
Class Codec (A : Type) := {
  to_vec : A → option (list byte);
  from_bytes : list byte → option A;
}.
Class CodecLaws (A : Type) `{!Codec A} := {
  from_to a l : to_vec a = Some l → from_bytes l = Some a;
}.

(** ** send.rs *)

Section send.
Context {T : Type} `{!Codec T}.

Definition publish (topic : string) (message : T) : prog (sys_result unit) :=
  d ← lift_outcome (unwrap (to_vec message));
  call_unit (SysPublish topic d).

Definition deliver (topic : string) (message : T) : prog (sys_result unit) :=
  d ← lift_outcome (unwrap (to_vec message));
  call_unit (SysDeliver topic d).

Definition deliver_reply (topic : string) (message : T) : prog (sys_result unit) :=
  d ← lift_outcome (unwrap (to_vec message));
  call_unit (SysDeliverReply topic d).

End send.

(** ** subscription.rs *)

Definition BUFFER_SIZE : Z := 0x100000.

Record AcknowledgeContext := MkAckCtx { sub_id : SubscriptionId; ctx_ack_id : option AcknowledgeId }.

Definition AcknowledgeContext_answer (positive : bool) (self : AcknowledgeContext)
    : prog (sys_result unit) :=
  match ctx_ack_id self with
  | Some ack_id => call_unit (SysAcknowledge (sub_id self) ack_id positive)
  | None => Return (Ok tt)
  end.
Definition AcknowledgeContext_ack := AcknowledgeContext_answer true.
Definition AcknowledgeContext_nack := AcknowledgeContext_answer false.

Definition AcknowledgeContext_drop (self : AcknowledgeContext) : prog unit :=
  match ctx_ack_id self with
  | Some ack_id =>
      expect_ok (call (SysAcknowledge (sub_id self) ack_id false))
        "Failed to negative-acknowledge in drop"
  | None => Return tt
  end.

(** The constructors of both subscription types, which hold the id. *)
Definition UnreliableSubscription_exact (filter : string) : prog (sys_result SubscriptionId) :=
  call (SysSubscribe filter 0).
Definition UnreliableSubscription_prefix (filter : string) : prog (sys_result SubscriptionId) :=
  call (SysSubscribe filter SubscriptionFlags_PREFIX).
Definition ReliableSubscription_exact (filter : string) : prog (sys_result SubscriptionId) :=
  call (SysSubscribe filter SubscriptionFlags_RELIABLE).
Definition ReliableSubscription_prefix (filter : string) : prog (sys_result SubscriptionId) :=
  call (SysSubscribe filter (Z.lor SubscriptionFlags_RELIABLE SubscriptionFlags_PREFIX)).
Definition ReliableSubscription_pipe (filter : string) : prog (sys_result SubscriptionId) :=
  call (SysSubscribe filter SubscriptionFlags_PIPE).

Definition Subscription_drop (id : SubscriptionId) : prog unit :=
  expect_ok (call (SysUnsubscribe id)) "Unsubscribe on drop failed".

(** [[0u8; BUFFER_SIZE]] *)
Definition zero_buffer : list byte := replicate (Z.to_nat BUFFER_SIZE) 0.

Lemma zero_buffer_length : length zero_buffer = Z.to_nat BUFFER_SIZE.
Proof. apply length_replicate. Qed.
#[global] Opaque zero_buffer.

Section receive.
Context `{!Codec Message} {T : Type} `{!Codec T}.

(** [ipc_receive] into a fresh buffer, and the message it holds. *)
Definition receive_message (id : SubscriptionId) : prog (sys_result Message) :=
  Sys (SysReceive id zero_buffer) (λ r buffer,
    match r with
    | Err e => Return (Err e)
    | Ok count =>
        bytes ← lift_outcome (index_range buffer 0 (Z.to_nat count));
        msg ← lift_outcome (expect (from_bytes bytes) "Invalid message");
        Return (Ok msg)
    end).

Definition UnreliableSubscription_receive_topic (id : SubscriptionId) : prog (sys_result (T * string)) :=
  try (receive_message id) (λ msg,
    d ← lift_outcome (expect (from_bytes (data msg)) "Invalid message");
    Return (Ok (d, topic msg))).

Definition UnreliableSubscription_receive (id : SubscriptionId) : prog (sys_result T) :=
  try (UnreliableSubscription_receive_topic id) (λ '(d, _), Return (Ok d)).

Definition ReliableSubscription_receive_topic (id : SubscriptionId)
    : prog (sys_result (AcknowledgeContext * T * string)) :=
  try (receive_message id) (λ msg,
    let ack_ctx := MkAckCtx id (ack_id msg) in
    d ← lift_outcome (expect (from_bytes (data msg)) "Invalid message payload");
    Return (Ok (ack_ctx, d, topic msg))).

Definition ReliableSubscription_receive (id : SubscriptionId)
    : prog (sys_result (AcknowledgeContext * T)) :=
  try (ReliableSubscription_receive_topic id) (λ '(ack_ctx, d, _), Return (Ok (ack_ctx, d))).

Definition ReliableSubscription_ack_receive_topic (id : SubscriptionId) : prog (sys_result (T * string)) :=
  try (ReliableSubscription_receive_topic id) (λ '(ctx, d, topic),
    try (AcknowledgeContext_ack ctx) (λ _, Return (Ok (d, topic)))).

Definition ReliableSubscription_ack_receive (id : SubscriptionId) : prog (sys_result T) :=
  try (ReliableSubscription_ack_receive_topic id) (λ '(d, _), Return (Ok d)).

End receive.

(** ** server.rs *)

Section server.
Context `{!Codec Message} {RQ RS : Type} `{!Codec (string * RQ)} `{!Codec RS}.

Definition Server_exact := ReliableSubscription_exact.
Definition Server_prefix := ReliableSubscription_prefix.
Definition Server_pipe := ReliableSubscription_pipe.

Definition Server_handle_topic (sub : SubscriptionId) (f : RQ → string → prog (sys_result RS))
    : prog (sys_result unit) :=
  try (ReliableSubscription_receive_topic (T := string * RQ) sub) (λ '(ack_ctx, (reply_to, message), topic),
    try_or (f message topic) (AcknowledgeContext_drop ack_ctx) (λ response,
    try_or (deliver_reply reply_to response) (AcknowledgeContext_drop ack_ctx) (λ _,
    try (AcknowledgeContext_ack ack_ctx) (λ _, Return (Ok tt))))).

Definition Server_handle (sub : SubscriptionId) (f : RQ → prog (sys_result RS)) : prog (sys_result unit) :=
  Server_handle_topic sub (λ message _, f message).

Record ReplyCtx := MkReplyCtx { reply_topic : string; reply_ack_ctx : AcknowledgeContext }.

Definition Server_receive_topic (sub : SubscriptionId) : prog (sys_result (ReplyCtx * RQ * string)) :=
  try (ReliableSubscription_receive_topic (T := string * RQ) sub) (λ '(ack_ctx, (reply_topic, message), topic),
    Return (Ok (MkReplyCtx reply_topic ack_ctx, message, topic))).

Definition Server_receive (sub : SubscriptionId) : prog (sys_result (ReplyCtx * RQ)) :=
  try (Server_receive_topic sub) (λ '(reply_ctx, value, _), Return (Ok (reply_ctx, value))).

Definition ReplyCtx_reply (self : ReplyCtx) (response : RS) : prog (sys_result unit) :=
  try_or (deliver_reply (reply_topic self) response) (AcknowledgeContext_drop (reply_ack_ctx self)) (λ _,
    AcknowledgeContext_ack (reply_ack_ctx self)).

Definition ReplyCtx_nack (self : ReplyCtx) : prog (sys_result unit) :=
  AcknowledgeContext_nack (reply_ack_ctx self).

(** [format!("libd7/ipc/request/{}/{}", pid, num)] *)
Definition reply_name (pid : ProcessId) (num : Z) : string :=
  "libd7/ipc/request/" +:+ pretty pid +:+ "/" +:+ pretty num.

(** [num] is what [NEXT_TOPIC] counts. *)
Definition request (pid : ProcessId) (num : Z) (topic : string) (message : RQ) : prog (sys_result RS) :=
  let reply_to := reply_name pid num in
  try (ReliableSubscription_exact reply_to) (λ subscription,
  try_or (deliver topic (reply_to, message)) (Subscription_drop subscription) (λ _,
  try_or (ReliableSubscription_receive (T := RS) subscription) (Subscription_drop subscription) (λ '(ack_ctx, d),
  try_or (AcknowledgeContext_ack ack_ctx) (Subscription_drop subscription) (λ _,
    _ ← Subscription_drop subscription;
    Return (Ok d))))).

End server.

(** ** select.rs: the body that the index of [ipc_select] chooses *)

Inductive branch := OneBranch (i : nat) | AnyBranch (i var : nat).

(** [anys] are the lengths of the lists behind [any]. *)
Fixpoint select_any (anys : list nat) (k i index : nat) : outcome branch :=
  match anys with
  | [] => Panic "Select returned unknown alternative"
  | len :: anys =>
      if (index <=? i + len)%nat then Ret (AnyBranch k (index - i))
      else select_any anys (S k) (i + len) index
  end.

Definition select_branch (ones : nat) (anys : list nat) (index : nat) : outcome branch :=
  if (index <? ones)%nat then Ret (OneBranch index) else select_any anys 0 ones index.

(** ** The kernel's side *)

Inductive answer :=
| Returned (r : sys_result Z) (buf : list byte)
| Blocked (e : ExplicitEventId)
| Killed.

(** The value of a call, with its events. *)
Definition returned {A} (f : A → Z) (r : IpcResult A) (m : Manager) (n : Z)
    : answer * gset ExplicitEventId * Manager * Z :=
  (Returned (match ipc_value r with Ok a => Ok (f a) | Err e => Err (IpcError_code e) end) [],
   ipc_events r, m, n).

Definition zero {A} (_ : A) : Z := 0.

Section kernel.
Context `{HO : HashOrder} `{PC : Pinecone} (rd : InitRD) (services : gmap SubscriptionId Service).
Context `{!Codec Message}.

Definition kernel_call (pid : ProcessId) (c : ipc_sys) (m : Manager) (n : Z)
    : outcome (answer * gset ExplicitEventId * Manager * Z) :=
  match c with
  | SysSubscribe filter flags =>
      match SubscriptionFlags_from_bits flags with
      | None => Ret (Killed, ∅, m, n)
      | Some flags =>
          match TopicFilter_try_new filter (negb (flags_contains flags SubscriptionFlags_PREFIX)) with
          | None => Ret (returned zero (IpcResult_error (A := unit) InvalidTopic) m n)
          | Some f =>
              let (r, m) := Manager_subscribe m pid f (flags_contains flags SubscriptionFlags_RELIABLE)
                (flags_contains flags SubscriptionFlags_PIPE) in
              Ret (returned (λ s, s)
                (IpcResult_new (match r with Ok s => Ok s | Err e => Err (Subscription e) end)) m n)
          end
      end
  | SysUnsubscribe s => '(r, m) ← Manager_unsubscribe m pid s; Ret (returned zero r m n)
  | SysPublish t d =>
      match Topic_new t with
      | None => Ret (returned zero (IpcResult_error (A := unit) InvalidTopic) m n)
      | Some t => '(r, m) ← Manager_publish m t d; Ret (returned zero r m n)
      end
  | SysDeliver t d =>
      if Manager_delivery_complete m pid then
        '(r, m) ← Manager_after_delivery m pid; Ret (returned zero r m n)
      else
        match Topic_new t with
        | None => Ret (returned zero (IpcResult_error (A := unit) InvalidTopic) m n)
        | Some t =>
            '(r, m, n) ← Manager_deliver rd services m pid t d n;
            Ret (match ipc_value r with
                 | Ok (DeliverProcess e) => (Blocked e, ipc_events r, m, n)
                 | _ => returned zero r m n
                 end)
        end
  | SysDeliverReply t d =>
      match Topic_new t with
      | None => Ret (returned zero (IpcResult_error (A := unit) InvalidTopic) m n)
      | Some t => '(r, m) ← Manager_deliver_reply m pid t d; Ret (returned zero r m n)
      end
  | SysReceive s buf =>
      '(r, m, n) ← Manager_receive m pid s n;
      match ipc_value r with
      | Ok (Err e) => Ret (Blocked e, ipc_events r, m, n)
      | Ok (Ok msg) =>
          ser_msg ← unwrap (to_vec msg);
          _ ← rassert (length ser_msg <=? length buf)%nat "Buffer too small";
          Ret (Returned (Ok (Z.of_nat (length ser_msg))) (ser_msg ++ drop (length ser_msg) buf),
               ipc_events r, m, n)
      | Err _ => Ret (returned zero r m n)
      end
  | SysAcknowledge s a positive =>
      '(r, m) ← Manager_acknowledge m s a positive; Ret (returned zero r m n)
  end.

(** ** Two processes *)

Record peer (A : Type) := MkPeer { pid : ProcessId; code : prog A; waits : option ExplicitEventId }.
#[global] Arguments MkPeer {A} _ _ _.
#[global] Arguments pid {A} _.
#[global] Arguments code {A} _.
#[global] Arguments waits {A} _.

(** An event ends the wait for it. *)
Definition wake {A} (events : gset ExplicitEventId) (p : peer A) : peer A :=
  match waits p with
  | Some e => if bool_decide (e ∈ events) then MkPeer (pid p) (code p) None else p
  | None => p
  end.

Record system (A B : Type) := MkSystem {
  manager : Manager;
  next_event : Z;
  client : peer A;
  server : peer B;
}.
#[global] Arguments MkSystem {A B} _ _ _ _.
#[global] Arguments manager {A B} _.
#[global] Arguments next_event {A B} _.
#[global] Arguments client {A B} _.
#[global] Arguments server {A B} _.

(** The next call of a process that does not wait; a call that blocks is repeated after its
    event.  [None] when the process has no next call: it waits, it is over, or the kernel panics. *)
Definition turn {A} (p : peer A) (m : Manager) (n : Z)
    : option (peer A * gset ExplicitEventId * Manager * Z) :=
  match waits p, code p with
  | None, Sys c k =>
      match kernel_call (pid p) c m n with
      | Ret (Returned r buf, events, m, n) => Some (MkPeer (pid p) (k r buf) None, events, m, n)
      | Ret (Blocked e, events, m, n) => Some (MkPeer (pid p) (Sys c k) (Some e), events, m, n)
      | _ => None
      end
  | _, _ => None
  end.

Inductive system_step {A B} : system A B → system A B → Prop :=
| client_step m n c c' s events m' n' :
    turn c m n = Some (c', events, m', n') →
    system_step (MkSystem m n c s) (MkSystem m' n' c' (wake events s))
| server_step m n c s s' events m' n' :
    turn s m n = Some (s', events, m', n') →
    system_step (MkSystem m n c s) (MkSystem m' n' (wake events c) s').

End kernel.

(** With one list behind [any] the index finds its body; with two, the first subscription of the
    second list runs the body of the first, with an index behind its end. *)
Lemma select_one_any ones len index :
  (ones ≤ index < ones + len)%nat → select_branch ones [len] index = Ret (AnyBranch 0 (index - ones)).
Proof.
  intros H. unfold select_branch. cbn [select_any]. destruct (Nat.ltb_spec index ones); [lia|].
  destruct (Nat.leb_spec index (ones + len)); [done|lia].
Qed.

Theorem select_misroutes ones len anys :
  select_branch ones (len :: anys) (ones + len) = Ret (AnyBranch 0 len).
Proof.
  unfold select_branch. cbn [select_any]. destruct (Nat.ltb_spec (ones + len) ones); [lia|].
  rewrite Nat.leb_refl. do 2 f_equal. lia.
Qed.
