(* ===== verification/LibIpcProps.v ===== *)
(** * LibIpcProps: a request is answered (libs/libd7/src/ipc with src/ipc)

    A client that runs [request] and a server that runs [Server_handle_topic], in any order of
    their turns: the phases of the exchange, with the manager of each phase written out. *)

From stdpp Require Import base gmap list strings relations.
From Stdlib Require Import ZArith Lia.
From S2P Require Import Prelude Abi Topic SubscriptionList Queues EventQueue Ipc IpcProps IpcCalls Bytes LibIpc.
Open Scope Z_scope.

(** ** One subscriber *)

Lemma filter_id {A} (P : A → Prop) `{∀ x, Decision (P x)} (l : list A) : Forall P l → filter P l = l.
Proof. induction 1 as [|x l Hx _ IH]; [done|]. by rewrite filter_cons, decide_True, IH. Qed.

Lemma hash_order_singleton `{HO : HashOrder} {A} `{Countable A} (x : A) : hash_order {[x]} = [x].
Proof. apply Permutation_singleton_r. by rewrite hash_order_perm, elements_singleton. Qed.

Lemma reliable_target_one `{HO : HashOrder} m t s :
  SubscriptionList_find_all (subscriptions m) t true = {[s]} → reliable_target m t = Ret (Some s).
Proof.
  intros Hs. unfold reliable_target. rewrite Hs, size_singleton. cbn. by rewrite hash_order_singleton.
Qed.

Section rpc.
Context `{HO : HashOrder} `{PC : Pinecone} (rd : InitRD) (services : gmap SubscriptionId Service).
Context `{!Codec Message} {RQ RS : Type} `{!Codec (string * RQ)} `{!Codec RS}.
Context `{!CodecLaws Message} `{!CodecLaws (string * RQ)} `{!CodecLaws RS}.
(** The manager at the start, the two processes, the subscription of the server, the request, and
    what the server's function returns. *)
Context (m : Manager) (cl sv : ProcessId) (s : SubscriptionId) (tn : string) (t rt : Topic) (num : Z).
Context (message : RQ) (f : RQ → string → prog (sys_result RS)) (fr : sys_result RS).
(** The encodings of the request, of the response, and of the two messages that carry them. *)
Context (d d' w w' : list byte).

Abbreviation a := (next_acknowledge_id m).
Abbreviation r := (next_subscription_id (subscriptions m)).
Abbreviation reply_to := (reply_name cl num).
Abbreviation kcall := (kernel_call rd services).

Definition box (q : list Message) (e : option ExplicitEventId) : Mailbox :=
  {| mb_queue := {| queue := q; event := e; limit := MAILBOX_BUFFER_LIMIT |}; pipe_mode := PipeNone |}.

(** The request and the reply in the mailboxes. *)
Definition request_msg : Message := {| topic := tn; data := d; ack_id := Some a |}.
Definition reply_msg : Message := {| topic := reply_to; data := d'; ack_id := None |}.

(** The server is idle on its topic, the reply topic is free, ids do not run out, and what is sent
    can be encoded and fits the buffers. *)
Record rpc_ok : Prop := {
  ro_wf : mg_wf m;
  ro_topic : Topic_new tn = Some t;
  ro_target : SubscriptionList_find_all (subscriptions m) t true = {[s]};
  ro_idle : mailboxes m !! s = Some (Some (box [] None));
  ro_owns : owns m sv s;
  ro_reply : Topic_new reply_to = Some rt;
  ro_free : SubscriptionList_conflicts (targets (subscriptions m)) (Exact rt) true = false;
  ro_sub : r < u64_max;
  ro_ack : a < u64_max;
  ro_result : delivery_result m !! cl = None;
  ro_request : to_vec (reply_to, message) = Some d;
  ro_request_msg : to_vec request_msg = Some w ∧ Z.of_nat (length w) ≤ BUFFER_SIZE;
  ro_f : f message tn = Return fr;
  ro_response : ∀ response, fr = Ok response →
    to_vec response = Some d' ∧ to_vec reply_msg = Some w' ∧ Z.of_nat (length w') ≤ BUFFER_SIZE;
}.

Context (Hok : rpc_ok).

(** ** The managers of the phases *)

Definition l1 : SubscriptionList := (SubscriptionList_insert (subscriptions m) (Exact rt) true).2.
Definition p1 : gmap ProcessId (gset SubscriptionId) :=
  <[cl := {[r]} ∪ default ∅ (process_subscriptions m !! cl)]> (process_subscriptions m).

(** The mailbox of the server has [q], with the event [e]. *)
Definition boxes (q : list Message) (e : option ExplicitEventId) :=
  <[s := Some (box q e)]> (mailboxes m).

(** Before the subscription to the reply topic. *)
Definition before (e : option ExplicitEventId) : Manager :=
  {| subscriptions := subscriptions m; mailboxes := boxes [] e;
     waiting_for_delivery := waiting_for_delivery m; delivery_result := delivery_result m;
     next_acknowledge_id := a; process_subscriptions := process_subscriptions m |}.

(** While it exists, with [qr] in its mailbox. *)
Definition during (q : list Message) (e : option ExplicitEventId) (qr : list Message)
    (wf : gmap AcknowledgeId (ExplicitEventId * ProcessId)) (dr : gmap ProcessId (result unit DeliveryError))
    (ack : AcknowledgeId) : Manager :=
  {| subscriptions := l1; mailboxes := <[r := Some (box qr None)]> (boxes q e);
     waiting_for_delivery := wf; delivery_result := dr;
     next_acknowledge_id := ack; process_subscriptions := p1 |}.

Definition after : Manager :=
  {| subscriptions := SubscriptionList_remove l1 r; mailboxes := boxes [] None;
     waiting_for_delivery := waiting_for_delivery m; delivery_result := delivery_result m;
     next_acknowledge_id := a + 1;
     process_subscriptions :=
       <[cl := ({[r]} ∪ default ∅ (process_subscriptions m !! cl)) ∖ {[r]}]> (process_subscriptions m) |}.

Lemma before_none : before None = m.
Proof.
  unfold before, boxes. rewrite insert_id by apply (ro_idle Hok). by destruct m.
Qed.

Lemma insert_ok : SubscriptionList_insert (subscriptions m) (Exact rt) true = (Some r, l1).
Proof. unfold l1, SubscriptionList_insert. by rewrite (ro_free Hok). Qed.

Lemma l1_wf : sl_wf l1.
Proof. eapply insert_wf; [apply (ro_wf Hok)| |apply (ro_sub Hok)|apply insert_ok].
  exact (proj2 (proj1 (Topic_new_spec _ _) (ro_reply Hok))). Qed.

Lemma l1_targets : targets l1 ≡ₚ (Exact rt, true, r) :: targets (subscriptions m).
Proof. by destruct (insert_targets _ _ _ _ _ insert_ok) as (_ & _ & ? & _). Qed.

Lemma l1_server : SubscriptionList_find_all l1 t true = {[s]}.
Proof.
  apply find_all_reliable_singleton; [apply l1_wf|].
  assert (s ∈ SubscriptionList_find_all (subscriptions m) t true) as (g & Hg & Hm)%find_all_spec
    by (rewrite (ro_target Hok); set_solver).
  apply find_all_spec. exists g. split; [|done]. rewrite l1_targets. set_solver.
Qed.

Lemma l1_reply : SubscriptionList_find_all l1 rt true = {[r]}.
Proof.
  apply find_all_reliable_singleton; [apply l1_wf|]. apply find_all_spec. exists (Exact rt).
  split; [rewrite l1_targets; set_solver|]. cbn. apply String.eqb_refl.
Qed.

(** Removing the subscription gives the old ones back. *)
Lemma after_targets : targets (SubscriptionList_remove l1 r) ≡ₚ targets (subscriptions m).
Proof.
  unfold SubscriptionList_remove. cbn [targets]. rewrite l1_targets, filter_cons, decide_False by (cbn; tauto).
  rewrite filter_id; [done|]. apply Forall_forall. intros [[g b] i] Hg. cbn.
  pose proof (wf_ids _ (mg_list _ (ro_wf Hok)) _ _ _ Hg). lia.
Qed.

Abbreviation W := (waiting_for_delivery m).
Abbreviation D := (delivery_result m).

Lemma reply_fresh : mailboxes m !! r = None.
Proof.
  destruct (mailboxes m !! r) as [o|] eqn:E; [|done].
  pose proof (proj1 (mg_dom _ (ro_wf Hok) r) ltac:(eauto)) as (g & b & Hg)%elem_of_sl_ids.
  pose proof (wf_ids _ (mg_list _ (ro_wf Hok)) _ _ _ Hg). lia.
Qed.

Lemma reply_server : r ≠ s.
Proof. intros E. pose proof reply_fresh as H. rewrite E, (ro_idle Hok) in H. done. Qed.

Lemma ack_next : AcknowledgeId_next a = a + 1.
Proof.
  pose proof (mg_next_ack _ (ro_wf Hok)) as Hu. unfold is_u64 in Hu.
  apply AcknowledgeId_next_small. pose proof (ro_ack Hok). lia.
Qed.

Lemma ack_fresh : W !! a = None.
Proof.
  destruct (W !! a) eqn:E; [|done]. pose proof (mg_ack_bound _ (ro_wf Hok) a ltac:(eauto)). lia.
Qed.

Lemma tn_str : topic_str t = tn.
Proof. exact (proj1 (proj1 (Topic_new_spec _ _) (ro_topic Hok))). Qed.

Lemma rt_str : topic_str rt = reply_to.
Proof. exact (proj1 (proj1 (Topic_new_spec _ _) (ro_reply Hok))). Qed.

Lemma during_server q e qr wf dr ack : mailboxes (during q e qr wf dr ack) !! s = Some (Some (box q e)).
Proof. cbn. rewrite lookup_insert_ne by apply reply_server. apply lookup_insert_eq. Qed.

Lemma during_reply q e qr wf dr ack : mailboxes (during q e qr wf dr ack) !! r = Some (Some (box qr None)).
Proof. apply lookup_insert_eq. Qed.

Lemma put_server q e q' e' qr wf dr ack :
  put_mailbox s (box q' e') (during q e qr wf dr ack) = during q' e' qr wf dr ack.
Proof.
  unfold put_mailbox, during, set_mailboxes, boxes. cbn. f_equal.
  rewrite insert_insert_ne by (intros E; by apply reply_server). by rewrite insert_insert_eq.
Qed.

Lemma put_reply q e qr qr' wf dr ack :
  put_mailbox r (box qr' None) (during q e qr wf dr ack) = during q e qr' wf dr ack.
Proof. unfold put_mailbox, during, set_mailboxes, boxes. cbn. f_equal. apply insert_insert_eq. Qed.

Lemma server_owns : Manager_process_owns m sv s = true.
Proof. apply process_owns_spec, (ro_owns Hok). Qed.

Lemma during_owns q e qr wf dr ack :
  Manager_process_owns (during q e qr wf dr ack) sv s = true ∧
  Manager_process_owns (during q e qr wf dr ack) cl r = true.
Proof.
  unfold Manager_process_owns. cbn. unfold p1. split; [|rewrite lookup_insert_eq; apply bool_decide_eq_true_2; set_solver].
  pose proof server_owns as H. unfold Manager_process_owns in H.
  destruct (decide (cl = sv)) as [<-|Hne]; [|by rewrite lookup_insert_ne].
  rewrite lookup_insert_eq. destruct (process_subscriptions m !! cl); [|done]. cbn.
  apply bool_decide_eq_true_1 in H. apply bool_decide_eq_true_2. set_solver.
Qed.

(** ** The calls *)

Lemma call_subscribe e n :
  kcall cl (SysSubscribe reply_to SubscriptionFlags_RELIABLE) (before e) n =
    Ret (Returned (Ok r) [], ∅, during [] e [] W D a, n).
Proof.
  unfold kernel_call. change (SubscriptionFlags_from_bits SubscriptionFlags_RELIABLE) with (Some SubscriptionFlags_RELIABLE).
  cbn iota beta. change (negb _) with true. unfold TopicFilter_try_new. rewrite (ro_reply Hok). cbn [mbind option_bind].
  change (flags_contains _ SubscriptionFlags_RELIABLE) with true. change (flags_contains _ SubscriptionFlags_PIPE) with false.
  unfold Manager_subscribe. change (subscriptions (before e)) with (subscriptions m). rewrite insert_ok. done.
Qed.

Lemma receive_empty p M n sub :
  Manager_process_owns M p sub = true → mailboxes M !! sub = Some (Some (box [] None)) →
  Manager_receive M p sub n = Ret (IpcResult_success (Err n), put_mailbox sub (box [] (Some n)) M, wrap64 (n + 1)).
Proof.
  intros Ho Hb. unfold Manager_receive, Manager_verify_process_owns. rewrite Ho, Hb. done.
Qed.

Lemma receive_one p M n sub msg :
  Manager_process_owns M p sub = true → mailboxes M !! sub = Some (Some (box [msg] None)) →
  Manager_receive M p sub n = Ret (IpcResult_success (Ok msg), put_mailbox sub (box [] None) M, n).
Proof.
  intros Ho Hb. unfold Manager_receive, Manager_verify_process_owns. rewrite Ho, Hb. done.
Qed.

Lemma call_wait_before n buf :
  kcall sv (SysReceive s buf) (before None) n = Ret (Blocked n, ∅, before (Some n), wrap64 (n + 1)).
Proof.
  unfold kernel_call. rewrite receive_empty; [|exact server_owns|apply lookup_insert_eq]. cbn [mbind outcome_bind].
  cbn. do 3 f_equal. unfold put_mailbox, set_mailboxes, before, boxes. cbn. f_equal. apply insert_insert_eq.
Qed.

Lemma call_wait_during n buf wf dr ack :
  kcall sv (SysReceive s buf) (during [] None [] wf dr ack) n =
    Ret (Blocked n, ∅, during [] (Some n) [] wf dr ack, wrap64 (n + 1)).
Proof.
  unfold kernel_call. rewrite receive_empty; [|apply during_owns|apply during_server].
  by rewrite put_server.
Qed.

Lemma push_one e x : Mailbox_push_reliable (box [] e) x = Ret (Ok e, box [x] None).
Proof. done. Qed.

Lemma call_deliver e n :
  kcall cl (SysDeliver tn d) (during [] e [] W D a) n =
    Ret (Blocked n, trigger_set e ∪ ∅,
         during [request_msg] None [] (<[a := (n, cl)]> W) D (a + 1), wrap64 (n + 1)).
Proof.
  unfold kernel_call, Manager_delivery_complete. cbn [delivery_result during].
  rewrite (ro_result Hok), bool_decide_eq_false_2, (ro_topic Hok) by (by intros []). unfold Manager_deliver.
  rewrite (reliable_target_one _ t s) by apply l1_server. cbn [mbind outcome_bind].
  change (mailboxes (set_next_acknowledge_id _ ?M)) with (mailboxes M). rewrite during_server.
  cbn [unwrap expect mbind outcome_bind]. unfold deliver_process.
  change (next_acknowledge_id (during [] e [] W D a)) with a. rewrite tn_str, ack_next.
  change (pipe_accept _ _) with (Ok (E := IpcError) PipeNone). cbn [WaitFor_new_event_id].
  change (set_pipe_mode PipeNone (box [] e)) with (box [] e). rewrite push_one. cbn. do 3 f_equal.
  pose proof (put_server [] e [request_msg] None [] (<[a := (n, cl)]> W) D (a + 1)) as E.
  unfold put_mailbox, set_mailboxes in E. exact E.
Qed.

Lemma take_encoded (ser buf : list byte) :
  sub_slice (ser ++ drop (length ser) buf) 0 (length ser) = ser.
Proof. unfold sub_slice. rewrite drop_0, Nat.sub_0_r. apply take_app_length. Qed.

Lemma call_receive_one p sub M M' msg ser buf n :
  Manager_receive M p sub n = Ret (IpcResult_success (Ok msg), M', n) →
  to_vec msg = Some ser → (length ser ≤ length buf)%nat →
  kcall p (SysReceive sub buf) M n =
    Ret (Returned (Ok (Z.of_nat (length ser))) (ser ++ drop (length ser) buf), ∅, M', n).
Proof.
  intros E Hs Hl. unfold kernel_call. rewrite E. cbn [mbind outcome_bind]. cbn [ipc_value IpcResult_success].
  rewrite Hs. cbn [unwrap expect mbind outcome_bind]. rewrite (proj2 (Nat.leb_le _ _) Hl). done.
Qed.

Lemma call_reply wf dr ack n :
  kcall sv (SysDeliverReply reply_to d') (during [] None [] wf dr ack) n =
    Ret (Returned (Ok 0) [], ∅ ∪ ∅, during [] None [reply_msg] wf dr ack, n).
Proof.
  unfold kernel_call. rewrite (ro_reply Hok). unfold Manager_deliver_reply.
  rewrite (reliable_target_one _ rt r) by apply l1_reply. cbn [mbind outcome_bind].
  rewrite during_reply. cbn [unwrap expect mbind outcome_bind]. rewrite bool_decide_eq_true_2 by done.
  rewrite rt_str. cbn [rassert mbind outcome_bind]. rewrite push_one.
  cbn [mbind outcome_bind]. by rewrite put_reply.
Qed.

Lemma call_ack e positive qr n :
  kcall sv (SysAcknowledge s a positive) (during [] None qr (<[a := (e, cl)]> W) D (a + 1)) n =
    Ret (Returned (Ok 0) [], {[e]} ∪ ∅,
         during [] None qr W (<[cl := if positive then Ok tt else Err NegativeAcknowledgement]> D) (a + 1), n).
Proof.
  unfold kernel_call, Manager_acknowledge. cbn [waiting_for_delivery during]. rewrite lookup_insert_eq.
  cbn. rewrite delete_insert_eq, delete_id by apply ack_fresh. done.
Qed.

Lemma call_after res qr n :
  kcall cl (SysDeliver tn d) (during [] None qr W (<[cl := res]> D) (a + 1)) n =
    Ret (Returned (match res with Ok _ => Ok 0 | Err e => Err (IpcError_code (Delivery e)) end) [], ∅,
         during [] None qr W D (a + 1), n).
Proof.
  unfold kernel_call, Manager_delivery_complete, Manager_after_delivery. cbn [delivery_result during].
  rewrite lookup_insert_eq. rewrite bool_decide_eq_true_2 by eauto. cbn.
  rewrite delete_insert_eq, delete_id by apply (ro_result Hok). by destruct res as [[]|].
Qed.

Lemma call_unsubscribe n :
  kcall cl (SysUnsubscribe r) (during [] None [] W D (a + 1)) n =
    Ret (Returned (Ok 0) [], ∅ ∪ ∅, after, n).
Proof.
  unfold kernel_call, Manager_unsubscribe, Manager_verify_process_owns.
  rewrite (proj2 (during_owns _ _ _ _ _ _)). cbn [process_subscriptions during]. unfold p1.
  rewrite lookup_insert_eq. cbn [unwrap expect mbind outcome_bind]. unfold Manager__force_unsubscribe. cbn.
  rewrite lookup_insert_eq. cbn. rewrite insert_insert_eq, delete_insert_eq.
  rewrite delete_id; [done|]. unfold boxes.
  rewrite lookup_insert_ne by (intros E; by apply reply_server). apply reply_fresh.
Qed.

(** ** The programs between their calls *)

Definition cl_start : prog (sys_result RS) := request cl num tn message.

Definition cl_finish (res : sys_result RS) : prog (sys_result RS) :=
  _ ← Subscription_drop r; Return res.

Definition cl_receive : prog (sys_result RS) :=
  try_or (ReliableSubscription_receive (T := RS) r) (Subscription_drop r) (λ '(ack_ctx, x),
  try_or (AcknowledgeContext_ack ack_ctx) (Subscription_drop r) (λ _,
    _ ← Subscription_drop r; Return (Ok x))).

Definition cl_deliver : prog (sys_result RS) :=
  try_or (deliver tn (reply_to, message)) (Subscription_drop r) (λ _, cl_receive).

Definition sv_start : prog (sys_result unit) := Server_handle_topic s f.

Definition sv_ack : prog (sys_result unit) :=
  try (AcknowledgeContext_ack (MkAckCtx s (Some a))) (λ _, Return (Ok tt)).

Definition sv_respond : prog (sys_result unit) :=
  try_or (Return fr) (AcknowledgeContext_drop (MkAckCtx s (Some a))) (λ response,
  try_or (deliver_reply reply_to response) (AcknowledgeContext_drop (MkAckCtx s (Some a))) (λ _, sv_ack)).

(** What both return in the end, and what the kernel tells the client in between. *)
Definition cl_result : sys_result RS :=
  match fr with Ok response => Ok response | Err _ => Err (IpcError_code (Delivery NegativeAcknowledgement)) end.
Definition sv_result : sys_result unit := match fr with Ok _ => Ok tt | Err e => Err e end.
Definition delivered : result unit DeliveryError :=
  match fr with Ok _ => Ok tt | Err _ => Err NegativeAcknowledgement end.
Definition replies : list Message := match fr with Ok _ => [reply_msg] | Err _ => [] end.

Abbreviation next := (turn rd services).

Lemma turn_subscribe e n :
  next (MkPeer cl cl_start None) (before e) n =
    Some (MkPeer cl cl_deliver None, ∅, during [] e [] W D a, n).
Proof. unfold turn. cbn -[kernel_call]. by rewrite call_subscribe. Qed.

Lemma turn_wait_before n :
  next (MkPeer sv sv_start None) (before None) n =
    Some (MkPeer sv sv_start (Some n), ∅, before (Some n), wrap64 (n + 1)).
Proof. unfold turn. cbn -[kernel_call zero_buffer]. by rewrite call_wait_before. Qed.

Lemma turn_wait_during n :
  next (MkPeer sv sv_start None) (during [] None [] W D a) n =
    Some (MkPeer sv sv_start (Some n), ∅, during [] (Some n) [] W D a, wrap64 (n + 1)).
Proof. unfold turn. cbn -[kernel_call zero_buffer]. by rewrite call_wait_during. Qed.

Lemma turn_deliver e n :
  next (MkPeer cl cl_deliver None) (during [] e [] W D a) n =
    Some (MkPeer cl cl_deliver (Some n), trigger_set e ∪ ∅,
          during [request_msg] None [] (<[a := (n, cl)]> W) D (a + 1), wrap64 (n + 1)).
Proof.
  unfold turn, cl_deliver, deliver. rewrite (ro_request Hok). cbn -[kernel_call cl_receive].
  by rewrite call_deliver.
Qed.

(** A message in the buffer of [receive_message]. *)
Lemma buffer_fits (ser : list byte) :
  Z.of_nat (length ser) ≤ BUFFER_SIZE → (length ser ≤ length zero_buffer)%nat.
Proof.
  intros Hl. rewrite zero_buffer_length, <- (Nat2Z.id (length ser)).
  apply Z2Nat.inj_le; [lia|by apply Z.leb_le|exact Hl].
Qed.

Lemma buffer_slice (ser buf : list byte) :
  index_range (ser ++ drop (length ser) buf) 0 (Z.to_nat (Z.of_nat (length ser))) = Ret ser.
Proof. rewrite Nat2Z.id, index_range_ret by (rewrite length_app; lia). by rewrite take_encoded. Qed.

Lemma turn_receive e n :
  next (MkPeer sv sv_start None) (during [request_msg] None [] (<[a := (e, cl)]> W) D (a + 1)) n =
    Some (MkPeer sv sv_respond None, ∅, during [] None [] (<[a := (e, cl)]> W) D (a + 1), n).
Proof.
  destruct (ro_request_msg Hok) as [Hw Hl].
  unfold turn. cbn -[kernel_call zero_buffer index_range].
  rewrite (call_receive_one _ _ _ (during [] None [] (<[a := (e, cl)]> W) D (a + 1)) request_msg w).
  2:{ rewrite (receive_one _ _ _ _ request_msg), put_server; [done|apply during_owns|apply during_server]. }
  2: done. 2: exact (buffer_fits _ Hl).
  rewrite buffer_slice. cbn [lift_outcome mbind prog_mbind prog_bind]. rewrite (from_to _ _ Hw). cbn [expect lift_outcome mbind prog_mbind prog_bind data request_msg reply_msg]. rewrite (from_to _ _ (ro_request Hok)).
  cbn. by rewrite (ro_f Hok).
Qed.

Lemma turn_reply e n response :
  fr = Ok response →
  next (MkPeer sv sv_respond None) (during [] None [] (<[a := (e, cl)]> W) D (a + 1)) n =
    Some (MkPeer sv sv_ack None, ∅ ∪ ∅, during [] None [reply_msg] (<[a := (e, cl)]> W) D (a + 1), n).
Proof.
  intros E. destruct (ro_response Hok _ E) as [Hd _]. unfold sv_respond. rewrite E.
  unfold turn, deliver_reply. cbn -[kernel_call sv_ack]. rewrite Hd. cbn -[kernel_call sv_ack].
  by rewrite call_reply.
Qed.

Lemma turn_refuse e n err :
  fr = Err err →
  next (MkPeer sv sv_respond None) (during [] None [] (<[a := (e, cl)]> W) D (a + 1)) n =
    Some (MkPeer sv (Return (Err err)) None, {[e]} ∪ ∅,
          during [] None [] W (<[cl := Err NegativeAcknowledgement]> D) (a + 1), n).
Proof.
  intros E. unfold sv_respond. rewrite E. unfold turn. cbn -[kernel_call]. by rewrite call_ack.
Qed.

Lemma turn_ack e n :
  next (MkPeer sv sv_ack None) (during [] None [reply_msg] (<[a := (e, cl)]> W) D (a + 1)) n =
    Some (MkPeer sv (Return (Ok tt)) None, {[e]} ∪ ∅,
          during [] None [reply_msg] W (<[cl := Ok tt]> D) (a + 1), n).
Proof. unfold turn. cbn -[kernel_call]. by rewrite call_ack. Qed.

Lemma turn_delivered n :
  next (MkPeer cl cl_deliver None) (during [] None replies W (<[cl := delivered]> D) (a + 1)) n =
    Some (MkPeer cl (match fr with Ok _ => cl_receive | Err _ => cl_finish cl_result end) None, ∅,
          during [] None replies W D (a + 1), n).
Proof.
  unfold turn, cl_deliver, deliver. rewrite (ro_request Hok). cbn -[kernel_call cl_receive].
  rewrite call_after. unfold delivered, cl_result. by destruct fr.
Qed.

Lemma turn_receive_reply n response :
  fr = Ok response →
  next (MkPeer cl cl_receive None) (during [] None [reply_msg] W D (a + 1)) n =
    Some (MkPeer cl (cl_finish cl_result) None, ∅, during [] None [] W D (a + 1), n).
Proof.
  intros E. destruct (ro_response Hok _ E) as (Hd & Hw & Hl).
  unfold turn. cbn -[kernel_call zero_buffer index_range].
  rewrite (call_receive_one _ _ _ (during [] None [] W D (a + 1)) reply_msg w').
  2:{ rewrite (receive_one _ _ _ _ reply_msg), put_reply; [done|apply during_owns|apply during_reply]. }
  2: done. 2: exact (buffer_fits _ Hl).
  rewrite buffer_slice. cbn [lift_outcome mbind prog_mbind prog_bind]. rewrite (from_to _ _ Hw). cbn [expect lift_outcome mbind prog_mbind prog_bind data request_msg reply_msg]. rewrite (from_to _ _ Hd).
  unfold cl_result. by rewrite E.
Qed.

Lemma turn_unsubscribe res n :
  next (MkPeer cl (cl_finish res) None) (during [] None [] W D (a + 1)) n =
    Some (MkPeer cl (Return res) None, ∅ ∪ ∅, after, n).
Proof. unfold turn. cbn -[kernel_call]. by rewrite call_unsubscribe. Qed.

(** ** The phases *)

Definition rank (e : option ExplicitEventId) : nat := match e with Some _ => 1 | None => 0 end.

Inductive phase : nat → system (sys_result RS) (sys_result unit) → Prop :=
| ph_start n e :
    phase (rank e) (MkSystem (before e) n (MkPeer cl cl_start None) (MkPeer sv sv_start e))
| ph_subscribed n e :
    phase (2 + rank e)
      (MkSystem (during [] e [] W D a) n (MkPeer cl cl_deliver None) (MkPeer sv sv_start e))
| ph_sent n e :
    phase 4 (MkSystem (during [request_msg] None [] (<[a := (e, cl)]> W) D (a + 1)) n
      (MkPeer cl cl_deliver (Some e)) (MkPeer sv sv_start None))
| ph_received n e :
    phase 5 (MkSystem (during [] None [] (<[a := (e, cl)]> W) D (a + 1)) n
      (MkPeer cl cl_deliver (Some e)) (MkPeer sv sv_respond None))
| ph_replied n e response :
    fr = Ok response →
    phase 6 (MkSystem (during [] None [reply_msg] (<[a := (e, cl)]> W) D (a + 1)) n
      (MkPeer cl cl_deliver (Some e)) (MkPeer sv sv_ack None))
| ph_answered n :
    phase 7 (MkSystem (during [] None replies W (<[cl := delivered]> D) (a + 1)) n
      (MkPeer cl cl_deliver None) (MkPeer sv (Return sv_result) None))
| ph_delivered n response :
    fr = Ok response →
    phase 8 (MkSystem (during [] None [reply_msg] W D (a + 1)) n
      (MkPeer cl cl_receive None) (MkPeer sv (Return sv_result) None))
| ph_leaving n :
    phase 9 (MkSystem (during [] None [] W D (a + 1)) n
      (MkPeer cl (cl_finish cl_result) None) (MkPeer sv (Return sv_result) None))
| ph_done n :
    phase 10 (MkSystem after n (MkPeer cl (Return cl_result) None) (MkPeer sv (Return sv_result) None)).

Lemma wake_event {A} p (c : prog A) e X : wake ({[e]} ∪ X) (MkPeer p c (Some e)) = MkPeer p c None.
Proof. unfold wake. cbn. rewrite bool_decide_eq_true_2 by set_solver. done. Qed.

Lemma wake_trigger {A} p (c : prog A) e : wake (trigger_set e ∪ ∅) (MkPeer p c e) = MkPeer p c None.
Proof. destruct e; [apply wake_event|done]. Qed.

Lemma wake_none {A} (p : peer A) : wake ∅ p = p ∧ wake (∅ ∪ ∅) p = p.
Proof.
  unfold wake. destruct (waits p); [|done].
  rewrite !bool_decide_eq_false_2 by set_solver. done.
Qed.

Abbreviation sstep := (system_step rd services).

(** The turns of a waiting process, and of one that is over. *)
Lemma turn_waits {A} p (c : prog A) e M n : next (MkPeer p c (Some e)) M n = None.
Proof. done. Qed.

Lemma turn_over {A} p (x : A) M n : next (MkPeer p (Return x) None) M n = None.
Proof. done. Qed.

Lemma system_step_inv {A B} M n (c : peer A) (v : peer B) S' :
  sstep (MkSystem M n c v) S' →
  (∃ c' events M' n', next c M n = Some (c', events, M', n') ∧ S' = MkSystem M' n' c' (wake events v)) ∨
  (∃ v' events M' n', next v M n = Some (v', events, M', n') ∧ S' = MkSystem M' n' (wake events c) v').
Proof. inversion 1; subst; [left|right]; eauto 10. Qed.

Lemma phase_step i S S' : phase i S → sstep S S' → ∃ j, (i < j)%nat ∧ phase j S'.
Proof.
  intros Hp Hs. destruct Hp as [n e|n e|n e|n e|n e response E|n|n response E|n|n];
    apply system_step_inv in Hs as [(? & ? & ? & ? & Ht & ->)|(? & ? & ? & ? & Ht & ->)];
    try (by rewrite turn_waits in Ht); try (by rewrite turn_over in Ht).
  - rewrite turn_subscribe in Ht. injection Ht as <- <- <- <-. rewrite (proj1 (wake_none _)).
    exists (2 + rank e)%nat. split; [lia|constructor].
  - destruct e as [e|]; [by rewrite turn_waits in Ht|]. rewrite turn_wait_before in Ht.
    injection Ht as <- <- <- <-. rewrite (proj1 (wake_none _)). exists 1%nat. split; [cbn; lia|].
    apply (ph_start (wrap64 (n + 1)) (Some n)).
  - rewrite turn_deliver in Ht. injection Ht as <- <- <- <-. rewrite wake_trigger.
    exists 4%nat. split; [destruct e; cbn; lia|constructor].
  - destruct e as [e|]; [by rewrite turn_waits in Ht|]. rewrite turn_wait_during in Ht.
    injection Ht as <- <- <- <-. rewrite (proj1 (wake_none _)). exists 3%nat. split; [cbn; lia|].
    apply (ph_subscribed (wrap64 (n + 1)) (Some n)).
  - rewrite turn_receive in Ht. injection Ht as <- <- <- <-. rewrite (proj1 (wake_none _)).
    exists 5%nat. split; [lia|constructor].
  - destruct fr as [response|err] eqn:E.
    + rewrite (turn_reply e n response E) in Ht. injection Ht as <- <- <- <-. rewrite (proj2 (wake_none _)).
      exists 6%nat. split; [lia|by econstructor].
    + rewrite (turn_refuse e n err E) in Ht. injection Ht as <- <- <- <-. rewrite wake_event.
      exists 7%nat. split; [lia|]. pose proof (ph_answered n) as H.
      unfold replies, delivered, sv_result in H. by rewrite E in H.
  - rewrite turn_ack in Ht. injection Ht as <- <- <- <-. rewrite wake_event.
    exists 7%nat. split; [lia|]. pose proof (ph_answered n) as H.
    unfold replies, delivered, sv_result in H. by rewrite E in H.
  - rewrite turn_delivered in Ht. injection Ht as <- <- <- <-. rewrite (proj1 (wake_none _)).
    unfold replies. destruct fr as [response|err] eqn:E.
    + exists 8%nat. split; [lia|by econstructor].
    + exists 9%nat. split; [lia|]. constructor.
  - rewrite (turn_receive_reply n response E) in Ht. injection Ht as <- <- <- <-.
    rewrite (proj1 (wake_none _)). exists 9%nat. split; [lia|constructor].
  - rewrite turn_unsubscribe in Ht. injection Ht as <- <- <- <-. rewrite (proj2 (wake_none _)).
    exists 10%nat. split; [lia|constructor].
Qed.

Lemma phase_progress i S : phase i S → (i < 10)%nat → ∃ S', sstep S S'.
Proof.
  destruct 1 as [n e|n e|n e|n e|n e response E|n|n response E|n|n]; intros Hi.
  - eexists. eapply client_step. apply turn_subscribe.
  - eexists. eapply client_step. apply turn_deliver.
  - eexists. eapply server_step. apply turn_receive.
  - destruct fr eqn:E; eexists; eapply server_step; [by eapply turn_reply|by eapply turn_refuse].
  - eexists. eapply server_step. apply turn_ack.
  - eexists. eapply client_step. apply turn_delivered.
  - eexists. eapply client_step. by eapply turn_receive_reply.
  - eexists. eapply client_step. apply turn_unsubscribe.
  - lia.
Qed.

Lemma phase_bound i S : phase i S → (i ≤ 10)%nat.
Proof. destruct 1 as [n e|n e| | | | | | |]; try destruct e; cbn; lia. Qed.

Lemma phase_run k i S S' : phase i S → nsteps sstep k S S' → ∃ j, (i + k ≤ j)%nat ∧ phase j S'.
Proof.
  intros Hp Hr. revert i Hp. induction Hr as [S|k S1 S2 S3 Hs _ IH]; intros i Hp.
  { exists i. split; [lia|done]. }
  destruct (phase_step _ _ _ Hp Hs) as (j & Hj & Hp2). destruct (IH j Hp2) as (j' & Hj' & Hp3).
  exists j'. split; [lia|done].
Qed.

Lemma after_owns p x : owns after p x ↔ owns m p x.
Proof.
  unfold owns. cbn. destruct (decide (p = cl)) as [->|Hne]; [|by rewrite lookup_insert_ne].
  rewrite lookup_insert_eq. assert (∀ X, process_subscriptions m !! cl = Some X → r ∉ X) as Hr.
  { intros X HX Hin. destruct (mg_owned _ (ro_wf Hok) cl r) as [mb Hmb]; [by exists X|].
    by rewrite reply_fresh in Hmb. }
  split.
  - intros (X & [= <-] & Hx). destruct (process_subscriptions m !! cl) as [Y|]; cbn in Hx; [|set_solver].
    exists Y. set_solver.
  - intros (X & HX & Hx). rewrite HX. eexists. split; [done|]. cbn. specialize (Hr X HX). set_solver.
Qed.

(** C12: A request over libd7 is answered.  Let a client run [request] and a server [handle_topic]
    on the topic, in any interleaving of their system calls.  After at most ten calls neither has
    a call left, no state before that is stuck, and then the client has the response of the
    server's function, or the error of a negative acknowledgement when the function fails; the
    server has returned as well, and the subscriptions, the mailboxes and the deliveries are what
    they were. *)
Theorem request_answered n k S
    (Hrun : nsteps (system_step rd services) k
      (MkSystem m n (MkPeer cl (request cl num tn message) None)
                    (MkPeer sv (Server_handle_topic s f) None)) S) :
  (k ≤ 10)%nat ∧
  ((∃ S', system_step rd services S S') ∨
   code (client S) = Return cl_result ∧ code (server S) = Return sv_result ∧
   targets (subscriptions (manager S)) ≡ₚ targets (subscriptions m) ∧
   mailboxes (manager S) = mailboxes m ∧
   waiting_for_delivery (manager S) = waiting_for_delivery m ∧
   delivery_result (manager S) = delivery_result m ∧
   ∀ p x, owns (manager S) p x ↔ owns m p x).
Proof.
  rewrite <- before_none in Hrun. pose proof (ph_start n None) as Hp. cbn [rank] in Hp.
  destruct (phase_run _ _ _ _ Hp Hrun) as (j & Hj & HS). pose proof (phase_bound _ _ HS).
  split; [lia|]. destruct (decide (j < 10)%nat) as [Hl|Hl].
  { left. by eapply phase_progress. }
  right. inversion HS as [n' e Hr|n' e Hr| | | | | | |n' Hr]; subst; try (destruct e; cbn in Hl; lia); try lia.
  cbn [code client server manager]. split_and!; try done.
  - apply after_targets.
  - unfold after, boxes. cbn. apply insert_id, (ro_idle Hok).
  - apply after_owns.
Qed.

End rpc.

(** A relation whose runs are bounded, and stop only in [Q], reaches [Q]. *)
Lemma run_to_end {T} (R : T → T → Prop) (bound : nat) (Q : T → Prop) x :
  (∀ k y, nsteps R k x y → (k ≤ bound)%nat ∧ ((∃ z, R y z) ∨ Q y)) →
  ∃ k y, nsteps R k x y ∧ Q y.
Proof.
  intros H. assert (∀ j k y, (bound - k < j)%nat → nsteps R k x y → ∃ k y, nsteps R k x y ∧ Q y) as Hj.
  { induction j as [|j IH]; intros k y Hlt Hr; [lia|].
    destruct (H k y Hr) as [Hk [(z & Hz)|Hq]]; [|by exists k, y].
    pose proof (nsteps_r _ _ _ _ Hr Hz) as Hr'. destruct (H (S k) z Hr') as [Hk' _].
    apply (IH (S k) z); [lia|done]. }
  apply (Hj (S (bound - 0)) 0%nat x); [lia|constructor].
Qed.

(** One number encodes a value. *)
Definition example_codec {A} `{Countable A} : Codec A := {|
  to_vec x := Some [Z.pos (encode x)];
  from_bytes l := match l with [Z.pos p] => decode p | _ => None end;
|}.

#[global] Instance example_codec_laws {A} `{Countable A} : CodecLaws A (Codec0 := example_codec).
Proof. split. intros x l [= <-]. apply decode_encode. Qed.

Definition example_message_codec : Codec Message := {|
  to_vec x := Some [Z.pos (encode (topic x, data x, ack_id x))];
  from_bytes l :=
    match l with
    | [Z.pos p] => (λ '(a, b, c), {| topic := a; data := b; ack_id := c |}) <$> decode p
    | _ => None
    end;
|}.

#[global] Instance example_message_codec_laws : CodecLaws Message (Codec0 := example_message_codec).
Proof. split. intros [x y z] l [= <-]. cbn. by rewrite decode_encode. Qed.

Definition example_reply : Topic := MkTopic (reply_name 1 0).
Definition example_encoded (x : string * Z) : list byte := [Z.pos (encode x)].
Definition example_sent (x : Message) : list byte := [Z.pos (encode (topic x, data x, ack_id x))].

Lemma request_answered_witness :
  ∃ k (S : system (sys_result Z) (sys_result unit)),
    nsteps (system_step (PC := example_pinecone) (Codec0 := example_message_codec)
        {| files := ∅; slice := [] |} ∅) k
      (MkSystem (example_subscribed true false) 3
        (MkPeer 1 (request (Codec0 := example_message_codec) (Codec1 := example_codec) (Codec2 := example_codec)
           1 0 "a" 7) None)
        (MkPeer 2 (Server_handle_topic (Codec0 := example_message_codec) (Codec1 := example_codec)
           (Codec2 := example_codec) 0 (λ x _, Return (Ok (x + 1)))) None)) S ∧
    code (client S) = Return (Ok 8).
Proof.
  apply (run_to_end _ 10 (λ S, code (client S) = Return (Ok 8))). intros k S Hrun.
  unshelve refine (let H := request_answered (PC := example_pinecone) {| files := ∅; slice := [] |} ∅
    (example_subscribed true false) 1 2 0 "a" (MkTopic "a") example_reply 0 7 (λ x _, Return (Ok (x + 1))) (Ok 8)
    (example_encoded (reply_name 1 0, 7)) [Z.pos (encode 8)]
    (example_sent {| topic := "a"; data := example_encoded (reply_name 1 0, 7); ack_id := Some 0 |})
    (example_sent {| topic := reply_name 1 0; data := [Z.pos (encode 8)]; ack_id := None |}) _ 3 k S Hrun in _).
  - split; try done.
    + by apply example_subscribed_wf.
    + exists {[0]}. split; [vm_compute; reflexivity|set_solver].
    + intros response [= <-]. done.
  - destruct H as [Hk [Hs|(Hc & _)]]; (split; [done|]); [by left|by right].
Defined.
