(* ===== verification/PortIo.v ===== *)
(** * PortIo: port input and output of the drivers

    What the hardware answers is a parameter: a [Device] has a state, reading a port gives a value
    and a new state, writing one a new state.  A driver function is a computation of the monad
    [IO]: it passes the device along, may panic, and runs out of fuel ([None]) when a loop that
    waits for the device does not end. *)

From stdpp Require Import base list strings.
From Stdlib Require Import ZArith Lia.
From S2P Require Import Prelude Bytes.
Open Scope Z_scope.

(** ** Registers in parts *)

Lemma lor_shiftl lo hi k : 0 ≤ k → 0 ≤ lo < 2 ^ k → Z.lor lo (Z.shiftl hi k) = lo + hi * 2 ^ k.
Proof.
  intros Hk Hlo. rewrite <- Z.lxor_lor, <- Z.add_nocarry_lxor, Z.shiftl_mul_pow2 by (done ||
    (apply Z.bits_inj'; intros n Hn; rewrite Z.land_spec, Z.shiftl_spec, Z.bits_0 by done;
     destruct (Z.ltb_spec n k);
       [by rewrite (Z.testbit_neg_r hi) by lia; rewrite andb_false_r
       |by rewrite <- (Z.mod_small lo (2 ^ k)), Z.mod_pow2_bits_high by lia])).
  done.
Qed.

(** [(v & (0xff << k)) >> k] *)
Lemma byte_of_land v k : 0 ≤ k → Z.shiftr (Z.land v (Z.shiftl 255 k)) k = (v / 2 ^ k) mod 256.
Proof.
  intros Hk. rewrite Z.shiftr_land, Z.shiftr_shiftl_l, Z.sub_diag, Z.shiftl_0_r by lia.
  change 255 with (Z.ones 8). rewrite Z.land_ones, Z.shiftr_div_pow2 by lia. done.
Qed.

(** ** Devices *)

(** A port access of a width in bits. *)
Class Device := {
  Dev : Type;
  port_in : Z → Z → Dev → Z * Dev;
  port_out : Z → Z → Z → Dev → Dev;
}.

Section io.
Context `{!Device}.

Definition IO (A : Type) : Type := Dev → option (outcome (A * Dev)).

#[global] Instance io_ret : MRet IO := λ A a d, Some (Ret (a, d)).
#[global] Instance io_bind : MBind IO := λ A B f m d,
  match m d with
  | None => None
  | Some (Panic why) => Some (Panic why)
  | Some (Ret (a, d)) => f a d
  end.

Definition io_lift {A} (o : outcome A) : IO A := λ d, Some (a ← o; Ret (a, d)).
Definition io_panic {A} (why : string) : IO A := λ _, Some (Panic why).
Definition io_assert (b : bool) (why : string) : IO unit := io_lift (rassert b why).

Definition read_port (width port : Z) : IO Z := λ d, Some (Ret (port_in width port d)).
Definition write_port (width port value : Z) : IO unit := λ d, Some (Ret (tt, port_out width port value d)).

(** [for _ in 0..n], collecting what the body returns. *)
Fixpoint io_times {A} (n : nat) (m : IO A) : IO (list A) :=
  match n with
  | O => mret []
  | S n => x ← m; xs ← io_times n m; mret (x :: xs)
  end.

(** [for x in l] *)
Fixpoint io_each {A} (f : A → IO unit) (l : list A) : IO unit :=
  match l with
  | [] => mret tt
  | x :: l => _ ← f x; io_each f l
  end.

(** [while !m() {}] *)
Fixpoint io_until (fuel : nat) (m : IO bool) : IO unit :=
  match fuel with
  | O => λ _, None
  | S fuel => b ← m; if b : bool then mret tt else io_until fuel m
  end.

(** ** Equations *)

Lemma bind_some {A B} (m : IO A) (f : A → IO B) d a d' :
  m d = Some (Ret (a, d')) → (m ≫= f) d = f a d'.
Proof. intros E. unfold mbind, io_bind. by rewrite E. Qed.

Lemma bind_panic {A B} (m : IO A) (f : A → IO B) d why :
  m d = Some (Panic why) → (m ≫= f) d = Some (Panic why).
Proof. intros E. unfold mbind, io_bind. by rewrite E. Qed.

Lemma assert_true (b : bool) why d : b = true → io_assert b why d = Some (Ret (tt, d)).
Proof. by intros ->. Qed.

Lemma assert_false (b : bool) why d : b = false → io_assert b why d = Some (Panic why).
Proof. by intros ->. Qed.

Lemma write_some width port value d :
  write_port width port value d = Some (Ret (tt, port_out width port value d)).
Proof. done. Qed.

Lemma read_some width port d :
  read_port width port d = Some (Ret ((port_in width port d).1, (port_in width port d).2)).
Proof. unfold read_port. by destruct (port_in width port d). Qed.

Lemma times_succ {A} n (m : IO A) d x d1 xs d2 :
  m d = Some (Ret (x, d1)) → io_times n m d1 = Some (Ret (xs, d2)) →
  io_times (S n) m d = Some (Ret (x :: xs, d2)).
Proof. intros E1 E2. cbn [io_times]. rewrite (bind_some _ _ _ _ _ E1), (bind_some _ _ _ _ _ E2). done. Qed.

(** ** What an action does to what a device shows *)

(** From a state that shows [s], the action returns a value and a state with the property. *)
Definition acts {S A} (view : Dev → S) (s : S) (m : IO A) (Q : A → S → Prop) : Prop :=
  ∀ d, view d = s → ∃ a d', m d = Some (Ret (a, d')) ∧ Q a (view d').

Section acts.
Context {S : Type} (view : Dev → S).
Implicit Types s : S.

Lemma acts_ret {A} s (a : A) (Q : A → S → Prop) : Q a s → acts view s (mret a) Q.
Proof. intros HQ d <-. by exists a, d. Qed.

Lemma acts_bind {A B} s (m : IO A) (k : A → IO B) P Q :
  acts view s m P → (∀ a s', P a s' → acts view s' (k a) Q) → acts view s (m ≫= k) Q.
Proof.
  intros Hm Hk d Hd. destruct (Hm d Hd) as (a & d1 & E & HP).
  destruct (Hk a _ HP d1 eq_refl) as (b & d2 & E2 & HQ). exists b, d2. by rewrite (bind_some _ _ _ _ _ E).
Qed.

Lemma acts_weaken {A} s (m : IO A) (P Q : A → S → Prop) :
  acts view s m P → (∀ a s', P a s' → Q a s') → acts view s m Q.
Proof. intros Hm HQ d Hd. destruct (Hm d Hd) as (a & d' & E & HP). exists a, d'. auto. Qed.

(** An action whose value and effect are known. *)
Lemma acts_step {A B} s (m : IO A) (k : A → IO B) a s' Q :
  acts view s m (λ r t, r = a ∧ t = s') → acts view s' (k a) Q → acts view s (m ≫= k) Q.
Proof. intros Hm Hk. eapply acts_bind; [exact Hm|]. by intros ? ? [-> ->]. Qed.

Lemma acts_last {A} s (m : IO A) a s' (Q : A → S → Prop) :
  acts view s m (λ r t, r = a ∧ t = s') → Q a s' → acts view s m Q.
Proof. intros Hm HQ. eapply acts_weaken; [exact Hm|]. by intros ? ? [-> ->]. Qed.

Lemma acts_assert {B} s (b : bool) why (k : unit → IO B) Q :
  b = true → acts view s (k tt) Q → acts view s (io_assert b why ≫= k) Q.
Proof. intros -> Hk d Hd. rewrite (bind_some _ _ _ _ _ (assert_true _ _ _ eq_refl)). by apply Hk. Qed.

Lemma acts_write s width port value s' :
  (∀ d, view d = s → view (port_out width port value d) = s') →
  acts view s (write_port width port value) (λ r t, r = tt ∧ t = s').
Proof. intros Hv d Hd. eexists _, _. split; [done|]. auto. Qed.

Lemma acts_read s width port v s' :
  (∀ d, view d = s → (port_in width port d).1 = v ∧ view (port_in width port d).2 = s') →
  acts view s (read_port width port) (λ r t, r = v ∧ t = s').
Proof.
  intros Hv d Hd. destruct (Hv d Hd) as [<- Ht]. rewrite read_some. eexists _, _. split; [done|]. by split.
Qed.

Lemma acts_lift {A} s (a : A) : acts view s (io_lift (Ret a)) (λ r t, r = a ∧ t = s).
Proof. intros d <-. by exists a, d. Qed.

(** A loop, with what holds after a number of its rounds. *)
Lemma acts_each {A} (f : A → IO unit) l (P : nat → S → Prop) s :
  P 0%nat s → (∀ i x t, l !! i = Some x → P i t → acts view t (f x) (λ _ u, P (i + 1)%nat u)) →
  acts view s (io_each f l) (λ _ u, P (length l) u).
Proof.
  revert P s. induction l as [|x l IH]; intros P s H0 Hf; cbn [io_each]; [by apply acts_ret|].
  eapply acts_bind; [by apply (Hf 0%nat x s)|]. intros a t Ht.
  apply (IH (λ i, P (1 + i)%nat) t Ht). intros i y u Hy. by apply (Hf (1 + i)%nat).
Qed.

End acts.

End io.

(** Runs the first action of a bind. *)
Ltac io_step :=
  first
    [ rewrite (bind_some _ _ _ _ _ (write_some _ _ _ _))
    | rewrite (bind_some _ _ _ _ _ (read_some _ _ _))
    | rewrite (bind_some _ _ _ _ _ (assert_true _ _ _ ltac:(eassumption))) ].
