(* ===== verification/Ata.v ===== *)
(** * Ata: the disk driver (modules/driver_ata_pio: ata_pio.rs, lib.rs)

    The drive is a [Device] that behaves as the reference drive [Ata] below, whose registers are
    those of the ATA standard: a transfer starts with a command, is ready after some polls, and
    then moves one word per access of the data port.  After a sector the drive may be busy again.
    While it is busy nothing is known of what it does with the other ports.  The driver polls once
    per command, so it moves several sectors only with a drive that does not pause.  Waiting
    between polls and log output are left out; loops that poll run on fuel. *)

From stdpp Require Import base list strings functions.
From Stdlib Require Import ZArith Lia.
From S2P Require Import Prelude Bytes PortIo LibIpc.
Open Scope Z_scope.

Definition SECTOR_SIZE : nat := 0x200.
Definition PORT_DATA : Z := 0x1F0.
Definition PORT_SECCOUNT : Z := 0x1F2.
Definition PORT_LBA0 : Z := 0x1F3.
Definition PORT_LBA1 : Z := 0x1F4.
Definition PORT_LBA2 : Z := 0x1F5.
Definition PORT_DRIVESELECT : Z := 0x1F6.
Definition PORT_COMMAND : Z := 0x1F7.
Definition PORT_DEV_CTRL : Z := 0x3F6.

(** ** ata_pio.rs *)

Record DriveProperties := MkDrive { lba28_sectors : Z; lba48_sectors : option Z }.

Definition supports_lba48 (self : DriveProperties) : bool := bool_decide (is_Some (lba48_sectors self)).
Definition sector_count (self : DriveProperties) : Z := default (lba28_sectors self) (lba48_sectors self).

Section driver.
Context `{!Device}.

Definition send_command (cmd : Z) : IO unit := write_port 8 PORT_COMMAND cmd.
Definition read_status : IO Z := read_port 8 PORT_COMMAND.

(** BSY clear, RDY set *)
Definition ready_bits (v : Z) : bool := Z.land v 0xc0 =? 0x40.

Definition reset_drives (fuel : nat) : IO unit :=
  _ ← write_port 8 PORT_DEV_CTRL 0;
  _ ← io_times 4 (read_port 8 PORT_DEV_CTRL);
  io_until fuel (v ← read_port 8 PORT_DEV_CTRL; mret (ready_bits v)).

Definition is_ready : IO bool :=
  _ ← io_times 4 read_status;
  data ← read_status;
  mret (ready_bits data).

Definition wait_ready (fuel : nat) : IO unit := io_until fuel is_ready.

(** The loop of [identify]; [false] when the drive does not exist.  [failed] and [other] are the
    messages on an error and on a device that is not an ATA drive. *)
Fixpoint identify_loop (failed other : string) (fuel : nat) (first_cleared : bool) : IO bool :=
  match fuel with
  | O => λ _, None
  | S fuel =>
      data ← read_status;
      if data =? 0 then mret false
      else if negb (Z.land data 1 =? 0) then
        io_panic failed
      else if negb (Z.land data (Z.shiftl 1 7) =? 0) then identify_loop failed other fuel first_cleared
      else if first_cleared then
        v1 ← read_port 8 PORT_LBA1;
        v2 ← read_port 8 PORT_LBA2;
        if (negb (v1 =? 0) || negb (v2 =? 0))%bool then io_panic other
        else identify_loop failed other fuel false
      else if negb (Z.land data (Z.shiftl 1 3) =? 0) then mret true
      else identify_loop failed other fuel false
  end.

(** What the identification data says; [None] when it has no number of sectors. *)
Definition drive_properties (data : list Z) : option DriveProperties :=
  let word i := nth i data 0 in
  let lba48_supported := negb (Z.land (word 83%nat) (Z.shiftl 1 10) =? 0) in
  let lba28 := Z.lor (word 60%nat) (Z.shiftl (word 61%nat) 0x10) in
  let lba48 :=
    if lba48_supported then
      Some (Z.lor (Z.lor (Z.lor (word 100%nat) (Z.shiftl (word 101%nat) 0x10))
              (Z.shiftl (word 102%nat) 0x20)) (Z.shiftl (word 103%nat) 0x30))
    else None in
  if ((lba28 =? 0) && (default 0 lba48 =? 0))%bool then None else Some (MkDrive lba28 lba48).

Definition identify (fuel : nat) (drive : Z) : IO (option DriveProperties) :=
  _ ← io_assert (drive <=? 1) "assertion failed: drive <= 1";
  _ ← write_port 8 PORT_DRIVESELECT (if drive =? 0 then 0xa0 else 0xb0);
  _ ← write_port 8 PORT_LBA0 0;
  _ ← write_port 8 PORT_LBA1 0;
  _ ← write_port 8 PORT_LBA2 0;
  _ ← send_command 0xEC;
  found ← identify_loop "ATA_PIO: Drive controller error on IDENTIFY" "ATA_PIO: Not an ATA drive" fuel true;
  if found : bool then
    data ← io_times 256 (read_port 16 PORT_DATA);
    p ← io_lift (expect (drive_properties data) "ATA_PIO: The drive controller does not support LBA.");
    mret (Some p)
  else mret None.

Definition AtaPio_new (fuel : nat) : IO (list DriveProperties) :=
  _ ← reset_drives fuel;
  d0 ← identify fuel 0;
  d1 ← identify fuel 1;
  mret (option_list d0 ++ option_list d1).

(** The registers of a transfer, its command and the wait for the drive, the same in [read_lba]
    and [write_lba]. *)
Definition start_transfer (fuel : nat) (drive lba sectors cmd : Z) : IO unit :=
  let bits24_27 := Z.shiftr lba 24 mod 256 in
  _ ← io_assert (bits24_27 <? 8) "assertion failed: bits24_27 < 8";
  let bits24_27 := Z.lor bits24_27 0xe0 in
  let bits24_27 := Z.lor bits24_27 (Z.shiftl drive 4 mod 256) in
  _ ← write_port 8 PORT_DRIVESELECT bits24_27;
  _ ← write_port 8 PORT_SECCOUNT (sectors mod 256);
  _ ← write_port 8 PORT_LBA0 (Z.land lba 0xff);
  _ ← write_port 8 PORT_LBA1 (Z.shiftr (Z.land lba 0xff00) 0x8);
  _ ← write_port 8 PORT_LBA2 (Z.shiftr (Z.land lba 0xff0000) 0x10);
  _ ← send_command cmd;
  wait_ready fuel.

(** One word of the result. *)
Definition read_word : IO (list Z) :=
  word ← read_port 16 PORT_DATA;
  mret [Z.land word 0xff; Z.shiftr (Z.land word 0xff00) 0x8].

Definition read_lba (fuel : nat) (drive lba sectors : Z) : IO (list Z) :=
  _ ← io_assert (0 <? sectors) "assertion failed: sectors > 0";
  _ ← io_assert (drive <=? 1) "assertion failed: drive <= 1";
  _ ← io_assert (lba <? Z.shiftl 1 28) "LBA64 not supported by the driver yet";
  _ ← start_transfer fuel drive lba sectors 0x20;
  result ← io_times (Z.to_nat sectors) (io_times (SECTOR_SIZE / 2) read_word);
  mret (mjoin (mjoin <$> result)).

(** The words of [data], two bytes each. *)
Fixpoint data_words (data : list Z) : list Z :=
  match data with
  | lo :: hi :: data => Z.lor lo (Z.shiftl hi 8) :: data_words data
  | _ => []
  end.

Definition write_lba (fuel : nat) (drive lba : Z) (data : list Z) : IO unit :=
  _ ← io_assert (drive <=? 1) "assertion failed: drive <= 1";
  _ ← io_assert (lba <? Z.shiftl 1 28) "LBA64 not supported by the driver yet";
  _ ← io_assert (length data mod SECTOR_SIZE =? 0)%nat "Non-exact writes are not supported";
  let sectors := (length data / SECTOR_SIZE)%nat in
  _ ← io_assert (0 <? sectors)%nat "assertion failed: sectors > 0";
  _ ← start_transfer fuel drive lba (Z.of_nat sectors) 0x30;
  io_each (write_port 16 PORT_DATA) (data_words data).

Definition drive_count (drives : list DriveProperties) : nat := length drives.
Definition capacity_sectors (drives : list DriveProperties) (drive : nat) : outcome Z :=
  sector_count <$> index_at drives drive.

(** ** lib.rs: one round of the loop of [main], for the subscription that [ipc_select] found

    The subscriptions are [info], the read servers and the write subscriptions of the drives. *)

Inductive AtaRequest :=
| ReadRequest (sector count : Z)
| WriteRequest (sector : Z) (data : list Z)
| InfoRequest.

Inductive AtaAnswer := ReadAnswer (data : list Z) | WriteAnswer | InfoAnswer (capacities : list Z).

Definition ata_round (fuel : nat) (drives : list DriveProperties) (index : nat) (request : AtaRequest)
    : IO AtaAnswer :=
  let n := drive_count drives in
  b ← io_lift (select_branch 1 [n; n] index);
  match b, request with
  | AnyBranch 0 i, ReadRequest sector count =>
      _ ← io_lift (index_at drives i);
      data ← read_lba fuel (Z.of_nat i) sector count;
      mret (ReadAnswer data)
  | AnyBranch 0 i, _ =>
      (* [drive_read[i]] may not exist; a payload of another type does not decode *)
      _ ← io_lift (index_at drives i);
      io_panic "Invalid message payload"
  | AnyBranch 1 i, WriteRequest sector data =>
      _ ← io_lift (index_at drives i);
      _ ← write_lba fuel (Z.of_nat i) sector data;
      mret WriteAnswer
  | OneBranch _, InfoRequest => mret (InfoAnswer (sector_count <$> drives))
  | _, _ => io_panic "Invalid message payload"
  end.

End driver.

(** ** The reference drive *)

(** The registers as written last; [busy] is how many reads of the status are left until the drive
    is ready, [input] the words to be read, [want] how many words a write still needs, [output] the
    words it got, [contents] the bytes of each sector of each drive and [ident] the words each drive
    identifies itself with. *)
Record Ata := MkAta {
  select : Z; count : Z; lba0 : Z; lba1 : Z; lba2 : Z;
  busy : nat; input : list Z; want : nat; output : list Z;
  contents : Z → Z → list Z;
  ident : Z → list Z;
}.

Definition set_select (v : Z) (a : Ata) : Ata :=
  MkAta v (count a) (lba0 a) (lba1 a) (lba2 a) (busy a) (input a) (want a) (output a) (contents a) (ident a).
Definition set_count (v : Z) (a : Ata) : Ata :=
  MkAta (select a) v (lba0 a) (lba1 a) (lba2 a) (busy a) (input a) (want a) (output a) (contents a) (ident a).
Definition set_lba0 (v : Z) (a : Ata) : Ata :=
  MkAta (select a) (count a) v (lba1 a) (lba2 a) (busy a) (input a) (want a) (output a) (contents a) (ident a).
Definition set_lba1 (v : Z) (a : Ata) : Ata :=
  MkAta (select a) (count a) (lba0 a) v (lba2 a) (busy a) (input a) (want a) (output a) (contents a) (ident a).
Definition set_lba2 (v : Z) (a : Ata) : Ata :=
  MkAta (select a) (count a) (lba0 a) (lba1 a) v (busy a) (input a) (want a) (output a) (contents a) (ident a).
Definition set_busy (b : nat) (a : Ata) : Ata :=
  MkAta (select a) (count a) (lba0 a) (lba1 a) (lba2 a) b (input a) (want a) (output a) (contents a) (ident a).
Definition set_input (l : list Z) (a : Ata) : Ata :=
  MkAta (select a) (count a) (lba0 a) (lba1 a) (lba2 a) (busy a) l (want a) (output a) (contents a) (ident a).
Definition set_output (w : nat) (l : list Z) (a : Ata) : Ata :=
  MkAta (select a) (count a) (lba0 a) (lba1 a) (lba2 a) (busy a) (input a) w l (contents a) (ident a).
Definition set_contents (c : Z → Z → list Z) (a : Ata) : Ata :=
  MkAta (select a) (count a) (lba0 a) (lba1 a) (lba2 a) (busy a) (input a) (want a) (output a) c (ident a).

(** What the registers say; a count of zero is 256. *)
Definition ata_drive (a : Ata) : Z := Z.b2z (Z.testbit (select a) 4).
Definition ata_lba (a : Ata) : Z :=
  Z.land (select a) 0xf * 2 ^ 24 + lba2 a * 2 ^ 16 + lba1 a * 2 ^ 8 + lba0 a.
Definition ata_sectors (a : Ata) : nat := if count a =? 0 then 256 else Z.to_nat (count a).

Definition word_bytes (w : Z) : list Z := to_le 2 w.

(** The bytes from sector [lba] on. *)
Definition sectors_from (c : Z → Z → list Z) (drive lba : Z) (n : nat) : list Z :=
  mjoin ((λ i, c drive (lba + i)) <$> seqZ 0 (Z.of_nat n)).

(** A command, answered after [b] polls. *)
Definition ata_start (b : nat) (cmd : Z) (a : Ata) : Ata :=
  let a := set_busy b a in
  if cmd =? 0x20 then
    set_input (data_words (sectors_from (contents a) (ata_drive a) (ata_lba a) (ata_sectors a))) a
  else if cmd =? 0x30 then set_output (256 * ata_sectors a) [] a
  else if cmd =? 0xEC then set_input (ident a (ata_drive a)) a
  else a.

(** The contents after the bytes of a write. *)
Definition stored_at (c : Z → Z → list Z) (drive lba : Z) (bytes : list Z) (dr l : Z) : list Z :=
  if (dr =? drive) && (lba <=? l) && (l <? lba + Z.of_nat (length bytes / SECTOR_SIZE))
  then sub_slice bytes (SECTOR_SIZE * Z.to_nat (l - lba)) (SECTOR_SIZE * S (Z.to_nat (l - lba)))
  else c dr l.

(** A word of a write; the last one ends it. *)
Definition ata_accept (w : Z) (a : Ata) : Ata :=
  match want a with
  | O => a
  | S O =>
      set_contents (stored_at (contents a) (ata_drive a) (ata_lba a) (mjoin (word_bytes <$> output a ++ [w])))
        (set_output 0 [] a)
  | S n => set_output n (output a ++ [w]) a
  end.

(** How many polls a drive that is busy for up to [pause] polls between two sectors may be busy:
    after a word was read that leaves [ws] to be read, and after a word was written when [want]
    were needed.  The last sector of a write is stored too. *)
Definition read_pause (pause : nat) (ws : list Z) : nat :=
  if (0 <? length ws)%nat && (length ws mod 256 =? 0)%nat then pause else 0.
Definition write_pause (pause want : nat) : nat := if (want mod 256 =? 1)%nat then pause else 0.

(** What the driver relies on: the device shows a reference drive, whose status can be read at any
    time and whose other ports can be used when it is not busy. *)
Class AtaLaws `{!Device} := {
  view : Dev → Ata;
  delay : nat;
  sector_delay : nat;
  law_select v d : busy (view d) = 0%nat → view (port_out 8 PORT_DRIVESELECT v d) = set_select v (view d);
  law_count v d : busy (view d) = 0%nat → view (port_out 8 PORT_SECCOUNT v d) = set_count v (view d);
  law_lba0 v d : busy (view d) = 0%nat → view (port_out 8 PORT_LBA0 v d) = set_lba0 v (view d);
  law_lba1 v d : busy (view d) = 0%nat → view (port_out 8 PORT_LBA1 v d) = set_lba1 v (view d);
  law_lba2 v d : busy (view d) = 0%nat → view (port_out 8 PORT_LBA2 v d) = set_lba2 v (view d);
  law_command c d : busy (view d) = 0%nat →
    ∃ b, (b ≤ delay)%nat ∧ view (port_out 8 PORT_COMMAND c d) = ata_start b c (view d);
  law_status d : ready_bits (port_in 8 PORT_COMMAND d).1 = (busy (view d) =? 0)%nat ∧
    view (port_in 8 PORT_COMMAND d).2 = set_busy (pred (busy (view d))) (view d);
  law_read d w ws : busy (view d) = 0%nat → input (view d) = w :: ws →
    (port_in 16 PORT_DATA d).1 = w ∧ ∃ b, (b ≤ read_pause sector_delay ws)%nat ∧
      view (port_in 16 PORT_DATA d).2 = set_busy b (set_input ws (view d));
  law_write w d : busy (view d) = 0%nat → ∃ b, (b ≤ write_pause sector_delay (want (view d)))%nat ∧
    view (port_out 16 PORT_DATA w d) = set_busy b (ata_accept w (view d));
}.

(** And, to be identified: the control port shows the status too, a reset takes no longer than a
    command, the address registers read back, and the bits of the status say whether the drive
    works on a command and whether it has words to be read.  Both drives are present. *)
Class IdentifyLaws `{!Device} `{!AtaLaws} := {
  law_control_out v d :
    ∃ b, (b ≤ delay)%nat ∧ view (port_out 8 PORT_DEV_CTRL v d) = set_busy b (view d);
  law_control_in d : ready_bits (port_in 8 PORT_DEV_CTRL d).1 = (busy (view d) =? 0)%nat ∧
    view (port_in 8 PORT_DEV_CTRL d).2 = set_busy (pred (busy (view d))) (view d);
  law_lba1_in d : busy (view d) = 0%nat → port_in 8 PORT_LBA1 d = (lba1 (view d), d);
  law_lba2_in d : busy (view d) = 0%nat → port_in 8 PORT_LBA2 d = (lba2 (view d), d);
  law_status_bits d : let v := (port_in 8 PORT_COMMAND d).1 in
    v ≠ 0 ∧ Z.land v 1 = 0 ∧ (Z.land v (Z.shiftl 1 7) =? 0) = (busy (view d) =? 0)%nat ∧
    (busy (view d) = 0%nat → input (view d) ≠ [] → Z.land v (Z.shiftl 1 3) ≠ 0);
}.

(** ** Words and bytes *)

Lemma data_words_bytes bytes n :
  Forall is_byte bytes → length bytes = (2 * n)%nat → mjoin (word_bytes <$> data_words bytes) = bytes.
Proof.
  revert bytes. induction n as [|n IH]; intros bytes Hb Hl.
  { by destruct bytes. }
  destruct bytes as [|lo [|hi bytes]]; [done|cbn in Hl; lia|].
  apply Forall_cons_1 in Hb as [Hlo Hb]. apply Forall_cons_1 in Hb as [Hhi Hb]. cbn [data_words fmap list_fmap mjoin list_join].
  rewrite IH by (done || cbn in Hl; lia). unfold word_bytes. cbn [to_le app]. unfold is_byte in *.
  rewrite lor_shiftl by lia. change (2 ^ 8) with 256. f_equal; [|f_equal].
  - rewrite Z_mod_plus_full. by apply Z.mod_small.
  - rewrite Z.div_add, (Z.div_small lo), Z.add_0_l by lia. by apply Z.mod_small.
Qed.

Lemma data_words_length bytes n : length bytes = (2 * n)%nat → length (data_words bytes) = n.
Proof.
  revert bytes. induction n as [|n IH]; intros bytes Hl; [by destruct bytes|].
  destruct bytes as [|lo [|hi bytes]]; [done|cbn in Hl; lia|]. cbn. f_equal. apply IH. cbn in Hl. lia.
Qed.

Lemma data_words_bound bytes : Forall is_byte bytes → Forall (λ w, 0 ≤ w < 65536) (data_words bytes).
Proof.
  assert (∀ n, (length bytes ≤ n)%nat → Forall is_byte bytes → Forall (λ w, 0 ≤ w < 65536) (data_words bytes)) as H.
  { intros n. revert bytes. induction n as [|n IH]; intros bytes Hl Hb; [destruct bytes; [constructor|cbn in Hl; lia]|].
    destruct bytes as [|lo [|hi bytes]]; [by constructor|by constructor|].
    apply Forall_cons_1 in Hb as [Hlo Hb]. apply Forall_cons_1 in Hb as [Hhi Hb]. cbn [data_words].
    constructor; [|apply IH; [cbn in Hl; lia|done]]. unfold is_byte in *. rewrite lor_shiftl by lia.
    change (2 ^ 8) with 256. lia. }
  by apply (H (length bytes)).
Qed.

(** The two bytes the driver takes from a word. *)
Lemma split_word w : 0 ≤ w < 65536 → [Z.land w 0xff; Z.shiftr (Z.land w 0xff00) 0x8] = word_bytes w.
Proof.
  intros Hw. unfold word_bytes. cbn [to_le]. change 0xff00 with (Z.shiftl 255 8). rewrite byte_of_land by lia.
  change 255 with (Z.ones 8). by rewrite Z.land_ones by lia.
Qed.

Section props.
Context `{!Device} `{!AtaLaws}.
Implicit Types d : Dev.

(** ** Waiting *)

Lemma status_times k d :
  ∃ vs d', io_times k read_status d = Some (Ret (vs, d')) ∧
    view d' = set_busy (busy (view d) - k) (view d).
Proof.
  revert d. induction k as [|k IH]; intros d.
  { exists [], d. split; [done|]. rewrite Nat.sub_0_r. by destruct (view d). }
  destruct (law_status d) as [_ Hv]. destruct (IH (port_in 8 PORT_COMMAND d).2) as (vs & d' & E & Hv').
  eexists _, d'. split; [apply (times_succ _ _ _ _ _ _ _ (read_some 8 PORT_COMMAND d) E)|].
  rewrite Hv', Hv. unfold set_busy. cbn. f_equal. lia.
Qed.

Lemma is_ready_ok d :
  ∃ d', is_ready d = Some (Ret ((busy (view d) <=? 4)%nat, d')) ∧
    view d' = set_busy (busy (view d) - 5) (view d).
Proof.
  destruct (status_times 4 d) as (vs & d1 & E & Hv). unfold is_ready.
  rewrite (bind_some _ _ _ _ _ E). unfold read_status. rewrite (bind_some _ _ _ _ _ (read_some _ _ _)).
  destruct (law_status d1) as [Hr Hv1]. eexists. split.
  2:{ rewrite Hv1, Hv. unfold set_busy. cbn [busy select count lba0 lba1 lba2 input want output contents ident]. f_equal. lia. }
  unfold mret, io_ret. rewrite Hr, Hv. cbn. do 3 f_equal.
  destruct (Nat.leb_spec (busy (view d)) 4), (Nat.eqb_spec (busy (view d) - 4) 0); (done || lia).
Qed.

Lemma wait_ready_ok fuel d :
  (busy (view d) < fuel)%nat →
  ∃ d', wait_ready fuel d = Some (Ret (tt, d')) ∧ view d' = set_busy 0 (view d).
Proof.
  unfold wait_ready. revert d. induction fuel as [|fuel IH]; intros d Hf; [lia|]. cbn [io_until].
  destruct (is_ready_ok d) as (d1 & E & Hv). rewrite (bind_some _ _ _ _ _ E).
  destruct (Nat.leb_spec (busy (view d)) 4).
  - exists d1. split; [done|]. rewrite Hv. f_equal. lia.
  - destruct (IH d1) as (d2 & E2 & Hv2); [rewrite Hv; cbn; lia|].
    exists d2. split; [done|]. rewrite Hv2, Hv. done.
Qed.

(** ** Registers *)

Lemma select_bits h drive :
  0 ≤ h < 8 → 0 ≤ drive ≤ 1 →
  Z.land (Z.lor (Z.lor h 0xe0) (Z.shiftl drive 4 mod 256)) 0xf = h ∧
  Z.b2z (Z.testbit (Z.lor (Z.lor h 0xe0) (Z.shiftl drive 4 mod 256)) 4) = drive.
Proof.
  intros Hh Hd.
  assert (Forall (λ h, Forall (λ drive,
    Z.land (Z.lor (Z.lor h 0xe0) (Z.shiftl drive 4 mod 256)) 0xf = h ∧
    Z.b2z (Z.testbit (Z.lor (Z.lor h 0xe0) (Z.shiftl drive 4 mod 256)) 4) = drive) (seqZ 0 2)) (seqZ 0 8))
    as Hall by (apply (bool_decide_unpack _); vm_compute; exact I).
  rewrite Forall_seqZ in Hall. specialize (Hall h ltac:(lia)).
  rewrite Forall_seqZ in Hall. apply (Hall drive). lia.
Qed.

Lemma lba_parts lba :
  0 ≤ lba < 2 ^ 28 →
  Z.shiftr lba 24 mod 256 * 2 ^ 24 + Z.shiftr (Z.land lba 0xff0000) 0x10 * 2 ^ 16 +
    Z.shiftr (Z.land lba 0xff00) 0x8 * 2 ^ 8 + Z.land lba 0xff = lba ∧
  0 ≤ Z.shiftr lba 24 mod 256 < 16 ∧ (lba < 2 ^ 27 → Z.shiftr lba 24 mod 256 < 8).
Proof.
  intros Hl. change 0xff0000 with (Z.shiftl 255 0x10). change 0xff00 with (Z.shiftl 255 8).
  rewrite !byte_of_land by lia. change 255 with (Z.ones 8). rewrite Z.land_ones, Z.shiftr_div_pow2 by lia.
  change (2 ^ 8) with 256. change (2 ^ 0x10) with 65536. change (2 ^ 24) with 16777216.
  change (2 ^ 16) with 65536. change (2 ^ 27) with 134217728. change (2 ^ 28) with 268435456 in Hl.
  assert (0 ≤ lba / 16777216 < 16) as Hh by (split; [apply Z.div_pos; lia|apply Z.div_lt_upper_bound; lia]).
  rewrite (Z.mod_small (lba / 16777216)) by lia. split; [|split; [done|intros; apply Z.div_lt_upper_bound; lia]].
  pose proof (Z.div_mod lba 256). pose proof (Z.div_mod (lba / 256) 256).
  pose proof (Z.div_mod (lba / 65536) 256). rewrite Z.div_div in * by lia.
  change (256 * 256) with 65536 in *. change (65536 * 256) with 16777216 in *. lia.
Qed.

(** The address of a transfer, written to a drive that is not busy. *)
Lemma registers_ok s n b0 b1 b2 d :
  busy (view d) = 0%nat →
  view (port_out 8 PORT_LBA2 b2 (port_out 8 PORT_LBA1 b1 (port_out 8 PORT_LBA0 b0
    (port_out 8 PORT_SECCOUNT n (port_out 8 PORT_DRIVESELECT s d))))) =
  set_lba2 b2 (set_lba1 b1 (set_lba0 b0 (set_count n (set_select s (view d))))).
Proof.
  intros Hz. rewrite law_lba2; rewrite ?law_lba1; rewrite ?law_lba0; rewrite ?law_count; rewrite ?law_select; done.
Qed.

(** After [start_transfer], the drive has started the command at the address. *)
Lemma start_transfer_ok fuel drive lba sectors cmd d :
  busy (view d) = 0%nat → 0 ≤ drive ≤ 1 → 0 ≤ lba < 2 ^ 27 → (delay < fuel)%nat →
  ∃ a d', start_transfer fuel drive lba sectors cmd d = Some (Ret (tt, d')) ∧
    view d' = set_busy 0 (ata_start 0 cmd a) ∧ contents a = contents (view d) ∧
    ata_drive a = drive ∧ ata_lba a = lba ∧ count a = sectors mod 256.
Proof.
  intros Hbusy Hd Hl Hf. assert (2 ^ 27 < 2 ^ 28) by done.
  destruct (lba_parts lba ltac:(lia)) as (Hp & [Hh0 _] & Hh8). specialize (Hh8 (proj2 Hl)).
  pose proof (conj Hh0 Hh8) as Hh. unfold start_transfer.
  rewrite (bind_some _ _ _ _ _ (assert_true _ _ _ (proj2 (Z.ltb_lt _ _) (proj2 Hh)))).
  do 5 rewrite (bind_some _ _ _ _ _ (write_some _ _ _ _)).
  match goal with |- context [port_out 8 PORT_LBA2 ?b2 (port_out 8 PORT_LBA1 ?b1 (port_out 8 PORT_LBA0 ?b0
    (port_out 8 PORT_SECCOUNT ?n (port_out 8 PORT_DRIVESELECT ?s d))))] =>
    pose proof (registers_ok s n b0 b1 b2 d Hbusy) as Hreg end.
  set (d1 := port_out 8 PORT_LBA2 _ _) in *. unfold send_command.
  rewrite (bind_some _ _ _ _ _ (write_some _ _ _ _)).
  destruct (law_command cmd d1) as (b & Hb & Hc); [by rewrite Hreg|].
  destruct (wait_ready_ok fuel (port_out 8 PORT_COMMAND cmd d1)) as (d2 & E & Hv).
  { rewrite Hc. unfold ata_start. repeat case_match; cbn; lia. }
  exists (view d1), d2. split; [done|]. split.
  { rewrite Hv, Hc. unfold ata_start. by repeat case_match. }
  rewrite Hreg. destruct (select_bits _ _ Hh Hd) as [Hs1 Hs2]. split; [done|]. split; [exact Hs2|]. split; [|done].
  unfold ata_lba. cbn. rewrite Hs1. exact Hp.
Qed.

(** ** Reading *)

(** The drive does not pause among [n] words. *)
Definition smooth (n : nat) : Prop := sector_delay = 0%nat ∨ (n ≤ 256)%nat.

Lemma read_pause_none x ws : smooth (length (x :: ws)) → read_pause sector_delay ws = 0%nat.
Proof.
  intros [->|Hl]; unfold read_pause; [by destruct (_ && _)|]. cbn in Hl.
  destruct (Nat.ltb_spec 0 (length ws)); [|done]. rewrite Nat.mod_small by lia.
  destruct (Nat.eqb_spec (length ws) 0); [lia|done].
Qed.

Lemma read_data_ok d x ws :
  busy (view d) = 0%nat → input (view d) = x :: ws → smooth (length (x :: ws)) →
  (port_in 16 PORT_DATA d).1 = x ∧ view (port_in 16 PORT_DATA d).2 = set_busy 0 (set_input ws (view d)).
Proof.
  intros Hb Hi Hs. destruct (law_read d x ws Hb Hi) as (Hr & b & Hle & Hv). split; [done|].
  rewrite (read_pause_none _ _ Hs) in Hle. by replace b with 0%nat in Hv by lia.
Qed.

Lemma smooth_le m n : smooth n → (m ≤ n)%nat → smooth m.
Proof. intros [?|?] ?; [by left|right; lia]. Qed.

Lemma read_word_ok d x ws :
  busy (view d) = 0%nat → input (view d) = x :: ws → smooth (length (x :: ws)) → 0 ≤ x < 65536 →
  ∃ d', read_word d = Some (Ret (word_bytes x, d')) ∧ view d' = set_busy 0 (set_input ws (view d)).
Proof.
  intros Hb Hi Hs Hx. destruct (read_data_ok d x ws Hb Hi Hs) as [Hr Hv]. unfold read_word.
  rewrite (bind_some _ _ _ _ _ (read_some _ _ _)), Hr. eexists. split; [|exact Hv].
  by rewrite split_word.
Qed.

Lemma set_busy_idle a : busy a = 0%nat → set_busy 0 (set_input (input a) a) = a.
Proof. destruct a. cbn. by intros ->. Qed.

Lemma read_words_ok ws rest d :
  busy (view d) = 0%nat → input (view d) = ws ++ rest → smooth (length (ws ++ rest)) →
  Forall (λ x, 0 ≤ x < 65536) ws →
  ∃ d', io_times (length ws) read_word d = Some (Ret (word_bytes <$> ws, d')) ∧
    view d' = set_busy 0 (set_input rest (view d)).
Proof.
  revert d. induction ws as [|x ws IH]; intros d Hz Hi Hs Hb.
  { exists d. split; [done|]. cbn in Hi. rewrite <- Hi. by rewrite set_busy_idle. }
  apply Forall_cons_1 in Hb as [Hx Hb].
  destruct (read_word_ok d x (ws ++ rest) Hz Hi Hs Hx) as (d1 & E1 & Hv1).
  destruct (IH d1) as (d2 & E2 & Hv2); [by rewrite Hv1..|eapply smooth_le; [exact Hs|cbn; lia]|done|].
  exists d2. split; [by apply (times_succ _ _ _ _ _ _ _ E1 E2)|]. rewrite Hv2, Hv1. done.
Qed.

(** Reading in rounds of [k] words. *)
Lemma read_rounds_ok n k ws d :
  busy (view d) = 0%nat → input (view d) = ws → smooth (length ws) → length ws = (n * k)%nat →
  Forall (λ x, 0 ≤ x < 65536) ws →
  ∃ rs d', io_times n (io_times k read_word) d = Some (Ret (rs, d')) ∧
    mjoin (mjoin <$> rs) = mjoin (word_bytes <$> ws) ∧ view d' = set_busy 0 (set_input [] (view d)).
Proof.
  revert ws d. induction n as [|n IH]; intros ws d Hz Hi Hs Hl Hb.
  { exists [], d. destruct ws; [|done]. split; [done|]. split; [done|]. rewrite <- Hi. by rewrite set_busy_idle. }
  rewrite <- (take_drop k ws) in Hi, Hs. assert (length (take k ws) = k) as Hk by (rewrite length_take; lia).
  destruct (read_words_ok (take k ws) (drop k ws) d Hz Hi Hs) as (d1 & E1 & Hv1); [by apply Forall_take|].
  rewrite Hk in E1. destruct (IH (drop k ws) d1) as (rs & d2 & E2 & Hrs & Hv2).
  { by rewrite Hv1. } { by rewrite Hv1. } { eapply smooth_le; [exact Hs|]. rewrite length_app. lia. }
  { rewrite length_drop. lia. } { by apply Forall_drop. }
  eexists _, d2. split; [apply (times_succ _ _ _ _ _ _ _ E1 E2)|]. split; [|by rewrite Hv2, Hv1].
  transitivity (mjoin (word_bytes <$> take k ws) ++ mjoin (mjoin <$> rs)); [done|].
  rewrite Hrs, <- join_app, <- fmap_app. by rewrite take_drop.
Qed.

(** Sectors of 512 bytes. *)
Definition sectors_ok (c : Z → Z → list Z) : Prop :=
  ∀ dr l, length (c dr l) = SECTOR_SIZE ∧ Forall is_byte (c dr l).

Lemma sectors_from_ok c drive lba n :
  sectors_ok c → length (sectors_from c drive lba n) = (SECTOR_SIZE * n)%nat ∧
    Forall is_byte (sectors_from c drive lba n).
Proof.
  intros Hc. unfold sectors_from. assert (length (seqZ 0 (Z.of_nat n)) = n) as Hn by (rewrite length_seqZ; lia).
  revert Hn. generalize (seqZ 0 (Z.of_nat n)). intros l. revert n. induction l as [|i l IH]; intros n Hn.
  { cbn in Hn. subst n. by rewrite Nat.mul_0_r. }
  destruct n as [|n]; [done|]. injection Hn as Hn. destruct (IH n Hn) as [IH1 IH2].
  destruct (Hc drive (lba + i)) as [H1 H2]. rewrite fmap_cons.
  change (mjoin (?x :: ?y)) with (x ++ mjoin y). rewrite length_app.
  split; [rewrite H1, IH1; lia|by apply Forall_app].
Qed.

(** What the driver can move with one command: a sector, or any number of them with a drive that
    does not pause. *)
Definition one_poll (n : nat) : Prop := n = 1%nat ∨ sector_delay = 0%nat.

Lemma one_poll_smooth n : one_poll n → smooth (n * 256).
Proof. intros [->|?]; [right; lia|by left]. Qed.

Lemma read_lba_ok fuel drive lba sectors d :
  busy (view d) = 0%nat → one_poll (Z.to_nat sectors) → 0 ≤ drive ≤ 1 → 0 ≤ lba < 2 ^ 27 → 0 < sectors < 256 → (delay < fuel)%nat → sectors_ok (contents (view d)) →
  ∃ d', read_lba fuel drive lba sectors d =
      Some (Ret (sectors_from (contents (view d)) drive lba (Z.to_nat sectors), d')) ∧
    contents (view d') = contents (view d) ∧ busy (view d') = 0%nat.
Proof.
  intros Hz Hp Hd Hl Hs Hf Hc. unfold read_lba. change (Z.shiftl 1 28) with (2 ^ 28).
  assert (2 ^ 27 < 2 ^ 28) by done.
  rewrite (bind_some _ _ _ _ _ (assert_true _ _ _ (proj2 (Z.ltb_lt _ _) (proj1 Hs)))).
  rewrite (bind_some _ _ _ _ _ (assert_true _ _ _ (proj2 (Z.leb_le _ _) (proj2 Hd)))).
  rewrite (bind_some _ _ _ _ _ (assert_true _ _ _ (proj2 (Z.ltb_lt lba (2 ^ 28)) ltac:(lia)))).
  destruct (start_transfer_ok fuel drive lba sectors 0x20 d Hz Hd Hl Hf) as (a & d1 & E & Hv & Hca & Hda & Hla & Hna).
  rewrite (bind_some _ _ _ _ _ E). rewrite Z.mod_small in Hna by lia.
  assert (ata_sectors a = Z.to_nat sectors) as Hn.
  { unfold ata_sectors. rewrite Hna. by destruct (Z.eqb_spec sectors 0); [lia|]. }
  unfold ata_start in Hv. cbn [Z.eqb Pos.eqb] in Hv.
  set (bytes := sectors_from (contents (view d)) drive lba (Z.to_nat sectors)).
  assert (input (view d1) = data_words bytes) as Hi.
  { rewrite Hv. cbn. change (ata_drive (set_busy 0 a)) with (ata_drive a). change (ata_lba (set_busy 0 a)) with (ata_lba a).
    change (ata_sectors (set_busy 0 a)) with (ata_sectors a). by rewrite Hca, Hda, Hla, Hn. }
  destruct (sectors_from_ok (contents (view d)) drive lba (Z.to_nat sectors) Hc) as [Hlen Hb]. fold bytes in Hlen, Hb.
  assert (length bytes = 2 * (Z.to_nat sectors * 256))%nat as Hlen2 by (rewrite Hlen; unfold SECTOR_SIZE; lia).
  pose proof (data_words_length _ _ Hlen2) as Hwl.
  destruct (read_rounds_ok (Z.to_nat sectors) 256 (data_words bytes) d1) as (rs & d2 & E2 & Hrs & Hv2).
  { by rewrite Hv. } { exact Hi. } { rewrite Hwl. by apply one_poll_smooth. } { exact Hwl. } { by apply data_words_bound. }
  change (SECTOR_SIZE / 2)%nat with 256%nat. rewrite (bind_some _ _ _ _ _ E2).
  exists d2. split; [|rewrite Hv2, Hv; by split; [exact Hca|]]. unfold mret, io_ret. rewrite Hrs.
  by rewrite (data_words_bytes _ _ Hb Hlen2).
Qed.

(** ** Writing *)

Lemma write_pause_none n : (1 < n)%nat → smooth n → write_pause sector_delay n = 0%nat.
Proof.
  intros Hn [->|Hl]; unfold write_pause; [by case_match|]. destruct (decide (n = 256%nat)) as [->|]; [done|].
  rewrite Nat.mod_small by lia. destruct (Nat.eqb_spec n 1); [lia|done].
Qed.

Lemma accept_words_ok ws pre d :
  busy (view d) = 0%nat → ws ≠ [] → want (view d) = length ws → smooth (length ws) → output (view d) = pre →
  ∃ d', io_each (write_port 16 PORT_DATA) ws d = Some (Ret (tt, d')) ∧
    contents (view d') = stored_at (contents (view d)) (ata_drive (view d)) (ata_lba (view d))
      (mjoin (word_bytes <$> pre ++ ws)) ∧ (busy (view d') ≤ sector_delay)%nat.
Proof.
  revert pre d. induction ws as [|x ws IH]; intros pre d Hz Hne Hw Hs Ho; [done|]. cbn [io_each].
  rewrite (bind_some _ _ _ _ _ (write_some _ _ _ _)). destruct (law_write x d Hz) as (b & Hb & Hv). unfold ata_accept in Hv.
  rewrite Hw, Ho in Hv. rewrite Hw in Hb. destruct ws as [|y ws].
  - cbn [length] in Hv. eexists. split; [done|]. rewrite Hv. split; [done|]. exact Hb.
  - rewrite write_pause_none in Hb by (done || cbn; lia). replace b with 0%nat in Hv by lia.
    cbn [length] in Hv. destruct (IH (pre ++ [x]) (port_out 16 PORT_DATA x d)) as (d' & E & Hc & Hle).
    { by rewrite Hv. } { done. } { by rewrite Hv. } { eapply smooth_le; [exact Hs|]. cbn. lia. } { by rewrite Hv. }
    exists d'. split; [exact E|]. split; [|done]. rewrite Hc, Hv, <- app_assoc. done.
Qed.

Lemma write_lba_ok fuel drive lba n data d :
  busy (view d) = 0%nat → one_poll n → 0 ≤ drive ≤ 1 → 0 ≤ lba < 2 ^ 27 → (0 < n ≤ 256)%nat → length data = (SECTOR_SIZE * n)%nat →
  Forall is_byte data → (delay < fuel)%nat →
  ∃ d', write_lba fuel drive lba data d = Some (Ret (tt, d')) ∧
    contents (view d') = stored_at (contents (view d)) drive lba data ∧ (busy (view d') ≤ sector_delay)%nat.
Proof.
  intros Hz Hp Hd Hl Hn Hlen Hb Hf. unfold write_lba. change (Z.shiftl 1 28) with (2 ^ 28).
  assert (2 ^ 27 < 2 ^ 28) by done.
  rewrite (bind_some _ _ _ _ _ (assert_true _ _ _ (proj2 (Z.leb_le _ _) (proj2 Hd)))).
  rewrite (bind_some _ _ _ _ _ (assert_true _ _ _ (proj2 (Z.ltb_lt lba (2 ^ 28)) ltac:(lia)))).
  rewrite Hlen, (Nat.mul_comm SECTOR_SIZE), Nat.Div0.mod_mul, Nat.div_mul by done.
  rewrite (bind_some _ _ _ _ _ (assert_true _ _ _ eq_refl)).
  rewrite (bind_some _ _ _ _ _ (assert_true _ _ _ (proj2 (Nat.ltb_lt 0 n) (proj1 Hn)))).
  destruct (start_transfer_ok fuel drive lba (Z.of_nat n) 0x30 d Hz Hd Hl Hf) as (a & d1 & E & Hv & Hca & Hda & Hla & Hna).
  rewrite (bind_some _ _ _ _ _ E).
  assert (ata_sectors a = n) as Hs.
  { unfold ata_sectors. rewrite Hna. destruct (decide (n = 256%nat)) as [->|]; [done|].
    rewrite Z.mod_small by lia. destruct (Z.eqb_spec (Z.of_nat n) 0); lia. }
  unfold ata_start in Hv. cbn [Z.eqb Pos.eqb] in Hv.
  assert (length data = 2 * (256 * n))%nat as Hlen2 by (rewrite Hlen; unfold SECTOR_SIZE; lia).
  pose proof (data_words_length data _ Hlen2) as Hw.
  destruct (accept_words_ok (data_words data) [] d1) as (d2 & E2 & Hc & Hle).
  { by rewrite Hv. }
  { intros E0. rewrite E0 in Hw. cbn in Hw. lia. }
  { rewrite Hv, Hw. cbn [want set_busy set_output]. change (ata_sectors (set_busy 0 a)) with (ata_sectors a). by rewrite Hs. }
  { rewrite Hw, Nat.mul_comm. by apply one_poll_smooth. }
  { by rewrite Hv. }
  exists d2. split; [exact E2|]. split; [|exact Hle]. rewrite Hc, Hv. cbn [app].
  rewrite (data_words_bytes _ _ Hb Hlen2). cbn [contents set_busy set_output].
  change (ata_drive _) with (ata_drive a). change (ata_lba _) with (ata_lba a). by rewrite Hca, Hda, Hla.
Qed.

(** The written sectors, one after the other. *)
Lemma slices_join {A} (l : list A) k n :
  mjoin ((λ i, sub_slice l (SECTOR_SIZE * i) (SECTOR_SIZE * S i)) <$> seq k n) =
    sub_slice l (SECTOR_SIZE * k) (SECTOR_SIZE * (k + n)).
Proof.
  revert k. induction n as [|n IH]; intros k.
  { unfold sub_slice. by rewrite Nat.add_0_r, Nat.sub_diag. }
  cbn [seq]. rewrite fmap_cons. change (mjoin (?x :: ?y)) with (x ++ mjoin y). rewrite IH. unfold sub_slice.
  replace (SECTOR_SIZE * S k - SECTOR_SIZE * k)%nat with SECTOR_SIZE by lia.
  replace (SECTOR_SIZE * (k + S n) - SECTOR_SIZE * k)%nat with (SECTOR_SIZE + SECTOR_SIZE * n)%nat by lia.
  replace (SECTOR_SIZE * (S k + n) - SECTOR_SIZE * S k)%nat with (SECTOR_SIZE * n)%nat by lia.
  rewrite <- take_take_drop, drop_drop. do 3 f_equal. lia.
Qed.

Lemma stored_back c drive lba data n :
  length data = (SECTOR_SIZE * n)%nat → sectors_from (stored_at c drive lba data) drive lba n = data.
Proof.
  intros Hlen. unfold sectors_from.
  transitivity (mjoin ((λ i, sub_slice data (SECTOR_SIZE * i) (SECTOR_SIZE * S i)) <$> seq 0 n)).
  - f_equal. unfold seqZ. rewrite Nat2Z.id, <- list_fmap_compose. apply list_fmap_ext. intros i x Hx.
    apply lookup_seq in Hx as [-> Hi]. cbn. unfold stored_at.
    rewrite Hlen, (Nat.mul_comm SECTOR_SIZE n), Nat.div_mul by done.
    rewrite Z.eqb_refl, (proj2 (Z.leb_le lba _)), (proj2 (Z.ltb_lt _ _)) by lia. cbn [andb].
    by replace (Z.to_nat (lba + (Z.of_nat i + 0) - lba)) with i by lia.
  - rewrite slices_join. unfold sub_slice. rewrite Nat.mul_0_r, Nat.sub_0_r, drop_0, Nat.add_0_l.
    apply take_ge. lia.
Qed.

Lemma stored_ok c drive lba data n :
  sectors_ok c → length data = (SECTOR_SIZE * n)%nat → Forall is_byte data →
  sectors_ok (stored_at c drive lba data).
Proof.
  intros Hc Hlen Hb dr l. unfold stored_at. case_match eqn:E; [|apply Hc].
  apply andb_prop in E as [E E3]. apply andb_prop in E as [E1 E2]. apply Z.leb_le in E2. apply Z.ltb_lt in E3.
  rewrite Hlen, (Nat.mul_comm SECTOR_SIZE n), Nat.div_mul in E3 by done.
  split; [rewrite sub_slice_length; [lia|unfold SECTOR_SIZE in *; nia]|].
  unfold sub_slice. by apply Forall_take, Forall_drop.
Qed.

(** ** The driver *)

(** C20: what [write_lba] stored is what [read_lba] returns.  A drive that is not busy and answers
    a command within [fuel] polls is given a write of one whole sector, or of up to 256 with a drive
    that does not pause between sectors, below sector 2^27 (the assertions refuse the rest).  The
    write changes the sectors it names and no other; and a read of them (of up to 255, which is what
    the count can name), begun when the drive is done with the write, returns the data. *)
Theorem ata_write_read fuel drive lba n data d :
  busy (view d) = 0%nat → n = 1%nat ∨ sector_delay = 0%nat →
  0 ≤ drive ≤ 1 → 0 ≤ lba < 2 ^ 27 → (0 < n ≤ 256)%nat → length data = (SECTOR_SIZE * n)%nat →
  Forall is_byte data → sectors_ok (contents (view d)) → (delay < fuel)%nat →
  ∃ d1, write_lba fuel drive lba data d = Some (Ret (tt, d1)) ∧
    (∀ dr l, contents (view d1) dr l = stored_at (contents (view d)) drive lba data dr l) ∧
    (busy (view d1) ≤ sector_delay)%nat ∧
    ∀ d1', (n ≤ 255)%nat → view d1' = set_busy 0 (view d1) →
      ∃ d2, read_lba fuel drive lba (Z.of_nat n) d1' = Some (Ret (data, d2)) ∧
        contents (view d2) = contents (view d1).
Proof.
  intros Hz Hp Hd Hl Hn Hlen Hb Hok Hf.
  destruct (write_lba_ok fuel drive lba n data d) as (d1 & E1 & Hc1 & Hle); [done..|].
  exists d1. split; [done|]. split; [intros dr l; by rewrite Hc1|]. split; [done|]. intros d1' Hn' Hv.
  assert (contents (view d1') = contents (view d1)) as Hc1' by (by rewrite Hv).
  destruct (read_lba_ok fuel drive lba (Z.of_nat n) d1') as (d2 & E2 & Hc2 & _).
  { by rewrite Hv. } { by rewrite Nat2Z.id. } { done. } { done. } { lia. } { done. }
  { rewrite Hc1', Hc1. by eapply stored_ok. }
  exists d2. split; [|by rewrite Hc2]. rewrite E2, Hc1', Hc1, Nat2Z.id. do 3 f_equal. by apply stored_back.
Qed.

Lemma start_transfer_refused fuel drive lba sectors cmd d :
  2 ^ 27 ≤ lba < 2 ^ 28 →
  start_transfer fuel drive lba sectors cmd d = Some (Panic "assertion failed: bits24_27 < 8").
Proof.
  intros Hl. unfold start_transfer. apply bind_panic, assert_false. apply Z.ltb_ge.
  rewrite Z.shiftr_div_pow2 by lia. change (2 ^ 24) with 16777216. change (2 ^ 27) with 134217728 in Hl.
  change (2 ^ 28) with 268435456 in Hl. rewrite Z.mod_small.
  - apply Z.div_le_lower_bound; lia.
  - split; [apply Z.div_pos; lia|apply Z.div_lt_upper_bound; lia].
Qed.

(** [read_lba] of one sector, or of several from a drive that does not pause, returns or panics,
    and which of the two is decided by its arguments alone: it returns the sectors as the drive has them when there is a sector to read, the drive is 0 or 1
    and the first sector is below 2^27, and its assertions refuse everything else, the upper half
    of the 28-bit addresses included. *)
Theorem ata_read_exact fuel drive lba sectors d :
  busy (view d) = 0%nat → one_poll (Z.to_nat sectors) →
  0 ≤ drive → 0 ≤ lba → 0 ≤ sectors < 256 → sectors_ok (contents (view d)) → (delay < fuel)%nat →
  if bool_decide (0 < sectors ∧ drive ≤ 1 ∧ lba < 2 ^ 27) then
    ∃ d', read_lba fuel drive lba sectors d =
        Some (Ret (sectors_from (contents (view d)) drive lba (Z.to_nat sectors), d')) ∧
      contents (view d') = contents (view d)
  else ∃ why, read_lba fuel drive lba sectors d = Some (Panic why).
Proof.
  intros Hz Hp Hd Hl Hs Hc Hf. case_bool_decide as Hok.
  { destruct (read_lba_ok fuel drive lba sectors d) as (d' & E & Hc' & _); [done|done|lia..|done|done|]. by exists d'. }
  unfold read_lba. change (Z.shiftl 1 28) with (2 ^ 28). assert (2 ^ 27 < 2 ^ 28) by done.
  destruct (Z.ltb_spec 0 sectors).
  2:{ eexists. by apply bind_panic, assert_false. }
  rewrite (bind_some _ _ _ _ _ (assert_true _ _ _ eq_refl)). destruct (Z.leb_spec drive 1).
  2:{ eexists. by apply bind_panic, assert_false. }
  rewrite (bind_some _ _ _ _ _ (assert_true _ _ _ eq_refl)). destruct (Z.ltb_spec lba (2 ^ 28)).
  2:{ eexists. by apply bind_panic, assert_false. }
  rewrite (bind_some _ _ _ _ _ (assert_true _ _ _ eq_refl)).
  eexists. apply bind_panic, start_transfer_refused. lia.
Qed.

(** ** Finding the drives *)

Section identify.
Context `{!IdentifyLaws}.

Lemma control_times k d :
  ∃ vs d', io_times k (read_port 8 PORT_DEV_CTRL) d = Some (Ret (vs, d')) ∧
    view d' = set_busy (busy (view d) - k) (view d).
Proof.
  revert d. induction k as [|k IH]; intros d.
  { exists [], d. split; [done|]. rewrite Nat.sub_0_r. by destruct (view d). }
  destruct (law_control_in d) as [_ Hv]. destruct (IH (port_in 8 PORT_DEV_CTRL d).2) as (vs & d' & E & Hv').
  eexists _, d'. split; [apply (times_succ _ _ _ _ _ _ _ (read_some 8 PORT_DEV_CTRL d) E)|].
  rewrite Hv', Hv. unfold set_busy. cbn. f_equal. lia.
Qed.

Lemma control_ready fuel d :
  (busy (view d) < fuel)%nat →
  ∃ d', io_until fuel (v ← read_port 8 PORT_DEV_CTRL; mret (ready_bits v)) d = Some (Ret (tt, d')) ∧
    view d' = set_busy 0 (view d).
Proof.
  revert d. induction fuel as [|fuel IH]; intros d Hf; [lia|]. cbn [io_until].
  destruct (law_control_in d) as [Hr Hv]. set (d1 := (port_in 8 PORT_DEV_CTRL d).2) in *.
  assert ((v ← read_port 8 PORT_DEV_CTRL; mret (ready_bits v)) d = Some (Ret ((busy (view d) =? 0)%nat, d1))) as E.
  { rewrite (bind_some _ _ _ _ _ (read_some _ _ _)), Hr. done. }
  rewrite (bind_some _ _ _ _ _ E). destruct (Nat.eqb_spec (busy (view d)) 0) as [Hb0|Hb0].
  - exists d1. split; [done|]. by rewrite Hv, Hb0.
  - destruct (IH d1) as (d2 & E2 & Hv2); [rewrite Hv; cbn; lia|]. exists d2. split; [done|]. by rewrite Hv2, Hv.
Qed.

Lemma reset_drives_ok fuel d :
  (delay < fuel)%nat → ∃ d', reset_drives fuel d = Some (Ret (tt, d')) ∧ view d' = set_busy 0 (view d).
Proof.
  intros Hf. unfold reset_drives. rewrite (bind_some _ _ _ _ _ (write_some _ _ _ _)).
  destruct (law_control_out 0 d) as (b & Hb & Hv).
  destruct (control_times 4 (port_out 8 PORT_DEV_CTRL 0 d)) as (vs & d1 & E1 & Hv1). rewrite Hv in Hv1.
  rewrite (bind_some _ _ _ _ _ E1). destruct (control_ready fuel d1) as (d2 & E2 & Hv2); [rewrite Hv1; cbn; lia|].
  exists d2. split; [exact E2|]. by rewrite Hv2, Hv1.
Qed.

(** The loop ends with the drive ready: after the drive is done it runs twice. *)
Lemma identify_loop_ok failed other fuel (first : bool) d :
  lba1 (view d) = 0 → lba2 (view d) = 0 → input (view d) ≠ [] →
  (busy (view d) + (if first then 2 else 1) ≤ fuel)%nat →
  ∃ d', identify_loop failed other fuel first d = Some (Ret (true, d')) ∧ view d' = set_busy 0 (view d).
Proof.
  revert first d. induction fuel as [|fuel IH]; intros first d Hr1 Hr2 Hi Hf; [destruct first; lia|].
  cbn [identify_loop]. unfold read_status. rewrite (bind_some _ _ _ _ _ (read_some _ _ _)).
  destruct (law_status_bits d) as (Hz & He & Hb & Hq). destruct (law_status d) as [_ Hv].
  set (d1 := (port_in 8 PORT_COMMAND d).2) in *.
  rewrite (proj2 (Z.eqb_neq _ _) Hz), He, Hb. cbn [Z.eqb negb].
  destruct (Nat.eqb_spec (busy (view d)) 0) as [Hb0|Hb0]; cbn [negb].
  - rewrite Hb0 in Hv. destruct first.
    + rewrite (bind_some _ _ _ _ _ (read_some _ _ _)), law_lba1_in by (by rewrite Hv). cbn [fst snd].
      rewrite (bind_some _ _ _ _ _ (read_some _ _ _)), law_lba2_in by (by rewrite Hv). cbn [fst snd].
      rewrite Hv. cbn [lba1 lba2 set_busy]. rewrite Hr1, Hr2. cbn [Z.eqb negb orb].
      destruct (IH false d1) as (d2 & E2 & Hv2); [by rewrite Hv..|rewrite Hv; cbn; lia|].
      exists d2. split; [exact E2|]. by rewrite Hv2, Hv.
    + rewrite (proj2 (Z.eqb_neq _ _) (Hq Hb0 Hi)). cbn [negb]. exists d1. by split.
  - destruct (IH first d1) as (d2 & E2 & Hv2); [by rewrite Hv..|rewrite Hv; cbn; lia|].
    exists d2. split; [exact E2|]. by rewrite Hv2, Hv.
Qed.

Lemma data_times ws d :
  busy (view d) = 0%nat → input (view d) = ws → smooth (length ws) →
  ∃ d', io_times (length ws) (read_port 16 PORT_DATA) d = Some (Ret (ws, d')) ∧
    view d' = set_busy 0 (set_input [] (view d)).
Proof.
  revert d. induction ws as [|w ws IH]; intros d Hz Hi Hs.
  { exists d. split; [done|]. rewrite <- Hi. by rewrite set_busy_idle. }
  destruct (read_data_ok d w ws Hz Hi Hs) as [Hw Hv].
  destruct (IH (port_in 16 PORT_DATA d).2) as (d2 & E2 & Hv2);
    [by rewrite Hv..|eapply smooth_le; [exact Hs|cbn; lia]|].
  exists d2. split; [|by rewrite Hv2, Hv]. eapply times_succ; [|exact E2].
  by rewrite read_some, Hw.
Qed.

(** The identification words, read after the command. *)
Lemma identify_words_ok failed other fuel d :
  busy (view d) = 0%nat → lba1 (view d) = 0 → lba2 (view d) = 0 →
  length (ident (view d) (ata_drive (view d))) = 256%nat → (delay + 2 ≤ fuel)%nat →
  ∃ d1 d2, identify_loop failed other fuel true (port_out 8 PORT_COMMAND 0xEC d) = Some (Ret (true, d1)) ∧
    io_times 256 (read_port 16 PORT_DATA) d1 = Some (Ret (ident (view d) (ata_drive (view d)), d2)) ∧
    contents (view d2) = contents (view d) ∧ ident (view d2) = ident (view d) ∧ busy (view d2) = 0%nat.
Proof.
  intros Hz Hr1 Hr2 Hl Hf. destruct (law_command 0xEC d Hz) as (b & Hb & Hc). set (dc := port_out 8 PORT_COMMAND 0xEC d) in *.
  assert (view dc = set_input (ident (view d) (ata_drive (view d))) (set_busy b (view d))) as Hd by exact Hc.
  destruct (identify_loop_ok failed other fuel true dc) as (d1 & E1 & Hv1); [by rewrite Hd..| |rewrite Hd; cbn; lia|].
  { rewrite Hd. cbn. intros E0. by rewrite E0 in Hl. }
  rewrite Hd in Hv1. destruct (data_times (ident (view d) (ata_drive (view d))) d1) as (d2 & E2 & Hv2);
    [by rewrite Hv1..|right; lia|].
  rewrite Hl in E2. exists d1, d2. split; [done|]. split; [done|]. by rewrite Hv2, Hv1.
Qed.

Lemma identify_ok fuel drive p d :
  busy (view d) = 0%nat → drive = 0 ∨ drive = 1 → length (ident (view d) drive) = 256%nat →
  drive_properties (ident (view d) drive) = Some p → (delay + 2 ≤ fuel)%nat →
  ∃ d', identify fuel drive d = Some (Ret (Some p, d')) ∧
    contents (view d') = contents (view d) ∧ ident (view d') = ident (view d) ∧ busy (view d') = 0%nat.
Proof.
  intros Hz Hd Hl Hp Hf. unfold identify.
  rewrite (bind_some _ _ _ _ _ (assert_true _ _ _ (proj2 (Z.leb_le drive 1) ltac:(lia)))).
  do 4 rewrite (bind_some _ _ _ _ _ (write_some _ _ _ _)). unfold send_command.
  set (d0 := port_out 8 PORT_LBA2 _ _).
  assert (view d0 = set_lba2 0 (set_lba1 0 (set_lba0 0 (set_select (if drive =? 0 then 0xa0 else 0xb0) (view d))))) as Hv.
  { unfold d0. rewrite law_lba2; rewrite ?law_lba1; rewrite ?law_lba0; rewrite ?law_select; done. }
  assert (ata_drive (view d0) = drive) as Hdr by (rewrite Hv; by destruct Hd as [-> | ->]).
  rewrite (bind_some _ _ _ _ _ (write_some _ _ _ _)).
  destruct (identify_words_ok "ATA_PIO: Drive controller error on IDENTIFY" "ATA_PIO: Not an ATA drive" fuel d0)
    as (d1 & d2 & E1 & E2 & Hc & Hi & Hz2); [by rewrite Hv..|by rewrite Hdr, Hv|done|].
  rewrite (bind_some _ _ _ _ _ E1), (bind_some _ _ _ _ _ E2), Hdr. exists d2.
  split; [|by rewrite Hc, Hi, Hz2, Hv].
  rewrite Hv. cbn [ident set_lba2 set_lba1 set_lba0 set_select].
  unfold mbind at 1, io_bind at 1, io_lift. by rewrite Hp.
Qed.

(** [AtaPio::new] finds both drives, with the capacities they report, and changes no sector. *)
Theorem ata_new_finds fuel p0 p1 d :
  (∀ drive, drive = 0 ∨ drive = 1 → length (ident (view d) drive) = 256%nat) →
  drive_properties (ident (view d) 0) = Some p0 → drive_properties (ident (view d) 1) = Some p1 →
  (delay + 2 ≤ fuel)%nat →
  ∃ d', AtaPio_new fuel d = Some (Ret ([p0; p1], d')) ∧ contents (view d') = contents (view d).
Proof.
  intros Hl Hp0 Hp1 Hf. unfold AtaPio_new. destruct (reset_drives_ok fuel d) as (d1 & E1 & Hv1); [lia|].
  rewrite (bind_some _ _ _ _ _ E1). destruct (identify_ok fuel 0 p0 d1) as (d2 & E2 & Hc2 & Hi2 & Hz2).
  { by rewrite Hv1. } { by left. } { rewrite Hv1. apply Hl. by left. } { by rewrite Hv1. } { done. }
  rewrite (bind_some _ _ _ _ _ E2). destruct (identify_ok fuel 1 p1 d2) as (d3 & E3 & Hc3 & _).
  { done. } { by right. } { rewrite Hi2, Hv1. apply Hl. by right. } { by rewrite Hi2, Hv1. } { done. }
  rewrite (bind_some _ _ _ _ _ E3). exists d3. split; [done|]. by rewrite Hc3, Hc2, Hv1.
Qed.

End identify.

End props.

(** A write request for drive 0 arrives at the first subscription of the second list behind [any],
    whose index [select!] takes for one of the first list: the driver indexes [drive_read] out of
    bounds and panics, whatever the request is. *)
Theorem ata_write_misrouted `{!Device} fuel drives request (d : Dev) :
  ∃ why, ata_round fuel drives (1 + length drives) request d = Some (Panic why).
Proof.
  unfold ata_round, drive_count. unfold mbind at 1, io_bind at 1, io_lift at 1.
  rewrite select_misroutes. cbn [mbind outcome_bind].
  assert (∃ why, index_at drives (length drives) = Panic why) as [why Hw].
  { unfold index_at. rewrite (lookup_ge_None_2 drives) by done. by eexists. }
  exists why. destruct request; unfold mbind at 1, io_bind at 1, io_lift at 1; by rewrite Hw.
Qed.

(** ** A drive that keeps the laws

    It is busy for six polls after each command and for three after a sector.  While it is busy it
    ignores what is written, and the data port shows ones. *)

Definition drive_in (width port : Z) (a : Ata) : Z * Ata :=
  if ((port =? PORT_COMMAND) || (port =? PORT_DEV_CTRL))%bool then
    (if (busy a =? 0)%nat then 0x48 else 0x80, set_busy (pred (busy a)) a)
  else if negb (busy a =? 0)%nat then (0xffff, a)
  else if port =? PORT_DATA then
    match input a with [] => (0xffff, a) | w :: ws => (w, set_busy (read_pause 3 ws) (set_input ws a)) end
  else if port =? PORT_LBA1 then (lba1 a, a)
  else if port =? PORT_LBA2 then (lba2 a, a)
  else (0, a).

Definition drive_out (width port v : Z) (a : Ata) : Ata :=
  if port =? PORT_DEV_CTRL then set_busy 6 a
  else if negb (busy a =? 0)%nat then a
  else if port =? PORT_DRIVESELECT then set_select v a
  else if port =? PORT_SECCOUNT then set_count v a
  else if port =? PORT_LBA0 then set_lba0 v a
  else if port =? PORT_LBA1 then set_lba1 v a
  else if port =? PORT_LBA2 then set_lba2 v a
  else if port =? PORT_COMMAND then ata_start 6 v a
  else if port =? PORT_DATA then set_busy (write_pause 3 (want a)) (ata_accept v a)
  else a.

Definition ref_drive : Device := {| Dev := Ata; port_in := drive_in; port_out := drive_out |}.

#[local] Existing Instance ref_drive.

#[local] Program Instance ref_drive_laws : AtaLaws := {| view := id; delay := 6; sector_delay := 3 |}.
Next Obligation. intros v d Hz. cbn in *. unfold drive_out. cbn. by rewrite Hz. Qed.
Next Obligation. intros v d Hz. cbn in *. unfold drive_out. cbn. by rewrite Hz. Qed.
Next Obligation. intros v d Hz. cbn in *. unfold drive_out. cbn. by rewrite Hz. Qed.
Next Obligation. intros v d Hz. cbn in *. unfold drive_out. cbn. by rewrite Hz. Qed.
Next Obligation. intros v d Hz. cbn in *. unfold drive_out. cbn. by rewrite Hz. Qed.
Next Obligation. intros c d Hz. exists 6%nat. split; [done|]. cbn in *. unfold drive_out. cbn. by rewrite Hz. Qed.
Next Obligation. intros d. cbn. split; [|done]. by destruct (busy d). Qed.
Next Obligation.
  intros d w ws Hz E. cbn in *. unfold drive_in. cbn. rewrite Hz, E. cbn. split; [done|]. by eexists.
Qed.
Next Obligation. intros w d Hz. cbn in *. unfold drive_out. cbn. rewrite Hz. by eexists. Qed.

#[local] Program Instance ref_drive_identify : IdentifyLaws.
Next Obligation. intros v d. exists 6%nat. by split. Qed.
Next Obligation. intros d. cbn. split; [|done]. by destruct (busy d). Qed.
Next Obligation. intros d Hz. cbn in *. unfold drive_in. cbn. by rewrite Hz. Qed.
Next Obligation. intros d Hz. cbn in *. unfold drive_in. cbn. by rewrite Hz. Qed.
Next Obligation. intros d. cbn. by destruct (busy d). Qed.

Definition blank_drive : @Dev ref_drive := MkAta 0 0 0 0 0 0 [] 0 [] (λ _ _, repeat 0 SECTOR_SIZE) (λ _, []).

Lemma blank_ok : sectors_ok (contents (view blank_drive)).
Proof. intros dr l. split; [done|]. apply (bool_decide_unpack _). vm_compute. exact I. Qed.

Lemma ata_write_read_witness :
  ∃ d1 d2, write_lba 9 1 0x1234567 (repeat 7 SECTOR_SIZE) blank_drive = Some (Ret (tt, d1)) ∧
    read_lba 9 1 0x1234567 1 (set_busy 0 d1) = Some (Ret (repeat 7 SECTOR_SIZE, d2)).
Proof.
  destruct (ata_write_read 9 1 0x1234567 1 (repeat 7 SECTOR_SIZE) blank_drive) as (d1 & E1 & _ & _ & Hr).
  - reflexivity.
  - by left.
  - lia.
  - lia.
  - lia.
  - done.
  - apply (bool_decide_unpack _). vm_compute. exact I.
  - exact blank_ok.
  - cbn. lia.
  - destruct (Hr (set_busy 0 d1)) as (d2 & E2 & _); [lia|done|]. exists d1, d2. by split.
Defined.

Lemma ata_read_exact_witness :
  (∃ d', read_lba 9 0 5 1 blank_drive = Some (Ret (repeat 0 SECTOR_SIZE, d'))) ∧
  ∃ why, read_lba 9 0 0x8000000 1 blank_drive = Some (Panic why).
Proof.
  assert (delay < 9)%nat as Hf by (cbn; lia). assert (busy (view blank_drive) = 0%nat) as Hz by reflexivity. split.
  - destruct (ata_read_exact 9 0 5 1 blank_drive Hz (or_introl eq_refl) ltac:(lia) ltac:(lia) ltac:(lia) blank_ok Hf)
      as (d' & E & _). by exists d'.
  - exact (ata_read_exact 9 0 0x8000000 1 blank_drive Hz (or_introl eq_refl) ltac:(lia) ltac:(lia) ltac:(lia) blank_ok Hf).
Defined.

(** The driver polls before the first sector of a command only, and not before it gives a command.
    From this drive, it takes the pause behind the first of two sectors for data; and a read right
    after a write is lost, because the drive still stores the sector. *)
Theorem ata_pauses_not_awaited :
  match read_lba 9 0 5 2 blank_drive with
  | Some (Ret (bytes, _)) => bytes = repeat 0 SECTOR_SIZE ++ repeat 0xff SECTOR_SIZE
  | _ => False
  end ∧
  match (_ ← write_lba 9 0 5 (repeat 7 SECTOR_SIZE); read_lba 9 0 5 1) blank_drive with
  | Some (Ret (bytes, _)) => bytes = repeat 0xff SECTOR_SIZE
  | _ => False
  end.
Proof. split; vm_compute; reflexivity. Qed.
