(* ===== verification/Pci.v ===== *)
(** * Pci: the PCI library and driver (libs/d7pci, modules/driver_pci)

    Configuration space is read through two ports, so everything here is an action on a [Device];
    what the ports show is [config], from addresses to 32-bit words.  The recursion over buses runs
    on fuel, and the theorems show that 256 is enough for buses numbered as the standard demands.
    The table [pci_devices.json] and the start of drivers are values; serde's parser is left out. *)

From stdpp Require Import base list strings gmap functions.
From Stdlib Require Import ZArith Lia.
From S2P Require Import Prelude Bytes PortIo.
Open Scope Z_scope.

(** ** device.rs, util.rs *)

(** Bus, device, function *)
Record DeviceLocation := Loc { loc_bus : Z; loc_dev : Z; loc_func : Z }.
Record DeviceClass := Cls { class0 : Z; class1 : Z; class2 : Z }.
Record PciDevice := MkPciDevice { id : Z; vendor : Z; location : DeviceLocation; class : DeviceClass }.

#[global] Instance DeviceLocation_eq_dec : EqDecision DeviceLocation.
Proof. solve_decision. Defined.
#[global] Instance DeviceClass_eq_dec : EqDecision DeviceClass.
Proof. solve_decision. Defined.
#[global] Instance PciDevice_eq_dec : EqDecision PciDevice.
Proof. solve_decision. Defined.

Definition CONFIG_ADDR : Z := 0xCF8.
Definition CONFIG_DATA : Z := 0xCFC.

Definition config_address (loc : DeviceLocation) (offset : Z) : Z :=
  Z.lor (Z.lor (Z.lor (Z.lor (Z.shiftl (loc_bus loc) 16) (Z.shiftl (loc_dev loc) 11))
    (Z.shiftl (loc_func loc) 8)) offset) 0x80000000.

Section library.
Context `{!Device}.

Definition pci_read_device (loc : DeviceLocation) (offset : Z) : IO Z :=
  _ ← io_assert (offset mod 4 =? 0) "offset must be 4-byte aligned";
  _ ← write_port 32 CONFIG_ADDR (config_address loc offset);
  read_port 32 CONFIG_DATA.

Definition pci_write_device (loc : DeviceLocation) (offset value : Z) : IO unit :=
  _ ← io_assert (offset mod 4 =? 0) "offset must be 4-byte aligned";
  _ ← write_port 32 CONFIG_ADDR (config_address loc offset);
  write_port 32 CONFIG_DATA value.

Definition Device_read (self : PciDevice) (offset : Z) : IO Z := pci_read_device (location self) offset.
Definition Device_write (self : PciDevice) (offset value : Z) : IO unit :=
  pci_write_device (location self) offset value.

Definition read_u16 (self : PciDevice) (offset : Z) : IO Z :=
  _ ← io_assert (Z.land offset 1 =? 0) "Must align at u16 boundary";
  data ← pci_read_device (location self) (Z.land offset 0xfc);
  mret (Z.land (Z.shiftr data (Z.land offset 1)) 0xffff).

Definition read_u8 (self : PciDevice) (offset : Z) : IO Z :=
  data ← pci_read_device (location self) (Z.land offset 0xfc);
  mret (Z.land (Z.shiftr data (8 * Z.land offset 3)) 0xff).

Definition status (self : PciDevice) : IO Z :=
  v ← Device_read self 0x04; mret (Z.shiftr v 16).

Fixpoint capabilities_loop {T} (fuel : nat) (self : PciDevice) (cap_type : Z)
    (f : PciDevice → Z → IO T) (cap_addr : Z) (result : list T) : IO (list T) :=
  match fuel with
  | O => λ _, None
  | S fuel =>
      if cap_addr =? 0 then mret result
      else
        item_type ← read_u8 self cap_addr;
        item_size ← read_u8 self ((cap_addr + 2) mod 256);
        result ← (if item_type =? cap_type then t ← f self cap_addr; mret (result ++ [t]) else mret result);
        next ← read_u8 self ((cap_addr + 1) mod 256);
        capabilities_loop fuel self cap_type f next result
  end.

Definition read_capabilities {T} (fuel : nat) (self : PciDevice) (cap_type : Z)
    (f : PciDevice → Z → IO T) : IO (list T) :=
  st ← status self;
  _ ← io_assert (negb (Z.land st (Z.shiftl 1 4) =? 0)) "Capabilities not availble";
  v ← Device_read self 0x34;
  capabilities_loop fuel self cap_type f (Z.land v 0xfc) [].

Definition subsystem_id (self : PciDevice) : IO Z :=
  v ← Device_read self 0x2c; mret (Z.shiftr v 16).

Definition get_bar (self : PciDevice) (i : Z) : IO Z :=
  _ ← io_assert (i <? 6) "assertion failed: i < 6";
  Device_read self (0x10 + 4 * i).

Definition get_interrupt_line (self : PciDevice) : IO (option Z) :=
  line ← read_u8 self 0x3c;
  mret (if line =? 0xff then None else Some line).

Definition get_interrupt_pin (self : PciDevice) : IO (option Z) :=
  pin ← read_u8 self 0x3d;
  if pin =? 0 then mret None
  else if 4 <? pin then io_panic "Interrupt pin value invalid"
  else mret (Some pin).

Definition enable_bus_mastering (self : PciDevice) : IO unit :=
  v ← Device_read self 0x04;
  Device_write self 0x04 (Z.lor v (Z.shiftl 1 2)).

(** ** scan.rs *)

Definition get_vendor_id (loc : DeviceLocation) : IO Z :=
  v ← pci_read_device loc 0x0; mret (Z.land v 0xffff).

Definition get_device_id (loc : DeviceLocation) : IO Z :=
  v ← pci_read_device loc 0x0; mret (Z.shiftr (Z.land v 0xffff0000) 16).

Definition get_devclass (loc : DeviceLocation) : IO DeviceClass :=
  d ← pci_read_device loc 0x8;
  mret (Cls (Z.shiftr (Z.land d 0xff000000) 24) (Z.shiftr (Z.land d 0xff0000) 16) (Z.shiftr (Z.land d 0xff00) 8)).

Definition get_header_type (loc : DeviceLocation) : IO Z :=
  v ← pci_read_device loc 0xc; mret (Z.shiftr (Z.land v 0xff0000) 16).

Definition get_secondary_bus (loc : DeviceLocation) : IO Z :=
  v ← pci_read_device loc 0x18; mret (Z.shiftr (Z.land v 0xff00) 8).

(** [for x in l { result.extend(f(x)) }] *)
Fixpoint collect {A B} (f : A → IO (list B)) (l : list A) : IO (list B) :=
  match l with
  | [] => mret []
  | x :: l => r ← f x; rs ← collect f l; mret (r ++ rs)
  end.

Section scan.
Context (check_bus : Z → IO (list PciDevice)).

Definition check_function (loc : DeviceLocation) : IO (list PciDevice) :=
  dc ← get_devclass loc;
  i ← get_device_id loc;
  v ← get_vendor_id loc;
  let result := [MkPciDevice i v loc dc] in
  if (class0 dc =? 0x06) && (class1 dc =? 0x04) then
    secondary_bus ← get_secondary_bus loc;
    rest ← check_bus secondary_bus;
    mret (result ++ rest)
  else mret result.

Definition check_device (bus dev : Z) : IO (list PciDevice) :=
  vendor_id ← get_vendor_id (Loc bus dev 0);
  if vendor_id =? 0xffff then mret []
  else
    result ← check_function (Loc bus dev 0);
    header_type ← get_header_type (Loc bus dev 0);
    if Z.land header_type 0x80 =? 0 then mret result
    else
      rest ← collect (λ f,
        v ← get_vendor_id (Loc bus dev f);
        if v =? 0xffff then mret [] else check_function (Loc bus dev f)) (seqZ 1 8);
      mret (result ++ rest).

End scan.

Fixpoint check_bus (fuel : nat) (bus : Z) : IO (list PciDevice) :=
  match fuel with
  | O => λ _, None
  | S fuel => collect (check_device (check_bus fuel) bus) (seqZ 0 33)
  end.

(** The loop over the host controllers, one bus each. *)
Fixpoint host_loop (fuel : nat) (funcs : list Z) (result : list PciDevice) : IO (list PciDevice) :=
  match funcs with
  | [] => mret result
  | func :: funcs =>
      v ← get_vendor_id (Loc 0 0 func);
      if negb (v =? 0xffff) then mret result
      else
        r ← check_bus fuel func;
        host_loop fuel funcs (result ++ r)
  end.

Definition list_devices (fuel : nat) : IO (list PciDevice) :=
  header_type ← get_header_type (Loc 0 0 0);
  if Z.land header_type 0x80 =? 0 then check_bus fuel 0
  else host_loop fuel (seqZ 0 9) [].

End library.

(** ** driver_pci *)

Record ConfigDeviceDriver := MkDriver { from_initrd : bool; executable : string }.
Record ConfigDevice := MkConfigDevice {
  shortname : option string; config_name : string; driver : option ConfigDeviceDriver;
}.

Definition hex_digit (n : Z) : string :=
  nth (Z.to_nat n) ["0"; "1"; "2"; "3"; "4"; "5"; "6"; "7"; "8"; "9"; "a"; "b"; "c"; "d"; "e"; "f"]%string ""%string.

(** [{:x}], of a number below [16 ^ S n] *)
Fixpoint hex (n : nat) (v : Z) : string :=
  match n with
  | O => hex_digit v
  | S n => if v <? 16 then hex_digit v else hex n (v / 16) +:+ hex_digit (v mod 16)
  end.

Definition vendor_and_id (d : PciDevice) : string := hex 3 (vendor d) +:+ ":" +:+ hex 3 (id d).

Section pci_driver.
Context (config_devices : gmap string ConfigDevice).

(** The executables started for the devices, in order; [spawn] is not refused. *)
Fixpoint start_drivers (devices : list PciDevice) : outcome (list string) :=
  match devices with
  | [] => Ret []
  | device :: devices =>
      match config_devices !! vendor_and_id device ≫= driver with
      | Some driver =>
          _ ← rassert (from_initrd driver) "Non-initrd executables are not supported yet";
          rest ← start_drivers devices;
          Ret (executable driver :: rest)
      | None => start_drivers devices
      end
  end.

Definition device_matches (name : string) (device : PciDevice) : bool :=
  bool_decide (name = vendor_and_id device) ||
  match config_devices !! vendor_and_id device with
  | Some device_config =>
      bool_decide (name = config_name device_config) || bool_decide (Some name = shortname device_config)
  | None => false
  end.

(** The answer of [pci/device]. *)
Fixpoint find_device (devices : list PciDevice) (name : string) : option PciDevice :=
  match devices with
  | [] => None
  | device :: devices => if device_matches name device then Some device else find_device devices name
  end.

End pci_driver.

(** ** What the registers say *)

(** A machine's configuration space. *)
Definition cfg_space := Z → Z.

Definition vendor_of (c : cfg_space) (loc : DeviceLocation) : Z := c (config_address loc 0) mod 2 ^ 16.
Definition present (c : cfg_space) (loc : DeviceLocation) : Prop := vendor_of c loc ≠ 0xffff.
Definition byte_of (c : cfg_space) (loc : DeviceLocation) (offset k : Z) : Z :=
  (c (config_address loc offset) / 2 ^ k) mod 256.
Definition multi_function (c : cfg_space) (loc : DeviceLocation) : bool :=
  negb (Z.land (byte_of c loc 0xc 16) 0x80 =? 0).
Definition bridge (c : cfg_space) (loc : DeviceLocation) : bool :=
  (byte_of c loc 8 24 =? 6) && (byte_of c loc 8 16 =? 4).
Definition secondary (c : cfg_space) (loc : DeviceLocation) : Z := byte_of c loc 0x18 8.
Definition described (c : cfg_space) (loc : DeviceLocation) : PciDevice :=
  MkPciDevice (c (config_address loc 0) / 2 ^ 16) (vendor_of c loc) loc
    (Cls (byte_of c loc 8 24) (byte_of c loc 8 16) (byte_of c loc 8 8)).

(** A function of a device on the bus: function 0, or another of a device that says it has them. *)
Definition on_bus (c : cfg_space) (bus dev f : Z) : Prop :=
  0 ≤ dev < 32 ∧ 0 ≤ f < 8 ∧ present c (Loc bus dev 0) ∧ present c (Loc bus dev f) ∧
  (f = 0 ∨ multi_function c (Loc bus dev 0) = true).

(** What a bus leads to. *)
Inductive attached (c : cfg_space) : Z → DeviceLocation → Prop :=
| attached_here bus dev f : on_bus c bus dev f → attached c bus (Loc bus dev f)
| attached_bridge bus dev f loc :
    on_bus c bus dev f → bridge c (Loc bus dev f) = true →
    attached c (secondary c (Loc bus dev f)) loc → attached c bus loc.

(** The space is read through the two ports, and reading changes nothing of it. *)
Class PciLaws `{!Device} := {
  config : Dev → cfg_space;
  law_word d a : 0 ≤ config d a < 2 ^ 32;
  law_config a d : (port_in 32 CONFIG_DATA (port_out 32 CONFIG_ADDR a d)).1 = config d a ∧
    config (port_in 32 CONFIG_DATA (port_out 32 CONFIG_ADDR a d)).2 = config d;
}.

(** Buses behind bridges have larger numbers than the bridge's, as far as the scan looks. *)
Definition buses_numbered (c : cfg_space) : Prop :=
  ∀ bus dev f, 0 ≤ bus < 256 → 0 ≤ dev ≤ 32 → 0 ≤ f ≤ 8 → present c (Loc bus dev f) →
    bridge c (Loc bus dev f) = true → bus < secondary c (Loc bus dev f).

Section props.
Context `{!Device} `{!PciLaws}.

(** The action returns a value with the property and leaves the space as it was. *)
Definition finds {A} (c : cfg_space) (m : IO A) (P : A → Prop) : Prop :=
  acts config c m (λ a c', c' = c ∧ P a).

Lemma finds_ret {A} c (a : A) (P : A → Prop) : P a → finds c (mret a) P.
Proof. intros HP. by apply acts_ret. Qed.

Lemma finds_bind {A B} c (m : IO A) (k : A → IO B) P Q :
  finds c m P → (∀ a, P a → finds c (k a) Q) → finds c (m ≫= k) Q.
Proof. intros Hm Hk. eapply acts_bind; [exact Hm|]. intros a ? [-> HP]. by apply Hk. Qed.

Lemma finds_read c loc offset :
  offset mod 4 = 0 →
  finds c (pci_read_device loc offset) (λ v, v = c (config_address loc offset) ∧ 0 ≤ v < 2 ^ 32).
Proof.
  intros Ho. apply acts_assert; [by apply Z.eqb_eq|]. intros d Hd.
  rewrite (bind_some _ _ _ _ _ (write_some _ _ _ _)), read_some.
  destruct (law_config (config_address loc offset) d) as [Hv Hc]. rewrite Hv.
  eexists _, _. split; [done|]. rewrite Hc, Hd. split; [done|]. split; [done|]. rewrite <- Hd. apply law_word.
Qed.

(** A register read and a value taken from it. *)
Lemma finds_field {A} c loc offset (g : Z → A) (want : A) :
  offset mod 4 = 0 → (0 ≤ c (config_address loc offset) < 2 ^ 32 → g (c (config_address loc offset)) = want) →
  finds c (v ← pci_read_device loc offset; mret (g v)) (λ r, r = want).
Proof.
  intros Ho Hg. eapply finds_bind; [by apply finds_read|]. intros v [-> Hv]. apply finds_ret. by apply Hg.
Qed.

Lemma finds_vendor c loc : finds c (get_vendor_id loc) (λ v, v = vendor_of c loc).
Proof. apply finds_field; [done|]. intros _. unfold vendor_of. change 0xffff with (Z.ones 16). by rewrite Z.land_ones. Qed.

Lemma finds_device_id c loc : finds c (get_device_id loc) (λ v, v = c (config_address loc 0) / 2 ^ 16).
Proof.
  apply finds_field; [done|]. intros Hv. rewrite Z.shiftr_land, Z.shiftr_div_pow2 by lia.
  change (Z.shiftr 0xffff0000 16) with (Z.ones 16). rewrite Z.land_ones by lia. apply Z.mod_small.
  split; [apply Z.div_pos; lia|]. apply Z.div_lt_upper_bound; lia.
Qed.

Lemma finds_devclass c loc :
  finds c (get_devclass loc) (λ v, v = Cls (byte_of c loc 8 24) (byte_of c loc 8 16) (byte_of c loc 8 8)).
Proof.
  apply finds_field; [done|]. intros _. unfold byte_of.
  change 0xff000000 with (Z.shiftl 255 24). change 0xff0000 with (Z.shiftl 255 16). change 0xff00 with (Z.shiftl 255 8).
  by rewrite !byte_of_land by lia.
Qed.

Lemma finds_header c loc : finds c (get_header_type loc) (λ v, v = byte_of c loc 0xc 16).
Proof. apply finds_field; [done|]. intros _. change 0xff0000 with (Z.shiftl 255 16). by rewrite byte_of_land. Qed.

Lemma finds_secondary c loc : finds c (get_secondary_bus loc) (λ v, v = secondary c loc).
Proof. apply finds_field; [done|]. intros _. change 0xff00 with (Z.shiftl 255 8). by rewrite byte_of_land. Qed.

Lemma finds_collect {A B} c (f : A → IO (list B)) l (P : A → list B → Prop) :
  (∀ x, x ∈ l → finds c (f x) (P x)) →
  finds c (collect f l) (λ r, (∀ y, y ∈ r → ∃ x ys, x ∈ l ∧ P x ys ∧ y ∈ ys) ∧
    ∀ x, x ∈ l → ∃ ys, P x ys ∧ ys ⊆ r).
Proof.
  induction l as [|x l IH]; intros Hf.
  { apply finds_ret. split; [by intros y Hy%elem_of_nil|by intros x Hx%elem_of_nil]. }
  cbn [collect]. eapply finds_bind; [apply Hf; set_solver|]. intros r Hr.
  eapply finds_bind; [apply IH; intros; apply Hf; set_solver|]. intros rs [H1 H2].
  apply finds_ret. split.
  - intros y [Hy|Hy]%elem_of_app; [exists x, r; set_solver|]. destruct (H1 y Hy) as (x' & ys & ? & ? & ?).
    exists x', ys. set_solver.
  - intros x' [->|Hx]%elem_of_cons; [exists r; set_solver|]. destruct (H2 x' Hx) as (ys & ? & ?).
    exists ys. set_solver.
Qed.

(** Every device listed is as its registers say. *)
Definition listing_sound (c : cfg_space) (devs : list PciDevice) : Prop :=
  ∀ dv, dv ∈ devs → dv = described c (location dv) ∧ present c (location dv).

Definition bus_listing (c : cfg_space) (bus : Z) (devs : list PciDevice) : Prop :=
  listing_sound c devs ∧ ∀ loc, attached c bus loc → described c loc ∈ devs.

Definition function_listing (c : cfg_space) (loc : DeviceLocation) (devs : list PciDevice) : Prop :=
  listing_sound c devs ∧ described c loc ∈ devs ∧
  (bridge c loc = true → ∀ loc', attached c (secondary c loc) loc' → described c loc' ∈ devs).

Lemma finds_weaken {A} c (m : IO A) (P Q : A → Prop) : finds c m P → (∀ a, P a → Q a) → finds c m Q.
Proof. intros Hm HQ. eapply acts_weaken; [exact Hm|]. intros a c' [? ?]. auto. Qed.

Section one_bus.
Context (c : cfg_space) (cb : Z → IO (list PciDevice)) (bus : Z).
Hypothesis Hcb : ∀ dev f, 0 ≤ dev ≤ 32 → 0 ≤ f ≤ 8 → present c (Loc bus dev f) →
  bridge c (Loc bus dev f) = true →
  finds c (cb (secondary c (Loc bus dev f))) (bus_listing c (secondary c (Loc bus dev f))).

Lemma finds_function dev f :
  0 ≤ dev ≤ 32 → 0 ≤ f ≤ 8 → present c (Loc bus dev f) →
  finds c (check_function cb (Loc bus dev f)) (function_listing c (Loc bus dev f)).
Proof.
  intros Hd Hf Hp. unfold check_function. set (loc := Loc bus dev f) in *.
  eapply finds_bind; [apply finds_devclass|]. intros ? ->.
  eapply finds_bind; [apply finds_device_id|]. intros ? ->.
  eapply finds_bind; [apply finds_vendor|]. intros ? ->. cbn [class0 class1].
  change (MkPciDevice _ _ _ _) with (described c loc). fold (bridge c loc). destruct (bridge c loc) eqn:Hb.
  - eapply finds_bind; [apply finds_secondary|]. intros ? ->.
    eapply finds_bind; [by apply Hcb|]. intros r [Hs Ha]. apply finds_ret. split; [|split].
    + intros dv [->%list_elem_of_singleton|Hdv]%elem_of_app; [by split|auto].
    + set_solver.
    + intros _ loc' Hl. apply elem_of_app. auto.
  - apply finds_ret. split; [|split; [set_solver|congruence]]. by intros dv ->%list_elem_of_singleton.
Qed.

Lemma multi_function_test loc :
  (Z.land (byte_of c loc 0xc 16) 0x80 =? 0) = negb (multi_function c loc).
Proof. unfold multi_function. by rewrite negb_involutive. Qed.

(** What the visit of a device lists: all its functions and what is behind them. *)
Definition device_listing (dev : Z) (devs : list PciDevice) : Prop :=
  listing_sound c devs ∧ ∀ f, on_bus c bus dev f →
    ∃ devs', devs' ⊆ devs ∧ function_listing c (Loc bus dev f) devs'.

Lemma finds_device dev : 0 ≤ dev ≤ 32 → finds c (check_device cb bus dev) (device_listing dev).
Proof.
  intros Hd. unfold check_device. eapply finds_bind; [apply finds_vendor|]. intros ? ->.
  destruct (Z.eqb_spec (vendor_of c (Loc bus dev 0)) 0xffff) as [Hv|Hv].
  { apply finds_ret. split; [by intros ? ?%elem_of_nil|]. by intros f (_ & _ & Hp & _). }
  eapply finds_bind; [by apply finds_function; [lia..|]|]. intros r Hr.
  eapply finds_bind; [apply finds_header|]. intros ? ->. rewrite multi_function_test.
  destruct (multi_function c (Loc bus dev 0)) eqn:Hm; cbn [negb].
  2:{ apply finds_ret. split; [apply Hr|]. intros f (_ & _ & _ & _ & [->|?]); [|congruence]. by exists r. }
  eapply finds_bind; [apply (finds_collect _ _ _ (λ f ys, listing_sound c ys ∧
    (present c (Loc bus dev f) → function_listing c (Loc bus dev f) ys)))|].
  - intros f Hf%elem_of_seqZ. eapply finds_bind; [apply finds_vendor|]. intros ? ->.
    destruct (Z.eqb_spec (vendor_of c (Loc bus dev f)) 0xffff) as [Hf'|Hf'].
    + apply finds_ret. split; [by intros ? ?%elem_of_nil|done].
    + eapply finds_weaken; [by apply finds_function; [lia..|]|]. intros ys Hys. split; [apply Hys|done].
  - intros rs [H1 H2]. apply finds_ret. split.
    + intros dv [Hdv|Hdv]%elem_of_app; [by apply Hr|]. destruct (H1 dv Hdv) as (f & ys & _ & [Hs _] & Hin). auto.
    + intros f (_ & Hf & _ & Hp & _). destruct (decide (f = 0)) as [->|]; [exists r; set_solver|].
      destruct (H2 f) as (ys & [_ Hys] & Hsub); [apply elem_of_seqZ; lia|]. exists ys. set_solver.
Qed.

Lemma finds_bus : finds c (collect (check_device cb bus) (seqZ 0 33)) (bus_listing c bus).
Proof.
  eapply finds_weaken; [apply (finds_collect _ _ _ device_listing)|].
  { intros dev Hd%elem_of_seqZ. apply finds_device. lia. }
  intros r [H1 H2]. split.
  { intros dv Hdv. destruct (H1 dv Hdv) as (dev & ys & _ & [Hs _] & Hin). auto. }
  assert (∀ dev f, on_bus c bus dev f → ∃ devs', devs' ⊆ r ∧ function_listing c (Loc bus dev f) devs') as Hall.
  { intros dev f Ho. destruct (H2 dev) as (ys & [_ Hys] & Hsub); [apply elem_of_seqZ; destruct Ho; lia|].
    destruct (Hys f Ho) as (devs' & ? & ?). exists devs'. set_solver. }
  intros loc Hl. remember bus as b eqn:Eb. destruct Hl as [b dev f Ho|b dev f loc Ho Hb Hl]; subst b;
    destruct (Hall dev f Ho) as (devs' & Hsub & _ & Hin & Hbr); apply Hsub; auto.
Qed.

End one_bus.

Lemma secondary_byte c loc : 0 ≤ secondary c loc < 256.
Proof. apply Z.mod_pos_bound. lia. Qed.

Lemma finds_check_bus c fuel bus :
  buses_numbered c → 0 ≤ bus < 256 → 256 - bus ≤ Z.of_nat fuel →
  finds c (check_bus fuel bus) (bus_listing c bus).
Proof.
  intros Hn. revert bus. induction fuel as [|fuel IH]; intros bus Hb Hf; [lia|]. cbn [check_bus].
  apply finds_bus. intros dev f Hd Hf' Hp Hbr. pose proof (secondary_byte c (Loc bus dev f)).
  specialize (Hn bus dev f Hb Hd Hf' Hp Hbr). apply IH; lia.
Qed.

(** C36: the scan ends, and lists what is there: when the host controller is the only one and buses
    are numbered upwards from it, [list_devices] returns (256 levels are enough), every device of
    the list carries the ids, the class and the location its registers show (the scan also asks for
    devices and functions beyond the last, and lists what answers there), and every function that bus
    0 leads to, through any number of bridges, is in the list. *)
Theorem pci_scan_exact d :
  buses_numbered (config d) → multi_function (config d) (Loc 0 0 0) = false →
  ∃ devs d', list_devices 256 d = Some (Ret (devs, d')) ∧ config d' = config d ∧
    (∀ dv, dv ∈ devs → dv = described (config d) (location dv) ∧ present (config d) (location dv)) ∧
    ∀ loc, attached (config d) 0 loc → described (config d) loc ∈ devs.
Proof.
  intros Hn Hm. assert (finds (config d) (list_devices 256) (bus_listing (config d) 0)) as Hfind.
  { unfold list_devices. eapply finds_bind; [apply finds_header|]. intros ? ->.
    rewrite multi_function_test, Hm. cbn [negb]. by apply finds_check_bus. }
  destruct (Hfind d eq_refl) as (devs & d' & E & Hc & Hl & Ha). by exists devs, d'.
Qed.

(** With several host controllers nothing is found: the loop stops at the first one that exists. *)
Theorem pci_multi_host_none fuel d :
  present (config d) (Loc 0 0 0) → multi_function (config d) (Loc 0 0 0) = true →
  ∃ d', list_devices fuel d = Some (Ret ([], d')).
Proof.
  intros Hp Hm. assert (finds (config d) (list_devices fuel) (λ r, r = [])) as Hfind.
  { unfold list_devices. eapply finds_bind; [apply finds_header|]. intros ? ->.
    rewrite multi_function_test, Hm. cbn [negb]. change (seqZ 0 9) with (0 :: seqZ 1 8). cbn [host_loop].
    eapply finds_bind; [apply finds_vendor|]. intros ? ->.
    rewrite (proj2 (Z.eqb_neq _ _) Hp). by apply finds_ret. }
  destruct (Hfind d eq_refl) as (devs & d' & E & _ & ->). by exists d'.
Qed.

End props.

(** The scan asks for device 32 and function 8, which the address has no bits for: it finds device 0
    of the next bus and function 0 of the next device, once more where they are scanned anyway. *)
Lemma config_address_overlap :
  (∀ offset, config_address (Loc 0 32 0) offset = config_address (Loc 1 0 0) offset) ∧
  (∀ offset, config_address (Loc 0 2 8) offset = config_address (Loc 0 3 0) offset).
Proof. done. Qed.

Section reads.
Context `{!Device} `{!PciLaws}.

(** The shift of [read_u16] drops the low bit of the offset, which the assertion has shown to be 0:
    at offset 2 it returns the word at offset 0. *)
Theorem read_u16_low self d :
  ∃ d', read_u16 self 2 d =
    Some (Ret (config d (config_address (location self) 0) mod 2 ^ 16, d')).
Proof.
  destruct (finds_field (config d) (location self) 0 (λ v, Z.land (Z.shiftr v (Z.land 2 1)) 0xffff)
    (config d (config_address (location self) 0) mod 2 ^ 16) eq_refl) with (d := d) as (v & d' & E & _ & ->).
  - intros _. change (Z.land 2 1) with 0. rewrite Z.shiftr_0_r. change 0xffff with (Z.ones 16). by apply Z.land_ones.
  - done.
  - by exists d'.
Qed.

(** [read_u8] returns the byte at the offset, for all 256 of them. *)
Theorem read_u8_exact self offset d :
  0 ≤ offset < 256 →
  ∃ d', read_u8 self offset d =
    Some (Ret (byte_of (config d) (location self) (offset - offset mod 4) (8 * (offset mod 4)), d')).
Proof.
  intros Ho.
  assert (Z.land offset 0xfc = offset - offset mod 4 ∧ Z.land offset 3 = offset mod 4) as [H1 H2].
  { assert (Forall (λ o, Z.land o 0xfc = o - o mod 4 ∧ Z.land o 3 = o mod 4) (seqZ 0 256)) as Hall
      by (apply (bool_decide_unpack _); vm_compute; exact I).
    rewrite Forall_seqZ in Hall. apply (Hall offset). lia. }
  destruct (finds_field (config d) (location self) (offset - offset mod 4)
    (λ v, Z.land (Z.shiftr v (8 * (offset mod 4))) 0xff)
    (byte_of (config d) (location self) (offset - offset mod 4) (8 * (offset mod 4)))) with (d := d)
    as (v & d' & E & _ & ->).
  - pose proof (Z.div_mod offset 4). replace (offset - offset mod 4) with (offset / 4 * 4) by lia. apply Z_mod_mult.
  - intros _. unfold byte_of. change 0xff with (Z.ones 8).
    rewrite Z.land_ones, Z.shiftr_div_pow2 by (pose proof (Z.mod_pos_bound offset 4); lia). done.
  - done.
  - exists d'. unfold read_u8. by rewrite H1, H2.
Qed.

End reads.

(** The device found is the first one that matches, and none is found only when none does. *)
Lemma find_device_exact table devices name :
  match find_device table devices name with
  | Some device => ∃ before after, devices = before ++ device :: after ∧
      device_matches table name device = true ∧
      Forall (λ x, device_matches table name x = false) before
  | None => Forall (λ x, device_matches table name x = false) devices
  end.
Proof.
  induction devices as [|x devices IH]; cbn [find_device]; [constructor|].
  destruct (device_matches table name x) eqn:Hx; [by exists [], devices|].
  destruct (find_device table devices name) as [device|]; [|by constructor].
  destruct IH as (before & after & -> & Hm & Hb). exists (x :: before), after. split; [done|]. split; [done|].
  by constructor.
Qed.

(** ** A machine with a host controller, a bridge and a network card behind it *)

Definition small_config (a : Z) : Z :=
  let reg := a mod 256 in
  if a / 256 =? 0x800000 then (if reg =? 0 then 0x12378086 else if reg =? 8 then 0x06000002 else 0)
  else if a / 256 =? 0x800008 then
    (if reg =? 0 then 0x00011b36 else if reg =? 8 then 0x06040000 else if reg =? 0x18 then 0x00010100 else 0)
  else if a / 256 =? 0x800100 then (if reg =? 0 then 0x813910ec else if reg =? 8 then 0x02000020 else 0)
  else 0xffffffff.

(** The state is the address written last. *)
Definition small_machine : Device := {|
  Dev := Z;
  port_in := λ _ _ d, (small_config d, d);
  port_out := λ _ port v d, if port =? CONFIG_ADDR then v else d;
|}.

#[local] Existing Instance small_machine.

#[local] Program Instance small_machine_laws : PciLaws := {| config := λ _, small_config |}.
Next Obligation. intros d a. cbn. unfold small_config. repeat case_match; lia. Qed.
Next Obligation. done. Qed.

Lemma address_bus loc n :
  0 ≤ n → Z.testbit (loc_bus loc) n = true → Z.testbit (config_address loc 8 / 256) (n + 8) = true.
Proof.
  intros Hn Hb. change 256 with (2 ^ 8). rewrite Z.div_pow2_bits by lia. unfold config_address.
  rewrite !Z.lor_spec, Z.shiftl_spec by lia. replace (n + 8 + 8 - 16) with n by lia. by rewrite Hb.
Qed.

Lemma address_register loc offset : 0 ≤ offset < 256 → config_address loc offset mod 256 = offset.
Proof.
  intros Ho. change 256 with (2 ^ 8). rewrite <- Z.land_ones by lia. apply Z.bits_inj'. intros n Hn.
  rewrite Z.land_spec. unfold config_address. rewrite !Z.lor_spec. destruct (decide (n < 8)).
  - rewrite !Z.shiftl_spec_low, Z.ones_spec_low by lia.
    change 0x80000000 with (Z.shiftl 1 31). rewrite Z.shiftl_spec_low by lia.
    by rewrite orb_false_r, andb_true_r.
  - rewrite Z.ones_spec_high, andb_false_r by lia. symmetry. apply Z.bits_above_log2; [lia|].
    destruct (decide (offset = 0)) as [->|]; [cbn; lia|]. apply Z.log2_lt_pow2; [lia|].
    apply Z.lt_le_trans with (2 ^ 8); [lia|]. apply Z.pow_le_mono_r; lia.
Qed.

(** The one bridge is on bus 0. *)
Lemma small_numbered : buses_numbered small_config.
Proof.
  intros bus dev f Hb Hd Hf _ Hbr. set (loc := Loc bus dev f) in *.
  assert (config_address loc 8 / 256 = 0x800008) as Ha.
  { revert Hbr. unfold bridge, byte_of, small_config. repeat case_match; try done. intros _.
    match goal with E : (_ =? 0x800008) = true |- _ => exact (proj1 (Z.eqb_eq _ _) E) end. }
  assert (bus = 0) as ->.
  { apply Z.bits_inj_0. intros n. destruct (Z.testbit bus n) eqn:Hn; [|done].
    destruct (decide (n < 0)) as [|Hn0]; [by rewrite Z.testbit_neg_r in Hn by lia|].
    assert (n < 8) as Hn8.
    { destruct (decide (n < 8)); [done|]. rewrite Z.bits_above_log2 in Hn; [done|lia|].
      destruct (decide (bus = 0)) as [->|]; [cbn; lia|]. apply Z.log2_lt_pow2; [lia|].
      apply Z.lt_le_trans with (2 ^ 8); [lia|]. apply Z.pow_le_mono_r; lia. }
    pose proof (address_bus loc n ltac:(lia) Hn) as Ht. rewrite Ha in Ht.
    assert (Forall (λ n, Z.testbit 0x800008 (n + 8) = false) (seqZ 0 8)) as Hall
      by (apply (bool_decide_unpack _); vm_compute; exact I).
    rewrite Forall_seqZ in Hall. rewrite Hall in Ht by lia. done. }
  assert (secondary small_config loc = 1) as ->; [|lia].
  unfold secondary, byte_of, small_config.
  assert (config_address loc 0x18 / 256 = 0x800008) as ->.
  { rewrite <- Ha. change 256 with (2 ^ 8). unfold config_address. rewrite <- !Z.shiftr_div_pow2, !Z.shiftr_lor by lia.
    done. }
  by rewrite (address_register loc 0x18) by lia.
Qed.

Definition small_start : @Dev small_machine := 0.

Lemma pci_scan_exact_witness :
  ∃ devs d', list_devices 256 small_start = Some (Ret (devs, d')) ∧
    MkPciDevice 0x8139 0x10ec (Loc 1 0 0) (Cls 2 0 0) ∈ devs.
Proof.
  destruct (@pci_scan_exact small_machine small_machine_laws small_start small_numbered eq_refl) as (devs & d' & E & _ & _ & Ha).
  exists devs, d'. split; [exact E|].
  apply (Ha (Loc 1 0 0)). eapply (attached_bridge _ 0 1 0).
  - repeat split; try lia; by vm_compute.
  - by vm_compute.
  - apply (attached_here _ 1 0 0). repeat split; try lia; by vm_compute.
Defined.
