(* ===== verification/Ne2k.v ===== *)
(** * Ne2k: the driver of the NE2000 network card (modules/driver_ne2k)

    The card is a [Device] that behaves as the reference card [Nic] below: registers in pages, a
    memory that is read and written through one port, and a ring of received frames in it.  The card
    is quiet while the driver runs: a frame that arrives in the middle of a call is not in the
    model.  Console output is left out; loops that poll or drain the ring run on fuel. *)

From stdpp Require Import base list strings functions.
From Stdlib Require Import ZArith Lia.
From S2P Require Import Prelude Bytes PortIo Pci.
Open Scope Z_scope.

(** ** Constants *)

Definition CMD : Z := 0.
Definition BNRY : Z := 3.
Definition ISR : Z := 7.
Definition RSR : Z := 0xc.
Definition REMOTE_DMA : Z := 0x10.
Definition RESET : Z := 0x1f.
Definition W_PSTART : Z := 1.
Definition W_PSTOP : Z := 2.
Definition W_TPSR : Z := 4.
Definition W_TBCR0 : Z := 5.
Definition W_TBCR1 : Z := 6.
Definition W_RSAR0 : Z := 8.
Definition W_RSAR1 : Z := 9.
Definition W_RBCR0 : Z := 0xa.
Definition W_RBCR1 : Z := 0xb.
Definition W_RCR : Z := 0xc.
Definition W_TCR : Z := 0xd.
Definition W_DCR : Z := 0xe.
Definition W_IMR : Z := 0xf.
Definition RX_CURRENT_PAGE : Z := 7.

(** [IntStatus] and [RxStatus]; all eight bits have names, so [from_bits_truncate] changes nothing. *)
Definition INT_RESET : Z := 0x80.
Definition REMOTE_DMA_COMPLETE : Z := 0x40.
Definition COUNTER_MSB : Z := 0x20.
Definition TX_OK : Z := 0x02.
Definition RX_OK : Z := 0x01.
Definition INT_ERRORS : Z := Z.lor (Z.lor 0x10 0x08) 0x04.
Definition RX_SUCCESS : Z := 0x01.
Definition RX_ERRORS : Z := Z.lor (Z.lor 0x10 0x04) 0x02.

Definition contains (flags f : Z) : bool := Z.land flags f =? f.

Definition MEM_FIRST_PAGE : Z := 0x40.
Definition MEM_SIZE_PAGES : Z := 0x40.
Definition MEM_LAST_PAGE : Z := MEM_FIRST_PAGE + MEM_SIZE_PAGES - 1.
Definition MEM_PAGE_SIZE_BYTES : Z := 0x100.
Definition TX_PAGES : Z := 8.
Definition RX_PAGES : Z := MEM_SIZE_PAGES - TX_PAGES.
Definition PSTART : Z := MEM_FIRST_PAGE.
Definition PSTOP : Z := MEM_FIRST_PAGE + RX_PAGES - 1.
Definition TX_START : Z := PSTOP + 1.

(** ** Commands *)

Inductive CmdFunc := RemoteRead | RemoteWrite | SendPacket | NoDMA.

Definition cmd (page : Z) (func : CmdFunc) (txp start : bool) : outcome Z :=
  _ ← rassert (page <=? 3) "assertion failed: page <= 3";
  let func_bits := match func with RemoteRead => 1 | RemoteWrite => 2 | SendPacket => 3 | NoDMA => 4 end in
  Ret (Z.lor (Z.lor (Z.lor (Z.shiftl page 6) (Z.shiftl func_bits 3)) (Z.shiftl (Z.b2z txp) 2))
    (Z.shiftl 1 (if start then 1 else 0))).

Record Ne2k := MkNe2k {
  pci_device : PciDevice;
  irq : Z;
  io_base : Z;
  link_up : bool;
  mac_addr : list Z;
  next_packet : Z;
}.

Definition set_mac_addr (v : list Z) (self : Ne2k) : Ne2k :=
  MkNe2k (pci_device self) (irq self) (io_base self) (link_up self) v (next_packet self).
Definition set_next_packet (v : Z) (self : Ne2k) : Ne2k :=
  MkNe2k (pci_device self) (irq self) (io_base self) (link_up self) (mac_addr self) v.

Section driver.
Context `{!Device}.

(** A register of the card, [base + offset] in 16 bits. *)
Definition port (self : Ne2k) (offset : Z) : Z := (io_base self + offset) mod 2 ^ 16.
Definition reg_read (self : Ne2k) (offset : Z) : IO Z := read_port 8 (port self offset).
Definition reg_write (self : Ne2k) (offset value : Z) : IO unit := write_port 8 (port self offset) value.
Definition write_cmd (self : Ne2k) (page : Z) (func : CmdFunc) (txp start : bool) : IO unit :=
  v ← io_lift (cmd page func txp start);
  reg_write self CMD v.

Definition read_rsr (self : Ne2k) : IO Z := reg_read self RSR.
Definition read_isr (self : Ne2k) : IO Z := reg_read self ISR.
Definition clear_isr (self : Ne2k) (clear : Z) : IO unit := reg_write self ISR clear.
Definition mask_isr (self : Ne2k) (mask : Z) : IO unit := reg_write self W_IMR mask.

Definition reset (fuel : nat) (self : Ne2k) : IO Ne2k :=
  b ← reg_read self RESET;
  _ ← reg_write self RESET b;
  _ ← io_until fuel (v ← reg_read self ISR; mret (negb (Z.land v 0x80 =? 0)));
  _ ← reg_write self ISR 0xff;
  _ ← write_cmd self 0 NoDMA false false;
  _ ← reg_write self W_DCR 0x49;
  _ ← reg_write self W_RBCR0 0;
  _ ← reg_write self W_RBCR1 0;
  _ ← reg_write self W_IMR 0;
  _ ← reg_write self ISR 0xff;
  _ ← reg_write self W_RCR 0x0e;
  _ ← reg_write self W_TCR 0x02;
  _ ← reg_write self W_RBCR0 12;
  _ ← reg_write self W_RBCR1 0;
  _ ← reg_write self W_RSAR0 0;
  _ ← reg_write self W_RSAR1 0;
  _ ← write_cmd self 0 RemoteRead false true;
  mac ← io_times 6 (reg_read self REMOTE_DMA);
  let self := set_mac_addr mac self in
  _ ← reg_write self W_PSTART PSTART;
  _ ← reg_write self W_PSTOP PSTOP;
  _ ← reg_write self BNRY PSTART;
  _ ← reg_write self W_TPSR TX_START;
  _ ← mask_isr self (Z.lor INT_ERRORS RX_OK);
  _ ← write_cmd self 1 NoDMA false false;
  _ ← write_cmd self 1 NoDMA false false;
  _ ← io_each (λ x, reg_write self (x.1 + 1) x.2) (imap (λ i v, (Z.of_nat i, v)) mac);
  _ ← reg_write self W_DCR 0x49;
  _ ← write_cmd self 1 NoDMA false true;
  _ ← reg_write self RX_CURRENT_PAGE (next_packet self);
  _ ← write_cmd self 0 NoDMA false true;
  _ ← reg_write self W_TCR 0;
  _ ← reg_write self W_RCR 0x0c;
  mret self.

Definition Ne2k_new (fuel : nat) (pci : PciDevice) : IO Ne2k :=
  _ ← io_assert (bool_decide ((class0 (class pci), class1 (class pci)) = (2, 0)))
        "assertion failed: `(left == right)`";
  _ ← enable_bus_mastering pci;
  line ← get_interrupt_line pci;
  irq ← io_lift (expect line "Missing interrupt line");
  bar ← get_bar pci 0;
  reset fuel (MkNe2k pci irq (Z.land bar 0xfffffffc mod 2 ^ 16) false (repeat 0 6) (PSTART + 1)).

(** The registers of a transfer of [n] bytes and its command, the same in [send] and [read_dma]. *)
Definition start_dma (self : Ne2k) (n offset page : Z) (func : CmdFunc) : IO unit :=
  _ ← reg_write self W_RBCR0 (n mod 256);
  _ ← reg_write self W_RBCR1 (Z.shiftr n 8 mod 256);
  _ ← reg_write self W_RSAR0 offset;
  _ ← reg_write self W_RSAR1 page;
  write_cmd self 0 func false true.

(** The words of [packet.chunks(2)], the last one padded. *)
Fixpoint packet_words (packet : list Z) : list Z :=
  match packet with
  | [] => []
  | [lo] => [from_le [lo; 0]]
  | lo :: hi :: packet => from_le [lo; hi] :: packet_words packet
  end.

Definition send (fuel : nat) (self : Ne2k) (packet : list Z) : IO unit :=
  let txbuffer := 0x40 in
  let len := Z.of_nat (length packet) in
  _ ← start_dma self len 0 txbuffer RemoteWrite;
  _ ← io_each (write_port 16 (port self REMOTE_DMA)) (packet_words packet);
  _ ← io_until fuel (s ← read_isr self; mret (contains s REMOTE_DMA_COMPLETE));
  _ ← reg_write self W_TPSR txbuffer;
  _ ← reg_write self W_TBCR0 (len mod 256);
  _ ← reg_write self W_TBCR1 (Z.shiftr len 8 mod 256);
  _ ← write_cmd self 0 NoDMA true true;
  _ ← io_until fuel (s ← read_isr self; mret (contains s TX_OK));
  clear_isr self (Z.lor REMOTE_DMA_COMPLETE TX_OK).

(** [for chunk in buffer.chunks_mut(2)], for a buffer of [n] bytes *)
Fixpoint read_chunks (self : Ne2k) (n : nat) : IO (list Z) :=
  match n with
  | O => mret []
  | S O => w ← read_port 16 (port self REMOTE_DMA); mret [w mod 256]
  | S (S n) =>
      w ← read_port 16 (port self REMOTE_DMA);
      rest ← read_chunks self n;
      mret (w mod 256 :: Z.shiftr w 8 mod 256 :: rest)
  end.

Definition read_dma (self : Ne2k) (page offset : Z) (len : nat) : IO (list Z) :=
  let n := Z.of_nat len in
  _ ← io_assert (n <=? 0xffff) "assertion failed: buffer.len() <= (u16::MAX as usize)";
  _ ← io_assert ((MEM_FIRST_PAGE <=? page) && (page <=? MEM_LAST_PAGE)) "assertion failed: page >= MEM_FIRST_PAGE && page <= MEM_LAST_PAGE";
  _ ← io_assert (Z.lor (Z.shiftr page 8) ((offset + n mod 2 ^ 16) mod 2 ^ 16) <?
                  (MEM_LAST_PAGE + 1) * MEM_PAGE_SIZE_BYTES) "assertion failed: ((page as u16) >> 8) | (offset as u16) + (buffer.len() as u16) < ((MEM_LAST_PAGE as u16) + 1) * MEM_PAGE_SIZE_BYTES";
  _ ← start_dma self n offset page RemoteRead;
  buffer ← read_chunks self len;
  _ ← clear_isr self REMOTE_DMA_COMPLETE;
  mret buffer.

(** One round of the loop of [read_packets]: the frame, if it is one to keep, and the driver. *)
Definition read_one (curr : Z) (self : Ne2k) : IO (list (list Z) * Ne2k) :=
  buf ← read_dma self (next_packet self) 0 4;
  let b i := nth i buf 0 in
  let rsr := b 0%nat in
  let next := b 1%nat in
  let len := (Z.lor (b 2%nat) (Z.shiftl (b 3%nat) 8) - 4) mod 2 ^ 16 in
  result ← (if (Z.land rsr RX_ERRORS =? 0) && contains rsr RX_SUCCESS && (PSTART <=? next) &&
               (next <=? PSTOP) && (len <=? 1532)
            then packet ← read_dma self (next_packet self) 4 (Z.to_nat len); mret [packet]
            else mret []);
  let self := set_next_packet (if PSTOP <=? next then PSTART else next) self in
  _ ← reg_write self BNRY
        (if next_packet self =? PSTART then PSTOP - 1 else (next_packet self - 1) mod 256);
  _ ← write_cmd self 1 NoDMA false true;
  _ ← reg_write self RX_CURRENT_PAGE curr;
  _ ← write_cmd self 0 NoDMA false true;
  mret (result, self).

Fixpoint read_loop (fuel : nat) (curr : Z) (self : Ne2k) (result : list (list Z))
    : IO (list (list Z) * Ne2k) :=
  match fuel with
  | O => λ _, None
  | S fuel =>
      if curr =? next_packet self then mret (result, self)
      else
        r ← read_one curr self;
        read_loop fuel curr r.2 (result ++ r.1)
  end.

Definition read_packets (fuel : nat) (self : Ne2k) : IO (list (list Z) * Ne2k) :=
  _ ← write_cmd self 1 NoDMA false true;
  curr ← reg_read self RX_CURRENT_PAGE;
  _ ← write_cmd self 0 NoDMA false true;
  read_loop fuel curr self [].

Definition io_when (b : bool) (m : IO unit) : IO unit := if b then m else mret tt.

(** [inner] is the fuel of the loops in the body. *)
Fixpoint irq_loop (fuel inner : nat) (self : Ne2k) (result : list (list Z)) : IO (list (list Z) * Ne2k) :=
  match fuel with
  | O => λ _, None
  | S fuel =>
      status ← read_isr self;
      if status =? 0 then mret (result, self)
      else
        r ← (if contains status RX_OK then
               r ← read_packets inner self;
               _ ← clear_isr r.2 RX_OK;
               mret (result ++ r.1, r.2)
             else mret (result, self));
        _ ← io_when (contains status COUNTER_MSB) (clear_isr r.2 COUNTER_MSB);
        _ ← io_when (contains status REMOTE_DMA_COMPLETE) (clear_isr r.2 REMOTE_DMA_COMPLETE);
        _ ← io_when (contains status TX_OK) (io_panic "ne2k: TX_OK set unexpectedly");
        _ ← io_when (contains status INT_RESET) (io_panic "ne2k: RESET set unexpectedly");
        _ ← io_when (contains status INT_ERRORS) (io_panic "not yet implemented: ne2k: ERROR => handle");
        irq_loop fuel inner r.2 r.1
  end.

Definition notify_irq (fuel inner : nat) (self : Ne2k) : IO (list (list Z) * Ne2k) :=
  irq_loop fuel inner self [].

(** ** lib.rs: one round of the loop of [main]

    The subscriptions are two for interrupts, [get_mac] and [send]; the answer is what is delivered
    to [netd/received] or returned. *)

Inductive nic_request := IrqRequest | MacRequest | SendRequest (packet : list Z).
Inductive nic_answer := Delivered (packets : list (list Z)) | MacAnswer (mac : list Z) | SentAnswer.

Definition ne2k_round (fuel inner : nat) (self : Ne2k) (request : nic_request) : IO (nic_answer * Ne2k) :=
  match request with
  | IrqRequest => r ← notify_irq fuel inner self; mret (Delivered r.1, r.2)
  | MacRequest => mret (MacAnswer (mac_addr self), self)
  | SendRequest packet => _ ← send inner self packet; mret (SentAnswer, self)
  end.

End driver.

(** ** The reference card *)

(** [regs] are the registers as written last, those of page 1 at 32 and up; [dma] is where the data
    port reads or writes next and [left] how many bytes are left (a byte that is read takes the place
    of a word); [mem] has the address of the card at its start, each byte twice; [tx] counts the reads of the
    interrupt status until a transmission is reported; [wire] is what was sent. *)
Record Nic := MkNic {
  page : Z; regs : Z → Z; isr : Z; dma : Z; left : Z;
  mem : Z → Z; tx : option nat; wire : list (list Z);
}.

Definition set_page (v : Z) (a : Nic) : Nic := MkNic v (regs a) (isr a) (dma a) (left a) (mem a) (tx a) (wire a).
Definition set_reg (k v : Z) (a : Nic) : Nic :=
  MkNic (page a) (<[k := v]> (regs a)) (isr a) (dma a) (left a) (mem a) (tx a) (wire a).
Definition set_isr (v : Z) (a : Nic) : Nic := MkNic (page a) (regs a) v (dma a) (left a) (mem a) (tx a) (wire a).
Definition set_dma (v l : Z) (a : Nic) : Nic := MkNic (page a) (regs a) (isr a) v l (mem a) (tx a) (wire a).
Definition set_mem (v : Z → Z) (a : Nic) : Nic := MkNic (page a) (regs a) (isr a) (dma a) (left a) v (tx a) (wire a).
Definition set_tx (v : option nat) (a : Nic) : Nic := MkNic (page a) (regs a) (isr a) (dma a) (left a) (mem a) v (wire a).
Definition set_wire (v : list (list Z)) (a : Nic) : Nic := MkNic (page a) (regs a) (isr a) (dma a) (left a) (mem a) (tx a) v.

Definition start_addr (a : Nic) : Z := regs a W_PSTART * 256.
Definition stop_addr (a : Nic) : Z := regs a W_PSTOP * 256.
Definition curr_page (a : Nic) : Z := regs a (32 + RX_CURRENT_PAGE).

(** Two bytes of a transfer have moved; the address wraps at the end of the ring. *)
Definition dma_moved (a : Nic) : Nic :=
  let a' := set_dma (if dma a + 2 =? stop_addr a then start_addr a else dma a + 2) (left a - 2) a in
  if left a <=? 2 then set_isr (Z.lor (isr a') REMOTE_DMA_COMPLETE) a' else a'.

(** A command; [b] is how long a transmission takes. *)
Definition nic_command (b : nat) (v : Z) (a : Nic) : Nic :=
  let a := set_page (Z.shiftr v 6) a in
  let func := Z.land (Z.shiftr v 3) 7 in
  let a := if (func =? 1) || (func =? 2)
    then set_dma (regs a W_RSAR1 * 256 + regs a W_RSAR0) (regs a W_RBCR1 * 256 + regs a W_RBCR0) a else a in
  if Z.testbit v 2 then
    set_tx (Some b) (set_wire (wire a ++
      [mem a <$> seqZ (regs a W_TPSR * 256) (regs a W_TBCR1 * 256 + regs a W_TBCR0)]) a)
  else a.

(** What the write of a register does, but for the command register. *)
Definition nic_out (n v : Z) (a : Nic) : Nic :=
  if n =? RESET then set_isr INT_RESET a
  else if page a =? 0 then (if n =? ISR then set_isr (Z.ldiff (isr a) v) a else set_reg n v a)
  else set_reg (32 + n) v a.

Definition nic_word_out (v : Z) (a : Nic) : Nic :=
  dma_moved (set_mem (<[dma a + 1 := Z.shiftr v 8 mod 256]> (<[dma a := v mod 256]> (mem a))) a).

(** Reading the interrupt status lets time pass. *)
Definition nic_poll (a : Nic) : Nic :=
  match tx a with
  | Some O => set_tx None (set_isr (Z.lor (isr a) TX_OK) a)
  | Some (S b) => set_tx (Some b) a
  | None => a
  end.

Definition nic_word (a : Nic) : Z := mem a (dma a) + 256 * mem a (dma a + 1).

(** What the driver relies on: the registers at [base] are those of a reference card whose memory
    holds bytes. *)
Class NicLaws `{!Device} (base : Z) := {
  view : Dev → Nic;
  delay : nat;
  law_mem d a : is_byte (mem (view d) a);
  law_command v d : ∃ b, (b ≤ delay)%nat ∧
    view (port_out 8 ((base + CMD) mod 2 ^ 16) v d) = nic_command b v (view d);
  law_out n v d : n ≠ CMD → 0 ≤ n < 32 → view (port_out 8 ((base + n) mod 2 ^ 16) v d) = nic_out n v (view d);
  law_word_out v d : view (port_out 16 ((base + REMOTE_DMA) mod 2 ^ 16) v d) = nic_word_out v (view d);
  law_isr d : page (view d) = 0 →
    (port_in 8 ((base + ISR) mod 2 ^ 16) d).1 = isr (view d) ∧
    view (port_in 8 ((base + ISR) mod 2 ^ 16) d).2 = nic_poll (view d);
  law_curr d : page (view d) = 1 →
    (port_in 8 ((base + RX_CURRENT_PAGE) mod 2 ^ 16) d).1 = curr_page (view d) ∧
    view (port_in 8 ((base + RX_CURRENT_PAGE) mod 2 ^ 16) d).2 = view d;
  law_word_in d :
    (port_in 16 ((base + REMOTE_DMA) mod 2 ^ 16) d).1 = nic_word (view d) ∧
    view (port_in 16 ((base + REMOTE_DMA) mod 2 ^ 16) d).2 = dma_moved (view d);
  law_byte_in d :
    (port_in 8 ((base + REMOTE_DMA) mod 2 ^ 16) d).1 = mem (view d) (dma (view d)) ∧
    view (port_in 8 ((base + REMOTE_DMA) mod 2 ^ 16) d).2 = dma_moved (view d);
  law_reset_in d : view (port_in 8 ((base + RESET) mod 2 ^ 16) d).2 = view d;
}.

(** Bytes of the ring, from an address on. *)
Definition ring_addr (a : Nic) (from k : Z) : Z :=
  start_addr a + (from - start_addr a + k) mod (stop_addr a - start_addr a).
Definition ring_bytes (a : Nic) (from : Z) (n : nat) : list Z :=
  (λ k, mem a (ring_addr a from k)) <$> seqZ 0 (Z.of_nat n).

(** The frames in the ring from page [p] to the current page, in [n] steps: each starts with its
    status, the page of the next one and its length with the header; one with an error in its status
    is not kept. *)
Inductive ring_holds (a : Nic) : nat → Z → list (list Z) → Prop :=
| ring_end : ring_holds a 0 (curr_page a) []
| ring_frame n p status next frame frames :
    p ≠ curr_page a → PSTART ≤ p < PSTOP → PSTART ≤ next < PSTOP → (length frame ≤ 1532)%nat →
    ring_bytes a (p * 256) 4 =
      [status; next; (Z.of_nat (length frame) + 4) mod 256; (Z.of_nat (length frame) + 4) / 256] →
    Z.land status RX_ERRORS = 0 → Z.land status RX_SUCCESS = RX_SUCCESS →
    ring_bytes a (p * 256 + 4) (length frame) = frame →
    ring_holds a n next frames → ring_holds a (S n) p (frame :: frames)
| ring_damaged n p status next l0 l1 frames :
    p ≠ curr_page a → PSTART ≤ p < PSTOP → PSTART ≤ next < PSTOP →
    ring_bytes a (p * 256) 4 = [status; next; l0; l1] →
    (Z.land status RX_ERRORS ≠ 0 ∨ Z.land status RX_SUCCESS ≠ RX_SUCCESS) →
    ring_holds a n next frames → ring_holds a (S n) p frames.

Lemma nat_pair_ind (P : nat → Prop) :
  P 0%nat → P 1%nat → (∀ n, P n → P (S (S n))) → ∀ n, P n.
Proof. intros H0 H1 H2. fix IH 1. intros [|[|n]]; [done|done|]. apply H2, IH. Qed.

Lemma list_pair_ind {A} (P : list A → Prop) :
  P [] → (∀ x, P [x]) → (∀ x y l, P l → P (x :: y :: l)) → ∀ l, P l.
Proof. intros H0 H1 H2. fix IH 1. intros [|x [|y l]]; [done|apply H1|]. apply H2, IH. Qed.

Section props.
Context `{!Device} (base : Z) `{!NicLaws base}.
Implicit Types a : Nic.

Notation runs_on a m Q := (acts view a m Q).

Lemma reg_write_runs self n v a :
  io_base self = base → n ≠ CMD → 0 ≤ n < 32 →
  runs_on a (reg_write self n v) (λ r t, r = tt ∧ t = nic_out n v a).
Proof. intros Hb Hn Hr. apply acts_write. intros d <-. unfold port. rewrite Hb. by apply law_out. Qed.

Lemma write_cmd_runs self pg func txp start v a :
  io_base self = base → cmd pg func txp start = Ret v → Z.testbit v 2 = false →
  runs_on a (write_cmd self pg func txp start) (λ r t, r = tt ∧ t = nic_command 0 v a).
Proof.
  intros Hb Hc Ht d <-. unfold write_cmd. rewrite Hc.
  change ((io_lift (Ret v) ≫= (λ v, reg_write self CMD v)) d) with (reg_write self CMD v d).
  eexists _, _. split; [done|]. split; [done|]. unfold port. rewrite Hb.
  destruct (law_command v d) as (b & _ & ->). unfold nic_command. by rewrite Ht.
Qed.

Lemma read_isr_runs self a :
  io_base self = base → page a = 0 →
  runs_on a (read_isr self) (λ r t, r = isr a ∧ t = nic_poll a).
Proof. intros Hb Hp. apply acts_read. intros d <-. unfold port. rewrite Hb. by apply law_isr. Qed.

Lemma clear_isr_runs self v a :
  io_base self = base → page a = 0 →
  runs_on a (clear_isr self v) (λ r t, r = tt ∧ t = set_isr (Z.ldiff (isr a) v) a).
Proof.
  intros Hb Hp. eapply acts_last; [by apply reg_write_runs|]. split; [done|]. unfold nic_out. by rewrite Hp.
Qed.

(** ** The data port *)

(** The card's registers, but for those a transfer sets; the ring is as the driver has set it up. *)
Record idle (a : Nic) : Prop := {
  idle_page : page a = 0;
  idle_tx : tx a = None;
  idle_start : regs a W_PSTART = PSTART;
  idle_stop : regs a W_PSTOP = PSTOP;
  idle_mem k : is_byte (mem a k);
}.

Lemma ring_addr_next a k n :
  idle a → start_addr a ≤ k < stop_addr a → Z.even k = true →
  ring_addr a k (n + 2) =
    ring_addr a (if k + 2 =? stop_addr a then start_addr a else k + 2) n.
Proof.
  intros Hi Hk He. unfold ring_addr. destruct (Z.eqb_spec (k + 2) (stop_addr a)) as [E|E].
  - replace (k - start_addr a + (n + 2)) with (n + 1 * (stop_addr a - start_addr a)) by lia.
    rewrite Z_mod_plus_full. do 2 f_equal. lia.
  - do 2 f_equal. lia.
Qed.

Lemma ring_addr_low a k : start_addr a ≤ k < stop_addr a → ring_addr a k 0 = k.
Proof. intros Hk. unfold ring_addr. rewrite Z.add_0_r, Z.mod_small; lia. Qed.

Lemma idle_bounds a : idle a → start_addr a = 0x4000 ∧ stop_addr a = 0x7700.
Proof. intros Hi. unfold start_addr, stop_addr. by rewrite (idle_start a Hi), (idle_stop a Hi). Qed.

Lemma ring_bytes_succ a k n :
  idle a → start_addr a ≤ k < stop_addr a → Z.even k = true →
  ring_bytes a k (S (S n)) = mem a k :: mem a (k + 1) ::
    ring_bytes a (if k + 2 =? stop_addr a then start_addr a else k + 2) n.
Proof.
  intros Hi Hk He. destruct (idle_bounds a Hi) as [Hs Ht]. apply Z.even_spec in He as [h ->].
  unfold ring_bytes. rewrite (seqZ_cons 0), (seqZ_cons (Z.succ 0)) by lia. cbn [fmap list_fmap].
  rewrite ring_addr_low by lia. f_equal. f_equal.
  { unfold ring_addr. rewrite Z.mod_small by lia. f_equal. lia. }
  replace (Z.pred (Z.pred (Z.of_nat (S (S n))))) with (Z.of_nat n) by lia.
  rewrite <- (fmap_add_seqZ 2 0), <- list_fmap_compose. apply list_fmap_ext. intros i x _. cbn.
  rewrite (Z.add_comm 2 x), (ring_addr_next a (2 * h) x); [done|done|lia|]. apply Z.even_spec. by exists h.
Qed.

Lemma ldiff_lor v f : Z.ldiff (Z.lor v f) f = Z.ldiff v f.
Proof.
  apply Z.bits_inj'. intros n Hn. rewrite !Z.ldiff_spec, Z.lor_spec.
  by destruct (Z.testbit v n), (Z.testbit f n).
Qed.

(** A transfer changes where the data port is, and no interrupt flag but its own. *)
Definition transferred (a t : Nic) : Prop :=
  ∃ k l i, t = set_isr i (set_dma k l a) ∧
    Z.ldiff i REMOTE_DMA_COMPLETE = Z.ldiff (isr a) REMOTE_DMA_COMPLETE.

Lemma transferred_trans a t u : transferred a t → transferred t u → transferred a u.
Proof. intros (k & l & i & -> & Hi) (k' & l' & i' & -> & Hi'). exists k', l', i'. split; [done|]. by rewrite Hi'. Qed.

Lemma moved_transferred a : transferred a (dma_moved a).
Proof.
  unfold dma_moved. destruct (left a <=? 2).
  - eexists _, _, _. split; [done|]. cbn [isr set_dma]. apply ldiff_lor.
  - eexists _, _, (isr a). split; [|done]. reflexivity.
Qed.

Lemma transferred_idle a t : idle a → transferred a t → idle t.
Proof. intros [] (k & l & i & -> & _). by constructor. Qed.

Lemma transferred_ring a t : transferred a t → ring_bytes t = ring_bytes a ∧ stop_addr t = stop_addr a ∧ start_addr t = start_addr a.
Proof. by intros (k & l & i & -> & _). Qed.

Lemma read_word_runs self a :
  io_base self = base →
  runs_on a (read_port 16 (port self REMOTE_DMA)) (λ r t, r = nic_word a ∧ t = dma_moved a).
Proof. intros Hb. apply acts_read. intros d <-. unfold port. rewrite Hb. apply law_word_in. Qed.

Lemma nic_word_parts a :
  idle a → nic_word a mod 256 = mem a (dma a) ∧ Z.shiftr (nic_word a) 8 mod 256 = mem a (dma a + 1).
Proof.
  intros Hi. pose proof (idle_mem a Hi (dma a)) as H0. pose proof (idle_mem a Hi (dma a + 1)) as H1.
  unfold is_byte, nic_word in *. rewrite Z.shiftr_div_pow2 by lia. change (2 ^ 8) with 256.
  rewrite (Z.mul_comm 256), Z_mod_plus_full, Z.div_add by lia. rewrite (Z.div_small (mem a (dma a))) by lia.
  rewrite !Z.mod_small by lia. lia.
Qed.

Lemma even_plus2 k : Z.even k = true → Z.even (k + 2) = true.
Proof. intros Hk. by rewrite Z.even_add, Hk. Qed.

Lemma mem_moved a : mem (dma_moved a) = mem a.
Proof. unfold dma_moved. by destruct (left a <=? 2). Qed.

Lemma dma_moved_addr a :
  dma (dma_moved a) = if dma a + 2 =? stop_addr a then start_addr a else dma a + 2.
Proof. unfold dma_moved. by destruct (left a <=? 2). Qed.

Lemma read_chunks_runs self n a :
  io_base self = base → idle a → start_addr a ≤ dma a < stop_addr a → Z.even (dma a) = true →
  runs_on a (read_chunks self n) (λ r t, r = ring_bytes a (dma a) n ∧ transferred a t).
Proof.
  intros Hb. revert a. induction n as [| |n IH] using nat_pair_ind; intros a Hi Hd He; cbn [read_chunks].
  - apply acts_ret. split; [done|]. exists (dma a), (left a), (isr a). split; [by destruct a|done].
  - eapply acts_step; [by apply read_word_runs|]. apply acts_ret. split; [|apply moved_transferred].
    rewrite (proj1 (nic_word_parts a Hi)). unfold ring_bytes.
    change (seqZ 0 (Z.of_nat 1)) with [0]. cbn [fmap list_fmap]. by rewrite ring_addr_low.
  - eapply acts_step; [by apply read_word_runs|]. destruct (nic_word_parts a Hi) as [E1 E2].
    pose proof (moved_transferred a) as Ht. destruct (transferred_ring _ _ Ht) as (Hr & Hs1 & Hs2).
    pose proof (idle_bounds a Hi) as [Hb1 Hb2].
    eapply acts_bind; [apply IH|].
    + by eapply transferred_idle.
    + rewrite dma_moved_addr, Hs1, Hs2. apply Z.even_spec in He as [h He].
      destruct (Z.eqb_spec (dma a + 2) (stop_addr a)); lia.
    + rewrite dma_moved_addr. destruct (Z.eqb_spec (dma a + 2) (stop_addr a)); [by rewrite Hb1|by apply even_plus2].
    + intros r t [-> Ht2]. apply acts_ret. split; [|by eapply transferred_trans].
      rewrite E1, E2, (ring_bytes_succ a (dma a) n Hi Hd He), Hr, dma_moved_addr. done.
Qed.

(** What the driver keeps in the card between two transfers. *)
Definition ring_state (a : Nic) : (Z → Z) * list (list Z) * Z * Z * Z * Z :=
  (mem a, wire a, regs a W_PSTART, regs a W_PSTOP, regs a BNRY, curr_page a).

Ltac reg_step :=
  eapply acts_step; [apply reg_write_runs; [assumption|done|by vm_compute]|].
Ltac cmd_step :=
  eapply acts_step; [apply write_cmd_runs; [assumption|reflexivity|reflexivity]|].

Lemma nic_out_page0 n v a :
  page a = 0 → n ≠ RESET → n ≠ ISR → nic_out n v a = set_reg n v a.
Proof.
  intros Hp H1 H2. unfold nic_out. rewrite Hp. by rewrite (proj2 (Z.eqb_neq _ _) H1), (proj2 (Z.eqb_neq _ _) H2).
Qed.

Lemma len_parts n : 0 ≤ n < 65536 → Z.shiftr n 8 mod 256 * 256 + n mod 256 = n.
Proof.
  intros Hn. rewrite Z.shiftr_div_pow2 by lia. change (2 ^ 8) with 256.
  rewrite (Z.mod_small (n / 256)) by (split; [apply Z.div_pos; lia|apply Z.div_lt_upper_bound; lia]).
  pose proof (Z.div_mod n 256). lia.
Qed.

(** The registers of a transfer and its command. *)
Lemma start_dma_runs self n k p cmdv func a :
  io_base self = base → idle a → cmd 0 func false true = Ret cmdv → (func = RemoteRead ∨ func = RemoteWrite) →
  runs_on a (start_dma self n k p func)
    (λ _ t, idle t ∧ ring_state t = ring_state a ∧ isr t = isr a ∧
      dma t = p * 256 + k ∧ left t = Z.shiftr n 8 mod 256 * 256 + n mod 256).
Proof.
  intros Hb [Hp Ht Hs1 Hs2 Hm] Hc Hf. do 4 (reg_step; rewrite nic_out_page0 by done).
  eapply acts_last.
  { apply write_cmd_runs; [done|exact Hc|]. destruct Hf as [-> | ->]; injection Hc as <-; done. }
  destruct Hf as [-> | ->]; injection Hc as <-; (split; [by constructor|]; done).
Qed.

Lemma idle_ring a t : ring_state t = ring_state a → ring_bytes t = ring_bytes a.
Proof.
  intros E. unfold ring_bytes, ring_addr, start_addr, stop_addr.
  unfold ring_state in E. injection E as -> _ -> -> _ _. done.
Qed.

Lemma transferred_state a t : transferred a t → ring_state t = ring_state a.
Proof. by intros (k & l & i & -> & _). Qed.

Lemma read_dma_runs self p k n a :
  io_base self = base → idle a → PSTART ≤ p < PSTOP → 0 ≤ k < 256 → Z.even k = true → (n ≤ 1532)%nat →
  runs_on a (read_dma self p k n) (λ r t, r = ring_bytes a (p * 256 + k) n ∧ idle t ∧
    ring_state t = ring_state a ∧ isr t = Z.ldiff (isr a) REMOTE_DMA_COMPLETE).
Proof.
  intros Hb Hi Hp Hk He Hn. unfold PSTART, PSTOP, MEM_FIRST_PAGE, RX_PAGES, MEM_SIZE_PAGES, TX_PAGES in Hp.
  unfold read_dma. apply acts_assert; [apply Z.leb_le; lia|].
  apply acts_assert.
  { apply andb_true_intro. split; apply Z.leb_le; unfold MEM_LAST_PAGE, MEM_FIRST_PAGE, MEM_SIZE_PAGES; lia. }
  apply acts_assert.
  { rewrite Z.shiftr_div_pow2 by lia. change (2 ^ 8) with 256. rewrite Z.div_small, Z.lor_0_l by lia.
    change ((MEM_LAST_PAGE + 1) * MEM_PAGE_SIZE_BYTES) with 32768. change (2 ^ 16) with 65536.
    rewrite (Z.mod_small (Z.of_nat n)) by lia. rewrite Z.mod_small by lia. apply Z.ltb_lt. lia. }
  eapply acts_bind; [by eapply start_dma_runs; [..|left]|]. intros _ t (Hit & Hst & Hisr & Hd & _).
  destruct (idle_bounds t Hit) as [Hs1 Hs2].
  eapply acts_bind.
  { apply read_chunks_runs; [done|done|lia|]. rewrite Hd, Z.even_add, He. by rewrite Z.even_mul, orb_true_r. }
  intros r u [-> Htr]. eapply acts_step.
  { apply clear_isr_runs; [done|]. by apply (transferred_idle t u). }
  apply acts_ret. split; [by rewrite Hd, (idle_ring a t)|].
  pose proof (transferred_idle t u Hit Htr) as []. split; [by constructor|].
  pose proof (transferred_state t u Htr) as Hsu. rewrite <- Hst, <- Hsu. split; [done|].
  destruct Htr as (k' & l' & i' & -> & Hi'). cbn [isr set_isr]. by rewrite <- Hisr.
Qed.

Definition page_before (p : Z) : Z := if p =? PSTART then PSTOP - 1 else p - 1.

(** The state between two rounds: the ring as in [a], the boundary before page [p]. *)
Definition between (a : Nic) (p : Z) (t : Nic) : Prop :=
  idle t ∧ mem t = mem a ∧ wire t = wire a ∧ curr_page t = curr_page a ∧ regs t BNRY = page_before p ∧
  isr t = Z.ldiff (isr a) REMOTE_DMA_COMPLETE.

Definition keep_frame (st next len : Z) : bool :=
  (Z.land st RX_ERRORS =? 0) && contains st RX_SUCCESS && (PSTART <=? next) && (next <=? PSTOP) && (len <=? 1532).

Lemma ldiff_twice v f : Z.ldiff (Z.ldiff v f) f = Z.ldiff v f.
Proof.
  apply Z.bits_inj'. intros n Hn. rewrite !Z.ldiff_spec. by destruct (Z.testbit v n), (Z.testbit f n).
Qed.

Lemma ring_move_runs self next a t curr result :
  io_base self = base → idle t → PSTART ≤ next < PSTOP →
  ring_state t = ring_state a → isr t = Z.ldiff (isr a) REMOTE_DMA_COMPLETE → curr = curr_page a →
  let self' := set_next_packet (if PSTOP <=? next then PSTART else next) self in
  runs_on t
    (_ ← reg_write self' BNRY
           (if next_packet self' =? PSTART then PSTOP - 1 else (next_packet self' - 1) mod 256);
     _ ← write_cmd self' 1 NoDMA false true;
     _ ← reg_write self' RX_CURRENT_PAGE curr;
     _ ← write_cmd self' 0 NoDMA false true;
     mret (result, self'))
    (λ r u, r = (result : list (list Z), set_next_packet next self) ∧ between a next u).
Proof.
  intros Hb [Hp Ht Hs1 Hs2 Hm] Hn Hst Hisr Hc. cbn zeta.
  rewrite (proj2 (Z.leb_gt PSTOP next)) by lia. cbn [next_packet set_next_packet].
  assert ((if next =? PSTART then PSTOP - 1 else (next - 1) mod 256) = page_before next) as ->.
  { unfold page_before. destruct (Z.eqb_spec next PSTART); [done|]. apply Z.mod_small.
    unfold PSTART, PSTOP, MEM_FIRST_PAGE, RX_PAGES, MEM_SIZE_PAGES, TX_PAGES in *. lia. }
  reg_step. rewrite nic_out_page0 by done. cmd_step. reg_step. cmd_step. apply acts_ret. split; [done|].
  unfold ring_state in Hst. injection Hst as H1 H2 H3 H4 H5 H6.
  split; [by constructor|]. split; [exact H1|]. split; [exact H2|]. split; [exact Hc|]. split; [done|exact Hisr].
Qed.

Lemma read_one_runs self curr st next l0 l1 a :
  io_base self = base → idle a → PSTART ≤ next_packet self < PSTOP → PSTART ≤ next < PSTOP →
  curr = curr_page a → ring_bytes a (next_packet self * 256) 4 = [st; next; l0; l1] →
  let len := (Z.lor l0 (Z.shiftl l1 8) - 4) mod 2 ^ 16 in
  runs_on a (read_one curr self) (λ r t,
    r = (if keep_frame st next len then [ring_bytes a (next_packet self * 256 + 4) (Z.to_nat len)] else [],
         set_next_packet next self) ∧ between a next t).
Proof.
  intros Hb Hi Hp Hn Hc Hr len. unfold read_one.
  eapply acts_bind; [apply (read_dma_runs _ _ 0); [done|done|done|lia|done|lia]|].
  intros buf t (-> & Hit & Hst & Hisr). rewrite Z.add_0_r, Hr. cbn [nth]. fold len.
  change ((Z.land st RX_ERRORS =? 0) && contains st RX_SUCCESS && (PSTART <=? next) && (next <=? PSTOP) &&
    (len <=? 1532)) with (keep_frame st next len).
  destruct (keep_frame st next len) eqn:Hk.
  - assert (len ≤ 1532) as Hl by (apply andb_prop in Hk as [_ Hk]; by apply Z.leb_le).
    eapply acts_bind; [eapply acts_bind; [apply (read_dma_runs _ _ 4); [done|done|done|lia|done|lia]|]|].
    { intros r u Hu. apply acts_ret. instantiate (1 := λ r u, r = [ring_bytes a (next_packet self * 256 + 4) (Z.to_nat len)] ∧
        idle u ∧ ring_state u = ring_state t ∧ isr u = Z.ldiff (isr t) REMOTE_DMA_COMPLETE).
      destruct Hu as (-> & Hu). split; [|done]. by rewrite (idle_ring a t). }
    intros r u (-> & Hiu & Hsu & Hisu). apply ring_move_runs; [done|done|done|by rewrite Hsu| |done].
    by rewrite Hisu, Hisr, ldiff_twice.
  - eapply acts_step; [by apply acts_ret|]. by apply ring_move_runs.
Qed.

(** The ring and what was sent are those of [a]. *)
Definition like (a t : Nic) : Prop :=
  idle t ∧ mem t = mem a ∧ wire t = wire a ∧ curr_page t = curr_page a.

Lemma like_refl a : idle a → like a a.
Proof. intros Hi. split; [exact Hi|done]. Qed.

Lemma between_like a t p u : like a t → between t p u → like a u.
Proof.
  intros (_ & H1 & H2 & H3) (Hi & E1 & E2 & E3 & _). split; [done|]. by rewrite E1, E2, E3.
Qed.

Lemma like_ring a t : idle a → like a t → ring_bytes t = ring_bytes a.
Proof.
  intros [_ _ Ha1 Ha2 _] ([_ _ Hs1 Hs2 _] & Hm & _). unfold ring_bytes, ring_addr, start_addr, stop_addr.
  by rewrite Hm, Hs1, Hs2, Ha1, Ha2.
Qed.

Lemma frame_length n : (n ≤ 1532)%nat →
  (Z.lor ((Z.of_nat n + 4) mod 256) (Z.shiftl ((Z.of_nat n + 4) / 256) 8) - 4) mod 2 ^ 16 = Z.of_nat n.
Proof.
  intros Hn. rewrite lor_shiftl by (try apply Z.mod_pos_bound; lia). change (2 ^ 8) with 256.
  change (2 ^ 16) with 65536. pose proof (Z.div_mod (Z.of_nat n + 4) 256). rewrite Z.mod_small; lia.
Qed.

Lemma keep_good st next len :
  Z.land st RX_ERRORS = 0 → Z.land st RX_SUCCESS = RX_SUCCESS → PSTART ≤ next < PSTOP → len ≤ 1532 →
  keep_frame st next len = true.
Proof.
  intros H1 H2 H3 H4. unfold keep_frame, contains. rewrite H1, H2.
  rewrite (proj2 (Z.leb_le PSTART next)), (proj2 (Z.leb_le next PSTOP)), (proj2 (Z.leb_le len 1532)) by lia. done.
Qed.

Lemma keep_bad st next len :
  Z.land st RX_ERRORS ≠ 0 ∨ Z.land st RX_SUCCESS ≠ RX_SUCCESS → keep_frame st next len = false.
Proof.
  intros [E|E]; unfold keep_frame, contains.
  - by rewrite (proj2 (Z.eqb_neq _ _) E).
  - by rewrite (proj2 (Z.eqb_neq _ _) E), andb_false_r.
Qed.

Lemma boundary_at_end a t u n next frames :
  ring_holds a n next frames → between t next u →
  (if (n =? 0)%nat then regs u BNRY else page_before (curr_page a)) = page_before (curr_page a) ∧
  (if (n =? 0)%nat then isr u else Z.ldiff (isr u) REMOTE_DMA_COMPLETE) = Z.ldiff (isr t) REMOTE_DMA_COMPLETE.
Proof.
  intros Hr (_ & _ & _ & _ & Hu & Hi). rewrite Hi. destruct n; [|by rewrite ldiff_twice].
  inversion Hr; subst. by split.
Qed.

Lemma read_loop_runs fuel n p self frames a t result :
  io_base self = base → idle a → like a t → ring_holds a n p frames → next_packet self = p → (n < fuel)%nat →
  runs_on t (read_loop fuel (curr_page a) self result) (λ r u,
    r = (result ++ frames, set_next_packet (curr_page a) self) ∧ like a u ∧
    regs u BNRY = (if (n =? 0)%nat then regs t BNRY else page_before (curr_page a)) ∧
    isr u = if (n =? 0)%nat then isr t else Z.ldiff (isr t) REMOTE_DMA_COMPLETE).
Proof.
  intros Hb Hi Hl Hr. revert fuel self t result Hb Hl.
  induction Hr as [|n p st next frame frames Hp Hp1 Hn Hlen Hhd Hs1 Hs2 Hfr Hr IH
    |n p st next l0 l1 frames Hp Hp1 Hn Hhd Hs Hr IH];
    intros fuel self t result Hb Hl Hnp Hf; (destruct fuel as [|fuel]; [lia|]); cbn [read_loop].
  { rewrite Hnp, Z.eqb_refl. apply acts_ret. rewrite app_nil_r, <- Hnp. by destruct self. }
  all: rewrite Hnp, (proj2 (Z.eqb_neq _ _) (not_eq_sym Hp)).
  all: rewrite <- (like_ring a t Hi Hl), <- Hnp in Hhd.
  all: eapply acts_bind; [eapply read_one_runs; [done|apply Hl|by rewrite Hnp|exact Hn| |exact Hhd]|].
  all: try (symmetry; apply Hl).
  all: intros r u [-> Hu]; pose proof (between_like _ _ _ _ Hl Hu) as Hlu.
  - rewrite frame_length, keep_good by (done || lia). cbn [fst snd].
    rewrite Nat2Z.id, (like_ring a t Hi Hl), Hnp, Hfr.
    eapply acts_weaken; [apply (IH fuel (set_next_packet next self) u (result ++ [frame])); [done|done|done|lia]|].
    intros r w (-> & Hw & -> & ->). rewrite <- app_assoc. repeat (split; [done|]). by eapply boundary_at_end.
  - rewrite keep_bad by done. cbn [fst snd].
    eapply acts_weaken; [apply (IH fuel (set_next_packet next self) u (result ++ [])); [done|done|done|lia]|].
    intros r w (-> & Hw & -> & ->). rewrite app_nil_r. repeat (split; [done|]). by eapply boundary_at_end.
Qed.

Lemma read_packets_runs fuel n self frames a :
  io_base self = base → idle a → ring_holds a n (next_packet self) frames → (n < fuel)%nat →
  runs_on a (read_packets fuel self) (λ r u,
    r = (frames, set_next_packet (curr_page a) self) ∧ like a u ∧
    regs u BNRY = (if (n =? 0)%nat then regs a BNRY else page_before (curr_page a)) ∧
    isr u = if (n =? 0)%nat then isr a else Z.ldiff (isr a) REMOTE_DMA_COMPLETE).
Proof.
  intros Hb Hi Hr Hf. pose proof Hi as [Hp Ht Hs1 Hs2 Hm]. unfold read_packets. cmd_step.
  eapply acts_step.
  { apply (acts_read _ _ 8 (port self RX_CURRENT_PAGE) (curr_page a)). intros d Hd. unfold port. rewrite Hb.
    destruct (law_curr d) as [Hv Hw]; [by rewrite Hd|]. rewrite Hv, Hw, Hd. by split. }
  cmd_step.
  assert (nic_command 0 34 (nic_command 0 98 a) = a) as E by (destruct a; cbn in *; by subst).
  match goal with |- acts _ ?x _ _ => change x with (nic_command 0 34 (nic_command 0 98 a)) end. rewrite E.
  exact (read_loop_runs fuel n _ self frames a a [] Hb Hi (like_refl a Hi) Hr eq_refl Hf).
Qed.

(** ** Interrupts *)

Definition cleared (status f s : Z) : Z := if contains status f then Z.ldiff s f else s.

Lemma clear_when_runs self status f a :
  io_base self = base → page a = 0 →
  runs_on a (io_when (contains status f) (clear_isr self f))
    (λ r t, r = tt ∧ t = set_isr (cleared status f (isr a)) a).
Proof.
  intros Hb Hp. unfold cleared, io_when. destruct (contains status f); [by apply clear_isr_runs|].
  apply acts_ret. split; [done|]. by destruct a.
Qed.

Lemma no_panic_runs {B} status f why (k : unit → IO B) a Q :
  contains status f = false → runs_on a (k tt) Q → runs_on a (io_when (contains status f) (io_panic why) ≫= k) Q.
Proof. intros Hc Hk. rewrite Hc. eapply acts_step; [by apply acts_ret|]. exact Hk. Qed.

(** The flags that [notify_irq] knows how to clear. *)
Definition known_flags : Z := Z.lor (Z.lor RX_OK COUNTER_MSB) REMOTE_DMA_COMPLETE.

Definition all_known (s : Z) : Prop :=
  contains s TX_OK = false ∧ contains s INT_RESET = false ∧ contains s INT_ERRORS = false ∧
  cleared s REMOTE_DMA_COMPLETE (cleared s COUNTER_MSB (cleared s RX_OK s)) = 0 ∧
  cleared s REMOTE_DMA_COMPLETE (cleared s COUNTER_MSB
    (cleared s RX_OK (Z.ldiff s REMOTE_DMA_COMPLETE))) = 0.

Lemma known_flags_ok s : is_byte s → Z.land s known_flags = s → all_known s.
Proof.
  intros Hr Hs. unfold is_byte in Hr.
  assert (Forall (λ s, Z.land s known_flags = s →
    contains s TX_OK = false ∧ contains s INT_RESET = false ∧ contains s INT_ERRORS = false ∧
    cleared s REMOTE_DMA_COMPLETE (cleared s COUNTER_MSB (cleared s RX_OK s)) = 0 ∧
    cleared s REMOTE_DMA_COMPLETE (cleared s COUNTER_MSB
      (cleared s RX_OK (Z.ldiff s REMOTE_DMA_COMPLETE))) = 0) (seqZ 0 256)) as Hall
    by (apply (bool_decide_unpack _); vm_compute; exact I).
  rewrite Forall_seqZ in Hall. by apply Hall; [lia|].
Qed.

Lemma set_isr_idle a v : idle a → idle (set_isr v a).
Proof. intros []. by constructor. Qed.

Lemma idle_poll a : idle a → nic_poll a = a.
Proof. intros Hi. unfold nic_poll. by rewrite (idle_tx a Hi). Qed.

(** The end of the loop: no flag is left. *)
Lemma irq_loop_end fuel inner self result a :
  io_base self = base → idle a → isr a = 0 →
  runs_on a (irq_loop (S fuel) inner self result) (λ r t, r = (result, self) ∧ t = a).
Proof.
  intros Hb Hi H0. cbn [irq_loop]. eapply acts_step; [apply read_isr_runs; [done|apply Hi]|].
  rewrite H0, idle_poll by done. by apply acts_ret.
Qed.

(** The flags of a round after its frames were read. *)
Lemma irq_clear_runs {B} self status s a (k : IO B) Q :
  io_base self = base → idle a → all_known status → isr a = cleared status RX_OK s →
  (s = status ∨ s = Z.ldiff status REMOTE_DMA_COMPLETE) →
  runs_on (set_isr 0 a) k Q →
  runs_on a (_ ← io_when (contains status COUNTER_MSB) (clear_isr self COUNTER_MSB);
             _ ← io_when (contains status REMOTE_DMA_COMPLETE) (clear_isr self REMOTE_DMA_COMPLETE);
             _ ← io_when (contains status TX_OK) (io_panic "ne2k: TX_OK set unexpectedly");
             _ ← io_when (contains status INT_RESET) (io_panic "ne2k: RESET set unexpectedly");
             _ ← io_when (contains status INT_ERRORS) (io_panic "not yet implemented: ne2k: ERROR => handle");
             k) Q.
Proof.
  intros Hb Hi (H1 & H2 & H3 & H4 & H5) Hs Hor Hk. pose proof (idle_page a Hi) as Hp.
  eapply acts_step; [by apply clear_when_runs|]. eapply acts_step; [by apply clear_when_runs|].
  do 3 (apply no_panic_runs; [done|]). cbn [isr set_isr]. rewrite Hs.
  destruct Hor as [-> | ->]; [rewrite H4|rewrite H5]; exact Hk.
Qed.

(** C37: an interrupt of the card delivers the frames of the ring: when the ring holds [frames] from
    the driver's page on, the flag for received frames is up and no flags but the known ones are, [notify_irq] returns the frames, all
    of them and in order, leaves the driver at the card's current page, the boundary before it (where it
    was, when the ring is empty) and no flag up, and neither the card's memory nor what it sent has changed. *)
Theorem ne2k_delivers_frames self n frames d :
  io_base self = base → idle (view d) → is_byte (isr (view d)) →
  Z.land (isr (view d)) known_flags = isr (view d) → contains (isr (view d)) RX_OK = true →
  ring_holds (view d) n (next_packet self) frames →
  ∃ d', notify_irq 2 (S n) self d =
      Some (Ret ((frames, set_next_packet (curr_page (view d)) self), d')) ∧
    isr (view d') = 0 ∧ mem (view d') = mem (view d) ∧ wire (view d') = wire (view d) ∧
    regs (view d') BNRY = if (n =? 0)%nat then regs (view d) BNRY else page_before (curr_page (view d)).
Proof.
  intros Hb Hi Hbyte Hk Hrx Hr. pose proof (known_flags_ok _ Hbyte Hk) as Hall. set (a := view d) in *.
  assert (runs_on a (notify_irq 2 (S n) self) (λ r t, r = (frames, set_next_packet (curr_page a) self) ∧
    isr t = 0 ∧ mem t = mem a ∧ wire t = wire a ∧
    regs t BNRY = if (n =? 0)%nat then regs a BNRY else page_before (curr_page a))) as Hrun.
  { unfold notify_irq. cbn [irq_loop]. eapply acts_step; [apply read_isr_runs; [done|apply Hi]|].
    rewrite idle_poll by done. destruct (Z.eqb_spec (isr a) 0) as [E|_]; [by rewrite E in Hrx|]. rewrite Hrx.
    eapply acts_bind; [eapply acts_bind; [by apply (read_packets_runs (S n) n); [..|lia]|]|].
    - intros r u Hu. eapply acts_step.
      { apply clear_isr_runs; [by destruct Hu as [-> _]|]. destruct Hu as (_ & (? & _) & _). by apply idle_page. }
      apply acts_ret. instantiate (1 := λ r v, r = (frames, set_next_packet (curr_page a) self) ∧ idle v ∧
        mem v = mem a ∧ wire v = wire a ∧
        regs v BNRY = (if (n =? 0)%nat then regs a BNRY else page_before (curr_page a)) ∧
        isr v = Z.ldiff (if (n =? 0)%nat then isr a else Z.ldiff (isr a) REMOTE_DMA_COMPLETE) RX_OK).
      destruct Hu as (-> & (Hiu & Hm & Hw & _) & Hbn & Hisr). split; [done|]. split; [by apply set_isr_idle|].
      cbn [mem wire regs isr set_isr]. by rewrite Hisr.
    - intros r v (-> & Hiv & Hm & Hw & Hbn & Hisr). cbn [fst snd].
      eapply (irq_clear_runs _ (isr a) (if (n =? 0)%nat then isr a else Z.ldiff (isr a) REMOTE_DMA_COMPLETE));
        [done|done|done| |by destruct n; [left|right]|].
      { unfold cleared. by rewrite Hrx. }
      eapply acts_last; [apply (irq_loop_end 0); [done|by apply set_isr_idle|done]|]. done. }
  destruct (Hrun d eq_refl) as (r & d' & E & -> & HQ). by exists d'.
Qed.

(** A single error flag is never cleared, since [contains] asks for all three: the handler of the
    interrupt does not return. *)
Theorem ne2k_error_hangs fuel inner self d :
  io_base self = base → idle (view d) →
  (isr (view d) = 0x10 ∨ isr (view d) = 0x08 ∨ isr (view d) = 0x04) →
  notify_irq fuel inner self d = None.
Proof.
  intros Hb Hi Hs. unfold notify_irq. generalize ([] : list (list Z)) as result.
  revert d Hi Hs. induction fuel as [|fuel IH]; intros d Hi Hs result; [done|]. cbn [irq_loop].
  destruct (read_isr_runs self (view d) Hb (idle_page _ Hi) d eq_refl) as (v & d' & E & -> & Hv).
  rewrite idle_poll in Hv by done. rewrite (bind_some _ _ _ _ _ E).
  destruct Hs as [Hs|[Hs|Hs]]; rewrite Hs; cbn -[irq_loop]; apply IH; rewrite ?Hv; auto.
Qed.

(** ** Sending *)

Lemma poll_runs self f a :
  io_base self = base → page a = 0 →
  runs_on a (s ← read_isr self; mret (contains s f)) (λ b t, b = contains (isr a) f ∧ t = nic_poll a).
Proof. intros Hb Hp. eapply acts_step; [by apply read_isr_runs|]. by apply acts_ret. Qed.

Lemma contains_lor s f : contains (Z.lor s f) f = true.
Proof.
  apply Z.eqb_eq, Z.bits_inj'. intros n Hn. rewrite Z.land_spec, Z.lor_spec.
  by destruct (Z.testbit s n), (Z.testbit f n).
Qed.

(** A flag that is up ends the loop. *)
Lemma until_up_runs fuel self f a :
  io_base self = base → page a = 0 → tx a = None → contains (isr a) f = true →
  runs_on a (io_until (S fuel) (s ← read_isr self; mret (contains s f))) (λ _ t, t = a).
Proof.
  intros Hb Hp Ht Hc. cbn [io_until]. eapply acts_step; [by apply poll_runs|]. rewrite Hc. apply acts_ret.
  unfold nic_poll. by rewrite Ht.
Qed.

Lemma until_sent_runs fuel b self a :
  io_base self = base → page a = 0 → tx a = Some b → contains (isr a) TX_OK = false → (S b < fuel)%nat →
  runs_on a (io_until fuel (s ← read_isr self; mret (contains s TX_OK)))
    (λ _ t, t = set_tx None (set_isr (Z.lor (isr a) TX_OK) a)).
Proof.
  intros Hb. revert b a. induction fuel as [|fuel IH]; intros b a Hp Ht Hc Hf; [lia|].
  cbn [io_until]. eapply acts_step; [by apply poll_runs|]. rewrite Hc. unfold nic_poll. rewrite Ht.
  destruct b as [|b].
  - destruct fuel as [|fuel]; [lia|]. apply until_up_runs; [done..|]. apply contains_lor.
  - eapply acts_weaken; [apply (IH b); [done..|lia]|]. by intros _ t ->.
Qed.

(** The card's memory after the words of a packet. *)
Fixpoint stored (packet : list Z) (k : Z) (m : Z → Z) : Z → Z :=
  match packet with
  | [] => m
  | [lo] => <[k + 1 := 0]> (<[k := lo]> m)
  | lo :: hi :: packet => stored packet (k + 2) (<[k + 1 := hi]> (<[k := lo]> m))
  end.

Lemma word_parts lo hi :
  is_byte lo → is_byte hi → from_le [lo; hi] mod 256 = lo ∧ Z.shiftr (from_le [lo; hi]) 8 mod 256 = hi.
Proof.
  intros Hl Hh. unfold is_byte in *. cbn [from_le]. rewrite Z.mul_0_r, Z.add_0_r, Z.shiftr_div_pow2 by lia.
  change (2 ^ 8) with 256. rewrite (Z.mul_comm 256), Z_mod_plus_full, Z.div_add, (Z.div_small lo) by lia.
  rewrite !Z.mod_small by lia. lia.
Qed.

Lemma word_out_runs self lo hi a :
  io_base self = base → is_byte lo → is_byte hi →
  runs_on a (write_port 16 (port self REMOTE_DMA) (from_le [lo; hi]))
    (λ r t, r = tt ∧ t = dma_moved (set_mem (<[dma a + 1 := hi]> (<[dma a := lo]> (mem a))) a)).
Proof.
  intros Hb Hl Hh. apply acts_write. intros d <-. unfold port. rewrite Hb, law_word_out. unfold nic_word_out.
  destruct (word_parts lo hi Hl Hh) as [-> ->]. done.
Qed.

(** The last word, and only it, completes the transfer. *)
Lemma words_runs self packet a :
  io_base self = base → packet ≠ [] → Forall is_byte packet → dma a + Z.of_nat (length packet) + 1 < stop_addr a →
  left a = Z.of_nat (length packet) →
  runs_on a (io_each (write_port 16 (port self REMOTE_DMA)) (packet_words packet)) (λ _ t,
    ∃ k l, t = set_isr (Z.lor (isr a) REMOTE_DMA_COMPLETE) (set_dma k l (set_mem (stored packet (dma a) (mem a)) a))).
Proof.
  intros Hb. revert a. induction packet as [|lo|lo hi packet IH] using list_pair_ind; intros a Hne Hby Hd Hl; [done|..].
  - apply Forall_cons_1 in Hby as [Hlo _]. cbn [packet_words io_each].
    eapply acts_step; [by apply word_out_runs|]. apply acts_ret. unfold dma_moved. cbn [left set_mem].
    rewrite (proj2 (Z.leb_le (left a) 2)) by (cbn in Hl; lia). by eexists _, _.
  - apply Forall_cons_1 in Hby as [Hlo Hby]. apply Forall_cons_1 in Hby as [Hhi Hby]. cbn [packet_words io_each].
    eapply acts_step; [by apply word_out_runs|]. unfold dma_moved. cbn [left set_mem dma stop_addr].
    change (stop_addr (set_mem _ a)) with (stop_addr a). change (start_addr (set_mem _ a)) with (start_addr a).
    cbn [length] in Hd, Hl. rewrite (proj2 (Z.eqb_neq (dma a + 2) (stop_addr a))) by lia.
    destruct packet as [|x packet].
    + rewrite (proj2 (Z.leb_le (left a) 2)) by (cbn in Hl; lia). apply acts_ret. by eexists _, _.
    + rewrite (proj2 (Z.leb_gt (left a) 2)) by (cbn in Hl; lia).
      eapply acts_weaken; [apply IH|].
      * done.
      * done.
      * cbn [length dma set_dma] in *. change (stop_addr (set_dma _ _ _)) with (stop_addr a). lia.
      * cbn [length left set_dma] in *. lia.
      * intros _ t (k & l & ->). by exists k, l.
Qed.

Lemma stored_low packet k m j : j < k → stored packet k m j = m j.
Proof.
  revert k m. induction packet as [|lo|lo hi packet IH] using list_pair_ind; intros k m Hj; cbn [stored]; [done|..].
  - by rewrite !fn_lookup_insert_ne by lia.
  - rewrite IH by lia. by rewrite !fn_lookup_insert_ne by lia.
Qed.

Lemma stored_packet packet k m :
  stored packet k m <$> seqZ k (Z.of_nat (length packet)) = packet.
Proof.
  revert k m. induction packet as [|lo|lo hi packet IH] using list_pair_ind; intros k m; [done|..].
  - cbn [length]. rewrite seqZ_cons by lia. cbn [fmap list_fmap stored].
    rewrite fn_lookup_insert_ne, fn_lookup_insert by lia. done.
  - cbn [length]. rewrite seqZ_cons, seqZ_cons by lia. cbn [fmap list_fmap stored].
    rewrite !stored_low by lia. rewrite fn_lookup_insert_ne, fn_lookup_insert by lia.
    replace (Z.succ k) with (k + 1) by lia. rewrite fn_lookup_insert. do 2 f_equal.
    replace (Z.succ (k + 1)) with (k + 2) by lia.
    replace (Z.pred (Z.pred (Z.of_nat (S (S (length packet)))))) with (Z.of_nat (length packet)) by lia. apply IH.
Qed.

Lemma transmit_runs self a :
  io_base self = base →
  runs_on a (write_cmd self 0 NoDMA true true) (λ _ t, ∃ b, (b ≤ delay)%nat ∧
    t = set_tx (Some b) (set_wire (wire a ++
      [mem a <$> seqZ (regs a W_TPSR * 256) (regs a W_TBCR1 * 256 + regs a W_TBCR0)]) (set_page 0 a))).
Proof.
  intros Hb d <-. unfold write_cmd. change (cmd 0 NoDMA true true) with (Ret 0x26).
  change ((io_lift (Ret 0x26) ≫= (λ v, reg_write self CMD v)) d) with (reg_write self CMD 0x26 d).
  eexists _, _. split; [done|]. unfold port. rewrite Hb.
  destruct (law_command 0x26 d) as (b & Hd & ->). by exists b.
Qed.

Lemma contains_other s : contains (Z.lor s REMOTE_DMA_COMPLETE) TX_OK = contains s TX_OK.
Proof. unfold contains. by rewrite Z.land_lor_distr_l, Z.lor_0_r. Qed.

Lemma flags_after_send s :
  Z.ldiff (Z.lor (Z.lor s REMOTE_DMA_COMPLETE) TX_OK) (Z.lor REMOTE_DMA_COMPLETE TX_OK) =
  Z.ldiff s (Z.lor REMOTE_DMA_COMPLETE TX_OK).
Proof. rewrite <- Z.lor_assoc. apply ldiff_lor. Qed.

(** [send] puts the packet on the wire, byte for byte: for a packet of one to 1536 bytes and an
    idle card that reports a transmission within [delay] polls, [send] returns, the card has sent the
    packet and nothing else, and the flags of the transfer are down again.  The packet was staged
    from page 0x40 on, the first page of the ring of received frames, which it overwrites. *)
Theorem ne2k_sends_packet fuel self packet d :
  io_base self = base → idle (view d) → contains (isr (view d)) TX_OK = false →
  (0 < length packet ≤ 1536)%nat → Forall is_byte packet → (S delay < fuel)%nat →
  ∃ d', send fuel self packet d = Some (Ret (tt, d')) ∧ idle (view d') ∧
    wire (view d') = wire (view d) ++ [packet] ∧
    isr (view d') = Z.ldiff (isr (view d)) (Z.lor REMOTE_DMA_COMPLETE TX_OK) ∧
    mem (view d') = stored packet (PSTART * 256) (mem (view d)) ∧ curr_page (view d') = curr_page (view d).
Proof.
  intros Hb Hi Hc Hlen Hby Hf. set (a := view d) in *.
  assert (runs_on a (send fuel self packet) (λ r t, r = tt ∧ page t = 0 ∧ tx t = None ∧
    regs t W_PSTART = PSTART ∧ regs t W_PSTOP = PSTOP ∧ wire t = wire a ++ [packet] ∧
    isr t = Z.ldiff (isr a) (Z.lor REMOTE_DMA_COMPLETE TX_OK) ∧
    mem t = stored packet (PSTART * 256) (mem a) ∧ curr_page t = curr_page a)) as Hrun.
  { unfold send. eapply acts_bind; [by eapply start_dma_runs; [..|right]|]. intros _ t (Hit & Hst & Hisr & Hd & Hl).
    rewrite len_parts in Hl by lia. destruct (idle_bounds t Hit) as [_ Hstop]. destruct Hit as [Hp Ht Hs1 Hs2 _].
    eapply acts_bind; [apply words_runs; [done|by intros ->; cbn in Hlen; lia|done|lia|done]|].
    intros _ u (k & l & ->). destruct fuel as [|fuel]; [lia|].
    eapply acts_bind; [apply until_up_runs; [done..|apply contains_lor]|]. intros _ ? ->.
    do 3 (reg_step; rewrite nic_out_page0 by done). eapply acts_bind; [by apply transmit_runs|].
    intros _ u (b & Hbd & ->). eapply acts_bind; [apply (until_sent_runs (S fuel) b); [done..| |lia]|].
    { cbn [isr set_tx set_wire set_page set_reg set_isr]. by rewrite contains_other, Hisr. }
    intros _ ? ->. eapply acts_last; [by apply clear_isr_runs|]. unfold ring_state in Hst.
    injection Hst as Hm Hw _ _ _ Hcu. cbn [isr set_tx set_wire set_page set_reg set_isr wire mem regs page tx set_dma set_mem].
    rewrite flags_after_send, Hisr, Hw, Hm, Hd, Z.add_0_r.
    do 5 (split; [done|]). split; [|by repeat split].
    do 2 f_equal. set (len := Z.of_nat (length packet)).
    match goal with |- _ <$> ?l = _ => change l with (seqZ (64 * 256) (Z.shiftr len 8 mod 256 * 256 + len mod 256)) end.
    rewrite len_parts by lia. apply stored_packet. }
  destruct (Hrun d eq_refl) as (r & d' & E & -> & Hp & Ht & Hs1 & Hs2 & Hw & Hisr & Hm & Hcu).
  exists d'. split; [done|]. split; [constructor; try done; intros k; apply law_mem|]. done.
Qed.

(** ** Start *)

Lemma byte_in_runs self a :
  io_base self = base →
  runs_on a (reg_read self REMOTE_DMA) (λ r t, r = mem a (dma a) ∧ t = dma_moved a).
Proof. intros Hb. apply acts_read. intros d <-. unfold port. rewrite Hb. apply law_byte_in. Qed.

(** [n] bytes of the card's address, from an address below the ring. *)
Lemma mac_runs self n a :
  io_base self = base → 0 ≤ dma a → dma a + 2 * Z.of_nat n < 256 →
  runs_on a (io_times n (reg_read self REMOTE_DMA)) (λ r t,
    r = (λ i, mem a (dma a + 2 * i)) <$> seqZ 0 (Z.of_nat n) ∧ transferred a t).
Proof.
  intros Hb. revert a. induction n as [|n IH]; intros a H0 Hd; cbn [io_times].
  { apply acts_ret. split; [done|]. exists (dma a), (left a), (isr a). by destruct a. }
  eapply acts_step; [by apply byte_in_runs|]. pose proof (moved_transferred a) as Ht.
  assert (dma (dma_moved a) = dma a + 2) as Hm.
  { rewrite dma_moved_addr. unfold stop_addr. destruct (Z.eqb_spec (dma a + 2) (regs a W_PSTOP * 256)); lia. }
  eapply acts_bind; [apply IH; lia|]. intros r t [-> Ht2]. apply acts_ret.
  split; [|by eapply transferred_trans]. rewrite mem_moved, Hm, (seqZ_cons 0 (Z.of_nat (S n))) by lia. rewrite fmap_cons. f_equal.
  { f_equal. lia. }
  rewrite <- (fmap_add_seqZ 1 0), <- list_fmap_compose. replace (Z.pred (Z.of_nat (S n))) with (Z.of_nat n) by lia.
  apply list_fmap_ext. intros i x _. cbn. f_equal. lia.
Qed.

(** The address registers of page 1. *)
Lemma address_runs self l a :
  io_base self = base → page a = 1 → Forall (λ x, 0 ≤ x.1 < 6) l →
  runs_on a (io_each (λ x, reg_write self (x.1 + 1) x.2) l) (λ _ t, ∃ rg,
    t = MkNic (page a) rg (isr a) (dma a) (left a) (mem a) (tx a) (wire a) ∧ ∀ k, 0 ≤ k < 32 → rg k = regs a k).
Proof.
  intros Hb Hp Hl. revert a Hp. induction Hl as [|x l Hx Hl IH]; intros a Hp; cbn [io_each].
  { apply acts_ret. exists (regs a). by destruct a. }
  eapply acts_step; [apply reg_write_runs; [done|unfold CMD; lia|lia]|].
  assert (nic_out (x.1 + 1) x.2 a = set_reg (32 + (x.1 + 1)) x.2 a) as ->.
  { unfold nic_out. rewrite Hp, (proj2 (Z.eqb_neq (x.1 + 1) RESET)) by (unfold RESET; lia). done. }
  eapply acts_weaken; [by apply IH|]. intros _ t (rg & -> & Hrg). exists rg. split; [done|].
  intros k Hk. rewrite Hrg by done. cbn [regs set_reg]. by rewrite fn_lookup_insert_ne by lia.
Qed.

Definition card_address (m : Z → Z) : list Z := (λ i, m (2 * i)) <$> seqZ 0 6.

Lemma imap_bounds (l : list Z) : (length l ≤ 6)%nat → Forall (λ x : Z * Z, 0 ≤ x.1 < 6) (imap (λ i v, (Z.of_nat i, v)) l).
Proof.
  intros Hl. apply Forall_lookup. intros i x Hx. apply list_lookup_imap_Some in Hx as (v & Hv & ->).
  apply lookup_lt_Some in Hv. cbn [fst]. lia.
Qed.

Lemma out_page0 n v rg i dm lf mm t w :
  n ≠ RESET → n ≠ ISR → nic_out n v (MkNic 0 rg i dm lf mm t w) = MkNic 0 (<[n := v]> rg) i dm lf mm t w.
Proof. intros H1 H2. by rewrite nic_out_page0. Qed.

Lemma out_page1 n v rg i dm lf mm t w :
  n ≠ RESET → nic_out n v (MkNic 1 rg i dm lf mm t w) = MkNic 1 (<[32 + n := v]> rg) i dm lf mm t w.
Proof. intros H1. unfold nic_out. by rewrite (proj2 (Z.eqb_neq _ _) H1). Qed.

Lemma out_isr v rg i dm lf mm t w :
  nic_out ISR v (MkNic 0 rg i dm lf mm t w) = MkNic 0 rg (Z.ldiff i v) dm lf mm t w.
Proof. done. Qed.

Lemma command_page v pg p rg i dm lf mm t w :
  Z.land (Z.shiftr v 3) 7 = 4 → Z.testbit v 2 = false → Z.shiftr v 6 = pg →
  nic_command 0 v (MkNic p rg i dm lf mm t w) = MkNic pg rg i dm lf mm t w.
Proof. intros H1 H2 <-. unfold nic_command. by rewrite H1, H2. Qed.

Ltac out_step :=
  reg_step; first [rewrite out_isr | rewrite out_page0 by done | rewrite out_page1 by done].
Ltac page_step pg := cmd_step; rewrite (command_page _ pg) by reflexivity.

Lemma reset_runs fuel self a :
  io_base self = base → page a = 0 → tx a = None →
  runs_on a (reset (S fuel) self) (λ r t, r = set_mac_addr (card_address (mem a)) self ∧ page t = 0 ∧
    tx t = None ∧ regs t W_PSTART = PSTART ∧ regs t W_PSTOP = PSTOP ∧ curr_page t = next_packet self ∧
    wire t = wire a ∧ Z.ldiff (isr t) REMOTE_DMA_COMPLETE = 0).
Proof.
  intros Hb. destruct a as [pg rg i dm lf mm tx0 w]. cbn [page tx mem wire]. intros -> ->. unfold reset.
  eapply (acts_bind _ _ _ _ (λ _ t, t = MkNic 0 rg i dm lf mm None w)).
  { intros e He. unfold reg_read. rewrite read_some. eexists _, _. split; [done|]. unfold port.
    by rewrite Hb, law_reset_in, He. }
  intros v ? ->. reg_step. eapply acts_bind.
  { cbn [io_until]. eapply acts_step; [eapply acts_step; [by apply read_isr_runs|by apply acts_ret]|].
    by apply (acts_ret _ _ _ (λ _ t, t = MkNic 0 rg INT_RESET dm lf mm None w)). }
  intros _ ? ->. out_step. page_step 0. do 5 out_step. do 6 out_step. cmd_step.
  match goal with |- acts _ ?x _ _ => assert (∃ rg' lf', x = MkNic 0 rg' 0 0 lf' mm None w) as (rg1 & lf1 & ->)
    by (eexists _, _; reflexivity) end.
  eapply acts_bind; [by apply mac_runs|]. intros mac ? [-> (dm2 & lf2 & i2 & -> & Hi2)]. cbn zeta.
  change (set_isr i2 _) with (MkNic 0 rg1 i2 dm2 lf2 mm None w). do 5 out_step. do 2 page_step 1.
  eapply acts_bind; [apply address_runs; [done|done|apply imap_bounds; by rewrite length_fmap, length_seqZ]|].
  intros _ t (rg3 & -> & Hrg). cbn [page isr dma left mem tx wire regs] in *.
  out_step. page_step 1. out_step. page_step 0. do 2 out_step. apply acts_ret.
  split; [done|]. do 2 (split; [done|]). split; [by apply (Hrg 1)|]. split; [by apply (Hrg 2)|]. done.
Qed.

(** After [reset] the card's address is known, the ring is set up and empty, and no flag is up but
    that of the transfer of the address: the next interrupt starts from the state that
    [ne2k_delivers_frames] asks for. *)
Theorem ne2k_reset_ready fuel self d :
  io_base self = base → page (view d) = 0 → tx (view d) = None →
  ∃ d', reset (S fuel) self d = Some (Ret (set_mac_addr (card_address (mem (view d))) self, d')) ∧
    idle (view d') ∧ ring_holds (view d') 0 (next_packet self) [] ∧ wire (view d') = wire (view d) ∧
    Z.ldiff (isr (view d')) REMOTE_DMA_COMPLETE = 0.
Proof.
  intros Hb Hp Ht.
  destruct (reset_runs fuel self _ Hb Hp Ht d eq_refl) as (r & d' & E & -> & Hp' & Ht' & Hs1 & Hs2 & Hc & Hw & Hi).
  exists d'. split; [done|]. split; [constructor; try done; intros k; apply law_mem|].
  split; [rewrite <- Hc; constructor|]. done.
Qed.

End props.

(** ** A card that keeps the laws, at port 0xc000 and slow to send *)

Record ByteNic := MkByteNic { nic : Nic; nic_bytes : ∀ k, is_byte (mem nic k) }.

Definition card_out (width port v : Z) (a : Nic) : Nic :=
  let n := port - 0xc000 in
  if (width =? 16) && (n =? REMOTE_DMA) then nic_word_out v a
  else if n =? CMD then nic_command 3 v a
  else nic_out n v a.

Definition card_in (width port : Z) (a : Nic) : Z * Nic :=
  let n := port - 0xc000 in
  if n =? REMOTE_DMA then
    (if width =? 16 then nic_word a else mem a (dma a), dma_moved a)
  else if n =? ISR then (if page a =? 0 then (isr a, nic_poll a) else (curr_page a, a))
  else (0, a).

Lemma card_out_bytes width port v a :
  (∀ k, is_byte (mem a k)) → ∀ k, is_byte (mem (card_out width port v a) k).
Proof.
  intros Hm k. unfold card_out. repeat case_match; try apply Hm.
  - unfold nic_word_out. rewrite mem_moved. cbn [mem set_mem].
    assert (∀ x, is_byte (x mod 256)) as Hx by (intros x; apply Z.mod_pos_bound; lia).
    destruct (decide (dma a + 1 = k)) as [<-|]; [by rewrite fn_lookup_insert|]. rewrite fn_lookup_insert_ne by done.
    destruct (decide (dma a = k)) as [<-|]; [by rewrite fn_lookup_insert|]. by rewrite fn_lookup_insert_ne by done.
  - unfold nic_command. repeat case_match; apply Hm.
  - unfold nic_out. repeat case_match; apply Hm.
Qed.

Lemma card_in_bytes width port a :
  (∀ k, is_byte (mem a k)) → ∀ k, is_byte (mem (card_in width port a).2 k).
Proof.
  intros Hm k. unfold card_in. cbn zeta. destruct (_ =? REMOTE_DMA); [cbn [snd]; rewrite mem_moved; apply Hm|].
  repeat case_match; cbn [snd]; try apply Hm. unfold nic_poll. repeat case_match; apply Hm.
Qed.

Definition ref_card : Device := {|
  Dev := ByteNic;
  port_in := λ w p d, ((card_in w p (nic d)).1, MkByteNic _ (card_in_bytes w p (nic d) (nic_bytes d)));
  port_out := λ w p v d, MkByteNic _ (card_out_bytes w p v (nic d) (nic_bytes d));
|}.

#[local] Existing Instance ref_card.

#[local] Program Instance ref_card_laws : NicLaws 0xc000 := {| view := nic; delay := 3 |}.
Next Obligation. intros d a. apply (nic_bytes d). Qed.
Next Obligation. intros v d. exists 3%nat. by split. Qed.
Next Obligation.
  intros n v d Hn Hr. cbn [port_out ref_card nic]. unfold card_out. rewrite Z.mod_small by lia.
  replace (0xc000 + n - 0xc000) with n by lia. change (8 =? 16) with false. cbn [andb].
  by rewrite (proj2 (Z.eqb_neq _ _) Hn).
Qed.
Next Obligation. done. Qed.
Next Obligation. intros d Hp. unfold port_in. cbn. unfold card_in. cbn. by rewrite Hp. Qed.
Next Obligation. intros d Hp. unfold port_in. cbn. unfold card_in. cbn. by rewrite Hp. Qed.
Next Obligation. done. Qed.
Next Obligation. done. Qed.
Next Obligation. done. Qed.

(** One frame of 60 bytes at page 0x41. *)
Definition sample_mem (k : Z) : Z :=
  if k =? 0x4100 then 1 else if k =? 0x4101 then 0x42 else if k =? 0x4102 then 64 else if k =? 0x4103 then 0 else 9.
Definition sample_regs (k : Z) : Z :=
  if k =? W_PSTART then PSTART else if k =? W_PSTOP then PSTOP else if k =? 39 then 0x42 else 0x40.

Definition sample_card : @Dev ref_card.
Proof.
  refine (MkByteNic (MkNic 0 sample_regs RX_OK 0 0 sample_mem None []) _).
  intros k. cbn [mem]. unfold sample_mem, is_byte. repeat case_match; lia.
Defined.

Definition sample_driver : Ne2k :=
  MkNe2k (MkPciDevice 0x8029 0x10ec (Loc 0 3 0) (Cls 2 0 0)) 11 0xc000 false [] 0x41.

Lemma sample_idle : idle (view (base := 0xc000) sample_card).
Proof. constructor; try done. apply (nic_bytes sample_card). Qed.

Lemma ne2k_delivers_frames_witness :
  ∃ d', notify_irq 2 2 sample_driver sample_card =
    Some (Ret (([repeat 9 60], set_next_packet 0x42 sample_driver), d')).
Proof.
  destruct (ne2k_delivers_frames 0xc000 sample_driver 1 [repeat 9 60] sample_card) as (d' & E & _).
  - done.
  - exact sample_idle.
  - by vm_compute.
  - done.
  - done.
  - apply (ring_frame _ 0 0x41 1 0x42); try done.
    + cbn. lia.
    + exact (ring_end (nic sample_card)).
  - by exists d'.
Defined.

Lemma ne2k_sends_packet_witness :
  ∃ d', send 6 sample_driver [1; 2; 3] sample_card = Some (Ret (tt, d')) ∧ wire (nic d') = [[1; 2; 3]].
Proof.
  destruct (ne2k_sends_packet 0xc000 6 sample_driver [1; 2; 3] sample_card) as (d' & E & _ & Hw & _).
  - done.
  - exact sample_idle.
  - done.
  - cbn. lia.
  - by repeat constructor.
  - cbn. lia.
  - exists d'. by split.
Defined.
