(* ===== verification/Rtl8139.v ===== *)
(** * Rtl8139: the driver of the RTL8139 network card (modules/driver_rtl8139)

    The card shares memory with the driver, so beside the ports of a [Device] there are reads and
    writes of memory ([DmaMemory]); the system calls that allocate and map it are parameters.  The
    card is quiet while the driver runs.  Log output is left out; loops that poll run on fuel. *)

From stdpp Require Import base list strings functions.
From Stdlib Require Import ZArith Lia.
From S2P Require Import Prelude Bytes PortIo Pci.
Open Scope Z_scope.

(** ** Constants *)

Definition TX_BUFFER_COUNT : nat := 4.
Definition MAC : Z := 0x00.
Definition MAR0 : Z := 0x08.
Definition MAR4 : Z := 0x12.
Definition TXSTATUS0 : Z := 0x10.
Definition TXADDR0 : Z := 0x20.
Definition RXBUF : Z := 0x30.
Definition COMMAND : Z := 0x37.
Definition CAPR : Z := 0x38.
Definition IMR : Z := 0x3c.
Definition ISR : Z := 0x3e.
Definition TXCFG : Z := 0x40.
Definition RXCFG : Z := 0x44.
Definition MPC : Z := 0x4c.
Definition CFG9346 : Z := 0x50.
Definition CONFIG1 : Z := 0x52.
Definition MSR : Z := 0x58.
Definition BMCR : Z := 0x62.

Definition OWN : Z := 0x2000.
Definition CMD_TX_ENABLE : Z := 0x04.
Definition CMD_RX_ENABLE : Z := 0x08.
Definition CMD_RESET : Z := 0x10.

(** [IntFlags] and [RxStatus], with the bits that [from_bits_truncate] keeps. *)
Definition RXOK : Z := 0x01.
Definition RXERR : Z := 0x02.
Definition TXERR : Z := 0x08.
Definition LINK_CHANGE : Z := 0x20.
Definition SYSTEM_ERROR : Z := 0x8000.
Definition ALL_SUPPORTED : Z :=
  fold_right Z.lor 0 [RXOK; RXERR; 0x04; TXERR; 0x10; LINK_CHANGE; 0x40; 0x2000; SYSTEM_ERROR].
Definition IntFlags_truncate (bits : Z) : Z := Z.land bits ALL_SUPPORTED.
Definition RX_OK : Z := 0x01.
Definition ALL_ERRORS : Z := Z.lor (Z.lor 0x20 0x04) 0x02.
Definition RxStatus_truncate (bits : Z) : Z :=
  Z.land bits (fold_right Z.lor 0 [0x8000; 0x4000; 0x2000; 0x20; 0x10; 0x08; 0x04; 0x02; 0x01]).

Definition contains (flags f : Z) : bool := Z.land flags f =? f.
Definition intersects (flags f : Z) : bool := negb (Z.land flags f =? 0).

Definition PACKET_SIZE_MAX : Z := 0x600.
Definition PACKET_SIZE_MIN : Z := 0x16.
Definition RX_BUFFER_SIZE : Z := 32768.
Definition TX_BUFFER_SIZE : Z := PACKET_SIZE_MAX.

(** ** Memory and its allocation (dma.rs) *)

(** Memory by virtual address, and the system calls [dma_allocate] and [mmap_physical]. *)
Class DmaMemory `{!Device} := {
  mem_get : Z → Dev → Z;
  mem_set : Z → Z → Dev → Dev;
  sys_dma_allocate : Z → IO Z;
  sys_mmap_physical : Z → Z → Z → IO unit;
}.

Record DMARegion := MkRegion { phys : Z; virt : Z }.
Definition VIRTUAL_ADDR : Z := 0x1000000000.

Record Buffers := MkBuffers { rx : DMARegion; rx_offset : Z; tx : list DMARegion; tx_next : nat }.
Record RTL8139 := MkRtl {
  pci_device : PciDevice; irq : Z; io_base : Z; buffers : Buffers; link_up : bool;
}.

Definition set_buffers (b : Buffers) (self : RTL8139) : RTL8139 :=
  MkRtl (pci_device self) (irq self) (io_base self) b (link_up self).
Definition set_rx_offset (v : Z) (b : Buffers) : Buffers := MkBuffers (rx b) v (tx b) (tx_next b).
Definition set_tx_next (v : nat) (b : Buffers) : Buffers := MkBuffers (rx b) (rx_offset b) (tx b) v.

Section driver.
Context `{!Device} `{!DmaMemory}.

(** [mapped] is the value of [MAPPED]. *)
Definition DMARegion_allocate (mapped : bool) (size_bytes : Z) : IO (DMARegion * bool) :=
  p ← sys_dma_allocate size_bytes;
  _ ← (if mapped then mret tt else sys_mmap_physical 0 VIRTUAL_ADDR size_bytes);
  mret (MkRegion p (VIRTUAL_ADDR + p), true).

Definition load8 (k : Z) : IO Z := λ d, Some (Ret (mem_get k d, d)).
Definition store8 (k v : Z) : IO unit := λ d, Some (Ret (tt, mem_set k v d)).
Definition load16 (k : Z) : IO Z := lo ← load8 k; hi ← load8 (k + 1); mret (lo + 256 * hi).

(** [copy_nonoverlapping] from and to the memory. *)
Fixpoint load_bytes (k : Z) (n : nat) : IO (list Z) :=
  match n with
  | O => mret []
  | S n => b ← load8 k; bs ← load_bytes (k + 1) n; mret (b :: bs)
  end.
Fixpoint store_bytes (k : Z) (l : list Z) : IO unit :=
  match l with
  | [] => mret tt
  | b :: l => _ ← store8 k b; store_bytes (k + 1) l
  end.

(** ** rtl8139.rs *)

Definition port (self : RTL8139) (offset : Z) : Z := (io_base self + offset) mod 2 ^ 16.
Definition reg_write (self : RTL8139) (width offset value : Z) : IO unit :=
  write_port width (port self offset) value.
Definition reg_read (self : RTL8139) (width offset : Z) : IO Z := read_port width (port self offset).

Definition reset (fuel : nat) (self : RTL8139) : IO RTL8139 :=
  let self := set_buffers (set_tx_next 0 (set_rx_offset 0 (buffers self))) self in
  _ ← reg_write self 8 COMMAND CMD_RESET;
  _ ← io_until fuel (v ← reg_read self 8 COMMAND; mret (Z.land v CMD_RESET =? 0));
  _ ← reg_write self 8 CFG9346 (Z.lor 0x40 0x80);
  _ ← reg_write self 8 CONFIG1 0;
  _ ← reg_write self 32 MAR0 0xffffffff;
  _ ← reg_write self 32 MAR4 0xffffffff;
  _ ← reg_write self 8 COMMAND (Z.lor CMD_RX_ENABLE CMD_TX_ENABLE);
  _ ← reg_write self 32 RXBUF (phys (rx (buffers self)) mod 2 ^ 32);
  _ ← reg_write self 8 MPC 0;
  _ ← reg_write self 16 BMCR (Z.lor (Z.lor 0x2000 0x1000) 0x0100);
  _ ← reg_write self 8 MSR 0x40;
  _ ← reg_write self 32 RXCFG (fold_right Z.lor 0 [0x02; 0x04; 0x08; 0x80; 0x0700; 0x1000; 0xe000]);
  _ ← reg_write self 32 TXCFG (fold_right Z.lor 0 [0x00; 0x600; 0x3000000]);
  _ ← io_each (λ x, reg_write self 32 (TXADDR0 + x.1 * 4) (phys x.2 mod 2 ^ 32))
        (imap (λ i region, (Z.of_nat i, region)) (tx (buffers self)));
  _ ← reg_write self 8 CFG9346 0x00;
  _ ← reg_write self 8 COMMAND (Z.lor CMD_RX_ENABLE CMD_TX_ENABLE);
  _ ← reg_write self 16 IMR ALL_SUPPORTED;
  _ ← reg_write self 16 ISR 0xffff;
  mret self.

(** [(0..n).map(|_| DMARegion::allocate(size))] *)
Fixpoint allocate_regions (n : nat) (mapped : bool) (size : Z) : IO (list DMARegion * bool) :=
  match n with
  | O => mret ([], mapped)
  | S n =>
      r ← DMARegion_allocate mapped size;
      rs ← allocate_regions n r.2 size;
      mret (r.1 :: rs.1, rs.2)
  end.

Definition RTL8139_new (fuel : nat) (mapped : bool) (pci : PciDevice) : IO RTL8139 :=
  _ ← io_assert (bool_decide ((class0 (class pci), class1 (class pci)) = (2, 0)))
        "assertion failed: `(left == right)`";
  _ ← enable_bus_mastering pci;
  r ← DMARegion_allocate mapped (RX_BUFFER_SIZE + PACKET_SIZE_MAX);
  t ← allocate_regions TX_BUFFER_COUNT r.2 TX_BUFFER_SIZE;
  line ← get_interrupt_line pci;
  irq ← io_lift (expect line "Missing interrupt line");
  bar ← get_bar pci 0;
  reset fuel (MkRtl pci irq (Z.land bar 0xfffffffe mod 2 ^ 16) (MkBuffers r.1 0 t.1 0) false).

(** The offset of the packet behind one of the length. *)
Definition next_offset (offset length : Z) : Z :=
  Z.land ((offset mod 2 ^ 16 + length + 4 + 3) mod 2 ^ 16) 0xfffc mod RX_BUFFER_SIZE.

Definition receive (self : RTL8139) : IO (option (list Z) * RTL8139) :=
  let b := buffers self in
  let packet_start := virt (rx b) + rx_offset b in
  status_bits ← load16 packet_start;
  length ← load16 (packet_start + 2);
  let status := RxStatus_truncate status_bits in
  if status =? 0 then mret (None, self)
  else if negb (contains status RX_OK) then io_panic "not yet implemented: reset?"
  else if (length <? PACKET_SIZE_MIN) || (PACKET_SIZE_MAX <=? length) then io_panic "not yet implemented: reset?"
  else if intersects status ALL_ERRORS then io_panic "not yet implemented: reset?"
  else
    let packet_len := (length - 4) mod 2 ^ 16 in
    packet_buffer ← load_bytes (packet_start + 4) (Z.to_nat packet_len);
    let nic_rx_offset := next_offset (rx_offset b) length in
    _ ← reg_write self 16 CAPR ((rx_offset b - 0x10) mod 2 ^ 16);
    mret (Some packet_buffer,
          set_buffers (set_rx_offset (nic_rx_offset mod RX_BUFFER_SIZE) b) self).

(** [for i in 0..TX_BUFFER_COUNT], from [i] on *)
Fixpoint select_from (self : RTL8139) (n i : nat) : IO (option nat) :=
  match n with
  | O => mret None
  | S n =>
      let potential_buffer := ((tx_next (buffers self) + i) mod 4)%nat in
      status ← reg_read self 32 (TXSTATUS0 + Z.of_nat potential_buffer * 4);
      if negb (Z.land status OWN =? 0) then mret (Some potential_buffer) else select_from self n (S i)
  end.
Definition select_buffer (self : RTL8139) : IO (option nat) := select_from self TX_BUFFER_COUNT 0.

(** The part of [send] after a buffer was found. *)
Definition send_from (self : RTL8139) (packet : list Z) (buffer_index : nat) : IO RTL8139 :=
  let len := Z.of_nat (length packet) in
  let self := set_buffers (set_tx_next ((buffer_index + 1) mod 4) (buffers self)) self in
  region ← io_lift (index_at (tx (buffers self)) buffer_index);
  _ ← store_bytes (virt region) packet;
  _ ← store_bytes (virt region + len) (replicate (Z.to_nat (TX_BUFFER_SIZE - len)) 0);
  _ ← reg_write self 32 (TXSTATUS0 + Z.of_nat buffer_index * 4) (Z.max len 60);
  mret self.

Definition send (self : RTL8139) (packet : list Z) : IO RTL8139 :=
  _ ← io_assert (Z.of_nat (length packet) <=? PACKET_SIZE_MAX) "RTL8139: packet too large";
  o ← select_buffer self;
  buffer_index ← io_lift (expect o "RTL8139: hardware send buffers are full");
  send_from self packet buffer_index.

(** One round of the loop of [notify_irq], before the flags are read again. *)
Definition irq_round (self : RTL8139) (status : Z) : IO (list (list Z) * RTL8139) :=
  r ← (if contains status RXOK then p ← receive self; mret (option_list p.1, p.2) else mret ([], self));
  if contains status RXERR then io_panic "not yet implemented"
  else if contains status TXERR then io_panic "not yet implemented"
  else if contains status LINK_CHANGE then io_panic "not yet implemented: HANDLE THIS"
  else if contains status SYSTEM_ERROR then io_panic "not yet implemented"
  else mret r.

Fixpoint irq_loop (fuel : nat) (self : RTL8139) (status : Z) (received : list (list Z))
    : IO (list (list Z) * RTL8139) :=
  match fuel with
  | O => λ _, None
  | S fuel =>
      if negb (intersects status ALL_SUPPORTED) then mret (received, self)
      else
        r ← irq_round self status;
        value ← reg_read r.2 16 ISR;
        _ ← reg_write r.2 16 ISR value;
        irq_loop fuel r.2 (IntFlags_truncate value) (received ++ r.1)
  end.

Definition notify_irq (fuel : nat) (self : RTL8139) : IO (list (list Z) * RTL8139) :=
  bits ← reg_read self 16 ISR;
  irq_loop fuel self (IntFlags_truncate bits) [].

Definition mac_addr (self : RTL8139) : IO (list Z) :=
  (fix go (l : list Z) : IO (list Z) :=
     match l with
     | [] => mret []
     | i :: l => b ← reg_read self 8 (MAC + i); bs ← go l; mret (b :: bs)
     end) (seqZ 0 6).

(** ** lib.rs: one round of the loop of [main]

    The subscriptions are [irq], [get_mac] and [send]; the answer is what is delivered to
    [netd/received] or returned. *)

Inductive rtl_request := IrqRequest | MacRequest | SendRequest (packet : list Z).
Inductive rtl_answer := Delivered (packets : list (list Z)) | MacAnswer (mac : list Z) | SentAnswer.

Definition rtl8139_round (fuel : nat) (self : RTL8139) (request : rtl_request) : IO (rtl_answer * RTL8139) :=
  match request with
  | IrqRequest => r ← notify_irq fuel self; mret (Delivered r.1, r.2)
  | MacRequest => mac ← mac_addr self; mret (MacAnswer mac, self)
  | SendRequest packet => self ← send self packet; mret (SentAnswer, self)
  end.

End driver.

(** ** The reference card *)

(** [regs] are the registers as written last, [ram] the memory by virtual address. *)
Record Card := MkCard { regs : Z → Z; isr : Z; ram : Z → Z; wire : list (list Z) }.

Definition set_reg (k v : Z) (a : Card) : Card := MkCard (<[k := v]> (regs a)) (isr a) (ram a) (wire a).
Definition set_isr (v : Z) (a : Card) : Card := MkCard (regs a) v (ram a) (wire a).
Definition set_ram (m : Z → Z) (a : Card) : Card := MkCard (regs a) (isr a) m (wire a).
Definition set_wire (w : list (list Z)) (a : Card) : Card := MkCard (regs a) (isr a) (ram a) w.

(** [n] bytes from an address on. *)
Definition bytes_at (m : Z → Z) (k : Z) (n : nat) : list Z := m <$> seqZ k (Z.of_nat n).

(** What the driver relies on: flags are cleared by writing them, and a size written to a transmit
    status sends that much of its buffer. *)
Class CardLaws `{!Device} `{!DmaMemory} (base : Z) := {
  view : Dev → Card;
  law_get k d : mem_get k d = ram (view d) k;
  law_set k v d : view (mem_set k v d) = set_ram (<[k := v]> (ram (view d))) (view d);
  law_capr v d : view (port_out 16 ((base + CAPR) mod 2 ^ 16) v d) = set_reg CAPR v (view d);
  law_isr_in d : (port_in 16 ((base + ISR) mod 2 ^ 16) d).1 = isr (view d) ∧
    view (port_in 16 ((base + ISR) mod 2 ^ 16) d).2 = view d;
  law_isr_out v d : view (port_out 16 ((base + ISR) mod 2 ^ 16) v d) = set_isr (Z.ldiff (isr (view d)) v) (view d);
  law_status_in i d : 0 ≤ i < 4 →
    (port_in 32 ((base + (TXSTATUS0 + i * 4)) mod 2 ^ 16) d).1 = regs (view d) (TXSTATUS0 + i * 4) ∧
    view (port_in 32 ((base + (TXSTATUS0 + i * 4)) mod 2 ^ 16) d).2 = view d;
  law_status_out i v d : 0 ≤ i < 4 → 0 ≤ v < OWN → ∃ s,
    view (port_out 32 ((base + (TXSTATUS0 + i * 4)) mod 2 ^ 16) v d) =
      set_reg (TXSTATUS0 + i * 4) s
        (set_wire (wire (view d) ++
           [bytes_at (ram (view d)) (VIRTUAL_ADDR + regs (view d) (TXADDR0 + i * 4)) (Z.to_nat v)]) (view d));
}.

(** The frames behind an offset of the receive buffer, as far as they go: each has a status, its
    length with the four bytes of the checksum, and its bytes; behind the last one the status says
    that there is none. *)
Inductive rx_holds (m : Z → Z) (start : Z) : Z → list (list Z) → Prop :=
| rx_end offset :
    RxStatus_truncate (m (start + offset) + 256 * m (start + offset + 1)) = 0 →
    rx_holds m start offset []
| rx_frame offset status frame frames :
    m (start + offset) + 256 * m (start + offset + 1) = status →
    contains (RxStatus_truncate status) RX_OK = true → intersects (RxStatus_truncate status) ALL_ERRORS = false →
    m (start + offset + 2) + 256 * m (start + offset + 3) = Z.of_nat (length frame) + 4 →
    PACKET_SIZE_MIN ≤ Z.of_nat (length frame) + 4 < PACKET_SIZE_MAX →
    bytes_at m (start + offset + 4) (length frame) = frame →
    rx_holds m start (next_offset offset (Z.of_nat (length frame) + 4)) frames →
    rx_holds m start offset (frame :: frames).

Lemma rx_holds_cons m start offset frame frames :
  rx_holds m start offset (frame :: frames) →
  let st := RxStatus_truncate (m (start + offset) + 256 * m (start + offset + 1)) in
  contains st RX_OK = true ∧ intersects st ALL_ERRORS = false ∧
  m (start + offset + 2) + 256 * m (start + offset + 2 + 1) = Z.of_nat (length frame) + 4 ∧
  PACKET_SIZE_MIN ≤ Z.of_nat (length frame) + 4 < PACKET_SIZE_MAX ∧
  bytes_at m (start + offset + 4) (length frame) = frame ∧
  rx_holds m start (next_offset offset (Z.of_nat (length frame) + 4)) frames.
Proof.
  intros Hh. inversion Hh; subst. replace (start + offset + 2 + 1) with (start + offset + 3) by lia. done.
Qed.

Lemma rx_holds_nil m start offset :
  rx_holds m start offset [] → RxStatus_truncate (m (start + offset) + 256 * m (start + offset + 1)) = 0.
Proof. intros Hh. by inversion Hh. Qed.

Section props.
Context `{!Device} `{!DmaMemory} (base : Z) `{!CardLaws base}.
Implicit Types a : Card.

Notation runs_on a m Q := (acts view a m Q).

(** ** Memory *)

Lemma load8_runs k a : runs_on a (load8 k) (λ r t, r = ram a k ∧ t = a).
Proof. intros d <-. eexists _, _. split; [done|]. split; [apply law_get|done]. Qed.

Lemma store8_runs k v a : runs_on a (store8 k v) (λ r t, r = tt ∧ t = set_ram (<[k := v]> (ram a)) a).
Proof. intros d <-. eexists _, _. split; [done|]. split; [done|apply law_set]. Qed.

Lemma load16_runs k a : runs_on a (load16 k) (λ r t, r = ram a k + 256 * ram a (k + 1) ∧ t = a).
Proof. eapply acts_step; [apply load8_runs|]. eapply acts_step; [apply load8_runs|]. by apply acts_ret. Qed.

Lemma load_bytes_runs k n a : runs_on a (load_bytes k n) (λ r t, r = bytes_at (ram a) k n ∧ t = a).
Proof.
  revert k. induction n as [|n IH]; intros k; cbn [load_bytes]; [by apply acts_ret|].
  eapply acts_step; [apply load8_runs|]. eapply acts_step; [apply IH|]. apply acts_ret. split; [|done].
  unfold bytes_at. rewrite (seqZ_cons k) by lia. rewrite fmap_cons. do 3 f_equal; lia.
Qed.

Fixpoint stored (l : list Z) (k : Z) (m : Z → Z) : Z → Z :=
  match l with [] => m | b :: l => stored l (k + 1) (<[k := b]> m) end.

Lemma store_bytes_runs k l a :
  runs_on a (store_bytes k l) (λ r t, r = tt ∧ t = set_ram (stored l k (ram a)) a).
Proof.
  revert k a. induction l as [|b l IH]; intros k a; cbn [store_bytes].
  { apply acts_ret. split; [done|]. by destruct a. }
  eapply acts_step; [apply store8_runs|]. eapply acts_weaken; [apply IH|]. by intros r t [-> ->].
Qed.

Lemma stored_below l k m j : j < k → stored l k m j = m j.
Proof.
  revert k m. induction l as [|b l IH]; intros k m Hj; cbn [stored]; [done|].
  rewrite IH by lia. by rewrite fn_lookup_insert_ne by lia.
Qed.

Lemma stored_app l l' k m : stored (l ++ l') k m = stored l' (k + Z.of_nat (length l)) (stored l k m).
Proof.
  revert k m. induction l as [|b l IH]; intros k m; cbn [stored app length]; [by rewrite Z.add_0_r|].
  rewrite IH. f_equal. lia.
Qed.

Lemma stored_bytes l k m n :
  (n ≤ length l)%nat → bytes_at (stored l k m) k n = take n l.
Proof.
  revert k m n. induction l as [|b l IH]; intros k m [|n] Hn; cbn [length] in Hn; [done|lia|done|].
  unfold bytes_at. rewrite (seqZ_cons k) by lia. rewrite fmap_cons. cbn [stored take].
  rewrite stored_below, fn_lookup_insert by lia. f_equal.
  replace (Z.pred (Z.of_nat (S n))) with (Z.of_nat n) by lia.
  replace (Z.succ k) with (k + 1) by lia. apply IH. lia.
Qed.

(** ** Receiving *)

Lemma next_offset_mod offset len : next_offset offset len mod RX_BUFFER_SIZE = next_offset offset len.
Proof. apply Zmod_mod. Qed.

Lemma capr_runs self v a :
  io_base self = base → runs_on a (reg_write self 16 CAPR v) (λ r t, r = tt ∧ t = set_reg CAPR v a).
Proof. intros Hb. apply acts_write. intros d <-. unfold port. rewrite Hb. apply law_capr. Qed.

(** The driver after a frame of the length. *)
Definition moved (self : RTL8139) (frame : list Z) : RTL8139 :=
  set_buffers (set_rx_offset (next_offset (rx_offset (buffers self)) (Z.of_nat (length frame) + 4)) (buffers self)) self.

Notation holds self a := (rx_holds (ram a) (virt (rx (buffers self))) (rx_offset (buffers self))).

Lemma receive_frame_runs self frame frames a :
  io_base self = base → holds self a (frame :: frames) →
  runs_on a (receive self) (λ r t, r = (Some frame, moved self frame) ∧
    t = set_reg CAPR ((rx_offset (buffers self) - 0x10) mod 2 ^ 16) a ∧ holds (moved self frame) t frames).
Proof.
  intros Hb Hh. apply rx_holds_cons in Hh as (Hok & Herr & Hl & Hr & Hf & Hrest). unfold receive.
  eapply acts_step; [apply load16_runs|]. eapply acts_step; [apply load16_runs|].
  rewrite Hl.
  match goal with |- context [RxStatus_truncate ?x] => set (st := RxStatus_truncate x) in * end.
  destruct (Z.eqb_spec st 0) as [E|_]; [by rewrite E in Hok|]. rewrite Hok. cbn [negb].
  unfold PACKET_SIZE_MIN, PACKET_SIZE_MAX in *.
  rewrite (proj2 (Z.ltb_ge _ _)), (proj2 (Z.leb_gt _ _)), Herr by lia. cbn [orb].
  eapply acts_step; [apply load_bytes_runs|]. eapply acts_step; [by apply capr_runs|]. apply acts_ret.
  rewrite Z.add_simpl_r, Z.mod_small, Nat2Z.id, Hf, next_offset_mod by lia. done.
Qed.

Lemma receive_none_runs self a :
  holds self a [] → runs_on a (receive self) (λ r t, r = (None, self) ∧ t = a).
Proof.
  intros E%rx_holds_nil. unfold receive.
  eapply acts_step; [apply load16_runs|]. eapply acts_step; [apply load16_runs|]. rewrite E. by apply acts_ret.
Qed.

(** One round with the flag of received frames: it takes the first frame, if there is one. *)
Lemma irq_round_runs self status frames a :
  io_base self = base → holds self a frames → contains status RXOK = true →
  contains status RXERR = false → contains status TXERR = false → contains status LINK_CHANGE = false →
  contains status SYSTEM_ERROR = false →
  runs_on a (irq_round self status) (λ r t, r.1 = take 1 frames ∧ io_base r.2 = base ∧
    rx (buffers r.2) = rx (buffers self) ∧ isr t = isr a ∧ wire t = wire a ∧ holds r.2 t (drop 1 frames)).
Proof.
  intros Hb Hh Hrx H1 H2 H3 H4. unfold irq_round. rewrite Hrx, H1, H2, H3, H4. destruct frames as [|frame frames].
  - eapply acts_step; [eapply acts_step; [by apply receive_none_runs|by apply acts_ret]|]. by apply acts_ret.
  - eapply acts_bind; [eapply acts_bind; [by eapply receive_frame_runs|]|].
    + intros r t (-> & -> & Hrest). apply acts_ret. instantiate (1 := λ r t, r = ([frame], moved self frame) ∧
        t = set_reg CAPR ((rx_offset (buffers self) - 0x10) mod 2 ^ 16) a ∧ holds (moved self frame) t frames). done.
    + intros r t (-> & -> & Hrest). apply acts_ret. done.
Qed.

Lemma isr_in_runs self a :
  io_base self = base → runs_on a (reg_read self 16 ISR) (λ r t, r = isr a ∧ t = a).
Proof. intros Hb. apply acts_read. intros d <-. unfold port. rewrite Hb. apply law_isr_in. Qed.

Lemma isr_out_runs self v a :
  io_base self = base → runs_on a (reg_write self 16 ISR v) (λ r t, r = tt ∧ t = set_isr (Z.ldiff (isr a) v) a).
Proof. intros Hb. apply acts_write. intros d <-. unfold port. rewrite Hb. apply law_isr_out. Qed.

(** Flags that [notify_irq] goes on after, the one of received frames among them. *)
Definition calm (bits : Z) : Prop :=
  contains (IntFlags_truncate bits) RXOK = true ∧ contains (IntFlags_truncate bits) RXERR = false ∧
  contains (IntFlags_truncate bits) TXERR = false ∧ contains (IntFlags_truncate bits) LINK_CHANGE = false ∧
  contains (IntFlags_truncate bits) SYSTEM_ERROR = false.

Lemma calm_supported bits : calm bits → intersects (IntFlags_truncate bits) ALL_SUPPORTED = true.
Proof.
  intros [Hc _]. unfold intersects, contains, IntFlags_truncate in *. apply Z.eqb_eq in Hc.
  rewrite <- Z.land_assoc, Z.land_diag. destruct (Z.eqb_spec (Z.land bits ALL_SUPPORTED) 0) as [E|_]; [|done].
  by rewrite E in Hc.
Qed.

(** One interrupt takes the first two frames of the receive buffer, in order, and leaves the
    others for the next one: the flags are read once before they are cleared, so the loop of
    [notify_irq] runs exactly twice, and it takes one frame a time.  It ends with the flags down, at
    the first frame it has not taken. *)
Theorem rtl8139_takes_two self frames d :
  io_base self = base → calm (isr (view d)) → holds self (view d) frames →
  ∃ self' d', notify_irq 3 self d = Some (Ret ((take 2 frames, self'), d')) ∧
    isr (view d') = 0 ∧ wire (view d') = wire (view d) ∧ holds self' (view d') (drop 2 frames).
Proof.
  intros Hb Hc Hh. set (a := view d) in *.
  assert (runs_on a (notify_irq 3 self) (λ r t, r.1 = take 2 frames ∧ isr t = 0 ∧ wire t = wire a ∧
    holds r.2 t (drop 2 frames))) as Hrun.
  { pose proof (calm_supported _ Hc) as Hs. destruct Hc as (Hc0 & Hc1 & Hc2 & Hc3 & Hc4).
    unfold notify_irq. eapply acts_step; [by apply isr_in_runs|]. cbn [irq_loop]. rewrite Hs. cbn [negb].
    eapply acts_bind; [by apply (irq_round_runs _ _ frames)|]. intros r t (Hr & Hb' & _ & Hi & Hw & Hh').
    eapply acts_step; [by apply isr_in_runs|]. eapply acts_step; [by apply isr_out_runs|]. rewrite Hi, Hs. cbn [negb].
    eapply acts_bind; [by apply (irq_round_runs _ _ (drop 1 frames))|].
    intros r2 u (Hr2 & Hb2 & _ & Hi2 & Hw2 & Hh2). cbn [isr set_isr] in Hi2. rewrite Z.ldiff_diag in Hi2.
    eapply acts_step; [by apply isr_in_runs|]. eapply acts_step; [by apply isr_out_runs|]. rewrite Hi2.
    apply acts_ret. cbn [fst snd isr set_isr wire ram]. rewrite Hr, Hr2, Hw2, drop_drop in *.
    split; [|done]. by destruct frames as [|? [|? ?]]. }
  destruct (Hrun d eq_refl) as ([got self'] & d' & E & Hg & HQ). cbn [fst snd] in *. subst got.
  exists self', d'. by split.
Qed.

(** ** Sending *)

(** A transmit buffer the card has given back. *)
Definition free (a : Card) (i : nat) : bool := negb (Z.land (regs a (TXSTATUS0 + Z.of_nat i * 4)) OWN =? 0).

(** The first of [n] candidates that is free. *)
Fixpoint first_free (a : Card) (next n i : nat) : option nat :=
  match n with
  | O => None
  | S n => if free a ((next + i) mod 4)%nat then Some ((next + i) mod 4)%nat else first_free a next n (S i)
  end.

Lemma first_free_bound a next n i k : first_free a next n i = Some k → (k < 4)%nat ∧ free a k = true.
Proof.
  revert i. induction n as [|n IH]; intros i E; cbn [first_free] in E; [done|].
  destruct (free a ((next + i) mod 4)%nat) eqn:Hf; [|by eapply IH]. assert (k = ((next + i) mod 4)%nat) as -> by congruence.
  split; [|done]. apply Nat.mod_upper_bound. lia.
Qed.

(** All four buffers are tried. *)
Lemma first_free_none a next : first_free a next 4 0 = None → Forall (λ i, free a i = false) (seq 0 4).
Proof.
  intros E. assert (∀ k, (k < 4)%nat → free a ((next + k) mod 4) = false) as Hall.
  { intros k Hk. cbn [first_free] in E. repeat case_match; try done.
    destruct k as [|[|[|[|k]]]]; [done..|lia]. }
  apply Forall_seq. intros j Hj. pose proof (Nat.mod_upper_bound next 4 ltac:(lia)) as Hm.
  pose proof (Nat.div_mod next 4 ltac:(lia)) as Hd. rewrite Nat.add_0_l in Hj.
  destruct (decide (next mod 4 ≤ j)%nat).
  - rewrite <- (Hall (j - next mod 4)%nat) by lia. f_equal.
    replace (next + (j - next mod 4))%nat with (j + (next / 4) * 4)%nat by lia.
    rewrite Nat.Div0.mod_add. symmetry. apply Nat.mod_small. lia.
  - rewrite <- (Hall (j + 4 - next mod 4)%nat) by lia. f_equal.
    replace (next + (j + 4 - next mod 4))%nat with (j + (next / 4 + 1) * 4)%nat by lia.
    rewrite Nat.Div0.mod_add. symmetry. apply Nat.mod_small. lia.
Qed.

Lemma select_from_runs self n i a :
  io_base self = base →
  runs_on a (select_from self n i) (λ r t, r = first_free a (tx_next (buffers self)) n i ∧ t = a).
Proof.
  intros Hb. revert i. induction n as [|n IH]; intros i; cbn [select_from first_free]; [by apply acts_ret|].
  set (k := ((tx_next (buffers self) + i) mod 4)%nat).
  assert (k < 4)%nat as Hk by (apply Nat.mod_upper_bound; lia).
  eapply acts_step.
  { apply (acts_read _ a 32 _ (regs a (TXSTATUS0 + Z.of_nat k * 4)) a). intros d <-. unfold port. rewrite Hb.
    apply law_status_in. lia. }
  unfold free. destruct (negb _); [by apply acts_ret|apply IH].
Qed.

(** The registers have the addresses of the driver's transmit buffers. *)
Definition tx_ready (self : RTL8139) (a : Card) : Prop :=
  length (tx (buffers self)) = 4%nat ∧
  ∀ i r, tx (buffers self) !! i = Some r → regs a (TXADDR0 + Z.of_nat i * 4) = phys r ∧ virt r = VIRTUAL_ADDR + phys r.

Definition padded (packet : list Z) : list Z := packet ++ replicate (60 - length packet) 0.

Lemma stored_padded packet k m :
  (length packet ≤ 1536)%nat →
  bytes_at (stored (packet ++ replicate (1536 - length packet) 0) k m) k
    (Z.to_nat (Z.max (Z.of_nat (length packet)) 60)) = padded packet.
Proof.
  intros Hl. rewrite stored_bytes by (rewrite length_app, length_replicate; lia).
  unfold padded. destruct (decide (60 ≤ length packet)%nat).
  - rewrite Z.max_l, Nat2Z.id, take_app_length by lia.
    replace (60 - length packet)%nat with 0%nat by lia. by rewrite app_nil_r.
  - rewrite Z.max_r, take_app by lia. rewrite take_ge by lia. f_equal. change (Z.to_nat 60) with 60%nat.
    rewrite take_replicate. f_equal. lia.
Qed.

Lemma send_from_runs self packet i a :
  io_base self = base → tx_ready self a → (length packet ≤ 1536)%nat → (i < 4)%nat →
  runs_on a (send_from self packet i) (λ r t,
    r = set_buffers (set_tx_next ((i + 1) mod 4) (buffers self)) self ∧
    wire t = wire a ++ [padded packet] ∧ isr t = isr a).
Proof.
  intros Hb [Hlen Htx] Hl Hi. destruct (lookup_lt_is_Some_2 (tx (buffers self)) i ltac:(lia)) as [region Hreg].
  destruct (Htx i region Hreg) as [Haddr Hvirt]. unfold send_from.
  cbn [tx buffers set_buffers set_tx_next]. apply (acts_step _ _ _ _ region a).
  { intros d <-. unfold index_at. rewrite Hreg. by eexists _, _. }
  eapply acts_step; [apply store_bytes_runs|]. eapply acts_step; [apply store_bytes_runs|].
  cbn [ram set_ram]. rewrite <- stored_app. eapply acts_bind.
  2:{ intros ? t HQ. apply acts_ret. split; [done|exact HQ]. }
  intros e He. eexists _, _. split; [done|]. unfold port. cbn [io_base set_buffers]. rewrite Hb.
  destruct (law_status_out (Z.of_nat i) (Z.max (Z.of_nat (length packet)) 60) e ltac:(lia)) as [st ->];
    [unfold OWN; lia|]. rewrite He. cbn [wire isr regs ram set_reg set_wire set_ram].
  rewrite Haddr, <- Hvirt. split; [|done]. do 2 f_equal.
  replace (Z.to_nat (TX_BUFFER_SIZE - Z.of_nat (length packet))) with (1536 - length packet)%nat
    by (unfold TX_BUFFER_SIZE, PACKET_SIZE_MAX; lia). by apply stored_padded.
Qed.

(** C38: [send] puts a packet of at most 1536 bytes, the size of a buffer, on the wire, padded with zeros to the 60 bytes that the card needs,
    from the first transmit buffer the card has given back after the one used last, and moves on
    behind that buffer; it panics when the card has given none of the four back. *)
Theorem rtl8139_sends_packet self packet d :
  io_base self = base → tx_ready self (view d) → (length packet ≤ 1536)%nat →
  match first_free (view d) (tx_next (buffers self)) 4 0 with
  | Some i => ∃ d', send self packet d =
        Some (Ret (set_buffers (set_tx_next ((i + 1) mod 4) (buffers self)) self, d')) ∧
      wire (view d') = wire (view d) ++ [padded packet] ∧ isr (view d') = isr (view d)
  | None => Forall (λ i, free (view d) i = false) (seq 0 4) ∧
      send self packet d = Some (Panic "RTL8139: hardware send buffers are full")
  end.
Proof.
  intros Hb Hr Hl. unfold send.
  rewrite (bind_some _ _ _ tt d) by (apply assert_true, Z.leb_le; unfold PACKET_SIZE_MAX; lia).
  destruct (select_from_runs self 4 0 (view d) Hb d eq_refl) as (o & d1 & E & -> & Hd1).
  unfold select_buffer, TX_BUFFER_COUNT. rewrite (bind_some _ _ _ _ _ E).
  destruct (first_free _ _ _ _) as [i|] eqn:Hi.
  - destruct (first_free_bound _ _ _ _ _ Hi) as [Hi4 _]. rewrite <- Hd1 in Hr.
    destruct (send_from_runs self packet i _ Hb Hr Hl Hi4 d1 eq_refl) as (r & d' & E' & -> & Hw & Hs).
    rewrite Hd1 in Hw, Hs. by exists d'.
  - split; [by eapply first_free_none|done].
Qed.

End props.

(** ** A card that keeps the laws, at port 0xc000 *)

Definition card_out (width port v : Z) (a : Card) : Card :=
  let n := port - 0xc000 in
  if n =? ISR then set_isr (Z.ldiff (isr a) v) a
  else if (TXSTATUS0 <=? n) && (n <? TXADDR0) then
    set_reg n (Z.lor v OWN) (set_wire (wire a ++ [bytes_at (ram a) (VIRTUAL_ADDR + regs a (n + 16)) (Z.to_nat v)]) a)
  else set_reg n v a.

Definition ref_card : Device := {|
  Dev := Card;
  port_in := λ _ port a, (if port - 0xc000 =? ISR then isr a else regs a (port - 0xc000), a);
  port_out := card_out;
|}.

#[local] Existing Instance ref_card.

#[local] Instance ref_memory : @DmaMemory ref_card := {|
  mem_get := λ k (a : @Dev ref_card), ram a k;
  mem_set := λ k v (a : @Dev ref_card), set_ram (<[k := v]> (ram a)) a;
  sys_dma_allocate := λ size, mret (if size =? 1536 then 0x2000 else 0x8000);
  sys_mmap_physical := λ _ _ _, mret tt;
|}.

#[local] Program Instance ref_card_laws : @CardLaws ref_card ref_memory 0xc000 := {| view := λ a : @Dev ref_card, a |}.
Next Obligation. done. Qed.
Next Obligation. done. Qed.
Next Obligation. done. Qed.
Next Obligation. done. Qed.
Next Obligation. done. Qed.
Next Obligation.
  intros i d Hi. split; [|done]. cbn [port_in ref_card fst]. rewrite Z.mod_small by (unfold TXSTATUS0; lia).
  replace (0xc000 + (TXSTATUS0 + i * 4) - 0xc000) with (TXSTATUS0 + i * 4) by lia.
  by rewrite (proj2 (Z.eqb_neq (TXSTATUS0 + i * 4) ISR)) by (unfold TXSTATUS0, ISR; lia).
Qed.
Next Obligation.
  intros i v d Hi Hv. exists (Z.lor v OWN). cbn [port_out ref_card]. unfold card_out.
  rewrite Z.mod_small by (unfold TXSTATUS0; lia). cbn zeta.
  replace (0xc000 + (TXSTATUS0 + i * 4) - 0xc000) with (TXSTATUS0 + i * 4) by lia.
  rewrite (proj2 (Z.eqb_neq (TXSTATUS0 + i * 4) ISR)) by (unfold TXSTATUS0, ISR; lia).
  rewrite (proj2 (Z.leb_le _ _)), (proj2 (Z.ltb_lt _ _)) by (unfold TXSTATUS0, TXADDR0; lia). cbn [andb].
  by replace (TXSTATUS0 + i * 4 + 16) with (TXADDR0 + i * 4) by (unfold TXSTATUS0, TXADDR0; lia).
Qed.

(** One frame of 60 bytes in the receive buffer, all transmit buffers free. *)
Definition sample_driver : RTL8139 :=
  MkRtl (MkPciDevice 0x8139 0x10ec (Loc 0 3 0) (Cls 2 0 0)) 11 0xc000
    (MkBuffers (MkRegion 0x8000 (VIRTUAL_ADDR + 0x8000)) 0
       (repeat (MkRegion 0x2000 (VIRTUAL_ADDR + 0x2000)) 4) 0) false.

Definition sample_ram (k : Z) : Z :=
  let n := k - (VIRTUAL_ADDR + 0x8000) in
  if n =? 0 then 1 else if n =? 1 then 0 else if n =? 2 then 64 else if n =? 3 then 0
  else if n <? 64 then 9 else 0.

Definition sample_card : @Dev ref_card := MkCard (λ _, 0x2000) RXOK sample_ram [].

Lemma rtl8139_takes_two_witness :
  ∃ self' d', notify_irq 3 sample_driver sample_card = Some (Ret (([repeat 9 60], self'), d')).
Proof.
  destruct (rtl8139_takes_two 0xc000 sample_driver [repeat 9 60] sample_card) as (self' & d' & E & _).
  - done.
  - by repeat split.
  - apply (rx_frame _ _ 0 1); try done. by apply rx_end.
  - by exists self', d'.
Defined.

Lemma rtl8139_sends_packet_witness :
  ∃ d', send sample_driver [1; 2; 3] sample_card =
      Some (Ret (set_buffers (set_tx_next 1 (buffers sample_driver)) sample_driver, d')) ∧
    wire (d' : Card) = [[1; 2; 3] ++ replicate 57 0].
Proof.
  destruct (rtl8139_sends_packet 0xc000 sample_driver [1; 2; 3] sample_card) as (d' & E & Hw & _).
  - done.
  - split; [done|]. intros i r Hr. by destruct i as [|[|[|[|i]]]]; [injection Hr as <-..|].
  - cbn. lia.
  - exists d'. by split.
Defined.
