(* ===== verification/VgaBuffer.v ===== *)
(** * VgaBuffer: the kernel's text terminal (src/driver/vga_buffer.rs)

    The text buffer is a function from row and column to the cell there, with the bounds of the
    array checked at each access, and the cursor is the packed word of the source.  The terminal is
    used by one processor at a time here: the compare-and-swap of [fetch_update] succeeds at once.
    Formatting is not modelled; [print] gets the text. *)

From stdpp Require Import base list strings.
From Stdlib Require Import ZArith Lia.
From S2P Require Import Prelude Bytes PortIo.
Open Scope Z_scope.

Definition SCREEN_HEIGHT : nat := 25.
Definition SCREEN_WIDTH : nat := 80.

Inductive Color :=
| Black | Blue | Green | Cyan | Red | Magenta | Brown | LightGray
| DarkGray | LightBlue | LightGreen | LightCyan | LightRed | Pink | Yellow | White.

Definition colors : list Color :=
  [Black; Blue; Green; Cyan; Red; Magenta; Brown; LightGray;
   DarkGray; LightBlue; LightGreen; LightCyan; LightRed; Pink; Yellow; White].

Definition Color_as_u8 (c : Color) : Z :=
  match c with
  | Black => 0 | Blue => 1 | Green => 2 | Cyan => 3 | Red => 4 | Magenta => 5 | Brown => 6 | LightGray => 7
  | DarkGray => 8 | LightBlue => 9 | LightGreen => 10 | LightCyan => 11 | LightRed => 12 | Pink => 13
  | Yellow => 14 | White => 15
  end.

(** [transmute], of a value below 16 *)
Definition Color_transmute (v : Z) : Color := nth (Z.to_nat v) colors Black.

(** [CellColor] is its byte. *)
Definition CellColor_new (foreground background : Color) : Z :=
  Z.lor (Z.shiftl (Color_as_u8 background) 4) (Color_as_u8 foreground).
Definition CellColor_foreground (self : Z) : Color := Color_transmute (Z.land self 0xf).
Definition CellColor_background (self : Z) : Color := Color_transmute (Z.shiftr (Z.land self 0xf0) 4).
Definition CellColor_invert (self : Z) : Z :=
  CellColor_new (CellColor_background self) (CellColor_foreground self).

Record CharCell := MkCell { character : Z; color : Z }.

Definition space : Z := 32.
Definition white_on_black : Z := CellColor_new White Black.

(** The cursor's word and the buffer. *)
Record Terminal := MkTerminal { row_col : Z; chars : nat → nat → CharCell }.
Implicit Types t : Terminal.

(** ** Cursor *)

Definition pack (row col : nat) : Z := Z.lor (Z.shiftl (Z.of_nat row) 32) (Z.of_nat col).
Definition unpack (value : Z) : nat * nat := (Z.to_nat (Z.shiftr value 32), Z.to_nat (Z.land value 0xffffffff)).

Definition position (t : Terminal) : nat * nat := unpack (row_col t).

(** [update_position], with the closure's result beside the new position. *)
Definition update_position {A} (f : nat → nat → (nat * nat) * A) (t : Terminal) : outcome (A * Terminal) :=
  let '(row, col) := position t in
  let '((new_row, new_col), a) := f row col in
  _ ← rassert (new_row <? SCREEN_HEIGHT)%nat "assertion failed: new_row < SCREEN_HEIGHT";
  _ ← rassert (new_col <? SCREEN_WIDTH)%nat "assertion failed: new_col < SCREEN_WIDTH";
  Ret (a, MkTerminal (pack new_row new_col) (chars t)).

Definition next_col (t : Terminal) : outcome (bool * Terminal) :=
  update_position (λ row col,
    if (col + 1 <? SCREEN_WIDTH)%nat then ((row, col + 1)%nat, false) else ((row, col), true)) t.

Definition prev (t : Terminal) : outcome Terminal :=
  r ← update_position (λ row col,
    if (0 <? col)%nat then ((row, col - 1)%nat, tt)
    else if (0 <? row)%nat then ((row - 1, SCREEN_WIDTH - 1)%nat, tt)
    else ((row, col), tt)) t;
  Ret r.2.

Definition cursor_newline (t : Terminal) : outcome (bool * Terminal) :=
  update_position (λ row _,
    if (row <? SCREEN_HEIGHT - 1)%nat then ((row + 1, 0)%nat, false) else ((row, 0)%nat, true)) t.

Definition set_col (col : nat) (t : Terminal) : outcome Terminal :=
  _ ← rassert (col <? SCREEN_WIDTH)%nat "assertion failed: col < SCREEN_WIDTH";
  Ret (MkTerminal (Z.lor (Z.land (row_col t) 0xffffffff00000000) (Z.of_nat col)) (chars t)).

Definition set_position (row col : nat) (t : Terminal) : outcome Terminal :=
  _ ← rassert (row <? SCREEN_HEIGHT)%nat "assertion failed: row < SCREEN_HEIGHT";
  _ ← rassert (col <? SCREEN_WIDTH)%nat "assertion failed: col < SCREEN_WIDTH";
  Ret (MkTerminal (pack row col) (chars t)).

(** ** Terminal *)

Definition in_screen (row col : nat) : bool := ((row <? SCREEN_HEIGHT) && (col <? SCREEN_WIDTH))%nat.

Definition read_cell (row col : nat) (t : Terminal) : outcome CharCell :=
  _ ← rassert (in_screen row col) "index out of bounds";
  Ret (chars t row col).

Definition write_cell (row col : nat) (v : CharCell) (t : Terminal) : outcome Terminal :=
  _ ← rassert (in_screen row col) "index out of bounds";
  Ret (MkTerminal (row_col t) (λ r c, if ((r =? row) && (c =? col))%nat then v else chars t r c)).

(** [for x in l] *)
Fixpoint for_each {A S} (f : A → S → outcome S) (l : list A) (s : S) : outcome S :=
  match l with
  | [] => Ret s
  | x :: l => s ← f x s; for_each f l s
  end.

Definition clear (c : Z) (t : Terminal) : outcome Terminal :=
  t ← set_position 0 0 t;
  for_each (λ col, for_each (λ row, write_cell row col (MkCell space c)) (seq 0 SCREEN_HEIGHT))
    (seq 0 SCREEN_WIDTH) t.

Definition reset (t : Terminal) : outcome Terminal := clear white_on_black t.

Definition move_cell_up (row col : nat) (t : Terminal) : outcome Terminal :=
  new_value ← read_cell (row + 1) col t;
  write_cell row col new_value t.

Definition move_line_up (row : nat) : Terminal → outcome Terminal :=
  for_each (move_cell_up row) (seq 0 SCREEN_WIDTH).

Definition fill_line (row : nat) (c : Z) : Terminal → outcome Terminal :=
  for_each (λ col, write_cell row col (MkCell space c)) (seq 0 SCREEN_WIDTH).

Definition scroll_line (t : Terminal) : outcome Terminal :=
  t ← for_each move_line_up (seq 0 (SCREEN_HEIGHT - 1)) t;
  fill_line (SCREEN_HEIGHT - 1) white_on_black t.

Definition clear_line (c : Z) (t : Terminal) : outcome Terminal :=
  let row := (position t).1 in
  t ← fill_line row c t;
  set_col 0 t.

Definition newline (t : Terminal) : outcome Terminal :=
  r ← cursor_newline t;
  if r.1 : bool then scroll_line r.2 else Ret r.2.

(** The branch of [write_byte] for a byte that is shown. *)
Definition put_byte (byte c : Z) (t : Terminal) : outcome Terminal :=
  let '(row, col) := position t in
  t ← write_cell row col (MkCell byte c) t;
  r ← next_col t;
  if r.1 : bool then newline r.2 else Ret r.2.

(** [backspace] calls [write_byte] with a space, which takes that branch. *)
Definition backspace (t : Terminal) : outcome Terminal :=
  t ← prev t;
  t ← put_byte space white_on_black t;
  prev t.

Definition write_byte (byte c : Z) (t : Terminal) : outcome Terminal :=
  _ ← rassert (negb (byte =? 0)) "assertion failed: byte != 0";
  if byte =? 10 then newline t
  else if byte =? 8 then backspace t
  else put_byte byte c t.

Definition write_str (s : list Z) (t : Terminal) : outcome Terminal :=
  for_each (λ byte, write_byte byte white_on_black) s t.

(** ** Words *)

Lemma unpack_pack row col : (col < SCREEN_WIDTH)%nat → unpack (pack row col) = (row, col).
Proof.
  intros Hc. unfold SCREEN_WIDTH in Hc. unfold unpack, pack. rewrite (Z.lor_comm (Z.shiftl _ _)).
  rewrite lor_shiftl by lia. f_equal.
  - rewrite Z.shiftr_div_pow2, Z.div_add, Z.div_small by lia. lia.
  - change 0xffffffff with (Z.ones 32). rewrite Z.land_ones, Z_mod_plus_full, Z.mod_small by lia. lia.
Qed.

Lemma color_round_trip c : Color_transmute (Color_as_u8 c) = c.
Proof. by destruct c. Qed.

(** The two halves of a cell's colour, and turning them round twice. *)
Lemma CellColor_parts f b :
  CellColor_foreground (CellColor_new f b) = f ∧ CellColor_background (CellColor_new f b) = b ∧
  CellColor_invert (CellColor_invert (CellColor_new f b)) = CellColor_new f b.
Proof. by destruct f, b. Qed.

(** ** Loops *)

Lemma for_each_inv {A St} (f : A → St → outcome St) l (P : nat → St → Prop) s :
  P 0%nat s → (∀ i x s, l !! i = Some x → P i s → ∃ s', f x s = Ret s' ∧ P (S i) s') →
  ∃ s', for_each f l s = Ret s' ∧ P (length l) s'.
Proof.
  revert P s. induction l as [|x l IH]; intros P s H0 Hf; [by exists s|]. cbn [for_each].
  destruct (Hf 0%nat x s eq_refl H0) as (s1 & E & H1). rewrite E.
  apply (IH (λ i, P (S i)) s1 H1). intros i y s2 Hy. by apply (Hf (S i)).
Qed.

Lemma seq_at a n i x : seq a n !! i = Some x → x = (a + i)%nat ∧ (i < n)%nat.
Proof. intros [-> H]%lookup_seq. by split. Qed.

(** The cursor is at a place of the screen. *)
Definition at_pos (t : Terminal) (row col : nat) : Prop :=
  (row < SCREEN_HEIGHT)%nat ∧ (col < SCREEN_WIDTH)%nat ∧ row_col t = pack row col.

Definition terminal_wf (t : Terminal) : Prop := ∃ row col, at_pos t row col.

(** The cells of the screen are those of [f]. *)
Definition shows (t : Terminal) (f : nat → nat → CharCell) : Prop :=
  ∀ r c, (r < SCREEN_HEIGHT)%nat → (c < SCREEN_WIDTH)%nat → chars t r c = f r c.

Lemma position_at t row col : at_pos t row col → position t = (row, col).
Proof. intros (_ & Hc & E). unfold position. rewrite E. by apply unpack_pack. Qed.

Lemma write_cell_ok row col v t :
  (row < SCREEN_HEIGHT)%nat → (col < SCREEN_WIDTH)%nat →
  write_cell row col v t =
    Ret (MkTerminal (row_col t) (λ r c, if ((r =? row) && (c =? col))%nat then v else chars t r c)).
Proof.
  intros Hr Hc. unfold write_cell, in_screen. by rewrite (proj2 (Nat.ltb_lt _ _) Hr), (proj2 (Nat.ltb_lt _ _) Hc).
Qed.

Lemma read_cell_ok row col t :
  (row < SCREEN_HEIGHT)%nat → (col < SCREEN_WIDTH)%nat → read_cell row col t = Ret (chars t row col).
Proof.
  intros Hr Hc. unfold read_cell, in_screen. by rewrite (proj2 (Nat.ltb_lt _ _) Hr), (proj2 (Nat.ltb_lt _ _) Hc).
Qed.

(** Case analysis on the comparisons of positions. *)
Ltac cells :=
  repeat match goal with
  | |- context [(?a =? ?b)%nat] => destruct (Nat.eqb_spec a b); cbn [andb]
  | |- context [(?a <? ?b)%nat] => destruct (Nat.ltb_spec a b); cbn [andb]
  end; subst; try done; try lia.

(** A loop over the columns of a row that writes [g] there, where [g] is what the step finds. *)
Lemma row_loop row (step : nat → Terminal → outcome Terminal) (g : nat → CharCell) t :
  (row < SCREEN_HEIGHT)%nat →
  (∀ col s, (col < SCREEN_WIDTH)%nat → (∀ r c, r ≠ row → chars s r c = chars t r c) →
    step col s = write_cell row col (g col) s) →
  ∃ t', for_each step (seq 0 SCREEN_WIDTH) t = Ret t' ∧ row_col t' = row_col t ∧
    (∀ r c, r ≠ row → chars t' r c = chars t r c) ∧ shows t' (λ r c, if (r =? row)%nat then g c else chars t r c).
Proof.
  intros Hr Hstep.
  destruct (for_each_inv step (seq 0 SCREEN_WIDTH) (λ k s, row_col s = row_col t ∧
    ∀ r c, chars s r c = if ((r =? row) && (c <? k))%nat then g c else chars t r c) t) as (t' & E & Hrc & Ht).
  - split; [done|]. intros r c. by rewrite andb_false_r.
  - intros k col s Hk [Hrc Hs]. apply seq_at in Hk as [-> Hk]. rewrite Nat.add_0_l.
    rewrite Hstep by (done || (intros r c Hne; rewrite Hs; cells)). rewrite write_cell_ok by done.
    eexists. split; [done|]. split; [done|]. intros r c. cbn [chars]. rewrite Hs. cells.
  - exists t'. rewrite length_seq in Ht. split; [exact E|]. clear E. split; [exact Hrc|].
    split; intros r c; [intros Hne|intros _ Hc]; rewrite Ht; cells.
Qed.

Lemma move_line_up_ok row t :
  (row < SCREEN_HEIGHT - 1)%nat →
  ∃ t', move_line_up row t = Ret t' ∧ row_col t' = row_col t ∧
    shows t' (λ r c, if (r =? row)%nat then chars t (row + 1) c else chars t r c).
Proof.
  intros Hr. assert (row + 1 < SCREEN_HEIGHT)%nat as Hr' by lia.
  destruct (row_loop row (move_cell_up row) (λ c, chars t (row + 1) c) t) as (t' & E & Hrc & _ & Ht).
  - lia.
  - intros col s Hc Hs. unfold move_cell_up. rewrite read_cell_ok by done. cbn [mbind outcome_bind].
    by rewrite Hs by lia.
  - exists t'. split; [exact E|]. split; [exact Hrc|exact Ht].
Qed.

Lemma fill_line_ok row c t :
  (row < SCREEN_HEIGHT)%nat →
  ∃ t', fill_line row c t = Ret t' ∧ row_col t' = row_col t ∧
    shows t' (λ r k, if (r =? row)%nat then MkCell space c else chars t r k).
Proof.
  intros Hr.
  destruct (row_loop row (λ col, write_cell row col (MkCell space c)) (λ _, MkCell space c) t Hr)
    as (t' & E & Hrc & _ & Ht).
  - intros col s _ _. reflexivity.
  - exists t'. split; [exact E|]. split; [exact Hrc|exact Ht].
Qed.

Lemma scroll_line_ok t :
  ∃ t', scroll_line t = Ret t' ∧ row_col t' = row_col t ∧
    shows t' (λ r c, if (r <? SCREEN_HEIGHT - 1)%nat then chars t (S r) c else MkCell space white_on_black).
Proof.
  unfold scroll_line.
  destruct (for_each_inv move_line_up (seq 0 (SCREEN_HEIGHT - 1)) (λ k s, row_col s = row_col t ∧
    shows s (λ r c, if (r <? k)%nat then chars t (S r) c else chars t r c)) t) as (t1 & E1 & Hrc1 & H1).
  - split; [reflexivity|]. intros r c _ _. reflexivity.
  - intros k row s Hk [Hrc Hs]. apply seq_at in Hk as [-> Hk]. rewrite Nat.add_0_l.
    destruct (move_line_up_ok k s Hk) as (s' & E & Hrc' & Hs').
    exists s'. split; [exact E|]. clear E. split; [by rewrite Hrc'|]. intros r c Hr Hc. rewrite Hs', !Hs by (lia || done).
    rewrite Nat.add_1_r. cells.
  - rewrite E1. clear E1. cbn [mbind outcome_bind]. rewrite length_seq in H1.
    destruct (fill_line_ok (SCREEN_HEIGHT - 1) white_on_black t1) as (t2 & E2 & Hrc2 & H2).
    { unfold SCREEN_HEIGHT. lia. }
    exists t2. split; [exact E2|]. clear E2. split; [by rewrite Hrc2|]. intros r c Hr Hc. rewrite H2, H1 by done. cells.
Qed.

(** ** Cursor movements *)

Lemma update_position_ok {A} (f : nat → nat → (nat * nat) * A) t row col row' col' a :
  at_pos t row col → f row col = ((row', col'), a) → (row' < SCREEN_HEIGHT)%nat → (col' < SCREEN_WIDTH)%nat →
  update_position f t = Ret (a, MkTerminal (pack row' col') (chars t)).
Proof.
  intros Hp Hf Hr Hc. unfold update_position. rewrite (position_at _ _ _ Hp), Hf.
  by rewrite (proj2 (Nat.ltb_lt _ _) Hr), (proj2 (Nat.ltb_lt _ _) Hc).
Qed.

Lemma next_col_ok t row col :
  at_pos t row col →
  next_col t = Ret (if (col + 1 <? SCREEN_WIDTH)%nat then (false, MkTerminal (pack row (col + 1)) (chars t))
                    else (true, MkTerminal (pack row col) (chars t))).
Proof.
  intros Hp. pose proof Hp as (Hr & Hc & _). unfold next_col.
  destruct (Nat.ltb_spec (col + 1) SCREEN_WIDTH) as [Hn|Hn];
    eapply update_position_ok; try exact Hp; try done; cbn beta.
  - by rewrite (proj2 (Nat.ltb_lt _ _) Hn).
  - by rewrite (proj2 (Nat.ltb_ge _ _) Hn).
Qed.

Lemma cursor_newline_ok t row col :
  at_pos t row col →
  cursor_newline t = Ret (if (row <? SCREEN_HEIGHT - 1)%nat then (false, MkTerminal (pack (row + 1) 0) (chars t))
                          else (true, MkTerminal (pack row 0) (chars t))).
Proof.
  intros Hp. pose proof Hp as (Hr & Hc & _). unfold cursor_newline.
  destruct (Nat.ltb_spec row (SCREEN_HEIGHT - 1)) as [Hn|Hn];
    eapply update_position_ok; try exact Hp; try done; cbn beta.
  - by rewrite (proj2 (Nat.ltb_lt _ _) Hn).
  - lia.
  - unfold SCREEN_WIDTH. lia.
  - by rewrite (proj2 (Nat.ltb_ge _ _) Hn).
  - unfold SCREEN_WIDTH. lia.
Qed.

(** The place before a place, the first place staying where it is. *)
Definition before (row col : nat) : nat * nat :=
  if (0 <? col)%nat then (row, col - 1)%nat
  else if (0 <? row)%nat then (row - 1, SCREEN_WIDTH - 1)%nat else (row, col).

Lemma before_bounds row col :
  (row < SCREEN_HEIGHT)%nat → (col < SCREEN_WIDTH)%nat →
  ((before row col).1 < SCREEN_HEIGHT)%nat ∧ ((before row col).2 < SCREEN_WIDTH)%nat.
Proof. intros Hr Hc. unfold before, SCREEN_HEIGHT, SCREEN_WIDTH in *. repeat case_match; cbn; lia. Qed.

Lemma before_wraps row col :
  (col < 80)%nat → (80 ≤ (before row col).2 + 1)%nat → before row col = (row - 1, 79)%nat ∧ (0 < row)%nat.
Proof.
  unfold before, SCREEN_WIDTH. destruct (Nat.ltb_spec 0 col); [cbn [snd]; lia|].
  destruct (Nat.ltb_spec 0 row); cbn [snd]; [done|lia].
Qed.

Lemma prev_ok t row col :
  at_pos t row col → prev t = Ret (MkTerminal (pack (before row col).1 (before row col).2) (chars t)).
Proof.
  intros Hp. pose proof Hp as (Hr & Hc & _). destruct (before_bounds row col Hr Hc) as [Hr' Hc']. unfold prev.
  erewrite update_position_ok; [reflexivity|exact Hp| |exact Hr'|exact Hc'].
  unfold before. instantiate (1 := tt). by repeat case_match.
Qed.

Lemma newline_ok t row col :
  at_pos t row col →
  ∃ t', newline t = Ret t' ∧
    if (row <? SCREEN_HEIGHT - 1)%nat then at_pos t' (row + 1) 0 ∧ chars t' = chars t
    else at_pos t' row 0 ∧
      shows t' (λ r c, if (r <? SCREEN_HEIGHT - 1)%nat then chars t (S r) c else MkCell space white_on_black).
Proof.
  intros Hp. pose proof Hp as (Hr & Hc & _). unfold newline. rewrite (cursor_newline_ok t row col Hp).
  cbn [mbind outcome_bind]. destruct (Nat.ltb_spec row (SCREEN_HEIGHT - 1)) as [Hn|Hn]; cbn [fst snd].
  - eexists. split; [reflexivity|]. split; [|done]. repeat split; [lia|unfold SCREEN_WIDTH; lia].
  - destruct (scroll_line_ok (MkTerminal (pack row 0) (chars t))) as (t' & E & Hrc & Ht).
    exists t'. split; [exact E|]. clear E. split; [|exact Ht]. repeat split; [lia|unfold SCREEN_WIDTH; lia|exact Hrc].
Qed.

(** A byte that is shown is at the cursor, which is then one further or at the start of a new line. *)
Lemma put_byte_ok byte c t row col :
  at_pos t row col →
  let f r k := if ((r =? row) && (k =? col))%nat then MkCell byte c else chars t r k in
  ∃ t', put_byte byte c t = Ret t' ∧
    if (col + 1 <? SCREEN_WIDTH)%nat then at_pos t' row (col + 1) ∧ shows t' f
    else if (row <? SCREEN_HEIGHT - 1)%nat then at_pos t' (row + 1) 0 ∧ shows t' f
    else at_pos t' row 0 ∧
      shows t' (λ r k, if (r <? SCREEN_HEIGHT - 1)%nat then f (S r) k else MkCell space white_on_black).
Proof.
  intros Hp f. pose proof Hp as (Hr & Hc & Hrc). unfold put_byte. rewrite (position_at _ _ _ Hp), write_cell_ok by done.
  cbn [mbind outcome_bind]. fold f. set (t1 := MkTerminal (row_col t) f).
  assert (at_pos t1 row col) as Hp1 by done. rewrite (next_col_ok t1 row col Hp1). cbn [mbind outcome_bind].
  destruct (Nat.ltb_spec (col + 1) SCREEN_WIDTH) as [Hn|Hn]; cbn [fst snd].
  { eexists. split; [reflexivity|]. split; [done|]. by intros r k _ _. }
  set (t2 := MkTerminal (pack row col) (chars t1)). assert (at_pos t2 row col) as Hp2 by done.
  destruct (newline_ok t2 row col Hp2) as (t' & E & Ht). exists t'. split; [exact E|]. clear E.
  destruct (row <? SCREEN_HEIGHT - 1)%nat; [|exact Ht]. destruct Ht as [Hat Hch]. split; [done|].
  intros r k _ _. by rewrite Hch.
Qed.

(** A backspace blanks the place before the cursor and goes there; nothing is ever scrolled. *)
Lemma backspace_ok t row col :
  at_pos t row col →
  let p := before row col in
  ∃ t', backspace t = Ret t' ∧ at_pos t' p.1 p.2 ∧
    shows t' (λ r k, if ((r =? p.1) && (k =? p.2))%nat then MkCell space white_on_black else chars t r k).
Proof.
  intros Hp p. pose proof Hp as (Hr & Hc & _). destruct (before_bounds row col Hr Hc) as [Hr' Hc']. unfold backspace.
  rewrite (prev_ok t row col Hp). cbn [mbind outcome_bind]. fold p in Hr', Hc' |- *.
  set (t1 := MkTerminal (pack p.1 p.2) (chars t)). assert (at_pos t1 p.1 p.2) as Hp1 by done.
  destruct (put_byte_ok space white_on_black t1 p.1 p.2 Hp1) as (t2 & E & Ht2). rewrite E. clear E.
  cbn [mbind outcome_bind]. unfold SCREEN_WIDTH, SCREEN_HEIGHT in *.
  destruct (Nat.ltb_spec (p.2 + 1) 80) as [Hn|Hn].
  - destruct Ht2 as [Hat Hsh]. rewrite (prev_ok _ _ _ Hat). eexists. split; [reflexivity|].
    assert (before p.1 (p.2 + 1) = (p.1, p.2)) as ->.
    { unfold before. rewrite (proj2 (Nat.ltb_lt 0 (p.2 + 1))) by lia. f_equal. lia. }
    split; [done|exact Hsh].
  - assert (p = (row - 1, 79)%nat ∧ 0 < row)%nat as [Hpe Hpos].
    { by apply before_wraps. }
    rewrite Hpe in Ht2 |- *. cbn [fst snd] in *. rewrite (proj2 (Nat.ltb_lt _ _)) in Ht2 by lia.
    destruct Ht2 as [Hat Hsh]. rewrite (prev_ok _ _ _ Hat). eexists. split; [reflexivity|].
    assert (before (row - 1 + 1) 0 = (row - 1, 79)%nat) as ->.
    { replace (row - 1 + 1)%nat with row by lia. unfold before. change (0 <? 0)%nat with false.
      by rewrite (proj2 (Nat.ltb_lt _ _) Hpos). }
    split; [|exact Hsh]. repeat split; cbn [fst snd]; unfold SCREEN_HEIGHT, SCREEN_WIDTH; lia.
Qed.

Lemma write_byte_total b c t :
  terminal_wf t →
  match write_byte b c t with Ret t' => terminal_wf t' ∧ b ≠ 0 | Panic _ => b = 0 end.
Proof.
  intros (row & col & Hp). unfold write_byte. destruct (Z.eqb_spec b 0) as [Hb|Hb]; [done|].
  cbn [negb rassert mbind outcome_bind]. destruct (b =? 10); [|destruct (b =? 8)].
  - destruct (newline_ok t row col Hp) as (t' & -> & Ht). split; [|done].
    destruct (_ <? _)%nat; destruct Ht as [Ht _]; by eexists _, _.
  - destruct (backspace_ok t row col Hp) as (t' & -> & Ht & _). split; [|done]. by eexists _, _.
  - destruct (put_byte_ok b c t row col Hp) as (t' & -> & Ht). split; [|done].
    repeat case_match; destruct Ht as [Ht _]; by eexists _, _.
Qed.

(** C33: the terminal keeps its shape.  From a state with the cursor inside the screen,
    [write_byte] returns for every byte but NUL, in every colour, with the cursor inside the screen,
    and panics for NUL; and [write_str] returns, with the cursor inside the screen, exactly for the
    text without NUL bytes, and panics for all other text. *)
Theorem vga_write_total t :
  terminal_wf t →
  (∀ b c, match write_byte b c t with Ret t' => terminal_wf t' ∧ b ≠ 0 | Panic _ => b = 0 end) ∧
  ∀ s, match write_str s t with Ret t' => terminal_wf t' ∧ 0 ∉ s | Panic _ => 0 ∈ s end.
Proof.
  intros Ht. split; [intros b c; by apply write_byte_total|]. intros s. unfold write_str. revert t Ht.
  induction s as [|b s IH]; intros t Ht; cbn [for_each]; [by split; [|apply not_elem_of_nil]|].
  pose proof (write_byte_total b white_on_black t Ht) as Hb.
  destruct (write_byte b white_on_black t) as [t1|why]; cbn [mbind outcome_bind]; [|subst b; left].
  destruct Hb as [Ht1 Hb]. specialize (IH t1 Ht1). destruct (for_each _ s t1) as [t2|why]; [|by right].
  destruct IH as [Ht2 Hs]. split; [done|]. rewrite not_elem_of_cons. auto.
Qed.

(** ** Text *)

(** The lines of a text, the finished ones and the last one, wrapped at the width of the screen. *)
Definition text_put (ls : list (list Z) * list Z) (b : Z) : list (list Z) * list Z :=
  if b =? 10 then (ls.1 ++ [ls.2], [])
  else if (length ls.2 + 1 <? SCREEN_WIDTH)%nat then (ls.1, ls.2 ++ [b])
  else (ls.1 ++ [ls.2 ++ [b]], []).
Definition text_lines (s : list Z) : list (list Z) * list Z := foldl text_put ([], []) s.

(** How many lines are above the screen, and the cell at a place of it. *)
Definition hidden (ls : list (list Z) * list Z) : nat := length ls.1 - (SCREEN_HEIGHT - 1).
Definition text_cell (ls : list (list Z) * list Z) (r c : nat) : CharCell :=
  MkCell (nth c (nth (hidden ls + r) (ls.1 ++ [ls.2]) []) space) white_on_black.

Definition text_shown (ls : list (list Z) * list Z) (t : Terminal) : Prop :=
  at_pos t (length ls.1 - hidden ls) (length ls.2) ∧ shows t (text_cell ls).

(** Lines and the cells of their screen. *)
Lemma text_cell_put ls b r c :
  (length ls.2 < SCREEN_WIDTH)%nat → (r < SCREEN_HEIGHT)%nat →
  MkCell (nth c (nth (hidden ls + r) (ls.1 ++ [ls.2 ++ [b]]) []) space) white_on_black =
  if ((r =? length ls.1 - hidden ls) && (c =? length ls.2))%nat then MkCell b white_on_black else text_cell ls r c.
Proof.
  intros Hc Hr. unfold text_cell. set (k := hidden ls).
  assert (k ≤ length ls.1)%nat as Hk by (unfold k, hidden; lia).
  destruct (Nat.eqb_spec r (length ls.1 - k)) as [->|Hne]; cbn [andb].
  - replace (k + (length ls.1 - k))%nat with (length ls.1) by lia.
    rewrite !nth_middle. destruct (Nat.eqb_spec c (length ls.2)) as [->|Hc']; [by rewrite nth_middle|].
    f_equal. destruct (decide (c < length ls.2)%nat); [by rewrite app_nth1|].
    rewrite app_nth2, !nth_overflow by (cbn; lia). done.
  - do 2 f_equal. destruct (decide (k + r < length ls.1)%nat); [by rewrite !app_nth1|].
    rewrite !app_nth2 by lia. destruct (k + r - length ls.1)%nat as [|[|j]] eqn:E; [lia|done|done].
Qed.

(** A line more: the screen is the same as far as it has room, and else goes down by one line. *)
Lemma text_cell_line (ls : list (list Z) * list Z) (l : list Z) r c :
  (r < SCREEN_HEIGHT)%nat →
  text_cell (ls.1 ++ [l], []) r c =
  if (length ls.1 <? SCREEN_HEIGHT - 1)%nat then text_cell (ls.1, l) r c
  else if (r <? SCREEN_HEIGHT - 1)%nat then text_cell (ls.1, l) (S r) c else MkCell space white_on_black.
Proof.
  intros Hr. unfold text_cell, hidden. cbn [fst snd]. rewrite length_app. cbn [length]. unfold SCREEN_HEIGHT in *.
  destruct (Nat.ltb_spec (length ls.1) (25 - 1)) as [Hl|Hl]; [|destruct (Nat.ltb_spec r (25 - 1)) as [Hr'|Hr']].
  - replace (length ls.1 + 1 - (25 - 1))%nat with 0%nat by lia. replace (length ls.1 - (25 - 1))%nat with 0%nat by lia.
    rewrite !Nat.add_0_l. destruct (decide (r < length (ls.1 ++ [l]))%nat) as [H|H]; [by rewrite (app_nth1 (ls.1 ++ [l]))|].
    rewrite (app_nth2 (ls.1 ++ [l])), (nth_overflow (ls.1 ++ [l])) by lia.
    destruct (r - length (ls.1 ++ [l]))%nat as [|[|j]]; by destruct c.
  - rewrite app_nth1 by (rewrite length_app; cbn; lia). do 3 f_equal. lia.
  - rewrite app_nth2 by (rewrite length_app; cbn; lia). rewrite length_app. cbn [length].
    replace (length ls.1 + 1 - (25 - 1) + r - (length ls.1 + 1))%nat with 0%nat by lia. by destruct c.
Qed.

(** The cursor's row is the last one exactly when a line more scrolls the screen. *)
Lemma last_row (ls : list (list Z) * list Z) :
  (length ls.1 - hidden ls <? SCREEN_HEIGHT - 1)%nat = (length ls.1 <? SCREEN_HEIGHT - 1)%nat.
Proof.
  unfold hidden, SCREEN_HEIGHT. destruct (Nat.ltb_spec (length ls.1) (25 - 1)); [apply Nat.ltb_lt|apply Nat.ltb_ge]; lia.
Qed.

Lemma line_row (ls : list (list Z) * list Z) (l : list Z) :
  (length (ls.1 ++ [l]) - hidden (ls.1 ++ [l], []))%nat =
  if (length ls.1 <? SCREEN_HEIGHT - 1)%nat then (length ls.1 - hidden ls + 1)%nat else (length ls.1 - hidden ls)%nat.
Proof.
  unfold hidden. cbn [fst]. rewrite length_app. cbn [length]. unfold SCREEN_HEIGHT.
  destruct (Nat.ltb_spec (length ls.1) (25 - 1)); lia.
Qed.

Lemma newline_shown ls t :
  text_shown ls t → ∃ t', newline t = Ret t' ∧ text_shown (ls.1 ++ [ls.2], []) t'.
Proof.
  intros [Hp Hs]. destruct (newline_ok _ _ _ Hp) as (t' & E & Ht). exists t'. split; [exact E|]. clear E.
  rewrite last_row in Ht. unfold text_shown. cbn [fst snd length]. rewrite line_row.
  destruct (Nat.ltb_spec (length ls.1) (SCREEN_HEIGHT - 1)) as [Hl|Hl]; destruct Ht as [Hat Hch]; (split; [exact Hat|]);
    intros r c Hr Hc; rewrite text_cell_line by done.
  - rewrite (proj2 (Nat.ltb_lt _ _) Hl), Hch, Hs by done. by destruct ls.
  - rewrite (proj2 (Nat.ltb_ge _ _) Hl), Hch by done. destruct (Nat.ltb_spec r (SCREEN_HEIGHT - 1)); [|done].
    rewrite Hs by (done || lia). by destruct ls.
Qed.

Lemma put_byte_shown b ls t :
  b ≠ 10 → text_shown ls t → ∃ t', put_byte b white_on_black t = Ret t' ∧ text_shown (text_put ls b) t'.
Proof.
  intros Hb [Hp Hs]. pose proof Hp as (_ & Hlen & _).
  assert (∀ r c, (r < SCREEN_HEIGHT)%nat → (c < SCREEN_WIDTH)%nat →
    (if ((r =? length ls.1 - hidden ls) && (c =? length ls.2))%nat then MkCell b white_on_black else chars t r c) =
    text_cell (ls.1, ls.2 ++ [b]) r c) as Hput.
  { intros r c Hr Hc. unfold text_cell at 1. change (hidden (ls.1, ls.2 ++ [b])) with (hidden ls). cbn [fst snd].
    rewrite text_cell_put by done. by rewrite Hs by done. }
  destruct (put_byte_ok b white_on_black _ _ _ Hp) as (t' & E & Ht). exists t'. split; [exact E|]. clear E.
  rewrite last_row in Ht. unfold text_put. rewrite (proj2 (Z.eqb_neq _ _) Hb).
  destruct (length ls.2 + 1 <? SCREEN_WIDTH)%nat.
  { destruct Ht as [Hat Hch]. split; [by cbn [fst snd]; rewrite length_app|].
    intros r c Hr Hc. rewrite Hch by done. by apply Hput. }
  unfold text_shown. cbn [fst snd length]. rewrite line_row.
  destruct (Nat.ltb_spec (length ls.1) (SCREEN_HEIGHT - 1)) as [Hl|Hl]; destruct Ht as [Hat Hch]; (split; [exact Hat|]);
    intros r c Hr Hc; rewrite text_cell_line, Hch by done.
  - rewrite (proj2 (Nat.ltb_lt _ _) Hl). by apply Hput.
  - rewrite (proj2 (Nat.ltb_ge _ _) Hl). destruct (Nat.ltb_spec r (SCREEN_HEIGHT - 1)); [|done]. apply Hput; [lia|done].
Qed.

(** ** The cleared screen *)

Lemma clear_column_ok c col t :
  (col < SCREEN_WIDTH)%nat →
  ∃ t', for_each (λ row, write_cell row col (MkCell space c)) (seq 0 SCREEN_HEIGHT) t = Ret t' ∧
    row_col t' = row_col t ∧ shows t' (λ r k, if (k =? col)%nat then MkCell space c else chars t r k).
Proof.
  intros Hcol.
  destruct (for_each_inv (λ row, write_cell row col (MkCell space c)) (seq 0 SCREEN_HEIGHT) (λ j s, row_col s = row_col t ∧
    ∀ r k, chars s r k = if ((k =? col) && (r <? j))%nat then MkCell space c else chars t r k) t) as (t' & E & Hrc & Ht).
  - split; [reflexivity|]. intros r k. by rewrite andb_false_r.
  - intros j row s Hj [Hrc Hs]. apply seq_at in Hj as [-> Hj]. rewrite Nat.add_0_l, write_cell_ok by done.
    eexists. split; [reflexivity|]. split; [exact Hrc|]. intros r k. cbn [chars]. rewrite Hs. cells.
  - exists t'. split; [exact E|]. clear E. split; [exact Hrc|]. rewrite length_seq in Ht.
    intros r k Hr Hk. rewrite Ht. cells.
Qed.

Lemma clear_ok c t :
  ∃ t', clear c t = Ret t' ∧ at_pos t' 0 0 ∧ shows t' (λ _ _, MkCell space c).
Proof.
  unfold clear. change (set_position 0 0 t) with (Ret (MkTerminal (pack 0 0) (chars t))). cbn [mbind outcome_bind].
  set (t0 := MkTerminal _ _).
  destruct (for_each_inv (λ col, for_each (λ row, write_cell row col (MkCell space c)) (seq 0 SCREEN_HEIGHT))
    (seq 0 SCREEN_WIDTH) (λ j s, row_col s = row_col t0 ∧
      shows s (λ r k, if (k <? j)%nat then MkCell space c else chars t0 r k)) t0) as (t' & E & Hrc & Ht).
  - split; [reflexivity|]. intros r k _ _. reflexivity.
  - intros j col s Hj [Hrc Hs]. apply seq_at in Hj as [-> Hj]. rewrite Nat.add_0_l.
    destruct (clear_column_ok c j s Hj) as (s' & E & Hrc' & Hs'). exists s'. split; [exact E|]. clear E.
    split; [by rewrite Hrc'|]. intros r k Hr Hk. rewrite Hs', Hs by done. cells.
  - exists t'. split; [exact E|]. clear E. rewrite length_seq in Ht. split.
    + repeat split; [unfold SCREEN_HEIGHT; lia|unfold SCREEN_WIDTH; lia|exact Hrc].
    + intros r k Hr Hk. rewrite Ht by done. by rewrite (proj2 (Nat.ltb_lt _ _) Hk).
Qed.

(** C32: after [reset], what was written is what the screen shows: for text without NUL and backspace
    bytes, [write_str] returns, every cell of the screen has the character that the last 25 lines of
    the text, wrapped at 80 columns, have there (a space behind the end of a line), white on black,
    and the cursor is behind the last character. *)
Theorem vga_shows_text s t :
  Forall (λ b, b ≠ 0 ∧ b ≠ 8) s →
  ∃ t0 t', reset t = Ret t0 ∧ write_str s t0 = Ret t' ∧ text_shown (text_lines s) t'.
Proof.
  intros Hs. destruct (clear_ok white_on_black t) as (t0 & E0 & Hp & Hsh). exists t0.
  assert (∃ t', write_str s t0 = Ret t' ∧ text_shown (foldl text_put ([], []) s) t') as (t' & E & Ht);
    [|exists t'; split; [exact E0|]; split; [exact E|exact Ht]].
  clear E0. assert (text_shown ([], []) t0) as H0.
  { split; [exact Hp|]. intros r c Hr Hc. rewrite Hsh by done. unfold text_cell. cbn.
    by destruct r as [|[|r]], c. }
  clear Hp Hsh. revert t0 H0. generalize (([], []) : list (list Z) * list Z) as ls.
  induction Hs as [|b s [Hb Hb8] Hs IH]; intros ls t0 H0; [by exists t0|]. cbn [foldl].
  assert (∃ t1, write_byte b white_on_black t0 = Ret t1 ∧ text_shown (text_put ls b) t1) as (t1 & E1 & H1).
  { unfold write_byte. rewrite (proj2 (Z.eqb_neq b 0) Hb), (proj2 (Z.eqb_neq b 8) Hb8).
    cbn [negb rassert mbind outcome_bind]. destruct (Z.eqb_spec b 10) as [->|Hn]; [by apply newline_shown|].
    by apply put_byte_shown. }
  unfold write_str. cbn [for_each]. rewrite E1. clear E1. cbn [mbind outcome_bind]. by apply IH.
Qed.

Lemma vga_shows_text_witness :
  ∃ t0 t', reset (MkTerminal 77 (λ _ _, MkCell 0 0)) = Ret t0 ∧ write_str [72; 105; 10; 33] t0 = Ret t' ∧
    chars t' 1 0 = MkCell 33 15 ∧ chars t' 0 2 = MkCell 32 15 ∧ position t' = (1, 1)%nat.
Proof.
  destruct (vga_shows_text [72; 105; 10; 33] (MkTerminal 77 (λ _ _, MkCell 0 0))) as (t0 & t' & E0 & E & Hp & Hs).
  - by repeat constructor.
  - exists t0, t'. split; [exact E0|]. split; [exact E|]. clear E0 E.
    split; [rewrite Hs by (unfold SCREEN_HEIGHT, SCREEN_WIDTH; lia); reflexivity|].
    split; [rewrite Hs by (unfold SCREEN_HEIGHT, SCREEN_WIDTH; lia); reflexivity|].
    exact (position_at _ _ _ Hp).
Defined.

Lemma vga_write_total_witness :
  ∃ t', write_str [8; 10; 65] (MkTerminal (pack 24 0) (λ _ _, MkCell 0 0)) = Ret t' ∧ terminal_wf t'.
Proof.
  assert (terminal_wf (MkTerminal (pack 24 0) (λ _ _, MkCell 0 0))) as Ht.
  { exists 24%nat, 0%nat. unfold at_pos, SCREEN_HEIGHT, SCREEN_WIDTH. cbn. split_and!; (lia || done). }
  pose proof (proj2 (vga_write_total _ Ht) [8; 10; 65]) as H.
  destruct (write_str [8; 10; 65] _) as [t'|why]; [exists t'; by destruct H|].
  exfalso. rewrite !elem_of_cons, elem_of_nil in H. naive_solver lia.
Defined.
