(* ===== verification/Acpi.v ===== *)
(** * Acpi: the tables of the firmware (src/driver/acpi)

    Physical memory is a function from addresses to bytes, read through [phys_to_virt]; the tables
    are found and parsed as the source does, with its overflow checks.  The registers of ACPI and of
    PCI are ports of a [Device].  The crates [acpi] and [aml] are parameters: of their values the
    fields of the FADT and the package [_S5] appear.  Addresses are below 2^52, as [PhysAddr::new]
    asks.  Log output is left out. *)

From stdpp Require Import base list strings gmap functions.
From Stdlib Require Import ZArith Lia.
From S2P Require Import Prelude Bytes PortIo Pci.
Open Scope Z_scope.

(** Bytes and little-endian values of the memory. *)
Definition memory := Z → Z.
Definition mem_bytes (m : memory) (p : Z) (n : nat) : list Z := m <$> seqZ p (Z.of_nat n).
Definition mem_le (m : memory) (p : Z) (n : nat) : Z := from_le (mem_bytes m p n).

(** ** tables/rsdt.rs: the root pointer *)

Definition RSDP_SIGNATURE : list Z := [82; 83; 68; 32; 80; 84; 82; 32].

(** [(start..end).step_by(0x10)] *)
Definition steps (start stop : Z) : list Z := (λ i, start + 0x10 * i) <$> seqZ 0 ((stop - start + 0xf) / 0x10).

Definition has_signature (m : memory) (p : Z) : bool := bool_decide (mem_bytes m p 8 = RSDP_SIGNATURE).

Fixpoint find_signature (m : memory) (ps : list Z) : option Z :=
  match ps with
  | [] => None
  | p :: ps => if has_signature m p then Some p else find_signature m ps
  end.

Definition ebda_start : Z := 0x9fc00.
Definition ebda_end : Z := ebda_start + 0x10 * 0x64.
Definition area_start : Z := 0xe0000.
Definition area_end : Z := 0xfffff.

Definition get_rsdp_addr (m : memory) : option Z :=
  match find_signature m (steps ebda_start ebda_end) with
  | Some p => Some p
  | None => find_signature m (steps area_start area_end)
  end.

Inductive RSDPParseError := NotFound | UnsupportedVersion | IncorrectChecksum.
Inductive ParseResult := RSDT (ptr : Z) | XSDT (ptr : Z).

Definition checksum (bytes : list Z) : Z := Z.land (foldr Z.add 0 bytes) 0xff.

Definition parse_rsdp (m : memory) (p : Z) : result ParseResult RSDPParseError :=
  let revision := m (p + 15) in
  if negb ((revision =? 0) || (revision =? 2)) then Err UnsupportedVersion
  else if negb (checksum (mem_bytes m p 20) =? 0) then Err IncorrectChecksum
  else if revision =? 2 then
    if negb (checksum (mem_bytes m p 64) =? 0) then Err IncorrectChecksum
    else Ok (XSDT (mem_le m (p + 24) 8))
  else Ok (RSDT (mem_le m (p + 16) 4)).

Definition get_rsdp_and_parse (m : memory) : result ParseResult RSDPParseError :=
  match find_signature m (steps ebda_start ebda_end) with
  | Some p => parse_rsdp m p
  | None =>
      match find_signature m (steps area_start area_end) with
      | Some p => parse_rsdp m p
      | None => Err NotFound
      end
  end.

(** ** tables/mod.rs: the root table *)

(** The fields of [SDTHeader] that are used, at their offsets, and its size. *)
Definition sdt_signature (m : memory) (p : Z) : list Z := mem_bytes m p 4.
Definition sdt_length (m : memory) (p : Z) : Z := mem_le m (p + 4) 4.
Definition SDT_HEADER_SIZE : Z := 36.

Definition RSDT_SIGNATURE : list Z := [82; 83; 68; 84].

(** [LEGAZY_ACPI] and [RSDT_ENTRIES] after [init_rsdt]. *)
Record AcpiRoot := MkRoot { legacy : bool; entries : gmap (list Z) Z }.

Definition init_rsdt (m : memory) : outcome AcpiRoot :=
  match get_rsdp_and_parse m with
  | Ok r =>
      let header_ptr := match r with RSDT p => p | XSDT p => p end in
      let body_ptr_size := match r with RSDT _ => 4 | XSDT _ => 8 end in
      let legacy := match r with RSDT _ => true | XSDT _ => false end in
      _ ← rassert (bool_decide (sdt_signature m header_ptr = RSDT_SIGNATURE)) "assertion failed: `(left == right)`";
      _ ← rassert (SDT_HEADER_SIZE <=? sdt_length m header_ptr) "attempt to subtract with overflow";
      let entry_count := (sdt_length m header_ptr - SDT_HEADER_SIZE) / body_ptr_size in
      Ret (MkRoot legacy (foldl (λ result index,
        let p := mem_le m (header_ptr + (SDT_HEADER_SIZE + index * body_ptr_size)) (Z.to_nat body_ptr_size) in
        <[sdt_signature m p := p]> result) ∅ (seqZ 0 entry_count)))
  | Err _ => Panic "RSDT error"
  end.

Definition is_legacy_acpi (root : option AcpiRoot) : outcome bool :=
  r ← expect root "RSDT unintialized"; Ret (legacy r).
Definition rsdt_get (root : option AcpiRoot) (key : list Z) : outcome (option Z) :=
  r ← expect root "RSDT unintialized"; Ret (entries r !! key).

(** ** tables/fadt.rs: the address and the size of the AML code *)

Definition FACP : list Z := [70; 65; 67; 80].

Definition fadt_init (m : memory) (root : option AcpiRoot) : outcome (Z * Z) :=
  fadt ← rsdt_get root FACP;
  addr ← expect fadt "FADT not found";
  legacy ← is_legacy_acpi root;
  let dsdt_phys := if legacy : bool then mem_le m (addr + 40) 4 else mem_le m (addr + 140) 8 in
  Ret (dsdt_phys, sdt_length m dsdt_phys).

(** ** tables/madt.rs: processors and interrupt controllers *)

Record ProcessorLocalAPIC := MkCpu { processor_id : Z; acpi_id : Z; cpu_flags : Z }.
Record IoAPIC := MkIoApic { io_acpi_id : Z; io_reserved : Z; io_acpi_addr : Z; gsib : Z }.
Record InterruptSourceOverride := MkOverride { bus_source : Z; irq_source : Z; gsi : Z; int_flags : Z }.

Record ACPIData := MkAcpiData {
  local_apic_addr : Z;
  cpus : list ProcessorLocalAPIC;
  io_apics : list IoAPIC;
  int_source_overrides : list InterruptSourceOverride;
}.

Definition add_cpu (e : ProcessorLocalAPIC) (d : ACPIData) : ACPIData :=
  MkAcpiData (local_apic_addr d) (cpus d ++ [e]) (io_apics d) (int_source_overrides d).
Definition add_io_apic (e : IoAPIC) (d : ACPIData) : ACPIData :=
  MkAcpiData (local_apic_addr d) (cpus d) (io_apics d ++ [e]) (int_source_overrides d).
Definition add_override (e : InterruptSourceOverride) (d : ACPIData) : ACPIData :=
  MkAcpiData (local_apic_addr d) (cpus d) (io_apics d) (int_source_overrides d ++ [e]).

(** The body of an entry at [ptr]: its size is checked, and it is added to the data. *)
Definition madt_entry (m : memory) (entry_type body_size ptr : Z) (d : ACPIData) : outcome ACPIData :=
  let sized n := rassert (body_size =? n) "assertion failed: `(left == right)`" in
  if entry_type =? 0 then
    _ ← sized 6; Ret (add_cpu (MkCpu (m ptr) (m (ptr + 1)) (mem_le m (ptr + 2) 4)) d)
  else if entry_type =? 1 then
    _ ← sized 10; Ret (add_io_apic (MkIoApic (m ptr) (m (ptr + 1)) (mem_le m (ptr + 2) 4) (mem_le m (ptr + 6) 4)) d)
  else if entry_type =? 2 then
    _ ← sized 8; Ret (add_override (MkOverride (m ptr) (m (ptr + 1)) (mem_le m (ptr + 2) 4) (mem_le m (ptr + 6) 2)) d)
  else if entry_type =? 4 then _ ← sized 4; Ret d
  else if entry_type =? 5 then _ ← sized 10; Ret d
  else Panic "Unknown APIC entry type".

Fixpoint madt_loop (fuel : nat) (m : memory) (ptr table_end : Z) (d : ACPIData) : option (outcome ACPIData) :=
  match fuel with
  | O => None
  | S fuel =>
      let entry_type := m ptr in
      let entry_size := m (ptr + 1) in
      let ptr := ptr + 2 in
      if entry_size <? 2 then Some (Panic "attempt to subtract with overflow")
      else
        let entry_body_size := entry_size - 2 in
        match madt_entry m entry_type entry_body_size ptr d with
        | Panic why => Some (Panic why)
        | Ret d =>
            let ptr := ptr + entry_body_size in
            if ptr =? table_end then Some (Ret d)
            else if ptr <? table_end then madt_loop fuel m ptr table_end d
            else Some (Panic "assertion failed: ptr < table_end")
        end
  end.

Definition APIC : list Z := [65; 80; 73; 67].

Definition madt_init (fuel : nat) (m : memory) (root : option AcpiRoot) : option (outcome ACPIData) :=
  match (apic ← rsdt_get root APIC; expect apic "APIC table not found") with
  | Panic why => Some (Panic why)
  | Ret addr =>
      if sdt_length m addr <=? 8 then Some (Panic "assertion failed: header.length > 8")
      else madt_loop fuel m (addr + SDT_HEADER_SIZE + 4 + 4) (addr + sdt_length m addr)
             (MkAcpiData (mem_le m (addr + SDT_HEADER_SIZE) 4) [] [] [])
  end.

(** ** mod.rs: registers *)

Section registers.
Context `{!Device}.

(** [pci_read_u32] is that of the PCI library, statement for statement. *)
Definition pci_read_u32 (bus slot func offset : Z) : IO Z := pci_read_device (Loc bus slot func) offset.

Definition read_pci_u8 (bus device function offset : Z) : IO Z :=
  let base_offset := offset - offset mod 4 in
  base_value ← pci_read_u32 bus device function (base_offset mod 256);
  let shift := 24 - 8 * (offset mod 4) in
  mret (Z.shiftr base_value shift mod 256).

Definition read_pci_u16 (bus device function offset : Z) : IO Z :=
  _ ← io_assert (offset mod 2 =? 0) "assertion failed: offset % 2 == 0";
  let base_offset := offset - offset mod 4 in
  base_value ← pci_read_u32 bus device function (base_offset mod 256);
  let shift := 16 - 8 * (offset mod 4) in
  mret (Z.shiftr base_value shift mod 2 ^ 16).

Definition read_pci_u32 (bus device function offset : Z) : IO Z :=
  pci_read_u32 bus device function (offset mod 256).

(** The address spaces of the crate [acpi]. *)
Inductive AddressSpace :=
| SystemMemory | SystemIo | PciConfigSpace | EmbeddedController | SMBus | SystemCmos | PciBarTarget
| Ipmi | GeneralIo | GenericSerialBus | PlatformCommunicationsChannel | FunctionalFixedHardware
| OemDefined (v : Z).

Record GenericAddress := MkGeneric { address_space : AddressSpace; bit_width : Z; gen_address : Z }.

Definition read_generic_addr (addr : GenericAddress) : IO Z :=
  match address_space addr with
  | SystemIo =>
      _ ← io_assert (gen_address addr <=? 0xffff) "assertion failed: addr.address <= u16::MAX as u64";
      if (bit_width addr =? 8) || (bit_width addr =? 16) || (bit_width addr =? 32)
      then read_port (bit_width addr) (gen_address addr)
      else io_panic "Generic write: invalid bit width"
  | _ => io_panic "not yet implemented"
  end.

Definition write_generic_addr (addr : GenericAddress) (value : Z) : IO unit :=
  match address_space addr with
  | SystemIo =>
      _ ← io_assert (gen_address addr <=? 0xffff) "assertion failed: addr.address <= u16::MAX as u64";
      if (bit_width addr =? 8) || (bit_width addr =? 16) || (bit_width addr =? 32)
      then write_port (bit_width addr) (gen_address addr) (value mod 2 ^ bit_width addr)
      else io_panic "Generic write: invalid bit width"
  | _ => io_panic "not yet implemented"
  end.

(** The FADT as the crate returns it. *)
Record Fadt := MkFadt { smi_cmd_port : Z; acpi_enable : Z; acpi_disable : Z; pm1a_control_block : GenericAddress }.

(** [while read_generic_addr(pm1a) & 1 == 0 {}] *)
Definition wait_acpi_mode (fuel : nat) (pm1a : GenericAddress) : IO unit :=
  io_until fuel (v ← read_generic_addr pm1a; mret (negb (Z.land v 1 =? 0))).

(** The part of [init] that switches to ACPI mode. *)
Definition switch_to_acpi (fuel : nat) (fadt : Fadt) : IO unit :=
  let pm1a := pm1a_control_block fadt in
  if (smi_cmd_port fadt =? 0) || ((acpi_enable fadt =? 0) && (acpi_disable fadt =? 0)) then mret tt
  else
    v ← read_generic_addr pm1a;
    if negb (Z.land v 1 =? 0) then mret tt
    else
      _ ← write_port 8 (smi_cmd_port fadt mod 2 ^ 16) (acpi_enable fadt);
      wait_acpi_mode fuel pm1a.

Inductive AmlValue := Package (values : list AmlValue) | Integer (v : Z) | OtherValue.

(** [power_off], with the FADT of the tables and the value of [_S5]; it never returns. *)
Definition power_off (fadt : option Fadt) (s5 : option AmlValue) : IO unit :=
  fadt ← io_lift (expect fadt "ACPI not initialized");
  s5 ← io_lift (expect s5 "_S5 missing");
  match s5 with
  | Package values =>
      v ← io_lift (index_at values 3);
      match v with
      | Integer slp_typa =>
          let x := Z.lor (Z.shiftl slp_typa 10 mod 2 ^ 64) (Z.shiftl 1 13) in
          _ ← write_generic_addr (pm1a_control_block fadt) x;
          io_panic "Power off"
      | _ => io_panic "Invalid _S5: int"
      end
  | _ => io_panic "Invalid _S5: pkg"
  end.

End registers.

(** ** Finding the tables *)

Lemma find_signature_exact m ps :
  match find_signature m ps with
  | Some p => ∃ before after, ps = before ++ p :: after ∧ mem_bytes m p 8 = RSDP_SIGNATURE ∧
      Forall (λ q, mem_bytes m q 8 ≠ RSDP_SIGNATURE) before
  | None => Forall (λ q, mem_bytes m q 8 ≠ RSDP_SIGNATURE) ps
  end.
Proof.
  induction ps as [|p ps IH]; cbn [find_signature]; [constructor|]. unfold has_signature. case_bool_decide as E.
  { by exists [], ps. }
  destruct (find_signature m ps) as [q|]; [|by constructor]. destruct IH as (before & after & -> & Hq & Hb).
  exists (p :: before), after. split; [done|]. split; [done|]. by constructor.
Qed.

(** With ACPI 2.0 the root table has the signature [XSDT], and [init_rsdt] panics. *)
Theorem acpi2_panics m p :
  get_rsdp_and_parse m = Ok (XSDT p) → sdt_signature m p = [88; 83; 68; 84] → ∃ why, init_rsdt m = Panic why.
Proof. intros E Hs. unfold init_rsdt. rewrite E, Hs. by eexists. Qed.

(** The bytes of PCI registers are taken from the wrong end: the one at offset 0 is the highest. *)
Theorem read_pci_u8_reversed `{!Device} `{!PciLaws} bus dev f d :
  ∃ d', read_pci_u8 bus dev f 0 d = Some (Ret (byte_of (config d) (Loc bus dev f) 0 24, d')).
Proof.
  destruct (finds_field (config d) (Loc bus dev f) 0 (λ v, Z.shiftr v 24 mod 256)
    (byte_of (config d) (Loc bus dev f) 0 24) eq_refl) with (d := d) as (v & d' & E & _ & ->); [|done|by exists d'].
  intros _. unfold byte_of. by rewrite Z.shiftr_div_pow2.
Qed.

(** ** The interrupt table, read back *)

(** The memory has the bytes at the address. *)
Definition has_bytes (m : memory) (p : Z) (l : list Z) : Prop := mem_bytes m p (length l) = l.

Lemma has_bytes_cons m p x l : has_bytes m p (x :: l) ↔ m p = x ∧ has_bytes m (p + 1) l.
Proof.
  unfold has_bytes, mem_bytes. cbn [length]. rewrite (seqZ_cons p) by lia. rewrite fmap_cons.
  replace (Z.pred (Z.of_nat (S (length l)))) with (Z.of_nat (length l)) by lia.
  replace (Z.succ p) with (p + 1) by lia. split; [by intros [= -> ->]|by intros [-> ->]].
Qed.

Lemma has_bytes_app m p l1 l2 :
  has_bytes m p (l1 ++ l2) ↔ has_bytes m p l1 ∧ has_bytes m (p + Z.of_nat (length l1)) l2.
Proof.
  revert p. induction l1 as [|x l1 IH]; intros p.
  { cbn [app length]. rewrite Z.add_0_r. unfold has_bytes at 2. by intuition. }
  cbn [app length]. rewrite !has_bytes_cons, IH. replace (p + Z.of_nat (S (length l1))) with (p + 1 + Z.of_nat (length l1)) by lia.
  by rewrite (assoc (∧)).
Qed.

Lemma has_bytes_le m p n v : has_bytes m p (to_le n v) → 0 ≤ v < 256 ^ Z.of_nat n → mem_le m p n = v.
Proof.
  unfold has_bytes, mem_le. rewrite to_le_length. intros -> Hv. rewrite from_le_to_le. by apply Z.mod_small.
Qed.

(** The entries a table can have. *)
Inductive madt_record :=
| CpuRecord (e : ProcessorLocalAPIC)
| IoApicRecord (e : IoAPIC)
| OverrideRecord (e : InterruptSourceOverride)
| NmiRecord (body : list Z)
| AddressRecord (body : list Z).

Definition encode_record (r : madt_record) : list Z :=
  match r with
  | CpuRecord e => [0; 8; processor_id e; acpi_id e] ++ to_le 4 (cpu_flags e)
  | IoApicRecord e => [1; 12; io_acpi_id e; io_reserved e] ++ to_le 4 (io_acpi_addr e) ++ to_le 4 (gsib e)
  | OverrideRecord e => [2; 10; bus_source e; irq_source e] ++ to_le 4 (gsi e) ++ to_le 2 (int_flags e)
  | NmiRecord body => [4; 6] ++ body
  | AddressRecord body => [5; 12] ++ body
  end.

Definition record_ok (r : madt_record) : Prop :=
  match r with
  | CpuRecord e => 0 ≤ cpu_flags e < 2 ^ 32
  | IoApicRecord e => 0 ≤ io_acpi_addr e < 2 ^ 32 ∧ 0 ≤ gsib e < 2 ^ 32
  | OverrideRecord e => 0 ≤ gsi e < 2 ^ 32 ∧ 0 ≤ int_flags e < 2 ^ 16
  | NmiRecord body => length body = 4%nat
  | AddressRecord body => length body = 10%nat
  end.

Definition add_record (d : ACPIData) (r : madt_record) : ACPIData :=
  match r with
  | CpuRecord e => add_cpu e d
  | IoApicRecord e => add_io_apic e d
  | OverrideRecord e => add_override e d
  | _ => d
  end.

Definition body_size (r : madt_record) : Z := Z.of_nat (length (encode_record r)) - 2.

Lemma head_bytes m p t n l :
  has_bytes m p (t :: n :: l) ↔ m p = t ∧ m (p + 1) = n ∧ has_bytes m (p + 2) l.
Proof. rewrite !has_bytes_cons. by replace (p + 1 + 1) with (p + 2) by lia. Qed.

(** Two bytes and a double word, with which the bodies of the entries that are kept start. *)
Lemma body_start m p a b v l :
  has_bytes m p ([a; b] ++ to_le 4 v ++ l) → 0 ≤ v < 2 ^ 32 →
  m p = a ∧ m (p + 1) = b ∧ mem_le m (p + 2) 4 = v ∧ has_bytes m (p + 6) l.
Proof.
  cbn [app]. rewrite head_bytes, has_bytes_app, to_le_length. intros (Ha & Hb & Hv & Hl) Hr.
  apply has_bytes_le in Hv; [|done]. replace (p + 2 + Z.of_nat 4) with (p + 6) in Hl by lia. done.
Qed.

Lemma madt_entry_ok m p r d :
  record_ok r → has_bytes m p (encode_record r) →
  m (p + 1) = body_size r + 2 ∧ madt_entry m (m p) (body_size r) (p + 2) d = Ret (add_record d r).
Proof.
  intros Hok Hb. destruct r as [e|e|e|body|body]; cbn [record_ok] in Hok.
  - apply (head_bytes m p 0 8 ([processor_id e; acpi_id e] ++ to_le 4 (cpu_flags e))) in Hb as (-> & -> & Hb).
    rewrite <- (app_nil_r (to_le 4 (cpu_flags e))) in Hb. apply body_start in Hb as (H1 & H2 & H3 & _); [|done].
    split; [done|]. unfold madt_entry. cbn [Z.eqb]. rewrite H1, H2, H3. by destruct e.
  - destruct Hok as [Ho1 Ho2].
    apply (head_bytes m p 1 12 ([io_acpi_id e; io_reserved e] ++ to_le 4 (io_acpi_addr e) ++ to_le 4 (gsib e)))
      in Hb as (-> & -> & Hb). apply body_start in Hb as (H1 & H2 & H3 & H4); [|done].
    apply has_bytes_le in H4; [|done]. split; [done|].
    unfold madt_entry. cbn [Z.eqb Pos.eqb]. rewrite H1, H2, H3, H4. by destruct e.
  - destruct Hok as [Ho1 Ho2].
    apply (head_bytes m p 2 10 ([bus_source e; irq_source e] ++ to_le 4 (gsi e) ++ to_le 2 (int_flags e)))
      in Hb as (-> & -> & Hb). apply body_start in Hb as (H1 & H2 & H3 & H4); [|done].
    apply has_bytes_le in H4; [|done]. split; [done|].
    unfold madt_entry. cbn [Z.eqb Pos.eqb]. rewrite H1, H2, H3, H4. by destruct e.
  - apply (head_bytes m p 4 6 body) in Hb as (-> & -> & _). unfold body_size. cbn [encode_record app length].
    by rewrite Hok.
  - apply (head_bytes m p 5 12 body) in Hb as (-> & -> & _). unfold body_size. cbn [encode_record app length].
    by rewrite Hok.
Qed.

Lemma record_length r : record_ok r → (2 < length (encode_record r))%nat.
Proof. destruct r; cbn [record_ok encode_record app length]; rewrite ?length_app, ?to_le_length; lia. Qed.

Lemma madt_loop_ok m records p d :
  records ≠ [] → Forall record_ok records → has_bytes m p (mjoin (encode_record <$> records)) →
  madt_loop (length records) m p (p + Z.of_nat (length (mjoin (encode_record <$> records)))) d =
    Some (Ret (foldl add_record d records)).
Proof.
  intros Hne Hok. revert p d Hne. induction Hok as [|r records Hr Hok IH]; intros p d Hne Hb; [done|].
  rewrite fmap_cons in Hb |- *. change (mjoin (?x :: ?y)) with (x ++ mjoin y) in Hb |- *.
  apply has_bytes_app in Hb as [Hb1 Hb2]. destruct (madt_entry_ok m p r d Hr Hb1) as [Hs He].
  pose proof (record_length r Hr) as Hl. cbn [length madt_loop foldl]. rewrite Hs.
  rewrite (proj2 (Z.ltb_ge _ _)) by (unfold body_size; lia). rewrite Z.add_simpl_r, He, length_app.
  replace (p + 2 + body_size r) with (p + Z.of_nat (length (encode_record r))) by (unfold body_size; lia).
  destruct records as [|r2 records].
  - cbn [fmap list_fmap mjoin list_join length]. by rewrite Nat.add_0_r, Z.eqb_refl.
  - set (rest := mjoin (encode_record <$> r2 :: records)) in *.
    assert (0 < length rest)%nat as Hrest.
    { unfold rest. rewrite fmap_cons. change (mjoin (?x :: ?y)) with (x ++ mjoin y). rewrite length_app.
      apply Forall_cons_1 in Hok as [Hr2 _]. pose proof (record_length r2 Hr2). lia. }
    rewrite (proj2 (Z.eqb_neq _ _)), (proj2 (Z.ltb_lt _ _)) by lia.
    replace (p + Z.of_nat (length (encode_record r) + length rest)%nat)
      with (p + Z.of_nat (length (encode_record r)) + Z.of_nat (length rest)) by lia. by apply IH.
Qed.

(** The interrupt table is read back: when the root table names a table of [records], encoded as
    the standard says, [madt_init] returns the address of the local controller and the processors,
    interrupt controllers and overrides of the records, all of them and in order; the other two kinds
    of record are skipped. *)
Theorem madt_round_trip m root addr lapic flags records :
  entries root !! APIC = Some addr → records ≠ [] → Forall record_ok records → 0 ≤ lapic < 2 ^ 32 →
  sdt_length m addr = 44 + Z.of_nat (length (mjoin (encode_record <$> records))) →
  has_bytes m (addr + 36) (to_le 4 lapic ++ to_le 4 flags ++ mjoin (encode_record <$> records)) →
  madt_init (length records) m (Some root) =
    Some (Ret (foldl add_record (MkAcpiData lapic [] [] []) records)).
Proof.
  intros Hroot Hne Hok Hl Hlen Hb. unfold madt_init, rsdt_get. cbn [expect mbind outcome_bind]. rewrite Hroot.
  cbn [expect mbind outcome_bind]. rewrite (proj2 (Z.leb_gt _ _)) by lia. unfold SDT_HEADER_SIZE.
  rewrite !has_bytes_app, !to_le_length in Hb. destruct Hb as (Hb1 & _ & Hb3).
  rewrite (has_bytes_le m (addr + 36) 4 lapic Hb1) by done. rewrite Hlen.
  replace (addr + (44 + Z.of_nat (length (mjoin (encode_record <$> records)))))
    with (addr + 36 + 4 + 4 + Z.of_nat (length (mjoin (encode_record <$> records)))) by lia.
  by apply madt_loop_ok.
Qed.

(** ** A table with a processor, a controller, an override and an interrupt that is not masked *)

Definition sample_records : list madt_record :=
  [CpuRecord (MkCpu 0 0 1); IoApicRecord (MkIoApic 1 0 0xfec00000 0);
   OverrideRecord (MkOverride 0 0 2 0); NmiRecord [255; 0; 0; 1]].

Definition sample_memory (k : Z) : Z :=
  nth (Z.to_nat (k - 0x1000))
    (APIC ++ to_le 4 80 ++ repeat 0 28 ++ to_le 4 0xfee00000 ++ to_le 4 1 ++ mjoin (encode_record <$> sample_records)) 0.

Lemma madt_round_trip_witness :
  madt_init 4 sample_memory (Some (MkRoot true {[APIC := 0x1000]})) =
    Some (Ret (MkAcpiData 0xfee00000 [MkCpu 0 0 1] [MkIoApic 1 0 0xfec00000 0] [MkOverride 0 0 2 0])).
Proof.
  apply (madt_round_trip sample_memory (MkRoot true {[APIC := 0x1000]}) 0x1000 0xfee00000 1 sample_records).
  - reflexivity.
  - done.
  - by repeat constructor.
  - done.
  - by vm_compute.
  - by vm_compute.
Defined.

(** A root pointer of ACPI 2.0 whose two checksums are right, the second over the 36 bytes of the
    structure, and a byte behind it: [parse_rsdp] sums up 64 bytes and refuses it. *)
Definition extended_rsdp (k : Z) : Z :=
  nth (Z.to_nat (k - 0xe0000))
    (RSDP_SIGNATURE ++ [223] ++ repeat 0 6 ++ [2] ++ repeat 0 4 ++ to_le 4 36 ++ repeat 0 8 ++ [220] ++ repeat 0 3 ++ [1]) 0.

Theorem extended_checksum_refused :
  checksum (mem_bytes extended_rsdp 0xe0000 20) = 0 ∧ checksum (mem_bytes extended_rsdp 0xe0000 36) = 0 ∧
  parse_rsdp extended_rsdp 0xe0000 = Err IncorrectChecksum.
Proof. by vm_compute. Qed.
