(* ===== verification/IoApic.v ===== *)
(** * IoApic: interrupt controllers and interrupts between processors (src/driver/ioapic)

    The registers are memory-mapped: an access of one is an access of the [Device] by its physical
    address, 32 bits wide.  What the controllers are is read from the ACPI tables ([Acpi]).  Log
    output, the copy of the start-up code of the other processors and the delay before their second
    interrupt are left out. *)

From stdpp Require Import base sets list strings functions.
From Stdlib Require Import ZArith Lia.
From S2P Require Import Prelude Bytes PortIo Acpi.
Open Scope Z_scope.

Definition REG_ID : Z := 0.
Definition REG_VERSION : Z := 1.

(** ** io.rs *)

(** A redirection entry; its four reserved bytes are zero. *)
Record RedirectEntry := MkRedirect { vector : Z; flags : Z; masked : bool; destination : Z }.

Inductive DeliveryMode := Fixed | LowPriority | SMI | NMI | Init | ExternalInt.
Definition DeliveryMode_as_u8 (m : DeliveryMode) : Z :=
  match m with Fixed => 0 | LowPriority => 1 | SMI => 2 | NMI => 4 | Init => 5 | ExternalInt => 7 end.

Definition RedirectEntryFlags_new (delivery_mode : DeliveryMode)
    (destination_logical pending pin_polarity_low remote_irr _trigger_mode_level : bool) : Z :=
  Z.lor (Z.lor (Z.lor (Z.lor (DeliveryMode_as_u8 delivery_mode)
    (Z.shiftl (Z.b2z destination_logical) 4)) (Z.shiftl (Z.b2z pending) 5))
    (Z.shiftl (Z.b2z pin_polarity_low) 6)) (Z.shiftl (Z.b2z remote_irr) 7).

(** [transmute] of the packed structure *)
Definition redirect_bits (r : RedirectEntry) : Z :=
  from_le [vector r; flags r; Z.b2z (masked r); 0; 0; 0; 0; destination r].

Section registers.
Context `{!Device}.

Definition mmio_read (a : Z) : IO Z := read_port 32 a.
Definition mmio_write (a v : Z) : IO unit := write_port 32 a v.

Definition actual_addr (entry : IoAPIC) (offset : Z) : outcome Z :=
  _ ← rassert (io_acpi_addr entry + offset <? 2 ^ 32) "attempt to add with overflow";
  Ret (io_acpi_addr entry + offset).

Definition select (entry : IoAPIC) (offset : Z) : IO unit :=
  a ← io_lift (actual_addr entry 0);
  mmio_write a offset.

Definition io_read (entry : IoAPIC) (offset : Z) : IO Z :=
  _ ← select entry offset;
  a ← io_lift (actual_addr entry 0x10);
  mmio_read a.

Definition io_write (entry : IoAPIC) (offset value : Z) : IO unit :=
  _ ← select entry offset;
  a ← io_lift (actual_addr entry 0x10);
  mmio_write a value.

Definition io_id (entry : IoAPIC) : IO Z :=
  v ← io_read entry REG_ID; mret (Z.land (Z.shiftr v 24) 0xf).

Definition version (entry : IoAPIC) : IO (Z * Z) :=
  v ← io_read entry REG_VERSION; mret (v mod 256, Z.shiftr v 16 mod 256).

Definition read_redirect_entry (entry : IoAPIC) (relative_irq : Z) : IO RedirectEntry :=
  let req := 0x10 + relative_irq * 2 in
  lo ← io_read entry req;
  hi ← io_read entry (req + 1);
  mret (MkRedirect (lo mod 256) (Z.shiftr lo 8 mod 256) (Z.testbit lo 16) (Z.shiftr hi 24)).

Definition write_redirect_entry (entry : IoAPIC) (relative_irq : Z) (redirect : RedirectEntry) : IO unit :=
  let req := 0x10 + relative_irq * 2 in
  let bits := redirect_bits redirect in
  _ ← io_write entry req (bits mod 2 ^ 32);
  io_write entry (req + 1) (Z.shiftr bits 32).

Fixpoint set_irq_handler (io_apics : list IoAPIC) (irq : Z) (redirect : RedirectEntry) : IO unit :=
  match io_apics with
  | [] => io_panic "No I/O APIC handles irq"
  | apic :: io_apics =>
      if gsib apic <=? irq then
        let relative_irq := irq - gsib apic in
        v ← version apic;
        if relative_irq <=? v.2 then write_redirect_entry apic relative_irq redirect
        else set_irq_handler io_apics irq redirect
      else set_irq_handler io_apics irq redirect
  end.

(** The loop over the overrides: interrupt, polarity and trigger mode of a source. *)
Definition overridden (overrides : list InterruptSourceOverride) (src_irq : Z) : Z * bool * bool :=
  foldl (λ s o, if (bus_source o =? 0) && (irq_source o =? src_irq)
    then (gsi o mod 256, negb (Z.land (int_flags o) 2 =? 0), negb (Z.land (int_flags o) 8 =? 0)) else s)
    (src_irq, false, false) overrides.

Definition redirect_for (overrides : list InterruptSourceOverride) (cpu src_irq : Z) : outcome RedirectEntry :=
  let '(irq, low, level) := overridden overrides src_irq in
  _ ← rassert (0x30 + irq <? 256) "attempt to add with overflow";
  Ret (MkRedirect (0x30 + irq) (RedirectEntryFlags_new Fixed false false low false level) false cpu).

Definition io_init (acpi_data : option ACPIData) : IO unit :=
  acpi_data ← io_lift (expect acpi_data "acpi::init not called");
  cpu ← io_lift (index_at (cpus acpi_data) 0);
  if bool_decide (io_apics acpi_data = []) then io_panic "No I/O APICs detected, unsupported system"
  else
    io_each (λ src_irq,
      r ← io_lift (redirect_for (int_source_overrides acpi_data) (acpi_id cpu) src_irq);
      set_irq_handler (io_apics acpi_data) src_irq r) (seqZ 0 24).

(** ** lapic.rs, mod.rs *)

(** Registers of the processor's own controller, at [addr]. *)
Definition END_OF_INTERRUPT : Z := 0xb0.
Definition LAPIC_ID : Z := 0x20.
Definition SPURIOUS_IV : Z := 0xf0.
Definition LVT_TIMER : Z := 0x320.
Definition TIMER_INITIAL_COUNT : Z := 0x380.
Definition TIMER_CURRENT_COUNT : Z := 0x390.
Definition TIMER_DIVIDE_CONFIG : Z := 0x3e0.
Definition TIMER_MODE_ONE_SHOT : Z := 0x0.
Definition TIMER_MODE_DEADLINE : Z := 0x40000.
Definition TIMER_DIVIDE_BY_2 : Z := 0x0.

Section lapic.
Context (acpi_data : option ACPIData).

Definition lapic_addr : outcome Z := d ← expect acpi_data "acpi::init not called"; Ret (local_apic_addr d).

Definition lapic_read_u32 (offset : Z) : IO Z := a ← io_lift lapic_addr; mmio_read (a + offset).
Definition lapic_write_u32 (offset value : Z) : IO unit := a ← io_lift lapic_addr; mmio_write (a + offset) value.

Definition apic_processor_id : IO Z := v ← lapic_read_u32 LAPIC_ID; mret (Z.shiftr v 24).
Definition write_eoi : IO unit := lapic_write_u32 END_OF_INTERRUPT 0.

(** [deadline] is [tsc_supports_deadline_mode]. *)
Definition configure_timer (deadline : bool) (vector_number : Z) : IO unit :=
  if deadline then lapic_write_u32 LVT_TIMER (Z.lor vector_number TIMER_MODE_DEADLINE)
  else
    _ ← lapic_write_u32 TIMER_DIVIDE_CONFIG TIMER_DIVIDE_BY_2;
    lapic_write_u32 LVT_TIMER (Z.lor vector_number TIMER_MODE_ONE_SHOT).

Definition set_timer_raw (ticks : Z) : IO unit := lapic_write_u32 TIMER_INITIAL_COUNT ticks.
Definition get_timer_raw : IO Z := lapic_read_u32 TIMER_CURRENT_COUNT.
Definition set_timer_ticks (deadline : bool) (ticks : Z) : IO unit :=
  _ ← io_assert (negb deadline) "Not supported in TSC-deadline mode";
  set_timer_raw (ticks / 2).

Definition enable_local_apic : IO unit :=
  a ← io_lift lapic_addr;
  value ← mmio_read (a + SPURIOUS_IV);
  mmio_write (a + SPURIOUS_IV) (Z.lor (Z.lor value 0xff) 0x100).

Definition per_processor_init (deadline : bool) : IO unit :=
  _ ← enable_local_apic;
  configure_timer deadline 0xd8.

Definition apic_wakeup_processor (acpi_id : Z) : IO unit :=
  a ← io_lift lapic_addr;
  _ ← mmio_write (a + 0x310) (Z.shiftl acpi_id 24);
  _ ← mmio_write (a + 0x300) 0x4500;
  _ ← mmio_write (a + 0x310) (Z.shiftl acpi_id 24);
  mmio_write (a + 0x300) (Z.lor 0x4600 0x0002).

Definition send_ipi (fuel : nat) (acpi_id int_vector : Z) (synchronous : bool) : IO unit :=
  a ← io_lift lapic_addr;
  _ ← mmio_write (a + 0x310) (Z.shiftl acpi_id 24);
  _ ← mmio_write (a + 0x300) int_vector;
  if synchronous then io_until fuel (v ← mmio_read (a + 0x300); mret (Z.land v (Z.shiftl 1 12) =? 0))
  else mret tt.

Definition broadcast_ipi (include_self : bool) (int_vector : Z) : IO unit :=
  a ← io_lift lapic_addr;
  let mode := if include_self then Z.shiftl 2 18 else Z.shiftl 3 18 in
  _ ← mmio_write (a + 0x310) 0;
  mmio_write (a + 0x300) (Z.lor int_vector mode).

End lapic.

(** [init_bsp], without the old controllers and the start-up code. *)
Definition init_bsp (acpi_data : option ACPIData) (deadline : bool) : IO bool :=
  _ ← io_init acpi_data;
  _ ← per_processor_init acpi_data deadline;
  mret true.

End registers.

(** ** The reference controllers *)

(** By address of the controller: the selected register and the registers. *)
Record IoRegs := MkIoRegs { selected : Z → Z; reg : Z → Z → Z }.

Definition set_selected (b v : Z) (s : IoRegs) : IoRegs := MkIoRegs (<[b := v]> (selected s)) (reg s).
Definition set_io_reg (b k v : Z) (s : IoRegs) : IoRegs := MkIoRegs (selected s) (<[b := <[k := v]> (reg s b)]> (reg s)).

(** What the driver relies on, for controllers at the addresses [bases]: the first register selects,
    and the register at 0x10 is the selected one; the redirection entries, from 0x10 on, can be
    written. *)
Class IoApicLaws `{!Device} (bases : list Z) := {
  view : Dev → IoRegs;
  law_select b v d : b ∈ bases → view (port_out 32 (b + 0) v d) = set_selected b v (view d);
  law_read b d : b ∈ bases →
    (port_in 32 (b + 0x10) d).1 = reg (view d) b (selected (view d) b) ∧
    view (port_in 32 (b + 0x10) d).2 = view d;
  law_write b v d : b ∈ bases → 0x10 ≤ selected (view d) b →
    view (port_out 32 (b + 0x10) v d) = set_io_reg b (selected (view d) b) v (view d);
}.

(** The last redirection entry of a controller, and the controller that handles an interrupt. *)
Definition max_entry (s : IoRegs) (apic : IoAPIC) : Z :=
  Z.shiftr (reg s (io_acpi_addr apic) REG_VERSION) 16 mod 256.
Definition handles (s : IoRegs) (irq : Z) (apic : IoAPIC) : bool :=
  (gsib apic <=? irq) && (irq - gsib apic <=? max_entry s apic).
Fixpoint handler (s : IoRegs) (irq : Z) (apics : list IoAPIC) : option IoAPIC :=
  match apics with
  | [] => None
  | apic :: apics => if handles s irq apic then Some apic else handler s irq apics
  end.

(** The registers of an entry. *)
Definition entry_set (s : IoRegs) (apic : IoAPIC) (irq : Z) (r : RedirectEntry) : Prop :=
  reg s (io_acpi_addr apic) (0x10 + (irq - gsib apic) * 2) = redirect_bits r mod 2 ^ 32 ∧
  reg s (io_acpi_addr apic) (0x10 + (irq - gsib apic) * 2 + 1) = Z.shiftr (redirect_bits r) 32.

Lemma handler_in s irq apics apic : handler s irq apics = Some apic → apic ∈ apics ∧ handles s irq apic = true.
Proof.
  induction apics as [|a apics IH]; cbn [handler]; [done|]. destruct (handles s irq a) eqn:Hh.
  - intros [= ->]. split; [set_solver|done].
  - intros E. destruct (IH E). split; [set_solver|done].
Qed.

(** Controllers whose version registers are the same handle the same interrupts. *)
Lemma handler_same s t irq apics :
  (∀ b, reg t b REG_VERSION = reg s b REG_VERSION) → handler t irq apics = handler s irq apics.
Proof.
  intros E. induction apics as [|a apics IH]; cbn [handler]; [done|]. unfold handles, max_entry. by rewrite E, IH.
Qed.

Section props.
Context `{!Device} (bases : list Z) `{!IoApicLaws bases}.
Implicit Types s : IoRegs.

Definition apic_ok (apic : IoAPIC) : Prop := io_acpi_addr apic ∈ bases ∧ 0 ≤ io_acpi_addr apic < 2 ^ 32 - 0x10.

Lemma actual_addr_ok apic k : apic_ok apic → 0 ≤ k ≤ 0x10 → actual_addr apic k = Ret (io_acpi_addr apic + k).
Proof. intros [_ Hr] Hk. unfold actual_addr. by rewrite (proj2 (Z.ltb_lt _ _)) by lia. Qed.

Lemma select_acts apic k s :
  apic_ok apic → acts view s (select apic k) (λ r t, r = tt ∧ t = set_selected (io_acpi_addr apic) k s).
Proof.
  intros Ha. unfold select. rewrite actual_addr_ok by (done || lia).
  eapply acts_step; [apply acts_lift|].
  apply acts_write. intros d <-. by apply law_select, Ha.
Qed.

Lemma io_read_acts apic k s :
  apic_ok apic → acts view s (io_read apic k) (λ r t, r = reg s (io_acpi_addr apic) k ∧
    t = set_selected (io_acpi_addr apic) k s).
Proof.
  intros Ha. unfold io_read. eapply acts_step; [by apply select_acts|]. rewrite actual_addr_ok by (done || lia).
  eapply acts_step; [apply acts_lift|].
  apply acts_read. intros d Hd. destruct (law_read (io_acpi_addr apic) d (proj1 Ha)) as [-> ->]. rewrite Hd.
  cbn [selected reg set_selected]. by rewrite fn_lookup_insert.
Qed.

Lemma io_write_acts apic k v s :
  apic_ok apic → 0x10 ≤ k → acts view s (io_write apic k v) (λ r t, r = tt ∧
    t = set_io_reg (io_acpi_addr apic) k v (set_selected (io_acpi_addr apic) k s)).
Proof.
  intros Ha Hk. unfold io_write. eapply acts_step; [by apply select_acts|]. rewrite actual_addr_ok by (done || lia).
  eapply acts_step; [apply acts_lift|].
  apply acts_write. intros d Hd.
  assert (selected (view d) (io_acpi_addr apic) = k) as Hs by (rewrite Hd; cbn; by rewrite fn_lookup_insert).
  rewrite law_write by (apply Ha || lia). by rewrite Hs, Hd.
Qed.

(** Writing an entry sets it, and changes no other register. *)
Lemma write_entry_acts apic rel r s :
  apic_ok apic → 0 ≤ rel →
  acts view s (write_redirect_entry apic rel r) (λ _ t,
    reg t (io_acpi_addr apic) (0x10 + rel * 2) = redirect_bits r mod 2 ^ 32 ∧
    reg t (io_acpi_addr apic) (0x10 + rel * 2 + 1) = Z.shiftr (redirect_bits r) 32 ∧
    ∀ b k, (b ≠ io_acpi_addr apic ∨ (k ≠ 0x10 + rel * 2 ∧ k ≠ 0x10 + rel * 2 + 1)) → reg t b k = reg s b k).
Proof.
  intros Ha Hr. unfold write_redirect_entry. eapply acts_step; [apply io_write_acts; [done|lia]|].
  eapply acts_last; [apply io_write_acts; [done|lia]|]. cbn [reg set_io_reg set_selected].
  rewrite !fn_lookup_insert. rewrite fn_lookup_insert_ne, fn_lookup_insert by lia. split; [done|]. split; [done|].
  intros b k Hbk. destruct (decide (io_acpi_addr apic = b)) as [<-|Hne]; [|by rewrite !fn_lookup_insert_ne].
  destruct Hbk as [?|[H1 H2]]; [done|]. rewrite !fn_lookup_insert. by rewrite !fn_lookup_insert_ne by lia.
Qed.

(** No register but those of the entry differs. *)
Definition only_entry (s t : IoRegs) (apic : IoAPIC) (irq : Z) : Prop :=
  ∀ b k, (b ≠ io_acpi_addr apic ∨ (k ≠ 0x10 + (irq - gsib apic) * 2 ∧ k ≠ 0x10 + (irq - gsib apic) * 2 + 1)) →
    reg t b k = reg s b k.

Lemma set_irq_acts apics irq r apic s :
  Forall apic_ok apics → handler s irq apics = Some apic →
  acts view s (set_irq_handler apics irq r) (λ _ t, entry_set t apic irq r ∧ only_entry s t apic irq).
Proof.
  intros Hok. revert s. induction Hok as [|a apics Ha Hok IH]; intros s; cbn [handler]; [done|].
  unfold handles. cbn [set_irq_handler]. destruct (Z.leb_spec (gsib a) irq) as [Hg|Hg]; cbn [andb]; [|by apply IH].
  intros Hh. eapply acts_step; [eapply acts_step; [by apply io_read_acts|by apply acts_ret]|]. cbn [snd].
  fold (max_entry s a). set (s' := set_selected (io_acpi_addr a) REG_VERSION s).
  destruct (irq - gsib a <=? max_entry s a); [|by apply (IH s'); rewrite (handler_same s s')].
  injection Hh as <-. eapply acts_weaken; [apply write_entry_acts; [done|lia]|].
  intros _ t (H1 & H2 & H3). split; [by split|]. intros b k Hbk. by apply H3.
Qed.

(** An entry stays when another interrupt's is written. *)
Lemma entry_kept s t apics a1 a2 irq1 irq2 r :
  NoDup (io_acpi_addr <$> apics) → a1 ∈ apics → a2 ∈ apics → irq1 ≠ irq2 → gsib a1 ≤ irq1 → gsib a2 ≤ irq2 →
  only_entry s t a2 irq2 → entry_set s a1 irq1 r → entry_set t a1 irq1 r.
Proof.
  intros Hnd H1 H2 Hne Hg1 Hg2 Ho [E1 E2].
  assert (io_acpi_addr a1 ≠ io_acpi_addr a2 ∨ gsib a1 = gsib a2) as Ha.
  { destruct (decide (io_acpi_addr a1 = io_acpi_addr a2)) as [E|]; [right|by left].
    apply list_elem_of_lookup in H1 as [i Hi]. apply list_elem_of_lookup in H2 as [j Hj].
    assert (i = j) as <-.
    { eapply (NoDup_lookup _ _ _ (io_acpi_addr a1) Hnd); rewrite list_lookup_fmap; [by rewrite Hi|by rewrite Hj, E]. }
    by simplify_eq. }
  split; [rewrite <- E1|rewrite <- E2]; apply Ho; destruct Ha as [Ha|Ha]; [by left|right; lia|by left|right; lia].
Qed.

(** After [io_init] every interrupt of the 24 has its redirection entry: when each is handled by a
    controller of the table and the processors and controllers are there, [io_init] returns, and for
    each interrupt the entry of the first controller that handles it says what the overrides of the
    table say for it: vector, flags, the first processor, and not masked. *)
Theorem ioapic_routes_all data cpu d :
  cpus data !! 0%nat = Some cpu → Forall apic_ok (io_apics data) → NoDup (io_acpi_addr <$> io_apics data) →
  (∀ irq, 0 ≤ irq < 24 → is_Some (handler (view d) irq (io_apics data))) →
  (∀ irq, 0 ≤ irq < 24 → ∃ r, redirect_for (int_source_overrides data) (acpi_id cpu) irq = Ret r) →
  ∃ d', io_init (Some data) d = Some (Ret (tt, d')) ∧
    ∀ irq, 0 ≤ irq < 24 → ∃ apic r, handler (view d) irq (io_apics data) = Some apic ∧
      redirect_for (int_source_overrides data) (acpi_id cpu) irq = Ret r ∧ entry_set (view d') apic irq r.
Proof.
  intros Hcpu Hok Hnd Hall Hred. set (s := view d) in *.
  set (done_irq t irq := ∃ apic r, handler s irq (io_apics data) = Some apic ∧
      redirect_for (int_source_overrides data) (acpi_id cpu) irq = Ret r ∧ entry_set t apic irq r).
  assert (acts view s (io_init (Some data)) (λ r t, r = tt ∧ ∀ irq, 0 ≤ irq < 24 → done_irq t irq)) as Hrun.
  { unfold io_init. eapply acts_step; [apply acts_lift|]. unfold index_at. rewrite Hcpu.
    eapply acts_step; [apply acts_lift|]. rewrite bool_decide_false.
    2:{ intros E. destruct (Hall 0 ltac:(lia)) as [x Hx]. by rewrite E in Hx. }
    eapply acts_weaken; [apply (acts_each _ _ _ (λ n t, (∀ b, reg t b REG_VERSION = reg s b REG_VERSION) ∧
      ∀ irq, 0 ≤ irq < Z.of_nat n → done_irq t irq))|].
    - split; [done|lia].
    - intros n src t Hsrc [Hv Hdone]. apply lookup_seqZ in Hsrc as [-> Hn]. rewrite Z.add_0_l.
      destruct (Hred (Z.of_nat n) ltac:(lia)) as [r Hr]. rewrite Hr. eapply acts_step; [apply acts_lift|].
      destruct (Hall (Z.of_nat n) ltac:(lia)) as [apic Hapic].
      eapply acts_weaken; [apply set_irq_acts; [done|by rewrite (handler_same s t)]|].
      intros _ u [He Ho]. destruct (handler_in _ _ _ _ Hapic) as [Hin Hh]. 
      apply andb_prop in Hh as [Hg%Z.leb_le _]. split.
      + intros b. rewrite <- Hv. apply Ho. right. unfold REG_VERSION. lia.
      + intros irq Hirq. destruct (decide (irq = Z.of_nat n)) as [->|Hne]; [by exists apic, r|].
        destruct (Hdone irq ltac:(lia)) as (a1 & r1 & Ha1 & Hr1 & He1). exists a1, r1. split; [done|]. split; [done|].
        destruct (handler_in _ _ _ _ Ha1) as [Hin1 Hh1]. apply andb_prop in Hh1 as [Hg1%Z.leb_le _].
        by eapply (entry_kept t u (io_apics data) a1 apic irq (Z.of_nat n)).
    - intros [] t [_ Hdone]. split; [done|]. intros irq Hirq. by apply Hdone. }
  destruct (Hrun d eq_refl) as (r & d' & E & -> & Hd). by exists d'.
Qed.

End props.

(** Polarity and trigger mode are bits 13 and 15 of an entry, 5 and 7 of its flags: an interrupt that
    is active low and level-triggered gets neither, and the read-only bit 6 in place of the first. *)
Theorem redirect_flags_shifted :
  let f := RedirectEntryFlags_new Fixed false false true false true in
  Z.testbit f 5 = false ∧ Z.testbit f 6 = true ∧ Z.testbit f 7 = false.
Proof. done. Qed.

(** ** A machine with one controller of 24 entries *)

Definition one_base : Z := 0xfec00000.

Definition one_apic : Device := {|
  Dev := IoRegs;
  port_in := λ _ a s, (reg s one_base (selected s one_base), s);
  port_out := λ _ a v s,
    if a =? one_base then set_selected one_base v s
    else set_io_reg one_base (selected s one_base) v s;
|}.

#[local] Existing Instance one_apic.

#[local] Program Instance one_apic_laws : @IoApicLaws one_apic [one_base] := {| view := λ s : @Dev one_apic, s |}.
Next Obligation. by intros b v d ->%list_elem_of_singleton. Qed.
Next Obligation. by intros b d ->%list_elem_of_singleton. Qed.
Next Obligation. by intros b v d ->%list_elem_of_singleton. Qed.

Definition sample_data : ACPIData :=
  MkAcpiData 0xfee00000 [MkCpu 0 7 1] [MkIoApic 1 0 one_base 0] [MkOverride 0 0 2 0].
Definition sample_regs : @Dev one_apic :=
  MkIoRegs (λ _, 0) (λ _ k, if k =? REG_VERSION then 0x170011 else 0).

Lemma ioapic_routes_all_witness :
  ∃ d', io_init (Some sample_data) sample_regs = Some (Ret (tt, d')) ∧
    reg (d' : IoRegs) one_base 0x10 = 0x32 ∧ reg (d' : IoRegs) one_base 0x13 = 0x07000000.
Proof.
  destruct (@ioapic_routes_all one_apic [one_base] one_apic_laws sample_data (MkCpu 0 7 1) sample_regs)
    as (d' & E & Hd).
  - reflexivity.
  - repeat constructor; by vm_compute.
  - apply NoDup_singleton.
  - intros irq Hirq. exists (MkIoApic 1 0 one_base 0). cbn [handler io_apics sample_data].
    assert (handles (view sample_regs) irq (MkIoApic 1 0 one_base 0) = true) as ->; [|done].
    apply andb_true_intro. split; apply Z.leb_le; cbn [gsib]; [lia|].
    change (max_entry (view sample_regs) (MkIoApic 1 0 one_base 0)) with 23. lia.
  - intros irq Hirq. unfold redirect_for, overridden. cbn [foldl int_source_overrides sample_data bus_source irq_source].
    destruct (0 =? irq); cbn [andb Z.eqb]; [by eexists|]. rewrite (proj2 (Z.ltb_lt _ _)) by lia. by eexists.
  - exists d'. split; [exact E|].
    destruct (Hd 0 ltac:(lia)) as (a & r & Ha & Hr & He1 & _). destruct (Hd 1 ltac:(lia)) as (a1 & r1 & Ha1 & Hr1 & _ & He2).
    injection Ha as <-. injection Hr as <-. injection Ha1 as <-. injection Hr1 as <-.
    split; [exact He1|exact He2].
Defined.
