(* ===== verification/Boot.v ===== *)
(** * Boot: the second stage of the boot loader and the initial ramdisk it hands over
    (libs/d7boot/src/lib.rs, libs/d7boot/src/ata_pio.rs, src/initrd.rs, src/util/elf_parser.rs
    [last_addr], [parse_kernel_elf])

    Memory is a function from physical addresses to bytes.  The loader reads the kernel image and
    the ramdisk from the first drive to 1 MiB, moves the segments of the kernel to where they belong
    and the ramdisk behind them; the kernel then looks for the ramdisk.  [error] stops the processor
    and is a panic here; the text it shows, like the message before the jump, is left out.  The
    loader is built without overflow checks, so its arithmetic wraps.  The decoder of the file list
    ([pinecone]) and the check of a physical address (x86_64) are parameters. *)

From stdpp Require Import base gmap list strings.
From Stdlib Require Import ZArith Lia.
From S2P Require Import Prelude Abi Bytes Ranges Elf Process Ipc PortIo Acpi Ata.
Open Scope Z_scope.

Definition ELF_LOADPOINT : Z := 0x100000.
Definition INITRD_SPLIT_SECTOR_PTR : Z := 0x3000.
Definition INITRD_END_SECTOR_PTR : Z := 0x3004.
Definition KERNEL_ENTRY_POINT : Z := 0x1000000.
Definition BOOTLOADER_SECTOR_COUNT : Z := 6.

Definition boot_page_align_up (addr : Z) : Z :=
  Z.land (wrap64 (wrap64 (addr + PAGE_SIZE_BYTES) - 1)) (wrap64 (Z.lnot (PAGE_SIZE_BYTES - 1))).

(** ** Writing memory *)

Definition in_range (p n a : Z) : bool := (p <=? a) && (a <? p + n).

Definition store (m : memory) (p : Z) (bytes : list Z) : memory := λ a,
  if in_range p (Z.of_nat (length bytes)) a then nth (Z.to_nat (a - p)) bytes 0 else m a.
(** [ptr::write_bytes] and [copy_nonoverlapping] *)
Definition fill (m : memory) (p v n : Z) : memory := λ a, if in_range p n a then v else m a.
Definition copy (m : memory) (src dst n : Z) : memory := λ a,
  if in_range dst n a then m (src + (a - dst)) else m a.

(** ** ata_pio.rs: the first drive of the first bus *)

Section loader.
Context `{!Device}.

Definition boot_error {A} (c : string) : IO A := io_panic ("ER:" +:+ c).

Definition boot_reset_drives (fuel : nat) : IO unit := reset_drives fuel.

(** The number of sectors in the identification data, [None] when there is none. *)
Definition boot_sectors (data : list Z) : option Z :=
  let word i := nth i data 0 in
  let lba48_supported := negb (Z.land (word 83%nat) (Z.shiftl 1 10) =? 0) in
  let lba28_sectors := Z.lor (word 60%nat) (Z.shiftl (word 61%nat) 0x10) in
  let lba48_sectors :=
    if lba48_supported then
      Z.lor (Z.lor (Z.lor (word 100%nat) (Z.shiftl (word 101%nat) 0x10))
        (Z.shiftl (word 102%nat) 0x20)) (Z.shiftl (word 103%nat) 0x30)
    else 0 in
  if ((lba28_sectors =? 0) && (lba48_sectors =? 0))%bool then None
  else Some (if lba48_supported then Z.max lba48_sectors lba28_sectors else lba28_sectors).

Definition boot_identify (fuel : nat) : IO Z :=
  _ ← write_port 8 PORT_DRIVESELECT 0xa0;
  _ ← write_port 8 PORT_SECCOUNT 0;
  _ ← write_port 8 PORT_LBA0 0;
  _ ← write_port 8 PORT_LBA1 0;
  _ ← write_port 8 PORT_LBA2 0;
  _ ← send_command 0xEC;
  found ← identify_loop "ER:I" "ER:A" fuel true;
  if found : bool then
    data ← io_times 256 (read_port 16 PORT_DATA);
    io_lift (expect (boot_sectors data) "ER:L")
  else mret 0.

Definition boot_init (fuel : nat) : IO Z := _ ← boot_reset_drives fuel; boot_identify fuel.

(** The words read, low byte first, go to [dst]. *)
Definition boot_read_lba (fuel : nat) (lba sectors dst : Z) (m : memory) : IO memory :=
  if sectors =? 0 then boot_error "N"
  else if Z.shiftl 1 28 <=? lba then boot_error "6"
  else
    _ ← write_port 8 PORT_DRIVESELECT (Z.lor (Z.shiftr lba 24 mod 256) 0xe0);
    _ ← write_port 8 PORT_SECCOUNT sectors;
    _ ← write_port 8 PORT_LBA0 (Z.land lba 0xff);
    _ ← write_port 8 PORT_LBA1 (Z.shiftr (Z.land lba 0xff00) 0x8);
    _ ← write_port 8 PORT_LBA2 (Z.shiftr (Z.land lba 0xff0000) 0x10);
    _ ← send_command 0x20;
    _ ← wait_ready fuel;
    words ← io_times (Z.to_nat sectors * (SECTOR_SIZE / 2)) (read_port 16 PORT_DATA);
    mret (store m dst (mjoin (word_bytes <$> words))).

(** ** lib.rs *)

Definition check_elf (m : memory) : outcome unit :=
  if negb (mem_le m ELF_LOADPOINT 4 =? 0x464c457f) then Panic "ER:M"
  else if negb (mem_le m (ELF_LOADPOINT + 0x18) 8 =? KERNEL_ENTRY_POINT) then Panic "ER:P"
  else Ret tt.

(** The sectors [lbas], one after the other from [dst] on. *)
Fixpoint load_sectors (fuel : nat) (lbas : list Z) (dst : Z) (m : memory) : IO memory :=
  match lbas with
  | [] => mret m
  | lba :: lbas =>
      m ← boot_read_lba fuel lba 1 dst m;
      load_sectors fuel lbas (dst + 0x200) m
  end.

(** One entry of the program header table: the memory and [max_vaddr]. *)
Definition load_segment (st : memory * Z) (i : Z) : memory * Z :=
  let '(m, max_vaddr) := st in
  let base := ELF_LOADPOINT + 0x40 + i * 0x38 in
  if mem_le m base 4 =? 1 then
    let p_offset := mem_le m (base + 0x08) 8 in
    let p_vaddr := mem_le m (base + 0x10) 8 in
    let p_filesz := mem_le m (base + 0x20) 8 in
    let p_memsz := mem_le m (base + 0x28) 8 in
    let max_vaddr := if max_vaddr <? p_vaddr then wrap64 (p_vaddr + p_memsz) else max_vaddr in
    let m := fill m p_vaddr 0 p_memsz in
    (copy m (wrap64 (ELF_LOADPOINT + p_offset)) p_vaddr p_filesz, max_vaddr)
  else st.

(** From the loaded sectors to the memory the kernel starts with. *)
Definition place_kernel (m : memory) (initrd_start_sector initrd_end_sector : Z) : outcome memory :=
  _ ← check_elf m;
  let program_header_count := mem_le m (ELF_LOADPOINT + 0x38) 2 in
  let '(m, max_vaddr) := foldl load_segment (m, 0) (seqZ 0 program_header_count) in
  let src_ptr := wrap64 (ELF_LOADPOINT + (initrd_start_sector - BOOTLOADER_SECTOR_COUNT) * 0x200) in
  let dst_ptr := boot_page_align_up max_vaddr in
  let count := wrap64 ((initrd_end_sector - initrd_start_sector) * 0x200) in
  Ret (copy m src_ptr dst_ptr count).

Definition d7boot (fuel : nat) (m : memory) : IO memory :=
  let initrd_start_sector := mem_le m INITRD_SPLIT_SECTOR_PTR 4 in
  let initrd_end_sector := mem_le m INITRD_END_SECTOR_PTR 4 in
  supported_sector_count ← boot_init fuel;
  if supported_sector_count <? initrd_end_sector then boot_error "S"
  else
    m ← load_sectors fuel
          (seqZ BOOTLOADER_SECTOR_COUNT (initrd_end_sector - BOOTLOADER_SECTOR_COUNT)) ELF_LOADPOINT m;
    io_lift (place_kernel m initrd_start_sector initrd_end_sector).

End loader.

(** ** The kernel: elf_parser.rs [last_addr], prelude.rs [page_align_up], initrd.rs [init] *)

Fixpoint segment_ends (phs : list ELFProgramHeader) : outcome (list Z) :=
  match phs with
  | [] => Ret []
  | ph :: phs =>
      e ← add64 (virtual_address ph) (size_in_memory ph);
      es ← segment_ends phs;
      Ret (e :: es)
  end.

Definition ELFData_last_addr (self : ELFData) : outcome Z :=
  es ← segment_ends (omap id (ph_table self));
  unwrap (match es with [] => None | e :: es => Some (foldl Z.max e es) end).

Definition to_pages_round_up (bytes : Z) : outcome Z :=
  a ← add64 bytes (PAGE_SIZE_BYTES - 1); Ret (a / PAGE_SIZE_BYTES).
Definition page_align_up (bytes : Z) : outcome Z :=
  n ← to_pages_round_up bytes; mul64 n PAGE_SIZE_BYTES.

Definition HEADER_MAGIC : Z := 0xd7cafed7.
Definition HEADER_SIZE_BYTES : Z := 16.

(** The kernel parses the image where the loader has left it, before anything overwrites it. *)
Definition KERNEL_ELF_IMAGE_POSITION : Z := 0x100000.
Definition KERNEL_ELF_MAX_SIZE : Z := 0x100000000.

Definition parse_kernel_elf (m : memory) : outcome ELFData :=
  r ← parse_elf (m <$> seqZ KERNEL_ELF_IMAGE_POSITION KERNEL_ELF_MAX_SIZE);
  match r with
  | Ok elf => Ret elf
  | Err _ => Panic "Could not receive kernel image data"
  end.

Section kernel.
Context (PhysAddr_from_u64 : Z → outcome Z) (decode_file_list : list Z → option (list FileEntry)).

(** The ramdisk is read through the mapping of all physical memory, at [start_addr]. *)
Definition initrd_init (m : memory) (elf_data : ELFData) : outcome InitRD :=
  last ← ELFData_last_addr elf_data;
  start_addr ← page_align_up last;
  start_addr ← PhysAddr_from_u64 start_addr;
  _ ← phys_to_virt start_addr;
  let magic := mem_le m start_addr 4 in
  let size_flist := mem_le m (start_addr + 4) 4 in
  let size_total := mem_le m (start_addr + 8) 8 in
  _ ← rassert (magic =? HEADER_MAGIC) "InitRD magic mismatch";
  _ ← rassert (0 <? size_flist) "InitRD header empty";
  _ ← rassert (size_flist + 8 <? PAGE_SIZE_BYTES) "InitRD header too large";
  let header_bytes := mem_bytes m (start_addr + 16) (Z.to_nat size_flist) in
  file_list ← expect (decode_file_list header_bytes) "Could not deserialize staticfs file list";
  let files_offset := HEADER_SIZE_BYTES + size_flist in
  files_len ← sub64 size_total files_offset;
  Ret {| files := foldl (λ fs f, <[file_name f := f]> fs) ∅ file_list;
         slice := mem_bytes m (start_addr + files_offset) (Z.to_nat files_len) |}.

End kernel.

(** ** Lemmas on memory *)

Lemma has_bytes_lookup m p l :
  has_bytes m p l ↔ ∀ i b, l !! i = Some b → m (p + Z.of_nat i) = b.
Proof.
  revert p. induction l as [|x l IH]; intros p; [split; [done|intros _; done]|].
  rewrite has_bytes_cons, IH. split.
  - intros [<- H] [|i] b Hb; cbn in Hb; [injection Hb as <-; f_equal; lia|].
    rewrite <- (H i b Hb). f_equal. lia.
  - intros H. split; [rewrite <- (H 0%nat x eq_refl); f_equal; lia|].
    intros i b Hb. rewrite <- (H (S i) b Hb). f_equal. lia.
Qed.

Lemma in_range_spec p n a : in_range p n a = true ↔ p ≤ a < p + n.
Proof. unfold in_range. rewrite andb_true_iff, Z.leb_le, Z.ltb_lt. lia. Qed.

Lemma in_range_false p n a : in_range p n a = false ↔ a < p ∨ p + n ≤ a.
Proof. unfold in_range. rewrite andb_false_iff, Z.leb_gt, Z.ltb_ge. lia. Qed.

(** A memory that agrees on the range keeps the bytes. *)
Lemma has_bytes_agree m m' p l :
  (∀ a, p ≤ a < p + Z.of_nat (length l) → m' a = m a) → has_bytes m p l → has_bytes m' p l.
Proof.
  rewrite !has_bytes_lookup. intros Ha H i b Hb. rewrite <- (H i b Hb). apply Ha.
  apply lookup_lt_Some in Hb. lia.
Qed.

Lemma store_has m p l : has_bytes (store m p l) p l.
Proof.
  apply has_bytes_lookup. intros i b Hb. pose proof (lookup_lt_Some _ _ _ Hb). unfold store.
  rewrite (proj2 (in_range_spec _ _ _)) by lia. replace (Z.to_nat (p + Z.of_nat i - p)) with i by lia.
  by apply nth_lookup_Some.
Qed.

Lemma store_other m p l a : a < p ∨ p + Z.of_nat (length l) ≤ a → store m p l a = m a.
Proof. intros H. unfold store. by rewrite (proj2 (in_range_false _ _ _)). Qed.

Lemma copy_other m src dst n a : a < dst ∨ dst + n ≤ a → copy m src dst n a = m a.
Proof. intros H. unfold copy. by rewrite (proj2 (in_range_false _ _ _)). Qed.

Lemma copy_has m src dst l :
  has_bytes m src l → has_bytes (copy m src dst (Z.of_nat (length l))) dst l.
Proof.
  rewrite !has_bytes_lookup. intros H i b Hb. pose proof (lookup_lt_Some _ _ _ Hb). unfold copy.
  rewrite (proj2 (in_range_spec _ _ _)) by lia. rewrite <- (H i b Hb). f_equal. lia.
Qed.

Lemma mem_bytes_has m p l : has_bytes m p l → mem_bytes m p (length l) = l.
Proof. done. Qed.

Lemma has_bytes_slice m p l a b :
  (a ≤ b ≤ length l)%nat → has_bytes m p l → has_bytes m (p + Z.of_nat a) (sub_slice l a b).
Proof.
  rewrite !has_bytes_lookup. intros Hab H i x Hx. unfold sub_slice in Hx.
  apply lookup_take_Some in Hx as [Hx Hi]. rewrite lookup_drop in Hx. rewrite <- (H _ _ Hx). f_equal. lia.
Qed.

(** A field of a structure in memory. *)
Lemma has_bytes_field m p l a n :
  (a + n ≤ length l)%nat → has_bytes m p l → mem_le m (p + Z.of_nat a) n = field l a n.
Proof.
  intros Ha H. apply (has_bytes_slice _ _ _ a (a + n)) in H; [|lia]. unfold mem_le, field. f_equal.
  unfold has_bytes in H. rewrite sub_slice_length in H by lia. by replace (a + n - a)%nat with n in H by lia.
Qed.

Lemma field_slice l s k a n : (a + n ≤ k)%nat → field (sub_slice l s (s + k)) a n = field l (s + a) n.
Proof.
  intros H. unfold field, sub_slice. f_equal. rewrite skipn_firstn_comm, take_take, drop_drop. f_equal. lia.
Qed.

(** ** Reading the disk *)

Section disk.
Context `{!Device} `{!AtaLaws} `{!IdentifyLaws}.
Implicit Types d : Dev.

Lemma boot_select_bits h :
  0 ≤ h < 16 → Z.land (Z.lor h 0xe0) 0xf = h ∧ Z.testbit (Z.lor h 0xe0) 4 = false.
Proof.
  intros Hh. assert (Forall (λ h, Z.land (Z.lor h 0xe0) 0xf = h ∧ Z.testbit (Z.lor h 0xe0) 4 = false) (seqZ 0 16))
    as Hall by (apply (bool_decide_unpack _); vm_compute; exact I).
  rewrite Forall_seqZ in Hall. by apply Hall.
Qed.

Lemma sectors_from_succ c drive lba n :
  sectors_from c drive lba (S n) = c drive lba ++ sectors_from c drive (lba + 1) n.
Proof.
  unfold sectors_from. rewrite seqZ_cons by lia. rewrite fmap_cons. change (mjoin (?x :: ?y)) with (x ++ mjoin y).
  f_equal; [f_equal; lia|]. f_equal. replace (Z.pred (Z.of_nat (S n))) with (Z.of_nat n) by lia.
  change (Z.succ 0) with (1 + 0). rewrite <- fmap_add_seqZ, <- list_fmap_compose. apply list_fmap_ext.
  intros i x _. cbn. f_equal. lia.
Qed.

Lemma boot_read_lba_ok fuel lba dst m d :
  busy (view d) = 0%nat → 0 ≤ lba < 2 ^ 28 → sectors_ok (contents (view d)) → (delay < fuel)%nat →
  ∃ d', boot_read_lba fuel lba 1 dst m d = Some (Ret (store m dst (contents (view d) 0 lba), d')) ∧
    contents (view d') = contents (view d) ∧ busy (view d') = 0%nat.
Proof.
  intros Hz Hl Hok Hf. destruct (lba_parts lba Hl) as (Hp & Hh & _). destruct (boot_select_bits _ Hh) as [Hs Hd].
  unfold boot_read_lba. change (1 =? 0) with false. cbn iota.
  rewrite (proj2 (Z.leb_gt (Z.shiftl 1 28) lba)) by (change (Z.shiftl 1 28) with (2 ^ 28); lia).
  do 5 rewrite (bind_some _ _ _ _ _ (write_some _ _ _ _)). unfold send_command.
  pose proof (registers_ok (Z.lor (Z.shiftr lba 24 mod 256) 0xe0) 1 (Z.land lba 0xff)
    (Z.shiftr (Z.land lba 0xff00) 0x8) (Z.shiftr (Z.land lba 0xff0000) 0x10) d Hz) as Hreg.
  set (d0 := port_out 8 PORT_LBA2 _ _) in *. rewrite (bind_some _ _ _ _ _ (write_some _ _ _ _)).
  destruct (law_command 0x20 d0) as (b & Hb & Hc); [by rewrite Hreg|]. set (dc := port_out 8 PORT_COMMAND 0x20 d0) in *.
  destruct (wait_ready_ok fuel dc) as (d1 & E1 & Hv1); [rewrite Hc; cbn; lia|].
  rewrite (bind_some _ _ _ _ _ E1).
  assert (contents (view d0) = contents (view d) ∧ ata_drive (view d0) = 0 ∧ ata_lba (view d0) = lba ∧
    ata_sectors (view d0) = 1%nat) as (Hc0 & Hd0 & Hl0 & Hs0).
  { rewrite Hreg. split; [done|].
    split; [unfold ata_drive; cbn [select set_lba2 set_lba1 set_lba0 set_count set_select]; by rewrite Hd|]. split; [|done].
    unfold ata_lba. cbn [select lba0 lba1 lba2 set_lba2 set_lba1 set_lba0 set_count set_select]. rewrite Hs. exact Hp. }
  destruct (Hok 0 lba) as [Hlen Hby]. assert (length (contents (view d) 0 lba) = 2 * 256)%nat as Hlen2 by (by rewrite Hlen).
  assert (input (view d1) = data_words (contents (view d) 0 lba)) as Hi.
  { rewrite Hv1, Hc. unfold ata_start. cbn [Z.eqb Pos.eqb input set_busy set_input].
    change (ata_drive _) with (ata_drive (view d0)). change (ata_lba _) with (ata_lba (view d0)).
    change (ata_sectors _) with (ata_sectors (view d0)). cbn [contents set_busy].
    rewrite Hd0, Hl0, Hs0, Hc0, sectors_from_succ. f_equal. apply app_nil_r. }
  destruct (data_times _ d1 ltac:(by rewrite Hv1) Hi) as (d2 & E2 & Hv2);
    [right; by rewrite (data_words_length _ 256 Hlen2)|]. rewrite (data_words_length _ 256 Hlen2) in E2.
  change (Z.to_nat 1 * (SECTOR_SIZE / 2))%nat with 256%nat. rewrite (bind_some _ _ _ _ _ E2).
  exists d2. split; [|by rewrite Hv2, Hv1, Hc]. unfold mret, io_ret. by rewrite (data_words_bytes _ _ Hby Hlen2).
Qed.

Lemma load_sectors_ok fuel lo n dst m d :
  busy (view d) = 0%nat → 0 ≤ lo → lo + Z.of_nat n ≤ 2 ^ 28 → sectors_ok (contents (view d)) → (delay < fuel)%nat →
  ∃ m' d', load_sectors fuel (seqZ lo (Z.of_nat n)) dst m d = Some (Ret (m', d')) ∧
    has_bytes m' dst (sectors_from (contents (view d)) 0 lo n) ∧
    ∀ a, a < dst → m' a = m a.
Proof.
  revert lo dst m d. induction n as [|n IH]; intros lo dst m d Hz0 Hlo Hn Hok Hf.
  { exists m, d. by split_and!. }
  rewrite seqZ_cons by lia. replace (Z.pred (Z.of_nat (S n))) with (Z.of_nat n) by lia. cbn [load_sectors].
  destruct (boot_read_lba_ok fuel lo dst m d) as (d1 & E1 & Hc1 & Hz1); [done|lia|done|done|].
  rewrite (bind_some _ _ _ _ _ E1). replace (Z.succ lo) with (lo + 1) by lia.
  destruct (IH (lo + 1) (dst + 0x200) (store m dst (contents (view d) 0 lo)) d1) as (m' & d2 & E2 & Hh & Ha);
    [done|lia|lia|by rewrite Hc1|done|].
  rewrite Hc1 in Hh. exists m', d2. split; [done|]. destruct (Hok 0 lo) as [Hlen _].
  assert (Z.of_nat (length (contents (view d) 0 lo)) = 0x200) as Hz by (by rewrite Hlen).
  rewrite sectors_from_succ, has_bytes_app, Hz. split; [split; [|done]|].
  - eapply has_bytes_agree; [|apply store_has]. rewrite Hz. intros a Hin. apply Ha. lia.
  - intros a Hlt. rewrite Ha by lia. apply store_other. lia.
Qed.

Lemma boot_init_ok fuel n d :
  length (ident (view d) 0) = 256%nat → boot_sectors (ident (view d) 0) = Some n → (delay + 2 ≤ fuel)%nat →
  ∃ d', boot_init fuel d = Some (Ret (n, d')) ∧ contents (view d') = contents (view d) ∧ busy (view d') = 0%nat.
Proof.
  intros Hl Hn Hf. unfold boot_init, boot_reset_drives. destruct (reset_drives_ok fuel d) as (d1 & E1 & Hv1); [lia|].
  rewrite (bind_some _ _ _ _ _ E1). unfold boot_identify. do 5 rewrite (bind_some _ _ _ _ _ (write_some _ _ _ _)).
  unfold send_command. set (d0 := port_out 8 PORT_LBA2 _ _). rewrite (bind_some _ _ _ _ _ (write_some _ _ _ _)).
  assert (view d0 = set_lba2 0 (set_lba1 0 (set_lba0 0 (set_count 0 (set_select 0xa0 (set_busy 0 (view d))))))) as Hv.
  { unfold d0. rewrite registers_ok by (by rewrite Hv1). by rewrite Hv1. }
  assert (ata_drive (view d0) = 0) as Hd0 by (by rewrite Hv).
  destruct (identify_words_ok "ER:I" "ER:A" fuel d0) as (d2 & d3 & E2 & E3 & Hc & _ & Hz);
    [by rewrite Hv..|by rewrite Hd0, Hv|done|].
  rewrite (bind_some _ _ _ _ _ E2), (bind_some _ _ _ _ _ E3), Hd0. exists d3.
  split; [|by rewrite Hc, Hz, Hv]. rewrite Hv. cbn [ident set_lba2 set_lba1 set_lba0 set_count set_select set_busy].
  unfold io_lift. by rewrite Hn.
Qed.

End disk.

(** ** Placing the segments *)

(** What a segment is in memory: its bytes of the image, then zeros. *)
Definition segment_bytes (data : list Z) (ph : ELFProgramHeader) : list Z :=
  sub_slice data (Z.to_nat (offset ph)) (Z.to_nat (offset ph + size_in_file ph)) ++
  replicate (Z.to_nat (size_in_memory ph - size_in_file ph)) 0.

Definition segment_end (ph : ELFProgramHeader) : Z := virtual_address ph + size_in_memory ph.

(** The segments come from the image, are at least as large as in the file, and each starts behind
    the end of the one before, with a gap. *)
Fixpoint placed (data : list Z) (lo : Z) (phs : list ELFProgramHeader) : Prop :=
  match phs with
  | [] => True
  | ph :: phs =>
      lo < virtual_address ph ∧ 0 ≤ offset ph ∧ offset ph + size_in_file ph ≤ Z.of_nat (length data) ∧
      0 ≤ size_in_file ph ≤ size_in_memory ph ∧ segment_end ph < 2 ^ 46 ∧ placed data (segment_end ph) phs
  end.

Fixpoint last_end (e : Z) (phs : list ELFProgramHeader) : Z :=
  match phs with [] => e | ph :: phs => last_end (segment_end ph) phs end.

Lemma last_end_mono data lo e phs : placed data lo phs → e ≤ lo → e ≤ last_end e phs.
Proof.
  revert lo e. induction phs as [|ph phs IH]; intros lo e; cbn [placed last_end]; [done|].
  intros (Hv & _ & _ & Hs & _ & Hp) He. specialize (IH _ (segment_end ph) Hp). unfold segment_end in *. lia.
Qed.

Lemma last_end_bound data lo e phs : placed data lo phs → e < 2 ^ 46 → last_end e phs < 2 ^ 46.
Proof.
  revert lo e. induction phs as [|ph phs IH]; intros lo e; cbn [placed last_end]; [done|].
  intros (_ & _ & _ & _ & Hb & Hp) _. by eapply IH.
Qed.

Lemma placed_end data lo e phs ph :
  placed data lo phs → e ≤ lo → ph ∈ phs → lo < virtual_address ph ∧ segment_end ph ≤ last_end e phs.
Proof.
  revert lo e. induction phs as [|ph' phs IH]; intros lo e Hp He Hin; [by apply not_elem_of_nil in Hin|].
  cbn [placed last_end] in *. destruct Hp as (Hv & _ & _ & Hs & _ & Hp).
  apply elem_of_cons in Hin as [->|Hin].
  - split; [done|]. by eapply last_end_mono.
  - destruct (IH _ (segment_end ph') Hp ltac:(lia) Hin) as [H1 H2]. unfold segment_end in *. lia.
Qed.

Lemma segment_bytes_length data ph :
  0 ≤ offset ph → offset ph + size_in_file ph ≤ Z.of_nat (length data) →
  0 ≤ size_in_file ph ≤ size_in_memory ph →
  Z.of_nat (length (segment_bytes data ph)) = size_in_memory ph.
Proof.
  intros Ho Hf Hs. unfold segment_bytes. rewrite length_app, sub_slice_length, length_replicate by lia. lia.
Qed.

Lemma segment_length data lo phs ph :
  placed data lo phs → ph ∈ phs → Z.of_nat (length (segment_bytes data ph)) = size_in_memory ph.
Proof.
  revert lo. induction phs as [|q phs IH]; intros lo Hp Hin; [by apply not_elem_of_nil in Hin|].
  cbn [placed] in Hp. destruct Hp as (_ & Ho & Hf & Hs & _ & Hp). apply elem_of_cons in Hin as [->|Hin]; [|by eapply IH].
  by apply segment_bytes_length.
Qed.

(** Zeroing the segment, then copying its bytes. *)
Lemma apply_segment m data lo ph :
  has_bytes m ELF_LOADPOINT data → ELF_LOADPOINT + Z.of_nat (length data) ≤ lo + 1 →
  placed data lo [ph] →
  let m' := copy (fill m (virtual_address ph) 0 (size_in_memory ph))
              (wrap64 (ELF_LOADPOINT + offset ph)) (virtual_address ph) (size_in_file ph) in
  has_bytes m' (virtual_address ph) (segment_bytes data ph) ∧
  ∀ a, a < virtual_address ph ∨ segment_end ph ≤ a → m' a = m a.
Proof.
  intros Hm Hlo (Hv & Ho & Hf & Hs & Hb & _) m'. unfold segment_end, ELF_LOADPOINT in *. split.
  - unfold segment_bytes. apply has_bytes_app. split.
    + unfold m'. rewrite wrap64_small by (unfold is_u64, u64_size; lia). set (l := sub_slice _ _ _).
      assert (Z.of_nat (length l) = size_in_file ph) as Hl by (unfold l; rewrite sub_slice_length; lia).
      rewrite <- Hl at 1. apply copy_has. apply (has_bytes_agree m).
      * intros a Ha. unfold fill. by rewrite (proj2 (in_range_false _ _ _)) by lia.
      * replace (0x100000 + offset ph) with (0x100000 + Z.of_nat (Z.to_nat (offset ph))) by lia.
        apply has_bytes_slice; [lia|done].
    + apply has_bytes_lookup. intros i b Hb'. apply lookup_replicate in Hb' as [-> Hi].
      rewrite sub_slice_length by lia. unfold m'. rewrite copy_other by lia.
      unfold fill. by rewrite (proj2 (in_range_spec _ _ _)) by lia.
  - intros a Ha. unfold m'. rewrite copy_other by lia. unfold fill. by rewrite (proj2 (in_range_false _ _ _)) by lia.
Qed.

Section headers.
Context (data : list Z) (h : ELFHeader).
Hypothesis Hpos : ph_table_position h = 64.
Hypothesis Hsize : ph_table_entry_size h = 56.

(** The loader reads the same headers as the parser. *)
Lemma load_segment_eq m max_vaddr i :
  has_bytes m ELF_LOADPOINT data → (64 + 56 * S i ≤ length data)%nat →
  let ph := program_header data h i in
  load_segment (m, max_vaddr) (Z.of_nat i) =
    if header_type ph =? 1 then
      (copy (fill m (virtual_address ph) 0 (size_in_memory ph))
         (wrap64 (ELF_LOADPOINT + offset ph)) (virtual_address ph) (size_in_file ph),
       if max_vaddr <? virtual_address ph then wrap64 (segment_end ph) else max_vaddr)
    else (m, max_vaddr).
Proof.
  intros Hm Hl ph. pose proof (has_bytes_field m ELF_LOADPOINT data) as Hfield.
  assert (∀ a n, (a + n ≤ 56)%nat →
    mem_le m (ELF_LOADPOINT + 0x40 + Z.of_nat i * 0x38 + Z.of_nat a) n =
    field (sub_slice data (64 + 56 * i) (64 + 56 * i + 56)) a n) as Hf.
  { intros a n Ha. rewrite field_slice by done. rewrite <- Hfield; [|lia|done]. f_equal. lia. }
  assert (ph = read_program_header (sub_slice data (64 + 56 * i) (64 + 56 * i + 56))) as Hph.
  { unfold ph, program_header. rewrite Hpos, Hsize. do 2 f_equal; lia. }
  unfold load_segment, segment_end. rewrite Hph. unfold read_program_header. cbn [header_type offset virtual_address size_in_file size_in_memory].
  rewrite <- !Hf by lia. change (Z.of_nat 0) with 0. by rewrite Z.add_0_r.
Qed.

Lemma load_segments_ok is_ m max_vaddr lo :
  has_bytes m ELF_LOADPOINT data → ELF_LOADPOINT + Z.of_nat (length data) ≤ lo + 1 →
  placed data lo (loadables data h is_) → max_vaddr ≤ lo → (∀ i, i ∈ is_ → (64 + 56 * S i ≤ length data)%nat) →
  ∃ m', foldl load_segment (m, max_vaddr) (Z.of_nat <$> is_) = (m', last_end max_vaddr (loadables data h is_)) ∧
    (∀ a, a ≤ lo → m' a = m a) ∧
    ∀ ph, ph ∈ loadables data h is_ → has_bytes m' (virtual_address ph) (segment_bytes data ph).
Proof.
  revert m max_vaddr lo. induction is_ as [|i is_ IH]; intros m max_vaddr lo Hm Hlo Hp Hmax Hi.
  { exists m. split; [done|]. split; [done|]. intros ph Hin. by apply not_elem_of_nil in Hin. }
  rewrite fmap_cons. cbn [foldl]. rewrite load_segment_eq; [|done|apply Hi; left].
  unfold loadables in *. rewrite fmap_cons, filter_cons in *. set (ph := program_header data h i) in *.
  destruct (Z.eqb_spec (header_type ph) 1) as [E|E].
  2:{ rewrite decide_False in Hp |- * by done. apply (IH _ _ lo); [done..|]. intros j Hj. apply Hi. by right. }
  rewrite decide_True in Hp |- * by done. pose proof Hp as (Hv & Ho & Hf & Hs & Hb & Hp').
  rewrite (proj2 (Z.ltb_lt _ _)) by lia.
  rewrite (wrap64_small (segment_end ph)) by (unfold is_u64, u64_size, segment_end, ELF_LOADPOINT in *; lia).
  destruct (apply_segment m data lo ph Hm Hlo) as [Hseg Hother]; [exact (conj Hv (conj Ho (conj Hf (conj Hs (conj Hb I)))))|].
  set (m1 := copy _ _ _ _) in *. assert (lo < segment_end ph) by (unfold segment_end; lia).
  destruct (IH m1 (segment_end ph) (segment_end ph)) as (m' & E' & Ha & Hall); [|lia|done|lia| |].
  { eapply has_bytes_agree; [|done]. intros a Hra. apply Hother. lia. }
  { intros j Hj. apply Hi. by right. }
  exists m'. split; [exact E'|]. split.
  - intros a Hal. rewrite Ha by lia. apply Hother. lia.
  - intros q [->|Hq]%elem_of_cons; [|by apply Hall]. eapply has_bytes_agree; [|done].
    intros a Hra. rewrite segment_bytes_length in Hra by lia. apply Ha. unfold segment_end. lia.
Qed.

End headers.

(** ** Alignment *)

Lemma boot_align_up x : 0 ≤ x < 2 ^ 46 → boot_page_align_up x = align_up x.
Proof.
  intros Hx. unfold boot_page_align_up, align_up, PAGE_SIZE_BYTES.
  change (wrap64 (Z.lnot (0x200000 - 1))) with (Z.shiftl (Z.ones 43) 21).
  rewrite (wrap64_small (x + _)), wrap64_small by (unfold is_u64, u64_size; lia). set (y := x + 0x200000 - 1).
  assert (Z.land y (Z.shiftl (Z.ones 43) 21) = Z.shiftl (Z.land (Z.shiftr y 21) (Z.ones 43)) 21) as ->.
  { apply Z.bits_inj'. intros k Hk. rewrite Z.land_spec, !Z.shiftl_spec, Z.land_spec by done.
    destruct (Z.ltb_spec k 21).
    - by rewrite !(Z.testbit_neg_r _ (k - 21)), andb_false_r by lia.
    - rewrite Z.shiftr_spec by lia. do 2 f_equal. lia. }
  rewrite Z.land_ones, Z.shiftr_div_pow2, Z.shiftl_mul_pow2 by lia. change (2 ^ 21) with 0x200000.
  rewrite Z.mod_small; [lia|]. split; [apply Z.div_pos; lia|apply Z.div_lt_upper_bound; lia].
Qed.

Lemma page_align_up_ok x : 0 ≤ x < 2 ^ 46 → page_align_up x = Ret (align_up x).
Proof.
  intros Hx. unfold page_align_up, to_pages_round_up, align_up, PAGE_SIZE_BYTES. assert (u64_size = 2 ^ 64) by done.
  rewrite add64_small by lia. cbn [mbind outcome_bind].
  replace (x + (0x200000 - 1)) with (x + 0x200000 - 1) by lia.
  pose proof (Z.mul_div_le (x + 0x200000 - 1) 0x200000). rewrite mul64_small by lia. f_equal. lia.
Qed.

Lemma align_up_bounds x : x ≤ align_up x < x + PAGE_SIZE_BYTES.
Proof.
  unfold align_up, PAGE_SIZE_BYTES. pose proof (Z.div_mod (x + 0x200000 - 1) 0x200000 ltac:(lia)).
  pose proof (Z.mod_pos_bound (x + 0x200000 - 1) 0x200000). lia.
Qed.

(** The kernel's [last_addr] is where the loader stopped. *)
Lemma segment_ends_ok data lo e phs :
  placed data lo phs → 0 ≤ lo → e ≤ lo →
  ∃ es, segment_ends phs = Ret es ∧ foldl Z.max e es = last_end e phs ∧ length es = length phs.
Proof.
  revert lo e. induction phs as [|ph phs IH]; intros lo e Hp Hlo He; [by exists []|].
  cbn [placed segment_ends last_end] in *. destruct Hp as (Hv & _ & _ & Hs & Hb & Hp).
  unfold segment_end in *. assert (u64_size = 2 ^ 64) by done. rewrite add64_small by lia. cbn [mbind outcome_bind].
  destruct (IH _ (virtual_address ph + size_in_memory ph) Hp) as (es & -> & Hm & Hl); [lia..|].
  cbn [mbind outcome_bind]. eexists. split; [done|]. cbn [foldl length]. rewrite Z.max_r by lia. by rewrite Hl.
Qed.

Lemma last_addr_ok data lo elf :
  placed data lo (omap id (ph_table elf)) → 0 ≤ lo → omap id (ph_table elf) ≠ [] →
  ELFData_last_addr elf = Ret (last_end 0 (omap id (ph_table elf))).
Proof.
  intros Hp Hlo Hne. unfold ELFData_last_addr. destruct (omap id (ph_table elf)) as [|ph phs]; [done|].
  cbn [placed segment_ends last_end] in *. destruct Hp as (Hv & _ & _ & Hs & Hb & Hp). unfold segment_end in *.
  assert (u64_size = 2 ^ 64) by done. rewrite add64_small by lia. cbn [mbind outcome_bind].
  destruct (segment_ends_ok _ _ (virtual_address ph + size_in_memory ph) _ Hp) as (es & -> & Hm & _); [lia..|].
  cbn [mbind outcome_bind unwrap]. by rewrite Hm.
Qed.

(** ** From the disk to the kernel *)

(** The ramdisk on disk: the header, the file list and the files. *)
Definition archive_bytes (flist body : list Z) : list Z :=
  to_le 4 HEADER_MAGIC ++ to_le 4 (Z.of_nat (length flist)) ++
  to_le 8 (HEADER_SIZE_BYTES + Z.of_nat (length flist) + Z.of_nat (length body)) ++ flist ++ body.

Lemma seqZ_seq n : 0 ≤ n → seqZ 0 n = Z.of_nat <$> seq 0 (Z.to_nat n).
Proof. intros Hn. unfold seqZ. apply list_fmap_ext. intros i x _. lia. Qed.

(** What is on the disk from the first sector after the boot loader on: a kernel whose entry point
    and segments suit the loader, and from sector [split] on the ramdisk. *)
Record boot_image (data : list Z) (split : Z) (flist body : list Z) : Prop := {
  bi_elf : elf_ok data;
  bi_table : ph_table_position (read_header (sub_slice data 0 64)) = 64;
  bi_entry : program_entry_pos (read_header (sub_slice data 0 64)) = KERNEL_ENTRY_POINT;
  bi_segments : elf_segments data ≠ [];
  bi_placed : placed data (ELF_LOADPOINT + Z.of_nat (length data) - 1) (elf_segments data);
  bi_split : 6 ≤ split ∧ (split - 6) * 0x200 ≤ Z.of_nat (length data);
  bi_archive : ∃ pad, drop (Z.to_nat ((split - 6) * 0x200)) data = archive_bytes flist body ++ pad;
  bi_list : 0 < Z.of_nat (length flist) < PAGE_SIZE_BYTES - 8;
}.

(** The fields of the file header that the loader reads. *)
Lemma loader_header m data :
  (64 ≤ length data)%nat → has_bytes m ELF_LOADPOINT data → let h := read_header (sub_slice data 0 64) in
  mem_le m ELF_LOADPOINT 4 = magic h ∧ mem_le m (ELF_LOADPOINT + 0x18) 8 = program_entry_pos h ∧
  mem_le m (ELF_LOADPOINT + 0x38) 2 = ph_table_entry_count h.
Proof.
  intros H64 Hm h.
  assert (∀ a n, (a + n ≤ 64)%nat → mem_le m (ELF_LOADPOINT + Z.of_nat a) n = field (sub_slice data 0 64) a n) as Hf.
  { intros a n Han. rewrite (has_bytes_field m ELF_LOADPOINT data a n) by (done || lia).
    symmetry. by apply (field_slice data 0 64). }
  split; [apply (Hf 0%nat 4%nat); lia|]. split; [apply (Hf 24%nat 8%nat); lia|apply (Hf 56%nat 2%nat); lia].
Qed.

Lemma place_kernel_ok data split stop flist body m :
  boot_image data split flist body → Z.of_nat (length data) = (stop - 6) * 0x200 →
  has_bytes m ELF_LOADPOINT data →
  ∃ m', place_kernel m split stop = Ret m' ∧ has_bytes m' ELF_LOADPOINT data ∧
    (∀ ph, ph ∈ elf_segments data → has_bytes m' (virtual_address ph) (segment_bytes data ph)) ∧
    has_bytes m' (align_up (last_end 0 (elf_segments data))) (archive_bytes flist body).
Proof.
  intros [Helf Ht He Hne Hp [Hs1 Hs2] [pad Ha] Hfl] Hlen Hm.
  pose proof Helf as (H64 & Hmag & _ & _ & _ & _ & _ & (_ & Hes & Hc & Hfit) & _).
  set (h := read_header (sub_slice data 0 64)) in *. set (phs := elf_segments data) in *.
  destruct (loader_header m data H64 Hm) as (Em & Ee & Ec). fold h in Em, Ee, Ec.
  unfold place_kernel, check_elf. rewrite Em, Ee, Ec.
  rewrite Hmag, He. cbn [Z.eqb Pos.eqb negb mbind outcome_bind ELF_MAGIC KERNEL_ENTRY_POINT]. rewrite seqZ_seq by done.
  destruct (load_segments_ok data h Ht Hes (seq 0 (Z.to_nat (ph_table_entry_count h))) m 0
    (ELF_LOADPOINT + Z.of_nat (length data) - 1)) as (m1 & -> & Hlow & Hall); [done|lia|done|unfold ELF_LOADPOINT; lia| |].
  { intros i Hi. apply elem_of_seq in Hi. lia. }
  change (loadables data h _) with phs in Hall |- *. assert (0 ≤ last_end 0 phs) as Hle by (apply (last_end_mono data _ _ _ Hp); unfold ELF_LOADPOINT; lia).
  assert (last_end 0 phs < 2 ^ 46) as Hlt by (by eapply last_end_bound).
  rewrite boot_align_up by done. rewrite !wrap64_small by (unfold is_u64, u64_size, ELF_LOADPOINT, BOOTLOADER_SECTOR_COUNT; lia).
  eexists. split; [done|]. pose proof (align_up_bounds (last_end 0 phs)).
  set (dst := align_up (last_end 0 phs)) in *.
  assert (∀ a, a < dst → copy m1 (ELF_LOADPOINT + (split - BOOTLOADER_SECTOR_COUNT) * 0x200) dst ((stop - split) * 0x200) a = m1 a)
    as Hkeep by (intros a Hal; apply copy_other; lia).
  assert (ELF_LOADPOINT + Z.of_nat (length data) ≤ last_end 0 phs) as Himg.
  { destruct phs as [|ph0 phs0]; [done|]. destruct (placed_end data _ 0 _ ph0 Hp) as [Hv0 He0];
      [unfold ELF_LOADPOINT; lia|by left|]. cbn [placed] in Hp. unfold segment_end in *. lia. }
  assert (has_bytes m1 ELF_LOADPOINT data) as Hm1.
  { eapply has_bytes_agree; [|exact Hm]. intros a Har. apply Hlow. lia. }
  split; [eapply has_bytes_agree; [|exact Hm1]; intros a Har; apply Hkeep; lia|]. split.
  - intros ph Hin. eapply has_bytes_agree; [|by apply Hall]. intros a Har. apply Hkeep.
    destruct (placed_end data _ 0 _ ph Hp) as [_ Hend]; [unfold ELF_LOADPOINT; lia|done|].
    rewrite (segment_length data _ phs ph Hp Hin) in Har. unfold segment_end in Hend. lia.
  - remember (Z.to_nat ((split - 6) * 0x200)) as k eqn:Hk.
    assert ((k ≤ length data)%nat ∧ Z.of_nat k = (split - 6) * 0x200) as [Hkl Hkz] by lia.
    pose proof (has_bytes_slice _ _ _ k (length data) (conj Hkl (le_n _)) Hm1) as Hd.
    unfold sub_slice in Hd. rewrite take_ge in Hd by (rewrite length_drop; lia).
    assert (Z.of_nat (length (drop k data)) = (stop - split) * 0x200) as Hdl by (rewrite length_drop; lia).
    apply (copy_has _ _ dst) in Hd. rewrite Hdl in Hd. rewrite Ha in Hd. apply has_bytes_app in Hd as [Hd _].
    replace (ELF_LOADPOINT + (split - BOOTLOADER_SECTOR_COUNT) * 0x200) with (ELF_LOADPOINT + Z.of_nat k)
      by (unfold BOOTLOADER_SECTOR_COUNT; lia). exact Hd.
Qed.

(** What the kernel parses out of the memory are the segments of the image that the loader read. *)
Lemma parse_kernel_elf_ok m data :
  elf_ok data → Forall is_byte data → ph_table_position (read_header (sub_slice data 0 64)) = 64 →
  has_bytes m ELF_LOADPOINT data →
  ∃ elf, parse_kernel_elf m = Ret elf ∧ header elf = read_header (sub_slice data 0 64) ∧
    omap id (ph_table elf) = elf_segments data.
Proof.
  intros Helf Hby Ht Hm. pose proof Helf as (H64 & _ & _ & _ & _ & _ & _ & (_ & _ & Hc & Hfit) & _).
  unfold parse_kernel_elf. set (img := m <$> seqZ _ _). set (h := read_header (sub_slice data 0 64)) in *.
  assert (length img = Z.to_nat KERNEL_ELF_MAX_SIZE) as Hl by (unfold img; by rewrite length_fmap, length_seqZ).
  assert (ph_table_entry_count h < 256 ^ 2) as Hc2.
  { unfold h, read_header. cbn [ph_table_entry_count]. unfold field at 1.
    eapply Z.lt_le_trans; [apply from_le_bound; by do 2 apply sub_slice_bytes|].
    unfold sub_slice at 1. apply Z.pow_le_mono_r; [done|]. rewrite length_take. lia. }
  set (n := Z.to_nat (64 + 56 * ph_table_entry_count h)). assert (Z.of_nat n ≤ 0x400000) as Hn by lia.
  assert (take n data = take n img) as Heq.
  { rewrite has_bytes_lookup in Hm. apply list_eq_same_length with n.
    { rewrite length_take. unfold KERNEL_ELF_MAX_SIZE in Hl. lia. } { rewrite length_take. lia. }
    intros i x y Hi Hx Hy. rewrite lookup_take_lt in Hx, Hy by done. unfold img in Hy.
    rewrite list_lookup_fmap, lookup_seqZ_lt in Hy by (unfold KERNEL_ELF_MAX_SIZE; lia). injection Hy as <-.
    symmetry. by apply Hm. }
  destruct (elf_prefix data img n Helf Heq) as [Hok Hseg]; [rewrite Hl; unfold KERNEL_ELF_MAX_SIZE; lia..|fold h; lia|].
  destruct (parse_elf_spec img Hok) as (t & -> & Hseg'). cbn [mbind outcome_bind]. eexists. split; [done|].
  cbn [header ph_table]. rewrite Hseg', Hseg. split; [|done]. unfold h. f_equal. symmetry.
  apply (sub_slice_take _ _ _ _ n Heq). lia.
Qed.

Section handover.
Context (PhysAddr_from_u64 : Z → outcome Z) (decode_file_list : list Z → option (list FileEntry)).
Hypothesis PhysAddr_law : ∀ a, 0 ≤ a < 2 ^ 52 → PhysAddr_from_u64 a = Ret a.

(** The ramdisk as the kernel keeps it; the later of two files of one name wins. *)
Definition archive_files (entries : list FileEntry) : gmap string FileEntry :=
  foldl (λ fs f, <[file_name f := f]> fs) ∅ entries.

Lemma initrd_init_ok m data lo elf flist body entries :
  placed data lo (omap id (ph_table elf)) → 0 ≤ lo → omap id (ph_table elf) ≠ [] →
  has_bytes m (align_up (last_end 0 (omap id (ph_table elf)))) (archive_bytes flist body) →
  0 < Z.of_nat (length flist) < PAGE_SIZE_BYTES - 8 → Z.of_nat (length body) < 2 ^ 63 →
  decode_file_list flist = Some entries →
  initrd_init PhysAddr_from_u64 decode_file_list m elf =
    Ret {| files := archive_files entries; slice := body |}.
Proof.
  intros Hp Hlo Hne Hb Hfl Hbody Hdec. unfold initrd_init. rewrite (last_addr_ok _ _ _ Hp Hlo Hne).
  cbn [mbind outcome_bind]. set (e := last_end 0 _) in *.
  assert (0 ≤ e) as He0 by (by apply (last_end_mono _ _ _ _ Hp)).
  assert (e < 2 ^ 46) as He1 by (by eapply last_end_bound). rewrite page_align_up_ok by done.
  cbn [mbind outcome_bind]. pose proof (align_up_bounds e) as Hal. set (start := align_up e) in *.
  unfold PAGE_SIZE_BYTES in *. rewrite PhysAddr_law by lia. cbn [mbind outcome_bind]. unfold phys_to_virt.
  rewrite (proj2 (Z.ltb_lt (HIGHER_HALF_START + start) u64_size)) by (unfold HIGHER_HALF_START, u64_size; lia). cbn [expect mbind outcome_bind].
  unfold archive_bytes in Hb. rewrite !has_bytes_app, !to_le_length in Hb. destruct Hb as (H1 & H2 & H3 & H4 & H5).
  replace (start + Z.of_nat 4 + Z.of_nat 4) with (start + 8) in * by lia. change (Z.of_nat 4) with 4 in *.
  replace (start + 8 + Z.of_nat 8) with (start + 16) in * by lia.
  rewrite (has_bytes_le _ _ _ _ H1), (has_bytes_le _ _ _ _ H2), (has_bytes_le _ _ _ _ H3)
    by (unfold HEADER_MAGIC, HEADER_SIZE_BYTES; lia).
  rewrite Z.eqb_refl, (proj2 (Z.ltb_lt 0 _)), (proj2 (Z.ltb_lt (_ + 8) _)) by lia. cbn [rassert mbind outcome_bind].
  rewrite Nat2Z.id, (mem_bytes_has _ _ _ H4), Hdec. cbn [expect mbind outcome_bind].
  unfold HEADER_SIZE_BYTES. rewrite sub64_small by lia. cbn [mbind outcome_bind].
  replace (16 + Z.of_nat (length flist) + Z.of_nat (length body) - (16 + Z.of_nat (length flist)))
    with (Z.of_nat (length body)) by lia. rewrite Z.add_assoc, Nat2Z.id, (mem_bytes_has _ _ _ H5). done.
Qed.

Context `{!Device} `{!AtaLaws} `{!IdentifyLaws}.

(** From the disk to the ramdisk of the running kernel.  When the drive answers and has the
    sectors, the loader reads the kernel and the ramdisk, puts every segment of the kernel where
    its header says (the bytes of the file, then zeros), keeps the image for the kernel to parse,
    and the kernel, which computes the place of the ramdisk on its own, finds there the file list
    and the files that are on the disk.  The segments have to be apart: each one starts strictly
    behind the end of the one before. *)
Theorem boot_hands_over fuel m (d : Dev) split stop n flist body entries :
  let data := sectors_from (contents (view d)) 0 6 (Z.to_nat (stop - 6)) in
  mem_le m INITRD_SPLIT_SECTOR_PTR 4 = split → mem_le m INITRD_END_SECTOR_PTR 4 = stop →
  length (ident (view d) 0) = 256%nat → boot_sectors (ident (view d) 0) = Some n →
  6 ≤ stop ≤ n → stop ≤ 2 ^ 28 → sectors_ok (contents (view d)) → (delay + 2 ≤ fuel)%nat →
  boot_image data split flist body → decode_file_list flist = Some entries →
  ∃ m' d' elf, d7boot fuel m d = Some (Ret (m', d')) ∧ has_bytes m' ELF_LOADPOINT data ∧
    parse_kernel_elf m' = Ret elf ∧ omap id (ph_table elf) = elf_segments data ∧
    (∀ ph, ph ∈ elf_segments data → has_bytes m' (virtual_address ph) (segment_bytes data ph)) ∧
    initrd_init PhysAddr_from_u64 decode_file_list m' elf =
      Ret {| files := archive_files entries; slice := body |}.
Proof.
  intros data Hsp Hst Hid Hn Hstop Hmax Hok Hf Hbi Hdec. unfold d7boot. rewrite Hsp, Hst.
  destruct (boot_init_ok fuel n d Hid Hn Hf) as (d1 & E1 & Hc1 & Hz1). rewrite (bind_some _ _ _ _ _ E1).
  rewrite (proj2 (Z.ltb_ge n stop)) by lia. unfold BOOTLOADER_SECTOR_COUNT.
  destruct (load_sectors_ok fuel 6 (Z.to_nat (stop - 6)) ELF_LOADPOINT m d1) as (m1 & d2 & E2 & Hm1 & _);
    [done|lia|lia|by rewrite Hc1|lia|].
  rewrite Z2Nat.id in E2 by lia. rewrite (bind_some _ _ _ _ _ E2), Hc1 in *. fold data in Hm1.
  destruct (sectors_from_ok (contents (view d)) 0 6 (Z.to_nat (stop - 6)) Hok) as [Hlen Hby]. fold data in Hlen, Hby.
  destruct (place_kernel_ok data split stop flist body m1 Hbi) as (m2 & E3 & Himg & Hseg & Harch);
    [rewrite Hlen; unfold SECTOR_SIZE; lia|done|].
  destruct (parse_kernel_elf_ok m2 data (bi_elf _ _ _ _ Hbi) Hby (bi_table _ _ _ _ Hbi) Himg) as (elf & E4 & _ & Ht).
  exists m2, d2, elf. split; [unfold io_lift; by rewrite E3|]. split; [done|]. split; [exact E4|].
  split; [exact Ht|]. split; [done|].
  eapply (initrd_init_ok m2 data); rewrite ?Ht;
    [apply (bi_placed _ _ _ _ Hbi)|unfold ELF_LOADPOINT; lia|apply (bi_segments _ _ _ _ Hbi)|done
    |apply (bi_list _ _ _ _ Hbi)| |done].
  destruct (bi_archive _ _ _ _ Hbi) as [pad Ha]. apply (f_equal length) in Ha. revert Ha. unfold archive_bytes.
  rewrite !length_app, length_drop, Hlen. unfold SECTOR_SIZE. lia.
Qed.

End handover.

(** A segment that starts where the one before ends does not move [max_vaddr], so the ramdisk goes
    to the page behind the earlier segment: over this one, and not where the kernel looks. *)
Theorem boot_adjacent_segment m e i :
  let base := ELF_LOADPOINT + 0x40 + i * 0x38 in
  mem_le m (base + 0x10) 8 = e → (load_segment (m, e) i).2 = e.
Proof. intros base He. unfold load_segment. fold base. rewrite He, Z.ltb_irrefl. by destruct (_ =? 1). Qed.

(** ** A disk to boot from: the example program as the kernel, and a ramdisk with one file *)

#[local] Existing Instance ref_drive.
#[local] Existing Instance ref_drive_laws.
#[local] Existing Instance ref_drive_identify.

Definition to_sector (l : list Z) : list Z := l ++ repeat 0 (SECTOR_SIZE - length l).
Definition example_file : FileEntry := {| file_name := "a"; file_size := 3; file_offset := 0 |}.
Definition example_flist : list Z := [1; 1; 97; 3; 0].

Definition example_disk : @Dev ref_drive :=
  MkAta 0 0 0 0 0 0 [] 0 []
    (λ dr l, if (dr =? 0) && (l =? 6) then to_sector example_image
             else if (dr =? 0) && (l =? 7) then to_sector (archive_bytes example_flist [7; 8; 9])
             else repeat 0 SECTOR_SIZE)
    (λ dr, if dr =? 0 then replicate 60 0 ++ [16] ++ replicate 195 0 else []).

(** The numbers that the first stage leaves in memory. *)
Definition example_memory : memory := store (λ _, 0) 0x3000 (to_le 4 7 ++ to_le 4 8).

Definition example_decode (l : list Z) : option (list FileEntry) :=
  if bool_decide (l = example_flist) then Some [example_file] else None.

Lemma example_sectors_ok : sectors_ok (contents (view example_disk)).
Proof.
  intros dr l. cbn [view ref_drive_laws id contents example_disk].
  destruct (_ && _); [|destruct (_ && _)]; (split; [vm_compute; reflexivity|apply (bool_decide_unpack _); vm_compute; exact I]).
Qed.

Lemma example_boot_image :
  boot_image (sectors_from (contents (view example_disk)) 0 6 2) 7 example_flist [7; 8; 9].
Proof.
  split.
  - unfold elf_ok. split_and!; try (vm_compute; reflexivity).
    + vm_compute. lia.
    + unfold table_fits. split_and!; vm_compute; (reflexivity || discriminate).
    + vm_compute. lia.
  - vm_compute. reflexivity.
  - vm_compute. reflexivity.
  - vm_compute. discriminate.
  - vm_compute. repeat split; discriminate.
  - vm_compute. split; discriminate.
  - exists (repeat 0 (SECTOR_SIZE - 24)). vm_compute. reflexivity.
  - vm_compute. split; reflexivity.
Qed.

Lemma boot_hands_over_witness :
  ∃ m' d' elf, d7boot 9 example_memory example_disk = Some (Ret (m', d')) ∧
    has_bytes m' 0x1000000 [0x90; 0x90; 0xcd; 0xd7] ∧
    initrd_init (λ a, Ret a) example_decode m' elf =
      Ret {| files := {["a"%string := example_file]}; slice := [7; 8; 9] |}.
Proof.
  destruct (boot_hands_over (λ a, Ret a) example_decode (λ a _, eq_refl) 9 example_memory example_disk
    7 8 16 example_flist [7; 8; 9] [example_file]) as (m' & d' & elf & E & _ & _ & _ & Hs & Hi).
  - vm_compute. reflexivity.
  - vm_compute. reflexivity.
  - vm_compute. reflexivity.
  - vm_compute. reflexivity.
  - lia.
  - lia.
  - exact example_sectors_ok.
  - cbn. lia.
  - exact example_boot_image.
  - vm_compute. reflexivity.
  - exists m', d', elf. split; [exact E|]. split; [|exact Hi].
    specialize (Hs example_segment). assert (elf_segments (sectors_from (contents (view example_disk)) 0 6 (Z.to_nat (8 - 6))) = [example_segment])
      as Eseg by (vm_compute; reflexivity).
    rewrite Eseg in Hs. specialize (Hs (list_elem_of_here _ _)). unfold segment_bytes in Hs. apply has_bytes_app in Hs as [Hs _].
    assert (sub_slice (sectors_from (contents (view example_disk)) 0 6 (Z.to_nat (8 - 6))) (Z.to_nat (offset example_segment))
      (Z.to_nat (offset example_segment + size_in_file example_segment)) = [0x90; 0x90; 0xcd; 0xd7]) as Ec by (vm_compute; reflexivity).
    rewrite Ec in Hs. exact Hs.
Defined.
