(* ===== verification/DiskImage.v ===== *)
(** * DiskImage: the tools that make the disk
    (libs/d7initrd/src/bin/mkimg.rs, libs/d7initrd/src/lib.rs, libs/elf2bin/src/main.rs)

    Files of the host are lists of bytes; a path without a file has none.  The arguments are taken
    after they are split and trimmed.  Both tools are built in debug mode, with overflow checks.
    The serialiser of the file list ([pinecone]) is a parameter.  Printing the table of files is
    left out. *)

From stdpp Require Import base gmap list strings.
From Stdlib Require Import ZArith Lia.
From S2P Require Import Prelude Abi Bytes Ranges Elf Ipc PortIo Acpi Ata Boot.
Open Scope Z_scope.

(** ** d7initrd/src/lib.rs *)

Definition MBR_POSITION_S : nat := 0x1f6.
Definition MBR_POSITION_E : nat := 0x1fa.

Definition to_sectors_round_up (p : Z) : outcome Z :=
  a ← add64 p 0x200; a ← sub64 a 1; Ret (a / 0x200).

(** ** mkimg.rs *)

(** [seek] and [write_all]: bytes that are there are overwritten, a gap is filled with zeros. *)
Definition write_at (file : list Z) (pos : nat) (bytes : list Z) : list Z :=
  take pos (file ++ replicate (pos - length file) 0) ++ bytes ++ drop (pos + length bytes) file.

(** [seek] and [read_exact] of four bytes. *)
Definition read_four (file : list Z) (pos : Z) : outcome (list Z) :=
  if pos + 4 <=? Z.of_nat (length file) then Ret (sub_slice file (Z.to_nat pos) (Z.to_nat pos + 4))
  else Panic "failed to fill whole buffer".

Section mkimg.
Context (host : string → option (list Z)).
Context (encode_file_list : list FileEntry → option (list Z)).

(** The arguments after the second: the name in the ramdisk and the path on the host. *)
Fixpoint collect_files (args : list (string * string)) (cumulative_offset : Z)
    : outcome (list (string * FileEntry)) :=
  match args with
  | [] => Ret []
  | (fs_filename, rl_filename) :: args =>
      contents ← expect (host rl_filename) "File not found";
      let len := Z.of_nat (length contents) in
      let fe := {| file_name := fs_filename; file_size := len; file_offset := cumulative_offset |} in
      next ← add64 cumulative_offset len;
      files ← collect_files args next;
      Ret ((rl_filename, fe) :: files)
  end.

Fixpoint total_size (files : list (string * FileEntry)) : outcome Z :=
  match files with
  | [] => Ret 0
  | (_, e) :: files => n ← total_size files; add64 (file_size e) n
  end.

(** The files, one after the other from [pos] on. *)
Fixpoint copy_files (files : list (string * FileEntry)) (img : list Z) (pos : nat) : outcome (list Z) :=
  match files with
  | [] => Ret img
  | (path, _) :: files =>
      contents ← expect (host path) "Source file not found";
      copy_files files (write_at img pos contents) (pos + length contents)
  end.

Definition mkimg (img : list Z) (kernel_skip_index : Z) (args : list (string * string)) : outcome (list Z) :=
  files ← collect_files args 0;
  let size_sectors := Z.of_nat (length img) / 0x200 in
  header_body ← unwrap (encode_file_list files.*2);
  let header_size := HEADER_SIZE_BYTES + Z.of_nat (length header_body) in
  files_size ← total_size files;
  all_size ← add64 header_size files_size;
  n ← to_sectors_round_up all_size;
  required_size_sectors ← add64 kernel_skip_index n;
  _ ← rassert (required_size_sectors <? size_sectors) "File is not large enough";
  magic ← read_four img (Z.of_nat MBR_POSITION_S);
  _ ← rassert (bool_decide (magic = to_le 4 HEADER_MAGIC)) "Magic placeholder 1 missing from the target image";
  magic ← read_four img (Z.of_nat MBR_POSITION_E);
  _ ← rassert (bool_decide (magic = to_le 4 HEADER_MAGIC)) "Magic placeholder 2 missing from the target image";
  start ← mul64 kernel_skip_index 0x200;
  empty ← read_four img start;
  _ ← rassert (bool_decide (empty = [0; 0; 0; 0])) "assertion failed: `(left == right)`";
  let img := write_at img MBR_POSITION_S (to_le 4 (kernel_skip_index mod 2 ^ 32)) in
  let img := write_at img MBR_POSITION_E (to_le 4 (required_size_sectors mod 2 ^ 32)) in
  let pos := Z.to_nat start in
  let img := write_at img pos (to_le 4 HEADER_MAGIC) in
  let img := write_at img (pos + 4) (to_le 4 (Z.of_nat (length header_body) mod 2 ^ 32)) in
  let img := write_at img (pos + 8) (to_le 8 all_size) in
  let img := write_at img (pos + 16) header_body in
  copy_files files img (pos + 16 + length header_body).

End mkimg.

(** ** elf2bin *)

(** [read_int]: the bytes that are left, at most the width, and the position after them. *)
Definition read_int (f : list Z) (width pos : nat) : Z * nat :=
  let bytes := sub_slice f pos (pos + width) in (from_le bytes, (pos + length bytes)%nat).

(** Pairs of a byte of the file and a byte of the target; a file that ends earlier passes. *)
Fixpoint bytes_agree (bytes target : list Z) : bool :=
  match bytes, target with
  | b :: bytes, t :: target => (b =? t) && bytes_agree bytes target
  | _, _ => true
  end.

Definition check_at_eq (f : list Z) (pos : nat) (target : list Z) (msg : string) : outcome unit :=
  rassert (bytes_agree (drop pos f) target) ("Byte mismatch in " +:+ msg).

Definition elf2bin_check_elf (f : list Z) : outcome unit :=
  _ ← check_at_eq f 0 [0x7f; 0x45; 0x4c; 0x46] "magic";
  _ ← check_at_eq f 4 [0x02] "bitness";
  _ ← check_at_eq f 5 [0x01] "endianess";
  _ ← check_at_eq f 6 [0x01] "version";
  _ ← check_at_eq f 18 [0x3e] "instruction set";
  check_at_eq f 54 [0x38] "program header size".

(** The offset and the size in the file of each entry taken for a loadable segment. *)
Fixpoint read_headers (f : list Z) (n : nat) (pos : nat) : list (Z * Z) :=
  match n with
  | O => []
  | S n =>
      let (segment_type, pos) := read_int f 4 pos in
      if segment_type =? 1 then
        let (flags, pos) := read_int f 4 pos in
        let (offset, pos) := read_int f 8 pos in
        let (vaddr, pos) := read_int f 8 pos in
        let (paddr, pos) := read_int f 8 pos in
        let (filesz, pos) := read_int f 8 pos in
        let (memsz, pos) := read_int f 8 pos in
        let (align, pos) := read_int f 8 pos in
        (offset, filesz) :: read_headers f n pos
      else read_headers f n pos
  end.

Definition elf2bin (f : list Z) : outcome (list Z) :=
  _ ← elf2bin_check_elf f;
  let pht_pos := (read_int f 8 32).1 in
  let pht_len := (read_int f 2 56).1 in
  _ ← rassert (0 <? pht_len) "Empty program header table";
  match read_headers f (Z.to_nat pht_len) (Z.to_nat pht_pos) with
  | [(offset, filesz)] =>
      let data := take (Z.to_nat filesz) (drop (Z.to_nat offset) f) in
      _ ← rassert (Z.of_nat (length data) =? filesz) "File was too small (incorrect offset or filesz)";
      Ret data
  | _ => Panic "Only one loadable program header must be present"
  end.

(** ** Writing a file *)

(** The file has the bytes at the position. *)
Definition file_has (f : list Z) (pos : nat) (l : list Z) : Prop :=
  ∀ i x, l !! i = Some x → f !! (pos + i)%nat = Some x.

Lemma write_at_lookup f pos l i :
  (pos + length l ≤ length f)%nat →
  write_at f pos l !! i =
    if (pos <=? i)%nat && (i <? pos + length l)%nat then l !! (i - pos)%nat else f !! i.
Proof.
  intros Hl. unfold write_at. replace (pos - length f)%nat with 0%nat by lia. cbn [replicate]. rewrite app_nil_r.
  assert (length (take pos f) = pos) as Ht by (rewrite length_take; lia).
  destruct (Nat.leb_spec pos i); cbn [andb].
  - rewrite lookup_app_r by lia. rewrite Ht. destruct (Nat.ltb_spec i (pos + length l)).
    + by rewrite lookup_app_l by lia.
    + rewrite lookup_app_r, lookup_drop by lia. f_equal. lia.
  - rewrite lookup_app_l by lia. apply lookup_take_lt. lia.
Qed.

Lemma write_at_length f pos l : (pos + length l ≤ length f)%nat → length (write_at f pos l) = length f.
Proof.
  intros Hl. unfold write_at. replace (pos - length f)%nat with 0%nat by lia. cbn [replicate].
  rewrite app_nil_r, !length_app, length_take, length_drop. lia.
Qed.

(** The length of a file after writes within it. *)
Ltac written := repeat (rewrite write_at_length by (written; rewrite ?to_le_length; lia)).

Lemma write_at_app f pos l l' :
  (pos + length l + length l' ≤ length f)%nat →
  write_at (write_at f pos l) (pos + length l) l' = write_at f pos (l ++ l').
Proof.
  intros Hl. apply list_eq. intros i. rewrite !write_at_lookup by (rewrite ?write_at_length, ?length_app; lia).
  rewrite length_app.
  destruct (Nat.leb_spec pos i), (Nat.leb_spec (pos + length l) i), (Nat.ltb_spec i (pos + length l)),
    (Nat.ltb_spec i (pos + length l + length l')), (Nat.ltb_spec i (pos + (length l + length l')));
    cbn [andb]; try lia; try done.
  - rewrite lookup_app_r by lia. f_equal. lia.
  - by rewrite lookup_app_l by lia.
Qed.

Lemma write_at_has f pos l : (pos + length l ≤ length f)%nat → file_has (write_at f pos l) pos l.
Proof.
  intros Hl i x Hx. pose proof (lookup_lt_Some _ _ _ Hx). rewrite write_at_lookup by done.
  rewrite (proj2 (Nat.leb_le _ _)), (proj2 (Nat.ltb_lt _ _)) by lia. cbn [andb]. rewrite <- Hx. f_equal. lia.
Qed.

Lemma write_at_keeps f pos l p l' :
  (pos + length l ≤ length f)%nat → (p + length l' ≤ pos ∨ pos + length l ≤ p)%nat →
  file_has f p l' → file_has (write_at f pos l) p l'.
Proof.
  intros Hl Hd H i x Hx. pose proof (lookup_lt_Some _ _ _ Hx). rewrite write_at_lookup by done.
  destruct (Nat.leb_spec pos (p + i)), (Nat.ltb_spec (p + i) (pos + length l)); cbn [andb]; [lia|by apply H..].
Qed.

Lemma file_has_slice f pos l : file_has f pos l → sub_slice f pos (pos + length l) = l.
Proof.
  intros H. apply list_eq. intros i. unfold sub_slice. replace (pos + length l - pos)%nat with (length l) by lia.
  destruct (l !! i) as [x|] eqn:E.
  - rewrite lookup_take_lt by (by eapply lookup_lt_Some). rewrite lookup_drop. by apply H.
  - apply lookup_ge_None in E. by rewrite lookup_take_ge by lia.
Qed.

Lemma slice_file_has f a b : (a ≤ b ≤ length f)%nat → file_has f a (sub_slice f a b).
Proof.
  intros Hab i x Hx. unfold sub_slice in Hx. apply lookup_take_Some in Hx as [Hx _]. by rewrite lookup_drop in Hx.
Qed.

(** ** mkimg *)

Section tool.
Context (host : string → option (list Z)).
Context (encode_file_list : list FileEntry → option (list Z)).

(** The entries of the file list, for the sizes of the files. *)
Fixpoint entries_of (names : list string) (datas : list (list Z)) (offset : Z) : list FileEntry :=
  match names, datas with
  | n :: names, d :: datas =>
      {| file_name := n; file_size := Z.of_nat (length d); file_offset := offset |} ::
      entries_of names datas (offset + Z.of_nat (length d))
  | _, _ => []
  end.

Definition sectors_of (n : Z) : Z := (n + 0x200 - 1) / 0x200.

(** What the tool is run on: the files exist, the image has the two placeholders, no kernel at the
    place of the ramdisk, and room for it. *)
Record mkimg_input (img : list Z) (skip : Z) (args : list (string * string)) (datas : list (list Z))
    (flist : list Z) : Prop := {
  mi_files : Forall2 (λ a d, host a.2 = Some d) args datas;
  mi_list : encode_file_list (entries_of args.*1 datas 0) = Some flist;
  mi_header : 0 < Z.of_nat (length flist) < PAGE_SIZE_BYTES - 8;
  mi_skip : 6 ≤ skip;
  mi_room : skip + sectors_of (16 + Z.of_nat (length flist) + Z.of_nat (length (concat datas))) <
    Z.of_nat (length img) / 0x200;
  mi_small : Z.of_nat (length img) < 2 ^ 37;
  mi_split : sub_slice img MBR_POSITION_S (MBR_POSITION_S + 4) = to_le 4 HEADER_MAGIC;
  mi_end : sub_slice img MBR_POSITION_E (MBR_POSITION_E + 4) = to_le 4 HEADER_MAGIC;
  mi_empty : sub_slice img (Z.to_nat (skip * 0x200)) (Z.to_nat (skip * 0x200) + 4) = [0; 0; 0; 0];
}.

Lemma collect_files_ok args datas off :
  Forall2 (λ a d, host a.2 = Some d) args datas → 0 ≤ off →
  off + Z.of_nat (length (concat datas)) < 2 ^ 63 →
  ∃ files, collect_files host args off = Ret files ∧ files.*2 = entries_of args.*1 datas off ∧
    files.*1 = args.*2 ∧ total_size files = Ret (Z.of_nat (length (concat datas))).
Proof.
  intros H. revert off. induction H as [|[n p] d args datas Hd H IH]; intros off Ho Hs; [by exists []|].
  cbn [concat] in Hs. rewrite length_app in Hs. cbn [collect_files]. cbn in Hd. rewrite Hd. cbn [expect mbind outcome_bind].
  assert (u64_size = 2 ^ 64) by done. rewrite add64_small by lia. cbn [mbind outcome_bind].
  destruct (IH (off + Z.of_nat (length d))) as (files & -> & H1 & H2 & H3); [lia|lia|].
  cbn [mbind outcome_bind]. eexists. split; [done|]. rewrite !fmap_cons. cbn [fst snd entries_of].
  split; [by rewrite H1|]. split; [by rewrite H2|]. cbn [total_size file_size]. rewrite H3. cbn [mbind outcome_bind].
  rewrite add64_small by lia. cbn [concat]. rewrite length_app. f_equal. lia.
Qed.

Lemma copy_files_ok (files : list (string * FileEntry)) datas img pos :
  Forall2 (λ p d, host p = Some d) files.*1 datas → (pos + length (concat datas) ≤ length img)%nat →
  copy_files host files img pos = Ret (write_at img pos (concat datas)).
Proof.
  revert datas img pos. induction files as [|[p e] files IH]; intros datas img pos H Hl.
  { apply Forall2_nil_inv_l in H as ->. cbn [copy_files concat]. f_equal. unfold write_at. cbn [length].
    cbn in Hl. replace (pos - length img)%nat with 0%nat by lia. cbn [replicate].
    rewrite app_nil_r, Nat.add_0_r. cbn [app]. by rewrite take_drop. }
  apply Forall2_cons_inv_l in H as (d & datas' & Hd & H & ->). cbn in Hd. cbn [copy_files concat] in *.
  rewrite length_app in Hl. rewrite Hd. cbn [expect mbind outcome_bind].
  rewrite (IH datas') by (done || rewrite write_at_length; lia). by rewrite write_at_app by lia.
Qed.

Lemma sectors_of_bounds n : n ≤ sectors_of n * 0x200 < n + 0x200.
Proof.
  unfold sectors_of. pose proof (Z.div_mod (n + 0x200 - 1) 0x200 ltac:(lia)).
  pose proof (Z.mod_pos_bound (n + 0x200 - 1) 0x200). lia.
Qed.

Lemma read_four_ok img z pos l :
  Z.to_nat z = pos → sub_slice img pos (pos + 4) = l → z + 4 ≤ Z.of_nat (length img) →
  read_four img z = Ret l.
Proof. intros <- <- Hl. unfold read_four. by rewrite (proj2 (Z.leb_le _ _)). Qed.

(** The image the tool makes: the place and the end of the ramdisk in the boot sector, and the
    ramdisk. *)
Definition made_image (img : list Z) (skip : Z) (flist body : list Z) : list Z :=
  let stop := skip + sectors_of (16 + Z.of_nat (length flist) + Z.of_nat (length body)) in
  write_at (write_at img MBR_POSITION_S (to_le 4 skip ++ to_le 4 stop))
    (Z.to_nat (skip * 0x200)) (archive_bytes flist body).

Lemma archive_length flist body :
  length (archive_bytes flist body) = (16 + length flist + length body)%nat.
Proof. unfold archive_bytes. rewrite !length_app, !to_le_length. lia. Qed.

(** The parts of the ramdisk, written one after the other. *)
Lemma write_archive img pos flist body :
  (pos + length (archive_bytes flist body) ≤ length img)%nat → Z.of_nat (length flist) < 2 ^ 32 →
  write_at (write_at (write_at (write_at (write_at img pos (to_le 4 HEADER_MAGIC))
    (pos + 4) (to_le 4 (Z.of_nat (length flist) mod 2 ^ 32)))
    (pos + 8) (to_le 8 (16 + Z.of_nat (length flist) + Z.of_nat (length body))))
    (pos + 16) flist) (pos + 16 + length flist) body = write_at img pos (archive_bytes flist body).
Proof.
  intros Hl Hf. rewrite archive_length in Hl. rewrite Z.mod_small by lia. unfold archive_bytes.
  set (a := to_le 4 HEADER_MAGIC). set (b := to_le 4 _). set (c := to_le 8 _).
  assert (length a = 4 ∧ length b = 4 ∧ length c = 8)%nat as (Ha & Hb & Hc)
    by (unfold a, b, c; rewrite !to_le_length; done).
  replace (pos + 4)%nat with (pos + length a)%nat by lia.
  rewrite (write_at_app img pos a b) by lia.
  replace (pos + 8)%nat with (pos + length (a ++ b))%nat by (rewrite length_app; lia).
  rewrite (write_at_app img pos (a ++ b) c) by (rewrite length_app; lia).
  replace (pos + 16)%nat with (pos + length ((a ++ b) ++ c))%nat by (rewrite !length_app; lia).
  rewrite (write_at_app img pos _ flist) by (rewrite !length_app; lia).
  rewrite <- Nat.add_assoc, <- (length_app ((a ++ b) ++ c) flist). rewrite write_at_app by (rewrite !length_app; lia).
  by rewrite <- !(assoc_L (++)).
Qed.

Lemma write_pointers img a b :
  (0x200 ≤ length img)%nat →
  write_at (write_at img MBR_POSITION_S (to_le 4 a)) MBR_POSITION_E (to_le 4 b) =
    write_at img MBR_POSITION_S (to_le 4 a ++ to_le 4 b).
Proof.
  intros Hl. assert (length (to_le 4 a) = 4%nat) as Ha by apply to_le_length.
  replace MBR_POSITION_E with (MBR_POSITION_S + length (to_le 4 a))%nat by (by rewrite Ha).
  apply write_at_app. rewrite !to_le_length. unfold MBR_POSITION_S. lia.
Qed.

Lemma mkimg_ok img skip args datas flist :
  mkimg_input img skip args datas flist →
  mkimg host encode_file_list img skip args = Ret (made_image img skip flist (concat datas)).
Proof.
  intros [Hf Hl Hh Hs Hr Hsm H1 H2 H3]. unfold PAGE_SIZE_BYTES in Hh. unfold mkimg. assert (u64_size = 2 ^ 64) as Hsz by done.
  pose proof (sectors_of_bounds (16 + Z.of_nat (length flist) + Z.of_nat (length (concat datas)))) as Hb.
  pose proof (Z.mul_div_le (Z.of_nat (length img)) 0x200 ltac:(lia)) as Hd.
  set (stop := skip + sectors_of _) in *.
  destruct (collect_files_ok args datas 0 Hf) as (files & -> & Hes & Hps & Hts); [lia|lia|].
  cbn [mbind outcome_bind]. rewrite Hes, Hl. cbn [unwrap expect mbind outcome_bind]. rewrite Hts. cbn [mbind outcome_bind].
  unfold HEADER_SIZE_BYTES.
  rewrite add64_small by lia. cbn [mbind outcome_bind]. unfold to_sectors_round_up.
  rewrite add64_small by lia. cbn [mbind outcome_bind]. rewrite sub64_small by lia. cbn [mbind outcome_bind].
  change ((?n + 0x200 - 1) / 0x200) with (sectors_of n). rewrite add64_small by lia. cbn [mbind outcome_bind]. fold stop.
  rewrite (proj2 (Z.ltb_lt stop _)) by done. cbn [rassert mbind outcome_bind].
  rewrite (read_four_ok _ _ _ _ (Nat2Z.id _) H1) by (unfold MBR_POSITION_S; lia). cbn [mbind outcome_bind].
  rewrite bool_decide_true by done. cbn [rassert mbind outcome_bind].
  rewrite (read_four_ok _ _ _ _ (Nat2Z.id _) H2) by (unfold MBR_POSITION_E; lia). cbn [mbind outcome_bind].
  rewrite bool_decide_true by done. cbn [rassert mbind outcome_bind]. rewrite mul64_small by lia. cbn [mbind outcome_bind].
  rewrite (read_four_ok _ _ _ _ eq_refl H3) by lia. cbn [mbind outcome_bind]. rewrite bool_decide_true by done. cbn [rassert mbind outcome_bind].
  rewrite (Z.mod_small skip), (Z.mod_small stop) by lia.
  rewrite write_pointers by lia. set (img1 := write_at img _ _).
  assert (length img1 = length img) as Hl1.
  { apply write_at_length. rewrite length_app, !to_le_length. unfold MBR_POSITION_S. lia. }
  rewrite (copy_files_ok files datas); [|rewrite Hps; by apply Forall2_fmap_l|written; lia].
  f_equal. rewrite write_archive; [done|rewrite archive_length; lia|lia].
Qed.

End tool.

(** ** The kernel image, followed by the ramdisk *)

Lemma sub_slice_cat {A} (l : list A) a b c :
  (a ≤ b ≤ c)%nat → sub_slice l a c = sub_slice l a b ++ sub_slice l b c.
Proof.
  intros H. unfold sub_slice. replace (drop b l) with (drop (b - a) (drop a l)) by (rewrite drop_drop; f_equal; lia).
  replace (c - a)%nat with ((b - a) + (c - b))%nat by lia. by rewrite take_take_drop.
Qed.

Section extended.
Context (k r : list Z).
Hypothesis Hk : elf_ok k.

Lemma extended_header : sub_slice (k ++ r) 0 64 = sub_slice k 0 64.
Proof. destruct Hk as [Hl _]. apply sub_slice_app_l; lia. Qed.

Lemma extended_headers :
  let h := read_header (sub_slice k 0 64) in
  program_header (k ++ r) h <$> seq 0 (Z.to_nat (ph_table_entry_count h)) =
  program_header k h <$> seq 0 (Z.to_nat (ph_table_entry_count h)).
Proof.
  destruct Hk as (_ & _ & _ & _ & _ & _ & _ & (Hp & He & Hc & Hf) & _). intros h. fold h in Hp, He, Hc, Hf.
  apply list_fmap_ext. intros i x Hx. apply lookup_seq in Hx as [-> Hi]. unfold program_header. f_equal.
  apply sub_slice_app_l; rewrite He; lia.
Qed.

Lemma extended_segments : elf_segments (k ++ r) = elf_segments k.
Proof. unfold elf_segments, loadables. by rewrite extended_header, extended_headers. Qed.

Lemma extended_ok : Z.of_nat (length (k ++ r)) < 2 ^ 63 → elf_ok (k ++ r).
Proof.
  intros Hl. pose proof extended_segments as Hs. unfold elf_segments in Hs. unfold elf_ok.
  rewrite extended_header in *. destruct Hk as (H64 & H1 & H2 & H3 & H4 & H5 & H6 & (Hp & He & Hc & Hf) & Hn).
  split_and!; try done; [rewrite length_app; lia|unfold table_fits; rewrite length_app in *; lia|by rewrite Hs].
Qed.

Lemma extended_placed lo phs : placed k lo phs → placed (k ++ r) lo phs.
Proof.
  revert lo. induction phs as [|ph phs IH]; intros lo; cbn [placed]; [done|].
  intros (H1 & H2 & H3 & H4 & H5 & H6). rewrite length_app. split_and!; try done; try lia. by apply IH.
Qed.

End extended.

(** ** Files of the ramdisk *)

Lemma entries_names names datas off :
  length names = length datas → file_name <$> entries_of names datas off = names.
Proof.
  revert datas off. induction names as [|n names IH]; intros [|d datas] off; try done. cbn [entries_of length].
  intros [= Hl]. rewrite fmap_cons, IH by done. done.
Qed.

Lemma entries_lookup names datas off i n d :
  names !! i = Some n → datas !! i = Some d →
  entries_of names datas off !! i =
    Some {| file_name := n; file_size := Z.of_nat (length d);
            file_offset := off + Z.of_nat (length (concat (take i datas))) |}.
Proof.
  revert datas off i. induction names as [|n0 names IH]; intros [|d0 datas] off [|i]; try done.
  - cbn. intros [= ->] [= ->]. by rewrite Z.add_0_r.
  - cbn [entries_of lookup list_lookup take concat]. intros Hn Hd. rewrite (IH _ _ _ Hn Hd), length_app. do 2 f_equal. lia.
Qed.

Lemma concat_slice {A} (ds : list (list A)) i d :
  ds !! i = Some d →
  take (length d) (drop (length (concat (take i ds))) (concat ds)) = d ∧
  (length (concat (take i ds)) + length d ≤ length (concat ds))%nat.
Proof.
  intros Hi. rewrite <- (take_drop_middle ds i d Hi) at 2 4. rewrite concat_app. cbn [concat].
  rewrite drop_app_length, take_app_length. split; [done|]. rewrite !length_app. lia.
Qed.

Lemma files_other es fs n :
  n ∉ file_name <$> es → foldl (λ fs f, <[file_name f := f]> fs) fs es !! n = (fs : gmap string FileEntry) !! n.
Proof.
  revert fs. induction es as [|e es IH]; intros fs Hn; [done|]. rewrite fmap_cons, not_elem_of_cons in Hn.
  destruct Hn as [Hne Hn]. cbn [foldl]. rewrite IH by done. by apply lookup_insert_ne.
Qed.

Lemma files_lookup es fs e :
  NoDup (file_name <$> es) → e ∈ es →
  foldl (λ fs f, <[file_name f := f]> fs) (fs : gmap string FileEntry) es !! file_name e = Some e.
Proof.
  revert fs. induction es as [|e0 es IH]; intros fs Hnd Hin; [by apply not_elem_of_nil in Hin|].
  rewrite fmap_cons in Hnd. apply NoDup_cons in Hnd as [Hn Hnd]. cbn [foldl].
  apply elem_of_cons in Hin as [->|Hin]; [|by apply IH]. rewrite files_other by done. by rewrite lookup_insert_eq.
Qed.

(** A file, read from the ramdisk. *)
Lemma archive_read names datas i n d :
  NoDup names → length names = length datas → names !! i = Some n → datas !! i = Some d →
  Z.of_nat (length (concat datas)) < 2 ^ 63 →
  initrd_read {| files := archive_files (entries_of names datas 0); slice := concat datas |} n = Ret (Some d).
Proof.
  intros Hnd Hl Hn Hd Hs. pose proof (entries_lookup names datas 0 i n d Hn Hd) as He.
  set (e := Build_FileEntry _ _ _) in He. destruct (concat_slice datas i d Hd) as [Hslice Hle].
  assert (archive_files (entries_of names datas 0) !! n = Some e) as Hf.
  { apply (files_lookup _ ∅ e); [by rewrite entries_names|by eapply list_elem_of_lookup_2]. }
  unfold initrd_read. cbn [files slice]. rewrite Hf. cbn [file_offset file_size e]. unfold e.
  cbn [file_offset file_size]. assert (u64_size = 2 ^ 64) by done. rewrite add64_small by lia. cbn [mbind outcome_bind].
  rewrite (proj2 (Z.leb_le _ _)) by lia. cbn [rassert mbind outcome_bind]. rewrite Z.add_0_l, !Nat2Z.id. by rewrite Hslice.
Qed.

(** ** From the files of the host to the files of the kernel *)

(** The drive has the image. *)
Definition on_disk (c : Z → Z → list Z) (img : list Z) : Prop :=
  ∀ l, (l < length img / SECTOR_SIZE)%nat → c 0 (Z.of_nat l) = sub_slice img (SECTOR_SIZE * l) (SECTOR_SIZE * S l).

(** The kernel on the image: behind the boot loader, up to the ramdisk. *)
Definition kernel_bytes (img : list Z) (skip : Z) : list Z :=
  sub_slice img (SECTOR_SIZE * 6) (Z.to_nat (skip * 0x200)).

Record kernel_input (img : list Z) (skip stop : Z) : Prop := {
  ki_elf : elf_ok (kernel_bytes img skip);
  ki_table : ph_table_position (read_header (sub_slice (kernel_bytes img skip) 0 64)) = 64;
  ki_entry : program_entry_pos (read_header (sub_slice (kernel_bytes img skip) 0 64)) = KERNEL_ENTRY_POINT;
  ki_segments : elf_segments (kernel_bytes img skip) ≠ [];
  ki_placed : placed (kernel_bytes img skip) (ELF_LOADPOINT + (stop - 6) * 0x200 - 1)
    (elf_segments (kernel_bytes img skip));
}.

Lemma on_disk_sectors c img n :
  on_disk c img → (6 + n ≤ length img / SECTOR_SIZE)%nat →
  sectors_from c 0 6 n = sub_slice img (SECTOR_SIZE * 6) (SECTOR_SIZE * (6 + n)).
Proof.
  intros Hd Hn. rewrite <- slices_join. unfold sectors_from. f_equal. unfold seqZ.
  assert (seq 6 n = Nat.add 6 <$> seq 0 n) as -> by (symmetry; apply fmap_add_seq).
  rewrite Nat2Z.id, <- !list_fmap_compose. apply list_fmap_ext. intros i x Hx. apply lookup_seq in Hx as [-> Hi]. 
  unfold compose. rewrite <- (Hd (6 + (0 + i))%nat) by lia. f_equal. lia.
Qed.

(** The parts of the image the tool made. *)
Lemma made_parts img skip flist body :
  let stop := skip + sectors_of (16 + Z.of_nat (length flist) + Z.of_nat (length body)) in
  6 ≤ skip → stop < Z.of_nat (length img) / 0x200 →
  let img' := made_image img skip flist body in
  length img' = length img ∧
  sub_slice img' MBR_POSITION_S (MBR_POSITION_S + 8) = to_le 4 skip ++ to_le 4 stop ∧
  ∃ pad, sub_slice img' (SECTOR_SIZE * 6) (Z.to_nat (stop * 0x200)) =
    kernel_bytes img skip ++ archive_bytes flist body ++ pad.
Proof.
  intros stop Hs Hr img'. pose proof (sectors_of_bounds (16 + Z.of_nat (length flist) + Z.of_nat (length body))) as Hb.
  pose proof (Z.mul_div_le (Z.of_nat (length img)) 0x200 ltac:(lia)) as Hd. pose proof (archive_length flist body) as Hal.
  set (ptrs := to_le 4 skip ++ to_le 4 stop). assert (length ptrs = 8%nat) as Hpl by (unfold ptrs; rewrite length_app, !to_le_length; done).
  assert (MBR_POSITION_S + length ptrs ≤ length img)%nat as Hp1 by (rewrite Hpl; unfold MBR_POSITION_S, stop in *; lia).
  pose proof (write_at_length img MBR_POSITION_S ptrs Hp1) as Hl1. set (img1 := write_at img MBR_POSITION_S ptrs) in *.
  assert (Z.to_nat (skip * 0x200) + length (archive_bytes flist body) ≤ length img1)%nat as Hp2 by (unfold stop in *; lia).
  assert (img' = write_at img1 (Z.to_nat (skip * 0x200)) (archive_bytes flist body)) as Ei by done.
  pose proof (write_at_length img1 _ _ Hp2) as Hl2. rewrite <- Ei in Hl2. split; [lia|]. split.
  - rewrite <- Hpl. apply file_has_slice. rewrite Ei. apply write_at_keeps; [done|left; rewrite Hpl; unfold MBR_POSITION_S; lia|].
    by apply write_at_has.
  - set (a := Z.to_nat (skip * 0x200)) in *. set (b := (a + length (archive_bytes flist body))%nat).
    exists (sub_slice img' b (Z.to_nat (stop * 0x200))).
    assert (SECTOR_SIZE * 6 ≤ a ≤ Z.to_nat (stop * 0x200) ∧ b ≤ Z.to_nat (stop * 0x200))%nat as [Ha Hbs]
      by (unfold b, a, stop, SECTOR_SIZE in *; lia).
    rewrite (sub_slice_cat _ _ a) by lia. rewrite (sub_slice_cat _ a b) by (unfold b in *; lia). f_equal; [|f_equal].
    + assert (length (kernel_bytes img skip) = a - SECTOR_SIZE * 6)%nat as Hkl.
      { unfold kernel_bytes. fold a. rewrite sub_slice_length; [done|]. unfold stop, a in *. lia. }
      replace a with (SECTOR_SIZE * 6 + length (kernel_bytes img skip))%nat at 1 by lia. apply file_has_slice.
      rewrite Ei. apply write_at_keeps; [done|left; fold a; lia|]. apply write_at_keeps; [done|right; rewrite Hpl; unfold MBR_POSITION_S, SECTOR_SIZE; lia|].
      apply slice_file_has. fold a. unfold stop, a in *. lia.
    + apply file_has_slice. rewrite Ei. by apply write_at_has.
Qed.

Lemma extended_bytes data rest lo phs ph :
  placed data lo phs → ph ∈ phs → segment_bytes (data ++ rest) ph = segment_bytes data ph.
Proof.
  revert lo. induction phs as [|x phs IH]; intros lo Hp Hin; [by apply not_elem_of_nil in Hin|].
  destruct Hp as (_ & H1 & H2 & H3 & _ & Hp). apply elem_of_cons in Hin as [->|Hin]; [|by eapply IH].
  unfold segment_bytes. by rewrite sub_slice_app_l by lia.
Qed.

Lemma image_boot_image img skip args datas flist (host : string → option (list Z)) encode :
  mkimg_input host encode img skip args datas flist →
  let stop := skip + sectors_of (16 + Z.of_nat (length flist) + Z.of_nat (length (concat datas))) in
  kernel_input img skip stop →
  let data := sub_slice (made_image img skip flist (concat datas)) (SECTOR_SIZE * 6) (Z.to_nat (stop * 0x200)) in
  boot_image data skip flist (concat datas) ∧ elf_segments data = elf_segments (kernel_bytes img skip) ∧
  ∀ ph, ph ∈ elf_segments data → segment_bytes data ph = segment_bytes (kernel_bytes img skip) ph.
Proof.
  intros [_ _ Hh Hs Hr Hsm _ _ _] stop [Ke Kt Kn Kne Kp] data.
  destruct (made_parts img skip flist (concat datas) Hs Hr) as (Hl & _ & pad & Hd). fold stop data in Hd.
  pose proof (sectors_of_bounds (16 + Z.of_nat (length flist) + Z.of_nat (length (concat datas)))) as Hb.
  pose proof (Z.mul_div_le (Z.of_nat (length img)) 0x200 ltac:(lia)) as Hm.
  assert (Z.of_nat (length data) = (stop - 6) * 0x200) as Hdl.
  { unfold data. rewrite sub_slice_length; unfold SECTOR_SIZE, stop in *; lia. }
  assert (Z.of_nat (length (kernel_bytes img skip)) = (skip - 6) * 0x200) as Hkl.
  { unfold kernel_bytes. rewrite sub_slice_length; unfold SECTOR_SIZE, stop in *; lia. }
  assert (Z.of_nat (length data) < 2 ^ 63) as Hsz by (unfold stop in *; lia). rewrite Hd in Hsz |- *.
  rewrite extended_segments by done. split; [|split; [done|intros ph Hin; by eapply extended_bytes]]. split.
  - by apply extended_ok.
  - by rewrite extended_header.
  - by rewrite extended_header.
  - by rewrite extended_segments.
  - rewrite extended_segments by done. rewrite <- Hd, Hdl, Hd. by apply extended_placed.
  - rewrite <- Hd, Hdl. unfold stop in *. lia.
  - exists pad. replace (Z.to_nat ((skip - 6) * 0x200)) with (length (kernel_bytes img skip)) by lia. apply drop_app_length.
  - done.
Qed.

Section boots.
Context (host : string → option (list Z)).
Context (encode_file_list : list FileEntry → option (list Z)) (decode_file_list : list Z → option (list FileEntry)).
Hypothesis decode_law : ∀ l b, encode_file_list l = Some b → decode_file_list b = Some l.
Context (PhysAddr_from_u64 : Z → outcome Z).
Hypothesis PhysAddr_law : ∀ a, 0 ≤ a < 2 ^ 52 → PhysAddr_from_u64 a = Ret a.
Context `{!Device} `{!AtaLaws} `{!IdentifyLaws}.

(** C14: the way of a file from the host to the running system.  [mkimg] makes an image; the boot
    loader, run on a drive with this image (the first stage has put the two numbers of the boot
    sector into memory), loads the kernel, every segment of it where its header says, and moves the
    ramdisk behind it; the kernel parses its own image, which the loader has left in the memory,
    finds with it the ramdisk; and then every file given to [mkimg] can be read under its name, with
    the contents it has on the host.  The segments of the kernel lie above the loaded image, in order
    and apart. *)
Theorem image_boots fuel img skip args datas flist :
  let stop := skip + sectors_of (16 + Z.of_nat (length flist) + Z.of_nat (length (concat datas))) in
  mkimg_input host encode_file_list img skip args datas flist → kernel_input img skip stop →
  NoDup args.*1 → (delay + 2 ≤ fuel)%nat →
  ∃ img', mkimg host encode_file_list img skip args = Ret img' ∧
    ∀ (d : Dev) m n, on_disk (contents (view d)) img' → sectors_ok (contents (view d)) →
      length (ident (view d) 0) = 256%nat → boot_sectors (ident (view d) 0) = Some n →
      Z.of_nat (length img') / 0x200 ≤ n →
      has_bytes m INITRD_SPLIT_SECTOR_PTR (sub_slice img' MBR_POSITION_S (MBR_POSITION_S + 8)) →
      ∃ m' d' elf rd, d7boot fuel m d = Some (Ret (m', d')) ∧
        (∀ ph, ph ∈ elf_segments (kernel_bytes img skip) →
          has_bytes m' (virtual_address ph) (segment_bytes (kernel_bytes img skip) ph)) ∧
        parse_kernel_elf m' = Ret elf ∧ omap id (ph_table elf) = elf_segments (kernel_bytes img skip) ∧
        initrd_init PhysAddr_from_u64 decode_file_list m' elf = Ret rd ∧
        ∀ name path, (name, path) ∈ args → initrd_read rd name = Ret (host path).
Proof.
  intros stop Hin Hk Hnd Hf. exists (made_image img skip flist (concat datas)). split; [by apply mkimg_ok|].
  intros d m n Hd Hok Hid Hn Hcap Hm. destruct (image_boot_image _ _ _ _ _ _ _ Hin Hk) as (Hbi & Hsegs & Hbytes).
  destruct Hin as [Hfs Henc Hh Hs Hr Hsm _ _ _].
  destruct (made_parts img skip flist (concat datas) Hs Hr) as (Hl & Hptr & _). fold stop in Hr, Hptr, Hbi, Hsegs, Hbytes.
  pose proof (sectors_of_bounds (16 + Z.of_nat (length flist) + Z.of_nat (length (concat datas)))) as Hb.
  pose proof (Z.mul_div_le (Z.of_nat (length img)) 0x200 ltac:(lia)) as Hdiv.
  rewrite Hl in Hcap. rewrite Hptr in Hm. apply has_bytes_app in Hm as [Hm1 Hm2]. rewrite to_le_length in Hm2.
  assert (0 ≤ skip < 2 ^ 32 ∧ 6 ≤ stop < 2 ^ 28) as [Hsk Hst] by (unfold stop in *; lia).
  assert (sectors_from (contents (view d)) 0 6 (Z.to_nat (stop - 6)) =
    sub_slice (made_image img skip flist (concat datas)) (SECTOR_SIZE * 6) (Z.to_nat (stop * 0x200))) as Hdata.
  { rewrite (on_disk_sectors _ _ _ Hd); [f_equal; unfold SECTOR_SIZE; lia|]. rewrite Hl.
    apply Nat2Z.inj_le. rewrite Nat2Z.inj_div. unfold SECTOR_SIZE. lia. }
  destruct (boot_hands_over PhysAddr_from_u64 decode_file_list PhysAddr_law fuel m d skip stop n flist (concat datas)
    (entries_of args.*1 datas 0)) as (m' & d' & elf & E & _ & Ep & Et & Es & Ei).
  { by apply has_bytes_le. } { apply has_bytes_le; [done|lia]. } { done. } { done. } { lia. } { lia. } { done. } { done. }
  { rewrite Hdata. exact Hbi. } { by apply decode_law. }
  rewrite Hdata in Et, Es. rewrite Hsegs in Et, Es, Hbytes. exists m', d', elf. eexists. split; [exact E|].
  split; [intros ph Hph; rewrite <- Hbytes by done; by apply Es|]. split; [exact Ep|]. split; [exact Et|].
  split; [exact Ei|]. intros name path Hin.
  apply list_elem_of_lookup in Hin as [i Hi]. destruct (Forall2_lookup_l _ _ _ _ _ Hfs Hi) as (dat & Hdat & Hhost).
  cbn in Hhost. rewrite Hhost. apply (archive_read _ _ i); [done| |by rewrite list_lookup_fmap, Hi|done|lia].
  rewrite length_fmap. by eapply Forall2_length.
Qed.

End boots.

(** ** An image to boot from *)

#[local] Existing Instance ref_drive.
#[local] Existing Instance ref_drive_laws.
#[local] Existing Instance ref_drive_identify.

(** A boot sector with the placeholders, the example program as the kernel, and room. *)
Definition blank_image : list Z :=
  repeat 0 0x1f6 ++ to_le 4 HEADER_MAGIC ++ to_le 4 HEADER_MAGIC ++ [0x55; 0xaa] ++
  repeat 0 (SECTOR_SIZE * 5) ++ to_sector example_image ++ repeat 0 (SECTOR_SIZE * 3).

Definition example_host (path : string) : option (list Z) :=
  if bool_decide (path = "build/a"%string) then Some [7; 8; 9] else None.

#[local] Instance FileEntry_eq_dec : EqDecision FileEntry.
Proof. solve_decision. Defined.

(** A format that has one list of files. *)
Definition example_encode (l : list FileEntry) : option (list Z) :=
  if bool_decide (l = [example_file]) then Some example_flist else None.

Lemma example_input :
  mkimg_input example_host example_encode blank_image 7 [("a", "build/a")]%string [[7; 8; 9]] example_flist.
Proof.
  split; try (vm_compute; reflexivity).
  - repeat constructor.
  - vm_compute. split; reflexivity.
  - lia.
Qed.

Lemma example_kernel_input : kernel_input blank_image 7 8.
Proof.
  split; try (vm_compute; reflexivity).
  - unfold elf_ok. split_and!; try (vm_compute; reflexivity).
    + vm_compute. lia.
    + unfold table_fits. split_and!; vm_compute; (reflexivity || discriminate).
    + vm_compute. lia.
  - vm_compute. discriminate.
  - vm_compute. repeat split; discriminate.
Qed.

(** A drive with an image of ten sectors. *)
Definition image_drive (img : list Z) : @Dev ref_drive :=
  MkAta 0 0 0 0 0 0 [] 0 []
    (λ dr l, if (dr =? 0) && (0 <=? l) && (l <? 10) then sub_slice img (SECTOR_SIZE * Z.to_nat l) (SECTOR_SIZE * S (Z.to_nat l))
             else repeat 0 SECTOR_SIZE)
    (λ dr, if dr =? 0 then replicate 60 0 ++ [10] ++ replicate 195 0 else []).

Lemma image_boots_witness :
  ∃ img' m' d' elf rd, mkimg example_host example_encode blank_image 7 [("a", "build/a")]%string = Ret img' ∧
    d7boot 9 (store (λ _, 0) 0x3000 (sub_slice img' 0x1f6 0x1fe)) (image_drive img') = Some (Ret (m', d')) ∧
    parse_kernel_elf m' = Ret elf ∧ initrd_init (λ a, Ret a) example_decode m' elf = Ret rd ∧
    initrd_read rd "a" = Ret (Some [7; 8; 9]).
Proof.
  destruct (image_boots example_host example_encode example_decode
    ltac:(intros l b; unfold example_encode, example_decode; repeat case_bool_decide; naive_solver)
    (λ a, Ret a) (λ a _, eq_refl) 9 blank_image 7 [("a", "build/a")]%string [[7; 8; 9]] example_flist
    example_input example_kernel_input) as (img' & E & Hall).
  - apply (bool_decide_unpack _). vm_compute. exact I.
  - cbn. lia.
  - assert (length img' = (SECTOR_SIZE * 10)%nat ∧ Forall is_byte img') as [Hlen Hby].
    { revert E. vm_compute. intros [= <-]. split; [reflexivity|]. apply (bool_decide_unpack _). vm_compute. exact I. }
    destruct (Hall (image_drive img') (store (λ _, 0) 0x3000 (sub_slice img' 0x1f6 0x1fe)) 10)
      as (m' & d' & elf & rd & Eb & _ & Ep & _ & Ei & Hr).
    + intros l Hl. rewrite Hlen in Hl. change (SECTOR_SIZE * 10 / SECTOR_SIZE)%nat with 10%nat in Hl.
      cbn [image_drive view ref_drive_laws id contents].
      rewrite (proj2 (Z.leb_le _ _)), (proj2 (Z.ltb_lt _ _)), Nat2Z.id by lia. reflexivity.
    + intros dr l. cbn [image_drive view ref_drive_laws id contents].
      destruct ((dr =? 0) && (0 <=? l) && (l <? 10)) eqn:Ec.
      * apply andb_prop in Ec as [Ec E3]. apply andb_prop in Ec as [_ E2]. apply Z.leb_le in E2. apply Z.ltb_lt in E3.
        split; [rewrite sub_slice_length; unfold SECTOR_SIZE in *; lia|by apply sub_slice_bytes].
      * split; [reflexivity|]. apply (bool_decide_unpack _). vm_compute. exact I.
    + reflexivity.
    + vm_compute. reflexivity.
    + rewrite Hlen. vm_compute. discriminate.
    + apply store_has.
    + exists img', m', d', elf, rd. split; [exact E|]. split; [exact Eb|]. split; [exact Ep|]. split; [exact Ei|].
      apply (Hr "a"%string "build/a"%string). left.
Defined.

(** ** elf2bin *)

Lemma read_int_field f width pos :
  (pos + width ≤ length f)%nat → read_int f width pos = (field f pos width, (pos + width)%nat).
Proof. intros H. unfold read_int, field. rewrite sub_slice_length by lia. do 2 f_equal. lia. Qed.

(** The bytes of the only entry of the table, when it is a loadable segment. *)
Theorem elf2bin_exact f :
  let h := read_header (sub_slice f 0 64) in let ph := program_header f h 0 in
  elf2bin_check_elf f = Ret tt → (64 ≤ length f)%nat → ph_table_entry_count h = 1 → ph_table_entry_size h = 56 →
  0 ≤ ph_table_position h → ph_table_position h + 56 ≤ Z.of_nat (length f) →
  header_type ph = 1 → 0 ≤ offset ph → 0 ≤ size_in_file ph → offset ph + size_in_file ph ≤ Z.of_nat (length f) →
  elf2bin f = Ret (sub_slice f (Z.to_nat (offset ph)) (Z.to_nat (offset ph + size_in_file ph))).
Proof.
  intros h ph Hc H64 Hn Hs Hp Hfit Ht Ho Hz Hof. unfold elf2bin. rewrite Hc. cbn [mbind outcome_bind].
  assert (∀ a n, (a + n ≤ 64)%nat → field f a n = field (sub_slice f 0 64) a n) as Hh
    by (intros a n Ha; symmetry; by apply (field_slice f 0 64)).
  rewrite !read_int_field by lia. cbn [fst]. rewrite !Hh by lia. change (field _ 32 8) with (ph_table_position h).
  change (field _ 56 2) with (ph_table_entry_count h). rewrite Hn. cbn [Z.ltb Z.compare rassert mbind outcome_bind].
  change (Z.to_nat 1) with 1%nat. cbn [read_headers]. set (p := Z.to_nat (ph_table_position h)).
  assert (∀ a n, (a + n ≤ 56)%nat → field f (p + a) n = field (sub_slice f p (p + 56)) a n) as Hf
    by (intros a n Ha; symmetry; by apply field_slice).
  assert (ph = read_program_header (sub_slice f p (p + 56))) as Eph.
  { unfold ph, program_header. rewrite Hs, Z.mul_0_r, Z.add_0_r. done. }
  rewrite (read_int_field f 4 p) by lia. rewrite <- (Nat.add_0_r p) at 1. rewrite Hf by lia.
  replace (field (sub_slice f p (p + 56)) 0 4) with (header_type ph) by (by rewrite Eph). rewrite Ht. cbn [Z.eqb Pos.eqb].
  rewrite (read_int_field f 4 (p + 4)) by lia. rewrite <- !Nat.add_assoc. cbn [Nat.add].
  do 4 (rewrite (read_int_field f 8) by lia; rewrite <- ?Nat.add_assoc; cbn [Nat.add]). rewrite !Hf by lia.
  replace (field (sub_slice f p (p + 56)) 8 8) with (offset ph) by (by rewrite Eph).
  replace (field (sub_slice f p (p + 56)) 32 8) with (size_in_file ph) by (by rewrite Eph).
  do 2 (destruct (read_int f 8 _)).
  assert (take (Z.to_nat (size_in_file ph)) (drop (Z.to_nat (offset ph)) f) =
    sub_slice f (Z.to_nat (offset ph)) (Z.to_nat (offset ph + size_in_file ph))) as -> by (unfold sub_slice; f_equal; lia).
  rewrite sub_slice_length by lia. rewrite (proj2 (Z.eqb_eq _ _)) by lia. done.
Qed.

(** An entry of another type is left after its first field: the next one is read from its middle.
    This image has one loadable segment, which the tool does not see. *)
Definition stack_first_image : list Z :=
  take 64 example_image ++ sub_slice example_image 120 176 ++ sub_slice example_image 64 120 ++ drop 176 example_image.

Theorem elf2bin_out_of_step :
  elf_segments stack_first_image = [example_segment] ∧
  elf2bin stack_first_image = Panic "Only one loadable program header must be present".
Proof. split; vm_compute; reflexivity. Qed.

(** A file that ends before the bytes to be checked passes the checks. *)
Theorem elf2bin_accepts_empty : elf2bin_check_elf [] = Ret tt.
Proof. done. Qed.
