(* ===== verification/Heap.v ===== *)
(** * Heap: the physical allocator's front, the kernel heap and the heap of processes
    (src/memory/phys/allocator.rs, phys/mod.rs, phys/list.rs, src/memory/rust_heap.rs,
    libs/libd7/src/allocator.rs)

    The allocators of the crate [allogator] are interfaces: the buddy allocator keeps track of the
    regions it handed out, the block allocator hands out items of one size from one region.  The
    bookkeeping pages of [AllocationSet] are lists of items.  Log output is left out. *)

From stdpp Require Import base gmap list strings.
From Stdlib Require Import ZArith Lia.
From S2P Require Import Prelude Bytes Ranges Process.
Open Scope Z_scope.

Record Layout := MkLayout { lsize : Z; lalign : Z }.

Definition PAGE_LAYOUT : Layout := MkLayout PAGE_SIZE_BYTES PAGE_SIZE_BYTES.

(** [usize::next_power_of_two] *)
Definition next_power_of_two (n : Z) : Z := 2 ^ Z.log2_up n.

(** ** phys/allocator.rs: [init] *)

(** The block given to the buddy allocator, from the usable ranges; [None] when there is none. *)
Definition phys_blocks (areas : list (option PhysMemoryRange)) : outcome (list (Z * Z)) :=
  foldr (λ area rest,
    match area with
    | None => rest
    | Some a =>
        ptr ← phys_to_virt (start a);
        bs ← rest;
        Ret ((ptr, Z.shiftr (next_power_of_two (stop a - start a)) 1) :: bs)
    end) (Ret []) areas.

Definition phys_init (areas : list (option PhysMemoryRange)) : outcome (option (Z * Z)) :=
  bs ← phys_blocks areas; Ret (head bs).

(** ** The allocators of the crate *)

Class Buddy := {
  Bs : Type;
  buddy_allocate : Layout → Bs → option (Z * Bs);
  buddy_deallocate : Z → Layout → Bs → Bs;
}.

Class BlockLL := {
  Blk : Type;
  block_new : Z → Z → Z → Blk;
  item_size : Blk → Z;
  is_full : Blk → bool;
  allocate_one : Blk → option (Z * Blk);
  block_contains : Blk → Z → bool;
  deallocate_one : Blk → Z → Blk;
}.

Section heap.
Context `{!Buddy} `{!BlockLL}.

(** ** phys/allocator.rs and phys/mod.rs *)

Record PhysAllocation := MkPhysAllocation { a_start : Z; a_layout : Layout }.

Definition undo_offset_ptr (p : Z) : outcome Z :=
  expect (if HIGHER_HALF_START <=? p then Some (p - HIGHER_HALF_START) else None)
    "Inverse phys_to_virt not possible for this address".

Definition phys_allocate (layout : Layout) (b : Bs) : outcome (option PhysAllocation * Bs) :=
  match buddy_allocate layout b with
  | None => Ret (None, b)
  | Some (ia, b) => p ← undo_offset_ptr ia; Ret (Some (MkPhysAllocation p layout), b)
  end.

Definition mapped_start (self : PhysAllocation) : outcome Z := phys_to_virt (a_start self).

Definition from_mapped (start : Z) (layout : Layout) : outcome PhysAllocation :=
  p ← undo_offset_ptr start; Ret (MkPhysAllocation p layout).

Definition PhysAllocation_drop (self : PhysAllocation) (b : Bs) : outcome Bs :=
  p ← mapped_start self;
  let b := buddy_deallocate p (a_layout self) b in
  if a_start self =? 0 then Panic "Douple-drop!" else Ret b.

Definition leak (self : PhysAllocation) : outcome (PhysMemoryRange) :=
  e ← add64 (a_start self) (lsize (a_layout self)); Ret (range (a_start self) e).

(** ** phys/list.rs: a set of items in pages, the newest page first

    [capacity] is how many items fit into a page behind its header. *)

Section set.
Context {T : Type} (capacity : nat).

Fixpoint try_push (pages : list (list T)) (value : T) : outcome (option (list (list T))) :=
  match pages with
  | [] => Ret None
  | page :: pages =>
      _ ← rassert (length page <=? capacity)%nat "assertion failed: *used_items <= capacity";
      if (length page =? capacity)%nat then
        r ← try_push pages value; Ret (option_map (cons page) r)
      else Ret (Some ((page ++ [value]) :: pages))
  end.

Definition set_push (value : T) (st : list (list T) * Bs) : outcome (list (list T) * Bs) :=
  r ← try_push st.1 value;
  match r with
  | Some pages => Ret (pages, st.2)
  | None =>
      '(a, b) ← phys_allocate PAGE_LAYOUT st.2;
      a ← expect a "Out of memory";
      _ ← mapped_start a;
      r ← try_push ([] :: st.1) value;
      match r with
      | Some pages => Ret (pages, b)
      | None => Panic "internal error: entered unreachable code: Push failed after allocating more"
      end
  end.

(** The first item on which [f] returns something, and the item after it. *)
Fixpoint iterate_page {R} (f : T → outcome (option (R * T))) (page : list T) : outcome (option (R * list T)) :=
  match page with
  | [] => Ret None
  | x :: page =>
      r ← f x;
      match r with
      | Some (r, x) => Ret (Some (r, x :: page))
      | None => r ← iterate_page f page; Ret (option_map (λ '(r, page), (r, x :: page)) r)
      end
  end.

Fixpoint iterate_mut_first {R} (f : T → outcome (option (R * T))) (pages : list (list T))
    : outcome (option (R * list (list T))) :=
  match pages with
  | [] => Ret None
  | page :: pages =>
      r ← iterate_page f page;
      match r with
      | Some (r, page) => Ret (Some (r, page :: pages))
      | None => r ← iterate_mut_first f pages; Ret (option_map (λ '(r, pages), (r, page :: pages)) r)
      end
  end.

End set.

(** ** rust_heap.rs *)

Definition MIN_ALLOC : Z := 8.
Definition MIN_BUDDY : Z := 0x100000.

(** The pages of block allocators, and the buddy allocator behind them. *)
Definition HeapState : Type := list (list Blk) * Bs.

Context (capacity : nat).

Definition SmallAlloc_allocate (size : Z) (st : HeapState) : outcome (Z * HeapState) :=
  let size := next_power_of_two size in
  found ← iterate_mut_first (λ block_ll,
    if (item_size block_ll =? size) && negb (is_full block_ll) then
      '(p, block_ll) ← unwrap (allocate_one block_ll); Ret (Some (p, block_ll))
    else Ret None) st.1;
  match found with
  | Some (r, pages) => Ret (r, (pages, st.2))
  | None =>
      '(a, b) ← phys_allocate PAGE_LAYOUT st.2;
      allocation ← expect a "Failed to allocate";
      ptr ← mapped_start allocation;
      '(result, block_ll) ← unwrap (allocate_one (block_new ptr (lsize (a_layout allocation)) size));
      st ← set_push capacity block_ll (st.1, b);
      Ret (result, st)
  end.

Definition SmallAlloc_deallocate (ptr size : Z) (st : HeapState) : outcome HeapState :=
  r ← iterate_mut_first (λ block_ll,
    if (item_size block_ll =? size) && block_contains block_ll ptr then
      Ret (Some (tt, deallocate_one block_ll ptr))
    else Ret None) st.1;
  Ret (match r with Some (_, pages) => (pages, st.2) | None => st end).

Definition request_size (layout : Layout) : Z := Z.max (Z.max (lsize layout) (lalign layout)) MIN_ALLOC.

Definition GlobAlloc_alloc (layout : Layout) (st : HeapState) : outcome (Z * HeapState) :=
  let req := request_size layout in
  if MIN_BUDDY <=? req then
    '(a, b) ← phys_allocate layout st.2;
    allocation ← expect a "Rust heap alloc failed";
    rptr ← mapped_start allocation;
    Ret (rptr, (st.1, b))
  else SmallAlloc_allocate req st.

Definition GlobAlloc_dealloc (ptr : Z) (layout : Layout) (st : HeapState) : outcome HeapState :=
  let req := request_size layout in
  if MIN_BUDDY <=? req then
    a ← from_mapped ptr layout;
    b ← PhysAllocation_drop a st.2;
    Ret (st.1, b)
  else SmallAlloc_deallocate ptr req st.

End heap.

(** ** What the allocators of the crate promise *)

(** Regions, as an address and a size. *)
Definition separate (r1 r2 : Z * Z) : Prop := r1.1 + r1.2 ≤ r2.1 ∨ r2.1 + r2.2 ≤ r1.1.
Definition within (r1 r2 : Z * Z) : Prop := r2.1 ≤ r1.1 ∧ r1.1 + r1.2 ≤ r2.1 + r2.2.

Fixpoint pairwise (rs : list (Z * Z)) : Prop :=
  match rs with [] => True | r :: rs => Forall (separate r) rs ∧ pairwise rs end.

(** [tracks b rs]: the regions handed out and not returned are [rs]. *)
Class BuddyLaws `{!Buddy} := {
  tracks : Bs → list (Z * Z) → Prop;
  law_tracks_perm b rs rs' : rs ≡ₚ rs' → tracks b rs → tracks b rs';
  law_tracks_separate b rs : tracks b rs → pairwise rs;
  law_tracks_high b rs : tracks b rs → Forall (λ r, HIGHER_HALF_START < r.1 < u64_size) rs;
  law_buddy_allocate l b b' p rs :
    tracks b rs → buddy_allocate l b = Some (p, b') → tracks b' ((p, lsize l) :: rs);
  law_buddy_deallocate l b p rs : tracks b ((p, lsize l) :: rs) → tracks (buddy_deallocate p l b) rs;
}.

Class BlockLaws `{!BlockLL} := {
  items : Blk → list Z;
  block_range : Blk → Z * Z;
  law_new p len size : 0 < size ≤ len → let b := block_new p len size in
    items b = [] ∧ item_size b = size ∧ block_range b = (p, len) ∧ is_full b = false;
  law_allocate_one b : is_full b = false → ∃ p b', allocate_one b = Some (p, b') ∧
    items b' = p :: items b ∧ item_size b' = item_size b ∧ block_range b' = block_range b ∧
    within (p, item_size b) (block_range b) ∧ Forall (λ q, separate (p, item_size b) (q, item_size b)) (items b);
  law_deallocate_one b p its : items b ≡ₚ p :: its → let b' := deallocate_one b p in
    items b' ≡ₚ its ∧ item_size b' = item_size b ∧ block_range b' = block_range b;
  law_contains b p : block_contains b p = true ↔ (block_range b).1 ≤ p < (block_range b).1 + (block_range b).2;
}.

(** ** Lemmas on regions *)

Lemma separate_sym r1 r2 : separate r1 r2 → separate r2 r1.
Proof. unfold separate. tauto. Qed.

Lemma separate_within r1 r2 s : separate r2 s → within r1 r2 → separate r1 s.
Proof. unfold separate, within. lia. Qed.

Lemma pairwise_app l1 l2 :
  pairwise (l1 ++ l2) ↔ pairwise l1 ∧ pairwise l2 ∧ ∀ x y, x ∈ l1 → y ∈ l2 → separate x y.
Proof.
  induction l1 as [|x l1 IH]; cbn [app pairwise].
  { split; [intros H; split_and!; [done|done|]; intros ? ? Hx; by apply not_elem_of_nil in Hx|tauto]. }
  rewrite Forall_app, IH. split.
  - intros [[H1 H2] (H3 & H4 & H5)]. split_and!; [done|done|done|].
    intros a b [->|Ha]%elem_of_cons Hb; [|by apply H5]. by eapply Forall_forall in H2.
  - intros ([H1 H2] & H3 & H4). split_and!; [done| |done|done|].
    + apply Forall_forall. intros y Hy. apply H4; [by left|done].
    + intros a b Ha Hb. apply H4; [by right|done].
Qed.

(** The middle element is separate from the others. *)
Lemma pairwise_middle l1 x l2 :
  pairwise (l1 ++ x :: l2) → ∀ y, y ∈ l1 ++ l2 → separate x y.
Proof.
  rewrite pairwise_app. cbn [pairwise]. intros (_ & [Hx _] & H) y [Hy|Hy]%elem_of_app.
  - apply separate_sym, H; [done|by left].
  - by eapply Forall_forall in Hx.
Qed.

(** ** Lemmas on the set *)

Section set_lemmas.
Context {T R : Type} (f : T → outcome (option (R * T))).

(** How a search ends: nothing found, or one item replaced. *)
Inductive searched {A} (flat : A → list T) (l : A) : outcome (option (R * A)) → Prop :=
| searched_none : Forall (λ x, f x = Ret None) (flat l) → searched flat l (Ret None)
| searched_some r l' l1 x x' l2 :
    flat l = l1 ++ x :: l2 → flat l' = l1 ++ x' :: l2 → f x = Ret (Some (r, x')) →
    Forall (λ x, f x = Ret None) l1 → searched flat l (Ret (Some (r, l'))).

Lemma iterate_page_spec page :
  Forall (λ x, ∃ o, f x = Ret o) page → searched id page (iterate_page f page).
Proof.
  induction page as [|x page IH]; intros Hf; cbn [iterate_page]; [by constructor|].
  apply Forall_cons in Hf as [[o Ho] Hf]. rewrite Ho. cbn [mbind outcome_bind]. destruct o as [[r x']|].
  - by eapply (searched_some _ _ r _ [] x x' page).
  - destruct (IH Hf) as [Hn|r l' l1 y y' l2 E E' Hy Hn]; cbn [mbind outcome_bind option_map].
    + constructor. by constructor.
    + eapply (searched_some _ _ r _ (x :: l1) y y' l2); cbn in *; [by rewrite E|by rewrite E'|done|by constructor].
Qed.

Lemma iterate_spec pages :
  Forall (λ x, ∃ o, f x = Ret o) (concat pages) → searched (@concat T) pages (iterate_mut_first f pages).
Proof.
  induction pages as [|page pages IH]; intros Hf; cbn [iterate_mut_first]; [by constructor|].
  cbn [concat] in Hf. apply Forall_app in Hf as [Hp Hf].
  destruct (iterate_page_spec page Hp) as [Hn|r l' l1 y y' l2 E E' Hy Hn]; cbn [mbind outcome_bind option_map].
  - destruct (IH Hf) as [Hn2|r l' l1 y y' l2 E E' Hy Hn2]; cbn [mbind outcome_bind option_map].
    + constructor. cbn [concat]. by apply Forall_app.
    + eapply (searched_some _ _ r _ (page ++ l1) y y' l2); cbn [concat];
        [by rewrite E, app_assoc|by rewrite E', app_assoc|done|by apply Forall_app].
  - cbn in E, E'. subst. eapply (searched_some _ _ r _ l1 y y' (l2 ++ concat pages)); cbn [concat];
      [by rewrite <- app_assoc|by rewrite <- app_assoc|done|done].
Qed.

Lemma iterate_page_length page r page' :
  iterate_page f page = Ret (Some (r, page')) → length page' = length page.
Proof.
  revert page'. induction page as [|x page IH]; intros page' E; cbn [iterate_page] in E; [done|].
  destruct (f x) as [[[r0 x']|]|]; cbn [mbind outcome_bind] in E; [by injection E as <- <-| |done].
  destruct (iterate_page f page) as [[[r0 page0]|]|]; cbn [mbind outcome_bind option_map] in E; [|done|done].
  injection E as -> <-. cbn [length]. by rewrite IH.
Qed.

Lemma iterate_lengths pages r pages' :
  iterate_mut_first f pages = Ret (Some (r, pages')) → length <$> pages' = length <$> pages.
Proof.
  revert pages'. induction pages as [|page pages IH]; intros pages' E; cbn [iterate_mut_first] in E; [done|].
  destruct (iterate_page f page) as [[[r0 page0]|]|] eqn:Ep; cbn [mbind outcome_bind] in E; [| |done].
  - injection E as -> <-. rewrite !fmap_cons. f_equal. by eapply iterate_page_length.
  - destruct (iterate_mut_first f pages) as [[[r0 pages0]|]|]; cbn [mbind outcome_bind option_map] in E; [|done|done].
    injection E as -> <-. rewrite !fmap_cons. f_equal. by apply IH.
Qed.

(** The pages stay as long as they were. *)
Lemma iterate_pages capacity pages r pages' :
  iterate_mut_first f pages = Ret (Some (r, pages')) → Forall (λ pg, length pg ≤ capacity)%nat pages →
  Forall (λ pg, length pg ≤ capacity)%nat pages'.
Proof.
  intros E H. apply iterate_lengths in E.
  assert (Forall (λ n, n ≤ capacity)%nat (length <$> pages')) as Hf by (rewrite E; by apply Forall_fmap).
  by apply Forall_fmap in Hf.
Qed.

End set_lemmas.

Lemma try_push_spec {T} capacity (pages : list (list T)) v :
  Forall (λ pg, length pg ≤ capacity)%nat pages →
  ∃ o, try_push capacity pages v = Ret o ∧
    match o with
    | Some pages' => concat pages' ≡ₚ v :: concat pages ∧ Forall (λ pg, length pg ≤ capacity)%nat pages'
    | None => Forall (λ pg, length pg = capacity) pages
    end.
Proof.
  induction pages as [|pg pages IH]; intros Hc; cbn [try_push]; [by exists None|].
  apply Forall_cons in Hc as [Hp Hc]. rewrite (proj2 (Nat.leb_le _ _)) by done. cbn [rassert mbind outcome_bind].
  destruct (Nat.eqb_spec (length pg) capacity).
  - destruct (IH Hc) as (o & -> & Ho). cbn [mbind outcome_bind]. eexists. split; [done|].
    destruct o as [pages'|]; cbn [option_map]; [|by constructor]. destruct Ho as [H1 H2]. cbn [concat].
    split; [|by constructor]. rewrite H1. by rewrite Permutation_middle.
  - eexists. split; [done|]. cbn [concat]. split.
    + rewrite <- app_assoc. cbn. by rewrite <- Permutation_middle.
    + constructor; [rewrite length_app; cbn; lia|done].
Qed.

(** ** The kernel heap *)

Section correctness.
Context `{!Buddy} `{!BlockLL} `{!BuddyLaws} `{!BlockLaws} (capacity : nat).
Hypothesis Hcap : (0 < capacity)%nat.

Definition live_of (b : Blk) : list (Z * Z) := (λ p, (p, item_size b)) <$> items b.

(** The regions in use: items of blocks, and [bigs], which come from the buddy allocator. *)
Definition live (st : HeapState) (bigs : list (Z * Z)) : list (Z * Z) :=
  concat (live_of <$> concat st.1) ++ bigs.

Definition is_pow2 (n : Z) : Prop := ∃ k, 0 ≤ k ∧ n = 2 ^ k.

Definition block_ok (b : Blk) : Prop :=
  is_pow2 (item_size b) ∧ Forall (λ p, within (p, item_size b) (block_range b)) (items b).

(** The buddy allocator tracks the ranges of the blocks, the large regions and the pages of the set
    ([meta]). *)
Record heap_inv (st : HeapState) (bigs meta : list (Z * Z)) : Prop := {
  hi_tracks : tracks st.2 ((block_range <$> concat st.1) ++ bigs ++ meta);
  hi_blocks : Forall block_ok (concat st.1);
  hi_pages : Forall (λ pg, length pg ≤ capacity)%nat st.1;
}.

Lemma next_power_spec n :
  0 < n → is_pow2 (next_power_of_two n) ∧ n ≤ next_power_of_two n.
Proof.
  intros Hn. unfold next_power_of_two. split; [exists (Z.log2_up n); split; [apply Z.log2_up_nonneg|done]|].
  by apply Z.log2_log2_up_spec.
Qed.

Lemma next_power_bound n k : 0 ≤ k → n ≤ 2 ^ k → next_power_of_two n ≤ 2 ^ k.
Proof.
  intros Hk Hn. unfold next_power_of_two. apply Z.pow_le_mono_r; [lia|].
  rewrite <- (Z.log2_up_pow2 k) by done. by apply Z.log2_up_le_mono.
Qed.

Lemma phys_allocate_spec l b rs :
  tracks b rs →
  phys_allocate l b = Ret (None, b) ∧ buddy_allocate l b = None ∨
  ∃ a b' p, phys_allocate l b = Ret (Some a, b') ∧ mapped_start a = Ret p ∧ a_layout a = l ∧
    tracks b' ((p, lsize l) :: rs).
Proof.
  intros Ht. unfold phys_allocate. destruct (buddy_allocate l b) as [[p b']|] eqn:E; [right|by left].
  pose proof (law_buddy_allocate _ _ _ _ _ Ht E) as Ht'.
  pose proof (law_tracks_high _ _ Ht') as [Hp _]%Forall_cons. cbn in Hp. unfold undo_offset_ptr.
  rewrite (proj2 (Z.leb_le HIGHER_HALF_START p)) by lia. cbn [expect mbind outcome_bind].
  eexists _, b', p. split; [done|]. split; [|done]. unfold mapped_start, phys_to_virt. cbn [a_start].
  replace (HIGHER_HALF_START + (p - HIGHER_HALF_START)) with p by lia. by rewrite (proj2 (Z.ltb_lt p u64_size)) by lia.
Qed.

(** A region inside the range of one block is separate from what is live elsewhere. *)
Lemma block_fresh l1 x l2 rest p n :
  pairwise ((block_range <$> (l1 ++ x :: l2)) ++ rest) → Forall block_ok (l1 ++ l2) →
  within (p, n) (block_range x) → Forall (separate (p, n)) (concat (live_of <$> (l1 ++ l2)) ++ rest).
Proof.
  intros Hp Hb Hw. rewrite fmap_app, fmap_cons, <- app_assoc in Hp. cbn [app] in Hp.
  pose proof (pairwise_middle _ _ _ Hp) as Hm. apply Forall_app. split; apply Forall_forall.
  - intros r Hr. apply elem_of_concat in Hr as (rs & Hrs & Hr). apply list_elem_of_fmap in Hrs as (y & -> & Hy).
    unfold live_of in Hr. apply list_elem_of_fmap in Hr as (q & -> & Hq).
    eapply Forall_forall in Hb as [_ Hb]; [|exact Hy]. eapply Forall_forall in Hb; [|exact Hq].
    eapply separate_within; [|exact Hw]. apply separate_sym. eapply separate_within; [|exact Hb].
    apply separate_sym, Hm. rewrite !elem_of_app in *. destruct Hy as [Hy|Hy]; [left|right; left]; by apply list_elem_of_fmap_2.
  - intros r Hr. eapply separate_within; [|exact Hw]. apply Hm. rewrite !elem_of_app. auto.
Qed.

Lemma live_middle l1 x l2 : concat (live_of <$> (l1 ++ x :: l2)) ≡ₚ live_of x ++ concat (live_of <$> (l1 ++ l2)).
Proof. rewrite !fmap_app, fmap_cons, !concat_app. cbn [concat]. rewrite !app_assoc. f_equiv. apply Permutation_app_comm. Qed.

(** The result of an allocation: a region of at least [size] bytes, separate from all others. *)
Definition allocated (size : Z) (st : HeapState) (bigs meta : list (Z * Z)) (p : Z) (st' : HeapState) : Prop :=
  ∃ n bigs' meta', size ≤ n ∧ Forall (separate (p, n)) (live st bigs) ∧
    live st' bigs' ≡ₚ (p, n) :: live st bigs ∧ heap_inv st' bigs' meta'.

(** An item of a block that is in the set, or goes into it. *)
Lemma allocate_in_block l1 x l2 bigs meta p x' b pages :
  tracks b ((block_range <$> (l1 ++ x :: l2)) ++ bigs ++ meta) → Forall block_ok (l1 ++ x :: l2) →
  allocate_one x = Some (p, x') → is_full x = false → concat pages ≡ₚ l1 ++ x' :: l2 →
  Forall (λ pg, length pg ≤ capacity)%nat pages →
  Forall (separate (p, item_size x)) (concat (live_of <$> (l1 ++ x :: l2)) ++ bigs) ∧
  live (pages, b) bigs ≡ₚ (p, item_size x) :: concat (live_of <$> (l1 ++ x :: l2)) ++ bigs ∧
  heap_inv (pages, b) bigs meta.
Proof.
  intros Ht Hb Ha Hf Hc Hpg. destruct (law_allocate_one x Hf) as (q & y & Ea & Hi & Hs & Hr & Hw & Hsep).
  rewrite Ha in Ea. injection Ea as <- <-. apply Forall_app in Hb as [Hb1 Hb2]. apply Forall_cons in Hb2 as [[Hp2 Hit] Hb2].
  split; [|split].
  - rewrite live_middle, <- app_assoc, Forall_app. split.
    + unfold live_of. by rewrite Forall_fmap.
    + pose proof (law_tracks_separate _ _ Ht) as Hpw. rewrite (assoc_L (++)) in Hpw. apply pairwise_app in Hpw as [Hpw _].
      apply (block_fresh l1 x l2 bigs); [done|by apply Forall_app|done].
  - unfold live. cbn [fst]. rewrite Hc, live_middle, live_middle. unfold live_of at 1 3. rewrite Hi, Hs. done.
  - split; cbn [fst snd]; [|rewrite Hc|done].
    + eapply law_tracks_perm; [|exact Ht]. rewrite Hc, !fmap_app, !fmap_cons, Hr. done.
    + apply Forall_app. split; [done|]. constructor; [|done]. split; [by rewrite Hs|]. rewrite Hi, Hs, Hr. by constructor.
Qed.

(** The set grows by a page when all its pages are full. *)
Lemma set_push_spec v (st : HeapState) rs :
  tracks st.2 rs → Forall (λ pg, length pg ≤ capacity)%nat st.1 →
  set_push capacity v st = Panic "Out of memory" ∨
  ∃ pages b new, set_push capacity v st = Ret (pages, b) ∧ concat pages ≡ₚ v :: concat st.1 ∧
    Forall (λ pg, length pg ≤ capacity)%nat pages ∧ tracks b (new ++ rs).
Proof.
  intros Ht Hp. unfold set_push. destruct (try_push_spec capacity st.1 v Hp) as (o & -> & Ho).
  cbn [mbind outcome_bind]. destruct o as [pages|]; [right; destruct Ho; by exists pages, st.2, []|].
  destruct (phys_allocate_spec PAGE_LAYOUT st.2 rs Ht) as [[-> _]|(a & b' & p & -> & Hm & _ & Ht')];
    cbn [mbind outcome_bind expect]; [by left|right]. rewrite Hm. cbn [mbind outcome_bind].
  cbn [try_push length]. rewrite (proj2 (Nat.leb_le 0 capacity)) by lia. cbn [rassert mbind outcome_bind].
  destruct (Nat.eqb_spec 0 capacity); [lia|]. cbn [mbind outcome_bind app].
  eexists _, b', [_]. split; [done|]. split; [done|]. split; [constructor; [cbn; lia|done]|exact Ht'].
Qed.

(** What panics mean: memory has run out. *)
Definition out_of_memory (why : string) : Prop :=
  why = "Failed to allocate"%string ∨ why = "Out of memory"%string ∨ why = "Rust heap alloc failed"%string.

Lemma small_allocate_spec size st bigs meta :
  heap_inv st bigs meta → 0 < size < MIN_BUDDY →
  match SmallAlloc_allocate capacity size st with
  | Ret (p, st') => allocated size st bigs meta p st'
  | Panic why => out_of_memory why
  end.
Proof.
  intros [Ht Hb Hp] Hs. unfold SmallAlloc_allocate. destruct (next_power_spec size) as [Hpow Hle]; [lia|].
  assert (next_power_of_two size ≤ 2 ^ 20) as Hub by (apply next_power_bound; [lia|unfold MIN_BUDDY in Hs; lia]).
  set (n := next_power_of_two size) in *. cbv zeta.
  match goal with |- context [iterate_mut_first ?g _] => set (f := g) end.
  assert (∀ x, f x = Ret None ∨ ∃ p x', f x = Ret (Some (p, x')) ∧ item_size x = n ∧ is_full x = false ∧
    allocate_one x = Some (p, x')) as Hf.
  { intros x. unfold f. destruct (Z.eqb_spec (item_size x) n), (is_full x) eqn:Efull; cbn [andb negb]; auto.
    destruct (law_allocate_one x Efull) as (p & x' & Ea & _). rewrite Ea. cbn. right. by exists p, x'. }
  pose proof (iterate_pages f capacity st.1) as Hpages.
  destruct (iterate_spec f st.1) as [_|r pages l1 x x' l2 E E' Hx _].
  { apply Forall_forall. intros x _. destruct (Hf x) as [-> |(p & x' & -> & _)]; eauto. }
  - cbn [mbind outcome_bind]. destruct (phys_allocate_spec PAGE_LAYOUT st.2 _ Ht) as [[-> _]|(a & b' & p & -> & Hm & Hal & Ht')];
      cbn [mbind outcome_bind expect]; [by left|]. rewrite Hm, Hal. cbn [mbind outcome_bind lsize PAGE_LAYOUT].
    destruct (law_new p PAGE_SIZE_BYTES n) as (Hi & Hz & Hr & Hf0); [unfold PAGE_SIZE_BYTES; destruct Hpow as (k & Hk & ->); lia|].
    set (x := block_new p PAGE_SIZE_BYTES n) in *. destruct (law_allocate_one x Hf0) as (q & x' & Ea & _). rewrite Ea.
    cbn [unwrap expect mbind outcome_bind].
    destruct (set_push_spec x' (st.1, b') _ Ht' Hp) as [-> |(pages & b & new & -> & Hc & Hpg & Ht2)];
      cbn [mbind outcome_bind]; [by right; left|]. cbn [fst snd] in *.
    destruct (allocate_in_block [] x (concat st.1) bigs (new ++ meta) q x' b pages) as (Hsep1 & Hlive & Hinv); [| |done..|].
    { eapply law_tracks_perm; [|exact Ht2]. cbn [app]. rewrite fmap_cons, Hr. cbn [app]. solve_Permutation. }
    { constructor; [|done]. split; [by rewrite Hz|]. by rewrite Hi. }
    exists n, bigs, (new ++ meta). cbn [app] in Hsep1, Hlive. rewrite fmap_cons in Hsep1, Hlive. cbn [concat] in Hsep1, Hlive.
    assert (live_of x = []) as El by (unfold live_of; by rewrite Hi). rewrite El, Hz in Hsep1, Hlive. by split_and!.
  - cbn [mbind outcome_bind]. destruct (Hf x) as [Hn|(p & x0 & Hx' & Hz & Hfull & Ea)]; [congruence|].
    rewrite Hx in Hx'. injection Hx' as <- <-. rewrite E in Ht, Hb. exists n, bigs, meta.
    destruct (allocate_in_block l1 x l2 bigs meta r x' st.2 pages) as (Hsep1 & Hlive & Hinv); [done|done|done|done|by rewrite E'| |].
    { by eapply Hpages. }
    rewrite <- E, Hz in *. by split_and!.
Qed.

(** C18: the kernel heap never hands out memory that is in use: from a heap in which the buddy
    allocator tracks the blocks, the large regions and the pages of the set, an allocation returns a
    region of at least the size asked for that is separate from every region in use, adds exactly
    this region to those in use and keeps the heap in order; it panics only when the buddy allocator
    has no memory left. *)
Theorem heap_alloc_fresh layout st bigs meta :
  heap_inv st bigs meta → 0 ≤ lsize layout →
  match GlobAlloc_alloc capacity layout st with
  | Ret (p, st') => allocated (lsize layout) st bigs meta p st'
  | Panic why => out_of_memory why
  end.
Proof.
  intros Hinv Hs. unfold GlobAlloc_alloc. destruct (Z.leb_spec MIN_BUDDY (request_size layout)).
  - destruct Hinv as [Ht Hb Hp].
    destruct (phys_allocate_spec layout st.2 _ Ht) as [[-> _]|(a & b' & p & -> & Hm & _ & Ht')];
      cbn [mbind outcome_bind expect]; [by right; right|]. rewrite Hm. cbn [mbind outcome_bind].
    exists (lsize layout), ((p, lsize layout) :: bigs), meta. split; [done|]. split; [|split; [|split; [|done..]]].
    + pose proof (law_tracks_separate _ _ Ht') as [Hsep _]. rewrite (assoc_L (++)), Forall_app in Hsep.
      destruct Hsep as [[Hr Hbg]%Forall_app _]. apply Forall_app. split; [|done].
      apply Forall_forall. intros r Hin. apply elem_of_concat in Hin as (rs & Hrs & Hin).
      apply list_elem_of_fmap in Hrs as (y & -> & Hy). unfold live_of in Hin. apply list_elem_of_fmap in Hin as (q & -> & Hq).
      eapply Forall_forall in Hb as [_ Hb]; [|exact Hy]. eapply Forall_forall in Hb; [|exact Hq].
      apply separate_sym. eapply separate_within; [|exact Hb]. apply separate_sym.
      eapply Forall_forall in Hr; [exact Hr|]. by apply list_elem_of_fmap_2.
    + unfold live. cbn [fst]. by rewrite <- Permutation_middle.
    + cbn [fst snd]. eapply law_tracks_perm; [|exact Ht']. cbn [app]. by rewrite <- Permutation_middle.
  - pose proof (small_allocate_spec (request_size layout) st bigs meta Hinv) as Hspec.
    unfold request_size, MIN_ALLOC, MIN_BUDDY in *. specialize (Hspec ltac:(lia)).
    destruct (SmallAlloc_allocate _ _ _) as [[p st']|why]; [|done].
    destruct Hspec as (n & bigs' & meta' & Hn & Hrest). exists n, bigs', meta'. split; [lia|done].
Qed.

(** ** Returning memory *)

(** A block finds its own items: its range is separate from those of the others. *)
Lemma range_unique l rest x y p :
  pairwise ((block_range <$> l) ++ rest) → x ∈ l → y ∈ l →
  block_contains x p = true → block_contains y p = true → x = y.
Proof.
  intros Hp Hx Hy Hcx Hcy. apply law_contains in Hcx, Hcy. apply list_elem_of_split in Hx as (l1 & l2 & ->).
  rewrite fmap_app, fmap_cons, <- app_assoc in Hp. pose proof (pairwise_middle _ _ _ Hp) as Hm.
  apply elem_of_app in Hy as [Hy|[->|Hy]%elem_of_cons]; [|done|];
    (assert (separate (block_range x) (block_range y)) as Hsep;
     [apply Hm; rewrite !elem_of_app; eauto using list_elem_of_fmap_2|unfold separate in Hsep; lia]).
Qed.

(** Freeing an item under the size of its block takes exactly this item out of use. *)
Theorem heap_dealloc_small p layout st bigs meta x its :
  heap_inv st bigs meta → request_size layout < MIN_BUDDY → x ∈ concat st.1 →
  item_size x = request_size layout → items x ≡ₚ p :: its →
  ∃ st', GlobAlloc_dealloc p layout st = Ret st' ∧ heap_inv st' bigs meta ∧
    live st bigs ≡ₚ (p, request_size layout) :: live st' bigs.
Proof.
  intros [Ht Hb Hp] Hr Hx Hz Hi. unfold GlobAlloc_dealloc. rewrite (proj2 (Z.leb_gt MIN_BUDDY _)) by done.
  assert (0 < request_size layout) as Hpos by (unfold request_size, MIN_ALLOC; lia).
  assert (block_contains x p = true) as Hc.
  { eapply Forall_forall in Hb as [_ Hw]; [|exact Hx]. rewrite Hi in Hw. apply Forall_cons in Hw as [[Hw1 Hw2] _].
    apply law_contains. cbn in Hw1, Hw2. lia. }
  unfold SmallAlloc_deallocate. match goal with |- context [iterate_mut_first ?g _] => set (f := g) end.
  pose proof (iterate_pages f capacity st.1) as Hpages.
  destruct (iterate_spec f st.1) as [Hn|r pages l1 y y' l2 E E' Hy _].
  { apply Forall_forall. intros y _. unfold f. destruct (_ && _); eauto. }
  { eapply Forall_forall in Hn; [|exact Hx]. unfold f in Hn. by rewrite Hz, Z.eqb_refl, Hc in Hn. }
  cbn [mbind outcome_bind]. unfold f in Hy. destruct (Z.eqb_spec (item_size y) (request_size layout)); [|done].
  destruct (block_contains y p) eqn:Hcy; [|done]. cbn [andb] in Hy. injection Hy as <- <-.
  assert (x = y) as <-.
  { eapply range_unique; [apply (law_tracks_separate _ _ Ht)|done| |done|done]. rewrite E. apply elem_of_app. right. left. }
  destruct (law_deallocate_one x p its Hi) as (Hi' & Hz' & Hr'). exists (pages, st.2). split; [done|].
  rewrite E in Ht, Hb. apply Forall_app in Hb as [Hb1 [[Hpw Hit] Hb2]%Forall_cons]. split; [split; cbn [fst snd]|].
  - rewrite E', fmap_app, fmap_cons, Hr'. by rewrite fmap_app, fmap_cons in Ht.
  - rewrite E'. apply Forall_app. split; [done|]. constructor; [|done]. split; [by rewrite Hz'|].
    rewrite Hi', Hz', Hr'. rewrite Hi in Hit. by apply Forall_cons in Hit as [_ Hit].
  - by eapply Hpages.
  - unfold live. cbn [fst]. rewrite E, E', !live_middle. unfold live_of at 1 3. rewrite Hi, Hi', Hz'. cbn. by rewrite Hz.
Qed.

(** What the heap does with memory that is returned under a size that is no power of two: nothing.
    [allocate] rounds the size up and [deallocate] compares it as it is, so no block is found. *)
Theorem heap_leaks p layout st bigs meta :
  heap_inv st bigs meta → request_size layout < MIN_BUDDY → ¬ is_pow2 (request_size layout) →
  GlobAlloc_dealloc p layout st = Ret st.
Proof.
  intros [_ Hb _] Hr Hn. unfold GlobAlloc_dealloc. rewrite (proj2 (Z.leb_gt MIN_BUDDY _)) by done.
  unfold SmallAlloc_deallocate. match goal with |- context [iterate_mut_first ?g _] => set (f := g) end.
  assert (Forall (λ x, f x = Ret None) (concat st.1)) as Hf.
  { eapply Forall_impl; [exact Hb|]. intros x [Hx _]. unfold f.
    destruct (Z.eqb_spec (item_size x) (request_size layout)) as [E|]; [|done]. by rewrite E in Hx. }
  destruct (iterate_spec f st.1) as [_|r pages l1 x x' l2 E _ Hx _]; [eapply Forall_impl; [exact Hf|cbn; eauto]|done|].
  rewrite E in Hf. apply Forall_app in Hf as [_ [Hf _]%Forall_cons]. congruence.
Qed.

End correctness.

(** ** phys/allocator.rs: the block that is used *)

(** The block lies in the first usable range; of a range whose size is a power of two it is only the
    first half, and the other ranges are not used. *)
Theorem phys_init_block a rest p len :
  0 < stop a - start a → phys_init (Some a :: rest) = Ret (Some (p, len)) →
  p = HIGHER_HALF_START + start a ∧ 0 ≤ len < stop a - start a ∧
  (∀ k, 0 < k → stop a - start a = 2 ^ k → len = 2 ^ (k - 1)).
Proof.
  intros Hpos E. unfold phys_init in E. cbn [phys_blocks foldr] in E. fold (phys_blocks rest) in E.
  unfold phys_to_virt in E. destruct (_ <? _); [|done]. cbn [expect mbind outcome_bind] in E.
  destruct (phys_blocks rest) as [bs|]; [|done]. cbn [mbind outcome_bind head] in E. injection E as <- <-.
  unfold next_power_of_two. set (n := stop a - start a) in *. rewrite Z.shiftr_div_pow2 by lia. change (2 ^ 1) with 2.
  split; [done|]. split.
  - destruct (decide (n = 1)) as [-> |]; [done|]. destruct (Z.log2_up_spec n) as [Hlt _]; [lia|].
    pose proof (Z.log2_up_pos n ltac:(lia)) as Hl. rewrite <- (Z.succ_pred (Z.log2_up n)), Z.pow_succ_r by lia.
    rewrite Z.mul_comm, Z.div_mul by lia. split; [apply Z.pow_nonneg; lia|done].
  - intros k Hk ->. rewrite Z.log2_up_pow2 by lia. replace k with (Z.succ (k - 1)) at 1 by lia.
    rewrite Z.pow_succ_r, Z.mul_comm, Z.div_mul by lia. done.
Qed.

(** ** libd7/src/allocator.rs: the heap of a process *)

Definition PROCESS_DYNAMIC_MEMORY : Z := 0x10000000000.

Definition is_power_of_two (n : Z) : bool := (0 <? n) && (2 ^ Z.log2 n =? n).

Definition user_align_down (addr align : Z) : outcome Z :=
  if is_power_of_two align then Ret (Z.land addr (Z.lnot (align - 1)))
  else if align =? 0 then Ret addr
  else Panic "`align` must be a power of 2".

Definition user_align_up (addr align : Z) : outcome Z := user_align_down (wrap64 (addr + align - 1)) align.

Record BlockAllocator := MkUserHeap { used_bytes : Z; capacity_bytes : Z; waterline : Z }.

Definition BlockAllocator_new : BlockAllocator := MkUserHeap 0 0 PROCESS_DYNAMIC_MEMORY.
Definition available_capacity_bytes (self : BlockAllocator) : Z := wrap64 (capacity_bytes self - used_bytes self).

(** [next_multiple_of(0x20_0000)] *)
Definition next_multiple (n : Z) : Z := (n + 0x200000 - 1) / 0x200000 * 0x200000.

Section user.
Context {S : Type} (mem_alloc : Z → Z → S → option S).

(** [allocate]: the address and the length of the slice, or [Err] when the system call fails. *)
Definition user_allocate (layout : Layout) (st : BlockAllocator * S)
    : outcome (result (Z * Z) unit * (BlockAllocator * S)) :=
  let '(ba, s) := st in
  start_addr ← user_align_up (PROCESS_DYNAMIC_MEMORY + used_bytes ba) (lalign layout);
  let required_size := wrap64 (lsize layout + lalign layout) in
  let grown :=
    if available_capacity_bytes ba <? required_size then
      let more := required_size - available_capacity_bytes ba in
      let required_bytes := wrap64 (capacity_bytes ba + more) in
      let alloc_size := next_multiple required_bytes in
      s ← mem_alloc (waterline ba) alloc_size s;
      Some (MkUserHeap (used_bytes ba) (wrap64 (capacity_bytes ba + alloc_size)) (waterline ba + alloc_size), s)
    else Some (ba, s) in
  match grown with
  | None => Ret (Err tt, st)
  | Some (ba, s) =>
      let ba := MkUserHeap (wrap64 (used_bytes ba + required_size)) (capacity_bytes ba) (waterline ba) in
      Ret (Ok (start_addr, required_size), (ba, s))
  end.

(** [GlobalAlloc::alloc]; [dealloc] does nothing. *)
Definition user_alloc (layout : Layout) (st : BlockAllocator * S) : outcome (Z * (BlockAllocator * S)) :=
  '(r, st) ← user_allocate layout st;
  match r with Ok (p, _) => Ret (p, st) | Err _ => Panic "Could not allocate" end.

Definition user_dealloc (ptr : Z) (layout : Layout) (st : BlockAllocator * S) : outcome (BlockAllocator * S) :=
  if ptr =? 0 then Panic "Cannot deallocate null pointer" else Ret st.

(** Several allocations, one after the other. *)
Fixpoint user_alloc_all (layouts : list Layout) (st : BlockAllocator * S) : outcome (list Z * (BlockAllocator * S)) :=
  match layouts with
  | [] => Ret ([], st)
  | l :: layouts =>
      '(p, st) ← user_alloc l st;
      '(ps, st) ← user_alloc_all layouts st;
      Ret (p :: ps, st)
  end.

(** The system call maps the region it is asked for, in the lower half of the address space, and
    keeps what was mapped. *)
Context (is_mapped : S → Z → Prop).
Hypothesis mem_alloc_bound : ∀ addr size s s', mem_alloc addr size s = Some s' → addr + size ≤ 2 ^ 47.
Hypothesis mem_alloc_law : ∀ addr size s s', mem_alloc addr size s = Some s' →
  ∀ a, addr ≤ a < addr + size ∨ is_mapped s a → is_mapped s' a.

Definition layout_ok (l : Layout) : Prop := is_power_of_two (lalign l) = true ∧ 0 ≤ lsize l ∧ lsize l + lalign l < 2 ^ 40.

Record user_inv (st : BlockAllocator * S) : Prop := {
  ui_used : 0 ≤ used_bytes st.1 ≤ capacity_bytes st.1;
  ui_bound : waterline st.1 ≤ 2 ^ 47;
  ui_water : waterline st.1 = PROCESS_DYNAMIC_MEMORY + capacity_bytes st.1;
  ui_mapped : ∀ a, PROCESS_DYNAMIC_MEMORY ≤ a < waterline st.1 → is_mapped st.2 a;
}.

Lemma align_down_spec addr align :
  is_power_of_two align = true → 0 ≤ addr →
  ∃ q, user_align_down addr align = Ret (q * align) ∧ q * align ≤ addr < q * align + align.
Proof.
  intros Hp Ha. unfold user_align_down. rewrite Hp. unfold is_power_of_two in Hp.
  apply andb_prop in Hp as [H0%Z.ltb_lt Hk%Z.eqb_eq]. exists (addr / align).
  assert (Z.land addr (Z.lnot (align - 1)) = addr / align * align) as ->.
  { rewrite <- Hk. set (k := Z.log2 align). assert (0 ≤ k) by apply Z.log2_nonneg.
    replace (2 ^ k - 1) with (Z.ones k) by (rewrite Z.ones_equiv; lia).
    rewrite <- Z.ldiff_land, Z.ldiff_ones_r, Z.shiftl_mul_pow2, Z.shiftr_div_pow2 by done. done. }
  pose proof (Z.div_mod addr align ltac:(lia)). pose proof (Z.mod_pos_bound addr align H0). split; [done|lia].
Qed.

Lemma next_multiple_bounds n : n ≤ next_multiple n < n + 0x200000.
Proof.
  unfold next_multiple. pose proof (Z.div_mod (n + 0x200000 - 1) 0x200000 ltac:(lia)).
  pose proof (Z.mod_pos_bound (n + 0x200000 - 1) 0x200000). lia.
Qed.

(** One allocation: an aligned, mapped region between the old and the new end of the used memory. *)
Lemma user_allocate_spec l st :
  user_inv st → layout_ok l →
  user_allocate l st = Ret (Err tt, st) ∨
  ∃ p st', user_allocate l st = Ret (Ok (p, lsize l + lalign l), st') ∧
    p mod lalign l = 0 ∧ PROCESS_DYNAMIC_MEMORY + used_bytes st.1 ≤ p ∧
    p + lsize l ≤ PROCESS_DYNAMIC_MEMORY + used_bytes st'.1 ∧ user_inv st' ∧
    ∀ a, is_mapped st.2 a → is_mapped st'.2 a.
Proof.
  destruct st as [ba s]. intros [Hu Hb Hw Hm] (Hal & Hs & Hsz). cbn [fst snd] in *. unfold user_allocate, user_align_up.
  assert (0 < lalign l) as Hpos by (unfold is_power_of_two in Hal; apply andb_prop in Hal as [H0 _]; lia).
  unfold PROCESS_DYNAMIC_MEMORY in *.
  rewrite (wrap64_small (0x10000000000 + used_bytes ba + lalign l - 1)) by (unfold is_u64, u64_size; lia).
  destruct (align_down_spec (0x10000000000 + used_bytes ba + lalign l - 1) (lalign l) Hal) as (q & -> & Hq); [lia|].
  cbn [mbind outcome_bind]. rewrite wrap64_small by (unfold is_u64, u64_size; lia).
  unfold available_capacity_bytes. rewrite (wrap64_small (capacity_bytes ba - used_bytes ba)) by (unfold is_u64, u64_size; lia).
  set (req := lsize l + lalign l) in *. destruct (Z.ltb_spec (capacity_bytes ba - used_bytes ba) req).
  - rewrite (wrap64_small (capacity_bytes ba + (req - (capacity_bytes ba - used_bytes ba)))) by (unfold is_u64, u64_size; lia).
    set (want := capacity_bytes ba + (req - (capacity_bytes ba - used_bytes ba))). pose proof (next_multiple_bounds want) as Hn.
    destruct (mem_alloc (waterline ba) (next_multiple want) s) as [s'|] eqn:E; [right|by left].
    pose proof (mem_alloc_bound _ _ _ _ E) as Hmb. pose proof (mem_alloc_law _ _ _ _ E) as Hml. cbn [mbind option_bind].
    rewrite !wrap64_small by (unfold is_u64, u64_size, want in *; cbn [used_bytes]; lia). eexists _, _.
    split; [done|]. split; [apply Z.mod_mul; lia|]. cbn [fst snd used_bytes capacity_bytes waterline].
    split; [lia|]. split; [lia|]. split; [|intros a Ha; apply Hml; by right].
    split; unfold PROCESS_DYNAMIC_MEMORY; cbn [fst snd used_bytes capacity_bytes waterline]; [unfold want in *; lia|lia|lia|].
    intros a Ha. apply Hml. destruct (decide (a < waterline ba)); [right; apply Hm; lia|left; lia].
  - right. rewrite wrap64_small by (unfold is_u64, u64_size; lia). eexists _, _. split; [done|].
    split; [apply Z.mod_mul; lia|]. cbn [fst snd used_bytes]. split; [lia|]. split; [lia|].
    split; [|done]. split; cbn [fst snd used_bytes capacity_bytes waterline]; [lia|lia|done|done].
Qed.

(** Where the regions of a run of allocations lie. *)
Fixpoint regions (layouts : list Layout) (ps : list Z) : list (Z * Z) :=
  match layouts, ps with l :: layouts, p :: ps => (p, lsize l) :: regions layouts ps | _, _ => [] end.

(** C29: the heap of a process gives every allocation its own memory: a run of allocations returns, or
    panics because the system call has no memory, and the regions it returns are aligned as asked, lie
    in memory the system has mapped, and no two of them overlap. *)
Theorem user_heap_disjoint layouts st :
  user_inv st → Forall layout_ok layouts →
  match user_alloc_all layouts st with
  | Ret (ps, st') => pairwise (regions layouts ps) ∧ Forall2 (λ l p, p mod lalign l = 0) layouts ps ∧
      Forall (λ r, PROCESS_DYNAMIC_MEMORY + used_bytes st.1 ≤ r.1 ∧ ∀ a, r.1 ≤ a < r.1 + r.2 → is_mapped st'.2 a)
        (regions layouts ps) ∧ user_inv st' ∧ ∀ a, is_mapped st.2 a → is_mapped st'.2 a
  | Panic why => why = "Could not allocate"%string
  end.
Proof.
  intros Hinv Hl. revert st Hinv. induction Hl as [|l layouts Hok Hl IH]; intros st Hinv; cbn [user_alloc_all].
  { split_and!; [done|constructor|constructor|done|done]. }
  unfold user_alloc. destruct (user_allocate_spec l st Hinv Hok) as [-> |(p & st1 & -> & Hal & Hlo & Hhi & Hinv1 & Hk1)];
    cbn [mbind outcome_bind]; [done|]. specialize (IH st1 Hinv1).
  destruct (user_alloc_all layouts st1) as [[ps st']|why]; cbn [mbind outcome_bind]; [|done].
  destruct IH as (Hpw & Hf2 & Hreg & Hinv' & Hk). destruct Hok as (_ & Hs & _).
  cbn [regions pairwise]. split_and!; [|done|by constructor| |done|auto].
  - eapply Forall_impl; [exact Hreg|]. intros r [Hr _]. left. cbn. lia.
  - constructor; [|eapply Forall_impl; [exact Hreg|]; cbn; intros r [Hr Hm]; split; [lia|done]].
    split; [done|]. cbn. intros a Ha. apply Hk. destruct Hinv1 as [Hu _ Hw Hm]. apply Hm.
    unfold PROCESS_DYNAMIC_MEMORY in *. destruct Hinv as [[Hu0 _] _ _ _]. lia.
Qed.

End user.

(** ** Allocators that keep the laws *)

(** A system call that maps what it is asked for. *)
Definition ref_mem_alloc (addr size : Z) (s : list (Z * Z)) : option (list (Z * Z)) :=
  if addr + size <=? 2 ^ 47 then Some ((addr, size) :: s) else None.
Definition ref_mapped (s : list (Z * Z)) (a : Z) : Prop := ∃ r, r ∈ s ∧ r.1 ≤ a < r.1 + r.2.

Definition three_layouts : list Layout := [MkLayout 1 1; MkLayout 8 8; MkLayout 16 1].

Lemma user_heap_disjoint_witness :
  ∃ ps st', user_alloc_all ref_mem_alloc three_layouts (BlockAllocator_new, []) = Ret (ps, st') ∧
    ps = [0x10000000000; 0x10000000008; 0x10000000012] ∧ pairwise (regions three_layouts ps).
Proof.
  pose proof (user_heap_disjoint ref_mem_alloc ref_mapped
    ltac:(intros addr size s s'; unfold ref_mem_alloc; destruct (Z.leb_spec (addr + size) (2 ^ 47)); [done|discriminate])
    ltac:(intros addr size s s'; unfold ref_mem_alloc; destruct (addr + size <=? 2 ^ 47); [|discriminate];
          intros [= <-] a [Ha|(r & Hr & Ha)]; [exists (addr, size); by split; [left|]|exists r; by split; [right|]])
    three_layouts (BlockAllocator_new, [])) as H.
  assert (user_alloc_all ref_mem_alloc three_layouts (BlockAllocator_new, []) =
    Ret ([0x10000000000; 0x10000000008; 0x10000000012],
      (MkUserHeap 35 0x200000 (PROCESS_DYNAMIC_MEMORY + 0x200000), [(PROCESS_DYNAMIC_MEMORY, 0x200000)]))) as E
    by (vm_compute; reflexivity).
  rewrite E in H. eexists _, _. split; [exact E|]. split; [reflexivity|]. apply H.
  - split; cbn; [lia|unfold PROCESS_DYNAMIC_MEMORY; lia|lia|]. intros a Ha. unfold PROCESS_DYNAMIC_MEMORY in Ha. lia.
  - repeat (constructor; [split; [reflexivity|cbn; lia]|]). constructor.
Defined.

(** The slice of the second allocation is as long as its size and its alignment together: it ends
    behind the start of the third. *)
Theorem user_slice_overlaps :
  ∃ st1 st2, user_alloc ref_mem_alloc (MkLayout 1 1) (BlockAllocator_new, []) = Ret (0x10000000000, st1) ∧
    user_allocate ref_mem_alloc (MkLayout 8 8) st1 = Ret (Ok (0x10000000008, 16), st2) ∧
    ∃ st3, user_alloc ref_mem_alloc (MkLayout 16 1) st2 = Ret (0x10000000012, st3).
Proof. do 2 eexists. split; [vm_compute; reflexivity|]. split; [vm_compute; reflexivity|]. eexists. vm_compute. reflexivity. Qed.

(** A buddy allocator that hands out memory in order and takes none back: it tracks more than asked. *)
Definition ref_buddy : Buddy := {|
  Bs := Z * list (Z * Z);
  buddy_allocate l b :=
    if (0 <=? lsize l) && (b.1 + lsize l <? u64_size) then Some (b.1, (b.1 + lsize l, (b.1, lsize l) :: b.2)) else None;
  buddy_deallocate p l b := b;
|}.

Definition ref_tracks (b : Z * list (Z * Z)) (rs : list (Z * Z)) : Prop :=
  HIGHER_HALF_START < b.1 ∧ pairwise rs ∧ Forall (λ r, HIGHER_HALF_START < r.1 < u64_size ∧ r.1 + r.2 ≤ b.1) rs.

Lemma pairwise_perm rs rs' : rs ≡ₚ rs' → pairwise rs → pairwise rs'.
Proof.
  induction 1 as [|x l l' Hl IH|x y l|l1 l2 l3 _ IH1 _ IH2]; cbn [pairwise]; [done| | |auto].
  - intros [Hx Hp]. split; [by rewrite <- Hl|auto].
  - intros [[Hyx Hy]%Forall_cons [Hx Hp]]. split; [constructor; [by apply separate_sym|done]|done].
Qed.

#[local] Existing Instance ref_buddy.

#[local] Program Instance ref_buddy_laws : BuddyLaws := {| tracks := ref_tracks |}.
Next Obligation. intros b rs rs' Hp (H1 & H2 & H3). split; [done|]. split; [by eapply pairwise_perm|by rewrite <- Hp]. Qed.
Next Obligation. by intros b rs (_ & Hp & _). Qed.
Next Obligation. intros b rs (_ & _ & H). eapply Forall_impl; [exact H|]. by intros r [Hr _]. Qed.
Next Obligation.
  intros l b b' p rs (H1 & H2 & H3) E. cbn in E. destruct (Z.leb_spec 0 (lsize l)); [|done].
  destruct (Z.ltb_spec (b.1 + lsize l) u64_size); [|done]. cbn in E. injection E as <- <-.
  split; cbn; [lia|]. split.
  - split; [|done]. eapply Forall_impl; [exact H3|]. intros r [_ Hr]. right. done.
  - constructor; [cbn; lia|]. eapply Forall_impl; [exact H3|]. cbn. lia.
Qed.
Next Obligation. intros l b p rs (H1 & [_ H2] & [_ H3]%Forall_cons). by split. Qed.

(** A block that hands out its items in order; it is full when the next one would not fit. *)
Record RefBlock := MkRefBlock { rb_start : Z; rb_len : Z; rb_size : Z; rb_next : Z; rb_items : list Z }.

Definition rb_fits (b : RefBlock) : bool :=
  (rb_start b <=? rb_next b) && (rb_next b + rb_size b <=? rb_start b + rb_len b) &&
  forallb (λ q, (rb_next b + rb_size b <=? q) || (q + rb_size b <=? rb_next b)) (rb_items b).

Fixpoint remove_one (p : Z) (l : list Z) : list Z :=
  match l with [] => [] | q :: l => if p =? q then l else q :: remove_one p l end.

Lemma remove_one_perm p l l' : l ≡ₚ p :: l' → remove_one p l ≡ₚ l'.
Proof.
  revert l'. induction l as [|q l IH]; intros l' Hp; [by apply Permutation_nil_cons in Hp|]. cbn [remove_one].
  destruct (Z.eqb_spec p q) as [->|Hne]; [by apply Permutation_cons_inv in Hp|].
  assert (p ∈ l) as Hin.
  { assert (p ∈ q :: l) as Hin by (rewrite Hp; left). by apply elem_of_cons in Hin as [->|Hin]. }
  apply elem_of_Permutation in Hin as [k Hk]. rewrite (IH _ Hk). rewrite Hk in Hp.
  apply (Permutation_cons_inv (a := p)). by rewrite <- Hp, perm_swap.
Qed.

Definition ref_block : BlockLL := {|
  Blk := RefBlock;
  block_new p len size := MkRefBlock p len size p [];
  item_size := rb_size;
  is_full b := negb (rb_fits b);
  allocate_one b :=
    if rb_fits b then
      Some (rb_next b, MkRefBlock (rb_start b) (rb_len b) (rb_size b) (rb_next b + rb_size b) (rb_next b :: rb_items b))
    else None;
  block_contains b p := (rb_start b <=? p) && (p <? rb_start b + rb_len b);
  deallocate_one b p := MkRefBlock (rb_start b) (rb_len b) (rb_size b) (rb_next b) (remove_one p (rb_items b));
|}.

#[local] Existing Instance ref_block.

#[local] Program Instance ref_block_laws : BlockLaws := {| items := rb_items; block_range b := (rb_start b, rb_len b) |}.
Next Obligation.
  intros p len size Hs. cbn. split_and!; [done|done|done|]. unfold rb_fits. cbn.
  by rewrite (proj2 (Z.leb_le p p)), (proj2 (Z.leb_le (p + size) _)) by lia.
Qed.
Next Obligation.
  intros b Hf. cbn in Hf. apply negb_false_iff in Hf. cbn. rewrite Hf. unfold rb_fits in Hf.
  apply andb_prop in Hf as [[H1%Z.leb_le H2%Z.leb_le]%andb_prop H3]. eexists _, _. split; [done|]. cbn.
  split_and!; [done|done|done|unfold within; cbn; lia|]. apply Forall_forall. intros q Hq.
  rewrite forallb_forall in H3. specialize (H3 q (proj1 (list_elem_of_In _ _) Hq)).
  apply orb_prop in H3 as [H3%Z.leb_le|H3%Z.leb_le]; unfold separate; cbn; lia.
Qed.
Next Obligation.
  intros b p its Hp. cbn. split; [by apply remove_one_perm|done].
Qed.
Next Obligation. intros b p. cbn. rewrite andb_true_iff, Z.leb_le, Z.ltb_lt. done. Qed.

Definition empty_heap : HeapState := ([], (HIGHER_HALF_START + 0x1000000, []) : Bs).

Lemma empty_heap_inv : heap_inv 4 empty_heap [] [].
Proof. split; [|constructor|constructor]. cbn. by split_and!. Qed.

Lemma heap_alloc_fresh_witness :
  ∃ p st', GlobAlloc_alloc 4 (MkLayout 24 8) empty_heap = Ret (p, st') ∧ allocated 4 24 empty_heap [] [] p st'.
Proof.
  pose proof (heap_alloc_fresh 4 ltac:(lia) (MkLayout 24 8) empty_heap [] [] empty_heap_inv ltac:(cbn; lia)) as H.
  destruct (GlobAlloc_alloc 4 (MkLayout 24 8) empty_heap) as [[p st']|] eqn:E.
  - exists p, st'. split; [reflexivity|exact H].
  - exfalso. revert E. vm_compute. discriminate.
Defined.
