(* ===== verification/UserLib.v ===== *)
(** * UserLib: time, socket addresses and TCP sockets of user programs
    (libs/libd7/src/time.rs, libs/libd7/src/net/mod.rs, libs/libd7/src/net/tcp/mod.rs)

    The frequency of the time stamp counter is a parameter, and so is what the services answer:
    [ipc::request] to the resolver and to the TCP daemon is a function on the state of the world,
    which keeps the order of the requests.  Strings are lists of bytes.  Log output is left out. *)

From stdpp Require Import base gmap list strings.
From Stdlib Require Import ZArith Lia.
From S2P Require Import Prelude Abi Bytes Net Dns TcpHandler LibIpc.
Open Scope Z_scope.

(** ** time.rs *)

Record Duration := MkDuration { as_secs : Z; subsec_nanos : Z }.

Definition NANOS_PER_SEC : Z := 1000000000.

(** [Duration::new], which carries whole seconds over. *)
Definition Duration_new (secs nanos : Z) : outcome Duration :=
  s ← expect (if secs + nanos / NANOS_PER_SEC <? u64_size then Some (secs + nanos / NANOS_PER_SEC) else None)
        "overflow in Duration::new";
  Ret (MkDuration s (nanos mod NANOS_PER_SEC)).

(** [checked_add], [checked_sub] and [checked_mul] on 64 bits *)
Definition checked_u64 (z : Z) : option Z := if (0 <=? z) && (z <? u64_size) then Some z else None.

Section time.
Context (freq_hz : Z).

(** The counter of a processor and its offset. *)
Definition Instant_now (rdx rax tsc_offset : Z) : Z :=
  wrap64 (Z.lor (wrap64 (Z.shiftl rdx 32)) (Z.land rax 0xffffffff) + tsc_offset).

Definition div_checked (a b : Z) : outcome Z :=
  if b =? 0 then Panic "attempt to divide by zero" else Ret (a / b).

Definition duration_from_ticks (ticks : Z) : outcome Duration :=
  let freq_khz := freq_hz / 1000 in
  secs ← div_checked ticks freq_hz;
  let ticks := ticks mod freq_hz in
  n ← unwrap (checked_u64 (ticks * 1000000));
  ns ← div_checked n freq_khz;
  Duration_new secs (ns mod 2 ^ 32).

Definition duration_to_tics_checked (duration : Duration) : outcome (option Z) :=
  match checked_u64 (as_secs duration * freq_hz) with
  | None => Ret None
  | Some inc_a =>
      let freq_khz := freq_hz / 1000 in
      b ← unwrap (checked_u64 (subsec_nanos duration * freq_khz));
      Ret (checked_u64 (inc_a + b / 1000000))
  end.

Definition Instant_checked_add (self : Z) (duration : Duration) : outcome (option Z) :=
  v ← duration_to_tics_checked duration; Ret (v ← v; checked_u64 (self + v)).

Definition Instant_checked_sub (self : Z) (duration : Duration) : outcome (option Z) :=
  v ← duration_to_tics_checked duration; Ret (v ← v; checked_u64 (self - v)).

Definition Instant_duration_since (self earlier : Z) : outcome Duration :=
  t ← expect (checked_u64 (self - earlier)) "duration since later";
  if t =? 0 then Ret (MkDuration 0 0) else duration_from_ticks t.

Definition Instant_elapsed (now self : Z) : outcome Duration := Instant_duration_since now self.

Definition Instant_add (self : Z) (other : Duration) : outcome Z :=
  r ← Instant_checked_add self other; expect r "overflow when adding duration to instant".

Definition Instant_sub (self : Z) (other : Duration) : outcome Z :=
  r ← Instant_checked_sub self other; expect r "overflow when subtracting duration from instant".

Definition total_ns (d : Duration) : Z := as_secs d * NANOS_PER_SEC + subsec_nanos d.

Lemma checked_u64_some z r : checked_u64 z = Some r ↔ 0 ≤ z < u64_size ∧ r = z.
Proof.
  unfold checked_u64. destruct (Z.leb_spec 0 z), (Z.ltb_spec z u64_size); cbn [andb]; naive_solver lia.
Qed.

(** Nanoseconds to ticks of [k] kilohertz, and back. *)
Lemma ticks_ns k n :
  0 < k → 0 ≤ n < NANOS_PER_SEC → let r := n * k / 1000000 in
  0 ≤ r < 1000 * k ∧ r * 1000000 / k ≤ n < r * 1000000 / k + 1000000 / k + 2.
Proof.
  intros Hk Hn r. unfold NANOS_PER_SEC in Hn.
  pose proof (Z.div_mod (n * k) 1000000 ltac:(lia)) as Hr. pose proof (Z.mod_pos_bound (n * k) 1000000 ltac:(lia)) as Hm.
  fold r in Hr. pose proof (Z.div_mod (r * 1000000) k ltac:(lia)) as H1. pose proof (Z.mod_pos_bound (r * 1000000) k Hk).
  pose proof (Z.div_mod 1000000 k ltac:(lia)) as H2. pose proof (Z.mod_pos_bound 1000000 k Hk).
  split; [split; [apply Z.div_pos; nia|apply Z.div_lt_upper_bound; nia]|].
  set (a := r * 1000000 / k) in *. set (b := 1000000 / k) in *. split; nia.
Qed.

(** The time between an instant and the instant a duration later is that duration, rounded down
    to a tick and then to a nanosecond, for counters of whole kilohertz. *)
Theorem instant_round_trip k t d t' :
  freq_hz = 1000 * k → 0 < k < 2 ^ 30 → 0 ≤ t → 0 ≤ as_secs d → 0 ≤ subsec_nanos d < NANOS_PER_SEC →
  Instant_add t d = Ret t' →
  ∃ d', Instant_duration_since t' t = Ret d' ∧ as_secs d' = as_secs d ∧
    subsec_nanos d' ≤ subsec_nanos d < subsec_nanos d' + 1000000 / k + 2.
Proof.
  intros Hf Hk Ht Hs Hn E. destruct (ticks_ns k (subsec_nanos d) (proj1 Hk) Hn) as [Hr Hns].
  set (n := subsec_nanos d) in *. set (s := as_secs d) in *. set (r := n * k / 1000000) in *.
  assert (freq_hz / 1000 = k) as Hkhz by (rewrite Hf, Z.mul_comm; by apply Z.div_mul).
  unfold Instant_add, Instant_checked_add, duration_to_tics_checked in E. fold s n in E. rewrite Hkhz in E.
  destruct (checked_u64 (s * freq_hz)) as [a|] eqn:Ea; [|done]. apply checked_u64_some in Ea as [Ha ->].
  destruct (checked_u64 (n * k)) as [b|] eqn:Eb; [|done]. apply checked_u64_some in Eb as [Hb ->].
  cbn [unwrap expect mbind outcome_bind] in E. fold r in E.
  destruct (checked_u64 (s * freq_hz + r)) as [T|] eqn:ET; [|done]. apply checked_u64_some in ET as [HT ->].
  cbn [mbind option_bind] in E. destruct (checked_u64 (t + _)) as [t2|] eqn:Et; [|done].
  apply checked_u64_some in Et as [Ht2 ->]. cbn [expect] in E. injection E as <-.
  unfold Instant_duration_since. replace (t + (s * freq_hz + r) - t) with (s * freq_hz + r) by lia.
  rewrite (proj2 (checked_u64_some _ _) (conj HT eq_refl)). cbn [expect mbind outcome_bind].
  destruct (Z.eqb_spec (s * freq_hz + r) 0) as [E0|E0].
  { exists (MkDuration 0 0). split; [done|]. cbn [as_secs subsec_nanos]. assert (s = 0 ∧ r = 0) as [-> Hr0] by nia.
    rewrite Hr0 in Hns. change (0 * 1000000) with 0 in Hns. rewrite Z.div_0_l in Hns by lia. lia. }
  unfold duration_from_ticks, div_checked. rewrite Hkhz. rewrite (proj2 (Z.eqb_neq freq_hz 0)) by lia. cbn [mbind outcome_bind].
  rewrite Z.div_add_l, (Z.div_small r), Z.add_0_r by lia.
  rewrite Z.add_comm, Z.mod_add, (Z.mod_small r) by lia.
  assert (u64_size = 2 ^ 64) as Hsz by done.
  assert (checked_u64 (r * 1000000) = Some (r * 1000000)) as -> by (apply checked_u64_some; lia). cbn [unwrap expect mbind outcome_bind].
  rewrite (proj2 (Z.eqb_neq k 0)) by lia. cbn [mbind outcome_bind]. set (ns := r * 1000000 / k) in *.
  assert (0 ≤ ns) as Hns0 by (apply Z.div_pos; lia). unfold NANOS_PER_SEC in Hn. rewrite (Z.mod_small ns) by lia.
  unfold Duration_new, NANOS_PER_SEC. rewrite (Z.div_small ns), (Z.mod_small ns), Z.add_0_r by lia.
  rewrite (proj2 (Z.ltb_lt s u64_size)) by nia. cbn [expect mbind outcome_bind]. eexists. split; [done|]. by split.
Qed.

End time.

(** A counter of 2.4 GHz, and one and a half seconds. *)
Lemma instant_round_trip_witness :
  ∃ t' d', Instant_add 2400000000 12345 (MkDuration 1 500000001) = Ret t' ∧
    Instant_duration_since 2400000000 t' 12345 = Ret d' ∧ as_secs d' = 1 ∧ subsec_nanos d' ≤ 500000001.
Proof.
  assert (Instant_add 2400000000 12345 (MkDuration 1 500000001) = Ret 3600012347) as E by (vm_compute; reflexivity).
  destruct (instant_round_trip 2400000000 2400000 12345 (MkDuration 1 500000001) 3600012347) as (d' & E' & Hs & Hn).
  - reflexivity.
  - lia.
  - lia.
  - cbn. lia.
  - vm_compute. split; [discriminate|reflexivity].
  - exact E.
  - exists 3600012347, d'. cbn in Hs, Hn. split_and!; [exact E|exact E'|exact Hs|lia].
Defined.

(** A counter that is not a whole number of kilohertz: less than a second shows as more. *)
Theorem instant_rounding_carries :
  Instant_duration_since 1999 1998 0 = Ret (MkDuration 1 998000000).
Proof. vm_compute. reflexivity. Qed.

(** ** net/mod.rs *)

Section addresses.
Context {W : Type}.
(** [ipc::request("netd/dns/resolve", (host, A))] *)
Context (resolve : list Z → W → sys_result (result (list QueryResult) unit) * W).

Abbreviation net_result A := (result A NetworkError).

(** The address of each answer; the iterator panics on one of another type. *)
Fixpoint answer_addresses (port : Z) (v : list QueryResult) : outcome (list SocketAddr) :=
  match v with
  | [] => Ret []
  | QR_A addr :: v => l ← answer_addresses port v; Ret (MkSocketAddr (V4 addr) port :: l)
  | _ :: _ => Panic "internal error: entered unreachable code: Mismatching DNS record returned"
  end.

(** [(&str, u16)] *)
Definition host_to_socket_addrs (host : list Z) (port : Z) (w : W) : outcome (net_result (list SocketAddr) * W) :=
  match IpAddr_try_from host with
  | Some addr => Ret (Ok [MkSocketAddr addr port], w)
  | None =>
      let (r, w) := resolve host w in
      match r with
      | Err ipc_delivery_target_nack => Ret (Err NameResolution, w)
      | Err _ => Panic "Syscall error"
      | Ok (Ok v) => l ← answer_addresses port v; Ret (Ok l, w)
      | Ok (Err _) => Ret (Ok [], w)
      end
  end.

(** [&str] *)
Definition str_to_socket_addrs (s : list Z) (w : W) : outcome (net_result (list SocketAddr) * W) :=
  match reverse (split_bytes 58 s) with
  | p :: it =>
      match parse_uint 65535 p with
      | None => Ret (Err InvalidSocketAddr, w)
      | Some port =>
          match it with
          | [host_str] => host_to_socket_addrs (strip_brackets host_str) port w
          | _ => Ret (Err InvalidSocketAddr, w)
          end
      end
  | [] => Ret (Err InvalidSocketAddr, w)
  end.

Lemma str_to_socket_addrs_split h p w :
  58 ∉ h → 0 ≤ p < 65536 →
  str_to_socket_addrs (h ++ [58] ++ show_uint 5 p) w = host_to_socket_addrs (strip_brackets h) p w.
Proof.
  intros Hh Hp. assert (58 ∉ show_uint 5 p) as Hn by (apply digits_not_in; [apply show_uint_digits; lia|lia]).
  unfold str_to_socket_addrs. cbn [app]. rewrite split_bytes_app, split_bytes_none by done. cbn [reverse rev_append].
  by rewrite parse_uint_show by (cbn; lia).
Qed.

(** What is printed for an address and a port is this address, and no one is asked; a name is asked
    for, and every answer becomes an address with the port. *)
Theorem str_to_socket_addrs_exact h p w :
  58 ∉ h → 0 ≤ p < 65536 → strip_brackets h = h →
  (∀ a, length a = 4%nat → Forall is_byte a → h = Ipv4Addr_fmt a →
    str_to_socket_addrs (h ++ [58] ++ show_uint 5 p) w = Ret (Ok [MkSocketAddr (V4 a) p], w)) ∧
  (∀ addrs w', Ipv4Addr_try_from h = None → resolve h w = (Ok (Ok (QR_A <$> addrs)), w') →
    str_to_socket_addrs (h ++ [58] ++ show_uint 5 p) w = Ret (Ok ((λ a, MkSocketAddr (V4 a) p) <$> addrs), w')).
Proof.
  intros Hh Hp Hb. rewrite str_to_socket_addrs_split, Hb by done. unfold host_to_socket_addrs, IpAddr_try_from. split.
  - intros a Hl Ha ->. by rewrite Ipv4Addr_fmt_parses.
  - intros addrs w' -> ->. cbn [fmap option_fmap option_map].
    assert (answer_addresses p (QR_A <$> addrs) = Ret ((λ a, MkSocketAddr (V4 a) p) <$> addrs)) as ->; [|done].
    induction addrs as [|a addrs IH]; [done|]. rewrite !fmap_cons. cbn [answer_addresses]. by rewrite IH.
Qed.

End addresses.

(** ** net/tcp/mod.rs *)

Section client.
Context `{!TcpStack} {W Topic_ : Type}.
(** [ipc::request("netd/newsocket/tcp", Bind(addr))] and [ipc::request(topic, request)] *)
Context (bind_request : SocketAddr → W → sys_result (result Topic_ BindError) * W).
Context (socket_request : Topic_ → Request → W → sys_result (result SockReply SockError) * W).

Inductive TcpClientError := CE_Bind (e : BindError) | CE_Protocol (e : SockError) | CE_Syscall (e : SyscallErrorCode).

Definition SocketInner_new (bind : SocketAddr) (w : W) : result Topic_ TcpClientError * W :=
  let (r, w) := bind_request bind w in
  (match r with Err e => Err (CE_Syscall e) | Ok (Err e) => Err (CE_Bind e) | Ok (Ok topic) => Ok topic end, w).

Definition SocketInner_request (self : Topic_) (request : Request) (w : W) : result SockReply TcpClientError * W :=
  let (r, w) := socket_request self request w in
  (match r with Err e => Err (CE_Syscall e) | Ok (Err e) => Err (CE_Protocol e) | Ok (Ok r) => Ok r end, w).

Definition SocketInner_drop (self : Topic_) (w : W) : W := (SocketInner_request self Req_Remove w).2.

(** A request that is answered without data. *)
Definition no_data_request (self : Topic_) (request : Request) (w : W) : outcome (result unit TcpClientError * W) :=
  let (r, w) := SocketInner_request self request w in
  match r with
  | Err e => Ret (Err e, w)
  | Ok Rep_NoData => Ret (Ok tt, w)
  | Ok _ => Panic "Invalid reply variant"
  end.

(** [addrs] is [addr.to_socket_addrs()]; the socket is dropped on every early return behind its
    creation. *)
Definition Stream_connect (addrs : W → outcome (result (list SocketAddr) NetworkError * W)) (w : W)
    : outcome (result Topic_ TcpClientError * W) :=
  let (r, w) := SocketInner_new SocketAddr_ZERO w in
  match r with
  | Err e => Ret (Err e, w)
  | Ok inner =>
      '(r, w) ← addrs w;
      match r with
      | Err e => Ret (Err (CE_Protocol (SE_Network e)), SocketInner_drop inner w)
      | Ok [] => Ret (Err (CE_Protocol (SE_Network InvalidSocketAddr)), SocketInner_drop inner w)
      | Ok (to :: _) =>
          '(r, w) ← no_data_request inner (Req_Connect to) w;
          match r with
          | Err e => Ret (Err e, SocketInner_drop inner w)
          | Ok _ => Ret (Ok inner, w)
          end
      end
  end.

Definition Stream_state (self : Topic_) (w : W) : outcome (result ConnectionState TcpClientError * W) :=
  let (r, w) := SocketInner_request self Req_GetState w in
  match r with
  | Err e => Ret (Err e, w)
  | Ok (Rep_State s) => Ret (Ok s, w)
  | Ok _ => Panic "internal error: entered unreachable code: Invalid reply variant"
  end.

Definition Stream_shutdown (self : Topic_) := no_data_request self Req_Shutdown.
Definition Stream_close (self : Topic_) := no_data_request self Req_Close.
Definition Stream_abort (self : Topic_) := no_data_request self Req_Abort.
Definition Stream_send (self : Topic_) (data : list Z) := no_data_request self (Req_Send data).

(** The buffer as it is left, and how much of it is data. *)
Definition Stream_recv (self : Topic_) (buffer : list Z) (w : W)
    : outcome (result (list Z * nat) TcpClientError * W) :=
  let (r, w) := SocketInner_request self (Req_Recv (Z.of_nat (length buffer))) w in
  match r with
  | Err e => Ret (Err e, w)
  | Ok (Rep_Recv data) =>
      _ ← rassert (length data <=? length buffer)%nat "range end index out of range for slice";
      Ret (Ok (data ++ drop (length data) buffer, length data), w)
  | Ok _ => Panic "internal error: entered unreachable code: Invalid reply variant"
  end.

Definition Listener_bind (addr : SocketAddr) (w : W) := SocketInner_new addr w.
Definition Listener_state := Stream_state.
Definition Listener_close := Stream_close.

(** The protocol: which replies fit a request. *)
Definition reply_fits (request : Request) (r : SockReply) : Prop :=
  match request, r with
  | Req_GetState, Rep_State _ => True
  | Req_Recv n, Rep_Recv data => Z.of_nat (length data) ≤ n
  | (Req_Connect _ | Req_Shutdown | Req_Close | Req_Abort | Req_Send _ | Req_Remove), Rep_NoData => True
  | _, _ => False
  end.

Hypothesis socket_fits : ∀ topic request w r w',
  socket_request topic request w = (Ok (Ok r), w') → reply_fits request r.

(** Against a service that keeps to the protocol no operation of a stream panics, and what
    [recv] puts into the buffer is what the service sent. *)
Theorem tcp_client_total self data buffer w :
  (∃ r, Stream_state self w = Ret r) ∧ (∃ r, Stream_shutdown self w = Ret r) ∧ (∃ r, Stream_close self w = Ret r) ∧
  (∃ r, Stream_abort self w = Ret r) ∧ (∃ r, Stream_send self data w = Ret r) ∧
  ∃ r w', Stream_recv self buffer w = Ret (r, w') ∧
    ∀ b n, r = Ok (b, n) → length b = length buffer ∧
      socket_request self (Req_Recv (Z.of_nat (length buffer))) w = (Ok (Ok (Rep_Recv (take n b))), w').
Proof.
  assert (∀ request, (∀ r, reply_fits request r → r = Rep_NoData) → ∃ r, no_data_request self request w = Ret r) as Hnd.
  { intros request Hr. unfold no_data_request, SocketInner_request.
    destruct (socket_request self request w) as [[[r|e]|e] w'] eqn:E; [|by eexists..].
    rewrite (Hr r) by (by eapply socket_fits). by eexists. }
  split_and!.
  - unfold Stream_state, SocketInner_request. destruct (socket_request self Req_GetState w) as [[[r|e]|e] w'] eqn:E; [|by eexists..].
    apply socket_fits in E. destruct r; cbn in E; try done. by eexists.
  - apply Hnd. by intros [].
  - apply Hnd. by intros [].
  - apply Hnd. by intros [].
  - apply Hnd. by intros [].
  - unfold Stream_recv, SocketInner_request. destruct (socket_request self _ w) as [[[r|e]|e] w'] eqn:E.
    2,3: by eexists _, w'; split; [done|]; discriminate.
    pose proof (socket_fits _ _ _ _ _ E) as Hf. destruct r as [| |d| |]; cbn in Hf; try done.
    rewrite (proj2 (Nat.leb_le _ _)) by lia. cbn [rassert mbind outcome_bind]. eexists _, w'. split; [done|].
    intros b n [= <- <-]. rewrite length_app, length_drop, take_app_length. split; [lia|done].
Qed.

(** [Stream::connect] leaves no socket behind: when it fails after the daemon has created the
    socket, because the address is invalid or does not resolve or the daemon refuses the connection,
    the last thing it does is to ask the daemon to remove the socket, and the caller gets the error;
    and when it succeeds the daemon has accepted the connection to the first of the addresses. *)
Theorem tcp_connect_no_leak addrs w inner w1 r2 w2 :
  bind_request SocketAddr_ZERO w = (Ok (Ok inner), w1) → addrs w1 = Ret (r2, w2) →
  ∃ r w', Stream_connect addrs w = Ret (r, w') ∧
    match r with
    | Ok topic => topic = inner ∧ ∃ to l, r2 = Ok (to :: l) ∧
        socket_request inner (Req_Connect to) w2 = (Ok (Ok Rep_NoData), w')
    | Err e => ∃ w3, w' = (socket_request inner Req_Remove w3).2
    end.
Proof.
  intros Hb Ha. unfold Stream_connect, SocketInner_new. rewrite Hb, Ha. cbn [mbind outcome_bind].
  assert (∀ v, SocketInner_drop inner v = (socket_request inner Req_Remove v).2) as Hd.
  { intros v. unfold SocketInner_drop, SocketInner_request. by destruct (socket_request inner Req_Remove v). }
  destruct r2 as [[|to l]|e];
    [eexists _, _; split; [done|exists w2; apply Hd]| |eexists _, _; split; [done|exists w2; apply Hd]].
  unfold no_data_request, SocketInner_request. destruct (socket_request inner (Req_Connect to) w2) as [[[r|e]|e] w3] eqn:E.
  - pose proof (socket_fits _ _ _ _ _ E) as Hf. destruct r; cbn in Hf; try done. cbn [mbind outcome_bind].
    eexists _, _. split; [done|]. split; [done|]. eauto.
  - cbn [mbind outcome_bind]. eexists _, _. split; [done|exists w3; apply Hd].
  - cbn [mbind outcome_bind]. eexists _, _. split; [done|exists w3; apply Hd].
Qed.

End client.
