(* ===== verification/Smp.v ===== *)
(** * Smp: starting the other processors (src/smp/mod.rs, src/main.rs)

    The boot processor and the processors it starts run at the same time.  They share two atomic
    variables, [AP_FREE_STACK], through which each new processor gets its stack, and
    [AP_READY_COUNT], and the memory: the free list of virtual addresses, the free frames and the
    page table, each behind its lock.  The model is a step relation, a step being what one
    processor does between two moments when another may interfere; the steps of the processors are
    taken in any order.  [alloc_stack] takes two steps, its allocation and the rest, as the lock of
    the free list is taken twice.  The pauses between two polls are left out, and of
    [rust_ap_main] only the stack, its allocation for the double fault handler and the mark that it
    is ready are kept.  A processor runs on its stack: when it takes a step and the page at the top
    of the stack is not mapped to the frame it was when the processor took the stack, it is lost,
    and takes no further step here; what it does then is not known. *)

From stdpp Require Import base gmap list strings.
From Stdlib Require Import ZArith Lia.
From S2P Require Import Prelude Ranges VirtAlloc.
Import VirtAlloc.virt.
Open Scope Z_scope.

(** [ap_take_stack]: the old value of [AP_FREE_STACK], or a panic. *)
Definition ap_take_stack (free_stack : Z) : outcome Z :=
  _ ← rassert (negb (free_stack =? 0)) "SMP AP stack not set";
  _ ← rassert (0xa000 <? free_stack) "SMP AP stack invalid";
  Ret free_stack.

(** The shared memory: the free list, the free frames and the pages the kernel has mapped. *)
Record vmem := MkVmem {
  free_list : list Block;
  phys : list Z;
  page_map : gmap Z Z;
}.

(** The loop of [alloc_stack]: a frame for each page. *)
Fixpoint map_stack_pages (pages phys : list Z) (pm : gmap Z Z) : outcome (list Z * gmap Z Z) :=
  match pages with
  | [] => Ret (phys, pm)
  | page :: pages =>
      match phys with
      | [] => Panic "Could not allocate stack frame"
      | frame :: phys => map_stack_pages pages phys (<[page := frame]> pm)
      end
  end.

(** [alloc_stack] after its allocation [v]: the pages are mapped and [v] is dropped. *)
Definition map_stack (m : vmem) (v : Allocation) (size_in_pages : Z) : outcome (Stack * vmem) :=
  let start_page := astart v + PAGE_SIZE_BYTES in
  let end_page := astart v + size_in_pages * PAGE_SIZE_BYTES in
  let pages := (λ i : nat, start_page + Z.of_nat i * PAGE_SIZE_BYTES) <$> seq 0 (Z.to_nat size_in_pages) in
  '(phys, pm) ← map_stack_pages pages (phys m) (page_map m);
  let stack := MkStack (end_page + PAGE_SIZE_BYTES) start_page in
  _ ← rassert (bottom stack <? top stack) "top > bottom";
  l ← Allocation_drop (free_list m) v;
  Ret (stack, MkVmem l phys pm).

(** A started processor: woken up; on its stack, with the frame of the page at its top; in
    [alloc_stack] for the double fault handler; initialised; after [ap_mark_ready]; stopped by a
    panic or without its stack, with the allocation it keeps. *)
Inductive ap_state :=
| Woken
| Running (stack frame : Z)
| Allocated (stack frame : Z) (v : Allocation)
| Initialised (stack frame : Z)
| Ready (stack frame : Z)
| ApPanic (msg : string) (kept : list Allocation)
| Lost (kept : list Allocation).

(** The boot processor in [start_all]: before [start_one] of the first of [rest]; in its
    [alloc_stack]; with the stack stored, before the wake-up; polling, with [n] polls to go; waiting
    for all; after the end; stopped by a panic. *)
Inductive bsp_state :=
| Next (rest : list Z) (count : Z)
| Allocating (cpu : Z) (v : Allocation) (rest : list Z) (count : Z)
| Stored (cpu : Z) (rest : list Z) (count : Z)
| Polling (cpu : Z) (n : nat) (rest : list Z) (count : Z)
| Joining (count : Z)
| Finished
| BspPanic (msg : string) (kept : list Allocation).

Record smp := MkSmp {
  free_stack : Z;
  ready_count : Z;
  mem : vmem;
  aps : gmap Z ap_state;
  bsp : bsp_state;
}.

Definition POLLS : nat := Z.to_nat 50000.

(** One step of the boot processor: [start_one] for each processor, then the wait. *)
Definition bsp_step (s : smp) : smp :=
  let to := MkSmp (free_stack s) (ready_count s) in
  match bsp s with
  | Next (cpu :: rest) count =>
      if negb (free_stack s =? 0) then to (mem s) (aps s) (BspPanic "assertion failed" [])
      else match allocate (free_list (mem s)) (5 + 1) with
           | Ret (v, l) => to (MkVmem l (phys (mem s)) (page_map (mem s))) (aps s) (Allocating cpu v rest count)
           | Panic msg => to (mem s) (aps s) (BspPanic msg [])
           end
  | Allocating cpu v rest count =>
      match map_stack (mem s) v 5 with
      | Ret (stack, m) => MkSmp (top stack) (ready_count s) m (aps s) (Stored cpu rest count)
      | Panic msg => to (mem s) (aps s) (BspPanic msg [v])
      end
  | Stored cpu rest count => to (mem s) (<[cpu := Woken]> (aps s)) (Polling cpu POLLS rest count)
  | Polling cpu O rest count => to (mem s) (aps s) (BspPanic "timeout" [])
  | Polling cpu (S n) rest count =>
      to (mem s) (aps s) (if free_stack s =? 0 then Next rest (count + 1) else Polling cpu n rest count)
  | Next [] count => to (mem s) (aps s) (Joining count)
  | Joining count => if ready_count s <? count then s else to (mem s) (aps s) Finished
  | Finished | BspPanic _ _ => s
  end.

(** The frame behind the page at the top of a stack. *)
Definition stack_frame (m : vmem) (stack : Z) : option Z := page_map m !! (stack - PAGE_SIZE_BYTES).

(** One step of a started processor: [rust_ap_get_stack], then [rust_ap_main]. *)
Definition ap_step (cpu : Z) (s : smp) : smp :=
  let to a := MkSmp (free_stack s) (ready_count s) (mem s) (<[cpu := a]> (aps s)) (bsp s) in
  let on_stack stack frame := bool_decide (stack_frame (mem s) stack = Some frame) in
  match aps s !! cpu with
  | Some Woken =>
      let a := match ap_take_stack (free_stack s) with
               | Ret v => match stack_frame (mem s) v with Some frame => Running v frame | None => Lost [] end
               | Panic msg => ApPanic msg []
               end in
      MkSmp 0 (ready_count s) (mem s) (<[cpu := a]> (aps s)) (bsp s)
  | Some (Running stack frame) =>
      if negb (on_stack stack frame) then to (Lost [])
      else match allocate (free_list (mem s)) (1 + 1) with
           | Ret (v, l) =>
               MkSmp (free_stack s) (ready_count s) (MkVmem l (phys (mem s)) (page_map (mem s)))
                 (<[cpu := Allocated stack frame v]> (aps s)) (bsp s)
           | Panic msg => to (ApPanic msg [])
           end
  | Some (Allocated stack frame v) =>
      if negb (on_stack stack frame) then to (Lost [v])
      else match map_stack (mem s) v 1 with
           | Ret (_, m) =>
               MkSmp (free_stack s) (ready_count s) m (<[cpu := Initialised stack frame]> (aps s)) (bsp s)
           | Panic msg => to (ApPanic msg [v])
           end
  | Some (Initialised stack frame) =>
      if negb (on_stack stack frame) then to (Lost [])
      else MkSmp (free_stack s) (ready_count s + 1) (mem s) (<[cpu := Ready stack frame]> (aps s)) (bsp s)
  | Some (Ready _ _) | Some (ApPanic _ _) | Some (Lost _) | None => s
  end.

Inductive smp_step : smp → smp → Prop :=
| step_bsp s : smp_step s (bsp_step s)
| step_ap cpu s : smp_step s (ap_step cpu s).

(** [start_all] for the processors of the table, of which the first is the boot processor. *)
Definition start_all (cpus : list Z) (m : vmem) : smp := MkSmp 0 0 m ∅ (Next (drop 1 cpus) 0).

(** A schedule: which processor takes the next step, [None] for the boot processor. *)
Definition smp_run (s : smp) (schedule : list (option Z)) : smp :=
  fold_left (λ s w, match w with None => bsp_step s | Some cpu => ap_step cpu s end) schedule s.

Lemma smp_run_reach schedule s : rtc smp_step s (smp_run s schedule).
Proof.
  revert s. induction schedule as [|w schedule IH]; intros s; [apply rtc_refl|]. cbn.
  eapply rtc_l; [|apply IH]. destruct w; constructor.
Qed.

(** Without interference the two steps are [alloc_stack]. *)
Lemma alloc_stack_steps m n st pages l' phys' pm' :
  alloc_stack (free_list m) n = Ret (st, pages, l') → map_stack_pages pages (phys m) (page_map m) = Ret (phys', pm') →
  ('(v, l) ← allocate (free_list m) (n + 1); map_stack (MkVmem l (phys m) (page_map m)) v n)
    = Ret (st, MkVmem l' phys' pm').
Proof.
  unfold alloc_stack, map_stack. intros Ha Hm. destruct (0 <? n); [|done]. cbn [rassert] in Ha.
  destruct (allocate (free_list m) (n + 1)) as [[v l]|]; [|done]. cbn [mbind outcome_bind] in *. cbn in *.
  destruct (astart v + PAGE_SIZE_BYTES <? _); [|done]. cbn in *.
  destruct (Allocation_drop l v) as [l2|]; [|done]. injection Ha as <- <- <-. rewrite Hm. done.
Qed.

#[local] Opaque POLLS.

(** ** Memory: the allocations that processors hold *)

Definition held_of (a : ap_state) : list Allocation :=
  match a with Allocated _ _ v => [v] | ApPanic _ kept | Lost kept => kept | _ => [] end.
Definition held_bsp (b : bsp_state) : list Allocation :=
  match b with Allocating _ v _ _ => [v] | BspPanic _ kept => kept | _ => [] end.
Definition held_aps (m : gmap Z ap_state) : list Allocation := map_to_list m ≫= (λ p, held_of p.2).
Definition held (s : smp) : list Allocation := held_bsp (bsp s) ++ held_aps (aps s).

Lemma held_insert m c a : held_aps (<[c := a]> m) ≡ₚ held_of a ++ held_aps (delete c m).
Proof.
  unfold held_aps. rewrite <- insert_delete_eq, map_to_list_insert by apply lookup_delete_eq. done.
Qed.

Lemma held_lookup m c a : m !! c = Some a → held_aps m ≡ₚ held_of a ++ held_aps (delete c m).
Proof. intros Hl. rewrite <- (insert_id m c a Hl) at 1. apply held_insert. Qed.

(** The free list is that of an allocator in use, for the kernel's own allocations [live0] and
    those held. *)
Definition mem_ok (live0 : list Allocation) (m : vmem) (h : list Allocation) : Prop :=
  ∃ live, va_reach (free_list m) live ∧ live ≡ₚ h ++ live0.

Lemma mem_ok_perm live0 m h h' : h ≡ₚ h' → mem_ok live0 m h → mem_ok live0 m h'.
Proof. intros Hp (live & Hr & E). exists live. split; [done|]. by rewrite <- Hp. Qed.

Lemma mem_ok_allocate live0 m h n v l :
  mem_ok live0 m h → 0 < n → allocate (free_list m) n = Ret (v, l) →
  mem_ok live0 (MkVmem l (phys m) (page_map m)) (v :: h).
Proof.
  intros (live & Hr & E) Hn Ha. exists (v :: live). split; [by eapply va_allocate|]. cbn. by rewrite E.
Qed.

Definition mem_msg (msg : string) : Prop :=
  msg = "Out of virtual memory" ∨ msg = "Could not allocate stack frame".

Lemma allocate_msg l n msg : allocate l n = Panic msg → mem_msg msg.
Proof.
  unfold allocate. intros Ha. assert (allocator_allocate l n = Panic msg) as E.
  { destruct (allocator_allocate l n) as [[]|]; [done|]. cbn in Ha. by injection Ha as ->. }
  clear Ha. induction l as [|b l IH]; cbn in E; [injection E as <-; by left|].
  destruct (n <=? _); [by destruct (_ =? n)|]. destruct (allocator_allocate l n) as [[]|]; [done|].
  apply IH. cbn in E. by injection E as ->.
Qed.

Lemma map_stack_pages_msg pages ph pm msg : map_stack_pages pages ph pm = Panic msg → mem_msg msg.
Proof.
  revert ph pm. induction pages as [|p pages IH]; intros ph pm; cbn; [done|].
  destruct ph; [intros [= <-]; by right|]. apply IH.
Qed.

(** Pages that are mapped stay mapped. *)
Definition maps_more (m m' : vmem) : Prop := ∀ p, is_Some (page_map m !! p) → is_Some (page_map m' !! p).

Lemma map_stack_pages_mapped pages ph pm ph' pm' :
  map_stack_pages pages ph pm = Ret (ph', pm') →
  ∀ p, p ∈ pages ∨ is_Some (pm !! p) → is_Some (pm' !! p).
Proof.
  revert ph pm. induction pages as [|q pages IH]; intros ph pm E p Hp; cbn in E.
  - injection E as <- <-. by destruct Hp as [?%not_elem_of_nil|].
  - destruct ph as [|f ph]; [done|]. apply (IH _ _ E). rewrite elem_of_cons in Hp.
    destruct (decide (p = q)) as [->|]; [right; by rewrite lookup_insert_eq|].
    rewrite lookup_insert_ne by done. naive_solver.
Qed.

(** A stack that a processor can run on. *)
Definition usable (m : vmem) (stack : Z) : Prop := 0xa000 < stack ∧ is_Some (stack_frame m stack).

Lemma usable_more m m' stack : maps_more m m' → usable m stack → usable m' stack.
Proof. intros Hm [? Hs]. split; [done|]. by apply Hm. Qed.

(** The second part of [alloc_stack] fails only for want of frames, and the stack can be used. *)
Lemma map_stack_spec live0 m h v n :
  mem_ok live0 m (v :: h) → 0 < n →
  match map_stack m v n with
  | Ret (stack, m') => mem_ok live0 m' h ∧ maps_more m m' ∧ usable m' (top stack)
  | Panic msg => mem_msg msg
  end.
Proof.
  intros (live & Hr & E) Hn. unfold map_stack.
  destruct (map_stack_pages _ _ _) as [[ph pm]|msg] eqn:Em; [|by eapply map_stack_pages_msg]. cbn -[PAGE_SIZE_BYTES].
  assert (0 < PAGE_SIZE_BYTES) as HP by done. rewrite (proj2 (Z.ltb_lt _ _)) by nia. cbn -[PAGE_SIZE_BYTES].
  assert (v ∈ live) as Hv by (rewrite E; left). apply list_elem_of_split in Hv as (l1 & l2 & ->).
  pose proof (va_reach_inv _ _ Hr) as Hinv. destruct (va_drop_spec _ _ _ _ Hinv) as (l' & Ed & _).
  rewrite Ed. cbn -[PAGE_SIZE_BYTES]. pose proof (map_stack_pages_mapped _ _ _ _ _ Em) as Hmap. split_and!.
  - exists (l1 ++ l2). split; [by eapply va_drop|]. apply (Permutation_cons_inv (a := v)).
    rewrite <- E. by rewrite Permutation_middle.
  - intros p Hp. apply Hmap. by right.
  - split.
    2:{ apply Hmap. left. apply list_elem_of_fmap. exists (Z.to_nat n - 1)%nat. split; [|apply elem_of_seq; lia].
        cbn -[PAGE_SIZE_BYTES]. replace (Z.of_nat (Z.to_nat n - 1)) with (n - 1) by lia. ring. }
    cbn -[PAGE_SIZE_BYTES]. destruct (va_ok _ _ Hinv v) as (_ & k & Hk & He); [set_solver|].
    assert (START_ADDR ≤ astart v < END_ADDR) by (apply (va_cover _ _ Hinv); right; exists v; split; [set_solver|split; nia]).
    unfold START_ADDR in *. nia.
Qed.

(** ** Synchronisation *)

Definition is_ready (a : ap_state) : bool := match a with Ready _ _ => true | _ => false end.

Definition is_woken (a : ap_state) : bool := match a with Woken => true | _ => false end.

(** A processor panics only when the memory runs out. *)
Definition ap_ok (a : ap_state) : Prop := match a with ApPanic msg _ => mem_msg msg | _ => True end.

(** The processors that are not yet started. *)
Definition waiting (b : bsp_state) : list Z :=
  match b with
  | Next rest _ | Polling _ _ rest _ => rest
  | Allocating cpu _ rest _ | Stored cpu rest _ => cpu :: rest
  | _ => []
  end.

Definition stopped (b : bsp_state) : bool := match b with BspPanic _ _ => true | _ => false end.

(** What the boot processor knows at each point. *)
Definition bsp_ok (s : smp) : Prop :=
  match bsp s with
  | Next _ count | Joining count | Allocating _ _ _ count =>
      free_stack s = 0 ∧ (∀ c, aps s !! c ≠ Some Woken) ∧ count = Z.of_nat (size (aps s))
  | Stored _ _ count =>
      usable (mem s) (free_stack s) ∧ (∀ c, aps s !! c ≠ Some Woken) ∧ count = Z.of_nat (size (aps s))
  | Polling _ _ _ count => count + 1 = Z.of_nat (size (aps s))
  | Finished => ∀ c a, aps s !! c = Some a → is_ready a = true
  | BspPanic msg _ => msg = "timeout" ∨ mem_msg msg
  end.

Record sync_ok (cpus : list Z) (s : smp) : Prop := {
  sy_woken : ∀ c, aps s !! c = Some Woken → usable (mem s) (free_stack s);
  sy_one : ∀ c c', aps s !! c = Some Woken → aps s !! c' = Some Woken → c = c';
  sy_alive : ∀ c a, aps s !! c = Some a → ap_ok a;
  sy_count : ready_count s = Z.of_nat (size (filter (λ '(_, a), is_ready a = true) (aps s)));
  sy_cpus : stopped (bsp s) = false → NoDup (waiting (bsp s)) ∧ (∀ c, c ∈ waiting (bsp s) → aps s !! c = None) ∧
    ∀ c, c ∈ cpus ↔ c ∈ waiting (bsp s) ∨ is_Some (aps s !! c);
  sy_bsp : bsp_ok s;
}.

(** When as many are ready as were started, all are. *)
Lemma all_ready (m : gmap Z ap_state) :
  (size m ≤ size (filter (λ '(_, a), is_ready a = true) m))%nat → ∀ c a, m !! c = Some a → is_ready a = true.
Proof.
  intros Hs c a Hl. assert (filter (λ '(_, a), is_ready a = true) m = m) as E.
  { apply map_subseteq_size_eq; [apply map_filter_subseteq|done]. }
  rewrite <- E in Hl. by apply map_lookup_filter_Some in Hl as [_ Hr].
Qed.

(** A step of the boot processor that starts no processor. *)
Lemma sync_bsp cpus s s' :
  aps s' = aps s → ready_count s' = ready_count s → bsp_ok s' →
  (∀ c, aps s !! c = Some Woken → free_stack s' = free_stack s) → maps_more (mem s) (mem s') →
  (stopped (bsp s') = false → stopped (bsp s) = false ∧ waiting (bsp s') = waiting (bsp s)) →
  sync_ok cpus s → sync_ok cpus s'.
Proof.
  intros Ea Er Hb Hf Hmm Hw [Hwk H1 Hal Hc Hcp _]. split; rewrite ?Ea, ?Er; try done.
  - intros c Hl. rewrite (Hf c Hl). eapply usable_more; eauto.
  - intros Hs. destruct (Hw Hs) as [Hs' ->]. auto.
Qed.

(** Waking a processor. *)
Lemma sync_wake cpus s cpu rest count :
  bsp s = Stored cpu rest count → sync_ok cpus s → sync_ok cpus (bsp_step s).
Proof.
  intros Eb [Hwk H1 Hal Hc Hcp Hb]. unfold bsp_step, bsp_ok in *. rewrite Eb in *.
  destruct Hb as (Hfree & Hnw & Hcount). destruct Hcp as (Hnd & Hnone & Hcpus); [done|]. cbn in Hnd, Hnone, Hcpus.
  apply NoDup_cons in Hnd as [Hcr Hnd]. assert (aps s !! cpu = None) as Hn by (apply Hnone; left).
  assert (∀ c, <[cpu := Woken]> (aps s) !! c = Some Woken → c = cpu) as Hone.
  { intros c [[<- _]|[_ Hl]]%lookup_insert_Some; [done|]. by apply Hnw in Hl. }
  split; cbn.
  - done.
  - by intros c c' ->%Hone ->%Hone.
  - intros c a [[<- <-]|[_ Hl]]%lookup_insert_Some; [done|eauto].
  - rewrite map_filter_insert_False by done. by rewrite delete_id.
  - intros _. split_and!; [done| |].
    + intros c Hin. rewrite lookup_insert_ne by (intros ->; done). apply Hnone. by right.
    + intros c. rewrite Hcpus, elem_of_cons, lookup_insert_is_Some. destruct (decide (c = cpu)); naive_solver.
  - unfold bsp_ok. cbn. rewrite map_size_insert_None by done. lia.
Qed.

(** A started processor changes its own entry only. *)
Lemma sync_ap cpus s s' cpu a a' :
  aps s !! cpu = Some a → aps s' = <[cpu := a']> (aps s) → bsp s' = bsp s → a' ≠ Woken → ap_ok a' →
  maps_more (mem s) (mem s') → is_ready a = false → ready_count s' = ready_count s + (if is_ready a' then 1 else 0) →
  free_stack s' = (if is_woken a then 0 else free_stack s) →
  sync_ok cpus s → sync_ok cpus s'.
Proof.
  intros El Ea Eb Hnw Hok Hmm Hr Erc Efs [Hwk H1 Hal Hc Hcp Hb].
  assert (∀ c, aps s' !! c = Some Woken → a ≠ Woken ∧ aps s !! c = Some Woken) as Hw'.
  { intros c. rewrite Ea. intros [[<- ?]|[Hne Hl]]%lookup_insert_Some; [congruence|]. split; [|done].
    intros ->. apply Hne. by apply H1. }
  assert (is_Some (aps s !! cpu)) as His by eauto. split.
  - intros c Hl. destruct (Hw' c Hl) as [Hna Hl']. rewrite Efs. destruct a; try done; eapply usable_more; eauto.
  - intros c c' [_ Hl]%Hw' [_ Hl']%Hw'. eauto.
  - intros c b. rewrite Ea. intros [[<- <-]|[_ Hl]]%lookup_insert_Some; [done|eauto].
  - rewrite Erc, Ea. destruct (is_ready a') eqn:Er'.
    + rewrite map_filter_insert_True, map_size_insert_None; [lia| |done].
      apply map_lookup_filter_None. right. intros y Hy. rewrite El in Hy. injection Hy as <-. congruence.
    + rewrite map_filter_insert_not'; [lia|congruence|]. intros y Hy. rewrite El in Hy. injection Hy as <-. congruence.
  - rewrite Eb, Ea. intros Hst. destruct (Hcp Hst) as (Hnd & Hnone & Hcpus). split_and!; [done| |].
    + intros c Hin. rewrite lookup_insert_ne; [by apply Hnone|]. intros ->. by rewrite (Hnone _ Hin) in El.
    + intros c. rewrite Hcpus, lookup_insert_is_Some. destruct (decide (c = cpu)) as [->|]; naive_solver.
  - unfold bsp_ok in *. rewrite Eb.
    assert (size (aps s') = size (aps s)) as Esz by (rewrite Ea; by apply map_size_insert_Some).
    assert ((∀ c, aps s !! c ≠ Some Woken) → ∀ c, aps s' !! c ≠ Some Woken) as Hk by (intros H c [_ Hl]%Hw'; by apply H in Hl).
    assert ((∀ c, aps s !! c ≠ Some Woken) → free_stack s' = free_stack s) as Hkf.
    { intros H. rewrite Efs. destruct a; try done. by apply H in El. }
    destruct (bsp s); rewrite ?Esz; try done.
    1-4: destruct Hb as (Hf & Hn & Hcn); rewrite (Hkf Hn); eauto using usable_more.
    apply Hb in El. congruence.
Qed.

(** ** Steps *)

Definition smp_ok (cpus : list Z) (live0 : list Allocation) (s : smp) : Prop :=
  sync_ok cpus s ∧ mem_ok live0 (mem s) (held s).

Lemma bsp_step_ok cpus live0 s : smp_ok cpus live0 s → smp_ok cpus live0 (bsp_step s).
Proof.
  intros [Hs Hm]. pose proof (sy_bsp _ _ Hs) as Hb. unfold smp_ok.
  destruct (bsp s) as [[|cpu rest] count|cpu v rest count|cpu rest count|cpu [|n] rest count|count| |] eqn:Eb;
    unfold held, bsp_ok in *; rewrite Eb in *; cbn [held_bsp app] in Hm.
  - unfold bsp_step. rewrite Eb. split; [|done]. apply (sync_bsp cpus s); try done; try (by intros p); by rewrite Eb.
  - destruct Hb as (Hf & Hn & Hc). unfold bsp_step. rewrite Eb, Hf. cbn [Z.eqb negb].
    destruct (allocate _ _) as [[v l]|msg] eqn:Ea.
    + split; [|by apply (mem_ok_allocate _ _ _ 6)]. apply (sync_bsp cpus s); try done; try (by intros p); by rewrite Eb.
    + split; [|done]. apply (sync_bsp cpus s); try done; try (by intros p). right. by eapply allocate_msg.
  - destruct Hb as (Hf & Hn & Hc). pose proof (map_stack_spec _ _ _ _ 5 Hm ltac:(lia)) as Hms.
    unfold bsp_step. rewrite Eb. destruct (map_stack _ _ _) as [[st m]|msg].
    + destruct Hms as (Hm' & Hmm & Ht). split; [|done]. apply (sync_bsp cpus s); try done; try (by intros p).
      * intros c Hw. by apply Hn in Hw.
      * by rewrite Eb.
    + split; [|done]. apply (sync_bsp cpus s); try done; try (by intros p). by right.
  - pose proof (sync_wake _ _ _ _ _ Eb Hs). unfold bsp_step in *. rewrite Eb in *. split; [done|]. cbn.
    destruct (sy_cpus _ _ Hs) as (_ & Hnone & _); [by rewrite Eb|]. rewrite Eb in Hnone.
    revert Hm. apply mem_ok_perm. rewrite held_insert, delete_id; [done|]. apply Hnone. left.
  - unfold bsp_step. rewrite Eb. split; [|done]. apply (sync_bsp cpus s); try done; try (by intros p). by left.
  - unfold bsp_step. rewrite Eb. destruct (Z.eqb_spec (free_stack s) 0) as [E0|E0].
    + split; [|done]. apply (sync_bsp cpus s); try done; try (by intros p); try (by rewrite Eb). split; [done|]. split; [|done].
      intros c [Hw _]%(sy_woken _ _ Hs). lia.
    + split; [|done]. apply (sync_bsp cpus s); try done; try (by intros p); by rewrite Eb.
  - destruct Hb as (Hf & Hn & Hc). unfold bsp_step. rewrite Eb.
    destruct (Z.ltb_spec (ready_count s) count); [split; [done|]; by rewrite Eb|].
    split; [|done]. apply (sync_bsp cpus s); try done; try (by intros p); try (by rewrite Eb). unfold bsp_ok. cbn. apply all_ready.
    pose proof (sy_count _ _ Hs). lia.
  - unfold bsp_step. rewrite Eb. split; [done|]. by rewrite Eb.
  - unfold bsp_step. rewrite Eb. split; [done|]. by rewrite Eb.
Qed.

Lemma held_change b m c a a' :
  m !! c = Some a →
  held_of a ++ held_bsp b ++ held_aps (<[c := a']> m) ≡ₚ held_of a' ++ held_bsp b ++ held_aps m.
Proof. intros Hl. rewrite held_insert, (held_lookup m c a Hl). solve_Permutation. Qed.

(** A processor that stops keeps what it has. *)
Lemma ap_stops cpus live0 cpu a a' s :
  aps s !! cpu = Some a → ap_ok a' → held_of a' = held_of a → is_ready a = false → is_woken a = false →
  is_ready a' = false → a' ≠ Woken → smp_ok cpus live0 s →
  smp_ok cpus live0 (MkSmp (free_stack s) (ready_count s) (mem s) (<[cpu := a']> (aps s)) (bsp s)).
Proof.
  intros El Hok Hh Hr Hw Hr' Hw' [Hs Hm]. split.
  - eapply (sync_ap _ _ _ _ a); try done; try (by intros p); cbn; rewrite ?Hr', ?Hw; (lia || done).
  - revert Hm. apply mem_ok_perm. symmetry. pose proof (held_change (bsp s) (aps s) cpu a a' El) as Hp.
    rewrite Hh in Hp. by apply Permutation_app_inv_l in Hp.
Qed.

Lemma ap_step_ok cpus live0 cpu s : smp_ok cpus live0 s → smp_ok cpus live0 (ap_step cpu s).
Proof.
  intros Hsmp. pose proof Hsmp as [Hs Hm]. unfold ap_step.
  destruct (aps s !! cpu) as [[|v f|v f al|v f|v f|msg kept|kept]|] eqn:El; try done.
  - destruct (sy_woken _ _ Hs _ El) as [Hf [f Hfr]].
    assert (ap_take_stack (free_stack s) = Ret (free_stack s)) as ->.
    { unfold ap_take_stack. rewrite (proj2 (Z.eqb_neq _ _)), (proj2 (Z.ltb_lt _ _)) by lia. done. }
    rewrite Hfr. split; [by eapply (sync_ap _ _ _ _ Woken); try done; try (by intros p); cbn; lia|].
    revert Hm. apply mem_ok_perm. symmetry. apply (held_change (bsp s) (aps s) cpu Woken (Running _ _) El).
  - destruct (bool_decide _); cbn [negb]; [|by eapply ap_stops].
    destruct (allocate _ _) as [[al l]|msg] eqn:Ea; [|apply allocate_msg in Ea; by eapply ap_stops].
    split; [by eapply (sync_ap _ _ _ _ (Running v f)); try done; try (by intros p); cbn; lia|].
    apply (mem_ok_allocate _ _ _ 2 al l) in Hm; [|lia|done]. revert Hm. apply mem_ok_perm. symmetry.
    apply (held_change (bsp s) (aps s) cpu (Running v f) (Allocated v f al) El).
  - destruct (bool_decide _); cbn [negb]; [|by eapply ap_stops].
    assert (mem_ok live0 (mem s) (al :: held_bsp (bsp s) ++ held_aps (<[cpu := Initialised v f]> (aps s)))) as Hm'.
    { revert Hm. apply mem_ok_perm. symmetry.
      apply (held_change (bsp s) (aps s) cpu (Allocated v f al) (Initialised v f) El). }
    pose proof (map_stack_spec _ _ _ _ 1 Hm' ltac:(lia)) as Hms.
    destruct (map_stack _ _ _) as [[st m]|msg]; [|by eapply ap_stops].
    destruct Hms as (Hms & Hmm & _). split; [|done].
    by eapply (sync_ap _ _ _ _ (Allocated v f al)); try done; try (by intros p); cbn; lia.
  - destruct (bool_decide _); cbn [negb]; [|by eapply ap_stops].
    split; [by eapply (sync_ap _ _ _ _ (Initialised v f)); try done; try (by intros p); cbn; lia|].
    revert Hm. apply mem_ok_perm. symmetry. apply (held_change (bsp s) (aps s) cpu (Initialised v f) (Ready v f) El).
Qed.

Lemma start_all_ok cpus m live0 :
  NoDup (drop 1 cpus) → va_reach (free_list m) live0 → smp_ok (drop 1 cpus) live0 (start_all cpus m).
Proof.
  intros Hnd Hr. split; [|by exists live0]. split; cbn; try (intros; simplify_map_eq; done).
  intros _. split_and!; [done|done|]. intros c. rewrite lookup_empty. split; [auto|]. by intros [H|[? H]].
Qed.

Lemma smp_reach_ok cpus live0 s s' : rtc smp_step s s' → smp_ok cpus live0 s → smp_ok cpus live0 s'.
Proof.
  induction 1 as [|s1 s2 s3 Hstep _ IH]; [done|]. intros H0. apply IH.
  destruct Hstep; [by apply bsp_step_ok|by apply ap_step_ok].
Qed.

Lemma held_none m : (∀ c a, m !! c = Some a → held_of a = []) → held_aps m = [].
Proof.
  intros Hn. unfold held_aps. assert (∀ p, p ∈ map_to_list m → held_of p.2 = []) as Hl.
  { intros [c a] Hin%elem_of_map_to_list. by eapply Hn. }
  induction (map_to_list m) as [|p l IH]; [done|]. rewrite bind_cons, (Hl p) by left. apply IH.
  intros q Hq. apply Hl. by right.
Qed.

Lemma free_iff l live a :
  va_reach l live → is_free l a ↔ START_ADDR ≤ a < END_ADDR ∧ ¬ ∃ al, al ∈ live ∧ in_alloc al a.
Proof.
  intros Hr%va_reach_inv. rewrite (va_cover _ _ Hr). split.
  - intros Hf. split; [by left|]. intros (al & Hal & Hin). by apply (va_not_free _ _ Hr al a).
  - intros [[?|?] ?]; done.
Qed.

(** C19: the hand-over of stacks when the processors are started, however they interleave.  At most
    one processor at a time has been woken up and has no stack yet; it finds a valid stack in
    [AP_FREE_STACK], whose top page is mapped, and runs on it.  The ready count is the number of
    processors that have marked themselves ready.  A processor panics only when the memory runs
    out, and the boot processor only for that reason or because a processor does not come up within
    its polls; and when [start_all] returns, every processor of the table but the first is ready.
    The processors are not protected from losing their stacks afterwards ([smp_stack_lost]): one
    whose stack has been mapped to other frames takes no further step in the model. *)
Theorem smp_hand_over cpus m live0 s :
  NoDup (drop 1 cpus) → va_reach (free_list m) live0 → rtc smp_step (start_all cpus m) s →
  (∀ c, aps s !! c = Some Woken →
    (∀ c', aps s !! c' = Some Woken → c' = c) ∧
    ∃ frame, aps (ap_step c s) !! c = Some (Running (free_stack s) frame) ∧
      stack_frame (mem (ap_step c s)) (free_stack s) = Some frame) ∧
  ready_count s = Z.of_nat (size (filter (λ '(_, a), is_ready a = true) (aps s))) ∧
  (∀ c msg kept, aps s !! c = Some (ApPanic msg kept) → mem_msg msg) ∧
  (∀ msg kept, bsp s = BspPanic msg kept → msg = "timeout" ∨ mem_msg msg) ∧
  (bsp s = Finished → ∀ c, c ∈ drop 1 cpus → ∃ v frame, aps s !! c = Some (Ready v frame)).
Proof.
  intros Hnd Hr Hrun. destruct (smp_reach_ok _ _ _ _ Hrun (start_all_ok _ _ _ Hnd Hr)) as [Hs _].
  pose proof (sy_bsp _ _ Hs) as Hb. unfold bsp_ok in Hb. split_and!.
  - intros c Hc. split; [intros c' Hc'; by eapply (sy_one _ _ Hs)|].
    destruct (sy_woken _ _ Hs _ Hc) as [Hf [f Hfr]]. exists f. unfold ap_step. rewrite Hc. unfold ap_take_stack.
    rewrite (proj2 (Z.eqb_neq _ _)), (proj2 (Z.ltb_lt _ _)) by lia. cbn [negb rassert mbind outcome_bind].
    rewrite Hfr. cbn. by rewrite lookup_insert_eq.
  - apply (sy_count _ _ Hs).
  - intros c msg kept Hl. by apply (sy_alive _ _ Hs) in Hl.
  - by intros msg kept Eb; rewrite Eb in Hb.
  - intros Eb c Hc. rewrite Eb in Hb.
    apply (sy_cpus _ _ Hs) in Hc as [Hc|[a Hl]]; [|specialize (Hb c a Hl); destruct a; try done; eauto|by rewrite Eb].
    rewrite Eb in Hc. by apply not_elem_of_nil in Hc.
Qed.

(** When [start_all] returns, the virtual addresses that were free before are free again, those of
    the stacks the processors run on included. *)
Theorem smp_stacks_given_back cpus m live0 s :
  NoDup (drop 1 cpus) → va_reach (free_list m) live0 → rtc smp_step (start_all cpus m) s → bsp s = Finished →
  ∀ a, is_free (free_list (mem s)) a ↔ is_free (free_list m) a.
Proof.
  intros Hnd Hr Hrun Eb a. destruct (smp_reach_ok _ _ _ _ Hrun (start_all_ok _ _ _ Hnd Hr)) as [Hs Hm].
  pose proof (sy_bsp _ _ Hs) as Hb. unfold bsp_ok in Hb. rewrite Eb in Hb.
  destruct Hm as (live & Hr' & E). rewrite (free_iff _ _ a Hr'), (free_iff _ _ a Hr).
  unfold held in E. rewrite Eb, (held_none (aps s)) in E.
  - cbn in E. by setoid_rewrite E.
  - intros c b Hl. specialize (Hb c b Hl). by destruct b.
Qed.

(** Three processors: the second is started and ready, then the third. *)
Definition two_started : list (option Z) :=
  [None; None; None; Some 1; None; Some 1; Some 1; Some 1; None; None; None; Some 2].
Definition two_finished : list (option Z) := two_started ++ [None; Some 2; Some 2; Some 2; None; None].
Definition boot_mem : vmem := MkVmem FREE_LIST [0; 1; 2; 3; 4; 5; 6; 7; 8; 9; 10; 11] ∅.

Lemma smp_hand_over_witness :
  (∃ v frame, aps (smp_run (start_all [0; 1; 2] boot_mem) two_finished) !! 1 = Some (Ready v frame)) ∧
  ∃ v frame, aps (smp_run (start_all [0; 1; 2] boot_mem) two_finished) !! 2 = Some (Ready v frame).
Proof.
  assert (∀ c, c ∈ [1; 2] → ∃ v frame, aps (smp_run (start_all [0; 1; 2] boot_mem) two_finished) !! c = Some (Ready v frame)) as H.
  - refine (proj2 (proj2 (proj2 (proj2 (smp_hand_over [0; 1; 2] boot_mem [] _ _ _ _)))) _).
    + apply NoDup_cons. split; [set_solver|apply NoDup_singleton].
    + apply va_init.
    + apply smp_run_reach.
    + vm_compute. reflexivity.
  - exact (conj (H 1 (list_elem_of_here _ _)) (H 2 (list_elem_of_further _ _ _ (list_elem_of_here _ _)))).
Defined.

(** The stacks are not kept apart: as [alloc_stack] gives its addresses back, the third processor
    gets the stack of the second, which is running on it, and the pages of that stack are mapped to
    other frames under it. *)
Theorem smp_stacks_shared :
  let s := smp_run (start_all [0; 1; 2] boot_mem) two_started in
  ∃ v, aps s !! 1 = Some (Ready v 4) ∧ aps s !! 2 = Some (Running v 10) ∧ stack_frame (mem s) v = Some 10.
Proof. exists 4307550208. vm_compute. auto. Qed.

(** If the second processor is slow, its stack is taken while it starts: it is lost, and the boot
    processor waits for it for ever. *)
Definition second_slow : list (option Z) :=
  [None; None; None; Some 1; None; None; None; Some 1; None; Some 2; None; Some 2; Some 2; Some 2; None].

Theorem smp_stack_lost :
  let s := smp_run (start_all [0; 1; 2] boot_mem) second_slow in
  aps s !! 1 = Some (Lost []) ∧ (∃ v frame, aps s !! 2 = Some (Ready v frame)) ∧ bsp s = Joining 2 ∧
  ∀ s', smp_step s s' → s' = s.
Proof.
  intros s.
  assert (aps s !! 1 = Some (Lost []) ∧ (∃ v frame, aps s !! 2 = Some (Ready v frame)) ∧ bsp s = Joining 2 ∧
    ready_count s = 1 ∧ aps s = {[1 := Lost []; 2 := Ready 4307550208 9]}) as (H1 & H2 & H3 & H4 & H5).
  { split; [vm_compute; reflexivity|]. split; [eexists _, _; vm_compute; reflexivity|]. split; [vm_compute; reflexivity|].
    split; [vm_compute; reflexivity|]. vm_compute. reflexivity. }
  clearbody s. split_and!; try done. intros s' Hstep. destruct Hstep as [s|cpu s].
  - unfold bsp_step. by rewrite H3, H4.
  - unfold ap_step. rewrite H5. destruct (decide (cpu = 1)) as [->|]; [by simplify_map_eq|].
    destruct (decide (cpu = 2)) as [->|]; by simplify_map_eq.
Qed.
