(* ===== verification/Idt.v ===== *)
(** * Idt: descriptor tables (src/interrupt/idt.rs, src/interrupt/gdt.rs, src/interrupt/tss.rs and
    the tables of src/interrupt/mod.rs)

    A table is bytes in memory, and what the processor makes of an interrupt is decoded from those
    bytes as the architecture manual has it ([cpu_gate]).  The addresses of the handlers' machine
    code are a parameter, and so are the descriptors of the x86_64 crate.  Loading the table
    registers is left out. *)

From stdpp Require Import base gmap list strings.
From Stdlib Require Import ZArith Lia.
From S2P Require Import Prelude Bytes Ranges VirtAlloc Args ProcessMem Acpi IoApic.
Open Scope Z_scope.

(** ** idt.rs *)

Definition GDT_SELECTOR_CODE : Z := 0x08.
Definition ADDRESS : Z := 0.
Definition ENTRY_COUNT : Z := 0x100.

Record Descriptor := MkDescriptor {
  pointer_low : Z;
  gdt_selector : Z;
  ist_offset : Z;
  options : Z;
  pointer_middle : Z;
  pointer_high : Z;
}.

Definition Descriptor_new (present : bool) (pointer ring : Z) (ist_index : option Z) : outcome Descriptor :=
  let ist_offset := match ist_index with Some i => i + 1 | None => 0 end in
  _ ← rassert (ist_offset <? 8) "ist_offset < 0b1000";
  _ ← rassert (present || ((pointer =? 0) && (ring =? 0))) "present || (pointer == 0 && ring == Ring0)";
  Ret (MkDescriptor (Z.land pointer 0xffff) GDT_SELECTOR_CODE ist_offset
    (Z.lor (Z.lor 0xe (Z.shiftl ring 5)) (Z.shiftl (Z.b2z present) 7))
    (Z.shiftr (Z.land pointer 0xffff0000) 16)
    (Z.shiftr (Z.land pointer 0xffffffff00000000) 32)).

(** The packed structure in memory. *)
Definition Descriptor_bytes (d : Descriptor) : list Z :=
  to_le 2 (pointer_low d) ++ to_le 2 (gdt_selector d) ++ to_le 1 (ist_offset d) ++ to_le 1 (options d) ++
  to_le 2 (pointer_middle d) ++ to_le 4 (pointer_high d) ++ to_le 4 0.

(** ** The tables of mod.rs *)

(** The wrappers that the macros make, by their handler and argument. *)
Inductive wrapper :=
| SimpleException (text : string)
| Exception (name : string)
| ExceptionWithCode (name : string)
| IrqHandler (name : string)
| IrqSwitch (name : string) (arg : Z).

(** [handlers[i] = ...], in the order of the source. *)
Definition handlers : list (Z * wrapper * option Z) :=
  [ (0x00, SimpleException "Divide-by-zero Error", None);
    (0x03, Exception "exception_bp", None);
    (0x06, Exception "exception_ud", None);
    (0x08, ExceptionWithCode "exception_df", Some 0);
    (0x0b, ExceptionWithCode "exception_snp", None);
    (0x0d, ExceptionWithCode "exception_gpf", None);
    (0x0e, ExceptionWithCode "exception_pf", None);
    (0x20, IrqHandler "exception_irq0", None);
    (0x21, IrqHandler "exception_irq1", None);
    (0x27, IrqHandler "exception_irq7", None);
    (0x2e, IrqHandler "exception_irq14", None);
    (0x2f, IrqHandler "exception_irq15", None) ] ++
  ((λ v, (v, IrqSwitch "irq_dynamic" v, None)) <$> seqZ 0x30 0x70) ++
  [ (0xd7, SimpleException "Syscall interrupt while in kernel", None);
    (0xd8, IrqSwitch "exception_tsc_deadline" 0xd8, None);
    (0xdd, Exception "ipi_panic", None);
    (0xff, SimpleException "I/O APIC masked a hardware irq", None) ].

(** Descriptors written one after the other. *)
Fixpoint write_descriptors (mem : gmap Z Z) (dst : Z) (l : list Descriptor) : gmap Z Z :=
  match l with
  | [] => mem
  | d :: l => write_descriptors (write_bytes mem dst (Descriptor_bytes d)) (dst + 16) l
  end.

Section tables.
(** The address of a wrapper's machine code. *)
Context (code : wrapper → Z).

Fixpoint assign (ds : list Descriptor) (hs : list (Z * wrapper * option Z)) : outcome (list Descriptor) :=
  match hs with
  | [] => Ret ds
  | (i, w, ist) :: hs => d ← Descriptor_new true (code w) 0 ist; assign (<[Z.to_nat i := d]> ds) hs
  end.

(** [init] *)
Definition idt_init (mem : gmap Z Z) : outcome (gmap Z Z) :=
  empty ← Descriptor_new false 0 0 None;
  ds ← assign (replicate (Z.to_nat ENTRY_COUNT) empty) handlers;
  Ret (write_descriptors mem ADDRESS ds).

End tables.

(** The entries of the jump table in the code shared with the processes. *)
Definition idt_table_entry_size : Z := 5.

Fixpoint process_descriptors (n : nat) (index idt_table : Z) : outcome (list Descriptor) :=
  match n with
  | O => Ret []
  | S n =>
      d ← Descriptor_new true (idt_table + index * idt_table_entry_size) 0 None;
      ds ← process_descriptors n (index + 1) idt_table;
      Ret (d :: ds)
  end.

(** [write_process_dts]; [gdt_kernel_code] is the flags of a code segment in the x86_64 crate. *)
Definition write_process_dts (gdt_kernel_code : Z) (mem : gmap Z Z) (dst idt_table : Z) : outcome (gmap Z Z) :=
  ds ← process_descriptors (Z.to_nat ENTRY_COUNT) 0 idt_table;
  let mem := write_descriptors mem dst ds in
  let idt_size_bytes := 16 * ENTRY_COUNT in
  let mem := write_bytes mem (dst + idt_size_bytes) (to_le 8 0) in
  Ret (write_bytes mem (dst + (idt_size_bytes + 8)) (to_le 8 gdt_kernel_code)).

(** ** gdt.rs and tss.rs *)

Definition GDT_ADDR : Z := 0x4000.
Definition TSS_ADDR : Z := 0x6000.
Definition GDT_MAX_SIZE : Z := 8.
Definition DOUBLE_FAULT_IST_INDEX : nat := 0.

(** [Descriptor] of the x86_64 crate *)
Inductive segment := UserSegment (value : Z) | SystemSegment (value_low value_high : Z).

Record GdtBuilder := MkGdtBuilder { gdt_base : Z; next_entry : Z }.

Definition GdtBuilder_new (addr : Z) : GdtBuilder := MkGdtBuilder addr 1.

(** The selector of an index at ring 0 is the index times 8. *)
Definition add_entry (self : GdtBuilder) (mem : gmap Z Z) (entry : segment) : outcome (Z * GdtBuilder * gmap Z Z) :=
  let index := next_entry self in
  '(n, mem) ← match entry with
    | UserSegment value =>
        _ ← rassert (index + 1 <? GDT_MAX_SIZE) "GDT full";
        Ret (1, write_bytes mem (gdt_base self + 8 * index) (to_le 8 value))
    | SystemSegment value_low value_high =>
        _ ← rassert (index + 2 <? GDT_MAX_SIZE) "GDT full";
        Ret (2, write_bytes (write_bytes mem (gdt_base self + 8 * index) (to_le 8 value_low))
                  (gdt_base self + 8 * (index + 1)) (to_le 8 value_high))
    end;
  Ret (index * 8, MkGdtBuilder (gdt_base self) (index + n), mem).

(** The limit that [load] sets. *)
Definition load_limit (self : GdtBuilder) : Z := next_entry self * 8 - 1.

(** The counters wrap around at 256; the task state segment is kept as the stacks of its table. *)
Record tables := MkTables {
  used_gdts : Z;
  used_tss : Z;
  tss_at : gmap Z (list Z);
  table_mem : gmap Z Z;
}.

Definition create_new (s : tables) : GdtBuilder * tables :=
  (GdtBuilder_new (GDT_ADDR + used_gdts s * (GDT_MAX_SIZE * 8)),
   MkTables ((used_gdts s + 1) mod 256) (used_tss s) (tss_at s) (table_mem s)).

Definition TSS_SIZE : Z := 104.

Definition tss_store (tss : list Z) (s : tables) : Z * tables :=
  let ptr := TSS_ADDR + used_tss s * TSS_SIZE in
  (ptr, MkTables (used_gdts s) ((used_tss s + 1) mod 256) (<[ptr := tss]> (tss_at s)) (table_mem s)).

(** What the processor is given: the selectors, the table and its limit, the task state segment. *)
Record loaded := MkLoaded { kernel_cs_sel : Z; tss_sel : Z; lgdt_base : Z; lgdt_limit : Z; ltr_tss : Z }.

Section gdt.
(** [kernel_code_segment] and [tss_segment] of the x86_64 crate *)
Context (kernel_code_segment : Z) (tss_low tss_high : Z → Z).

Definition init_gdt_and_tss (free : list virt.Block) (s : tables) : outcome (loaded * list virt.Block * tables) :=
  '(double_fault_stack, _, free) ← virt.alloc_stack free 1;
  let ist := <[DOUBLE_FAULT_IST_INDEX := virt.top double_fault_stack]> (replicate 7 0) in
  let '(tss, s) := tss_store ist s in
  let '(b, s) := create_new s in
  '(cs, b, mem) ← add_entry b (table_mem s) (UserSegment kernel_code_segment);
  '(ts, b, mem) ← add_entry b mem (SystemSegment (tss_low tss) (tss_high tss));
  Ret (MkLoaded cs ts (gdt_base b) (load_limit b) tss, free, MkTables (used_gdts s) (used_tss s) (tss_at s) mem).

End gdt.

(** ** The processor *)

Record gate := MkGate { gate_offset : Z; gate_selector : Z; gate_ist : Z; gate_dpl : Z }.

(** The interrupt gate in 16 bytes of the table, if it is present. *)
Definition cpu_gate (b : list Z) : option gate :=
  let flags := nth 5 b 0 in
  if Z.testbit flags 7 && (Z.land flags 0x1f =? 0xe) then
    Some (MkGate
      (from_le (take 2 b) + 2 ^ 16 * from_le (take 2 (drop 6 b)) + 2 ^ 32 * from_le (take 4 (drop 8 b)))
      (from_le (take 2 (drop 2 b))) (Z.land (nth 4 b 0) 7) (Z.land (Z.shiftr flags 5) 3))
  else None.

(** The gate of an interrupt, with a table at [base]. *)
Definition cpu_dispatch (mem : gmap Z Z) (base v : Z) : option gate := cpu_gate (mem_read mem (base + 16 * v) 16).

(** ** Encoding *)

Definition descriptor (pointer : Z) (ist : Z) : Descriptor :=
  MkDescriptor (pointer mod 2 ^ 16) GDT_SELECTOR_CODE ist 0x8e (pointer / 2 ^ 16 mod 2 ^ 16) (pointer / 2 ^ 32 mod 2 ^ 32).

Definition ist_value (ist_index : option Z) : Z := match ist_index with Some i => i + 1 | None => 0 end.

Lemma land_field p k n : 0 ≤ k → 0 ≤ n → Z.shiftr (Z.land p (Z.shiftl (Z.ones n) k)) k = p / 2 ^ k mod 2 ^ n.
Proof.
  intros Hk Hn. rewrite Z.shiftr_land, Z.shiftr_shiftl_l, Z.sub_diag, Z.shiftl_0_r by lia.
  by rewrite Z.land_ones, Z.shiftr_div_pow2 by lia.
Qed.

Lemma Descriptor_new_present p ist :
  ist_value ist < 8 → Descriptor_new true p 0 ist = Ret (descriptor p (ist_value ist)).
Proof.
  intros Hi. unfold Descriptor_new. fold (ist_value ist). rewrite (proj2 (Z.ltb_lt _ _) Hi). cbn [rassert mbind outcome_bind orb].
  unfold descriptor. f_equal. f_equal.
  - change 0xffff with (Z.ones 16). by rewrite Z.land_ones.
  - change 0xffff0000 with (Z.shiftl (Z.ones 16) 16). by apply land_field.
  - change 0xffffffff00000000 with (Z.shiftl (Z.ones 32) 32). by apply land_field.
Qed.

(** The processor decodes what was encoded. *)
Lemma gate_round_trip p ist :
  0 ≤ p < 2 ^ 64 → 0 ≤ ist < 8 → cpu_gate (Descriptor_bytes (descriptor p ist)) = Some (MkGate p GDT_SELECTOR_CODE ist 0).
Proof.
  intros Hp Hi. unfold descriptor.
  set (a := p mod 2 ^ 16). set (b := p / 2 ^ 16 mod 2 ^ 16). set (c := p / 2 ^ 32 mod 2 ^ 32).
  change (Some (MkGate (from_le (to_le 2 a) + 2 ^ 16 * from_le (to_le 2 b) + 2 ^ 32 * from_le (to_le 4 c))
    (from_le (to_le 2 GDT_SELECTOR_CODE)) (Z.land (ist mod 256) (Z.ones 3)) 0) = Some (MkGate p GDT_SELECTOR_CODE ist 0)).
  rewrite !from_le_to_le, Z.land_ones, (Z.mod_small ist 256), (Z.mod_small ist (2 ^ 3)) by lia.
  change (256 ^ Z.of_nat 2) with (2 ^ 16). change (256 ^ Z.of_nat 4) with (2 ^ 32). do 2 f_equal.
  subst a b c. Z.to_euclidean_division_equations. lia.
Qed.

Lemma Descriptor_bytes_length d : length (Descriptor_bytes d) = 16%nat.
Proof. unfold Descriptor_bytes. by rewrite !length_app, !to_le_length. Qed.

(** Reading back a table, and the memory around it. *)
Lemma write_descriptors_other mem dst l a n :
  a + n ≤ dst ∨ dst + 16 * Z.of_nat (length l) ≤ a → mem_read (write_descriptors mem dst l) a n = mem_read mem a n.
Proof.
  revert mem dst. induction l as [|d l IH]; intros mem dst Ha; cbn [write_descriptors]; [done|]. cbn [length] in Ha.
  rewrite IH by lia. apply mem_read_write_ne. rewrite Descriptor_bytes_length. lia.
Qed.

Lemma write_descriptors_at mem dst l i d :
  l !! i = Some d → mem_read (write_descriptors mem dst l) (dst + 16 * Z.of_nat i) 16 = Descriptor_bytes d.
Proof.
  revert mem dst i. induction l as [|d' l IH]; intros mem dst [|i] Hi; cbn [lookup list_lookup write_descriptors] in Hi |- *; [done|done| |].
  - injection Hi as <-. rewrite write_descriptors_other, Z.add_0_r by lia.
    pose proof (mem_read_write mem dst (Descriptor_bytes d')) as E. by rewrite Descriptor_bytes_length in E.
  - rewrite <- (IH (write_bytes mem dst (Descriptor_bytes d')) (dst + 16) i Hi). f_equal. lia.
Qed.

(** ** The kernel's table *)

(** The handler the table names for an interrupt. *)
Definition handler_of (v : Z) : option (wrapper * option Z) :=
  (λ '(_, (_, w, ist)), (w, ist)) <$> list_find (λ '(i, _, _), i = v) handlers.

Section kernel_table.
Context (code : wrapper → Z) (code_ok : ∀ w, 0 ≤ code w < 2 ^ 64).

Definition entry_of (v : Z) : Descriptor :=
  match handler_of v with
  | Some (w, ist) => descriptor (code w) (ist_value ist)
  | None => MkDescriptor 0 GDT_SELECTOR_CODE 0 0xe 0 0
  end.

Lemma assign_ok ds hs :
  Forall (λ '(_, _, ist), ist_value ist < 8) hs →
  assign code ds hs = Ret (foldl (λ ds '(i, w, ist), <[Z.to_nat i := descriptor (code w) (ist_value ist)]> ds) ds hs).
Proof.
  intros Hh. revert ds. induction Hh as [|[[i w] ist] hs Hi _ IH]; intros ds; [done|]. cbn [assign foldl].
  rewrite Descriptor_new_present by done. apply IH.
Qed.

Lemma idt_init_entries mem : idt_init code mem = Ret (write_descriptors mem ADDRESS (entry_of <$> seqZ 0 ENTRY_COUNT)).
Proof.
  unfold idt_init. assert (Descriptor_new false 0 0 None = Ret (MkDescriptor 0 GDT_SELECTOR_CODE 0 0xe 0 0)) as -> by reflexivity.
  cbn [mbind outcome_bind]. rewrite assign_ok by (apply (bool_decide_unpack _); vm_compute; exact I).
  cbn [mbind outcome_bind]. do 2 f_equal.
Qed.

Lemma handler_dynamic v : 0x30 ≤ v ≤ 0x9f → handler_of v = Some (IrqSwitch "irq_dynamic" v, None).
Proof.
  intros Hv. assert (Forall (λ v, handler_of v = Some (IrqSwitch "irq_dynamic" v, None)) (seqZ 0x30 0x70)) as Hf.
  { repeat constructor. }
  rewrite Forall_forall in Hf. apply Hf, elem_of_seqZ. lia.
Qed.

Lemma entry_dispatch v :
  0 ≤ v < ENTRY_COUNT → cpu_gate (Descriptor_bytes (entry_of v)) =
    match handler_of v with
    | Some (w, ist) => Some (MkGate (code w) GDT_SELECTOR_CODE (ist_value ist) 0)
    | None => None
    end.
Proof.
  intros Hv. unfold entry_of. destruct (handler_of v) as [[w ist]|] eqn:Eh; [|reflexivity]. apply gate_round_trip; [done|].
  unfold handler_of in Eh. destruct (list_find _ handlers) as [[i [[j w'] ist']]|] eqn:Ef; [|done]. cbn in Eh. injection Eh as <- <-.
  apply list_find_Some in Ef as (Hl & _). apply list_elem_of_lookup_2 in Hl.
  assert (Forall (λ '(_, _, ist), 0 ≤ ist_value ist < 8) handlers) as Hf by (apply (bool_decide_unpack _); vm_compute; exact I).
  rewrite Forall_forall in Hf. exact (Hf _ Hl).
Qed.

(** The vectors of the I/O APIC. *)
Lemma overridden_irq overrides irq n :
  0 ≤ irq < n → (∀ o, o ∈ overrides → 0 ≤ gsi o mod 256 < n) → 0 ≤ (overridden overrides irq).1.1 < n.
Proof.
  intros Hi. unfold overridden. set (s := (irq, false, false)). assert (0 ≤ s.1.1 < n) as Hs by done. clearbody s.
  revert s Hs. induction overrides as [|o os IH]; intros s Hs Ho; [done|]. cbn [foldl]. apply IH.
  - destruct (_ && _); [|done]. apply Ho. left.
  - intros o' Ho'. apply Ho. by right.
Qed.

(** C30: the interrupts of the kernel.  The table that [init] writes is the one the processor reads:
    each interrupt goes to the handler named for it, in the kernel's code segment and on the stack
    asked for, one without a handler has no gate, and no memory outside the table changes.  The
    vector the I/O APIC is programmed with for any of its interrupts (when the overrides lead to numbers below
    0x70, as many as the dynamic handler has) goes to the dynamic handler, which is given that vector. *)
Theorem idt_dispatches mem :
  ∃ mem', idt_init code mem = Ret mem' ∧
    (∀ v, 0 ≤ v < ENTRY_COUNT → cpu_dispatch mem' ADDRESS v =
      match handler_of v with
      | Some (w, ist) => Some (MkGate (code w) GDT_SELECTOR_CODE (ist_value ist) 0)
      | None => None
      end) ∧
    (∀ a n, a + n ≤ ADDRESS ∨ ADDRESS + 16 * ENTRY_COUNT ≤ a → mem_read mem' a n = mem_read mem a n) ∧
    (∀ overrides cpu irq r, 0 ≤ irq < 24 → (∀ o, o ∈ overrides → 0 ≤ gsi o mod 256 < 0x70) →
      redirect_for overrides cpu irq = Ret r →
      cpu_dispatch mem' ADDRESS (vector r) = Some (MkGate (code (IrqSwitch "irq_dynamic" (vector r))) GDT_SELECTOR_CODE 0 0)).
Proof.
  eexists. split; [apply idt_init_entries|].
  assert (∀ v, 0 ≤ v < ENTRY_COUNT → cpu_dispatch (write_descriptors mem ADDRESS (entry_of <$> seqZ 0 ENTRY_COUNT)) ADDRESS v =
      match handler_of v with
      | Some (w, ist) => Some (MkGate (code w) GDT_SELECTOR_CODE (ist_value ist) 0)
      | None => None
      end) as Hd.
  { intros v Hv. unfold cpu_dispatch. rewrite <- (Z2Nat.id v) at 1 by lia. rewrite (write_descriptors_at _ _ _ _ (entry_of v)).
    - by apply entry_dispatch.
    - rewrite list_lookup_fmap, lookup_seqZ_lt by lia. cbn. do 2 f_equal. lia. }
  split_and!; [exact Hd| |].
  - intros a n Ha. apply write_descriptors_other. rewrite length_fmap, length_seqZ. exact Ha.
  - intros overrides cpu irq r Hi Ho Hr. pose proof (overridden_irq overrides irq 0x70 ltac:(lia) Ho) as Hb.
    unfold redirect_for in Hr. destruct (overridden overrides irq) as [[i low] level]. cbn in Hb. outcome_inv. subst r.
    cbn [vector]. rewrite Hd, handler_dynamic by (unfold ENTRY_COUNT; lia). done.
Qed.

End kernel_table.

(** Handlers one page apart. *)
Definition example_code (w : wrapper) : Z :=
  match w with IrqSwitch _ v => 0x200000 + v mod 256 * 0x1000 | _ => 0x100000 end.

Lemma idt_dispatches_witness :
  ∃ mem', idt_init example_code ∅ = Ret mem' ∧
    cpu_dispatch mem' ADDRESS 0x41 = Some (MkGate 0x241000 0x08 0 0) ∧ cpu_dispatch mem' ADDRESS 1 = None.
Proof.
  destruct (idt_dispatches example_code) with (mem := ∅ : gmap Z Z) as (mem' & E & Hd & _ & _).
  - intros [| | | |? v]; cbn; [lia..|]. pose proof (Z.mod_pos_bound v 256). lia.
  - exists mem'. split; [exact E|]. split.
    + rewrite Hd by (unfold ENTRY_COUNT; lia). vm_compute. reflexivity.
    + rewrite Hd by (unfold ENTRY_COUNT; lia). vm_compute. reflexivity.
Defined.

(** ** The tables of a process *)

Lemma process_descriptors_ok n index table :
  process_descriptors n index table =
    Ret ((λ i, descriptor (table + i * idt_table_entry_size) 0) <$> seqZ index (Z.of_nat n)).
Proof.
  revert index. induction n as [|n IH]; intros index; [done|]. cbn [process_descriptors].
  rewrite Descriptor_new_present by done. cbn [mbind outcome_bind]. rewrite IH. cbn [mbind outcome_bind].
  rewrite (seqZ_cons index) by lia. cbn [fmap list_fmap]. replace (Z.pred (Z.of_nat (S n))) with (Z.of_nat n) by lia. done.
Qed.

Lemma read_back_u64 mem a v : 0 ≤ v < 2 ^ 64 → from_le (mem_read (write_bytes mem a (to_le 8 v)) a 8) = v.
Proof.
  intros Hv. pose proof (mem_read_write mem a (to_le 8 v)) as E. rewrite to_le_length in E.
  change (Z.of_nat 8) with 8 in E. rewrite E, from_le_to_le. by apply Z.mod_small.
Qed.

(** While a process runs, interrupt [v] goes to entry [v] of the jump table in the shared code, and
    the selector of its gate is that of the code segment in the table behind it. *)
Theorem process_tables gdt_code mem dst idt_table :
  0 ≤ idt_table → idt_table + ENTRY_COUNT * idt_table_entry_size ≤ 2 ^ 64 → 0 ≤ gdt_code < 2 ^ 64 →
  ∃ mem', write_process_dts gdt_code mem dst idt_table = Ret mem' ∧
    (∀ v, 0 ≤ v < ENTRY_COUNT →
      cpu_dispatch mem' dst v = Some (MkGate (idt_table + v * idt_table_entry_size) GDT_SELECTOR_CODE 0 0)) ∧
    from_le (mem_read mem' (dst + 0x1000) 8) = 0 ∧
    from_le (mem_read mem' (dst + 0x1000 + GDT_SELECTOR_CODE) 8) = gdt_code ∧
    (∀ a n, a + n ≤ dst ∨ dst + 0x1010 ≤ a → mem_read mem' a n = mem_read mem a n).
Proof.
  intros Ht0 Ht Hg. unfold write_process_dts. rewrite process_descriptors_ok. cbn [mbind outcome_bind].
  eexists. split; [reflexivity|]. change (16 * ENTRY_COUNT) with 0x1000. change (Z.of_nat (Z.to_nat ENTRY_COUNT)) with ENTRY_COUNT.
  split_and!.
  - intros v Hv. unfold cpu_dispatch. unfold ENTRY_COUNT, idt_table_entry_size in *.
    rewrite !mem_read_write_ne by (rewrite to_le_length; lia).
    rewrite <- (Z2Nat.id v) at 1 by lia. rewrite (write_descriptors_at _ _ _ _ (descriptor (idt_table + v * 5) 0)).
    + apply gate_round_trip; lia.
    + rewrite list_lookup_fmap, lookup_seqZ_lt by lia. cbn. do 3 f_equal. lia.
  - rewrite mem_read_write_ne by (rewrite to_le_length; lia). by apply read_back_u64.
  - replace (dst + (0x1000 + 8)) with (dst + 0x1000 + GDT_SELECTOR_CODE) by (unfold GDT_SELECTOR_CODE; lia). by apply read_back_u64.
  - intros a n Ha. rewrite !mem_read_write_ne by (rewrite to_le_length; lia).
    apply write_descriptors_other. rewrite length_fmap, length_seqZ. change (Z.to_nat ENTRY_COUNT) with 256%nat. lia.
Qed.

(** ** Segments *)

(** A processor gets its own table and task state segment: the code selector is the one in the gates
    of the interrupt table, and the stack of a double fault, which the gate of exception 8 asks for,
    is the top of the stack allocated here. *)
Theorem gdt_and_tss_ok kernel_code tss_low tss_high free s st pages free' :
  0 ≤ kernel_code < 2 ^ 64 → virt.alloc_stack free 1 = Ret (st, pages, free') →
  ∃ l s', init_gdt_and_tss kernel_code tss_low tss_high free s = Ret (l, free', s') ∧
    kernel_cs_sel l = GDT_SELECTOR_CODE ∧ lgdt_limit l = 8 * 4 - 1 ∧
    from_le (mem_read (table_mem s') (lgdt_base l + kernel_cs_sel l) 8) = kernel_code ∧
    (∃ w ist tss, handler_of 8 = Some (w, ist) ∧ tss_at s' !! ltr_tss l = Some tss ∧
      tss !! Z.to_nat (ist_value ist - 1) = Some (virt.top st)).
Proof.
  intros Hk Ha. unfold init_gdt_and_tss. rewrite Ha. cbn [mbind outcome_bind].
  eexists _, _. split; [reflexivity|]. cbn [kernel_cs_sel lgdt_limit lgdt_base ltr_tss table_mem tss_at].
  split_and!; [reflexivity|reflexivity| |].
  - cbn [gdt_base next_entry create_new GdtBuilder_new tss_store].
    rewrite !mem_read_write_ne by (rewrite to_le_length; lia). replace (8 * 1) with (1 * 8) by lia. by apply read_back_u64.
  - eexists _, _, _. split; [vm_compute; reflexivity|]. split; [apply lookup_insert_eq|]. reflexivity.
Qed.

(** The tables of processor 128 begin where the task state segment of the first lies. *)
Theorem gdt_meets_tss s : used_gdts s = 128 → used_tss s = 0 → ∀ tss, gdt_base (create_new s).1 = (tss_store tss s).1.
Proof. intros H1 H2 tss. cbn. rewrite H1, H2. reflexivity. Qed.
