(* ===== verification/Ps2.v ===== *)
(** * Ps2: start-up of the keyboard driver (modules/driver_ps2/src/keyboard.rs)

    The driver is a program of port accesses.  The controller and the keyboard are a device that
    shows the reference state [kbd]: the bytes waiting to be read, the configuration, and what the
    next byte written to the data port means.  The device may be busy for up to [B] polls after a
    byte is written; the loops that wait for it have fuel.  Decoding of scan codes is in Console. *)

From stdpp Require Import base list strings.
From Stdlib Require Import ZArith Lia.
From S2P Require Import Prelude Bytes PortIo Console.
Open Scope Z_scope.

Definition PS2_DATA : Z := 0x60.
Definition PS2_STATUS : Z := 0x64.
Definition PS2_COMMAND : Z := 0x64.
Definition IO_WAIT_TIMEOUT : nat := 1000.

Section driver.
Context `{!Device} (fuel : nat).

Definition wait_ready_read : IO unit :=
  io_until fuel (v ← read_port 8 PS2_STATUS; mret (negb (Z.land v 1 =? 0))).

Definition wait_ready_write : IO unit :=
  io_until fuel (v ← read_port 8 PS2_STATUS; mret (Z.land v 2 =? 0)).

Definition read_byte : IO Z := _ ← wait_ready_read; read_port 8 PS2_DATA.

Definition ps2_write_command (c : Z) : IO unit := _ ← wait_ready_write; write_port 8 PS2_COMMAND c.

Fixpoint test_loop (n : nat) (result : Z) : IO bool :=
  match n with
  | O => mret false
  | S n => b ← read_byte; if b =? result then mret true else test_loop n result
  end.

Definition test_result (result : Z) : IO bool := test_loop IO_WAIT_TIMEOUT result.

Definition test_echo : IO bool :=
  _ ← wait_ready_write; _ ← write_port 8 PS2_DATA 0xEE; test_result 0xEE.

Definition self_test : IO bool :=
  _ ← wait_ready_write; _ ← write_port 8 PS2_DATA 0xFF; test_result 0xAA.

Fixpoint subtype_loop (n : nat) : IO unit :=
  match n with
  | O => io_panic "Unsupported keyboard: unknown subtype"
  | S n =>
      kbd_subtype ← read_byte;
      if (kbd_subtype =? 0x41) || (kbd_subtype =? 0xC1) || (kbd_subtype =? 0x83) then mret tt else subtype_loop n
  end.

Fixpoint identify_kbd (n : nat) : IO unit :=
  match n with
  | O => io_panic "Unsupported keyboard: cannot identify"
  | S n => x ← read_byte; if x =? 0xAB then subtype_loop IO_WAIT_TIMEOUT else identify_kbd n
  end.

Definition verify_keyboard : IO unit :=
  _ ← wait_ready_write; _ ← write_port 8 PS2_DATA 0xF2; identify_kbd IO_WAIT_TIMEOUT.

Definition expect_ack : IO unit :=
  ok ← test_result 0xFA;
  if ok : bool then mret tt else io_panic "Unsupported keyboard".

Definition configure : IO unit :=
  _ ← wait_ready_write;
  _ ← ps2_write_command 0x20;
  conf ← read_byte;
  let conf := Z.land conf 0xBF in
  _ ← ps2_write_command 0x60;
  _ ← wait_ready_write;
  _ ← write_port 8 PS2_DATA conf;
  _ ← wait_ready_write;
  _ ← write_port 8 PS2_DATA 0xF0;
  _ ← wait_ready_write;
  _ ← write_port 8 PS2_DATA 0x02;
  expect_ack.

Definition disable_scanning : IO unit :=
  _ ← wait_ready_write; _ ← write_port 8 PS2_DATA 0xF5; expect_ack.

Definition enable_scanning : IO unit :=
  _ ← wait_ready_write; _ ← write_port 8 PS2_DATA 0xF4; expect_ack.

(** The result of the echo is only logged. *)
Definition keyboard_init : IO unit :=
  ok ← self_test;
  if ok : bool then
    _ ← test_echo;
    _ ← disable_scanning;
    _ ← verify_keyboard;
    _ ← configure;
    enable_scanning
  else io_panic "self test: failed".

End driver.

(** ** The device *)

(** What the next byte for the data port is. *)
Inductive pending := Command | Configuration | ScanCodeSet.

Record core := MkCore {
  waiting : list Z;
  config : Z;
  scanning : bool;
  code_set : Z;
  expects : pending;
}.

Record kbd := MkKbd { kcore : core; busy : nat }.

(** The commands of the keyboard, and the two of the controller. *)
Definition data_out (v : Z) (c : core) : core :=
  let '(MkCore q conf scan set e) := c in
  match e with
  | Configuration => MkCore q v scan set Command
  | ScanCodeSet => MkCore (q ++ [0xFA]) conf scan v Command
  | Command =>
      if v =? 0xFF then MkCore (q ++ [0xFA; 0xAA]) conf true 2 Command
      else if v =? 0xEE then MkCore (q ++ [0xEE]) conf scan set Command
      else if v =? 0xF5 then MkCore (q ++ [0xFA]) conf false set Command
      else if v =? 0xF4 then MkCore (q ++ [0xFA]) conf true set Command
      else if v =? 0xF2 then MkCore (q ++ [0xFA; 0xAB; 0x83]) conf scan set Command
      else if v =? 0xF0 then MkCore (q ++ [0xFA]) conf scan set ScanCodeSet
      else MkCore (q ++ [0xFE]) conf scan set Command
  end.

Definition command_out (v : Z) (c : core) : core :=
  let '(MkCore q conf scan set e) := c in
  if v =? 0x20 then MkCore (q ++ [conf]) conf scan set e
  else if v =? 0x60 then MkCore q conf scan set Configuration
  else c.

Definition status (s : kbd) : Z :=
  Z.lor (if bool_decide (waiting (kcore s) = []) then 0 else 1) (if bool_decide (busy s = O) then 0 else 2).

Definition take_byte (c : core) : core :=
  MkCore (tail (waiting c)) (config c) (scanning c) (code_set c) (expects c).

(** A device that shows a keyboard and its controller.  Bytes are written only when it is not busy,
    and it is busy for at most [B] polls after one. *)
Class Ps2Laws `{!Device} (B : nat) := {
  ps2 : Dev → kbd;
  ps2_status d : (port_in 8 PS2_STATUS d).1 = status (ps2 d) ∧
    ps2 (port_in 8 PS2_STATUS d).2 = MkKbd (kcore (ps2 d)) (pred (busy (ps2 d)));
  ps2_data d b q : waiting (kcore (ps2 d)) = b :: q → (port_in 8 PS2_DATA d).1 = b ∧
    ps2 (port_in 8 PS2_DATA d).2 = MkKbd (take_byte (kcore (ps2 d))) (busy (ps2 d));
  ps2_write d v : busy (ps2 d) = O → ∃ n, (n ≤ B)%nat ∧
    ps2 (port_out 8 PS2_DATA v d) = MkKbd (data_out v (kcore (ps2 d))) n;
  ps2_command d v : busy (ps2 d) = O → ∃ n, (n ≤ B)%nat ∧
    ps2 (port_out 8 PS2_COMMAND v d) = MkKbd (command_out v (kcore (ps2 d))) n;
}.

Section props.
Context `{!Device} {B : nat} `{!Ps2Laws B} (fuel : nat) (Hfuel : (B < fuel)%nat).

(** From a device that shows [c], the action returns [a] and leaves one that shows [c']. *)
Definition does {A} (c : core) (m : IO A) (a : A) (c' : core) : Prop :=
  ∀ d, kcore (ps2 d) = c → (busy (ps2 d) ≤ B)%nat →
  ∃ d', m d = Some (Ret (a, d')) ∧ kcore (ps2 d') = c' ∧ (busy (ps2 d') ≤ B)%nat.

Lemma does_bind {A C} c (m : IO A) (k : A → IO C) a c1 b c2 :
  does c m a c1 → does c1 (k a) b c2 → does c (m ≫= k) b c2.
Proof.
  intros Hm Hk d Hd Hb. destruct (Hm d Hd Hb) as (d1 & E1 & Hd1 & Hb1). destruct (Hk d1 Hd1 Hb1) as (d2 & E2 & ?).
  exists d2. by rewrite (bind_some _ _ _ _ _ E1).
Qed.

Lemma does_ret {A} c (a : A) : does c (mret a) a c.
Proof. intros d Hd Hb. by exists d. Qed.

Lemma status_bits s :
  (Z.land (status s) 1 =? 0) = bool_decide (waiting (kcore s) = []) ∧ (Z.land (status s) 2 =? 0) = bool_decide (busy s = O).
Proof. unfold status. by repeat case_bool_decide. Qed.

(** Waiting ends after as many polls as the device is busy for. *)
Lemma wait_write_ready n d :
  (busy (ps2 d) < n)%nat →
  ∃ d', wait_ready_write n d = Some (Ret (tt, d')) ∧ kcore (ps2 d') = kcore (ps2 d) ∧ busy (ps2 d') = O.
Proof.
  revert d. induction n as [|n IH]; intros d Hn; [lia|]. unfold wait_ready_write. cbn [io_until].
  destruct (ps2_status d) as [E1 E2]. rewrite (bind_some _ _ _ (bool_decide (busy (ps2 d) = O)) (port_in 8 PS2_STATUS d).2).
  - case_bool_decide as Hb.
    + eexists. split; [reflexivity|]. rewrite E2. cbn. by rewrite Hb.
    + destruct (IH (port_in 8 PS2_STATUS d).2) as (d' & E & H1 & H2); [rewrite E2; cbn; lia|].
      exists d'. rewrite H1, E2. by split.
  - rewrite (bind_some _ _ _ _ _ (read_some _ _ _)). rewrite E1. by rewrite (proj2 (status_bits _)).
Qed.

(** A byte for the data port or the command port. *)
Lemma send_data {A} c v (k : IO A) b c2 :
  does (data_out v c) k b c2 → does c (_ ← wait_ready_write fuel; _ ← write_port 8 PS2_DATA v; k) b c2.
Proof.
  intros Hk d Hd Hb. destruct (wait_write_ready fuel d) as (d1 & E1 & Hd1 & Hb1); [lia|].
  rewrite (bind_some _ _ _ _ _ E1), (bind_some _ _ _ _ _ (write_some _ _ _ _)).
  destruct (ps2_write d1 v Hb1) as (n & Hn & E2). apply Hk; rewrite E2; cbn; [congruence|done].
Qed.

Lemma sends_command c v : does c (ps2_write_command fuel v) tt (command_out v c).
Proof.
  intros d Hd Hb. destruct (wait_write_ready fuel d) as (d1 & E1 & Hd1 & Hb1); [lia|].
  unfold ps2_write_command. rewrite (bind_some _ _ _ _ _ E1), write_some.
  destruct (ps2_command d1 v Hb1) as (n & Hn & E2). eexists. split; [done|]. rewrite E2. cbn. split; [congruence|done].
Qed.

Lemma wait_only {A} c (k : IO A) b c2 : does c k b c2 → does c (_ ← wait_ready_write fuel; k) b c2.
Proof.
  intros Hk d Hd Hb. destruct (wait_write_ready fuel d) as (d1 & E1 & Hd1 & Hb1); [lia|].
  rewrite (bind_some _ _ _ _ _ E1). apply Hk; [congruence|lia].
Qed.

Lemma read_byte_ok c b q : waiting c = b :: q → does c (read_byte fuel) b (take_byte c).
Proof.
  intros Hq d <- Hb. unfold read_byte, wait_ready_read. destruct fuel as [|n]; [lia|]. cbn [io_until].
  destruct (ps2_status d) as [E1 E2]. set (d1 := (port_in 8 PS2_STATUS d).2) in *.
  rewrite (bind_some _ _ _ tt d1).
  - destruct (ps2_data d1 b q) as [E3 E4]; [by rewrite E2|]. rewrite read_some, E3. eexists. split; [done|].
    rewrite E4, E2. cbn. split; [done|lia].
  - rewrite (bind_some _ _ _ true d1); [done|]. rewrite (bind_some _ _ _ _ _ (read_some _ _ _)), E1.
    rewrite (proj1 (status_bits _)), Hq. done.
Qed.

Definition set_waiting (q : list Z) (c : core) : core := MkCore q (config c) (scanning c) (code_set c) (expects c).

(** The answer is found behind bytes that are not it. *)
Lemma test_loop_ok n c q r q' :
  waiting c = q ++ r :: q' → r ∉ q → (length q < n)%nat → does c (test_loop fuel n r) true (set_waiting q' c).
Proof.
  revert c q. induction n as [|n IH]; intros c q Hq Hr Hl; [lia|]. cbn [test_loop]. destruct q as [|x q]; cbn in Hq, Hl.
  - eapply does_bind; [by eapply read_byte_ok|]. rewrite Z.eqb_refl. replace (take_byte c) with (set_waiting q' c); [apply does_ret|].
    unfold take_byte. by rewrite Hq.
  - eapply does_bind; [by eapply read_byte_ok|]. apply not_elem_of_cons in Hr as [Hx Hr].
    rewrite (proj2 (Z.eqb_neq x r)) by congruence. apply (IH (take_byte c) q); [|done|lia]. unfold take_byte. cbn. by rewrite Hq.
Qed.

#[local] Opaque IO_WAIT_TIMEOUT.

Lemma timeout_is : IO_WAIT_TIMEOUT = 1000%nat.
Proof. reflexivity. Qed.

Lemma expect_ack_ok q' conf scan set e :
  does (MkCore (0xFA :: q') conf scan set e) (expect_ack fuel) tt (MkCore q' conf scan set e).
Proof.
  unfold expect_ack. eapply does_bind.
  - apply (test_loop_ok _ _ [] _ q'); [done|apply not_elem_of_nil|rewrite timeout_is; cbn; lia].
  - apply does_ret.
Qed.

Lemma self_test_ok stale conf scan set :
  0xAA ∉ stale → (length stale < 999)%nat →
  does (MkCore stale conf scan set Command) (self_test fuel) true (MkCore [] conf true 2 Command).
Proof.
  intros Ha Hl. unfold self_test. apply send_data. cbn [data_out Z.eqb Pos.eqb].
  refine (test_loop_ok IO_WAIT_TIMEOUT (MkCore _ _ _ _ _) (stale ++ [0xFA]) 0xAA [] _ _ _).
  - cbn. by rewrite <- (assoc_L (++)).
  - rewrite not_elem_of_app, list_elem_of_singleton. by split.
  - rewrite length_app, timeout_is. cbn. lia.
Qed.

Lemma test_echo_ok conf scan set :
  does (MkCore [] conf scan set Command) (test_echo fuel) true (MkCore [] conf scan set Command).
Proof.
  unfold test_echo. apply send_data. cbn [data_out Z.eqb Pos.eqb app].
  refine (test_loop_ok IO_WAIT_TIMEOUT (MkCore _ _ _ _ _) [] 0xEE [] _ _ _); [done|apply not_elem_of_nil|rewrite timeout_is; cbn; lia].
Qed.

Lemma read_step {A} b q conf scan set e (k : Z → IO A) x c :
  does (MkCore q conf scan set e) (k b) x c → does (MkCore (b :: q) conf scan set e) (mbind k (read_byte fuel)) x c.
Proof. intros Hk. eapply does_bind; [by eapply read_byte_ok|]. exact Hk. Qed.

Lemma verify_keyboard_ok conf scan set :
  does (MkCore [] conf scan set Command) (verify_keyboard fuel) tt (MkCore [] conf scan set Command).
Proof.
  unfold verify_keyboard. apply send_data. cbn [data_out Z.eqb Pos.eqb app]. rewrite timeout_is.
  apply read_step. apply read_step. cbn [Z.eqb Pos.eqb]. rewrite timeout_is. apply read_step. apply does_ret.
Qed.

Lemma configure_ok conf scan set :
  does (MkCore [] conf scan set Command) (configure fuel) tt (MkCore [0xFA] (Z.land conf 0xBF) scan 2 Command).
Proof.
  unfold configure. apply wait_only. eapply does_bind; [apply sends_command|]. cbn [command_out Z.eqb Pos.eqb app].
  apply read_step. cbv zeta. eapply does_bind; [apply sends_command|]. cbn [command_out Z.eqb Pos.eqb].
  apply send_data. cbn [data_out]. apply send_data. cbn [data_out Z.eqb Pos.eqb app].
  apply send_data. cbn [data_out app]. apply expect_ack_ok.
Qed.

(** C39: the keyboard starts.  Whatever bytes were left over from before, as long as they are fewer
    than the attempts and none of them looks like the result of the self test, initialisation comes
    to its end without a panic and leaves the controller with its configuration as it was except
    that translation is off, and the keyboard scanning with scan code set 2.  One acknowledgement
    stays behind to be read, which the driver ignores as an event. *)
Theorem keyboard_starts stale conf scan set d :
  ps2 d = MkKbd (MkCore stale conf scan set Command) 0 → 0xAA ∉ stale → (length stale < 999)%nat →
  ∃ d', keyboard_init fuel d = Some (Ret (tt, d')) ∧
    kcore (ps2 d') = MkCore [0xFA] (Z.land conf 0xBF) true 2 Command ∧
    (∀ state, notify state 0xFA = (None, state)).
Proof.
  intros Hd Ha Hl.
  assert (does (MkCore stale conf scan set Command) (keyboard_init fuel) tt (MkCore [0xFA] (Z.land conf 0xBF) true 2 Command))
    as Hdo.
  { unfold keyboard_init. eapply does_bind; [by apply self_test_ok|]. cbv iota.
    eapply does_bind; [apply test_echo_ok|]. eapply does_bind.
    { unfold disable_scanning. apply send_data. cbn [data_out Z.eqb Pos.eqb app]. apply expect_ack_ok. }
    eapply does_bind; [apply verify_keyboard_ok|]. eapply does_bind; [apply configure_ok|].
    unfold enable_scanning. apply send_data. cbn [data_out Z.eqb Pos.eqb app]. apply expect_ack_ok. }
  destruct (Hdo d) as (d' & E & Hc & _); [by rewrite Hd|rewrite Hd; cbn; lia|]. by exists d'.
Qed.

End props.

(** A controller that is busy for two polls after each byte. *)
#[local] Instance ref_ps2 : Device := {|
  Dev := kbd;
  port_in := λ _ port d,
    if port =? PS2_STATUS then (status d, MkKbd (kcore d) (pred (busy d)))
    else (hd 0 (waiting (kcore d)), MkKbd (take_byte (kcore d)) (busy d));
  port_out := λ _ port v d,
    if port =? PS2_DATA then MkKbd (data_out v (kcore d)) 2 else MkKbd (command_out v (kcore d)) 2;
|}.

#[local] Program Instance ref_ps2_laws : Ps2Laws 2 := { ps2 := λ d, d }.
Next Obligation. done. Qed.
Next Obligation. intros d b q Hq. cbn. by rewrite Hq. Qed.
Next Obligation. intros d v _. exists 2%nat. by split. Qed.
Next Obligation. intros d v _. exists 2%nat. by split. Qed.

Lemma keyboard_starts_witness :
  ∃ d', keyboard_init 5 (MkKbd (MkCore [0x1c; 0xf0] 0x45 false 1 Command) 0 : @Dev ref_ps2) = Some (Ret (tt, d')) ∧
    kcore d' = MkCore [0xFA] 0x05 true 2 Command.
Proof.
  destruct (keyboard_starts (B := 2) 5 ltac:(lia) [0x1c; 0xf0] 0x45 false 1 (MkKbd (MkCore [0x1c; 0xf0] 0x45 false 1 Command) 0))
    as (d' & E & Hc & _).
  - reflexivity.
  - apply (bool_decide_unpack _). vm_compute. exact I.
  - cbn. lia.
  - exists d'. split; [exact E|]. exact Hc.
Defined.
