(* ===== verification/UserCalls.v ===== *)
(** * UserCalls: the system calls as programs make them (libs/libd7/src/syscall.rs)

    A function of the library is the registers it enters the kernel with and what it makes of the
    two registers the kernel leaves behind; a slice is its length and its address.  With the kernel
    of Syscall this closes the circle: every answer of the kernel is understood, and a message call
    with its arguments in the memory of the process does what LibIpc takes a message call to do. *)

From stdpp Require Import base gmap list strings.
From Stdlib Require Import ZArith Lia.
From S2P Require Import Prelude Abi Topic SubscriptionList Queues EventQueue Ipc IpcProps.
From S2P Require Import IpcCalls Clocks Scheduler SchedulerProps Bytes Ranges VirtAlloc PageMap Args ProcessMem.
From S2P Require Import Elf Process Syscall SyscallMem SyscallProps LibIpc.
Open Scope Z_scope.

(** ** The library *)

(** The derived [TryFrom<u64>]. *)
Definition SyscallErrorCode_list : list SyscallErrorCode :=
  [ unknown; unsupported; out_of_memory; empty_list_argument; too_large; would_block;
    ipc_invalid_topic; ipc_filter_exclusion; ipc_delivery_no_target; ipc_delivery_target_full;
    ipc_delivery_target_nack; ipc_unsubscribed; ipc_re_acknowledge; ipc_pipe_reserved;
    ipc_pipe_sender_terminated; ipc_permission_error; invalid_utf8; ptr_unaligned;
    mmap_invalid_protection_flags; mmap_incorrect_alignment; mmap_permission_error ].

Definition SyscallErrorCode_try_from (n : Z) : option SyscallErrorCode :=
  list_find (λ e, SyscallErrorCode_into e = n) SyscallErrorCode_list ≫= λ p, Some p.2.

(** [syscall] after the interrupt. *)
Definition syscall_answer (success result : Z) : outcome (sys_result Z) :=
  if success =? 1 then Ret (Ok result)
  else if success =? 0 then
    e ← expect (SyscallErrorCode_try_from result) "System call: invalid error code";
    Ret (Err e)
  else Panic "System call: invalid boolean for success".

(** A slice of the process. *)
Record uslice := MkSlice { us_len : Z; us_ptr : Z }.

Record ucall (T : Type) := MkCall { uc_regs : RawSyscall; uc_after : sys_result Z → outcome T }.
#[global] Arguments MkCall {T} _ _.
#[global] Arguments uc_regs {T} _.
#[global] Arguments uc_after {T} _ _.

(** What the function returns, given the two registers. *)
Definition uc_finish {T} (c : ucall T) (success result : Z) : outcome T :=
  r ← syscall_answer success result; uc_after c r.

(** The macro [syscall!]; arguments that are left out are 0. *)
Definition raw (n : SyscallNumber) (a0 a1 a2 a3 : Z) : RawSyscall :=
  MkRawSyscall (SyscallNumber_discriminant n) a0 a1 a2 a3.

Definition uc_unwrap (r : sys_result Z) : outcome Z :=
  match r with Ok v => Ret v | Err _ => Panic "called `Result::unwrap()` on an `Err` value" end.
Definition uc_unit (r : sys_result Z) : outcome (sys_result unit) := Ret (result_map (λ _, tt) r).
Definition uc_value (r : sys_result Z) : outcome (sys_result Z) := Ret r.

(** The call is not made at all when a guard panics. *)
Abbreviation guarded T := (outcome (ucall T)).

(** [exit] sets two registers; the others are as they were. *)
Definition exit_regs (return_code rsi rdx rcx : Z) : RawSyscall :=
  MkRawSyscall (SyscallNumber_discriminant SC_exit) return_code rsi rdx rcx.

Definition get_pid : ucall ProcessId :=
  MkCall (raw SC_get_pid 0 0 0 0) (λ r, v ← uc_unwrap r; ProcessId_from_u64 v).

Definition debug_print (s : uslice) : ucall unit :=
  MkCall (raw SC_debug_print (us_len s) (us_ptr s) 0 0) (λ r, _ ← uc_unwrap r; Ret tt).

Definition result_pid (r : sys_result Z) : outcome (sys_result ProcessId) :=
  match r with Ok v => pid ← ProcessId_from_u64 v; Ret (Ok pid) | Err e => Ret (Err e) end.

(** The packed arguments, [exec_args_raw], are in a vector at [args_ptr]. *)
Definition exec (image : uslice) (args : list (list Z)) (args_ptr : Z) : ucall (sys_result ProcessId) :=
  MkCall (raw SC_exec (us_len image) (us_ptr image) (Z.of_nat (length (exec_args_raw args))) args_ptr) result_pid.

Definition random (seed : Z) : ucall Z := MkCall (raw SC_random seed 0 0 0) uc_unwrap.

Definition sched_yield : ucall unit := MkCall (raw SC_sched_yield 0 0 0 0) (λ _, Ret tt).

Definition sched_sleep_ns (ns : Z) : ucall (sys_result unit) := MkCall (raw SC_sched_sleep_ns ns 0 0 0) uc_unit.

Definition ipc_subscribe (filter : uslice) (flags : Z) : ucall (sys_result SubscriptionId) :=
  MkCall (raw SC_ipc_subscribe (us_len filter) (us_ptr filter) flags 0) uc_value.

Definition ipc_unsubscribe (sub_id : SubscriptionId) : ucall (sys_result unit) :=
  MkCall (raw SC_ipc_unsubscribe sub_id 0 0 0) uc_unit.

Definition ipc_publish (topic data : uslice) : ucall (sys_result unit) :=
  MkCall (raw SC_ipc_publish (us_len topic) (us_ptr topic) (us_len data) (us_ptr data)) uc_unit.

Definition ipc_deliver (topic data : uslice) : ucall (sys_result unit) :=
  MkCall (raw SC_ipc_deliver (us_len topic) (us_ptr topic) (us_len data) (us_ptr data)) uc_unit.

Definition ipc_deliver_reply (topic data : uslice) : ucall (sys_result unit) :=
  MkCall (raw SC_ipc_deliver_reply (us_len topic) (us_ptr topic) (us_len data) (us_ptr data)) uc_unit.

Definition ipc_receive (sub_id : SubscriptionId) (buf : uslice) : ucall (sys_result Z) :=
  MkCall (raw SC_ipc_receive sub_id (us_len buf) (us_ptr buf) 0) uc_value.

Definition ipc_acknowledge (sub_id : SubscriptionId) (ack_id : AcknowledgeId) (positive : bool)
    : ucall (sys_result unit) :=
  MkCall (raw SC_ipc_acknowledge sub_id ack_id (Z.b2z positive) 0) uc_unit.

Definition ipc_select (sub_ids : uslice) (nonblocking : bool) : guarded (sys_result Z) :=
  _ ← rassert (negb (us_len sub_ids =? 0)) "Cannot ipc_select from an empty list";
  Ret (MkCall (raw SC_ipc_select (us_len sub_ids) (us_ptr sub_ids) (Z.b2z nonblocking) 0) uc_value).

Definition kernel_log_read (buffer : uslice) : guarded (sys_result Z) :=
  _ ← rassert (negb (us_len buffer =? 0)) "Cannot read to an empty buffer";
  Ret (MkCall (raw SC_kernel_log_read (us_len buffer) (us_ptr buffer) 0 0) uc_value).

Definition irq_set_handler (irq : Z) (code : uslice) : ucall (sys_result unit) :=
  MkCall (raw SC_irq_set_handler irq (us_len code) (us_ptr code) 0) uc_unit.

Definition mmap_physical (phys_addr virt_addr len flags : Z) : guarded (sys_result Z) :=
  _ ← rassert (negb (len =? 0)) "Cannot mmap_physical an empty region";
  Ret (MkCall (raw SC_mmap_physical len phys_addr virt_addr flags) uc_value).

Definition dma_allocate `{AlignOps} (len : Z) : guarded (sys_result Z) :=
  _ ← rassert (negb (len =? 0)) "Cannot dma_allocate an empty region";
  Ret (MkCall (raw SC_dma_allocate len 0 0 0)
    (λ r, match r with Ok v => a ← PhysAddr_new v; Ret (Ok a) | Err e => Ret (Err e) end)).

Definition dma_free (phys_addr len : Z) : guarded (sys_result unit) :=
  _ ← rassert (negb (len =? 0)) "Cannot dma_free an empty region";
  Ret (MkCall (raw SC_dma_free len phys_addr 0 0) uc_unit).

Definition mem_alloc (virt_addr len flags : Z) : guarded (sys_result unit) :=
  _ ← rassert (negb (len =? 0)) "Cannot mem_alloc an empty region";
  Ret (MkCall (raw SC_mem_alloc len virt_addr flags 0) uc_unit).

Definition mem_dealloc (virt_addr len : Z) : guarded (sys_result unit) :=
  _ ← rassert (negb (len =? 0)) "Cannot mem_alloc an empty region";
  Ret (MkCall (raw SC_mem_dealloc len virt_addr 0 0) uc_unit).

(** ** Error codes *)

Lemma error_code_round_trip e : SyscallErrorCode_try_from (SyscallErrorCode_into e) = Some e.
Proof. by destruct e. Qed.

Lemma error_code_small e : 0 ≤ SyscallErrorCode_into e < u64_size.
Proof. by destruct e. Qed.

Section codes.
Context `{HO : HashOrder} `{PC : Pinecone} `{PagingOps} `{!AlignOps}
  {A : Type} `{!PhysAlloc A} {Frame PfCode : Type}.
Context (clk : Clock) (now : BSPInstant) (is_bsp : bool) (rnd : Z)
  (garbage : gmap Z (gmap Z entry)) (idt common : Z)
  (rd : InitRD) (services : gmap SubscriptionId Service)
  (message_to_vec : Message → option (list Z)).

Abbreviation Proc := (Process ProcMem).
Abbreviation state := (kernel (A := A) * Proc)%type.
Abbreviation MM := (M (A := A) (Frame := Frame) (PfCode := PfCode)).
Abbreviation SR := (SyscallResult (Frame := Frame) (PfCode := PfCode)).

(** The error of a result, if any, is one of the codes. *)
Definition coded (r : SR) : Prop :=
  match r with
  | Continue (Err z) | SyscallSwitch (Err z) _ => ∃ e, z = SyscallErrorCode_into e
  | _ => True
  end.

Definition coded_flow {X} (f : flow (Frame := Frame) (PfCode := PfCode) X) : Prop :=
  match f with Go _ => True | Syscall.Return r => coded r end.

Lemma coded_err e : coded (Continue (err_code e)).
Proof. by exists e. Qed.

Lemma wp_consume_coded {X} (r : IpcResult X) (Q : flow X → state → Prop) s :
  (∀ f s', coded_flow f → Q f s') → wpM (consume r) Q s.
Proof.
  intros HQ f s' E. apply HQ. unfold consume in E. destruct r as [[v|e] es]; cbn in E; injection E as <- <-; [done|].
  apply coded_err.
Qed.

Lemma wp_slice_coded {X} flags ptr len (body : Z → list Z → MM X) (Q : flow X → state → Prop) s :
  (∀ k' start bytes, wpM (body start bytes) (λ f s, ∀ s', Q f s') (k', s.2)) →
  (∀ f s', coded_flow f → (∀ x, f ≠ Go x) → Q f s') →
  wpM (with_slice flags ptr len body) Q s.
Proof.
  destruct s as [k p]. intros Hb Hr. apply wp_slice.
  - intros k' start bytes _ _. eapply wp_mono; [apply Hb|]. cbn. auto.
  - intros k' _. by apply Hr.
Qed.

(** Every answer of a call is coded. *)
Definition answers_coded (m : MM SR) : Prop :=
  ∀ s, wpM m (λ f _, match f with Go r | Syscall.Return r => coded r end) s.

End codes.

Ltac code_step :=
  cbn [fst snd];
  first
    [ exact I
    | apply coded_err
    | (apply wp_consume_coded; intros [] ? ?)
    | apply wp_bind | apply wp_ret | apply wp_early
    | (apply wp_lift; intros ? ?; try discriminate)
    | apply wp_get_kernel | apply wp_get_process
    | apply wp_put_kernel | apply wp_put_process
    | (apply wp_slice_coded; [intros ? ? ?|intros [] ? ? Hgo; [by edestruct Hgo|]])
    | match goal with |- ∀ _, _ => intros ? end
    | assumption
    | case_match; try discriminate; simplify_eq ].

Ltac code_call :=
  intros ?;
  unfold topic_arg, pointer_arg, try_len, with_read, with_write, try_str_m, try_ipc, mem_result;
  repeat code_step.

Section calls.
Context `{HO : HashOrder} `{PC : Pinecone} `{PagingOps} `{!AlignOps}
  {A : Type} `{!PhysAlloc A} {Frame PfCode : Type}.
Context (clk : Clock) (now : BSPInstant) (is_bsp : bool) (rnd : Z)
  (garbage : gmap Z (gmap Z entry)) (idt common : Z)
  (rd : InitRD) (services : gmap SubscriptionId Service)
  (message_to_vec : Message → option (list Z)).

Lemma select_loop_coded chunks index blocking conditions :
  answers_coded (A := A) (Frame := Frame) (PfCode := PfCode) (select_loop chunks index blocking conditions).
Proof.
  revert index conditions. induction chunks as [|c chunks IH]; intros index conditions s;
    cbn [select_loop]; repeat code_step. apply IH.
Qed.

Lemma syscall_coded rsc :
  answers_coded (A := A) (Frame := Frame) (PfCode := PfCode)
    (syscall clk now is_bsp rnd garbage idt common rd services message_to_vec rsc).
Proof.
  unfold syscall. destruct (SyscallNumber_try_from (routine rsc)) as [sc|]; [|code_call].
  destruct sc; [unfold sc_exit|unfold sc_get_pid|unfold sc_debug_print|unfold sc_exec|unfold sc_random
    |unfold sc_sched_yield|unfold sc_sched_sleep_ns|unfold sc_ipc_subscribe|unfold sc_ipc_unsubscribe
    |unfold sc_ipc_publish|unfold sc_ipc_deliver|unfold sc_ipc_deliver_reply|unfold sc_ipc_receive
    |unfold sc_ipc_acknowledge|unfold sc_ipc_select|unfold sc_kernel_log_read|unfold sc_irq_set_handler
    |unfold sc_mmap_physical|unfold sc_dma_allocate|unfold sc_dma_free|unfold sc_mem_alloc|unfold sc_mem_dealloc];
    code_call.
  eapply wp_mono; [apply select_loop_coded|]. by intros [] ? ?.
Qed.

End calls.

(** ** The answer reaches the program *)

Section answers.
Context `{HO : HashOrder} `{PC : Pinecone} `{PagingOps} `{!AlignOps}
  {A : Type} `{!PhysAlloc A} {Frame PfCode : Type}.
Context (clk : Clock) (now : BSPInstant) (rnd : Z)
  (garbage : gmap Z (gmap Z entry)) (idt common : Z)
  (rd : InitRD) (services : gmap SubscriptionId Service)
  (message_to_vec : Message → option (list Z)).

Abbreviation Proc := (Process ProcMem).
Abbreviation SR := (SyscallResult (Frame := Frame) (PfCode := PfCode)).
Abbreviation run := (run_syscall (A := A) (Frame := Frame) (PfCode := PfCode) clk now true rnd garbage
  idt common rd services message_to_vec).
Abbreviation handle := (handle_syscall (A := A) (Frame := Frame) (PfCode := PfCode) clk now true rnd
  garbage idt common rd services message_to_vec).

(** What a call answers, when it does not block or end the process. *)
Definition answer_of (res : SR) : option (result Z Z) :=
  match res with Continue r | SyscallSwitch r _ => Some r | _ => None end.

Lemma run_coded rsc s res s' r :
  run rsc s = Ret (res, s') → answer_of res = Some r → ∀ z, r = Err z → ∃ e, z = SyscallErrorCode_into e.
Proof.
  intros E Hr z ->. unfold run_syscall in E. apply outcome_bind_ret in E as ([f s1] & Es & E).
  injection E as <- <-. apply syscall_coded in Es.
  destruct f as [res|res]; destruct res as [[]|[] ?| |]; cbn in Hr; simplify_eq; exact Es.
Qed.

(** The entry point for a call that answers. *)
Lemma handle_answers k pid p res k1 p1 r :
  sched_wf (k_sched k) → next_pid (k_sched k) ≤ u64_max → processes (k_sched k) !! pid = Some p → stack_ok p →
  run (call_of (k_mem k) p) (taken k pid, p) = Ret (res, (k1, p1)) → answer_of res = Some r →
  ∃ k' p', handle pid k = Ret (action_of res, k') ∧ processes (k_sched k') !! pid = Some p' ∧
    saved_word (k_mem k') p' 0 = (match r with Ok _ => 1 | Err _ => 0 end) ∧
    saved_word (k_mem k') p' 5 = wrap64 (match r with Ok v => v | Err v => v end) ∧
    k_ipc k' = k_ipc k1.
Proof.
  intros Hwf Hmax Hp Hsp Hrun Hr. pose proof (run_stays _ _ _ _ _ _ _ _ _ _ _ _ _ _ _ Hwf Hmax Hp Hrun) as Hs.
  assert (stack_ok p1) as Hok1 by (destruct Hs as [_ _ _ Hsp1 _ _ _ _]; unfold stack_ok; cbn in Hsp1; by rewrite Hsp1).
  unfold handle_syscall. cbn [rassert mbind outcome_bind Scheduler_take_process_by_id].
  rewrite Hp. cbn [expect mbind outcome_bind]. fold (taken k pid).
  change (k_mem (taken k pid)) with (k_mem k). rewrite !read_stack_ok by (done || lia).
  cbn [mbind outcome_bind]. fold (call_of (k_mem k) p). rewrite Hrun. cbn [mbind outcome_bind].
  destruct (write_result_ok r k1 p1 Hok1) as (mem' & Hw & H0' & H5' & _).
  destruct (finish_sched k pid p k1 p1 false Hwf Hp Hs) as (_ & Hp' & _).
  destruct res as [r'|r' w| |]; cbn in Hr; simplify_eq; rewrite Hw; cbn [mbind outcome_bind];
    eexists _, (set_repeat false p1); (split; [reflexivity|]); by split_and!.
Qed.

(** C27: every answer of the kernel is understood.  When a call a program has put into its registers
    answers, [syscall] in the library gets from the two registers the kernel leaves exactly the value
    or the error the kernel gave; the error is one of the codes both sides know, so the library never
    panics over an answer. *)
Theorem user_understands_kernel k pid p (res : SR) k1 p1 r
    (Hwf : sched_wf (k_sched k)) (Hmax : next_pid (k_sched k) ≤ u64_max)
    (Hp : processes (k_sched k) !! pid = Some p) (Hsp : stack_ok p)
    (Hrun : run (call_of (k_mem k) p) (taken k pid, p) = Ret (res, (k1, p1)))
    (Hr : answer_of res = Some r) :
  ∃ k' p' u, handle pid k = Ret (action_of res, k') ∧ processes (k_sched k') !! pid = Some p' ∧
    syscall_answer (saved_word (k_mem k') p' 0) (saved_word (k_mem k') p' 5) = Ret u ∧
    match r with
    | Ok v => u = Ok (wrap64 v)
    | Err z => ∃ e, z = SyscallErrorCode_into e ∧ u = Err e
    end.
Proof.
  destruct (handle_answers k pid p res k1 p1 r) as (k' & p' & Hh & Hp' & Hrax & Hrdi & _); [done..|].
  destruct r as [v|z].
  - eexists k', p', _. rewrite Hrax, Hrdi. by split_and!.
  - destruct (run_coded _ _ _ _ _ Hrun Hr z eq_refl) as [e ->].
    eexists k', p', (Err e). rewrite Hrax, Hrdi, wrap64_small by apply error_code_small.
    split_and!; [done|done| |by exists e]. unfold syscall_answer. cbn [Z.eqb]. by rewrite error_code_round_trip.
Qed.

End answers.

(** Process 1 asks for a subscription it does not have to be ended. *)
Definition example_refused : kernel := set_k_phys ({[0x600000]}, {[0x1000100 := 0x71]}) example_calling.

Lemma user_understands_kernel_witness :
  ∃ k' p', handle_syscall (PC := example_pinecone) (Frame := unit) (PfCode := unit)
      example_clock 0 true 0 ∅ 0 0 {| files := ∅; slice := [] |} ∅ (λ _, None) 1 example_refused =
      Ret (ActContinue, k') ∧
    syscall_answer (saved_word (k_mem k') p' 0) (saved_word (k_mem k') p' 5) = Ret (Err ipc_permission_error).
Proof.
  edestruct (user_understands_kernel (PC := example_pinecone) (Frame := unit) (PfCode := unit)
    example_clock 0 0 ∅ 0 0 {| files := ∅; slice := [] |} ∅ (λ _, None) example_refused 1
    example_caller) as (k' & p' & u & E & _ & Hu & Hr).
  - apply example_calling_wf.
  - vm_compute. discriminate.
  - reflexivity.
  - vm_compute. split; discriminate.
  - assert (call_of (k_mem example_refused) example_caller = MkRawSyscall 0x71 0 0 0 0) as ->
      by (vm_compute; reflexivity).
    reflexivity.
  - reflexivity.
  - cbn in Hr. destruct Hr as (e & He & ->). exists k', p'. split; [exact E|]. rewrite Hu. do 2 f_equal.
    destruct e; first [reflexivity|discriminate He].
Defined.
