(* ===== verification/UserIpc.v ===== *)
(** * UserIpc: message calls of a program, through the kernel

    LibIpc reasons about programs whose message calls are carried out by [kernel_call], on the
    arguments themselves.  Here the arguments lie in the memory of the process, the library enters
    the kernel with the registers of UserCalls, and the kernel is that of Syscall, with its page
    tables and its address space: the call does what [kernel_call] says. *)

From stdpp Require Import base gmap list strings.
From Stdlib Require Import ZArith Lia.
From S2P Require Import Prelude Abi Topic SubscriptionList Queues EventQueue Ipc IpcProps.
From S2P Require Import IpcCalls Clocks Scheduler SchedulerProps Bytes Ranges VirtAlloc PageMap Args ProcessMem.
From S2P Require Import Elf Process Syscall SyscallMem SyscallProps LibIpc LibIpcProps UserCalls.
Open Scope Z_scope.

Section calls_refine.
Context `{HO : HashOrder} `{PC : Pinecone} `{PagingLaws} `{!AlignOps, !AlignLaws}
  {A : Type} `{!PhysAlloc A} {Frame PfCode : Type} `{!Codec Message}.
Context (clk : Clock) (now : BSPInstant) (is_bsp : bool) (rnd : Z)
  (garbage : gmap Z (gmap Z entry)) (idt common : Z)
  (rd : InitRD) (services : gmap SubscriptionId Service).

Abbreviation Proc := (Process ProcMem).
Abbreviation kern := (kernel (A := A)).
Abbreviation MM := (M (A := A) (Frame := Frame) (PfCode := PfCode)).
Abbreviation SR := (SyscallResult (Frame := Frame) (PfCode := PfCode)).
Abbreviation run := (run_syscall (A := A) (Frame := Frame) (PfCode := PfCode) clk now is_bsp rnd garbage
  idt common rd services to_vec).

(** A slice the kernel accepts. *)
Definition slice_ok (s : uslice) : Prop :=
  0 ≤ us_ptr s ∧ 0 < us_len s ≤ 0x400000000 ∧ us_ptr s + us_len s + PAGE_SIZE_BYTES ≤ 2 ^ 47.

Definition spages (s : uslice) : Z := slice_pages (us_ptr s) (us_len s).

Lemma spages_pos s : slice_ok s → 0 < spages s.
Proof. intros (? & ? & ?). apply slice_pages_spec; [done|lia|left; lia]. Qed.

(** The bytes, or the text, of a slice in the memory of the process. *)
Definition holds (mem mp : gmap Z Z) (s : uslice) (bytes : list Z) : Prop :=
  slice_ok s ∧ user_bytes mem mp (us_ptr s) (us_len s) = Some bytes.

Definition holds_str (mem mp : gmap Z Z) (s : uslice) (str : string) : Prop :=
  ∃ bytes, holds mem mp s bytes ∧ utf8_valid bytes = true ∧ Z.of_nat (length bytes) < 10000 ∧ string_of bytes = str.

(** A block that reads a slice: the body runs on its bytes, in a kernel that differs in its address
    space only, and the area is given back. *)
Lemma with_read_run {X} (s : uslice) bytes (body : list Z → MM X) (k : kern) p live mk mp r q :
  mem_view k p live mk mp (Z.to_nat (spages s) + r) → virt.room (k_virt k) (spages s + q) → 0 ≤ q →
  holds (k_mem k) mp s bytes →
  ∃ free t mk' free', let k1 := set_k_table t (set_k_virt free k) in
    pt_denotes t mk' r ∧ virt.va_reach free' live ∧ (0 < q → virt.room free' q) ∧
    ∀ f k2 p2, body bytes (k1, p) = Ret (f, (k2, p2)) → k_virt k2 = free →
      with_read (us_ptr s) (us_len s) body (k, p) = Ret (f, (set_k_virt free' k2, p2)).
Proof.
  intros Hv Hroom Hq [Hok Hb]. pose proof (spages_pos s Hok) as Hpos. pose proof Hok as (Hp0 & Hl0 & Hmax).
  unfold user_bytes in Hb. apply fmap_Some in Hb as (l & Hl & ->).
  destruct flag_set_bits as (Hfp & _ & _).
  destruct (with_slice_ok PRESENT (us_ptr s) (us_len s) (λ _, body) k p live mk mp r l)
    as (free & t & mk' & al & start & E & Hs & [Hva Hk _ _] & Hal); [exact Hv| |exact Hfp|apply Z.land_diag|exact Hl|].
  { split_and!; [done|lia|done|]. destruct Hroom as (b & Hb & Hle). exists b. split; [done|]. unfold spages in Hle. lia. }
  cbn [k_virt k_table set_k_table set_k_virt] in Hva, Hk.
  destruct (virt.va_drop_spec free [] live al (virt.va_reach_inv _ _ Hva)) as (free' & Ed & _).
  exists free, t, mk', free'. split_and!; [done|by apply (virt.va_drop free [] live al)| |].
  - intros Hq'. unfold virt.allocate in Hal. apply outcome_bind_ret in Hal as ([st l1] & Ea & [= <- <-]).
    apply (virt.allocate_room _ _ q) in Ea; [|unfold spages in Hpos; lia|done|done].
    unfold virt.Allocation_drop in Ed. eapply virt.free_room; [|exact Ea|exact Ed].
    rewrite (virt.alloc_pages _ (spages s)) by done. lia.
  - intros f k2 p2 Ebody Hfree. unfold with_read. rewrite E, Ebody. cbn [mbind outcome_bind]. rewrite Hfree, Ed. done.
Qed.

(** Text arguments that are well formed pass the check. *)
Lemma try_str_ok bytes (s : kern * Proc) :
  utf8_valid bytes = true → Z.of_nat (length bytes) < 10000 →
  try_str_m (Frame := Frame) (PfCode := PfCode) bytes s = Ret (Go (string_of bytes), s).
Proof.
  intros Hu Hl. unfold try_str_m, try_str. rewrite (proj2 (Z.ltb_lt _ _) Hl), Hu. done.
Qed.

(** A call relays its events and answers with its value. *)
Lemma consume_run {X Y} (v : result X IpcError) es (g : X → MM Y) (k : kern) p :
  (mbind g (consume (MkIpcResult v es))) (k, p) =
    let k' := set_k_sched (foldl on_explicit_event (k_sched k) (hash_order es)) k in
    match v with
    | Ok x => g x (k', p)
    | Err e => Ret (Syscall.Return (Continue (err_code (IpcError_code e))), (k', p))
    end.
Proof. by destruct v. Qed.

Lemma hash_order_none : hash_order (∅ : gset ExplicitEventId) = [].
Proof. apply Permutation_nil_r. by rewrite hash_order_perm, elements_empty. Qed.

(** The kernel after a change of its address space, and after a call of the IPC manager. *)
Definition space (free : list virt.Block) (t : AddrSpace) (k : kern) : kern := set_k_table t (set_k_virt free k).
Definition finished (es : gset ExplicitEventId) (m : Manager) (n : Z) (k : kern) : kern :=
  set_k_sched (foldl on_explicit_event (k_sched k) (hash_order es)) (set_k_ipc m n k).

Definition flow_result (f : flow SR) : SR := match f with Go r | Syscall.Return r => r end.

(** The answers as the kernel gives them. *)
Definition answered (a : answer) : SR :=
  match a with
  | Returned (Ok v) _ => Continue (Ok v)
  | Returned (Err e) _ => Continue (err_code e)
  | Blocked e => RepeatAfter (Event e)
  | Killed => Terminate (Failed SyscallArgument)
  end.

(** The text argument of a sending call. *)
Lemma topic_arg_run (s : uslice) str (k : kern) p live mk mp r q :
  mem_view k p live mk mp (Z.to_nat (spages s) + r) → virt.room (k_virt k) (spages s + q) → 0 < q →
  holds_str (k_mem k) mp s str →
  ∃ free t mk', mem_view (space free t k) p live mk' mp r ∧ virt.room free q ∧
    topic_arg (Frame := Frame) (PfCode := PfCode) (us_ptr s) (us_len s) (k, p) =
      Ret (match Topic_new str with
           | Some topic => Go topic
           | None => Syscall.Return (Continue (err_code ipc_invalid_topic))
           end, (space free t k, p)).
Proof.
  intros Hv Hroom Hq (bytes & Hb & Hu & Hl & <-).
  unfold topic_arg. match goal with |- context [with_read _ _ ?body] =>
    destruct (with_read_run s bytes body k p live mk mp r q Hv Hroom ltac:(lia) Hb)
      as (free1 & t & mk' & free & Hd & Hva & Hr & Hrun) end.
  destruct Hv as [_ _ Hpr Hfr]. exists free, t, mk'. split_and!; [by split|by apply Hr|].
  refine (Hrun _ (space free1 t k) p _ eq_refl).
  erewrite bind_go by (apply try_str_ok; done). destruct (Topic_new (string_of bytes)); reflexivity.
Qed.

(** The end of a call without a value. *)
Lemma unit_tail {X} (r : IpcResult X) m n (k : kern) p :
  (_ ← put_kernel (set_k_ipc m n k); _ ← consume r; mret (Continue (Ok 0)) : MM SR) (k, p) =
  Ret (match ipc_value r with
       | Ok _ => Go (Continue (Ok 0))
       | Err e => Syscall.Return (Continue (err_code (IpcError_code e)))
       end, (finished (ipc_events r) m n k, p)).
Proof. rewrite put_kernel_bind. destruct r as [v es]. rewrite consume_run. by destruct v. Qed.

(** ** The calls *)

(** What a call leaves behind, but for the memory: the manager and the events are those of
    [kernel_call], and the kernel has its address space back. *)
Record relayed (live : list virt.Allocation) (es : gset ExplicitEventId) (m : Manager) (n : Z) (k k' : kern)
    : Prop := {
  re_ipc : k_ipc k' = m;
  re_event : k_next_event k' = n;
  re_sched : k_sched k' = foldl on_explicit_event (k_sched k) (hash_order es);
  re_virt : virt.va_reach (k_virt k') live;
  re_phys : k_phys k' = k_phys k;
  re_dma : k_dma k' = k_dma k;
  re_log : k_log k' = k_log k;
}.

(** The call of the kernel does what [kernel_call] says of the call [c]. *)
Definition refines (mm : MM SR) (c : ipc_sys) (k : kern) (p : Proc) (live : list virt.Allocation)
    (buffer : gmap Z Z → list Z → Prop) : Prop :=
  ∀ a es m n, kernel_call rd services (process_id p) c (k_ipc k) (k_next_event k) = Ret (a, es, m, n) →
  ∃ f k', mm (k, p) = Ret (f, (k', p)) ∧ flow_result f = answered a ∧ relayed live es m n k k' ∧
    buffer (k_mem k') (match a with Returned _ buf => buf | _ => [] end).

(** A call that leaves the memory alone. *)
Definition no_buffer (k : kern) (mem : gmap Z Z) (_ : list Z) : Prop := mem = k_mem k.

Lemma finished_relayed live es m n (k : kern) free free' t :
  virt.va_reach free' live → relayed live es m n k (set_k_virt free' (finished es m n (space free t k))).
Proof. by split. Qed.

Lemma unsubscribe_refines sub (k : kern) p live :
  virt.va_reach (k_virt k) live →
  refines (sc_ipc_unsubscribe (uc_regs (ipc_unsubscribe sub))) (SysUnsubscribe sub) k p live (no_buffer k).
Proof.
  intros Hva a es m n E. cbn [kernel_call] in E. apply outcome_bind_ret in E as ([r m'] & Er & [= <- <- <- <-]).
  unfold sc_ipc_unsubscribe. rewrite get_kernel_bind, get_process_bind. cbn [fst snd arg0 uc_regs ipc_unsubscribe raw].
  erewrite lift_bind by exact Er. cbv beta iota. rewrite unit_tail. eexists _, _. split; [reflexivity|].
  split_and!; [by destruct r as [[] ?]|by split|done].
Qed.

Lemma acknowledge_refines sub ack positive (k : kern) p live :
  virt.va_reach (k_virt k) live →
  refines (sc_ipc_acknowledge (uc_regs (ipc_acknowledge sub ack positive))) (SysAcknowledge sub ack positive) k p live
    (no_buffer k).
Proof.
  intros Hva a es m n E. cbn [kernel_call] in E. apply outcome_bind_ret in E as ([r m'] & Er & [= <- <- <- <-]).
  unfold sc_ipc_acknowledge. rewrite get_kernel_bind. cbn [fst snd arg0 arg1 arg2 uc_regs ipc_acknowledge raw].
  assert (negb (Z.b2z positive =? 0) = positive) as -> by by destruct positive.
  erewrite lift_bind by exact Er. cbv beta iota. rewrite unit_tail. eexists _, _. split; [reflexivity|].
  split_and!; [by destruct r as [[] ?]|by split|done].
Qed.

(** Lengths and pointers of slices pass the checks. *)
Lemma slice_args {Y} s (g : Z → Z → MM Y) (k : kern) p :
  slice_ok s →
  (len ← try_len (us_len s); ptr ← pointer_arg (us_ptr s); g len ptr) (k, p) = g (us_len s) (us_ptr s) (k, p).
Proof.
  intros (Hp & Hl & Hm). erewrite bind_go by (apply try_len_ok; lia).
  erewrite bind_go by (apply pointer_arg_ok; unfold PAGE_SIZE_BYTES in Hm; lia). done.
Qed.

(** The arguments of the sending calls: a topic, and the data. *)
Record sending (k : kern) (p : Proc) (live : list virt.Allocation) (mk mp : gmap Z Z) (topic data : uslice)
    (str : string) (d : list Z) : Prop := {
  se_view : ∃ r, mem_view k p live mk mp (Z.to_nat (spages topic) + (Z.to_nat (spages data) + r));
  se_room : virt.room (k_virt k) (spages topic + spages data);
  se_topic : holds_str (k_mem k) mp topic str;
  se_data : holds (k_mem k) mp data d;
}.

Lemma send_run (g : Topic → list Z → MM SR) (k : kern) p live mk mp topic data str d :
  sending k p live mk mp topic data str d →
  ∃ free t free', virt.va_reach free' live ∧
    let mm := (tp ← topic_arg (us_ptr topic) (us_len topic); with_read (us_ptr data) (us_len data) (g tp)) in
    match Topic_new str with
    | None => mm (k, p) = Ret (Syscall.Return (Continue (err_code ipc_invalid_topic)), (space free' t k, p))
    | Some tp => ∀ f k2, g tp d (space free t k, p) = Ret (f, (k2, p)) → k_virt k2 = free →
        mm (k, p) = Ret (f, (set_k_virt free' k2, p))
    end.
Proof.
  intros [[r Hv] Hroom Ht Hd]. pose proof Hd as [Hok _]. pose proof (spages_pos _ Hok) as Hpos.
  destruct (topic_arg_run topic str k p live mk mp (Z.to_nat (spages data) + r) (spages data))
    as (free1 & t1 & mk1 & Hv1 & Hr1 & E1); [done..|].
  destruct (Topic_new str) as [tp|].
  - destruct (with_read_run data d (g tp) (space free1 t1 k) p live mk1 mp r 0 Hv1) as (free & t & mk2 & free' & _ & Hva & _ & Hrun);
      [by rewrite Z.add_0_r|done|done|].
    exists free, t, free'. split; [done|]. intros mm f k2 Eg Hf. subst mm. erewrite bind_go by exact E1. by apply Hrun.
  - exists [], t1, free1. split; [apply Hv1|]. cbn. unfold mbind, M_bind. by rewrite E1.
Qed.

Lemma invalid_relayed live (k : kern) free t :
  virt.va_reach free live → relayed live ∅ (k_ipc k) (k_next_event k) k (space free t k).
Proof. intros Hva. split; cbn; rewrite ?hash_order_none; done. Qed.

(** Runs the sending call at hand up to its last block. *)
Ltac send_with Hs :=
  match goal with |- context [mbind (λ tp, with_read _ _ (@?b tp)) (topic_arg _ _)] =>
    let free := fresh "free" in let t := fresh "t" in let free' := fresh "free'" in
    destruct (send_run b _ _ _ _ _ _ _ _ _ Hs) as (free & t & free' & Hva & Hrun)
  end.

Lemma publish_refines topic data str d (k : kern) p live mk mp :
  sending k p live mk mp topic data str d →
  refines (sc_ipc_publish (uc_regs (ipc_publish topic data))) (SysPublish str d) k p live (no_buffer k).
Proof.
  intros Hs a es m n E. pose proof (se_data _ _ _ _ _ _ _ _ _ Hs) as [Hd _].
  destruct (se_topic _ _ _ _ _ _ _ _ _ Hs) as (b & [Ht _] & _). unfold sc_ipc_publish.
  cbn [arg0 arg1 arg2 arg3 uc_regs ipc_publish raw]. rewrite slice_args by done. cbv beta. rewrite slice_args by done.
  send_with Hs. cbn [kernel_call] in E. destruct (Topic_new str) as [tp|].
  - apply outcome_bind_ret in E as ([r m'] & Er & [= <- <- <- <-]). eexists _, _. split.
    + eapply Hrun; [rewrite get_kernel_bind; erewrite lift_bind by exact Er; cbv beta iota; apply unit_tail|reflexivity].
    + split_and!; [by destruct r as [[] ?]|by apply finished_relayed|done].
  - injection E as <- <- <- <-. eexists _, _. split; [exact Hrun|]. split_and!; [done|by apply invalid_relayed|done].
Qed.

Lemma deliver_reply_refines topic data str d (k : kern) p live mk mp :
  sending k p live mk mp topic data str d →
  refines (sc_ipc_deliver_reply (uc_regs (ipc_deliver_reply topic data))) (SysDeliverReply str d) k p live (no_buffer k).
Proof.
  intros Hs a es m n E. pose proof (se_data _ _ _ _ _ _ _ _ _ Hs) as [Hd _].
  destruct (se_topic _ _ _ _ _ _ _ _ _ Hs) as (b & [Ht _] & _). unfold sc_ipc_deliver_reply.
  cbn [arg0 arg1 arg2 arg3 uc_regs ipc_deliver_reply raw]. rewrite slice_args by done. cbv beta. rewrite slice_args by done.
  send_with Hs. cbn [kernel_call] in E. destruct (Topic_new str) as [tp|].
  - apply outcome_bind_ret in E as ([r m'] & Er & [= <- <- <- <-]). eexists _, _. split.
    + eapply Hrun; [rewrite get_kernel_bind, get_process_bind; erewrite lift_bind by exact Er; cbv beta iota;
        apply unit_tail|reflexivity].
    + split_and!; [by destruct r as [[] ?]|by apply finished_relayed|done].
  - injection E as <- <- <- <-. eexists _, _. split; [exact Hrun|]. split_and!; [done|by apply invalid_relayed|done].
Qed.

Definition deliver_flow (v : result Deliver IpcError) : flow (Frame := Frame) (PfCode := PfCode) SR :=
  match v with
  | Ok (DeliverProcess e) => Go (RepeatAfter (Event e))
  | Ok DeliverKernel => Go (Continue (Ok 0))
  | Err e => Syscall.Return (Continue (err_code (IpcError_code e)))
  end.

Lemma deliver_refines topic data str d (k : kern) p live mk mp :
  sending k p live mk mp topic data str d →
  refines (sc_ipc_deliver rd services (uc_regs (ipc_deliver topic data))) (SysDeliver str d) k p live (no_buffer k).
Proof.
  intros Hs a es m n E. pose proof (se_data _ _ _ _ _ _ _ _ _ Hs) as [Hd _].
  destruct (se_topic _ _ _ _ _ _ _ _ _ Hs) as (b & [Ht _] & _). unfold sc_ipc_deliver.
  cbn [arg0 arg1 arg2 arg3 uc_regs ipc_deliver raw]. rewrite slice_args by done. cbv beta. rewrite slice_args by done.
  rewrite get_kernel_bind, get_process_bind. cbn [fst snd]. cbn [kernel_call] in E.
  destruct (Manager_delivery_complete (k_ipc k) (process_id p)).
  { apply outcome_bind_ret in E as ([r m'] & Er & [= <- <- <- <-]). erewrite lift_bind by exact Er. cbv beta iota.
    rewrite unit_tail. eexists _, _. split; [reflexivity|].
    destruct (se_view _ _ _ _ _ _ _ _ _ Hs) as (? & [Hva _ _ _]).
    split_and!; [by destruct r as [[] ?]|by split|done]. }
  send_with Hs. destruct (Topic_new str) as [tp|].
  - apply outcome_bind_ret in E as ([[r m'] n'] & Er & E).
    exists (deliver_flow (ipc_value r)), (set_k_virt free' (finished (ipc_events r) m' n' (space free t k))). split.
    + apply Hrun; [|reflexivity]. rewrite get_kernel_bind. cbn [fst snd]. erewrite lift_bind by exact Er.
      cbv beta iota. rewrite put_kernel_bind. cbn [fst snd]. destruct r as [v es']. rewrite consume_run. cbv zeta.
      destruct v as [[]|]; reflexivity.
    + destruct r as [[[e|]|e] es']; injection E as <- <- <- <-; (split_and!; [done|by apply finished_relayed|done]).
  - injection E as <- <- <- <-. eexists _, _. split; [exact Hrun|]. split_and!; [done|by apply invalid_relayed|done].
Qed.

Definition subscribe_flow (r : result SubscriptionId SubscriptionError) : flow (Frame := Frame) (PfCode := PfCode) SR :=
  match r with
  | Ok s => Go (Continue (Ok s))
  | Err e => Syscall.Return (Continue (err_code (IpcError_code (Subscription e))))
  end.

Lemma subscribe_refines filter str flags (k : kern) p live mk mp r :
  mem_view k p live mk mp (Z.to_nat (spages filter) + r) → virt.room (k_virt k) (spages filter) →
  holds_str (k_mem k) mp filter str →
  refines (sc_ipc_subscribe (uc_regs (ipc_subscribe filter flags))) (SysSubscribe str flags) k p live (no_buffer k).
Proof.
  intros Hv Hroom (bytes & Hb & Hu & Hl & <-) a es m n E. pose proof Hb as [Hok _].
  unfold sc_ipc_subscribe. cbn [arg0 arg1 arg2 uc_regs ipc_subscribe raw]. cbn [kernel_call] in E.
  destruct (SubscriptionFlags_from_bits flags) as [fl|].
  2:{ injection E as <- <- <- <-. eexists _, _. split; [reflexivity|]. split_and!; [done| |done].
      split; cbn; rewrite ?hash_order_none; try done. apply Hv. }
  rewrite slice_args by done. match goal with |- context [with_read _ _ ?body] =>
    destruct (with_read_run filter bytes body k p live mk mp r 0 Hv)
      as (free & t & mk' & free' & _ & Hva & _ & Hrun) end; [by rewrite Z.add_0_r|done|done|].
  set (f := TopicFilter_try_new _ _) in E. destruct f as [tf|] eqn:Ef; subst f.
  - destruct (Manager_subscribe _ _ _ _ _) as [r' m'] eqn:Es. injection E as <- <- <- <-.
    exists (subscribe_flow r'), (space free' t (set_k_ipc m' (k_next_event k) k)). split.
    + refine (Hrun _ (set_k_ipc m' (k_next_event k) (space free t k)) p _ eq_refl).
      erewrite bind_go by (apply try_str_ok; done). cbv beta. rewrite Ef. unfold try_ipc at 1.
      erewrite bind_go by reflexivity. rewrite get_kernel_bind, get_process_bind. cbn [fst snd].
      change (k_ipc (set_k_table t (set_k_virt free k))) with (k_ipc k). rewrite Es.
      rewrite put_kernel_bind. cbn [fst snd]. by destruct r'.
    + split_and!; [by destruct r'| |done]. split; cbn; rewrite ?hash_order_none; done.
  - injection E as <- <- <- <-. eexists _, _. split.
    + refine (Hrun _ (space free t k) p _ eq_refl).
      erewrite bind_go by (apply try_str_ok; done). cbv beta. rewrite Ef. reflexivity.
    + split_and!; [done|by apply (invalid_relayed live k free' t)|done].
Qed.

(** The buffer of [ipc_receive]: written up to the length of the message, and nothing else is. *)
Lemma copy_to_bytes mem (l bytes : list Z) :
  NoDup l → (length bytes ≤ length l)%nat →
  mem_at (copy_to mem l bytes) <$> l = bytes ++ drop (length bytes) (mem_at mem <$> l).
Proof.
  intros Hnd Hle. apply list_eq_same_length with (length l);
    [rewrite length_app, length_drop, length_fmap; lia|by rewrite length_fmap|].
  intros i x y Hi Hx Hy. rewrite list_lookup_fmap in Hx. apply fmap_Some in Hx as (a & Ha & ->).
  destruct (decide (i < length bytes)%nat) as [Hlt|Hge].
  - rewrite lookup_app_l in Hy by done. by eapply copy_to_at.
  - rewrite lookup_app_r, lookup_drop in Hy by lia. replace (length bytes + (i - length bytes))%nat with i in Hy by lia.
    rewrite list_lookup_fmap, Ha in Hy. injection Hy as <-. unfold mem_at. rewrite copy_to_other; [done|].
    intros j Hj Hl. assert (i = j) by by eapply NoDup_lookup. lia.
Qed.

Definition receive_buffer (k : kern) (mp : gmap Z Z) (s : uslice) (l : list Z) (mem : gmap Z Z) (buf : list Z) : Prop :=
  if bool_decide (buf = []) then mem = k_mem k
  else user_bytes mem mp (us_ptr s) (us_len s) = Some buf ∧ ∀ a, a ∉ l → mem !! a = k_mem k !! a.

Lemma receive_refines sub s buf l (k : kern) p live mk mp r :
  mem_view k p live mk mp (Z.to_nat (spages s) + r) → virt.room (k_virt k) (spages s) → holds (k_mem k) mp s buf →
  user_addrs mp (us_ptr s) (us_len s) = Some l → NoDup l →
  refines (sc_ipc_receive to_vec (uc_regs (ipc_receive sub s))) (SysReceive sub buf) k p live (receive_buffer k mp s l).
Proof.
  intros Hv Hroom [Hok Hb] Hl Hnd a es m n E. unfold user_bytes in Hb. rewrite Hl in Hb. injection Hb as <-.
  unfold sc_ipc_receive. cbn [arg0 arg1 arg2 uc_regs ipc_receive raw]. rewrite slice_args by done.
  destruct flag_set_bits as (Hfp & Hfw & _). pose proof Hok as (Hp0 & Hl0 & Hmax).
  unfold with_write. match goal with |- context [with_slice ?f _ _ ?body] =>
    destruct (with_slice_ok f (us_ptr s) (us_len s) body k p live mk mp r l Hv)
      as (free & t & mk' & al & start & Ew & Hs & [Hva _ _ _] & _);
      [split_and!; [done|lia|done|exact Hroom]|by apply flag_set_lor|apply land_lor_l|done|] end.
  rewrite Ew. clear Ew. cbn in Hva.
  destruct (virt.va_drop_spec free [] live al (virt.va_reach_inv _ _ Hva)) as (free' & Ed & _).
  assert (virt.va_reach free' live) as Hva' by by apply (virt.va_drop free [] live al).
  cbn [kernel_call] in E. apply outcome_bind_ret in E as ([[rr m'] n'] & Er & E).
  rewrite get_kernel_bind, get_process_bind. cbn [fst snd]. erewrite lift_bind by exact Er. cbv beta iota.
  rewrite put_kernel_bind. cbn [fst snd]. destruct rr as [v es']. rewrite consume_run. cbv zeta. cbn [ipc_value ipc_events] in E.
  destruct v as [[msg|e]|e].
  - apply outcome_bind_ret in E as (ser & Hser & E). apply outcome_bind_ret in E as ([] & Hle & [= <- <- <- <-]).
    pose proof (proj1 (rassert_ret _ _) Hle) as Hle'. apply Nat.leb_le in Hle'. rewrite length_fmap in Hle'.
    rewrite Hser. erewrite lift_bind by reflexivity. erewrite lift_bind by exact Hle. rewrite get_kernel_bind. cbn [fst snd].
    erewrite lift_bind by (eapply (kernel_write_ok _ mk' start l); [exact Hs|done]).
    rewrite put_kernel_bind. cbn [fst snd mret M_ret mbind outcome_bind].
    cbn [k_virt set_k_phys set_k_ipc set_k_table set_k_virt set_k_sched]. rewrite Ed. cbn [mbind outcome_bind].
    eexists _, _. split; [reflexivity|]. split_and!; [done|by split|]. unfold receive_buffer.
    rewrite bool_decide_eq_false_2.
    + cbn. split; [unfold user_bytes; rewrite Hl; cbn; f_equal; by apply copy_to_bytes|].
      intros b Hn. apply copy_to_other. intros i _ Hi. by apply Hn, (list_elem_of_lookup_2 _ i).
    + intros Hnil%(f_equal length). rewrite length_app, length_drop, length_fmap, (user_addrs_length _ _ _ _ Hl) in Hnil.
      cbn in Hnil. lia.
  - injection E as <- <- <- <-. cbn [mret M_ret mbind outcome_bind k_virt set_k_ipc set_k_table set_k_virt set_k_sched].
    rewrite Ed. eexists _, _. split; [reflexivity|]. by split_and!.
  - injection E as <- <- <- <-. cbn [mret M_ret mbind outcome_bind k_virt set_k_ipc set_k_table set_k_virt set_k_sched].
    rewrite Ed. eexists _, _. split; [reflexivity|]. by split_and!.
Qed.

(** ** Every message call *)

(** The arguments of a call lie in the memory of the process, the library has entered the kernel
    with [rsc], and there is address space to read them. *)
Inductive placed (k : kern) (p : Proc) (live : list virt.Allocation) (mk mp : gmap Z Z)
    : ipc_sys → RawSyscall → (gmap Z Z → list Z → Prop) → Prop :=
| pl_subscribe filter str flags r :
    mem_view k p live mk mp (Z.to_nat (spages filter) + r) → virt.room (k_virt k) (spages filter) →
    holds_str (k_mem k) mp filter str →
    placed k p live mk mp (SysSubscribe str flags) (uc_regs (ipc_subscribe filter flags)) (no_buffer k)
| pl_unsubscribe sub :
    virt.va_reach (k_virt k) live →
    placed k p live mk mp (SysUnsubscribe sub) (uc_regs (ipc_unsubscribe sub)) (no_buffer k)
| pl_publish topic data str d :
    sending k p live mk mp topic data str d →
    placed k p live mk mp (SysPublish str d) (uc_regs (ipc_publish topic data)) (no_buffer k)
| pl_deliver topic data str d :
    sending k p live mk mp topic data str d →
    placed k p live mk mp (SysDeliver str d) (uc_regs (ipc_deliver topic data)) (no_buffer k)
| pl_deliver_reply topic data str d :
    sending k p live mk mp topic data str d →
    placed k p live mk mp (SysDeliverReply str d) (uc_regs (ipc_deliver_reply topic data)) (no_buffer k)
| pl_receive sub s buf l r :
    mem_view k p live mk mp (Z.to_nat (spages s) + r) → virt.room (k_virt k) (spages s) → holds (k_mem k) mp s buf →
    user_addrs mp (us_ptr s) (us_len s) = Some l → NoDup l →
    placed k p live mk mp (SysReceive sub buf) (uc_regs (ipc_receive sub s)) (receive_buffer k mp s l)
| pl_acknowledge sub ack positive :
    virt.va_reach (k_virt k) live →
    placed k p live mk mp (SysAcknowledge sub ack positive) (uc_regs (ipc_acknowledge sub ack positive)) (no_buffer k).

Lemma syscall_number_round_trip n : SyscallNumber_try_from (SyscallNumber_discriminant n) = Some n.
Proof. by destruct n. Qed.

(** C16: a message call of a program does what [kernel_call] says.  With its arguments in the memory
    of the process and the registers of the library, the kernel, through its page tables, gives the
    same answer, blocks on the same event or ends the process in the same cases, leaves the same
    manager, wakes exactly the processes that wait for the call's events, writes a received message
    to the buffer and nothing else to memory, and has its address space back. *)
Theorem message_calls_refine c rsc buffer (k : kern) (p : Proc) live mk mp a es m n
    (Hpl : placed k p live mk mp c rsc buffer)
    (Hc : kernel_call rd services (process_id p) c (k_ipc k) (k_next_event k) = Ret (a, es, m, n)) :
  ∃ k', run rsc (k, p) = Ret (answered a, (k', p)) ∧ relayed live es m n k k' ∧
    buffer (k_mem k') (match a with Returned _ buf => buf | _ => [] end).
Proof.
  assert (refines (syscall clk now is_bsp rnd garbage idt common rd services to_vec rsc) c k p live buffer) as Hr.
  { destruct Hpl; unfold syscall; cbn [routine uc_regs raw ipc_subscribe ipc_unsubscribe ipc_publish ipc_deliver
      ipc_deliver_reply ipc_receive ipc_acknowledge]; rewrite syscall_number_round_trip.
    - by eapply subscribe_refines.
    - by apply unsubscribe_refines.
    - by eapply publish_refines.
    - by eapply deliver_refines.
    - by eapply deliver_reply_refines.
    - by eapply receive_refines.
    - by apply acknowledge_refines. }
  destruct (Hr a es m n Hc) as (f & k' & E & Hf & Hre & Hb). exists k'. split; [|done].
  unfold run_syscall. rewrite E. cbn [mbind outcome_bind]. rewrite <- Hf. by destruct f.
Qed.

End calls_refine.

(** Process 2 publishes two bytes under the topic it is subscribed to itself. *)
Definition example_publisher : kernel :=
  MkKernel Scheduler_new (example_subscribed false false) 0 virt.FREE_LIST example_kernel ({[0x600000]} : gset Z)
    (<[0x600010 := 97]> (<[0x600020 := 7]> {[0x600021 := 8]})) [] [].

Lemma example_sending :
  sending example_publisher (example_process example_proc) [] {[0x10000000 := 0x10000000]} {[0x400000 := 0x600000]}
    (MkSlice 1 0x400010) (MkSlice 2 0x400020) "a" [7; 8].
Proof.
  split.
  - exists 198%nat. split; [apply virt.va_init|apply example_kernel_denotes| |apply example_frames_ok].
    exists 200%nat. apply example_proc_denotes.
  - exists (virt.MkBlock virt.START_ADDR virt.END_ADDR). split; [by left|vm_compute; discriminate].
  - exists [97]. split_and!; [split|reflexivity|cbn; lia|reflexivity].
    + split_and!; [cbn; lia|cbn; lia|cbn; lia|vm_compute; discriminate].
    + vm_compute. reflexivity.
  - split; [split_and!; [cbn; lia|cbn; lia|cbn; lia|vm_compute; discriminate]|vm_compute; reflexivity].
Qed.

Lemma message_calls_refine_witness :
  ∃ k', run_syscall (PC := example_pinecone) (Frame := unit) (PfCode := unit) example_clock 0 true 0 ∅ 0 0
      {| files := ∅; slice := [] |} ∅ (to_vec (Codec := example_message_codec))
      (uc_regs (ipc_publish (MkSlice 1 0x400010) (MkSlice 2 0x400020)))
      (example_publisher, example_process example_proc) =
      Ret (Continue (Ok 0), (k', example_process example_proc)) ∧ k_ipc k' = example_published.
Proof.
  edestruct (message_calls_refine (PC := example_pinecone) (Codec0 := example_message_codec) (Frame := unit)
    (PfCode := unit) example_clock 0 true 0 ∅ 0 0 {| files := ∅; slice := [] |} ∅ (SysPublish "a" [7; 8]))
    as (k' & E & Hre & _).
  - apply pl_publish, example_sending.
  - vm_compute. reflexivity.
  - exists k'. split; [exact E|]. rewrite (re_ipc _ _ _ _ _ _ Hre). vm_compute. reflexivity.
Defined.
