(* ===== verification/SysLog.v ===== *)
(** * SysLog: the kernel log and its way to the console
    (src/syslog.rs, src/driver/uart.rs, modules/daemon_syslog/src/lib.rs)

    A record is logged by the kernel, kept in the write-ahead log, read by the syslog daemon with
    the system call of Syscall and delivered to the console line by line.  Text is bytes; the text
    of a record's arguments is given.  The debug port is what is written to it.  Delivering a
    message to the console succeeds. *)

From stdpp Require Import base list strings pretty.
From Stdlib Require Import ZArith Lia.
From S2P Require Import Prelude Bytes PortIo Syscall.
Open Scope Z_scope.

(** ** Records *)








(** ** Outputs *)



(** ** The logger *)

Section logger.
Context (cpu : Z) (has_com1 : bool).







End logger.

(** ** The daemon *)





(** ** The system *)



(** ** What is logged *)









(** ** The daemon *)




(** ** The logger *)








