(* ===== verification/Uart.v ===== *)
(** * Uart: the serial line (src/driver/uart.rs)

    Programs of port accesses, over a device that shows the state of the chip: the latch for the
    divisor, the loop back, the byte received and the bytes sent.  It may be busy for up to [B]
    polls after a byte; a chip that does not work changes the byte it loops back. *)

From stdpp Require Import base list strings.
From Stdlib Require Import ZArith Lia.
From S2P Require Import Prelude Bytes PortIo.
Open Scope Z_scope.

Definition COM1 : Z := 0x3f8.

Section driver.
Context `{!Device} (fuel : nat).

Definition outb (value port : Z) : IO unit := write_port 8 port value.
Definition inb (port : Z) : IO Z := read_port 8 port.

Definition init_serial (port_base : Z) : IO bool :=
  _ ← outb 0x00 (port_base + 1);
  _ ← outb 0x80 (port_base + 3);
  _ ← outb 0x03 (port_base + 0);
  _ ← outb 0x00 (port_base + 1);
  _ ← outb 0x03 (port_base + 3);
  _ ← outb 0xc7 (port_base + 2);
  _ ← outb 0x0b (port_base + 4);
  _ ← outb 0x1b (port_base + 4);
  _ ← outb 0xae (port_base + 0);
  v ← inb port_base;
  if negb (v =? 0xae) then mret false
  else
    _ ← outb 0x0f (port_base + 4);
    mret true.

Definition is_transmit_empty (port_base : Z) : IO bool :=
  v ← inb (port_base + 5); mret (negb (Z.land v 0x20 =? 0)).

Definition write_serial (port_base c : Z) : IO unit :=
  _ ← io_until fuel (is_transmit_empty port_base); outb c port_base.

Definition write_com1 (c : Z) : IO unit := write_serial COM1 c.

(** [init]: the flag for [has_com1]. *)
Definition uart_init : IO bool := init_serial COM1.

End driver.

(** ** The chip *)

Record chip := MkChip { dlab : bool; loopback : bool; received : Z; sent : list Z; ubusy : nat; works : bool }.

Definition chip_out (off v : Z) (c : chip) : chip :=
  if off =? 3 then MkChip (Z.testbit v 7) (loopback c) (received c) (sent c) (ubusy c) (works c)
  else if off =? 4 then MkChip (dlab c) (Z.testbit v 4) (received c) (sent c) (ubusy c) (works c)
  else if (off =? 0) && negb (dlab c) then
    if loopback c then MkChip (dlab c) (loopback c) (if works c then v else Z.lxor v 1) (sent c) (ubusy c) (works c)
    else MkChip (dlab c) (loopback c) (received c) (sent c ++ [v]) (ubusy c) (works c)
  else c.

Definition set_ubusy (n : nat) (c : chip) : chip :=
  MkChip (dlab c) (loopback c) (received c) (sent c) n (works c).

(** A device that shows a chip at [COM1].  It is idle when a byte is to be sent. *)
Class UartLaws `{!Device} (B : nat) := {
  com : Dev → chip;
  com_out d off v : 0 ≤ off ≤ 4 → (off = 0 → loopback (com d) = false → dlab (com d) = false → ubusy (com d) = O) →
    ∃ n, (n ≤ B)%nat ∧ com (port_out 8 (COM1 + off) v d) = set_ubusy n (chip_out off v (com d));
  com_in d : dlab (com d) = false → (port_in 8 COM1 d).1 = received (com d) ∧ com (port_in 8 COM1 d).2 = com d;
  com_status d : (port_in 8 (COM1 + 5) d).1 = (if bool_decide (ubusy (com d) = O) then 0x20 else 0) ∧
    com (port_in 8 (COM1 + 5) d).2 = set_ubusy (pred (ubusy (com d))) (com d);
}.

Section props.
Context `{!Device} {B : nat} `{!UartLaws B} (fuel : nat) (Hfuel : (B < fuel)%nat).

(** What the device shows, but for how long it is still busy. *)
Definition shows (c : chip) (d : Dev) : Prop := set_ubusy 0 (com d) = set_ubusy 0 c ∧ (ubusy (com d) ≤ B)%nat.

Lemma shows_fields c d : shows c d →
  dlab (com d) = dlab c ∧ loopback (com d) = loopback c ∧ received (com d) = received c ∧ sent (com d) = sent c ∧ works (com d) = works c.
Proof. intros [E _]. unfold set_ubusy in E. by injection E. Qed.

Lemma chip_out_busy n off v c : set_ubusy 0 (chip_out off v (set_ubusy n c)) = set_ubusy 0 (chip_out off v c).
Proof. unfold chip_out, set_ubusy. cbn. by repeat case_match. Qed.

(** A register other than the transmitter, or the transmitter of an idle or looping chip. *)
Lemma out_step {A} off v c d (k : IO A) :
  shows c d → 0 ≤ off ≤ 4 → (off = 0 → loopback c = false → dlab c = false → ubusy (com d) = O) →
  ∃ d', (_ ← outb v (COM1 + off); k) d = k d' ∧ shows (chip_out off v c) d'.
Proof.
  intros Hs Ho Hi. pose proof (shows_fields _ _ Hs) as (E1 & E2 & _).
  destruct (com_out d off v Ho) as (n & Hn & E); [by rewrite E1, E2|].
  eexists. unfold outb. rewrite (bind_some _ _ _ _ _ (write_some _ _ _ _)). split; [reflexivity|].
  split; [|rewrite E; cbn; done]. rewrite E. destruct Hs as [Hs _].
  rewrite <- (chip_out_busy 0 off v c), <- Hs, (chip_out_busy 0). unfold set_ubusy. cbn. done.
Qed.

Lemma status_read d : is_transmit_empty COM1 d =
  Some (Ret (bool_decide (ubusy (com d) = O), (port_in 8 (COM1 + 5) d).2)).
Proof.
  unfold is_transmit_empty, inb. rewrite (bind_some _ _ _ _ _ (read_some _ _ _)). rewrite (proj1 (com_status d)).
  by case_bool_decide.
Qed.

Lemma wait_idle n d :
  (ubusy (com d) < n)%nat →
  ∃ d', io_until n (is_transmit_empty COM1) d = Some (Ret (tt, d')) ∧
    set_ubusy 0 (com d') = set_ubusy 0 (com d) ∧ ubusy (com d') = O.
Proof.
  revert d. induction n as [|n IH]; intros d Hn; [lia|]. cbn [io_until].
  rewrite (bind_some _ _ _ _ _ (status_read d)). destruct (com_status d) as [_ E]. case_bool_decide as Hb.
  - eexists. split; [reflexivity|]. rewrite E. unfold set_ubusy. cbn. by rewrite Hb.
  - destruct (IH (port_in 8 (COM1 + 5) d).2) as (d' & Ed & H1 & H2); [rewrite E; cbn; lia|].
    exists d'. rewrite H1, E. by split.
Qed.

(** Sending a byte. *)
Lemma write_com1_ok c v d :
  shows c d → loopback c = false → dlab c = false →
  ∃ d', write_com1 fuel v d = Some (Ret (tt, d')) ∧ shows (MkChip false false (received c) (sent c ++ [v]) 0 (works c)) d'.
Proof.
  intros Hs Hl Hd. destruct (wait_idle fuel d) as (d1 & E1 & H1 & H2); [destruct Hs; lia|].
  unfold write_com1, write_serial. rewrite (bind_some _ _ _ _ _ E1).
  assert (shows c d1) as Hs1 by (destruct Hs as [Hs _]; split; [congruence|lia]).
  destruct (com_out d1 0 v) as (n & Hn & E); [lia|done|]. pose proof (shows_fields _ _ Hs1) as (F1 & F2 & F3 & F4 & F5).
  rewrite Z.add_0_r in E. eexists. split; [reflexivity|]. unfold shows. rewrite E. cbn [ubusy set_ubusy]. split; [|done].
  unfold chip_out. cbn [Z.eqb andb]. rewrite F1, F2, F3, F4, F5, Hl, Hd. reflexivity.
Qed.

Fixpoint write_all (l : list Z) : IO unit :=
  match l with [] => mret tt | c :: l => _ ← write_com1 fuel c; write_all l end.

Lemma write_all_ok l c d :
  shows c d → loopback c = false → dlab c = false →
  ∃ d', write_all l d = Some (Ret (tt, d')) ∧ sent (com d') = sent c ++ l.
Proof.
  revert c d. induction l as [|v l IH]; intros c d Hs Hl Hd.
  { exists d. split; [done|]. rewrite app_nil_r. apply shows_fields in Hs. naive_solver. }
  destruct (write_com1_ok c v d Hs Hl Hd) as (d1 & E1 & Hs1). cbn [write_all]. rewrite (bind_some _ _ _ _ _ E1).
  destruct (IH _ d1 Hs1) as (d2 & E2 & H2); [done|done|]. exists d2. split; [done|]. rewrite H2. cbn. by rewrite <- (assoc_L (++)).
Qed.

(** The next byte written to a register. *)
Ltac out Hs :=
  match type of Hs with shows ?c ?d =>
    match goal with |- context [mbind (λ _, ?k) (outb ?v (COM1 + ?off)) d] =>
      let d1 := fresh "d" in let E := fresh "E" in let H := fresh "H" in
      destruct (out_step off v c d k) as (d1 & E & H); [exact Hs|lia|first [lia|cbn; congruence]|];
      rewrite E; clear E Hs; rename H into Hs; cbn [chip_out Z.eqb Pos.eqb andb negb dlab loopback received sent ubusy works] in Hs
    end
  end.

(** ** Properties *)

(** A chip that works is found, and what is written after that goes out on the line, byte by byte and
    in order; a chip that does not is reported, and nothing has gone out. *)
Theorem serial_line_works c d l :
  shows c d → ∃ d', uart_init d = Some (Ret (works c, d')) ∧ sent (com d') = sent c ∧
    (works c = true → ∃ d2, write_all l d' = Some (Ret (tt, d2)) ∧ sent (com d2) = sent c ++ l).
Proof.
  intros Hs. unfold uart_init, init_serial. do 9 out Hs.
  pose proof (shows_fields _ _ Hs) as (F1 & _ & F3 & F4 & _). cbn in F1, F3, F4.
  match type of Hs with shows _ ?x => rename x into dn end.
  destruct (com_in dn) as [Er Ei]; [done|]. unfold inb. rewrite (bind_some _ _ _ _ _ (read_some _ _ _)), Er, F3.
  assert (shows (MkChip false true (if works c then 0xae else Z.lxor 0xae 1) (sent c) 0 (works c)) (port_in 8 COM1 dn).2) as Hs'.
  { unfold shows. rewrite Ei. exact Hs. }
  destruct (works c) eqn:Ew; cbn [Z.eqb Pos.eqb negb Z.lxor Pos.lxor].
  - clear Hs. out Hs'. match type of Hs' with shows _ ?x => exists x end. pose proof (shows_fields _ _ Hs') as (_ & _ & _ & G4 & _). split_and!; [done|done|].
    intros _. destruct (write_all_ok l _ _ Hs') as (dl & El & Hl); [done|done|]. by exists dl.
  - eexists. split; [reflexivity|]. split; [|done]. by rewrite Ei.
Qed.

End props.

(** A chip that is busy for one poll after a byte. *)
#[local] Instance ref_uart : Device := {|
  Dev := chip;
  port_in := λ _ port d,
    if port =? COM1 + 5 then (if bool_decide (ubusy d = O) then 0x20 else 0, set_ubusy (pred (ubusy d)) d)
    else (received d, d);
  port_out := λ _ port v d, set_ubusy 1 (chip_out (port - COM1) v d);
|}.

#[local] Program Instance ref_uart_laws : UartLaws 1 := { com := λ d, d }.
Next Obligation. intros d off v _ _. exists 1%nat. cbn. replace (COM1 + off - COM1) with off by lia. by split. Qed.
Next Obligation. done. Qed.
Next Obligation. done. Qed.

Lemma serial_line_works_witness :
  ∃ d', uart_init (MkChip false false 0 [] 0 true : @Dev ref_uart) = Some (Ret (true, d')) ∧
    ∃ d2, write_all 3 [72; 105] d' = Some (Ret (tt, d2)) ∧ sent d2 = [72; 105].
Proof.
  destruct (serial_line_works (B := 1) 3 ltac:(lia) (MkChip false false 0 [] 0 true) (MkChip false false 0 [] 0 true) [72; 105])
    as (d' & E & _ & H).
  - split; [reflexivity|cbn; lia].
  - exists d'. split; [exact E|]. exact (H eq_refl).
Defined.
