(* ===== verification/KernelRandom.v ===== *)
(** * KernelRandom: processor features and random numbers (src/cpuid.rs, src/random.rs)

    The [cpuid] instruction is a parameter, and so are the time stamp counter, by the number of the
    read, the two random instructions, by the number of the attempt, and the hash of the sha2 crate.
    The state is the entropy pool with its two indices, which are atomic counters and wrap around. *)

From stdpp Require Import base list strings.
From Stdlib Require Import ZArith Lia.
From S2P Require Import Prelude Bytes.
Open Scope Z_scope.

(** ** cpuid.rs *)

(** Feature flags: names and bits. *)
Definition FlagsECX : list (string * Z) :=
  [("SSE3", 0); ("PCLMUL", 1); ("DTES64", 2); ("MONITOR", 3); ("DS_CPL", 4); ("VMX", 5); ("SMX", 6);
   ("EST", 7); ("TM2", 8); ("SSSE3", 9); ("CID", 10); ("FMA", 12); ("CX16", 13); ("ETPRD", 14);
   ("PDCM", 15); ("PCIDE", 17); ("DCA", 18); ("SSE4_1", 19); ("SSE4_2", 20); ("X2APIC", 21);
   ("MOVBE", 22); ("POPCNT", 23); ("TSCD", 24); ("AES", 25); ("XSAVE", 26); ("OSXSAVE", 27); ("AVX", 28)].

Definition FlagsEDX : list (string * Z) :=
  [("FPU", 0); ("VME", 1); ("DE", 2); ("PSE", 3); ("TSC", 4); ("MSR", 5); ("PAE", 6); ("MCE", 7);
   ("CX8", 8); ("APIC", 9); ("SEP", 11); ("MTRR", 12); ("PGE", 13); ("MCA", 14); ("CMOV", 15);
   ("PAT", 16); ("PSE36", 17); ("PSN", 18); ("CLF", 19); ("DTES", 21); ("ACPI", 22); ("MMX", 23);
   ("FXSR", 24); ("SSE", 25); ("SSE2", 26); ("SS", 27); ("HTT", 28); ("TM1", 29); ("IA64", 30); ("PBE", 31)].

Definition flags_all (l : list (string * Z)) : Z := foldr (λ '(_, i), Z.lor (Z.shiftl 1 i)) 0 l.
Definition from_bits_truncate (l : list (string * Z)) (bits : Z) : Z := Z.land bits (flags_all l).

(** [contains] for the flag of a name *)
Definition contains_flag (l : list (string * Z)) (flags : Z) (name : string) : bool :=
  match list_find (λ p, p.1 = name) l with
  | Some (_, (_, i)) => Z.land flags (Z.shiftl 1 i) =? Z.shiftl 1 i
  | None => false
  end.

(** The four registers of a leaf. *)
Record leaf := MkLeaf { eax : Z; ebx : Z; ecx : Z; edx : Z }.

Section cpu.
Context (call_cpuid : Z → leaf).

(** The loops of [cpu_brand] over the bytes of a leaf's registers, up to a zero byte. *)
Definition leaf_bytes (l : leaf) : list Z :=
  v ← [eax l; ebx l; ecx l; edx l];
  i ← [0; 1; 2; 3];
  [Z.shiftr (Z.land v (Z.shiftl 0xFF (i * 8))) (i * 8)].

Fixpoint until_zero (l : list Z) : list Z :=
  match l with [] => [] | b :: l => if b =? 0 then [] else b :: until_zero l end.

Definition is_whitespace (c : Z) : bool :=
  ((9 <=? c) && (c <=? 13)) || (c =? 32) || (c =? 0x85) || (c =? 0xa0).

Fixpoint trim_start (l : list Z) : list Z :=
  match l with [] => [] | c :: l' => if is_whitespace c then trim_start l' else l end.
Definition trim (l : list Z) : list Z := reverse (trim_start (reverse (trim_start l))).

(** The variable of the loop over the three leaves is not used. *)
Definition cpu_brand : list Z :=
  trim (until_zero (_ ← seqZ 0x80000002 3; leaf_bytes (call_cpuid 0))).

Definition get_max_levels : Z * Z := (eax (call_cpuid 0), eax (call_cpuid 0x80000000)).

Definition run_feature_checks : outcome unit :=
  let '(level_std, level_ext) := get_max_levels in
  _ ← rassert (3 <=? level_std) "CPUID standard max level too low";
  _ ← rassert (0x80000007 <=? level_ext) "CPUID extended max level too low";
  let f_edx := from_bits_truncate FlagsEDX (edx (call_cpuid 1)) in
  _ ← rassert (contains_flag FlagsEDX f_edx "TSC") "Unsupported CPU: Feature TSC missing";
  _ ← rassert (contains_flag FlagsEDX f_edx "SSE") "Unsupported CPU: Feature SSE missing";
  rassert (contains_flag FlagsEDX f_edx "APIC") "Unsupported CPU: Feature APIC missing".

Definition tsc_supports_deadline_mode : bool :=
  contains_flag FlagsECX (from_bits_truncate FlagsECX (ecx (call_cpuid 1))) "TSCD".

Definition supports_rdrand : bool * bool :=
  (negb (Z.land (ebx (call_cpuid 7)) (Z.shiftl 1 18) =? 0), negb (Z.land (ecx (call_cpuid 1)) (Z.shiftl 1 30) =? 0)).

(** ** random.rs *)

Definition POOL_SIZE : nat := 512.

(** [rotate_left] on 64 bits *)
Definition rotate_left (v n : Z) : Z :=
  let k := n mod 64 in wrap64 (Z.lor (Z.shiftl v k) (Z.shiftr v (64 - k))).

(** The pool and its counters, and how often the counter and the instructions have been read. *)
Record rng := MkRng { pool : list Z; read_index : Z; write_index : Z; reads : nat; draws : nat }.

Context (tsc : nat → Z) (rdseed_try rdrand_try : nat → option Z) (sha256 : list Z → list Z).

(** The loop in assembly: up to ten attempts. *)
Fixpoint hw_loop (try : nat → option Z) (retries : nat) (n : nat) : outcome (Z * nat) :=
  match retries with
  | O => Panic "rdseed failed"
  | S retries => match try n with Some v => Ret (v, S n) | None => hw_loop try retries (S n) end
  end.

Definition read_best_hw_random (n : nat) : outcome (option Z * nat) :=
  let '(has_rdseed, has_rdrand) := supports_rdrand in
  if has_rdseed : bool then '(v, n) ← hw_loop rdseed_try 10 n; Ret (Some v, n)
  else if has_rdrand : bool then '(v, n) ← hw_loop rdrand_try 10 n; Ret (Some v, n)
  else Ret (None, n).

(** The index is always in range. *)
Definition pool_index (i : Z) : nat := Z.to_nat (i mod Z.of_nat POOL_SIZE).

Definition push_seed (value : Z) (s : rng) : outcome rng :=
  let index := pool_index (write_index s) in
  old ← unwrap (pool s !! index);
  Ret (MkRng (<[index := Z.lxor old value]> (pool s)) (read_index s) (wrap64 (write_index s + 1)) (reads s) (draws s)).

Definition fast_entropy (s : rng) : outcome (Z * rng) :=
  let v := rotate_left (tsc (reads s)) (read_index s mod 2 ^ 32) in
  '(r, n) ← read_best_hw_random (draws s);
  Ret (match r with Some r => Z.lxor v r | None => v end,
       MkRng (pool s) (read_index s) (write_index s) (S (reads s)) n).

Definition insert_entropy (v : Z) (s : rng) : outcome rng :=
  '(a, s) ← fast_entropy s;
  '(b, s) ← fast_entropy s;
  push_seed (rotate_left (Z.lxor v a) (b mod 2 ^ 32)) s.

Definition read_one (s : rng) : outcome (Z * rng) :=
  s ← insert_entropy 0 s;
  let index := pool_index (read_index s) in
  v ← unwrap (pool s !! index);
  Ret (v, MkRng (<[index := wrap64 (v + 1)]> (pool s)) (wrap64 (read_index s + 1)) (write_index s) (reads s) (draws s)).

Definition read (s : rng) : outcome (Z * rng) :=
  '(v, s) ← read_one s;
  let hash := sha256 (to_le 8 v) in
  _ ← rassert (8 <=? length hash)%nat "range end index out of range for slice";
  Ret (from_le (take 8 hash), s).

Definition next_u32 (s : rng) : outcome (Z * rng) := '(v, s) ← read s; Ret (v mod 2 ^ 32, s).

(** The loop over the chunks of eight bytes of a buffer of [n] bytes. *)
Fixpoint fill_loop (fuel n : nat) (s : rng) : outcome (list Z * rng) :=
  match fuel with
  | O => Ret ([], s)
  | S fuel =>
      '(v, s) ← read s;
      '(rest, s) ← fill_loop fuel (n - 8) s;
      Ret (take (min 8 n) (to_le 8 v) ++ rest, s)
  end.

(** As many chunks as the length has, the last one possibly shorter. *)
Definition fill_bytes (n : nat) (s : rng) : outcome (list Z * rng) := fill_loop ((n + 7) / 8) n s.

Fixpoint insert_times (k : nat) (s : rng) : outcome rng :=
  match k with O => Ret s | S k => s ← insert_entropy 0 s; insert_times k s end.

Definition random_init (s : rng) : outcome rng := insert_times (POOL_SIZE * 5) s.

End cpu.

(** ** Features *)

Lemma contains_bit l bits name i k :
  list_find (λ p, p.1 = name) l = Some (k, (name, i)) → 0 ≤ i → Z.testbit (flags_all l) i = true →
  contains_flag l (from_bits_truncate l bits) name = Z.testbit bits i.
Proof.
  intros Hf Hi Hall. unfold contains_flag, from_bits_truncate. rewrite Hf, Z.shiftl_1_l.
  destruct (Z.testbit bits i) eqn:Eb.
  - apply Z.eqb_eq, Z.bits_inj'. intros n Hn. rewrite !Z.land_spec, Z.pow2_bits_eqb by done.
    destruct (Z.eqb_spec i n) as [->|]; [by rewrite Eb, Hall|by rewrite andb_false_r].
  - apply Z.eqb_neq. intros E%(f_equal (λ z, Z.testbit z i)). rewrite !Z.land_spec, Z.pow2_bits_true, Eb in E by done. done.
Qed.

(** The kernel starts only on a processor with the levels it reads and a time stamp counter, SSE and
    an APIC. *)
Theorem feature_checks_exact call_cpuid :
  returns (run_feature_checks call_cpuid) ↔
  3 ≤ eax (call_cpuid 0) ∧ 0x80000007 ≤ eax (call_cpuid 0x80000000) ∧
  Z.testbit (edx (call_cpuid 1)) 4 = true ∧ Z.testbit (edx (call_cpuid 1)) 25 = true ∧ Z.testbit (edx (call_cpuid 1)) 9 = true.
Proof.
  unfold run_feature_checks, get_max_levels.
  rewrite (contains_bit FlagsEDX _ "TSC" 4 4), (contains_bit FlagsEDX _ "SSE" 25 23), (contains_bit FlagsEDX _ "APIC" 9 9)
    by (done || reflexivity).
  unfold returns. destruct (Z.leb_spec 3 (eax (call_cpuid 0))); [|split; [by intros [? ?]|lia]].
  destruct (Z.leb_spec 0x80000007 (eax (call_cpuid 0x80000000))); [|split; [by intros [? ?]|lia]].
  destruct (Z.testbit (edx (call_cpuid 1)) 4), (Z.testbit (edx (call_cpuid 1)) 25), (Z.testbit (edx (call_cpuid 1)) 9).
  all: split; [intros [? E]|intros (? & ? & ? & ? & ?)]; try done; by eexists.
Qed.

(** The brand is made of the vendor leaf: it does not depend on the leaves that hold the brand. *)
Theorem cpu_brand_ignores_brand_leaves call1 call2 : call1 0 = call2 0 → cpu_brand call1 = cpu_brand call2.
Proof. intros E. unfold cpu_brand. by rewrite E. Qed.

(** ** The pool *)

Definition is_word (z : Z) : Prop := 0 ≤ z < u64_size.

Lemma word_lxor a b : is_word a → is_word b → is_word (Z.lxor a b).
Proof.
  intros [Ha Ha'] [Hb Hb']. rewrite u64_size_eq in *. assert (0 ≤ Z.lxor a b) as H0 by (apply Z.lxor_nonneg; lia). split; [done|].
  rewrite u64_size_eq. assert (∀ z, 0 ≤ z → z < 2 ^ 64 ↔ Z.shiftr z 64 = 0) as Hsh.
  { intros z Hz. rewrite Z.shiftr_div_pow2 by lia. rewrite Z.div_small_iff by lia. lia. }
  apply Hsh; [done|]. rewrite Z.shiftr_lxor. rewrite (proj1 (Hsh a Ha)), (proj1 (Hsh b Hb)) by done. done.
Qed.

Lemma word_wrap z : is_word (wrap64 z).
Proof. apply Z.mod_pos_bound. done. Qed.

Record pool_ok (s : rng) : Prop := {
  po_size : length (pool s) = POOL_SIZE;
  po_words : Forall is_word (pool s);
}.

Lemma pool_at s i : pool_ok s → ∃ v, pool s !! pool_index i = Some v ∧ is_word v.
Proof.
  intros [Hl Hw]. destruct (lookup_lt_is_Some_2 (pool s) (pool_index i)) as [v Hv].
  - rewrite Hl. unfold pool_index, POOL_SIZE. pose proof (Z.mod_pos_bound i 512). lia.
  - exists v. split; [done|]. by eapply Forall_lookup_1.
Qed.

Lemma pool_ok_insert s i v r w n d : pool_ok s → is_word v → pool_ok (MkRng (<[i := v]> (pool s)) r w n d).
Proof. intros [Hl Hw] Hv. split; cbn; [by rewrite length_insert|by apply Forall_insert]. Qed.

Section random.
Context (call_cpuid : Z → leaf) (tsc : nat → Z) (rdseed_try rdrand_try : nat → option Z) (sha256 : list Z → list Z).

(** An instruction that gives a word, and fails at most nine times in a row. *)
Definition reliable (try : nat → option Z) : Prop :=
  (∀ n, ∃ i, (i < 10)%nat ∧ is_Some (try (n + i)%nat)) ∧ ∀ n v, try n = Some v → is_word v.

Hypothesis seed_reliable : (supports_rdrand call_cpuid).1 = true → reliable rdseed_try.
Hypothesis rand_reliable : (supports_rdrand call_cpuid).2 = true → reliable rdrand_try.

Lemma hw_loop_ok try k n i :
  (i < k)%nat → is_Some (try (n + i)%nat) → (∀ n v, try n = Some v → is_word v) →
  ∃ v n', hw_loop try k n = Ret (v, n') ∧ is_word v.
Proof.
  intros Hi Hs Hw. revert n i Hi Hs. induction k as [|k IH]; intros n i Hi Hs; [lia|]. cbn [hw_loop].
  destruct (try n) as [v|] eqn:E; [by eexists _, _; split; [done|by eapply Hw]|]. destruct i as [|i].
  - rewrite Nat.add_0_r, E in Hs. by destruct Hs.
  - apply (IH (S n) i); [lia|]. by replace (S n + i)%nat with (n + S i)%nat by lia.
Qed.

Lemma reliable_loop try n : reliable try → ∃ v n', hw_loop try 10 n = Ret (v, n') ∧ is_word v.
Proof. intros [Ht Hw]. destruct (Ht n) as (i & Hi & Hs). by apply (hw_loop_ok try 10 n i). Qed.

Lemma hw_random_ok n :
  ∃ o n', read_best_hw_random call_cpuid rdseed_try rdrand_try n = Ret (o, n') ∧ (∀ v, o = Some v → is_word v).
Proof.
  unfold read_best_hw_random. destruct (supports_rdrand call_cpuid) as [[|] [|]] eqn:E; cbn in seed_reliable, rand_reliable.
  1,2: destruct (reliable_loop rdseed_try n) as (v & n' & -> & Hv); [by apply seed_reliable|];
    eexists _, _; split; [reflexivity|]; by intros ? [= <-].
  - destruct (reliable_loop rdrand_try n) as (v & n' & -> & Hv); [by apply rand_reliable|].
    eexists _, _. split; [reflexivity|]. by intros ? [= <-].
  - eexists _, _. split; [reflexivity|]. done.
Qed.

Lemma fast_entropy_ok s :
  ∃ v s', fast_entropy call_cpuid tsc rdseed_try rdrand_try s = Ret (v, s') ∧ is_word v ∧ pool s' = pool s ∧
    read_index s' = read_index s ∧ write_index s' = write_index s.
Proof.
  unfold fast_entropy. destruct (hw_random_ok (draws s)) as (o & n' & -> & Ho). cbn [mbind outcome_bind].
  eexists _, _. split; [reflexivity|]. split; [|done]. destruct o as [r|]; [apply word_lxor; [|by apply Ho]|]; apply word_wrap.
Qed.

Lemma insert_entropy_ok v s :
  pool_ok s → ∃ s', insert_entropy call_cpuid tsc rdseed_try rdrand_try v s = Ret s' ∧ pool_ok s' ∧
    read_index s' = read_index s ∧ write_index s' = wrap64 (write_index s + 1).
Proof.
  intros Hs. unfold insert_entropy. destruct (fast_entropy_ok s) as (a & s1 & -> & _ & Hp1 & Hr1 & Hw1). cbn [mbind outcome_bind].
  destruct (fast_entropy_ok s1) as (b & s2 & -> & _ & Hp2 & Hr2 & Hw2). cbn [mbind outcome_bind]. unfold push_seed.
  assert (pool_ok s2) as Hs2 by (destruct Hs; split; congruence).
  destruct (pool_at s2 (write_index s2) Hs2) as (old & E & Hold). rewrite E. cbn [unwrap expect mbind outcome_bind].
  eexists. split; [reflexivity|]. split; [|cbn; split; congruence]. apply pool_ok_insert; [done|]. apply word_lxor; [done|apply word_wrap].
Qed.

Lemma read_one_ok s :
  pool_ok s → ∃ v s', read_one call_cpuid tsc rdseed_try rdrand_try s = Ret (v, s') ∧ is_word v ∧ pool_ok s'.
Proof.
  intros Hs. unfold read_one. destruct (insert_entropy_ok 0 s Hs) as (s1 & -> & Hs1 & _). cbn [mbind outcome_bind].
  destruct (pool_at s1 (read_index s1) Hs1) as (v & E & Hv). rewrite E. cbn [unwrap expect mbind outcome_bind].
  eexists _, _. split; [reflexivity|]. split; [done|]. apply pool_ok_insert; [done|apply word_wrap].
Qed.

Hypothesis hash_bytes : ∀ l, Forall is_byte (sha256 l) ∧ (8 ≤ length (sha256 l))%nat.

Lemma read_ok s :
  pool_ok s → ∃ v s', read call_cpuid tsc rdseed_try rdrand_try sha256 s = Ret (v, s') ∧ is_word v ∧ pool_ok s'.
Proof.
  intros Hs. unfold read. destruct (read_one_ok s Hs) as (v & s' & -> & _ & Hs'). cbn [mbind outcome_bind].
  destruct (hash_bytes (to_le 8 v)) as [Hb Hl]. rewrite (proj2 (Nat.leb_le _ _) Hl). cbn [rassert mbind outcome_bind].
  eexists _, _. split; [reflexivity|]. split; [|done]. pose proof (from_le_bound (take 8 (sha256 (to_le 8 v)))) as Hf.
  rewrite length_take, Nat.min_l in Hf by done. apply Hf. by apply Forall_take.
Qed.

Lemma fill_loop_ok k n s :
  pool_ok s → k = ((n + 7) / 8)%nat →
  ∃ l s', fill_loop call_cpuid tsc rdseed_try rdrand_try sha256 k n s = Ret (l, s') ∧ length l = n ∧ Forall is_byte l ∧ pool_ok s'.
Proof.
  revert n s. induction k as [|k IH]; intros n s Hs Hk; cbn [fill_loop].
  { exists [], s. split; [done|]. split_and!; [|done|done]. cbn. symmetry in Hk. apply Nat.div_small_iff in Hk; lia. }
  destruct (read_ok s Hs) as (v & s1 & -> & _ & Hs1). cbn [mbind outcome_bind].
  destruct (IH (n - 8)%nat s1 Hs1) as (l & s' & -> & Hl & Hb & Hs').
  { destruct (Nat.le_gt_cases 8 n) as [H8|H8].
    - replace (n + 7)%nat with (n - 8 + 7 + 1 * 8)%nat in Hk by lia. rewrite Nat.div_add in Hk by lia. lia.
    - replace (n - 8)%nat with 0%nat by lia. assert (n + 7 < 8 * 2)%nat as Hn by lia.
      apply Nat.Div0.div_lt_upper_bound in Hn. cbn. lia. }
  cbn [mbind outcome_bind]. eexists _, _. split; [reflexivity|]. split_and!; [|apply Forall_app; split; [apply Forall_take, to_le_bytes|done]|done].
  rewrite length_app, length_take, to_le_length, Hl. lia.
Qed.

(** The kernel's random numbers: on a processor whose random instructions work, asking for any
    number of bytes gives exactly that many, whatever state the pool is in, and leaves a pool of the
    same size to go on with. *)
Theorem random_fills_buffer n s :
  pool_ok s → ∃ l s', fill_bytes call_cpuid tsc rdseed_try rdrand_try sha256 n s = Ret (l, s') ∧
    length l = n ∧ Forall is_byte l ∧ pool_ok s'.
Proof. intros Hs. by apply fill_loop_ok. Qed.

End random.

(** ** A processor without entropy *)

Fixpoint read_n (n : nat) (s : rng) : outcome (list Z * rng) :=
  match n with
  | O => Ret ([], s)
  | S n =>
      '(v, s) ← read_one (λ _, MkLeaf 0 0 0 0) (λ _, 0) (λ _, None) (λ _, None) s;
      '(l, s) ← read_n n s;
      Ret (v :: l, s)
  end.

Definition empty_rng : rng := MkRng (replicate POOL_SIZE 0) 0 0 0 0.

(** When the sources give nothing the same number is read as often as the pool has entries: the
    increment of [read_one] changes an entry that is not read again before the others. *)
Theorem low_entropy_repeats :
  (p ← read_n POOL_SIZE empty_rng; Ret p.1) = Ret (replicate POOL_SIZE 0).
Proof. vm_compute. reflexivity. Qed.

(** The hypotheses of [random_fills_buffer] hold together: a processor with both instructions. *)
Lemma random_fills_buffer_witness :
  ∃ l s', fill_bytes (λ _, MkLeaf 0 (2 ^ 18) (2 ^ 30) 0) Z.of_nat (λ n, Some (wrap64 (Z.of_nat n))) (λ n, Some (wrap64 (Z.of_nat n)))
            (λ _, replicate 32 7) 13 empty_rng = Ret (l, s') ∧ length l = 13%nat ∧ Forall is_byte l ∧ pool_ok s'.
Proof.
  assert (reliable (λ n, Some (wrap64 (Z.of_nat n)))) as Hr.
  { split; [intros n; exists 0%nat; split; [lia|by eexists]|]. intros n v [= <-]. apply word_wrap. }
  apply (random_fills_buffer (λ _, MkLeaf 0 (2 ^ 18) (2 ^ 30) 0)); [done|done| |].
  - intros _. split; [apply Forall_replicate; done|cbn; lia].
  - split; [done|]. apply Forall_replicate. done.
Defined.
