(* ===== verification/KernelSpace.v ===== *)
(** * KernelSpace: the address space of the kernel
    (src/memory/mod.rs [init], src/memory/paging/mod.rs [init], [identity_map_elf] of
    src/memory/paging/mapper.rs, src/memory/allocators/syscall_stack.rs,
    src/memory/process_common_code.rs)

    The set-up of memory at boot: the page tables of the kernel, the mapping of all physical memory,
    the allocators, the RAM disk, the stack for system calls and the code and tables every process
    shares.  What comes of the page tables is read from them the way the processor does ([mmu]).
    The tables lie at the same physical and virtual address, in an area no allocation overlaps.
    The parsed image of the kernel is an argument, as are the bits of EFER and CR0. *)

From stdpp Require Import base gmap list strings sets.
From Stdlib Require Import ZArith Lia.
From S2P Require Import Prelude Abi Bytes Ranges VirtAlloc PageMap Args ProcessMem Elf Clocks.
From S2P Require Import Ipc Process Acpi Boot Heap Idt.
Open Scope Z_scope.

Definition PT_PADDR : Z := 0x10000000.
Definition PT_VADDR : Z := 0x10000000.
Definition VGA_BUFFER_PHYSADDR : Z := 0xb8000.
Definition SYSCALL_STACK : Z := 0x11000000.
Definition COMMON_ADDRESS_VIRT : Z := 0x200000.

(** [PhysFrame::range_inclusive] *)
Definition range_inclusive (first last : Z) : list Z :=
  (λ i, first + i * PAGE_SIZE_BYTES) <$> seqZ 0 ((last - first) / PAGE_SIZE_BYTES + 1).

Section kernel_space.
Context `{PagingOps} `{!AlignOps} {A : Type} `{!PhysAlloc A}.

(** [PhysFrame::containing_address] *)
Definition containing_address (a : Z) : Z := align_down_to a PAGE_SIZE_BYTES.

(** ** mapper.rs: [identity_map_elf] *)

Fixpoint identity_map_frames (s : AddrSpace) (frames : list Z) (flags : Z) : outcome AddrSpace :=
  match frames with
  | [] => Ret s
  | frame :: frames => s ← map_page s frame frame flags; identity_map_frames s frames flags
  end.

Definition identity_flags (ph : ELFProgramHeader) : outcome Z :=
  let flags := if ELFProgramHeader_has_flag ph ELFPermissionFlags_EXECUTABLE then PRESENT
               else Z.lor PRESENT NO_EXECUTE in
  _ ← rassert (ELFProgramHeader_has_flag ph ELFPermissionFlags_READABLE) "Non-readable pages are not supported (yet)";
  Ret (if ELFProgramHeader_has_flag ph ELFPermissionFlags_WRITABLE then Z.lor flags WRITABLE else flags).

Definition identity_map_segment (s : AddrSpace) (ph : ELFProgramHeader) : outcome AddrSpace :=
  if ELFProgramHeader_loadable ph then
    start ← PhysAddr_new (virtual_address ph);
    let size := size_in_memory ph in
    _ ← rassert (start mod PAGE_SIZE_BYTES =? 0) "assertion failed: start.as_u64() % Page::SIZE == 0";
    _ ← rassert (0 <? size) "assertion failed: size > 0";
    flags ← identity_flags ph;
    last ← add64 start (size - 1);
    last ← PhysAddr_new last;
    identity_map_frames s (range_inclusive (containing_address start) (containing_address last)) flags
  else Ret s.

Fixpoint identity_map_segments (s : AddrSpace) (phs : list ELFProgramHeader) : outcome AddrSpace :=
  match phs with
  | [] => Ret s
  | ph :: phs => s ← identity_map_segment s ph; identity_map_segments s phs
  end.

Definition identity_map_elf (s : AddrSpace) (elf_metadata : ELFData) : outcome AddrSpace :=
  identity_map_segments s (omap id (ph_table elf_metadata)).

(** ** paging/mod.rs *)

Definition paging_init (boot_tables : gmap Z (gmap Z entry)) (elf_metadata : ELFData) : outcome AddrSpace :=
  '(pm, t) ← PageMap_init boot_tables PT_VADDR PT_PADDR PT_VADDR;
  s ← identity_map_elf (MkAddrSpace _ pm t PT_VADDR) elf_metadata;
  let idt_frame := containing_address ADDRESS in
  let vga_buffer_frame := containing_address VGA_BUFFER_PHYSADDR in
  _ ← rassert (idt_frame =? vga_buffer_frame) "assertion failed: `(left == right)`";
  let dma_start := containing_address dma.DMA_MEMORY_START in
  let dma_end := containing_address (dma.DMA_MEMORY_START + dma.DMA_MEMORY_SIZE) in
  _ ← rassert (dma_start =? dma_end) "assertion failed: `(left == right)`";
  _ ← rassert (idt_frame =? dma_start) "assertion failed: `(left == right)`";
  map_page s idt_frame idt_frame (Z.lor PRESENT WRITABLE).

(** ** memory/mod.rs *)

Definition data_flags : Z := Z.lor (Z.lor PRESENT WRITABLE) NO_EXECUTE.

Fixpoint map_higher_half (s : AddrSpace) (frames : list Z) : outcome AddrSpace :=
  match frames with
  | [] => Ret s
  | frame :: frames =>
      a ← add64 HIGHER_HALF_START frame;
      page ← VirtAddr_new a;
      s ← map_page s page frame data_flags;
      map_higher_half s frames
  end.

Definition map_physical_memory (s : AddrSpace) (max_memory : Z) : outcome AddrSpace :=
  last ← PhysAddr_new max_memory;
  map_higher_half s (range_inclusive 0 (containing_address last)).

(** The page tables, the frame allocator and physical memory. *)
Record KernelMem := MkKernelMem { km_space : AddrSpace; km_frames : A; physical : gmap Z Z }.

(** An access through the page tables, to the bytes of one page. *)
Definition resolve (s : AddrSpace) (a : Z) : outcome Z :=
  f ← pt_translate s (containing_address a);
  f ← expect f "page fault";
  Ret (f + (a - containing_address a)).

Definition allocate_frame (k : KernelMem) : outcome (Z * KernelMem) :=
  '(f, a) ← expect (ProcessMem.phys_allocate (km_frames k)) "Could not allocate frame";
  Ret (f, MkKernelMem (km_space k) a (physical k)).

(** syscall_stack.rs [init] *)
Definition syscall_stack_init (k : KernelMem) : outcome KernelMem :=
  '(frame, k) ← allocate_frame k;
  s ← pt_map_to (km_space k) SYSCALL_STACK frame data_flags;
  Ret (MkKernelMem s (km_frames k) (physical k)).

(** ** process_common_code.rs *)

Definition load_common_code (rd : InitRD) (k : KernelMem) : outcome (Z * KernelMem) :=
  bytes ← initrd_read rd "p_commoncode";
  bytes ← expect bytes "p_commoncode missing from initrd";
  _ ← rassert (Z.of_nat (length bytes) <=? PAGE_SIZE_BYTES) "assertion failed: bytes.len() <= (PAGE_SIZE_BYTES as usize)";
  '(frame, k) ← allocate_frame k;
  s ← map_page (km_space k) COMMON_ADDRESS_VIRT frame data_flags;
  base ← resolve s COMMON_ADDRESS_VIRT;
  let mem := write_bytes (physical k) base bytes in
  s ← map_page s COMMON_ADDRESS_VIRT frame PRESENT;
  Ret (frame, MkKernelMem s (km_frames k) mem).

Definition create_process_dts (gdt_kernel_code : Z) (k : KernelMem) : outcome (Z * KernelMem) :=
  p ← resolve (km_space k) (COMMON_ADDRESS_VIRT + 8);
  let interrupt_table_start := from_le (mem_read (physical k) p 8) in
  '(paddr, k) ← allocate_frame k;
  dst ← phys_to_virt paddr;
  dst ← resolve (km_space k) dst;
  mem ← write_process_dts gdt_kernel_code (physical k) dst interrupt_table_start;
  Ret (paddr, MkKernelMem (km_space k) (km_frames k) mem).

(** [memory::init]: the memory, [COMMON_ADDRESS_PHYS] and [PROCESS_IDT_PHYS_ADDR].  The frame
    allocator is made from the block of [phys::init] by the crate. *)
Definition memory_init (new_allocator : option (Z * Z) → A) (PhysAddr_from_u64 : Z → outcome Z)
    (decode_file_list : list Z → option (list FileEntry)) (gdt_kernel_code : Z)
    (elf_metadata : ELFData) (buffer : list Z) (boot_tables : gmap Z (gmap Z entry)) (mem : gmap Z Z)
    : outcome (KernelMem * Z * Z) :=
  memory_info ← load_memory_map PhysAddr_new buffer;
  s ← paging_init boot_tables elf_metadata;
  s ← map_physical_memory s (max_memory memory_info);
  block ← phys_init (allocatable memory_info);
  rd ← initrd_init PhysAddr_from_u64 decode_file_list (λ a, default 0 (mem !! a)) elf_metadata;
  k ← syscall_stack_init (MkKernelMem s (new_allocator block) mem);
  '(common, k) ← load_common_code rd k;
  '(idt, k) ← create_process_dts gdt_kernel_code k;
  Ret (k, common, idt).

End kernel_space.

(** ** The processor *)

(** An entry that is present: the address, and whether writing and executing are allowed. *)
Definition mmu_entry `{PagingOps} (e : entry) : option (Z * bool * bool) :=
  if entry_flags_contains e PRESENT
  then Some (entry_addr e, entry_flags_contains e WRITABLE, negb (entry_flags_contains e NO_EXECUTE))
  else None.

(** The frame of a page and the rights every level allows. *)
Definition mmu `{PagingOps} (t : gmap Z (gmap Z entry)) (cr3 v : Z) : option (Z * bool * bool) :=
  '(p3, w4, x4) ← mmu_entry (get_entry t cr3 (p4_index v));
  '(p2, w3, x3) ← mmu_entry (get_entry t p3 (p3_index v));
  let e := get_entry t p2 (p2_index v) in
  '(frame, w, x) ← mmu_entry e;
  if entry_flags_contains e HUGE_PAGE then Some (frame, w4 && w3 && w, x4 && x3 && x) else None.

(** ** What the tables say *)

(** A mapping: the frame and the flags of every page. *)
Definition layout := Z → option (Z * Z).

Definition set_page (page frame flags : Z) (m : layout) : layout := λ v,
  if decide (v = page) then Some (frame, flags) else m v.

(** The tables there can be: those of the lowest GiB and of the first [n] GiB of the higher half. *)
Definition known_roles `{PagingOps} (n : Z) : list role :=
  [P4; P3 (p4_index 0); P2 (p4_index 0) (p3_index 0); P3 (p4_index HIGHER_HALF_START)] ++
  ((λ i, P2 (p4_index HIGHER_HALF_START) (p3_index (HIGHER_HALF_START + i * 2 ^ 30))) <$> seqZ 0 n).

(** Pages in that part of the address space. *)
Definition known_page (n v : Z) : Prop :=
  page_ok v ∧ (0 ≤ v < 2 ^ 30 ∨ HIGHER_HALF_START ≤ v < HIGHER_HALF_START + n * 2 ^ 30).

Section tables.
Context `{PagingLaws}.

Record holds (n : Z) (s : AddrSpace) (m : layout) : Prop := {
  h_curr : as_curr s = PT_VADDR;
  h_phys : phys_addr (as_map s) = PT_PADDR;
  h_roles : ∃ roles, pm_ok PT_VADDR (as_map s) (as_tables s) roles ∧ roles ⊆ known_roles n ∧
    ∀ v, page_ok v → match m v with
                     | None => page_view PT_VADDR (as_tables s) roles v = None
                     | Some (f, fl) => ∃ e, page_view PT_VADDR (as_tables s) roles v = Some e ∧ leaf_entry f fl e
                     end;
}.

Lemma known_roles_length n : 0 ≤ n → Z.of_nat (length (known_roles n)) = 4 + n.
Proof. intros Hn. unfold known_roles. rewrite length_app, length_fmap, length_seqZ. cbn [length]. lia. Qed.

Lemma holds_count n s m : holds n s m → 0 ≤ n → table_count (as_map s) ≤ 4 + n.
Proof.
  intros [_ _ (roles & Hok & Hr & _)] Hn. rewrite (ok_len _ _ _ _ Hok), <- known_roles_length by done.
  apply inj_le, submseteq_length, NoDup_submseteq; [apply Hok|]. exact Hr.
Qed.

Lemma known_page_roles n v :
  known_page n v → 0 ≤ n ≤ 512 →
  P3 (p4_index v) ∈ known_roles n ∧ P2 (p4_index v) (p3_index v) ∈ known_roles n.
Proof.
  intros [_ Hv] Hn. unfold known_roles. rewrite !elem_of_app, !elem_of_cons. destruct Hv as [Hv|Hv].
  - rewrite (p4_index_eq v 0), (p3_index_eq v 0) by (rewrite !Z.div_small; lia). auto 10.
  - rewrite (p4_index_eq v HIGHER_HALF_START).
    2:{ unfold HIGHER_HALF_START in *. Z.to_euclidean_division_equations. lia. }
    split; [auto 10|]. right. apply list_elem_of_fmap. exists ((v - HIGHER_HALF_START) / 2 ^ 30).
    assert (0 ≤ (v - HIGHER_HALF_START) / 2 ^ 30 < n) as Hq.
    { split; [apply Z.div_pos; lia|apply Z.div_lt_upper_bound; lia]. }
    split; [|apply elem_of_seqZ; lia]. f_equal. apply p3_index_eq. rewrite Z.div_add by lia.
    unfold HIGHER_HALF_START in *. Z.to_euclidean_division_equations. lia.
Qed.

(** A page that is mapped. *)
Lemma holds_map n s m page frame flags :
  holds n s m → 0 ≤ n ≤ 508 → known_page n page → frame_ok frame → flag_set flags → Z.land flags PRESENT = PRESENT →
  ∃ s', pt_map_to s page frame flags = Ret s' ∧ holds n s' (set_page page frame (Z.lor flags HUGE_PAGE) m).
Proof.
  intros Hh Hn Hp [Hf Hfd] Hfs Hfp. pose proof (holds_count _ _ _ Hh ltac:(lia)) as Hc.
  destruct Hh as [Hcur Hph (roles & Hok & Hr & Hv)].
  destruct (map_to_view PT_VADDR (as_map s) (as_tables s) roles page frame flags)
    as (pm' & t' & roles' & e & E & Hok' & He & Hv' & Hr' & Hph' & _); try done.
  { apply Hp. }
  { eapply Z.divide_trans; [|done]. by exists 0x200. }
  { unfold frame_addr. rewrite Hph. unfold PT_PADDR. lia. }
  cbn [pt_map_to AddrSpace_tables]. rewrite Hcur, E. cbn [mbind outcome_bind]. eexists. split; [reflexivity|].
  split; cbn [as_curr as_map as_tables]; [done|congruence|]. exists roles'. split; [done|]. split.
  - destruct (known_page_roles n page Hp ltac:(lia)) as [H3 H2]. intros r Hin%Hr'.
    apply elem_of_cons in Hin as [->|[->|Hin]%elem_of_cons]; [done|done|by apply Hr].
  - intros v Hpv. rewrite Hv' by done. unfold set_page. destruct (decide (v = page)); [by exists e|]. by apply Hv.
Qed.

Lemma mmu_entry_unused e : entry_is_unused e = true → mmu_entry e = None.
Proof. intros He. unfold mmu_entry. by rewrite entry_unused_absent. Qed.

Lemma mmu_entry_table e : table_entry e → mmu_entry e = Some (entry_addr e, true, true).
Proof. intros (Hp & Hw & Hx). unfold mmu_entry. by rewrite Hp, Hw, Hx. Qed.

(** The processor finds the leaf entry, and the levels above restrict nothing. *)
Lemma mmu_view s roles v :
  pm_ok PT_VADDR (as_map s) (as_tables s) roles → phys_addr (as_map s) = PT_PADDR →
  mmu (as_tables s) PT_PADDR v = page_view PT_VADDR (as_tables s) roles v ≫= mmu_entry.
Proof.
  intros Hok Hph. unfold mmu. change PT_PADDR with PT_VADDR. set (t := as_tables s).
  pose proof (ok_root _ _ _ _ Hok) as H4.
  pose proof (ok_unused _ _ _ _ Hok 0 P4 (p4_index v) _ H4 eq_refl) as Hu.
  pose proof (ok_used _ _ _ _ Hok 0 P4 (p4_index v) _ H4 eq_refl) as Hd.
  rewrite frame_addr_0 in Hu, Hd. fold t in Hu, Hd. unfold page_view.
  destruct (entry_is_unused (get_entry t PT_VADDR (p4_index v))) eqn:E4.
  { rewrite view_none; [|intros ?%(ok_parent _ _ _ _ Hok); by apply Hu].
    by rewrite (mmu_entry_unused (get_entry t PT_VADDR _)). }
  destruct Hd as (k3 & H3 & Ea & Ht4); [done|].
  rewrite (mmu_entry_table (get_entry t PT_VADDR _)), Ea, Hph by done. cbn [mbind option_bind negb andb].
  change (frame_addr PT_PADDR (Z.of_nat k3)) with (frame_addr PT_VADDR (Z.of_nat k3)).
  destruct (entry_is_unused (get_entry t (frame_addr PT_VADDR (Z.of_nat k3)) (p3_index v))) eqn:E3.
  { eapply (ok_unused _ _ _ _ Hok k3 (P3 _)) in H3 as Hn; [|done|done]. rewrite view_none by done.
    by rewrite (mmu_entry_unused (get_entry t (frame_addr PT_VADDR (Z.of_nat k3)) _)). }
  eapply (ok_used _ _ _ _ Hok k3 (P3 _)) in E3 as (k2 & H2 & Ea3 & Ht3); [|done|done].
  fold t in Ea3, Ht3. rewrite (mmu_entry_table (get_entry t (frame_addr PT_VADDR (Z.of_nat k3)) _)), Ea3, Hph by done. cbn [mbind option_bind negb andb].
  change (frame_addr PT_PADDR (Z.of_nat k2)) with (frame_addr PT_VADDR (Z.of_nat k2)).
  rewrite (view_at _ _ _ k2) by (done || by apply (ok_nodup _ _ _ _ Hok)). unfold used_entry.
  destruct (entry_is_unused (get_entry t (frame_addr PT_VADDR (Z.of_nat k2)) _)) eqn:E2; cbn [mbind option_bind].
  { by rewrite mmu_entry_unused. }
  destruct (ok_leaf _ _ _ _ Hok k2 _ _ _ H2 E2) as [Hh Hp]. fold t in Hh, Hp. rewrite Hh.
  unfold mmu_entry. by rewrite Hp.
Qed.

(** What the processor makes of the flags of a page. *)
Definition rights (p : Z * Z) : Z * bool * bool :=
  (p.1, Z.land p.2 WRITABLE =? WRITABLE, negb (Z.land p.2 NO_EXECUTE =? NO_EXECUTE)).

Definition flags_ok (p : Z * Z) : Prop := Z.land p.2 PRESENT = PRESENT.

Lemma holds_mmu n s m v :
  holds n s m → page_ok v → (∀ p, m v = Some p → flags_ok p) →
  mmu (as_tables s) PT_PADDR v = rights <$> m v.
Proof.
  intros [_ Hph (roles & Hok & _ & Hv)] Hp Hfl. rewrite (mmu_view _ roles) by done. specialize (Hv v Hp).
  destruct (m v) as [[f fl]|]; [|by rewrite Hv]. destruct Hv as (e & -> & Ea & _ & Hc). cbn.
  unfold mmu_entry. destruct flag_set_bits as (Hb1 & Hb2 & _ & Hb4). rewrite !Hc by done. rewrite Ea.
  unfold flags_ok in Hfl. rewrite (proj2 (Z.eqb_eq _ _)) by (by apply (Hfl (f, fl))). done.
Qed.

End tables.

Section steps.
Context `{PagingLaws} `{!AlignOps, !AlignLaws}.

Lemma containing_eq a : containing_address a = PAGE_SIZE_BYTES * (a / PAGE_SIZE_BYTES).
Proof.
  unfold containing_address. destruct (align_down_law a PAGE_SIZE_BYTES) as [[q ->] Hq]; [done|].
  unfold PAGE_SIZE_BYTES in *. Z.to_euclidean_division_equations. lia.
Qed.

Lemma page_aligned_range v w : (PAGE_SIZE_BYTES | v) → 0 ≤ w → v ≤ PAGE_SIZE_BYTES * (w / PAGE_SIZE_BYTES) ↔ v ≤ w.
Proof. intros [q ->] Hw. unfold PAGE_SIZE_BYTES. Z.to_euclidean_division_equations. lia. Qed.

Lemma range_inclusive_spec first last v :
  (PAGE_SIZE_BYTES | first) → (PAGE_SIZE_BYTES | last) →
  v ∈ range_inclusive first last ↔ first ≤ v ≤ last ∧ (PAGE_SIZE_BYTES | v).
Proof.
  intros [a ->] [b ->]. unfold range_inclusive. rewrite list_elem_of_fmap.
  rewrite <- Z.mul_sub_distr_r, Z.div_mul by done. split.
  - intros (i & -> & Hi%elem_of_seqZ). unfold PAGE_SIZE_BYTES. split; [lia|]. exists (a + i). lia.
  - intros [Hv [c ->]]. exists (c - a). unfold PAGE_SIZE_BYTES in *. split; [lia|]. apply elem_of_seqZ. lia.
Qed.

(** Frames mapped at an offset. *)
Definition set_range (off : Z) (frames : list Z) (flags : Z) (m : layout) : layout := λ v,
  if decide (v - off ∈ frames) then Some (v - off, flags) else m v.

Lemma holds_ext n s m m' : (∀ v, page_ok v → m v = m' v) → holds n s m → holds n s m'.
Proof.
  intros Hm [Hc Hp (roles & Hok & Hr & Hv)]. split; [done|done|]. exists roles. split; [done|]. split; [done|].
  intros v Hpv. rewrite <- Hm by done. by apply Hv.
Qed.

Lemma set_range_cons off f fs flags m v :
  set_range off fs flags (set_page (off + f) f flags m) v = set_range off (f :: fs) flags m v.
Proof.
  unfold set_range, set_page. destruct (decide (v - off ∈ fs)) as [Hin|Hn].
  - by rewrite decide_True by (by right).
  - destruct (decide (v = off + f)) as [->|Hne].
    + replace (off + f - off) with f by lia. by rewrite decide_True by left.
    + rewrite decide_False; [done|]. intros [E|?]%elem_of_cons; [lia|done].
Qed.

Lemma holds_map_page n s m page frame flags :
  holds n s m → 0 ≤ n ≤ 508 → known_page n page → frame_ok frame → flag_set flags → Z.land flags PRESENT = PRESENT →
  ∃ s', map_page s page frame flags = Ret s' ∧ holds n s' (set_page page frame (Z.lor flags HUGE_PAGE) m).
Proof.
  intros Hh Hn Hp Hf Hfs Hfp. unfold map_page. rewrite (start_address_ok page) by apply Hp. cbn [mbind outcome_bind].
  rewrite (start_address_ok frame) by apply Hf. cbn [mbind outcome_bind]. by apply holds_map.
Qed.

Lemma identity_map_frames_ok n s m fs flags :
  holds n s m → 0 ≤ n ≤ 508 → Forall (λ f, known_page n f ∧ frame_ok f) fs → flag_set flags → Z.land flags PRESENT = PRESENT →
  ∃ s', identity_map_frames s fs flags = Ret s' ∧ holds n s' (set_range 0 fs (Z.lor flags HUGE_PAGE) m).
Proof.
  intros Hh Hn Hfs Hs Hp. revert s m Hh. induction Hfs as [|f fs [Hk Hf] _ IH]; intros s m Hh; cbn [identity_map_frames].
  { exists s. split; [done|]. eapply holds_ext; [|done]. intros v _. unfold set_range.
    rewrite decide_False; [done|]. apply not_elem_of_nil. }
  destruct (holds_map_page n s m f f flags) as (s1 & -> & Hh1); [done..|]. cbn [mbind outcome_bind].
  destruct (IH _ _ Hh1) as (s2 & -> & Hh2). exists s2. split; [done|]. eapply holds_ext; [|done].
  intros v _. apply (set_range_cons 0).
Qed.

Lemma data_flags_ok : flag_set data_flags ∧ Z.land data_flags PRESENT = PRESENT.
Proof.
  destruct flag_set_bits as (? & ? & ? & ?). split; [by repeat apply flag_set_lor|]. apply land_lor_has, land_lor_l.
Qed.

Lemma map_higher_half_ok n s m fs :
  holds n s m → 0 ≤ n ≤ 508 → Forall (λ f, frame_ok f ∧ f < n * 2 ^ 30) fs →
  ∃ s', map_higher_half s fs = Ret s' ∧ holds n s' (set_range HIGHER_HALF_START fs (Z.lor data_flags HUGE_PAGE) m).
Proof.
  intros Hh Hn Hfs. revert s m Hh. induction Hfs as [|f fs [Hf Hlt] _ IH]; intros s m Hh; cbn [map_higher_half].
  { exists s. split; [done|]. eapply holds_ext; [|done]. intros v _. unfold set_range.
    rewrite decide_False; [done|]. apply not_elem_of_nil. }
  destruct Hf as [Hf [q Hq]]. assert (known_page n (HIGHER_HALF_START + f)) as Hk.
  { unfold known_page, page_ok, HIGHER_HALF_START. split_and!; [|right; lia|right; lia].
    exists (0x7fffc000000 + q). rewrite Hq. unfold PAGE_SIZE_BYTES. lia. }
  rewrite (proj2 (add64_ret _ _ (HIGHER_HALF_START + f))) by (unfold HIGHER_HALF_START; rewrite u64_size_eq; lia).
  cbn [mbind outcome_bind]. rewrite VirtAddr_new_law by (apply Hk). cbn [mbind outcome_bind].
  destruct data_flags_ok as [Hs Hp].
  destruct (holds_map_page n s m (HIGHER_HALF_START + f) f data_flags) as (s1 & -> & Hh1); try done.
  { split; [done|by exists q]. }
  cbn [mbind outcome_bind]. destruct (IH _ _ Hh1) as (s2 & -> & Hh2). exists s2. split; [done|].
  eapply holds_ext; [|done]. intros v _. apply set_range_cons.
Qed.

(** ** Segments *)

Definition readable (ph : ELFProgramHeader) : bool := ELFProgramHeader_has_flag ph ELFPermissionFlags_READABLE.
Definition writable (ph : ELFProgramHeader) : bool := ELFProgramHeader_has_flag ph ELFPermissionFlags_WRITABLE.
Definition executable (ph : ELFProgramHeader) : bool := ELFProgramHeader_has_flag ph ELFPermissionFlags_EXECUTABLE.

(** A segment the kernel can be linked with: below the first GiB. *)
Record segment_ok (ph : ELFProgramHeader) : Prop := {
  sg_load : ELFProgramHeader_loadable ph = true;
  sg_start : 0 ≤ virtual_address ph ∧ (PAGE_SIZE_BYTES | virtual_address ph);
  sg_end : 0 < size_in_memory ph ∧ virtual_address ph + size_in_memory ph ≤ 2 ^ 30;
  sg_read : readable ph = true;
}.

Definition in_segment (v : Z) (ph : ELFProgramHeader) : bool :=
  (virtual_address ph <=? v) && (v <? virtual_address ph + size_in_memory ph).

Definition segment_flags (ph : ELFProgramHeader) : Z :=
  let flags := if executable ph then PRESENT else Z.lor PRESENT NO_EXECUTE in
  if writable ph then Z.lor flags WRITABLE else flags.

Lemma segment_flags_ok ph : flag_set (segment_flags ph) ∧ Z.land (segment_flags ph) PRESENT = PRESENT.
Proof.
  destruct flag_set_bits as (? & ? & ? & ?). unfold segment_flags. split.
  - destruct (executable ph), (writable ph); by repeat apply flag_set_lor.
  - destruct (executable ph), (writable ph); repeat first [apply Z.land_diag | apply land_lor_l | apply land_lor_has].
Qed.

Definition set_segment (ph : ELFProgramHeader) (m : layout) : layout := λ v,
  if in_segment v ph then Some (v, Z.lor (segment_flags ph) HUGE_PAGE) else m v.

Lemma identity_map_segment_ok n s m ph :
  holds n s m → 0 ≤ n ≤ 508 → segment_ok ph →
  ∃ s', identity_map_segment s ph = Ret s' ∧ holds n s' (set_segment ph m).
Proof.
  intros Hh Hn [Hl [Hv0 Hvd] [Hs0 Hs1] Hr]. unfold identity_map_segment. rewrite Hl.
  rewrite PhysAddr_new_law by lia. cbn [mbind outcome_bind].
  rewrite (proj2 (Z.eqb_eq _ _)) by (by apply Z.mod_divide). cbn [rassert mbind outcome_bind].
  rewrite (proj2 (Z.ltb_lt _ _)) by done. cbn [rassert mbind outcome_bind]. unfold identity_flags.
  unfold readable in Hr. rewrite Hr. cbn [rassert mbind outcome_bind]. fold (executable ph) (writable ph) (segment_flags ph).
  rewrite (proj2 (add64_ret _ _ (virtual_address ph + (size_in_memory ph - 1)))) by (rewrite u64_size_eq; lia).
  cbn [mbind outcome_bind]. rewrite PhysAddr_new_law by lia. cbn [mbind outcome_bind].
  set (fs := range_inclusive _ _). assert (∀ v, page_ok v → v ∈ fs ↔ in_segment v ph = true) as Hfs.
  { intros v [Hd _]. unfold fs. rewrite range_inclusive_spec by (rewrite containing_eq; apply Z.divide_factor_l).
    rewrite !containing_eq. replace (PAGE_SIZE_BYTES * (virtual_address ph / PAGE_SIZE_BYTES)) with (virtual_address ph)
      by (destruct Hvd as [q ->]; rewrite Z.div_mul by done; lia).
    unfold in_segment. rewrite andb_true_iff, Z.leb_le, Z.ltb_lt. rewrite page_aligned_range by (done || lia). intuition lia. }
  destruct (segment_flags_ok ph) as [Hf1 Hf2].
  destruct (identity_map_frames_ok n s m fs (segment_flags ph)) as (s' & E & Hh'); try done.
  { apply Forall_forall. intros v Hv. assert (0 ≤ v < 2 ^ 30 ∧ (PAGE_SIZE_BYTES | v)) as [Hb Hd].
    { unfold fs in Hv. rewrite range_inclusive_spec in Hv by (rewrite containing_eq; apply Z.divide_factor_l).
      destruct Hv as [Hv Hd]. split; [|done]. rewrite !containing_eq in Hv.
      destruct Hv as [Hv Hv2]. rewrite page_aligned_range in Hv2 by (done || lia).
      split; [etrans; [|exact Hv]; apply Z.mul_nonneg_nonneg; [done|]; apply Z.div_pos; [done|done]|lia]. }
    split; [split; [split; [done|lia]|lia]|split; [lia|done]]. }
  exists s'. split; [exact E|]. eapply holds_ext; [|exact Hh']. intros v Hv. unfold set_range, set_segment.
  rewrite Z.sub_0_r. specialize (Hfs v Hv). destruct (in_segment v ph).
  - by rewrite decide_True by (by apply Hfs).
  - rewrite decide_False; [done|]. intros Hin%Hfs. done.
Qed.

Lemma identity_map_segments_ok n s m phs :
  holds n s m → 0 ≤ n ≤ 508 → Forall segment_ok phs →
  ∃ s', identity_map_segments s phs = Ret s' ∧ holds n s' (foldl (flip set_segment) m phs).
Proof.
  intros Hh Hn Hp. revert s m Hh. induction Hp as [|ph phs Hph _ IH]; intros s m Hh; cbn [identity_map_segments foldl].
  { by exists s. }
  destruct (identity_map_segment_ok n s m ph) as (s1 & -> & Hh1); [done..|]. cbn [mbind outcome_bind]. by apply IH.
Qed.

(** ** Page tables of the kernel *)

Definition init_layout : layout := set_page PT_VADDR PT_PADDR pt_flags_2 (λ _, None).

Lemma init_holds n boot_tables :
  0 ≤ n → ∃ pm t, PageMap_init boot_tables PT_VADDR PT_PADDR PT_VADDR = Ret (pm, t) ∧
    holds n (MkAddrSpace _ pm t PT_VADDR) init_layout.
Proof.
  intros Hn. assert (page_ok PT_VADDR) as Hp by (apply (page_ok_low 128); done).
  destruct (init_view boot_tables PT_VADDR PT_PADDR PT_VADDR) as (pm & t & e & E & Hok & He & Hv & Hph & _);
    [done|done|done|by exists 0x10000|]. exists pm, t. split; [done|].
  split; cbn [as_curr as_map as_tables]; [done|done|]. eexists. split; [exact Hok|]. split.
  - assert (p4_index PT_VADDR = p4_index 0 ∧ p3_index PT_VADDR = p3_index 0) as [-> ->].
    { split; [apply p4_index_eq|apply p3_index_eq]; done. }
    unfold known_roles. intros r. rewrite elem_of_app, !elem_of_cons. intuition.
  - intros v Hpv. rewrite Hv by done. unfold init_layout, set_page. destruct (decide (v = PT_VADDR)); [by exists e|done].
Qed.

Lemma paging_init_ok n boot_tables elf :
  0 ≤ n ≤ 508 → Forall segment_ok (omap id (ph_table elf)) →
  ∃ s, paging_init boot_tables elf = Ret s ∧
    holds n s (set_page 0 0 (Z.lor (Z.lor PRESENT WRITABLE) HUGE_PAGE)
      (foldl (flip set_segment) init_layout (omap id (ph_table elf)))).
Proof.
  intros Hn Hp. unfold paging_init, identity_map_elf. destruct (init_holds n boot_tables) as (pm & t & -> & Hh); [lia|].
  cbn [mbind outcome_bind]. destruct (identity_map_segments_ok n _ _ _ Hh Hn Hp) as (s & -> & Hs). cbn [mbind outcome_bind].
  rewrite !containing_eq. change (PAGE_SIZE_BYTES * (ADDRESS / PAGE_SIZE_BYTES)) with 0.
  change (PAGE_SIZE_BYTES * (VGA_BUFFER_PHYSADDR / PAGE_SIZE_BYTES)) with 0.
  change (PAGE_SIZE_BYTES * (dma.DMA_MEMORY_START / PAGE_SIZE_BYTES)) with 0.
  change (PAGE_SIZE_BYTES * ((dma.DMA_MEMORY_START + dma.DMA_MEMORY_SIZE) / PAGE_SIZE_BYTES)) with 0.
  cbn [Z.eqb rassert mbind outcome_bind]. apply holds_map_page; [done|done| | |apply pt_flags_3_present|apply pt_flags_3_present].
  - split; [apply (page_ok_low 0); done|left; done].
  - split; [done|apply Z.divide_0_r].
Qed.

(** All of physical memory, page by page. *)
Definition set_higher (max_memory : Z) (m : layout) : layout := λ v,
  if (HIGHER_HALF_START <=? v) && (v <=? HIGHER_HALF_START + max_memory)
  then Some (v - HIGHER_HALF_START, Z.lor data_flags HUGE_PAGE) else m v.

Lemma map_physical_memory_ok s m max_memory :
  0 ≤ max_memory < 508 * 2 ^ 30 → holds (max_memory / 2 ^ 30 + 1) s m →
  ∃ s', map_physical_memory s max_memory = Ret s' ∧ holds (max_memory / 2 ^ 30 + 1) s' (set_higher max_memory m).
Proof.
  intros Hm Hh. assert (0 ≤ max_memory / 2 ^ 30 + 1 ≤ 508) as Hn by (Z.to_euclidean_division_equations; lia).
  unfold map_physical_memory. rewrite PhysAddr_new_law by lia. cbn [mbind outcome_bind]. rewrite containing_eq.
  set (fs := range_inclusive _ _). assert (∀ f, f ∈ fs ↔ 0 ≤ f ≤ max_memory ∧ (PAGE_SIZE_BYTES | f)) as Hfs.
  { intros f. unfold fs. rewrite range_inclusive_spec by (apply Z.divide_0_r || apply Z.divide_factor_l).
    split; intros [Hf Hd]; (split; [|done]); pose proof (page_aligned_range f max_memory Hd); lia. }
  destruct (map_higher_half_ok _ s m fs Hh Hn) as (s' & E & Hh').
  { apply Forall_forall. intros f [Hf Hd]%Hfs. split; [split; [lia|done]|]. Z.to_euclidean_division_equations; lia. }
  exists s'. split; [exact E|]. eapply holds_ext; [|exact Hh']. intros v [[q Hq] _]. unfold set_range, set_higher.
  assert (v - HIGHER_HALF_START ∈ fs ↔ (HIGHER_HALF_START <=? v) && (v <=? HIGHER_HALF_START + max_memory) = true) as Hv.
  { rewrite Hfs, andb_true_iff, !Z.leb_le. split; [lia|]. intros ?. split; [lia|].
    exists (q - 0x7fffc000000). rewrite Hq. unfold HIGHER_HALF_START, PAGE_SIZE_BYTES. lia. }
  destruct (_ && _); [by rewrite decide_True by (by apply Hv)|]. rewrite decide_False; [done|]. by rewrite Hv.
Qed.

Lemma resolve_ok n s m a f fl :
  holds n s m → page_ok (containing_address a) → m (containing_address a) = Some (f, fl) →
  resolve s a = Ret (f + (a - containing_address a)).
Proof.
  intros [Hc _ (roles & Hok & _ & Hv)] Hp Hm. unfold resolve. cbn [pt_translate AddrSpace_tables].
  rewrite Hc, (translate_view _ _ _ _ _ Hok). specialize (Hv _ Hp). rewrite Hm in Hv. destruct Hv as (e & He & Ea & _).
  unfold page_view in He. rewrite He. cbn. by rewrite Ea.
Qed.

End steps.

(** ** Properties *)

Section props.
Context `{PagingLaws} `{!AlignOps, !AlignLaws} {A : Type} `{!PhysAlloc A, !PhysAllocLaws (A := A)}.

Definition kernel_layout (phs : list ELFProgramHeader) (max_memory stack common : Z) : layout :=
  set_page COMMON_ADDRESS_VIRT common (Z.lor PRESENT HUGE_PAGE)
    (set_page COMMON_ADDRESS_VIRT common (Z.lor data_flags HUGE_PAGE)
      (set_page SYSCALL_STACK stack (Z.lor data_flags HUGE_PAGE)
        (set_higher max_memory
          (set_page 0 0 (Z.lor (Z.lor PRESENT WRITABLE) HUGE_PAGE)
            (foldl (flip set_segment) init_layout phs))))).

(** What the processor shall find: the frame of a page, and whether it may be written and executed.
    Of several segments on a page the last one counts. *)
Definition kernel_page (phs : list ELFProgramHeader) (max_memory stack common v : Z) : option (Z * bool * bool) :=
  if (HIGHER_HALF_START <=? v) && (v <=? HIGHER_HALF_START + max_memory) then Some (v - HIGHER_HALF_START, true, false)
  else if v =? COMMON_ADDRESS_VIRT then Some (common, false, true)
  else if v =? SYSCALL_STACK then Some (stack, true, false)
  else if v =? 0 then Some (0, true, true)
  else match List.find (in_segment v) (rev phs) with
       | Some ph => Some (v, writable ph, executable ph)
       | None => if v =? PT_VADDR then Some (PT_PADDR, true, true) else None
       end.

Lemma segments_layout phs m v :
  foldl (flip set_segment) m phs v =
    match List.find (in_segment v) (rev phs) with
    | Some ph => Some (v, Z.lor (segment_flags ph) HUGE_PAGE)
    | None => m v
    end.
Proof.
  induction phs as [|ph phs IH] using rev_ind; [done|]. rewrite foldl_app, rev_app_distr. cbn.
  unfold set_segment at 1. destruct (in_segment v ph); [done|exact IH].
Qed.

(** Flags as combinations, and what they allow. *)
Lemma rights_of frame (w n : bool) f :
  f = Z.lor (Z.lor (Z.lor PRESENT (if n then NO_EXECUTE else 0)) (if w then WRITABLE else 0)) HUGE_PAGE →
  rights (frame, f) = (frame, w, negb n) ∧ flags_ok (frame, f).
Proof.
  intros ->. destruct (flags_apart w true n _ eq_refl) as [Hw Hn]. unfold rights, flags_ok. cbn [fst snd].
  rewrite Hw, Hn. split; [done|]. apply land_lor_has, land_lor_has, land_lor_l.
Qed.

Lemma segment_rights ph v :
  rights (v, Z.lor (segment_flags ph) HUGE_PAGE) = (v, writable ph, executable ph) ∧
  flags_ok (v, Z.lor (segment_flags ph) HUGE_PAGE).
Proof.
  rewrite <- (negb_involutive (executable ph)). apply rights_of. unfold segment_flags.
  destruct (executable ph), (writable ph); cbn [negb]; by rewrite ?Z.lor_0_r.
Qed.

Lemma kernel_layout_page phs max_memory stack common v :
  0 ≤ max_memory < 508 * 2 ^ 30 →
  rights <$> kernel_layout phs max_memory stack common v = kernel_page phs max_memory stack common v ∧
  ∀ p, kernel_layout phs max_memory stack common v = Some p → flags_ok p.
Proof.
  intros Hm. assert (∀ f fl w n, fl = Z.lor (Z.lor (Z.lor PRESENT (if n : bool then NO_EXECUTE else 0)) (if w : bool then WRITABLE else 0)) HUGE_PAGE →
      rights <$> Some (f, fl) = Some (f, w, negb n) ∧ ∀ p, Some (f, fl) = Some p → flags_ok p) as Hr.
  { intros f fl w n Hfl. destruct (rights_of f w n fl Hfl) as [Hf Ho]. cbn. rewrite Hf. split; [done|]. by intros p [= <-]. }
  assert (data_flags = Z.lor (Z.lor PRESENT NO_EXECUTE) WRITABLE) as Hd.
  { unfold data_flags. by rewrite <- Z.lor_assoc, (Z.lor_comm WRITABLE), Z.lor_assoc. }
  assert (∀ c, 0 ≤ c < 2 ^ 30 → (HIGHER_HALF_START <=? c) = false) as Hlow.
  { intros c Hc. apply Z.leb_gt. unfold HIGHER_HALF_START. lia. }
  remember (kernel_layout phs max_memory stack common v) as o eqn:Eo.
  unfold kernel_layout, set_page at 1 2 3, set_higher in Eo. unfold kernel_page.
  destruct (decide (v = COMMON_ADDRESS_VIRT)) as [->|Hv1].
  { rewrite Hlow by done. cbn [andb]. rewrite Z.eqb_refl. subst o. apply (Hr _ _ false false). by rewrite !Z.lor_0_r. }
  destruct (decide (v = SYSCALL_STACK)) as [->|Hv2].
  { rewrite Hlow by done. cbn [andb]. change (SYSCALL_STACK =? COMMON_ADDRESS_VIRT) with false. rewrite Z.eqb_refl.
    subst o. apply (Hr _ _ true true). by rewrite Hd. }
  destruct ((HIGHER_HALF_START <=? v) && _).
  { subst o. apply (Hr _ _ true true). by rewrite Hd. }
  rewrite (proj2 (Z.eqb_neq v COMMON_ADDRESS_VIRT)), (proj2 (Z.eqb_neq v SYSCALL_STACK)) by done.
  unfold set_page in Eo. destruct (Z.eqb_spec v 0) as [->|Hv3].
  { rewrite decide_True in Eo by done. subst o. apply (Hr _ _ true false). by rewrite !Z.lor_0_r. }
  rewrite decide_False in Eo by done. rewrite segments_layout in Eo.
  destruct (List.find (in_segment v) (rev phs)) as [ph|].
  { subst o. destruct (segment_rights ph v) as [Hs Ho]. cbn. rewrite Hs. split; [done|]. by intros p [= <-]. }
  unfold init_layout, set_page in Eo. destruct (Z.eqb_spec v PT_VADDR) as [->|Hv4].
  { rewrite decide_True in Eo by done. subst o. apply (Hr _ _ true false). by rewrite !Z.lor_0_r. }
  rewrite decide_False in Eo by done. by subst o.
Qed.

Lemma allocated_frame (a : A) f a' : ProcessMem.phys_allocate a = Some (f, a') → frame_ok f.
Proof. intros (_ & _ & ? & ?)%phys_allocate_law. by split. Qed.

Lemma allocate_frame_ok (k : KernelMem) f a :
  ProcessMem.phys_allocate (km_frames k) = Some (f, a) → allocate_frame k = Ret (f, MkKernelMem (km_space k) a (physical k)).
Proof. intros E. unfold allocate_frame. by rewrite E. Qed.

Lemma low_page n q : 0 ≤ q < 512 → known_page n (q * PAGE_SIZE_BYTES).
Proof. intros Hq. split; [apply page_ok_low; lia|]. unfold PAGE_SIZE_BYTES. lia. Qed.

Lemma syscall_stack_init_ok n (k : KernelMem) m f a :
  holds n (km_space k) m → 0 ≤ n ≤ 508 → ProcessMem.phys_allocate (km_frames k) = Some (f, a) →
  ∃ s, syscall_stack_init k = Ret (MkKernelMem s a (physical k)) ∧
    holds n s (set_page SYSCALL_STACK f (Z.lor data_flags HUGE_PAGE) m).
Proof.
  intros Hh Hn Ea. unfold syscall_stack_init. rewrite (allocate_frame_ok _ _ _ Ea). cbn [mbind outcome_bind km_space].
  destruct (holds_map n (km_space k) m SYSCALL_STACK f data_flags) as (s & -> & Hs); try done.
  - by apply (low_page n 136).
  - by eapply allocated_frame.
  - apply data_flags_ok.
  - apply data_flags_ok.
  - by exists s.
Qed.

(** The bytes end up in the frame, which is mapped for reading and executing only. *)
Lemma load_common_code_ok n rd (k : KernelMem) m f a code :
  holds n (km_space k) m → 0 ≤ n ≤ 508 → initrd_read rd "p_commoncode" = Ret (Some code) →
  Z.of_nat (length code) ≤ PAGE_SIZE_BYTES → ProcessMem.phys_allocate (km_frames k) = Some (f, a) →
  ∃ s, load_common_code rd k = Ret (f, MkKernelMem s a (write_bytes (physical k) f code)) ∧
    holds n s (set_page COMMON_ADDRESS_VIRT f (Z.lor PRESENT HUGE_PAGE)
      (set_page COMMON_ADDRESS_VIRT f (Z.lor data_flags HUGE_PAGE) m)).
Proof.
  intros Hh Hn Hr Hl Ea. unfold load_common_code. rewrite Hr. cbn [expect mbind outcome_bind].
  rewrite (proj2 (Z.leb_le _ _)) by done. cbn [rassert mbind outcome_bind].
  rewrite (allocate_frame_ok _ _ _ Ea). cbn [mbind outcome_bind km_space km_frames physical].
  assert (known_page n COMMON_ADDRESS_VIRT) as Hk by by apply (low_page n 1).
  pose proof (allocated_frame _ _ _ Ea) as Hf. destruct data_flags_ok as [Hs Hp].
  destruct (holds_map_page n (km_space k) m COMMON_ADDRESS_VIRT f data_flags) as (s1 & -> & Hs1); [done..|].
  cbn [mbind outcome_bind]. assert (containing_address COMMON_ADDRESS_VIRT = COMMON_ADDRESS_VIRT) as Hc by (by rewrite containing_eq).
  rewrite (resolve_ok n s1 _ COMMON_ADDRESS_VIRT f (Z.lor data_flags HUGE_PAGE) Hs1).
  2:{ rewrite Hc. apply Hk. }
  2:{ rewrite Hc. unfold set_page. by rewrite decide_True. }
  rewrite Hc. replace (f + (COMMON_ADDRESS_VIRT - COMMON_ADDRESS_VIRT)) with f by lia. cbn [mbind outcome_bind].
  destruct (holds_map_page n s1 _ COMMON_ADDRESS_VIRT f PRESENT Hs1) as (s2 & -> & Hs2); try done.
  - apply flag_set_bits.
  - apply Z.land_diag.
  - cbn [mbind outcome_bind]. by exists s2.
Qed.

Lemma mem_read_sub mem a (i n len : nat) :
  (i + n ≤ len)%nat → mem_read mem (a + Z.of_nat i) (Z.of_nat n) = take n (drop i (mem_read mem a (Z.of_nat len))).
Proof.
  intros Hl. apply list_eq. intros j. unfold mem_read. rewrite list_lookup_fmap.
  destruct (decide (j < n)%nat) as [Hj|Hj].
  - rewrite lookup_take_lt, lookup_drop, list_lookup_fmap, !lookup_seqZ_lt by lia. cbn. do 2 f_equal. f_equal. lia.
  - rewrite lookup_take_ge, lookup_seqZ_ge by lia. done.
Qed.

(** The start of the jump table, in the second word of the shared code. *)
Definition table_start (code : list Z) : Z := from_le (take 8 (drop 8 code)).

Lemma create_process_dts_ok n gdt (k : KernelMem) m common fl idt a code max_memory :
  holds n (km_space k) m → m COMMON_ADDRESS_VIRT = Some (common, fl) →
  m (HIGHER_HALF_START + idt) = Some (idt, Z.lor data_flags HUGE_PAGE) → idt ≤ max_memory < 508 * 2 ^ 30 →
  ProcessMem.phys_allocate (km_frames k) = Some (idt, a) → (16 ≤ length code)%nat → Forall is_byte code →
  mem_read (physical k) common (Z.of_nat (length code)) = code →
  table_start code + ENTRY_COUNT * idt_table_entry_size ≤ 2 ^ 64 → 0 ≤ gdt < 2 ^ 64 →
  ∃ mem, create_process_dts gdt k = Ret (idt, MkKernelMem (km_space k) a mem) ∧
    (∀ v, 0 ≤ v < ENTRY_COUNT →
      cpu_dispatch mem idt v = Some (MkGate (table_start code + v * idt_table_entry_size) GDT_SELECTOR_CODE 0 0)) ∧
    (∀ b n, b + n ≤ idt ∨ idt + 0x1010 ≤ b → mem_read mem b n = mem_read (physical k) b n).
Proof.
  intros Hh Hm Hi Hmax Ea Hl Hb Hr Ht Hg. unfold create_process_dts.
  assert (containing_address (COMMON_ADDRESS_VIRT + 8) = COMMON_ADDRESS_VIRT) as Hc by (by rewrite containing_eq).
  rewrite (resolve_ok n _ m (COMMON_ADDRESS_VIRT + 8) common fl Hh); rewrite ?Hc; [|by apply (page_ok_low 1)|done].
  replace (common + (COMMON_ADDRESS_VIRT + 8 - COMMON_ADDRESS_VIRT)) with (common + Z.of_nat 8) by lia. cbn [mbind outcome_bind].
  change (mem_read (physical k) (common + Z.of_nat 8) 8) with (mem_read (physical k) (common + Z.of_nat 8) (Z.of_nat 8)).
  rewrite (mem_read_sub _ _ 8 8 (length code)), Hr by lia. fold (table_start code).
  rewrite (allocate_frame_ok _ _ _ Ea). cbn [mbind outcome_bind km_space km_frames physical].
  destruct (allocated_frame _ _ _ Ea) as [Hf [q Hq]].
  unfold phys_to_virt. rewrite (proj2 (Z.ltb_lt _ _)) by (unfold HIGHER_HALF_START; rewrite u64_size_eq; lia).
  cbn [expect mbind outcome_bind]. assert (containing_address (HIGHER_HALF_START + idt) = HIGHER_HALF_START + idt) as Hc2.
  { rewrite containing_eq, Hq. unfold HIGHER_HALF_START, PAGE_SIZE_BYTES. Z.to_euclidean_division_equations; lia. }
  rewrite (resolve_ok n _ m (HIGHER_HALF_START + idt) idt (Z.lor data_flags HUGE_PAGE) Hh); rewrite ?Hc2; [| |exact Hi].
  2:{ split; [|right; unfold HIGHER_HALF_START; lia]. exists (0x7fffc000000 + q). rewrite Hq. unfold HIGHER_HALF_START, PAGE_SIZE_BYTES. lia. }
  replace (idt + (HIGHER_HALF_START + idt - (HIGHER_HALF_START + idt))) with idt by lia. cbn [mbind outcome_bind].
  assert (0 ≤ table_start code) as Ht0.
  { apply from_le_bound. by apply Forall_take, Forall_drop. }
  destruct (process_tables gdt (physical k) idt (table_start code) Ht0 Ht Hg) as (mem & -> & Hd & _ & _ & Ho).
  cbn [mbind outcome_bind]. by exists mem.
Qed.

(** C13: the kernel sets up exactly the address space it means to.  For a kernel whose segments are
    aligned, readable and below the first GiB, less than 508 GiB of memory, a valid memory map, a
    ramdisk that holds the shared code and an allocator with three free frames, [memory::init]
    returns, and the processor finds in the tables: all of physical memory in the higher half,
    writable and not executable; the segments of the kernel where they are linked, with the rights
    of their headers; the low page and the page tables; the stack of system calls; the shared code,
    readable and executable only; and no other page.  The tables fit their area, the frame of the
    shared code holds its bytes, and the interrupt table of processes leads into its jump table. *)
Theorem kernel_memory_exact (new_allocator : option (Z * Z) → A) from_u64 decode gdt elf buffer boot_tables mem
    info block rd code stack common idt (a1 a2 a3 : A) :
  load_memory_map PhysAddr_new buffer = Ret info → 0 ≤ max_memory info < 508 * 2 ^ 30 →
  Forall segment_ok (omap id (ph_table elf)) → phys_init (allocatable info) = Ret block →
  initrd_init from_u64 decode (λ a, default 0 (mem !! a)) elf = Ret rd →
  initrd_read rd "p_commoncode" = Ret (Some code) → Forall is_byte code →
  16 ≤ Z.of_nat (length code) ≤ PAGE_SIZE_BYTES →
  table_start code + ENTRY_COUNT * idt_table_entry_size ≤ 2 ^ 64 → 0 ≤ gdt < 2 ^ 64 →
  ProcessMem.phys_allocate (new_allocator block) = Some (stack, a1) →
  ProcessMem.phys_allocate a1 = Some (common, a2) → ProcessMem.phys_allocate a2 = Some (idt, a3) →
  idt ≤ max_memory info →
  ∃ k, memory_init new_allocator from_u64 decode gdt elf buffer boot_tables mem = Ret (k, common, idt) ∧
    (∀ v, page_ok v → mmu (as_tables (km_space k)) PT_PADDR v =
      kernel_page (omap id (ph_table elf)) (max_memory info) stack common v) ∧
    table_count (as_map (km_space k)) ≤ MAX_PAGE_TABLES ∧
    mem_read (physical k) common (Z.of_nat (length code)) = code ∧
    (∀ v, 0 ≤ v < ENTRY_COUNT →
      cpu_dispatch (physical k) idt v = Some (MkGate (table_start code + v * idt_table_entry_size) GDT_SELECTOR_CODE 0 0)).
Proof.
  intros Hinfo Hmax Hseg Hblock Hrd Hcode Hbytes Hlen Htab Hgdt Ea1 Ea2 Ea3 Hidt. unfold memory_init.
  rewrite Hinfo. cbn [mbind outcome_bind]. set (n := max_memory info / 2 ^ 30 + 1).
  assert (0 ≤ n ≤ 508) as Hn by (unfold n; Z.to_euclidean_division_equations; lia).
  destruct (paging_init_ok n boot_tables elf Hn Hseg) as (s0 & -> & Hh0). cbn [mbind outcome_bind].
  destruct (map_physical_memory_ok s0 _ (max_memory info) Hmax Hh0) as (s1 & -> & Hh1). fold n in Hh1. cbn [mbind outcome_bind].
  rewrite Hblock. cbn [mbind outcome_bind]. rewrite Hrd. cbn [mbind outcome_bind].
  destruct (syscall_stack_init_ok n (MkKernelMem s1 (new_allocator block) mem) _ stack a1 Hh1 Hn Ea1) as (s2 & -> & Hh2).
  cbn [mbind outcome_bind physical].
  destruct (load_common_code_ok n rd (MkKernelMem s2 a1 mem) _ common a2 code Hh2 Hn Hcode (proj2 Hlen) Ea2) as (s3 & -> & Hh3).
  cbn [mbind outcome_bind physical]. destruct (allocated_frame _ _ _ Ea3) as [Hf3 [q3 Hq3]].
  destruct (allocated_frame _ _ _ Ea2) as [Hf2 [q2 Hq2]].
  assert (common ≠ idt) as Hne.
  { intros ->. apply phys_allocate_law in Ea2 as (_ & Hu & _), Ea3 as (Hnot & _). apply Hnot. rewrite Hu. set_solver. }
  destruct (create_process_dts_ok n gdt (MkKernelMem s3 a2 (write_bytes mem common code)) _ common (Z.lor PRESENT HUGE_PAGE) idt a3
    code (max_memory info) Hh3) as (mem' & -> & Hd & Ho); [| |lia|done|lia|done|apply mem_read_write|done|done|].
  { unfold set_page. by rewrite decide_True. }
  { unfold set_page, set_higher, HIGHER_HALF_START, COMMON_ADDRESS_VIRT, SYSCALL_STACK. rewrite !decide_False by lia.
    rewrite !(proj2 (Z.leb_le _ _)) by lia. cbn [andb]. do 2 f_equal. lia. }
  cbn [mbind outcome_bind]. eexists. split; [reflexivity|]. cbn [km_space physical]. split_and!.
  - intros v Hv. destruct (kernel_layout_page (omap id (ph_table elf)) (max_memory info) stack common v Hmax) as [<- Hfl].
    by apply (holds_mmu n s3 _ v Hh3 Hv).
  - etrans; [by eapply holds_count; [exact Hh3|lia]|]. change MAX_PAGE_TABLES with 512. lia.
  - rewrite Ho; [apply mem_read_write|]. unfold PAGE_SIZE_BYTES in *. lia.
  - exact Hd.
Qed.

End props.

(** ** A machine with 1.5 GiB of memory and one segment of code *)

Definition small_elf : ELFData := {|
  header := read_header example_image;
  ph_table := Some example_segment :: replicate 19 None |}.

Definition small_code : list Z := to_le 8 0 ++ to_le 8 0x201000.
Definition small_ramdisk : list Z := to_le 4 HEADER_MAGIC ++ to_le 4 1 ++ to_le 8 33 ++ [9] ++ small_code.
Definition small_decode (l : list Z) : option (list FileEntry) :=
  if decide (l = [9]) then Some [{| file_name := "p_commoncode"; file_size := 16; file_offset := 0 |}] else None.
Definition small_physical : gmap Z Z := write_bytes ∅ 0x1200000 small_ramdisk.
Definition small_allocator (_ : option (Z * Z)) : gset Z := {[0x1000000; 0x1200000]}.

Lemma kernel_memory_exact_witness :
  ∃ k : KernelMem (A := gset Z),
    memory_init small_allocator Ret small_decode 0x20980000000000 small_elf example_map ∅ small_physical
      = Ret (k, 0x1600000, 0x1800000) ∧
    mmu (as_tables (km_space k)) PT_PADDR 0x1000000 = Some (0x1000000, false, true) ∧
    mmu (as_tables (km_space k)) PT_PADDR 0xffff800001800000 = Some (0x1800000, true, false) ∧
    mmu (as_tables (km_space k)) PT_PADDR 0x3000000 = None.
Proof.
  destruct (kernel_memory_exact small_allocator Ret small_decode 0x20980000000000 small_elf example_map ∅ small_physical
    {| allocatable := [Some (range 0x20000000 0x40000000); Some (range 0x46400000 0x60000000)] ++ replicate 18 None;
       max_memory := 0x60000000 |}
    (Some (0xffff800020000000, 0x10000000))
    {| files := {["p_commoncode" := {| file_name := "p_commoncode"; file_size := 16; file_offset := 0 |}]}; slice := small_code |}
    small_code 0x1400000 0x1600000 0x1800000
    {[0x1400000; 0x1000000; 0x1200000]} {[0x1600000; 0x1400000; 0x1000000; 0x1200000]}
    {[0x1800000; 0x1600000; 0x1400000; 0x1000000; 0x1200000]}) as (k & E & Hm & _).
  - vm_compute. reflexivity.
  - vm_compute. split; [discriminate|reflexivity].
  - constructor; [|constructor]. split; vm_compute; [reflexivity| |split; [reflexivity|discriminate]|reflexivity].
    split; [discriminate|]. by exists 8.
  - vm_compute. reflexivity.
  - vm_compute. reflexivity.
  - vm_compute. reflexivity.
  - unfold small_code. apply Forall_app. split; apply to_le_bytes.
  - vm_compute. split; discriminate.
  - vm_compute. discriminate.
  - lia.
  - vm_compute. reflexivity.
  - vm_compute. reflexivity.
  - vm_compute. reflexivity.
  - vm_compute. discriminate.
  - exists k. split; [exact E|]. clear E. rewrite !Hm.
    + split; [|split]; vm_compute; reflexivity.
    + apply (page_ok_low 24). lia.
    + split; [exists 0x7fffc00000c; reflexivity|right; lia].
    + apply (page_ok_low 8). lia.
Defined.
