(* ===== verification/Calibrate.v ===== *)
(** * Calibrate: measuring the clocks at boot (src/driver/pit.rs, [measure_with_pit] of
    src/smp/sleep.rs)

    The interval timer raises an interrupt every so many cycles of its oscillator; the kernel counts
    the interrupts of a tenth of a second and reads the time stamp counter and the timer of the local
    APIC before and after.  Time is counted in cycles of the oscillator; every access takes some of
    them, at most [slack], and so does a round of the loop that waits.  The counters run at steady
    rates and are read to the tick.  No interrupt of the timer is left over from before the loop
    enables interrupts: a left-over one would be counted and make the wait shorter by a tick. *)

From stdpp Require Import base list strings.
From Stdlib Require Import ZArith Lia.
From S2P Require Import Prelude Bytes Clocks PortIo Acpi IoApic.
Open Scope Z_scope.

(** ** The board *)

(** Beside the registers: the instruction that the waiting loop runs, during which the processor
    takes some number of interrupts of the timer, and the time stamp counter. *)
Class Board `{!Device} := {
  spin : Dev → Z * Dev;
  rdtsc : Dev → Z * Dev;
}.

Definition PIT_CH0 : Z := 0x40.
Definition PIT_REG : Z := 0x43.
Definition FREQ_HZ : Z := 1193182.

Section pit.
Context `{!Device, !Board}.

Definition set_freq_and_start (target_freq_hz : Z) : IO Z :=
  _ ← io_assert (10 <=? target_freq_hz) "Requested PIT frequency too low";
  _ ← io_assert (target_freq_hz <? FREQ_HZ / 2) "Requested PIT frequency too high";
  let reload_value := FREQ_HZ / target_freq_hz in
  _ ← io_assert (0 <? reload_value) "assertion failed: reload_value > 0";
  _ ← io_assert (reload_value <=? 0xffff) "assertion failed: reload_value <= (u16::MAX as u32)";
  _ ← write_port 8 PIT_REG 0x34;
  _ ← write_port 8 PIT_CH0 (reload_value mod 256);
  _ ← write_port 8 PIT_CH0 (Z.shiftr reload_value 8 mod 256);
  let actual_freq_hz := FREQ_HZ / reload_value in
  mret (1000000000 / actual_freq_hz).

(** The interrupt handler, on [ELAPSED_TICKS]. *)
Definition callback (elapsed : Z) : Z := wrap64 (elapsed + 1).

(** The loop that waits, interrupted by the handler [k] times in a round. *)
Fixpoint wait_ticks (fuel : nat) (elapsed total_ticks : Z) : IO unit :=
  if elapsed <? total_ticks then
    match fuel with
    | O => λ _, None
    | S fuel => k ← (λ d, Some (Ret (spin d))); wait_ticks fuel (Nat.iter (Z.to_nat k) callback elapsed) total_ticks
    end
  else mret tt.

Definition kernel_early_sleep_ns (fuel : nat) (ns : Z) : IO unit :=
  ns_per_tick ← set_freq_and_start 1000;
  let total_ticks := ns / ns_per_tick in
  wait_ticks fuel 0 total_ticks.

Definition pit_disable : IO unit :=
  _ ← write_port 8 PIT_REG 0x30;
  _ ← write_port 8 PIT_CH0 0;
  write_port 8 PIT_CH0 0.

Definition read_tsc : IO Z := λ d, Some (Ret (rdtsc d)).

Definition measure_with_pit (fuel : nat) (acpi_data : option ACPIData) (deadline : bool) : IO Clock :=
  t0 ← read_tsc;
  _ ← kernel_early_sleep_ns fuel 100000000;
  t1 ← read_tsc;
  _ ← set_timer_raw acpi_data 0xffffffff;
  _ ← kernel_early_sleep_ns fuel 100000000;
  after ← get_timer_raw acpi_data;
  tick_count ← io_lift (sub64 0xffffffff after);
  _ ← pit_disable;
  dt ← io_lift (sub64 t1 t0);
  tsc_freq ← io_lift (mul64 10 dt);
  lapic_freq ← io_lift (mul64 10 tick_count);
  mret {| Clocks.tsc_supports_deadline_mode := deadline; TSC_FREQ_HZ := tsc_freq; LAPIC_FREQ_HZ := lapic_freq |}.

End pit.

(** ** What the board does *)

(** The state it shows: the time, the bytes of a command so far, the reload value and the start of
    the timer, the interrupts since then, and the count the APIC timer was set to, and when. *)
Record board := MkBoard {
  now : Z;
  latch : list Z;
  reload : Z;
  started : Z;
  fired : Z;
  timer : Z * Z;
}.

Definition pit_write (p v t : Z) (b : board) : board :=
  if p =? PIT_REG then MkBoard t [v] (reload b) (started b) (fired b) (timer b)
  else match latch b with
       | [c] => MkBoard t [c; v] (reload b) (started b) (fired b) (timer b)
       | [c; lo] => MkBoard t [] (lo + 256 * v) t 0 (timer b)
       | _ => MkBoard t (latch b) (reload b) (started b) (fired b) (timer b)
       end.

Definition at_time (t : Z) (b : board) : board := MkBoard t (latch b) (reload b) (started b) (fired b) (timer b).

(** The counters run at [tsc_rate] and [lapic_rate] ticks a second; [lapic] is the address of the
    registers of the APIC, whose timer counts down to zero. *)
Class BoardLaws `{!Device, !Board} (lapic : Z) := {
  view : Dev → board;
  slack : Z;
  tsc_start : Z;
  tsc_rate : Z;
  lapic_rate : Z;
  rates_ok : 1 ≤ slack ≤ 1000 ∧ 0 ≤ tsc_start ∧ 1000 ≤ tsc_rate < 2 ^ 40 ∧ 1000 ≤ lapic_rate < 2 ^ 34;
  pit_law p v d : p = PIT_REG ∨ p = PIT_CH0 →
    ∃ t, now (view d) ≤ t ≤ now (view d) + slack ∧ view (port_out 8 p v d) = pit_write p v t (view d);
  spin_law d : 0 < reload (view d) →
    ∃ t, now (view d) < t ≤ now (view d) + slack ∧
      let k := (t - started (view d)) / reload (view d) in
      (spin d).1 = k - fired (view d) ∧
      view (spin d).2 = MkBoard t (latch (view d)) (reload (view d)) (started (view d)) k (timer (view d));
  tsc_law d :
    ∃ t, now (view d) ≤ t ≤ now (view d) + slack ∧
      (rdtsc d).1 = tsc_start + tsc_rate * t / FREQ_HZ ∧ view (rdtsc d).2 = at_time t (view d);
  timer_set_law v d :
    ∃ t, now (view d) ≤ t ≤ now (view d) + slack ∧
      view (port_out 32 (lapic + TIMER_INITIAL_COUNT) v d) =
        MkBoard t (latch (view d)) (reload (view d)) (started (view d)) (fired (view d)) (v, t);
  timer_read_law d :
    let r := port_in 32 (lapic + TIMER_CURRENT_COUNT) d in
    ∃ t, now (view d) ≤ t ≤ now (view d) + slack ∧ view r.2 = at_time t (view d) ∧
      r.1 = Z.max 0 ((timer (view d)).1 - lapic_rate * (t - (timer (view d)).2) / FREQ_HZ);
}.

(** ** Waiting *)

Section waiting.
Context `{!Device, !Board} (lapic : Z) `{!BoardLaws lapic}.

(** Time passes, and the timer of the APIC is left alone. *)
Definition later (n : Z) (b u : board) : Prop := now b ≤ now u ≤ now b + n * slack ∧ timer u = timer b.

Lemma acts_pit s p v :
  p = PIT_REG ∨ p = PIT_CH0 →
  acts view s (write_port 8 p v) (λ _ u, ∃ t, now s ≤ t ≤ now s + slack ∧ u = pit_write p v t s).
Proof.
  intros Hp d <-. eexists _, _. split; [apply write_some|]. destruct (pit_law p v d Hp) as (t & Ht & E). by exists t.
Qed.

(** One round of the loop. *)
Definition spun (t : Z) (s : board) : board :=
  MkBoard t (latch s) (reload s) (started s) ((t - started s) / reload s) (timer s).

Lemma acts_spin s :
  0 < reload s → acts view s (λ d, Some (Ret (spin d))) (λ k u,
    ∃ t, now s < t ≤ now s + slack ∧ u = spun t s ∧ k = fired u - fired s).
Proof.
  intros Hr d <-. destruct (spin_law d Hr) as (t & Ht & Hk & Hv). exists (spin d).1, (spin d).2.
  split; [by rewrite <- surjective_pairing|]. exists t. split; [done|]. rewrite Hv. by split.
Qed.

(** The interrupts of a round bring [ELAPSED_TICKS] up to date. *)
Lemma callback_times k e :
  0 ≤ e → e + Z.of_nat k < u64_size → Nat.iter k callback e = e + Z.of_nat k.
Proof.
  intros He Hk. induction k as [|k IH]; [cbn; lia|].
  change (Nat.iter (S k) callback e) with (callback (Nat.iter k callback e)). rewrite IH by lia. unfold callback.
  rewrite wrap64_small by (unfold is_u64; lia). lia.
Qed.

Lemma spun_ticks t s total :
  0 < reload s → started s ≤ now s → total < 2 ^ 63 → fired s = (now s - started s) / reload s →
  now s < t ≤ now s + slack → now s < started s + total * reload s →
  Nat.iter (Z.to_nat (fired (spun t s) - fired s)) callback (fired s) = fired (spun t s).
Proof.
  intros Hr Hst Htot Hf Ht Hnow. destruct rates_ok as [Hsl _]. cbn [spun fired].
  assert (0 ≤ fired s) by (rewrite Hf; apply Z.div_pos; lia).
  assert (fired s ≤ (t - started s) / reload s) by (rewrite Hf; apply Z.div_le_mono; lia).
  assert ((t - started s) / reload s < total + 1001) by (apply Z.div_lt_upper_bound; nia).
  rewrite callback_times by (unfold u64_size; lia). lia.
Qed.

Lemma wait_ends fuel s total :
  0 < reload s → started s ≤ now s → total < 2 ^ 63 → fired s = (now s - started s) / reload s →
  total * reload s + started s - now s < Z.of_nat fuel →
  acts view s (wait_ticks fuel (fired s) total) (λ _ u,
    started s + total * reload s ≤ now u ≤ Z.max (now s) (started s + total * reload s + slack) ∧ timer u = timer s).
Proof.
  destruct rates_ok as [Hsl _]. revert s. induction fuel as [|fuel IH]; intros s Hr Hst Htot Hf Hfuel; cbn [wait_ticks].
  - rewrite (proj2 (Z.ltb_ge _ _)).
    2:{ rewrite Hf. apply Z.div_le_lower_bound; [done|]. lia. }
    apply acts_ret. split; [|done]. lia.
  - destruct (Z.ltb_spec (fired s) total) as [Hlt|Hge].
    2:{ apply acts_ret. rewrite Hf in Hge. apply Z.mul_le_mono_nonneg_r with (p := reload s) in Hge; [|lia].
        pose proof (Z.mul_div_le (now s - started s) (reload s) Hr). split; [|done]. lia. }
    eapply acts_bind; [by apply acts_spin|]. cbv beta. intros k u (t & Ht & -> & ->).
    assert (now s < started s + total * reload s) as Hnow.
    { rewrite Hf in Hlt. pose proof (Z.mul_succ_div_gt (now s - started s) (reload s) Hr). nia. }
    rewrite (spun_ticks t s total) by (done || lia).
    eapply acts_weaken; [apply (IH (spun t s)); [done| |done|done|]|]; cbn [spun reload started now timer]; [lia|lia|].
    cbv beta. intros _ u [Hu Htm]. split; [|done]. lia.
Qed.

(** A tenth of a second is a hundred interrupts of 1193 cycles. *)
Lemma early_sleep_ok fuel s :
  119300 < Z.of_nat fuel →
  acts view s (kernel_early_sleep_ns fuel 100000000) (λ _ u,
    now s + 119300 ≤ now u ≤ now s + 119300 + 4 * slack ∧ timer u = timer s).
Proof.
  intros Hfuel. destruct rates_ok as [Hsl _]. unfold kernel_early_sleep_ns, set_freq_and_start.
  eapply acts_bind with (P := λ r u, r = 1000000 ∧ reload u = 1193 ∧ started u = now u ∧ fired u = 0 ∧ later 3 s u).
  { do 4 (apply acts_assert; [reflexivity|]).
    eapply acts_bind; [apply acts_pit; by left|]. cbv beta. intros _ ? (t1 & Ht1 & ->).
    eapply acts_bind; [apply acts_pit; by right|]. cbv beta. intros _ ? (t2 & Ht2 & ->).
    eapply acts_bind; [apply acts_pit; by right|]. cbv beta. intros _ ? (t3 & Ht3 & ->).
    apply acts_ret. cbn in *. unfold later. cbn. split_and!; try reflexivity; lia. }
  intros r u (-> & Hr & Hst & Hf & Hn & Htm). change (100000000 / 1000000) with 100. rewrite <- Hf.
  eapply acts_weaken; [apply wait_ends; rewrite ?Hr; [done|by rewrite Hst|done| |]|].
  - rewrite Hf, Hst, Z.sub_diag. reflexivity.
  - rewrite Hst. lia.
  - cbv beta. rewrite Hr, Hst, Htm. intros _ v [Hv ->]. split; [|done]. lia.
Qed.

Lemma acts_tsc s :
  acts view s read_tsc (λ v u, ∃ t, now s ≤ t ≤ now s + slack ∧ v = tsc_start + tsc_rate * t / FREQ_HZ ∧ u = at_time t s).
Proof.
  intros d <-. exists (rdtsc d).1, (rdtsc d).2. split; [unfold read_tsc; by rewrite <- surjective_pairing|].
  destruct (tsc_law d) as (t & Ht & E & Hv). by exists t.
Qed.

Lemma acts_set_timer s acpi v :
  local_apic_addr acpi = lapic →
  acts view s (set_timer_raw (Some acpi) v) (λ _ u, later 1 (MkBoard (now s) [] 0 0 0 (timer u)) u ∧ timer u = (v, now u)).
Proof.
  intros Ha d <-. unfold set_timer_raw, lapic_write_u32. cbn [lapic_addr expect mbind outcome_bind].
  eexists _, _. split; [reflexivity|]. cbn [fst snd]. rewrite Ha. destruct (timer_set_law v d) as (t & Ht & ->).
  unfold later. cbn. split; [|done]. split; [lia|done].
Qed.

Lemma acts_get_timer s acpi :
  local_apic_addr acpi = lapic →
  acts view s (get_timer_raw (Some acpi)) (λ v u, ∃ t, now s ≤ t ≤ now s + slack ∧
    v = Z.max 0 ((timer s).1 - lapic_rate * (t - (timer s).2) / FREQ_HZ)).
Proof.
  intros Ha d <-. unfold get_timer_raw, lapic_read_u32. cbn [lapic_addr expect mbind outcome_bind].
  eexists _, _. unfold mmio_read. rewrite (bind_some _ _ _ _ _ eq_refl), read_some, Ha. split; [reflexivity|].
  destruct (timer_read_law d) as (t & Ht & _ & E). by exists t.
Qed.

(** A measured frequency, up to the cycles the accesses take and the cycles that the reload value
    leaves out of a second. *)
Definition close_to (rate measured : Z) : Prop :=
  rate * 1193000 - 10 * FREQ_HZ ≤ measured * FREQ_HZ ≤ rate * (1193000 + 50 * slack) + 10 * FREQ_HZ.

Lemma ticks_close rate n d :
  0 ≤ rate → 119300 ≤ d ≤ 119300 + 5 * slack →
  rate * d - FREQ_HZ ≤ n * FREQ_HZ ≤ rate * d + FREQ_HZ → close_to rate (10 * n).
Proof. unfold close_to. intros Hr Hd Hn. nia. Qed.

Lemma tsc_ticks a b :
  a ≤ b → tsc_rate * (b - a) - FREQ_HZ ≤ (tsc_rate * b / FREQ_HZ - tsc_rate * a / FREQ_HZ) * FREQ_HZ ≤ tsc_rate * (b - a) + FREQ_HZ.
Proof.
  intros Hab. pose proof (Z.mul_div_le (tsc_rate * a) FREQ_HZ eq_refl). pose proof (Z.mul_div_le (tsc_rate * b) FREQ_HZ eq_refl).
  pose proof (Z.mul_succ_div_gt (tsc_rate * a) FREQ_HZ eq_refl). pose proof (Z.mul_succ_div_gt (tsc_rate * b) FREQ_HZ eq_refl). lia.
Qed.

(** C31: the clocks are measured right, when no interrupt of the timer is left over from before a wait
    and an access takes at most a thousand cycles of the timer: the measurement ends, and both frequencies come out as they are,
    low by less than two parts in ten thousand because a thousandth of a second is taken to be 1193
    cycles, and up to ten ticks and what the accesses take. *)
Theorem clocks_calibrated fuel acpi deadline d :
  local_apic_addr acpi = lapic → 119300 < Z.of_nat fuel →
  ∃ clk d', measure_with_pit fuel (Some acpi) deadline d = Some (Ret (clk, d')) ∧
    close_to tsc_rate (TSC_FREQ_HZ clk) ∧ close_to lapic_rate (LAPIC_FREQ_HZ clk).
Proof.
  intros Ha Hfuel. destruct rates_ok as (Hsl & Hts & Htr & Hlr).
  enough (acts view (view d) (measure_with_pit fuel (Some acpi) deadline) (λ clk _,
    close_to tsc_rate (TSC_FREQ_HZ clk) ∧ close_to lapic_rate (LAPIC_FREQ_HZ clk))) as Hacts by by apply Hacts.
  unfold measure_with_pit. set (s := view d).
  eapply acts_bind; [apply acts_tsc|]. cbv beta. intros t0 s0 (x0 & Hx0 & -> & ->).
  eapply acts_bind; [by apply early_sleep_ok|]. cbv beta. cbn [at_time now timer]. intros _ s1 [Hs1 _].
  eapply acts_bind; [apply acts_tsc|]. cbv beta. intros t1 s2 (x1 & Hx1 & -> & ->).
  eapply acts_bind; [by apply acts_set_timer|]. cbv beta. intros _ s3 [[Hs3 _] Ht3]. cbn [at_time now timer] in Hs3.
  eapply acts_bind; [by apply early_sleep_ok|]. cbv beta. intros _ s4 [Hs4 Ht4].
  eapply acts_bind; [by apply acts_get_timer|]. cbv beta. intros after s5 (x5 & Hx5 & ->). rewrite Ht4, Ht3. cbn [fst snd].
  set (n := lapic_rate * (x5 - now s3) / FREQ_HZ).
  assert (119300 ≤ x5 - now s3 ≤ 119300 + 5 * slack) as Hd by lia.
  assert (0 ≤ n ≤ 0xffffffff) as Hn.
  { unfold n. split; [apply Z.div_pos; [nia|done]|]. apply Z.lt_succ_r, Z.div_lt_upper_bound; [done|]. unfold FREQ_HZ. nia. }
  rewrite Z.max_r by lia. rewrite (sub64_small 0xffffffff (0xffffffff - n)) by lia. replace (0xffffffff - (0xffffffff - n)) with n by lia.
  eapply acts_step; [apply acts_lift|]. unfold pit_disable.
  eapply acts_bind with (P := λ _ _, True).
  { eapply acts_bind; [apply acts_pit; by left|]. intros _ ? _. eapply acts_bind; [apply acts_pit; by right|]. intros _ ? _.
    eapply acts_weaken; [apply acts_pit; by right|]. done. }
  intros _ s6 _. pose proof (tsc_ticks x0 x1 ltac:(lia)) as Ht.
  set (m := tsc_rate * x1 / FREQ_HZ - tsc_rate * x0 / FREQ_HZ) in *.
  assert (close_to tsc_rate (10 * m)) as Hm by (apply (ticks_close _ _ (x1 - x0)); lia).
  assert (0 ≤ m < 2 ^ 57) as Hm0 by (unfold FREQ_HZ in Ht; nia).
  rewrite (sub64_small (tsc_start + _)) by (unfold m in Hm0; lia).
  replace (tsc_start + tsc_rate * x1 / FREQ_HZ - (tsc_start + tsc_rate * x0 / FREQ_HZ)) with m by (unfold m; lia).
  eapply acts_step; [apply acts_lift|]. rewrite (proj2 (mul64_ret 10 m _)) by (split; [rewrite u64_size_eq; lia|reflexivity]).
  eapply acts_step; [apply acts_lift|]. rewrite (proj2 (mul64_ret 10 n _)) by (split; [rewrite u64_size_eq; lia|reflexivity]).
  eapply acts_step; [apply acts_lift|]. apply acts_ret. split; [exact Hm|]. apply (ticks_close _ _ (x5 - now s3)); [lia|done|].
  unfold n. pose proof (Z.mul_div_le (lapic_rate * (x5 - now s3)) FREQ_HZ eq_refl).
  pose proof (Z.mul_succ_div_gt (lapic_rate * (x5 - now s3)) FREQ_HZ eq_refl). lia.
Qed.

End waiting.

(** Without the deadline mode the ticks of an instant are those of the APIC timer, and the instant
    they are added to is one of the time stamp counter: here a second is over after 33 ms. *)
Theorem one_shot_second_is_short :
  let clk := {| Clocks.tsc_supports_deadline_mode := false; TSC_FREQ_HZ := 3000000000; LAPIC_FREQ_HZ := 100000000 |} in
  BSPInstant_add_ns clk 0 1000000000 = Ret 100000000.
Proof. vm_compute. reflexivity. Qed.

(** ** A board on which everything takes one cycle *)

Definition ref_lapic : Z := 0xfee00000.

#[local] Instance ref_device : Device := {|
  Dev := board;
  port_in width p b :=
    (if p =? ref_lapic + TIMER_CURRENT_COUNT
     then Z.max 0 ((timer b).1 - 1000000 * (now b + 1 - (timer b).2) / FREQ_HZ) else 0, at_time (now b + 1) b);
  port_out width p v b :=
    if width =? 8 then pit_write p v (now b + 1) b
    else MkBoard (now b + 1) (latch b) (reload b) (started b) (fired b) (v, now b + 1);
|}.

#[local] Instance ref_board : Board := {|
  spin b := let u := spun (now b + 1) b in (fired u - fired b, u);
  rdtsc b := (3000000000 * (now b + 1) / FREQ_HZ, at_time (now b + 1) b);
|}.

#[local] Program Instance ref_board_laws : BoardLaws ref_lapic := {|
  view b := b; slack := 1; tsc_start := 0; tsc_rate := 3000000000; lapic_rate := 1000000;
|}.
Next Obligation. lia. Qed.
Next Obligation. intros p v d _. exists (now d + 1). split; [lia|reflexivity]. Qed.
Next Obligation. intros d _. exists (now d + 1). split; [lia|]. split; reflexivity. Qed.
Next Obligation. intros d. exists (now d + 1). split; [lia|]. split; reflexivity. Qed.
Next Obligation. intros v d. exists (now d + 1). split; [lia|reflexivity]. Qed.
Next Obligation. intros d. exists (now d + 1). split; [lia|]. split; reflexivity. Qed.

Lemma clocks_calibrated_witness :
  ∃ clk (d' : @Dev ref_device),
    measure_with_pit (Z.to_nat 119301) (Some (MkAcpiData ref_lapic [] [] [])) true (MkBoard 0 [] 0 0 0 (0, 0) : @Dev ref_device)
      = Some (Ret (clk, d')) ∧
    2999000000 ≤ TSC_FREQ_HZ clk ≤ 3000500000.
Proof.
  destruct (clocks_calibrated ref_lapic (Z.to_nat 119301) (MkAcpiData ref_lapic [] [] []) true (MkBoard 0 [] 0 0 0 (0, 0) : @Dev ref_device))
    as (clk & d' & E & Hc & _).
  - reflexivity.
  - rewrite Z2Nat.id; lia.
  - exists clk, d'. split; [exact E|]. unfold close_to, tsc_rate, slack, FREQ_HZ in Hc. cbn in Hc. lia.
Defined.
