(* ===== verification/KernelStart.v ===== *)
(** * KernelStart: from the kernel to the first process (the end of [rust_main] in src/main.rs)

    The last part of start-up reads the service daemon from the ramdisk, loads it, spawns it and
    raises the scheduler interrupt.  The wrapper of that interrupt jumps to the process whose page
    table the handler returns, or comes back when there is none. *)

From stdpp Require Import base gmap list strings.
From Stdlib Require Import ZArith Lia.
From S2P Require Import Prelude Abi Queues Ipc IpcProps IpcCalls Clocks Scheduler SchedulerProps Bytes Ranges VirtAlloc PageMap Args.
From S2P Require Import ProcessMem Elf Process Syscall SyscallProps Interrupt InterruptProps.
Open Scope Z_scope.

Section start.
Context `{HO : HashOrder} `{PC : Pinecone} `{PagingOps} `{!AlignOps}
  {A : Type} `{!PhysAlloc A} {Frame PfCode : Type}.
Context (clk : Clock) (now : BSPInstant) (is_bsp : bool) (random : Z)
  (garbage : gmap Z (gmap Z entry)) (idt common : Z)
  (rd : InitRD) (services : gmap SubscriptionId Service)
  (message_to_vec : Message → option (list Z))
  (encode : ProcessId → ProcessResult Frame PfCode → option (list byte)).

Abbreviation K := (kernel (A := A)).

(** [Result::expect]. *)
Definition expect_ok {X E} (r : result X E) (why : string) : outcome X :=
  match r with Ok x => Ret x | Err _ => Panic why end.

(** The block that starts the service daemon. *)
Definition start_serviced (k : K) : outcome K :=
  bytes ← initrd_read rd "serviced";
  bytes ← expect bytes "serviced missing from initrd";
  '(r, st) ← load_elf bytes (k_phys k, k_mem k);
  elfimage ← expect_ok r "Could not load image";
  '(c, st) ← create_process garbage idt common (next_pid (k_sched k)) [] elfimage st;
  '(r, sched) ← Scheduler_spawn (λ _ _ _, Ret c) (k_sched k) [] elfimage;
  _ ← expect_ok r "called `Result::unwrap()` on an `Err` value";
  Ret (set_k_sched sched (set_k_phys st k)).

(** The wrapper of [irq_handler_switch!]: [test rax, rax] looks at the low half of the pair. *)
Definition irq_switch (handler : step (A := A) Z) : step (A := A) unit :=
  match handler with
  | Some (Ret (inl next, k)) => if wrap64 next =? 0 then done tt k else leave (ExitReturn next) k
  | Some (Ret (inr e, k)) => leave e k
  | Some (Panic w) => crash w
  | None => None
  end.

(** The end of [rust_main]; interrupt 0xd8 is [exception_tsc_deadline]. *)
Definition rust_main_end (fuel : nat) (k : K) : step (A := A) unit :=
  match start_serviced k with
  | Panic w => crash w
  | Ret k =>
      match irq_switch (exception_tsc_deadline clk now is_bsp random garbage idt common rd services
                          message_to_vec encode fuel true k) with
      | Some (Ret (inl _, _)) => crash "Returned from the scheduler"
      | r => r
      end
  end.

End start.

(** ** Enough memory *)

Section memory_left.
Context {A : Type} `{!PhysAlloc A} `{!PhysAllocLaws (A := A)}.

(** The pages of the program. *)
Definition program_pages (phs : list ELFProgramHeader) : nat :=
  sum_list_with segment_pages (filter (λ ph, needs_memory ph = true) phs).

Lemma allocate_size (a : A) f a' :
  phys_allocate a = Some (f, a') → size (phys_used a') = S (size (phys_used a)).
Proof.
  intros E. destruct (phys_allocate_law a f a' E) as (Hn & -> & _).
  rewrite size_union by set_solver. by rewrite size_singleton.
Qed.

(** A section that is not loaded met a full allocator. *)
Lemma section_loop_full n image ph frames (a : A) mem fs a' mem' :
  section_loop n image ph frames (a, mem) = Ret (inr fs, (a', mem')) →
  phys_allocate a' = None ∧ (size (phys_used a') < size (phys_used a) + n)%nat.
Proof.
  revert frames a mem. induction n as [|n IH]; intros frames a mem E; cbn [section_loop] in E; [done|].
  unfold allocate_zeroed in E. cbn [fst snd] in E. destruct (phys_allocate a) as [[f a1]|] eqn:Ea; cbn in E.
  - apply allocate_size in Ea. outcome_inv. apply IH in E as [? ?]. split; [done|lia].
  - simplify_eq. split; [done|lia].
Qed.

Lemma sections_loop_full phs image sections (a : A) mem e st' :
  phs_ok image phs → sections_loop phs image sections (a, mem) = Ret (Err e, st') →
  ∃ b : A, phys_allocate b = None ∧ (size (phys_used b) < size (phys_used a) + program_pages phs)%nat.
Proof.
  revert sections a mem. induction phs as [|ph phs IH]; intros sections a mem Hok E; cbn [sections_loop] in E; [done|].
  assert (phs_ok image phs) as Hok' by (intros ph' Hph; apply Hok; set_solver).
  unfold program_pages. rewrite filter_cons. fold (needs_memory ph) in E. destruct (needs_memory ph) eqn:En.
  2:{ rewrite decide_False by done. by eapply IH. }
  rewrite decide_True by done. cbn [sum_list_with].
  destruct (Hok ph) as [Hseg Hsz]; [set_solver|done|].
  rewrite page_align_spec in E by done. cbn [mbind outcome_bind] in E. fold (segment_pages ph) in E.
  destruct (section_loop_spec (segment_pages ph) image ph [] a mem Hseg)
    as (new & r & a1 & mem1 & E1 & Hr & Hu & Hnd & Hnew & _).
  rewrite E1 in E. cbn [mbind outcome_bind app] in *. destruct Hr as [[-> Hlen]| ->].
  - destruct (IH _ _ _ Hok' E) as (b & Hb & Hsize). exists b. split; [done|].
    rewrite Hu, size_union, size_list_to_set, Hlen in Hsize; [unfold program_pages in Hsize; lia|done|].
    intros f Hf Hf'. apply elem_of_list_to_set in Hf'. destruct (Hnew f Hf') as [Hn _]. exact (Hn Hf).
  - apply section_loop_full in E1 as [? ?]. exists a1. split; [done|lia].
Qed.

Lemma load_elf_full image (a : A) mem e st' :
  elf_ok image → phs_ok image (elf_segments image) → load_elf image (a, mem) = Ret (Err e, st') →
  ∃ b : A, phys_allocate b = None ∧
    (size (phys_used b) < size (phys_used a) + program_pages (elf_segments image))%nat.
Proof.
  intros Helf Hok E. destruct (parse_elf_spec image Helf) as (t & Ep & Ht). unfold load_elf in E. rewrite Ep in E.
  cbn [mbind outcome_bind ph_table header] in E. rewrite Ht in E.
  destruct (sections_loop _ image [] (a, mem)) as [[r st]|] eqn:El; [|done]. cbn in E.
  destruct r; [done|]. by eapply sections_loop_full.
Qed.

End memory_left.

(** ** The program and its process *)

(** The segments of the daemon lie where [create_process] accepts them. *)
Definition program_ok (image : list Z) : Prop :=
  phs_ok image (elf_segments image) ∧ (program_pages (elf_segments image) ≤ 250)%nat ∧
  ∀ ph, ph ∈ elf_segments image → needs_memory ph = true →
    0x400000 ≤ virtual_address ph < 2 ^ 47 ∧ (PAGE_SIZE_BYTES | virtual_address ph) ∧
    virtual_address ph + PAGE_SIZE_BYTES * Z.of_nat (segment_pages ph) ≤ 2 ^ 47 ∧
    ELFProgramHeader_has_flag ph ELFPermissionFlags_READABLE = true.

Lemma loaded_section_ok image secs used mem :
  program_ok image → sections_ok image (elf_segments image) secs used mem → Forall section_ok secs.
Proof.
  intros (_ & _ & Hp) Hs. apply Forall_forall. intros [ph fs] Hin.
  assert (ph ∈ secs.*1) as Hh by (apply list_elem_of_fmap; by exists (ph, fs)).
  rewrite (so_headers _ _ _ _ _ Hs) in Hh. apply list_elem_of_filter in Hh as [Hn Hh].
  destruct (Hp ph Hh Hn) as (Hlo & Hal & Hhi & Hr). unfold section_ok. cbn [fst snd].
  rewrite (so_pages _ _ _ _ _ Hs ph fs Hin). split_and!; [lia|done|done|lia|done|].
  apply Forall_forall. intros f Hf. by apply (so_frames _ _ _ _ _ Hs ph fs f Hin Hf).
Qed.

Lemma loaded_pages image phs secs used mem :
  sections_ok image phs secs used mem → sections_pages secs = program_pages phs.
Proof.
  intros Hs. unfold program_pages. rewrite <- (so_headers _ _ _ _ _ Hs). pose proof (so_pages _ _ _ _ _ Hs) as Hp.
  clear Hs. unfold sections_pages. induction secs as [|[ph fs] secs IH]; [done|]. cbn.
  rewrite (Hp ph fs) by set_solver. f_equal. apply IH. intros ph' fs' Hin. apply Hp. set_solver.
Qed.

Lemma concat_pages secs : length (concat secs.*2) = sections_pages secs.
Proof. induction secs as [|[ph fs] secs IH]; [done|]. cbn. by rewrite length_app, IH. Qed.

Section first.
Context `{PagingLaws} `{!AlignOps, !AlignLaws} {A : Type} `{!PhysAlloc A, !PhysAllocLaws (A := A)}.

(** [n] more frames, the last three for the stack and the page table, can be allocated. *)
Definition enough_memory (a : A) (n : nat) : Prop :=
  ∀ b : A, (size (phys_used b) < size (phys_used a) + n)%nat →
    is_Some (phys_allocate b) ∧ is_Some (phys_allocate_n b 2).

Lemma create_process_frames garbage idt common pid args elf (a : A) mem r a' mem' :
  create_process garbage idt common pid args elf (a, mem) = Ret (r, (a', mem')) →
  match r with
  | Ok p => elf_image (process_memory p) = elf ∧ ∃ a1,
      phys_allocate_n a 2 = Some (stack_memory (process_memory p), a1) ∧ phys_allocate a1 = Some (p4_addr p, a')
  | Err _ => phys_allocate_n a 2 = None ∨
      ∃ s a1, phys_allocate_n a 2 = Some (s, a1) ∧ phys_allocate a1 = None
  end.
Proof.
  unfold create_process. change (Z.to_nat PROCESS_STACK_SIZE_PAGES) with 2%nat. cbn [fst snd].
  destruct (phys_allocate_n a 2) as [[stack a1]|] eqn:Ea; [|intros E; simplify_eq; by left].
  destruct (create_stack args _) as [[image sp]|] eqn:Es; [|done]. cbn [mbind outcome_bind].
  destruct (phys_allocate a1) as [[pt a2]|] eqn:Eb; intros E.
  - outcome_inv. subst. cbn. split; [done|]. by exists a1.
  - simplify_eq. eauto.
Qed.

Lemma stack_size (a : A) s a1 :
  phys_allocate_n a 2 = Some (s, a1) → size (phys_used a1) = (2 + size (phys_used a))%nat.
Proof.
  intros E. destruct (phys_allocate_n_law a 2 s a1 E) as (Hn & -> & _).
  rewrite size_union by (intros f Hf; apply Hn; by apply elem_of_list_to_set in Hf).
  rewrite size_list_to_set; [done|]. cbn. unfold PAGE_SIZE_BYTES. repeat constructor; set_solver by lia.
Qed.

(** The sections stay as loaded while the stack is written. *)
Lemma sections_kept image phs secs (a a1 : A) mem mem' used stack :
  sections_ok image phs secs used mem → (∀ f, f ∈ concat secs.*2 → f ∈ phys_used a) →
  phys_allocate_n a 2 = Some (stack, a1) →
  (∀ x, ¬ (stack ≤ x < stack + stack_size_bytes) → mem_at mem' x = mem_at mem x) →
  sections_ok image phs secs used mem'.
Proof.
  intros [Hh Hp Hf Hn] Hused Ea Hmem. split; [done|done| |done].
  intros ph fs f Hin Hfs. destruct (Hf ph fs f Hin Hfs) as (? & [? Hd] & Hl). split_and!; [done|done|].
  destruct (phys_allocate_n_law a 2 stack a1 Ea) as (Hfresh & _ & _ & _ & Hsd).
  assert (f ∉ pages_from stack 2) as Hout.
  { intros Hin'. apply (Hfresh f Hin'), Hused, elem_of_concat. exists fs. split; [|done].
    apply list_elem_of_fmap. by exists (ph, fs). }
  intros i Hi. rewrite <- (Hl i Hi). apply Hmem. intros Hx. apply Hout. clear -Hd Hsd Hx Hi.
  destruct Hd as [u ->], Hsd as [v ->]. cbn. unfold stack_size_bytes, PROCESS_STACK_SIZE_PAGES, PAGE_SIZE_BYTES in *.
  assert (u = v ∨ u = v + 1) as [-> | ->] by lia; set_solver by lia.
Qed.

(** The process of the daemon: its registers, its address space, and in memory its program and
    the stack it starts with. *)
Record daemon_ready (image : list Z) (idt common : Z) (used : gset Z) (p : Process ProcMem) (mem : gmap Z Z)
    : Prop := {
  dr_pid : process_id p = ProcessId_first;
  dr_repeat : repeat_syscall p = false;
  dr_table : p4_addr p ∉ used ∧ frame_ok (p4_addr p);
  dr_space : pt_denotes (page_table (process_memory p))
    (process_map idt common (p4_addr p) (stack_memory (process_memory p))
      (ei_sections (elf_image (process_memory p)))) (250 - program_pages (elf_segments image));
  dr_program : sections_ok image (elf_segments image) (ei_sections (elf_image (process_memory p))) used mem;
  dr_pointer : stack_pointer p = PROCESS_STACK_END - args_size_in_memory [] - stack_items_fixed * 8;
  dr_stack i b : stack_image [] (program_entry_pos (read_header (sub_slice image 0 64))) !! i = Some b →
    mem_at mem (stack_memory (process_memory p) +
      (stack_pointer p - PROCESS_STACK + 8 * 16 + Z.of_nat i)) = b;
  dr_below x : 0 ≤ x < stack_pointer p - PROCESS_STACK + 8 * 16 → mem_at mem (stack_memory (process_memory p) + x) = 0;
}.

(** The scheduler with the daemon in its run queue. *)
Definition first_sched (p : Process ProcMem) : Scheduler ProcMem :=
  {| processes := {[ProcessId_first := p]}; queues := Queues.set_running [ProcessId_first] Queues_new;
     sched_running := None; running_timeslice_end := None; next_pid := 2 |}.

Lemma start_serviced_spec garbage idt common rd image (k : kernel (A := A)) :
  k_sched k = Scheduler_new → initrd_read rd "serviced" = Ret (Some image) →
  elf_ok image → program_ok image → frame_ok idt → frame_ok common →
  (∀ (b : A) f b', phys_allocate b = Some (f, b') → f < 2 ^ 47) →
  enough_memory (k_phys k) (program_pages (elf_segments image) + 3) →
  ∃ p a mem, start_serviced garbage idt common rd k = Ret (set_k_sched (first_sched p) (set_k_phys (a, mem) k)) ∧
    daemon_ready image idt common (phys_used (k_phys k)) p mem.
Proof.
  intros Hk Hrd Helf Hprog Hidt Hcom Hlow Hmem. pose proof Hprog as (Hok & Hpages & _).
  unfold start_serviced. rewrite Hrd. cbn [mbind outcome_bind expect].
  destruct (load_elf_spec image (k_phys k) (k_mem k) Helf Hok) as (r & a1 & mem1 & E1 & Hr). rewrite E1.
  destruct r as [e|x].
  2:{ destruct (load_elf_full _ _ _ _ _ Helf Hok E1) as (b & Hb & Hsz). destruct (Hmem b) as [[? ?] _]; [lia|congruence]. }
  destruct Hr as (Hh & Hs & Hu). cbn [mbind outcome_bind expect_ok].
  pose proof (loaded_pages _ _ _ _ _ Hs) as Hlen. pose proof (loaded_section_ok _ _ _ _ Hprog Hs) as Hsec.
  assert (size (phys_used a1) = size (phys_used (k_phys k)) + program_pages (elf_segments image))%nat as Hsize.
  { rewrite Hu, size_union, size_list_to_set, concat_pages, Hlen; [done|apply (so_nodup _ _ _ _ _ Hs)|].
    intros f Hf Hf'. apply elem_of_list_to_set, elem_of_concat in Hf' as (fs & Hfs & Hf').
    apply list_elem_of_fmap in Hfs as ([ph fs'] & -> & Hin).
    by destruct (so_frames _ _ _ _ _ Hs ph fs' f Hin Hf') as [? _]. }
  rewrite Hk. cbn [next_pid Scheduler_new].
  destruct (create_process_spec garbage idt common ProcessId_first [] e a1 mem1)
    as (r & a2 & mem2 & E2 & Hr); [by vm_compute|done|done|done|done|by rewrite Hlen|].
  pose proof (create_process_frames _ _ _ _ _ _ _ _ _ _ _ E2) as Hfr. rewrite E2.
  cbn [mbind outcome_bind]. destruct r as [p|x].
  2:{ exfalso. destruct Hfr as [Hn|(s & b & Hb & Hn)].
      - destruct (Hmem a1) as [_ [? ?]]; [lia|congruence].
      - pose proof (stack_size _ _ _ Hb). destruct (Hmem b) as [[? ?] _]; [lia|congruence]. }
  destruct Hfr as (He & b & Hb & Hpt). destruct Hr as (Hpid & Hrep & Hsp & _ & Hspace & Hstack & _).
  exists p, a2, mem2. split; [done|]. rewrite <- He in *.
  destruct (phys_allocate_law b _ _ Hpt) as (Hpn & _ & Hp52 & Hpd).
  destruct (phys_allocate_n_law a1 2 _ _ Hb) as (_ & Hub & _).
  destruct (create_process_mem garbage idt common ProcessId_first [] (elf_image (process_memory p)) a1 mem1 p a2 mem2)
    as (im & Him & Hat); [by vm_compute|done|].
  split; [done|done| |by rewrite <- Hlen| |done|by rewrite <- Hh|].
  - split; [|done]. intros Hin. apply Hpn. rewrite Hub, Hu, !elem_of_union. by right; left.
  - eapply (sections_kept _ _ _ a1 b mem1 mem2); [done| |done|].
    + intros f Hf. rewrite Hu, elem_of_union, elem_of_list_to_set. by right.
    + intros x Hx. by rewrite Hat, decide_False.
  - intros x Hx. rewrite Hsp in Hx. unfold PROCESS_STACK_END, stack_items_fixed in Hx.
    rewrite Hat, decide_True; [|change (args_size_in_memory []) with 8 in Hx; lia].
    destruct (im !! _) as [v|] eqn:Eb; [|done]. pose proof (block_only _ _ Him _ ltac:(by eexists)) as Hin. cbn [fst snd] in Hin. lia.
Qed.

End first.

(** ** The first tick *)

(** A clock between a megahertz and a hundred gigahertz. *)
Definition clock_usual (clk : Clock) (now : Z) : Prop :=
  10 ^ 6 ≤ clock_freq clk ≤ 10 ^ 11 ∧ 0 ≤ now < 2 ^ 63.

Lemma ticks_usual clk now ns :
  clock_usual clk now → 10 ^ 7 ≤ ns ≤ 10 ^ 8 →
  ∃ t, ns_to_ticks clk ns = Ret t ∧ 0 < t ∧ t * 10 ^ 9 ≤ ns * clock_freq clk ∧ BSPInstant_add_ticks now t = Ret (now + t).
Proof.
  intros [Hf Hn] Hns. destruct (ns_to_ticks_cases clk ns) as (t & Ht & H0 & Hb & Hlo); [unfold year_ns; lia|lia|].
  assert ((10 ^ 7 - 10 ^ 6) * (10 ^ 6 - 1000) ≤ (ns - 10 ^ 6) * (clock_freq clk - 1000)) by (apply Z.mul_le_mono_nonneg; lia).
  assert (ns * clock_freq clk ≤ 10 ^ 8 * 10 ^ 11) by (apply Z.mul_le_mono_nonneg; lia).
  exists t. split_and!; [done|lia|done|]. apply add64_ret. rewrite u64_size_eq. lia.
Qed.

(** The timer can be armed for a slice that starts now. *)
Lemma slice_armed {Mem} clk now (s : Scheduler Mem) t :
  clock_usual clk now → 0 < t →
  running_timeslice_end s = Some (now + t) → wait_sleeping (queues s) = [] →
  ∃ d, Scheduler_next_tick clk now s = Ret (Some d) ∧ (set_deadline clk d now).2 = Ok tt.
Proof.
  intros Hclk Ht He Hw. destruct (ticks_usual clk now MIN_EXEC_TIME_NS Hclk) as (m & Hm & Hm0 & Hmb & Ha);
    [split; vm_compute; discriminate|].
  exists (Z.min (now + t) (now + m)). split.
  - assert (BSPInstant_add_ns clk now MIN_EXEC_TIME_NS = Ret (now + m)) as Hn.
    { unfold BSPInstant_add_ns. rewrite Hm. apply Ha. }
    unfold Scheduler_next_tick, Queues_next_wakeup. rewrite He, Hw. cbn [head fmap option_fmap option_map default].
    rewrite Hn. done.
  - unfold set_deadline. destruct (tsc_supports_deadline_mode clk); [done|].
    unfold BSPInstant_try_ticks_from. rewrite (proj2 (Z.leb_le _ _)) by lia. cbn [default snd].
    replace (Z.min (now + t) (now + m) - now) with (Z.min t m) by lia.
    destruct Hclk as [Hf _]. change MIN_EXEC_TIME_NS with (10 ^ 7) in Hmb.
    unfold id. rewrite Z.mod_small by lia. by destruct (Z.eqb_spec (Z.min t m) 0); [lia|].
Qed.

Lemma first_tick `{PagingOps} clk now (p : Process ProcMem) :
  clock_usual clk now → repeat_syscall p = false →
  ∃ e, arm_timer clk now (Scheduler_tick clk now now (first_sched p)) =
    Ret (Switch (Process_switch_info p),
      set_sched_running (Some ProcessId_first) (Some e) (Scheduler.set_queues Queues_new (first_sched p))).
Proof.
  intros Hclk Hr. destruct (ticks_usual clk now TIME_SLICE_NS Hclk) as (t & Ht & Ht0 & _ & Ha); [split; vm_compute; discriminate|].
  exists (now + t). set (s := set_sched_running _ _ _).
  assert (Scheduler_tick clk now now (first_sched p) = Ret (Switch (Process_switch_info p), s)) as ->.
  { unfold Scheduler_tick, Scheduler_switch. cbn. rewrite Ht. cbn. rewrite Ha. cbn.
    unfold switch_to. unfold ProcessId_first at 1. rewrite lookup_insert_eq. cbn [expect mbind outcome_bind].
    by rewrite Hr. }
  destruct (slice_armed clk now s t Hclk Ht0) as (d & Hd & Hok); [done|done|].
  unfold arm_timer. cbn [mbind outcome_bind]. rewrite Hd. cbn [mbind outcome_bind]. by rewrite Hok.
Qed.

(** The low half of the returned pair is the page table. *)
Lemma pair_low sp pt : 0 ≤ pt < 2 ^ 64 → wrap64 (process_pair_to_u128 sp pt) = pt.
Proof.
  intros Hp. unfold wrap64, process_pair_to_u128. change u64_size with (2 ^ 64).
  rewrite <- Z.land_ones by lia. rewrite Z.land_lor_distr_l, !Z.land_ones by lia.
  rewrite Z.shiftl_mul_pow2, Z.mod_mul by lia. rewrite Z.lor_0_l. by apply Z.mod_small.
Qed.

(** ** Properties *)

(** C15: start-up ends in the service daemon: when the ramdisk holds a valid program for it and
    memory is left for its pages, the kernel does not panic, and the scheduler interrupt enters
    the one process there is, with the page table and stack of a fresh process, the bytes of the
    program in its sections and the entry point on its stack. *)
Theorem first_process_runs `{HO : HashOrder} `{PC : Pinecone} `{PagingLaws} `{!AlignOps, !AlignLaws}
    {A : Type} `{!PhysAlloc A, !PhysAllocLaws (A := A)} {Frame PfCode : Type}
    clk now random garbage idt common rd services message_to_vec
    (encode : ProcessId → ProcessResult Frame PfCode → option (list byte))
    image fuel (k : kernel (A := A))
    (Hk : k_sched k = Scheduler_new) (Hrd : initrd_read rd "serviced" = Ret (Some image))
    (Helf : elf_ok image) (Hprog : program_ok image) (Hidt : frame_ok idt) (Hcom : frame_ok common)
    (Hlow : ∀ (b : A) f b', phys_allocate b = Some (f, b') → f < 2 ^ 47)
    (Hmem : enough_memory (k_phys k) (program_pages (elf_segments image) + 3))
    (Hzero : 0 ∈ phys_used (k_phys k)) (Hclk : clock_usual clk now) :
  ∃ p k', rust_main_end clk now true random garbage idt common rd services message_to_vec encode fuel k =
      leave (ExitReturn (return_process (Process_switch_info p))) k' ∧
    daemon_ready image idt common (phys_used (k_phys k)) p (k_mem k') ∧
    processes (k_sched k') = {[ProcessId_first := p]} ∧ sched_running (k_sched k') = Some ProcessId_first ∧
    running (queues (k_sched k')) = [] ∧ is_Some (running_timeslice_end (k_sched k')).
Proof.
  destruct (start_serviced_spec garbage idt common rd image k Hk Hrd Helf Hprog Hidt Hcom Hlow Hmem)
    as (p & a & mem & E & Hp).
  destruct (first_tick clk now p Hclk (dr_repeat _ _ _ _ _ _ Hp)) as [e Ht].
  unfold rust_main_end. rewrite E. unfold exception_tsc_deadline. cbn [andb k_sched set_k_sched]. rewrite Ht.
  cbn [with_sched idle_switch]. unfold irq_switch, done.
  destruct (dr_table _ _ _ _ _ _ Hp) as [Hn [Hb _]].
  assert (0 ≤ p4_addr p < 2 ^ 64) as Hb' by (clear -Hb; lia).
  unfold return_process. rewrite (pair_low _ (si_p4addr (Process_switch_info p)) Hb').
  destruct (Z.eqb_spec (si_p4addr (Process_switch_info p)) 0) as [Hz|_].
  { destruct Hn. change (p4_addr p = 0) in Hz. by rewrite Hz. }
  eexists p, _. split; [reflexivity|].
  split; [exact Hp|]. split; [reflexivity|]. split; [reflexivity|]. split; [reflexivity|]. by eexists.
Qed.

(** A pair of adjacent frames is free while fewer than half of the frames are in use. *)
Lemma set_alloc_enough : enough_memory ({[0]} : gset Z) 4.
Proof.
  assert (∀ b : gset Z, (size b < 5)%nat →
    ∃ i, (i < 5)%nat ∧ ∀ x, x ∈ b → (x / PAGE_SIZE_BYTES - 8) / 2 ≠ Z.of_nat i) as Hfree.
  { intros b Hb. destruct (decide (Forall (λ i, Z.of_nat i ∈ (λ x, (x / PAGE_SIZE_BYTES - 8) / 2) <$> elements b) (seq 0 5)))
      as [Hall|(i & Hi & Hn)%not_Forall_Exists%Exists_exists]; [|exists i|apply _].
    - exfalso. assert (Z.of_nat <$> seq 0 5 ⊆+ (λ x, (x / PAGE_SIZE_BYTES - 8) / 2) <$> elements b) as Hs.
      { apply NoDup_submseteq; [apply NoDup_fmap; [apply _|apply NoDup_seq]|].
        intros y (i & -> & Hi)%list_elem_of_fmap. rewrite Forall_forall in Hall. by apply Hall. }
      apply submseteq_length in Hs. rewrite !length_fmap, length_seq in Hs. unfold size, set_size in Hb. cbn in Hb. lia.
    - apply elem_of_seq in Hi. split; [lia|]. intros x Hx E. apply Hn, list_elem_of_fmap. exists x. by rewrite elem_of_elements. }
  intros b Hb. cbn [phys_used set_alloc] in Hb. rewrite size_singleton in Hb. destruct (Hfree b) as (i & Hi & Hx); [lia|].
  assert (∀ j, (j < 2)%nat → Z.of_nat (8 + 2 * i) * PAGE_SIZE_BYTES + Z.of_nat j * PAGE_SIZE_BYTES ∉ b) as Hpage.
  { intros j Hj Hin. apply (Hx _ Hin). rewrite <- Z.mul_add_distr_r, Z.div_mul by done.
    symmetry. apply (Z.div_unique_pos _ _ _ (Z.of_nat j)); lia. }
  assert (Z.of_nat (8 + 2 * i) * PAGE_SIZE_BYTES ∈ (λ k, Z.of_nat k * PAGE_SIZE_BYTES) <$> seq 8 64) as Hin.
  { apply list_elem_of_fmap. exists (8 + 2 * i)%nat. split; [done|]. apply elem_of_seq. lia. }
  cbn [phys_allocate phys_allocate_n set_alloc]. split.
  - destruct (list_find_elem_of (.∉ b) _ _ Hin) as [r ->]; [|by eexists].
    specialize (Hpage 0%nat ltac:(lia)). by rewrite Z.mul_0_l, Z.add_0_r in Hpage.
  - destruct (list_find_elem_of (λ f, Forall (.∉ b) (pages_from f 2)) _ _ Hin) as [r ->]; [|by eexists].
    apply Forall_forall. intros g (j & -> & Hj)%list_elem_of_fmap. apply elem_of_seq in Hj. apply Hpage. lia.
Qed.

(** A ramdisk with the example program, and a kernel that has started nothing. *)
Definition example_ramdisk : InitRD :=
  {| files := {["serviced" := {| file_name := "serviced"; file_size := 180; file_offset := 0 |}]};
     slice := example_image |}.

Definition example_booted : kernel (A := gset Z) :=
  MkKernel Scheduler_new Manager_new 0 virt.FREE_LIST example_kernel {[0]} ∅ [] [].

Lemma first_process_runs_witness :
  ∃ p k', rust_main_end (PC := example_pinecone) (Frame := unit) (PfCode := unit) example_clock 0 true 0 ∅
      0x800000 0xa00000 example_ramdisk ∅ (λ _, None) (λ _ _, None) 0 example_booted =
      leave (ExitReturn (return_process (Process_switch_info p))) k' ∧
    daemon_ready example_image 0x800000 0xa00000 (phys_used (k_phys example_booted)) p (k_mem k') ∧
    processes (k_sched k') = {[ProcessId_first := p]} ∧ sched_running (k_sched k') = Some ProcessId_first ∧
    running (queues (k_sched k')) = [] ∧ is_Some (running_timeslice_end (k_sched k')).
Proof.
  apply (first_process_runs (PC := example_pinecone) (Frame := unit) (PfCode := unit) example_clock 0 0 ∅
    0x800000 0xa00000 example_ramdisk ∅ (λ _, None) (λ _ _, None) example_image 0 example_booted).
  - reflexivity.
  - vm_compute. reflexivity.
  - apply example_elf_ok.
  - unfold program_ok. rewrite example_segments. split; [|split; [vm_compute; lia|]].
    + intros ph ->%list_elem_of_singleton _. unfold segment_ok. cbn.
      split_and!; try lia; vm_compute; (reflexivity || discriminate).
    + intros ph ->%list_elem_of_singleton _. cbn [virtual_address example_segment].
      split; [lia|]. split; [by exists 8|]. split; [vm_compute; discriminate|reflexivity].
  - split; [lia|by exists 4].
  - split; [lia|by exists 5].
  - apply set_alloc_low.
  - rewrite example_segments. exact set_alloc_enough.
  - vm_compute. reflexivity.
  - split; [split; vm_compute; discriminate|lia].
Defined.
