(* ===== verification/Processor.v ===== *)
(** * Processor: the instructions of the trampoline

    A processor with its registers, its control registers and physical memory, and the instructions
    that src/asm_misc/process_common.asm and [process_interrupt] of src/interrupt/handler.rs use.
    [walk] is the translation of the processor under a page table.  Of the flags the result of the
    last comparison is kept, and apart from that the value they are saved with.  The lemmas describe
    a stack that is mapped at a fixed distance from physical memory. *)

From stdpp Require Import base gmap list strings.
From Stdlib Require Import ZArith Lia.
From S2P Require Import Prelude Bytes Args ProcessMem Elf.
Open Scope Z_scope.

(** ** The processor *)

Inductive reg :=
| rax | rbx | rcx | rdx | rsi | rdi | rbp | rsp
| r8 | r9 | r10 | r11 | r12 | r13 | r14 | r15.

#[global] Instance reg_eq_dec : EqDecision reg.
Proof. solve_decision. Defined.

(** The stack frame of an interrupt, in the order of its addresses. *)
Record iframe := MkFrame { f_rip : Z; f_cs : Z; f_rflags : Z; f_rsp : Z; f_ss : Z }.

(** The sixteen registers. *)
Record gprs := MkGprs {
  g_rax : Z; g_rbx : Z; g_rcx : Z; g_rdx : Z; g_rsi : Z; g_rdi : Z; g_rbp : Z; g_rsp : Z;
  g_r8 : Z; g_r9 : Z; g_r10 : Z; g_r11 : Z; g_r12 : Z; g_r13 : Z; g_r14 : Z; g_r15 : Z;
}.

Definition gget (g : gprs) (r : reg) : Z :=
  match r with
  | rax => g_rax g | rbx => g_rbx g | rcx => g_rcx g | rdx => g_rdx g | rsi => g_rsi g | rdi => g_rdi g
  | rbp => g_rbp g | rsp => g_rsp g | r8 => g_r8 g | r9 => g_r9 g | r10 => g_r10 g | r11 => g_r11 g
  | r12 => g_r12 g | r13 => g_r13 g | r14 => g_r14 g | r15 => g_r15 g
  end.

Definition gprs_of (f : reg → Z) : gprs :=
  MkGprs (f rax) (f rbx) (f rcx) (f rdx) (f rsi) (f rdi) (f rbp) (f rsp)
    (f r8) (f r9) (f r10) (f r11) (f r12) (f r13) (f r14) (f r15).

Definition gput (g : gprs) (r : reg) (v : Z) : gprs :=
  gprs_of (λ r', if decide (r' = r) then v else gget g r').

Record machine := MkMachine {
  m_regs : gprs;
  m_rip : Z; m_cs : Z; m_rflags : Z; m_ss : Z;
  m_cr3 : Z;
  m_gdtr : Z * Z; m_idtr : Z * Z;
  m_cmp : comparison;
  m_mem : gmap Z Z;
}.

Definition get (m : machine) (r : reg) : Z := gget (m_regs m) r.

Definition set_regs (g : gprs) (m : machine) : machine :=
  MkMachine g (m_rip m) (m_cs m) (m_rflags m) (m_ss m) (m_cr3 m) (m_gdtr m) (m_idtr m) (m_cmp m) (m_mem m).
Definition set_reg (r : reg) (v : Z) (m : machine) : machine := set_regs (gput (m_regs m) r v) m.
Definition set_mem (mem : gmap Z Z) (m : machine) : machine :=
  MkMachine (m_regs m) (m_rip m) (m_cs m) (m_rflags m) (m_ss m) (m_cr3 m) (m_gdtr m) (m_idtr m) (m_cmp m) mem.
Definition set_cr3 (v : Z) (m : machine) : machine :=
  MkMachine (m_regs m) (m_rip m) (m_cs m) (m_rflags m) (m_ss m) v (m_gdtr m) (m_idtr m) (m_cmp m) (m_mem m).
Definition set_gdtr (v : Z * Z) (m : machine) : machine :=
  MkMachine (m_regs m) (m_rip m) (m_cs m) (m_rflags m) (m_ss m) (m_cr3 m) v (m_idtr m) (m_cmp m) (m_mem m).
Definition set_idtr (v : Z * Z) (m : machine) : machine :=
  MkMachine (m_regs m) (m_rip m) (m_cs m) (m_rflags m) (m_ss m) (m_cr3 m) (m_gdtr m) v (m_cmp m) (m_mem m).
Definition set_cmp (c : comparison) (m : machine) : machine :=
  MkMachine (m_regs m) (m_rip m) (m_cs m) (m_rflags m) (m_ss m) (m_cr3 m) (m_gdtr m) (m_idtr m) c (m_mem m).
(** The stack pointer is part of the frame. *)
Definition set_frame (f : iframe) (m : machine) : machine :=
  MkMachine (gput (m_regs m) rsp (f_rsp f)) (f_rip f) (f_cs f) (f_rflags f) (f_ss f)
    (m_cr3 m) (m_gdtr m) (m_idtr m) (m_cmp m) (m_mem m).
Definition frame_of (m : machine) : iframe :=
  MkFrame (m_rip m) (m_cs m) (m_rflags m) (get m rsp) (m_ss m).

Inductive cond := jl | je | jle.

Inductive instr :=
| Push (r : reg) | PushImm (v : Z) | PushWord (v : Z)
| Pop (r : reg)
| Mov (d s : reg) | MovImm (d : reg) (v : Z) | Load (d b : reg) (disp : Z)
| MovFromCr3 (d : reg) | MovToCr3 (s : reg)
| Lgdt (b : reg) | Lidt (b : reg)
| AddImm (d : reg) (v : Z) | SubImm (d : reg) (v : Z)
| Imul32 (d : reg) (v : Z) | Shr32 (d : reg) (n : Z)
| Cmp (r : reg) (v : Z).

Inductive line :=
| L (name : string)
| I (i : instr)
| J (c : cond) (target : string) | Jmp (target : string)
| CallHandler
| Iretq.

(** A signed reading of a 64-bit word. *)
Definition signed64 (v : Z) : Z := if v <? 2 ^ 63 then v else v - 2 ^ 64.

Section processor.
Context (walk : Z → Z → option Z).

(** [n] bytes at a virtual address; [None] is a page fault. *)
Definition phys_bytes (pt va n : Z) : option (list Z) := mapM (walk pt) (seqZ va n).

Definition load (n : Z) (va : Z) (m : machine) : option Z :=
  pas ← phys_bytes (m_cr3 m) va n; Some (from_le (mem_at (m_mem m) <$> pas)).

Definition store (n : Z) (va v : Z) (m : machine) : option machine :=
  pas ← phys_bytes (m_cr3 m) va n;
  Some (set_mem (foldr (λ '(a, b) mem, <[a := b]> mem) (m_mem m) (zip pas (to_le (Z.to_nat n) v))) m).

Definition push (n v : Z) (m : machine) : option machine :=
  let sp := wrap64 (get m rsp - n) in
  m ← store n sp v m; Some (set_reg rsp sp m).

Definition pop (n : Z) (m : machine) : option (Z * machine) :=
  v ← load n (get m rsp) m; Some (v, set_reg rsp (wrap64 (get m rsp + n)) m).

(** The operand of [lgdt] and [lidt]: limit and base. *)
Definition load_descriptor (va : Z) (m : machine) : option (Z * Z) :=
  limit ← load 2 va m; base ← load 8 (va + 2) m; Some (limit, base).

Definition exec (i : instr) (m : machine) : option machine :=
  match i with
  | Push r => push 8 (get m r) m
  | PushImm v => push 8 v m
  | PushWord v => push 2 v m
  | Pop r => '(v, m) ← pop 8 m; Some (set_reg r v m)
  | Mov d s => Some (set_reg d (get m s) m)
  | MovImm d v => Some (set_reg d v m)
  | Load d b disp => v ← load 8 (wrap64 (get m b + disp)) m; Some (set_reg d v m)
  | MovFromCr3 d => Some (set_reg d (m_cr3 m) m)
  | MovToCr3 s => Some (set_cr3 (get m s) m)
  | Lgdt b => d ← load_descriptor (get m b) m; Some (set_gdtr d m)
  | Lidt b => d ← load_descriptor (get m b) m; Some (set_idtr d m)
  | AddImm d v => Some (set_reg d (wrap64 (get m d + v)) m)
  | SubImm d v => Some (set_reg d (wrap64 (get m d - v)) m)
  | Imul32 d v => Some (set_reg d ((get m d mod 2 ^ 32 * v) mod 2 ^ 32) m)
  | Shr32 d n => Some (set_reg d (Z.shiftr (get m d mod 2 ^ 32) n) m)
  | Cmp r v => Some (set_cmp (signed64 (get m r) ?= v) m)
  end.

Fixpoint execs (l : list instr) (m : machine) : option machine :=
  match l with [] => Some m | i :: l => m ← exec i m; execs l m end.

Definition taken_jump (c : cond) (o : comparison) : bool :=
  match c, o with
  | jl, Lt | je, Eq | jle, Lt | jle, Eq => true
  | _, _ => false
  end.

(** [iretq] *)
Definition iretq (m : machine) : option machine :=
  '(f_rip, m) ← pop 8 m;
  '(f_cs, m) ← pop 8 m;
  '(f_rflags, m) ← pop 8 m;
  '(f_rsp, m) ← pop 8 m;
  '(f_ss, m) ← pop 8 m;
  Some (set_frame (MkFrame f_rip f_cs f_rflags f_rsp f_ss) m).

(** An interrupt in 64-bit mode without a change of privilege or stack table: the stack is
    aligned, the frame and for some vectors an error code are pushed, interrupts are masked. *)
Definition has_error_code (n : Z) : bool := bool_decide (n ∈ [0x08; 0x0a; 0x0b; 0x0c; 0x0d; 0x0e; 0x11; 0x1e]).

Definition cpu_interrupt (n error_code : Z) (m : machine) : option machine :=
  let f := frame_of m in
  let m := set_reg rsp (f_rsp f - f_rsp f mod 16) m in
  m ← push 8 (f_ss f) m;
  m ← push 8 (f_rsp f) m;
  m ← push 8 (f_rflags f) m;
  m ← push 8 (f_cs f) m;
  m ← push 8 (f_rip f) m;
  if has_error_code n then push 8 error_code m else Some m.

End processor.

(** ** Lemmas on registers and memory *)

Lemma gget_of f r : gget (gprs_of f) r = f r.
Proof. by destruct r. Qed.

Lemma get_set_reg m r v r' : get (set_reg r v m) r' = if decide (r' = r) then v else get m r'.
Proof. apply gget_of. Qed.

Lemma get_set_eq m r v : get (set_reg r v m) r = v.
Proof. by rewrite get_set_reg, decide_True. Qed.

Lemma get_set_ne m r v r' : r' ≠ r → get (set_reg r v m) r' = get m r'.
Proof. intros Hr. by rewrite get_set_reg, decide_False. Qed.

Lemma set_reg_set m r v w : set_reg r v (set_reg r w m) = set_reg r v m.
Proof. by destruct r. Qed.

Lemma set_reg_comm m r r' v w : r ≠ r' → set_reg r v (set_reg r' w m) = set_reg r' w (set_reg r v m).
Proof. by destruct r, r'. Qed.

Lemma set_reg_get m r : set_reg r (get m r) m = m.
Proof. destruct m as [[] ???? ? ?? ? ?]. by destruct r. Qed.

Definition word (mem : gmap Z Z) (a : Z) : Z := from_le (mem_at mem <$> seqZ a 8).

(** Words one after the other. *)
Definition words (mem : gmap Z Z) (a : Z) (ws : list Z) : Prop :=
  ∀ i w, ws !! i = Some w → word mem (a + 8 * Z.of_nat i) = w.

(** Only the [n] bytes at [a] may differ. *)
Definition changed (mem : gmap Z Z) (a n : Z) (mem' : gmap Z Z) : Prop :=
  ∀ x, ¬ (a ≤ x < a + n) → mem_at mem' x = mem_at mem x.

Lemma bytes_ext mem mem' a n :
  (∀ x, a ≤ x < a + n → mem_at mem' x = mem_at mem x) → mem_at mem' <$> seqZ a n = mem_at mem <$> seqZ a n.
Proof. intros Hx. apply list_fmap_ext. intros i x Hi%lookup_seqZ. apply Hx. lia. Qed.

Lemma word_ext mem mem' a : (∀ x, a ≤ x < a + 8 → mem_at mem' x = mem_at mem x) → word mem' a = word mem a.
Proof. intros Hx. unfold word. f_equal. by apply bytes_ext. Qed.

Lemma words_ext mem mem' a ws :
  (∀ x, a ≤ x < a + 8 * Z.of_nat (length ws) → mem_at mem' x = mem_at mem x) → words mem a ws → words mem' a ws.
Proof.
  intros Hx Hw i w Hi. rewrite <- (Hw i w Hi). apply word_ext. intros x Hr. apply Hx.
  apply lookup_lt_Some in Hi. lia.
Qed.

Lemma words_cons mem a w ws : words mem a (w :: ws) ↔ word mem a = w ∧ words mem (a + 8) ws.
Proof.
  split.
  - intros Hw. split; [rewrite <- (Hw 0%nat w eq_refl); f_equal; lia|].
    intros i x Hi. rewrite <- (Hw (S i) x Hi). f_equal. lia.
  - intros [H1 H2] [|i] x Hi; cbn in Hi; [injection Hi as <-; rewrite <- H1; f_equal; lia|].
    rewrite <- (H2 i x Hi). f_equal. lia.
Qed.

Lemma words_app mem a ws ws' :
  words mem a (ws ++ ws') ↔ words mem a ws ∧ words mem (a + 8 * Z.of_nat (length ws)) ws'.
Proof.
  revert a. induction ws as [|w ws IH]; intros a; cbn [app length].
  - rewrite Z.mul_0_r, Z.add_0_r. split; [intros ?; by split; [intros ? ? ?|]|by intros [_ ?]].
  - rewrite !words_cons, IH. replace (a + 8 + 8 * Z.of_nat (length ws)) with (a + 8 * Z.of_nat (S (length ws))) by lia.
    naive_solver.
Qed.

Lemma changed_refl mem a n : changed mem a n mem.
Proof. by intros x _. Qed.

Lemma changed_trans mem a n mem1 b k mem2 c l :
  changed mem a n mem1 → changed mem1 b k mem2 → c ≤ a → a + n ≤ c + l → c ≤ b → b + k ≤ c + l → changed mem c l mem2.
Proof. intros H1 H2 ? ? ? ? x Hx. rewrite H2, H1 by lia. done. Qed.

Lemma write_changed mem a n v : changed mem a (Z.of_nat n) (write_bytes mem a (to_le n v)).
Proof. intros x Hx. rewrite write_bytes_at, to_le_length, decide_False by done. done. Qed.

Lemma write_back mem a n v :
  mem_at (write_bytes mem a (to_le n v)) <$> seqZ a (Z.of_nat n) = to_le n v.
Proof.
  apply list_eq. intros i. rewrite list_lookup_fmap. destruct (decide (i < n)%nat) as [Hi|Hi].
  - rewrite lookup_seqZ_lt by lia. cbn. rewrite write_bytes_at, to_le_length, decide_True by lia.
    replace (Z.to_nat (a + Z.of_nat i - a)) with i by lia.
    destruct (lookup_lt_is_Some_2 (to_le n v) i) as [b Hb]; [by rewrite to_le_length|by rewrite Hb].
  - rewrite lookup_seqZ_ge by lia. cbn. symmetry. apply lookup_ge_None_2. rewrite to_le_length. lia.
Qed.

Lemma word_write mem a v : is_u64 v → word (write_bytes mem a (to_le 8 v)) a = v.
Proof.
  intros Hv. unfold word. pose proof (write_back mem a 8 v) as E. change (Z.of_nat 8) with 8 in E. rewrite E, from_le_to_le.
  by apply Z.mod_small.
Qed.

Lemma word_write_wrap mem a v : word (write_bytes mem a (to_le 8 v)) a = wrap64 v.
Proof.
  unfold word. pose proof (write_back mem a 8 v) as E. change (Z.of_nat 8) with 8 in E. by rewrite E, from_le_to_le.
Qed.

Lemma word_write_ne mem a b v : a + 8 ≤ b ∨ b + 8 ≤ a → word (write_bytes mem b (to_le 8 v)) a = word mem a.
Proof. intros Hab. apply word_ext. intros x Hx. apply (write_changed mem b 8). lia. Qed.

Lemma word_read mem a : word mem a = from_le (mem_read mem a 8).
Proof.
  unfold word, mem_read. f_equal. apply list_eq. intros i. rewrite !list_lookup_fmap.
  destruct (decide (Z.of_nat i < 8)); [|by rewrite !lookup_seqZ_ge by lia].
  by rewrite !lookup_seqZ_lt, Z.add_0_l by lia.
Qed.

Lemma word_u64 mem a : (∀ x, is_byte (mem_at mem x)) → is_u64 (word mem a).
Proof.
  intros Hb. unfold word. pose proof (from_le_bound (mem_at mem <$> seqZ a 8)) as Hf. rewrite length_fmap, length_seqZ in Hf.
  apply Hf, Forall_forall. by intros x (y & -> & _)%list_elem_of_fmap.
Qed.

(** ** Lemmas on the stack *)

Section stack.
Context (walk : Z → Z → option Z).

(** The addresses from [lo] to [hi] are mapped at a fixed distance. *)
Definition linear (pt lo hi d : Z) : Prop :=
  0 ≤ lo ∧ hi ≤ u64_max ∧ ∀ a, lo ≤ a < hi → walk pt a = Some (a + d).

Lemma phys_bytes_linear pt lo hi d va n :
  linear pt lo hi d → lo ≤ va → va + n ≤ hi → phys_bytes walk pt va n = Some (seqZ (va + d) n).
Proof.
  intros (_ & _ & Hw) Hlo Hhi. unfold phys_bytes. apply mapM_Some. apply Forall2_same_length_lookup_2.
  - by rewrite !length_seqZ.
  - intros i x y Hx%lookup_seqZ Hy%lookup_seqZ. rewrite Hw by lia. f_equal. lia.
Qed.

Lemma write_zip mem pa bs :
  foldr (λ '(a, b) mem, <[a := b]> mem) mem (zip (seqZ pa (Z.of_nat (length bs))) bs) = write_bytes mem pa bs.
Proof.
  revert pa. induction bs as [|b bs IH]; intros pa; [by rewrite zip_with_nil_r|].
  rewrite seqZ_cons by (cbn [length]; lia). cbn [zip zip_with foldr write_bytes].
  replace (Z.pred (Z.of_nat (length (b :: bs)))) with (Z.of_nat (length bs)) by (cbn [length]; lia).
  change (Z.succ pa) with (pa + 1). by rewrite IH.
Qed.

Lemma load_linear lo hi d n va m :
  linear (m_cr3 m) lo hi d → lo ≤ va → va + n ≤ hi →
  load walk n va m = Some (from_le (mem_at (m_mem m) <$> seqZ (va + d) n)).
Proof. intros. unfold load. by erewrite phys_bytes_linear. Qed.

Lemma load_word lo hi d va m :
  linear (m_cr3 m) lo hi d → lo ≤ va → va + 8 ≤ hi → load walk 8 va m = Some (word (m_mem m) (va + d)).
Proof. apply load_linear. Qed.

Lemma store_linear lo hi d n va v m :
  linear (m_cr3 m) lo hi d → lo ≤ va → va + Z.of_nat n ≤ hi →
  store walk (Z.of_nat n) va v m = Some (set_mem (write_bytes (m_mem m) (va + d) (to_le n v)) m).
Proof.
  intros. unfold store. erewrite phys_bytes_linear by done. cbn [mbind option_bind]. rewrite Nat2Z.id.
  do 2 f_equal. rewrite <- (write_zip (m_mem m)), to_le_length. done.
Qed.

(** Moving the stack pointer and changing memory, nothing else. *)
Definition on_stack (sp : Z) (mem : gmap Z Z) (m : machine) : machine := set_reg rsp sp (set_mem mem m).

Lemma push_run lo hi d (n : nat) v m :
  linear (m_cr3 m) lo hi d → lo ≤ get m rsp - Z.of_nat n → get m rsp ≤ hi →
  push walk (Z.of_nat n) v m =
    Some (on_stack (get m rsp - Z.of_nat n) (write_bytes (m_mem m) (get m rsp - Z.of_nat n + d) (to_le n v)) m).
Proof.
  intros Hl Hlo Hhi. pose proof Hl as (H0 & H64 & _). unfold push. rewrite wrap64_small by (unfold is_u64, u64_max in *; lia).
  by erewrite store_linear by (done || lia).
Qed.

Fixpoint pushes (vs : list Z) (m : machine) : option machine :=
  match vs with [] => Some m | v :: vs => m ← push walk 8 v m; pushes vs m end.

Lemma pushes_spec lo hi d vs m :
  let sp := get m rsp - 8 * Z.of_nat (length vs) in
  linear (m_cr3 m) lo hi d → lo ≤ sp → get m rsp ≤ hi → Forall is_u64 vs →
  ∃ mem, pushes vs m = Some (on_stack sp mem m) ∧ words mem (sp + d) (reverse vs) ∧
    changed (m_mem m) (sp + d) (8 * Z.of_nat (length vs)) mem.
Proof.
  revert m. induction vs as [|v vs IH]; intros m sp Hl Hlo Hhi Hvs.
  { exists (m_mem m). cbn in sp. split_and!; [|by intros i w ?|apply changed_refl]. unfold on_stack, sp.
    rewrite Z.sub_0_r. by destruct m as [[] ???? ? ?? ? ?]. }
  apply Forall_cons in Hvs as [Hv Hvs]. cbn [length] in sp.
  change 8 with (Z.of_nat 8) in sp.
  cbn [pushes]. pose proof (push_run lo hi d 8 v m Hl) as Hp. change (Z.of_nat 8) with 8 in *.
  rewrite Hp by (unfold sp in *; lia). cbn [mbind option_bind].
  set (mem1 := write_bytes _ _ _). set (m1 := on_stack (get m rsp - 8) mem1 m).
  assert (get m1 rsp = get m rsp - 8) as Hsp by apply get_set_eq.
  destruct (IH m1) as (mem & E & Hw & Hc); [done|rewrite Hsp; unfold sp in *; lia|rewrite Hsp; lia|done|].
  rewrite Hsp in E, Hw, Hc. replace (get m rsp - 8 - 8 * Z.of_nat (length vs)) with sp in E, Hw, Hc by (unfold sp; lia).
  exists mem. split_and!.
  - rewrite E. reflexivity.
  - rewrite reverse_cons. apply words_app. split; [done|]. rewrite length_reverse. apply words_cons. split; [|by intros i w ?].
    rewrite (word_ext mem1); [|intros x Hx; apply Hc; lia].
    replace (sp + d + 8 * Z.of_nat (length vs)) with (get m rsp - 8 + d) by (unfold sp; lia). by apply word_write.
  - eapply changed_trans; [apply (write_changed (m_mem m) (get m rsp - 8 + d) 8 v)|exact Hc|unfold sp; cbn [length]; lia..].
Qed.

Lemma push_get n v m m' r : push walk n v m = Some m' → r ≠ rsp → get m' r = get m r.
Proof.
  unfold push, store. intros E Hr. destruct (phys_bytes _ _ _ _); [|done]. cbn in E. injection E as <-.
  by rewrite get_set_ne.
Qed.

Lemma execs_app l l' m : execs walk (l ++ l') m = (m' ← execs walk l m; execs walk l' m').
Proof. revert m. induction l as [|i l IH]; intros m; [done|]. cbn. destruct (exec walk i m); [apply IH|done]. Qed.

Lemma execs_push rs m : rsp ∉ rs → execs walk (Push <$> rs) m = pushes (get m <$> rs) m.
Proof.
  revert m. induction rs as [|r rs IH]; intros m Hrs; [done|]. apply not_elem_of_cons in Hrs as [Hr Hrs].
  cbn [fmap list_fmap execs pushes exec]. destruct (push walk 8 (get m r) m) as [m1|] eqn:E; [|done].
  cbn [mbind option_bind]. rewrite IH by done. f_equal. apply list_fmap_ext. intros i x Hx.
  eapply push_get; [done|]. intros ->. apply Hrs. by eapply list_elem_of_lookup_2.
Qed.

Fixpoint load_regs (rs : list reg) (ws : list Z) (m : machine) : machine :=
  match rs, ws with
  | r :: rs, w :: ws => load_regs rs ws (set_reg r w m)
  | _, _ => m
  end.

Lemma load_regs_rsp rs ws a m : rsp ∉ rs → load_regs rs ws (set_reg rsp a m) = set_reg rsp a (load_regs rs ws m).
Proof.
  revert ws m. induction rs as [|r rs IH]; intros [|w ws] m Hrs; try done.
  apply not_elem_of_cons in Hrs as [Hr Hrs]. cbn [load_regs]. by rewrite set_reg_comm, IH.
Qed.

Lemma pop_run lo hi d m :
  linear (m_cr3 m) lo hi d → lo ≤ get m rsp → get m rsp + 8 ≤ hi →
  pop walk 8 m = Some (word (m_mem m) (get m rsp + d), set_reg rsp (get m rsp + 8) m).
Proof.
  intros Hl Hlo Hhi. pose proof Hl as (H0 & H64 & _). unfold pop. erewrite load_word by done.
  cbn [mbind option_bind]. by rewrite wrap64_small by (unfold is_u64, u64_max in *; lia).
Qed.

Lemma execs_pop lo hi d rs ws m :
  linear (m_cr3 m) lo hi d → lo ≤ get m rsp → get m rsp + 8 * Z.of_nat (length rs) ≤ hi →
  length ws = length rs → rsp ∉ rs → words (m_mem m) (get m rsp + d) ws →
  execs walk (Pop <$> rs) m = Some (set_reg rsp (get m rsp + 8 * Z.of_nat (length rs)) (load_regs rs ws m)).
Proof.
  revert ws m. induction rs as [|r rs IH]; intros [|w ws] m Hl Hlo Hhi Hlen Hrs Hw; try done.
  { cbn [fmap list_fmap execs load_regs]. change (8 * Z.of_nat (length [])) with 0. by rewrite Z.add_0_r, set_reg_get. }
  apply not_elem_of_cons in Hrs as [Hr Hrs]. apply words_cons in Hw as [Hw1 Hw]. cbn [length] in *.
  cbn [fmap list_fmap execs exec]. erewrite pop_run by (done || lia). cbn [mbind option_bind]. rewrite Hw1.
  set (m1 := set_reg r w _). assert (get m1 rsp = get m rsp + 8) as Hsp.
  { unfold m1. by rewrite get_set_ne, get_set_eq. }
  rewrite (IH ws m1); [|done|rewrite Hsp; lia|rewrite Hsp; lia|lia|done|].
  2:{ rewrite Hsp. by replace (get m rsp + 8 + d) with (get m rsp + d + 8) by lia. }
  f_equal. rewrite Hsp. unfold m1. cbn [load_regs]. rewrite (set_reg_comm _ r) by done.
  rewrite load_regs_rsp, set_reg_set by done. f_equal. lia.
Qed.

(** Loading a descriptor table from the stack. *)
Lemma table_block (gdt : bool) r base limit lo hi d m :
  r ≠ rsp → linear (m_cr3 m) lo hi d → lo ≤ get m rsp - 10 → get m rsp ≤ hi →
  0 ≤ limit < 2 ^ 16 → is_u64 base →
  ∃ mem, execs walk [PushImm base; PushWord limit; Mov r rsp; if gdt then Lgdt r else Lidt r; AddImm rsp 10] m =
      Some ((if gdt then set_gdtr else set_idtr) (limit, base) (set_reg r (get m rsp - 10) (set_mem mem m))) ∧
    changed (m_mem m) (get m rsp - 10 + d) 10 mem.
Proof.
  intros Hr Hl Hlo Hhi Hlim Hbase. pose proof Hl as (H0 & H64 & _). cbn [execs exec].
  pose proof (push_run lo hi d 8 base m Hl) as E. change (Z.of_nat 8) with 8 in E. rewrite E by lia. clear E.
  cbn [mbind option_bind]. set (mem1 := write_bytes _ _ _). set (m1 := on_stack (get m rsp - 8) mem1 m).
  assert (get m1 rsp = get m rsp - 8) as Hsp by apply get_set_eq.
  pose proof (push_run lo hi d 2 limit m1 Hl) as E. change (Z.of_nat 2) with 2 in E. rewrite E by lia. clear E.
  cbn [mbind option_bind]. rewrite !Hsp. replace (get m rsp - 8 - 2) with (get m rsp - 10) by lia.
  set (mem2 := write_bytes _ _ _). set (m2 := set_reg r _ (on_stack _ mem2 m1)).
  assert (m_mem m2 = mem2 ∧ m_cr3 m2 = m_cr3 m) as [Hm2 Hc2] by done.
  assert (get m2 r = get m rsp - 10) as Hr2.
  { unfold m2. rewrite get_set_eq. apply get_set_eq. }
  assert (load_descriptor walk (get m2 r) m2 = Some (limit, base)) as Hd.
  { unfold load_descriptor. rewrite Hr2. rewrite (load_linear lo hi d 2 (get m rsp - 10) m2) by (rewrite ?Hc2; done || lia). cbn [mbind option_bind].
    rewrite Hm2. pose proof (write_back (m_mem m1) (get m rsp - 10 + d) 2 limit) as Hb. change (Z.of_nat 2) with 2 in Hb.
    unfold mem2. rewrite Hb, from_le_to_le, Z.mod_small by done. fold mem2.
    rewrite (load_word lo hi d (get m rsp - 10 + 2) m2) by (rewrite ?Hc2; done || lia). cbn [mbind option_bind].
    do 2 f_equal. rewrite Hm2.
    replace (get m rsp - 10 + 2 + d) with (get m rsp - 8 + d) by lia.
    rewrite (word_ext mem1); [by apply word_write|]. intros x Hx. apply (write_changed _ _ 2). lia. }
  exists mem2. split.
  - assert (get m2 rsp = get m rsp - 10) as Hs2 by (unfold m2; rewrite get_set_ne by done; apply get_set_eq).
    assert (wrap64 (get m2 rsp + 10) = get m rsp) as Hw.
    { rewrite Hs2, wrap64_small; [lia|unfold is_u64, u64_max in *; lia]. }
    assert (set_reg rsp (get m rsp) m2 = set_reg r (get m rsp - 10) (set_mem mem2 m)) as Hm.
    { unfold m2, on_stack. rewrite get_set_eq, set_reg_comm, set_reg_set by done. by f_equal. }
    destruct gdt; cbn [exec]; rewrite Hd; cbn [mbind option_bind];
      [change (get (set_gdtr ?x m2) rsp) with (get m2 rsp)|change (get (set_idtr ?x m2) rsp) with (get m2 rsp)];
      rewrite Hw, <- Hm; done.
  - eapply changed_trans; [apply (write_changed (m_mem m) (get m rsp - 8 + d) 8 base)
      |apply (write_changed mem1 (get m rsp - 10 + d) 2 limit)|lia..].
Qed.

End stack.

Lemma iretq_spec walk lo hi d f m :
  linear walk (m_cr3 m) lo hi d → lo ≤ get m rsp → get m rsp + 5 * 8 ≤ hi →
  words (m_mem m) (get m rsp + d) [f_rip f; f_cs f; f_rflags f; f_rsp f; f_ss f] →
  iretq walk m = Some (set_frame f m).
Proof.
  intros Hl Hlo Hhi Hw. rewrite !words_cons in Hw. destruct Hw as (H1 & H2 & H3 & H4 & H5 & _).
  assert (∀ k w, 0 ≤ k ≤ 4 → word (m_mem m) (get m rsp + d + 8 * k) = w →
    pop walk 8 (set_reg rsp (get m rsp + 8 * k) m) = Some (w, set_reg rsp (get m rsp + 8 * (k + 1)) m)) as Hpop.
  { intros k w Hk <-. rewrite (pop_run walk lo hi d) by (rewrite ?get_set_eq; done || lia).
    rewrite get_set_eq, set_reg_set. do 2 f_equal; [|f_equal; lia].
    change (m_mem (set_reg rsp (get m rsp + 8 * k) m)) with (m_mem m). f_equal. lia. }
  unfold iretq. rewrite <- (set_reg_get m rsp) at 1. replace (get m rsp) with (get m rsp + 8 * 0) at 1 by lia.
  rewrite (Hpop 0 (f_rip f)) by (lia || by rewrite Z.mul_0_r, Z.add_0_r). cbn [mbind option_bind].
  rewrite (Hpop (0 + 1) (f_cs f)) by (lia || (rewrite <- H2; f_equal; lia)). cbn [mbind option_bind].
  rewrite (Hpop (0 + 1 + 1) (f_rflags f)) by (lia || (rewrite <- H3; f_equal; lia)). cbn [mbind option_bind].
  rewrite (Hpop (0 + 1 + 1 + 1) (f_rsp f)) by (lia || (rewrite <- H4; f_equal; lia)). cbn [mbind option_bind].
  rewrite (Hpop (0 + 1 + 1 + 1 + 1) (f_ss f)) by (lia || (rewrite <- H5; f_equal; lia)). cbn [mbind option_bind].
  by destruct f.
Qed.
