(* ===== verification/Trampoline.v ===== *)
(** * Trampoline: entering and leaving a process (src/asm_misc/process_common.asm, and
    [process_interrupt] in src/interrupt/handler.rs)

    The code that is mapped in every address space saves the registers of the interrupted process
    on its stack, changes to the page tables and the stack of the kernel, calls the handler, and
    resumes the process the handler returns.  The listings are data, run by an interpreter on fuel,
    of which there is one unit for each line.  The kernel function that is called is a parameter. *)

From stdpp Require Import base gmap list strings.
From Stdlib Require Import ZArith Lia.
From S2P Require Import Prelude Bytes Args ProcessMem Elf Processor.
Open Scope Z_scope.

(** ** process_common.asm *)

(** [push_all] and [pop_all] *)
Definition push_all_order : list reg :=
  [rbp; r15; r14; r13; r12; r11; r10; r9; r8; rdi; rsi; rdx; rcx; rbx; rax].
Definition pop_all_order : list reg :=
  [rax; rbx; rcx; rdx; rsi; rdi; r8; r9; r10; r11; r12; r13; r14; r15; rbp].
Definition push_all_code : list instr := Push <$> push_all_order.
Definition pop_all_code : list instr := Pop <$> pop_all_order.
Definition stack_stored_registers : Z := 15.

Definition interrupt_handler_ptr_addr : Z := 0xa000.
Definition page_table_physaddr : Z := 0x10000000.
Definition kernel_syscall_stack : Z := 0x11000000.
Definition kernel_syscall_stack_size : Z := 0x20000.
Definition kernel_syscall_stack_end : Z := kernel_syscall_stack + kernel_syscall_stack_size.
Definition IDT_ADDR : Z := 0x0.
Definition KERNEL_GDT_ADDR : Z := 0x4000.

Definition switch_to_code : list line :=
  [ L "switch_to";
    I (Push rax);
    I (PushImm 0x1000); I (PushWord (8 * 2 - 1)); I (Mov rax rsp); I (Lgdt rax); I (AddImm rsp 10);
    I (PushImm 0); I (PushWord (0x100 * 16 - 1)); I (Mov rax rsp); I (Lidt rax); I (AddImm rsp 10);
    I (Pop rax);
    I (MovToCr3 rax);
    I (Mov rsp rdx) ] ++
  (I <$> pop_all_code) ++
  [ I (AddImm rsp 8);
    Iretq ].

(** The five words of the interrupt frame, above [k] words. *)
Definition load_frame_code (k : Z) : list instr :=
  [ Load r10 rsp ((k + 0) * 8); Load r11 rsp ((k + 1) * 8); Load r12 rsp ((k + 2) * 8);
    Load r13 rsp ((k + 3) * 8); Load r14 rsp ((k + 4) * 8) ].

Definition common_code (table_start : Z) : list line :=
  [L "process_interrupt.common"] ++ (I <$> push_all_code) ++
  [ I (Mov rbx rsp);
    I (MovFromCr3 rbp);
    I (Load rax rsp (stack_stored_registers * 8));
    I (SubImm rax (table_start + 5));
    I (Imul32 rax 52429);
    I (Shr32 rax 18);
    I (Cmp rax 0x08); J jl ".no_error_code"; J je ".error_code";
    I (Cmp rax 0x0a); J jl ".no_error_code"; J je ".error_code";
    I (Cmp rax 0x0e); J jle ".error_code";
    I (Cmp rax 0x11); J je ".error_code";
    I (Cmp rax 0x1e); J je ".error_code";
    L ".no_error_code";
    I (MovImm r15 0) ] ++
  (I <$> load_frame_code (stack_stored_registers + 1)) ++
  [ Jmp ".after_error_code";
    L ".error_code";
    I (Load r15 rsp ((stack_stored_registers + 1) * 8)) ] ++
  (I <$> load_frame_code (stack_stored_registers + 1 + 1)) ++
  [ L ".after_error_code";
    I (MovImm rcx page_table_physaddr); I (MovToCr3 rcx);
    I (MovImm rsp kernel_syscall_stack_end);
    I (PushImm IDT_ADDR); I (PushWord (0x100 * 16 - 1)); I (Mov rcx rsp); I (Lidt rcx); I (AddImm rsp 10);
    I (PushImm KERNEL_GDT_ADDR); I (PushWord (4 * 8 - 1)); I (Mov rcx rsp); I (Lgdt rcx); I (AddImm rsp 10);
    CallHandler;
    L ".return_normal";
    Jmp "switch_to" ].

Definition code (table_start : Z) : list line := switch_to_code ++ common_code table_start.

(** [idle], with the address of its loop. *)
Definition idle_code (loop : Z) : list instr := [PushImm 0x0; Push rsp; PushImm 0x0202; PushImm 0x8; PushImm loop].
Definition idle (walk : Z → Z → option Z) (loop : Z) (m : machine) : option machine :=
  m ← execs walk (idle_code loop) m; iretq walk m.

(** ** handler.rs [process_interrupt] *)

Definition process_interrupt_entry : list instr :=
  [ Push r14; Push r13; Push r12; Push r11; Push r10;
    Mov rdi rax; Mov rsi rbx; Mov rdx rbp; Mov rcx rsp; Mov r8 r15 ].
Definition process_interrupt_exit : list instr := [AddImm rsp (5 * 8); Mov rbp rax; Mov rbx rdx].

Section trampoline.
(** The translation, where the table of calls starts, the address of [process_interrupt], the
    return addresses of the two calls, and what a called function leaves in its registers. *)
Context (walk : Z → Z → option Z) (table_start handler_address link inner_link : Z) (junk : reg → Z).
(** The kernel function; [None] is one that does not return. *)
Context {St : Type} (inner : Z → Z → Z → iframe → Z → gmap Z Z → St → option (Z * Z * gmap Z Z * St)).

Definition load_frame (va : Z) (m : machine) : option iframe :=
  f_rip ← load walk 8 va m;
  f_cs ← load walk 8 (va + 8) m;
  f_rflags ← load walk 8 (va + 16) m;
  f_rsp ← load walk 8 (va + 24) m;
  f_ss ← load walk 8 (va + 32) m;
  Some (MkFrame f_rip f_cs f_rflags f_rsp f_ss).

(** The registers after a call by the System V convention. *)
Definition after_call (g : gprs) (result high : Z) : gprs :=
  gprs_of (λ r, match r with
    | rax => result | rdx => high
    | rbx | rbp | rsp | r12 | r13 | r14 | r15 => gget g r
    | r => junk r
    end).

(** [ret] to the expected address. *)
Definition ret_to (address : Z) (m : machine) : option machine :=
  '(a, m) ← pop walk 8 m; if a =? address then Some m else None.

Definition call_inner (m : machine) (s : St) : option (machine * St) :=
  m ← push walk 8 inner_link m;
  frame ← load_frame (get m rcx) m;
  '(result, high, mem, s) ← inner (get m rdi mod 2 ^ 8) (get m rsi) (get m rdx) frame (get m r8 mod 2 ^ 32) (m_mem m) s;
  m ← ret_to inner_link (set_mem mem (set_regs (after_call (m_regs m) result high) m));
  Some (m, s).

Definition call_handler (m : machine) (s : St) : option (machine * St) :=
  target ← load walk 8 interrupt_handler_ptr_addr m;
  if target =? handler_address then
    m ← push walk 8 link m;
    m ← execs walk process_interrupt_entry m;
    '(m, s) ← call_inner m s;
    m ← execs walk process_interrupt_exit m;
    m ← ret_to link m;
    Some (m, s)
  else None.

Definition is_label (name : string) (l : line) : bool :=
  match l with L name' => String.eqb name name' | _ => false end.

Definition label (name : string) : option nat :=
  fst <$> list_find (λ l, is_label name l = true) (code table_start).

Fixpoint run_code (fuel pc : nat) (m : machine) (s : St) : option (machine * St) :=
  match fuel with
  | O => None
  | S fuel =>
      l ← code table_start !! pc;
      match l with
      | L _ => run_code fuel (pc + 1) m s
      | I i => m ← exec walk i m; run_code fuel (pc + 1) m s
      | J c target =>
          if taken_jump c (m_cmp m) then pc ← label target; run_code fuel pc m s
          else run_code fuel (pc + 1) m s
      | Jmp target => pc ← label target; run_code fuel pc m s
      | CallHandler => '(m, s) ← call_handler m s; run_code fuel (pc + 1) m s
      | Iretq => m ← iretq walk m; Some (m, s)
      end
  end.

(** The longest path executes fewer lines than there are. *)
Definition code_fuel : nat := length (code table_start).

(** Entry [n] of the table is [call .common], five bytes long. *)
Definition interrupt_process (n error_code : Z) (m : machine) (s : St) : option (machine * St) :=
  m ← cpu_interrupt walk n error_code m;
  m ← push walk 8 (table_start + 5 * n + 5) m;
  pc ← label "process_interrupt.common";
  run_code code_fuel pc m s.

(** A jump to [switch_to] with its two inputs. *)
Definition jump_switch_to (page_table sp : Z) (m : machine) (s : St) : option (machine * St) :=
  pc ← label "switch_to";
  run_code code_fuel pc (set_reg rdx sp (set_reg rax page_table m)) s.

End trampoline.

(** ** Resuming a process *)

(** The saved registers of a process at a physical address: the registers, one word for the entry
    of the table, and the interrupt frame. *)
Definition saved (mem : gmap Z Z) (pa : Z) (g : gprs) (f : iframe) : Prop :=
  words mem pa (gget g <$> pop_all_order) ∧
  words mem (pa + 16 * 8) [f_rip f; f_cs f; f_rflags f; f_rsp f; f_ss f].

(** A processor that runs a process. *)
Definition resumed (g : gprs) (f : iframe) (pt : Z) (mem : gmap Z Z) (c : comparison) : machine :=
  MkMachine (gput g rsp (f_rsp f)) (f_rip f) (f_cs f) (f_rflags f) (f_ss f) pt (8 * 2 - 1, 0x1000) (0x100 * 16 - 1, 0) c mem.

Lemma saved_ext mem mem' pa g f :
  (∀ x, pa ≤ x < pa + 21 * 8 → mem_at mem' x = mem_at mem x) → saved mem pa g f → saved mem' pa g f.
Proof. intros Hx [H1 H2]. split; (eapply words_ext; [|done]); intros x Hr; apply Hx; cbn in Hr; lia. Qed.

(** What [switch_to] does before it pops the registers. *)
Definition switch_to_start : list instr :=
  [Push rax] ++
  [PushImm 0x1000; PushWord (8 * 2 - 1); Mov rax rsp; Lgdt rax; AddImm rsp 10] ++
  [PushImm 0; PushWord (0x100 * 16 - 1); Mov rax rsp; Lidt rax; AddImm rsp 10] ++
  [Pop rax; MovToCr3 rax; Mov rsp rdx].

Lemma switch_to_start_spec walk klo khi kd m :
  linear walk (m_cr3 m) klo khi kd → klo ≤ get m rsp - 18 → get m rsp ≤ khi → is_u64 (get m rax) →
  ∃ mem, execs walk switch_to_start m =
      Some (set_reg rsp (get m rdx) (set_cr3 (get m rax) (set_idtr (0x100 * 16 - 1, 0)
        (set_gdtr (8 * 2 - 1, 0x1000) (set_mem mem m))))) ∧
    changed (m_mem m) (get m rsp - 18 + kd) 18 mem.
Proof.
  intros Hl Hlo Hhi Hrax. unfold switch_to_start. rewrite execs_app. cbn [execs exec].
  pose proof (push_run walk klo khi kd 8 (get m rax) m Hl) as E. change (Z.of_nat 8) with 8 in E. rewrite E by lia. clear E.
  cbn [mbind option_bind]. set (mem1 := write_bytes _ _ _). set (m1 := on_stack _ mem1 m).
  assert (get m1 rsp = get m rsp - 8) as Hsp by apply get_set_eq.
  destruct (table_block walk true rax 0x1000 (8 * 2 - 1) klo khi kd m1) as (mem2 & E2 & Hc2);
    [done|done|lia|lia|lia|done|].
  rewrite execs_app. rewrite E2. clear E2. cbn [mbind option_bind]. set (m2 := set_gdtr _ _).
  assert (get m2 rsp = get m rsp - 8) as Hsp2 by done.
  destruct (table_block walk false rax 0 (0x100 * 16 - 1) klo khi kd m2) as (mem3 & E3 & Hc3);
    [done|done|lia|lia|lia|done|].
  rewrite execs_app. rewrite E3. clear E3. cbn [mbind option_bind]. set (m3 := set_idtr _ _).
  assert (get m3 rsp = get m rsp - 8) as Hsp3 by done.
  cbn [execs exec]. rewrite (pop_run walk klo khi kd m3) by (done || lia). cbn [mbind option_bind]. rewrite Hsp3.
  change (m_mem m3) with mem3. change (m_mem m1) with mem1 in Hc2. change (m_mem m2) with mem2 in Hc3.
  rewrite Hsp in Hc2. rewrite Hsp2 in Hc3.
  assert (word mem3 (get m rsp - 8 + kd) = get m rax) as ->.
  { rewrite (word_ext mem2); [|intros x Hx; apply Hc3; lia]. rewrite (word_ext mem1); [|intros x Hx; apply Hc2; lia].
    by apply word_write. }
  exists mem3. split.
  - reflexivity.
  - assert (changed mem1 (get m rsp - 8 - 10 + kd) 10 mem3) as Hc by (eapply changed_trans; [exact Hc2|exact Hc3|lia..]).
    eapply changed_trans; [apply (write_changed (m_mem m) (get m rsp - 8 + kd) 8 (get m rax))|exact Hc|lia..].
Qed.

Section run_lemmas.
Context (walk : Z → Z → option Z) (table_start handler_address link inner_link : Z) (junk : reg → Z).
Context {St : Type} (inner : Z → Z → Z → iframe → Z → gmap Z Z → St → option (Z * Z * gmap Z Z * St)).

Abbreviation run := (run_code walk table_start handler_address link inner_link junk inner).

Lemma run_execs l fuel pc m m' s :
  take (length l) (drop pc (code table_start)) = I <$> l → execs walk l m = Some m' →
  run (length l + fuel) pc m s = run fuel (pc + length l) m' s.
Proof.
  revert pc m. induction l as [|i l IH]; intros pc m Hl E; cbn [execs length] in *.
  { injection E as <-. f_equal. lia. }
  destruct (code table_start !! pc) as [x|] eqn:Ex.
  2:{ apply lookup_ge_None in Ex. by rewrite (drop_ge _ _ Ex) in Hl. }
  rewrite (drop_S _ _ _ Ex) in Hl. cbn in Hl. injection Hl as -> Hl. cbn [Nat.add run_code]. rewrite Ex.
  cbn [mbind option_bind]. destruct (exec walk i m) as [m1|]; [|done]. cbn [mbind option_bind] in *.
  replace (pc + 1)%nat with (S pc) by lia. rewrite (IH (S pc) m1) by done. f_equal. lia.
Qed.

Lemma run_label fuel pc name m s :
  code table_start !! pc = Some (L name) → run (S fuel) pc m s = run fuel (pc + 1) m s.
Proof. intros Hc. cbn [run_code]. by rewrite Hc. Qed.

Lemma run_jmp fuel pc target m s pc' :
  code table_start !! pc = Some (Jmp target) → label table_start target = Some pc' →
  run (S fuel) pc m s = run fuel pc' m s.
Proof. intros Hc Hl. cbn [run_code]. rewrite Hc. cbn [mbind option_bind]. by rewrite Hl. Qed.

Lemma run_call fuel pc m s m' s' :
  code table_start !! pc = Some CallHandler →
  call_handler walk handler_address link inner_link junk inner m s = Some (m', s') →
  run (S fuel) pc m s = run fuel (pc + 1) m' s'.
Proof. intros Hc Hh. cbn [run_code]. rewrite Hc. cbn [mbind option_bind]. by rewrite Hh. Qed.

(** A whole [switch_to]. *)
Lemma switch_to_run fuel pt sp m s klo khi kd lo hi d g f :
  get m rax = pt → get m rdx = sp → is_u64 pt →
  linear walk (m_cr3 m) klo khi kd → klo ≤ get m rsp - 18 → get m rsp ≤ khi →
  linear walk pt lo hi d → lo ≤ sp → sp + 21 * 8 ≤ hi → saved (m_mem m) (sp + d) g f →
  (∀ x, get m rsp - 18 + kd ≤ x < get m rsp + kd → ¬ (sp + d ≤ x < sp + d + 21 * 8)) →
  ∃ mem, run (32 + fuel) 0 m s = Some (resumed g f pt mem (m_cmp m), s) ∧
    changed (m_mem m) (get m rsp - 18 + kd) 18 mem.
Proof.
  intros Hpt Hsp Hu Hk Hklo Hkhi Hl Hlo Hhi Hsaved Hdis. pose proof Hl as (H0 & H64 & _).
  destruct (switch_to_start_spec walk klo khi kd m) as (mem & E & Hc); [done|done|done|by rewrite Hpt|].
  rewrite Hpt, Hsp in E. exists mem. split; [|done].
  change (32 + fuel)%nat with (S (length switch_to_start + (15 + (1 + (1 + fuel))))%nat).
  rewrite (run_label _ 0 "switch_to") by done. change (0 + 1)%nat with 1%nat.
  rewrite (run_execs switch_to_start _ 1 _ _ _ ltac:(lazy; reflexivity) E). set (m1 := set_reg rsp sp _).
  assert (saved (m_mem m1) (sp + d) g f) as [Hw Hf].
  { eapply saved_ext; [|done]. intros x Hx. apply Hc. intros Hx'. apply (Hdis x); lia. }
  assert (get m1 rsp = sp) as Hsp1 by done.
  assert (execs walk pop_all_code m1 =
    Some (set_reg rsp (sp + 15 * 8) (load_regs pop_all_order (gget g <$> pop_all_order) m1))) as Ep.
  { apply (execs_pop walk lo hi d pop_all_order (gget g <$> pop_all_order) m1); try done.
    - rewrite Hsp1. change (length pop_all_order) with 15%nat. lia.
    - unfold pop_all_order. rewrite !not_elem_of_cons. by split_and!; [..|apply not_elem_of_nil]. }
  change 15%nat with (length pop_all_code). rewrite (run_execs pop_all_code _ 15 _ _ _ ltac:(lazy; reflexivity) Ep). set (m2 := set_reg rsp _ _).
  assert (execs walk [AddImm rsp 8] m2 = Some (set_reg rsp (sp + 16 * 8) m2)) as Ea.
  { assert (wrap64 (get m2 rsp + 8) = sp + 16 * 8) as Hw8.
    { change (get m2 rsp) with (sp + 15 * 8). rewrite wrap64_small by (unfold is_u64, u64_max in *; lia). lia. }
    cbn [execs exec mbind option_bind]. rewrite Hw8. reflexivity. }
  change 1%nat with (length [AddImm rsp 8]). rewrite (run_execs [AddImm rsp 8] _ 30 _ _ _ ltac:(lazy; reflexivity) Ea). set (m3 := set_reg rsp _ m2).
  transitivity (x ← iretq walk m3; Some (x, s)); [reflexivity|].
  assert (get m3 rsp = sp + 16 * 8) as Hsp3 by done.
  rewrite (iretq_spec walk lo hi d f m3); [|done|lia|lia|].
  - cbn [mbind option_bind]. by destruct g.
  - rewrite Hsp3. by replace (sp + 16 * 8 + d) with (sp + d + 16 * 8) by lia.
Qed.

(** ** Entering the kernel *)

Lemma label_common : label table_start "process_interrupt.common" = Some 32%nat.
Proof. reflexivity. Qed.
Lemma label_no_error_code : label table_start ".no_error_code" = Some 66%nat.
Proof. reflexivity. Qed.
Lemma label_error_code : label table_start ".error_code" = Some 74%nat.
Proof. reflexivity. Qed.
Lemma label_after : label table_start ".after_error_code" = Some 81%nat.
Proof. reflexivity. Qed.

Lemma run_cmp fuel pc v m s n :
  code table_start !! pc = Some (I (Cmp rax v)) → get m rax = n → 0 ≤ n < 2 ^ 63 →
  run (S fuel) pc m s = run fuel (pc + 1) (set_cmp (n ?= v) m) s.
Proof.
  intros Hc <- Hr. cbn [run_code]. rewrite Hc. cbn [mbind option_bind exec].
  unfold signed64. by rewrite (proj2 (Z.ltb_lt _ _)) by lia.
Qed.

Lemma run_jump fuel pc c target m s pc' :
  code table_start !! pc = Some (J c target) → label table_start target = Some pc' →
  run (S fuel) pc m s = run fuel (if taken_jump c (m_cmp m) then pc' else pc + 1)%nat m s.
Proof. intros Hc Hl. cbn [run_code]. rewrite Hc. cbn [mbind option_bind]. rewrite Hl. by destruct (taken_jump _ _). Qed.

(** One line of the chain of comparisons, and its end. *)
Ltac chain_cmp pc v n :=
  rewrite (run_cmp _ pc v _ _ n) by (done || lia); let pc' := eval compute in (pc + 1)%nat in change (pc + 1)%nat with pc'.
Ltac chain_jump pc c target :=
  rewrite (run_jump _ pc c _ _ _ target) by done; cbn [m_cmp set_cmp taken_jump];
  let pc' := eval compute in (pc + 1)%nat in change (pc + 1)%nat with pc'.
Ltac chain_end :=
  first
    [ exfalso; lia
    | eexists _, _; split;
      [ | unfold has_error_code;
          first [ rewrite bool_decide_true by (rewrite !elem_of_cons; lia)
                | rewrite bool_decide_false by (rewrite !elem_of_cons, elem_of_nil; lia) ];
          reflexivity ];
      lia ].

(** The comparisons find the vectors with an error code. *)
Lemma error_code_chain fuel m s :
  0 ≤ get m rax < 256 →
  ∃ fuel' c, (fuel ≤ fuel')%nat ∧
    run (12 + fuel) 54 m s = run fuel' (if has_error_code (get m rax) then 74 else 66)%nat (set_cmp c m) s.
Proof.
  intros Hn. set (n := get m rax) in *.
  cbn [Nat.add].
  chain_cmp 54%nat 8 n. chain_jump 55%nat jl 66%nat. destruct (Z.compare_spec n 8) as [E|E|E]; cbn [taken_jump];
    [chain_jump 56%nat je 74%nat; chain_end|chain_end|]. chain_jump 56%nat je 74%nat.
  chain_cmp 57%nat 10 n. chain_jump 58%nat jl 66%nat. destruct (Z.compare_spec n 10) as [F|F|F]; cbn [taken_jump];
    [chain_jump 59%nat je 74%nat; chain_end|chain_end|]. chain_jump 59%nat je 74%nat.
  chain_cmp 60%nat 14 n. chain_jump 61%nat jle 74%nat. destruct (Z.compare_spec n 14) as [G|G|G]; cbn [taken_jump];
    [chain_end|chain_end|].
  chain_cmp 62%nat 17 n. chain_jump 63%nat je 74%nat. destruct (Z.compare_spec n 17) as [K|K|K]; cbn [taken_jump];
    [chain_end|..]; (chain_cmp 64%nat 30 n; chain_jump 65%nat je 74%nat; destruct (Z.compare_spec n 30) as [M|M|M];
    cbn [taken_jump]; chain_end).
Qed.

(** What is on the stack of the process when its registers are saved, from the top. *)
Definition entry_values (n error_code : Z) (m : machine) : list Z :=
  [m_ss m; get m rsp; m_rflags m; m_cs m; m_rip m] ++ (if has_error_code n then [error_code] else []) ++
  [table_start + 5 * n + 5] ++ (get m <$> push_all_order).

Definition aligned (m : machine) : machine := set_reg rsp (get m rsp - get m rsp mod 16) m.

Lemma pushes_app vs vs' m : pushes walk (vs ++ vs') m = (m' ← pushes walk vs m; pushes walk vs' m').
Proof. revert m. induction vs as [|v vs IH]; intros m; [done|]. cbn. destruct (push walk 8 v m); [apply IH|done]. Qed.

Lemma pushes_get vs m m' r : pushes walk vs m = Some m' → r ≠ rsp → get m' r = get m r.
Proof.
  revert m. induction vs as [|v vs IH]; intros m E Hr; cbn [pushes] in E; [by injection E as <-|].
  destruct (push walk 8 v m) as [m1|] eqn:E1; [|done]. cbn in E. rewrite (IH m1) by done. by eapply push_get.
Qed.

Lemma interrupt_entry n error_code m s m3 :
  pushes walk (entry_values n error_code m) (aligned m) = Some m3 →
  interrupt_process walk table_start handler_address link inner_link junk inner n error_code m s = run 82 48 m3 s.
Proof.
  unfold entry_values. rewrite (assoc_L (++)), pushes_app. intros E.
  assert (cpu_interrupt walk n error_code m = pushes walk ([m_ss m; get m rsp; m_rflags m; m_cs m; m_rip m] ++
    (if has_error_code n then [error_code] else [])) (aligned m)) as Hc.
  { unfold cpu_interrupt. rewrite pushes_app. cbn [pushes f_ss f_rsp f_rflags f_cs f_rip frame_of]. fold (aligned m).
    repeat (case_match; cbn [mbind option_bind] in *; simplify_eq); try done; cbn;
      repeat (match goal with |- context [push walk ?a ?b ?c] => destruct (push walk a b c) end; cbn; try done). }
  unfold interrupt_process. rewrite Hc. destruct (pushes walk _ (aligned m)) as [m1|] eqn:E1; [|done].
  cbn [mbind option_bind] in *. rewrite pushes_app in E. cbn [pushes] in E.
  destruct (push walk 8 _ m1) as [m2|] eqn:E2; [|done]. cbn [mbind option_bind] in *. rewrite label_common.
  cbn [mbind option_bind]. change (code_fuel table_start) with (S (15 + 82)).
  rewrite (run_label _ 32 "process_interrupt.common") by done. change (15 + 82)%nat with (length push_all_code + 82)%nat.
  change (32 + 1)%nat with 33%nat. rewrite (run_execs push_all_code _ 33 _ m3 _ ltac:(lazy; reflexivity)); [done|].
  unfold push_all_code. rewrite execs_push; [|unfold push_all_order; rewrite !not_elem_of_cons; by split_and!; [..|apply not_elem_of_nil]].
  rewrite <- E. f_equal. apply list_fmap_ext. intros i r Hr%list_elem_of_lookup_2.
  assert (r ≠ rsp) as Hne by (intros ->; revert Hr; by rewrite <- (bool_decide_eq_true (_ ∈ _))).
  rewrite (push_get walk _ _ _ _ _ E2 Hne), (pushes_get _ _ _ _ E1 Hne). unfold aligned. by rewrite get_set_ne.
Qed.

(** The number of the interrupt from the address of the call. *)
Definition vector_code : list instr :=
  [ Mov rbx rsp; MovFromCr3 rbp; Load rax rsp (stack_stored_registers * 8); SubImm rax (table_start + 5);
    Imul32 rax 52429; Shr32 rax 18 ].

Lemma div_by_five n : 0 ≤ n < 256 → Z.shiftr ((5 * n mod 2 ^ 32 * 52429) mod 2 ^ 32 mod 2 ^ 32) 18 = n.
Proof.
  intros Hn. rewrite Z.shiftr_div_pow2, Z.mod_mod, (Z.mod_small (5 * n)) by lia. rewrite Z.mod_small by lia.
  symmetry. apply (Z.div_unique_pos _ _ n n); lia.
Qed.

Lemma vector_code_spec lo hi d n m :
  linear walk (m_cr3 m) lo hi d → lo ≤ get m rsp → get m rsp + 16 * 8 ≤ hi → 0 ≤ n < 256 →
  word (m_mem m) (get m rsp + 15 * 8 + d) = table_start + 5 * n + 5 →
  execs walk vector_code m = Some (set_reg rax n (set_reg rbp (m_cr3 m) (set_reg rbx (get m rsp) m))).
Proof.
  intros Hl Hlo Hhi Hn Hw. pose proof Hl as (H0 & H64 & _). cbn [vector_code execs exec mbind option_bind].
  set (m1 := set_reg rbp _ _).
  assert (get m1 rsp = get m rsp) as Hsp by (unfold m1; by rewrite !get_set_ne by done).
  assert (wrap64 (get m1 rsp + stack_stored_registers * 8) = get m rsp + 15 * 8) as ->.
  { rewrite Hsp. apply wrap64_small. unfold is_u64, u64_max in *. lia. }
  rewrite (load_word walk lo hi d _ m1) by (done || lia). cbn [mbind option_bind]. change (m_mem m1) with (m_mem m). rewrite Hw.
  rewrite !get_set_eq, !set_reg_set. replace (table_start + 5 * n + 5 - (table_start + 5)) with (5 * n) by lia.
  rewrite wrap64_small by (unfold is_u64; rewrite u64_size_eq; lia). by rewrite div_by_five.
Qed.

(** The registers that carry the frame to the kernel. *)
Definition with_frame (f : iframe) (m : machine) : machine :=
  set_reg r14 (f_ss f) (set_reg r13 (f_rsp f) (set_reg r12 (f_rflags f) (set_reg r11 (f_cs f) (set_reg r10 (f_rip f) m)))).

Lemma load_reg_spec lo hi d r k w m :
  linear walk (m_cr3 m) lo hi d → lo ≤ get m rsp + k * 8 → get m rsp + k * 8 + 8 ≤ hi →
  word (m_mem m) (get m rsp + d + 8 * k) = w → exec walk (Load r rsp (k * 8)) m = Some (set_reg r w m).
Proof.
  intros Hl Hlo Hhi Hw. pose proof Hl as (H0 & H64 & _). cbn [exec].
  rewrite wrap64_small by (unfold is_u64, u64_max in *; lia). rewrite (load_word walk lo hi d) by (done || lia).
  cbn [mbind option_bind]. rewrite <- Hw. do 3 f_equal. lia.
Qed.

Lemma load_frame_code_spec lo hi d k f m :
  linear walk (m_cr3 m) lo hi d → lo ≤ get m rsp → 0 ≤ k → get m rsp + (k + 5) * 8 ≤ hi →
  words (m_mem m) (get m rsp + d + 8 * k) [f_rip f; f_cs f; f_rflags f; f_rsp f; f_ss f] →
  execs walk (load_frame_code k) m = Some (with_frame f m).
Proof.
  intros Hl Hlo Hk Hhi Hw. rewrite !words_cons in Hw. destruct Hw as (H1 & H2 & H3 & H4 & H5 & _).
  unfold load_frame_code, with_frame. cbn [execs].
  rewrite (load_reg_spec lo hi d _ _ (f_rip f)); [|done|lia|lia|rewrite <- H1; f_equal; lia]. cbn [mbind option_bind].
  rewrite (load_reg_spec lo hi d _ _ (f_cs f)); [|done|rewrite ?get_set_ne by done; lia..|rewrite ?get_set_ne by done; rewrite <- H2; f_equal; lia].
  cbn [mbind option_bind].
  rewrite (load_reg_spec lo hi d _ _ (f_rflags f)); [|done|rewrite ?get_set_ne by done; lia..|rewrite ?get_set_ne by done; rewrite <- H3; f_equal; lia].
  cbn [mbind option_bind].
  rewrite (load_reg_spec lo hi d _ _ (f_rsp f)); [|done|rewrite ?get_set_ne by done; lia..|rewrite ?get_set_ne by done; rewrite <- H4; f_equal; lia].
  cbn [mbind option_bind].
  rewrite (load_reg_spec lo hi d _ _ (f_ss f)); [|done|rewrite ?get_set_ne by done; lia..|rewrite ?get_set_ne by done; rewrite <- H5; f_equal; lia].
  done.
Qed.

(** The change to the page tables, the stack and the descriptor tables of the kernel. *)
Definition kernel_entry_code : list instr :=
  [MovImm rcx page_table_physaddr; MovToCr3 rcx; MovImm rsp kernel_syscall_stack_end] ++
  [PushImm IDT_ADDR; PushWord (0x100 * 16 - 1); Mov rcx rsp; Lidt rcx; AddImm rsp 10] ++
  [PushImm KERNEL_GDT_ADDR; PushWord (4 * 8 - 1); Mov rcx rsp; Lgdt rcx; AddImm rsp 10].

Lemma kernel_entry_spec klo khi kd m :
  linear walk page_table_physaddr klo khi kd → klo ≤ kernel_syscall_stack_end - 10 → kernel_syscall_stack_end ≤ khi →
  ∃ mem, execs walk kernel_entry_code m =
      Some (set_gdtr (4 * 8 - 1, KERNEL_GDT_ADDR) (set_idtr (0x100 * 16 - 1, IDT_ADDR)
        (set_reg rcx (kernel_syscall_stack_end - 10) (set_reg rsp kernel_syscall_stack_end
          (set_cr3 page_table_physaddr (set_mem mem m)))))) ∧
    changed (m_mem m) (kernel_syscall_stack_end - 10 + kd) 10 mem.
Proof.
  intros Hl Hlo Hhi. unfold kernel_entry_code. rewrite execs_app. cbn [execs exec mbind option_bind]. rewrite get_set_eq.
  set (m1 := set_reg rsp _ _). assert (get m1 rsp = kernel_syscall_stack_end) as Hsp by done.
  destruct (table_block walk false rcx IDT_ADDR (0x100 * 16 - 1) klo khi kd m1) as (mem2 & E2 & Hc2);
    [done|done|by rewrite Hsp|by rewrite Hsp|lia|done|].
  rewrite execs_app. rewrite E2. clear E2. cbn [mbind option_bind]. set (m2 := set_idtr _ _).
  assert (get m2 rsp = kernel_syscall_stack_end) as Hsp2 by done.
  destruct (table_block walk true rcx KERNEL_GDT_ADDR (4 * 8 - 1) klo khi kd m2) as (mem3 & E3 & Hc3);
    [done|done|by rewrite Hsp2|by rewrite Hsp2|lia|done|].
  rewrite E3. exists mem3. split; [reflexivity|]. rewrite Hsp in Hc2. rewrite Hsp2 in Hc3.
  eapply changed_trans; [exact Hc2|exact Hc3|lia..].
Qed.

(** ** The call of the kernel *)

Abbreviation kend := kernel_syscall_stack_end (only parsing).

(** The kernel stack, and the word with the address of the handler, under the kernel's tables. *)
Context (klo khi kd plo phi pd : Z).
Context (Hkstack : linear walk page_table_physaddr klo khi kd ∧ klo ≤ kend - 64 ∧ kend ≤ khi).
Context (Hkptr : linear walk page_table_physaddr plo phi pd ∧ plo ≤ interrupt_handler_ptr_addr ∧
  interrupt_handler_ptr_addr + 8 ≤ phi).
Context (Hlinks : is_u64 link ∧ is_u64 inner_link).

Lemma load_frame_spec lo hi d va f m :
  linear walk (m_cr3 m) lo hi d → lo ≤ va → va + 5 * 8 ≤ hi →
  words (m_mem m) (va + d) [f_rip f; f_cs f; f_rflags f; f_rsp f; f_ss f] → load_frame walk va m = Some f.
Proof.
  intros Hl Hlo Hhi Hw. rewrite !words_cons in Hw. destruct Hw as (H1 & H2 & H3 & H4 & H5 & _). unfold load_frame.
  rewrite (load_word walk lo hi d va) by (done || lia). cbn [mbind option_bind].
  rewrite (load_word walk lo hi d (va + 8)) by (done || lia). cbn [mbind option_bind].
  rewrite (load_word walk lo hi d (va + 16)) by (done || lia). cbn [mbind option_bind].
  rewrite (load_word walk lo hi d (va + 24)) by (done || lia). cbn [mbind option_bind].
  rewrite (load_word walk lo hi d (va + 32)) by (done || lia). cbn [mbind option_bind].
  f_equal. destruct f. f_equal; cbn in *; [done| | | |];
    [rewrite <- H2|rewrite <- H3|rewrite <- H4|rewrite <- H5]; f_equal; lia.
Qed.

Lemma ret_to_spec address m :
  m_cr3 m = page_table_physaddr → klo ≤ get m rsp → get m rsp + 8 ≤ khi →
  word (m_mem m) (get m rsp + kd) = address → ret_to walk address m = Some (set_reg rsp (get m rsp + 8) m).
Proof.
  intros Hcr Hlo Hhi Hw. destruct Hkstack as (Hl & _). unfold ret_to.
  rewrite (pop_run walk klo khi kd m) by (rewrite ?Hcr; done || lia). cbn [mbind option_bind].
  by rewrite Hw, Z.eqb_refl.
Qed.

Lemma call_inner_spec m s f :
  m_cr3 m = page_table_physaddr → get m rsp = kend - 48 → get m rcx = kend - 48 →
  words (m_mem m) (kend - 48 + kd) [f_rip f; f_cs f; f_rflags f; f_rsp f; f_ss f] →
  ∃ mem, changed (m_mem m) (kend - 56 + kd) 8 mem ∧
    ∀ a h mem' s',
      inner (get m rdi mod 2 ^ 8) (get m rsi) (get m rdx) f (get m r8 mod 2 ^ 32) mem s = Some (a, h, mem', s') →
      (∀ x, kend - 56 + kd ≤ x < kend - 48 + kd → mem_at mem' x = mem_at mem x) →
      call_inner walk inner_link junk inner m s =
        Some (set_reg rsp (kend - 48) (set_mem mem' (set_regs (after_call junk (m_regs m) a h) m)), s').
Proof.
  intros Hcr Hsp Hrcx Hw. destruct Hkstack as (Hl & Hklo & Hkhi).
  pose proof (push_run walk klo khi kd 8 inner_link m) as E. change (Z.of_nat 8) with 8 in E.
  rewrite Hcr, Hsp in E. specialize (E Hl ltac:(lia) ltac:(lia)).
  replace (kend - 48 - 8) with (kend - 56) in E by lia. set (mem1 := write_bytes _ _ _) in E.
  assert (changed (m_mem m) (kend - 56 + kd) 8 mem1) as Hc by apply (write_changed _ _ 8).
  exists mem1. split; [done|]. intros a h mem' s' Hi Hkeep. unfold call_inner. rewrite E. cbn [mbind option_bind].
  set (m1 := on_stack _ mem1 m). assert (get m1 rcx = kend - 48) as Hrcx1 by (unfold m1, on_stack; by rewrite get_set_ne).
  rewrite (load_frame_spec klo khi kd (get m1 rcx) f m1); [|by rewrite <- Hcr in Hl|rewrite Hrcx1; lia..|].
  2:{ rewrite Hrcx1. eapply words_ext; [|exact Hw]. intros x Hx. apply Hc. cbn [length] in Hx. lia. }
  cbn [mbind option_bind]. change (m_mem m1) with mem1. unfold m1, on_stack. rewrite !get_set_ne by done.
  change (get (set_mem mem1 m)) with (get m). rewrite Hi. cbn [mbind option_bind].
  set (m2 := set_mem mem' _). assert (get m2 rsp = kend - 56) as Hsp2 by done.
  rewrite (ret_to_spec inner_link m2); [|done|rewrite Hsp2; lia..|].
  - cbn [mbind option_bind]. rewrite Hsp2. reflexivity.
  - rewrite Hsp2. change (m_mem m2) with mem'. rewrite (word_ext mem1) by (intros x Hx; apply Hkeep; lia).
    apply word_write, Hlinks.
Qed.

Lemma call_handler_spec m s f :
  m_cr3 m = page_table_physaddr → get m rsp = kend → word (m_mem m) (interrupt_handler_ptr_addr + pd) = handler_address →
  f = MkFrame (get m r10) (get m r11) (get m r12) (get m r13) (get m r14) → Forall is_u64 (get m <$> [r14; r13; r12; r11; r10]) →
  ∃ mem, changed (m_mem m) (kend - 56 + kd) 56 mem ∧
    ∀ a h mem' s',
      inner (get m rax mod 2 ^ 8) (get m rbx) (get m rbp) f (get m r15 mod 2 ^ 32) mem s = Some (a, h, mem', s') →
      (∀ x, kend - 56 + kd ≤ x < kend + kd → mem_at mem' x = mem_at mem x) →
      ∃ m', call_handler walk handler_address link inner_link junk inner m s = Some (m', s') ∧
        get m' rax = a ∧ get m' rdx = h ∧ get m' rsp = kend ∧ m_cr3 m' = page_table_physaddr ∧ m_mem m' = mem'.
Proof.
  intros Hcr Hsp Hptr -> Hregs. destruct Hkstack as (Hl & Hklo & Hkhi). destruct Hkptr as (Hpl & Hplo & Hphi).
  pose proof (push_run walk klo khi kd 8 link m) as E. change (Z.of_nat 8) with 8 in E.
  rewrite Hcr, Hsp in E. specialize (E Hl ltac:(lia) ltac:(lia)). set (mem1 := write_bytes _ _ _) in E.
  set (m1 := on_stack (kend - 8) mem1 m) in E. assert (get m1 rsp = kend - 8) as Hsp1 by apply get_set_eq.
  assert (changed (m_mem m) (kend - 8 + kd) 8 mem1) as Hc1 by apply (write_changed _ _ 8).
  destruct (pushes_spec walk klo khi kd (get m1 <$> [r14; r13; r12; r11; r10]) m1) as (mem2 & E2 & Hw2 & Hc2);
    [by rewrite <- Hcr in Hl|rewrite Hsp1; cbn [length fmap list_fmap]; lia|rewrite Hsp1; lia|done|].
  rewrite Hsp1 in E2, Hw2, Hc2. change (kend - 8 - 8 * Z.of_nat _) with (kend - 48) in E2, Hw2, Hc2.
  change (8 * Z.of_nat _) with 40 in Hc2. change (m_mem m1) with mem1 in Hc2.
  set (m2 := on_stack (kend - 48) mem2 m1) in E2.
  set (m3 := set_reg r8 (get m r15) (set_reg rcx (kend - 48) (set_reg rdx (get m rbp)
    (set_reg rsi (get m rbx) (set_reg rdi (get m rax) m2))))).
  assert (execs walk process_interrupt_entry m1 = Some m3) as E3.
  { change process_interrupt_entry with ((Push <$> [r14; r13; r12; r11; r10]) ++
      [Mov rdi rax; Mov rsi rbx; Mov rdx rbp; Mov rcx rsp; Mov r8 r15]).
    rewrite execs_app, execs_push by (rewrite !not_elem_of_cons; by split_and!; [..|apply not_elem_of_nil]).
    rewrite E2. reflexivity. }
  destruct (call_inner_spec m3 s (MkFrame (get m r10) (get m r11) (get m r12) (get m r13) (get m r14)))
    as (mem4 & Hc4 & Hcall); [done|done|done|exact Hw2|]. change (m_mem m3) with mem2 in Hc4.
  exists mem4. split.
  { assert (changed (m_mem m) (kend - 48 + kd) 48 mem2) as Hc by (eapply changed_trans; [exact Hc1|exact Hc2|lia..]).
    eapply changed_trans; [exact Hc|exact Hc4|lia..]. }
  intros a h mem' s' Hi Hkeep. unfold call_handler.
  rewrite (load_word walk plo phi pd) by (rewrite ?Hcr; done). cbn [mbind option_bind]. rewrite Hptr, Z.eqb_refl.
  rewrite E. cbn [mbind option_bind]. rewrite E3. cbn [mbind option_bind].
  rewrite (Hcall a h mem' s' Hi) by (intros x Hx; apply Hkeep; lia). cbn [mbind option_bind].
  set (m5 := set_reg rsp (kend - 48) _).
  assert (execs walk process_interrupt_exit m5 = Some (set_reg rbx h (set_reg rbp a (set_reg rsp (kend - 8) m5)))) as -> by done.
  cbn [mbind option_bind]. set (m6 := set_reg rbx _ _). assert (get m6 rsp = kend - 8) as Hsp6 by done.
  rewrite (ret_to_spec link m6); [|done|rewrite Hsp6; lia..|].
  - cbn [mbind option_bind]. rewrite Hsp6. eexists. split; [reflexivity|]. done.
  - rewrite Hsp6. change (m_mem m6) with mem'. rewrite (word_ext mem4) by (intros x Hx; apply Hkeep; lia).
    rewrite (word_ext mem2) by (intros x Hx; apply Hc4; lia). rewrite (word_ext mem1) by (intros x Hx; apply Hc2; lia).
    apply word_write, Hlinks.
Qed.

(** The frame, and the error code if the vector has one, in registers. *)
Lemma frame_run fuel n error_code f m s lo hi d :
  linear walk (m_cr3 m) lo hi d → lo ≤ get m rsp → get m rsp + (21 + if has_error_code n then 1 else 0) * 8 ≤ hi →
  words (m_mem m) (get m rsp + d + 8 * 16)
    ((if has_error_code n then [error_code] else []) ++ [f_rip f; f_cs f; f_rflags f; f_rsp f; f_ss f]) →
  ∃ fuel', (fuel ≤ fuel')%nat ∧
    run (8 + fuel) (if has_error_code n then 74 else 66)%nat m s =
      run fuel' 81 (with_frame f (set_reg r15 (if has_error_code n then error_code else 0) m)) s.
Proof.
  intros Hl Hlo Hhi Hw. destruct (has_error_code n).
  - apply words_cons in Hw as [He Hw]. exists (1 + fuel)%nat. split; [lia|].
    change (8 + fuel)%nat with (S (6 + (1 + fuel))). rewrite (run_label _ 74 ".error_code") by done.
    set (l := Load r15 rsp ((stack_stored_registers + 1) * 8) :: load_frame_code (stack_stored_registers + 1 + 1)).
    assert (execs walk l m = Some (with_frame f (set_reg r15 error_code m))) as E.
    { unfold l. cbn [execs]. rewrite (load_reg_spec lo hi d r15 _ error_code) by (done || (unfold stack_stored_registers; lia)).
      cbn [mbind option_bind]. apply (load_frame_code_spec lo hi d); rewrite ?get_set_ne by done; unfold stack_stored_registers;
        [done|done|lia|lia|]. by replace (get m rsp + d + 8 * (15 + 1 + 1)) with (get m rsp + d + 8 * 16 + 8) by lia. }
    change (6 + (1 + fuel))%nat with (length l + (1 + fuel))%nat. change (74 + 1)%nat with 75%nat.
    rewrite (run_execs l _ 75 _ _ _ ltac:(lazy; reflexivity) E). done.
  - exists fuel. split; [done|].
    change (8 + fuel)%nat with (S (6 + (S fuel))). rewrite (run_label _ 66 ".no_error_code") by done.
    set (l := MovImm r15 0 :: load_frame_code (stack_stored_registers + 1)).
    assert (execs walk l m = Some (with_frame f (set_reg r15 0 m))) as E.
    { unfold l. cbn [execs exec mbind option_bind].
      apply (load_frame_code_spec lo hi d); rewrite ?get_set_ne by done; unfold stack_stored_registers; [done|done|lia|lia|done]. }
    change (6 + S fuel)%nat with (length l + S fuel)%nat. change (66 + 1)%nat with 67%nat.
    rewrite (run_execs l _ 67 _ _ _ ltac:(lazy; reflexivity) E).
    by rewrite (run_jmp _ _ ".after_error_code" _ _ 81) by done.
Qed.

(** From the change of page tables to the process that the kernel returns. *)
Lemma kernel_run fuel m s :
  word (m_mem m) (interrupt_handler_ptr_addr + pd) = handler_address →
  (∀ x, kend - 64 + kd ≤ x < kend + kd → ¬ (interrupt_handler_ptr_addr + pd ≤ x < interrupt_handler_ptr_addr + pd + 8)) →
  Forall is_u64 (get m <$> [r14; r13; r12; r11; r10]) →
  ∃ mem, changed (m_mem m) (kend - 64 + kd) 64 mem ∧
    ∀ a h mem' s' lo hi d g f,
      inner (get m rax mod 2 ^ 8) (get m rbx) (get m rbp) (MkFrame (get m r10) (get m r11) (get m r12) (get m r13) (get m r14))
        (get m r15 mod 2 ^ 32) mem s = Some (a, h, mem', s') →
      (∀ x, kend - 64 + kd ≤ x < kend + kd → mem_at mem' x = mem_at mem x) →
      is_u64 a → linear walk a lo hi d → lo ≤ h → h + 21 * 8 ≤ hi → saved mem' (h + d) g f →
      (∀ x, kend - 64 + kd ≤ x < kend + kd → ¬ (h + d ≤ x < h + d + 21 * 8)) →
      ∃ mem'' c, run (49 + fuel) 81 m s = Some (resumed g f a mem'' c, s') ∧ changed mem' (kend - 64 + kd) 64 mem''.
Proof.
  intros Hptr Hdis Hregs. destruct Hkstack as (Hl & Hklo & Hkhi).
  destruct (kernel_entry_spec klo khi kd m) as (mem1 & E1 & Hc1); [done|lia|done|]. set (m1 := set_gdtr _ _) in E1.
  destruct (call_handler_spec m1 s (MkFrame (get m r10) (get m r11) (get m r12) (get m r13) (get m r14)))
    as (mem2 & Hc2 & Hcall); [done|done| |done|done|].
  { change (m_mem m1) with mem1. rewrite <- Hptr. apply word_ext. intros x Hx. apply Hc1. intros Hx'. apply (Hdis x); lia. }
  change (m_mem m1) with mem1 in Hc2. exists mem2. split.
  { eapply changed_trans; [exact Hc1|exact Hc2|lia..]. }
  intros a h mem' s' lo hi d g f Hi Hkeep Ha Hla Hlo Hhi Hs Hds.
  destruct (Hcall a h mem' s' Hi) as (m2 & E2 & Hrax & Hrdx & Hrsp & Hcr & Hm2); [intros x Hx; apply Hkeep; lia|].
  destruct (switch_to_run fuel a h m2 s' klo khi kd lo hi d g f) as (mem'' & Er & Hc);
    [done|done|done|by rewrite Hcr|rewrite Hrsp; lia|by rewrite Hrsp|done|done|done|by rewrite Hm2
    |intros x Hx; rewrite Hrsp in Hx; apply Hds; lia|].
  exists mem'', (m_cmp m2). rewrite Hrsp, Hm2 in Hc. split.
  - change (49 + fuel)%nat with (S (13 + S (S (S (32 + fuel))))). rewrite (run_label _ 81 ".after_error_code") by done.
    change (13 + S (S (S (32 + fuel))))%nat with (length kernel_entry_code + S (S (S (32 + fuel))))%nat.
    change (81 + 1)%nat with 82%nat. rewrite (run_execs kernel_entry_code _ 82 _ _ _ ltac:(lazy; reflexivity) E1).
    change (82 + length kernel_entry_code)%nat with 95%nat.
    rewrite (run_call _ 95 m1 s m2 s' ltac:(done) E2). change (95 + 1)%nat with 96%nat.
    rewrite (run_label _ 96 ".return_normal") by done. rewrite (run_jmp _ _ "switch_to" _ _ 0) by done. exact Er.
  - intros x Hx. apply Hc. lia.
Qed.

(** Where the registers of an interrupted process are saved. *)
Definition saved_at (n : Z) (m : machine) : Z :=
  get m rsp - get m rsp mod 16 - 8 * (21 + if has_error_code n then 1 else 0).

Lemma entry_values_length n error_code m :
  Z.of_nat (length (entry_values n error_code m)) = 21 + if has_error_code n then 1 else 0.
Proof. unfold entry_values. rewrite !length_app. by destruct (has_error_code n). Qed.

Lemma entry_values_reverse n error_code m :
  reverse (entry_values n error_code m) =
    (get m <$> pop_all_order) ++ [table_start + 5 * n + 5] ++
    (if has_error_code n then [error_code] else []) ++ [m_rip m; m_cs m; m_rflags m; get m rsp; m_ss m].
Proof. unfold entry_values. by destruct (has_error_code n). Qed.

(** A process that can be interrupted: its stack is mapped and has room, and lies apart from the
    kernel stack and from the word with the address of the handler. *)
Record interruptible (n error_code : Z) (m : machine) (lo hi d : Z) : Prop := {
  in_vector : 0 ≤ n < 256;
  in_values : Forall is_u64 (entry_values n error_code m);
  in_stack : linear walk (m_cr3 m) lo hi d;
  in_room : lo ≤ saved_at n m ∧ get m rsp ≤ hi;
  in_handler : word (m_mem m) (interrupt_handler_ptr_addr + pd) = handler_address;
  in_apart x : kend - 64 + kd ≤ x < kend + kd →
    ¬ (saved_at n m + d ≤ x < get m rsp + d) ∧
    ¬ (interrupt_handler_ptr_addr + pd ≤ x < interrupt_handler_ptr_addr + pd + 8);
  in_apart_handler x : interrupt_handler_ptr_addr + pd ≤ x < interrupt_handler_ptr_addr + pd + 8 →
    ¬ (saved_at n m + d ≤ x < get m rsp + d);
}.

(** Up to the change of page tables. *)
Lemma entry_run n error_code m s lo hi d :
  interruptible n error_code m lo hi d →
  ∃ fuel m', (49 ≤ fuel)%nat ∧
    interrupt_process walk table_start handler_address link inner_link junk inner n error_code m s = run fuel 81 m' s ∧
    words (m_mem m') (saved_at n m + d) (reverse (entry_values n error_code m)) ∧
    changed (m_mem m) (saved_at n m + d) (get m rsp - saved_at n m) (m_mem m') ∧
    (get m' rax = n ∧ get m' rbx = saved_at n m ∧ get m' rbp = m_cr3 m ∧
     get m' r15 = if has_error_code n then error_code else 0) ∧
    MkFrame (get m' r10) (get m' r11) (get m' r12) (get m' r13) (get m' r14) = frame_of m.
Proof.
  intros [Hn Hv Hl [Hlo Hhi] _ _ _]. set (sp := saved_at n m) in *.
  assert (0 ≤ get m rsp) as Hpos by (destruct (proj1 (Forall_forall _ _) Hv (get m rsp)); [unfold entry_values; set_solver|done]).
  pose proof (Z.mod_pos_bound (get m rsp) 16 ltac:(lia)) as Hmod.
  destruct (pushes_spec walk lo hi d (entry_values n error_code m) (aligned m)) as (mem1 & E1 & Hw1 & Hc1).
  { done. } { unfold aligned. rewrite get_set_eq, entry_values_length. exact Hlo. }
  { unfold aligned. rewrite get_set_eq. lia. } { done. }
  assert (get (aligned m) rsp - 8 * Z.of_nat (length (entry_values n error_code m)) = sp) as Hsp.
  { unfold aligned. by rewrite get_set_eq, entry_values_length. }
  rewrite Hsp in E1, Hw1, Hc1. change (m_mem (aligned m)) with (m_mem m) in Hc1.
  set (m3 := on_stack sp mem1 (aligned m)) in *. rewrite entry_values_reverse in *.
  assert (get m rsp - get m rsp mod 16 = sp + 8 * (21 + if has_error_code n then 1 else 0)) as Htop by (unfold sp, saved_at; lia).
  rewrite entry_values_length in Hc1. pose proof Hw1 as [_ Hw2]%words_app. apply words_app in Hw2 as [Hret%words_cons Hw2].
  cbn [length] in Hw2. rewrite length_fmap in Hret, Hw2. change (length pop_all_order) with 15%nat in Hret, Hw2.
  set (m4 := set_reg rax n (set_reg rbp (m_cr3 m) (set_reg rbx sp m3))).
  assert (execs walk vector_code m3 = Some m4) as E4.
  { apply (vector_code_spec lo hi d n m3); [done|done| |done|].
    - change (get m3 rsp) with sp. destruct (has_error_code n); lia.
    - change (get m3 rsp) with sp. change (m_mem m3) with mem1. destruct Hret as [<- _]. f_equal. lia. }
  destruct (error_code_chain 64 m4 s) as (fuel1 & c & Hfuel & E5); [change (get m4 rax) with n; lia|].
  change (get m4 rax) with n in E5. set (m5 := set_cmp c m4) in *.
  destruct (frame_run (fuel1 - 8) n error_code (frame_of m) m5 s lo hi d) as (fuel2 & Hf2 & E6);
    [done|done|change (get m5 rsp) with sp; lia| |].
  { change (get m5 rsp) with sp. change (m_mem m5) with mem1. cbn [frame_of f_rip f_cs f_rflags f_rsp f_ss].
    by replace (sp + d + 8 * 16) with (sp + d + 8 * Z.of_nat 15 + 8 * Z.of_nat 1) by lia. }
  exists fuel2. eexists. split; [lia|]. split.
  { rewrite (interrupt_entry n error_code m s m3 E1). change 82%nat with (length vector_code + (12 + 64))%nat.
    rewrite (run_execs vector_code _ 48 _ _ _ ltac:(lazy; reflexivity) E4). change (48 + length vector_code)%nat with 54%nat.
    rewrite E5. replace fuel1 with (8 + (fuel1 - 8))%nat by lia. exact E6. }
  split; [exact Hw1|]. split; [|done]. intros x Hx. apply Hc1. lia.
Qed.

Lemma interrupt_spec n error_code m s lo hi d :
  interruptible n error_code m lo hi d →
  ∃ mem, words mem (saved_at n m + d) (reverse (entry_values n error_code m)) ∧
    (∀ x, ¬ (saved_at n m + d ≤ x < get m rsp + d) → ¬ (kend - 64 + kd ≤ x < kend + kd) → mem_at mem x = mem_at (m_mem m) x) ∧
    ∀ a h mem' s' lo' hi' d' g f,
      inner n (saved_at n m) (m_cr3 m) (frame_of m) (if has_error_code n then error_code mod 2 ^ 32 else 0) mem s =
        Some (a, h, mem', s') →
      (∀ x, kend - 64 + kd ≤ x < kend + kd → mem_at mem' x = mem_at mem x) →
      is_u64 a → linear walk a lo' hi' d' → lo' ≤ h → h + 21 * 8 ≤ hi' → saved mem' (h + d') g f →
      (∀ x, kend - 64 + kd ≤ x < kend + kd → ¬ (h + d' ≤ x < h + d' + 21 * 8)) →
      ∃ mem'' c, interrupt_process walk table_start handler_address link inner_link junk inner n error_code m s =
          Some (resumed g f a mem'' c, s') ∧ changed mem' (kend - 64 + kd) 64 mem''.
Proof.
  intros Hin. destruct (entry_run n error_code m s lo hi d Hin) as (fuel & m6 & Hfuel & E & Hw & Hc & (Hrax & Hrbx & Hrbp & Hr15) & Hframe).
  destruct Hin as [Hn Hv Hl [Hlo Hhi] Hptr Hap Haph].
  destruct (kernel_run (fuel - 49) m6 s) as (mem2 & Hc2 & Hk).
  { rewrite <- Hptr. apply word_ext. intros x Hx. apply Hc. intros Hx'. apply (Haph x Hx). lia. }
  { intros x Hx. by apply Hap. }
  { apply Forall_app in Hv as [Hv _]. cbn [fmap list_fmap].
    rewrite (f_equal f_rip Hframe : get m6 r10 = m_rip m), (f_equal f_cs Hframe : get m6 r11 = m_cs m),
      (f_equal f_rflags Hframe : get m6 r12 = m_rflags m), (f_equal f_rsp Hframe : get m6 r13 = get m rsp),
      (f_equal f_ss Hframe : get m6 r14 = m_ss m). exact Hv. }
  exists mem2. split_and!.
  - eapply words_ext; [|exact Hw]. intros x Hx. apply Hc2. intros Hx'. destruct (Hap x) as [Hno _]; [lia|]. apply Hno.
    rewrite length_reverse, entry_values_length in Hx. pose proof (Z.mod_pos_bound (get m rsp) 16 ltac:(lia)).
    unfold saved_at in *. destruct (has_error_code n); lia.
  - intros x Hx Hx'. rewrite Hc2, Hc by lia. done.
  - intros a h mem' s' lo' hi' d' g f Hi Hkeep Ha Hla Hlo' Hhi' Hs Hds. rewrite E.
    replace fuel with (49 + (fuel - 49))%nat by lia. eapply Hk; try done.
    rewrite Hrax, Hrbx, Hrbp, Hr15, Hframe, Z.mod_small by lia. rewrite <- Hi. f_equal. by destruct (has_error_code n).
Qed.

End run_lemmas.

(** ** Properties *)

(** Under the page tables of the kernel, its stack and the address of the handler are mapped. *)
Record kernel_mapped (walk : Z → Z → option Z) (link inner_link klo khi kd plo phi pd : Z) : Prop := {
  km_stack : linear walk page_table_physaddr klo khi kd ∧
    klo ≤ kernel_syscall_stack_end - 64 ∧ kernel_syscall_stack_end ≤ khi;
  km_handler : linear walk page_table_physaddr plo phi pd ∧
    plo ≤ interrupt_handler_ptr_addr ∧ interrupt_handler_ptr_addr + 8 ≤ phi;
  km_links : is_u64 link ∧ is_u64 inner_link;
}.

(** The part of the kernel stack that the trampoline uses. *)
Definition kernel_area (kd x : Z) : Prop :=
  kernel_syscall_stack_end - 64 + kd ≤ x < kernel_syscall_stack_end + kd.

(** A process with its registers saved under its page table. *)
Record resumable (walk : Z → Z → option Z) (kd pt sp : Z) (mem : gmap Z Z) (g : gprs) (f : iframe) (lo hi d : Z) : Prop := {
  rs_table : is_u64 pt;
  rs_stack : linear walk pt lo hi d ∧ lo ≤ sp ∧ sp + 21 * 8 ≤ hi;
  rs_saved : saved mem (sp + d) g f;
  rs_apart x : kernel_area kd x → ¬ (sp + d ≤ x < sp + d + 21 * 8);
}.

Lemma saved_words mem pa g f w :
  words mem pa ((gget g <$> pop_all_order) ++ [w] ++ [f_rip f; f_cs f; f_rflags f; f_rsp f; f_ss f]) → saved mem pa g f.
Proof.
  intros [Hr Hw]%words_app. apply words_app in Hw as [_ Hw]. split; [done|].
  rewrite length_fmap in Hw. change (length pop_all_order) with 15%nat in Hw. cbn [length] in Hw.
  by replace (pa + 16 * 8) with (pa + 8 * Z.of_nat 15 + 8 * Z.of_nat 1) by lia.
Qed.

(** C5: an interrupt of a process calls the kernel with the vector, the stack pointer, the page
    table and the interrupt frame of the process, whose registers are then in its memory; nothing
    else in memory has changed but the kernel stack.  When the kernel returns a process whose
    registers are saved, be it this one or another, that process goes on with exactly those
    registers, at that address and on its own page table and stack. *)
Theorem interrupt_exact {St} walk table_start handler_address link inner_link junk
    (inner : Z → Z → Z → iframe → Z → gmap Z Z → St → option (Z * Z * gmap Z Z * St))
    klo khi kd plo phi pd n error_code m s lo hi d
    (Hmap : kernel_mapped walk link inner_link klo khi kd plo phi pd)
    (Hin : interruptible walk table_start handler_address kd pd n error_code m lo hi d) :
  ∃ mem, words mem (saved_at n m + d) (get m <$> pop_all_order) ∧
    (has_error_code n = false → saved mem (saved_at n m + d) (m_regs m) (frame_of m)) ∧
    (∀ x, ¬ (saved_at n m + d ≤ x < get m rsp + d) → ¬ kernel_area kd x → mem_at mem x = mem_at (m_mem m) x) ∧
    ∀ pt' sp' mem' s' g f lo' hi' d',
      inner n (saved_at n m) (m_cr3 m) (frame_of m) (if has_error_code n then error_code mod 2 ^ 32 else 0) mem s =
        Some (pt', sp', mem', s') →
      (∀ x, kernel_area kd x → mem_at mem' x = mem_at mem x) →
      resumable walk kd pt' sp' mem' g f lo' hi' d' →
      ∃ m', interrupt_process walk table_start handler_address link inner_link junk inner n error_code m s = Some (m', s') ∧
        m_regs m' = gput g rsp (f_rsp f) ∧ frame_of m' = f ∧ m_cr3 m' = pt' ∧
        m_gdtr m' = (8 * 2 - 1, 0x1000) ∧ m_idtr m' = (0x100 * 16 - 1, 0) ∧
        (∀ x, ¬ kernel_area kd x → mem_at (m_mem m') x = mem_at mem' x).
Proof.
  destruct Hmap as [Hs Hp Hl].
  destruct (interrupt_spec walk table_start handler_address link inner_link junk inner klo khi kd plo phi pd Hs Hp Hl
    n error_code m s lo hi d Hin) as (mem & Hw & Ho & Hrest).
  rewrite entry_values_reverse in Hw. exists mem. split; [by apply words_app in Hw as [? _]|]. split.
  { intros He. rewrite He in Hw. by eapply saved_words. }
  split; [done|]. intros pt' sp' mem' s' g f lo' hi' d' Hi Hk [Hu (Hl' & Hlo & Hhi) Hsv Hap].
  destruct (Hrest pt' sp' mem' s' lo' hi' d' g f Hi Hk Hu Hl' Hlo Hhi Hsv Hap) as (mem'' & c & E & Hc).
  eexists. split; [exact E|]. split_and!; try done; [by destruct f|].
  intros x Hx. apply Hc. unfold kernel_area in Hx. lia.
Qed.

(** An interrupt with an error code leaves it below the frame, where [switch_to] takes it for the
    address to go on at: the kernel must not return from such an interrupt. *)
Lemma error_code_in_frame table_start n error_code m mem pa :
  has_error_code n = true → words mem pa (reverse (entry_values table_start n error_code m)) →
  saved mem pa (m_regs m) (MkFrame error_code (m_rip m) (m_cs m) (m_rflags m) (get m rsp)).
Proof.
  intros He Hw. rewrite entry_values_reverse, He in Hw. apply (saved_words _ _ _ _ (table_start + 5 * n + 5)).
  cbn [f_rip f_cs f_rflags f_rsp f_ss]. rewrite !words_app in *. destruct Hw as (? & ? & Herr & Hw). split_and!; [done|done|].
  apply words_cons. split; [by apply words_cons in Herr as [? _]|]. rewrite !words_cons in *. destruct Hw as (? & ? & ? & ? & _).
  by split_and!.
Qed.

(** The idle loop runs with interrupts enabled and the registers as they were, but for one word
    of stack. *)
Lemma idle_waits walk loop lo hi d m :
  linear walk (m_cr3 m) lo hi d → lo ≤ get m rsp - 40 → get m rsp ≤ hi → is_u64 loop →
  ∃ mem, idle walk loop m = Some (set_frame (MkFrame loop 0x8 0x202 (get m rsp - 8) 0x0) (set_mem mem m)) ∧
    changed (m_mem m) (get m rsp - 40 + d) 40 mem.
Proof.
  intros Hl Hlo Hhi Hloop. pose proof Hl as (H0 & H64 & _).
  destruct (pushes_spec walk lo hi d [0x0] m) as (mem1 & E1 & Hw1 & Hc1);
    [done|cbn [length]; lia|done|by repeat constructor|]. cbn [length] in *. change (8 * Z.of_nat 1) with 8 in *.
  set (m1 := on_stack (get m rsp - 8) mem1 m) in E1. assert (get m1 rsp = get m rsp - 8) as Hsp1 by apply get_set_eq.
  destruct (pushes_spec walk lo hi d [get m rsp - 8; 0x202; 0x8; loop] m1) as (mem2 & E2 & Hw2 & Hc2);
    [done|rewrite Hsp1; cbn [length]; lia|rewrite Hsp1; lia| |].
  { rewrite !Forall_cons. split_and!; try done. unfold is_u64, u64_max in *. lia. }
  cbn [length] in *. change (8 * Z.of_nat 4) with 32 in *. rewrite Hsp1 in E2, Hw2, Hc2.
  replace (get m rsp - 8 - 32) with (get m rsp - 40) in * by lia. change (m_mem m1) with mem1 in Hc2.
  set (m2 := on_stack (get m rsp - 40) mem2 m1) in E2. assert (get m2 rsp = get m rsp - 40) as Hsp2 by apply get_set_eq.
  assert (execs walk (idle_code loop) m = Some m2) as Ei.
  { transitivity (x ← pushes walk [0x0] m; pushes walk [get x rsp; 0x202; 0x8; loop] x).
    - cbn [idle_code execs exec pushes]. by destruct (push walk 8 0 m).
    - rewrite E1. cbn [mbind option_bind]. by rewrite Hsp1. }
  exists mem2. split.
  - unfold idle. rewrite Ei. cbn [mbind option_bind].
    rewrite (iretq_spec walk lo hi d (MkFrame loop 0x8 0x202 (get m rsp - 8) 0x0) m2); [|done|lia|lia|].
    + by destruct m as [[] ???? ? ?? ? ?].
    + rewrite Hsp2. change (m_mem m2) with mem2. apply (words_app mem2 _ [loop; 0x8; 0x202; get m rsp - 8] [0x0]).
      split; [exact Hw2|]. replace (get m rsp - 40 + d + 8 * Z.of_nat _) with (get m rsp - 8 + d) by (cbn [length]; lia).
      eapply words_ext; [|exact Hw1]. intros x Hx. apply Hc2. cbn [length] in Hx. lia.
  - eapply changed_trans; [exact Hc1|exact Hc2|lia..].
Qed.

(** ** Examples *)

(** The stack of a process at 0x1000000, the kernel stack at 0x3000000, low memory as it is. *)
Definition example_walk (pt a : Z) : option Z :=
  if pt =? page_table_physaddr then
    if (kernel_syscall_stack <=? a) && (a <? kernel_syscall_stack + 0x200000)
    then Some (a + (0x3000000 - kernel_syscall_stack))
    else if (0 <=? a) && (a <? 0x200000) then Some (a + 0) else None
  else if (pt =? 0x600000) && (0x400000 <=? a) && (a <? 0x800000) then Some (a + (0x1000000 - 0x400000))
  else None.

Definition example_machine : machine :=
  MkMachine (MkGprs 1 2 3 4 5 6 7 0x500008 8 9 10 11 12 13 14 15) 0x1000010 0x8 0x202 0 0x600000 (0, 0) (0, 0) Eq
    (write_bytes ∅ interrupt_handler_ptr_addr (to_le 8 0x1000abc)).

Lemma example_kernel_mapped :
  kernel_mapped example_walk 0x200800 0x1000def kernel_syscall_stack (kernel_syscall_stack + 0x200000)
    (0x3000000 - kernel_syscall_stack) 0 0x200000 0.
Proof.
  split.
  - split; [|split; vm_compute; discriminate]. split; [vm_compute; discriminate|]. split; [vm_compute; discriminate|].
    intros a Ha. unfold example_walk. rewrite Z.eqb_refl. by rewrite (proj2 (Z.leb_le _ a)), (proj2 (Z.ltb_lt a _)) by lia.
  - split; [|split; vm_compute; discriminate]. split; [done|]. split; [vm_compute; discriminate|].
    intros a Ha. unfold example_walk. rewrite Z.eqb_refl. unfold kernel_syscall_stack. rewrite (proj2 (Z.leb_gt _ a)) by lia.
    cbn [andb]. by rewrite (proj2 (Z.leb_le _ a)), (proj2 (Z.ltb_lt a _)) by lia.
  - split; split; vm_compute; (discriminate || reflexivity).
Qed.

Lemma example_interruptible n :
  0 ≤ n < 256 → has_error_code n = false →
  interruptible example_walk 0x200100 0x1000abc (0x3000000 - kernel_syscall_stack) 0 n 0 example_machine 0x400000 0x800000
    (0x1000000 - 0x400000).
Proof.
  intros Hn He. assert (saved_at n example_machine = 0x500000 - 8 * 21) as Hsp by (unfold saved_at; by rewrite He).
  assert (get example_machine rsp = 0x500008) as Hr by done. split; rewrite ?Hsp, ?Hr.
  - done.
  - unfold entry_values. rewrite He. apply Forall_forall. intros x Hx. unfold is_u64. rewrite u64_size_eq.
    cbn in Hx. rewrite !elem_of_cons, elem_of_nil in Hx. lia.
  - split; [done|]. split; [vm_compute; discriminate|]. intros a Ha. unfold example_walk. change (m_cr3 example_machine) with 0x600000.
    change (0x600000 =? page_table_physaddr) with false. rewrite Z.eqb_refl. cbn [andb].
    by rewrite (proj2 (Z.leb_le _ a)), (proj2 (Z.ltb_lt a _)) by lia.
  - lia.
  - vm_compute. reflexivity.
  - intros x Hx. unfold kernel_syscall_stack_end, kernel_syscall_stack, kernel_syscall_stack_size, interrupt_handler_ptr_addr in *. lia.
  - intros x Hx. unfold interrupt_handler_ptr_addr in *. lia.
Qed.

Lemma interrupt_exact_witness :
  ∃ m', interrupt_process example_walk 0x200100 0x1000abc 0x200800 0x1000def (λ _, 99)
      (λ n sp pt f e mem s, Some (pt, sp, mem, s ++ [n])) 0x2e 0 example_machine [] = Some (m', [0x2e]) ∧
    m_regs m' = m_regs example_machine ∧ frame_of m' = frame_of example_machine ∧ m_cr3 m' = 0x600000.
Proof.
  destruct (interrupt_exact example_walk 0x200100 0x1000abc 0x200800 0x1000def (λ _, 99)
    (λ n sp pt f e mem s, Some (pt, sp, mem, s ++ [n])) _ _ _ _ _ _ 0x2e 0 example_machine [] _ _ _
    example_kernel_mapped (example_interruptible 0x2e ltac:(lia) eq_refl)) as (mem & _ & Hs & _ & Hrest).
  destruct (Hrest 0x600000 (saved_at 0x2e example_machine) mem [0x2e] (m_regs example_machine) (frame_of example_machine) 0x400000 0x800000 (0x1000000 - 0x400000))
    as (m' & E & Hr & Hf & Hc & _); [reflexivity|reflexivity| |exists m'; exact (conj E (conj Hr (conj Hf Hc)))].
  split.
  - split; vm_compute; (discriminate || reflexivity).
  - split; [|split; vm_compute; discriminate]. apply (in_stack _ _ _ _ _ _ _ _ _ _ _ (example_interruptible 0x2e ltac:(lia) eq_refl)).
  - apply Hs. reflexivity.
  - intros x Hx. change (saved_at 0x2e example_machine) with (0x500000 - 8 * 21).
    unfold kernel_area, kernel_syscall_stack_end, kernel_syscall_stack, kernel_syscall_stack_size in Hx. lia.
Defined.
