(* ===== verification/SyscallReturn.v ===== *)
(** * SyscallReturn: the trampoline with the kernel

    With [process_interrupt_inner] of Interrupt as the function that the trampoline calls, a system
    call goes from the registers of the process to the kernel and back, and the first process starts
    at its entry point. *)

From stdpp Require Import base gmap list strings.
From Stdlib Require Import ZArith Lia.
From S2P Require Import Prelude Abi Queues Ipc IpcProps IpcCalls Clocks Scheduler SchedulerProps Bytes Ranges VirtAlloc PageMap Args.
From S2P Require Import ProcessMem Elf Process Syscall SyscallProps Interrupt InterruptProps KernelStart Processor Trampoline.
Open Scope Z_scope.

(** ** System calls *)

Section syscalls.
Context `{HO : HashOrder} `{PC : Pinecone} `{PagingOps} `{!AlignOps}
  {A : Type} `{!PhysAlloc A} {PfCode : Type}.
Context (clk : Clock) (now : BSPInstant) (random : Z)
  (garbage : gmap Z (gmap Z entry)) (idt common : Z)
  (rd : InitRD) (services : gmap SubscriptionId Service)
  (message_to_vec : Message → option (list Z))
  (encode : ProcessId → ProcessResult iframe PfCode → option (list byte))
  (encode_u8 : Z → option (list byte)) (encode_unit : option (list byte))
  (pic_enabled : bool) (isr : Z) (fuel : nat) (ps2 : Ps2Port) (cr2 : Z) (pf_from_bits : Z → option PfCode).

Abbreviation K := (kernel (A := A)).

(** [process_interrupt_inner] as the function that is called: the two halves of what it returns. *)
Definition kernel_inner (n sp pt : Z) (f : iframe) (error_code : Z) (mem : gmap Z Z) (k : K)
    : option (Z * Z * gmap Z Z * K) :=
  match process_interrupt_inner clk now true random garbage idt common rd services message_to_vec
          encode encode_u8 encode_unit pic_enabled isr fuel true ps2 cr2 pf_from_bits
          n sp pt f error_code (set_k_phys (k_phys k, mem) k) with
  | Some (Ret (ExitReturn v, k)) => Some (wrap64 v, Z.shiftr v 64, k_mem k, k)
  | _ => None
  end.

Abbreviation run_call_of := (run_syscall (Frame := iframe) (PfCode := PfCode) clk now true random garbage idt common rd
  services message_to_vec).

(** The process and the kernel once the registers are saved. *)
Definition saved_process (p : Process ProcMem) (sp : Z) : Process ProcMem :=
  MkProcess (p4_addr p) sp (repeat_syscall p) (process_id p) (process_memory p).
Definition at_entry (k : K) (pid : ProcessId) (p : Process ProcMem) (sp : Z) (mem : gmap Z Z) : K :=
  set_k_sched (set_processes (<[pid := saved_process p sp]> (processes (k_sched k))) (k_sched k))
    (set_k_phys (k_phys k, mem) k).

(** The two result registers, as the kernel writes them. *)
Definition success_of (r : result Z Z) : Z := match r with Ok _ => 1 | Err _ => 0 end.
Definition value_of (r : result Z Z) : Z := match r with Ok v => v | Err v => v end.
Definition with_result (mem : gmap Z Z) (pa : Z) (r : result Z Z) : gmap Z Z :=
  write_bytes (write_bytes mem (pa + 0 * 8) (to_le 8 (success_of r))) (pa + 5 * 8) (to_le 8 (value_of r)).

Lemma handle_continue (k : K) pid p r k1 p1 :
  sched_wf (k_sched k) → next_pid (k_sched k) ≤ u64_max → processes (k_sched k) !! pid = Some p → stack_ok p →
  run_call_of (call_of (k_mem k) p) (taken k pid, p) = Ret (Continue r, (k1, p1)) →
  ∃ k', handle_syscall (Frame := iframe) (PfCode := PfCode) clk now true random garbage idt common rd services
      message_to_vec pid k = Ret (ActContinue, k') ∧
    k_mem k' = with_result (k_mem k1) (stack_memory (process_memory p) + (stack_pointer p - PROCESS_STACK)) r.
Proof.
  intros Hwf Hmax Hp Hsp Hrun. pose proof (run_stays _ _ _ _ _ _ _ _ _ _ _ _ _ _ _ Hwf Hmax Hp Hrun) as Hs.
  pose proof Hs as [_ _ _ Hsp1 Hst _ _ _]. cbn in Hsp1, Hst.
  assert (stack_ok p1) as Hok1 by (unfold stack_ok; by rewrite Hsp1).
  unfold handle_syscall. cbn [rassert mbind outcome_bind Scheduler_take_process_by_id].
  rewrite Hp. cbn [expect mbind outcome_bind]. fold (taken k pid).
  change (k_mem (taken k pid)) with (k_mem k). rewrite !read_stack_ok by (done || lia).
  cbn [mbind outcome_bind]. fold (call_of (k_mem k) p). rewrite Hrun. cbn [mbind outcome_bind].
  unfold write_result, write_stack_u64. rewrite !stack_item_ok by (done || lia). cbn [mbind outcome_bind].
  eexists. split; [reflexivity|]. cbn [k_mem set_k_sched set_k_phys snd]. unfold with_result. rewrite Hst, Hsp1.
  by rewrite !(Z.add_assoc (stack_memory (process_memory p))).
Qed.

Lemma pair_high sp pt : 0 ≤ sp → 0 ≤ pt < 2 ^ 64 → Z.shiftr (process_pair_to_u128 sp pt) 64 = sp.
Proof.
  intros Hs Hp. unfold process_pair_to_u128. rewrite Z.shiftr_lor, Z.shiftr_shiftl_l, Z.sub_diag, Z.shiftl_0_r by lia.
  by rewrite Z.shiftr_div_pow2, Z.div_small, Z.lor_0_r by lia.
Qed.

Lemma kernel_inner_continue (k : K) pid p sp mem f r k1 p1 :
  sched_wf (k_sched k) → next_pid (k_sched k) ≤ u64_max → sched_running (k_sched k) = Some pid →
  processes (k_sched k) !! pid = Some p → stack_ok (saved_process p sp) → is_u64 (p4_addr p) →
  run_call_of (call_of mem (saved_process p sp)) (taken (at_entry k pid p sp mem) pid, saved_process p sp) =
    Ret (Continue r, (k1, p1)) →
  ∃ k', kernel_inner 0xd7 sp (p4_addr p) f 0 mem k =
    Some (p4_addr p, sp, with_result (k_mem k1) (stack_memory (process_memory p) + (sp - PROCESS_STACK)) r, k').
Proof.
  intros Hwf Hmax Hr Hp Hsp Hpt Hrun. pose proof (sw_id _ Hwf _ _ Hp) as Hid.
  assert (sched_wf (k_sched (at_entry k pid p sp mem))) as Hwf' by (by eapply update_wf).
  destruct (handle_continue (at_entry k pid p sp mem) pid (saved_process p sp) r k1 p1) as (k' & Eh & Hm);
    [done|done|apply lookup_insert_eq|done|done|].
  exists k'. unfold kernel_inner, process_interrupt_inner.
  assert (Scheduler_get_running_pid (k_sched (set_k_phys (k_phys k, mem) k)) = Some pid) as -> by exact Hr.
  change (k_sched (set_k_phys (k_phys k, mem) k)) with (k_sched k).
  unfold Scheduler_store_state. rewrite Hp, Z.eqb_refl. cbn [rassert mbind outcome_bind]. unfold dispatch.
  change (0xd7 =? 0xd7) with true. cbn iota. fold (saved_process p sp). fold (at_entry k pid p sp mem). rewrite Eh. cbn.
  destruct Hsp as [Hsp _]. cbn in Hsp. unfold PROCESS_STACK in Hsp.
  rewrite pair_low by (unfold is_u64 in Hpt; rewrite u64_size_eq in Hpt; lia).
  rewrite pair_high by (unfold is_u64 in Hpt; rewrite u64_size_eq in Hpt; lia). by rewrite Hm.
Qed.

(** The saved registers with the result. *)
Definition answered (g : gprs) (r : result Z Z) : gprs := gput (gput g rax (success_of r)) rdi (wrap64 (value_of r)).

Lemma saved_result mem pa g f r : saved mem pa g f → saved (with_result mem pa r) pa (answered g r) f.
Proof.
  intros [Hw Hf]. unfold with_result. split.
  - intros i w Hi. pose proof (lookup_lt_Some _ _ _ Hi) as Hlt. change (length _) with 15%nat in Hlt.
    destruct (decide (i = 5)%nat) as [->|Hi5].
    { change (8 * Z.of_nat 5) with (5 * 8). rewrite word_write_wrap. by injection Hi as <-. }
    rewrite word_write_ne by lia. destruct (decide (i = 0)%nat) as [->|Hi0].
    { change (8 * Z.of_nat 0) with (0 * 8). rewrite word_write_wrap. injection Hi as <-. by destruct r. }
    rewrite word_write_ne by lia. apply Hw. rewrite <- Hi. do 15 (destruct i as [|i]; [done|]). lia.
  - eapply words_ext; [|exact Hf]. intros x Hx. cbn [length] in Hx.
    rewrite (write_changed _ (pa + 5 * 8) 8), (write_changed _ (pa + 0 * 8) 8) by lia. done.
Qed.

End syscalls.

Lemma saved_word_reg `{PagingOps} mem p sp g f r i :
  saved mem (stack_memory (process_memory p) + (sp - PROCESS_STACK)) g f → pop_all_order !! i = Some r → is_u64 (gget g r) →
  saved_word mem (saved_process p sp) (Z.of_nat i) = gget g r.
Proof.
  intros [Hw _] Hi Hu. unfold saved_word. rewrite <- word_read.
  cbn [process_memory stack_pointer saved_process]. rewrite <- (wrap64_small (gget g r)) by done. f_equal.
  replace (stack_memory (process_memory p) + (sp - PROCESS_STACK + Z.of_nat i * 8))
    with (stack_memory (process_memory p) + (sp - PROCESS_STACK) + 8 * Z.of_nat i) by lia.
  apply Hw. by rewrite list_lookup_fmap, Hi.
Qed.

Lemma all_pushed r : r ≠ rsp → r ∈ push_all_order.
Proof. intros Hr. apply (bool_decide_eq_true_1 (r ∈ push_all_order)). by destruct r. Qed.

(** The call in the saved registers. *)
Lemma saved_call `{PagingOps} mem p sp g f :
  saved mem (stack_memory (process_memory p) + (sp - PROCESS_STACK)) g f → (∀ r, r ≠ rsp → is_u64 (gget g r)) →
  call_of mem (saved_process p sp) = MkRawSyscall (gget g rax) (gget g rdi) (gget g rsi) (gget g rdx) (gget g rcx).
Proof.
  intros Hs Hu. pose proof (λ r i, saved_word_reg mem p sp g f r i Hs) as Hr. unfold call_of. f_equal.
  - by apply (Hr rax 0%nat eq_refl), Hu.
  - by apply (Hr rdi 5%nat eq_refl), Hu.
  - by apply (Hr rsi 4%nat eq_refl), Hu.
  - by apply (Hr rdx 3%nat eq_refl), Hu.
  - by apply (Hr rcx 2%nat eq_refl), Hu.
Qed.

Lemma with_result_other mem pa r x : ¬ (pa ≤ x < pa + 6 * 8) → mem_at (with_result mem pa r) x = mem_at mem x.
Proof.
  intros Hx. unfold with_result. rewrite (write_changed _ (pa + 5 * 8) 8), (write_changed _ (pa + 0 * 8) 8) by lia. done.
Qed.

(** C7: a system call that is carried out returns to the process that made it.  The kernel gets
    the call from the registers [rax], [rdi], [rsi], [rdx] and [rcx]; unless the call itself writes
    over them, the process goes on behind the interrupt with the answer in [rax] and [rdi] and every
    other register, its flags, its stack and its page table as they were. *)
Theorem call_returns `{HO : HashOrder} `{PC : Pinecone} `{PagingOps} `{!AlignOps} {A : Type} `{!PhysAlloc A} {PfCode : Type}
    walk table_start handler_address link inner_link junk klo khi kd plo phi pd
    clk now random garbage idt common rd services message_to_vec
    (encode : ProcessId → ProcessResult iframe PfCode → option (list byte)) encode_u8 encode_unit pic_enabled isr fuel
    ps2 cr2 pf_from_bits (k : kernel (A := A)) pid p m
    (Hmap : kernel_mapped walk link inner_link klo khi kd plo phi pd)
    (Hwf : sched_wf (k_sched k)) (Hmax : next_pid (k_sched k) ≤ u64_max)
    (Hrun : sched_running (k_sched k) = Some pid) (Hp : processes (k_sched k) !! pid = Some p)
    (Hp4 : p4_addr p = m_cr3 m) (Hu : is_u64 (m_cr3 m))
    (Hin : interruptible walk table_start handler_address kd pd 0xd7 0 m PROCESS_STACK PROCESS_STACK_END
      (stack_memory (process_memory p) - PROCESS_STACK)) :
  let sp := saved_at 0xd7 m in
  let pa := stack_memory (process_memory p) + (sp - PROCESS_STACK) in
  ∃ mem, saved mem pa (m_regs m) (frame_of m) ∧
    (∀ x, ¬ (pa ≤ x < pa + (get m rsp - sp)) → ¬ kernel_area kd x → mem_at mem x = mem_at (m_mem m) x) ∧
    ∀ r k1 p1,
      run_syscall (Frame := iframe) (PfCode := PfCode) clk now true random garbage idt common rd services message_to_vec
        (MkRawSyscall (get m rax) (get m rdi) (get m rsi) (get m rdx) (get m rcx))
        (taken (at_entry k pid p sp mem) pid, saved_process p sp) = Ret (Continue r, (k1, p1)) →
      (∀ x, pa ≤ x < pa + 21 * 8 ∨ kernel_area kd x → mem_at (k_mem k1) x = mem_at mem x) →
      ∃ m' k', interrupt_process walk table_start handler_address link inner_link junk
          (kernel_inner clk now random garbage idt common rd services message_to_vec encode encode_u8 encode_unit
            pic_enabled isr fuel ps2 cr2 pf_from_bits) 0xd7 0 m k = Some (m', k') ∧
        m_regs m' = answered (m_regs m) r ∧ frame_of m' = frame_of m ∧ m_cr3 m' = m_cr3 m.
Proof.
  intros sp pa. destruct Hmap as [Hks Hkp Hl]. pose proof Hin as [_ Hv Hst [Hroom Htop] _ Hap _].
  destruct (interrupt_spec walk table_start handler_address link inner_link junk
    (kernel_inner clk now random garbage idt common rd services message_to_vec encode encode_u8 encode_unit
      pic_enabled isr fuel ps2 cr2 pf_from_bits) klo khi kd plo phi pd Hks Hkp Hl 0xd7 0 m k _ _ _ Hin)
    as (mem & Hw & Ho & Hrest). clear Hin.
  fold sp in Hw, Ho, Hrest, Hap, Hroom. replace (sp + (stack_memory (process_memory p) - PROCESS_STACK)) with pa in * by (unfold pa; lia).
  rewrite entry_values_reverse in Hw. assert (saved mem pa (m_regs m) (frame_of m)) as Hsv by (by eapply saved_words).
  pose proof (Z.mod_pos_bound (get m rsp) 16 ltac:(lia)) as Hmod.
  assert (sp + 21 * 8 ≤ get m rsp) as Hsp by (unfold sp, saved_at; change (has_error_code 0xd7) with false; lia).
  exists mem. split; [done|]. split; [intros x Hx Hx'; apply Ho; [unfold pa in *; lia|done]|].
  intros r k1 p1 Hcall Hkeep.
  assert (∀ q, q ≠ rsp → is_u64 (get m q)) as Hregs.
  { intros q Hq. rewrite Forall_forall in Hv. apply Hv. unfold entry_values. rewrite !elem_of_app. right; right; right.
    apply list_elem_of_fmap. exists q. split; [done|]. by apply all_pushed. }
  destruct (kernel_inner_continue clk now random garbage idt common rd services message_to_vec encode encode_u8 encode_unit
    pic_enabled isr fuel ps2 cr2 pf_from_bits k pid p sp mem (frame_of m) r k1 p1) as [k' Ek];
    [done|done|done|done|split; cbn; unfold PROCESS_STACK in *; lia|by rewrite Hp4| |].
  { rewrite (saved_call mem p sp (m_regs m) (frame_of m)) by done. exact Hcall. }
  fold pa in Ek. rewrite Hp4 in Ek.
  destruct (Hrest (m_cr3 m) sp (with_result (k_mem k1) pa r) k' PROCESS_STACK PROCESS_STACK_END
    (stack_memory (process_memory p) - PROCESS_STACK) (answered (m_regs m) r) (frame_of m)) as (mem' & c & E & _); try done.
  - intros x Hx. rewrite with_result_other by (destruct (Hap x Hx); unfold pa in *; lia). by apply Hkeep; right.
  - lia.
  - replace (sp + (stack_memory (process_memory p) - PROCESS_STACK)) with pa by (unfold pa; lia).
    apply saved_result. eapply saved_ext; [|exact Hsv]. intros x Hx. by apply Hkeep; left.
  - intros x Hx. destruct (Hap x Hx). unfold pa in *. lia.
  - eexists _, k'. split; [exact E|]. split; [|done].
    cbn [resumed m_regs frame_of f_rsp]. unfold get. by destruct (m_regs m).
Qed.

Lemma bytes_words mem a vs rest :
  (∀ i b, (concat (to_le 8 <$> vs) ++ rest) !! i = Some b → mem_at mem (a + Z.of_nat i) = b) → Forall is_u64 vs → words mem a vs.
Proof.
  revert a. induction vs as [|v vs IH]; intros a Hb Hv; [by intros i w ?|]. apply Forall_cons in Hv as [Hv Hvs].
  cbn [fmap list_fmap concat] in Hb. rewrite <- (assoc_L (++)) in Hb. apply words_cons. split.
  - unfold word. rewrite <- (Z.mod_small v (256 ^ Z.of_nat 8)) by exact Hv. rewrite <- from_le_to_le. f_equal.
    apply list_eq. intros i. rewrite list_lookup_fmap. destruct (decide (i < 8)%nat) as [Hi|Hi].
    + rewrite lookup_seqZ_lt by lia. cbn [fmap option_fmap option_map].
      destruct (lookup_lt_is_Some_2 (to_le 8 v) i) as [b Eb]; [by rewrite to_le_length|]. rewrite Eb. f_equal.
      apply Hb. by apply lookup_app_l_Some.
    + rewrite lookup_seqZ_ge by lia. symmetry. apply lookup_ge_None_2. rewrite to_le_length. lia.
  - apply IH; [|done]. intros i b Eb. rewrite <- (Hb (8 + i)%nat b); [f_equal; lia|].
    rewrite lookup_app_r by (rewrite to_le_length; lia). rewrite to_le_length. by replace (8 + i - 8)%nat with i by lia.
Qed.

Lemma daemon_saved `{PagingLaws} image idt common used p mem :
  daemon_ready image idt common used p mem → is_u64 (program_entry_pos (read_header (sub_slice image 0 64))) →
  saved mem (stack_memory (process_memory p) + (stack_pointer p - PROCESS_STACK)) (gprs_of (λ _, 0))
    (MkFrame (program_entry_pos (read_header (sub_slice image 0 64))) 0x8 0x202 (PROCESS_STACK_END - args_size_in_memory []) 0).
Proof.
  intros [_ _ _ _ _ Hsp Hst Hz] He. assert (stack_pointer p - PROCESS_STACK = 4194304 - 176) as Hsp' by (rewrite Hsp; done).
  split.
  - intros i w Hi. assert (w = 0) as ->.
    { apply list_lookup_fmap_Some in Hi as (r & -> & _). by destruct r. }
    apply lookup_lt_Some in Hi. change (length _) with 15%nat in Hi. unfold word.
    rewrite (bytes_ext ∅) by (intros x Hx; replace x with (stack_memory (process_memory p) + (x - stack_memory (process_memory p))) by lia;
      rewrite Hz by lia; done). by vm_compute.
  - cbn [f_rip f_cs f_rflags f_rsp f_ss]. eapply bytes_words; [|rewrite !Forall_cons; by split_and!].
    intros i b Hi. rewrite <- (Hst i b Hi). f_equal. lia.
Qed.

(** The first process is entered at its entry point, with an empty stack below the arguments and
    every register zero. *)
Theorem daemon_enters `{PagingLaws} {St} walk table_start handler_address link inner_link junk
    (inner : Z → Z → Z → iframe → Z → gmap Z Z → St → option (Z * Z * gmap Z Z * St))
    image idt common used p m s klo khi kd
    (Hready : daemon_ready image idt common used p (m_mem m))
    (He : is_u64 (program_entry_pos (read_header (sub_slice image 0 64))))
    (Hk : linear walk (m_cr3 m) klo khi kd ∧ klo ≤ get m rsp - 18 ∧ get m rsp ≤ khi)
    (Hst : linear walk (p4_addr p) PROCESS_STACK PROCESS_STACK_END (stack_memory (process_memory p) - PROCESS_STACK))
    (Hap : ∀ x, get m rsp - 18 + kd ≤ x < get m rsp + kd →
      ¬ (stack_memory (process_memory p) ≤ x < stack_memory (process_memory p) + stack_size_bytes)) :
  ∃ m', jump_switch_to walk table_start handler_address link inner_link junk inner (p4_addr p) (stack_pointer p) m s = Some (m', s) ∧
    m_cr3 m' = p4_addr p ∧ m_rip m' = program_entry_pos (read_header (sub_slice image 0 64)) ∧
    get m' rsp = PROCESS_STACK_END - args_size_in_memory [] ∧ m_rflags m' = 0x202 ∧ m_cs m' = 0x8 ∧
    ∀ r, r ≠ rsp → get m' r = 0.
Proof.
  pose proof (daemon_saved image idt common used p (m_mem m) Hready He) as Hsv. destruct Hk as (Hk & Hklo & Hkhi).
  destruct Hready as [_ _ [_ [Hpt _]] _ _ Hsp _ _].
  assert (stack_pointer p = PROCESS_STACK + stack_size_bytes - 176) as Hsp' by (rewrite Hsp; done).
  unfold jump_switch_to. change (label table_start "switch_to") with (Some 0%nat). cbn [mbind option_bind].
  change (code_fuel table_start) with (32 + 66)%nat. set (m1 := set_reg rdx _ _).
  destruct (switch_to_run walk table_start handler_address link inner_link junk inner 66 (p4_addr p) (stack_pointer p) m1 s
    klo khi kd PROCESS_STACK PROCESS_STACK_END (stack_memory (process_memory p) - PROCESS_STACK) (gprs_of (λ _, 0))
    (MkFrame (program_entry_pos (read_header (sub_slice image 0 64))) 0x8 0x202 (PROCESS_STACK_END - args_size_in_memory []) 0))
    as (mem & E & _); try done.
  - unfold is_u64. rewrite u64_size_eq. lia.
  - rewrite Hsp'. unfold stack_size_bytes, PROCESS_STACK_SIZE_PAGES, PAGE_SIZE_BYTES. lia.
  - rewrite Hsp'. unfold PROCESS_STACK_END. lia.
  - by replace (stack_pointer p + (stack_memory (process_memory p) - PROCESS_STACK))
      with (stack_memory (process_memory p) + (stack_pointer p - PROCESS_STACK)) by lia.
  - intros x Hx Hx'. apply (Hap x Hx). rewrite Hsp' in Hx'. change stack_size_bytes with 4194304 in *. lia.
  - eexists. split; [exact E|]. split_and!; try done. by intros [].
Qed.

(** Process 1 asks for its id. *)
Lemma call_returns_witness :
  ∃ m' k', interrupt_process example_walk 0x200100 0x1000abc 0x200800 0x1000def (λ _, 99)
      (kernel_inner (PC := example_pinecone) (PfCode := unit) example_clock 0 0 ∅ 0 0 {| files := ∅; slice := [] |} ∅ (λ _, None)
        (λ _ _, Some []) (λ _, Some []) (Some []) true 0 0 (MkPs2Port (λ _, 1) 0) 0 (λ _, None)) 0xd7 0 example_machine example_calling = Some (m', k') ∧
    m_regs m' = answered (m_regs example_machine) (Ok 1) ∧ frame_of m' = frame_of example_machine ∧ m_cr3 m' = 0x600000.
Proof.
  destruct (call_returns (PC := example_pinecone) (PfCode := unit) example_walk 0x200100 0x1000abc 0x200800 0x1000def (λ _, 99)
    _ _ _ _ _ _ example_clock 0 0 ∅ 0 0 {| files := ∅; slice := [] |} ∅ (λ _, None)
    (λ _ _, Some []) (λ _, Some []) (Some []) true 0 0 (MkPs2Port (λ _, 1) 0) 0 (λ _, None) example_calling 1 example_caller example_machine
    example_kernel_mapped example_calling_wf) as (mem & _ & _ & Hrest).
  - vm_compute. discriminate.
  - reflexivity.
  - reflexivity.
  - reflexivity.
  - split; vm_compute; (discriminate || reflexivity).
  - exact (example_interruptible 0xd7 ltac:(lia) eq_refl).
  - eapply (Hrest (Ok 1)); reflexivity.
Defined.
